(* ===== verification/_CoqProject ===== *)
-Q . S2P
Prelude.v
DList.v
Pmm.v
PmmBitmap.v
PmmBuddy.v
PmmInit.v
Ptm.v
PtmProofs.v
Vmalloc.v
Slab.v
SlabProofs.v
Vmm.v
PtmSpace.v
Mm.v
MmProofs.v
MmCreate.v
MmCopy.v
MmDemo.v
Vfs.v
RamFs.v
RamFsProofs.v
VfsProofs.v
Fat32.v
Fat32Cache.v
Fat32Chain.v
Fat32File.v
Fat32Names.v
KLib.v
Kmalloc.v
Kprint.v
Keyboard.v
TtyFs.v
TtyVfs.v
Sync.v
Sched.v
SchedProofs.v
Task.v
TaskProofs.v
Elf.v
ElfProofs.v
Proc.v
ProcProofs.v
ProcRun.v
Ata.v
AtaProofs.v
Syscall.v
SyscallProofs.v
Fb.v
Term.v
TermProofs.v
Acpi.v
Cpuf.v
Irq.v
Desc.v
DescProofs.v
IrqProofs.v
Timer.v
TimerProofs.v
Panic.v
Drivers.v
DriversProofs.v
Smp.v
Libc.v
LibcProofs.v
UserLaws.v
UserDemo.v
Shell.v
ShellProofs.v
ShellRun.v
ShellPath.v
ShellTurn.v
UserAbi.v
