(* ===== verification/Prelude.v ===== *)
(** * seekos: a verification library for the kernel

    seekos is a small 64-bit kernel in C.  This library translates the parts of it
    that carry its logic into Gallina, function by function, and proves what makes
    them correct.  Paths below are under [src/kernel/src/] and
    [src/kernel/include/], those of the C library and the programs under [src/].

    ** The program and its parts

    Start-up.  The boot loader hands over a memory map.  The physical memory manager
    ([mm/pmm.c]) finds the usable frames in it, keeps a bitmap for the time of the
    boot and then a buddy allocator.  The segment and interrupt tables
    ([system/gdt.c], [system/idt.c]) are built and loaded, the firmware tables
    ([system/acpi.c], [system/madt.c]) list the processors and interrupt controllers,
    and [system/apic.c] and [system/isr.c] route device lines to handlers.  The timers of
    [system/hpet.c], [system/tsc.c] and [system/timer.c] give time and the tick of the scheduler;
    [system/smp.c] starts the second processor.

    Memory.  Frames become memory through the page tables ([mm/ptm.c]) and the page
    runs of [mm/vmm.c]; on the runs stands the slab allocator (also in [mm/vmm.c]) and
    on that, together with the virtual areas of [mm/vmalloc.c], the kernel heap
    [mm/kmalloc.c].  Every address space is a list of virtual areas.

    Tasks.  [proc/task.c] makes, copies and releases tasks, [proc/elf.c] loads their
    images, and [proc/sched.c] queues and switches them, forks, replaces and collects
    them; they wait for events, which interrupt handlers publish through
    [proc/kevent.c].  User programs enter through [proc/syscall.c].

    Files and devices.  The switch [fs/vfs.c] mounts file systems, walks paths and
    owns the descriptors; below it stand the archive [fs/ramfs.c], the FAT32 volume
    [fs/fat32.c] over the disk driver [device/storage/ata.c], and the
    terminal [fs/ttyfs.c], which turns the key events of [device/keyboard/] into lines
    and prints to [device/display/].  Log output is formatted by [log/kprint.c]; a panic
    ([panic/panic.c]) shows its report and sends it over [com/serial.c].

    Programs.  The library [libc/] formats, copies and allocates for user programs through the
    system calls; the shell [user/shell.c] reads a line, splits it, finds the program and runs it.

    All queues are the intrusive lists of [base/linkedlist.c], and all shared state is
    behind the locks of [base/spinlock.c], [base/kmutex.c] and [base/ksemaphore.c].

    ** The files

    - [Prelude]: C integers of fixed width as wrapped [Z], tactics, hint databases,
      and lemmas on lists, sums and bits that several components share.
    - [DList]: [base/linkedlist.c] on a heap of nodes with faults.  Insertion,
      removal and traversal refine operations on sequences ([l_add_prev] and so on);
      the other components hold their queues as sequences and change them with these.
    - [Pmm]: all of [mm/pmm.c] as functions of the record [kmem_info_t].
      [PmmBitmap], [PmmBuddy] and [PmmInit] hold its proofs: the bitmap as a set of
      pages with first fit; the buddy invariant, allocation and release on every branch,
      and the conservation of frames over any run of them; the initialisation from
      a memory map.
    - [Ptm], [PtmProofs]: [mm/ptm.c] on a physical memory of table entries with the
      recursive window the code walks through; mapping, unmapping and translation of
      ranges.  [PtmSpace] makes them an instance of the interface [AddrSpace], so
      that what is proved of the areas holds of the page tables.
    - [Vmalloc]: the areas of [mm/vmalloc.c] over the interface [AddrSpace].  Search
      with and without an address, allocation and release in step with the
      page tables for both, tear-down of an address space.
    - [Mm]: whole address spaces on the page tables: creation, copy, access and release.
      [MmProofs]: two spaces over one memory that share the kernel half and nothing else,
      and what mapping and storing in one of them leaves of the other.  [MmCreate]: a
      new space next to the current one.  [MmCopy]: the copy for a fork is private.
      [MmDemo]: a concrete fork.
    - [Slab] and [SlabProofs]: the slab part of [mm/vmm.c] and [mm/kmalloc.c] over the
      interfaces [PageSource] and [AddrSpace].  Free lists are pointer chains through
      memory.  Every call on every branch, safety over any run in which owners may
      overwrite their objects, and the size classes of the heap.  [Kmalloc]: cleared and
      resized blocks with their contents.
    - [Vmm]: the page runs of [mm/vmm.c] on the frames of [Pmm] and the interface
      [PageTables]; its instance [vmm_source] discharges [PageSource] from the
      theorems on the buddy allocator, so that the slab theorems hold on top of it.
    - [Vfs], [VfsProofs]: [fs/vfs.c] over the interface [FsOps]: mounting, the walk of
      paths, handles, reading, writing, seeking and listing.  [RamFs], [RamFsProofs]:
      [fs/ramfs.c], the parse of the archive and the instance of the interface's laws.
    - [Fat32]: all of [fs/fat32.c] in a state and error monad, over the disk interface
      [DiskOps].  [Fat32Cache]: a weakest-precondition calculus for the monad, the
      write-back sector buffer as a refinement of a plain disk, and durability of a
      sync.  [Fat32Chain]: the allocation table as a map, freeing and extending
      cluster chains.  [Fat32File]: the bytes of an open file; write, seek and read
      within its clusters, and what a sync leaves on the disk.  [Fat32Names]: round trips
      of names and time stamps.
    - [Ata], [AtaProofs]: the disk driver of [device/storage/] over the ports of
      a controller (class [AtaLaws]); transfers refine reads and writes of sectors.
    - [KLib]: [lib/kmemory.c] and [lib/kstring.c] over a flat memory of bytes.
      [Kprint]: the formatter of [log/kprint.c].
    - [Keyboard]: scan codes, modifiers and the published word.
    - [TtyFs]: the ring buffer of [fs/ttyfs.c], as an implementation of line editing;
      [TtyVfs]: the terminal as an instance of [FsOps] with its laws.
    - [Fb], [Term], [TermProofs]: the frame buffer and the character terminal of
      [device/display/]; the screen shows what the grid of characters holds, on displays whose
      rows have no padding.
    - [Sync]: spin locks, mutexes and semaphores as step relations of any number of
      threads; mutual exclusion by induction on the steps.
    - [Sched] and [SchedProofs]: [proc/sched.c] and [proc/kevent.c] over shared stores
      of tasks and events.  The invariant of the queues, the correctness and the
      fairness of [sched_again], and the delivery of events.
    - [Task], [TaskProofs]: [proc/task.c], the stacks and blocks of a task and the
      layout of arguments on a new stack.  [Elf], [ElfProofs]: [proc/elf.c] over a [vmalloc] that
      it asks for addresses and sizes; segments are where the file wants them.
      [Proc], [ProcProofs]: creation, fork, replacement, exit and collection
      in [proc/sched.c], as steps that take blocks from the heap and return them.  [ProcRun]: runs
      of these steps with the calls of [sched_again] between them; no block is lost or freed twice
      and no task that has ended runs.
    - [Syscall], [SyscallProofs]: [proc/syscall.c], the checks on what user code
      passes and the effect of every call; the current directory and the listing of a directory.
    - [Acpi]: [system/acpi.c] and [system/madt.c] on the tables' bytes.
      [Irq], [IrqProofs]: [system/apic.c] and [system/isr.c] over the interface [Hw].
      [Desc], [DescProofs]: the bytes of the descriptor tables and the
      way the processor reads them.  [Cpuf]: [system/cpuf.c], the features of a processor.
    - [Timer], [TimerProofs]: [system/hpet.c], [system/tsc.c] and [system/timer.c] over counters
      (classes [Clocks], [HpetLaws], [TscLaws]); how long a sleep lasts.
      [Drivers], [DriversProofs]: the interrupt of the keyboard from the port to the waiting
      task, and [sched_init] with the tick (class [LapicLaws]).
      [Panic]: [com/serial.c] and [panic/panic.c] (class [SerialLaws]); the report on the screen of [TermProofs] and
      on the line, and the processor that halts.
      [Smp]: [system/cpu.c] and [system/smp.c], with the hand-shake of two processors as a step relation.
    - [Libc], [LibcProofs]: the library of the user programs in a monad over the system call
      instruction (class [UserKernel]).  [UserLaws]: what programs rely on, the classes [UserHeap] and
      [UserFiles].  [UserDemo]: a kernel that keeps these laws.  [UserAbi]: the calls of [Syscall] keep
      those of the heap.
    - [Shell]: [user/shell.c] and [user/test1.c].  [ShellProofs], [ShellRun], [ShellPath], [ShellTurn]: splitting a
      line, the search for a program, and a whole turn of the shell (class [UserInput]).

    ** Conventions

    C integers keep their width: [u8], [u16], [u32], [u64], [i32] and [i64] wrap
    where an operation can leave its type, and are left out only where the operands
    cannot.  A function that changes a global structure takes and returns it; a
    lock held for a whole call makes the call one step.  Faults (the use of a null
    or foreign pointer, a panic, the exhaustion of memory where the code does not
    check for it) are values of the result: [None], [Panic], [NullDeref], [Fault] or
    [Err], so that a theorem says when they occur.

    Loops without a bound of their own take fuel.  The fuel that suffices is proved:
    the length of the list plus one for [dlist_foreach]; the number of clusters plus
    one for [remove_chain] on any table and the length of the chain on a proper one; one
    round of the volume for [stretch_chain]; the length of the string plus one for
    [strcmp] and the formatter; the length of the published list for the dispatch of
    events; the length of the archive for [RamFs]; the number of segments plus one for
    the loader; more polls than the drive is ever busy for in [Ata]; the number of
    records plus one for the firmware table; more than the nanoseconds asked for in a sleep; more
    than the length of a string or a path in the library and the shell.
    The loops over directories in [Fat32] have fuel as an argument and no theorem.

    Interfaces: [AddrSpace] says that mapping a range maps exactly its pages, and
    [PtmSpace] implements it with the page tables; [PageTables] that mapping takes its
    tables from the free frames and leaves the frame allocator well formed;
    [PageSource] that a run of pages handed out is fresh, which [Vmm] implements;
    [FsOps] and [FsLaws] what the switch asks of a file system, which [RamFs] and [TtyVfs]
    implement; [DiskLaws] that a sector written without error is read back and others
    are kept, which the driver refines over the port laws [AtaLaws] of a drive;
    [IoApicLaws] and [LapicLaws] that the controllers' registers hold what is written to them and the local timer counts at its rate;
    [HpetLaws] and [TscLaws] that the counters run, [SerialLaws] that the line takes a byte when it says so;
    [UserHeap], [UserFiles] and [UserInput] what a program relies on of the kernel.
    Each has an instance, and the theorems that depend on one have a witness with it.

    ** What is not modelled

    The sequence of [main.c], the assembly of the entries, of the context switch and of the trampoline, the growable
    list macros (which nothing modelled uses), the demonstration threads of [proc/sched_test.c], and the superseded
    directory [old/], which is not part of the build.  Interrupt flags that the spin locks save and caches of the processor
    are not represented.  In the modelled files: the output of the dump functions and of the log. *)

From stdpp Require Export base gmap list list_numbers sets.
From Stdlib Require Export ZArith Lia.

#[global] Open Scope Z_scope.

(** ** Machine integers

    C integers of a fixed width are [Z] values; every operation that can leave
    the range of its type is wrapped explicitly by the casts below. *)

Definition u8 (x : Z) : Z := x mod 2 ^ 8.
Definition u16 (x : Z) : Z := x mod 2 ^ 16.
Definition u32 (x : Z) : Z := x mod 2 ^ 32.
Definition u64 (x : Z) : Z := x mod 2 ^ 64.
Definition i32 (x : Z) : Z := (x + 2 ^ 31) mod 2 ^ 32 - 2 ^ 31.
Definition i64 (x : Z) : Z := (x + 2 ^ 63) mod 2 ^ 64 - 2 ^ 63.

Arguments u8 : simpl never.
Arguments u16 : simpl never.
Arguments u32 : simpl never.
Arguments u64 : simpl never.
Arguments i32 : simpl never.
Arguments i64 : simpl never.

(** C's truth value of an integer expression. *)
Definition ctrue (x : Z) : bool := negb (x =? 0).

(** ** Byte buffers

    A buffer is a list of byte values.  [slice off n b] is the [n] bytes at
    offset [off], [splice off bs b] overwrites the bytes at [off]. *)

Definition slice {A} (off n : nat) (b : list A) : list A := take n (drop off b).
Definition splice {A} (off : nat) (bs b : list A) : list A := list_inserts off bs b.

(** Little-endian fields of a packed struct, as the x86 loads and stores them. *)
Definition get_le (n : nat) (b : list Z) (off : nat) : Z :=
  little_endian_to_Z 8 (slice off n b).
Definition put_le (n : nat) (b : list Z) (off : nat) (v : Z) : list Z :=
  splice off (Z_to_little_endian (Z.of_nat n) 8 v) b.

Definition get_u8 (b : list Z) (off : nat) : Z := default 0 (b !! off).
Definition put_u8 (b : list Z) (off : nat) (v : Z) : list Z := <[off := u8 v]> b.

Definition is_byte (z : Z) : Prop := 0 <= z < 2 ^ 8.
Definition bytes (b : list Z) : Prop := Forall is_byte b.

#[global] Instance is_byte_dec z : Decision (is_byte z).
Proof. unfold is_byte. apply _. Defined.

(** ** Sum of a list of integers *)
Fixpoint zsum (l : list Z) : Z :=
  match l with [] => 0 | x :: r => x + zsum r end.

(** ** Hint databases and tactics *)

Create HintDb seekos.
Create Rewrite HintDb seekos_rw.

(** Unfold the machine-integer casts and turn [mod] and [/] by constants into
    linear constraints for [lia]. *)
Ltac zwrap :=
  unfold u8, u16, u32, u64, i32, i64, ctrue in *; Z.div_mod_to_equations.

(** Close arithmetic goals that mention casts. *)
Ltac wrap_lia := zwrap; lia.

(** Split every boolean test of the goal and of the hypotheses. *)
Ltac btests :=
  repeat first
    [ match goal with |- context [if ?b then _ else _] => destruct b eqn:? end
    | match goal with H : context [if ?b then _ else _] |- _ => destruct b eqn:? end ].

(** Reflect the boolean comparisons of the context into propositions. *)
Ltac breflect :=
  repeat match goal with
  | H : (_ && _)%bool = true |- _ => apply andb_true_iff in H; destruct H
  | H : (_ || _)%bool = false |- _ => apply orb_false_iff in H; destruct H
  | H : (_ =? _) = true |- _ => apply Z.eqb_eq in H
  | H : (_ =? _) = false |- _ => apply Z.eqb_neq in H
  | H : (_ <? _) = true |- _ => apply Z.ltb_lt in H
  | H : (_ <? _) = false |- _ => apply Z.ltb_ge in H
  | H : (_ <=? _) = true |- _ => apply Z.leb_le in H
  | H : (_ <=? _) = false |- _ => apply Z.leb_gt in H
  | H : negb _ = true |- _ => apply negb_true_iff in H
  | H : negb _ = false |- _ => apply negb_false_iff in H
  | H : bool_decide _ = true |- _ => apply bool_decide_eq_true_1 in H
  | H : bool_decide _ = false |- _ => apply bool_decide_eq_false_1 in H
  end.

(** ** Casts *)

Lemma u8_small x : 0 <= x < 2 ^ 8 -> u8 x = x.
Proof. apply Z.mod_small. Qed.
Lemma u16_small x : 0 <= x < 2 ^ 16 -> u16 x = x.
Proof. apply Z.mod_small. Qed.
Lemma u32_small x : 0 <= x < 2 ^ 32 -> u32 x = x.
Proof. apply Z.mod_small. Qed.
Lemma u64_small x : 0 <= x < 2 ^ 64 -> u64 x = x.
Proof. apply Z.mod_small. Qed.
Lemma i32_small x : - 2 ^ 31 <= x < 2 ^ 31 -> i32 x = x.
Proof. intros H. unfold i32. rewrite Z.mod_small; lia. Qed.
Lemma u8_range x : 0 <= u8 x < 2 ^ 8.
Proof. apply Z.mod_pos_bound; lia. Qed.
Lemma u32_range x : 0 <= u32 x < 2 ^ 32.
Proof. apply Z.mod_pos_bound; lia. Qed.
Lemma u64_range x : 0 <= u64 x < 2 ^ 64.
Proof. apply Z.mod_pos_bound; lia. Qed.
Lemma u64_add_l x y : u64 (u64 x + y) = u64 (x + y).
Proof. apply Zplus_mod_idemp_l. Qed.
Lemma u64_sub_l x y : u64 (u64 x - y) = u64 (x - y).
Proof. apply Zminus_mod_idemp_l. Qed.
Lemma u32_add_l x y : u32 (u32 x + y) = u32 (x + y).
Proof. apply Zplus_mod_idemp_l. Qed.

#[export] Hint Rewrite u8_small u16_small u32_small u64_small using lia : seekos_rw.
#[export] Hint Resolve u8_range u32_range u64_range : seekos.

(** ** Sums *)

Lemma zsum_app l1 l2 : zsum (l1 ++ l2) = zsum l1 + zsum l2.
Proof. induction l1; simpl; lia. Qed.

Lemma zsum_Permutation l1 l2 : l1 ≡ₚ l2 -> zsum l1 = zsum l2.
Proof. induction 1; simpl; lia. Qed.

#[global] Instance zsum_proper : Proper ((≡ₚ) ==> (=)) zsum.
Proof. intros l1 l2. apply zsum_Permutation. Qed.

Lemma zsum_insert (l : list Z) i x y :
  l !! i = Some x -> zsum (<[i := y]> l) = zsum l - x + y.
Proof.
  revert i. induction l as [|a l IH]; intros [|i]; simpl; intros H; simplify_eq.
  - lia.
  - rewrite (IH _ H). lia.
Qed.

(** A duplicate-free list of numbers below [n] has at most [n] elements. *)
Lemma NoDup_bounded_length (l : list Z) n :
  0 <= n -> NoDup l -> Forall (fun x => 0 <= x < n) l -> Z.of_nat (length l) <= n.
Proof.
  intros Hn Hnd Hf.
  assert (length l <= length (seqZ 0 n))%nat as Hle.
  { apply submseteq_length, NoDup_submseteq; [done|].
    intros x Hx. rewrite Forall_forall in Hf. apply elem_of_seqZ.
    specialize (Hf x Hx). lia. }
  rewrite length_seqZ in Hle. lia.
Qed.

(** A predicate that holds of fewer elements of a list selects fewer. *)
Lemma filter_length_le {A} (P Q : A -> Prop) `{!forall x, Decision (P x), !forall x, Decision (Q x)}
    (l : list A) :
  (forall x, x ∈ l -> Q x -> P x) -> (length (filter Q l) <= length (filter P l))%nat.
Proof.
  induction l as [|x l IH]; intros Hs; [done|].
  assert (length (filter Q l) <= length (filter P l))%nat
    by (apply IH; intros y Hy; apply Hs; by right).
  rewrite !filter_cons. destruct (decide (Q x)) as [Hq|]; [|case_decide; simpl; lia].
  rewrite decide_True by (apply Hs; [left|done]). simpl. lia.
Qed.

Lemma filter_length_lt {A} (P Q : A -> Prop) `{!forall x, Decision (P x), !forall x, Decision (Q x)}
    (l : list A) c :
  (forall x, x ∈ l -> Q x -> P x) -> c ∈ l -> P c -> ~ Q c ->
  (length (filter Q l) < length (filter P l))%nat.
Proof.
  induction l as [|x l IH]; intros Hs Hc HP HQ; [by apply not_elem_of_nil in Hc|].
  assert (forall y, y ∈ l -> Q y -> P y) as Hs' by (intros y Hy; apply Hs; by right).
  pose proof (filter_length_le P Q l Hs'). rewrite !filter_cons.
  apply elem_of_cons in Hc as [->|Hc].
  - rewrite decide_False, decide_True by done. simpl. lia.
  - specialize (IH Hs' Hc HP HQ). destruct (decide (Q x)); [|case_decide; simpl; lia].
    rewrite decide_True by (apply Hs; [left|done]). simpl. lia.
Qed.

(** ** Slices and splices *)

Lemma length_splice {A} off (bs b : list A) : length (splice off bs b) = length b.
Proof. apply length_inserts. Qed.

Lemma length_slice {A} off n (b : list A) :
  (off + n <= length b)%nat -> length (slice off n b) = n.
Proof. intros H. unfold slice. rewrite length_take, length_drop. lia. Qed.

Lemma lookup_slice {A} off n (b : list A) i :
  (i < n)%nat -> slice off n b !! i = b !! (off + i)%nat.
Proof. intros H. unfold slice. rewrite lookup_take by lia.
  rewrite decide_True by done. by rewrite lookup_drop. Qed.

Lemma slice_splice_eq {A} off n (bs b : list A) :
  length bs = n -> (off + n <= length b)%nat -> slice off n (splice off bs b) = bs.
Proof.
  intros Hn Hb. apply list_eq. intros i.
  destruct (decide (i < n)%nat) as [Hi|Hi].
  - rewrite lookup_slice by done. unfold splice.
    rewrite list_lookup_inserts by lia. f_equal. lia.
  - rewrite !lookup_ge_None_2; [done|lia|].
    rewrite length_slice; [lia|]. rewrite length_splice. lia.
Qed.

Lemma slice_splice_ne {A} off n off' (bs b : list A) :
  (off + n <= off' \/ off' + length bs <= off)%nat ->
  slice off n (splice off' bs b) = slice off n b.
Proof.
  intros H. apply list_eq. intros i.
  destruct (decide (i < n)%nat) as [Hi|Hi].
  - rewrite !lookup_slice by done. unfold splice.
    destruct H; [apply list_lookup_inserts_lt | apply list_lookup_inserts_ge]; lia.
  - unfold slice. rewrite !lookup_take_ge by lia. done.
Qed.

Lemma length_put_le n b off v : length (put_le n b off v) = length b.
Proof. apply length_splice. Qed.

Lemma length_le_bytes n v : length (Z_to_little_endian (Z.of_nat n) 8 v) = n.
Proof. pose proof (length_Z_to_little_endian (Z.of_nat n) 8 v). lia. Qed.

Lemma get_put_le n b off v :
  (off + n <= length b)%nat -> get_le n (put_le n b off v) off = v mod 2 ^ (Z.of_nat n * 8).
Proof.
  intros H. unfold get_le, put_le.
  rewrite slice_splice_eq by (rewrite ?length_le_bytes; lia).
  by rewrite little_endian_to_Z_to_little_endian by lia.
Qed.

Lemma get_put_le_ne n m b off off' v :
  (off + n <= off' \/ off' + m <= off)%nat ->
  get_le n (put_le m b off' v) off = get_le n b off.
Proof.
  intros H. unfold get_le, put_le. by rewrite slice_splice_ne by (rewrite length_le_bytes; lia).
Qed.

Lemma bytes_slice off n b : bytes b -> bytes (slice off n b).
Proof. intros H. unfold bytes, slice. by apply Forall_take, Forall_drop. Qed.

Lemma get_le_range n b off :
  bytes b -> (off + n <= length b)%nat -> 0 <= get_le n b off < 2 ^ (Z.of_nat n * 8).
Proof.
  intros Hb Hl. unfold get_le.
  pose proof (little_endian_to_Z_bound 8 (slice off n b)) as H.
  rewrite (length_slice off n b Hl) in H.
  apply H; [lia | by apply bytes_slice].
Qed.

Lemma bytes_put_le n b off v : bytes b -> bytes (put_le n b off v).
Proof.
  intros Hb. unfold put_le, bytes, splice. apply Forall_inserts; [done|].
  apply Z_to_little_endian_bound; lia.
Qed.

Lemma bytes_put_u8 b off v : bytes b -> bytes (put_u8 b off v).
Proof. intros H. apply Forall_insert; [done|]. apply u8_range. Qed.

#[export] Hint Resolve bytes_put_le bytes_put_u8 : seekos.
