(* ===== verification/DList.v ===== *)
(** * Intrusive circular doubly-linked lists

    [kernel/src/base/linkedlist.c] and [kernel/include/base/linkedlist.h]: the
    list every kernel queue is made of.  A list head and the entries embedded in
    structures are nodes of a heap that maps an address to its [prev] and [next]
    pointers; an access to an address that is not a node is a fault ([None]).

    [dlist h l xs] says that head [l] carries the entries [xs] in order.  The
    theorems show that the pointer operations implement the list operations of
    the last section, which the models of the queues built on top of this code
    (buddy free areas, slabs, scheduler queues, open files) use. *)

From S2P Require Import Prelude.

(** ** The code *)

Record linked_list_t := LinkedList { prev : Z; next : Z }.

Abbreviation heap := (gmap Z linked_list_t).

Definition null : Z := 0.

(** [p->next = v] and [p->prev = v]. *)
Definition set_next (h : heap) (p v : Z) : option heap :=
  n ← h !! p; Some (<[p := LinkedList (prev n) v]> h).
Definition set_prev (h : heap) (p v : Z) : option heap :=
  n ← h !! p; Some (<[p := LinkedList v (next n)]> h).
Definition get_next (h : heap) (p : Z) : option Z := next <$> h !! p.
Definition get_prev (h : heap) (p : Z) : option Z := prev <$> h !! p.

Definition dlist_init (h : heap) (l : Z) : option heap :=
  h ← set_prev h l l;
  set_next h l l.

Definition dlist_is_empty (h : heap) (l : Z) : option bool :=
  n ← get_next h l;
  p ← get_prev h l;
  Some ((l =? n) && (l =? p)).

Definition dlist_remove_entry (h : heap) (entry : Z) : option heap :=
  p ← get_prev h entry;
  n ← get_next h entry;
  h ← set_next h p n;
  h ← set_prev h n p;
  h ← set_prev h entry entry;
  set_next h entry entry.

Definition dlist_add_prev (h : heap) (l entry : Z) : option heap :=
  h ← set_next h entry l;
  lp ← get_prev h l;
  h ← set_prev h entry lp;
  ep ← get_prev h entry;
  h ← set_next h ep entry;
  en ← get_next h entry;
  set_prev h en entry.

Definition dlist_add_next (h : heap) (l entry : Z) : option heap :=
  h ← set_prev h entry l;
  ln ← get_next h l;
  h ← set_next h entry ln;
  en ← get_next h entry;
  h ← set_prev h en entry;
  ep ← get_prev h entry;
  set_next h ep entry.

(** The out parameter [linked_list_t **entry] is the second component; it is
    never null at a call site. *)
Definition dlist_remove_prev (h : heap) (l : Z) : option (heap * Z) :=
  t ← get_prev h l;
  if t =? l then Some (h, null) else
  tp ← get_prev h t;
  h ← set_prev h l tp;
  tp ← get_prev h t;
  h ← set_next h tp l;
  h ← set_next h t t;
  h ← set_prev h t t;
  Some (h, t).

Definition dlist_remove_next (h : heap) (l : Z) : option (heap * Z) :=
  t ← get_next h l;
  if t =? l then Some (h, null) else
  tn ← get_next h t;
  h ← set_next h l tn;
  tn ← get_next h t;
  h ← set_prev h tn l;
  h ← set_next h t t;
  h ← set_prev h t t;
  Some (h, t).

Definition dlist_get_prev (h : heap) (l : Z) : option Z :=
  t ← get_prev h l;
  Some (if t =? l then null else t).

Definition dlist_get_next (h : heap) (l : Z) : option Z :=
  t ← get_next h l;
  Some (if t =? l then null else t).

(** [dlist_foreach(list, entry)]: the entries visited before the cursor is back
    at the head; [fuel] bounds the number of steps. *)
Fixpoint dlist_walk (fuel : nat) (h : heap) (l entry : Z) : option (list Z) :=
  match fuel with
  | O => None
  | S fuel =>
    if entry =? l then Some [] else
    n ← get_next h entry;
    r ← dlist_walk fuel h l n;
    Some (entry :: r)
  end.

Definition dlist_foreach (fuel : nat) (h : heap) (l : Z) : option (list Z) :=
  n ← get_next h l;
  dlist_walk fuel h l n.

(** ** What the code implements *)

Definition link (h : heap) (a b : Z) : Prop :=
  get_next h a = Some b /\ get_prev h b = Some a.

Fixpoint path (h : heap) (a : Z) (xs : list Z) (b : Z) : Prop :=
  match xs with
  | [] => link h a b
  | x :: xs => link h a x /\ path h x xs b
  end.

(** Head [l] carries the entries [xs]. *)
Definition dlist (h : heap) (l : Z) (xs : list Z) : Prop :=
  path h l xs l /\ NoDup (l :: xs).

(** The list operations: what a queue held as a [list] does where the C code
    calls the pointer operation of the same name. *)
Definition l_add_next {A} (e : A) (xs : list A) : list A := e :: xs.
Definition l_add_prev {A} (e : A) (xs : list A) : list A := xs ++ [e].
Definition l_remove_next {A} (xs : list A) : option (A * list A) :=
  match xs with [] => None | x :: xs => Some (x, xs) end.
Fixpoint l_remove_entry (e : Z) (xs : list Z) : list Z :=
  match xs with
  | [] => []
  | x :: xs => if x =? e then xs else x :: l_remove_entry e xs
  end.

(** ** Reading through stores *)

Ltac set_step :=
  unfold set_next, set_prev, get_next, get_prev, mbind, option_bind;
  intros; simplify_eq/=; repeat case_match; simplify_eq/=;
  rewrite ?lookup_insert; repeat case_decide; simplify_eq/=; try done.

Lemma set_next_Some h p v : is_Some (h !! p) ->
  exists h', set_next h p v = Some h' /\
    (forall q, get_next h' q = if decide (q = p) then Some v else get_next h q) /\
    (forall q, get_prev h' q = get_prev h q) /\
    (forall q, is_Some (h' !! q) <-> is_Some (h !! q)) /\
    (forall q, q ≠ p -> h' !! q = h !! q).
Proof.
  intros [n Hn]. unfold set_next. rewrite Hn. simpl. eexists. split; [done|].
  split_and!; intros q; unfold get_next, get_prev; rewrite ?lookup_insert.
  - by repeat case_decide; simplify_eq.
  - case_decide; simplify_eq; [by rewrite Hn | done].
  - case_decide; simplify_eq; [by rewrite Hn | done].
  - intros. by rewrite decide_False by done.
Qed.

Lemma set_prev_Some h p v : is_Some (h !! p) ->
  exists h', set_prev h p v = Some h' /\
    (forall q, get_prev h' q = if decide (q = p) then Some v else get_prev h q) /\
    (forall q, get_next h' q = get_next h q) /\
    (forall q, is_Some (h' !! q) <-> is_Some (h !! q)) /\
    (forall q, q ≠ p -> h' !! q = h !! q).
Proof.
  intros [n Hn]. unfold set_prev. rewrite Hn. simpl. eexists. split; [done|].
  split_and!; intros q; unfold get_next, get_prev; rewrite ?lookup_insert.
  - by repeat case_decide; simplify_eq.
  - case_decide; simplify_eq; [by rewrite Hn | done].
  - case_decide; simplify_eq; [by rewrite Hn | done].
  - intros. by rewrite decide_False by done.
Qed.

Lemma get_next_is_Some h p v : get_next h p = Some v -> is_Some (h !! p).
Proof. unfold get_next. destruct (h !! p); naive_solver. Qed.
Lemma get_prev_is_Some h p v : get_prev h p = Some v -> is_Some (h !! p).
Proof. unfold get_prev. destruct (h !! p); naive_solver. Qed.
Lemma is_Some_get_next h p : is_Some (h !! p) -> exists v, get_next h p = Some v.
Proof. intros [n H]. exists (next n). unfold get_next. by rewrite H. Qed.
Lemma is_Some_get_prev h p : is_Some (h !! p) -> exists v, get_prev h p = Some v.
Proof. intros [n H]. exists (prev n). unfold get_prev. by rewrite H. Qed.

(** ** Paths *)

Lemma path_app h a xs y ys b :
  path h a (xs ++ y :: ys) b <-> path h a xs y /\ path h y ys b.
Proof. revert a. induction xs as [|x xs IH]; intros a; simpl; [done|]. rewrite IH. tauto. Qed.

(** A path survives changes away from the pointers it follows. *)
Lemma path_frame h h' a xs b :
  (forall q, q ∈ a :: xs -> get_next h' q = get_next h q) ->
  (forall q, q ∈ b :: xs -> get_prev h' q = get_prev h q) ->
  path h a xs b -> path h' a xs b.
Proof.
  revert a. induction xs as [|x xs IH]; intros a Hn Hp; simpl.
  - intros [H1 H2]. split; [rewrite Hn | rewrite Hp]; set_solver.
  - intros [[H1 H2] H3]. split; [split; [rewrite Hn | rewrite Hp]; set_solver|].
    apply IH; [| |done]; intros q Hq; [apply Hn | apply Hp]; set_solver.
Qed.

Lemma path_allocated h a xs b q : path h a xs b -> q ∈ a :: xs -> is_Some (h !! q).
Proof.
  revert a. induction xs as [|x xs IH]; intros a; simpl.
  - intros [H _] ->%list_elem_of_singleton. by eapply get_next_is_Some.
  - intros [[H _] Hp] Hq. apply elem_of_cons in Hq as [->|Hq]; [by eapply get_next_is_Some|].
    by eapply IH.
Qed.

Lemma path_last h a xs b : path h a xs b -> is_Some (h !! b).
Proof.
  revert a. induction xs as [|x xs IH]; intros a; simpl.
  - intros [_ H]. by eapply get_prev_is_Some.
  - intros [_ Hp]. by eapply IH.
Qed.

(** The head is a position like any other: a circular list can be read from
    every one of its nodes. *)
Lemma dlist_rotate h l xs y ys : dlist h l (xs ++ y :: ys) <-> dlist h y (ys ++ l :: xs).
Proof.
  unfold dlist. rewrite !path_app.
  assert (l :: xs ++ y :: ys ≡ₚ y :: ys ++ l :: xs) as ->; [|tauto].
  rewrite !app_comm_cons. apply Permutation_app_comm.
Qed.

Lemma dlist_head_allocated h l xs : dlist h l xs -> is_Some (h !! l).
Proof. intros [H _]. by eapply path_allocated; [done|set_solver]. Qed.

(** ** Insertion *)

(** [h'] is [h] with [e] linked in between the neighbours [a] and [b]. *)
Definition inserted (h h' : heap) (a e b : Z) : Prop :=
  (forall q, get_next h' q = if decide (q = a) then Some e
                             else if decide (q = e) then Some b else get_next h q) /\
  (forall q, get_prev h' q = if decide (q = b) then Some e
                             else if decide (q = e) then Some a else get_prev h q) /\
  (forall q, is_Some (h' !! q) <-> is_Some (h !! q)) /\
  (forall q, q ≠ a -> q ≠ e -> q ≠ b -> h' !! q = h !! q).

(** [h'] is [h] with [e] unlinked from its neighbours [a] and [b] and left
    pointing at itself. *)
Definition removed (h h' : heap) (a e b : Z) : Prop :=
  (forall q, get_next h' q = if decide (q = e) then Some e
                             else if decide (q = a) then Some b else get_next h q) /\
  (forall q, get_prev h' q = if decide (q = e) then Some e
                             else if decide (q = b) then Some a else get_prev h q) /\
  (forall q, is_Some (h' !! q) <-> is_Some (h !! q)) /\
  (forall q, q ≠ a -> q ≠ e -> q ≠ b -> h' !! q = h !! q).

(** Run one store: name the new heap and what it reads as. *)
Ltac store_step :=
  match goal with
  | |- context [set_next ?h ?p ?v] =>
    let h' := fresh "h" in
    destruct (set_next_Some h p v) as (h' & -> & ? & ? & ? & ?); [|cbn [mbind option_bind]]
  | |- context [set_prev ?h ?p ?v] =>
    let h' := fresh "h" in
    destruct (set_prev_Some h p v) as (h' & -> & ? & ? & ? & ?); [|cbn [mbind option_bind]]
  end.

(** Read a pointer through the stores done so far. *)
Ltac read_through :=
  repeat match goal with
  | H : forall q, get_next ?h q = _ |- context [get_next ?h _] => rewrite H
  | H : forall q, get_prev ?h q = _ |- context [get_prev ?h _] => rewrite H
  | H : forall q, is_Some (?h !! q) <-> _ |- context [is_Some (?h !! _)] => rewrite H
  | H : forall q, q ≠ _ -> ?h !! q = _ |- ?h !! _ = _ => rewrite H by congruence
  end.

Ltac read_solve :=
  read_through; repeat case_decide; simplify_eq; try congruence; try done; try (exfalso; set_solver).

Lemma dlist_add_next_inserted h a e b :
  link h a b -> is_Some (h !! e) -> e ≠ a -> e ≠ b ->
  exists h', dlist_add_next h a e = Some h' /\ inserted h h' a e b.
Proof.
  intros [Hab Hba] He Hea Heb. unfold dlist_add_next.
  store_step; [done|]. read_through. rewrite Hab. simpl.
  store_step; [read_solve|]. read_through. rewrite decide_True by done. simpl.
  store_step; [read_through; by eapply get_prev_is_Some|].
  read_through. rewrite decide_False, decide_True by done. simpl.
  store_step; [read_through; by eapply get_next_is_Some|].
  eexists; split; [done|]. split_and!; intros q; [read_solve..|intros; read_solve].
Qed.

Lemma dlist_add_prev_inserted h a e b :
  link h a b -> is_Some (h !! e) -> e ≠ a -> e ≠ b ->
  exists h', dlist_add_prev h b e = Some h' /\ inserted h h' a e b.
Proof.
  intros [Hab Hba] He Hea Heb. unfold dlist_add_prev.
  store_step; [done|]. read_through. rewrite Hba. simpl.
  store_step; [read_solve|]. read_through. rewrite decide_True by done. simpl.
  store_step; [read_through; by eapply get_next_is_Some|].
  read_through. rewrite decide_False, decide_True by done. simpl.
  store_step; [read_through; by eapply get_prev_is_Some|].
  eexists; split; [done|]. split_and!; intros q; [read_solve..|intros; read_solve].
Qed.

(** The neighbour after the head. *)
Definition first_of (l : Z) (xs : list Z) : Z := default l (head xs).
Definition last_of (l : Z) (xs : list Z) : Z := default l (last xs).

Lemma path_first h a xs b : path h a xs b -> link h a (first_of b xs).
Proof. destruct xs; simpl; tauto. Qed.

Lemma last_of_cons a x xs : last_of a (x :: xs) = last_of x xs.
Proof. unfold last_of. rewrite last_cons. by destruct (last xs). Qed.

Lemma path_last_link h a xs b : path h a xs b -> link h (last_of a xs) b.
Proof.
  revert a. induction xs as [|x xs IH]; intros a; [done|].
  simpl. intros [_ H]. rewrite last_of_cons. auto.
Qed.

Lemma last_of_elem a xs : last_of a xs ∈ a :: xs.
Proof.
  unfold last_of. destruct (last xs) eqn:E; simpl; [|set_solver].
  apply last_Some_elem_of in E. set_solver.
Qed.

Lemma inserted_next h h' l e xs :
  dlist h l xs -> e ∉ l :: xs -> inserted h h' l e (first_of l xs) -> dlist h' l (e :: xs).
Proof.
  intros [Hp Hnd] He (Hn & Hv & _). apply not_elem_of_cons in He as [He1 He2].
  split; [|apply NoDup_cons in Hnd as [? ?]; rewrite !NoDup_cons; set_solver].
  destruct xs as [|x xs]; simpl in *; unfold link, first_of in *; simpl in *.
  - repeat split; read_solve.
  - apply NoDup_cons in Hnd as [Hl Hnd]. apply NoDup_cons in Hnd as [Hx Hnd].
    destruct Hp as [_ Hp].
    repeat split; [read_solve..|].
    eapply path_frame; [| |done]; intros q Hq; read_solve; set_solver.
Qed.

(** ** Removal *)

Lemma dlist_remove_entry_removed h a e b :
  link h a e -> link h e b -> e ≠ a -> e ≠ b ->
  exists h', dlist_remove_entry h e = Some h' /\ removed h h' a e b.
Proof.
  intros [Hae Hea] [Heb Hbe] H1 H2. unfold dlist_remove_entry. rewrite Hea, Heb. simpl.
  store_step; [by eapply get_next_is_Some|].
  store_step; [read_through; by eapply get_prev_is_Some|].
  store_step; [read_through; by eapply get_prev_is_Some|].
  store_step; [read_through; by eapply get_prev_is_Some|].
  eexists; split; [done|]. split_and!; intros q; [read_solve..|intros; read_solve].
Qed.

Lemma dlist_remove_next_removed h a e b :
  link h a e -> link h e b -> e ≠ a -> e ≠ b ->
  exists h', dlist_remove_next h a = Some (h', e) /\ removed h h' a e b.
Proof.
  intros [Hae Hea] [Heb Hbe] H1 H2. unfold dlist_remove_next. rewrite Hae. simpl.
  destruct (Z.eqb_spec e a) as [?|_]; [done|]. rewrite Heb. simpl.
  store_step; [by eapply get_next_is_Some|]. read_through.
  rewrite decide_False by done. rewrite Heb. simpl.
  store_step; [read_through; by eapply get_prev_is_Some|].
  store_step; [read_through; by eapply get_prev_is_Some|].
  store_step; [read_through; by eapply get_prev_is_Some|].
  eexists; split; [done|]. split_and!; intros q; [read_solve..|intros; read_solve].
Qed.

Lemma dlist_remove_prev_removed h a e b :
  link h a e -> link h e b -> e ≠ a -> e ≠ b ->
  exists h', dlist_remove_prev h b = Some (h', e) /\ removed h h' a e b.
Proof.
  intros [Hae Hea] [Heb Hbe] H1 H2. unfold dlist_remove_prev. rewrite Hbe. simpl.
  destruct (Z.eqb_spec e b) as [?|_]; [done|]. rewrite Hea. simpl.
  store_step; [by eapply get_prev_is_Some|]. read_through.
  rewrite decide_False by done. rewrite Hea. simpl.
  store_step; [read_through; by eapply get_next_is_Some|].
  store_step; [read_through; by eapply get_prev_is_Some|].
  store_step; [read_through; by eapply get_prev_is_Some|].
  eexists; split; [done|]. split_and!; intros q; [read_solve..|intros; read_solve].
Qed.

(** Redirecting the last link of a path from [e] to [b]. *)
Lemma path_retarget h h' a xs e b :
  NoDup (a :: xs) ->
  get_next h' (last_of a xs) = Some b -> get_prev h' b = Some (last_of a xs) ->
  (forall q, q ∈ a :: xs -> q ≠ last_of a xs -> get_next h' q = get_next h q) ->
  (forall q, q ∈ xs -> get_prev h' q = get_prev h q) ->
  path h a xs e -> path h' a xs b.
Proof.
  revert a. induction xs as [|x xs IH]; intros a Hnd Hl1 Hl2 Hn Hv; simpl; [done|].
  intros [[H1 H2] Hp]. rewrite last_of_cons in *.
  apply NoDup_cons in Hnd as [Ha Hnd]. pose proof (last_of_elem x xs).
  split; [split|].
  - rewrite Hn; [done|set_solver|]. intros ->. set_solver.
  - rewrite Hv; [done|set_solver].
  - apply IH; try done; intros q Hq; [intros ?; apply Hn | apply Hv]; set_solver.
Qed.

Lemma removed_entry h h' l xs e ys :
  dlist h l (xs ++ e :: ys) ->
  removed h h' (last_of l xs) e (first_of l ys) ->
  dlist h' l (xs ++ ys) /\ dlist h' e [].
Proof.
  intros [Hp Hnd] (Hn & Hv & _). apply path_app in Hp as [Hp1 Hp2].
  assert (NoDup (l :: xs) /\ e ∉ l :: xs /\ e ∉ ys /\ NoDup (l :: xs ++ ys)) as (Hnd1 & He1 & He2 & Hnd2).
  { rewrite Permutation_app_comm in Hnd. simpl in Hnd.
    rewrite NoDup_cons, NoDup_cons, NoDup_app in Hnd.
    rewrite !NoDup_cons, NoDup_app. set_solver. }
  pose proof (last_of_elem l xs) as Hlast.
  split; [split; [|done]|]; cycle 1.
  { split; [split; read_solve|]. apply NoDup_singleton. }
  apply NoDup_cons in Hnd2 as [Hl Hnd2]. apply NoDup_app in Hnd2 as (_ & Hd & Hnd2).
  assert (first_of l ys ≠ e /\ first_of l ys ∉ xs) as [Hf1 Hf2].
  { destruct ys; unfold first_of; simpl; set_solver. }
  assert (path h' l xs (first_of l ys)) as Hp1'.
  { apply (path_retarget h h' l xs e); try done; [read_solve..| |].
    - intros q Hq Hne. read_solve.
    - intros q Hq. read_solve. }
  destruct ys as [|y ys]; [by rewrite app_nil_r|].
  apply path_app. split; [done|]. simpl in Hp2. destruct Hp2 as [_ Hp2].
  apply NoDup_cons in Hnd2 as [Hy _]. unfold first_of in *; simpl in *.
  assert (last_of l xs ∉ y :: ys).
  { intros Hin. apply elem_of_cons in Hlast as [Hq|Hq]; rewrite ?Hq in *; set_solver. }
  eapply path_frame; [| |done]; intros q Hq; read_solve.
Qed.

(** ** The operations refine the list operations *)

Lemma dlist_nonhead h l xs e : dlist h l xs -> e ∈ xs -> e ≠ l.
Proof. intros [_ Hnd] He ->. apply NoDup_cons in Hnd. set_solver. Qed.

Lemma inserted_prev h h' l e xs :
  dlist h l xs -> e ∉ l :: xs -> inserted h h' (last_of l xs) e l -> dlist h' l (xs ++ [e]).
Proof.
  intros Hd He Hi. destruct (decide (xs = [])) as [->|Hne].
  - apply (inserted_next h h' l e []) in Hi; done.
  - destruct (exists_last Hne) as (xs' & x & ->).
    unfold last_of in Hi. rewrite last_snoc in Hi. simpl in Hi.
    apply (dlist_rotate h l xs' x []) in Hd. simpl in Hd.
    apply (inserted_next h h' x e (l :: xs')) in Hi; [|done|set_solver].
    rewrite <- app_assoc. apply (dlist_rotate h' l xs' x [e]). done.
Qed.

Lemma removed_next h h' l x xs :
  dlist h l (x :: xs) -> removed h h' l x (first_of l xs) -> dlist h' l xs /\ dlist h' x [].
Proof. intros Hd Hr. by apply (removed_entry h h' l [] x xs). Qed.

Lemma dlist_entry_links h l xs e ys :
  dlist h l (xs ++ e :: ys) ->
  link h (last_of l xs) e /\ link h e (first_of l ys) /\ e ≠ last_of l xs /\ e ≠ first_of l ys.
Proof.
  intros [Hp Hnd]. apply path_app in Hp as [H1 H2].
  split; [by apply path_last_link|]. split; [by apply path_first|].
  apply NoDup_cons in Hnd as [Hl Hnd]. apply NoDup_app in Hnd as (_ & Hd & Hnd).
  apply NoDup_cons in Hnd as [He _]. pose proof (last_of_elem l xs) as Hlast.
  split.
  - intros Heq. rewrite <- Heq in Hlast. apply elem_of_cons in Hlast as [Hq|Hq]; set_solver.
  - destruct ys; unfold first_of; simpl; set_solver.
Qed.

Lemma l_remove_entry_app xs e ys :
  e ∉ xs -> l_remove_entry e (xs ++ e :: ys) = xs ++ ys.
Proof.
  induction xs as [|x xs IH]; simpl; intros H.
  - by rewrite Z.eqb_refl.
  - destruct (Z.eqb_spec x e); [set_solver|]. rewrite IH; set_solver.
Qed.

Lemma l_remove_entry_notin e xs : e ∉ xs -> l_remove_entry e xs = xs.
Proof.
  induction xs as [|x xs IH]; simpl; intros H; [done|].
  destruct (Z.eqb_spec x e); [set_solver|]. rewrite IH; set_solver.
Qed.

Lemma elem_of_l_remove_entry e xs x :
  NoDup xs -> x ∈ l_remove_entry e xs <-> x ∈ xs /\ x ≠ e.
Proof.
  induction xs as [|y xs IH]; simpl; [set_solver|]. rewrite NoDup_cons. intros [Hy Hnd].
  destruct (Z.eqb_spec y e) as [->|Hne]; [set_solver|]. rewrite !elem_of_cons, (IH Hnd).
  naive_solver.
Qed.

Lemma NoDup_l_remove_entry e xs : NoDup xs -> NoDup (l_remove_entry e xs).
Proof.
  induction xs as [|y xs IH]; simpl; [done|]. rewrite NoDup_cons. intros [Hy Hnd].
  destruct (Z.eqb_spec y e); [done|]. apply NoDup_cons. split; [|auto].
  rewrite elem_of_l_remove_entry by done. tauto.
Qed.

Lemma l_remove_entry_perm e xs : e ∈ xs -> xs ≡ₚ e :: l_remove_entry e xs.
Proof.
  induction xs as [|y xs IH]; simpl; [set_solver|]. intros Hin.
  destruct (Z.eqb_spec y e) as [->|Hne]; [done|].
  rewrite (IH ltac:(set_solver)) at 1. apply Permutation_swap.
Qed.

(** Insertion at either end of a list: when [l] carries [xs] and [e] is an
    allocated node not on it, [dlist_add_next] and [dlist_add_prev] succeed,
    leave [l] carrying [e :: xs] and [xs ++ [e]], and touch no node outside the
    list and the new entry. *)
Theorem dlist_insert_refines h l xs e :
  dlist h l xs -> e ∉ l :: xs -> is_Some (h !! e) ->
  (exists h', dlist_add_next h l e = Some h' /\ dlist h' l (l_add_next e xs) /\
     forall q, q ∉ l :: e :: xs -> h' !! q = h !! q) /\
  (exists h', dlist_add_prev h l e = Some h' /\ dlist h' l (l_add_prev e xs) /\
     forall q, q ∉ l :: e :: xs -> h' !! q = h !! q).
Proof.
  intros Hd He Hal. pose proof Hd as [Hp _]. split.
  - apply path_first in Hp as Hl.
    destruct (dlist_add_next_inserted h l e (first_of l xs)) as (h' & Hrun & Hins); try done.
    { set_solver. } { destruct xs; unfold first_of; simpl; set_solver. }
    exists h'. split; [done|]. split; [by eapply inserted_next|].
    intros q Hq. apply Hins; destruct xs; unfold first_of; simpl; set_solver.
  - apply path_last_link in Hp as Hl. pose proof (last_of_elem l xs).
    destruct (dlist_add_prev_inserted h (last_of l xs) e l) as (h' & Hrun & Hins); try done.
    { set_solver. } { set_solver. }
    exists h'. split; [done|]. split; [by eapply inserted_prev|].
    intros q Hq. apply Hins; set_solver.
Qed.

(** Removal: unlinking an entry anywhere in the list leaves the other
    entries in order and the entry linked to itself; [dlist_remove_next] and
    [dlist_remove_prev] return and unlink the first and the last entry, and
    return null on an empty list without changing it. *)
Theorem dlist_remove_refines h l xs :
  dlist h l xs ->
  (forall e, e ∈ xs -> exists h', dlist_remove_entry h e = Some h' /\
     dlist h' l (l_remove_entry e xs) /\ dlist h' e []) /\
  match l_remove_next xs with
  | None => dlist_remove_next h l = Some (h, null)
  | Some (x, r) => exists h', dlist_remove_next h l = Some (h', x) /\ dlist h' l r /\ dlist h' x []
  end /\
  match last xs with
  | None => dlist_remove_prev h l = Some (h, null)
  | Some x => exists h', dlist_remove_prev h l = Some (h', x) /\
                dlist h' l (l_remove_entry x xs) /\ dlist h' x []
  end.
Proof.
  intros Hd. split_and!.
  - intros e (ys & zs & ->)%list_elem_of_split.
    destruct (dlist_entry_links _ _ _ _ _ Hd) as (L1 & L2 & N1 & N2).
    destruct (dlist_remove_entry_removed _ _ _ _ L1 L2 N1 N2) as (h' & Hrun & Hrem).
    exists h'. split; [done|]. rewrite l_remove_entry_app; [by eapply removed_entry|].
    destruct Hd as [_ Hnd]. apply NoDup_cons in Hnd as [_ Hnd]. apply NoDup_app in Hnd. set_solver.
  - destruct xs as [|x xs]; simpl.
    + destruct Hd as [[Hn _] _]. unfold dlist_remove_next. rewrite Hn. simpl. by rewrite Z.eqb_refl.
    + destruct (dlist_entry_links h l [] x xs Hd) as (L1 & L2 & N1 & N2).
      destruct (dlist_remove_next_removed _ _ _ _ L1 L2 N1 N2) as (h' & Hrun & Hrem).
      exists h'. split; [done|]. by eapply removed_next.
  - destruct (last xs) as [x|] eqn:Hlast.
    + apply last_Some in Hlast as [ys ->].
      destruct (dlist_entry_links h l ys x [] Hd) as (L1 & L2 & N1 & N2).
      destruct (dlist_remove_prev_removed _ _ _ _ L1 L2 N1 N2) as (h' & Hrun & Hrem).
      exists h'. split; [done|]. rewrite l_remove_entry_app; [by eapply removed_entry|].
      destruct Hd as [_ Hnd]. apply NoDup_cons in Hnd as [_ Hnd]. apply NoDup_app in Hnd. set_solver.
    + apply last_None in Hlast as ->. destruct Hd as [[_ Hn] _].
      unfold dlist_remove_prev. rewrite Hn. simpl. by rewrite Z.eqb_refl.
Qed.

Lemma dlist_walk_path h l a xs :
  path h a xs l -> l ∉ xs -> forall fuel, (length xs < fuel)%nat ->
  (n ← get_next h a; dlist_walk fuel h l n) = Some xs.
Proof.
  revert a. induction xs as [|x xs IH]; intros a Hp Hl fuel Hf.
  - destruct Hp as [Hn _]. rewrite Hn. simpl. destruct fuel; simpl in *; [lia|].
    by rewrite Z.eqb_refl.
  - simpl in Hp. destruct Hp as [[Hn _] Hp]. rewrite Hn. simpl.
    destruct fuel as [|fuel]; simpl in *; [lia|].
    destruct (Z.eqb_spec x l); [set_solver|].
    specialize (IH x Hp ltac:(set_solver) fuel ltac:(lia)).
    destruct (get_next h x) as [n'|]; simpl in *; [|done]. by rewrite IH.
Qed.

(** Traversal: [dlist_foreach] over a well-formed list visits exactly its
    entries, in order, and stops ([length xs + 1] steps are enough), and
    [dlist_is_empty] decides emptiness. *)
Theorem dlist_foreach_refines h l xs fuel :
  dlist h l xs -> (length xs < fuel)%nat ->
  dlist_foreach fuel h l = Some xs /\ dlist_is_empty h l = Some (bool_decide (xs = [])).
Proof.
  intros [Hp Hnd] Hf. apply NoDup_cons in Hnd as [Hl Hnd]. split.
  - by apply dlist_walk_path.
  - unfold dlist_is_empty. apply path_first in Hp as H1. apply path_last_link in Hp as H2.
    destruct H1 as [-> _], H2 as [_ ->]. simpl. f_equal.
    destruct xs as [|x xs]; unfold first_of; simpl.
    + by rewrite !Z.eqb_refl.
    + destruct (Z.eqb_spec l x); [set_solver|]. done.
Qed.

(** ** Witnesses: the list at [100] with the entries [10; 20], and a free node [30] *)

Definition demo_heap : heap :=
  list_to_map [(100, LinkedList 20 10); (10, LinkedList 100 20);
               (20, LinkedList 10 100); (30, LinkedList 30 30)].

Lemma demo_heap_dlist : dlist demo_heap 100 [10; 20].
Proof. split; [vm_compute; tauto|]. apply (bool_decide_unpack _). vm_compute. exact I. Qed.

Lemma dlist_insert_refines_witness :
  exists h', dlist_add_prev demo_heap 100 30 = Some h' /\ dlist h' 100 [10; 20; 30] /\
    forall q, q ∉ [100; 30; 10; 20] -> h' !! q = demo_heap !! q.
Proof.
  apply (dlist_insert_refines demo_heap 100 [10; 20] 30).
  - exact demo_heap_dlist.
  - apply (bool_decide_unpack _). vm_compute. exact I.
  - eexists. vm_compute. reflexivity.
Defined.

Lemma dlist_remove_refines_witness :
  exists h', dlist_remove_next demo_heap 100 = Some (h', 10) /\ dlist h' 100 [20] /\ dlist h' 10 [].
Proof. apply (dlist_remove_refines demo_heap 100 [10; 20]). exact demo_heap_dlist. Defined.

Lemma dlist_foreach_refines_witness :
  dlist_foreach 3 demo_heap 100 = Some [10; 20] /\ dlist_is_empty demo_heap 100 = Some false.
Proof.
  apply (dlist_foreach_refines demo_heap 100 [10; 20] 3); [exact demo_heap_dlist | simpl; lia].
Defined.
