(* ===== verification/Pmm.v ===== *)
(** * Physical memory manager: the code

    [kernel/src/mm/pmm.c]: the boot bitmap, the page-frame database and the buddy
    allocator of the global [kmem], with the page macros of
    [kernel/include/mm/mm.h].

    A [page_t *] into the database is its index.  The list entry embedded in a
    page is the page's index on the list of its free area; the lists are held as
    sequences and changed by the operations of [DList], which proves the pointer
    code correct.  The spin lock around the allocator makes each call atomic, so
    an operation is a function of [kmem].

    The proofs are in [PmmBitmap] and [PmmBuddy]. *)

From S2P Require Import Prelude DList.

(** ** Constants and page macros *)

Definition PAGE_SIZE : Z := 4096.
Definition PAGE_SHIFT : Z := 12.
Definition MM_MAX_ORDER : nat := 11.
Definition BITS_PER_U64 : Z := 64.
Definition BYTES_PER_U64 : Z := 8.
Definition U64_MAX : Z := 2 ^ 64 - 1.
Definition sizeof_page_t : Z := 32.
Definition MI_EARLY_DIRECT_START : Z := 0xffff800000000000.

Definition PAGE_ALIGN (s : Z) : Z := Z.land s (u64 (Z.lnot (PAGE_SIZE - 1))).
Definition PAGE_ALIGN_UP (s : Z) : Z := u64 (PAGE_ALIGN s + PAGE_SIZE).
Definition PAGE_ALIGN_UP_IF (s : Z) : Z :=
  if ctrue (Z.land s (PAGE_SIZE - 1)) then PAGE_ALIGN_UP s else s.
Definition SIZE_TO_PAGE (s : Z) : Z := s / PAGE_SIZE.
Definition PAGE_TO_SIZE (s : Z) : Z := u64 (s * PAGE_SIZE).
Definition BITMAP_PER_U64 : Z := PAGE_SIZE * 64.
Definition __PHYS_TO_VIRT (s : Z) : Z := u64 (s + MI_EARLY_DIRECT_START).

(** [ffs] of [kernel/include/lib/kmath.h]: index of the lowest set bit of an
    [int], 32 when there is none. *)
Fixpoint ffs_from (n : nat) (p i : Z) : Z :=
  match n with
  | O => 32
  | S n => if Z.land (Z.shiftr i p) 1 =? 1 then p else ffs_from n (p + 1) i
  end.
Definition ffs (i : Z) : Z := ffs_from 32 0 i.

(** ** State *)

Record page_t := Page {
  refcount : Z;
  flags : Z;              (* bit 0 is [in_buddy] *)
  order : nat;
  phys_addr : Z;
}.

Record free_area_t := FreeArea {
  list_head : list Z;     (* the pages on the area's list *)
  nr_free : Z;
}.

Record kmem_info_t := Kmem {
  bitmap : gmap Z Z;      (* the words at bitmap_start *)
  bitmap_pa : Z;
  bitmap_count : Z;
  bitmap_end : Z;
  pfn_database : gmap Z page_t;
  pfn_database_pa : Z;
  pfn_database_bytes : Z;
  pfn_database_end : Z;
  buddy_free_area : list free_area_t;
  nr_pages : Z;
  nr_free_pages : Z;
  phys_limit : Z;
}.

(** An entry of the boot loader's memory map. *)
Record limine_memmap_entry := Memmap { base : Z; len : Z; mtype : Z }.

Definition in_buddy (p : page_t) : bool := Z.testbit (flags p) 0.

Definition with_bitmap (f : gmap Z Z -> gmap Z Z) (k : kmem_info_t) : kmem_info_t :=
  Kmem (f (bitmap k)) (bitmap_pa k) (bitmap_count k) (bitmap_end k) (pfn_database k)
    (pfn_database_pa k) (pfn_database_bytes k) (pfn_database_end k) (buddy_free_area k)
    (nr_pages k) (nr_free_pages k) (phys_limit k).
Definition with_pages (f : gmap Z page_t -> gmap Z page_t) (k : kmem_info_t) : kmem_info_t :=
  Kmem (bitmap k) (bitmap_pa k) (bitmap_count k) (bitmap_end k) (f (pfn_database k))
    (pfn_database_pa k) (pfn_database_bytes k) (pfn_database_end k) (buddy_free_area k)
    (nr_pages k) (nr_free_pages k) (phys_limit k).
Definition with_areas (f : list free_area_t -> list free_area_t) (k : kmem_info_t) : kmem_info_t :=
  Kmem (bitmap k) (bitmap_pa k) (bitmap_count k) (bitmap_end k) (pfn_database k)
    (pfn_database_pa k) (pfn_database_bytes k) (pfn_database_end k) (f (buddy_free_area k))
    (nr_pages k) (nr_free_pages k) (phys_limit k).
Definition with_nr_free_pages (f : Z -> Z) (k : kmem_info_t) : kmem_info_t :=
  Kmem (bitmap k) (bitmap_pa k) (bitmap_count k) (bitmap_end k) (pfn_database k)
    (pfn_database_pa k) (pfn_database_bytes k) (pfn_database_end k) (buddy_free_area k)
    (nr_pages k) (f (nr_free_pages k)) (phys_limit k).

Definition area (k : kmem_info_t) (o : nat) : free_area_t :=
  default (FreeArea [] 0) (buddy_free_area k !! o).
Definition set_area (o : nat) (a : free_area_t) (k : kmem_info_t) : kmem_info_t :=
  with_areas <[o := a]> k.

(** [1ull << order] *)
Definition pages_of (o : nat) : Z := Z.shiftl 1 (Z.of_nat o).

Section Pmm.

(** What the memory behind the end of the page-frame database happens to hold,
    read as pages: [_buddy_free_pages] reads the page of a buddy before it
    checks that the buddy is below [phys_limit]. *)
Context (mem_behind : Z -> page_t).

Definition page_at (k : kmem_info_t) (i : Z) : page_t :=
  default (mem_behind i) (pfn_database k !! i).
Definition set_page (i : Z) (p : page_t) (k : kmem_info_t) : kmem_info_t :=
  with_pages <[i := p]> k.

Definition page_to_pfn (p : page_t) : Z := Z.shiftr (phys_addr p) PAGE_SHIFT.

(** ** Bitmap *)

(** The loops over [i < nr_pages]; [None] is an access outside the bitmap. *)
Fixpoint _bitmap_set (bm : gmap Z Z) (pfn : Z) (n : nat) (i : Z) : option (gmap Z Z) :=
  match n with
  | O => Some bm
  | S n =>
    let idx := u32 (u64 (pfn + i) / 64) in
    let bit_idx := u32 (u64 (pfn + i) mod 64) in
    w ← bm !! idx;
    _bitmap_set (<[idx := Z.lor w (Z.shiftl 1 bit_idx)]> bm) pfn n (i + 1)
  end.

Fixpoint _bitmap_clear (bm : gmap Z Z) (pfn : Z) (n : nat) (i : Z) : option (gmap Z Z) :=
  match n with
  | O => Some bm
  | S n =>
    let idx := u32 (u64 (pfn + i) / 64) in
    let bit := u32 (u64 (pfn + i) mod 64) in
    w ← bm !! idx;
    _bitmap_clear (<[idx := Z.land w (u64 (Z.lnot (Z.shiftl 1 bit)))]> bm) pfn n (i + 1)
  end.

Fixpoint _bitmap_is_clear (bm : gmap Z Z) (pfn : Z) (n : nat) (i : Z) : option bool :=
  match n with
  | O => Some true
  | S n =>
    let idx := u32 (u64 (pfn + i) / 64) in
    let bit := u32 (u64 (pfn + i) mod 64) in
    w ← bm !! idx;
    if ctrue (Z.land w (Z.shiftl 1 bit)) then Some false
    else _bitmap_is_clear bm pfn n (i + 1)
  end.

Fixpoint _bitmap_is_set (bm : gmap Z Z) (pfn : Z) (n : nat) (i : Z) : option bool :=
  match n with
  | O => Some true
  | S n =>
    let idx := u32 (u64 (pfn + i) / 64) in
    let bit := u32 (u64 (pfn + i) mod 64) in
    w ← bm !! idx;
    if Z.land w (Z.shiftl 1 bit) =? 0 then Some false
    else _bitmap_is_set bm pfn n (i + 1)
  end.

(** The scan [for (i = 0; i < phys_limit; i++)]: [n] candidates are left. *)
Fixpoint _bitmap_alloc_frames_from (n : nat) (bm : gmap Z Z) (nr : nat) (i : Z) :
    option (gmap Z Z * option Z) :=
  match n with
  | O => Some (bm, None)
  | S n =>
    c1 ← _bitmap_is_clear bm i 1 0;
    if c1 : bool then
      c ← _bitmap_is_clear bm i nr 0;
      if c : bool then
        bm' ← _bitmap_set bm i nr 0;
        Some (bm', Some i)
      else _bitmap_alloc_frames_from n bm nr (i + 1)
    else _bitmap_alloc_frames_from n bm nr (i + 1)
  end.
Definition _bitmap_alloc_frames (k : kmem_info_t) (nr : nat) : option (kmem_info_t * option Z) :=
  '(bm, r) ← _bitmap_alloc_frames_from (Z.to_nat (phys_limit k)) (bitmap k) nr 0;
  Some (with_bitmap (fun _ => bm) k, r).

Definition _bitmap_free_frames (k : kmem_info_t) (pfn : Z) (nr : nat) : option kmem_info_t :=
  bm ← _bitmap_clear (bitmap k) pfn nr 0;
  Some (with_bitmap (fun _ => bm) k).

Definition _bitmap_mark_page (k : kmem_info_t) (pfn : Z) : option kmem_info_t :=
  bm ← _bitmap_set (bitmap k) pfn 1 0;
  Some (with_bitmap (fun _ => bm) k).
Definition _bitmap_clear_page (k : kmem_info_t) (pfn : Z) : option kmem_info_t :=
  bm ← _bitmap_clear (bitmap k) pfn 1 0;
  Some (with_bitmap (fun _ => bm) k).

(** ** Buddy allocator *)

Definition _buddy_clear_page_buddy (k : kmem_info_t) (page : Z) : kmem_info_t :=
  let p := page_at k page in
  set_page page (Page (refcount p) (Z.land (flags p) 0xfffe) (order p) (phys_addr p)) k.

Definition _buddy_set_page_buddy (k : kmem_info_t) (page : Z) : kmem_info_t :=
  let p := page_at k page in
  set_page page (Page (refcount p) (Z.lor (flags p) 1) (order p) (phys_addr p)) k.

Definition _buddy_set_page_order (k : kmem_info_t) (page : Z) (o : nat) : kmem_info_t :=
  let p := page_at k page in
  set_page page (Page (refcount p) (flags p) o (phys_addr p)) k.

Definition _buddy_page_is_buddy (k : kmem_info_t) (page buddy : Z) (o : nat) : bool :=
  let page_pfn := page_to_pfn (page_at k page) in
  let buddy_pfn := page_to_pfn (page_at k buddy) in
  if negb (Z.lxor page_pfn buddy_pfn =? pages_of o) then false
  else if phys_limit k <=? u64 (Z.shiftl buddy_pfn PAGE_SHIFT) then false
  else in_buddy (page_at k buddy) && (order (page_at k buddy) =? o)%nat.

(** The merging loop of [_buddy_free_pages]; [fuel] bounds its iterations. *)
Fixpoint _buddy_merge (fuel : nat) (k : kmem_info_t) (page : Z) (new_order : nat) :
    kmem_info_t * Z * nat :=
  match fuel with
  | O => (k, page, new_order)
  | S fuel =>
    if (new_order <? MM_MAX_ORDER - 1)%nat then
      let page_idx := page_to_pfn (page_at k page) in
      let buddy_idx := Z.lxor page_idx (pages_of new_order) in
      let buddy := buddy_idx in
      if negb (_buddy_page_is_buddy k page buddy new_order) then (k, page, new_order)
      else
        let a := area k new_order in
        let k := set_area new_order
                   (FreeArea (l_remove_entry buddy (list_head a)) (u64 (nr_free a - 1))) k in
        let k := _buddy_clear_page_buddy k buddy in
        let k := _buddy_set_page_order k buddy 0 in
        let k := with_nr_free_pages (fun n => u64 (n - pages_of new_order)) k in
        let combined_idx := Z.land page_idx buddy_idx in
        _buddy_merge fuel k combined_idx (S new_order)
    else (k, page, new_order)
  end.

Definition _buddy_free_pages (k : kmem_info_t) (page : Z) (o : nat) : kmem_info_t :=
  let '(k, page, new_order) := _buddy_merge MM_MAX_ORDER k page o in
  let k := _buddy_set_page_buddy k page in
  let k := _buddy_set_page_order k page new_order in
  let a := area k new_order in
  let k := set_area new_order
             (FreeArea (l_add_next page (list_head a)) (u64 (nr_free a + 1))) k in
  with_nr_free_pages (fun n => u64 (n + pages_of new_order)) k.

Definition _buddy_add_to_free_list (k : kmem_info_t) (page : Z) (o : nat) : kmem_info_t :=
  let a := area k o in
  let k := set_area o (FreeArea (l_add_prev page (list_head a)) (nr_free a)) k in
  let k := _buddy_set_page_buddy k page in
  let k := _buddy_set_page_order k page o in
  let a := area k o in
  set_area o (FreeArea (list_head a) (u64 (nr_free a + 1))) k.

(** [d] is [high - low], the number of halvings left. *)
Fixpoint _buddy_split (k : kmem_info_t) (page : Z) (low d : nat) : kmem_info_t :=
  match d with
  | O => k
  | S d =>
    let high := (low + d)%nat in
    let k := _buddy_add_to_free_list k (page + pages_of high) high in
    let k := with_nr_free_pages (fun n => u64 (n + pages_of high)) k in
    _buddy_split k page low d
  end.

Definition _buddy_get_from_free_area (k : kmem_info_t) (o : nat) : kmem_info_t * option Z :=
  let a := area k o in
  if nr_free a =? 0 then (k, None) else
  match l_remove_next (list_head a) with
  | None => (k, None)
  | Some (page, rest) =>
    let k := set_area o (FreeArea rest (nr_free a)) k in
    let k := _buddy_clear_page_buddy k page in
    let a := area k o in
    let k := set_area o (FreeArea (list_head a) (u64 (nr_free a - 1))) k in
    (with_nr_free_pages (fun n => u64 (n - pages_of o)) k, Some page)
  end.

(** The first order [i >= o] whose blocks hold [nr] pages, 0 when none does. *)
Fixpoint order_for (n : nat) (o : nat) (nr : Z) : nat :=
  match n with
  | O => 0
  | S n => if nr <=? pages_of o then o else order_for n (S o) nr
  end.

(** The loop over [curr_order]; [n] orders are left. *)
Fixpoint _buddy_alloc_from (n : nat) (k : kmem_info_t) (o curr_order : nat) :
    kmem_info_t * option Z :=
  match n with
  | O => (k, None)
  | S n =>
    match _buddy_get_from_free_area k curr_order with
    | (k, None) => _buddy_alloc_from n k o (S curr_order)
    | (k, Some page) =>
      let k := _buddy_split k page o (curr_order - o) in
      (_buddy_set_page_order k page o, Some page)
    end
  end.

Definition _buddy_alloc_pages (k : kmem_info_t) (nr : Z) : kmem_info_t * option Z :=
  if pages_of (MM_MAX_ORDER - 1) <? nr then (k, None) else
  let o := order_for MM_MAX_ORDER 0 nr in
  if (MM_MAX_ORDER - 1 <? o)%nat then (k, None) else
  _buddy_alloc_from (MM_MAX_ORDER - o) k o o.

(** The result of an allocation: a frame number, a kernel panic, or the load of
    [phys_addr] through the null page that a failed search hands to
    [page_to_pfn]. *)
Inductive pmm_result :=
  | Pfn (pfn : Z)
  | Panic
  | NullDeref.

Definition pmm_alloc_pages (k : kmem_info_t) (nr : Z) : kmem_info_t * pmm_result :=
  if nr =? 0 then (k, Pfn 0) else
  if nr_free_pages k <? nr then (k, Panic) else
  match _buddy_alloc_pages k nr with
  | (k, Some page) => (k, Pfn (page_to_pfn (page_at k page)))
  | (k, None) => (k, NullDeref)
  end.

Definition pmm_alloc_page (k : kmem_info_t) : kmem_info_t * pmm_result := pmm_alloc_pages k 1.

Definition pmm_free_pages (k : kmem_info_t) (pfn : Z) : kmem_info_t :=
  _buddy_free_pages k pfn (order (page_at k pfn)).

Definition pmm_free_page (k : kmem_info_t) (pfn : Z) : kmem_info_t := pmm_free_pages k pfn.

(** The numbers [pmm_dump_usage] prints: total, free and used bytes, clear bits
    of the bitmap, pages on the free lists. *)
Fixpoint clear_bits (n : nat) (bit_idx w : Z) : Z :=
  match n with
  | O => 0
  | S n => (if Z.land w (Z.shiftl 1 bit_idx) =? 0 then 1 else 0) + clear_bits n (bit_idx + 1) w
  end.
Fixpoint bitmap_total (n : nat) (i : Z) (bm : gmap Z Z) : Z :=
  match n with
  | O => 0
  | S n => clear_bits 64 0 (default 0 (bm !! i)) + bitmap_total n (i + 1) bm
  end.
Fixpoint buddy_free (n o : nat) (k : kmem_info_t) : Z :=
  match n with
  | O => 0
  | S n => u64 (nr_free (area k o) * pages_of o + buddy_free n (S o) k)
  end.
Definition pmm_dump_usage (k : kmem_info_t) : Z * Z * Z * Z * Z :=
  let totalmem := PAGE_TO_SIZE (nr_pages k) in
  let freemem := PAGE_TO_SIZE (nr_free_pages k) in
  (totalmem, freemem, u64 (totalmem - freemem),
   bitmap_total (Z.to_nat (bitmap_count k)) 0 (bitmap k), buddy_free MM_MAX_ORDER 0 k).

(** ** Initialisation from the boot memory map *)

(** The type code of usable memory in the boot protocol's header. *)
Context (LIMINE_MEMMAP_USABLE : Z).

Definition usable (e : limine_memmap_entry) : bool := mtype e =? LIMINE_MEMMAP_USABLE.

Fixpoint memmap_scan (mm : list limine_memmap_entry) (total limit : Z) : Z * Z :=
  match mm with
  | [] => (total, limit)
  | e :: mm =>
    let total := if usable e then u64 (total + len e) else total in
    memmap_scan mm total (PAGE_ALIGN_UP_IF (u64 (base e + len e)))
  end.

Definition _kmem_init (k : kmem_info_t) (mm : list limine_memmap_entry) : kmem_info_t :=
  let '(total_size, limit) := memmap_scan mm 0 0 in
  Kmem (bitmap k) (bitmap_pa k) (bitmap_count k) (bitmap_end k) (pfn_database k)
    (pfn_database_pa k) (pfn_database_bytes k) (pfn_database_end k) (buddy_free_area k)
    (SIZE_TO_PAGE total_size) 0 limit.

(** Carve [size] bytes off the end of the first usable entry that is larger:
    its new memory map and the physical address (0 when there is none). *)
Fixpoint carve (mm : list limine_memmap_entry) (size : Z) : list limine_memmap_entry * Z :=
  match mm with
  | [] => ([], 0)
  | e :: mm =>
    if usable e && (size <? len e) then
      (Memmap (base e) (u64 (len e - size)) (mtype e) :: mm, u64 (base e + len e - size))
    else let '(mm, pa) := carve mm size in (e :: mm, pa)
  end.

Definition bitmap_words (limit : Z) : Z :=
  Z.land (u64 (limit + BITMAP_PER_U64)) (u64 (Z.lnot BITMAP_PER_U64)) / BITMAP_PER_U64.

Fixpoint fill_bitmap (n : nat) (i : Z) (bm : gmap Z Z) : gmap Z Z :=
  match n with
  | O => bm
  | S n => fill_bitmap n (i + 1) (<[i := U64_MAX]> bm)
  end.

Definition _bitmap_init (k : kmem_info_t) (mm : list limine_memmap_entry) :
    kmem_info_t * list limine_memmap_entry :=
  let count := bitmap_words (phys_limit k) in
  let size := u64 (count * BYTES_PER_U64) in
  let '(mm, pa) := carve mm size in
  (Kmem (fill_bitmap (Z.to_nat count) 0 ∅) pa count (u64 (__PHYS_TO_VIRT pa + size))
     (pfn_database k) (pfn_database_pa k) (pfn_database_bytes k) (pfn_database_end k)
     (buddy_free_area k) (nr_pages k) (nr_free_pages k) (phys_limit k), mm).

Fixpoint _bitmap_free_pages (bm : gmap Z Z) (mm : list limine_memmap_entry) : option (gmap Z Z) :=
  match mm with
  | [] => Some bm
  | e :: mm =>
    bm ← (if usable e
          then _bitmap_clear bm (Z.shiftr (base e) PAGE_SHIFT) (Z.to_nat (SIZE_TO_PAGE (len e))) 0
          else Some bm);
    _bitmap_free_pages bm mm
  end.

Definition _pfn_page_init (pfn : Z) : page_t := Page 0 0 0 (u64 (Z.shiftl pfn PAGE_SHIFT)).

Fixpoint init_pages (n : nat) (pfn : Z) (db : gmap Z page_t) : gmap Z page_t :=
  match n with
  | O => db
  | S n => init_pages n (pfn + 1) (<[pfn := _pfn_page_init pfn]> db)
  end.

Definition _pfn_database_init (k : kmem_info_t) (mm : list limine_memmap_entry) :
    kmem_info_t * list limine_memmap_entry :=
  let size := PAGE_ALIGN_UP_IF (u64 (SIZE_TO_PAGE (phys_limit k) * sizeof_page_t)) in
  let '(mm, pa) := carve mm size in
  (Kmem (bitmap k) (bitmap_pa k) (bitmap_count k) (bitmap_end k)
     (init_pages (Z.to_nat (SIZE_TO_PAGE (phys_limit k))) 0 ∅) pa size
     (u64 (__PHYS_TO_VIRT pa + size)) (buddy_free_area k)
     (nr_pages k) (nr_free_pages k) (phys_limit k), mm).

(** The loop over the bits of word [i]; [n] bits are left. *)
Fixpoint _buddy_init_bits (n : nat) (k : kmem_info_t) (w i bit_idx : Z) : kmem_info_t :=
  match n with
  | O => k
  | S n =>
    let pfn := i * BITS_PER_U64 + bit_idx in
    let k := if Z.land w (Z.shiftl 1 bit_idx) =? 0 then _buddy_free_pages k pfn 0 else k in
    _buddy_init_bits n k w i (bit_idx + 1)
  end.

Fixpoint _buddy_init_words (n : nat) (k : kmem_info_t) (i : Z) : kmem_info_t :=
  match n with
  | O => k
  | S n =>
    let w := default 0 (bitmap k !! i) in
    let k := if w =? 0
             then _buddy_free_pages k (i * BITS_PER_U64) (Z.to_nat (ffs BITS_PER_U64))
             else _buddy_init_bits 64 k w i 0 in
    _buddy_init_words n k (i + 1)
  end.

Definition _buddy_init (k : kmem_info_t) : kmem_info_t :=
  let k := with_areas (fun _ => replicate MM_MAX_ORDER (FreeArea [] 0)) k in
  _buddy_init_words (Z.to_nat (bitmap_count k)) k 0.

(** [None] when a step writes outside the bitmap. *)
Definition pmm_init (k : kmem_info_t) (mm : list limine_memmap_entry) : option kmem_info_t :=
  let k := _kmem_init k mm in
  let '(k, mm) := _bitmap_init k mm in
  let '(k, mm) := _pfn_database_init k mm in
  bm ← _bitmap_free_pages (bitmap k) mm;
  Some (_buddy_init (with_bitmap (fun _ => bm) k)).

End Pmm.

(** ** Rounding *)

Lemma testbit_above b s n : 0 <= s < 2 ^ b -> 0 <= b <= n -> Z.testbit s n = false.
Proof.
  intros Hs Hn. apply Z.testbit_false; [lia|]. rewrite Z.div_small; [done|].
  split; [lia|]. apply Z.lt_le_trans with (2 ^ b); [lia|]. apply Z.pow_le_mono_r; lia.
Qed.

Lemma PAGE_ALIGN_div s : 0 <= s < 2 ^ 64 -> PAGE_ALIGN s = s / 4096 * 4096.
Proof.
  intros Hs. unfold PAGE_ALIGN.
  change (u64 (Z.lnot (PAGE_SIZE - 1))) with (Z.shiftl (Z.ones 52) 12).
  change 4096 with (2 ^ 12).
  rewrite <- Z.shiftr_div_pow2, <- Z.shiftl_mul_pow2 by lia.
  apply Z.bits_inj'. intros n Hn. rewrite Z.land_spec.
  destruct (decide (n < 12)).
  { by rewrite !Z.shiftl_spec_low, andb_false_r by lia. }
  rewrite !Z.shiftl_spec, Z.shiftr_spec by lia. replace (n - 12 + 12) with n by lia.
  destruct (decide (n < 64)).
  - by rewrite Z.ones_spec_low, andb_true_r by lia.
  - by rewrite (testbit_above 64 s n) by lia.
Qed.

(** [PAGE_ALIGN_UP_IF] is the least multiple of the page size above [s]. *)
Lemma PAGE_ALIGN_UP_IF_spec s :
  0 <= s < 2 ^ 63 -> exists q, PAGE_ALIGN_UP_IF s = q * 4096 /\ s <= q * 4096 < s + 4096.
Proof.
  intros Hs. unfold PAGE_ALIGN_UP_IF, PAGE_ALIGN_UP, ctrue. rewrite PAGE_ALIGN_div by lia.
  change (PAGE_SIZE - 1) with (Z.ones 12). rewrite Z.land_ones by lia.
  change (2 ^ 12) with 4096. unfold PAGE_SIZE.
  destruct (s mod 4096 =? 0) eqn:E; breflect; simpl.
  - exists (s / 4096). Z.div_mod_to_equations. lia.
  - exists (s / 4096 + 1). rewrite u64_small by (Z.div_mod_to_equations; lia).
    Z.div_mod_to_equations. lia.
Qed.
