(* ===== verification/PmmBitmap.v ===== *)
(** * Physical memory manager: correctness of the boot bitmap

    The bitmap of [Pmm] refines a set of pages: [bm_bit bm x] says whether page
    [x] is marked used.  Each operation is shown to stay inside the words of the
    bitmap and to change exactly the bits of its range; the first-fit search
    returns the lowest run of free pages. *)

From Stdlib Require Import ZifyBool.
From S2P Require Import Prelude DList Pmm.

(** ** Abstract state *)

Definition bm_bit (bm : gmap Z Z) (x : Z) : bool :=
  Z.testbit (default 0 (bm !! (x / 64))) (x mod 64).

(** The bitmap has (at least) [n] words. *)
Definition bm_words (bm : gmap Z Z) (n : Z) : Prop :=
  forall i, 0 <= i < n -> exists w, bm !! i = Some w /\ 0 <= w < 2 ^ 64.

(** Pages [pfn .. pfn + n) lie in a bitmap of [c] words that 32-bit word indices
    can address. *)
Definition in_bitmap (c pfn n : Z) : Prop :=
  0 <= pfn /\ 0 <= n /\ pfn + n <= 64 * c /\ c <= 2 ^ 32.

(** ** Bits of a word *)

Lemma land_bit w b : 0 <= b -> (Z.land w (Z.shiftl 1 b) =? 0) = negb (Z.testbit w b).
Proof.
  intros Hb. destruct (Z.testbit w b) eqn:E; simpl.
  - apply Z.eqb_neq. intros H. assert (Z.testbit (Z.land w (Z.shiftl 1 b)) b = false) as H'
      by (rewrite H; apply Z.bits_0).
    rewrite Z.land_spec, E, Z.shiftl_1_l, Z.pow2_bits_true in H' by done. done.
  - apply Z.eqb_eq, Z.bits_inj'. intros n Hn.
    rewrite Z.land_spec, Z.bits_0, Z.shiftl_1_l, Z.pow2_bits_eqb by done.
    destruct (Z.eqb_spec b n) as [->|]; [by rewrite E|]. by rewrite andb_false_r.
Qed.

Lemma testbit_set w b n :
  0 <= b -> 0 <= n -> Z.testbit (Z.lor w (Z.shiftl 1 b)) n = Z.testbit w n || (b =? n).
Proof. intros ??. by rewrite Z.lor_spec, Z.shiftl_1_l, Z.pow2_bits_eqb. Qed.

Lemma testbit_clear w b n :
  0 <= b < 64 -> 0 <= n < 64 ->
  Z.testbit (Z.land w (u64 (Z.lnot (Z.shiftl 1 b)))) n = Z.testbit w n && negb (b =? n).
Proof.
  intros ??. unfold u64. rewrite Z.land_spec, Z.mod_pow2_bits_low by lia.
  by rewrite Z.lnot_spec, Z.shiftl_1_l, Z.pow2_bits_eqb by lia.
Qed.

Lemma shiftr_word w : 0 <= w -> Z.shiftr w 64 = 0 -> 0 <= w < 2 ^ 64.
Proof.
  intros H0 H. rewrite Z.shiftr_div_pow2 in H by lia.
  apply Z.div_small_iff in H; lia.
Qed.

Lemma word_set w b : 0 <= w < 2 ^ 64 -> 0 <= b < 64 -> 0 <= Z.lor w (Z.shiftl 1 b) < 2 ^ 64.
Proof.
  intros Hw Hb. assert (0 <= Z.lor w (Z.shiftl 1 b)) as H0.
  { apply Z.lor_nonneg. split; [lia|]. apply Z.shiftl_nonneg. lia. }
  apply shiftr_word; [done|].
  rewrite Z.shiftr_lor, !Z.shiftr_div_pow2, Z.shiftl_1_l by lia.
  rewrite !Z.div_small; [done| |lia].
  split; [apply Z.pow_nonneg; lia|]. apply Z.pow_lt_mono_r; lia.
Qed.

Lemma word_clear w v : 0 <= w < 2 ^ 64 -> 0 <= Z.land w (u64 v) < 2 ^ 64.
Proof.
  intros Hw. unfold u64. apply shiftr_word; [apply Z.land_nonneg; left; lia|].
  rewrite Z.shiftr_land, !Z.shiftr_div_pow2 by lia. by rewrite (Z.div_small w) by lia.
Qed.

(** Word and bit index of a page, as the loops compute them. *)
Lemma page_index c pfn n i :
  in_bitmap c pfn n -> 0 <= i < n ->
  u32 (u64 (pfn + i) / 64) = (pfn + i) / 64 /\ u32 (u64 (pfn + i) mod 64) = (pfn + i) mod 64 /\
  0 <= (pfn + i) / 64 < c.
Proof. intros (? & ? & ? & ?) ?. rewrite (u64_small (pfn + i)) by lia. wrap_lia. Qed.

Lemma bm_words_insert bm c i w :
  bm_words bm c -> 0 <= w < 2 ^ 64 -> bm_words (<[i := w]> bm) c.
Proof.
  intros Hbm Hw j Hj. rewrite lookup_insert. case_decide; [by eexists|]. by apply Hbm.
Qed.

(** Updating the word of page [y]. *)
Lemma bm_bit_insert bm y w x :
  bm_bit (<[y / 64 := w]> bm) x =
  if decide (y / 64 = x / 64) then Z.testbit w (x mod 64) else bm_bit bm x.
Proof. unfold bm_bit. rewrite lookup_insert. by case_decide. Qed.

Lemma page_eqb x y : y / 64 = x / 64 -> (y mod 64 =? x mod 64) = (y =? x).
Proof. intros E. destruct (Z.eqb_spec y x); [subst; apply Z.eqb_refl|]. wrap_lia. Qed.

Definition in_range (pfn n x : Z) : bool := (pfn <=? x) && (x <? pfn + n).

(** ** The loops *)

Lemma _bitmap_set_spec bm c pfn n i :
  bm_words bm c -> in_bitmap c pfn (i + Z.of_nat n) -> 0 <= i ->
  exists bm', _bitmap_set bm pfn n i = Some bm' /\ bm_words bm' c /\
    forall x, bm_bit bm' x = bm_bit bm x || in_range (pfn + i) (Z.of_nat n) x.
Proof.
  revert bm i. induction n as [|n IH]; intros bm i Hbm Hin Hi; cbn [_bitmap_set].
  { exists bm. split_and!; [done..|]. intros x. unfold in_range. destruct (bm_bit bm x); [done|].
    symmetry. apply andb_false_iff. rewrite Z.leb_gt, Z.ltb_ge. lia. }
  destruct (page_index c pfn _ i Hin ltac:(lia)) as (-> & -> & Hw).
  destruct (Hbm _ Hw) as (w & Ew & Hwr). rewrite Ew. simpl.
  assert (0 <= (pfn + i) mod 64 < 64) by (apply Z.mod_pos_bound; lia).
  destruct (IH (<[(pfn + i) / 64 := Z.lor w (Z.shiftl 1 ((pfn + i) mod 64))]> bm) (i + 1))
    as (bm' & E & Hbm' & Hbit).
  - apply bm_words_insert; [done|]. by apply word_set.
  - by replace (i + 1 + Z.of_nat n) with (i + Z.of_nat (S n)) by lia.
  - lia.
  - exists bm'. split_and!; [done..|]. intros x. rewrite Hbit, bm_bit_insert.
    case_decide as Ed.
    + rewrite testbit_set by (try apply Z.mod_pos_bound; lia). rewrite page_eqb by done.
      unfold bm_bit. rewrite <- Ed, Ew. simpl. unfold in_range.
      destruct (Z.testbit _ _); [done|]. simpl. lia.
    + unfold in_range. assert (x ≠ pfn + i) by congruence.
      destruct (bm_bit bm x); [done|]. simpl. lia.
Qed.

Lemma _bitmap_clear_spec bm c pfn n i :
  bm_words bm c -> in_bitmap c pfn (i + Z.of_nat n) -> 0 <= i ->
  exists bm', _bitmap_clear bm pfn n i = Some bm' /\ bm_words bm' c /\
    forall x, bm_bit bm' x = bm_bit bm x && negb (in_range (pfn + i) (Z.of_nat n) x).
Proof.
  revert bm i. induction n as [|n IH]; intros bm i Hbm Hin Hi; cbn [_bitmap_clear].
  { exists bm. split_and!; [done..|]. intros x. unfold in_range. destruct (bm_bit bm x); [|done].
    simpl. lia. }
  destruct (page_index c pfn _ i Hin ltac:(lia)) as (-> & -> & Hw).
  destruct (Hbm _ Hw) as (w & Ew & Hwr). rewrite Ew. simpl.
  assert (0 <= (pfn + i) mod 64 < 64) by (apply Z.mod_pos_bound; lia).
  edestruct (IH (<[(pfn + i) / 64 := Z.land w
    (u64 (Z.lnot (Z.shiftl 1 ((pfn + i) mod 64))))]> bm) (i + 1)) as (bm' & E & Hbm' & Hbit).
  - apply bm_words_insert; [done|]. by apply word_clear.
  - by replace (i + 1 + Z.of_nat n) with (i + Z.of_nat (S n)) by lia.
  - lia.
  - exists bm'. split_and!; [done..|]. intros x. rewrite Hbit, bm_bit_insert.
    case_decide as Ed.
    + rewrite testbit_clear by (try apply Z.mod_pos_bound; lia). rewrite page_eqb by done.
      unfold bm_bit. rewrite <- Ed, Ew. simpl. unfold in_range.
      destruct (Z.testbit _ _); [|done]. simpl. lia.
    + unfold in_range. assert (x ≠ pfn + i) by congruence.
      destruct (bm_bit bm x); [|done]. simpl. lia.
Qed.

(** The two tests are universally quantified over the range. *)
Lemma _bitmap_test_spec bm c pfn n i :
  bm_words bm c -> in_bitmap c pfn (i + Z.of_nat n) -> 0 <= i ->
  (exists b, _bitmap_is_clear bm pfn n i = Some b /\
    (b = true <-> forall x, in_range (pfn + i) (Z.of_nat n) x = true -> bm_bit bm x = false)) /\
  (exists b, _bitmap_is_set bm pfn n i = Some b /\
    (b = true <-> forall x, in_range (pfn + i) (Z.of_nat n) x = true -> bm_bit bm x = true)).
Proof.
  revert i. induction n as [|n IH]; intros i Hbm Hin Hi;
    cbn [_bitmap_is_clear _bitmap_is_set].
  { split; exists true; (split; [done|]); split; [|done | |done];
      intros _ x; unfold in_range; lia. }
  destruct (page_index c pfn _ i Hin ltac:(lia)) as (-> & -> & Hw).
  destruct (Hbm _ Hw) as (w & Ew & Hwr). rewrite Ew. simpl.
  assert (bm_bit bm (pfn + i) = Z.testbit w ((pfn + i) mod 64)) as Hbit
    by (unfold bm_bit; by rewrite Ew).
  assert (0 <= (pfn + i) mod 64 < 64) by (apply Z.mod_pos_bound; lia).
  unfold ctrue. rewrite land_bit, <- Hbit by lia.
  destruct (IH (i + 1)) as [(b1 & E1 & H1) (b2 & E2 & H2)]; [done| |lia|].
  { by replace (i + 1 + Z.of_nat n) with (i + Z.of_nat (S n)) by lia. }
  assert (forall x, in_range (pfn + i) (Z.of_nat (S n)) x = true <->
            x = pfn + i \/ in_range (pfn + (i + 1)) (Z.of_nat n) x = true) as Hr
    by (intros x; unfold in_range; lia).
  setoid_rewrite Hr. destruct (bm_bit bm (pfn + i)) eqn:E; simpl; split; eexists;
    (split; [try done|naive_solver]).
Qed.

(** ** First fit *)

(** [nr] free pages start at [x]. *)
Definition free_run (bm : gmap Z Z) (c nr x : Z) : Prop :=
  in_bitmap c x nr /\ forall y, in_range x nr y = true -> bm_bit bm y = false.

Lemma alloc_frames_from_spec n bm c nr i x :
  bm_words bm c -> (0 < nr)%nat -> 0 <= i <= x -> x < i + Z.of_nat n ->
  free_run bm c (Z.of_nat nr) x ->
  exists p bm', _bitmap_alloc_frames_from n bm nr i = Some (bm', Some p) /\
    i <= p <= x /\ free_run bm c (Z.of_nat nr) p /\
    (forall y, i <= y < p -> ~ free_run bm c (Z.of_nat nr) y) /\
    bm_words bm' c /\ forall y, bm_bit bm' y = bm_bit bm y || in_range p (Z.of_nat nr) y.
Proof.
  revert i. induction n as [|n IH]; intros i Hbm Hnr Hi Hx Hrun; [lia|].
  cbn [_bitmap_alloc_frames_from].
  assert (in_bitmap c i (Z.of_nat nr)) as Hin.
  { destruct Hrun as [(? & ? & ? & ?) _]. repeat split; lia. }
  assert (in_bitmap c i 1) as Hin1 by (destruct Hin as (? & ? & ? & ?); repeat split; lia).
  destruct (_bitmap_test_spec bm c i 1 0 Hbm Hin1 ltac:(lia)) as [(b1 & -> & Hb1) _].
  destruct (_bitmap_test_spec bm c i nr 0 Hbm Hin ltac:(lia)) as [(b & -> & Hb) _].
  rewrite Z.add_0_r in Hb1, Hb. simpl option_bind.
  assert (free_run bm c (Z.of_nat nr) i <-> b1 = true /\ b = true) as Hfr.
  { rewrite Hb1, Hb. unfold free_run. split; [|naive_solver].
    intros [_ Hc]. split; [|done]. intros y Hy. apply Hc. unfold in_range in *. lia. }
  destruct (b1 && b) eqn:E.
  - apply andb_true_iff in E as [-> ->]. simpl.
    destruct (_bitmap_set_spec bm c i nr 0 Hbm Hin ltac:(lia)) as (bm' & -> & Hw & Hbits).
    rewrite Z.add_0_r in Hbits. exists i, bm'. simpl.
    split_and!; [done | lia | lia | by apply Hfr | intros y Hy; lia | done | done].
  - assert (~ free_run bm c (Z.of_nat nr) i) as Hni.
    { intros [-> ->]%Hfr. done. }
    assert (i ≠ x) by naive_solver.
    destruct (IH (i + 1) Hbm Hnr ltac:(lia) ltac:(lia) Hrun)
      as (p & bm' & E' & Hp & Hr & Hmin & Hw & Hbits).
    exists p, bm'. split_and!; try done; [by destruct b1, b | lia | lia |].
    intros y Hy. destruct (decide (y = i)) as [->|]; [done|]. apply Hmin. lia.
Qed.

(** First fit on the boot bitmap.  When some run of [nr] free pages lies in
    the bitmap below the search limit, [_bitmap_alloc_frames] returns the lowest
    such run without leaving the bitmap, marks exactly its pages, and
    [_bitmap_free_frames] of the result succeeds and restores every bit. *)
Theorem bitmap_alloc_first_fit k c nr x :
  bm_words (bitmap k) c -> (0 < nr)%nat -> 0 <= x < phys_limit k ->
  free_run (bitmap k) c (Z.of_nat nr) x ->
  exists k' p, _bitmap_alloc_frames k nr = Some (k', Some p) /\
    free_run (bitmap k) c (Z.of_nat nr) p /\
    (forall y, 0 <= y < p -> ~ free_run (bitmap k) c (Z.of_nat nr) y) /\
    (forall y, bm_bit (bitmap k') y = bm_bit (bitmap k) y || in_range p (Z.of_nat nr) y) /\
    exists k'', _bitmap_free_frames k' p nr = Some k'' /\
      forall y, bm_bit (bitmap k'') y = bm_bit (bitmap k) y.
Proof.
  intros Hbm Hnr Hx Hrun. unfold _bitmap_alloc_frames.
  destruct (alloc_frames_from_spec (Z.to_nat (phys_limit k)) (bitmap k) c nr 0 x)
    as (p & bm' & -> & Hp & Hr & Hmin & Hw & Hbits); [done..|lia|lia|done|].
  simpl. eexists _, p. split; [done|]. cbn [bitmap with_bitmap].
  split_and!; [done|done|done|]. unfold _bitmap_free_frames. cbn [bitmap with_bitmap].
  destruct (_bitmap_clear_spec bm' c p nr 0 Hw (proj1 Hr) ltac:(lia)) as (bm'' & -> & _ & Hb).
  eexists. split; [done|]. cbn [bitmap with_bitmap]. intros y. rewrite Hb, Hbits, Z.add_0_r.
  destruct (in_range p (Z.of_nat nr) y) eqn:E.
  - rewrite (proj2 Hr y E). done.
  - by rewrite orb_false_r, andb_true_r.
Qed.

(** A machine of 128 pages: pages 0..2 and 5 are used. *)
Definition demo_bitmap : kmem_info_t :=
  Kmem {[0 := 0x27; 1 := 0]} 0 2 0 ∅ 0 0 0 [] 128 0 (128 * 4096).

Lemma bitmap_alloc_first_fit_witness :
  exists k' p, _bitmap_alloc_frames demo_bitmap 3 = Some (k', Some p) /\ ~ p = 3 /\
    exists k'', _bitmap_free_frames k' p 3 = Some k'' /\
      forall y, bm_bit (bitmap k'') y = bm_bit (bitmap demo_bitmap) y.
Proof.
  destruct (bitmap_alloc_first_fit demo_bitmap 2 3 6) as (k' & p & E & Hr & _ & _ & H).
  - intros i Hi. assert (i = 0 \/ i = 1) as [-> | ->] by lia; eexists; (split; [done|lia]).
  - lia.
  - simpl. lia.
  - split; [repeat split; lia|]. intros y Hy. unfold in_range in Hy.
    assert (y = 6 \/ y = 7 \/ y = 8) as [-> | [-> | ->]] by lia; reflexivity.
  - exists k', p. split_and!; [done| |done]. intros ->. destruct Hr as [_ Hr].
    by specialize (Hr 5 eq_refl).
Defined.
