(* ===== verification/PmmBuddy.v ===== *)
(** * Physical memory manager: correctness of the buddy allocator

    The invariant of the buddy allocator of [Pmm], its two primitive
    transitions ([took] and [gave] of one block), and the correctness of
    allocation, release and initialisation against the abstract state
    [frames]: the page frames that are free. *)

From S2P Require Import Prelude DList Pmm.

(** ** Abstract state *)

Definition npages (k : kmem_info_t) : Z := phys_limit k / PAGE_SIZE.

Definition flist (k : kmem_info_t) (o : nat) : list Z := list_head (area k o).

(** The frames of the blocks of order [o] and up, and all free frames. *)
Fixpoint frames_from (o : nat) (l : list free_area_t) : list Z :=
  match l with
  | [] => []
  | a :: l => (list_head a ≫= fun p => seqZ p (pages_of o)) ++ frames_from (S o) l
  end.
Definition frames (k : kmem_info_t) : list Z := frames_from 0 (buddy_free_area k).

(** [p] can be the first page of a block of order [o]. *)
Definition block_ok (k : kmem_info_t) (o : nat) (p : Z) : Prop :=
  (o < MM_MAX_ORDER)%nat /\ (pages_of o | p) /\ 0 <= p /\ p + pages_of o <= npages k.

(** The buddy of the block at [p]. *)
Definition buddy_of (o : nat) (p : Z) : Z := Z.lxor p (pages_of o).

Record buddy_inv (k : kmem_info_t) : Prop := {
  bi_areas : length (buddy_free_area k) = MM_MAX_ORDER;
  bi_limit : phys_limit k = npages k * PAGE_SIZE;
  bi_npages : 0 <= npages k <= 2 ^ 40;
  bi_db : forall i, is_Some (pfn_database k !! i) <-> 0 <= i < npages k;
  bi_phys : forall i pg, pfn_database k !! i = Some pg -> phys_addr pg = i * PAGE_SIZE;
  bi_flag : forall i pg o, pfn_database k !! i = Some pg ->
    (i ∈ flist k o <-> in_buddy pg = true /\ order pg = o);
  bi_block : forall o p, p ∈ flist k o -> block_ok k o p;
  bi_frames : NoDup (frames k);
  bi_nr : forall o, nr_free (area k o) = Z.of_nat (length (flist k o));
  bi_total : nr_free_pages k = Z.of_nat (length (frames k));
}.

(** No two free buddies: free memory is coalesced as far as the orders go. *)
Definition coalesced (k : kmem_info_t) : Prop :=
  forall o p, (o < MM_MAX_ORDER - 1)%nat -> p ∈ flist k o -> buddy_of o p ∉ flist k o.

(** ** Block arithmetic *)

Lemma pages_of_pow o : pages_of o = 2 ^ Z.of_nat o.
Proof. unfold pages_of. rewrite Z.shiftl_mul_pow2 by lia. lia. Qed.

Lemma pages_of_S o : pages_of (S o) = 2 * pages_of o.
Proof. rewrite !pages_of_pow, Nat2Z.inj_succ, Z.pow_succ_r by lia. lia. Qed.

Lemma pages_of_pos o : 0 < pages_of o.
Proof. rewrite pages_of_pow. apply Z.pow_pos_nonneg; lia. Qed.

Lemma pages_of_bound o : (o < MM_MAX_ORDER)%nat -> 1 <= pages_of o <= 1024.
Proof.
  intros H. rewrite pages_of_pow. change 1 with (2 ^ 0) at 1. change 1024 with (2 ^ 10).
  unfold MM_MAX_ORDER in H. split; apply Z.pow_le_mono_r; lia.
Qed.

Lemma pages_of_divide o o' : (o <= o')%nat -> (pages_of o | pages_of o').
Proof.
  intros H. rewrite !pages_of_pow. exists (2 ^ (Z.of_nat o' - Z.of_nat o)).
  rewrite <- Z.pow_add_r by lia. f_equal. lia.
Qed.

Lemma lxor_1 q : Z.lxor q 1 = if Z.even q then q + 1 else q - 1.
Proof.
  destruct (Z.even q) eqn:E.
  - apply Z.even_spec in E as [m ->].
    rewrite <- Z.add_nocarry_lxor; [done|].
    apply Z.bits_inj'. intros n Hn. rewrite Z.land_spec, Z.bits_0.
    destruct (decide (n = 0)) as [->|]; [by rewrite Z.testbit_even_0|].
    by rewrite (Z.bits_above_log2 1) by (simpl; lia); rewrite andb_false_r.
  - assert (Z.odd q = true) as [m ->]%Z.odd_spec by (by rewrite <- Z.negb_even, E).
    replace (2 * m + 1 - 1) with (2 * m) by lia.
    apply Z.bits_inj'. intros n Hn. rewrite Z.lxor_spec.
    destruct (decide (n = 0)) as [->|].
    { by rewrite Z.testbit_odd_0, Z.testbit_even_0. }
    rewrite (Z.bits_above_log2 1) by (simpl; lia). rewrite xorb_false_r.
    replace n with (Z.succ (n - 1)) by lia.
    by rewrite Z.testbit_odd_succ, Z.testbit_even_succ by lia.
Qed.

Lemma land_lxor_1 q : Z.land q (Z.lxor q 1) = 2 * (q / 2).
Proof.
  apply Z.bits_inj'. intros n Hn. rewrite Z.land_spec, Z.lxor_spec.
  destruct (decide (n = 0)) as [->|].
  { rewrite Z.testbit_even_0. change (Z.testbit 1 0) with true.
    by destruct (Z.testbit q 0). }
  rewrite (Z.bits_above_log2 1) by (simpl; lia). rewrite xorb_false_r, andb_diag.
  replace n with (Z.succ (n - 1)) by lia.
  rewrite Z.testbit_even_succ by lia.
  by rewrite Z.div2_bits by lia.
Qed.

(** The buddy of an aligned block, and the block the two combine to. *)
Lemma buddy_cases o p :
  (pages_of o | p) ->
  ((pages_of (S o) | p) /\ buddy_of o p = p + pages_of o /\ Z.land p (buddy_of o p) = p) \/
  ((pages_of (S o) | p - pages_of o) /\ buddy_of o p = p - pages_of o /\
   Z.land p (buddy_of o p) = p - pages_of o).
Proof.
  intros [q ->]. unfold buddy_of. rewrite pages_of_S.
  pose proof (pages_of_pos o) as Hp.
  assert (Z.lxor (q * pages_of o) (pages_of o) = Z.lxor q 1 * pages_of o) as ->.
  { rewrite !pages_of_pow, <- !Z.shiftl_mul_pow2 by lia.
    rewrite Z.shiftl_lxor. f_equal. rewrite Z.shiftl_mul_pow2 by lia. lia. }
  assert (Z.land (q * pages_of o) (Z.lxor q 1 * pages_of o) = 2 * (q / 2) * pages_of o) as ->.
  { rewrite <- land_lxor_1, !pages_of_pow, <- !Z.shiftl_mul_pow2 by lia.
    by rewrite Z.shiftl_land. }
  rewrite lxor_1. destruct (Z.even q) eqn:E.
  - left. apply Z.even_spec in E as [m ->].
    replace (2 * m / 2) with m by (Z.div_mod_to_equations; lia).
    split_and!; [exists m; lia | lia | lia].
  - right. assert (Z.odd q = true) as [m ->]%Z.odd_spec by (by rewrite <- Z.negb_even, E).
    replace ((2 * m + 1) / 2) with m by (Z.div_mod_to_equations; lia).
    split_and!; [exists m; lia | lia | lia].
Qed.

Lemma buddy_of_involutive o p : buddy_of o (buddy_of o p) = p.
Proof. unfold buddy_of. by rewrite Z.lxor_assoc, Z.lxor_nilpotent, Z.lxor_0_r. Qed.

Lemma seqZ_split p o : seqZ p (pages_of (S o)) = seqZ p (pages_of o) ++ seqZ (p + pages_of o) (pages_of o).
Proof.
  rewrite pages_of_S. pose proof (pages_of_pos o).
  replace (2 * pages_of o) with (pages_of o + pages_of o) by lia.
  apply seqZ_app; lia.
Qed.

Lemma page_address i : 0 <= i <= 2 ^ 40 -> u64 (Z.shiftl i PAGE_SHIFT) = i * PAGE_SIZE.
Proof.
  intros Hi. unfold PAGE_SHIFT, PAGE_SIZE. rewrite Z.shiftl_mul_pow2 by lia.
  change (2 ^ 12) with 4096. apply u64_small. lia.
Qed.

(** ** Free frames and free lists *)

Lemma frames_from_perm o l i a a' p :
  l !! i = Some a -> list_head a' ≡ₚ p :: list_head a ->
  frames_from o (<[i := a']> l) ≡ₚ seqZ p (pages_of (o + i)) ++ frames_from o l.
Proof.
  revert o i. induction l as [|b l IH]; intros o [|i]; simpl; intros Hl Hp; simplify_eq.
  - rewrite Hp. simpl. rewrite Nat.add_0_r. by rewrite <- app_assoc.
  - rewrite (IH (S o) i) by done. rewrite Nat.add_succ_r. simpl.
    rewrite !app_assoc. f_equiv. apply Permutation_app_comm.
Qed.

Lemma elem_of_frames_from o l x :
  x ∈ frames_from o l <->
  exists i a p, l !! i = Some a /\ p ∈ list_head a /\ p <= x < p + pages_of (o + i).
Proof.
  revert o. induction l as [|b l IH]; intros o; simpl.
  { split; [by intros ?%not_elem_of_nil | by intros (i & a & p & Hl & _)]. }
  rewrite elem_of_app, IH, list_elem_of_bind. split.
  - intros [(p & Hx & Hp) | (i & a & p & Hl & Hp & Hx)].
    + exists 0%nat, b, p. rewrite Nat.add_0_r. by rewrite elem_of_seqZ in Hx.
    + exists (S i), a, p. by rewrite Nat.add_succ_r.
  - intros ([|i] & a & p & Hl & Hp & Hx); simplify_eq/=.
    + left. exists p. by rewrite elem_of_seqZ, <- (Nat.add_0_r o).
    + right. exists i, a, p. by rewrite Nat.add_succ_r in Hx.
Qed.

Lemma elem_of_flist k o p :
  p ∈ flist k o <-> exists a, buddy_free_area k !! o = Some a /\ p ∈ list_head a.
Proof.
  unfold flist, area. destruct (buddy_free_area k !! o) as [a|]; simpl; [naive_solver|].
  split; [by intros ?%not_elem_of_nil | naive_solver].
Qed.

Lemma elem_of_frames k x :
  x ∈ frames k <-> exists o p, p ∈ flist k o /\ p <= x < p + pages_of o.
Proof.
  unfold frames. rewrite elem_of_frames_from. setoid_rewrite elem_of_flist. naive_solver.
Qed.

Lemma flist_frames k o p x : p ∈ flist k o -> x ∈ seqZ p (pages_of o) -> x ∈ frames k.
Proof. intros Hp Hx. apply elem_of_frames. exists o, p. by rewrite elem_of_seqZ in Hx. Qed.

Lemma flist_frames_head k o p : p ∈ flist k o -> p ∈ frames k.
Proof.
  intros Hp. apply (flist_frames k o p); [done|]. apply elem_of_seqZ.
  pose proof (pages_of_pos o). lia.
Qed.

Section Inv.
Context {k : kmem_info_t} (Hinv : buddy_inv k).

Lemma inv_area o : (o < MM_MAX_ORDER)%nat -> buddy_free_area k !! o = Some (area k o).
Proof.
  intros Ho. unfold area. destruct (buddy_free_area k !! o) eqn:E; [done|].
  apply lookup_ge_None in E. rewrite bi_areas in E by done. lia.
Qed.

Lemma inv_page i : 0 <= i < npages k ->
  exists pg, pfn_database k !! i = Some pg /\ phys_addr pg = i * PAGE_SIZE.
Proof.
  intros [pg Hpg]%(bi_db k Hinv). exists pg. split; [done|]. by eapply bi_phys.
Qed.

Lemma inv_frame_range x : x ∈ frames k -> 0 <= x < npages k.
Proof.
  intros (o & p & Hp & Hx)%elem_of_frames. apply (bi_block k Hinv) in Hp as (_ & _ & ? & ?). lia.
Qed.

Lemma inv_frames_length : Z.of_nat (length (frames k)) <= npages k.
Proof.
  apply NoDup_bounded_length; [by apply bi_npages | by apply bi_frames |].
  apply Forall_forall. apply inv_frame_range.
Qed.

(** The frame number of a page of the database is its index. *)
Lemma inv_pfn mb i : 0 <= i < npages k -> page_to_pfn (page_at mb k i) = i.
Proof.
  intros Hi. destruct (inv_page i Hi) as (pg & E & Hphys).
  unfold page_to_pfn, page_at. rewrite E. simpl. rewrite Hphys.
  rewrite Z.shiftr_div_pow2 by (unfold PAGE_SHIFT; lia).
  unfold PAGE_SIZE, PAGE_SHIFT. change (2 ^ 12) with 4096. apply Z.div_mul. lia.
Qed.

(** A page outside the free blocks is not flagged. *)
Lemma inv_not_in_buddy i pg :
  pfn_database k !! i = Some pg -> i ∉ frames k -> in_buddy pg = false.
Proof.
  intros E Hi. destruct (in_buddy pg) eqn:Hb; [|done].
  destruct Hi. apply (flist_frames_head k (order pg)).
  by apply (bi_flag k Hinv i pg (order pg) E).
Qed.

Lemma inv_block_pfn mb o p : block_ok k o p -> page_to_pfn (page_at mb k p) = p.
Proof.
  intros (? & ? & ? & ?). apply inv_pfn. pose proof (pages_of_pos o). lia.
Qed.

(** The test of the merging loop finds exactly the free buddies, whatever lies
    behind the database. *)
Lemma is_buddy_spec mb o p :
  block_ok k o p ->
  _buddy_page_is_buddy mb k p (buddy_of o p) o = true <-> buddy_of o p ∈ flist k o.
Proof.
  intros Hok. unfold _buddy_page_is_buddy. rewrite (inv_block_pfn mb o p Hok).
  destruct Hok as (Ho & Hdiv & Hp & Hlim).
  pose proof (pages_of_pos o) as Hpos. pose proof (bi_npages k Hinv) as Hnp.
  assert (0 <= buddy_of o p <= npages k) as Hb.
  { split; [apply Z.lxor_nonneg; lia|].
    destruct (buddy_cases o p Hdiv) as [(_ & -> & _)|(_ & -> & _)]; lia. }
  destruct (decide (buddy_of o p < npages k)) as [Hlt|Hge].
  - rewrite (inv_pfn mb) by lia. unfold buddy_of at 1.
    rewrite <- Z.lxor_assoc, Z.lxor_nilpotent, Z.lxor_0_l, Z.eqb_refl. simpl.
    rewrite (bi_limit k Hinv), page_address by lia.
    rewrite (proj2 (Z.leb_gt _ _)) by (unfold PAGE_SIZE; lia).
    destruct (inv_page (buddy_of o p)) as (pg & E & _); [lia|].
    unfold page_at. rewrite E. simpl. rewrite (bi_flag k Hinv _ pg o E), andb_true_iff.
    by rewrite Nat.eqb_eq.
  - split; intros H.
    + exfalso. destruct (Z.lxor p _ =? pages_of o) eqn:E; [|done]. simpl in H.
      apply Z.eqb_eq in E.
      assert (page_to_pfn (page_at mb k (buddy_of o p)) = buddy_of o p) as Heq.
      { unfold buddy_of at 2. rewrite <- E, <- Z.lxor_assoc, Z.lxor_nilpotent. done. }
      rewrite Heq in H.
      rewrite (bi_limit k Hinv), page_address in H by lia.
      by rewrite (proj2 (Z.leb_le _ _)) in H by (unfold PAGE_SIZE; lia).
    + apply (bi_block k Hinv) in H as (_ & _ & ? & ?). lia.
Qed.

End Inv.

(** ** The two transitions

    [took k k' o p]: the block [p] leaves the free list of order [o];
    [gave k k' o p]: it joins it.  Both fix what happens to the counters and to
    the page of [p]; the order a taken page is left with is free. *)

Record took (k k' : kmem_info_t) (o : nat) (p : Z) (a : free_area_t) (pg : page_t) : Prop := {
  tk_areas : buddy_free_area k' = <[o := a]> (buddy_free_area k);
  tk_list : flist k o ≡ₚ p :: list_head a;
  tk_nr : nr_free a = u64 (nr_free (area k o) - 1);
  tk_db : pfn_database k' = <[p := pg]> (pfn_database k);
  tk_flag : in_buddy pg = false;
  tk_phys : phys_addr pg = p * PAGE_SIZE;
  tk_total : nr_free_pages k' = u64 (nr_free_pages k - pages_of o);
  tk_limit : phys_limit k' = phys_limit k;
  tk_bitmap : bitmap k' = bitmap k;
}.

Record gave (k k' : kmem_info_t) (o : nat) (p : Z) (a : free_area_t) (pg : page_t) : Prop := {
  gv_areas : buddy_free_area k' = <[o := a]> (buddy_free_area k);
  gv_list : list_head a ≡ₚ p :: flist k o;
  gv_nr : nr_free a = u64 (nr_free (area k o) + 1);
  gv_db : pfn_database k' = <[p := pg]> (pfn_database k);
  gv_flag : in_buddy pg = true;
  gv_order : order pg = o;
  gv_phys : phys_addr pg = p * PAGE_SIZE;
  gv_total : nr_free_pages k' = u64 (nr_free_pages k + pages_of o);
  gv_limit : phys_limit k' = phys_limit k;
  gv_bitmap : bitmap k' = bitmap k;
}.

Lemma area_insert k k' o a :
  buddy_inv k -> (o < MM_MAX_ORDER)%nat ->
  buddy_free_area k' = <[o := a]> (buddy_free_area k) ->
  forall o', area k' o' = if decide (o' = o) then a else area k o'.
Proof.
  intros Hinv Ho E o'. unfold area. rewrite E. destruct (decide (o' = o)) as [->|Hne].
  - by rewrite list_lookup_insert_eq by (rewrite bi_areas by done; lia).
  - by rewrite list_lookup_insert_ne by done.
Qed.

Lemma flist_order_lt k o p : buddy_inv k -> p ∈ flist k o -> (o < MM_MAX_ORDER)%nat.
Proof. intros Hinv Hp. by apply (bi_block k Hinv) in Hp as [? _]. Qed.

Lemma seqZ_length o p : Z.of_nat (length (seqZ p (pages_of o))) = pages_of o.
Proof. rewrite length_seqZ. pose proof (pages_of_pos o). lia. Qed.

(** The page map of [k'] is that of [k] but for the page [p]. *)
Lemma db_insert_spec k p pg :
  buddy_inv k -> 0 <= p < npages k -> phys_addr pg = p * PAGE_SIZE ->
  (forall i, is_Some (<[p := pg]> (pfn_database k) !! i) <-> 0 <= i < npages k) /\
  (forall i pg', <[p := pg]> (pfn_database k) !! i = Some pg' -> phys_addr pg' = i * PAGE_SIZE).
Proof.
  intros Hinv Hp Hphys. split; intros i.
  - rewrite lookup_insert. case_decide as E; [subst; naive_solver|]. by apply bi_db.
  - intros pg'. rewrite lookup_insert. case_decide as E; [naive_solver|]. by apply bi_phys.
Qed.

Lemma took_frames k k' o p a pg :
  buddy_inv k -> took k k' o p a pg -> frames k ≡ₚ seqZ p (pages_of o) ++ frames k'.
Proof.
  intros Hinv T. assert (p ∈ flist k o) as Hp by (rewrite (tk_list _ _ _ _ _ _ T); left).
  assert (o < MM_MAX_ORDER)%nat as Ho by by eapply flist_order_lt.
  unfold frames. rewrite (tk_areas _ _ _ _ _ _ T).
  rewrite <- (frames_from_perm 0 _ o a (area k o) p).
  - rewrite list_insert_insert_eq, list_insert_id by by apply inv_area. done.
  - apply list_lookup_insert_eq. rewrite bi_areas by done. lia.
  - apply (tk_list _ _ _ _ _ _ T).
Qed.

Lemma NoDup_bind_seqZ (l : list Z) n :
  0 < n -> NoDup (l ≫= fun p => seqZ p n) -> NoDup l.
Proof.
  intros Hn. induction l as [|p l IH]; simpl; [constructor|].
  intros (_ & Hdis & Hnd)%NoDup_app. constructor; [|by apply IH].
  intros Hp. apply (Hdis p); [apply elem_of_seqZ; lia|].
  apply list_elem_of_bind. exists p. split; [apply elem_of_seqZ; lia | done].
Qed.

Lemma NoDup_frames_from o l i a :
  NoDup (frames_from o l) -> l !! i = Some a -> NoDup (list_head a).
Proof.
  revert o i. induction l as [|b l IH]; intros o [|i]; simpl; intros Hnd Hl; simplify_eq;
    apply NoDup_app in Hnd as (Hb & _ & Hl').
  - eapply NoDup_bind_seqZ, Hb. apply pages_of_pos.
  - by eapply IH.
Qed.

Lemma flist_bound k o : buddy_inv k -> Z.of_nat (length (flist k o)) <= npages k.
Proof.
  intros Hinv. apply NoDup_bounded_length; [by apply bi_npages | |].
  - unfold flist, area. destruct (buddy_free_area k !! o) as [a|] eqn:E; [|constructor].
    by eapply NoDup_frames_from; [apply bi_frames|].
  - apply Forall_forall. intros x Hx. apply (inv_frame_range Hinv).
    by eapply flist_frames_head.
Qed.

Lemma took_inv k k' o p a pg : buddy_inv k -> took k k' o p a pg -> buddy_inv k'.
Proof.
  intros Hinv T. pose proof (took_frames _ _ _ _ _ _ Hinv T) as Hfr.
  assert (p ∈ flist k o) as Hp by (rewrite (tk_list _ _ _ _ _ _ T); left).
  assert (block_ok k o p) as (Ho & Hal & Hp0 & Hpl) by by apply (bi_block k Hinv).
  pose proof (flist_bound k o Hinv) as Hlen. pose proof (bi_npages k Hinv) as Hnp.
  pose proof (inv_frames_length Hinv) as Hfl.
  pose proof (bi_frames k Hinv) as Hnd. pose proof (bi_total k Hinv) as Htot.
  pose proof (bi_nr k Hinv o) as Hnr.
  destruct T as [Tareas Tlist Tnr Tdb Tflag Tphys Ttotal Tlimit _].
  pose proof (area_insert k k' o a Hinv Ho Tareas) as Ha.
  pose proof (pages_of_pos o) as Hpos.
  assert (npages k' = npages k) as Hn by (unfold npages; by rewrite Tlimit).
  rewrite Hfr in Hnd. apply NoDup_app in Hnd as (_ & Hout & Hnd').
  rewrite Hfr, length_app, Nat2Z.inj_add, seqZ_length in Htot, Hfl.
  destruct (db_insert_spec k p pg Hinv ltac:(lia) Tphys) as [Hdb Hph].
  constructor; rewrite ?Hn, ?Tdb, ?Tlimit; try done; try apply Hinv.
  - rewrite Tareas, length_insert. by apply bi_areas.
  - intros i pg' o' E. unfold flist. rewrite Ha. rewrite lookup_insert in E.
    destruct (decide (p = i)) as [Hip|Hip]; simplify_eq.
    + split; [|intros [? _]; congruence]. intros Hi. exfalso.
      apply (Hout i); [apply elem_of_seqZ; lia|]. apply (flist_frames_head k' o').
      unfold flist. by rewrite Ha.
    + rewrite <- (bi_flag k Hinv i pg' o' E). case_decide as Hoo; [subst o'|done].
      rewrite Tlist, elem_of_cons. naive_solver.
  - intros o' q. unfold flist, block_ok. rewrite Ha, Hn. intros Hq.
    apply (bi_block k Hinv). destruct (decide (o' = o)); [|done].
    subst o'. rewrite Tlist. by right.
  - intros o'. unfold flist. rewrite Ha. case_decide; [subst o'|by apply bi_nr].
    rewrite Tlist in Hlen, Hnr. simpl in Hlen, Hnr.
    rewrite Tnr, Hnr, u64_small; lia.
  - rewrite Ttotal, Htot, u64_small; lia.
Qed.

Lemma gave_frames k k' o p a pg :
  buddy_inv k -> (o < MM_MAX_ORDER)%nat -> gave k k' o p a pg ->
  frames k' ≡ₚ seqZ p (pages_of o) ++ frames k.
Proof.
  intros Hinv Ho G. unfold frames. rewrite (gv_areas _ _ _ _ _ _ G).
  apply (frames_from_perm 0 _ o (area k o) a p); [by apply inv_area|].
  apply (gv_list _ _ _ _ _ _ G).
Qed.

Lemma gave_inv k k' o p a pg :
  buddy_inv k -> block_ok k o p -> (forall x, x ∈ seqZ p (pages_of o) -> x ∉ frames k) ->
  gave k k' o p a pg -> buddy_inv k'.
Proof.
  intros Hinv Hok Hdis G. pose proof Hok as (Ho & Hal & Hp0 & Hpl).
  pose proof (gave_frames _ _ _ _ _ _ Hinv Ho G) as Hfr.
  pose proof (flist_bound k o Hinv) as Hlen. pose proof (bi_npages k Hinv) as Hnp.
  pose proof (inv_frames_length Hinv) as Hfl.
  pose proof (bi_total k Hinv) as Htot.
  pose proof (bi_nr k Hinv o) as Hnr.
  destruct G as [Tareas Tlist Tnr Tdb Tflag Torder Tphys Ttotal Tlimit _].
  pose proof (area_insert k k' o a Hinv Ho Tareas) as Ha.
  pose proof (pages_of_bound o Ho) as Hpos.
  assert (npages k' = npages k) as Hn by (unfold npages; by rewrite Tlimit).
  assert (p ∉ frames k) as Hpf by (apply Hdis, elem_of_seqZ; lia).
  destruct (db_insert_spec k p pg Hinv ltac:(lia) Tphys) as [Hdb Hph].
  constructor; rewrite ?Hn, ?Tdb, ?Tlimit; try done; try apply Hinv.
  - rewrite Tareas, length_insert. by apply bi_areas.
  - intros i pg' o' E. unfold flist. rewrite Ha. rewrite lookup_insert in E.
    destruct (decide (p = i)) as [Hip|Hip]; simplify_eq.
    + case_decide as Hoo; [subst o'; rewrite Tlist, elem_of_cons; naive_solver|].
      split; [|intros [_ ?]; congruence]. intros Hi. destruct Hpf. by apply (flist_frames_head k o').
    + rewrite <- (bi_flag k Hinv i pg' o' E). case_decide as Hoo; [subst o'|done].
      rewrite Tlist, elem_of_cons. naive_solver.
  - intros o' q. unfold flist, block_ok. rewrite Ha, Hn. case_decide; intros Hq.
    + subst o'. rewrite Tlist in Hq. apply elem_of_cons in Hq as [->|Hq]; [done|].
      by apply (bi_block k Hinv).
    + by apply (bi_block k Hinv).
  - rewrite Hfr. apply NoDup_app. split_and!; [apply NoDup_seqZ | done | by apply bi_frames].
  - intros o'. unfold flist. rewrite Ha. case_decide; [subst o'|by apply bi_nr].
    rewrite Tlist. simpl. rewrite Tnr, Hnr, u64_small; lia.
  - rewrite Hfr, length_app, Nat2Z.inj_add, seqZ_length.
    rewrite Ttotal, Htot, u64_small; lia.
Qed.

(** Changing the order a page outside the free lists records. *)
Lemma relabel_inv k p o :
  forall mb, buddy_inv k -> 0 <= p < npages k -> p ∉ frames k ->
  buddy_inv (_buddy_set_page_order mb k p o).
Proof.
  intros mb Hinv Hp Hpf. destruct (inv_page Hinv p Hp) as (pg & E & Hphys).
  pose proof (inv_not_in_buddy Hinv p pg E Hpf) as Hb.
  unfold _buddy_set_page_order, page_at. rewrite E. simpl.
  set (pg' := Page _ _ _ _).
  destruct (db_insert_spec k p pg' Hinv Hp Hphys) as [Hdb Hph].
  constructor; try done; try apply Hinv.
  intros i pg'' o' E'. simpl in E'. rewrite lookup_insert in E'. case_decide as Hip.
  - apply (inj Some) in E'. subst i pg''. change (in_buddy pg') with (in_buddy pg). rewrite Hb.
    split; [|intros [? _]; congruence]. intros Hi. destruct Hpf. by eapply flist_frames_head.
  - by apply (bi_flag k Hinv).
Qed.

(** ** The operations as transitions *)

Lemma in_buddy_set r f o a : in_buddy (Page r (Z.lor f 1) o a) = true.
Proof. unfold in_buddy. cbn [flags]. rewrite Z.lor_spec. by rewrite orb_true_r. Qed.

Lemma in_buddy_clear r f o a : in_buddy (Page r (Z.land f 0xfffe) o a) = false.
Proof. unfold in_buddy. cbn [flags]. rewrite Z.land_spec. by rewrite andb_false_r. Qed.

Lemma area_set_area k o a :
  buddy_inv k -> (o < MM_MAX_ORDER)%nat -> area (set_area o a k) o = a.
Proof.
  intros Hinv Ho. rewrite (area_insert k (set_area o a k) o a) by done. by rewrite decide_True.
Qed.

(** A page of the database, as the operations read it. *)
Lemma page_at_phys mb k p :
  buddy_inv k -> 0 <= p < npages k -> phys_addr (page_at mb k p) = p * PAGE_SIZE.
Proof.
  intros Hinv Hp. destruct (inv_page Hinv p Hp) as (pg & E & Hphys).
  unfold page_at. by rewrite E.
Qed.

Lemma get_spec mb k o :
  buddy_inv k -> (o < MM_MAX_ORDER)%nat ->
  match _buddy_get_from_free_area mb k o with
  | (k', None) => k' = k /\ flist k o = []
  | (k', Some p) => exists a pg, took k k' o p a pg
  end.
Proof.
  intros Hinv Ho. unfold _buddy_get_from_free_area.
  pose proof (bi_nr k Hinv o) as Hnr. pose proof (bi_block k Hinv o) as Hbl.
  destruct (nr_free (area k o) =? 0) eqn:E.
  { apply Z.eqb_eq in E. split; [done|]. apply length_zero_iff_nil. lia. }
  unfold flist in *. destruct (list_head (area k o)) as [|p rest] eqn:El; simpl.
  { done. }
  specialize (Hbl p ltac:(left)) as (_ & _ & Hp0 & Hpl). pose proof (pages_of_pos o).
  eexists _, _. constructor; simpl; try done.
  - by rewrite list_insert_insert_eq.
  - unfold flist. rewrite El. unfold area. simpl.
    rewrite list_lookup_insert_eq by (rewrite bi_areas by done; lia). done.
  - simpl. unfold area. simpl.
    by rewrite list_lookup_insert_eq by (rewrite bi_areas by done; lia).
  - apply in_buddy_clear.
  - simpl. apply (page_at_phys mb k); [done | lia].
Qed.

Lemma add_to_free_list_spec mb k o p :
  buddy_inv k -> block_ok k o p ->
  exists a pg, gave k (with_nr_free_pages (fun n => u64 (n + pages_of o))
                 (_buddy_add_to_free_list mb k p o)) o p a pg.
Proof.
  intros Hinv (Ho & _ & Hp0 & Hpl). pose proof (pages_of_pos o).
  assert (forall a (l : list free_area_t), length l = MM_MAX_ORDER ->
            <[o := a]> l !! o = Some a) as Hlk.
  { intros a l Hl. apply list_lookup_insert_eq. lia. }
  pose proof (bi_areas k Hinv) as Hlen.
  eexists _, _. unfold _buddy_add_to_free_list, _buddy_set_page_order, _buddy_set_page_buddy.
  constructor; simpl; try done.
  - by rewrite list_insert_insert_eq.
  - unfold area. simpl. rewrite Hlk by done. simpl. unfold l_add_prev.
    symmetry. apply Permutation_cons_append.
  - unfold area. simpl. by rewrite Hlk by done.
  - apply insert_insert_eq.
  - unfold page_at. simpl. rewrite lookup_insert_eq. apply in_buddy_set.
  - done.
  - unfold page_at. simpl. rewrite lookup_insert_eq. apply (page_at_phys mb k); [done|lia].
Qed.

(** Pages outside [l] keep their entry of the database. *)
Definition unchanged (k k' : kmem_info_t) (l : list Z) : Prop :=
  forall x, x ∉ l -> pfn_database k' !! x = pfn_database k !! x.

Lemma unchanged_step k k1 k' l l1 p pg :
  pfn_database k1 = <[p := pg]> (pfn_database k) -> p ∈ l -> l ≡ₚ l1 ->
  unchanged k1 k' l1 -> unchanged k k' l.
Proof.
  intros E Hp Hl H x Hx. rewrite H by by rewrite <- Hl.
  rewrite E, lookup_insert_ne; [done|]. by intros ->.
Qed.

(** Blocks that the merging loop of [_buddy_free_pages] still has to insert:
    [p] is outside the free frames. *)
Definition pending (k : kmem_info_t) (o : nat) (p : Z) : Prop :=
  buddy_inv k /\ block_ok k o p /\ NoDup (seqZ p (pages_of o) ++ frames k).

Lemma pending_disjoint k o p x :
  pending k o p -> x ∈ seqZ p (pages_of o) -> x ∉ frames k.
Proof. intros (_ & _ & (_ & H & _)%NoDup_app). apply H. Qed.

(** One round of the merging loop. *)
Lemma merge_step mb k o p :
  pending k o p -> (o < MM_MAX_ORDER - 1)%nat -> buddy_of o p ∈ flist k o ->
  let b := buddy_of o p in
  let a := area k o in
  let k' := with_nr_free_pages (fun n => u64 (n - pages_of o))
              (_buddy_set_page_order mb (_buddy_clear_page_buddy mb (set_area o
                 (FreeArea (l_remove_entry b (list_head a)) (u64 (nr_free a - 1))) k) b) b 0) in
  (exists a pg, took k k' o b a pg) /\ pending k' (S o) (Z.land p b) /\
  seqZ p (pages_of o) ++ frames k ≡ₚ seqZ (Z.land p b) (pages_of (S o)) ++ frames k'.
Proof.
  intros Hpend Ho Hb b a k'. pose proof Hpend as (Hinv & (_ & Hdiv & Hp0 & Hpl) & Hnd).
  pose proof (bi_block k Hinv o b Hb) as (_ & _ & Hb0 & Hbl). pose proof (pages_of_pos o).
  assert (exists a pg, took k k' o b a pg) as (a' & pg & T).
  { eexists _, _. constructor; simpl; try done.
    - by apply l_remove_entry_perm.
    - apply insert_insert_eq.
    - unfold page_at. simpl. rewrite lookup_insert_eq. apply in_buddy_clear.
    - unfold page_at. simpl. rewrite lookup_insert_eq. apply (page_at_phys mb k); [done|].
      fold b. lia. }
  pose proof (took_frames _ _ _ _ _ _ Hinv T) as Hfr.
  assert (npages k' = npages k) as Hn by (unfold npages; by rewrite (tk_limit _ _ _ _ _ _ T)).
  assert (seqZ p (pages_of o) ++ frames k ≡ₚ
          seqZ (Z.land p b) (pages_of (S o)) ++ frames k') as Hperm.
  { rewrite Hfr, seqZ_split, app_assoc. f_equiv. unfold b.
    destruct (buddy_cases o p Hdiv) as [(_ & -> & ->)|(_ & -> & ->)]; [done|].
    rewrite Permutation_app_comm. by rewrite Z.sub_add. }
  split_and!; [by exists a', pg | | done].
  split_and!; [by eapply took_inv | | by rewrite <- Hperm].
  unfold block_ok. rewrite Hn, pages_of_S. split; [lia|].
  destruct (buddy_cases o p Hdiv) as [(? & Hbe & Hle)|(? & Hbe & Hle)];
    unfold b in *; rewrite Hle, <- pages_of_S; rewrite Hbe in *; rewrite pages_of_S;
    (split; [by rewrite <- pages_of_S|lia]).
Qed.

Lemma took_coalesced k k' o p a pg :
  buddy_inv k -> took k k' o p a pg -> coalesced k -> coalesced k'.
Proof.
  intros Hinv T Hc.
  assert (p ∈ flist k o) as Hp by (rewrite (tk_list _ _ _ _ _ _ T); left).
  pose proof (area_insert k k' o a Hinv (flist_order_lt _ _ _ Hinv Hp)
    (tk_areas _ _ _ _ _ _ T)) as Ha.
  assert (forall o' q, q ∈ flist k' o' -> q ∈ flist k o') as Hsub.
  { intros o' q. unfold flist at 1. rewrite Ha. case_decide; [subst o'|done].
    intros Hq. rewrite (tk_list _ _ _ _ _ _ T). by right. }
  intros o' q Ho' Hq Hb. by apply (Hc o' q Ho'); apply Hsub.
Qed.

Lemma gave_coalesced k k' o p a pg :
  buddy_inv k -> (o < MM_MAX_ORDER)%nat -> gave k k' o p a pg ->
  (o = MM_MAX_ORDER - 1 \/ buddy_of o p ∉ flist k o)%nat -> coalesced k -> coalesced k'.
Proof.
  intros Hinv Ho G Hbud Hc o' q Ho' Hq Hb.
  pose proof (area_insert k k' o a Hinv Ho (gv_areas _ _ _ _ _ _ G)) as Ha.
  unfold flist in Hq, Hb. rewrite Ha in Hq, Hb.
  destruct (decide (o' = o)) as [->|]; [|by apply (Hc o' q)].
  destruct Hbud as [->|Hbud]; [lia|].
  rewrite (gv_list _ _ _ _ _ _ G), elem_of_cons in Hq, Hb.
  pose proof (pages_of_pos o). destruct Hq as [->|Hq], Hb as [Hb|Hb]; try done.
  - assert (Z.lxor p (buddy_of o p) = 0) as E by (rewrite Hb; apply Z.lxor_nilpotent).
    unfold buddy_of in E. rewrite <- Z.lxor_assoc, Z.lxor_nilpotent, Z.lxor_0_l in E. lia.
  - apply Hbud. by rewrite <- Hb, buddy_of_involutive.
  - by apply (Hc o q).
Qed.

Lemma merge_spec mb fuel k p o :
  pending k o p -> (MM_MAX_ORDER - 1 - o < fuel)%nat ->
  let '(k', p', o') := _buddy_merge mb fuel k p o in
  pending k' o' p' /\
  seqZ p (pages_of o) ++ frames k ≡ₚ seqZ p' (pages_of o') ++ frames k' /\
  (o' = MM_MAX_ORDER - 1 \/ buddy_of o' p' ∉ flist k' o')%nat /\
  phys_limit k' = phys_limit k /\ bitmap k' = bitmap k /\
  (coalesced k -> coalesced k') /\ unchanged k k' (seqZ p (pages_of o) ++ frames k).
Proof.
  revert k p o. induction fuel as [|fuel IH]; intros k p o Hp Hf; [lia|]. cbn [_buddy_merge].
  pose proof Hp as (Hinv & Hok & Hnd).
  destruct (o <? MM_MAX_ORDER - 1)%nat eqn:Ho.
  2:{ apply Nat.ltb_ge in Ho. destruct Hok as [? _]. split_and!; try done. left. lia. }
  apply Nat.ltb_lt in Ho. rewrite (inv_block_pfn Hinv mb o p Hok).
  change (Z.lxor p (pages_of o)) with (buddy_of o p).
  pose proof (is_buddy_spec Hinv mb o p Hok) as Hb.
  destruct (_buddy_page_is_buddy mb k p (buddy_of o p) o).
  - pose proof (merge_step mb k o p Hp Ho (proj1 Hb eq_refl)) as ((a' & pg & T) & Hp' & Hfr).
    specialize (IH _ _ _ Hp' ltac:(lia)). cbn [negb].
    destruct (_buddy_merge _ _ _ _ _) as [[k' p'] o'].
    destruct IH as (? & IHfr & ? & IHl & IHb & IHc & IHu). split_and!; [done| |done| | | |].
    + by rewrite Hfr.
    + by rewrite IHl, (tk_limit _ _ _ _ _ _ T).
    + by rewrite IHb, (tk_bitmap _ _ _ _ _ _ T).
    + intros Hc. apply IHc. by eapply took_coalesced.
    + eapply unchanged_step; [apply (tk_db _ _ _ _ _ _ T)| |exact Hfr|exact IHu].
      apply elem_of_app. right. eapply flist_frames_head, Hb. done.
  - simpl. split_and!; try done. right. intros Hbb. by apply Hb in Hbb.
Qed.

(** Insertion of the merged block. *)
Lemma insert_spec mb k o p :
  pending k o p ->
  let k2 := _buddy_set_page_order mb (_buddy_set_page_buddy mb k p) p o in
  exists a pg,
    gave k (with_nr_free_pages (fun n => u64 (n + pages_of o)) (set_area o
      (FreeArea (l_add_next p (list_head (area k2 o))) (u64 (nr_free (area k2 o) + 1))) k2))
      o p a pg.
Proof.
  intros (Hinv & (Ho & _ & Hp0 & Hpl) & _). pose proof (pages_of_pos o).
  eexists _, _. constructor; simpl; try done.
  - apply insert_insert_eq.
  - unfold page_at. simpl. rewrite lookup_insert_eq. apply in_buddy_set.
  - done.
  - unfold page_at. simpl. rewrite lookup_insert_eq. apply (page_at_phys mb k); [done|lia].
Qed.

Lemma free_spec mb k o p :
  pending k o p ->
  let k' := _buddy_free_pages mb k p o in
  buddy_inv k' /\ frames k' ≡ₚ seqZ p (pages_of o) ++ frames k /\
  (coalesced k -> coalesced k') /\ phys_limit k' = phys_limit k /\ bitmap k' = bitmap k /\
  unchanged k k' (seqZ p (pages_of o) ++ frames k).
Proof.
  intros Hp. unfold _buddy_free_pages.
  pose proof (merge_spec mb MM_MAX_ORDER k p o Hp ltac:(unfold MM_MAX_ORDER; lia)) as Hm.
  destruct (_buddy_merge _ _ _ _ _) as [[k1 p1] o1].
  destruct Hm as (Hp1 & Hfr & Hbud & Hl & Hb & Hc & Hu).
  destruct (insert_spec mb k1 o1 p1 Hp1) as (a & pg & G).
  pose proof Hp1 as (Hinv1 & Hok1 & Hnd1). pose proof Hok1 as (Ho1 & _).
  split_and!.
  - eapply gave_inv; [done..| |done]. intros x. by eapply pending_disjoint.
  - rewrite Hfr. by apply (gave_frames _ _ _ _ _ _ Hinv1 Ho1 G).
  - intros Hck. eapply gave_coalesced; eauto.
  - by rewrite (gv_limit _ _ _ _ _ _ G).
  - by rewrite (gv_bitmap _ _ _ _ _ _ G).
  - intros x Hx. rewrite (gv_db _ _ _ _ _ _ G), lookup_insert_ne; [by apply Hu|].
    intros <-. apply Hx. rewrite Hfr. apply elem_of_app. left. apply elem_of_seqZ.
    pose proof (pages_of_pos o1). lia.
Qed.

(** Splitting the block [p] of order [low + d] that was taken from the lists. *)
Lemma split_spec mb d : forall k p low,
  pending k (low + d) p -> coalesced k ->
  let k' := _buddy_split mb k p low d in
  buddy_inv k' /\ pending k' low p /\
  seqZ p (pages_of (low + d)) ++ frames k ≡ₚ seqZ p (pages_of low) ++ frames k' /\
  coalesced k' /\ phys_limit k' = phys_limit k /\
  unchanged k k' (seqZ p (pages_of (low + d)) ++ frames k).
Proof.
  induction d as [|d IH]; intros k p low Hp Hc; simpl.
  { rewrite Nat.add_0_r in *. destruct Hp as (? & ? & ?). by split_and!. }
  rewrite Nat.add_succ_r in *. set (h := (low + d)%nat) in *.
  pose proof Hp as (Hinv & (Ho & Hdiv & Hp0 & Hpl) & Hnd).
  pose proof (pages_of_pos h) as Hpos. rewrite pages_of_S in Hpl.
  assert (pages_of h | p) as Hdivh.
  { etransitivity; [|exact Hdiv]. apply pages_of_divide. lia. }
  assert (block_ok k h (p + pages_of h)) as Hok.
  { split_and!; [lia | | lia | lia]. apply Z.divide_add_r; [done|reflexivity]. }
  destruct (add_to_free_list_spec mb k h _ Hinv Hok) as (a & pg & G).
  assert (forall x, x ∈ seqZ p (pages_of h) \/ x ∈ seqZ (p + pages_of h) (pages_of h) ->
            x ∉ frames k) as Hout.
  { intros x Hx. apply (pending_disjoint k (S h) p x Hp).
    by rewrite seqZ_split, elem_of_app. }
  assert (buddy_of h (p + pages_of h) ∉ flist k h) as Hbud.
  { intros Hb. apply (Hout p); [left; apply elem_of_seqZ; lia|].
    apply (flist_frames_head k h). replace p with (buddy_of h (p + pages_of h)) at 1; [done|].
    destruct (buddy_cases h p Hdivh) as [(_ & <- & _)|([q Hq] & _)];
      [apply buddy_of_involutive|].
    exfalso. destruct Hdiv as [r Hr]. rewrite pages_of_S in *.
    assert (2 * (r - q) = 1) by (apply (Z.mul_reg_r _ _ (pages_of h)); lia). lia. }
  set (k1 := with_nr_free_pages _ _) in *.
  pose proof (gave_frames _ _ _ _ _ _ Hinv (proj1 Hok) G) as Hfr.
  assert (seqZ p (pages_of (S h)) ++ frames k ≡ₚ seqZ p (pages_of h) ++ frames k1) as Hperm.
  { rewrite Hfr, seqZ_split. by rewrite <- app_assoc. }
  assert (npages k1 = npages k) as Hn by (unfold npages; by rewrite (gv_limit _ _ _ _ _ _ G)).
  destruct (IH k1 p low) as (? & ? & IHfr & ? & IHl & IHu).
  - split_and!; [| |by fold h; rewrite <- Hperm].
    + eapply gave_inv; [done..| |done]. intros x Hx. apply Hout. by right.
    + unfold block_ok. rewrite Hn. fold h. split_and!; [lia|done|lia|lia].
  - eapply gave_coalesced; [done| |done|by right|done]. lia.
  - split_and!; try done; [by rewrite Hperm|].
    eapply unchanged_step; [apply (gv_db _ _ _ _ _ _ G)| |exact Hperm|exact IHu].
    rewrite seqZ_split, !elem_of_app, !elem_of_seqZ. lia.
Qed.

Lemma order_for_bound n o nr :
  (order_for n o nr = 0 \/ o <= order_for n o nr < o + n)%nat /\
  (nr <= pages_of (o + n - 1) -> (0 < n)%nat -> nr <= pages_of (order_for n o nr)).
Proof.
  revert o. induction n as [|n IH]; intros o; simpl; [split; [by left|lia]|].
  destruct (nr <=? pages_of o) eqn:E; breflect; [split; [right; lia|done]|].
  destruct (IH (S o)) as [IH1 IH2]. split; [destruct IH1; [by left|right; lia]|].
  intros Hnr _. destruct n as [|n].
  { replace (o + 1 - 1)%nat with o in Hnr by lia. lia. }
  apply IH2; [|lia]. by replace (S o + S n - 1)%nat with (o + S (S n) - 1)%nat by lia.
Qed.

(** The order chosen for [nr] pages. *)
Lemma order_for_spec nr :
  nr <= pages_of (MM_MAX_ORDER - 1) ->
  let o := order_for MM_MAX_ORDER 0 nr in
  (o < MM_MAX_ORDER)%nat /\ nr <= pages_of o.
Proof.
  intros Hnr. destruct (order_for_bound MM_MAX_ORDER 0 nr) as [H1 H2].
  split; [unfold MM_MAX_ORDER in *; lia|]. apply H2; [done|]. unfold MM_MAX_ORDER. lia.
Qed.

Lemma alloc_from_spec mb n : forall k o c,
  buddy_inv k -> coalesced k -> (o <= c)%nat -> (c + n <= MM_MAX_ORDER)%nat ->
  match _buddy_alloc_from mb n k o c with
  | (k', None) => k' = k /\ forall c', (c <= c' < c + n)%nat -> flist k c' = []
  | (k', Some p) =>
      pending k' o p /\ coalesced k' /\ frames k ≡ₚ seqZ p (pages_of o) ++ frames k' /\
      order (page_at mb k' p) = o /\ phys_limit k' = phys_limit k /\
      unchanged k k' (frames k)
  end.
Proof.
  induction n as [|n IH]; intros k o c Hinv Hc Hoc Hn; cbn [_buddy_alloc_from].
  { split; [done|lia]. }
  pose proof (get_spec mb k c Hinv ltac:(lia)) as Hget.
  destruct (_buddy_get_from_free_area mb k c) as [k1 [p|]].
  - destruct Hget as (a & pg & T).
    pose proof (took_frames _ _ _ _ _ _ Hinv T) as Hfr.
    assert (p ∈ flist k c) as Hp by (rewrite (tk_list _ _ _ _ _ _ T); left).
    assert (npages k1 = npages k) as Hnp by (unfold npages; by rewrite (tk_limit _ _ _ _ _ _ T)).
    destruct (split_spec mb (c - o) k1 p o) as (_ & (Hinv2 & Hok2 & Hnd2) & Hfr2 & Hc2 & Hl2 & Hu).
    { replace (o + (c - o))%nat with c by lia.
      split_and!; [by eapply took_inv | | rewrite <- Hfr; by apply bi_frames].
      unfold block_ok. rewrite Hnp. by apply (bi_block k Hinv). }
    { by eapply took_coalesced. }
    replace (o + (c - o))%nat with c in Hfr2 by lia.
    set (k2 := _buddy_split mb k1 p o (c - o)) in *.
    pose proof (pages_of_pos o). pose proof Hok2 as (? & ? & ? & ?).
    assert (p ∉ frames k2) as Hpo.
    { apply (pending_disjoint k2 o p); [by split_and!|]. apply elem_of_seqZ. lia. }
    split_and!; try done.
    + split_and!; [apply relabel_inv; [done|lia|done] | done | done].
    + by rewrite Hfr, Hfr2.
    + unfold page_at at 1. simpl. by rewrite lookup_insert_eq.
    + simpl. by rewrite Hl2, (tk_limit _ _ _ _ _ _ T).
    + replace (o + (c - o))%nat with c in Hu by lia.
      assert (p ∈ frames k) as Hpf by by eapply flist_frames_head.
      intros x Hx. simpl. rewrite lookup_insert_ne by (by intros ->).
      revert x Hx. eapply unchanged_step; [apply (tk_db _ _ _ _ _ _ T)|done|exact Hfr|exact Hu].
  - destruct Hget as [-> Hnil]. specialize (IH k o (S c) Hinv Hc ltac:(lia) ltac:(lia)).
    destruct (_buddy_alloc_from mb n k o (S c)) as [k2 [p|]]; [done|].
    destruct IH as [-> IH]. split; [done|]. intros c' Hc'.
    destruct (decide (c' = c)) as [->|]; [done|]. apply IH. lia.
Qed.

Lemma order_for_min n o nr o' :
  (o <= o' < order_for n o nr)%nat -> pages_of o' < nr.
Proof.
  revert o. induction n as [|n IH]; intros o; simpl; [lia|].
  destruct (nr <=? pages_of o) eqn:E; breflect; [lia|].
  intros Ho. destruct (decide (o' = o)) as [->|]; [done|]. apply (IH (S o)). lia.
Qed.

(** ** Allocation and release *)

(** The order of the blocks handed out for [nr] pages. *)
Definition alloc_order (nr : Z) : nat := order_for MM_MAX_ORDER 0 nr.

Lemma buddy_alloc_spec mb k nr :
  buddy_inv k -> coalesced k -> nr <= pages_of (MM_MAX_ORDER - 1) ->
  match _buddy_alloc_pages mb k nr with
  | (k', None) => k' = k /\ forall o, (alloc_order nr <= o)%nat -> flist k o = []
  | (k', Some p) =>
      pending k' (alloc_order nr) p /\ coalesced k' /\
      frames k ≡ₚ seqZ p (pages_of (alloc_order nr)) ++ frames k' /\
      order (page_at mb k' p) = alloc_order nr /\ phys_limit k' = phys_limit k /\
      unchanged k k' (frames k)
  end.
Proof.
  intros Hinv Hc Hnr. unfold _buddy_alloc_pages.
  rewrite (proj2 (Z.ltb_ge _ _) Hnr). destruct (order_for_spec nr Hnr) as [Ho _].
  fold (alloc_order nr) in *. rewrite (proj2 (Nat.ltb_ge _ _)) by lia.
  pose proof (alloc_from_spec mb (MM_MAX_ORDER - alloc_order nr) k (alloc_order nr)
    (alloc_order nr) Hinv Hc ltac:(lia) ltac:(lia)) as H.
  destruct (_buddy_alloc_from _ _ _ _ _) as [k' [p|]]; [done|].
  destruct H as [-> H]. split; [done|]. intros o Ho'.
  destruct (decide (o < MM_MAX_ORDER)%nat); [apply H; lia|].
  destruct (flist k o) as [|q l] eqn:E; [done|].
  pose proof (flist_order_lt k o q Hinv ltac:(rewrite E; left)). lia.
Qed.

(** C16. [pmm_alloc_pages] on every branch.  A frame it returns starts a free,
    naturally aligned block of the smallest order that holds [nr] pages: the
    block leaves the free frames, nothing else does, its order is recorded for
    the release, and the invariants survive.  It panics exactly when fewer than
    [nr] pages are free, and the null page is dereferenced only when [nr] exceeds
    the largest block or every list of sufficient order is empty; in both cases
    nothing is changed. *)
Theorem pmm_alloc_correct mb k nr :
  buddy_inv k -> coalesced k -> 0 < nr ->
  match pmm_alloc_pages mb k nr with
  | (k', Pfn p) =>
      buddy_inv k' /\ coalesced k' /\ block_ok k' (alloc_order nr) p /\
      nr <= pages_of (alloc_order nr) /\
      (forall o, (o < alloc_order nr)%nat -> pages_of o < nr) /\
      frames k ≡ₚ seqZ p (pages_of (alloc_order nr)) ++ frames k' /\
      order (page_at mb k' p) = alloc_order nr
  | (k', Panic) => k' = k /\ Z.of_nat (length (frames k)) < nr
  | (k', NullDeref) =>
      k' = k /\ nr <= Z.of_nat (length (frames k)) /\
      (pages_of (MM_MAX_ORDER - 1) < nr \/
       forall o, (alloc_order nr <= o)%nat -> flist k o = [])
  end.
Proof.
  intros Hinv Hc Hnr. unfold pmm_alloc_pages. rewrite (proj2 (Z.eqb_neq _ _)) by lia.
  rewrite (bi_total k Hinv). destruct (_ <? nr) eqn:E; breflect; [done|].
  destruct (decide (nr <= pages_of (MM_MAX_ORDER - 1))) as [Hle|Hgt].
  - pose proof (buddy_alloc_spec mb k nr Hinv Hc Hle) as H.
    destruct (order_for_spec nr Hle) as [_ Hsz].
    destruct (_buddy_alloc_pages mb k nr) as [k' [p|]]; [|naive_solver].
    destruct H as ((Hinv' & Hok & Hnd) & Hc' & Hfr & Hord & _).
    rewrite (inv_block_pfn Hinv' mb _ _ Hok). split_and!; try done.
    intros o Ho. apply (order_for_min MM_MAX_ORDER 0 nr). unfold alloc_order in Ho. lia.
  - unfold _buddy_alloc_pages. rewrite (proj2 (Z.ltb_lt _ _)) by lia. split_and!; [done..|].
    left. lia.
Qed.

(** C17. Releasing an allocated block.  For a block whose first page records its
    order and whose pages are not free, [pmm_free_pages] returns exactly its
    pages to the free frames, preserves the invariant, and leaves free memory
    fully coalesced: no block and its buddy are both free. *)
Theorem pmm_free_correct mb k p o :
  buddy_inv k -> coalesced k -> block_ok k o p -> order (page_at mb k p) = o ->
  (forall x, p <= x < p + pages_of o -> x ∉ frames k) ->
  let k' := pmm_free_pages mb k p in
  buddy_inv k' /\ coalesced k' /\ frames k' ≡ₚ seqZ p (pages_of o) ++ frames k /\
  nr_free_pages k' = nr_free_pages k + pages_of o.
Proof.
  intros Hinv Hc Hok Hord Hdis. unfold pmm_free_pages. rewrite Hord.
  destruct (free_spec mb k o p) as (Hinv' & Hfr & Hc' & _).
  { split_and!; [done..|]. apply NoDup_app. split_and!; [apply NoDup_seqZ | | apply Hinv].
    intros x Hx. apply Hdis. rewrite elem_of_seqZ in Hx. lia. }
  simpl. split_and!; [done | by apply Hc' | done |].
  rewrite (bi_total _ Hinv'), (bi_total _ Hinv), Hfr, length_app, Nat2Z.inj_add, seqZ_length. lia.
Qed.

(** ** Sequences of calls

    The callers' view: the blocks that are allocated, with their orders. *)

Definition live_frames (live : list (Z * nat)) : list Z :=
  live ≫= fun b => seqZ b.1 (pages_of b.2).

Inductive pmm_step (mb : Z -> page_t) :
    kmem_info_t * list (Z * nat) -> kmem_info_t * list (Z * nat) -> Prop :=
  | step_alloc k k' nr p live :
      0 < nr -> pmm_alloc_pages mb k nr = (k', Pfn p) ->
      pmm_step mb (k, live) (k', (p, alloc_order nr) :: live)
  | step_free k p o live live' :
      live ≡ₚ (p, o) :: live' ->
      pmm_step mb (k, live) (pmm_free_pages mb k p, live').

(** What a run preserves: free and allocated frames together are the frames [l]
    the machine started with, and every allocated block is what was promised. *)
Record pmm_inv (mb : Z -> page_t) (l : list Z) (s : kmem_info_t * list (Z * nat)) : Prop := {
  pi_buddy : buddy_inv s.1;
  pi_coalesced : coalesced s.1;
  pi_frames : live_frames s.2 ++ frames s.1 ≡ₚ l;
  pi_live : forall p o, (p, o) ∈ s.2 -> block_ok s.1 o p /\ order (page_at mb s.1 p) = o;
}.

#[global] Instance live_frames_proper : Proper ((≡ₚ) ==> (≡ₚ)) live_frames.
Proof. intros l l' H. unfold live_frames. by rewrite H. Qed.

Lemma elem_of_live_frames p o live : (p, o) ∈ live -> p ∈ live_frames live.
Proof.
  intros H. apply list_elem_of_bind. exists (p, o). split; [|done].
  apply elem_of_seqZ. simpl. pose proof (pages_of_pos o). lia.
Qed.

(** Blocks that keep their page and the limit stay valid. *)
Lemma live_unchanged mb k k' l p o :
  unchanged k k' l -> phys_limit k' = phys_limit k -> p ∉ l ->
  block_ok k o p /\ order (page_at mb k p) = o ->
  block_ok k' o p /\ order (page_at mb k' p) = o.
Proof.
  intros Hu Hl Hp [Hok Ho]. unfold block_ok, npages, page_at in *.
  by rewrite Hl, Hu.
Qed.

Lemma pmm_step_inv mb l s s' :
  NoDup l -> pmm_inv mb l s -> pmm_step mb s s' -> pmm_inv mb l s'.
Proof.
  intros Hl [Hinv Hc Hfr Hlive] Hstep. rewrite <- Hfr in Hl.
  destruct Hstep as [k k' nr p live Hnr E | k p o live live' Hperm]; cbn [fst snd] in *.
  - unfold pmm_alloc_pages in E. rewrite (proj2 (Z.eqb_neq _ _)) in E by lia.
    destruct (_ <? nr); [done|].
    destruct (decide (nr <= pages_of (MM_MAX_ORDER - 1))) as [Hle|Hgt].
    2:{ unfold _buddy_alloc_pages in E. by rewrite (proj2 (Z.ltb_lt _ _)) in E by lia. }
    pose proof (buddy_alloc_spec mb k nr Hinv Hc Hle) as H.
    destruct (_buddy_alloc_pages mb k nr) as [k1 [p1|]]; [|done].
    destruct H as ((Hinv' & Hok & _) & Hc' & Hfr' & Hord & Hlim & Hu).
    rewrite (inv_block_pfn Hinv' mb _ _ Hok) in E. simplify_eq.
    constructor; cbn [fst snd]; [done..| |].
    + rewrite <- Hfr, Hfr'. simpl. rewrite <- !app_assoc.
      rewrite (app_assoc _ (live_frames live)), (Permutation_app_comm _ (live_frames live)).
      by rewrite <- app_assoc.
    + intros q o [Heq|Hq]%elem_of_cons; [simplify_eq; done|].
      apply (live_unchanged mb k k' (frames k)); [done..| |by apply Hlive].
      apply NoDup_app in Hl as (_ & Hdis & _). by eapply Hdis, elem_of_live_frames.
  - rewrite Hperm in Hl. simpl in Hl. rewrite <- app_assoc in Hl.
    destruct (Hlive p o ltac:(rewrite Hperm; left)) as [Hok Hord].
    apply NoDup_app in Hl as (_ & Hdis1 & Hl2).
    apply NoDup_app in Hl2 as (_ & Hdis2 & Hl3).
    destruct (free_spec mb k o p) as (Hinv' & Hfr' & Hc' & Hlim & _ & Hu).
    { split_and!; [done..|]. apply NoDup_app. split_and!; [apply NoDup_seqZ | | done].
      intros x Hx Hxf. apply (Hdis1 x Hx), elem_of_app. by right. }
    unfold pmm_free_pages. rewrite Hord. constructor; cbn [fst snd]; [done|by apply Hc'| |].
    + rewrite Hfr', <- Hfr, Hperm. simpl.
      rewrite !app_assoc. f_equiv. apply Permutation_app_comm.
    + intros q o' Hq. eapply live_unchanged; [done..| |apply Hlive; rewrite Hperm; by right].
      rewrite elem_of_app. intros [Hq'|Hq'].
      * apply (Hdis1 q Hq'), elem_of_app. left. by eapply elem_of_live_frames.
      * by apply (Hdis2 q); [eapply elem_of_live_frames|].
Qed.

Lemma pmm_run_inv mb l s s' :
  NoDup l -> rtc (pmm_step mb) s s' -> pmm_inv mb l s -> pmm_inv mb l s'.
Proof. intros Hl. induction 1; eauto using pmm_step_inv. Qed.

(** C1. Conservation of physical memory over any run.  Starting with all free
    memory coalesced, after any sequence of successful allocations and releases of
    allocated blocks the free frames and the frames of the allocated blocks
    are together exactly the frames free at the start, each once: live blocks
    never overlap each other or free memory, nothing leaks, and free memory
    is still coalesced. *)
Theorem pmm_run_conserves mb k0 s :
  buddy_inv k0 -> coalesced k0 -> rtc (pmm_step mb) (k0, []) s ->
  pmm_inv mb (frames k0) s /\ NoDup (live_frames s.2 ++ frames s.1).
Proof.
  intros Hinv Hc Hrun.
  assert (pmm_inv mb (frames k0) s) as Hs.
  { eapply pmm_run_inv; [apply Hinv|exact Hrun|].
    constructor; simpl; [done..|]. by intros p o ?%not_elem_of_nil. }
  split; [done|]. rewrite (pi_frames _ _ _ Hs). apply Hinv.
Qed.
