(* ===== verification/PmmInit.v ===== *)
(** * Physical memory manager: initialisation

    From the boot loader's memory map to a buddy allocator in its invariant:
    [pmm_init] of [Pmm] sizes the bitmap and the page-frame database from the
    map, carves them out of usable memory, and releases every page the bitmap
    shows free.  The free frames afterwards are exactly the pages of the usable
    entries that are left, none of them under the allocator's own tables. *)

From Stdlib Require Import Sorting.Sorted.
From S2P Require Import Prelude DList Pmm PmmBitmap PmmBuddy.

(** ** The bitmap's size *)

(** The word count the mask [~BITMAP_PER_U64] gives: it clears one bit instead of
    rounding down. *)
Lemma bitmap_words_div limit :
  0 <= limit < 2 ^ 63 -> bitmap_words limit = 2 * ((limit / 2 ^ 18 + 1) / 2).
Proof.
  intros Hl. unfold bitmap_words. rewrite u64_small by (unfold BITMAP_PER_U64, PAGE_SIZE; lia).
  change (u64 (Z.lnot BITMAP_PER_U64)) with (2 ^ 64 - 1 - 2 ^ 18).
  change BITMAP_PER_U64 with (2 ^ 18).
  rewrite <- Z.shiftr_div_pow2, Z.shiftr_land by lia.
  rewrite !Z.shiftr_div_pow2 by lia.
  replace ((limit + 2 ^ 18) / 2 ^ 18) with (limit / 2 ^ 18 + 1) by (Z.div_mod_to_equations; lia).
  set (t := limit / 2 ^ 18 + 1).
  assert (0 <= t < 2 ^ 46) as Ht by (unfold t; Z.div_mod_to_equations; lia).
  change ((2 ^ 64 - 1 - 2 ^ 18) / 2 ^ 18) with (Z.shiftl (Z.ones 45) 1).
  apply Z.bits_inj'. intros n Hn. rewrite Z.land_spec.
  destruct (decide (n = 0)) as [->|].
  { by rewrite Z.shiftl_spec_low, andb_false_r, Z.testbit_even_0 by lia. }
  rewrite Z.shiftl_spec by lia. replace n with (Z.succ (n - 1)) at 1 3 by lia.
  rewrite Z.testbit_even_succ, Z.div2_bits by lia.
  destruct (decide (n < 46)).
  - by rewrite Z.ones_spec_low, andb_true_r by lia.
  - by rewrite (testbit_above 46 t) by lia.
Qed.

(** When the bitmap is large enough.  The word count computed by
    [_bitmap_init] covers every page below [phys_limit] exactly when
    the limit is a multiple of the 256 KiB one word describes or its 256 KiB
    index is odd; otherwise the last partial word is missing. *)
Theorem bitmap_words_covers_iff limit :
  0 <= limit < 2 ^ 63 ->
  limit <= bitmap_words limit * BITMAP_PER_U64 <->
  (BITMAP_PER_U64 | limit) \/ Z.odd (limit / BITMAP_PER_U64) = true.
Proof.
  intros Hl. rewrite bitmap_words_div by done. change BITMAP_PER_U64 with (2 ^ 18).
  rewrite Zodd_mod, Z.eqb_eq, <- Z.mod_divide by lia.
  split; intros H; [|destruct H]; Z.div_mod_to_equations; lia.
Qed.

Lemma bitmap_words_covers_iff_witness :
  0x7ffe0000 <= bitmap_words 0x7ffe0000 * BITMAP_PER_U64 /\
  ~ 0x10010000 <= bitmap_words 0x10010000 * BITMAP_PER_U64.
Proof.
  split; rewrite bitmap_words_covers_iff by lia.
  - right. reflexivity.
  - intros [[q Hq]|H]; [unfold BITMAP_PER_U64, PAGE_SIZE in Hq; lia | done].
Defined.

(** ** An empty allocator *)

Lemma init_pages_lookup n p db i :
  init_pages n p db !! i =
  if decide (p <= i < p + Z.of_nat n) then Some (_pfn_page_init i) else db !! i.
Proof.
  revert p db. induction n as [|n IH]; intros p db; simpl.
  { by rewrite decide_False by lia. }
  rewrite IH, lookup_insert. repeat case_decide; subst; try lia; done.
Qed.

Lemma frames_from_replicate n o : frames_from o (replicate n (FreeArea [] 0)) = [].
Proof. revert o. induction n as [|n IH]; intros o; simpl; [done|]. apply IH. Qed.

Lemma empty_area k o :
  buddy_free_area k = replicate MM_MAX_ORDER (FreeArea [] 0) -> area k o = FreeArea [] 0.
Proof.
  intros E. unfold area. rewrite E. destruct (decide (o < MM_MAX_ORDER)%nat).
  - by rewrite lookup_replicate_2.
  - rewrite lookup_ge_None_2; [done|]. rewrite length_replicate. lia.
Qed.

(** The state in which the pages are first released: no block is free. *)
Lemma empty_inv k n :
  0 <= n <= 2 ^ 40 -> phys_limit k = n * PAGE_SIZE -> nr_free_pages k = 0 ->
  pfn_database k = init_pages (Z.to_nat n) 0 ∅ ->
  buddy_free_area k = replicate MM_MAX_ORDER (FreeArea [] 0) ->
  buddy_inv k /\ coalesced k /\ frames k = [] /\ npages k = n.
Proof.
  intros Hn Hl Hnf Hdb Ha.
  assert (npages k = n) as Hnp.
  { unfold npages. rewrite Hl. apply Z.div_mul. unfold PAGE_SIZE. lia. }
  assert (frames k = []) as Hfr by (unfold frames; rewrite Ha; apply frames_from_replicate).
  assert (forall o, flist k o = []) as Hf by (intros o; unfold flist; by rewrite empty_area).
  split_and!; [|intros o p _; rewrite Hf; by intros ?%not_elem_of_nil|done..].
  constructor; rewrite ?Hnp, ?Hfr, ?Hdb; try done.
  - by rewrite Ha, length_replicate.
  - intros i. rewrite init_pages_lookup, lookup_empty. case_decide.
    + split; [lia|by eexists].
    + split; [by intros [? ?]|lia].
  - intros i pg. rewrite init_pages_lookup, lookup_empty. case_decide; [|done].
    intros [= <-]. simpl. rewrite page_address by lia. done.
  - intros i pg o. rewrite init_pages_lookup, lookup_empty. case_decide; [|done].
    intros [= <-]. rewrite Hf. split; [by intros ?%not_elem_of_nil | by intros [? _]].
  - intros o p. rewrite Hf. by intros ?%not_elem_of_nil.
  - constructor.
  - intros o. by rewrite Hf, empty_area.
Qed.

(** ** Releasing the clear bits *)

(** The pages below [n] have been released where the bitmap shows them free. *)
Record loaded (bm : gmap Z Z) (np n : Z) (k : kmem_info_t) : Prop := {
  ld_inv : buddy_inv k;
  ld_coalesced : coalesced k;
  ld_bitmap : bitmap k = bm;
  ld_npages : npages k = np;
  ld_frames : forall x, x ∈ frames k <-> 0 <= x < n /\ bm_bit bm x = false;
}.

(** Releasing one block of clear pages at the boundary. *)
Lemma loaded_free mb bm np n k o :
  loaded bm np n k -> (o < MM_MAX_ORDER)%nat -> 0 <= n -> (pages_of o | n) ->
  (forall x, n <= x < n + pages_of o -> bm_bit bm x = false) -> n + pages_of o <= np ->
  loaded bm np (n + pages_of o) (_buddy_free_pages mb k n o).
Proof.
  intros [Hinv Hc Hbm Hnp Hfr] Ho Hn Hdiv Hclear Hle.
  pose proof (pages_of_pos o).
  destruct (free_spec mb k o n) as (Hinv' & Hfr' & Hc' & Hl' & Hb' & _).
  { split_and!; [done | split_and!; [done..|lia] |]. apply NoDup_app.
    split_and!; [apply NoDup_seqZ | | apply Hinv]. intros x Hx.
    rewrite elem_of_seqZ in Hx. rewrite Hfr. lia. }
  constructor; [done | by apply Hc' | by rewrite Hb' | unfold npages in *; by rewrite Hl' |].
  intros x. rewrite Hfr', elem_of_app, elem_of_seqZ, Hfr. split.
  - intros [Hx|[? ?]]; [split; [lia|apply Hclear; lia] | split; [lia|done]].
  - intros [? ?]. destruct (decide (x < n)); [right|left]; split; (lia || done).
Qed.

Lemma loaded_skip bm np n k :
  loaded bm np n k -> bm_bit bm n = true -> loaded bm np (n + 1) k.
Proof.
  intros [Hinv Hc Hbm Hnp Hfr] Hset. constructor; try done.
  intros x. rewrite Hfr. split; intros [? E]; (split; [|done]); [lia|].
  destruct (decide (x = n)) as [->|]; [congruence|lia].
Qed.

Lemma buddy_init_bits_spec mb bm np c n : forall k w i b,
  (forall x, 0 <= x < c * 64 -> bm_bit bm x = false -> x < np) ->
  w = default 0 (bm !! i) -> 0 <= i < c -> 0 <= b -> b + Z.of_nat n = 64 ->
  loaded bm np (i * 64 + b) k ->
  loaded bm np (i * 64 + 64) (_buddy_init_bits mb n k w i b).
Proof.
  induction n as [|n IH]; intros k w i b Hnp Hw Hi Hb Hn Hld; simpl.
  { by replace (i * 64 + 64) with (i * 64 + b) by lia. }
  assert (bm_bit bm (i * 64 + b) = Z.testbit w b) as Hbit.
  { unfold bm_bit. rewrite Hw. do 2 f_equal; [f_equal|]; Z.div_mod_to_equations; lia. }
  apply IH; try done; [lia..|]. rewrite land_bit, <- Hbit by done.
  replace (i * 64 + (b + 1)) with (i * 64 + b + pages_of 0) by (change (pages_of 0) with 1; lia).
  destruct (bm_bit bm (i * 64 + b)) eqn:E; simpl.
  - by apply loaded_skip.
  - change BITS_PER_U64 with 64. apply loaded_free; try done; change (pages_of 0) with 1.
    + unfold MM_MAX_ORDER. lia.
    + lia.
    + apply Z.divide_1_l.
    + intros x Hx. by replace x with (i * 64 + b) by lia.
    + assert (i * 64 + b < np) by (apply Hnp; [lia|done]). lia.
Qed.

Lemma ffs_64 : ffs BITS_PER_U64 = 6.
Proof. reflexivity. Qed.

Lemma buddy_init_words_spec mb bm np c n : forall k i,
  (forall x, 0 <= x < c * 64 -> bm_bit bm x = false -> x < np) ->
  0 <= i -> i + Z.of_nat n = c -> loaded bm np (i * 64) k ->
  loaded bm np (c * 64) (_buddy_init_words mb n k i).
Proof.
  induction n as [|n IH]; intros k i Hnp Hi Hc Hld; cbn [_buddy_init_words].
  { by replace c with i by lia. }
  apply IH; [done|lia..|]. rewrite (ld_bitmap _ _ _ _ Hld).
  replace ((i + 1) * 64) with (i * 64 + 64) by lia.
  destruct (_ =? 0) eqn:E; breflect.
  - change (i * 64 + 64) with (i * 64 + pages_of 6). rewrite ffs_64.
    assert (forall x, i * 64 <= x < i * 64 + pages_of 6 -> bm_bit bm x = false) as Hclear.
    { intros x Hx. change (pages_of 6) with 64 in Hx. unfold bm_bit.
      replace (x / 64) with i by (Z.div_mod_to_equations; lia). by rewrite E, Z.bits_0. }
    apply (loaded_free mb bm np (i * 64) k 6); try done.
    + unfold MM_MAX_ORDER. lia.
    + lia.
    + exists i. done.
    + change (pages_of 6) with 64 in *.
      assert (i * 64 + 63 < np); [|lia]. apply Hnp; [lia|]. apply Hclear. lia.
  - apply (buddy_init_bits_spec mb bm np c); try done; [lia..|].
    by replace (i * 64 + 0) with (i * 64) by lia.
Qed.

(** ** The boot memory map *)

Section Boot.
Context (mb : Z -> page_t) (USABLE : Z).

Definition entry_ok (limit : Z) (e : limine_memmap_entry) : Prop :=
  0 <= base e /\ 0 <= len e /\ base e + len e <= limit.

(** Two entries, if usable, do not overlap. *)
Definition apart (e e' : limine_memmap_entry) : Prop :=
  usable USABLE e = true -> usable USABLE e' = true ->
  base e + len e <= base e' \/ base e' + len e' <= base e.

(** The range [pa, pa + size) does not meet the entry, if that is usable. *)
Definition clear_of (pa size : Z) (e : limine_memmap_entry) : Prop :=
  usable USABLE e = true -> base e + len e <= pa \/ pa + size <= base e.
Definition contains (pa size : Z) (e : limine_memmap_entry) : Prop :=
  usable USABLE e = true /\ base e <= pa /\ pa + size <= base e + len e.

(** [e'] is what is left of [e]. *)
Definition shrunk (e' e : limine_memmap_entry) : Prop :=
  base e' = base e /\ mtype e' = mtype e /\ 0 <= len e' <= len e.

Definition room (size : Z) (mm : list limine_memmap_entry) : Prop :=
  Exists (fun e => usable USABLE e = true /\ size < len e) mm.

Lemma shrunk_refl limit e : entry_ok limit e -> shrunk e e.
Proof. intros (? & ? & ?). repeat split; lia. Qed.

Lemma shrunk_ok limit e' e : shrunk e' e -> entry_ok limit e -> entry_ok limit e'.
Proof. unfold entry_ok. intros (-> & _ & ? & ?) (? & ? & ?). lia. Qed.

Lemma shrunk_apart e1' e1 e2 : shrunk e1' e1 -> apart e1 e2 -> apart e1' e2.
Proof.
  unfold shrunk, apart, usable. intros (-> & -> & ? & ?) Ha H1 H2. specialize (Ha H1 H2). lia.
Qed.

Lemma apart_sym e1 e2 : apart e1 e2 -> apart e2 e1.
Proof. unfold apart. intros H H1 H2. destruct (H H2 H1); auto. Qed.

Lemma Forall_shrunk_apart e mm' mm :
  Forall2 shrunk mm' mm -> Forall (apart e) mm -> Forall (apart e) mm'.
Proof.
  induction 1 as [|x y l k Hxy Hl IH]; [done|].
  intros [Hx Hf]%Forall_cons. constructor; [|by apply IH].
  by apply apart_sym, (shrunk_apart x y), apart_sym.
Qed.

Lemma carve_spec limit mm size :
  Forall (entry_ok limit) mm -> limit < 2 ^ 63 -> 0 <= size ->
  ForallOrdPairs apart mm ->
  let '(mm', pa) := carve USABLE mm size in
  Forall2 shrunk mm' mm /\ ForallOrdPairs apart mm' /\
  (room size mm -> Forall (clear_of pa size) mm' /\ Exists (contains pa size) mm).
Proof.
  intros Hok Hl Hs. induction mm as [|e mm IH]; intros Hap; simpl.
  { split_and!; [constructor..|]. unfold room. by rewrite Exists_nil. }
  apply Forall_cons in Hok as [He Hok]. inversion Hap as [|? ? Hea Hap']; subst.
  assert (Forall2 shrunk mm mm) as Hrefl.
  { clear -Hok. induction Hok; constructor; eauto using shrunk_refl. }
  destruct (usable USABLE e && (size <? len e)) eqn:E.
  - breflect. destruct He as (? & ? & ?).
    rewrite !u64_small by lia.
    assert (shrunk (Memmap (base e) (len e - size) (mtype e)) e) as Hsh
      by (repeat split; simpl; lia).
    split_and!; [by constructor | |].
    + constructor; [|done]. eapply Forall_impl; [exact Hea|].
      intros x. by apply shrunk_apart.
    + intros _. split; [|left; unfold contains; split; [done|lia]].
      constructor; [intros _; simpl; lia|].
      eapply Forall_impl; [exact Hea|]. intros x Hx Hu. destruct (Hx ltac:(done) Hu); lia.
  - specialize (IH Hok Hap'). destruct (carve USABLE mm size) as [mm' pa].
    destruct IH as (Hsh & Hap2 & Hroom). split_and!.
    + constructor; [by eapply shrunk_refl | done].
    + constructor; [by eapply Forall_shrunk_apart | done].
    + unfold room. rewrite Exists_cons. intros [[Hu Hlt]|Hr].
      { apply Z.ltb_lt in Hlt. by rewrite Hu, Hlt in E. }
      destruct (Hroom Hr) as [Hcl Hct]. split; [|by right].
      constructor; [|done]. intros Hu.
      apply Exists_exists in Hct as (y & Hy & Hyu & ? & ?).
      rewrite Forall_forall in Hea. destruct (Hea y Hy Hu Hyu); lia.
Qed.

Lemma memmap_scan_aligned mm : forall t l,
  Forall (entry_ok (2 ^ 50)) mm -> (exists q, l = q * PAGE_SIZE /\ 0 <= q <= 2 ^ 38) ->
  exists q, (memmap_scan USABLE mm t l).2 = q * PAGE_SIZE /\ 0 <= q <= 2 ^ 38.
Proof.
  induction mm as [|e mm IH]; intros t l Hok Hl; simpl; [done|].
  apply Forall_cons in Hok as [(? & ? & ?) Hok]. apply IH; [done|].
  rewrite u64_small by lia.
  destruct (PAGE_ALIGN_UP_IF_spec (base e + len e)) as (q & -> & Hq); [lia|].
  exists q. unfold PAGE_SIZE. lia.
Qed.

(** Page [x] lies in a usable entry of the map. *)
Definition usable_page (mm : list limine_memmap_entry) (x : Z) : bool :=
  existsb (fun e => usable USABLE e &&
                    in_range (Z.shiftr (base e) PAGE_SHIFT) (SIZE_TO_PAGE (len e)) x) mm.

Lemma bitmap_free_pages_spec limit c mm : forall bm,
  Forall (entry_ok limit) mm -> limit <= c * BITMAP_PER_U64 -> c <= 2 ^ 32 -> bm_words bm c ->
  exists bm', _bitmap_free_pages USABLE bm mm = Some bm' /\ bm_words bm' c /\
    forall x, bm_bit bm' x = bm_bit bm x && negb (usable_page mm x).
Proof.
  intros bm Hok Hl Hc. revert bm. induction mm as [|e mm IH]; intros bm Hbm; simpl.
  { exists bm. split_and!; [done..|]. intros x. by rewrite andb_true_r. }
  apply Forall_cons in Hok as [(? & ? & ?) Hok].
  destruct (usable USABLE e) eqn:E; simpl; [|by apply IH].
  assert (in_bitmap c (Z.shiftr (base e) PAGE_SHIFT) (SIZE_TO_PAGE (len e))) as Hin.
  { unfold in_bitmap, SIZE_TO_PAGE, PAGE_SHIFT, BITMAP_PER_U64, PAGE_SIZE in *.
    rewrite Z.shiftr_div_pow2 by lia. change (2 ^ 12) with 4096.
    Z.div_mod_to_equations. lia. }
  pose proof (proj1 (proj2 Hin)) as Hn0. unfold SIZE_TO_PAGE in *.
  destruct (_bitmap_clear_spec bm c (Z.shiftr (base e) PAGE_SHIFT)
              (Z.to_nat (len e / PAGE_SIZE)) 0) as (bm1 & -> & Hbm1 & Hbit); [done| |lia|].
  { by rewrite Z.add_0_l, Z2Nat.id. }
  simpl. destruct (IH Hok bm1 Hbm1) as (bm' & -> & Hbm' & Hbit').
  exists bm'. split_and!; [done..|]. intros x. rewrite Hbit', Hbit, Z.add_0_r, Z2Nat.id by done.
  by rewrite negb_orb, andb_assoc.
Qed.

Lemma fill_bitmap_lookup n i bm j :
  fill_bitmap n i bm !! j = if decide (i <= j < i + Z.of_nat n) then Some U64_MAX else bm !! j.
Proof.
  revert i bm. induction n as [|n IH]; intros i bm; cbn [fill_bitmap].
  { by rewrite decide_False by lia. }
  rewrite IH, lookup_insert. repeat case_decide; subst; try lia; done.
Qed.

Lemma fill_bitmap_spec c :
  0 <= c ->
  let bm := fill_bitmap (Z.to_nat c) 0 ∅ in
  bm_words bm c /\ forall x, 0 <= x < c * 64 -> bm_bit bm x = true.
Proof.
  intros Hc bm. split.
  - intros i Hi. exists U64_MAX. unfold bm. rewrite fill_bitmap_lookup, decide_True by lia.
    split; [done|]. unfold U64_MAX. lia.
  - intros x Hx. unfold bm_bit, bm.
    rewrite fill_bitmap_lookup, decide_True by (Z.div_mod_to_equations; lia).
    simpl. change U64_MAX with (Z.ones 64). apply Z.ones_spec_low.
    apply Z.mod_pos_bound. lia.
Qed.

(** The bytes of page [x] do not meet [pa, pa + size). *)
Definition page_clear_of (pa size x : Z) : Prop :=
  (x + 1) * PAGE_SIZE <= pa \/ pa + size <= x * PAGE_SIZE.

Lemma usable_page_clear_of mm pa size x :
  Forall (fun e => usable USABLE e = true -> (PAGE_SIZE | base e)) mm ->
  Forall (clear_of pa size) mm -> usable_page mm x = true -> page_clear_of pa size x.
Proof.
  intros Hal Hcl Hx. unfold usable_page in Hx. apply existsb_exists in Hx as (e & He & Hx).
  apply list_elem_of_In in He. rewrite Forall_forall in Hal, Hcl.
  apply andb_true_iff in Hx as [Hu Hx]. destruct (Hal e He Hu) as [q Hq].
  specialize (Hcl e He Hu). unfold page_clear_of, in_range, SIZE_TO_PAGE, PAGE_SHIFT in *.
  breflect. rewrite Z.shiftr_div_pow2 in * by lia. change (2 ^ 12) with PAGE_SIZE in *.
  unfold PAGE_SIZE in *. rewrite Hq, Z.div_mul in * by lia. Z.div_mod_to_equations. lia.
Qed.

Lemma shrunk_aligned mm' mm :
  Forall2 shrunk mm' mm ->
  Forall (fun e => usable USABLE e = true -> (PAGE_SIZE | base e)) mm ->
  Forall (fun e => usable USABLE e = true -> (PAGE_SIZE | base e)) mm'.
Proof.
  induction 1 as [|x y l k (Hb & Ht & _) Hl IH]; [done|].
  intros [Hx Hf]%Forall_cons. constructor; [|by apply IH]. unfold usable in *.
  by rewrite Hb, Ht.
Qed.

Lemma shrunk_clear_of pa size mm' mm :
  Forall2 shrunk mm' mm -> Forall (clear_of pa size) mm -> Forall (clear_of pa size) mm'.
Proof.
  induction 1 as [|x y l k (Hb & Ht & Hlen) Hl IH]; [done|].
  intros [Hx Hf]%Forall_cons. constructor; [|by apply IH]. unfold clear_of, usable in *.
  rewrite Hb, Ht. intros Hu. specialize (Hx Hu). lia.
Qed.

Lemma shrunk_entries_ok limit mm' mm :
  Forall2 shrunk mm' mm -> Forall (entry_ok limit) mm -> Forall (entry_ok limit) mm'.
Proof.
  induction 1 as [|x y l k Hxy Hl IH]; [done|].
  intros [Hx Hf]%Forall_cons. constructor; [by eapply shrunk_ok | by apply IH].
Qed.

(** What [pmm_init] needs of the boot memory map. *)
Record memmap_ok (mm : list limine_memmap_entry) (limit : Z) : Prop := {
  mo_entries : Forall (entry_ok limit) mm;
  mo_limit : limit <= 2 ^ 50;
  mo_aligned : Forall (fun e => usable USABLE e = true -> (PAGE_SIZE | base e)) mm;
  mo_apart : ForallOrdPairs apart mm;
  mo_covers : limit <= bitmap_words limit * BITMAP_PER_U64;
}.

Lemma buddy_init_spec k np c :
  0 <= np <= 2 ^ 40 -> phys_limit k = np * PAGE_SIZE -> nr_free_pages k = 0 ->
  pfn_database k = init_pages (Z.to_nat np) 0 ∅ -> bitmap_count k = c -> 0 <= c ->
  (forall x, 0 <= x < c * 64 -> bm_bit (bitmap k) x = false -> x < np) ->
  loaded (bitmap k) np (c * 64) (_buddy_init mb k).
Proof.
  intros Hnp Hl Hnf Hdb Hc Hc0 Hclear. unfold _buddy_init. set (k0 := with_areas _ k).
  change (bitmap_count k0) with (bitmap_count k). rewrite Hc.
  destruct (empty_inv k0 np) as (Hinv & Hco & Hfr & Hn); try done.
  apply (buddy_init_words_spec mb (bitmap k) np c); [done|lia|lia|].
  constructor; try done. intros x. rewrite Hfr. split; [by intros ?%not_elem_of_nil|lia].
Qed.

Lemma bitmap_words_bound limit :
  0 <= limit <= 2 ^ 50 -> 0 <= bitmap_words limit <= 2 ^ 32.
Proof. intros H. rewrite bitmap_words_div by lia. Z.div_mod_to_equations. lia. Qed.

(** Carving the two tables out of the map. *)
Lemma carve_tables lim mm s1 s2 :
  memmap_ok mm lim -> 0 <= s1 -> 0 <= s2 ->
  let '(mm1, bpa) := carve USABLE mm s1 in
  let '(mm2, dpa) := carve USABLE mm1 s2 in
  room s1 mm -> room s2 mm1 ->
  Forall (entry_ok lim) mm2 /\
  (forall x, usable_page mm2 x = true -> page_clear_of bpa s1 x /\ page_clear_of dpa s2 x) /\
  (bpa + s1 <= dpa \/ dpa + s2 <= bpa).
Proof.
  intros [Hok Hlim Hal Hap _] Hs1 Hs2.
  pose proof (carve_spec lim mm s1) as Hc1. destruct (carve USABLE mm s1) as [mm1 bpa].
  pose proof (carve_spec lim mm1 s2) as Hc2. destruct (carve USABLE mm1 s2) as [mm2 dpa].
  intros Hr1 Hr2.
  destruct Hc1 as (Hsh1 & Hap1 & Hroom1); [done|lia|done|done|].
  destruct (Hroom1 Hr1) as [Hcl1 _].
  pose proof (shrunk_entries_ok lim _ _ Hsh1 Hok) as Hok1.
  destruct Hc2 as (Hsh2 & Hap2 & Hroom2); [done|lia|done|done|].
  destruct (Hroom2 Hr2) as [Hcl2 Hct2].
  pose proof (shrunk_aligned _ _ Hsh2 (shrunk_aligned _ _ Hsh1 Hal)) as Hal2.
  pose proof (shrunk_clear_of _ _ _ _ Hsh2 Hcl1) as Hcl1'.
  split_and!.
  - by eapply shrunk_entries_ok.
  - intros x Hx. split; by eapply usable_page_clear_of.
  - apply Exists_exists in Hct2 as (e & He & Hu & ? & ?).
    rewrite Forall_forall in Hcl1. destruct (Hcl1 e He Hu); [right|left]; lia.
Qed.

Lemma usable_page_range lim mm x :
  Forall (entry_ok lim) mm -> usable_page mm x = true -> 0 <= x < lim / PAGE_SIZE.
Proof.
  intros Hok Hx. unfold usable_page in Hx. apply existsb_exists in Hx as (e & He & Hx).
  apply list_elem_of_In in He. rewrite Forall_forall in Hok.
  destruct (Hok e He) as (? & ? & ?). unfold in_range, SIZE_TO_PAGE, PAGE_SHIFT in Hx.
  breflect. rewrite Z.shiftr_div_pow2 in * by lia. change (2 ^ 12) with 4096 in *.
  unfold PAGE_SIZE in *. Z.div_mod_to_equations. lia.
Qed.

(** Freeing the usable pages in a full bitmap and building the free lists. *)
Lemma release_spec k mm np :
  Forall (entry_ok (phys_limit k)) mm -> 0 <= np <= 2 ^ 38 -> phys_limit k = np * PAGE_SIZE ->
  nr_free_pages k = 0 -> bitmap k = fill_bitmap (Z.to_nat (bitmap_count k)) 0 ∅ ->
  pfn_database k = init_pages (Z.to_nat np) 0 ∅ -> 0 <= bitmap_count k <= 2 ^ 32 ->
  phys_limit k <= bitmap_count k * BITMAP_PER_U64 ->
  exists bm, _bitmap_free_pages USABLE (bitmap k) mm = Some bm /\
    let k' := _buddy_init mb (with_bitmap (fun _ => bm) k) in
    buddy_inv k' /\ coalesced k' /\ forall x, x ∈ frames k' <-> usable_page mm x = true.
Proof.
  intros Hok Hnp Hl Hnf Hbm Hdb Hc Hcov. set (c := bitmap_count k) in *.
  destruct (fill_bitmap_spec c (proj1 Hc)) as [Hw Hset]. rewrite <- Hbm in Hw, Hset.
  destruct (bitmap_free_pages_spec (phys_limit k) c mm _ Hok Hcov (proj2 Hc) Hw)
    as (bm & -> & _ & Hbits).
  exists bm. split; [done|]. intros k'.
  assert (forall x, usable_page mm x = true -> 0 <= x < np) as Hrange.
  { intros x Hx. pose proof (usable_page_range _ _ _ Hok Hx) as Hx'.
    rewrite Hl, Z.div_mul in Hx' by (unfold PAGE_SIZE; lia). done. }
  assert (np <= c * 64) as Hnpc by (unfold BITMAP_PER_U64, PAGE_SIZE in *; lia).
  assert (forall x, 0 <= x < c * 64 -> bm_bit bm x = false <-> usable_page mm x = true) as Hclear.
  { intros x Hx. rewrite Hbits, Hset by done. apply negb_false_iff. }
  destruct (buddy_init_spec (with_bitmap (fun _ => bm) k) np c) as [Hinv Hco _ _ Hfr]; try done.
  - lia.
  - lia.
  - intros x Hx E. apply Hrange. by apply Hclear.
  - split_and!; [done..|]. intros x. unfold k'. rewrite Hfr. split.
    + intros [Hx E]. by apply Hclear.
    + intros E. pose proof (Hrange x E). split; [lia|]. apply Hclear; [lia|done].
Qed.

(** C18. Initialisation is correct.  For a memory map whose entries are apart,
    page aligned and below a limit the bitmap covers, with room for the tables,
    [pmm_init] stays inside the bitmap and establishes the allocator's
    invariants; the free frames are exactly the pages of the usable entries that
    are left after carving, and none of them meets the bitmap or the page-frame
    database, which do not meet each other. *)
Theorem pmm_init_correct k mm :
  let limit := (memmap_scan USABLE mm 0 0).2 in
  let '(k1, mm1) := _bitmap_init USABLE (_kmem_init USABLE k mm) mm in
  let '(k2, mm2) := _pfn_database_init USABLE k1 mm1 in
  memmap_ok mm limit ->
  room (bitmap_count k1 * BYTES_PER_U64) mm -> room (pfn_database_bytes k2) mm1 ->
  exists k', pmm_init mb USABLE k mm = Some k' /\ buddy_inv k' /\ coalesced k' /\
    (forall x, x ∈ frames k' <-> usable_page mm2 x = true) /\
    (forall x, x ∈ frames k' ->
       page_clear_of (bitmap_pa k1) (bitmap_count k1 * BYTES_PER_U64) x /\
       page_clear_of (pfn_database_pa k2) (pfn_database_bytes k2) x) /\
    (bitmap_pa k1 + bitmap_count k1 * BYTES_PER_U64 <= pfn_database_pa k2 \/
     pfn_database_pa k2 + pfn_database_bytes k2 <= bitmap_pa k1).
Proof.
  intros limit. unfold pmm_init, _kmem_init, _bitmap_init, _pfn_database_init.
  destruct (memmap_scan USABLE mm 0 0) as [total lim] eqn:Escan.
  cbn [snd phys_limit] in *. subst limit.
  set (c := bitmap_words lim). set (s1 := u64 (c * BYTES_PER_U64)).
  pose proof (carve_tables lim mm s1) as Hct. destruct (carve USABLE mm s1) as [mm1 bpa].
  cbn [phys_limit]. set (s2 := PAGE_ALIGN_UP_IF _).
  specialize (Hct s2). destruct (carve USABLE mm1 s2) as [mm2 dpa].
  cbn [bitmap bitmap_pa bitmap_count pfn_database_pa pfn_database_bytes].
  intros Hmo Hr1 Hr2. pose proof Hmo as [Hok Hlim Hal Hap Hcov].
  assert (exists np, lim = np * PAGE_SIZE /\ 0 <= np <= 2 ^ 38) as (np & Hnp & Hnp0).
  { destruct (memmap_scan_aligned mm 0 0) as (q & Hq & Hq0).
    - eapply Forall_impl; [exact Hok|]. intros e (? & ? & ?). unfold entry_ok. lia.
    - by exists 0.
    - exists q. by rewrite Escan in Hq. }
  unfold PAGE_SIZE in Hnp. destruct (bitmap_words_bound lim) as [Hcl Hcu]; [lia|].
  fold c in Hcl, Hcu, Hcov.
  assert (s1 = c * BYTES_PER_U64) as Hs1 by (apply u64_small; unfold BYTES_PER_U64; lia).
  assert (0 <= s2) as Hs2.
  { destruct (PAGE_ALIGN_UP_IF_spec (u64 (SIZE_TO_PAGE lim * sizeof_page_t))) as (q & Hq & ?).
    - unfold SIZE_TO_PAGE, sizeof_page_t, PAGE_SIZE. rewrite Hnp, Z.div_mul, u64_small by lia. lia.
    - pose proof (u64_range (SIZE_TO_PAGE lim * sizeof_page_t)). lia. }
  rewrite <- Hs1 in *.
  destruct Hct as (Hok2 & Hclear & Hdis); [done|unfold BYTES_PER_U64 in Hs1; lia|done..|].
  match goal with |- context [with_bitmap _ ?k2] => set (kt := k2) end.
  destruct (release_spec kt mm2 np) as (bm & Ebm & Hinv & Hco & Hfr); try done.
  { unfold kt, SIZE_TO_PAGE, PAGE_SIZE. simpl. by rewrite Hnp, Z.div_mul by lia. }
  change (bitmap kt) with (fill_bitmap (Z.to_nat c) 0 ∅) in Ebm. rewrite Ebm.
  eexists. split_and!; [done..| |done]. intros x Hx. by apply Hclear, Hfr.
Qed.

End Boot.

(** ** Concrete instances *)

Definition no_pages (i : Z) : page_t := Page 0 0 0 0.

(** A machine of 16 free pages whose bitmap has one word. *)
Definition demo_boot : kmem_info_t :=
  Kmem {[0 := 2 ^ 64 - 2 ^ 16]} 0 1 0 (init_pages 16 0 ∅) 0 0 0 [] 16 0 (16 * PAGE_SIZE).
Definition demo_kmem : kmem_info_t := _buddy_init no_pages demo_boot.

Lemma demo_loaded : loaded (bitmap demo_boot) 16 64 demo_kmem.
Proof.
  apply (buddy_init_spec no_pages demo_boot 16 1); try done; try lia.
  intros x Hx. destruct (decide (x < 16)); [done|].
  unfold bm_bit. replace (x / 64) with 0 by (Z.div_mod_to_equations; lia).
  rewrite Z.mod_small by lia. change (default 0 _) with (Z.shiftl (Z.ones 48) 16).
  rewrite Z.shiftl_spec, Z.ones_spec_low by lia. done.
Qed.

Lemma pmm_alloc_correct_witness :
  exists k', pmm_alloc_pages no_pages demo_kmem 3 = (k', Pfn 0) /\ buddy_inv k' /\
    frames demo_kmem ≡ₚ seqZ 0 4 ++ frames k'.
Proof.
  destruct demo_loaded as [Hinv Hc _ _ _].
  pose proof (pmm_alloc_correct no_pages demo_kmem 3 Hinv Hc ltac:(lia)) as H.
  assert ((pmm_alloc_pages no_pages demo_kmem 3).2 = Pfn 0) as E by (vm_compute; reflexivity).
  destruct (pmm_alloc_pages no_pages demo_kmem 3) as [k' r]. simpl in E. subst r.
  exists k'. destruct H as (? & _ & _ & _ & _ & Hfr & _). by split_and!.
Defined.

Lemma pmm_free_correct_witness :
  let k := (pmm_alloc_pages no_pages demo_kmem 3).1 in
  buddy_inv (pmm_free_pages no_pages k 0) /\ coalesced (pmm_free_pages no_pages k 0) /\
  nr_free_pages (pmm_free_pages no_pages k 0) = 16.
Proof.
  intros k. destruct demo_loaded as [Hinv Hc _ _ _].
  pose proof (buddy_alloc_spec no_pages demo_kmem 3 Hinv Hc ltac:(vm_compute; congruence)) as H.
  assert ((_buddy_alloc_pages no_pages demo_kmem 3).2 = Some 0) as E by (vm_compute; reflexivity).
  assert (k = (_buddy_alloc_pages no_pages demo_kmem 3).1) as Hk by (vm_compute; reflexivity).
  destruct (_buddy_alloc_pages no_pages demo_kmem 3) as [k' r]. simpl in E, Hk. subst r k'.
  destruct H as ((Hinv' & Hok & Hnd) & Hc' & Hfr & Hord & _).
  destruct (pmm_free_correct no_pages k 0 2 Hinv' Hc' Hok Hord) as (? & ? & _ & ->).
  - intros x Hx. apply NoDup_app in Hnd as (_ & Hd & _). apply Hd.
    change (alloc_order 3) with 2%nat. apply elem_of_seqZ. lia.
  - split_and!; [done..|]. vm_compute. reflexivity.
Defined.

(** Allocate 3 pages, allocate 1 page, release the first block. *)
Lemma demo_run :
  exists s, rtc (pmm_step no_pages) (demo_kmem, []) s /\ s.2 = [(4, alloc_order 1)].
Proof.
  set (r1 := pmm_alloc_pages no_pages demo_kmem 3).
  set (r2 := pmm_alloc_pages no_pages r1.1 1).
  assert (r1.2 = Pfn 0) as E1 by (vm_compute; reflexivity).
  assert (r2.2 = Pfn 4) as E2 by (vm_compute; reflexivity).
  destruct r1 as [k1 p1] eqn:R1. simpl in E1. subst p1.
  unfold r2 in E2. simpl in E2. destruct (pmm_alloc_pages no_pages k1 1) as [k2 p2] eqn:R2.
  simpl in E2. subst p2. exists (pmm_free_pages no_pages k2 0, [(4, alloc_order 1)]).
  split; [|done].
  apply (rtc_l _ _ (k1, [(0, alloc_order 3)])); [by apply step_alloc|].
  apply (rtc_l _ _ (k2, [(4, alloc_order 1); (0, alloc_order 3)])); [by apply step_alloc|].
  apply rtc_once, (step_free _ _ 0 (alloc_order 3)), perm_swap.
Qed.

Lemma pmm_run_conserves_witness :
  exists s, rtc (pmm_step no_pages) (demo_kmem, []) s /\ s.2 = [(4, alloc_order 1)] /\
    NoDup (live_frames s.2 ++ frames s.1).
Proof.
  destruct demo_loaded as [Hinv Hc _ _ _]. destruct demo_run as (s & Hrun & Hs).
  exists s. split_and!; [done..|].
  apply (pmm_run_conserves no_pages demo_kmem s Hinv Hc Hrun).
Defined.

(** One usable entry of 512 KiB. *)
Definition demo_map : list limine_memmap_entry := [Memmap 0 0x80000 0].

Lemma demo_map_ok : memmap_ok 0 demo_map (memmap_scan 0 demo_map 0 0).2.
Proof.
  change ((memmap_scan 0 demo_map 0 0).2) with 0x80000. constructor.
  - repeat constructor; simpl; lia.
  - lia.
  - repeat constructor. exists 0. done.
  - repeat constructor.
  - by vm_compute.
Qed.

Lemma pmm_init_correct_witness :
  exists k', pmm_init no_pages 0 demo_boot demo_map = Some k' /\ buddy_inv k' /\
    (5 ∈ frames k') /\ ~ 126 ∈ frames k'.
Proof.
  destruct (pmm_init_correct no_pages 0 demo_boot demo_map demo_map_ok)
    as (k' & E & Hinv & _ & Hfr & _).
  - left. by vm_compute.
  - left. by vm_compute.
  - exists k'. rewrite !Hfr. by split_and!; vm_compute.
Defined.

(** Two free pages that are not buddies: the request for two pages passes the
    check against [nr_free_pages] and dereferences the null page. *)
Example fragmented_alloc_derefs_null :
  let k := _buddy_init no_pages
    (Kmem {[0 := 2 ^ 64 - 1 - 2 - 4]} 0 1 0 (init_pages 4 0 ∅) 0 0 0 [] 4 0 (4 * PAGE_SIZE)) in
  nr_free_pages k = 2 /\ (pmm_alloc_pages no_pages k 2).2 = NullDeref.
Proof. vm_compute. done. Qed.

(** On a full bitmap the search runs to [phys_limit], a byte count, and reads
    past the last word. *)
Example full_bitmap_search_overruns :
  _bitmap_alloc_frames (Kmem {[0 := U64_MAX]} 0 1 0 ∅ 0 0 0 [] 64 0 (64 * PAGE_SIZE)) 1 = None.
Proof. vm_compute. done. Qed.
