(* ===== verification/Ptm.v ===== *)
(** * Page tables: the code

    [kernel/src/mm/ptm.c] with the address macros of [kernel/include/mm/mm.h] and the
    entry layouts of [kernel/include/ia32/paging.h].

    Physical memory is a map from word addresses (physical address divided by eight)
    to 64-bit words; a word that is not in the map is zero.  After the switch to
    the new tables the code reaches table entries through the recursive entry 510 of
    the root: an entry pointer is a virtual address, and each access to it is
    translated by [walk], the four-level translation of the processor on the same
    tables.  A fault of that translation, an exhausted allocator and a panic are
    [None].  Large pages are not translated ([walk] gives [None]).  Translations are not
    cached: [__invlpg] has no effect here.  [ptm_lock] makes each function atomic.

    Before the switch ([_early_prepare_pgtable]) tables are accessed through the
    boot loader's direct mapping, that is, by physical address. *)

From S2P Require Import Prelude DList Pmm.

(** ** Addresses *)

Definition PAGE_PML4I_SHIFT : Z := 39.
Definition PAGE_PDPTI_SHIFT : Z := 30.
Definition PAGE_PDI_SHIFT : Z := 21.
Definition PAGE_PTI_SHIFT : Z := 12.
Definition PT_ENTRY_COUNT : Z := 512.
Definition RECURSIVE_ENTRY_OFFSET : Z := 0xff0.
Definition RECURSIVE_ENTRY_IDX : Z := RECURSIVE_ENTRY_OFFSET / 8.
Definition MI_RESURSIVE_PML4E_BASE : Z := 0xffffff7fbfdfe000.
Definition MI_RESURSIVE_PDPTE_BASE : Z := 0xffffff7fbfc00000.
Definition MI_RESURSIVE_PDE_BASE : Z := 0xffffff7f80000000.
Definition MI_RESURSIVE_PTE_BASE : Z := 0xffffff0000000000.
Definition __VIRT_TO_PHYS (s : Z) : Z := u64 (s - MI_EARLY_DIRECT_START).

Definition PAGING_PML4_INDEX (va : Z) : Z := Z.land (Z.shiftr va PAGE_PML4I_SHIFT) 0x1ff.
Definition PAGING_PDPT_INDEX (va : Z) : Z := Z.land (Z.shiftr va PAGE_PDPTI_SHIFT) 0x1ff.
Definition PAGING_PDT_INDEX (va : Z) : Z := Z.land (Z.shiftr va PAGE_PDI_SHIFT) 0x1ff.
Definition PAGING_PT_INDEX (va : Z) : Z := Z.land (Z.shiftr va PAGE_PTI_SHIFT) 0x1ff.
Definition PAGING_OFFSET (va : Z) : Z := Z.land va 0xfff.

Definition mi_ptr_to_pml4e (addr : Z) : Z :=
  u64 (MI_RESURSIVE_PML4E_BASE + Z.land (Z.shiftr addr (PAGE_PML4I_SHIFT - 3)) (Z.shiftl 0x1ff 3)).
Definition mi_ptr_to_pdpte (addr : Z) : Z :=
  u64 (MI_RESURSIVE_PDPTE_BASE + Z.land (Z.shiftr addr (PAGE_PDPTI_SHIFT - 3)) (Z.shiftl 0x3ffff 3)).
Definition mi_ptr_to_pde (addr : Z) : Z :=
  u64 (MI_RESURSIVE_PDE_BASE + Z.land (Z.shiftr addr (PAGE_PDI_SHIFT - 3)) (Z.shiftl 0x7ffffff 3)).
Definition mi_ptr_to_pte (addr : Z) : Z :=
  u64 (MI_RESURSIVE_PTE_BASE + Z.land (Z.shiftr addr (PAGE_PTI_SHIFT - 3)) (Z.shiftl 0xfffffffff 3)).
(** The page that the entry at [pointer_pte], taken as a PTE, maps. *)
Definition mi_pte_to_ptr (pointer_pte : Z) : Z := u64 (Z.shiftr (i64 (Z.shiftl pointer_pte 25)) 16).

(** ** Entries

    [set_field e off width v] stores a bit field; the layouts of the four kinds
    of entries agree on the fields below. *)
Definition set_field (e off width v : Z) : Z :=
  Z.lor (Z.land e (Z.lnot (Z.shiftl (Z.ones width) off))) (Z.shiftl (Z.land v (Z.ones width)) off).

Definition present (e : Z) : bool := Z.testbit e 0.
Definition large_page (e : Z) : bool := Z.testbit e 7.
Definition page_frame (e : Z) : Z := Z.land (Z.shiftr e 12) 0xfffffffff.

(** The macros [PT_ENTRY_64_PRESENT(flags)] and so on: one bit of the flags. *)
Definition flag_bit (flags i : Z) : Z := Z.land (Z.shiftr flags i) 0x01.

Definition set_page_frame (e pfn : Z) : Z := set_field e 12 36 pfn.
Definition set_flag (flags e i : Z) : Z := set_field e i 1 (flag_bit flags i).

(** The stores to a PML4E, a PDPTE or PDE, and a PTE. *)
Definition set_pml4e (e pfn flags : Z) : Z :=
  fold_left (set_flag flags) [0; 1; 2; 3; 4; 5; 11] (set_page_frame e pfn).
Definition set_pdpte (e pfn flags : Z) : Z :=
  fold_left (set_flag flags) [0; 1; 2; 3; 4; 5; 7; 11] (set_page_frame e pfn).
Definition set_pte (pfn flags : Z) : Z :=
  fold_left (set_flag flags) [0; 1; 2; 3; 4; 5; 6; 11] (set_page_frame 0 pfn).

(** ** State and translation *)

Record ptm_t := Ptm { pmem : gmap Z Z; cr3 : Z }.

Definition rd (m : gmap Z Z) (w : Z) : Z := default 0 (m !! w).

(** Entry [i] of the table in frame [f]. *)
Definition entry (m : gmap Z Z) (f i : Z) : Z := rd m (f * PT_ENTRY_COUNT + i).

(** The processor's walk from the table in frame [f] along the indices; [lvl]
    counts the levels passed.  A PDPTE or PDE with bit 7 set maps a large page. *)
Fixpoint walk (m : gmap Z Z) (lvl : nat) (f : Z) (idx : list Z) : option Z :=
  match idx with
  | [] => Some f
  | i :: idx =>
    let e := entry m f i in
    let large := match lvl with 1%nat | 2%nat => large_page e | _ => false end in
    if present e && negb large then walk m (S lvl) (page_frame e) idx else None
  end.

Definition indices (va : Z) : list Z :=
  [PAGING_PML4_INDEX va; PAGING_PDPT_INDEX va; PAGING_PDT_INDEX va; PAGING_PT_INDEX va].

Definition root (t : ptm_t) : Z := Z.shiftr (cr3 t) PAGE_SHIFT.

Definition translate (t : ptm_t) (va : Z) : option Z :=
  f ← walk (pmem t) 0 (root t) (indices va);
  Some (f * PAGE_SIZE + PAGING_OFFSET va).

(** Access to the word at a virtual address. *)
Definition vread (t : ptm_t) (p : Z) : option Z :=
  pa ← translate t p; Some (rd (pmem t) (pa / 8)).
Definition vwrite (t : ptm_t) (p v : Z) : option ptm_t :=
  pa ← translate t p; Some (Ptm (<[pa / 8 := v]> (pmem t)) (cr3 t)).

(** [memset(p, 0, 8 * n)] *)
Fixpoint vzero (n : nat) (t : ptm_t) (p : Z) : option ptm_t :=
  match n with
  | O => Some t
  | S n => t ← vwrite t p 0; vzero n t (u64 (p + 8))
  end.
Definition page_words : nat := 512.

Section Ptm.
Context (mem_behind : Z -> page_t).
Notation state := (kmem_info_t * ptm_t)%type.

(** ** Tables of a range *)

(** The loop over the entries from [p]; [n] are left.  [set] is the store of the
    level. *)
Fixpoint alloc_entries (set : Z -> Z -> Z -> Z) (n : nat) (s : state) (p flags : Z) : option state :=
  match n with
  | O => Some s
  | S n =>
    e ← vread s.2 p;
    if present e then alloc_entries set n s (u64 (p + 8)) flags else
    match pmm_alloc_page mem_behind s.1 with
    | (k, Pfn pfn) =>
      t ← vwrite s.2 p (set e pfn flags);
      t ← vzero page_words t (mi_pte_to_ptr p);
      alloc_entries set n (k, t) (u64 (p + 8)) flags
    | _ => None
    end
  end.

(** The iterations of [for (p = start; p <= end; p++)] and [for (p = start; p < end; p++)]
    over eight-byte entries. *)
Definition count_le (start end_ : Z) : nat :=
  if end_ <? start then 0%nat else S (Z.to_nat ((end_ - start) / 8)).
Definition count_lt (start end_ : Z) : nat := Z.to_nat ((end_ - start) / 8).

(** The number of pages is a [u32], and so is its product with [PAGE_SIZE]. *)
Definition range_end (virt_addr nr_pages : Z) : Z := u64 (virt_addr + u32 (u32 nr_pages * PAGE_SIZE)).

Definition ptm_alloc_pml4es (s : state) (virt_addr nr_pages flags : Z) : option state :=
  let start := mi_ptr_to_pml4e virt_addr in
  alloc_entries set_pml4e (count_le start (mi_ptr_to_pml4e (range_end virt_addr nr_pages)))
    s start flags.
Definition ptm_alloc_pdptes (s : state) (virt_addr nr_pages flags : Z) : option state :=
  let start := mi_ptr_to_pdpte virt_addr in
  alloc_entries set_pdpte (count_le start (mi_ptr_to_pdpte (range_end virt_addr nr_pages)))
    s start flags.
Definition ptm_alloc_pdes (s : state) (virt_addr nr_pages flags : Z) : option state :=
  let start := mi_ptr_to_pde virt_addr in
  alloc_entries set_pdpte (count_le start (mi_ptr_to_pde (range_end virt_addr nr_pages)))
    s start flags.

(** ** Mapping and unmapping *)

Fixpoint map_ptes (n : nat) (t : ptm_t) (p pfn flags : Z) : option ptm_t :=
  match n with
  | O => Some t
  | S n =>
    e ← vread t p;
    if present e then None else
    t ← vwrite t p (set_pte pfn flags);
    map_ptes n t (u64 (p + 8)) (u64 (pfn + 1)) flags
  end.

Definition map_pages (s : state) (virt_addr phys_addr nr_pages flags : Z) : option state :=
  let end_addr := u64 (virt_addr + nr_pages * PAGE_SIZE) in
  let start := mi_ptr_to_pte virt_addr in
  s ← ptm_alloc_pml4es s virt_addr nr_pages flags;
  s ← ptm_alloc_pdptes s virt_addr nr_pages flags;
  s ← ptm_alloc_pdes s virt_addr nr_pages flags;
  t ← map_ptes (count_lt start (mi_ptr_to_pte end_addr)) s.2 start (Z.shiftr phys_addr PAGE_SHIFT) flags;
  Some (s.1, t).

Fixpoint unmap_ptes (n : nat) (s : state) (p : Z) : option state :=
  match n with
  | O => Some s
  | S n =>
    e ← vread s.2 p;
    if present e then
      t ← vwrite s.2 p 0;
      unmap_ptes n (pmm_free_pages mem_behind s.1 (page_frame e), t) (u64 (p + 8))
    else None
  end.

Definition unmap_pages (s : state) (virt_addr nr_pages : Z) : option state :=
  let end_addr := u64 (virt_addr + nr_pages * PAGE_SIZE) in
  let start := mi_ptr_to_pte virt_addr in
  unmap_ptes (count_lt start (mi_ptr_to_pte end_addr)) s start.

Definition ptm_get_pte (virt_addr : Z) : Z := mi_ptr_to_pte virt_addr.

(** [vmm_get_phys_addr] of [vmm.c]: the frame of the entry, without the offset and
    without a look at the present bit. *)
Definition vmm_get_phys_addr (t : ptm_t) (va : Z) : option Z :=
  e ← vread t (ptm_get_pte va); Some (PAGE_TO_SIZE (page_frame e)).

(** ** The tables at boot *)

(** [memset(__PHYS_TO_VIRT(phys), 0, 8 * n)] *)
Fixpoint pzero (n : nat) (m : gmap Z Z) (w : Z) : gmap Z Z :=
  match n with
  | O => m
  | S n => pzero n (<[w := 0]> m) (w + 1)
  end.

Definition set_present_write (e : Z) : Z := set_field (set_field e 1 1 1) 0 1 1.

(** The table behind entry [i] of frame [f], which is allocated when absent. *)
Definition early_table (k : kmem_info_t) (m : gmap Z Z) (f i : Z) : option (kmem_info_t * gmap Z Z * Z) :=
  let e := entry m f i in
  if present e then Some (k, m, page_frame e) else
  match pmm_alloc_page mem_behind k with
  | (k, Pfn pfn) =>
    let m := pzero page_words m (pfn * PT_ENTRY_COUNT) in
    let e := set_present_write (set_page_frame (entry m f i) pfn) in
    let m := <[f * PT_ENTRY_COUNT + i := e]> m in
    Some (k, m, page_frame e)
  | _ => None
  end.

Definition _early_prepare_pgtable (s : state) (virt_addr map_page page_attr : Z) : option state :=
  '(k, m, pdpt) ← early_table s.1 (pmem s.2) (root s.2) (PAGING_PML4_INDEX virt_addr);
  '(k, m, pdt) ← early_table k m pdpt (PAGING_PDPT_INDEX virt_addr);
  '(k, m, pt) ← early_table k m pdt (PAGING_PDT_INDEX virt_addr);
  let e := set_page_frame page_attr (Z.shiftr (phys_addr (page_at mem_behind k map_page)) PAGE_SHIFT) in
  Some (k, Ptm (<[pt * PT_ENTRY_COUNT + PAGING_PT_INDEX virt_addr := e]> m) (cr3 s.2)).

Definition ptm_recursive_init (m : gmap Z Z) (r phys : Z) : gmap Z Z :=
  <[r * PT_ENTRY_COUNT + RECURSIVE_ENTRY_IDX := set_field (set_field phys 0 1 1) 1 1 1]> m.

(** [for (i = 256; i < PT_ENTRY_COUNT; i++)]; [n] entries are left. *)
Fixpoint hh_entries (n : nat) (k : kmem_info_t) (m : gmap Z Z) (r i : Z) : option (kmem_info_t * gmap Z Z) :=
  match n with
  | O => Some (k, m)
  | S n =>
    let e := entry m r i in
    if present e then hh_entries n k m r (i + 1) else
    match pmm_alloc_page mem_behind k with
    | (k, Pfn pfn) =>
      let m := <[r * PT_ENTRY_COUNT + i := set_field (set_field (set_page_frame e pfn) 0 1 1) 1 1 1]> m in
      hh_entries n k (pzero page_words m (pfn * PT_ENTRY_COUNT)) r (i + 1)
    | _ => None
    end
  end.
Definition _prepare_hh_init (k : kmem_info_t) (m : gmap Z Z) (pml4_root_phys : Z) :
    option (kmem_info_t * gmap Z Z) :=
  let r := Z.shiftr pml4_root_phys PAGE_SHIFT in
  let m := pzero page_words m (r * PT_ENTRY_COUNT) in
  hh_entries 256 k (ptm_recursive_init m r pml4_root_phys) r 256.

(** [for (offset = 0; offset < length; offset += PAGE_SIZE)]: the page of the frame
    of [pa + offset] is mapped at [va + offset]. *)
Fixpoint map_range (n : nat) (s : state) (va pa attr : Z) : option state :=
  match n with
  | O => Some s
  | S n =>
    s ← _early_prepare_pgtable s va (Z.shiftr pa PAGE_SHIFT) attr;
    map_range n s (u64 (va + PAGE_SIZE)) (u64 (pa + PAGE_SIZE)) attr
  end.
Definition pages_in (bytes : Z) : nat := Z.to_nat ((bytes + PAGE_SIZE - 1) / PAGE_SIZE).

(** The types of memory map entries that are mapped are constants of the boot
    protocol; [attr] is [VMM_FLAGS_DEFAULT]. *)
Record memmap_types := MemTypes { executable_and_modules : Z; bootloader_reclaimable : Z; reserved_mapped : Z }.
Record limine_executable_address := ExecAddr { virtual_base : Z; physical_base : Z }.

Fixpoint map_entries (ty : memmap_types) (execa : limine_executable_address) (attr : Z)
    (mm : list limine_memmap_entry) (s : state) : option state :=
  match mm with
  | [] => Some s
  | e :: mm =>
    s ← (if mtype e =? executable_and_modules ty then
           map_range (pages_in (len e)) s (u64 (virtual_base execa + base e - physical_base execa))
             (physical_base execa) attr
         else if (mtype e =? bootloader_reclaimable ty) || (mtype e =? reserved_mapped ty) then
           map_range (pages_in (len e)) s (__PHYS_TO_VIRT (base e)) (base e) attr
         else Some s);
    map_entries ty execa attr mm s
  end.

(** The bitmap and the page-frame database, at their addresses of the direct mapping. *)
Definition map_direct (s : state) (va va_end attr : Z) : option state :=
  map_range (pages_in (va_end - va)) s va (__VIRT_TO_PHYS va) attr.

Definition PT_PRESENT_WRITE : Z := 0x03.

Definition _prepare_kernel_init (ty : memmap_types) (execa : limine_executable_address)
    (mm : list limine_memmap_entry) (s : state) : option state :=
  s ← map_entries ty execa PT_PRESENT_WRITE mm s;
  s ← map_direct s (__PHYS_TO_VIRT (bitmap_pa s.1)) (bitmap_end s.1) PT_PRESENT_WRITE;
  map_direct s (__PHYS_TO_VIRT (pfn_database_pa s.1)) (pfn_database_end s.1) PT_PRESENT_WRITE.

(** [pml4_root] is the address of the static root table; [m] the memory at entry. *)
Definition ptm_init (ty : memmap_types) (execa : limine_executable_address) (pml4_root : Z)
    (mm : list limine_memmap_entry) (k : kmem_info_t) (m : gmap Z Z) : option state :=
  let pml4_root_phys := u64 (pml4_root - virtual_base execa + physical_base execa) in
  '(k, m) ← _prepare_hh_init k m pml4_root_phys;
  _prepare_kernel_init ty execa mm (k, Ptm m pml4_root_phys).

End Ptm.

(** The check [_ptmp_address_valid_root] makes of the four levels. *)
Definition _ptmp_address_valid_root (m : gmap Z Z) (r va : Z) : bool :=
  let e4 := entry m r (PAGING_PML4_INDEX va) in
  if negb (present e4) then false else
  let e3 := entry m (page_frame e4) (PAGING_PDPT_INDEX va) in
  if negb (present e3) then false else
  let e2 := entry m (page_frame e3) (PAGING_PDT_INDEX va) in
  if negb (present e2) then false else
  present (entry m (page_frame e2) (PAGING_PT_INDEX va)).
