(* ===== verification/PtmProofs.v ===== *)
(** * Page tables: correctness

    The tables are a tree: [tree_ok t T] says that the map [T] gives the frame of every
    table of [t], by its level and its number within the level, and that the root
    refers to itself in entry 510.  In a tree the recursive entry pointers lead to the
    entries they stand for ([entry_pointer]), and mapping a range changes the
    translation of exactly its pages. *)

From S2P Require Import Prelude DList Pmm PmmBuddy Ptm.

(** ** Addresses *)

(** The page number of an address and the digits of a number in base 512, most
    significant first. *)
Definition vpn (va : Z) : Z := va / 4096 mod 2 ^ 36.

Fixpoint digits (l : nat) (n : Z) : list Z :=
  match l with O => [] | S l => digits l (n / 512) ++ [n mod 512] end.

Lemma land_ones_mod x w : 0 <= w -> Z.land x (Z.ones w) = x mod 2 ^ w.
Proof. intros. by rewrite Z.land_ones. Qed.

Lemma indices_digits va : indices va = digits 4 (vpn va).
Proof.
  unfold indices, PAGING_PML4_INDEX, PAGING_PDPT_INDEX, PAGING_PDT_INDEX, PAGING_PT_INDEX,
    PAGE_PML4I_SHIFT, PAGE_PDPTI_SHIFT, PAGE_PDI_SHIFT, PAGE_PTI_SHIFT, vpn.
  change 0x1ff with (Z.ones 9). rewrite !Z.land_ones, !Z.shiftr_div_pow2 by lia. cbn [digits app].
  change (2 ^ 39) with (4096 * 512 * 512 * 512). change (2 ^ 30) with (4096 * 512 * 512).
  change (2 ^ 21) with (4096 * 512). change (2 ^ 12) with 4096. change (2 ^ 9) with 512.
  rewrite <- !Z.div_div by lia. set (q := va / 4096).
  repeat (apply f_equal2; [Z.div_mod_to_equations; lia|]). done.
Qed.

(** The address of entry [e] (counted over the whole level) of level [l], through
    the recursive entry. *)
Definition entry_base (l : nat) : Z :=
  match l with
  | 0%nat => MI_RESURSIVE_PML4E_BASE
  | 1%nat => MI_RESURSIVE_PDPTE_BASE
  | 2%nat => MI_RESURSIVE_PDE_BASE
  | _ => MI_RESURSIVE_PTE_BASE
  end.
Definition eptr (l : nat) (e : Z) : Z := entry_base l + 8 * e.

(** The number of the level-[l] entry on the path to page [v]. *)
Definition ent (l : nat) (v : Z) : Z := v / 512 ^ (3 - Z.of_nat l).

Definition mi_ptr_to (l : nat) : Z -> Z :=
  match l with
  | 0%nat => mi_ptr_to_pml4e
  | 1%nat => mi_ptr_to_pdpte
  | 2%nat => mi_ptr_to_pde
  | _ => mi_ptr_to_pte
  end.

Lemma shifted_index addr sh w :
  3 <= sh -> 0 <= w ->
  Z.land (Z.shiftr addr (sh - 3)) (Z.shiftl (Z.ones w) 3) = 8 * (addr / 2 ^ sh mod 2 ^ w).
Proof.
  intros Hs Hw. rewrite <- Z.shiftr_div_pow2 by lia. rewrite <- Z.land_ones by lia.
  rewrite Z.mul_comm. change 8 with (2 ^ 3). rewrite <- Z.shiftl_mul_pow2 by lia.
  apply Z.bits_inj'. intros n Hn. rewrite Z.land_spec, !Z.shiftl_spec by lia.
  rewrite Z.land_spec, Z.shiftr_spec by lia.
  destruct (decide (n < 3)) as [Hl|Hg].
  - rewrite !(Z.testbit_neg_r _ (n - 3)) by lia. apply andb_false_r.
  - rewrite Z.shiftr_spec by lia. do 2 f_equal. lia.
Qed.

Lemma mi_ptr_to_eptr l va : (l <= 3)%nat -> mi_ptr_to l va = eptr l (ent l (vpn va)).
Proof.
  intros Hl. unfold eptr, ent, vpn.
  destruct l as [|[|[|[|]]]]; [| | | |lia]; cbn [mi_ptr_to entry_base];
    unfold mi_ptr_to_pml4e, mi_ptr_to_pdpte, mi_ptr_to_pde, mi_ptr_to_pte,
      PAGE_PML4I_SHIFT, PAGE_PDPTI_SHIFT, PAGE_PDI_SHIFT, PAGE_PTI_SHIFT,
      MI_RESURSIVE_PML4E_BASE, MI_RESURSIVE_PDPTE_BASE, MI_RESURSIVE_PDE_BASE, MI_RESURSIVE_PTE_BASE.
  - change 0x1ff with (Z.ones 9). rewrite shifted_index by lia.
    change (512 ^ (3 - Z.of_nat 0)) with (2 ^ 27). change (2 ^ 39) with (4096 * 2 ^ 27).
    rewrite <- Z.div_div by lia. generalize (va / 4096) as q. intros q.
    rewrite u64_small by (Z.div_mod_to_equations; lia). Z.div_mod_to_equations; lia.
  - change 0x3ffff with (Z.ones 18). rewrite shifted_index by lia.
    change (512 ^ (3 - Z.of_nat 1)) with (2 ^ 18). change (2 ^ 30) with (4096 * 2 ^ 18).
    rewrite <- Z.div_div by lia. generalize (va / 4096) as q. intros q.
    rewrite u64_small by (Z.div_mod_to_equations; lia). Z.div_mod_to_equations; lia.
  - change 0x7ffffff with (Z.ones 27). rewrite shifted_index by lia.
    change (512 ^ (3 - Z.of_nat 2)) with (2 ^ 9). change (2 ^ 21) with (4096 * 2 ^ 9).
    rewrite <- Z.div_div by lia. generalize (va / 4096) as q. intros q.
    rewrite u64_small by (Z.div_mod_to_equations; lia). Z.div_mod_to_equations; lia.
  - change 0xfffffffff with (Z.ones 36). rewrite shifted_index by lia.
    change (512 ^ (3 - Z.of_nat 3)) with 1. change (2 ^ 12) with 4096.
    generalize (va / 4096) as q. intros q. rewrite Z.div_1_r.
    rewrite u64_small by (Z.div_mod_to_equations; lia). lia.
Qed.

Definition level_size (l : nat) : Z := 512 ^ Z.of_nat l.

Lemma indices_eptr l e :
  (l <= 3)%nat -> 0 <= e < level_size (S l) ->
  indices (eptr l e) = replicate (4 - l) 510 ++ digits l (e / 512).
Proof.
  intros Hl He. rewrite indices_digits. unfold vpn, eptr.
  destruct l as [|[|[|[|]]]]; [| | | |lia]; cbn [entry_base digits replicate app Nat.sub];
    unfold MI_RESURSIVE_PML4E_BASE, MI_RESURSIVE_PDPTE_BASE, MI_RESURSIVE_PDE_BASE, MI_RESURSIVE_PTE_BASE.
  - change (level_size 1) with 512 in He.
    repeat (apply f_equal2; [Z.div_mod_to_equations; lia|]). done.
  - change (level_size 2) with (2 ^ 18) in He.
    repeat (apply f_equal2; [Z.div_mod_to_equations; lia|]). done.
  - change (level_size 3) with (2 ^ 27) in He.
    repeat (apply f_equal2; [Z.div_mod_to_equations; lia|]). done.
  - change (level_size 4) with (2 ^ 36) in He.
    repeat (apply f_equal2; [Z.div_mod_to_equations; lia|]). done.
Qed.

Lemma offset_eptr l e : PAGING_OFFSET (eptr l e) = 8 * (e mod 512).
Proof.
  unfold PAGING_OFFSET. change 0xfff with (Z.ones 12). rewrite Z.land_ones by lia. unfold eptr.
  destruct l as [|[|[|]]]; cbn [entry_base];
    unfold MI_RESURSIVE_PML4E_BASE, MI_RESURSIVE_PDPTE_BASE, MI_RESURSIVE_PDE_BASE, MI_RESURSIVE_PTE_BASE;
    Z.div_mod_to_equations; lia.
Qed.

Lemma eptr_succ l e : (l <= 3)%nat -> 0 <= e < level_size (S l) -> u64 (eptr l e + 8) = eptr l (e + 1).
Proof.
  intros Hl He. unfold eptr. rewrite u64_small; [lia|].
  destruct l as [|[|[|[|]]]]; [| | | |lia]; cbn [entry_base];
    unfold MI_RESURSIVE_PML4E_BASE, MI_RESURSIVE_PDPTE_BASE, MI_RESURSIVE_PDE_BASE, MI_RESURSIVE_PTE_BASE.
  - change (level_size 1) with 512 in He. lia.
  - change (level_size 2) with (2 ^ 18) in He. lia.
  - change (level_size 3) with (2 ^ 27) in He. lia.
  - change (level_size 4) with (2 ^ 36) in He. lia.
Qed.

(** The page behind an entry of the upper three levels: the table it refers to. *)
Lemma table_ptr l e w :
  (l <= 2)%nat -> 0 <= e < level_size (S l) -> 0 <= w < 512 ->
  let p := u64 (mi_pte_to_ptr (eptr l e) + 8 * w) in
  indices p = replicate (3 - l) 510 ++ digits (S l) e /\ PAGING_OFFSET p = 8 * w /\
  u64 (p + 8) = u64 (mi_pte_to_ptr (eptr l e) + 8 * (w + 1)).
Proof.
  intros Hl He Hw p. unfold p. rewrite indices_digits. unfold vpn, PAGING_OFFSET, mi_pte_to_ptr, eptr.
  change 0xfff with (Z.ones 12). rewrite Z.land_ones by lia.
  rewrite Z.shiftl_mul_pow2, Z.shiftr_div_pow2 by lia. rewrite u64_add_l.
  destruct l as [|[|[|]]]; [| | |lia]; cbn [entry_base digits replicate app Nat.sub];
    unfold MI_RESURSIVE_PML4E_BASE, MI_RESURSIVE_PDPTE_BASE, MI_RESURSIVE_PDE_BASE.
  - change (level_size 1) with 512 in He.
    assert (i64 ((0xffffff7fbfdfe000 + 8 * e) * 2 ^ 25) / 2 ^ 16 = 0xffffff7fbfc00000 - 2^64 + 4096 * e) as ->
      by wrap_lia.
    split_and!; [| |wrap_lia].
    + repeat (apply f_equal2; [wrap_lia|]). done.
    + wrap_lia.
  - change (level_size 2) with (2 ^ 18) in He.
    assert (i64 ((0xffffff7fbfc00000 + 8 * e) * 2 ^ 25) / 2 ^ 16 = 0xffffff7f80000000 - 2^64 + 4096 * e) as ->
      by wrap_lia.
    split_and!; [| |wrap_lia].
    + repeat (apply f_equal2; [wrap_lia|]). done.
    + wrap_lia.
  - change (level_size 3) with (2 ^ 27) in He.
    assert (i64 ((0xffffff7f80000000 + 8 * e) * 2 ^ 25) / 2 ^ 16 = 0xffffff0000000000 - 2^64 + 4096 * e) as ->
      by wrap_lia.
    split_and!; [| |wrap_lia].
    + repeat (apply f_equal2; [wrap_lia|]). done.
    + wrap_lia.
Qed.

(** ** Entries *)

Lemma testbit_set_field e off w v i :
  0 <= off -> 0 <= w -> 0 <= i ->
  Z.testbit (set_field e off w v) i =
  if bool_decide (off <= i < off + w) then Z.testbit v (i - off) else Z.testbit e i.
Proof.
  intros Ho Hw Hi. unfold set_field.
  rewrite Z.lor_spec, Z.land_spec, Z.lnot_spec, !Z.shiftl_spec, Z.land_spec by lia.
  case_bool_decide as H.
  - rewrite Z.ones_spec_low by lia. simpl. by rewrite andb_false_r, andb_true_r.
  - destruct (decide (i < off)) as [Hl|Hg].
    + rewrite !(Z.testbit_neg_r _ (i - off)) by lia. simpl. by rewrite andb_true_r, orb_false_r.
    + rewrite Z.ones_spec_high by lia. simpl. by rewrite andb_true_r, andb_false_r, orb_false_r.
Qed.

Lemma testbit_flag flags i : 0 <= i -> Z.testbit (flag_bit flags i) 0 = Z.testbit flags i.
Proof.
  intros Hi. unfold flag_bit. rewrite Z.land_spec, Z.shiftr_spec by lia.
  change (Z.testbit 1 0) with true. by rewrite andb_true_r.
Qed.

Lemma testbit_put_flag flags e i j :
  0 <= i -> 0 <= j ->
  Z.testbit (set_flag flags e i) j = if bool_decide (j = i) then Z.testbit flags j else Z.testbit e j.
Proof.
  intros Hi Hj. unfold set_flag. rewrite testbit_set_field by lia.
  repeat case_bool_decide; try lia; [|done]. subst.
  by rewrite Z.sub_diag, testbit_flag.
Qed.

Lemma page_frame_set_flag flags e i : 0 <= i < 12 -> page_frame (set_flag flags e i) = page_frame e.
Proof.
  intros Hi. unfold page_frame. apply Z.bits_inj'. intros n Hn.
  rewrite !Z.land_spec, !Z.shiftr_spec, testbit_put_flag by lia.
  by rewrite bool_decide_eq_false_2 by lia.
Qed.

Lemma page_frame_set_page_frame e pfn : page_frame (set_page_frame e pfn) = pfn mod 2 ^ 36.
Proof.
  unfold page_frame, set_page_frame. rewrite <- Z.land_ones by lia. change 0xfffffffff with (Z.ones 36).
  apply Z.bits_inj'. intros n Hn. rewrite !Z.land_spec, Z.shiftr_spec, testbit_set_field by lia.
  case_bool_decide as H; [do 2 f_equal; lia|].
  by rewrite Z.ones_spec_high, !andb_false_r by lia.
Qed.

Lemma page_frame_range e : 0 <= page_frame e < 2 ^ 36.
Proof.
  unfold page_frame. change 0xfffffffff with (Z.ones 36). rewrite Z.land_ones by lia.
  apply Z.mod_pos_bound. lia.
Qed.

Lemma testbit_set_page_frame e pfn i : 0 <= i < 12 -> Z.testbit (set_page_frame e pfn) i = Z.testbit e i.
Proof.
  intros Hi. unfold set_page_frame. rewrite testbit_set_field by lia.
  by rewrite bool_decide_eq_false_2 by lia.
Qed.

Ltac entry_bits :=
  unfold present, large_page; cbn [fold_left];
  repeat (rewrite testbit_put_flag by lia; cbn -[Z.testbit]); rewrite ?testbit_set_page_frame by lia.

Lemma set_pml4e_spec e pfn flags :
  let e' := set_pml4e e pfn flags in
  present e' = Z.testbit flags 0 /\ large_page e' = large_page e /\ page_frame e' = pfn mod 2 ^ 36.
Proof.
  cbv zeta. unfold set_pml4e. split_and!; [by entry_bits..|]. cbn [fold_left].
  rewrite !page_frame_set_flag by lia. apply page_frame_set_page_frame.
Qed.

Lemma set_pdpte_spec e pfn flags :
  let e' := set_pdpte e pfn flags in
  present e' = Z.testbit flags 0 /\ large_page e' = Z.testbit flags 7 /\ page_frame e' = pfn mod 2 ^ 36.
Proof.
  cbv zeta. unfold set_pdpte. split_and!; [by entry_bits..|]. cbn [fold_left].
  rewrite !page_frame_set_flag by lia. apply page_frame_set_page_frame.
Qed.

Lemma set_pte_spec pfn flags :
  let e' := set_pte pfn flags in
  present e' = Z.testbit flags 0 /\ page_frame e' = pfn mod 2 ^ 36 /\
  Z.testbit e' 1 = Z.testbit flags 1 /\ Z.testbit e' 2 = Z.testbit flags 2.
Proof.
  cbv zeta. unfold set_pte. split_and!; [by entry_bits| |by entry_bits..]. cbn [fold_left].
  rewrite !page_frame_set_flag by lia. apply page_frame_set_page_frame.
Qed.

(** ** The tree of tables *)

Notation table_map := (gmap (nat * Z) Z).

Record tree_ok (t : ptm_t) (T : table_map) : Prop := {
  tr_root : T !! (0%nat, 0) = Some (root t);
  tr_dom : forall l n f, T !! (l, n) = Some f -> (l <= 3)%nat /\ 0 <= n < level_size l /\ 0 <= f < 2 ^ 36;
  tr_inj : forall a b f, T !! a = Some f -> T !! b = Some f -> a = b;
  tr_child : forall l n f i, T !! (l, n) = Some f -> (l < 3)%nat -> 0 <= i < 512 ->
    ~ (l = 0%nat /\ i = 510) ->
    T !! (S l, 512 * n + i) = (if present (entry (pmem t) f i) then Some (page_frame (entry (pmem t) f i)) else None)
    /\ large_page (entry (pmem t) f i) = false;
  tr_parent : forall l n f, T !! (S l, n) = Some f -> is_Some (T !! (l, n / 512)) /\ ~ (l = 0%nat /\ n = 510);
  tr_rec : present (entry (pmem t) (root t) 510) = true /\
    page_frame (entry (pmem t) (root t) 510) = root t /\ large_page (entry (pmem t) (root t) 510) = false;
}.

Lemma walk_app m lvl f xs ys :
  walk m lvl f (xs ++ ys) = g ← walk m lvl f xs; walk m (lvl + length xs) g ys.
Proof.
  revert lvl f. induction xs as [|x xs IH]; intros lvl f; simpl.
  { by rewrite Nat.add_0_r. }
  destruct (present _ && _); [|done]. rewrite IH. by rewrite Nat.add_succ_r.
Qed.

Lemma walk_one m lvl f i :
  large_page (entry m f i) = false ->
  walk m lvl f [i] = if present (entry m f i) then Some (page_frame (entry m f i)) else None.
Proof. intros Hl. simpl. destruct lvl as [|[|[|]]]; rewrite ?Hl; simpl; by rewrite andb_true_r. Qed.

(** Walks of a memory that agrees with the tree above level [l] reach its tables
    at level [l], also after rounds through the recursive entry. *)
Definition agrees (t : ptm_t) (T : table_map) (m : gmap Z Z) (l : nat) : Prop :=
  entry m (root t) 510 = entry (pmem t) (root t) 510 /\
  forall l' n f i, (l' < l)%nat -> T !! (l', n) = Some f -> 0 <= i < 512 ->
    entry m f i = entry (pmem t) f i.

Lemma walk_rec t T m j : forall lvl,
  tree_ok t T -> agrees t T m 0 -> walk m lvl (root t) (replicate j 510) = Some (root t).
Proof.
  induction j as [|j IH]; intros lvl Ht Ha; [done|].
  change (replicate (S j) 510) with ([510] ++ replicate j 510). rewrite walk_app.
  destruct (tr_rec t T Ht) as (Hp & Hf & Hg). destruct Ha as [Ha Ha'].
  rewrite walk_one; rewrite ?Ha; [|done]. rewrite Hp, Hf. simpl. by apply IH.
Qed.

Lemma walk_digits t T m l : forall n f lvl,
  tree_ok t T -> agrees t T m l -> T !! (l, n) = Some f ->
  walk m lvl (root t) (digits l n) = Some f.
Proof.
  induction l as [|l IH]; intros n f lvl Ht Ha Hn.
  { destruct (tr_dom t T Ht _ _ _ Hn) as (_ & Hr & _). change (level_size 0) with 1 in Hr.
    replace n with 0 in Hn by lia. rewrite (tr_root t T Ht) in Hn. by simplify_eq. }
  destruct (tr_parent t T Ht _ _ _ Hn) as [[g Hg] Hne].
  destruct (tr_dom t T Ht _ _ _ Hn) as (Hl & Hr & _).
  destruct (tr_child t T Ht l (n / 512) g (n mod 512) Hg) as [Hc Hlg]; [lia|Z.div_mod_to_equations; lia| |].
  { intros [-> Hm]. apply Hne. split; [done|]. change (level_size 1) with 512 in Hr. Z.div_mod_to_equations; lia. }
  rewrite <- Z.div_mod in Hc by lia. rewrite Hn in Hc.
  cbn [digits]. rewrite walk_app, (IH (n / 512) g); [|done| |done].
  2:{ destruct Ha as [Ha1 Ha2]. split; [done|]. intros l' n' f' i Hl'. apply Ha2. lia. }
  cbn [mbind option_bind]. destruct Ha as [_ Ha].
  rewrite walk_one; rewrite (Ha l (n / 512)) by (done || lia || (Z.div_mod_to_equations; lia)); [|done].
  by destruct (present _).
Qed.

Lemma agrees_refl t T l : agrees t T (pmem t) l.
Proof. done. Qed.

Lemma agrees_le t T m l l' : (l' <= l)%nat -> agrees t T m l -> agrees t T m l'.
Proof. intros Hl [Ha1 Ha2]. split; [done|]. intros l1 n f i H1. apply Ha2. lia. Qed.

(** The recursive entry pointers lead to the entries. *)
Lemma eptr_translate t T m l e f :
  tree_ok t T -> agrees t T m l -> (l <= 3)%nat -> 0 <= e < level_size (S l) ->
  T !! (l, e / 512) = Some f ->
  translate (Ptm m (cr3 t)) (eptr l e) = Some ((f * PT_ENTRY_COUNT + e mod 512) * 8).
Proof.
  intros Ht Ha Hl He Hf. unfold translate. cbn [pmem]. unfold root at 1. cbn [cr3]. fold (root t).
  rewrite indices_eptr, walk_app by done.
  rewrite (walk_rec t T) by (done || (apply (agrees_le _ _ _ l); [lia|done])). cbn [mbind option_bind].
  rewrite (walk_digits t T m l (e / 512) f) by done. simpl.
  rewrite offset_eptr. unfold PAGE_SIZE, PT_ENTRY_COUNT. f_equal. lia.
Qed.

(** ** What a tree translates *)

(** The entry of page [v] in its page table, zero when there is no table. *)
Definition pte_of (t : ptm_t) (T : table_map) (v : Z) : Z :=
  match T !! (3%nat, v / 512) with Some f => entry (pmem t) f (v mod 512) | None => 0 end.

Lemma walk_digits_None t T l : forall n lvl,
  tree_ok t T -> (l <= 3)%nat -> 0 <= n < level_size l ->
  ((0 < l)%nat -> n / 512 ^ (Z.of_nat l - 1) <> 510) -> T !! (l, n) = None ->
  walk (pmem t) lvl (root t) (digits l n) = None.
Proof.
  induction l as [|l IH]; intros n lvl Ht Hl Hn Hne HT.
  { change (level_size 0) with 1 in Hn. replace n with 0 in HT by lia. by rewrite (tr_root t T Ht) in HT. }
  cbn [digits]. rewrite walk_app. specialize (Hne ltac:(lia)).
  replace (Z.of_nat (S l) - 1) with (Z.of_nat l) in Hne by lia.
  assert (0 <= n / 512 < level_size l) as Hn'.
  { unfold level_size in *. rewrite Nat2Z.inj_succ, Z.pow_succ_r in Hn by lia. split.
    - apply Z.div_pos; lia.
    - apply Z.div_lt_upper_bound; lia. }
  destruct (T !! (l, n / 512)) as [g|] eqn:Hg.
  - rewrite (walk_digits t T (pmem t) l (n / 512) g) by (done || apply agrees_refl). cbn [mbind option_bind].
    destruct (tr_child t T Ht l (n / 512) g (n mod 512) Hg) as [Hc Hlg]; [lia|Z.div_mod_to_equations; lia| |].
    { intros [-> Hm]. apply Hne. change (level_size 1) with 512 in Hn. change (Z.of_nat 0) with 0.
      rewrite Z.div_1_r. Z.div_mod_to_equations; lia. }
    rewrite <- Z.div_mod in Hc by lia. rewrite HT in Hc. rewrite walk_one by done.
    by destruct (present _).
  - rewrite (IH (n / 512)); [done|done|lia|done| |done].
    intros Hl0. rewrite Z.div_div by lia. rewrite <- Z.pow_succ_r by lia.
    by replace (Z.succ (Z.of_nat l - 1)) with (Z.of_nat l) by lia.
Qed.

Lemma vpn_range va : 0 <= vpn va < 2 ^ 36.
Proof. apply Z.mod_pos_bound. lia. Qed.

Lemma translate_pte t T va :
  tree_ok t T -> vpn va / 2 ^ 27 <> 510 ->
  translate t va = if present (pte_of t T (vpn va))
                   then Some (page_frame (pte_of t T (vpn va)) * PAGE_SIZE + PAGING_OFFSET va) else None.
Proof.
  intros Ht Hv. unfold translate. rewrite indices_digits. pose proof (vpn_range va) as Hr.
  set (v := vpn va) in *. change (digits 4 v) with (digits 3 (v / 512) ++ [v mod 512]).
  rewrite walk_app. unfold pte_of.
  assert (0 <= v / 512 < level_size 3) as Hn by (change (level_size 3) with (2 ^ 27); Z.div_mod_to_equations; lia).
  destruct (T !! (3%nat, v / 512)) as [f|] eqn:Hf.
  - rewrite (walk_digits t T (pmem t) 3 (v / 512) f) by (done || apply agrees_refl). cbn [mbind option_bind].
    cbn [walk length digits app Nat.add negb]. rewrite andb_true_r. by destruct (present _).
  - rewrite (walk_digits_None t T 3); [done..| |done]. intros _.
    rewrite Z.div_div by lia. exact Hv.
Qed.

(** ** Writes *)

Lemma entry_insert m f i v f' i' :
  0 <= i < 512 -> 0 <= i' < 512 ->
  entry (<[f * PT_ENTRY_COUNT + i := v]> m) f' i' = if decide (f' = f /\ i' = i) then v else entry m f' i'.
Proof.
  intros Hi Hi'. unfold entry, rd, PT_ENTRY_COUNT.
  destruct (decide (f' = f /\ i' = i)) as [[-> ->]|Hne].
  - by rewrite lookup_insert_eq.
  - by rewrite lookup_insert_ne by lia.
Qed.

Lemma entry_pzero n : forall m g w f j,
  0 <= w -> w + Z.of_nat n <= 512 -> 0 <= j < 512 ->
  entry (pzero n m (g * PT_ENTRY_COUNT + w)) f j =
  if decide (f = g /\ w <= j < w + Z.of_nat n) then 0 else entry m f j.
Proof.
  induction n as [|n IH]; intros m g w f j Hw Hn Hj; cbn [pzero].
  { by rewrite decide_False by lia. }
  replace (g * PT_ENTRY_COUNT + w + 1) with (g * PT_ENTRY_COUNT + (w + 1)) by lia.
  rewrite IH, entry_insert by lia. repeat case_decide; lia || done.
Qed.

(** A write to a page table keeps the tree. *)
Lemma tree_leaf t T n f i v :
  tree_ok t T -> T !! (3%nat, n) = Some f -> 0 <= i < 512 ->
  tree_ok (Ptm (<[f * PT_ENTRY_COUNT + i := v]> (pmem t)) (cr3 t)) T.
Proof.
  intros Ht Hf Hi.
  assert (forall l n' f' j, (l < 3)%nat -> T !! (l, n') = Some f' -> 0 <= j < 512 ->
    entry (<[f * PT_ENTRY_COUNT + i := v]> (pmem t)) f' j = entry (pmem t) f' j) as Hsame.
  { intros l n' f' j Hl Hf' Hj. rewrite entry_insert by done. rewrite decide_False; [done|].
    intros [-> _]. assert ((3%nat, n) = (l, n')) as [= <- _] by (by eapply tr_inj). lia. }
  destruct Ht as [Hroot Hdom Hinj Hch Hpar Hrec]. constructor; try done; cbn [pmem].
  - intros l n' f' j Hf' Hl Hj Hne. rewrite (Hsame l n') by done. by apply Hch.
  - change (root (Ptm _ (cr3 t))) with (root t). by rewrite (Hsame 0%nat 0) by (done || lia).
Qed.

(** A new, zeroed table behind an absent entry extends the tree. *)
Lemma tree_grow t T l n f i pfn m' :
  tree_ok t T -> T !! (l, n) = Some f -> (l < 3)%nat -> 0 <= i < 512 -> ~ (l = 0%nat /\ i = 510) ->
  present (entry (pmem t) f i) = false -> (forall a, T !! a <> Some pfn) -> 0 <= pfn < 2 ^ 36 ->
  present (entry m' f i) = true -> page_frame (entry m' f i) = pfn -> large_page (entry m' f i) = false ->
  (forall j, 0 <= j < 512 -> entry m' pfn j = 0) ->
  (forall g j, 0 <= j < 512 -> g <> pfn -> ~ (g = f /\ j = i) -> entry m' g j = entry (pmem t) g j) ->
  tree_ok (Ptm m' (cr3 t)) (<[(S l, 512 * n + i) := pfn]> T).
Proof.
  intros Ht Hf Hl Hi Hrec0 Habs Hfresh Hpfn Hp Hpf Hlg Hz Hsame.
  destruct (tr_dom t T Ht _ _ _ Hf) as (_ & Hn & _).
  destruct (tr_child t T Ht l n f i Hf Hl Hi Hrec0) as [Hnone _]. rewrite Habs in Hnone.
  destruct Ht as [Hroot Hdom Hinj Hch Hpar (Hr1 & Hr2 & Hr3)].
  assert (level_size (S l) = 512 * level_size l) as Hls.
  { unfold level_size. rewrite Nat2Z.inj_succ, Z.pow_succ_r by lia. lia. }
  constructor; change (root (Ptm m' (cr3 t))) with (root t); cbn [pmem].
  - rewrite lookup_insert_ne by congruence. done.
  - intros l' n' f'. rewrite lookup_insert. case_decide as E; [|apply Hdom].
    intros [= <-]. simplify_eq. lia.
  - intros a b f'. rewrite !lookup_insert. repeat case_decide; intros; simplify_eq; try done.
    + exfalso. by eapply Hfresh.
    + exfalso. by eapply Hfresh.
    + by eapply Hinj.
  - intros l' n' f' j Hf' Hl' Hj Hne. rewrite lookup_insert in Hf'. case_decide as E.
    + simplify_eq. rewrite Hz by done. rewrite lookup_insert_ne by (intros [=]; lia).
      split; [|done]. change (present 0) with false. cbv iota.
      destruct (T !! (S (S l), 512 * (512 * n + i) + j)) as [x|] eqn:Ex; [|done].
      apply Hpar in Ex as [Ex _]. replace ((512 * (512 * n + i) + j) / 512) with (512 * n + i) in Ex
        by (Z.div_mod_to_equations; lia). rewrite Hnone in Ex. by destruct Ex.
    + destruct (decide (f' = f /\ j = i)) as [[-> ->]|Hne'].
      * assert ((l', n') = (l, n)) as [= -> ->] by (by eapply Hinj).
        rewrite lookup_insert_eq, Hp, Hpf. done.
      * assert (f' <> pfn) by (intros ->; by eapply Hfresh).
        rewrite Hsame by done. rewrite lookup_insert_ne; [by apply Hch|].
        intros [= -> Heq]. assert (n = n') as -> by (Z.div_mod_to_equations; lia).
        apply Hne'. split; [congruence|lia].
  - intros l' n' f'. rewrite lookup_insert. case_decide as E.
    + simplify_eq. intros _. replace ((512 * n + i) / 512) with n by (Z.div_mod_to_equations; lia).
      split; [rewrite lookup_insert_ne by (intros [=]; lia); by eexists|].
      intros [-> Heq]. change (level_size 0) with 1 in Hn. apply Hrec0. split; [done|lia].
    + intros [[g Hg] Hne]%Hpar. split; [|done]. rewrite lookup_insert. case_decide; eauto.
  - assert (root t <> pfn) by (intros E; apply (Hfresh (0%nat, 0)); congruence).
    assert (~ (root t = f /\ 510 = i)).
    { intros [<- <-]. assert ((0%nat, 0) = (l, n)) as [= <- <-] by (by eapply Hinj). by apply Hrec0. }
    by rewrite Hsame by (done || lia).
Qed.

(** ** The entries a range of pages passes through *)

Lemma ent_mono l v v' : v <= v' -> ent l v <= ent l v'.
Proof.
  intros Hv. unfold ent. destruct (decide (Z.of_nat l <= 3)).
  - apply Z.div_le_mono; [apply Z.pow_pos_nonneg; lia|done].
  - rewrite Z.pow_neg_r by lia. by rewrite !Zdiv_0_r.
Qed.

Lemma ent_bounds l v : (l <= 3)%nat -> 0 <= v < 2 ^ 36 -> 0 <= ent l v < level_size (S l).
Proof.
  intros Hl Hv. unfold ent.
  destruct l as [|[|[|[|]]]]; [| | | |lia].
  - change (level_size 1) with 512. change (512 ^ (3 - Z.of_nat 0)) with (2 ^ 27). Z.div_mod_to_equations; lia.
  - change (level_size 2) with (2 ^ 18). change (512 ^ (3 - Z.of_nat 1)) with (2 ^ 18). Z.div_mod_to_equations; lia.
  - change (level_size 3) with (2 ^ 27). change (512 ^ (3 - Z.of_nat 2)) with 512. Z.div_mod_to_equations; lia.
  - change (level_size 4) with (2 ^ 36). change (512 ^ (3 - Z.of_nat 3)) with 1. rewrite Z.div_1_r. lia.
Qed.

Lemma ent_3 v : ent 3 v = v.
Proof. unfold ent. change (512 ^ (3 - Z.of_nat 3)) with 1. apply Z.div_1_r. Qed.

Lemma ent_parent l v : (l <= 2)%nat -> ent (S l) v / 512 = ent l v.
Proof.
  intros Hl. unfold ent. rewrite Z.div_div; [|apply Z.pow_nonzero; lia|lia]. f_equal.
  rewrite Z.mul_comm, <- Z.pow_succ_r by lia. f_equal. lia.
Qed.

(** The entries of level [l] that the allocation of a range looks at. *)
(** ** Growing the tree with frames of the allocator *)

Section Grow.
Context (mb : Z -> page_t).

Record pt_inv (k : kmem_info_t) (t : ptm_t) (T : table_map) : Prop := {
  pt_tree : tree_ok t T;
  pt_buddy : buddy_inv k;
  pt_coalesced : coalesced k;
  pt_limit : npages k <= 2 ^ 36;
  pt_used : forall a f, T !! a = Some f -> f ∉ frames k;
}.

(** The order-0 blocks of a list of frames. *)
Definition blocks (fs : list Z) : list (Z * nat) := (fun f => (f, 0%nat)) <$> fs.

(** Where tables may be added. *)
Context (Q : nat * Z -> Prop).

(** From [(k, t, T)] to [(k', t', T')] the tables in the frames [fs] were added, which were
    taken from the allocator one by one, at places of [Q]; no page changed its entry and no memory but the
    tables was written. *)
Record grown (k : kmem_info_t) (t : ptm_t) (T : table_map) (k' : kmem_info_t) (t' : ptm_t)
    (T' : table_map) (fs : list Z) : Prop := {
  gr_inv : pt_inv k' t' T';
  gr_cr3 : cr3 t' = cr3 t;
  gr_tree : T ⊆ T';
  gr_new : forall a f, T' !! a = Some f -> T !! a = Some f \/ f ∈ fs;
  gr_where : forall a f, T' !! a = Some f -> T !! a = Some f \/ Q a;
  gr_fs : forall f, f ∈ fs -> exists a, T' !! a = Some f;
  gr_frames : frames k ≡ₚ fs ++ frames k';
  gr_steps : forall live, rtc (pmm_step mb) (k, live) (k', blocks fs ++ live);
  gr_npages : npages k' = npages k;
  gr_pte : forall v, pte_of t' T' v = pte_of t T v;
  gr_mem : forall g j, 0 <= j < 512 -> g ∉ fs -> (forall a, T !! a <> Some g) ->
    entry (pmem t') g j = entry (pmem t) g j;
}.

Lemma grown_refl k t T : pt_inv k t T -> grown k t T k t T [].
Proof. intros H. constructor; try done; [by left|by left|by intros f ?%not_elem_of_nil]. Qed.

Lemma grown_trans k t T k1 t1 T1 fs1 k2 t2 T2 fs2 :
  grown k t T k1 t1 T1 fs1 -> grown k1 t1 T1 k2 t2 T2 fs2 -> grown k t T k2 t2 T2 (fs2 ++ fs1).
Proof.
  intros G1 G2. constructor.
  - apply G2.
  - rewrite (gr_cr3 _ _ _ _ _ _ _ G2). apply G1.
  - etrans; [apply G1|apply G2].
  - intros a f [H|H]%(gr_new _ _ _ _ _ _ _ G2); [|right; set_solver].
    apply (gr_new _ _ _ _ _ _ _ G1) in H as [H|H]; [by left|right; set_solver].
  - intros a f [H|H]%(gr_where _ _ _ _ _ _ _ G2); [|by right]. by apply (gr_where _ _ _ _ _ _ _ G1) in H.
  - intros f [Hf|Hf]%elem_of_app; [by apply G2|].
    destruct (gr_fs _ _ _ _ _ _ _ G1 f Hf) as [a Ha]. exists a. by eapply lookup_weaken; [|apply G2].
  - rewrite (gr_frames _ _ _ _ _ _ _ G1), (gr_frames _ _ _ _ _ _ _ G2).
    rewrite !app_assoc. f_equiv. apply Permutation_app_comm.
  - intros live. etrans; [apply G1|]. unfold blocks. rewrite fmap_app, <- app_assoc. apply G2.
  - rewrite (gr_npages _ _ _ _ _ _ _ G2). apply G1.
  - intros v. rewrite (gr_pte _ _ _ _ _ _ _ G2). apply G1.
  - intros g j Hj Hg HT. rewrite (gr_mem _ _ _ _ _ _ _ G2).
    + apply G1; [done|set_solver|done].
    + done.
    + set_solver.
    + intros a [H|H]%(gr_new _ _ _ _ _ _ _ G1); [by eapply HT|set_solver].
Qed.

(** One page from the allocator. *)
Lemma alloc_page_spec k :
  buddy_inv k -> coalesced k ->
  match pmm_alloc_page mb k with
  | (k', Pfn p) => buddy_inv k' /\ coalesced k' /\ frames k ≡ₚ p :: frames k' /\
      npages k' = npages k /\ 0 <= p < npages k /\
      forall live, pmm_step mb (k, live) (k', (p, 0%nat) :: live)
  | _ => frames k = []
  end.
Proof.
  intros Hinv Hc. unfold pmm_alloc_page.
  assert (0 < 1) as H1 by lia.
  destruct (pmm_alloc_pages mb k 1) as [k' r] eqn:E.
  pose proof (fun p => step_alloc mb k k' 1 p) as Hstep. rewrite E in Hstep.
  unfold pmm_alloc_pages in E. simpl (1 =? 0) in E. cbv iota in E.
  rewrite (bi_total k Hinv) in E. destruct (_ <? 1) eqn:Elt; breflect.
  { injection E as <- <-. destruct (frames k); [done|simpl in Elt; lia]. }
  pose proof (buddy_alloc_spec mb k 1 Hinv Hc ltac:(done)) as H.
  destruct (_buddy_alloc_pages mb k 1) as [k1 [p|]].
  - destruct H as ((Hinv' & Hok & Hnd) & Hc' & Hfr & Hord & Hlim & _).
    rewrite (inv_block_pfn Hinv' mb _ _ Hok) in E. injection E as <- <-.
    change (alloc_order 1) with 0%nat in *. change (seqZ p (pages_of 0)) with [0 + p] in Hfr.
    rewrite Z.add_0_l in Hfr. unfold npages in *. split_and!; try done.
    + by rewrite Hlim.
    + destruct Hok as (_ & _ & ? & ?). lia.
    + destruct Hok as (_ & _ & ? & Hb). unfold npages in Hb. rewrite Hlim in Hb. change (pages_of 0) with 1 in Hb. lia.
    + intros live. by apply (Hstep p).
  - injection E as <- <-. destruct H as [_ H]. change (alloc_order 1) with 0%nat in H.
    destruct (frames k) as [|x l] eqn:Ef; [done|]. exfalso.
    assert (x ∈ frames k) as (o & p & Hp & _)%elem_of_frames by (rewrite Ef; left).
    rewrite H in Hp by lia. by apply not_elem_of_nil in Hp.
Qed.

(** Zeroing the table behind entry [e] of level [l], reached through the entry itself. *)
Lemma vzero_table t T l e f n : forall m w pfn,
  tree_ok t T -> T !! (l, e / 512) = Some f -> (l <= 2)%nat -> 0 <= e < level_size (S l) ->
  agrees t T m l -> present (entry m f (e mod 512)) = true -> large_page (entry m f (e mod 512)) = false ->
  page_frame (entry m f (e mod 512)) = pfn -> (forall a, T !! a <> Some pfn) ->
  0 <= w -> w + Z.of_nat n <= 512 ->
  vzero n (Ptm m (cr3 t)) (u64 (mi_pte_to_ptr (eptr l e) + 8 * w)) =
  Some (Ptm (pzero n m (pfn * PT_ENTRY_COUNT + w)) (cr3 t)).
Proof.
  induction n as [|n IH]; intros m w pfn Ht Hf Hl He Ha Hp Hg Hpf Hfresh Hw Hn; [done|].
  cbn [vzero pzero]. destruct (table_ptr l e w) as (Hi & Ho & Hs); [lia..|]. rewrite Hs.
  unfold vwrite, translate. cbn [pmem]. unfold root at 1. cbn [cr3]. fold (root t).
  rewrite Hi, Ho. cbn [digits]. rewrite walk_app, (walk_rec t T) by (done || by apply (agrees_le _ _ _ l); [lia|]).
  cbn [mbind option_bind]. rewrite walk_app, (walk_digits t T m l _ f) by done.
  cbn [mbind option_bind]. rewrite walk_one, Hp, Hpf by done. cbn [mbind option_bind].
  replace ((pfn * PAGE_SIZE + 8 * w) / 8) with (pfn * PT_ENTRY_COUNT + w)
    by (unfold PAGE_SIZE, PT_ENTRY_COUNT; Z.div_mod_to_equations; lia).
  replace (pfn * PT_ENTRY_COUNT + w + 1) with (pfn * PT_ENTRY_COUNT + (w + 1)) by lia.
  assert (forall a g j, T !! a = Some g -> 0 <= j < 512 ->
    entry (<[pfn * PT_ENTRY_COUNT + w := 0]> m) g j = entry m g j) as Hsame.
  { intros a g j Hga Hj. rewrite entry_insert by lia. rewrite decide_False; [done|].
    intros [-> _]. by eapply Hfresh. }
  assert (0 <= e mod 512 < 512) as Hm by (apply Z.mod_pos_bound; lia).
  apply IH; rewrite ?(Hsame _ _ _ Hf Hm); try done; [|lia..].
  destruct Ha as [Ha1 Ha2]. split.
  - rewrite (Hsame (0%nat, 0)); [done|apply Ht|lia].
  - intros l' n' g j Hl' Hg' Hj. rewrite (Hsame _ _ _ Hg' Hj). by eapply Ha2.
Qed.

(** What the stores of the three upper levels have in common, for flags that make
    the entry present and no large page. *)
Definition table_store (set : Z -> Z -> Z -> Z) (flags : Z) : Prop :=
  forall e pfn, large_page e = false ->
    present (set e pfn flags) = true /\ large_page (set e pfn flags) = false /\
    page_frame (set e pfn flags) = pfn mod 2 ^ 36.

(** Behind the absent entry [e] of level [l], in frame [f], a zeroed table is added in a
    frame that the allocator gave. *)
Lemma grown_table k t T k' l e f e' pfn m' :
  pt_inv k t T -> Q (S l, e) -> (l <= 2)%nat -> 0 <= e < level_size (S l) -> ~ (l = 0%nat /\ e = 510) ->
  T !! (l, e / 512) = Some f -> present (entry (pmem t) f (e mod 512)) = false ->
  buddy_inv k' -> coalesced k' -> frames k ≡ₚ pfn :: frames k' -> npages k' = npages k ->
  0 <= pfn < npages k -> (forall live, pmm_step mb (k, live) (k', (pfn, 0%nat) :: live)) ->
  present e' = true -> page_frame e' = pfn -> large_page e' = false ->
  (forall g j, 0 <= j < 512 -> entry m' g j =
     if decide (g = pfn) then 0 else if decide (g = f /\ j = e mod 512) then e' else entry (pmem t) g j) ->
  grown k t T k' (Ptm m' (cr3 t)) (<[(S l, e) := pfn]> T) [pfn].
Proof.
  intros [Ht Hb Hc Hlim Hu] HQ Hl He Hne Hf Hpres Hb' Hc' Hfr Hnp Hpfn Hstep Hp' Hf' Hl' Hmem.
  assert (forall a, T !! a <> Some pfn) as Hfresh.
  { intros a Ha. apply (Hu a pfn Ha). rewrite Hfr. left. }
  assert (f <> pfn) as Hfp by (intros ->; by eapply Hfresh).
  assert (0 <= e mod 512 < 512) as Hm by (apply Z.mod_pos_bound; lia).
  assert (~ (l = 0%nat /\ e mod 512 = 510)) as Hne'.
  { intros [-> E]. apply Hne. split; [done|]. change (level_size 1) with 512 in He. Z.div_mod_to_equations; lia. }
  destruct (tr_child t T Ht l (e / 512) f (e mod 512) Hf ltac:(lia) Hm Hne') as [Hch _].
  rewrite Hpres, <- Z.div_mod in Hch by lia.
  assert (entry m' f (e mod 512) = e') as Hm'
    by (by rewrite Hmem, decide_False, decide_True by done).
  assert (tree_ok (Ptm m' (cr3 t)) (<[(S l, e) := pfn]> T)) as Ht'.
  { replace (S l, e) with (S l, 512 * (e / 512) + e mod 512) by (rewrite <- Z.div_mod by lia; done).
    apply (tree_grow t T l (e / 512) f (e mod 512) pfn); rewrite ?Hm'; try done; try lia.
    - intros j Hj. by rewrite Hmem, decide_True by done.
    - intros g j Hj Hg Hgj. by rewrite Hmem, !decide_False by done. }
  constructor; try done; cbn [pmem].
  - constructor; try done; [by rewrite Hnp|].
    intros a g. rewrite lookup_insert. case_decide as E.
    + intros [= <-] Hin. pose proof (bi_frames k Hb) as Hnd. rewrite Hfr in Hnd.
      by apply NoDup_cons in Hnd as [? _].
    + intros Hg Hin. apply (Hu a g Hg). rewrite Hfr. by right.
  - by apply insert_subseteq.
  - intros a g. rewrite lookup_insert. case_decide; [intros [= <-]; right; left|by left].
  - intros a g. rewrite lookup_insert. case_decide as E; [by subst a; right|by left].
  - intros g ->%list_elem_of_singleton. exists (S l, e). apply lookup_insert_eq.
  - intros live. by apply rtc_once.
  - intros v. assert (0 <= v mod 512 < 512) as Hv by (apply Z.mod_pos_bound; lia).
    unfold pte_of. cbn [pmem]. rewrite lookup_insert. case_decide as E.
    + injection E as -> ->. by rewrite Hch, Hmem, decide_True by done.
    + destruct (T !! (3%nat, v / 512)) as [g|] eqn:Hg; [|done].
      rewrite Hmem by done. rewrite decide_False by (intros ->; by eapply Hfresh).
      rewrite decide_False; [done|]. intros [-> _].
      assert ((3%nat, v / 512) = (l, e / 512)) as [= <- _] by (by eapply (tr_inj t T Ht)). lia.
  - intros g j Hj Hg HT. rewrite Hmem by done.
    rewrite decide_False by (intros ->; apply Hg; left).
    rewrite decide_False; [done|]. intros [-> _]. by eapply HT.
Qed.

Lemma Ptm_eta t : Ptm (pmem t) (cr3 t) = t.
Proof. by destruct t. Qed.

(** Reading and writing an entry through its pointer. *)
Lemma entry_access t T l e f :
  tree_ok t T -> (l <= 3)%nat -> 0 <= e < level_size (S l) -> T !! (l, e / 512) = Some f ->
  vread t (eptr l e) = Some (entry (pmem t) f (e mod 512)) /\
  forall v, vwrite t (eptr l e) v = Some (Ptm (<[f * PT_ENTRY_COUNT + e mod 512 := v]> (pmem t)) (cr3 t)).
Proof.
  intros Ht Hl He Hf.
  pose proof (eptr_translate t T (pmem t) l e f Ht (agrees_refl _ _ _) Hl He Hf) as Htr.
  rewrite Ptm_eta in Htr. unfold vread, vwrite. rewrite Htr. cbn [mbind option_bind].
  by rewrite Z.div_mul by lia.
Qed.

(** One round of the loop. *)
Lemma alloc_entry_spec set flags k t T l e :
  pt_inv k t T -> table_store set flags -> Q (S l, e) -> (l <= 2)%nat -> 0 <= e < level_size (S l) ->
  ~ (l = 0%nat /\ e = 510) -> is_Some (T !! (l, e / 512)) ->
  match alloc_entries mb set 1 (k, t) (eptr l e) flags with
  | Some (k', t') => exists T' fs, grown k t T k' t' T' fs /\ (length fs <= 1)%nat /\ is_Some (T' !! (S l, e))
  | None => frames k = []
  end.
Proof.
  intros Hinv Hset HQ Hl He Hne [f Hf]. pose proof Hinv as [Ht Hb Hc Hlim Hu]. cbn [alloc_entries fst snd].
  assert (0 <= e mod 512 < 512) as Hm by (apply Z.mod_pos_bound; lia).
  destruct (entry_access t T l e f Ht ltac:(lia) He Hf) as [-> Hw]. cbn [mbind option_bind].
  destruct (tr_child t T Ht l (e / 512) f (e mod 512) Hf) as [Hch Hlg]; [lia|done| |].
  { intros [-> Hm']. apply Hne. split; [done|]. change (level_size 1) with 512 in He. Z.div_mod_to_equations; lia. }
  rewrite <- Z.div_mod in Hch by lia.
  destruct (present (entry (pmem t) f (e mod 512))) eqn:Hpres.
  { exists T, []. split_and!; [by apply grown_refl|simpl; lia|]. rewrite Hch. by eexists. }
  pose proof (alloc_page_spec k Hb Hc) as Hal.
  destruct (pmm_alloc_page mb k) as [k' [pfn| |]]; [|done..].
  destruct Hal as (Hb' & Hc' & Hfr & Hnp & Hpfn & Hstep). rewrite Hw. cbn [mbind option_bind].
  assert (forall a, T !! a <> Some pfn) as Hfresh.
  { intros a Ha. apply (Hu a pfn Ha). rewrite Hfr. left. }
  destruct (Hset (entry (pmem t) f (e mod 512)) pfn Hlg) as (Hp' & Hl' & Hf').
  rewrite (Z.mod_small pfn) in Hf' by lia.
  set (e' := set (entry (pmem t) f (e mod 512)) pfn flags) in *.
  set (m1 := <[f * PT_ENTRY_COUNT + e mod 512 := e']> (pmem t)) in *.
  assert (forall g j, 0 <= j < 512 -> entry m1 g j =
    if decide (g = f /\ j = e mod 512) then e' else entry (pmem t) g j) as Hm1
    by (intros g j Hj; unfold m1; by rewrite entry_insert by done).
  assert (mi_pte_to_ptr (eptr l e) = u64 (mi_pte_to_ptr (eptr l e) + 8 * 0)) as ->.
  { rewrite Z.mul_0_r, Z.add_0_r. unfold mi_pte_to_ptr, u64. by rewrite Zmod_mod. }
  rewrite (vzero_table t T l e f page_words m1 0 pfn); rewrite ?Hm1, ?decide_True by done; try done.
  - cbn [mbind option_bind]. eexists _, [pfn].
    split_and!; [|simpl; lia|rewrite lookup_insert_eq; by eexists].
    eapply (grown_table k t T k' l e f e' pfn); try done.
    intros g j Hj. rewrite entry_pzero by (unfold page_words; lia). rewrite Hm1 by done.
    unfold page_words. repeat case_decide; try done; lia.
  - split.
    + rewrite Hm1 by lia. rewrite decide_False; [done|]. intros [<- E].
      assert ((0%nat, 0) = (l, e / 512)) as [= <- E0] by (eapply (tr_inj t T Ht); [apply Ht|done]).
      apply Hne. split; [done|]. Z.div_mod_to_equations; lia.
    + intros l' n g j Hl1 Hg Hj. rewrite Hm1 by done. rewrite decide_False; [done|].
      intros [-> ->]. assert ((l', n) = (l, e / 512)) as [= -> _] by (by eapply (tr_inj t T Ht)). lia.
Qed.

Lemma alloc_entries_S set n s p flags :
  alloc_entries mb set (S n) s p flags =
  s ← alloc_entries mb set 1 s p flags; alloc_entries mb set n s (u64 (p + 8)) flags.
Proof.
  cbn [alloc_entries]. destruct (vread s.2 p) as [e|]; [|done]. cbn [mbind option_bind].
  destruct (present e); [done|]. destruct (pmm_alloc_page mb s.1) as [k [pfn| |]]; [|done..].
  destruct (vwrite s.2 p _) as [t|]; [|done]. cbn [mbind option_bind]. by destruct (vzero _ _ _).
Qed.

Lemma alloc_entries_spec set flags l n : forall k t T e,
  pt_inv k t T -> table_store set flags -> (l <= 2)%nat -> 0 <= e -> e + Z.of_nat n <= level_size (S l) ->
  (forall x, e <= x < e + Z.of_nat n -> Q (S l, x)) ->
  (forall x, e <= x < e + Z.of_nat n -> ~ (l = 0%nat /\ x = 510) /\ is_Some (T !! (l, x / 512))) ->
  match alloc_entries mb set n (k, t) (eptr l e) flags with
  | Some (k', t') => exists T' fs, grown k t T k' t' T' fs /\ (length fs <= n)%nat /\
      forall x, e <= x < e + Z.of_nat n -> is_Some (T' !! (S l, x))
  | None => (length (frames k) < n)%nat
  end.
Proof.
  induction n as [|n IH]; intros k t T e Hinv Hset Hl He Hn HQ Hx.
  { exists T, []. split_and!; [by apply grown_refl|done|lia]. }
  destruct (Hx e ltac:(lia)) as [Hne Hp]. rewrite alloc_entries_S.
  pose proof (alloc_entry_spec set flags k t T l e Hinv Hset (HQ e ltac:(lia)) Hl ltac:(lia) Hne Hp) as H1.
  destruct (alloc_entries mb set 1 (k, t) (eptr l e) flags) as [[k1 t1]|]; cbn [mbind option_bind].
  2:{ rewrite H1. simpl. lia. }
  destruct H1 as (T1 & fs1 & G1 & Hl1 & He1). rewrite eptr_succ by lia.
  specialize (IH k1 t1 T1 (e + 1) (gr_inv _ _ _ _ _ _ _ G1) Hset Hl ltac:(lia) ltac:(lia) ltac:(intros x Hxr; apply HQ; lia)).
  pose proof (gr_frames _ _ _ _ _ _ _ G1) as Hfr. apply Permutation_length in Hfr. rewrite length_app in Hfr.
  destruct (alloc_entries mb set n (k1, t1) (eptr l (e + 1)) flags) as [[k2 t2]|].
  - destruct IH as (T2 & fs2 & G2 & Hl2 & He2).
    { intros x Hxr. destruct (Hx x ltac:(lia)) as [? Hs]. split; [done|].
      destruct Hs as [g Hg]. exists g. by eapply lookup_weaken; [|apply G1]. }
    exists T2, (fs2 ++ fs1). split_and!; [by eapply grown_trans|rewrite length_app; lia|].
    intros x Hxr. destruct (decide (x = e)) as [->|]; [|apply He2; lia].
    destruct He1 as [g Hg]. exists g. by eapply lookup_weaken; [|apply G2].
  - assert (length (frames k1) < n)%nat; [|lia]. apply IH. intros x Hxr.
    destruct (Hx x ltac:(lia)) as [? [g Hg]]. split; [done|]. exists g. by eapply lookup_weaken; [|apply G1].
Qed.

(** *** The ranges of the callers *)

(** [n] pages from the aligned address [va] on, none of them, nor the page behind
    them, in the recursive area. *)
Record page_range (va n : Z) : Prop := {
  rg_va : 0 <= va < 2 ^ 64;
  rg_aligned : (4096 | va);
  rg_n : 0 <= n < 2 ^ 20;
  rg_end : vpn va + n < 2 ^ 36;
  rg_rec : forall v, vpn va <= v <= vpn va + n -> v / 2 ^ 27 <> 510;
}.

Lemma range_vpn va n : page_range va n -> vpn (u64 (va + n * 4096)) = vpn va + n.
Proof.
  intros [Hva [q ->] Hn He _]. unfold vpn in *.
  rewrite Z.div_mul in * by lia. unfold u64. Z.div_mod_to_equations. lia.
Qed.

Lemma range_end_eq va n : page_range va n -> range_end va n = u64 (va + n * 4096).
Proof.
  intros Hr. unfold range_end, PAGE_SIZE. destruct Hr. rewrite (u32_small n) by lia.
  rewrite u32_small by lia. done.
Qed.

Definition entries_of (l : nat) (v n : Z) : nat := S (Z.to_nat (ent l (v + n) - ent l v)).

Lemma count_le_eptr l e e' :
  e <= e' -> count_le (eptr l e) (eptr l e') = S (Z.to_nat (e' - e)).
Proof.
  intros He. unfold count_le, eptr. rewrite (proj2 (Z.ltb_ge _ _)) by lia. do 2 f_equal.
  Z.div_mod_to_equations; lia.
Qed.

(** The function of one level. *)
Definition alloc_level (l : nat) : kmem_info_t * ptm_t -> Z -> Z -> Z -> option (kmem_info_t * ptm_t) :=
  match l with
  | 0%nat => ptm_alloc_pml4es mb
  | 1%nat => ptm_alloc_pdptes mb
  | _ => ptm_alloc_pdes mb
  end.

Lemma alloc_level_entries l s va n flags :
  (l <= 2)%nat -> page_range va n ->
  alloc_level l s va n flags =
  alloc_entries mb (match l with O => set_pml4e | _ => set_pdpte end) (entries_of l (vpn va) n) s
    (eptr l (ent l (vpn va))) flags.
Proof.
  intros Hl Hr. pose proof (mi_ptr_to_eptr l va ltac:(lia)) as E1.
  pose proof (mi_ptr_to_eptr l (range_end va n) ltac:(lia)) as E2.
  rewrite range_end_eq, range_vpn in E2 by done.
  pose proof (count_le_eptr l _ _ (ent_mono l (vpn va) (vpn va + n) ltac:(destruct Hr; lia))) as Hc.
  unfold entries_of. rewrite <- Hc, <- E1, <- E2.
  destruct l as [|[|[|]]]; [| | |lia]; cbn [alloc_level mi_ptr_to];
    unfold ptm_alloc_pml4es, ptm_alloc_pdptes, ptm_alloc_pdes; by rewrite range_end_eq.
Qed.

Lemma table_store_ok l flags :
  Z.testbit flags 0 = true -> Z.testbit flags 7 = false ->
  table_store (match l with O => set_pml4e | _ => set_pdpte end) flags.
Proof.
  intros H0 H7 e pfn He. destruct l.
  - destruct (set_pml4e_spec e pfn flags) as (-> & -> & ->). done.
  - destruct (set_pdpte_spec e pfn flags) as (-> & -> & ->). done.
Qed.

(** The tables on the paths to the pages from [v] to [v + n] may be added. *)
Definition may_add (v n : Z) : Prop := forall l x, (l <= 2)%nat -> ent l v <= x <= ent l (v + n) -> Q (S l, x).

(** The tables of level [l] on the paths to the pages from [v] to [v + n]. *)
Definition level_done (T : table_map) (l : nat) (v n : Z) : Prop :=
  forall x, ent l v <= x <= ent l (v + n) -> is_Some (T !! (S l, x)).

Lemma alloc_level_spec l k t T va n flags :
  pt_inv k t T -> page_range va n -> may_add (vpn va) n -> Z.testbit flags 0 = true -> Z.testbit flags 7 = false -> (l <= 2)%nat ->
  match l with O => True | S l' => level_done T l' (vpn va) n end ->
  match alloc_level l (k, t) va n flags with
  | Some (k', t') => exists T' fs, grown k t T k' t' T' fs /\
      (length fs <= entries_of l (vpn va) n)%nat /\ level_done T' l (vpn va) n
  | None => (length (frames k) < entries_of l (vpn va) n)%nat
  end.
Proof.
  intros Hinv Hr HQ H0 H7 Hl Hprev. rewrite alloc_level_entries by done.
  pose proof Hr as [_ _ Hn He Hrec]. pose proof (vpn_range va) as Hv.
  pose proof (ent_mono l (vpn va) (vpn va + n) ltac:(lia)) as Hm.
  pose proof (ent_bounds l (vpn va) ltac:(lia) Hv) as [Hb1 _].
  pose proof (ent_bounds l (vpn va + n) ltac:(lia) ltac:(lia)) as [_ Hb2].
  assert (forall x, ent l (vpn va) <= x <= ent l (vpn va + n) ->
    ~ (l = 0%nat /\ x = 510) /\ is_Some (T !! (l, x / 512))) as Hx.
  { intros x Hx. destruct l as [|l].
    - change (level_size 1) with 512 in *. unfold ent in *. change (512 ^ (3 - Z.of_nat 0)) with (2 ^ 27) in *.
      split; [|rewrite Z.div_small by lia; eexists; apply Hinv].
      intros [_ ->]. destruct (decide (vpn va <= 510 * 2 ^ 27)) as [Hc|Hc].
      + apply (Hrec (510 * 2 ^ 27)); [|done]. Z.div_mod_to_equations; lia.
      + apply (Hrec (vpn va)); [lia|]. Z.div_mod_to_equations; lia.
    - split; [lia|]. apply Hprev. rewrite <- !(ent_parent l) by lia.
      split; apply Z.div_le_mono; lia. }
  pose proof (alloc_entries_spec (match l with O => set_pml4e | _ => set_pdpte end) flags l
    (entries_of l (vpn va) n) k t T (ent l (vpn va)) Hinv (table_store_ok l flags H0 H7) Hl Hb1) as H.
  unfold entries_of in *. specialize (H ltac:(lia)).
  specialize (H ltac:(intros x Hxr; apply HQ; [done|lia])). specialize (H ltac:(intros x Hxr; apply Hx; lia)).
  destruct (alloc_entries _ _ _ _ _ _) as [[k' t']|]; [|done].
  destruct H as (T' & fs & G & Hlen & Hd). exists T', fs. split_and!; [done..|].
  intros x Hxr. apply Hd. lia.
Qed.

(** *** The page table entries *)

(** Memory outside the tables. *)
Definition same_data (T : table_map) (t t' : ptm_t) : Prop :=
  forall g j, 0 <= j < 512 -> (forall a, T !! a <> Some g) -> entry (pmem t') g j = entry (pmem t) g j.

(** A write to the entry of page [v]. *)
Lemma pte_write t T v f x :
  tree_ok t T -> 0 <= v < 2 ^ 36 -> T !! (3%nat, v / 512) = Some f ->
  vread t (eptr 3 v) = Some (pte_of t T v) /\
  exists t', vwrite t (eptr 3 v) x = Some t' /\ tree_ok t' T /\ cr3 t' = cr3 t /\ same_data T t t' /\
    forall v', pte_of t' T v' = if decide (v' = v) then x else pte_of t T v'.
Proof.
  intros Ht Hv Hf. assert (0 <= v mod 512 < 512) as Hm by (apply Z.mod_pos_bound; lia).
  destruct (entry_access t T 3 v f Ht ltac:(lia) Hv Hf) as [Hr Hw]. rewrite Hr.
  split; [unfold pte_of; by rewrite Hf|]. eexists. split; [apply Hw|]. split_and!; [| |intros g j Hj Hg|intros v'].
  - by eapply tree_leaf.
  - done.
  - cbn [pmem]. rewrite entry_insert, decide_False; [done| |done..]. intros [-> _]. by eapply Hg.
  - unfold pte_of. cbn [pmem]. destruct (decide (v' = v)) as [->|Hne].
    + rewrite Hf, entry_insert, decide_True by done. done.
    + destruct (T !! (3%nat, v' / 512)) as [g|] eqn:Hg; [|done].
      rewrite entry_insert, decide_False; [done| |done|apply Z.mod_pos_bound; lia].
      intros [-> E]. assert ((3%nat, v' / 512) = (3%nat, v / 512)) as [= E'] by (by eapply (tr_inj t T Ht)).
      apply Hne. Z.div_mod_to_equations; lia.
Qed.

Lemma map_ptes_spec T flags n : forall t v pfn,
  tree_ok t T -> 0 <= v -> v + Z.of_nat n <= 2 ^ 36 -> 0 <= pfn -> pfn + Z.of_nat n < 2 ^ 64 ->
  (forall x, v <= x < v + Z.of_nat n -> is_Some (T !! (3%nat, x / 512))) ->
  match map_ptes n t (eptr 3 v) pfn flags with
  | Some t' => tree_ok t' T /\ cr3 t' = cr3 t /\ same_data T t t' /\
      (forall x, v <= x < v + Z.of_nat n -> present (pte_of t T x) = false) /\
      forall x, pte_of t' T x =
        if decide (v <= x < v + Z.of_nat n) then set_pte (pfn + (x - v)) flags else pte_of t T x
  | None => exists x, v <= x < v + Z.of_nat n /\ present (pte_of t T x) = true
  end.
Proof.
  induction n as [|n IH]; intros t v pfn Ht Hv Hn Hp Hpn HT; cbn [map_ptes].
  { split_and!; try done; [lia|]. intros x. by rewrite decide_False by lia. }
  destruct (HT v ltac:(lia)) as [f Hf].
  destruct (pte_write t T v f (set_pte pfn flags) Ht ltac:(lia) Hf) as (-> & t1 & -> & Ht1 & Hc1 & Hd1 & Hpt1).
  cbn [mbind option_bind]. destruct (present (pte_of t T v)) eqn:Hpr; [exists v; split; [lia|done]|].
  rewrite eptr_succ by (change (level_size 4) with (2 ^ 36); lia). rewrite u64_small by lia.
  specialize (IH t1 (v + 1) (pfn + 1) Ht1 ltac:(lia) ltac:(lia) ltac:(lia) ltac:(lia)
    ltac:(intros x Hx; apply HT; lia)).
  destruct (map_ptes n t1 (eptr 3 (v + 1)) (pfn + 1) flags) as [t2|].
  - destruct IH as (Ht2 & Hc2 & Hd2 & Hab & Hpt2). split_and!; [done|congruence| | |].
    + intros g j Hj Hg. rewrite Hd2, Hd1 by done. done.
    + intros x Hx. destruct (decide (x = v)) as [->|]; [done|].
      rewrite <- (Hab x) by lia. by rewrite Hpt1, decide_False by done.
    + intros x. rewrite Hpt2, Hpt1. repeat case_decide; try lia; try done; f_equal; lia.
  - destruct IH as (x & Hx & Hpx). exists x. split; [lia|]. by rewrite Hpt1, decide_False in Hpx by lia.
Qed.

(** Unmapping gives the frames of the pages, allocated one by one, back to the allocator. *)
Definition frame_of (t : ptm_t) (T : table_map) (v : Z) : Z := page_frame (pte_of t T v).

Lemma unmap_ptes_spec T n : forall k t v live live',
  tree_ok t T -> 0 <= v -> v + Z.of_nat n <= 2 ^ 36 ->
  (forall x, v <= x < v + Z.of_nat n -> present (pte_of t T x) = true) ->
  live ≡ₚ blocks (frame_of t T <$> seqZ v (Z.of_nat n)) ++ live' ->
  exists k' t' live2, unmap_ptes mb n (k, t) (eptr 3 v) = Some (k', t') /\ tree_ok t' T /\ cr3 t' = cr3 t /\
    same_data T t t' /\ live2 ≡ₚ live' /\ rtc (pmm_step mb) (k, live) (k', live2) /\
    forall x, pte_of t' T x = if decide (v <= x < v + Z.of_nat n) then 0 else pte_of t T x.
Proof.
  induction n as [|n IH]; intros k t v live live' Ht Hv Hn HT Hlive; cbn [unmap_ptes fst snd].
  { exists k, t, live. split_and!; try done. intros x. by rewrite decide_False by lia. }
  pose proof (HT v ltac:(lia)) as Hp.
  destruct (T !! (3%nat, v / 512)) as [f|] eqn:Hf; [|unfold pte_of in Hp; by rewrite Hf in Hp].
  destruct (pte_write t T v f 0 Ht ltac:(lia) Hf) as (-> & t1 & Hw & Ht1 & Hc1 & Hd1 & Hpt1).
  cbn [mbind option_bind]. rewrite Hp, Hw. cbn [mbind option_bind].
  rewrite eptr_succ by (change (level_size 4) with (2 ^ 36); lia).
  fold (frame_of t T v). rewrite seqZ_cons in Hlive by lia. replace (Z.pred (Z.of_nat (S n))) with (Z.of_nat n) in Hlive by lia.
  change (Z.succ v) with (v + 1) in Hlive.
  destruct (IH (pmm_free_pages mb k (frame_of t T v)) t1 (v + 1)
    (blocks (frame_of t T <$> seqZ (v + 1) (Z.of_nat n)) ++ live') live' Ht1)
    as (k' & t' & live2 & -> & Ht' & Hc' & Hd' & Hl2 & Hsteps & Hpt'); [lia..| | |].
  - intros x Hx. rewrite Hpt1, decide_False by lia. apply HT. lia.
  - rewrite (list_fmap_ext (frame_of t T) (frame_of t1 T) (seqZ (v + 1) (Z.of_nat n))); [done|].
    intros i x Hx%list_elem_of_lookup_2%elem_of_seqZ. unfold frame_of. by rewrite Hpt1, decide_False by lia.
  - exists k', t', live2. split_and!; [done|done|congruence| |done| |].
    + intros g j Hj Hg. rewrite Hd', Hd1 by done. done.
    + eapply rtc_l; [|done]. by apply (step_free mb k (frame_of t T v) 0).
    + intros x. rewrite Hpt', Hpt1. repeat case_decide; try lia; done.
Qed.

(** The tables a mapping may need. *)
Definition tables_needed (va n : Z) : nat :=
  (entries_of 0 (vpn va) n + entries_of 1 (vpn va) n + entries_of 2 (vpn va) n)%nat.

(** The three upper levels. *)
Definition alloc_tables (s : kmem_info_t * ptm_t) (va n flags : Z) : option (kmem_info_t * ptm_t) :=
  s ← alloc_level 0 s va n flags; s ← alloc_level 1 s va n flags; alloc_level 2 s va n flags.

Lemma alloc_tables_spec k t T va n flags :
  pt_inv k t T -> page_range va n -> may_add (vpn va) n -> Z.testbit flags 0 = true -> Z.testbit flags 7 = false ->
  match alloc_tables (k, t) va n flags with
  | Some (k', t') => exists T' fs, grown k t T k' t' T' fs /\ (length fs <= tables_needed va n)%nat /\
      forall v, vpn va <= v < vpn va + n -> is_Some (T' !! (3%nat, v / 512))
  | None => (length (frames k) < tables_needed va n)%nat
  end.
Proof.
  intros Hinv Hr HQ H0 H7. unfold alloc_tables, tables_needed.
  pose proof (alloc_level_spec 0 k t T va n flags Hinv Hr HQ H0 H7 ltac:(lia) I) as A0.
  destruct (alloc_level 0 (k, t) va n flags) as [[k0 t0]|]; cbn [mbind option_bind]; [|lia].
  destruct A0 as (T0 & fs0 & G0 & L0 & D0).
  pose proof (alloc_level_spec 1 k0 t0 T0 va n flags (gr_inv _ _ _ _ _ _ _ G0) Hr HQ H0 H7 ltac:(lia) D0) as A1.
  pose proof (Permutation_length (gr_frames _ _ _ _ _ _ _ G0)) as F0. rewrite length_app in F0.
  destruct (alloc_level 1 (k0, t0) va n flags) as [[k1 t1]|]; cbn [mbind option_bind]; [|lia].
  destruct A1 as (T1 & fs1 & G1 & L1 & D1).
  pose proof (alloc_level_spec 2 k1 t1 T1 va n flags (gr_inv _ _ _ _ _ _ _ G1) Hr HQ H0 H7 ltac:(lia) D1) as A2.
  pose proof (Permutation_length (gr_frames _ _ _ _ _ _ _ G1)) as F1. rewrite length_app in F1.
  destruct (alloc_level 2 (k1, t1) va n flags) as [[k2 t2]|]; [|lia].
  destruct A2 as (T2 & fs2 & G2 & L2 & D2). exists T2, ((fs2 ++ fs1) ++ fs0). split_and!.
  - eapply grown_trans; [done|]. by eapply grown_trans.
  - rewrite !length_app. lia.
  - intros v Hv. apply D2. unfold ent. change (512 ^ (3 - Z.of_nat 2)) with 512.
    split; apply Z.div_le_mono; lia.
Qed.

Lemma map_pages_unfold s va pa n flags :
  page_range va n -> 0 <= pa < 2 ^ 64 ->
  map_pages mb s va pa n flags =
  s ← alloc_tables s va n flags;
  t ← map_ptes (Z.to_nat n) s.2 (eptr 3 (vpn va)) (pa / 4096) flags; Some (s.1, t).
Proof.
  intros Hr Hpa. unfold map_pages, alloc_tables, PAGE_SIZE, PAGE_SHIFT.
  change (mi_ptr_to_pte va) with (mi_ptr_to 3 va).
  change (mi_ptr_to_pte (u64 (va + n * 4096))) with (mi_ptr_to 3 (u64 (va + n * 4096))).
  rewrite !mi_ptr_to_eptr, range_vpn by (done || lia).
  rewrite !ent_3. replace (count_lt (eptr 3 (vpn va)) (eptr 3 (vpn va + n))) with (Z.to_nat n)
    by (unfold count_lt, eptr; f_equal; Z.div_mod_to_equations; lia).
  rewrite Z.shiftr_div_pow2 by lia. change (2 ^ 12) with 4096. cbn [alloc_level].
  destruct (ptm_alloc_pml4es mb s va n flags) as [s0|]; [|done]. cbn [mbind option_bind].
  by destruct (ptm_alloc_pdptes mb s0 va n flags) as [s1|].
Qed.

Lemma map_pages_spec k t T va pa n flags :
  pt_inv k t T -> page_range va n -> may_add (vpn va) n -> 0 <= pa < 2 ^ 64 ->
  Z.testbit flags 0 = true -> Z.testbit flags 7 = false ->
  match map_pages mb (k, t) va pa n flags with
  | Some (k', t') => exists t1 T' fs, grown k t T k' t1 T' fs /\ (length fs <= tables_needed va n)%nat /\
      pt_inv k' t' T' /\ cr3 t' = cr3 t /\ same_data T' t1 t' /\
      (forall v, vpn va <= v < vpn va + n -> present (pte_of t T v) = false) /\
      forall v, pte_of t' T' v =
        if decide (vpn va <= v < vpn va + n) then set_pte (pa / 4096 + (v - vpn va)) flags else pte_of t T v
  | None => (exists v, vpn va <= v < vpn va + n /\ present (pte_of t T v) = true) \/
            (length (frames k) < tables_needed va n)%nat
  end.
Proof.
  intros Hinv Hr HQ Hpa H0 H7. rewrite map_pages_unfold by done.
  pose proof (alloc_tables_spec k t T va n flags Hinv Hr HQ H0 H7) as A.
  destruct (alloc_tables (k, t) va n flags) as [[k' t1]|]; cbn [mbind option_bind fst snd]; [|by right].
  destruct A as (T' & fs & G & Hlen & HT). pose proof (gr_inv _ _ _ _ _ _ _ G) as Hinv'.
  pose proof Hr as [_ _ Hn He _]. pose proof (vpn_range va) as Hv.
  pose proof (map_ptes_spec T' flags (Z.to_nat n) t1 (vpn va) (pa / 4096) (pt_tree _ _ _ Hinv')) as M.
  rewrite Z2Nat.id in M by lia. specialize (M ltac:(lia) ltac:(lia)).
  specialize (M ltac:(Z.div_mod_to_equations; lia) ltac:(Z.div_mod_to_equations; lia) HT).
  destruct (map_ptes _ _ _ _ _) as [t'|]; cbn [mbind option_bind].
  - destruct M as (Ht' & Hc' & Hd' & Hab & Hpt). exists t1, T', fs.
    pose proof (gr_cr3 _ _ _ _ _ _ _ G) as Hc. split_and!; [done|done| |congruence|done| |].
    + destruct Hinv'. by constructor.
    + intros v Hvr. rewrite <- (gr_pte _ _ _ _ _ _ _ G). by apply Hab.
    + intros v. rewrite Hpt. by rewrite (gr_pte _ _ _ _ _ _ _ G).
  - left. destruct M as (x & Hx & Hpx). exists x. by rewrite <- (gr_pte _ _ _ _ _ _ _ G).
Qed.

End Grow.

Section Mapping.
Context (mb : Z -> page_t).

(** C29. Mapping.  In a well-formed tree [ptm_map_pages] of a range outside the recursive
    area either maps exactly the range: every address of page [i] is translated by
    the processor to the [i]-th frame from [pa] on, the translation of every other address
    is unchanged, the tables that were added came from the free frames, which lost
    nothing else, no memory but the tables was written, and the tree is well formed
    again; or it fails, and then a page of the range was mapped already or there are
    fewer free frames than tables the range can need. *)
Theorem map_pages_correct k t T va pa n flags :
  pt_inv k t T -> page_range va n -> 0 <= pa -> pa / 4096 + n <= 2 ^ 36 ->
  Z.testbit flags 0 = true -> Z.testbit flags 7 = false ->
  match map_pages mb (k, t) va pa n flags with
  | Some (k', t') => exists T' fs, pt_inv k' t' T' /\ T ⊆ T' /\ frames k ≡ₚ fs ++ frames k' /\
      (forall a f, T' !! a = Some f -> T !! a = Some f \/ f ∈ fs) /\
      (forall x, vpn x / 2 ^ 27 <> 510 -> translate t' x =
         if decide (vpn va <= vpn x < vpn va + n)
         then Some ((pa / 4096 + (vpn x - vpn va)) * PAGE_SIZE + PAGING_OFFSET x) else translate t x) /\
      (forall g j, 0 <= j < 512 -> (forall a, T' !! a <> Some g) -> entry (pmem t') g j = entry (pmem t) g j)
  | None => (exists v, vpn va <= v < vpn va + n /\ present (pte_of t T v) = true) \/
            (length (frames k) < tables_needed va n)%nat
  end.
Proof.
  intros Hinv Hr Hpa Hpn H0 H7.
  assert (0 <= pa < 2 ^ 64) as Hpa' by (destruct Hr; Z.div_mod_to_equations; lia).
  pose proof (map_pages_spec mb (fun _ => True) k t T va pa n flags Hinv Hr ltac:(done) Hpa' H0 H7) as H.
  destruct (map_pages mb (k, t) va pa n flags) as [[k' t']|]; [|done].
  destruct H as (t1 & T' & fs & G & _ & Hinv' & Hc & Hd & Hab & Hpt). exists T', fs.
  split_and!; [done|apply G..| |].
  - intros x Hx. rewrite (translate_pte t' T'), (translate_pte t T) by (done || apply Hinv' || apply Hinv).
    rewrite Hpt. case_decide as E; [|done].
    destruct (set_pte_spec (pa / 4096 + (vpn x - vpn va)) flags) as (-> & -> & _). rewrite H0.
    rewrite Z.mod_small by (Z.div_mod_to_equations; lia). done.
  - intros g j Hj Hg. rewrite Hd by done. apply G; [done| |].
    + intros Hin. destruct (gr_fs _ _ _ _ _ _ _ _ _ G g Hin) as [a Ha]. by apply (Hg a).
    + intros a Ha. apply (Hg a). by eapply lookup_weaken; [|apply G].
Qed.

(** What any mapping does to the frame allocator, on any tables. *)
Definition frames_taken (k k' : kmem_info_t) : Prop :=
  buddy_inv k -> coalesced k ->
  buddy_inv k' /\ coalesced k' /\ frames k' ⊆ frames k /\ phys_limit k' = phys_limit k.

Lemma frames_taken_trans k1 k2 k3 : frames_taken k1 k2 -> frames_taken k2 k3 -> frames_taken k1 k3.
Proof.
  intros H1 H2 Hb Hc. destruct (H1 Hb Hc) as (Hb' & Hc' & Hs & Hl).
  destruct (H2 Hb' Hc') as (? & ? & Hs' & ?). split_and!; [done..|by etrans|congruence].
Qed.

Lemma alloc_page_taken k k' pfn : pmm_alloc_page mb k = (k', Pfn pfn) -> frames_taken k k'.
Proof.
  intros E Hb Hc. unfold pmm_alloc_page, pmm_alloc_pages in E. simpl (1 =? 0) in E. cbv iota in E.
  destruct (_ <? 1); [done|]. pose proof (buddy_alloc_spec mb k 1 Hb Hc ltac:(done)) as H.
  destruct (_buddy_alloc_pages mb k 1) as [k1 [p|]]; [|done]. injection E as <- _.
  destruct H as ((? & _) & ? & Hfr & _ & ? & _). split_and!; try done.
  intros x Hx. rewrite Hfr, elem_of_app. by right.
Qed.

Lemma alloc_entries_taken set n : forall s p flags s',
  alloc_entries mb set n s p flags = Some s' -> frames_taken s.1 s'.1.
Proof.
  induction n as [|n IH]; intros [k t] p flags s' E; cbn [alloc_entries fst snd] in *.
  { injection E as <-. by intros ? ?. }
  destruct (vread t p) as [e|]; [|done]. cbn [mbind option_bind] in E.
  destruct (present e); [exact (IH _ _ _ _ E)|].
  destruct (pmm_alloc_page mb k) as [k1 [pfn| |]] eqn:Ea; [|done..].
  destruct (vwrite t p _) as [t1|]; [|done]. cbn [mbind option_bind] in E.
  destruct (vzero _ _ _) as [t2|]; [|done]. cbn [mbind option_bind] in E.
  eapply frames_taken_trans; [by eapply alloc_page_taken|exact (IH _ _ _ _ E)].
Qed.

Lemma map_pages_taken k t va pa n flags k' t' :
  map_pages mb (k, t) va pa n flags = Some (k', t') -> frames_taken k k'.
Proof.
  intros E. unfold map_pages, ptm_alloc_pml4es, ptm_alloc_pdptes, ptm_alloc_pdes in E.
  destruct (alloc_entries mb set_pml4e _ _ _ _) as [s0|] eqn:E0; [|done]. cbn [mbind option_bind] in E.
  destruct (alloc_entries mb set_pdpte _ s0 _ _) as [s1|] eqn:E1; [|done]. cbn [mbind option_bind] in E.
  destruct (alloc_entries mb set_pdpte _ s1 _ _) as [s2|] eqn:E2; [|done]. cbn [mbind option_bind] in E.
  destruct (map_ptes _ _ _ _ _) as [t3|]; [|done]. injection E as <- <-.
  eapply frames_taken_trans; [exact (alloc_entries_taken _ _ _ _ _ _ E0)|].
  eapply frames_taken_trans; [exact (alloc_entries_taken _ _ _ _ _ _ E1)|].
  exact (alloc_entries_taken _ _ _ _ _ _ E2).
Qed.

End Mapping.

(** ** The recursive area *)

Lemma take_digits l v :
  (l <= 3)%nat -> take l (digits 4 v) = digits l (ent l v / 512) /\ digits 4 v !! l = Some (ent l v mod 512).
Proof.
  intros Hl. unfold ent. destruct l as [|[|[|[|]]]]; [| | | |lia]; cbn [digits take app lookup list_lookup].
  - change (512 ^ (3 - Z.of_nat 0)) with (512 * 512 * 512). by rewrite <- !Z.div_div by lia.
  - change (512 ^ (3 - Z.of_nat 1)) with (512 * 512). by rewrite <- !Z.div_div by lia.
  - change (512 ^ (3 - Z.of_nat 2)) with 512. done.
  - change (512 ^ (3 - Z.of_nat 3)) with 1. by rewrite Z.div_1_r.
Qed.

(** The recursive entry pointers.  In a well-formed tree the pointer that
    [mi_ptr_to_pml4e], [mi_ptr_to_pdpte], [mi_ptr_to_pde] or [mi_ptr_to_pte] computes for an
    address outside the recursive area reads exactly the entry that a walk over the
    indices of the upper levels finds, and faults exactly when that walk does. *)
Theorem recursive_access t T va l :
  tree_ok t T -> vpn va / 2 ^ 27 <> 510 -> (l <= 3)%nat ->
  vread t (mi_ptr_to l va) =
  f ← walk (pmem t) 0 (root t) (take l (indices va)); i ← indices va !! l; Some (entry (pmem t) f i).
Proof.
  intros Ht Hv Hl. rewrite mi_ptr_to_eptr by done. rewrite indices_digits.
  pose proof (vpn_range va) as Hr. set (v := vpn va) in *.
  destruct (take_digits l v Hl) as [-> ->]. pose proof (ent_bounds l v Hl Hr) as He.
  assert (0 <= ent l v / 512 < level_size l) as He'.
  { unfold level_size in *. rewrite Nat2Z.inj_succ, Z.pow_succ_r in He by lia.
    split; [apply Z.div_pos|apply Z.div_lt_upper_bound]; lia. }
  destruct (T !! (l, ent l v / 512)) as [f|] eqn:Hf.
  - rewrite (proj1 (entry_access t T l (ent l v) f Ht Hl He Hf)).
    by rewrite (walk_digits t T (pmem t) l _ f 0 Ht (agrees_refl _ _ _) Hf).
  - assert (forall lvl, walk (pmem t) lvl (root t) (digits l (ent l v / 512)) = None) as Hn.
    { intros lvl. apply (walk_digits_None t T); try done. intros Hl0. unfold ent.
      assert (512 ^ (3 - Z.of_nat l) <> 0 /\ 0 < 512 ^ (Z.of_nat l - 1)) as [H1 H2]
        by (split; [apply Z.pow_nonzero|apply Z.pow_pos_nonneg]; lia).
      rewrite !Z.div_div by lia. change 512 with (512 ^ 1) at 2.
      rewrite <- !Z.pow_add_r by lia. replace (3 - Z.of_nat l + (1 + (Z.of_nat l - 1))) with 3 by lia. exact Hv. }
    rewrite Hn. unfold vread, translate. rewrite indices_eptr, walk_app by done.
    rewrite (walk_rec t T) by (done || apply agrees_refl). cbn [mbind option_bind]. by rewrite Hn.
Qed.
