(* ===== verification/Vmalloc.v ===== *)
(** * Virtual memory areas

    [kernel/src/mm/vmalloc.c]: the list of areas of an address space, the search
    for a place for a new one, and the operations that map and unmap the
    pages behind it.

    The list of [vm_area_t] is a sequence (the pointer operations on it are
    those of [DList]).  Page tables and page frames are behind the interface
    [AddrSpace]: [vmm_vmap] and [vmm_vunmap] of [kernel/src/mm/vmm.c].  Taking the
    list's lock and switching to the address space bracket each operation
    and are not represented. *)

From S2P Require Import Prelude DList Pmm.

(** ** Constants of [kernel/include/mm/mm.h] *)

Definition VMM_FLAGS_DEFAULT : Z := Z.lor 0x01 0x02.
Definition VMM_FLAGS_USER : Z := Z.lor VMM_FLAGS_DEFAULT 0x04.
Definition MI_USER_VMAREA_SAPACE_START : Z := 0x10000.
Definition MI_USER_VMAREA_SAPACE_END : Z := 0x7fffffffffff.
Definition MI_KERNEL_VMAREA_SAPACE_START : Z := 0xfffffe0000000000.
Definition MI_KERNEL_VMAREA_SAPACE_END : Z := 0xfffffeffffffffff.

Definition mm_get_vmarea_start (flags : Z) : Z :=
  if Z.land flags VMM_FLAGS_USER =? VMM_FLAGS_USER
  then MI_USER_VMAREA_SAPACE_START else MI_KERNEL_VMAREA_SAPACE_START.
Definition mm_get_vmarea_end (flags : Z) : Z :=
  if Z.land flags VMM_FLAGS_USER =? VMM_FLAGS_USER
  then MI_USER_VMAREA_SAPACE_END else MI_KERNEL_VMAREA_SAPACE_END.

(** ** Areas *)

(** [vm_self] is the address of the structure itself. *)
Record vm_area_t := VmArea { vm_self : Z; vm_start : Z; vm_end : Z; vm_flags : Z }.

(** A new area and the list with it, a null result, or the write through the
    null area that a failed allocation of the structure leads to. *)
Inductive vm_result :=
  | Area (a : vm_area_t) (l : list vm_area_t)
  | Null
  | NullStore.

Section Areas.

(** What [slab_alloc(sizeof(vm_area_t))] returns, [None] for null. *)
Context (slab : option Z).

Definition _vm_area_create (va_start va_end flags : Z) : option vm_area_t :=
  self ← slab; Some (VmArea self va_start va_end flags).

(** Create an area and link it where [link] says. *)
Definition create_and_link (va_start va_end flags : Z)
    (link : vm_area_t -> list vm_area_t) : vm_result :=
  match _vm_area_create va_start va_end flags with
  | Some a => Area a (link a)
  | None => NullStore
  end.

(** The overlap test of the search with an address given. *)
Definition overlap_test (a : vm_area_t) (va_start va_end : Z) : bool :=
  ((vm_start a <=? va_start) && (va_start <? vm_end a)) ||
  ((vm_start a <? va_end) && (va_end <=? vm_end a)) ||
  ((vm_start a <=? va_start) && (va_end <=? vm_end a)).

(** The loop over neighbouring areas; [pre] is what lies before. *)
Fixpoint find_cave (pre l : list vm_area_t) (size flags : Z) : option vm_result :=
  match l with
  | a :: ((b :: _) as l') =>
    if size <=? u64 (vm_start b - vm_end a) then
      let va_end := u64 (vm_end a + size) in
      if vm_start b <? va_end then Some Null
      else Some (create_and_link (vm_end a) va_end flags (fun n => pre ++ a :: n :: l'))
    else find_cave (pre ++ [a]) l' size flags
  | _ => None
  end.

(** Behind the last area. *)
Definition append_area (vmlist : list vm_area_t) (va_start size flags : Z) : vm_result :=
  let va_end := u64 (va_start + size) in
  if mm_get_vmarea_end flags <=? va_end then Null
  else create_and_link va_start va_end flags (fun n => vmlist ++ [n]).

Definition mm_find_vm_area (vmlist : list vm_area_t) (ptr size flags : Z) : vm_result :=
  if ctrue ptr then
    let va_end := u64 (ptr + size) in
    if mm_get_vmarea_end flags <=? va_end then Null
    else if existsb (fun a => overlap_test a ptr va_end) vmlist then Null
    else create_and_link ptr va_end flags (fun n => l_add_prev n vmlist)
  else match vmlist with
  | [] => append_area [] (mm_get_vmarea_start flags) size flags
  | [a] => append_area [a] (vm_end a) size flags
  | _ =>
    match find_cave [] vmlist size flags with
    | Some r => r
    | None => append_area vmlist (vm_end (default (VmArea 0 0 0 0) (last vmlist))) size flags
    end
  end.

End Areas.

(** The area that starts at [ptr] is unlinked and returned. *)
Fixpoint mm_get_vm_area (vmlist : list vm_area_t) (ptr : Z) : option (vm_area_t * list vm_area_t) :=
  match vmlist with
  | [] => None
  | a :: l =>
    if ptr =? vm_start a then Some (a, l)
    else '(r, l) ← mm_get_vm_area l ptr; Some (r, a :: l)
  end.

(** ** Address spaces

    What [vmalloc.c] relies on of the layer below: mapping [n] pages of an area space
    that are not mapped, from a page-aligned address, maps those pages and nothing
    else, unless it fails for want of memory; unmapping [n] mapped pages succeeds
    and unmaps those pages and nothing else. *)

Definition page_in (va n x : Z) : Prop := va <= x < va + n * PAGE_SIZE.

(** The flags of the callers, and the ranges they pass. *)
Definition space_flags (flags : Z) : Prop := flags = VMM_FLAGS_DEFAULT \/ flags = VMM_FLAGS_USER.
Record in_space (flags va n : Z) : Prop := {
  is_flags : space_flags flags;
  is_aligned : (PAGE_SIZE | va);
  is_pages : 0 <= n;
  is_start : mm_get_vmarea_start flags <= va;
  is_end : va + n * PAGE_SIZE <= mm_get_vmarea_end flags;
}.

Class AddrSpace (S : Type) := {
  vmm_vmap : S -> Z -> Z -> Z -> option S;
  vmm_vunmap : S -> Z -> Z -> Z -> option S;
  space_ok : S -> Prop;
  mapped : S -> Z -> Prop;
  vmap_mapped : forall s va n fl s', space_ok s -> in_space fl va n ->
    (forall x, page_in va n x -> ~ mapped s x) -> vmm_vmap s va n fl = Some s' ->
    space_ok s' /\ forall x, mapped s' x <-> page_in va n x \/ mapped s x;
  vunmap_mapped : forall s va n fl, space_ok s -> in_space fl va n ->
    (forall x, page_in va n x -> mapped s x) ->
    exists s', vmm_vunmap s va n fl = Some s' /\ space_ok s' /\
      forall x, mapped s' x <-> mapped s x /\ ~ page_in va n x;
}.

Section Space.
Context {S : Type} `{AddrSpace S}.

(** The areas and the page tables of one address space. *)
Record mm_struct_t := Mm { vm_area_head : list vm_area_t; page_dir : S }.

Inductive vm_ret := Ptr (p : Z) | Fault.

Definition vm_pages (a : vm_area_t) : Z := SIZE_TO_PAGE (u64 (vm_end a - vm_start a)).

Definition vmalloc (slab : option Z) (mm : mm_struct_t) (ptr size flags : Z) : mm_struct_t * vm_ret :=
  if size =? 0 then (mm, Ptr 0) else
  let size := PAGE_ALIGN_UP_IF size in
  if mm_get_vmarea_start flags <=? size then (mm, Ptr 0) else
  match mm_find_vm_area slab (vm_area_head mm) ptr size flags with
  | Area a l =>
    match vmm_vmap (page_dir mm) (vm_start a) (vm_pages a) flags with
    | Some s => (Mm l s, Ptr (vm_start a))
    | None => (mm, Fault)
    end
  | Null => (mm, Ptr 0)
  | NullStore => (mm, Fault)
  end.

(** The address of the structure that is handed to [slab_free]; [None] is the load
    through the null result of a search that finds nothing, or a panic of the page tables. *)
Definition vfree (mm : mm_struct_t) (ptr : Z) : option (mm_struct_t * Z) :=
  '(a, l) ← mm_get_vm_area (vm_area_head mm) ptr;
  s ← vmm_vunmap (page_dir mm) (vm_start a) (vm_pages a) (vm_flags a);
  Some (Mm l s, vm_self a).

(** The loop of [mm_free] and [mm_replace]: unmap and unlink area by area; the
    list is that of the structures handed to [slab_free], in order. *)
Fixpoint free_areas (l : list vm_area_t) (s : S) : option (S * list Z) :=
  match l with
  | [] => Some (s, [])
  | a :: l =>
    s ← vmm_vunmap s (vm_start a) (vm_pages a) (vm_flags a);
    '(s, freed) ← free_areas l s;
    Some (s, vm_self a :: freed)
  end.
Definition mm_replace (mm : mm_struct_t) : option (mm_struct_t * list Z) :=
  '(s, freed) ← free_areas (vm_area_head mm) (page_dir mm); Some (Mm [] s, freed).
(** [mm_free] up to [mm_switch_restore]: the page tables when it drops them. *)
Definition mm_free (mm : mm_struct_t) : option (S * list Z) := free_areas (vm_area_head mm) (page_dir mm).

End Space.

(** ** Invariant *)

(** Areas in ascending order, non-empty and apart, between [lo] and [hi]. *)
Fixpoint areas_ok (lo hi : Z) (l : list vm_area_t) : Prop :=
  match l with
  | [] => lo <= hi
  | a :: l => lo <= vm_start a < vm_end a /\ areas_ok (vm_end a) hi l
  end.

Definition area_aligned (a : vm_area_t) : Prop := (PAGE_SIZE | vm_start a) /\ (PAGE_SIZE | vm_end a).

Definition disjoint_areas (a b : vm_area_t) : Prop :=
  vm_end a <= vm_start b \/ vm_end b <= vm_start a.

Lemma areas_ok_le lo hi l : areas_ok lo hi l -> lo <= hi.
Proof. revert lo. induction l as [|a l IH]; intros lo; simpl; [done|]. intros [? ?%IH]. lia. Qed.

Lemma areas_ok_bounds lo hi l a :
  areas_ok lo hi l -> a ∈ l -> lo <= vm_start a < vm_end a /\ vm_end a <= hi.
Proof.
  revert lo. induction l as [|b l IH]; intros lo; simpl; [by intros _ ?%not_elem_of_nil|].
  intros [Hb Hl] [->|Ha]%elem_of_cons.
  - apply areas_ok_le in Hl. lia.
  - destruct (IH _ Hl Ha). lia.
Qed.

Lemma areas_ok_weaken lo lo' hi l : areas_ok lo hi l -> lo' <= lo -> areas_ok lo' hi l.
Proof. destruct l as [|a l]; simpl; [lia|]. intros [? ?] ?. split; [lia|done]. Qed.

Lemma areas_ok_app lo hi l1 a l2 :
  areas_ok lo hi (l1 ++ a :: l2) <->
  areas_ok lo (vm_start a) l1 /\ vm_start a < vm_end a /\ areas_ok (vm_end a) hi l2.
Proof.
  revert lo. induction l1 as [|b l1 IH]; intros lo; simpl; [naive_solver lia|].
  rewrite IH. naive_solver lia.
Qed.

(** Areas of a well-formed list do not overlap. *)
Lemma areas_ok_disjoint lo hi l1 a l2 b :
  areas_ok lo hi (l1 ++ a :: l2) -> b ∈ l1 ++ l2 -> disjoint_areas a b.
Proof.
  intros (H1 & H2 & H3)%areas_ok_app [Hb|Hb]%elem_of_app; unfold disjoint_areas.
  - destruct (areas_ok_bounds _ _ _ _ H1 Hb). lia.
  - destruct (areas_ok_bounds _ _ _ _ H3 Hb). lia.
Qed.

(** ** The search *)

(** [l'] is [l] with a new area of [size] bytes at its place; it starts at the address [ptr] or, for a null
    [ptr], at the bottom of the space or where another area ends. *)
Record placed (self flags lo hi : Z) (l : list vm_area_t) (ptr size : Z) (a : vm_area_t)
    (l' : list vm_area_t) : Prop := {
  pl_insert : exists l1 l2, l = l1 ++ l2 /\ l' = l1 ++ a :: l2;
  pl_ok : areas_ok lo hi l';
  pl_size : vm_end a = vm_start a + size;
  pl_self : vm_self a = self;
  pl_flags : vm_flags a = flags;
  pl_start : if decide (ptr = 0) then vm_start a = lo \/ exists b, b ∈ l /\ vm_start a = vm_end b else vm_start a = ptr;
}.

(** No gap between two neighbours is large enough. *)
Definition no_cave (l : list vm_area_t) (size : Z) : Prop :=
  forall l1 a b l2, l = l1 ++ a :: b :: l2 -> vm_start b - vm_end a < size.

Definition last_end (lo : Z) (l : list vm_area_t) : Z :=
  match last l with Some a => vm_end a | None => lo end.

Lemma no_cave_cons a b l size :
  vm_start b - vm_end a < size -> no_cave (b :: l) size -> no_cave (a :: b :: l) size.
Proof.
  intros Hab Hl [|x l1] a' b' l2 E; simplify_eq/=; [done|]. by eapply Hl.
Qed.

Lemma find_cave_cons sl pre a b l size flags :
  find_cave sl pre (a :: b :: l) size flags =
  if size <=? u64 (vm_start b - vm_end a) then
    if vm_start b <? u64 (vm_end a + size) then Some Null
    else Some (create_and_link sl (vm_end a) (u64 (vm_end a + size)) flags
           (fun n => pre ++ a :: n :: b :: l))
  else find_cave sl (pre ++ [a]) (b :: l) size flags.
Proof. done. Qed.

Lemma find_cave_spec self lo hi size flags l : forall pre,
  0 <= lo -> hi + size < 2 ^ 64 -> 0 < size -> areas_ok lo hi (pre ++ l) ->
  match find_cave (Some self) pre l size flags with
  | Some (Area a l') => placed self flags lo hi (pre ++ l) 0 size a l'
  | Some _ => False
  | None => no_cave l size
  end.
Proof.
  intros pre Hlo Hhi Hsz. revert pre.
  induction l as [|a l IH]; intros pre Hok; [by intros [|? ?]|].
  destruct l as [|b l]; [by intros [|? [|? ?]]|]. rewrite find_cave_cons.
  pose proof Hok as (Hpre & Ha & Hb & Hl)%areas_ok_app. simpl in Hb.
  pose proof (areas_ok_le _ _ _ Hpre). pose proof (areas_ok_le _ _ _ Hl).
  rewrite !u64_small by lia. destruct (_ <=? _) eqn:E; breflect.
  - rewrite (proj2 (Z.ltb_ge _ _)) by lia. unfold create_and_link. simpl. constructor; simpl.
    + exists (pre ++ [a]), (b :: l). by rewrite <- !app_assoc.
    + apply areas_ok_app. simpl. split_and!; try done; lia.
    + done.
    + done.
    + done.
    + right. exists a. split; [|done]. apply elem_of_app. right. left.
  - specialize (IH (pre ++ [a])). rewrite <- app_assoc in IH. cbn [app] in IH.
    specialize (IH Hok). destruct (find_cave (Some self) (pre ++ [a]) (b :: l) size flags); [done|].
    apply no_cave_cons; [lia|done].
Qed.

Lemma areas_ok_snoc lo hi l a :
  areas_ok lo (vm_start a) l -> vm_start a < vm_end a <= hi -> areas_ok lo hi (l ++ [a]).
Proof. intros Hl Ha. apply areas_ok_app. split_and!; [done|lia|simpl; lia]. Qed.

Lemma areas_ok_last lo hi l : areas_ok lo hi l -> lo <= last_end lo l <= hi /\ areas_ok lo (last_end lo l) l.
Proof.
  induction l as [|a l _] using rev_ind; unfold last_end; simpl; [lia|].
  rewrite last_snoc. intros (H1 & H2 & H3)%areas_ok_app. simpl in H3.
  pose proof (areas_ok_le _ _ _ H1). split; [lia|]. apply areas_ok_app. simpl. split_and!; [done|lia|lia].
Qed.

Lemma append_area_spec self l size flags :
  let lo := mm_get_vmarea_start flags in
  let hi := mm_get_vmarea_end flags in
  0 <= lo -> hi + size < 2 ^ 64 -> 0 < size -> areas_ok lo hi l ->
  match append_area (Some self) l (last_end lo l) size flags with
  | Area a l' => placed self flags lo hi l 0 size a l'
  | Null => hi <= last_end lo l + size
  | NullStore => False
  end.
Proof.
  intros lo hi Hlo Hhi Hsz Hok. destruct (areas_ok_last _ _ _ Hok) as [Hle Hl].
  unfold append_area. fold hi. rewrite u64_small by lia.
  destruct (hi <=? last_end lo l + size) eqn:E; breflect; [done|].
  unfold create_and_link. simpl. constructor; simpl.
  - exists l, []. by rewrite app_nil_r.
  - apply areas_ok_snoc; simpl; [done|lia].
  - done.
  - done.
  - done.
  - unfold last_end. destruct (last l) as [b|] eqn:El; [|by left].
    right. exists b. split; [by apply last_Some_elem_of|done].
Qed.

Lemma find_spec self l size flags :
  let lo := mm_get_vmarea_start flags in
  let hi := mm_get_vmarea_end flags in
  areas_ok lo hi l -> 0 < size <= hi - lo ->
  match mm_find_vm_area (Some self) l 0 size flags with
  | Area a l' => placed self flags lo hi l 0 size a l'
  | Null => no_cave l size /\ hi <= last_end lo l + size
  | NullStore => False
  end.
Proof.
  intros lo hi Hok Hsz.
  assert (0 <= lo /\ hi + size < 2 ^ 64) as [Hlo Hhi].
  { unfold lo, hi, mm_get_vmarea_start, mm_get_vmarea_end in *.
    unfold MI_USER_VMAREA_SAPACE_START, MI_USER_VMAREA_SAPACE_END,
      MI_KERNEL_VMAREA_SAPACE_START, MI_KERNEL_VMAREA_SAPACE_END in *. case_match; lia. }
  pose proof (append_area_spec self l size flags Hlo Hhi ltac:(lia) Hok) as Happ.
  unfold mm_find_vm_area. simpl ctrue. destruct l as [|a [|b l]].
  - unfold last_end in *. simpl in *. fold lo hi in Happ.
    destruct (append_area _ _ _ _ _); try done. split; [by intros [|? ?]|done].
  - unfold last_end in *. simpl in *. destruct (append_area _ _ _ _ _); try done.
    split; [by intros [|? [|? ?]]|done].
  - pose proof (find_cave_spec self lo hi size flags (a :: b :: l) [] Hlo Hhi ltac:(lia) Hok) as Hcave.
    destruct (find_cave (Some self) [] (a :: b :: l) size flags) as [[]|]; [done..|].
    assert (last_end lo (a :: b :: l) = vm_end (default (VmArea 0 0 0 0) (last (a :: b :: l)))) as E.
    { unfold last_end. destruct (last (a :: b :: l)) eqn:El; [done|]. by apply last_None in El. }
    fold lo hi in Happ. rewrite E in Happ. destruct (append_area _ _ _ _ _); try done.
    split; [done|]. by rewrite E.
Qed.

(** The address is at or above the end of every area. *)
Lemma find_above_spec self l ptr size flags :
  let lo := mm_get_vmarea_start flags in
  let hi := mm_get_vmarea_end flags in
  areas_ok lo hi l -> 0 < size -> ptr ≠ 0 -> last_end lo l <= ptr -> 0 <= ptr -> ptr + size < 2 ^ 64 ->
  match mm_find_vm_area (Some self) l ptr size flags with
  | Area a l' => placed self flags lo hi l ptr size a l'
  | Null => hi <= ptr + size
  | NullStore => False
  end.
Proof.
  intros lo hi Hok Hsz Hp Hle Hp0 Hw. unfold mm_find_vm_area, ctrue. rewrite (proj2 (Z.eqb_neq _ _) Hp). cbn [negb].
  rewrite u64_small by lia. fold hi. destruct (hi <=? ptr + size) eqn:E; breflect; [done|].
  destruct (areas_ok_last _ _ _ Hok) as [Hlast Hl].
  assert (existsb (fun a => overlap_test a ptr (ptr + size)) l = false) as ->.
  { apply not_true_is_false. intros (b & Hb%list_elem_of_In & Ht)%existsb_exists.
    destruct (areas_ok_bounds _ _ _ b Hl Hb). unfold overlap_test in Ht.
    rewrite !orb_true_iff, !andb_true_iff, !Z.leb_le, !Z.ltb_lt in Ht. lia. }
  unfold create_and_link, l_add_prev. simpl. constructor; simpl; [|..|done|done|done|].
  - exists l, []. by rewrite app_nil_r.
  - apply areas_ok_app. simpl. split_and!; [|lia|lia].
    clear -Hl Hle. revert Hl. generalize lo, (last_end lo l) , Hle. clear. induction l as [|b l IH]; intros lo e Hle; simpl; [lia|].
    intros [? Hl]. split; [done|]. by apply (IH _ e).
  - by rewrite decide_False.
Qed.

(** Finding room for an area.  In an ordered, disjoint list, a search
    without an address either places an area of exactly the requested size
    inside the address space, in order and disjoint from all others (page aligned
    when the areas and the size are), or finds no room: no gap between
    neighbours and not the space behind the last area is large enough. *)
Theorem vm_find_correct self l size flags :
  let lo := mm_get_vmarea_start flags in
  let hi := mm_get_vmarea_end flags in
  areas_ok lo hi l -> 0 < size <= hi - lo ->
  match mm_find_vm_area (Some self) l 0 size flags with
  | Area a l' =>
      l' ≡ₚ a :: l /\ areas_ok lo hi l' /\ vm_end a = vm_start a + size /\
      (forall b, b ∈ l -> disjoint_areas a b) /\
      (Forall area_aligned l -> (PAGE_SIZE | size) -> area_aligned a)
  | Null => no_cave l size /\ hi <= last_end lo l + size
  | NullStore => False
  end.
Proof.
  intros lo hi Hok Hsz. pose proof (find_spec self l size flags Hok Hsz) as H.
  destruct (mm_find_vm_area (Some self) l 0 size flags) as [a l'| |]; [|done..].
  destruct H as [(l1 & l2 & -> & ->) Hok' Hs _ _ Hst]. cbn in Hst. split_and!; [|done..| |].
  - symmetry. apply Permutation_middle.
  - intros b Hb. by eapply areas_ok_disjoint.
  - intros Hal Hps. assert (PAGE_SIZE | vm_start a) as Hst'.
    { destruct Hst as [->|(b & Hb & ->)].
      - unfold lo, mm_get_vmarea_start. case_match; [by exists 16|by exists 0xfffffe0000000].
      - rewrite Forall_forall in Hal. by apply Hal. }
    split; [done|]. rewrite Hs. by apply Z.divide_add_r.
Qed.

Lemma vm_find_correct_witness :
  exists l', mm_find_vm_area (Some 8) [VmArea 8 0x10000 0x12000 7; VmArea 8 0x15000 0x16000 7] 0 0x2000
      VMM_FLAGS_USER = Area (VmArea 8 0x12000 0x14000 7) l' /\
    areas_ok 0x10000 0x7fffffffffff l'.
Proof.
  pose proof (vm_find_correct 8 [VmArea 8 0x10000 0x12000 7; VmArea 8 0x15000 0x16000 7] 0x2000
    VMM_FLAGS_USER) as H.
  change (mm_get_vmarea_start VMM_FLAGS_USER) with 0x10000 in H.
  change (mm_get_vmarea_end VMM_FLAGS_USER) with 0x7fffffffffff in H.
  specialize (H ltac:(simpl; lia) ltac:(lia)).
  eexists. split; [vm_compute; reflexivity|]. apply H.
Defined.

(** ** Searching at a given address *)

Lemma overlap_test_spec b s e :
  vm_start b < vm_end b -> s < e ->
  overlap_test b s e = true <-> (vm_start b < e /\ s < vm_end b) /\
    ~ (s < vm_start b /\ vm_end b < e).
Proof.
  intros Hb Hse. unfold overlap_test.
  rewrite !orb_true_iff, !andb_true_iff, !Z.leb_le, !Z.ltb_lt. lia.
Qed.

(** What the search at a given address guarantees.  It succeeds exactly when
    the range ends inside the space and no area of the list is found to
    overlap; the new area is then disjoint from every other area, except that
    an area lying strictly inside the new range goes unnoticed. *)
Theorem vm_find_at self l ptr size flags :
  ptr ≠ 0 -> 0 < size -> 0 <= ptr -> ptr + size < 2 ^ 64 ->
  Forall (fun b => vm_start b < vm_end b) l ->
  let a := VmArea self ptr (ptr + size) flags in
  match mm_find_vm_area (Some self) l ptr size flags with
  | Area a' l' => a' = a /\ l' = l ++ [a] /\ vm_end a < mm_get_vmarea_end flags /\
      forall b, b ∈ l -> disjoint_areas a b \/ (vm_start a < vm_start b /\ vm_end b < vm_end a)
  | Null => mm_get_vmarea_end flags <= vm_end a \/ exists b, b ∈ l /\ ~ disjoint_areas a b
  | NullStore => False
  end.
Proof.
  intros Hp Hsz Hp0 Hw Hne a. unfold mm_find_vm_area, ctrue.
  rewrite (proj2 (Z.eqb_neq _ _) Hp). simpl. rewrite u64_small by lia.
  rewrite Forall_forall in Hne. destruct (_ <=? _) eqn:E; breflect; [by left|].
  destruct (existsb _ l) eqn:Ex.
  - right. apply existsb_exists in Ex as (b & Hb%list_elem_of_In & Ht).
    exists b. split; [done|]. apply overlap_test_spec in Ht; [|by apply Hne|lia].
    unfold disjoint_areas. simpl. lia.
  - unfold create_and_link. simpl. split_and!; [done..|lia|]. intros b Hb.
    destruct (overlap_test b ptr (ptr + size)) eqn:Ht.
    { assert (existsb (fun a => overlap_test a ptr (ptr + size)) l = true); [|congruence].
      apply existsb_exists. exists b. split; [by apply list_elem_of_In|done]. }
    pose proof (overlap_test_spec b ptr (ptr + size) (Hne b Hb) ltac:(lia)) as Hot.
    unfold disjoint_areas. simpl. rewrite Ht in Hot.
    destruct (decide (vm_start b < ptr + size /\ ptr < vm_end b)); [|lia].
    destruct (decide (ptr < vm_start b /\ vm_end b < ptr + size)); [lia|].
    assert (false = true) by (apply Hot; lia). done.
Qed.

Lemma vm_find_at_witness :
  mm_find_vm_area (Some 8) [VmArea 8 0x20000 0x22000 7] 0x30000 0x1000 VMM_FLAGS_USER =
    Area (VmArea 8 0x30000 0x31000 7) [VmArea 8 0x20000 0x22000 7; VmArea 8 0x30000 0x31000 7] /\
  disjoint_areas (VmArea 8 0x30000 0x31000 7) (VmArea 8 0x20000 0x22000 7).
Proof.
  pose proof (vm_find_at 8 [VmArea 8 0x20000 0x22000 7] 0x30000 0x1000 VMM_FLAGS_USER
    ltac:(lia) ltac:(lia) ltac:(lia) ltac:(lia) ltac:(repeat constructor)) as H.
  split; [vm_compute; reflexivity|]. simpl in H. destruct H as (_ & _ & _ & H).
  destruct (H (VmArea 8 0x20000 0x22000 7) ltac:(left)) as [?|[? ?]]; [done|simpl in *; lia].
Defined.

(** The overlap that goes unnoticed. *)
Example containing_area_not_detected :
  mm_find_vm_area (Some 8) [VmArea 8 0x21000 0x22000 7] 0x20000 0x3000 VMM_FLAGS_USER =
    Area (VmArea 8 0x20000 0x23000 7) [VmArea 8 0x21000 0x22000 7; VmArea 8 0x20000 0x23000 7].
Proof. vm_compute. done. Qed.

(** An area at a given address is linked at the end of the list also when it lies below others; the next search without an
    address then fails, in a space that is nearly empty. *)
Example area_below_blocks_search :
  let l := [VmArea 8 0x20000 0x22000 7; VmArea 16 0x10000 0x11000 7] in
  mm_find_vm_area (Some 16) [VmArea 8 0x20000 0x22000 7] 0x10000 0x1000 VMM_FLAGS_USER = Area (VmArea 16 0x10000 0x11000 7) l /\
  mm_find_vm_area (Some 24) l 0 0x1000 VMM_FLAGS_USER = Null.
Proof. vm_compute. done. Qed.

(** ** Allocation and release of mapped areas *)

Lemma get_vm_area_spec lo hi l1 a l2 :
  areas_ok lo hi (l1 ++ a :: l2) ->
  mm_get_vm_area (l1 ++ a :: l2) (vm_start a) = Some (a, l1 ++ l2).
Proof.
  revert lo. induction l1 as [|b l1 IH]; intros lo Hok; simpl.
  - by rewrite Z.eqb_refl.
  - simpl in Hok. destruct Hok as [Hb Hok].
    destruct (areas_ok_bounds _ _ _ a Hok) as [? _]; [apply elem_of_app; right; left|].
    rewrite (proj2 (Z.eqb_neq _ _)) by lia. by rewrite (IH _ Hok).
Qed.

Section SpaceProofs.
Context {S : Type} {AS : AddrSpace S}.
Implicit Types mm : mm_struct_t (S := S).

Definition in_area (x : Z) (a : vm_area_t) : Prop := vm_start a <= x < vm_end a.

(** The pages mapped in the space of [flags] are those of the areas. *)
Record vm_inv (flags : Z) mm : Prop := {
  vi_areas : areas_ok (mm_get_vmarea_start flags) (mm_get_vmarea_end flags) (vm_area_head mm);
  vi_aligned : Forall area_aligned (vm_area_head mm);
  vi_flags : Forall (fun a => vm_flags a = flags) (vm_area_head mm);
  vi_space : space_ok (page_dir mm);
  vi_mapped : forall x, mm_get_vmarea_start flags <= x < mm_get_vmarea_end flags ->
    mapped (page_dir mm) x <-> exists a, a ∈ vm_area_head mm /\ in_area x a;
}.

Lemma vm_pages_size a :
  area_aligned a -> vm_start a < vm_end a -> vm_end a - vm_start a < 2 ^ 64 ->
  vm_pages a * PAGE_SIZE = vm_end a - vm_start a.
Proof.
  intros [[p Hp] [q Hq]] Hlt Hw. unfold vm_pages, SIZE_TO_PAGE. rewrite u64_small by lia.
  rewrite Hp, Hq. unfold PAGE_SIZE in *. rewrite <- Z.mul_sub_distr_r, Z.div_mul by lia. done.
Qed.

Lemma space_bounds flags :
  0 < mm_get_vmarea_start flags /\ mm_get_vmarea_end flags < 2 ^ 64 /\
  2 ^ 39 + PAGE_SIZE <= mm_get_vmarea_end flags - mm_get_vmarea_start flags /\ mm_get_vmarea_end flags + 2 ^ 40 < 2 ^ 64.
Proof.
  unfold mm_get_vmarea_start, mm_get_vmarea_end, MI_USER_VMAREA_SAPACE_START,
    MI_USER_VMAREA_SAPACE_END, MI_KERNEL_VMAREA_SAPACE_START, MI_KERNEL_VMAREA_SAPACE_END,
    PAGE_SIZE. case_match; lia.
Qed.

(** What [vmalloc] asks for: no address, or a page-aligned one at or above the end of every area. *)
Definition fit_address (flags ptr : Z) (l : list vm_area_t) : Prop :=
  ptr = 0 \/ (PAGE_SIZE | ptr) /\ last_end (mm_get_vmarea_start flags) l <= ptr < mm_get_vmarea_end flags.
(** Why nothing is found. *)
Definition no_room (flags ptr size : Z) (l : list vm_area_t) : Prop :=
  if decide (ptr = 0) then no_cave l size /\ mm_get_vmarea_end flags <= last_end (mm_get_vmarea_start flags) l + size
  else mm_get_vmarea_end flags <= ptr + size.

Lemma find_fits self flags ptr size l :
  areas_ok (mm_get_vmarea_start flags) (mm_get_vmarea_end flags) l -> Forall area_aligned l -> fit_address flags ptr l ->
  0 < size <= mm_get_vmarea_end flags - mm_get_vmarea_start flags -> size <= 2 ^ 40 -> (PAGE_SIZE | size) ->
  match mm_find_vm_area (Some self) l ptr size flags with
  | Area a l' => placed self flags (mm_get_vmarea_start flags) (mm_get_vmarea_end flags) l ptr size a l' /\ area_aligned a
  | Null => no_room flags ptr size l
  | NullStore => False
  end.
Proof.
  intros Hok Hal Hptr Hsz Hsz' Hps. destruct (space_bounds flags) as (Hlo & Hhi & _ & Hhi').
  assert (match mm_find_vm_area (Some self) l ptr size flags with
    | Area a l' => placed self flags (mm_get_vmarea_start flags) (mm_get_vmarea_end flags) l ptr size a l'
    | Null => no_room flags ptr size l | NullStore => False end) as H.
  { destruct Hptr as [->|(_ & Hptr)]; [exact (find_spec self l size flags Hok Hsz)|].
    destruct (areas_ok_last _ _ _ Hok) as [? _]. unfold no_room. rewrite decide_False by lia. apply find_above_spec; done || lia. }
  destruct (mm_find_vm_area _ _ _ _ _) as [a l'| |]; [|done..]. split; [done|].
  destruct H as [_ _ Hs _ _ Hst]. assert (PAGE_SIZE | vm_start a) as Hd.
  { destruct (decide (ptr = 0)) as [->|Hp]; [|destruct Hptr as [?|[? _]]; [done|by rewrite Hst]].
    destruct Hst as [->|(b & Hb & ->)]; [|rewrite Forall_forall in Hal; by apply Hal].
    unfold mm_get_vmarea_start. case_match; [by exists 16|by exists 0xfffffe0000000]. }
  split; [done|]. rewrite Hs. by apply Z.divide_add_r.
Qed.


(** One area of an address space as a range of pages. *)
Lemma area_in_space flags lo hi l a :
  areas_ok lo hi l -> a ∈ l -> area_aligned a -> space_flags flags ->
  mm_get_vmarea_start flags <= lo -> hi <= mm_get_vmarea_end flags ->
  in_space flags (vm_start a) (vm_pages a) /\
  forall x, page_in (vm_start a) (vm_pages a) x <-> in_area x a.
Proof.
  intros Hok Ha Hal Hfl Hlo Hhi. destruct (areas_ok_bounds _ _ _ a Hok Ha) as [Hb1 Hb2].
  destruct (space_bounds flags) as (? & ? & _).
  pose proof (vm_pages_size a Hal ltac:(lia) ltac:(lia)) as Hpg. split.
  - constructor; [done|apply Hal|unfold PAGE_SIZE in Hpg; lia|lia|rewrite Hpg; lia].
  - intros x. unfold page_in, in_area. rewrite Hpg. lia.
Qed.

Lemma free_areas_spec flags hi l : forall lo s,
  areas_ok lo hi l -> Forall area_aligned l -> Forall (fun a => vm_flags a = flags) l ->
  space_flags flags -> mm_get_vmarea_start flags <= lo -> hi <= mm_get_vmarea_end flags ->
  space_ok s -> (forall a x, a ∈ l -> in_area x a -> mapped s x) ->
  exists s', free_areas l s = Some (s', vm_self <$> l) /\ space_ok s' /\
    forall x, mapped s' x <-> mapped s x /\ forall a, a ∈ l -> ~ in_area x a.
Proof.
  induction l as [|a l IH]; intros lo s Hok Hal Hfs Hfl Hlo Hhi Hs Hm; cbn [free_areas].
  { exists s. split_and!; [done..|]. intros x. split; [|tauto]. intros ?. split; [done|]. by intros a ?%not_elem_of_nil. }
  apply Forall_cons in Hal as [Ha Hal]. apply Forall_cons in Hfs as [-> Hfs].
  destruct (area_in_space flags lo hi (a :: l) a Hok ltac:(left) Ha Hfl Hlo Hhi) as [Hins Hpi].
  destruct (vunmap_mapped s _ _ flags Hs Hins) as (s1 & -> & Hs1 & Hm1).
  { intros x Hx. apply (Hm a); [left|by apply Hpi]. }
  cbn [mbind option_bind].
  assert (forall b x, b ∈ l -> in_area x b -> ~ in_area x a) as Hdis.
  { intros b x Hb Hxb Hxa. destruct Hok as [_ Hok].
    destruct (areas_ok_bounds _ _ _ b Hok Hb). unfold in_area in *. lia. }
  destruct Hok as [Hb Hok].
  destruct (IH (vm_end a) s1 Hok Hal Hfs Hfl ltac:(lia) Hhi Hs1) as (s2 & -> & Hs2 & Hm2).
  { intros b x Hb' Hx. rewrite Hm1, Hpi. split; [apply (Hm b); [by right|done]|by eapply Hdis]. }
  exists s2. split_and!; [done..|]. intros x. rewrite Hm2, Hm1, Hpi.
  setoid_rewrite elem_of_cons. naive_solver.
Qed.

(** Tearing down an address space: [mm_replace] and [mm_free] succeed, leave no area
    and no page of the space mapped, and hand the structure of every area to
    [slab_free], once each and in the order of the list. *)
Theorem mm_replace_empties flags mm :
  vm_inv flags mm -> space_flags flags ->
  exists mm', mm_replace mm = Some (mm', vm_self <$> vm_area_head mm) /\
  mm_free mm = Some (page_dir mm', vm_self <$> vm_area_head mm) /\
  vm_inv flags mm' /\ vm_area_head mm' = [] /\
  forall x, mm_get_vmarea_start flags <= x < mm_get_vmarea_end flags -> ~ mapped (page_dir mm') x.
Proof.
  intros [Hok Hal Hfs Hsp Hm] Hfl. destruct (space_bounds flags) as (Hlo & Hhi & _). unfold mm_replace, mm_free.
  destruct (free_areas_spec flags _ _ _ (page_dir mm) Hok Hal Hfs Hfl ltac:(lia) ltac:(lia) Hsp)
    as (s & -> & Hs & Hmap).
  { intros a x Ha Hx. destruct (areas_ok_bounds _ _ _ a Hok Ha). apply Hm; [unfold in_area in Hx; lia|by exists a]. }
  assert (forall x, mm_get_vmarea_start flags <= x < mm_get_vmarea_end flags -> ~ mapped s x) as Hnone.
  { intros x Hx [Hf Hn]%Hmap. apply Hm in Hf as (a & Ha & Hxa); [|done]. by apply (Hn a). }
  exists (Mm [] s). split_and!; [done..| |done|done]. constructor; cbn [vm_area_head page_dir]; try done.
  - simpl. apply (areas_ok_le _ _ _ Hok).
  - intros x Hx. split; [by intros ?%Hnone|]. by intros (a & ?%not_elem_of_nil & _).
Qed.

(** The check against the start of the space: a user area of 64 KiB or more is
    never allocated. *)
Theorem vmalloc_user_limit self mm ptr size flags :
  Z.land flags VMM_FLAGS_USER = VMM_FLAGS_USER -> 0x10000 <= size < 2 ^ 63 ->
  vmalloc (Some self) mm ptr size flags = (mm, Ptr 0).
Proof.
  intros Hfl Hsz. unfold vmalloc. rewrite (proj2 (Z.eqb_neq size 0)) by lia.
  destruct (PAGE_ALIGN_UP_IF_spec size) as (q & -> & Hq); [lia|].
  unfold mm_get_vmarea_start. rewrite Hfl, Z.eqb_refl. unfold MI_USER_VMAREA_SAPACE_START.
  by rewrite (proj2 (Z.leb_le _ _)) by lia.
Qed.

End SpaceProofs.

(** ** Concrete instances *)

(** An address space that only knows which addresses are mapped. *)
#[global] Instance pred_space : AddrSpace (Z -> Prop).
Proof.
  refine {| vmm_vmap := fun s va n _ => Some (fun x => page_in va n x \/ s x);
            vmm_vunmap := fun s va n _ => Some (fun x => s x /\ ~ page_in va n x);
            space_ok := fun _ => True; mapped := fun s x => s x |}.
  - by intros s va n fl s' _ _ _ [= <-].
  - intros s va n fl _ _ _. by eexists.
Defined.

Definition demo_mm : mm_struct_t :=
  Mm [VmArea 8 0x10000 0x12000 7] (fun x => 0x10000 <= x < 0x12000).

Lemma demo_mm_inv : vm_inv VMM_FLAGS_USER demo_mm.
Proof.
  constructor.
  - simpl. change (mm_get_vmarea_start VMM_FLAGS_USER) with 0x10000.
    change (mm_get_vmarea_end VMM_FLAGS_USER) with 0x7fffffffffff. lia.
  - repeat constructor; simpl; [by exists 16|by exists 18].
  - by repeat constructor.
  - done.
  - intros x _. simpl. setoid_rewrite list_elem_of_singleton. unfold in_area. naive_solver.
Qed.

Lemma mm_replace_empties_witness :
  exists mm', mm_replace demo_mm = Some (mm', [8]) /\ vm_area_head mm' = [] /\ ~ mapped (page_dir mm') 0x11000.
Proof.
  destruct (mm_replace_empties VMM_FLAGS_USER demo_mm demo_mm_inv ltac:(by right)) as (mm' & E & _ & _ & Hn & Hm).
  exists mm'. split_and!; [done..|]. apply Hm. by vm_compute.
Defined.

Lemma vmalloc_user_limit_witness :
  vmalloc (Some 8) demo_mm 0 0x10000 VMM_FLAGS_USER = (demo_mm, Ptr 0).
Proof. apply vmalloc_user_limit; [done|lia]. Defined.
