(* ===== verification/Slab.v ===== *)
(** * Slab allocator and kmalloc

    The slab part of [kernel/src/mm/vmm.c] and [kernel/src/mm/kmalloc.c].

    The first word of a free object is its [next] pointer; [mem] holds those words
    (0 where nothing was written, as after [memset]), so free lists are pointer
    chains through memory ([obj_chain] of [SlabProofs] is their representation predicate).
    A [slab_t] and a [slab_cache_t] are records; the lists of slabs and of
    caches are sequences.  The header of a slab lies in its own run and the
    cache structures in objects of [meta_cache]; both are outside the memory
    handed out, so that keeping them as records loses nothing.  Page runs come
    from the interface [PageSource], the function [vmm_alloc_pages]; the pages of
    large areas from [AddrSpace].  The slab lock makes each call atomic. *)

From Stdlib Require Import ZifyBool.
From S2P Require Import Prelude DList Pmm Vmalloc.

(** ** State *)

Definition sizeof_slab_t : Z := 40.
Definition sizeof_slab_cache_t : Z := 112.
Definition sizeof_vm_area_t : Z := 40.
Definition SLAB_META_CACHE_NRPAGES : Z := 2.
Definition SLAB_ALLOC_MAX_SIZE : Z := 8192.

Record slab_t := Slab {
  s_mem : Z;
  s_size : Z;
  s_free : Z;             (* [free_objects] of the slab *)
  free_list : Z;
}.

Record slab_cache_t := Cache {
  slabs : list slab_t;
  obj_size : Z;
  free_objects : Z;
  total_objects : Z;
  cache_nr_pages : Z;
  total_pages : Z;
}.

(** [slab_size_list] *)
Definition slab_size_list : list (Z * Z) :=
  [(8, 1); (16, 1); (32, 1); (64, 1); (128, 2); (256, 2); (512, 2);
   (1024, 4); (2048, 4); (4096, 4); (8192, 4)].

(** Memory as the allocator sees it: the pointer stored at an address. *)
Definition load (mem : gmap Z Z) (p : Z) : Z := default 0 (mem !! p).

(** [memset(p, 0, n)] *)
Definition zero_range (mem : gmap Z Z) (p n : Z) : gmap Z Z :=
  filter (fun kv => ~ (p <= kv.1 < p + n)) mem.

(** ** Page runs

    What the slab allocator relies on of [vmm_alloc_pages]: runs of one, two or four
    pages, page-aligned and non-null, apart from all the memory taken before.
    [None] is the panic or the fault of [pmm_alloc_pages] on exhausted memory. *)
Class PageSource (P : Type) := {
  vmm_alloc_pages : P -> Z -> option (P * Z);
  source_ok : P -> Prop;
  taken : P -> Z -> Prop;
  alloc_pages_spec : forall p n p' a,
    source_ok p -> n ∈ [1; 2; 4] -> vmm_alloc_pages p n = Some (p', a) ->
    source_ok p' /\ 0 < a /\ a + (n + 1) * PAGE_SIZE < 2 ^ 64 /\
    (forall x, a <= x < a + n * PAGE_SIZE -> ~ taken p x /\ taken p' x) /\
    (forall x, taken p x -> taken p' x);
}.

Section Slab.
Context {P : Type} `{PageSource P}.

Record slab_state := SlabState { mem : gmap Z Z; pages : P }.

(** The loop of [slab_create]: object [i] is linked behind object [i - 1]. *)
Fixpoint link_objects (n : nat) (m : gmap Z Z) (obj_start osize i : Z) : gmap Z Z :=
  match n with
  | O => m
  | S n =>
    link_objects n (<[obj_start + (i - 1) * osize := obj_start + i * osize]> m)
      obj_start osize (i + 1)
  end.

(** The slab and [*obj_count_out]; the inner [None] is a null result. *)
Definition slab_create (st : slab_state) (nr osize : Z) :
    option (slab_state * option (slab_t * Z)) :=
  '(pg, start) ← vmm_alloc_pages (pages st) nr;
  if start =? 0 then Some (SlabState (mem st) pg, None) else
  let slab_bytes := nr * PAGE_SIZE in
  let m := zero_range (mem st) start slab_bytes in
  let obj_count := u32 ((slab_bytes - sizeof_slab_t) / osize) in
  let obj_start := start + sizeof_slab_t in
  let m := link_objects (Z.to_nat (obj_count - 1)) m obj_start osize 1 in
  Some (SlabState m pg, Some (Slab obj_start (u32 slab_bytes) obj_count obj_start, obj_count)).

Definition slab_cache_init (osize nr : Z) : slab_cache_t := Cache [] osize 0 0 nr 0.

Definition slab_cache_growth (st : slab_state) (c : slab_cache_t) :
    option (slab_state * slab_cache_t) :=
  '(st, r) ← slab_create st (cache_nr_pages c) (obj_size c);
  match r with
  | None => Some (st, c)
  | Some (s, n) =>
    Some (st, Cache (l_add_next s (slabs c)) (obj_size c) (u32 (free_objects c + n))
           (u32 (total_objects c + n)) (cache_nr_pages c) (u32 (total_pages c + cache_nr_pages c)))
  end.

(** The loop over the slabs: the first with a free object gives it. *)
Fixpoint take_object (m : gmap Z Z) (l : list slab_t) : option (gmap Z Z * list slab_t * Z) :=
  match l with
  | [] => None
  | s :: l =>
    if 0 <? s_free s then
      let o := free_list s in
      let s := Slab (s_mem s) (s_size s) (u32 (s_free s - 1)) (load m o) in
      Some (<[o := 0]> m, s :: l, o)
    else '(m, l, o) ← take_object m l; Some (m, s :: l, o)
  end.

Definition slab_cache_alloc (st : slab_state) (c : slab_cache_t) (size : Z) :
    option (slab_state * slab_cache_t * option Z) :=
  if obj_size c <? size then Some (st, c, None) else
  '(st, c) ← (if free_objects c =? 0 then slab_cache_growth st c else Some (st, c));
  match take_object (mem st) (slabs c) with
  | Some (m, l, o) =>
    Some (SlabState m (pages st),
      Cache l (obj_size c) (u32 (free_objects c - 1)) (total_objects c) (cache_nr_pages c)
        (total_pages c), Some o)
  | None => Some (st, c, None)
  end.

(** The loop over the slabs: the first whose range holds [ptr] takes it back. *)
Fixpoint give_object (m : gmap Z Z) (l : list slab_t) (ptr : Z) : option (gmap Z Z * list slab_t) :=
  match l with
  | [] => None
  | s :: l =>
    if (s_mem s <=? ptr) && (ptr <? u64 (s_mem s + s_size s)) then
      Some (<[ptr := free_list s]> m, Slab (s_mem s) (s_size s) (u32 (s_free s + 1)) ptr :: l)
    else '(m, l) ← give_object m l ptr; Some (m, s :: l)
  end.

(** [None] is the result [false]. *)
Definition slab_cache_free (st : slab_state) (c : slab_cache_t) (ptr : Z) :
    option (slab_state * slab_cache_t) :=
  '(m, l) ← give_object (mem st) (slabs c) ptr;
  Some (SlabState m (pages st),
        Cache l (obj_size c) (u32 (free_objects c + 1)) (total_objects c) (cache_nr_pages c)
          (total_pages c)).

(** A cache structure from [meta_cache]; the inner [None] is a null result. *)
Definition slab_cache_create_cache (st : slab_state) (meta : slab_cache_t) (osize nr : Z) :
    option (slab_state * slab_cache_t * option slab_cache_t) :=
  '(st, meta, r) ← slab_cache_alloc st meta sizeof_slab_cache_t;
  Some (st, meta, match r with None => None | Some _ => Some (slab_cache_init osize nr) end).

(** The loops over the caches. *)
Fixpoint slab_alloc (st : slab_state) (caches : list slab_cache_t) (size : Z) :
    option (slab_state * list slab_cache_t * option Z) :=
  match caches with
  | [] => Some (st, [], None)
  | c :: cs =>
    if size <=? obj_size c then
      '(st, c, r) ← slab_cache_alloc st c size; Some (st, c :: cs, r)
    else '(st, cs, r) ← slab_alloc st cs size; Some (st, c :: cs, r)
  end.

(** The flag is [is_slab]. *)
Fixpoint slab_free (st : slab_state) (caches : list slab_cache_t) (ptr : Z) :
    slab_state * list slab_cache_t * bool :=
  match caches with
  | [] => (st, [], false)
  | c :: cs =>
    match slab_cache_free st c ptr with
    | Some (st, c) => (st, c :: cs, true)
    | None => let '(st, cs, r) := slab_free st cs ptr in (st, c :: cs, r)
    end
  end.

(** [slab_init]: the cache of cache structures, then a cache per size; [None] is
    also the growth of the null cache when no structure could be allocated. *)
Fixpoint init_caches (sizes : list (Z * Z)) (st : slab_state) (meta : slab_cache_t)
    (caches : list slab_cache_t) : option (slab_state * slab_cache_t * list slab_cache_t) :=
  match sizes with
  | [] => Some (st, meta, caches)
  | (osize, nr) :: sizes =>
    '(st, meta, r) ← slab_cache_create_cache st meta osize nr;
    c ← r;
    '(st, c) ← slab_cache_growth st c;
    init_caches sizes st meta (l_add_prev c caches)
  end.
Definition slab_init (st : slab_state) : option (slab_state * slab_cache_t * list slab_cache_t) :=
  '(st, meta) ← slab_cache_growth st
    (slab_cache_init sizeof_slab_cache_t SLAB_META_CACHE_NRPAGES);
  init_caches slab_size_list st meta [].

(** [kmalloc]: where a request goes, with the size passed on. *)
Inductive kmalloc_route := KNull | KSlab (size : Z) | KVmalloc (size : Z).

Definition kmalloc_size (size : Z) : kmalloc_route :=
  if size =? 0 then KNull else
  let size_up := if size mod 8 =? 0 then size else Z.land (u64 (size + 8)) (u64 (Z.lnot 0x07)) in
  if (size <=? SLAB_ALLOC_MAX_SIZE) && (size_up <=? SLAB_ALLOC_MAX_SIZE) then KSlab size_up
  else KVmalloc (PAGE_ALIGN_UP_IF size).

Context {S : Type} `{AddrSpace S}.

(** The kernel heap: slab state, caches and the kernel's list of areas. *)
Record kheap := KHeap { k_slab : slab_state; k_caches : list slab_cache_t; k_vm : mm_struct_t (S := S) }.

(** [None] is a fault.  The area structure of a large allocation comes from the slab
    caches too; it is not requested when no place is found for the area. *)
Definition kmalloc (k : kheap) (size : Z) : option (kheap * Z) :=
  match kmalloc_size size with
  | KNull => Some (k, 0)
  | KSlab sz =>
    '(st, cs, r) ← slab_alloc (k_slab k) (k_caches k) sz;
    Some (KHeap st cs (k_vm k), default 0 r)
  | KVmalloc sz =>
    match vmalloc None (k_vm k) 0 sz VMM_FLAGS_DEFAULT with
    | (_, Ptr p) => Some (k, p)
    | (_, Fault) =>
      '(st, cs, self) ← slab_alloc (k_slab k) (k_caches k) sizeof_vm_area_t;
      match vmalloc self (k_vm k) 0 sz VMM_FLAGS_DEFAULT with
      | (vm, Ptr p) => Some (KHeap st cs vm, p)
      | (_, Fault) => None
      end
    end
  end.

(** [None] is the fault of [vfree] on a pointer that is nobody's. *)
Definition kfree (k : kheap) (ptr : Z) : option kheap :=
  let '(st, cs, is_slab) := slab_free (k_slab k) (k_caches k) ptr in
  if is_slab : bool then Some (KHeap st cs (k_vm k))
  else
    '(vm, self) ← vfree (k_vm k) ptr;
    let '(st, cs, _) := slab_free st cs self in
    Some (KHeap st cs vm).

End Slab.
