(* ===== verification/SlabProofs.v ===== *)
(** * Slab allocator: correctness

    Free lists as pointer chains through memory, the invariant of a cache, and
    the correctness of growing it, taking an object and giving one back. *)

From Stdlib Require Import ZifyBool.
From S2P Require Import Prelude DList Pmm Vmalloc Slab.

(** ** Chains of free objects *)

Fixpoint obj_chain (m : gmap Z Z) (p : Z) (l : list Z) : Prop :=
  match l with
  | [] => p = 0
  | x :: l => p = x /\ obj_chain m (load m x) l
  end.

Lemma load_insert m p v q : load (<[p := v]> m) q = if decide (q = p) then v else load m q.
Proof.
  unfold load. rewrite lookup_insert. destruct (decide (p = q)) as [->|].
  - by rewrite decide_True.
  - by rewrite decide_False.
Qed.

Lemma obj_chain_ext m m' p l :
  obj_chain m p l -> (forall x, x ∈ l -> load m' x = load m x) -> obj_chain m' p l.
Proof.
  revert p. induction l as [|x l IH]; intros p; simpl; [done|].
  intros [-> Hc] Heq. split; [done|]. rewrite Heq by left. apply IH; [done|].
  intros y Hy. apply Heq. by right.
Qed.

Lemma obj_chain_insert m p l q v : q ∉ l -> obj_chain m p l -> obj_chain (<[q := v]> m) p l.
Proof.
  intros Hq Hc. eapply obj_chain_ext; [exact Hc|]. intros x Hx. rewrite load_insert.
  by rewrite decide_False by (by intros ->).
Qed.

Lemma load_zero_range m p n q :
  load (zero_range m p n) q = if decide (p <= q < p + n) then 0 else load m q.
Proof.
  unfold load, zero_range. case_decide as E.
  - rewrite map_lookup_filter_None_2; [done|]. right. intros v _. naive_solver.
  - destruct (m !! q) as [v|] eqn:Eq.
    + by rewrite (map_lookup_filter_Some_2 _ _ _ v).
    + by rewrite map_lookup_filter_None_2 by (by left).
Qed.

(** ** Slabs *)

(** The objects of a slab and their number. *)
Definition slab_cnt (osize : Z) (s : slab_t) : Z := (s_size s - sizeof_slab_t) / osize.
Definition is_obj (osize : Z) (s : slab_t) (p : Z) : Prop :=
  exists i, 0 <= i < slab_cnt osize s /\ p = s_mem s + i * osize.

(** The memory run of a slab, header included. *)
Definition in_slab (s : slab_t) (x : Z) : Prop :=
  s_mem s - sizeof_slab_t <= x < s_mem s - sizeof_slab_t + s_size s.

Record slab_geom (osize : Z) (s : slab_t) : Prop := {
  sg_osize : 0 < osize;
  sg_start : sizeof_slab_t < s_mem s;
  sg_size : 0 < s_size s <= 4 * PAGE_SIZE;
  sg_end : s_mem s + s_size s < 2 ^ 64;
}.

Record slab_inv (m : gmap Z Z) (osize : Z) (s : slab_t) (l : list Z) : Prop := {
  si_geom : slab_geom osize s;
  si_chain : obj_chain m (free_list s) l;
  si_free : s_free s = Z.of_nat (length l);
  si_objs : Forall (is_obj osize s) l;
  si_nodup : NoDup l;
}.

(** Two slabs lie in different runs. *)
Definition slabs_apart (s t : slab_t) : Prop := forall x, in_slab s x -> ~ in_slab t x.

Lemma is_obj_in_slab osize s p :
  slab_geom osize s -> is_obj osize s p ->
  s_mem s <= p /\ p + osize <= s_mem s - sizeof_slab_t + s_size s.
Proof.
  intros [Ho _ _ _] (i & Hi & ->). unfold slab_cnt, sizeof_slab_t in *.
  pose proof (Z.mul_div_le (s_size s - 40) osize Ho). nia.
Qed.

Lemma is_obj_range osize s p : slab_geom osize s -> is_obj osize s p -> in_slab s p /\ 0 < p.
Proof.
  intros Hg Ho. destruct (is_obj_in_slab _ _ _ Hg Ho). destruct Hg as [? ? ? ?].
  unfold in_slab, sizeof_slab_t in *. lia.
Qed.

Lemma slabs_apart_sym s t : slabs_apart s t -> slabs_apart t s.
Proof. intros H x Ht Hs. by apply (H x). Qed.

(** The range test of [slab_cache_free] holds for the slab of an object.  It
    reaches into the header of the run that follows, but no further: it fails
    for every other slab. *)
Lemma in_own_range osize s p :
  slab_geom osize s -> is_obj osize s p ->
  (s_mem s <=? p) && (p <? u64 (s_mem s + s_size s)) = true.
Proof.
  intros Hs Hp. destruct (is_obj_in_slab _ _ _ Hs Hp). destruct Hs.
  unfold sizeof_slab_t in *. rewrite u64_small; lia.
Qed.

Lemma out_of_range osize s t p :
  slab_geom osize s -> slab_geom osize t -> slabs_apart s t -> is_obj osize s p ->
  (s_mem t <=? p) && (p <? u64 (s_mem t + s_size t)) = false.
Proof.
  intros Hs Ht Hap Hp. destruct (is_obj_in_slab _ _ _ Hs Hp) as [Hp1 Hp2].
  destruct Hs as [? ? ? ?], Ht as [? ? ? ?]. unfold sizeof_slab_t in *.
  rewrite u64_small by lia.
  assert (~ (s_mem t <= p < s_mem t + s_size t)) as Hn; [|lia]. intros Hpt.
  assert (~ in_slab t p) as Hnt.
  { intros Hin. apply (Hap p); [|done]. unfold in_slab, sizeof_slab_t. lia. }
  unfold in_slab, sizeof_slab_t in Hnt.
  apply (Hap (s_mem t - 40 + s_size t - 1)); unfold in_slab, sizeof_slab_t; lia.
Qed.

Lemma Forall2_lookup_geom m osize ss fl s :
  Forall2 (slab_inv m osize) ss fl -> s ∈ ss -> slab_geom osize s.
Proof.
  induction 1 as [|t l ss fl Ht Hss IH]; [by intros ?%not_elem_of_nil|].
  intros [->|?]%elem_of_cons; [apply Ht|by apply IH].
Qed.

Lemma slab_inv_frame m m' osize s l :
  slab_inv m osize s l -> (forall x, x ∈ l -> load m' x = load m x) -> slab_inv m' osize s l.
Proof. intros [? Hc ? ? ?] Heq. constructor; try done. by eapply obj_chain_ext. Qed.

Lemma slabs_frame m m' osize ss fl :
  Forall2 (slab_inv m osize) ss fl -> (forall x, x ∈ concat fl -> load m' x = load m x) ->
  Forall2 (slab_inv m' osize) ss fl.
Proof.
  induction 1 as [|s l ss fl Hs Hss IH]; intros Heq; [constructor|]. simpl in Heq.
  constructor.
  - eapply slab_inv_frame; [done|]. intros x Hx. apply Heq, elem_of_app. by left.
  - apply IH. intros x Hx. apply Heq, elem_of_app. by right.
Qed.

(** ** A new slab *)

(** The objects [i .. cnt) of a run that starts at [start]. *)
Definition objs (start osize i cnt : Z) : list Z :=
  (fun j => start + j * osize) <$> seqZ i (cnt - i).

Lemma objs_cons start osize i cnt :
  i < cnt -> objs start osize i cnt = (start + i * osize) :: objs start osize (i + 1) cnt.
Proof.
  intros Hi. unfold objs. rewrite seqZ_cons by lia. simpl. f_equal. f_equal.
  f_equal; lia.
Qed.

Lemma elem_of_objs start osize i cnt x :
  x ∈ objs start osize i cnt <-> exists j, i <= j < cnt /\ x = start + j * osize.
Proof. unfold objs. rewrite list_elem_of_fmap. setoid_rewrite elem_of_seqZ. naive_solver lia. Qed.

Lemma NoDup_objs start osize i cnt : 0 < osize -> NoDup (objs start osize i cnt).
Proof.
  intros Ho. apply NoDup_fmap_2; [|apply NoDup_seqZ]. intros j k E.
  apply (Z.mul_reg_r _ _ osize); lia.
Qed.

Lemma link_objects_load n : forall m start osize i q,
  0 < osize -> 1 <= i ->
  load (link_objects n m start osize i) q =
  if decide (q ∈ objs start osize (i - 1) (i - 1 + Z.of_nat n))
  then q + osize else load m q.
Proof.
  induction n as [|n IH]; intros m start osize i q Ho Hi; cbn [link_objects].
  { rewrite decide_False; [done|]. intros (j & ? & _)%elem_of_objs. lia. }
  rewrite IH by lia. destruct (decide (q = start + (i - 1) * osize)) as [->|Hne].
  - rewrite decide_False.
    2:{ intros (j & Hj & Heq)%elem_of_objs.
        assert (i - 1 = j) by (apply (Z.mul_reg_r _ _ osize); lia). lia. }
    rewrite decide_True by (apply elem_of_objs; exists (i - 1); split; [lia|done]).
    rewrite load_insert, decide_True by done. lia.
  - rewrite load_insert, (decide_False (P := q = _)) by done.
    apply decide_ext. rewrite !elem_of_objs. split.
    + intros (j & Hj & ->). exists j. split; [lia|done].
    + intros (j & Hj & ->). exists j. split; [|done].
      destruct (decide (j = i - 1)) as [->|]; [done|lia].
Qed.

Lemma chain_objs m start osize cnt n : forall i,
  cnt - i = Z.of_nat n -> 0 < osize ->
  (forall j, i <= j < cnt - 1 -> load m (start + j * osize) = start + (j + 1) * osize) ->
  ((0 < n)%nat -> load m (start + (cnt - 1) * osize) = 0) ->
  obj_chain m (if decide (n = 0%nat) then 0 else start + i * osize) (objs start osize i cnt).
Proof.
  induction n as [|n IH]; intros i Hn Ho Hlink Hlast.
  { unfold objs. rewrite Hn. done. }
  rewrite objs_cons by lia. simpl. split; [done|].
  specialize (IH (i + 1) ltac:(lia) Ho).
  destruct n as [|n]; simpl in IH.
  - replace i with (cnt - 1) by lia. rewrite Hlast by lia. replace (cnt - 1 + 1) with (i + 1) by lia.
    apply IH; [intros; lia|lia].
  - rewrite Hlink by lia. apply IH; [intros j Hj; apply Hlink; lia|]. intros _. apply Hlast. lia.
Qed.

(** The free list of a new slab. *)
Lemma new_chain m m0 start osize cnt :
  m = link_objects (Z.to_nat (cnt - 1)) m0 start osize 1 -> 0 < osize -> 1 <= cnt ->
  load m0 (start + (cnt - 1) * osize) = 0 ->
  obj_chain m start (objs start osize 0 cnt).
Proof.
  intros -> Ho Hcnt Hz. set (m := link_objects _ _ _ _ _).
  pose proof (chain_objs m start osize cnt (Z.to_nat cnt) 0 ltac:(lia) Ho) as Hc.
  rewrite decide_False in Hc by lia. replace (start + 0 * osize) with start in Hc by lia.
  apply Hc; unfold m.
  - intros j Hj. rewrite link_objects_load by lia.
    rewrite decide_True by (apply elem_of_objs; exists j; split; [lia|done]). lia.
  - intros _. rewrite link_objects_load by lia. rewrite decide_False; [done|].
    intros (j & Hj & Heq)%elem_of_objs.
    assert (cnt - 1 = j) by (apply (Z.mul_reg_r _ _ osize); lia). lia.
Qed.

(** A slab has no more free objects than its run has bytes. *)
Lemma free_bound m osize s l : slab_inv m osize s l -> Z.of_nat (length l) <= 4 * PAGE_SIZE.
Proof.
  intros [[Ho Hs Hsz He] _ _ Hobj Hnd].
  assert (slab_cnt osize s <= 4 * PAGE_SIZE) as Hc.
  { unfold slab_cnt, sizeof_slab_t. apply Z.div_le_upper_bound; nia. }
  assert (length l <= length (objs (s_mem s) osize 0 (slab_cnt osize s)))%nat as Hle.
  { apply submseteq_length, NoDup_submseteq; [done|]. intros x Hx.
    rewrite Forall_forall in Hobj. apply elem_of_objs. by apply Hobj. }
  unfold objs in Hle. rewrite length_fmap, length_seqZ in Hle. unfold PAGE_SIZE in *. lia.
Qed.

Section Proofs.
Context {P : Type} {PS : PageSource P}.
Implicit Types st : slab_state (P := P).

(** [slab_create] on a fresh run of pages lays out as many objects as fit
    behind the header, all on the free list, each inside the run; memory taken
    before is not written. *)
Lemma slab_create_spec st nr osize st' r :
  source_ok (pages st) -> nr ∈ [1; 2; 4] -> 8 <= osize -> osize <= nr * PAGE_SIZE - sizeof_slab_t ->
  slab_create st nr osize = Some (st', r) ->
  exists s, r = Some (s, slab_cnt osize s) /\
    slab_inv (mem st') osize s (objs (s_mem s) osize 0 (slab_cnt osize s)) /\
    1 <= slab_cnt osize s < 2 ^ 32 /\ source_ok (pages st') /\
    (forall x, in_slab s x -> ~ taken (pages st) x /\ taken (pages st') x) /\
    (forall x, taken (pages st) x -> taken (pages st') x /\ load (mem st') x = load (mem st) x).
Proof.
  intros Hok Hnr Ho Hfit. unfold slab_create.
  destruct (vmm_alloc_pages (pages st) nr) as [[pg a]|] eqn:Esrc; [|done].
  destruct (alloc_pages_spec _ _ _ _ Hok Hnr Esrc) as (Hok' & Ha0 & Haw & Hfresh & Hmono).
  assert (1 <= nr <= 4) as Hnr4 by (rewrite !elem_of_cons, elem_of_nil in Hnr; lia).
  simpl. rewrite (proj2 (Z.eqb_neq a 0)) by lia. unfold sizeof_slab_t, PAGE_SIZE in *.
  set (cnt := (nr * 4096 - 40) / osize).
  assert (1 <= cnt < 2 ^ 32 /\ cnt * osize <= nr * 4096 - 40) as [Hcnt Hmul].
  { unfold cnt. split; [|rewrite Z.mul_comm; apply Z.mul_div_le; lia].
    split; [apply Z.div_le_lower_bound; lia|]. apply Z.div_lt_upper_bound; nia. }
  rewrite !u32_small by lia. intros [= <- <-].
  set (m := link_objects _ _ _ _ _).
  exists (Slab (a + 40) (nr * 4096) cnt (a + 40)). split; [reflexivity|]. cbn [pages mem s_mem].
  assert (forall x, ~ (a <= x < a + nr * 4096) -> load m x = load (mem st) x) as Hout.
  { intros x Hx. unfold m. rewrite link_objects_load by lia. rewrite decide_False.
    - by rewrite load_zero_range, decide_False.
    - intros (j & Hj & ->)%elem_of_objs. apply Hx. nia. }
  split_and!; [|by apply Hcnt..|done| |].
  - constructor; cbn [s_mem s_size s_free free_list]; unfold slab_cnt, sizeof_slab_t;
      cbn [s_mem s_size]; fold cnt.
    + constructor; cbn [s_mem s_size]; unfold sizeof_slab_t, PAGE_SIZE; lia.
    + apply (new_chain m (zero_range (mem st) a (nr * 4096))); [done|lia|lia|].
      rewrite load_zero_range. by rewrite decide_True by nia.
    + unfold objs. rewrite length_fmap, length_seqZ. lia.
    + apply Forall_forall. intros x (j & Hj & ->)%elem_of_objs. by exists j.
    + apply NoDup_objs. lia.
  - intros x Hx. unfold in_slab, sizeof_slab_t in Hx. simpl in Hx. apply Hfresh. lia.
  - intros x Hx. split; [by apply Hmono|]. apply Hout. intros Hr. by apply (proj1 (Hfresh x Hr)).
Qed.

(** ** Taking and giving back *)

Definition same_slab (s s' : slab_t) : Prop := s_mem s' = s_mem s /\ s_size s' = s_size s.

Lemma same_slab_refl s : same_slab s s.
Proof. done. Qed.

Lemma apart_same ss ss' :
  Forall2 same_slab ss ss' -> ForallOrdPairs slabs_apart ss -> ForallOrdPairs slabs_apart ss'.
Proof.
  induction 1 as [|s s' ss ss' [E1 E2] Hss IH]; intros Hap; [constructor|].
  inversion Hap as [|? ? Hs Hap']; subst. constructor; [|by apply IH].
  clear -E1 E2 Hss Hs. induction Hss as [|t t' ss ss' [F1 F2] Hss IH]; [constructor|].
  apply Forall_cons in Hs as [Ht Hs]. constructor; [|by apply IH].
  intros x. unfold slabs_apart, in_slab in *. rewrite E1, E2, F1, F2. apply Ht.
Qed.

Lemma Forall2_same_refl ss : Forall2 same_slab ss ss.
Proof. induction ss; constructor; auto using same_slab_refl. Qed.

Lemma take_object_spec m osize ss fl :
  Forall2 (slab_inv m osize) ss fl -> NoDup (concat fl) -> concat fl ≠ [] ->
  exists ss' o fl', take_object m ss = Some (<[o := 0]> m, ss', o) /\
    Forall2 (slab_inv (<[o := 0]> m) osize) ss' fl' /\ Forall2 same_slab ss ss' /\
    concat fl ≡ₚ o :: concat fl' /\ exists s, s ∈ ss /\ is_obj osize s o.
Proof.
  intros H. induction H as [|s l ss fl Hs Hss IH]; intros Hnd Hne; [done|].
  simpl in Hnd, Hne. apply NoDup_app in Hnd as (Hl & Hdis & Hnd). cbn [take_object].
  pose proof (si_free _ _ _ _ Hs) as Hfree. destruct l as [|o l].
  - rewrite Hfree. simpl. destruct (IH Hnd Hne) as (ss' & o & fl' & -> & Hss' & Hsame & Hp & t & Ht & Hto).
    simpl. eexists (s :: ss'), o, ([] :: fl'). split; [done|]. split_and!; [|by constructor| |].
    + constructor; [|done]. eapply slab_inv_frame; [done|]. by intros x ?%not_elem_of_nil.
    + done.
    + exists t. split; [by right|done].
  - rewrite (proj2 (Z.ltb_lt 0 _)) by (rewrite Hfree; simpl; lia).
    pose proof (free_bound _ _ _ _ Hs) as Hb. destruct Hs as [Hg Hc Hf Ho _]. simpl in Hc. destruct Hc as [Hfl Hc]. subst o.
    apply NoDup_cons in Hl as [Hol Hl]. apply Forall_cons in Ho as [Ho1 Ho].
    eexists _, (free_list s), (l :: fl). split; [reflexivity|]. split_and!.
    + constructor.
      * constructor; cbn [s_mem s_size s_free free_list]; try done.
        -- by destruct Hg.
        -- by apply obj_chain_insert.
        -- rewrite Hf in *. simpl in *. rewrite u32_small; unfold PAGE_SIZE in *; lia.
      * eapply slabs_frame; [done|]. intros x Hx. rewrite load_insert, decide_False; [done|].
        intros ->. apply (Hdis (free_list s)); [left|done].
    + constructor; [done|apply Forall2_same_refl].
    + done.
    + exists s. split; [left|done].
Qed.

Lemma give_object_spec m osize ss fl o :
  Forall2 (slab_inv m osize) ss fl -> ForallOrdPairs slabs_apart ss ->
  o ∉ concat fl -> (exists s, s ∈ ss /\ is_obj osize s o) ->
  exists ss' fl' v, give_object m ss o = Some (<[o := v]> m, ss') /\
    Forall2 (slab_inv (<[o := v]> m) osize) ss' fl' /\ Forall2 same_slab ss ss' /\
    concat fl' ≡ₚ o :: concat fl.
Proof.
  intros H. induction H as [|s l ss fl Hs Hss IH]; intros Hap Hno (t & Ht & Hto);
    [by apply not_elem_of_nil in Ht|].
  inversion Hap as [|? ? Hs' Hap']; subst. simpl in Hno. rewrite not_elem_of_app in Hno.
  destruct Hno as [Hol Hno]. cbn [give_object]. rewrite Forall_forall in Hs'.
  apply elem_of_cons in Ht as [->|Ht].
  - rewrite in_own_range with (osize := osize) by (done || apply Hs).
    eexists _, ((o :: l) :: fl), (free_list s). split; [reflexivity|].
    split_and!; [|constructor; [done|apply Forall2_same_refl]|done].
    constructor.
    + pose proof (free_bound _ _ _ _ Hs) as Hb. destruct Hs as [Hg Hc Hf Ho Hn].
      constructor; cbn [s_mem s_size s_free free_list obj_chain].
      * by destruct Hg.
      * split; [done|]. rewrite load_insert, decide_True by done. by apply obj_chain_insert.
      * rewrite Hf. simpl. rewrite u32_small; unfold PAGE_SIZE in *; lia.
      * by constructor.
      * by constructor.
    + eapply slabs_frame; [done|]. intros x Hx. rewrite load_insert.
      by rewrite decide_False by (by intros ->).
  - pose proof (Forall2_lookup_geom _ _ _ _ _ Hss Ht) as Htg.
    rewrite (out_of_range osize t s o) by
      (done || apply Hs || by apply slabs_apart_sym, Hs').
    destruct (IH Hap' Hno) as (ss' & fl' & v & -> & Hss' & Hsame & Hp); [by exists t|].
    simpl. eexists (s :: ss'), (l :: fl'), v. split; [done|].
    split_and!; [|by constructor|simpl; rewrite Hp; by rewrite Permutation_middle].
    constructor; [|done]. eapply slab_inv_frame; [done|]. intros x Hx. rewrite load_insert.
    by rewrite decide_False by (by intros ->).
Qed.

(** ** Caches *)

(** All objects of a cache. *)
Definition slabs_objs (osize : Z) (ss : list slab_t) : list Z :=
  ss ≫= fun s => objs (s_mem s) osize 0 (slab_cnt osize s).
Definition cache_objs (c : slab_cache_t) : list Z := slabs_objs (obj_size c) (slabs c).

(** A cache with the free objects [fl] of its slabs and the objects [live]
    handed out: every object is on one side, once.  The counters are kept
    modulo their width. *)
Record slab_ok st (c : slab_cache_t) (fl : list (list Z)) (live : list Z) : Prop := {
  ca_source : source_ok (pages st);
  ca_slabs : Forall2 (slab_inv (mem st) (obj_size c)) (slabs c) fl;
  ca_apart : ForallOrdPairs slabs_apart (slabs c);
  ca_taken : forall s x, s ∈ slabs c -> in_slab s x -> taken (pages st) x;
  ca_objs : concat fl ++ live ≡ₚ cache_objs c;
  ca_free : free_objects c = u32 (Z.of_nat (length (concat fl)));
  ca_total : total_objects c = u32 (Z.of_nat (length (cache_objs c)));
  ca_pages : cache_nr_pages c ∈ [1; 2; 4];
  ca_room : 8 <= obj_size c <= cache_nr_pages c * PAGE_SIZE - sizeof_slab_t;
}.

Lemma elem_of_slabs_objs osize ss x :
  x ∈ slabs_objs osize ss <-> exists s, s ∈ ss /\ is_obj osize s x.
Proof.
  unfold slabs_objs. rewrite list_elem_of_bind. setoid_rewrite elem_of_objs.
  unfold is_obj. naive_solver.
Qed.

Lemma slabs_objs_cons osize s ss :
  slabs_objs osize (s :: ss) = objs (s_mem s) osize 0 (slab_cnt osize s) ++ slabs_objs osize ss.
Proof. done. Qed.

Lemma slabs_objs_same osize ss ss' :
  Forall2 same_slab ss ss' -> slabs_objs osize ss' = slabs_objs osize ss.
Proof.
  induction 1 as [|s s' ss ss' [E1 E2] Hss IH]; [done|].
  rewrite !slabs_objs_cons, IH. unfold slab_cnt. by rewrite E1, E2.
Qed.

Lemma NoDup_slabs_objs osize ss :
  Forall (slab_geom osize) ss -> ForallOrdPairs slabs_apart ss -> NoDup (slabs_objs osize ss).
Proof.
  induction 1 as [|s ss Hs Hss IH]; intros Hap; [constructor|].
  inversion Hap as [|? ? Hs' Hap']; subst. rewrite slabs_objs_cons.
  apply NoDup_app. split_and!; [apply NoDup_objs, Hs| |by apply IH].
  intros x Hx%elem_of_objs (t & Ht & Hxt)%elem_of_slabs_objs.
  rewrite Forall_forall in Hs', Hss. apply (Hs' t Ht x).
  - by eapply is_obj_range.
  - eapply is_obj_range; [by apply Hss|done].
Qed.

Lemma slabs_geom m osize ss fl : Forall2 (slab_inv m osize) ss fl -> Forall (slab_geom osize) ss.
Proof. induction 1 as [|s l ss fl Hs]; constructor; [apply Hs|done]. Qed.

Lemma slab_ok_NoDup st c fl live : slab_ok st c fl live -> NoDup (concat fl ++ live).
Proof.
  intros H. rewrite (ca_objs _ _ _ _ H). apply NoDup_slabs_objs; [|apply H].
  eapply slabs_geom, H.
Qed.

(** A cache without slabs. *)
Lemma new_cache_ok st osize nr :
  source_ok (pages st) -> nr ∈ [1; 2; 4] -> 8 <= osize <= nr * PAGE_SIZE - sizeof_slab_t ->
  slab_ok st (slab_cache_init osize nr) [] [].
Proof.
  intros. constructor; try done; [constructor..|]. by intros s x ?%not_elem_of_nil.
Qed.

(** Later page runs and writes elsewhere do not touch a cache. *)
Lemma slab_ok_frame st st' c fl live :
  slab_ok st c fl live -> source_ok (pages st') ->
  (forall x, taken (pages st) x -> taken (pages st') x) ->
  (forall x, x ∈ concat fl -> load (mem st') x = load (mem st) x) ->
  slab_ok st' c fl live.
Proof.
  intros [] Hok Ht Hm. constructor; try done.
  - by eapply slabs_frame.
  - intros s x Hs Hx. by eapply Ht, ca_taken0.
Qed.

Lemma free_taken st c fl live x :
  slab_ok st c fl live -> x ∈ concat fl ++ live ->
  taken (pages st) x /\ exists s, s ∈ slabs c /\ is_obj (obj_size c) s x.
Proof.
  intros Hok. rewrite (ca_objs _ _ _ _ Hok). intros (s & Hs & Hx)%elem_of_slabs_objs.
  split; [|by exists s]. eapply ca_taken; [done..|].
  eapply is_obj_range; [|done]. by eapply Forall2_lookup_geom; [apply Hok|].
Qed.

Lemma u32_add a b : u32 (u32 a + b) = u32 (a + b).
Proof. unfold u32. by rewrite Zplus_mod_idemp_l. Qed.

Lemma growth_spec st c fl live st' c' :
  slab_ok st c fl live -> slab_cache_growth st c = Some (st', c') ->
  exists l, l ≠ [] /\ slab_ok st' c' (l :: fl) live /\ obj_size c' = obj_size c /\
    (forall x, x ∈ l -> ~ taken (pages st) x) /\
    (forall x, taken (pages st) x -> taken (pages st') x /\ load (mem st') x = load (mem st) x).
Proof.
  intros Hok. unfold slab_cache_growth. pose proof (ca_room _ _ _ _ Hok) as Hroom.
  destruct (slab_create _ _ _) as [[st1 r]|] eqn:Ecr; [|done]. simpl.
  apply slab_create_spec in Ecr as (s & -> & Hinv & Hcnt & Hok' & Hnew & Hold);
    [|apply Hok|apply Hok|lia..].
  intros [= <- <-]. set (l := objs _ _ _ _) in *.
  assert (Z.of_nat (length l) = slab_cnt (obj_size c) s) as Hlen.
  { unfold l, objs. rewrite length_fmap, length_seqZ. lia. }
  exists l. split_and!; [by intros Hl; rewrite Hl in Hlen; simpl in Hlen; lia| |done| |done].
  - constructor; cbn [slabs obj_size free_objects total_objects cache_nr_pages]; try done.
    + constructor; [done|]. eapply slabs_frame; [apply Hok|]. intros x Hx. apply Hold.
      eapply (free_taken _ _ _ _ _ Hok), elem_of_app. by left.
    + constructor; [|apply Hok]. apply Forall_forall. intros t Ht x Hxs Hxt.
      apply (proj1 (Hnew x Hxs)). by eapply ca_taken.
    + intros t x [->|Ht]%elem_of_cons Hx; [by apply Hnew|].
      apply Hold. by eapply ca_taken.
    + unfold cache_objs. cbn [obj_size slabs concat]. unfold l_add_next.
      rewrite slabs_objs_cons. fold l. rewrite <- app_assoc. f_equiv.
      apply (ca_objs _ _ _ _ Hok).
    + rewrite (ca_free _ _ _ _ Hok), u32_add. simpl. rewrite length_app. f_equal. lia.
    + rewrite (ca_total _ _ _ _ Hok), u32_add. unfold cache_objs, l_add_next. cbn [obj_size slabs].
      rewrite slabs_objs_cons, length_app. fold l. f_equal. lia.
    + apply Hok.
  - intros x Hx. apply Hnew. unfold l in Hx. apply elem_of_objs in Hx.
    eapply is_obj_range; [apply Hinv|done].
Qed.

(** Changing the free objects of a cache's slabs. *)
Lemma slab_ok_update st m c fl live ss' fl' live' n :
  slab_ok st c fl live ->
  Forall2 (slab_inv m (obj_size c)) ss' fl' -> Forall2 same_slab (slabs c) ss' ->
  concat fl' ++ live' ≡ₚ concat fl ++ live -> n = u32 (Z.of_nat (length (concat fl'))) ->
  slab_ok (SlabState m (pages st))
    (Cache ss' (obj_size c) n (total_objects c) (cache_nr_pages c) (total_pages c)) fl' live'.
Proof.
  intros Hok Hss Hsame Hp ->. pose proof (slabs_objs_same (obj_size c) _ _ Hsame) as Hobjs.
  constructor; cbn [slabs obj_size free_objects total_objects cache_nr_pages pages mem];
    try (done || apply Hok).
  - eapply apart_same; [done|apply Hok].
  - intros s x Hs Hx. apply list_elem_of_lookup in Hs as [i Hi].
    destruct (Forall2_lookup_r _ _ _ _ _ Hsame Hi) as (t & Ht & E1 & E2).
    eapply (ca_taken _ _ _ _ Hok t); [by eapply list_elem_of_lookup_2|].
    unfold in_slab in *. by rewrite <- E1, <- E2.
  - rewrite Hp, (ca_objs _ _ _ _ Hok). unfold cache_objs. simpl. by rewrite Hobjs.
  - unfold cache_objs. cbn [slabs obj_size]. rewrite Hobjs. apply (ca_total _ _ _ _ Hok).
Qed.

Lemma take_spec st c fl live :
  slab_ok st c fl live -> concat fl ≠ [] ->
  exists m ss' o fl', take_object (mem st) (slabs c) = Some (m, ss', o) /\
    slab_ok (SlabState m (pages st))
      (Cache ss' (obj_size c) (u32 (free_objects c - 1)) (total_objects c) (cache_nr_pages c)
        (total_pages c)) fl' (o :: live) /\
    concat fl ≡ₚ o :: concat fl' /\ (forall x, x ≠ o -> load m x = load (mem st) x).
Proof.
  intros Hok Hne. pose proof (slab_ok_NoDup _ _ _ _ Hok) as (Hnd & _ & _)%NoDup_app.
  destruct (take_object_spec _ _ _ _ (ca_slabs _ _ _ _ Hok) Hnd Hne)
    as (ss' & o & fl' & -> & Hss & Hsame & Hp & _).
  eexists _, ss', o, fl'. split; [done|]. split_and!; [|done|].
  - eapply slab_ok_update; [done..| |].
    + rewrite Hp. simpl. by rewrite Permutation_middle.
    + rewrite (ca_free _ _ _ _ Hok), Hp. unfold u32. rewrite Zminus_mod_idemp_l.
      f_equal. simpl. lia.
  - intros x Hx. by rewrite load_insert, decide_False.
Qed.

(** The object given out: from a free one, or of a new slab. *)
Record gives st st' (c c' : slab_cache_t) (live : list Z) (o : Z) : Prop := {
  gv_ok : exists fl', slab_ok st' c' fl' (o :: live);
  gv_size : obj_size c' = obj_size c;
  gv_null : load (mem st') o = 0;
  gv_taken : forall x, taken (pages st) x -> taken (pages st') x;
  gv_mem : forall x, taken (pages st) x -> x ≠ o -> load (mem st') x = load (mem st) x;
}.

Lemma take_null m ss m' ss' o : take_object m ss = Some (m', ss', o) -> load m' o = 0.
Proof.
  revert ss'. induction ss as [|s ss IH]; intros ss'; cbn [take_object]; [done|].
  destruct (0 <? s_free s).
  - intros [= <- _ <-]. by rewrite load_insert, decide_True.
  - destruct (take_object m ss) as [[[m1 ss1] o1]|] eqn:E; [|done]. intros [= <- _ <-].
    by eapply IH.
Qed.

Lemma cache_alloc_spec st c fl live size :
  slab_ok st c fl live -> size <= obj_size c ->
  match slab_cache_alloc st c size with
  | Some (st', c', r) => exists o, r = Some o /\ gives st st' c c' live o /\
      (o ∈ concat fl \/ ~ taken (pages st) o)
  | None => free_objects c = 0 /\ vmm_alloc_pages (pages st) (cache_nr_pages c) = None
  end.
Proof.
  intros Hok Hsz. unfold slab_cache_alloc. rewrite (proj2 (Z.ltb_ge _ _) Hsz).
  destruct (free_objects c =? 0) eqn:Ez; breflect.
  - destruct (slab_cache_growth st c) as [[st1 c1]|] eqn:Eg; simpl.
    + destruct (growth_spec _ _ _ _ _ _ Hok Eg) as (l & Hl & Hok1 & Hos & Hnew & Hold).
      destruct (take_spec _ _ _ _ Hok1) as (m & ss' & o & fl' & Et & Hok2 & Hp & Hm).
      { simpl. by destruct l. }
      rewrite Et. exists o. split_and!; [done| |].
      * constructor; cbn [mem pages obj_size]; [by eexists|done|by eapply take_null| |].
        -- intros x Hx. by apply Hold.
        -- intros x Hx Hne. rewrite Hm by done. by apply Hold.
      * assert (o ∈ l ++ concat fl) as [Ho|Ho]%elem_of_app by (simpl in Hp; rewrite Hp; left).
        -- right. by apply Hnew.
        -- by left.
    + split; [done|]. unfold slab_cache_growth, slab_create in Eg.
      destruct (vmm_alloc_pages _ _) as [[pg a]|]; [|done]. simpl in Eg.
      by destruct (a =? 0).
  - simpl. destruct (take_spec _ _ _ _ Hok) as (m & ss' & o & fl' & Et & Hok2 & Hp & Hm).
    { intros Hn. apply Ez. by rewrite (ca_free _ _ _ _ Hok), Hn. }
    rewrite Et. exists o. split_and!; [done| |].
    + constructor; cbn [mem pages obj_size]; [by eexists|done|by eapply take_null|done|].
      intros x _. apply Hm.
    + left. rewrite Hp. left.
Qed.

Lemma cache_free_spec st c fl live o live' :
  slab_ok st c fl live -> live ≡ₚ o :: live' ->
  exists st' c' fl', slab_cache_free st c o = Some (st', c') /\ slab_ok st' c' fl' live' /\
    concat fl' ≡ₚ o :: concat fl /\ pages st' = pages st /\ obj_size c' = obj_size c /\
    (forall x, x ≠ o -> load (mem st') x = load (mem st) x).
Proof.
  intros Hok Hl. pose proof (slab_ok_NoDup _ _ _ _ Hok) as (_ & Hdis & _)%NoDup_app.
  destruct (give_object_spec _ _ _ _ o (ca_slabs _ _ _ _ Hok) (ca_apart _ _ _ _ Hok))
    as (ss' & fl' & v & Hg & Hss & Hsame & Hp).
  { intros Hin. apply (Hdis o Hin). rewrite Hl. left. }
  { eapply (free_taken st c fl live); [done|]. rewrite Hl. apply elem_of_app. right. left. }
  unfold slab_cache_free. rewrite Hg. simpl. eexists _, _, fl'. split; [reflexivity|].
  split_and!; [|done..|].
  - eapply slab_ok_update; [done..| |].
    + rewrite Hp, Hl. simpl. by rewrite Permutation_middle.
    + rewrite (ca_free _ _ _ _ Hok), u32_add, Hp. f_equal. simpl. lia.
  - intros x Hx. simpl. by rewrite load_insert, decide_False.
Qed.

(** Two objects of a cache do not overlap. *)
Lemma objects_apart osize ss x y :
  Forall (slab_geom osize) ss -> ForallOrdPairs slabs_apart ss ->
  x ∈ slabs_objs osize ss -> y ∈ slabs_objs osize ss -> x ≠ y ->
  x + osize <= y \/ y + osize <= x.
Proof.
  intros Hg Hap (s & Hs & Hx)%elem_of_slabs_objs (t & Ht & Hy)%elem_of_slabs_objs Hne.
  rewrite Forall_forall in Hg. pose proof (Hg s Hs) as Hgs. pose proof (Hg t Ht) as Hgt.
  destruct (decide (x + osize <= y \/ y + osize <= x)) as [|Hov]; [done|exfalso].
  assert (s = t \/ slabs_apart s t) as [<-|Hst].
  { destruct (ForallOrdPairs_In Hap s t) as [?|[?|?]]; [by apply list_elem_of_In..|by left|by right|].
    right. by apply slabs_apart_sym. }
  - destruct Hx as (i & Hi & ->), Hy as (j & Hj & ->). destruct Hgs as [Ho _ _ _].
    assert (i < j \/ i = j \/ j < i) as [?|[->|?]] by lia; [apply Hov; left; nia|done|].
    apply Hov; right; nia.
  - destruct (is_obj_in_slab _ _ _ Hgs Hx), (is_obj_in_slab _ _ _ Hgt Hy). destruct Hgs.
    apply (Hst (Z.max x y)); unfold in_slab, sizeof_slab_t in *; lia.
Qed.

(** ** Claims on a cache *)

(** [slab_cache_alloc] on every branch.  A request larger than the objects of
    the cache gets null and changes nothing.  Any other request gets an object,
    never null: one that was free, or one in memory that was not taken before;
    its first word is cleared, it joins the live objects, every object of the cache
    is still either free or live, once, and no other memory in use is written.
    The call fails only when the cache counts no free object and no pages are
    left. *)
Theorem slab_cache_alloc_correct st c fl live size :
  slab_ok st c fl live ->
  match slab_cache_alloc st c size with
  | Some (st', c', None) => obj_size c < size /\ st' = st /\ c' = c
  | Some (st', c', Some o) =>
      size <= obj_size c /\ gives st st' c c' live o /\
      (o ∈ concat fl \/ ~ taken (pages st) o)
  | None => free_objects c = 0 /\ vmm_alloc_pages (pages st) (cache_nr_pages c) = None
  end.
Proof.
  intros Hok. destruct (decide (size <= obj_size c)) as [Hle|Hgt].
  - pose proof (cache_alloc_spec st c fl live size Hok Hle) as H.
    destruct (slab_cache_alloc st c size) as [[[st' c'] r]|]; [|done].
    by destruct H as (o & -> & Hg & Ho).
  - unfold slab_cache_alloc. rewrite (proj2 (Z.ltb_lt _ _)) by lia. split; [lia|done].
Qed.

(** A cache in use: requests, releases of live objects, writes of the owners of
    live objects and of others outside the cache, and page runs handed out to
    others. *)
Inductive slab_step : slab_state (P := P) * slab_cache_t * list Z ->
    slab_state (P := P) * slab_cache_t * list Z -> Prop :=
  | sl_alloc st c live size st' c' o :
      slab_cache_alloc st c size = Some (st', c', Some o) ->
      slab_step (st, c, live) (st', c', o :: live)
  | sl_free st c live o live' st' c' :
      live ≡ₚ o :: live' -> slab_cache_free st c o = Some (st', c') ->
      slab_step (st, c, live) (st', c', live')
  | sl_store st c live x v :
      (exists o, o ∈ live /\ o <= x < o + obj_size c) \/ (forall s, s ∈ slabs c -> ~ in_slab s x) ->
      slab_step (st, c, live) (SlabState (<[x := v]> (mem st)) (pages st), c, live)
  | sl_pages st c live n pg a :
      n ∈ [1; 2; 4] -> vmm_alloc_pages (pages st) n = Some (pg, a) ->
      slab_step (st, c, live) (SlabState (mem st) pg, c, live).

(** A write inside a live object or outside the cache misses the free objects. *)
Lemma store_misses st c fl live x :
  slab_ok st c fl live ->
  (exists o, o ∈ live /\ o <= x < o + obj_size c) \/ (forall s, s ∈ slabs c -> ~ in_slab s x) ->
  x ∉ concat fl.
Proof.
  intros Hok Hx Hin. pose proof (ca_objs _ _ _ _ Hok) as Hp.
  assert (x ∈ concat fl ++ live) as Hxo by (apply elem_of_app; by left).
  destruct Hx as [(o & Ho & Hox)|Hx].
  - pose proof (slab_ok_NoDup _ _ _ _ Hok) as (_ & Hdis & _)%NoDup_app.
    assert (x ≠ o) as Hne by (intros ->; by apply (Hdis o)).
    assert (o ∈ concat fl ++ live) as Hoo by (apply elem_of_app; by right).
    rewrite Hp in Hxo, Hoo.
    pose proof (slabs_geom _ _ _ _ (ca_slabs _ _ _ _ Hok)) as Hg.
    destruct (objects_apart _ _ _ _ Hg (ca_apart _ _ _ _ Hok) Hxo Hoo Hne);
      pose proof (ca_room _ _ _ _ Hok); lia.
  - destruct (free_taken _ _ _ _ _ Hok Hxo) as (_ & s & Hs & Hobj). apply (Hx s Hs).
    eapply is_obj_range; [|done]. by eapply Forall2_lookup_geom; [apply Hok|].
Qed.

Definition slab_run_inv (osize : Z) (s : slab_state (P := P) * slab_cache_t * list Z) : Prop :=
  let '(st, c, live) := s in obj_size c = osize /\ exists fl, slab_ok st c fl live.

Lemma slab_step_inv osize s s' : slab_step s s' -> slab_run_inv osize s -> slab_run_inv osize s'.
Proof.
  intros [st c live size st' c' o E|st c live o live' st' c' Hl E|st c live x v Hx|st c live n pg a Hn E]
    [Hos [fl Hok]]; unfold slab_run_inv.
  - assert (size <= obj_size c) as Hle.
    { unfold slab_cache_alloc in E. destruct (obj_size c <? size) eqn:El; [done|]. breflect. lia. }
    pose proof (cache_alloc_spec st c fl live size Hok Hle) as H. rewrite E in H.
    destruct H as (? & [= <-] & [Hok' ? _ _ _] & _). split; [congruence|done].
  - destruct (cache_free_spec _ _ _ _ _ _ Hok Hl) as (st1 & c1 & fl1 & E1 & Hok' & _ & _ & ? & _).
    rewrite E in E1. simplify_eq. split; [done|by eexists].
  - split; [done|]. exists fl. eapply slab_ok_frame; [done|apply Hok|done|].
    intros y Hy. cbn [mem]. rewrite load_insert, decide_False; [done|]. intros ->.
    by eapply store_misses.
  - split; [done|]. exists fl.
    destruct (alloc_pages_spec _ _ _ _ (ca_source _ _ _ _ Hok) Hn E) as (? & _ & _ & _ & ?).
    by eapply slab_ok_frame.
Qed.

Lemma slab_run_ok osize s s' : rtc slab_step s s' -> slab_run_inv osize s -> slab_run_inv osize s'.
Proof. induction 1; eauto using slab_step_inv. Qed.

(** C2. Safety of a cache over any run.  Whatever sequence of requests, releases
    and writes by the owners of live objects, starting with nothing handed out:
    every object of the cache's slabs is free or live and never both, live
    objects never overlap, and every release of a live object succeeds, writes no
    memory but the object's first word and puts the object back on a free list. *)
Theorem slab_run_safe st0 c0 fl0 st c live :
  slab_ok st0 c0 fl0 [] -> rtc slab_step (st0, c0, []) (st, c, live) ->
  exists fl, slab_ok st c fl live /\ NoDup (concat fl ++ live) /\
    (forall x y, x ∈ live -> y ∈ live -> x ≠ y ->
      x + obj_size c0 <= y \/ y + obj_size c0 <= x) /\
    (forall o live', live ≡ₚ o :: live' ->
      exists st' c' fl', slab_cache_free st c o = Some (st', c') /\ slab_ok st' c' fl' live' /\
        concat fl' ≡ₚ o :: concat fl /\
        (forall x, x ≠ o -> load (mem st') x = load (mem st) x)).
Proof.
  intros Hok Hrun.
  destruct (slab_run_ok (obj_size c0) _ _ Hrun (conj eq_refl (ex_intro _ fl0 Hok))) as [Hos [fl Hok']].
  exists fl. split_and!; [done|by eapply slab_ok_NoDup| |].
  - intros x y Hx Hy. rewrite <- Hos.
    apply objects_apart with (ss := slabs c); [eapply slabs_geom, Hok'|apply Hok'|..];
      fold (cache_objs c); rewrite <- (ca_objs _ _ _ _ Hok'), elem_of_app; by right.
  - intros o live' Hl.
    destruct (cache_free_spec _ _ _ _ _ _ Hok' Hl) as (st1 & c1 & fl1 & ? & ? & ? & _ & _ & ?).
    by exists st1, c1, fl1.
Qed.

End Proofs.

(** ** Size classes *)

Section Kmalloc.
Context {P : Type} {PS : PageSource P} {S : Type} {AS : AddrSpace S}.
Implicit Types st : slab_state (P := P).

(** The first cache whose objects are large enough serves a request. *)
Lemma slab_alloc_first st pre c post size :
  Forall (fun d => obj_size d < size) pre -> size <= obj_size c ->
  slab_alloc st (pre ++ c :: post) size =
  '(st, c, r) ← slab_cache_alloc st c size; Some (st, pre ++ c :: post, r).
Proof.
  intros Hpre Hc. induction Hpre as [|d pre Hd Hpre IH]; cbn [slab_alloc app].
  - by rewrite (proj2 (Z.leb_le _ _) Hc).
  - rewrite (proj2 (Z.leb_gt _ _) Hd), IH.
    by destruct (slab_cache_alloc st c size) as [[[st' c'] r]|].
Qed.

Lemma round_up_8 s : 0 <= s < 2 ^ 63 -> Z.land (u64 (s + 8)) (u64 (Z.lnot 0x07)) = s / 8 * 8 + 8.
Proof.
  intros Hs. rewrite u64_small by lia. change (u64 (Z.lnot 7)) with (Z.ldiff (Z.ones 64) (Z.ones 3)).
  rewrite Z.ldiff_land, Z.land_assoc, Z.land_ones, Z.mod_small by lia.
  rewrite <- Z.ldiff_land, Z.ldiff_ones_r, Z.shiftr_div_pow2, Z.shiftl_mul_pow2 by lia.
  change (2 ^ 3) with 8. rewrite <- (Z.mul_1_l 8) at 1. rewrite Z.div_add by lia. lia.
Qed.

(** The size [kmalloc] asks the caches for. *)
Lemma kmalloc_size_spec size :
  0 < size < 2 ^ 63 ->
  kmalloc_size size =
  if decide (size <= SLAB_ALLOC_MAX_SIZE) then KSlab ((size + 7) / 8 * 8)
  else KVmalloc (PAGE_ALIGN_UP_IF size).
Proof.
  intros Hs. unfold kmalloc_size, SLAB_ALLOC_MAX_SIZE.
  rewrite (proj2 (Z.eqb_neq size 0)) by lia. case_decide as Hle.
  - destruct (size mod 8 =? 0) eqn:E; breflect.
    + rewrite (proj2 (Z.leb_le _ _) Hle). simpl. f_equal.
      pose proof (Z.div_mod size 8 ltac:(lia)).
      replace (size + 7) with (7 + size / 8 * 8) by lia. rewrite Z.div_add by lia.
      change (7 / 8) with 0. lia.
    + rewrite round_up_8 by lia.
      pose proof (Z.div_mod size 8 ltac:(lia)). pose proof (Z.mod_pos_bound size 8 ltac:(lia)).
      rewrite !(proj2 (Z.leb_le _ _)) by lia. simpl. f_equal.
      replace (size + 7) with ((size mod 8 - 1) + (size / 8 + 1) * 8) by lia.
      rewrite Z.div_add by lia. rewrite (Z.div_small (size mod 8 - 1) 8) by lia. lia.
  - rewrite (proj2 (Z.leb_gt size 8192)) by lia. done.
Qed.

Lemma first_fit (caches : list slab_cache_t) size :
  (exists c, c ∈ caches /\ size <= obj_size c) ->
  exists pre c post, caches = pre ++ c :: post /\
    Forall (fun d => obj_size d < size) pre /\ size <= obj_size c.
Proof.
  induction caches as [|d l IH]; intros (c & Hc & Hs); [by apply not_elem_of_nil in Hc|].
  destruct (decide (size <= obj_size d)) as [Hd|Hd].
  { by exists [], d, l. }
  destruct IH as (pre & c' & post & -> & Hpre & Hc').
  { exists c. apply elem_of_cons in Hc as [->|Hc]; [lia|done]. }
  exists (d :: pre), c', post. split_and!; [done| |done]. constructor; [lia|done].
Qed.

(** Size classes of [kmalloc].  With the caches of [slab_size_list], a request of
    at most 8192 bytes is served by the cache of the smallest class that holds it,
    for the size rounded up to a multiple of eight, and nothing else of the
    heap changes; a larger one goes to [vmalloc], rounded up to whole pages. *)
Theorem kmalloc_size_classes (k : kheap (P := P) (S := S)) size :
  map obj_size (k_caches k) = map fst slab_size_list -> 0 < size < 2 ^ 63 ->
  (size <= SLAB_ALLOC_MAX_SIZE ->
    exists pre c post sz, k_caches k = pre ++ c :: post /\ size <= sz < size + 8 /\
      Forall (fun d => obj_size d < size) pre /\ sz <= obj_size c /\
      kmalloc k size =
        '(st, c, r) ← slab_cache_alloc (k_slab k) c sz;
        Some (KHeap st (pre ++ c :: post) (k_vm k), default 0 r)) /\
  (SLAB_ALLOC_MAX_SIZE < size ->
    exists q, kmalloc_size size = KVmalloc (q * PAGE_SIZE) /\
      size <= q * PAGE_SIZE < size + PAGE_SIZE).
Proof.
  intros Hmap Hs. split; intros Hmax.
  - assert (Forall (fun x => x mod 8 = 0) (map obj_size (k_caches k))) as H8.
    { rewrite Hmap. by repeat constructor. }
    assert (8192 ∈ map obj_size (k_caches k)) as Htop.
    { rewrite Hmap. apply list_elem_of_In. simpl. tauto. }
    unfold kmalloc. rewrite kmalloc_size_spec, decide_True by done.
    set (sz := (size + 7) / 8 * 8).
    assert (size <= sz < size + 8 /\ sz mod 8 = 0) as [Hsz Hsz8].
    { unfold sz. split; [Z.div_mod_to_equations; lia|]. apply Z.mod_mul. lia. }
    destruct (first_fit (k_caches k) sz) as (pre & c & post & Heq & Hpre & Hc).
    { apply list_elem_of_fmap in Htop as (c & Hc & Hin). exists c. split; [done|].
      unfold SLAB_ALLOC_MAX_SIZE in Hmax. Z.div_mod_to_equations. lia. }
    exists pre, c, post, sz. split_and!; [done|lia|lia| |done|].
    + rewrite Heq, map_app in H8. apply Forall_app in H8 as [H8 _].
      apply Forall_map in H8. eapply Forall_impl; [apply Forall_and; split; [exact Hpre|exact H8]|].
      simpl. intros d [Hd Hd8]. Z.div_mod_to_equations. lia.
    + rewrite Heq, slab_alloc_first by done.
      by destruct (slab_cache_alloc (k_slab k) c sz) as [[[st' c'] r]|].
  - rewrite kmalloc_size_spec, decide_False by lia.
    destruct (PAGE_ALIGN_UP_IF_spec size) as (q & -> & Hq); [lia|]. by exists q.
Qed.

End Kmalloc.
