(* ===== verification/Vmm.v ===== *)
(** * Page runs of the kernel

    The page part of [kernel/src/mm/vmm.c]: mapping and unmapping ranges page by
    page, and the page runs of the direct mapping, on top of the page frames of
    [Pmm] and of the page tables.  The page tables are behind the interface [PageTables],
    which [ptm_tables] implements with the tables of [Ptm]; [vmm_source] shows that the runs are what
    the slab allocator relies on. *)

From S2P Require Import Prelude DList Pmm PmmBuddy PmmInit Ptm PtmProofs Vmalloc Slab SlabProofs.

Definition MI_DIRECT_MAPPING_RANGE_START : Z := 0xfffff70000000000.
Definition VMM_FLAGS_MMIO : Z := Z.lor VMM_FLAGS_DEFAULT (Z.lor 0x10 0x08).

Definition pfn_to_ptr (pfn : Z) : Z := u64 (Z.shiftl pfn PAGE_SHIFT).
Definition ptr_to_pfn (p : Z) : Z := Z.shiftr p PAGE_SHIFT.

(** The address [pfn_to_page] returns. *)
Definition page_addr (k : kmem_info_t) (pfn : Z) : Z :=
  u64 (__PHYS_TO_VIRT (pfn_database_pa k) + pfn * sizeof_page_t).

(** ** Page tables

    Mapping a range takes frames for tables from the allocator and leaves it
    well formed; [None] is a panic or a fault. *)
Class PageTables (T : Type) := {
  ptm_map_pages : kmem_info_t * T -> Z -> Z -> Z -> Z -> option (kmem_info_t * T);
  ptm_unmap_pages : kmem_info_t * T -> Z -> Z -> option (kmem_info_t * T);
  map_pages_frames : forall k t va pa n fl k' t',
    ptm_map_pages (k, t) va pa n fl = Some (k', t') ->
    buddy_inv k -> coalesced k ->
    buddy_inv k' /\ coalesced k' /\ frames k' ⊆ frames k /\ phys_limit k' = phys_limit k;
}.

Section Vmm.
Context (mem_behind : Z -> page_t) {T : Type} `{PageTables T}.
Notation state := (kmem_info_t * T)%type.

Definition vmm_map (s : state) (va pa nr_pages flags : Z) : option state :=
  ptm_map_pages s va pa nr_pages flags.
Definition vmm_unmap (s : state) (va nr_pages : Z) : option state := ptm_unmap_pages s va nr_pages.

(** The loops over the pages of a range; [n] pages are left. *)
Fixpoint vmap_pages (n : nat) (s : state) (va_start flags : Z) : option state :=
  match n with
  | O => Some s
  | S n =>
    match pmm_alloc_page mem_behind s.1 with
    | (k, Pfn pfn) =>
      s ← vmm_map (k, s.2) va_start (phys_addr (page_at mem_behind k pfn)) 1 flags;
      vmap_pages n s (u64 (va_start + PAGE_SIZE)) flags
    | _ => None
    end
  end.
Fixpoint vunmap_pages (n : nat) (s : state) (va_start : Z) : option state :=
  match n with
  | O => Some s
  | S n => s ← vmm_unmap s va_start 1; vunmap_pages n s (u64 (va_start + PAGE_SIZE))
  end.

(** The iterations of [for (va_start = va; va_start < va_end; va_start += PAGE_SIZE)]
    with [va_end = va + PAGE_TO_SIZE(nr_pages)]: none when the end wraps around. *)
Definition loop_count (va nr_pages : Z) : nat :=
  Z.to_nat ((u64 (va + PAGE_TO_SIZE nr_pages) - va) / PAGE_SIZE).

Definition vmm_vmap_pages (s : state) (va nr_pages flags : Z) : option state :=
  if Z.land flags VMM_FLAGS_MMIO =? VMM_FLAGS_MMIO then
    match pmm_alloc_pages mem_behind s.1 nr_pages with
    | (k, Pfn pfn) => vmm_map (k, s.2) va (page_addr k pfn) nr_pages VMM_FLAGS_MMIO
    | _ => None
    end
  else vmap_pages (loop_count va nr_pages) s va flags.

Definition vmm_vunmap_pages (s : state) (va nr_pages flags : Z) : option state :=
  if Z.land flags VMM_FLAGS_MMIO =? VMM_FLAGS_MMIO then vmm_unmap s va nr_pages
  else vunmap_pages (loop_count va nr_pages) s va.

(** [vmm_alloc_pages] and [vmm_free_pages] *)
Definition direct_alloc_pages (s : state) (nr_pages : Z) : option (state * Z) :=
  match pmm_alloc_pages mem_behind s.1 nr_pages with
  | (k, Pfn pfn) =>
    let phys_addr := pfn_to_ptr pfn in
    let virt_addr := u64 (MI_DIRECT_MAPPING_RANGE_START + phys_addr) in
    s ← ptm_map_pages (k, s.2) virt_addr phys_addr nr_pages VMM_FLAGS_DEFAULT;
    Some (s, virt_addr)
  | _ => None
  end.
Definition direct_alloc_page (s : state) : option (state * Z) := direct_alloc_pages s 1.
Definition direct_free_pages (s : state) (ptr nr_pages : Z) : option state :=
  if ptr =? 0 then Some s else ptm_unmap_pages s ptr nr_pages.
Definition direct_free_page (s : state) (ptr : Z) : option state := direct_free_pages s ptr 1.

(** ** The runs are what the slab allocator relies on *)

(** Memory is taken when its frame is not free. *)
Definition direct_taken (s : state) (x : Z) : Prop :=
  (x - MI_DIRECT_MAPPING_RANGE_START) / PAGE_SIZE ∉ frames s.1.
Definition direct_ok (s : state) : Prop :=
  buddy_inv s.1 /\ coalesced s.1 /\ npages s.1 <= 2 ^ 27.

Lemma alloc_frames mb k nr k' p :
  buddy_inv k -> coalesced k -> 0 < nr -> pmm_alloc_pages mb k nr = (k', Pfn p) ->
  buddy_inv k' /\ coalesced k' /\ block_ok k' (alloc_order nr) p /\
  frames k ≡ₚ seqZ p (pages_of (alloc_order nr)) ++ frames k' /\ phys_limit k' = phys_limit k.
Proof.
  intros Hinv Hc Hnr E. unfold pmm_alloc_pages in E. rewrite (proj2 (Z.eqb_neq _ _)) in E by lia.
  destruct (_ <? nr); [done|].
  destruct (decide (nr <= pages_of (MM_MAX_ORDER - 1))) as [Hle|Hgt].
  2:{ unfold _buddy_alloc_pages in E. by rewrite (proj2 (Z.ltb_lt _ _)) in E by lia. }
  pose proof (buddy_alloc_spec mb k nr Hinv Hc Hle) as H'.
  destruct (_buddy_alloc_pages mb k nr) as [k1 [p1|]]; [|done].
  destruct H' as ((Hinv' & Hok & _) & Hc' & Hfr' & _ & Hlim & _).
  rewrite (inv_block_pfn Hinv' mb _ _ Hok) in E. by simplify_eq.
Qed.

Lemma run_order n : n ∈ [1; 2; 4] -> pages_of (alloc_order n) = n /\ 1 <= n <= 4.
Proof. rewrite !elem_of_cons, elem_of_nil. by intros [->|[->|[->|[]]]]. Qed.

Lemma direct_alloc_spec s n s' a :
  direct_ok s -> n ∈ [1; 2; 4] -> direct_alloc_pages s n = Some (s', a) ->
  direct_ok s' /\ 0 < a /\ a + (n + 1) * PAGE_SIZE < 2 ^ 64 /\
  (forall x, a <= x < a + n * PAGE_SIZE -> ~ direct_taken s x /\ direct_taken s' x) /\
  (forall x, direct_taken s x -> direct_taken s' x).
Proof.
  destruct s as [k t]. intros (Hinv & Hc & Hnp) Hn. destruct (run_order n Hn) as [Ho Hn4].
  unfold direct_alloc_pages. cbn [fst snd] in *.
  destruct (pmm_alloc_pages mem_behind k n) as [k1 [p| |]] eqn:Ea; [|done..].
  apply alloc_frames in Ea as (Hinv1 & Hc1 & (_ & _ & Hp0 & Hp1) & Hfr & Hl1); [|done..|lia].
  rewrite Ho in *. destruct (ptm_map_pages _ _ _ _ _) as [[k2 t2]|] eqn:Em; [|done].
  simpl. intros [= <- <-].
  apply map_pages_frames in Em as (Hinv2 & Hc2 & Hsub & Hl2); [|done..].
  assert (npages k1 = npages k) as Hnp1 by (unfold npages; congruence).
  unfold pfn_to_ptr, direct_ok, direct_taken. cbn [fst snd].
  rewrite page_address by lia. unfold MI_DIRECT_MAPPING_RANGE_START, PAGE_SIZE in *.
  rewrite u64_small by lia. pose proof (bi_frames k Hinv) as Hnd. rewrite Hfr in Hnd.
  apply NoDup_app in Hnd as (_ & Hdis & _). split_and!; try done; [|lia..| |].
  - unfold npages in *. by rewrite Hl2, Hl1.
  - intros x Hx. assert ((x - 0xfffff70000000000) / 4096 ∈ seqZ p n) as Hin.
    { apply elem_of_seqZ. split; [apply Z.div_le_lower_bound|apply Z.div_lt_upper_bound]; lia. }
    rewrite Hfr, elem_of_app. split; [tauto|]. intros Hk2. by apply (Hdis _ Hin), Hsub.
  - intros x Hx Hk2. apply Hx. rewrite Hfr, elem_of_app. right. by apply Hsub.
Qed.

#[global] Instance vmm_source : PageSource state :=
  { vmm_alloc_pages := direct_alloc_pages; source_ok := direct_ok; taken := direct_taken;
    alloc_pages_spec := direct_alloc_spec }.

End Vmm.

(** The tables of [ptm.c]. *)
#[global] Instance ptm_tables (mb : Z -> page_t) : PageTables ptm_t :=
  { ptm_map_pages := map_pages mb; ptm_unmap_pages := unmap_pages mb;
    map_pages_frames := map_pages_taken mb }.

(** ** Concrete runs

    A machine with sixteen free frames and a root table, in frame 1000, that holds
    only its recursive entry. *)

Definition demo_ptm : ptm_t := Ptm (ptm_recursive_init ∅ 1000 (1000 * PAGE_SIZE)) (1000 * PAGE_SIZE).

#[local] Instance demo_tables : PageTables ptm_t := ptm_tables no_pages.
#[local] Instance demo_source : PageSource (kmem_info_t * ptm_t) := vmm_source no_pages.

Definition demo_slab : slab_state (P := kmem_info_t * ptm_t) := SlabState ∅ (demo_kmem, demo_ptm).

Lemma demo_cache_ok : slab_ok demo_slab (slab_cache_init 64 1) [] [].
Proof.
  apply new_cache_ok; [|left|unfold PAGE_SIZE, sizeof_slab_t; lia].
  split_and!; [apply demo_loaded..|]. apply Z.leb_le. vm_compute. reflexivity.
Qed.

Definition gives_object (r : option (slab_state (P := kmem_info_t * ptm_t) * slab_cache_t * option Z)) : bool :=
  match r with Some (_, _, Some _) => true | _ => false end.

Lemma slab_cache_alloc_correct_witness :
  exists st c o, slab_cache_alloc demo_slab (slab_cache_init 64 1) 64 = Some (st, c, Some o) /\
    gives demo_slab st (slab_cache_init 64 1) c [] o.
Proof.
  pose proof (slab_cache_alloc_correct demo_slab (slab_cache_init 64 1) [] [] 64 demo_cache_ok) as H.
  assert (gives_object (slab_cache_alloc demo_slab (slab_cache_init 64 1) 64) = true) as E
    by (vm_compute; reflexivity).
  destruct (slab_cache_alloc _ _ _) as [[[st c] [o|]]|]; [|discriminate E..].
  exists st, c, o. split; [reflexivity|apply H].
Defined.

Lemma slab_run_safe_witness :
  exists st c o fl, rtc slab_step (demo_slab, slab_cache_init 64 1, []) (st, c, [o]) /\
    slab_ok st c fl [o].
Proof.
  assert (gives_object (slab_cache_alloc demo_slab (slab_cache_init 64 1) 64) = true) as E
    by (vm_compute; reflexivity).
  destruct (slab_cache_alloc demo_slab (slab_cache_init 64 1) 64) as [[[st c] [o|]]|] eqn:Ea;
    [|discriminate E..].
  assert (rtc slab_step (demo_slab, slab_cache_init 64 1, []) (st, c, [o])) as Hrun
    by (eapply rtc_once, sl_alloc, Ea).
  destruct (slab_run_safe _ _ _ _ _ _ demo_cache_ok Hrun) as (fl & Hok & _).
  exists st, c, o, fl. split; [exact Hrun|exact Hok].
Defined.

Definition demo_kheap : kheap (P := kmem_info_t * ptm_t) (S := Z -> Prop) :=
  KHeap demo_slab (map (fun '(osize, nr) => slab_cache_init osize nr) slab_size_list) demo_mm.

Lemma kmalloc_size_classes_witness :
  exists pre c post, k_caches demo_kheap = pre ++ c :: post /\
    Forall (fun d => obj_size d < 100) pre /\ 100 <= obj_size c /\
    kmalloc_size 100 = KSlab 104 /\ kmalloc_size 9000 = KVmalloc (3 * PAGE_SIZE).
Proof.
  destruct (kmalloc_size_classes demo_kheap 100) as [(pre & c & post & sz & H1 & H2 & H3 & H4 & _) _];
    [reflexivity|lia|unfold SLAB_ALLOC_MAX_SIZE; lia|].
  exists pre, c, post. split_and!; [exact H1|exact H3|lia|reflexivity|reflexivity].
Defined.
