(* ===== verification/PtmSpace.v ===== *)
(** * Address spaces on the page tables

    The interface [AddrSpace] of the virtual areas implemented by the code below it:
    [vmm_vmap] and [vmm_vunmap] of [Vmm] on the page tables of [Ptm] and the frames of
    [Pmm].  The invariant [space_inv] ties the three together: the tables form a tree,
    every page mapped in an area has a frame of its own that is allocated as one page,
    and no table lies in such a frame.  So mapping never hands out a frame in use,
    and unmapping gives every frame back exactly once. *)

From S2P Require Import Prelude DList Pmm PmmBuddy PmmInit Ptm PtmProofs Vmalloc Slab SlabProofs Vmm.

(** ** The areas as page numbers *)

Definition area_addr (x : Z) : Prop :=
  MI_USER_VMAREA_SAPACE_START <= x <= MI_USER_VMAREA_SAPACE_END \/
  MI_KERNEL_VMAREA_SAPACE_START <= x <= MI_KERNEL_VMAREA_SAPACE_END.
Definition area_vpn (v : Z) : Prop := 16 <= v < 2 ^ 35 \/ 508 * 2 ^ 27 <= v < 510 * 2 ^ 27.

Ltac unfold_areas :=
  unfold area_addr, area_vpn, MI_USER_VMAREA_SAPACE_START, MI_USER_VMAREA_SAPACE_END,
    MI_KERNEL_VMAREA_SAPACE_START, MI_KERNEL_VMAREA_SAPACE_END in *.

Lemma area_addr_vpn x :
  area_addr x -> area_vpn (vpn x) /\ vpn x / 2 ^ 27 <> 510 /\
  (x = vpn x * 4096 + PAGING_OFFSET x \/ x = vpn x * 4096 + PAGING_OFFSET x + 0xffff000000000000) /\
  0 <= PAGING_OFFSET x < 4096.
Proof.
  intros Hx. assert (PAGING_OFFSET x = x mod 4096) as ->
    by (unfold PAGING_OFFSET; change 0xfff with (Z.ones 12); by rewrite Z.land_ones by lia).
  unfold_areas. unfold vpn. Z.div_mod_to_equations; lia.
Qed.

Lemma in_space_area flags va n x : in_space flags va n -> page_in va n x -> area_addr x.
Proof.
  intros [_ _ _ Hs He] Hx. unfold page_in in Hx. unfold_areas.
  unfold mm_get_vmarea_start, mm_get_vmarea_end in *. unfold_areas. case_match; lia.
Qed.

(** One page of an area space. *)
Lemma in_space_page flags va :
  in_space flags va 1 ->
  page_range va 1 /\ area_vpn (vpn va) /\ Z.testbit flags 0 = true /\ Z.testbit flags 7 = false /\
  Z.land flags VMM_FLAGS_MMIO <> VMM_FLAGS_MMIO /\
  forall x, area_addr x -> page_in va 1 x <-> vpn x = vpn va.
Proof.
  intros [Hf [q Hq] _ Hs He]. unfold mm_get_vmarea_start, mm_get_vmarea_end in *.
  assert (area_vpn (vpn va) /\ 0 <= va < 2 ^ 64 /\ vpn va + 1 < 2 ^ 36 /\
    (forall v, vpn va <= v <= vpn va + 1 -> v / 2 ^ 27 <> 510) /\
    forall x, area_addr x -> page_in va 1 x <-> vpn x = vpn va) as (H1 & H2 & H3 & H4 & H5).
  { unfold page_in, PAGE_SIZE in *. unfold_areas. unfold vpn.
    case_match; subst va; split_and!; intros; Z.div_mod_to_equations; lia. }
  split_and!; try done.
  - constructor; [done|by exists q|lia|done|done].
  - by destruct Hf as [-> | ->].
  - by destruct Hf as [-> | ->].
  - by destruct Hf as [-> | ->].
Qed.

Section Space.
Context (mb : Z -> page_t) (F : list Z) (HF : NoDup F).
Notation state := (kmem_info_t * ptm_t)%type.

#[local] Instance tables : PageTables ptm_t := ptm_tables mb.

(** [vs] are the pages mapped in the areas, [live] the allocated blocks. *)
Record space_inv (s : state) (T : table_map) (vs : list Z) (live : list (Z * nat)) : Prop := {
  sp_pt : pt_inv s.1 s.2 T;
  sp_pmm : pmm_inv mb F (s.1, live);
  sp_nodup : NoDup vs;
  sp_vs : forall v, v ∈ vs <-> area_vpn v /\ present (pte_of s.2 T v) = true;
  sp_live : exists rest, live ≡ₚ blocks (frame_of s.2 T <$> vs) ++ rest;
  sp_tables : forall v a, v ∈ vs -> T !! a <> Some (frame_of s.2 T v);
}.

Definition sp_ok (s : state) : Prop := exists T vs live, space_inv s T vs live.
Definition sp_mapped (s : state) (x : Z) : Prop := area_addr x /\ is_Some (translate s.2 x).

Lemma sp_mapped_vs s T vs live x :
  space_inv s T vs live -> sp_mapped s x <-> area_addr x /\ vpn x ∈ vs.
Proof.
  intros Hs. unfold sp_mapped. split; intros [Hx H]; (split; [done|]); destruct (area_addr_vpn x Hx) as (Hv & Hne & _).
  - rewrite (translate_pte s.2 T) in H by (done || apply Hs). apply (sp_vs _ _ _ _ Hs).
    destruct (present _); [done|by destruct H].
  - rewrite (translate_pte s.2 T) by (done || apply Hs). apply (sp_vs _ _ _ _ Hs) in H as [_ ->]. by eexists.
Qed.

Lemma pmm_inv_perm l k live live' : live ≡ₚ live' -> pmm_inv mb l (k, live) -> pmm_inv mb l (k, live').
Proof.
  intros Hp [H1 H2 H3 H4]. constructor; cbn [fst snd] in *; try done.
  - by rewrite <- Hp.
  - intros p o Hin. apply H4. by rewrite Hp.
Qed.

(** Frames of order-0 blocks are not free. *)
Lemma blocks_live fs live rest f :
  live ≡ₚ blocks fs ++ rest -> f ∈ fs -> f ∈ live_frames live.
Proof.
  intros Hl Hf. apply (elem_of_live_frames f 0). rewrite Hl, elem_of_app. left.
  apply list_elem_of_fmap. by exists f.
Qed.

Lemma live_not_free s live f : pmm_inv mb F (s, live) -> f ∈ live_frames live -> f ∉ frames s.
Proof.
  intros Hp Hf. pose proof HF as Hnd. rewrite <- (pi_frames _ _ _ Hp) in Hnd.
  apply NoDup_app in Hnd as (_ & Hd & _). by apply Hd.
Qed.

#[local] Instance blocks_proper : Proper ((≡ₚ) ==> (≡ₚ)) blocks.
Proof. intros l l' H. unfold blocks. by rewrite H. Qed.

(** An allocated block may be given back. *)
Lemma live_pending k live live' p o :
  pmm_inv mb F (k, live) -> live ≡ₚ (p, o) :: live' -> pending k o p /\ order (page_at mb k p) = o.
Proof.
  intros Hi Hp. destruct (pi_live _ _ _ Hi p o) as [Hok Ho]; [cbn [snd]; rewrite Hp; left|].
  split; [|done]. split_and!; [apply Hi|done|]. apply NoDup_app.
  split_and!; [apply NoDup_seqZ| |apply (pi_buddy _ _ _ Hi)].
  intros x Hx. apply (live_not_free _ live _ Hi). rewrite Hp. apply elem_of_app. by left.
Qed.

Lemma step_limit s s' : pmm_inv mb F s -> pmm_step mb s s' -> npages s'.1 = npages s.1.
Proof.
  intros Hi Hst. unfold npages. f_equal. destruct Hst as [k k' nr p live Hnr E|k p o live live' Hp]; cbn [fst].
  - apply alloc_frames in E as (_ & _ & _ & _ & ->); [done|apply Hi..|done].
  - destruct (live_pending _ _ _ _ _ Hi Hp) as [Hpen Ho]. unfold pmm_free_pages. rewrite Ho.
    by destruct (free_spec mb k o p Hpen) as (_ & _ & _ & -> & _).
Qed.

Lemma run_limit s s' : pmm_inv mb F s -> rtc (pmm_step mb) s s' -> npages s'.1 = npages s.1.
Proof.
  intros Hi Hst. induction Hst as [|s s1 s' H1 _ IH]; [done|].
  rewrite IH by (by eapply pmm_step_inv). by apply step_limit.
Qed.

(** Giving a page back frees that page. *)
Lemma freed_frames k live k' live' f :
  pmm_inv mb F (k, live) -> pmm_inv mb F (k', live') -> live ≡ₚ (f, 0%nat) :: live' ->
  frames k' ≡ₚ f :: frames k.
Proof.
  intros Hi Hi' Hp. apply (Permutation_app_inv_l (live_frames live')).
  rewrite (pi_frames _ _ _ Hi'), <- (pi_frames _ _ _ Hi). cbn [fst snd]. rewrite Hp. cbn.
  change (seqZ f (pages_of 0)) with [0 + f]. rewrite Z.add_0_l. simpl. apply Permutation_middle.
Qed.

(** One page needs at most two tables a level: a range is taken up to the page behind it. *)
Lemma page_tables_needed va : (tables_needed va 1 <= 6)%nat.
Proof.
  unfold tables_needed, entries_of, ent. change (512 ^ (3 - Z.of_nat 2)) with 512.
  change (512 ^ (3 - Z.of_nat 1)) with (512 * 512). change (512 ^ (3 - Z.of_nat 0)) with (512 * 512 * 512).
  Z.div_mod_to_equations. lia.
Qed.

(** A page [pfn] of the allocator was mapped at the address [va], and the tables [fs], at most six and at places of
    [Q], were added; no page but this changed its entry, and no memory but the tables was written. *)
Record page_added (Q : nat * Z -> Prop) (k : kmem_info_t) (t : ptm_t) (T : table_map) (va fl : Z)
    (k2 : kmem_info_t) (t2 : ptm_t) (T2 : table_map) (pfn : Z) (fs : list Z) : Prop := {
  pa_pt : pt_inv k2 t2 T2;
  pa_cr3 : cr3 t2 = cr3 t;
  pa_sub : T ⊆ T2;
  pa_new : forall a f, T2 !! a = Some f -> T !! a = Some f \/ f ∈ fs /\ Q a;
  pa_frames : frames k ≡ₚ pfn :: fs ++ frames k2;
  pa_range : 0 <= pfn < npages k;
  pa_steps : forall live, rtc (pmm_step mb) (k, live) (k2, blocks fs ++ (pfn, 0%nat) :: live);
  pa_pte : forall v, pte_of t2 T2 v = if decide (v = vpn va) then set_pte pfn fl else pte_of t T v;
  pa_mem : forall g j, 0 <= j < 512 -> (forall a, T2 !! a <> Some g) -> entry (pmem t2) g j = entry (pmem t) g j;
  pa_few : (length fs <= 6)%nat;
}.

Lemma map_page_added Q k t T fl va k1 pfn :
  pt_inv k t T -> page_range va 1 -> may_add Q (vpn va) 1 -> Z.testbit fl 0 = true -> Z.testbit fl 7 = false ->
  present (pte_of t T (vpn va)) = false -> pmm_alloc_page mb k = (k1, Pfn pfn) ->
  match map_pages mb (k1, t) va (phys_addr (page_at mb k1 pfn)) 1 fl with
  | Some (k2, t2) => exists T2 fs, page_added Q k t T va fl k2 t2 T2 pfn fs
  | None => (length (frames k) < 7)%nat
  end.
Proof.
  intros [Ht Hb Hc Hlim Hu] Hr HQ H0 H7 Hab Ea.
  pose proof (alloc_page_spec mb k Hb Hc) as A. rewrite Ea in A.
  destruct A as (Hb1 & Hc1 & Hfr & Hnp & Hpfn & Hst).
  assert (phys_addr (page_at mb k1 pfn) = pfn * 4096) as ->.
  { destruct (inv_page Hb1 pfn ltac:(lia)) as (pg & E & Hph). unfold page_at. by rewrite E. }
  pose proof (page_tables_needed va) as Hneed. pose proof (Permutation_length Hfr) as Hlen. simpl in Hlen.
  assert (pt_inv k1 t T) as Hpt1.
  { constructor; try done; [lia|]. intros a f Hf Hin. apply (Hu a f Hf). rewrite Hfr. by right. }
  pose proof (map_pages_spec mb Q k1 t T va (pfn * 4096) 1 fl Hpt1 Hr HQ ltac:(lia) H0 H7) as M.
  destruct (map_pages mb (k1, t) va _ 1 fl) as [[k2 t2]|].
  2:{ destruct M as [(x & Hx & Hp)|M]; [|lia]. replace x with (vpn va) in Hp by lia. congruence. }
  destruct M as (t1 & T' & fs & G & Hfl & Hpt2 & Hc2 & Hd & _ & Hpte). rewrite Z.div_mul in Hpte by lia.
  pose proof (gr_frames _ _ _ _ _ _ _ _ _ G) as Hfr1.
  exists T', fs. constructor; try done.
  - apply G.
  - intros a f Hf. destruct (gr_new _ _ _ _ _ _ _ _ _ G a f Hf) as [?|?]; [by left|].
    destruct (gr_where _ _ _ _ _ _ _ _ _ G a f Hf) as [?|?]; [by left|by right].
  - by rewrite Hfr, Hfr1.
  - intros live. eapply rtc_l; [apply Hst|]. apply (gr_steps _ _ _ _ _ _ _ _ _ G).
  - intros v. rewrite Hpte. destruct (decide (v = vpn va)) as [->|Hne]; [|by rewrite decide_False by lia].
    rewrite decide_True by lia. f_equal. lia.
  - intros g j Hj Hg. rewrite Hd by done. apply G; [done| |].
    + intros Hin. destruct (gr_fs _ _ _ _ _ _ _ _ _ G g Hin) as [a Ha]. by apply (Hg a).
    + intros a Ha. apply (Hg a). by eapply lookup_weaken; [|apply G].
  - lia.
Qed.

(** The frame of the new page and the new tables are of the free frames, and apart. *)
Lemma added_free Q k t T va fl k2 t2 T2 pfn fs :
  buddy_inv k -> page_added Q k t T va fl k2 t2 T2 pfn fs ->
  pfn ∈ frames k /\ pfn ∉ fs /\ (forall f, f ∈ fs -> f ∈ frames k) /\ (forall f, f ∈ frames k2 -> f ∈ frames k) /\
  (length (frames k) <= 7 + length (frames k2))%nat /\ page_frame (set_pte pfn fl) = pfn mod 2 ^ 36.
Proof.
  intros Hb A. pose proof (pa_frames _ _ _ _ _ _ _ _ _ _ _ A) as Hfr. pose proof (bi_frames k Hb) as Hn.
  rewrite Hfr in Hn. apply NoDup_cons in Hn as [Hn _]. pose proof (pa_few _ _ _ _ _ _ _ _ _ _ _ A) as Hfew.
  pose proof (Permutation_length Hfr) as Hlen. simpl in Hlen. rewrite length_app in Hlen. split_and!.
  - rewrite Hfr. left.
  - intros Hin. apply Hn. apply elem_of_app. by left.
  - intros f Hf. rewrite Hfr. right. apply elem_of_app. by left.
  - intros f Hf. rewrite Hfr. right. apply elem_of_app. by right.
  - lia.
  - apply (set_pte_spec pfn fl).
Qed.

(** A new page of the areas keeps the invariant. *)
Lemma space_added Q k t T vs live fl va k2 t2 T2 pfn fs :
  space_inv (k, t) T vs live -> area_vpn (vpn va) -> Z.testbit fl 0 = true -> vpn va ∉ vs ->
  page_added Q k t T va fl k2 t2 T2 pfn fs ->
  frame_of t2 T2 (vpn va) = pfn /\ space_inv (k2, t2) T2 (vpn va :: vs) (blocks fs ++ (pfn, 0%nat) :: live).
Proof.
  intros [Hpt Hpm Hnd Hvs [rest Hl] Htb] Hav H0 Hv A. cbn [fst snd] in *. pose proof Hpt as [Ht Hb Hc Hlim Hu].
  destruct (added_free _ _ _ _ _ _ _ _ _ _ _ Hb A) as (Hpf & Hpfs & Hfs & _ & _ & Hpfr).
  destruct A as [Hpt2 _ _ Hnew _ Hpfn Hst Hpte _ _].
  assert (forall v', v' ≠ vpn va -> frame_of t2 T2 v' = frame_of t T v' /\ pte_of t2 T2 v' = pte_of t T v') as Hoth.
  { intros v' Hne. unfold frame_of. by rewrite Hpte, decide_False. }
  assert (frame_of t2 T2 (vpn va) = pfn) as Hfv.
  { unfold frame_of. rewrite Hpte, decide_True, Hpfr by done. apply Z.mod_small. lia. }
  assert (forall v', v' ∈ vs -> v' ≠ vpn va) as Hvne by (by intros v' ? ->).
  split; [done|]. constructor; cbn [fst snd].
  - done.
  - by eapply pmm_run_inv; [done|apply Hst|].
  - by constructor.
  - intros v'. destruct (decide (v' = vpn va)) as [->|Hne].
    + rewrite Hpte, decide_True by done. destruct (set_pte_spec pfn fl) as (-> & _ & _). rewrite H0. split; [done|by left].
    + rewrite elem_of_cons, Hvs, (proj2 (Hoth v' Hne)). naive_solver.
  - exists (blocks fs ++ rest). rewrite fmap_cons, Hfv.
    rewrite (list_fmap_ext (frame_of t2 T2) (frame_of t T) vs)
      by (intros i v' Hi%list_elem_of_lookup_2; apply Hoth; auto).
    rewrite Hl. simpl. rewrite <- Permutation_middle. f_equiv. rewrite !app_assoc. f_equiv. apply Permutation_app_comm.
  - intros v' a [->|Hin]%elem_of_cons HT.
    + rewrite Hfv in HT. apply Hnew in HT as [HT|[HT _]]; [by apply (Hu a pfn HT)|done].
    + rewrite (proj1 (Hoth v' (Hvne v' Hin))) in HT. apply Hnew in HT as [HT|[HT _]]; [by apply (Htb v' a Hin)|].
      apply (live_not_free k live (frame_of t T v') Hpm); [|by apply Hfs].
      eapply blocks_live; [exact Hl|]. apply list_elem_of_fmap. by exists v'.
Qed.

(** A page of the areas from the allocator to the tables; its frame and at most six tables
    are taken. *)
Lemma map_one k t T vs live fl va k1 pfn :
  space_inv (k, t) T vs live -> in_space fl va 1 -> vpn va ∉ vs ->
  pmm_alloc_page mb k = (k1, Pfn pfn) ->
  match map_pages mb (k1, t) va (phys_addr (page_at mb k1 pfn)) 1 fl with
  | Some (k2, t2) => (length (frames k) <= 7 + length (frames k2))%nat /\
      exists T2 live2, space_inv (k2, t2) T2 (vpn va :: vs) live2
  | None => (length (frames k) < 7)%nat
  end.
Proof.
  intros Hs Hsp Hv Ea. destruct (in_space_page _ _ Hsp) as (Hr & Hav & H0 & H7 & _). pose proof (sp_pt _ _ _ _ Hs) as Hpt.
  assert (present (pte_of t T (vpn va)) = false) as Hab.
  { destruct (present _) eqn:E; [|done]. destruct Hv. by apply (sp_vs _ _ _ _ Hs). }
  pose proof (map_page_added (fun _ => True) k t T fl va k1 pfn Hpt Hr ltac:(done) H0 H7 Hab Ea) as M.
  destruct (map_pages mb (k1, t) va _ 1 fl) as [[k2 t2]|]; [|done]. destruct M as (T2 & fs & A).
  destruct (added_free _ _ _ _ _ _ _ _ _ _ _ (pt_buddy _ _ _ Hpt) A) as (_ & _ & _ & _ & Hlen & _).
  destruct (space_added _ _ _ _ _ _ _ _ _ _ _ _ _ Hs Hav H0 Hv A) as [_ Hs2]. split; [done|by eauto].
Qed.

(** A page of the areas from the tables back to the allocator. *)
Lemma unmap_one k t T vs live fl va :
  space_inv (k, t) T vs live -> in_space fl va 1 -> vpn va ∈ vs ->
  exists k2 t2 vs2 live2, unmap_pages mb (k, t) va 1 = Some (k2, t2) /\
    vs ≡ₚ vpn va :: vs2 /\ space_inv (k2, t2) T vs2 live2.
Proof.
  intros [Hpt Hpm Hnd Hvs [rest Hl] Htb] Hsp Hv. cbn [fst snd] in *.
  destruct (in_space_page _ _ Hsp) as (Hr & Hav & _). pose proof Hpt as [Ht Hb Hc Hlim Hu].
  apply elem_of_Permutation in Hv as [vs2 Hvs2]. rewrite Hvs2 in Hnd. apply NoDup_cons in Hnd as [Hv2 Hnd2].
  pose proof (vpn_range va) as Hvr. pose proof Hr as [_ _ _ He _].
  unfold unmap_pages. change (mi_ptr_to_pte va) with (mi_ptr_to 3 va). unfold PAGE_SIZE.
  change (mi_ptr_to_pte (u64 (va + 1 * 4096))) with (mi_ptr_to 3 (u64 (va + 1 * 4096))).
  rewrite !mi_ptr_to_eptr, range_vpn by (done || lia). rewrite !ent_3.
  replace (count_lt (eptr 3 (vpn va)) (eptr 3 (vpn va + 1))) with 1%nat
    by (unfold count_lt, eptr; replace (_ - _) with 8 by lia; done).
  assert (live ≡ₚ (frame_of t T (vpn va), 0%nat) :: blocks (frame_of t T <$> vs2) ++ rest) as Hl1
    by (by rewrite Hl, Hvs2).
  destruct (unmap_ptes_spec mb T 1 k t (vpn va) live (blocks (frame_of t T <$> vs2) ++ rest) Ht)
    as (k2 & t2 & live2 & -> & Ht2 & _ & _ & Hl2 & Hst & Hpte); [lia..| | |].
  { intros x Hx. replace x with (vpn va) by lia. apply Hvs. rewrite Hvs2. left. }
  { rewrite Hl1. change (seqZ (vpn va) (Z.of_nat 1)) with [0 + vpn va]. by rewrite Z.add_0_l. }
  assert (pmm_inv mb F (k2, live2)) as Hpm2 by (eapply pmm_run_inv; done).
  assert (forall v', v' ≠ vpn va -> pte_of t2 T v' = pte_of t T v') as Hoth.
  { intros v' Hne. by rewrite Hpte, decide_False by lia. }
  assert (forall v', v' ∈ vs2 -> frame_of t2 T v' = frame_of t T v') as Hfo.
  { intros v' Hin. unfold frame_of. rewrite Hoth; [done|]. by intros ->. }
  exists k2, t2, vs2, live2. split_and!; [done..|]. constructor; cbn [fst snd]; try done.
  - constructor; try done; try apply Hpm2.
    + pose proof (run_limit _ _ Hpm Hst) as El. cbn [fst] in El. by rewrite El.
    + intros a f Hf Hin. rewrite (freed_frames k live k2 live2 (frame_of t T (vpn va))) in Hin; [|done..|].
      2:{ by rewrite Hl1, Hl2. }
      apply elem_of_cons in Hin as [->|Hin]; [|by apply (Hu a f Hf)].
      apply (Htb (vpn va) a); [|done]. rewrite Hvs2. left.
  - intros v'. destruct (decide (v' = vpn va)) as [->|Hne].
    + rewrite Hpte, decide_True by lia. split; [done|]. by intros [_ ?].
    + rewrite Hoth, <- Hvs, Hvs2, elem_of_cons by done. naive_solver.
  - exists rest. rewrite Hl2. f_equiv. unfold blocks. f_equiv. symmetry.
    rewrite (list_fmap_ext (frame_of t2 T) (frame_of t T) vs2); [done|].
    intros i v' Hi%list_elem_of_lookup_2. by apply Hfo.
  - intros v' a Hin. rewrite Hfo by done. apply Htb. rewrite Hvs2. by right.
Qed.

(** ** Page by page, as the areas see it *)

Lemma page_start_in fl va : in_space fl va 1 -> area_addr va /\ page_in va 1 va.
Proof.
  intros H. assert (page_in va 1 va) as Hp by (unfold page_in, PAGE_SIZE; lia).
  split; [by eapply in_space_area|done].
Qed.

Lemma map_page_mapped s k1 pfn fl va :
  sp_ok s -> in_space fl va 1 -> (forall x, page_in va 1 x -> ~ sp_mapped s x) ->
  pmm_alloc_page mb s.1 = (k1, Pfn pfn) ->
  match vmm_map (k1, s.2) va (phys_addr (page_at mb k1 pfn)) 1 fl with
  | Some s' => (length (frames s.1) <= 7 + length (frames s'.1))%nat /\
      sp_ok s' /\ forall x, sp_mapped s' x <-> page_in va 1 x \/ sp_mapped s x
  | None => (length (frames s.1) < 7)%nat
  end.
Proof.
  destruct s as [k t]. intros (T & vs & live & Hi) Hsp Hn Ea.
  destruct (page_start_in _ _ Hsp) as [Hav Hpv]. destruct (in_space_page _ _ Hsp) as (_ & _ & _ & _ & _ & Hx).
  assert (vpn va ∉ vs) as Hv by (intros Hv; apply (Hn va Hpv), (sp_mapped_vs _ _ _ _ _ Hi); done).
  pose proof (map_one k t T vs live fl va k1 pfn Hi Hsp Hv Ea) as M. unfold vmm_map.
  cbn [fst snd ptm_map_pages tables ptm_tables].
  destruct (map_pages mb (k1, t) va _ 1 fl) as [[k2 t2]|]; [|done].
  destruct M as (Hlen & T2 & live2 & Hi2). split; [done|].
  split; [by exists T2, (vpn va :: vs), live2|]. intros x.
  rewrite (sp_mapped_vs _ _ _ _ _ Hi2), (sp_mapped_vs _ _ _ _ _ Hi), elem_of_cons.
  split; [intros [Ha [E|E]]; [left; by apply Hx|by right]|].
  intros [Hp|[Ha E]]; [|by split; [|right]].
  assert (area_addr x) as Ha by (by eapply in_space_area). split; [done|left]. by apply Hx.
Qed.

Lemma unmap_page_mapped s fl va :
  sp_ok s -> in_space fl va 1 -> (forall x, page_in va 1 x -> sp_mapped s x) ->
  exists s', vmm_unmap s va 1 = Some s' /\ sp_ok s' /\
    forall x, sp_mapped s' x <-> sp_mapped s x /\ ~ page_in va 1 x.
Proof.
  destruct s as [k t]. intros (T & vs & live & Hi) Hsp Hm.
  destruct (page_start_in _ _ Hsp) as [Hav Hpv]. destruct (in_space_page _ _ Hsp) as (_ & _ & _ & _ & _ & Hx).
  assert (vpn va ∈ vs) as Hv by (by apply (sp_mapped_vs _ _ _ _ _ Hi), Hm).
  destruct (unmap_one k t T vs live fl va Hi Hsp Hv) as (k2 & t2 & vs2 & live2 & E & Hp & Hi2).
  exists (k2, t2). split; [done|]. split; [by exists T, vs2, live2|]. intros x.
  rewrite (sp_mapped_vs _ _ _ _ _ Hi2), (sp_mapped_vs _ _ _ _ _ Hi), Hp, elem_of_cons.
  pose proof (sp_nodup _ _ _ _ Hi) as Hnd. rewrite Hp in Hnd. apply NoDup_cons in Hnd as [Hv2 _].
  split.
  - intros [Ha Hin]. split; [by split; [|right]|]. rewrite Hx by done. intros E'. by rewrite E' in Hin.
  - intros [[Ha [E'|Hin]] Hnp]; [|done]. by destruct Hnp; apply Hx.
Qed.

Lemma in_space_S fl va n :
  in_space fl va (Z.of_nat (S n)) ->
  in_space fl va 1 /\ in_space fl (va + PAGE_SIZE) (Z.of_nat n) /\ u64 (va + PAGE_SIZE) = va + PAGE_SIZE /\
  forall x, page_in va (Z.of_nat (S n)) x <-> page_in va 1 x \/ page_in (va + PAGE_SIZE) (Z.of_nat n) x.
Proof.
  intros [Hf Ha Hn Hs He]. split_and!.
  - constructor; try done; try lia. unfold PAGE_SIZE in *. lia.
  - constructor; try done; try (unfold PAGE_SIZE in *; lia). apply Z.divide_add_r; [done|by exists 1].
  - apply u64_small. unfold mm_get_vmarea_start, mm_get_vmarea_end, PAGE_SIZE in *. unfold_areas. case_match; lia.
  - intros x. unfold page_in, PAGE_SIZE. lia.
Qed.

Lemma vmap_loop_mapped n : forall s va fl,
  sp_ok s -> in_space fl va (Z.of_nat n) -> (forall x, page_in va (Z.of_nat n) x -> ~ sp_mapped s x) ->
  match vmap_pages mb n s va fl with
  | Some s' => sp_ok s' /\ forall x, sp_mapped s' x <-> page_in va (Z.of_nat n) x \/ sp_mapped s x
  | None => (length (frames s.1) < 7 * n)%nat
  end.
Proof.
  induction n as [|n IH]; intros s va fl Hs Hsp Hn; cbn [vmap_pages].
  { split; [done|]. unfold page_in. intros x. rewrite Z.mul_0_l. naive_solver lia. }
  destruct (in_space_S _ _ _ Hsp) as (H1 & H2 & -> & Hx). setoid_rewrite Hx in Hn.
  assert (buddy_inv s.1 /\ coalesced s.1) as Hb by (destruct Hs as (? & ? & ? & [[] ? ? ? ? ?]); done).
  pose proof (alloc_page_spec mb s.1) as A.
  destruct (pmm_alloc_page mb s.1) as [k1 [pfn| |]] eqn:Ea;
    [|rewrite A by apply Hb; simpl; lia..].
  pose proof (map_page_mapped s k1 pfn fl va Hs H1 ltac:(by eauto) Ea) as M.
  destruct (vmm_map _ _ _ _ _) as [s1|]; cbn [mbind option_bind]; [|lia].
  destruct M as (Hlen & Hs1 & Hm1). specialize (IH s1 _ _ Hs1 H2).
  assert (forall x, page_in (va + PAGE_SIZE) (Z.of_nat n) x -> ~ sp_mapped s1 x) as Hn1.
  { intros x Hp [Hp1|Hm]%Hm1; [|by eapply Hn; eauto]. revert Hp Hp1. unfold page_in. lia. }
  specialize (IH Hn1). destruct (vmap_pages mb n s1 _ fl); [destruct IH as [Hs' Hm']|lia].
  split; [done|]. intros x. rewrite Hm', Hm1, Hx. tauto.
Qed.

Lemma vunmap_loop_mapped n : forall s va fl,
  sp_ok s -> in_space fl va (Z.of_nat n) -> (forall x, page_in va (Z.of_nat n) x -> sp_mapped s x) ->
  exists s', vunmap_pages n s va = Some s' /\ sp_ok s' /\
    forall x, sp_mapped s' x <-> sp_mapped s x /\ ~ page_in va (Z.of_nat n) x.
Proof.
  induction n as [|n IH]; intros s va fl Hs Hsp Hn; cbn [vunmap_pages].
  { exists s. split_and!; [done..|]. unfold page_in. intros x. split; [|tauto]. split; [done|lia]. }
  destruct (in_space_S _ _ _ Hsp) as (H1 & H2 & -> & Hx). setoid_rewrite Hx in Hn.
  destruct (unmap_page_mapped s fl va Hs H1) as (s1 & -> & Hs1 & Hm1); [by eauto|]. cbn [mbind option_bind].
  destruct (IH s1 _ _ Hs1 H2) as (s' & -> & Hs' & Hm').
  - intros x Hp. apply Hm1. split; [by eauto|]. revert Hp. unfold page_in. lia.
  - exists s'. split_and!; [done..|]. intros x. rewrite Hm', Hm1, Hx. tauto.
Qed.

Lemma in_space_loop fl va n :
  in_space fl va n -> n = Z.of_nat (loop_count va n) /\ Z.land fl VMM_FLAGS_MMIO =? VMM_FLAGS_MMIO = false.
Proof.
  intros [Hf Ha Hn Hs He]. split; [|by destruct Hf as [-> | ->]].
  assert (0 <= va /\ va + n * 4096 < 2 ^ 64) as [H1 H2]
    by (unfold mm_get_vmarea_start, mm_get_vmarea_end, PAGE_SIZE in *; unfold_areas; case_match; lia).
  unfold loop_count, PAGE_TO_SIZE, PAGE_SIZE. rewrite (u64_small (n * _)), u64_small by lia.
  replace (va + n * 4096 - va) with (n * 4096) by lia. rewrite Z.div_mul; lia.
Qed.

(** ** The interface of the areas *)

Lemma vmap_pages_spec s va n fl :
  sp_ok s -> in_space fl va n -> (forall x, page_in va n x -> ~ sp_mapped s x) ->
  match vmm_vmap_pages mb s va n fl with
  | Some s' => sp_ok s' /\ forall x, sp_mapped s' x <-> page_in va n x \/ sp_mapped s x
  | None => (length (frames s.1) < 7 * Z.to_nat n)%nat
  end.
Proof.
  intros Hs Hsp. destruct (in_space_loop _ _ _ Hsp) as [Hn Hf]. unfold vmm_vmap_pages. rewrite Hf.
  generalize dependent (loop_count va n). intros c ->. rewrite Nat2Z.id. by apply vmap_loop_mapped.
Qed.

Lemma vmap_pages_mapped s va n fl s' :
  sp_ok s -> in_space fl va n -> (forall x, page_in va n x -> ~ sp_mapped s x) ->
  vmm_vmap_pages mb s va n fl = Some s' ->
  sp_ok s' /\ forall x, sp_mapped s' x <-> page_in va n x \/ sp_mapped s x.
Proof. intros Hs Hsp Hn E. pose proof (vmap_pages_spec s va n fl Hs Hsp Hn) as M. by rewrite E in M. Qed.

Lemma vunmap_pages_mapped s va n fl :
  sp_ok s -> in_space fl va n -> (forall x, page_in va n x -> sp_mapped s x) ->
  exists s', vmm_vunmap_pages s va n fl = Some s' /\ sp_ok s' /\
    forall x, sp_mapped s' x <-> sp_mapped s x /\ ~ page_in va n x.
Proof.
  intros Hs Hsp. destruct (in_space_loop _ _ _ Hsp) as [Hn Hf]. unfold vmm_vunmap_pages. rewrite Hf.
  generalize dependent (loop_count va n). intros c ->. by eapply vunmap_loop_mapped.
Qed.

Definition ptm_space : AddrSpace state :=
  {| vmm_vmap := vmm_vmap_pages mb; vmm_vunmap := vmm_vunmap_pages; space_ok := sp_ok; mapped := sp_mapped;
     vmap_mapped := vmap_pages_mapped; vunmap_mapped := vunmap_pages_mapped |}.

(** ** Isolation *)

Lemma live_frames_blocks fs rest : live_frames (blocks fs ++ rest) = fs ++ live_frames rest.
Proof.
  induction fs as [|f fs IH]; [done|].
  change (live_frames (blocks (f :: fs) ++ rest)) with ((0 + f) :: live_frames (blocks fs ++ rest)).
  by rewrite IH, Z.add_0_l.
Qed.

Lemma frames_apart s T vs live v w :
  space_inv s T vs live -> v ∈ vs -> w ∈ vs -> frame_of s.2 T v = frame_of s.2 T w -> v = w.
Proof.
  intros Hi Hv Hw E. destruct (sp_live _ _ _ _ Hi) as [rest Hl].
  pose proof HF as Hnd. rewrite <- (pi_frames _ _ _ (sp_pmm _ _ _ _ Hi)) in Hnd. cbn [fst snd] in Hnd.
  rewrite Hl, live_frames_blocks, <- app_assoc in Hnd. apply NoDup_app in Hnd as [Hnd _].
  apply list_elem_of_lookup in Hv as [i Hi1], Hw as [j Hj1].
  assert (i = j) as ->; [|congruence].
  apply (NoDup_lookup _ i j (frame_of s.2 T v) Hnd); rewrite list_lookup_fmap, ?Hi1, ?Hj1; [done|].
  simpl. by rewrite <- E.
Qed.

Lemma space_isolated s x y :
  sp_ok s -> sp_mapped s x -> sp_mapped s y -> translate s.2 x = translate s.2 y -> x = y.
Proof.
  intros (T & vs & live & Hi) Hx Hy E.
  apply (sp_mapped_vs _ _ _ _ _ Hi) in Hx as [Hx Hvx], Hy as [Hy Hvy].
  destruct (area_addr_vpn x Hx) as (_ & Hnx & Hex & Hox), (area_addr_vpn y Hy) as (_ & Hny & Hey & Hoy).
  assert (tree_ok s.2 T) as Ht by apply Hi.
  rewrite !(translate_pte s.2 T) in E by done.
  rewrite (proj2 (proj1 (sp_vs _ _ _ _ Hi _) Hvx)), (proj2 (proj1 (sp_vs _ _ _ _ Hi _) Hvy)) in E.
  injection E as E. unfold PAGE_SIZE in E.
  assert (frame_of s.2 T (vpn x) = frame_of s.2 T (vpn y)) as Ef by (unfold frame_of; lia).
  apply (frames_apart _ _ _ _ _ _ Hi) in Ef; [|done..].
  assert (PAGING_OFFSET x = PAGING_OFFSET y) as Eo by (rewrite Ef in E; lia).
  clear E. unfold_areas. lia.
Qed.

(** C30. Address spaces are isolated page by page.  Mapping [n] unmapped pages of an
    area space with [vmm_vmap] maps those pages and nothing else, never lets two
    addresses of the areas share a physical address, and [vmm_vunmap] of the same range
    succeeds and undoes it; it fails only when fewer than seven free frames a
    page are left. *)
Theorem vmap_isolates s va n fl :
  sp_ok s -> in_space fl va n -> (forall x, page_in va n x -> ~ sp_mapped s x) ->
  match vmm_vmap_pages mb s va n fl with
  | Some s' => sp_ok s' /\
      (forall x, sp_mapped s' x <-> page_in va n x \/ sp_mapped s x) /\
      (forall x y, sp_mapped s' x -> sp_mapped s' y -> translate s'.2 x = translate s'.2 y -> x = y) /\
      exists s'', vmm_vunmap_pages s' va n fl = Some s'' /\ sp_ok s'' /\
        forall x, sp_mapped s'' x <-> sp_mapped s x
  | None => (length (frames s.1) < 7 * Z.to_nat n)%nat
  end.
Proof.
  intros Hs Hsp Hn. pose proof (vmap_pages_spec s va n fl Hs Hsp Hn) as M.
  destruct (vmm_vmap_pages mb s va n fl) as [s'|]; [|done]. destruct M as [Hs' Hm].
  destruct (vunmap_pages_mapped s' va n fl Hs' Hsp) as (s'' & E & Hs'' & Hm''); [intros x Hx; apply Hm; by left|].
  split_and!; [done|done|intros x y; by apply space_isolated|]. exists s''. split_and!; [done..|].
  intros x. rewrite Hm'', Hm. naive_solver.
Qed.

End Space.

(** ** A concrete space

    The machine of [Vmm]: a root table with its recursive entry and no page. *)

#[local] Instance demo_pages : PageTables ptm_t := ptm_tables no_pages.

Definition demo_tree : table_map := {[(0%nat, 0) := 1000]}.

Lemma demo_tree_ok : tree_ok demo_ptm demo_tree.
Proof.
  constructor; unfold demo_tree.
  - done.
  - intros l n f [E <-]%lookup_singleton_Some. simplify_eq. unfold level_size. lia.
  - by intros a b f [<- <-]%lookup_singleton_Some [<- _]%lookup_singleton_Some.
  - intros l n f i [E <-]%lookup_singleton_Some _ Hi Hne. simplify_eq.
    assert (entry (pmem demo_ptm) 1000 i = 0) as ->; [|by rewrite lookup_singleton_ne].
    unfold entry, rd, demo_ptm. cbn [pmem]. unfold ptm_recursive_init.
    rewrite lookup_insert_ne; [done|]. change RECURSIVE_ENTRY_IDX with 510. lia.
  - intros l n f [E _]%lookup_singleton_Some. simplify_eq.
  - split_and!; vm_compute; reflexivity.
Qed.

Lemma demo_frames_small f : f ∈ frames demo_kmem -> f < 1000.
Proof.
  destruct demo_loaded as [Hinv _ _ _ _]. intros Hf%(inv_frame_range Hinv).
  assert (npages demo_kmem = 16) as E by (vm_compute; reflexivity). lia.
Qed.

Lemma demo_pt_inv : pt_inv demo_kmem demo_ptm demo_tree.
Proof.
  destruct demo_loaded as [Hinv Hc _ _ _]. constructor; [apply demo_tree_ok|done|done| |].
  - apply Z.leb_le. vm_compute. reflexivity.
  - unfold demo_tree. intros a f [_ <-]%lookup_singleton_Some Hf%demo_frames_small. lia.
Qed.

Lemma demo_space_ok : sp_ok no_pages (frames demo_kmem) (demo_kmem, demo_ptm).
Proof.
  destruct demo_loaded as [Hinv Hc _ _ _]. exists demo_tree, [], []. constructor; cbn [fst snd].
  - apply demo_pt_inv.
  - constructor; try done. by intros p o ?%not_elem_of_nil.
  - constructor.
  - intros v. split; [by intros ?%not_elem_of_nil|]. intros [_ H]. exfalso. revert H.
    unfold pte_of, demo_tree. by rewrite lookup_singleton_ne.
  - by exists [].
  - by intros v a ?%not_elem_of_nil.
Qed.


Lemma map_pages_correct_witness :
  exists k' t', map_pages no_pages (demo_kmem, demo_ptm) 0x400000 0x5000 2 VMM_FLAGS_USER = Some (k', t') /\
    translate t' 0x401008 = Some 0x6008.
Proof.
  pose proof (map_pages_correct no_pages demo_kmem demo_ptm demo_tree 0x400000 0x5000 2 VMM_FLAGS_USER demo_pt_inv) as H.
  assert (page_range 0x400000 2) as Hr.
  { constructor; [lia|by exists 1024|lia|vm_compute; reflexivity|].
    change (vpn 0x400000) with 1024. intros v Hv. Z.div_mod_to_equations. lia. }
  specialize (H Hr ltac:(lia) ltac:(vm_compute; discriminate) eq_refl eq_refl).
  assert (is_Some (map_pages no_pages (demo_kmem, demo_ptm) 0x400000 0x5000 2 VMM_FLAGS_USER)) as [[k' t'] E]
    by (apply (bool_decide_unpack _); vm_compute; exact I).
  rewrite E in H. destruct H as (T' & fs & _ & _ & _ & _ & Ht & _).
  exists k', t'. split; [exact E|]. rewrite (Ht 0x401008 ltac:(vm_compute; discriminate)). reflexivity.
Defined.

Lemma recursive_access_witness :
  vread demo_ptm (mi_ptr_to 0 0x400000) = Some 0 /\ vread demo_ptm (mi_ptr_to 1 0x400000) = None.
Proof.
  split; (rewrite (recursive_access demo_ptm demo_tree); [vm_compute; reflexivity|exact demo_tree_ok|
    vm_compute; discriminate|lia]).
Defined.

Lemma demo_unmapped x : ~ sp_mapped (demo_kmem, demo_ptm) x.
Proof.
  intros [Ha [p Hp]]. destruct (area_addr_vpn x Ha) as (_ & Hne & _). cbn [snd] in Hp.
  rewrite (translate_pte demo_ptm demo_tree) in Hp by (exact demo_tree_ok || exact Hne).
  unfold pte_of, demo_tree in Hp. by rewrite lookup_singleton_ne in Hp by done.
Qed.

Lemma vmap_isolates_witness :
  exists s', vmm_vmap_pages no_pages (demo_kmem, demo_ptm) 0x400000 2 VMM_FLAGS_USER = Some s' /\
    (forall x, sp_mapped s' x <-> page_in 0x400000 2 x).
Proof.
  assert (NoDup (frames demo_kmem)) as Hnd by apply demo_loaded.
  pose proof demo_unmapped as Hn.
  pose proof (vmap_isolates no_pages (frames demo_kmem) Hnd (demo_kmem, demo_ptm) 0x400000 2 VMM_FLAGS_USER
    demo_space_ok) as H.
  assert (in_space VMM_FLAGS_USER 0x400000 2) as Hs
    by (constructor; [by right|by exists 1024|lia|vm_compute; discriminate|vm_compute; discriminate]).
  specialize (H Hs (fun x _ => Hn x)). change (tables no_pages) with demo_pages in H.
  assert (is_Some (vmm_vmap_pages no_pages (demo_kmem, demo_ptm) 0x400000 2 VMM_FLAGS_USER)) as [s' E]
    by (apply (bool_decide_unpack _); vm_compute; exact I).
  rewrite E in H. destruct H as (_ & Hm & _). exists s'. split; [exact E|].
  intros x. rewrite Hm. split; [intros [?|H']; [done|by destruct (Hn x H')]|by left].
Defined.

(** [vmalloc] on page tables and page frames: the areas of [Vmalloc] over this space. *)
#[local] Instance demo_space : AddrSpace (kmem_info_t * ptm_t) :=
  ptm_space no_pages (frames demo_kmem) (bi_frames _ (ld_inv _ _ _ _ demo_loaded)).

Definition demo_task_mm : mm_struct_t := Mm [] (demo_kmem, demo_ptm).

Lemma demo_task_mm_inv : vm_inv VMM_FLAGS_USER demo_task_mm.
Proof.
  constructor; cbn [vm_area_head page_dir demo_task_mm].
  - vm_compute. discriminate.
  - constructor.
  - constructor.
  - apply demo_space_ok.
  - intros x _. split; [by intros ?%demo_unmapped|]. by intros (a & ?%not_elem_of_nil & _).
Qed.

Definition got_ptr (r : mm_struct_t (S := kmem_info_t * ptm_t) * vm_ret) (p : Z) : bool :=
  match r.2 with Ptr q => q =? p | Fault => false end.

Definition demo_area (ptr : Z) := vmalloc (Some 8) demo_task_mm ptr 8000 VMM_FLAGS_USER.

