(* ===== verification/Mm.v ===== *)
(** * Address spaces of the tasks

    [kernel/src/mm/vmalloc.c], the functions that work on whole address spaces: [vmalloc_init], [mm_create], [mm_free], [mm_copy],
    [mm_read], [mm_write], [mm_write_byte].  They run on the page tables of [Ptm]: an address space
    is a root table in physical memory, and the functions switch the processor to it ([mm_switch_save]) and back.

    Bytes are reached through the translation of the current root, and a page fault is [None], as is a panic.  The structure
    [mm_struct_t] and the page buffer of [mm_copy] are blocks of the kernel heap: their
    addresses are arguments, [0] for null, and the bytes of the buffer a value.  The lists of areas are those of [Vmalloc],
    the structures of areas come from [slab]. *)

From S2P Require Import Prelude DList Pmm PmmBuddy PmmInit Ptm PtmProofs Vmalloc Slab SlabProofs Vmm PtmSpace.

Definition PT_HIGH_HALF_START : Z := 256.
Definition MI_KERNEL_VMAREA_SAPACE_SIZE : Z := u64 (MI_KERNEL_VMAREA_SAPACE_END + 1 - MI_KERNEL_VMAREA_SAPACE_START).
Definition MI_DIRECT_MAPPING_RANGE_END : Z := 0xfffff77fffffffff.
Definition MI_DIRECT_MAPPING_RANGE_SIZE : Z := u64 (MI_DIRECT_MAPPING_RANGE_END + 1 - MI_DIRECT_MAPPING_RANGE_START).

(** ** Bytes of physical and virtual memory *)

Definition rd8 (m : gmap Z Z) (pa : Z) : Z := Z.land (Z.shiftr (rd m (pa / 8)) (8 * (pa mod 8))) 0xff.
Definition wr8 (m : gmap Z Z) (pa v : Z) : gmap Z Z := <[pa / 8 := set_field (rd m (pa / 8)) (8 * (pa mod 8)) 8 v]> m.

Definition vread8 (t : ptm_t) (p : Z) : option Z := pa ← translate t p; Some (rd8 (pmem t) pa).
Definition vwrite8 (t : ptm_t) (p v : Z) : option ptm_t := pa ← translate t p; Some (Ptm (wr8 (pmem t) pa v) (cr3 t)).

(** [memcpy] between a buffer and [n] bytes from [p] on. *)
Fixpoint vload (n : nat) (t : ptm_t) (p : Z) : option (list Z) :=
  match n with
  | O => Some []
  | S n => b ← vread8 t p; bs ← vload n t (u64 (p + 1)); Some (b :: bs)
  end.
Fixpoint vstore (bs : list Z) (t : ptm_t) (p : Z) : option ptm_t :=
  match bs with
  | [] => Some t
  | b :: bs => t ← vwrite8 t p b; vstore bs t (u64 (p + 1))
  end.

(** ** Address spaces *)

Record mm_t := MmStruct { mm_areas : list vm_area_t; mm_page_dir : Z; page_dir_pa : Z }.

Section Mm.
Context (mb : Z -> page_t) (F : list Z) (HF : NoDup F).
Notation state := (kmem_info_t * ptm_t)%type.

#[local] Instance mm_tables : PageTables ptm_t := ptm_tables mb.
#[local] Instance mm_space : AddrSpace state := ptm_space mb F HF.

#[local] Instance mm_source : PageSource state := vmm_source mb.

(** [vmm_init] of [vmm.c]; [m] is the memory of the objects. *)
Definition vmm_init (m : gmap Z Z) (s : state) : option (slab_state (P := state) * slab_cache_t * list slab_cache_t) :=
  s ← ptm_alloc_pdptes mb s MI_DIRECT_MAPPING_RANGE_START (MI_DIRECT_MAPPING_RANGE_SIZE / PAGE_SIZE) VMM_FLAGS_DEFAULT;
  slab_init (SlabState m s).

(** The list [k_vmlist] is empty at first. *)
Definition vmalloc_init (s : state) : option (state * list vm_area_t) :=
  s ← ptm_alloc_pdptes mb s MI_KERNEL_VMAREA_SAPACE_START (MI_KERNEL_VMAREA_SAPACE_SIZE / PAGE_SIZE) VMM_FLAGS_DEFAULT;
  Some (s, []).

(** The state with another root: [mm_switch_save] and [mm_switch_restore]. *)
Definition at_cr3 (pa : Z) (s : state) : state := (s.1, Ptm (pmem s.2) pa).

(** [for (i = PT_HIGH_HALF_START; i < PT_ENTRY_COUNT; i++)]; [n] entries are left. *)
Fixpoint copy_high (n : nat) (i page_dir kpage_dir : Z) (t : ptm_t) : option ptm_t :=
  match n with
  | O => Some t
  | S n =>
    e ← vread t (u64 (kpage_dir + 8 * i));
    t ← vwrite t (u64 (page_dir + 8 * i)) e;
    copy_high n (i + 1) page_dir kpage_dir t
  end.

(** [pml4_root] is the address of the root table of the kernel. *)
Definition mm_create (pml4_root mm : Z) (s : state) : option (state * mm_t) :=
  if mm =? 0 then None else
  '(s, page_dir) ← direct_alloc_page mb s;
  t ← vzero page_words s.2 page_dir;
  e ← vread t (mi_ptr_to_pte page_dir);
  let pa := phys_addr (page_at mb s.1 (page_frame e)) in
  t ← copy_high (Z.to_nat (PT_ENTRY_COUNT - PT_HIGH_HALF_START)) PT_HIGH_HALF_START page_dir pml4_root t;
  t ← vwrite t (u64 (page_dir + 8 * RECURSIVE_ENTRY_IDX)) (set_field (set_field pa 0 1 1) 1 1 1);
  Some ((s.1, t), MmStruct [] page_dir pa).

(** The structures of the areas that are handed to [slab_free]. *)
Definition mm_destroy (n : mm_t) (s : state) : option (state * list Z) :=
  '(s', freed) ← mm_free (Mm (mm_areas n) (at_cr3 (page_dir_pa n) s));
  s' ← direct_free_page (at_cr3 (cr3 s.2) s') (mm_page_dir n);
  Some (s', freed).

(** [vmalloc] with an address space. *)
Definition mm_vmalloc (slab : option Z) (n : mm_t) (ptr size flags : Z) (s : state) : option (state * mm_t * Z) :=
  match vmalloc slab (Mm (mm_areas n) (at_cr3 (page_dir_pa n) s)) ptr size flags with
  | (mm, Ptr p) =>
    Some (at_cr3 (cr3 s.2) (page_dir mm), MmStruct (vm_area_head mm) (mm_page_dir n) (page_dir_pa n), p)
  | (_, Fault) => None
  end.

Definition mm_read (n : mm_t) (virt : Z) (len : nat) (s : state) : option (list Z) :=
  vload len (at_cr3 (page_dir_pa n) s).2 virt.
Definition mm_write (n : mm_t) (virt : Z) (data : list Z) (s : state) : option state :=
  t ← vstore data (at_cr3 (page_dir_pa n) s).2 virt; Some (at_cr3 (cr3 s.2) (s.1, t)).
Definition mm_write_byte (n : mm_t) (virt data : Z) (s : state) : option state :=
  t ← vwrite8 (at_cr3 (page_dir_pa n) s).2 virt data; Some (at_cr3 (cr3 s.2) (s.1, t)).

(** [for (va = vm_start; va < vm_end; va += PAGE_SIZE)]; [r] rounds are left. *)
Fixpoint copy_pages (r : nat) (n : mm_t) (va start sz : Z) (s : state) : option state :=
  match r with
  | O => Some s
  | S r =>
    let chunk := u64 (sz - (va - start)) in
    let chunk := if PAGE_SIZE <? chunk then PAGE_SIZE else chunk in
    page_buf ← vload (Z.to_nat chunk) s.2 va;
    s ← mm_write n va page_buf s;
    copy_pages r n (u64 (va + PAGE_SIZE)) start sz s
  end.

(** The loop over the areas of the original; [inl] is the area that could not be allocated. *)
Fixpoint copy_areas (slab : nat -> option Z) (l : list vm_area_t) (n : mm_t) (s : state) :
    option (state * (mm_t + mm_t)) :=
  match l with
  | [] => Some (s, inr n)
  | a :: l =>
    let sz := u64 (vm_end a - vm_start a) in
    '(s, n, ptr) ← mm_vmalloc (slab (length l)) n (vm_start a) sz (vm_flags a) s;
    if ptr =? 0 then Some (s, inl n) else
    s ← copy_pages (pages_in sz) n (vm_start a) (vm_start a) sz s;
    copy_areas slab l n s
  end.

(** The copy of the current address space, whose areas are [l]; [None] in the result is null. *)
Definition mm_copy (pml4_root mm page_buf : Z) (slab : nat -> option Z) (l : list vm_area_t) (s : state) :
    option (state * option mm_t) :=
  '(s, n) ← mm_create pml4_root mm s;
  if page_buf =? 0 then '(s, _) ← mm_destroy n s; Some (s, None) else
  '(s, r) ← copy_areas slab l n s;
  match r with
  | inr n => Some (s, Some n)
  | inl n => '(s, _) ← mm_destroy n s; Some (s, None)
  end.
End Mm.
