(* ===== verification/MmProofs.v ===== *)
(** * Two address spaces

    Two address spaces over one memory that share the tables of the kernel half and nothing else ([pair_inv]).  Mapping
    user pages and storing bytes in one of them keeps the other one and its bytes. *)

From S2P Require Import Prelude DList Pmm PmmBuddy PmmInit Ptm PtmProofs Vmalloc Slab SlabProofs Vmm PtmSpace Mm.

(** ** Bytes of physical memory *)

Lemma rd8_wr8 m pa v pa' : 0 <= pa -> 0 <= pa' -> 0 <= v < 256 -> rd8 (wr8 m pa v) pa' = if decide (pa' = pa) then v else rd8 m pa'.
Proof.
  intros Hpa Hpa' Hv. unfold rd8, wr8. assert (0 <= pa mod 8 < 8) by (apply Z.mod_pos_bound; lia).
  assert (0 <= pa' mod 8 < 8) by (apply Z.mod_pos_bound; lia).
  apply Z.bits_inj'. intros i Hi. change 0xff with (Z.ones 8). rewrite Z.land_spec, Z.shiftr_spec, Z.testbit_ones_nonneg by lia.
  assert (forall x, Z.testbit (Z.land (Z.shiftr x (8 * (pa' mod 8))) (Z.ones 8)) i = Z.testbit x (i + 8 * (pa' mod 8)) && (i <? 8)) as Hb.
  { intros x. by rewrite Z.land_spec, Z.shiftr_spec, Z.testbit_ones_nonneg by lia. }
  unfold rd at 1. rewrite lookup_insert. destruct (decide (pa / 8 = pa' / 8)) as [Ew|Ew].
  - simpl default. rewrite testbit_set_field by lia. destruct (decide (pa' = pa)) as [->|Hne].
    + destruct (Z.ltb_spec i 8); [|rewrite andb_false_r; symmetry].
      * rewrite bool_decide_eq_true_2 by lia. rewrite andb_true_r. f_equal. lia.
      * rewrite <- (Z.mod_small v (2 ^ 8)), Z.mod_pow2_bits_high by lia. done.
    + rewrite Hb, Ew. destruct (Z.ltb_spec i 8); [|by rewrite !andb_false_r]. rewrite !andb_true_r.
      rewrite bool_decide_eq_false_2; [done|]. Z.div_mod_to_equations. lia.
  - rewrite decide_False by (intros ->; done). by rewrite Hb.
Qed.

Lemma rd8_range m pa : 0 <= rd8 m pa < 256.
Proof. unfold rd8. change 0xff with (Z.ones 8). rewrite Z.land_ones by lia. apply Z.mod_pos_bound. lia. Qed.

Lemma wr8_entry m f off v g j :
  0 <= off < 4096 -> 0 <= j < 512 -> g <> f -> entry (wr8 m (f * PAGE_SIZE + off) v) g j = entry m g j.
Proof.
  intros Ho Hj Hne. unfold wr8, entry, rd. rewrite lookup_insert_ne; [done|]. unfold PAGE_SIZE, PT_ENTRY_COUNT.
  Z.div_mod_to_equations. lia.
Qed.

Lemma rd8_entries m m' f off :
  0 <= off < 4096 -> (forall j, 0 <= j < 512 -> entry m' f j = entry m f j) -> rd8 m' (f * PAGE_SIZE + off) = rd8 m (f * PAGE_SIZE + off).
Proof.
  intros Ho He. unfold rd8. assert ((f * PAGE_SIZE + off) / 8 = f * PT_ENTRY_COUNT + off / 8) as ->
    by (unfold PAGE_SIZE, PT_ENTRY_COUNT; Z.div_mod_to_equations; lia).
  specialize (He (off / 8)). unfold entry in He. rewrite He; [done|]. Z.div_mod_to_equations; lia.
Qed.

(** [vmm_init] and [vmalloc_init] prepare one of the 512 and 1024 tables of their ranges: the size in bytes of the whole range
    is zero as a 32-bit number. *)
Lemma init_tables_one mb m s :
  MI_DIRECT_MAPPING_RANGE_SIZE = 512 * 2 ^ 30 /\ MI_KERNEL_VMAREA_SAPACE_SIZE = 1024 * 2 ^ 30 /\
  (vmm_init mb m s =
    s' ← alloc_entries mb set_pdpte 1 s (mi_ptr_to_pdpte MI_DIRECT_MAPPING_RANGE_START) VMM_FLAGS_DEFAULT; slab_init (H := mm_source mb) (SlabState m s')) /\
  (vmalloc_init mb s =
    s' ← alloc_entries mb set_pdpte 1 s (mi_ptr_to_pdpte MI_KERNEL_VMAREA_SAPACE_START) VMM_FLAGS_DEFAULT; Some (s', [])).
Proof. split_and!; reflexivity. Qed.

(** ** The kernel half *)

(** Tables below the upper 256 entries of the root. *)
Definition kernel_node (a : nat * Z) : Prop :=
  match a with (O, _) => False | (S l, n) => 256 <= n / 512 ^ Z.of_nat l end.
(** The pages below them. *)
Definition kernel_vpn (v : Z) : Prop := 2 ^ 35 <= v.

#[global] Instance kernel_node_dec a : Decision (kernel_node a).
Proof. destruct a as [[|l] n]; apply _. Defined.

Lemma kernel_child l n i : 0 <= i < 512 -> kernel_node (S l, n) <-> kernel_node (S (S l), 512 * n + i).
Proof.
  intros Hi. unfold kernel_node. rewrite Nat2Z.inj_succ, Z.pow_succ_r, <- Z.div_div by (try apply Z.pow_pos_nonneg; lia).
  replace ((512 * n + i) / 512) with n by (Z.div_mod_to_equations; lia). done.
Qed.
Lemma kernel_top i : kernel_node (1%nat, i) <-> 256 <= i.
Proof. unfold kernel_node. by rewrite Z.div_1_r. Qed.
Lemma kernel_leaf v : kernel_node (3%nat, v / 512) <-> kernel_vpn v.
Proof.
  unfold kernel_node, kernel_vpn. change (512 ^ Z.of_nat 2) with (512 * 512). Z.div_mod_to_equations. lia.
Qed.

Definition user_addr (x : Z) : Prop := MI_USER_VMAREA_SAPACE_START <= x <= MI_USER_VMAREA_SAPACE_END.
Lemma user_area x : user_addr x -> area_addr x /\ ~ kernel_vpn (vpn x).
Proof. unfold user_addr, kernel_vpn. intros Hx. unfold_areas. unfold vpn. split; [lia|]. Z.div_mod_to_equations. lia. Qed.

(** Arithmetic at each of the upper three levels. *)
Ltac each_level l :=
  destruct l as [|[|[|l]]]; [..|lia];
    [change (512 ^ (3 - Z.of_nat 0)) with (512 * 512 * 512) in *; change (512 ^ Z.of_nat 0) with 1
    |change (512 ^ (3 - Z.of_nat 1)) with (512 * 512) in *; change (512 ^ Z.of_nat 1) with 512
    |change (512 ^ (3 - Z.of_nat 2)) with 512 in *; change (512 ^ Z.of_nat 2) with (512 * 512)];
    unfold not; Z.div_mod_to_equations; lia.

(** The tables on the path to a user page are not of the kernel half. *)
Lemma user_may_add v : 0 <= v -> v + 1 < 2 ^ 35 -> may_add (fun a => ~ kernel_node a) v 1.
Proof.
  intros H0 Hv l x Hl Hx. unfold kernel_node, ent in *.
  each_level l.
Qed.

(** ** Views *)

(** Translation and bytes at the addresses of [P] are the same. *)
Definition view_kept (P : Z -> Prop) (t t' : ptm_t) : Prop :=
  forall x, P x -> translate t' x = translate t x /\ vread8 t' x = vread8 t x.

#[global] Instance view_kept_preorder P : PreOrder (view_kept P).
Proof.
  split; [done|]. intros t t1 t2 H1 H2 x Hx. destruct (H1 x Hx) as [<- <-]. by apply H2.
Qed.
Lemma view_kept_trans P Q t t1 t2 : view_kept P t t1 -> view_kept Q t1 t2 -> view_kept (fun x => P x /\ Q x) t t2.
Proof. intros H1 H2 x [Hp Hq]. destruct (H1 x Hp) as [<- <-]. by apply H2. Qed.
Lemma view_kept_mono (P Q : Z -> Prop) t t' : (forall x, Q x -> P x) -> view_kept P t t' -> view_kept Q t t'.
Proof. intros Hpq H x Hx. by apply H, Hpq. Qed.

(** An address whose page has the same entry, in a frame with the same words. *)
Lemma view_page t t' T T' x :
  area_addr x -> tree_ok t T -> tree_ok t' T' -> pte_of t' T' (vpn x) = pte_of t T (vpn x) ->
  (present (pte_of t T (vpn x)) = true -> forall j, 0 <= j < 512 ->
    entry (pmem t') (frame_of t T (vpn x)) j = entry (pmem t) (frame_of t T (vpn x)) j) ->
  translate t' x = translate t x /\ vread8 t' x = vread8 t x.
Proof.
  intros Hx Ht Ht' Hp He. destruct (area_addr_vpn x Hx) as (_ & Hne & _ & Ho).
  assert (translate t' x = translate t x) as Hw by (by rewrite (translate_pte t T), (translate_pte t' T'), Hp).
  split; [done|]. unfold vread8. rewrite Hw, (translate_pte t T) by done.
  destruct (present _); [|done]. cbn [mbind option_bind]. f_equal. apply rd8_entries; [done|by apply He].
Qed.

Section Pair.
Context (mb : Z -> page_t) (F : list Z) (HF : NoDup F).
Notation state := (kmem_info_t * ptm_t)%type.
Notation space_inv := (space_inv mb F).
Notation page_added := (page_added mb).

(** Memory that agrees on the tables of a space keeps the space. *)
Definition same_tables (T : table_map) (m m' : gmap Z Z) : Prop :=
  forall a g j, T !! a = Some g -> 0 <= j < 512 -> entry m' g j = entry m g j.

Lemma same_tables_pte T m m' c v : same_tables T m m' -> pte_of (Ptm m' c) T v = pte_of (Ptm m c) T v.
Proof.
  intros Hs. unfold pte_of. cbn [pmem]. destruct (T !! (3%nat, v / 512)) as [f|] eqn:Hf; [|done].
  apply (Hs _ _ _ Hf). apply Z.mod_pos_bound. lia.
Qed.

Lemma same_tables_tree T m m' c : same_tables T m m' -> tree_ok (Ptm m c) T -> tree_ok (Ptm m' c) T.
Proof.
  intros Hs [T1 T2 T3 T4 T5 T6]. constructor; try done; cbn [pmem].
  - intros l n f i Hf' Hl Hi Hne. rewrite (Hs _ _ _ Hf' Hi). by apply T4.
  - rewrite (Hs _ _ _ T1) by lia. done.
Qed.

Lemma same_tables_space k m m' c T vs live :
  same_tables T m m' -> space_inv (k, Ptm m c) T vs live -> space_inv (k, Ptm m' c) T vs live.
Proof.
  intros Hs [[Ht P2 P3 P4 P5] I2 I3 I4 [rest I5] I6]. cbn [fst snd] in *.
  pose proof (same_tables_pte T m m' c) as Hp.
  assert (forall v, frame_of (Ptm m' c) T v = frame_of (Ptm m c) T v) as Hf by (intros v; unfold frame_of; by rewrite Hp).
  constructor; cbn [fst snd]; try done.
  - constructor; try done. by eapply same_tables_tree.
  - intros v. rewrite Hp by done. apply I4.
  - exists rest. by rewrite I5, (list_fmap_ext (frame_of (Ptm m' c) T) (frame_of (Ptm m c) T) vs) by (intros i v _; apply Hf).
  - intros v a Hv. rewrite Hf. by apply I6.
Qed.

(** Two spaces with roots at [ca] and [cb]: common tables are those of the kernel half, common pages those of the kernel areas, and
    no page of one lies in a table of the other. *)
Record pair_inv (k : kmem_info_t) (m : gmap Z Z) (ca : Z) (Ta : table_map) (vsa : list Z)
    (cb : Z) (Tb : table_map) (vsb : list Z) (live : list (Z * nat)) : Prop := {
  pr_a : space_inv (k, Ptm m ca) Ta vsa live;
  pr_b : space_inv (k, Ptm m cb) Tb vsb live;
  pr_shared : forall a, kernel_node a -> Ta !! a = Tb !! a;
  pr_private : forall a b f, Ta !! a = Some f -> Tb !! b = Some f -> kernel_node a /\ a = b;
  pr_pages : forall v w, v ∈ vsa -> w ∈ vsb -> frame_of (Ptm m ca) Ta v = frame_of (Ptm m cb) Tb w -> v = w /\ kernel_vpn v;
  pr_ab : forall v c, v ∈ vsa -> Tb !! c <> Some (frame_of (Ptm m ca) Ta v);
  pr_ba : forall v c, v ∈ vsb -> Ta !! c <> Some (frame_of (Ptm m cb) Tb v);
}.

(** *** Storing outside the tables *)

Lemma pair_store k m m' ca Ta vsa cb Tb vsb live :
  pair_inv k m ca Ta vsa cb Tb vsb live -> same_tables Ta m m' -> same_tables Tb m m' ->
  pair_inv k m' ca Ta vsa cb Tb vsb live.
Proof.
  intros [A B S P G AB BA] Ha Hb.
  assert (forall v, frame_of (Ptm m' ca) Ta v = frame_of (Ptm m ca) Ta v) as Fa by (intros v; unfold frame_of; by rewrite (same_tables_pte Ta m m')).
  assert (forall v, frame_of (Ptm m' cb) Tb v = frame_of (Ptm m cb) Tb v) as Fb by (intros v; unfold frame_of; by rewrite (same_tables_pte Tb m m')).
  constructor; try done.
  - by eapply same_tables_space.
  - by eapply same_tables_space.
  - intros v w. rewrite Fa, Fb. apply G.
  - intros v c. rewrite Fa. apply AB.
  - intros v c. rewrite Fb. apply BA.
Qed.

(** *** Mapping a user page *)

(** A frame of a space is not free. *)
Lemma space_frame_live k m c T vs live v : space_inv (k, Ptm m c) T vs live -> v ∈ vs -> frame_of (Ptm m c) T v ∉ frames k.
Proof.
  intros Hs Hv. destruct (sp_live _ _ _ _ _ _ Hs) as [rest Hl]. apply (live_not_free mb F HF k live); [apply Hs|].
  eapply blocks_live; [exact Hl|]. apply list_elem_of_fmap. by exists v.
Qed.

Section Added.
Context (k : kmem_info_t) (m : gmap Z Z) (ca : Z) (Ta : table_map) (vsa : list Z) (cb : Z) (Tb : table_map) (vsb : list Z) (live : list (Z * nat)).
Context (va fl : Z) (k2 : kmem_info_t) (t2 : ptm_t) (T2 : table_map) (pfn : Z) (fs : list Z).
Context (Hpair : pair_inv k m ca Ta vsa cb Tb vsb live).
Context (Hadd : page_added (fun a => ~ kernel_node a) k (Ptm m cb) Tb va fl k2 t2 T2 pfn fs) (Huser : ~ kernel_vpn (vpn va)).

Lemma added_kernel a : kernel_node a -> T2 !! a = Ta !! a.
Proof.
  intros Hk. rewrite (pr_shared _ _ _ _ _ _ _ _ _ Hpair a Hk). destruct (T2 !! a) as [f|] eqn:E.
  - apply (pa_new _ _ _ _ _ _ _ _ _ _ _ _ Hadd) in E as [->|[_ ?]]; done.
  - destruct (Tb !! a) as [f|] eqn:E'; [|done]. pose proof (lookup_weaken _ _ _ _ E' (pa_sub _ _ _ _ _ _ _ _ _ _ _ _ Hadd)). congruence.
Qed.

(** A frame in use outside the tables of [b] is not written. *)
Lemma added_keeps g j :
  0 <= j < 512 -> g ∉ frames k -> (forall c, Tb !! c <> Some g) -> entry (pmem t2) g j = entry m g j.
Proof.
  intros Hj Hg Hb. apply (pa_mem _ _ _ _ _ _ _ _ _ _ _ _ Hadd); [done|]. intros c Hc.
  apply (pa_new _ _ _ _ _ _ _ _ _ _ _ _ Hadd) in Hc as [Hc|[Hc _]]; [by apply (Hb c)|].
  destruct (added_free mb _ _ _ _ _ _ _ _ _ _ _ (pt_buddy _ _ _ (sp_pt _ _ _ _ _ _ (pr_b _ _ _ _ _ _ _ _ _ Hpair))) Hadd) as (_ & _ & Hfs & _).
  by apply Hg, Hfs.
Qed.

Lemma added_user_table a f j :
  Ta !! a = Some f -> ~ kernel_node a -> 0 <= j < 512 -> entry (pmem t2) f j = entry m f j.
Proof.
  intros Hf Hk Hj. apply added_keeps; [done|by apply (pt_used _ _ _ (sp_pt _ _ _ _ _ _ (pr_a _ _ _ _ _ _ _ _ _ Hpair)) a)|].
  intros c Hc. by destruct (pr_private _ _ _ _ _ _ _ _ _ Hpair a c f Hf Hc).
Qed.

Lemma added_pte v : pte_of (Ptm (pmem t2) ca) Ta v = pte_of (Ptm m ca) Ta v.
Proof.
  destruct (decide (kernel_node (3%nat, v / 512))) as [Hk|Hk].
  - transitivity (pte_of t2 T2 v); [unfold pte_of; by rewrite (added_kernel _ Hk)|].
    rewrite (pa_pte _ _ _ _ _ _ _ _ _ _ _ _ Hadd), decide_False by (intros ->; by apply Huser, kernel_leaf).
    unfold pte_of. by rewrite (pr_shared _ _ _ _ _ _ _ _ _ Hpair _ Hk).
  - unfold pte_of. cbn [pmem]. destruct (Ta !! (3%nat, v / 512)) as [f|] eqn:Hf; [|done].
    apply (added_user_table _ _ _ Hf Hk). apply Z.mod_pos_bound. lia.
Qed.

Lemma added_frame_of v : frame_of (Ptm (pmem t2) ca) Ta v = frame_of (Ptm m ca) Ta v.
Proof. unfold frame_of. by rewrite added_pte. Qed.

Lemma added_tree : tree_ok (Ptm (pmem t2) ca) Ta.
Proof.
  pose proof (pt_tree _ _ _ (sp_pt _ _ _ _ _ _ (pr_a _ _ _ _ _ _ _ _ _ Hpair))) as [R D I C P [X1 [X2 X3]]]. cbn [snd] in *.
  constructor; try done; cbn [pmem].
  - intros l n f i Hf Hl Hi Hne. destruct (decide (kernel_node (l, n))) as [Hk|Hk].
    2:{ rewrite (added_user_table _ _ _ Hf Hk Hi). by apply C. }
    destruct l as [|l]; [done|].
    destruct (tr_child _ _ (pt_tree _ _ _ (pa_pt _ _ _ _ _ _ _ _ _ _ _ _ Hadd)) (S l) n f i) as [H1 H2]; [by rewrite added_kernel|done..|].
    rewrite <- H1. split; [|done]. symmetry. apply added_kernel. by apply kernel_child.
  - assert (~ kernel_node (0%nat, 0)) as Hk by tauto. change (root (Ptm (pmem t2) ca)) with (root (Ptm m ca)).
    rewrite (added_user_table _ _ 510 R Hk) by lia. done.
Qed.

Lemma added_space_a : space_inv (k2, Ptm (pmem t2) ca) Ta vsa (blocks fs ++ (pfn, 0%nat) :: live).
Proof.
  pose proof (pr_a _ _ _ _ _ _ _ _ _ Hpair) as [[P1 P2 P3 P4 P5] I2 I3 I4 [rest I5] I6]. cbn [fst snd] in *.
  pose proof (pa_pt _ _ _ _ _ _ _ _ _ _ _ _ Hadd) as [Q1 Q2 Q3 Q4 Q5].
  destruct (added_free mb _ _ _ _ _ _ _ _ _ _ _ P2 Hadd) as (_ & _ & _ & Hsub & _ & _).
  constructor; cbn [fst snd].
  - constructor; try done; [apply added_tree|]. intros a f Hf Hin. by apply (P5 a f Hf), Hsub.
  - eapply pmm_run_inv; [done|apply (pa_steps _ _ _ _ _ _ _ _ _ _ _ _ Hadd)|done].
  - done.
  - intros v. rewrite added_pte. apply I4.
  - exists ((blocks fs ++ [(pfn, 0%nat)]) ++ rest).
    rewrite (list_fmap_ext (frame_of (Ptm (pmem t2) ca) Ta) (frame_of (Ptm m ca) Ta) vsa) by (intros i v _; apply added_frame_of).
    rewrite I5, (Permutation_app_swap_app (blocks (_ <$> vsa))), <- !app_assoc. done.
  - intros v a Hv. rewrite added_frame_of. by apply I6.
Qed.

(** The pair after the mapping. *)
Lemma pair_added :
  area_vpn (vpn va) -> Z.testbit fl 0 = true -> vpn va ∉ vsb ->
  pair_inv k2 (pmem t2) ca Ta vsa cb T2 (vpn va :: vsb) (blocks fs ++ (pfn, 0%nat) :: live).
Proof.
  intros Hav H0 Hv. pose proof Hpair as [Ha Hb S P G AB BA].
  assert (Ptm (pmem t2) cb = t2) as Et by (pose proof (pa_cr3 _ _ _ _ _ _ _ _ _ _ _ _ Hadd) as Ec; destruct t2 as [m2 c2]; cbn [cr3 pmem] in *; by subst).
  destruct (space_added mb F HF _ _ _ _ _ _ _ _ _ _ _ _ _ Hb Hav H0 Hv Hadd) as [Hpf Hsb]. rewrite <- Et in Hpf, Hsb.
  destruct (added_free mb _ _ _ _ _ _ _ _ _ _ _ (pt_buddy _ _ _ (sp_pt _ _ _ _ _ _ Hb)) Hadd) as (Hpfree & Hpfs & Hfs & _).
  assert (forall w, w ∈ vsb -> frame_of (Ptm (pmem t2) cb) T2 w = frame_of (Ptm m cb) Tb w) as Hfb.
  { intros w Hw. unfold frame_of. rewrite Et, (pa_pte _ _ _ _ _ _ _ _ _ _ _ _ Hadd), decide_False; [done|]. by intros ->. }
  assert (forall a f, Ta !! a = Some f -> f ∉ frames k) as Hua by apply (pt_used _ _ _ (sp_pt _ _ _ _ _ _ Ha)).
  pose proof (fun v => space_frame_live k m ca Ta vsa live v Ha) as Hla.
  constructor.
  - apply added_space_a.
  - exact Hsb.
  - intros a Hk. by rewrite added_kernel.
  - intros a b f Hfa Hfb'. apply (pa_new _ _ _ _ _ _ _ _ _ _ _ _ Hadd) in Hfb' as [?|[? _]]; [by eapply P|].
    destruct (Hua a f Hfa). by apply Hfs.
  - intros v w Hva [->|Hw]%elem_of_cons; rewrite added_frame_of.
    + rewrite Hpf. intros E. destruct (Hla v Hva). by rewrite E.
    + rewrite Hfb by done. by apply G.
  - intros v c Hva Hc. rewrite added_frame_of in Hc. apply (pa_new _ _ _ _ _ _ _ _ _ _ _ _ Hadd) in Hc as [?|[? _]]; [by eapply AB|].
    destruct (Hla v Hva). by apply Hfs.
  - intros w c [->|Hw]%elem_of_cons Hc; [rewrite Hpf in Hc; by apply (Hua c pfn)|]. rewrite Hfb in Hc by done. by eapply BA.
Qed.

(** Both views as they were, but for the new page. *)
Lemma pair_added_views :
  view_kept area_addr (Ptm m ca) (Ptm (pmem t2) ca) /\
  view_kept (fun x => area_addr x /\ vpn x <> vpn va) (Ptm m cb) (Ptm (pmem t2) cb).
Proof.
  pose proof Hpair as [Ha Hb S P G AB BA].
  pose proof (pa_cr3 _ _ _ _ _ _ _ _ _ _ _ _ Hadd) as Ec. pose proof (pa_pt _ _ _ _ _ _ _ _ _ _ _ _ Hadd) as Hpt2.
  split; intros x Hx.
  - apply (view_page (Ptm m ca) (Ptm (pmem t2) ca) Ta Ta x Hx (pt_tree _ _ _ (sp_pt _ _ _ _ _ _ Ha)) added_tree (added_pte _)).
    intros Hp j Hj. assert (vpn x ∈ vsa) as Hv by (apply (sp_vs _ _ _ _ _ _ Ha); split; [by apply area_addr_vpn|done]).
    apply added_keeps; [done|by apply (space_frame_live k m ca Ta vsa live)|]. intros c. by apply AB.
  - destruct Hx as [Hx Hne]. assert (Ptm (pmem t2) cb = t2) as -> by (destruct t2 as [m2 c2]; cbn [cr3 pmem] in *; by subst).
    apply (view_page _ _ Tb T2 x Hx (pt_tree _ _ _ (sp_pt _ _ _ _ _ _ Hb)) (pt_tree _ _ _ Hpt2)).
    + by rewrite (pa_pte _ _ _ _ _ _ _ _ _ _ _ _ Hadd), decide_False.
    + intros Hp j Hj. assert (vpn x ∈ vsb) as Hv by (apply (sp_vs _ _ _ _ _ _ Hb); split; [by apply area_addr_vpn|done]).
      apply added_keeps; [done|by apply (space_frame_live k m cb Tb vsb live)|]. intros c. by apply (sp_tables _ _ _ _ _ _ Hb).
Qed.
End Added.
(** *** The pair as the operations see it *)

Definition pair_ok (k : kmem_info_t) (m : gmap Z Z) (ca cb : Z) : Prop :=
  exists Ta vsa Tb vsb live, pair_inv k m ca Ta vsa cb Tb vsb live.

Lemma pair_ok_sym k m ca cb : pair_ok k m ca cb -> pair_ok k m cb ca.
Proof.
  intros (Ta & vsa & Tb & vsb & live & [A B S P G AB BA]). exists Tb, vsb, Ta, vsa, live. constructor; try done.
  - intros a Ha. symmetry. by apply S.
  - intros a b f Ha Hb. destruct (P b a f Hb Ha) as [? ->]. done.
  - intros v w Hv Hw E. destruct (G w v Hw Hv) as [-> ?]; done.
Qed.

Lemma pair_ok_space k m ca cb : pair_ok k m ca cb -> sp_ok mb F (k, Ptm m cb).
Proof. intros (Ta & vsa & Tb & vsb & live & [A B S P G AB BA]). by exists Tb, vsb, live. Qed.

Lemma space_translate k m c T vs live x :
  space_inv (k, Ptm m c) T vs live -> area_addr x -> is_Some (translate (Ptm m c) x) ->
  vpn x ∈ vs /\ translate (Ptm m c) x = Some (frame_of (Ptm m c) T (vpn x) * PAGE_SIZE + PAGING_OFFSET x).
Proof.
  intros Hs Hx Hsome. assert (vpn x ∈ vs) as Hv by (by apply (sp_mapped_vs mb F _ _ _ _ x Hs); split).
  split; [done|]. destruct (area_addr_vpn x Hx) as (_ & Hne & _). rewrite (translate_pte _ T x) by (done || apply Hs).
  apply (sp_vs _ _ _ _ _ _ Hs) in Hv as [_ Hp]. cbn [snd] in Hp. by rewrite Hp.
Qed.

(** No physical address is behind user addresses of both. *)
Lemma pair_apart k m ca cb x y :
  pair_ok k m ca cb -> user_addr x -> area_addr y -> is_Some (translate (Ptm m cb) x) ->
  translate (Ptm m ca) y <> translate (Ptm m cb) x.
Proof.
  intros (Ta & vsa & Tb & vsb & live & [A B S P G AB BA]) Hx Hay [px Ex] E. destruct (user_area x Hx) as [Hax Hu].
  destruct (space_translate _ _ _ _ _ _ x B Hax) as [Hvx Tx]; [by eexists|].
  destruct (space_translate _ _ _ _ _ _ y A Hay) as [Hvy Ty]; [rewrite E; by eexists|].
  destruct (area_addr_vpn x Hax) as (_ & _ & _ & Hox), (area_addr_vpn y Hay) as (_ & _ & _ & Hoy).
  rewrite Tx, Ty in E. injection E as E. unfold PAGE_SIZE in E.
  destruct (G (vpn y) (vpn x) Hvy Hvx) as [Ev Hk]; [lia|]. by rewrite Ev in Hk.
Qed.

(** A byte stored at a user address of [b]. *)
Lemma pair_write k m ca cb x v :
  pair_ok k m ca cb -> user_addr x -> is_Some (translate (Ptm m cb) x) -> 0 <= v < 256 ->
  exists m', vwrite8 (Ptm m cb) x v = Some (Ptm m' cb) /\ pair_ok k m' ca cb /\
    view_kept area_addr (Ptm m ca) (Ptm m' ca) /\
    forall y, area_addr y -> translate (Ptm m' cb) y = translate (Ptm m cb) y /\
      vread8 (Ptm m' cb) y = if decide (y = x) then Some v else vread8 (Ptm m cb) y.
Proof.
  intros Hok Hx Hsx Hv. pose proof (pair_apart k m ca cb x) as Hap. pose proof (pair_ok_space _ _ _ _ Hok) as Hsp.
  assert (forall y, area_addr y -> translate (Ptm m ca) y <> translate (Ptm m cb) x) as Hap' by (intros y Hy; by apply Hap).
  clear Hap. pose proof Hok as (Ta & vsa & Tb & vsb & live & Hp). pose proof Hp as [A B S P G AB BA].
  destruct (user_area x Hx) as [Hax Hu]. destruct (space_translate _ _ _ _ _ _ x B Hax Hsx) as [Hvx Epa].
  destruct (area_addr_vpn x Hax) as (_ & Hnx & _ & Hox).
  remember (frame_of (Ptm m cb) Tb (vpn x) * PAGE_SIZE + PAGING_OFFSET x) as pa eqn:Hpa.
  set (fr := frame_of (Ptm m cb) Tb (vpn x)) in *. pose proof (page_frame_range (pte_of (Ptm m cb) Tb (vpn x))) as Hfr.
  assert (0 <= pa) as Hpa0 by (subst pa; unfold PAGE_SIZE, fr, frame_of; lia).
  exists (wr8 m pa v).
  assert (forall T, (forall c, T !! c <> Some fr) -> same_tables T m (wr8 m pa v)) as Hst.
  { intros T HT a g j Hg Hj. rewrite Hpa. apply wr8_entry; [done..|]. intros ->. by apply (HT a). }
  assert (same_tables Ta m (wr8 m pa v)) as Sa by (apply Hst; intros c; by apply BA).
  assert (same_tables Tb m (wr8 m pa v)) as Sb by (apply Hst; intros c; by apply (sp_tables _ _ _ _ _ _ B)).
  pose proof (pair_store _ _ _ _ _ _ _ _ _ _ Hp Sa Sb) as Hp'.
  assert (forall c T y, same_tables T m (wr8 m pa v) -> tree_ok (Ptm m c) T -> tree_ok (Ptm (wr8 m pa v) c) T -> area_addr y ->
    translate (Ptm (wr8 m pa v) c) y = translate (Ptm m c) y /\
    vread8 (Ptm (wr8 m pa v) c) y = if decide (translate (Ptm m c) y = Some pa) then Some v else vread8 (Ptm m c) y) as Hw.
  { intros c T y HS HT HT' Hy. destruct (area_addr_vpn y Hy) as (_ & Hny & _ & Hoy).
    assert (translate (Ptm (wr8 m pa v) c) y = translate (Ptm m c) y) as Et
      by (by rewrite !(translate_pte _ T y), (same_tables_pte T m)).
    split; [done|]. unfold vread8. rewrite Et. destruct (translate (Ptm m c) y) as [py|] eqn:Ey; [|by rewrite decide_False].
    cbn [mbind option_bind pmem]. rewrite rd8_wr8; [|done| |done].
    - repeat case_decide; congruence.
    - rewrite (translate_pte _ T y) in Ey by done. destruct (present _); [|done]. injection Ey as <-.
      pose proof (page_frame_range (pte_of (Ptm m c) T (vpn y))). unfold PAGE_SIZE. lia. }
  split_and!.
  - unfold vwrite8. by rewrite Epa.
  - by exists Ta, vsa, Tb, vsb, live.
  - intros y Hy. destruct (Hw ca Ta y Sa) as [E1 E2]; [apply A|apply Hp'|done|]. split; [done|]. rewrite E2, decide_False; [done|].
    rewrite <- Epa. by apply Hap'.
  - intros y Hy. destruct (Hw cb Tb y Sb) as [E1 E2]; [apply B|apply Hp'|done|]. split; [done|]. rewrite E2.
    destruct (decide (y = x)) as [->|Hne]; [by rewrite decide_True|]. rewrite decide_False; [done|].
    intros E. apply Hne. apply (space_isolated mb F HF (k, Ptm m cb)); [done|split; [done|by eexists]..|]. cbn [snd]. congruence.
Qed.
(** A user page mapped in [b]. *)
#[local] Instance pair_tables : PageTables ptm_t := ptm_tables mb.

Lemma pair_map_page k m ca cb va k1 pfn :
  pair_ok k m ca cb -> in_space VMM_FLAGS_USER va 1 -> translate (Ptm m cb) va = None ->
  pmm_alloc_page mb k = (k1, Pfn pfn) -> (7 <= length (frames k))%nat ->
  exists k2 m2, vmm_map (k1, Ptm m cb) va (phys_addr (page_at mb k1 pfn)) 1 VMM_FLAGS_USER = Some (k2, Ptm m2 cb) /\
    pair_ok k2 m2 ca cb /\ (length (frames k) <= 7 + length (frames k2))%nat /\
    view_kept area_addr (Ptm m ca) (Ptm m2 ca) /\
    view_kept (fun x => area_addr x /\ ~ page_in va 1 x) (Ptm m cb) (Ptm m2 cb).
Proof.
  intros (Ta & vsa & Tb & vsb & live & Hp) Hsp Hn Ea Hlen. pose proof (pr_b _ _ _ _ _ _ _ _ _ Hp) as B.
  destruct (in_space_page _ _ Hsp) as (Hr & Hav & H0 & H7 & _ & Hpg). pose proof (sp_pt _ _ _ _ _ _ B) as Hpt. cbn [fst snd] in Hpt.
  assert (user_addr va /\ vpn va + 1 < 2 ^ 35) as [Hu Hv35].
  { destruct Hsp as [_ [q ->] _ H1 H2]. change (mm_get_vmarea_start _) with MI_USER_VMAREA_SAPACE_START in H1.
    change (mm_get_vmarea_end _) with MI_USER_VMAREA_SAPACE_END in H2.
    unfold user_addr, vpn, PAGE_SIZE in *. unfold_areas. Z.div_mod_to_equations. lia. }
  destruct (user_area va Hu) as [Haa Hk]. destruct (area_addr_vpn va Haa) as (_ & Hne & _).
  assert (present (pte_of (Ptm m cb) Tb (vpn va)) = false) as Hab.
  { rewrite (translate_pte _ Tb va) in Hn by (done || apply Hpt). by destruct (present _). }
  assert (vpn va ∉ vsb) as Hnv.
  { intros Hin. apply (sp_vs _ _ _ _ _ _ B) in Hin as [_ Hin]. cbn [snd] in Hin. congruence. }
  pose proof (vpn_range va) as Hvr.
  pose proof (map_page_added mb (fun a => ~ kernel_node a) k (Ptm m cb) Tb VMM_FLAGS_USER va k1 pfn Hpt Hr
    (user_may_add (vpn va) (proj1 Hvr) Hv35) H0 H7 Hab Ea) as M.
  change (map_pages mb) with (ptm_map_pages (PageTables := pair_tables)) in M. unfold vmm_map.
  destruct (ptm_map_pages (k1, Ptm m cb) va _ 1 _) as [[k2 t2]|]; [|lia]. destruct M as (T2 & fs & A).
  pose proof (pa_cr3 _ _ _ _ _ _ _ _ _ _ _ _ A) as Ec. destruct t2 as [m2 c2]. cbn [cr3] in Ec. subst c2.
  destruct (added_free mb _ _ _ _ _ _ _ _ _ _ _ (pt_buddy _ _ _ Hpt) A) as (_ & _ & _ & _ & Hl & _).
  pose proof (pair_added k m ca Ta vsa cb Tb vsb live va _ k2 _ T2 pfn fs Hp A Hk Hav H0 Hnv) as Hp2. cbn [pmem] in Hp2.
  destruct (pair_added_views k m ca Ta vsa cb Tb vsb live va _ k2 _ T2 pfn fs Hp A Hk) as [V1 V2].
  exists k2, m2. split_and!; [done|by exists Ta, vsa, T2, (vpn va :: vsb), (blocks fs ++ (pfn, 0%nat) :: live)|lia|done|].
  eapply view_kept_mono; [|exact V2]. intros x [Hx Hnp]. split; [done|]. by rewrite <- Hpg.
Qed.

Lemma pair_vmap n : forall k m ca cb va,
  pair_ok k m ca cb -> in_space VMM_FLAGS_USER va (Z.of_nat n) ->
  (forall x, page_in va (Z.of_nat n) x -> translate (Ptm m cb) x = None) -> (7 * n <= length (frames k))%nat ->
  exists k2 m2, vmap_pages mb n (k, Ptm m cb) va VMM_FLAGS_USER = Some (k2, Ptm m2 cb) /\
    pair_ok k2 m2 ca cb /\ (length (frames k) <= 7 * n + length (frames k2))%nat /\
    view_kept area_addr (Ptm m ca) (Ptm m2 ca) /\
    view_kept (fun x => area_addr x /\ ~ page_in va (Z.of_nat n) x) (Ptm m cb) (Ptm m2 cb).
Proof.
  induction n as [|n IH]; intros k m ca cb va Hp Hsp Hn Hlen; cbn [vmap_pages].
  { exists k, m. split_and!; try done; lia. }
  destruct (in_space_S _ _ _ Hsp) as (H1 & H2 & -> & Hx). setoid_rewrite Hx in Hn.
  destruct (pair_ok_space _ _ _ _ Hp) as (T & vs & live & Hs). pose proof (sp_pt _ _ _ _ _ _ Hs) as Hpt. cbn [fst snd] in Hpt.
  pose proof (alloc_page_spec mb k (pt_buddy _ _ _ Hpt) (pt_coalesced _ _ _ Hpt)) as A.
  cbn [fst snd]. destruct (pmm_alloc_page mb k) as [k1 [pfn| |]] eqn:Ea; [|rewrite A in Hlen; simpl in Hlen; lia..].
  destruct (pair_map_page k m ca cb va k1 pfn Hp H1) as (k2 & m2 & -> & Hp2 & Hl2 & V1 & V2); [apply Hn; left; unfold page_in, PAGE_SIZE; lia|done|lia|].
  cbn [mbind option_bind].
  destruct (IH k2 m2 ca cb _ Hp2 H2) as (k3 & m3 & -> & Hp3 & Hl3 & V3 & V4); [|lia|].
  { intros x Hin. destruct (V2 x) as [-> _]; [|by apply Hn; right]. split; [by eapply in_space_area|].
    revert Hin. unfold page_in. lia. }
  exists k3, m3. split_and!; [done|done|lia| |].
  - by etrans.
  - eapply view_kept_mono; [|eapply view_kept_trans; [exact V2|exact V4]]. intros x [Hax Hnp]. rewrite Hx in Hnp. tauto.
Qed.
End Pair.
