(* ===== verification/MmCreate.v ===== *)
(** * A new address space

    [mm_create] of [kernel/src/mm/vmalloc.c] makes a root table in a page of the direct mapping: the upper half is that of the
    kernel's root, entry 510 is recursive, and the lower half is empty.  Together with the current space the new one is
    a pair in the sense of [MmProofs]. *)

From S2P Require Import Prelude DList Pmm PmmBuddy PmmInit Ptm PtmProofs Vmalloc Slab SlabProofs Vmm PtmSpace Mm MmProofs.

(** ** Pages as words *)

(** The page at [va] is mapped to the frame [f]. *)
Record data_page (t : ptm_t) (T : table_map) (va f : Z) : Prop := {
  dp_tree : tree_ok t T;
  dp_va : 0 <= va /\ va + PAGE_SIZE <= 2 ^ 64 /\ (PAGE_SIZE | va);
  dp_rec : vpn va / 2 ^ 27 <> 510;
  dp_present : present (pte_of t T (vpn va)) = true;
  dp_frame : frame_of t T (vpn va) = f;
}.

Lemma data_word t T va f j :
  data_page t T va f -> 0 <= j < 512 ->
  vread t (u64 (va + 8 * j)) = Some (entry (pmem t) f j) /\
  forall x, vwrite t (u64 (va + 8 * j)) x = Some (Ptm (<[f * PT_ENTRY_COUNT + j := x]> (pmem t)) (cr3 t)).
Proof.
  intros [Ht (H0 & H1 & [q ->]) Hr Hp Hf] Hj. unfold PAGE_SIZE in *. rewrite u64_small by lia.
  assert (vpn (q * 4096 + 8 * j) = vpn (q * 4096)) as Ev by (unfold vpn; Z.div_mod_to_equations; lia).
  assert (PAGING_OFFSET (q * 4096 + 8 * j) = 8 * j) as Eo.
  { unfold PAGING_OFFSET. change 0xfff with (Z.ones 12). rewrite Z.land_ones by lia. Z.div_mod_to_equations; lia. }
  assert (translate t (q * 4096 + 8 * j) = Some (f * 4096 + 8 * j)) as E.
  { rewrite (translate_pte t T), Ev, Eo by (done || by rewrite Ev). rewrite Hp. unfold frame_of in Hf. by rewrite Hf. }
  assert ((f * 4096 + 8 * j) / 8 = f * PT_ENTRY_COUNT + j) as Ew by (unfold PT_ENTRY_COUNT; Z.div_mod_to_equations; lia).
  unfold vread, vwrite. rewrite E. cbn [mbind option_bind]. by rewrite Ew.
Qed.

Lemma data_page_same T m m' c va f : same_tables T m m' -> data_page (Ptm m c) T va f -> data_page (Ptm m' c) T va f.
Proof.
  intros Hs [Ht Hv Hr Hp Hf]. constructor; try done; [by eapply same_tables_tree|..]; unfold frame_of; by rewrite (same_tables_pte T m).
Qed.

(** Memory that changes in the frame [f] only. *)
Definition changes_in (f : Z) (m m' : gmap Z Z) : Prop := forall g j, 0 <= j < 512 -> g <> f -> entry m' g j = entry m g j.
#[global] Instance changes_in_preorder f : PreOrder (changes_in f).
Proof. split; [done|]. intros m1 m2 m3 H1 H2 g j Hj Hg. by rewrite H2, H1. Qed.

Lemma changes_same f T m m' : changes_in f m m' -> (forall a, T !! a <> Some f) -> same_tables T m m'.
Proof. intros Hc HT a g j Hg Hj. apply Hc; [done|]. intros ->. by apply (HT a). Qed.

Lemma changes_word f m j x : 0 <= j < 512 -> changes_in f m (<[f * PT_ENTRY_COUNT + j := x]> m).
Proof. intros Hj g i Hi Hg. rewrite entry_insert by done. rewrite decide_False; [done|]. by intros [-> _]. Qed.

Section Words.
Context (T : table_map) (c va f : Z) (Hf : forall a, T !! a <> Some f).

Lemma vzero_data n : forall m w,
  data_page (Ptm m c) T va f -> 0 <= w -> w + Z.of_nat n <= 512 ->
  vzero n (Ptm m c) (u64 (va + 8 * w)) = Some (Ptm (pzero n m (f * PT_ENTRY_COUNT + w)) c).
Proof.
  induction n as [|n IH]; intros m w Hd Hw Hn; [done|]. cbn [vzero pzero].
  destruct (data_word _ _ _ _ w Hd) as [_ ->]; [lia|]. cbn [mbind option_bind pmem cr3].
  replace (u64 (u64 (va + 8 * w) + 8)) with (u64 (va + 8 * (w + 1))) by wrap_lia.
  rewrite IH; [by rewrite Z.add_assoc| |lia..]. eapply data_page_same; [|done]. apply (changes_same f); [|done]. apply changes_word. lia.
Qed.

(** The upper entries of the frame [rk], mapped at [kva], copied to [f]. *)
Lemma copy_high_data kva rk n : forall m i,
  rk <> f -> data_page (Ptm m c) T va f -> data_page (Ptm m c) T kva rk -> 0 <= i -> i + Z.of_nat n <= 512 ->
  exists m', copy_high n i va kva (Ptm m c) = Some (Ptm m' c) /\ changes_in f m m' /\
    forall j, 0 <= j < 512 -> entry m' f j = if decide (i <= j < i + Z.of_nat n) then entry m rk j else entry m f j.
Proof.
  induction n as [|n IH]; intros m i Hne Hd Hk Hi Hn; cbn [copy_high].
  { exists m. split_and!; [done..|]. intros j Hj. by rewrite decide_False by lia. }
  destruct (data_word _ _ _ _ i Hk) as [-> _]; [lia|]. destruct (data_word _ _ _ _ i Hd) as [_ Hw]; [lia|].
  cbn [mbind option_bind]. rewrite Hw. cbn [mbind option_bind pmem cr3]. set (m1 := insert _ _ m).
  assert (changes_in f m m1) as Hc by (apply changes_word; lia). pose proof (changes_same f T m m1 Hc Hf) as Hs.
  destruct (IH m1 (i + 1) Hne) as (m2 & -> & Hc2 & He2); [by eapply data_page_same..|lia|lia|].
  exists m2. split_and!; [done|by etrans|]. intros j Hj. rewrite He2, (Hc rk) by done. unfold m1. rewrite entry_insert by lia.
  destruct (decide (j = i)) as [->|Hji].
  - rewrite decide_False by lia. rewrite decide_True by done. by rewrite decide_True by lia.
  - rewrite (decide_False (P := f = f /\ j = i)) by tauto. repeat case_decide; lia || done.
Qed.
End Words.

(** ** The tree of the new space *)

Definition new_tree (T : table_map) (pfn : Z) : table_map := <[(0%nat, 0) := pfn]> (filter (fun p => kernel_node p.1) T).

Lemma new_tree_lookup T pfn a f :
  new_tree T pfn !! a = Some f <-> (a = (0%nat, 0) /\ f = pfn) \/ (kernel_node a /\ T !! a = Some f).
Proof.
  unfold new_tree. rewrite lookup_insert_Some, map_lookup_filter_Some. cbn [fst].
  split; [naive_solver|]. intros [[-> ->]|[Hk Hf]]; [by left|]. right. split; [|done]. by intros <-.
Qed.
Lemma new_tree_kernel T pfn a : kernel_node a -> new_tree T pfn !! a = T !! a.
Proof. intros Hk. apply option_eq. intros f. rewrite new_tree_lookup. split; [|by right]. intros [[-> _]|[_ ?]]; done. Qed.
Lemma new_tree_user T pfn l n : ~ kernel_node (S l, n) -> new_tree T pfn !! (S l, n) = None.
Proof.
  intros Hk. destruct (new_tree T pfn !! (S l, n)) as [f|] eqn:E; [|done]. by apply new_tree_lookup in E as [[? _]|[? _]].
Qed.

(** The upper entries of the root in [rk] lead to the tables of [T]. *)
Definition kernel_root (m : gmap Z Z) (T : table_map) (rk : Z) : Prop :=
  forall i, 256 <= i < 512 -> i <> 510 ->
    present (entry m rk i) = true /\ large_page (entry m rk i) = false /\ T !! (1%nat, i) = Some (page_frame (entry m rk i)).

Definition recursive_entry (pa : Z) : Z := set_field (set_field pa 0 1 1) 1 1 1.
Lemma recursive_entry_spec f :
  0 <= f < 2 ^ 36 -> let e := recursive_entry (f * PAGE_SIZE) in present e = true /\ page_frame e = f /\ large_page e = false.
Proof.
  intros Hf. unfold recursive_entry, present, large_page, page_frame, PAGE_SIZE. rewrite !testbit_set_field by lia.
  change 4096 with (2 ^ 12). split_and!; [done| |].
  - apply Z.bits_inj'. intros n Hn. change 0xfffffffff with (Z.ones 36).
    rewrite Z.land_spec, Z.shiftr_spec, !testbit_set_field, Z.testbit_ones_nonneg by lia.
    rewrite !bool_decide_eq_false_2, Z.mul_pow2_bits by lia. replace (n + 12 - 12) with n by lia.
    destruct (Z.ltb_spec n 36); [by rewrite andb_true_r|]. rewrite andb_false_r, <- (Z.mod_small f (2 ^ 36)), Z.mod_pow2_bits_high by lia. done.
  - rewrite Z.mul_pow2_bits_low by lia. done.
Qed.

Lemma new_tree_ok T m m' c pfn rk :
  tree_ok (Ptm m c) T -> (forall a, T !! a <> Some pfn) -> 0 <= pfn < 2 ^ 36 -> kernel_root m T rk -> changes_in pfn m m' ->
  (forall j, 0 <= j < 512 -> entry m' pfn j =
    if decide (j = 510) then recursive_entry (pfn * PAGE_SIZE) else if decide (256 <= j) then entry m rk j else 0) ->
  tree_ok (Ptm m' (pfn * PAGE_SIZE)) (new_tree T pfn).
Proof.
  intros [R D I C P X] Hpf Hr Hk Hc He. cbn [pmem] in *.
  assert (root (Ptm m' (pfn * PAGE_SIZE)) = pfn) as Er.
  { unfold root, PAGE_SHIFT, PAGE_SIZE. cbn [cr3]. rewrite Z.shiftr_div_pow2 by lia. by rewrite Z.div_mul. }
  constructor; rewrite ?Er; cbn [pmem].
  - apply new_tree_lookup. by left.
  - intros l n f [[[= -> ->] ->]|[_ Hf]]%new_tree_lookup; [unfold level_size; lia|by apply D].
  - intros a b f [[-> ->]|[_ Ha]]%new_tree_lookup [[-> ?]|[_ Hb]]%new_tree_lookup; simplify_eq; [done|by destruct (Hpf b)|by destruct (Hpf a)|by eapply I].
  - intros l n f i [[[= -> ->] ->]|[Hkn Hf]]%new_tree_lookup Hl Hi Hne.
    + rewrite Z.mul_0_r, Z.add_0_l, He, decide_False by (done || tauto).
      destruct (decide (256 <= i)) as [Hb|Hb].
      * destruct (Hk i) as (-> & -> & Ht); [lia|tauto|]. split; [|done]. rewrite new_tree_kernel; [done|by apply kernel_top].
      * split; [|done]. apply new_tree_user. by rewrite kernel_top.
    + rewrite Hc by (try done; intros ->; by apply (Hpf (l, n))). destruct l as [|l]; [done|].
      rewrite new_tree_kernel by (by apply kernel_child). by apply C.
  - intros l n f [[[=] _]|[Hkn Hf]]%new_tree_lookup. destruct (P l n f Hf) as [[g Hg] Hn]. split; [|done].
    destruct l as [|l].
    + destruct (D _ _ _ Hf) as (_ & Hd & _). change (level_size 1) with 512 in Hd. exists pfn. apply new_tree_lookup. left.
      split; [|done]. f_equal. Z.div_mod_to_equations; lia.
    + exists g. apply new_tree_lookup. right. split; [|done]. apply (kernel_child l (n / 512) (n mod 512)); [by apply Z.mod_pos_bound|].
      by rewrite <- Z.div_mod.
  - rewrite He, decide_True by lia. destruct (recursive_entry_spec pfn Hr) as (-> & -> & ->). done.
Qed.

#[global] Instance kernel_vpn_dec v : Decision (kernel_vpn v).
Proof. unfold kernel_vpn. apply _. Defined.

Lemma new_tree_pte T m m' c c' pfn v :
  same_tables T m m' -> pte_of (Ptm m' c') (new_tree T pfn) v = if decide (kernel_vpn v) then pte_of (Ptm m c) T v else 0.
Proof.
  intros Hs. rewrite <- (same_tables_pte T m m' c v Hs). unfold pte_of. case_decide as Hk; rewrite <- kernel_leaf in Hk.
  - by rewrite new_tree_kernel.
  - by rewrite new_tree_user.
Qed.

(** The entry of a mapped page through its pointer. *)
Lemma vread_pte t T va :
  tree_ok t T -> present (pte_of t T (vpn va)) = true -> vread t (mi_ptr_to_pte va) = Some (pte_of t T (vpn va)).
Proof.
  intros Ht Hp. pose proof (vpn_range va) as Hr. change (mi_ptr_to_pte va) with (mi_ptr_to 3 va). rewrite mi_ptr_to_eptr, ent_3 by lia.
  unfold pte_of in *. destruct (T !! (3%nat, vpn va / 512)) as [f|] eqn:Ef; [|done].
  by apply (entry_access t T 3).
Qed.

Section Create.
Context (mb : Z -> page_t) (F : list Z) (HF : NoDup F).
Notation state := (kmem_info_t * ptm_t)%type.
Notation space_inv := (space_inv mb F).
Notation page_added := (page_added mb).
#[local] Instance create_tables : PageTables ptm_t := ptm_tables mb.

Section Pair.
Context (k : kmem_info_t) (m m' : gmap Z Z) (c : Z) (T : table_map) (vs : list Z) (live : list (Z * nat)) (pfn rk : Z).
Context (Hs : space_inv (k, Ptm m c) T vs live) (HT : forall a, T !! a <> Some pfn) (Hv : forall v, v ∈ vs -> frame_of (Ptm m c) T v <> pfn).
Context (Hfree : pfn ∉ frames k) (Hr : 0 <= pfn < 2 ^ 36) (Hk : kernel_root m T rk) (Hc : changes_in pfn m m').
Context (He : forall j, 0 <= j < 512 -> entry m' pfn j =
    if decide (j = 510) then recursive_entry (pfn * PAGE_SIZE) else if decide (256 <= j) then entry m rk j else 0).

Lemma new_frame v : kernel_vpn v -> frame_of (Ptm m' (pfn * PAGE_SIZE)) (new_tree T pfn) v = frame_of (Ptm m c) T v.
Proof. intros Hkv. unfold frame_of. rewrite (new_tree_pte T m m' c) by (by eapply changes_same). by rewrite decide_True. Qed.

Lemma new_space : space_inv (k, Ptm m' (pfn * PAGE_SIZE)) (new_tree T pfn) (filter kernel_vpn vs) live.
Proof.
  pose proof (changes_same pfn T m m' Hc HT) as Hst.
  destruct Hs as [[P1 P2 P3 P4 P5] I2 I3 I4 [rest I5] I6]. cbn [fst snd] in *. constructor; cbn [fst snd].
  - constructor; try done; [by eapply new_tree_ok|]. intros a f [[-> ->]|[_ Hf]]%new_tree_lookup; [done|by apply (P5 a)].
  - done.
  - by apply NoDup_filter.
  - intros v. rewrite list_elem_of_filter, I4, (new_tree_pte T m m' c) by done.
    destruct (decide (kernel_vpn v)); [tauto|]. split; [tauto|]. by intros [_ ?].
  - exists (blocks (frame_of (Ptm m c) T <$> filter (fun v => ~ kernel_vpn v) vs) ++ rest). rewrite I5, app_assoc. f_equiv.
    rewrite (list_fmap_ext _ (frame_of (Ptm m c) T) (filter kernel_vpn vs)).
    2:{ intros i v Hin%list_elem_of_lookup_2. apply list_elem_of_filter in Hin as [Hkv _]. by apply new_frame. }
    unfold blocks. rewrite <- !fmap_app. do 2 apply fmap_Permutation. symmetry. apply filter_app_complement.
  - intros v a [Hkv Hin]%list_elem_of_filter. rewrite new_frame by done.
    intros [[-> E]|[_ Hf]]%new_tree_lookup; [by apply (Hv v)|by apply (I6 v a)].
Qed.

Lemma new_pair : pair_inv mb F k m' c T vs (pfn * PAGE_SIZE) (new_tree T pfn) (filter kernel_vpn vs) live.
Proof.
  pose proof (changes_same pfn T m m' Hc HT) as Hst.
  assert (forall v, frame_of (Ptm m' c) T v = frame_of (Ptm m c) T v) as Hf by (intros v; unfold frame_of; by rewrite (same_tables_pte T m)).
  constructor.
  - by eapply same_tables_space.
  - exact new_space.
  - intros a Ha. by rewrite new_tree_kernel.
  - intros a b f Ha [[-> ->]|[Hkb Hb]]%new_tree_lookup; [by destruct (HT a)|].
    assert (a = b) as -> by (eapply tr_inj; [apply Hs|done..]). done.
  - intros v w Hvs [Hkw Hw]%list_elem_of_filter. rewrite Hf, new_frame by done. intros E.
    assert (v = w) as -> by (by eapply (frames_apart mb F HF (k, Ptm m c))). done.
  - intros v a Hvs. rewrite Hf. intros [[-> E]|[_ Ha]]%new_tree_lookup; [by apply (Hv v)|]. by apply (sp_tables _ _ _ _ _ _ Hs v a).
  - intros v a [Hkv Hvs]%list_elem_of_filter. rewrite new_frame by done. by apply (sp_tables _ _ _ _ _ _ Hs).
Qed.
End Pair.
(** *** The page of the root *)

Definition direct_vpn (f : Z) : Z := 494 * 2 ^ 27 + f.

Lemma direct_page f :
  0 <= f < 2 ^ 27 -> let va := u64 (MI_DIRECT_MAPPING_RANGE_START + pfn_to_ptr f) in
  va = MI_DIRECT_MAPPING_RANGE_START + f * PAGE_SIZE /\ pfn_to_ptr f = f * PAGE_SIZE /\ vpn va = direct_vpn f /\ page_range va 1 /\
  may_add kernel_node (vpn va) 1 /\ va + PAGE_SIZE <= 2 ^ 64.
Proof.
  intros Hf va. unfold va, pfn_to_ptr, direct_vpn. rewrite page_address by lia. unfold MI_DIRECT_MAPPING_RANGE_START, PAGE_SIZE in *.
  rewrite u64_small by lia. assert (vpn (0xfffff70000000000 + f * 4096) = 494 * 2 ^ 27 + f) as Ev by (unfold vpn; Z.div_mod_to_equations; lia).
  split_and!; [done..| | |lia].
  - constructor; [lia|exists (0xfffff70000000 + f); lia|lia|lia|]. rewrite Ev. intros v Hv. Z.div_mod_to_equations; lia.
  - rewrite Ev. intros l x Hl Hx. unfold ent in Hx. unfold kernel_node.
    each_level l.
Qed.

Lemma page_phys k p : buddy_inv k -> 0 <= p < npages k -> phys_addr (page_at mb k p) = p * PAGE_SIZE.
Proof. intros Hb Hp. destruct (inv_page Hb p Hp) as (pg & E & Hph). unfold page_at. by rewrite E. Qed.

(** A new page outside the areas keeps the space and its view. *)
Lemma space_added_other Q k t T vs live fl va k2 t2 T2 pfn fs :
  space_inv (k, t) T vs live -> ~ area_vpn (vpn va) -> page_added Q k t T va fl k2 t2 T2 pfn fs ->
  space_inv (k2, t2) T2 vs (blocks fs ++ (pfn, 0%nat) :: live) /\ (forall v, v ∈ vs -> frame_of t2 T2 v = frame_of t T v) /\
  view_kept area_addr t t2.
Proof.
  intros [Hpt Hpm Hnd Hvs [rest Hl] Htb] Hav A. cbn [fst snd] in *. pose proof Hpt as [Ht Hb Hc Hlim Hu].
  destruct (added_free mb _ _ _ _ _ _ _ _ _ _ _ Hb A) as (Hpf & Hpfs & Hfs & _ & _ & Hpfr).
  destruct A as [Hpt2 _ _ Hnew _ Hpfn Hst Hpte Hmem _].
  assert (forall v, area_vpn v -> pte_of t2 T2 v = pte_of t T v) as Hoth.
  { intros v Hv. rewrite Hpte, decide_False; [done|]. by intros ->. }
  assert (forall v, v ∈ vs -> frame_of t2 T2 v = frame_of t T v) as Hfr.
  { intros v Hv. unfold frame_of. rewrite Hoth; [done|]. by apply Hvs. }
  assert (forall v a, v ∈ vs -> T2 !! a <> Some (frame_of t T v)) as Htb2.
  { intros v a Hv Ha. apply Hnew in Ha as [Ha|[Ha _]]; [by apply (Htb v a)|].
    apply (live_not_free mb F HF k live (frame_of t T v) Hpm); [|by apply Hfs].
    eapply blocks_live; [exact Hl|]. apply list_elem_of_fmap. by exists v. }
  split_and!; [constructor; cbn [fst snd]|done|].
  - done.
  - by eapply pmm_run_inv; [done|apply Hst|].
  - done.
  - intros v. rewrite Hvs. split; intros [? Hp]; (split; [done|]); by rewrite ?Hoth in *.
  - exists ((blocks fs ++ [(pfn, 0%nat)]) ++ rest).
    rewrite (list_fmap_ext (frame_of t2 T2) (frame_of t T) vs) by (intros i v Hi%list_elem_of_lookup_2; auto).
    rewrite Hl, (Permutation_app_swap_app (blocks (_ <$> vs))), <- !app_assoc. done.
  - intros v a Hv. rewrite Hfr by done. auto.
  - intros x Hx. destruct (area_addr_vpn x Hx) as (Hv & _). apply (view_page t t2 T T2 x Hx Ht); [apply Hpt2|by apply Hoth|].
    intros Hp j Hj. apply Hmem; [done|]. intros a. apply Htb2. by apply Hvs.
Qed.
(** What the new space relies on: the pages of free frames are not mapped in the direct mapping, and [pml4_root] is the address of
    the kernel's root table, whose frame [rk] is in use, with the tables of the current space in its upper half. *)
Record copy_ready (pml4_root rk : Z) (k : kmem_info_t) (t : ptm_t) (T : table_map) (vs : list Z) (live : list (Z * nat)) : Prop := {
  cy_space : space_inv (k, t) T vs live;
  cy_small : npages k <= 2 ^ 27;
  cy_direct : forall f, f ∈ frames k -> present (pte_of t T (direct_vpn f)) = false;
  cy_used : rk ∉ frames k;
  cy_kernel : kernel_root (pmem t) T rk;
  cy_root : rk = root t \/ forall a, T !! a <> Some rk;
  cy_mapped : data_page t T pml4_root rk;
}.

Section Spec.
Context (pml4_root rk : Z) (k : kmem_info_t) (t : ptm_t) (T : table_map) (vs : list Z) (live : list (Z * nat)).
Context (Hrdy : copy_ready pml4_root rk k t T vs live) (Hlen : (7 <= length (frames k))%nat).

Lemma create_page :
  exists k2 m2 T2 pfn fs, direct_alloc_page mb (k, t) = Some ((k2, Ptm m2 (cr3 t)), MI_DIRECT_MAPPING_RANGE_START + pfn * PAGE_SIZE) /\
    0 <= pfn < 2 ^ 27 /\
    page_added kernel_node k t T (MI_DIRECT_MAPPING_RANGE_START + pfn * PAGE_SIZE) VMM_FLAGS_DEFAULT k2 (Ptm m2 (cr3 t)) T2 pfn fs.
Proof.
  destruct Hrdy as [Hs Hsm Hd _ _ _ _]. pose proof (sp_pt _ _ _ _ _ _ Hs) as Hpt. cbn [fst snd] in Hpt.
  pose proof (alloc_page_spec mb k (pt_buddy _ _ _ Hpt) (pt_coalesced _ _ _ Hpt)) as A.
  unfold direct_alloc_page, direct_alloc_pages. cbn [fst snd]. change (pmm_alloc_pages mb k 1) with (pmm_alloc_page mb k).
  destruct (pmm_alloc_page mb k) as [k1 [pfn| |]] eqn:Ea; [|rewrite A in Hlen; simpl in Hlen; lia..].
  destruct A as (Hb1 & _ & Hfr & Hnp & Hpfn & _).
  destruct (direct_page pfn ltac:(lia)) as (Eva & Epa & Ev & Hr & HQ & _). rewrite Epa in *. cbv zeta in *. rewrite Eva in *.
  assert (pfn ∈ frames k) as Hin by (rewrite Hfr; left).
  pose proof (map_page_added mb kernel_node k t T VMM_FLAGS_DEFAULT _ k1 pfn Hpt Hr HQ eq_refl eq_refl) as M.
  rewrite Ev in M. specialize (M (Hd pfn Hin) Ea). rewrite (page_phys k1 pfn Hb1 ltac:(lia)) in M.
  change (map_pages mb) with (ptm_map_pages (PageTables := create_tables)) in M.
  destruct (ptm_map_pages (k1, t) _ _ 1 _) as [[k2 t2]|]; [|lia]. destruct M as (T2 & fs & M).
  pose proof (pa_cr3 _ _ _ _ _ _ _ _ _ _ _ _ M) as Ec. destruct t2 as [m2 c2]. cbn [cr3] in Ec. subst c2.
  exists k2, m2, T2, pfn, fs. split_and!; [done|lia..|done].
Qed.
(** The root page as it is handed out. *)
Record root_page (k2 : kmem_info_t) (m2 : gmap Z Z) (T2 : table_map) (pfn : Z) (live2 : list (Z * nat)) : Prop := {
  rp_range : 0 <= pfn < 2 ^ 27;
  rp_alloc : direct_alloc_page mb (k, t) = Some ((k2, Ptm m2 (cr3 t)), MI_DIRECT_MAPPING_RANGE_START + pfn * PAGE_SIZE);
  rp_space : space_inv (k2, Ptm m2 (cr3 t)) T2 vs live2;
  rp_view : view_kept area_addr t (Ptm m2 (cr3 t));
  rp_table : forall a, T2 !! a <> Some pfn;
  rp_pages : forall v, v ∈ vs -> frame_of (Ptm m2 (cr3 t)) T2 v <> pfn;
  rp_used : pfn ∉ frames k2;
  rp_frames : (length (frames k) <= 7 + length (frames k2))%nat;
  rp_npages : pfn < npages k2;
  rp_kernel : kernel_root m2 T2 rk;
  rp_rk : rk <> pfn;
  rp_data : data_page (Ptm m2 (cr3 t)) T2 (MI_DIRECT_MAPPING_RANGE_START + pfn * PAGE_SIZE) pfn;
  rp_root : data_page (Ptm m2 (cr3 t)) T2 pml4_root rk;
}.

Lemma create_root : exists k2 m2 T2 pfn live2, root_page k2 m2 T2 pfn live2.
Proof.
  destruct create_page as (k2 & m2 & T2 & pfn & fs & E & Hpfn & A). destruct Hrdy as [Hs Hsm Hd Hrk Hker Hroot Hmap].
  pose proof (sp_pt _ _ _ _ _ _ Hs) as Hpt. cbn [fst snd] in Hpt.
  destruct (direct_page pfn Hpfn) as (Eva & _ & Ev & Hr & _ & H64). rewrite Eva in *. clear Eva.
  set (va := MI_DIRECT_MAPPING_RANGE_START + pfn * PAGE_SIZE) in *.
  destruct (space_added_other _ _ _ _ _ _ _ _ _ _ _ _ _ Hs ltac:(rewrite Ev; unfold area_vpn, direct_vpn; lia) A) as (S2 & Hfr2 & V2).
  destruct (added_free mb _ _ _ _ _ _ _ _ _ _ _ (pt_buddy _ _ _ Hpt) A) as (Hpf & Hpfs & Hfs & _ & Hl & Hpfr).
  destruct (sp_live _ _ _ _ _ _ Hs) as [rest Hlive]. pose proof (sp_pmm _ _ _ _ _ _ Hs) as Hpm. cbn [fst snd] in *.
  destruct A as [Hpt2 _ Hsub Hnew Hfr Hpr Hst Hpte Hmem _]. pose proof (pt_tree _ _ _ Hpt2) as Ht2.
  assert (vpn pml4_root <> vpn va) as Hne.
  { intros Ee. pose proof (dp_present _ _ _ _ Hmap) as Hp. rewrite Ee, Ev, Hd in Hp; done. }
  exists k2, m2, T2, pfn, (blocks fs ++ (pfn, 0%nat) :: live). constructor; fold va; try done.
  - intros a [Ha|[Ha _]]%Hnew; [|done]. by apply (pt_used _ _ _ Hpt a pfn).
  - intros v Hv. rewrite Hfr2 by done. intros Ee. apply (live_not_free mb F HF k live (frame_of t T v) Hpm); [|by rewrite Ee].
    eapply blocks_live; [exact Hlive|]. apply list_elem_of_fmap. by exists v.
  - pose proof (bi_frames _ (pt_buddy _ _ _ Hpt)) as Hnd. rewrite Hfr in Hnd. apply NoDup_cons in Hnd as [Hnd _].
    intros Hin. apply Hnd, elem_of_app. by right.
  - pose proof (run_limit mb F HF _ _ Hpm (Hst live)) as En. cbn [fst] in En. lia.
  - intros i Hi Hi0. destruct (Hker i Hi Hi0) as (Hp & Hg & HT). destruct Hroot as [Er|Hnt].
    + destruct (tr_child _ _ Ht2 0%nat 0 rk i) as [Hc Hlg]; [rewrite Er; apply Ht2|lia|lia|by intros [_ ?]|].
      rewrite Z.mul_0_r, Z.add_0_l in Hc. pose proof (lookup_weaken _ _ _ _ HT Hsub) as HT2. rewrite HT2 in Hc.
      cbn [pmem] in *. destruct (present (entry m2 rk i)); [|done]. by rewrite HT2.
    + assert (entry m2 rk i = entry (pmem t) rk i) as ->.
      { apply Hmem; [lia|]. intros a [Ha|[Ha _]]%Hnew; [by apply (Hnt a)|by apply Hrk, Hfs]. }
      split_and!; [done..|]. by eapply lookup_weaken.
  - intros ->. done.
  - assert (pte_of (Ptm m2 (cr3 t)) T2 (vpn va) = set_pte pfn VMM_FLAGS_DEFAULT) as Ep by (by rewrite Hpte, decide_True).
    constructor; [done|..|rewrite Ev; unfold direct_vpn; Z.div_mod_to_equations; lia| |].
    + split_and!; [apply Hr|exact H64|apply Hr].
    + rewrite Ep. by destruct (set_pte_spec pfn VMM_FLAGS_DEFAULT) as (-> & _).
    + unfold frame_of. rewrite Ep, Hpfr. apply Z.mod_small. lia.
  - destruct Hmap as [M1 M2 M3 M4 M5]. constructor; try done; unfold frame_of; by rewrite Hpte, decide_False.
Qed.
(** The run: the root page gets the upper half of the kernel's root and its recursive entry. *)
Lemma create_run k2 m2 T2 pfn live2 mm :
  mm <> 0 -> root_page k2 m2 T2 pfn live2 ->
  exists m', mm_create mb pml4_root mm (k, t) =
      Some ((k2, Ptm m' (cr3 t)), MmStruct [] (MI_DIRECT_MAPPING_RANGE_START + pfn * PAGE_SIZE) (pfn * PAGE_SIZE)) /\
    changes_in pfn m2 m' /\
    forall j, 0 <= j < 512 -> entry m' pfn j =
      if decide (j = 510) then recursive_entry (pfn * PAGE_SIZE) else if decide (256 <= j) then entry m2 rk j else 0.
Proof.
  intros Hmm [Hpfn E S2 _ HT _ _ _ Hnp _ Hrk Hd Hr].
  set (va := MI_DIRECT_MAPPING_RANGE_START + pfn * PAGE_SIZE) in *. set (c := cr3 t) in *.
  pose proof (pt_buddy _ _ _ (sp_pt _ _ _ _ _ _ S2)) as Hb2. cbn [fst] in Hb2.
  set (m3 := pzero page_words m2 (pfn * PT_ENTRY_COUNT + 0)).
  assert (forall g j, 0 <= j < 512 -> entry m3 g j = if decide (g = pfn) then 0 else entry m2 g j) as He3.
  { intros g j Hj. unfold m3. rewrite entry_pzero by (unfold page_words; lia). unfold page_words. repeat case_decide; lia || tauto || done. }
  assert (changes_in pfn m2 m3) as C3 by (intros g j Hj Hg; by rewrite He3, decide_False).
  pose proof (changes_same pfn T2 m2 m3 C3 HT) as S3.
  destruct (copy_high_data T2 c va pfn HT pml4_root rk 256 m3 256 Hrk) as (m4 & E4 & C4 & He4); [by eapply data_page_same..|lia|lia|].
  pose proof (changes_same pfn T2 m3 m4 C4 HT) as S4.
  exists (<[pfn * PT_ENTRY_COUNT + 510 := recursive_entry (pfn * PAGE_SIZE)]> m4). split_and!.
  - unfold mm_create. rewrite (proj2 (Z.eqb_neq _ _)) by done.
    change (mm_tables mb) with create_tables. rewrite E. cbn [mbind option_bind fst snd].
    assert (u64 (va + 8 * 0) = va) as Eva
      by (destruct (dp_va _ _ _ _ Hd) as (? & ? & _); unfold PAGE_SIZE in *; rewrite Z.mul_0_r, Z.add_0_r; apply u64_small; lia).
    pose proof (vzero_data T2 c va pfn HT page_words m2 0 Hd ltac:(lia) ltac:(done)) as Ez. rewrite Eva in Ez. rewrite Ez. fold m3.
    cbn [mbind option_bind]. pose proof (data_page_same _ _ _ _ _ _ S3 Hd) as Hd3. rewrite (vread_pte _ T2) by apply Hd3. cbn [mbind option_bind].
    pose proof (dp_frame _ _ _ _ Hd3) as Ef. unfold frame_of in Ef. rewrite Ef, (page_phys k2 pfn Hb2 ltac:(lia)).
    change (Z.to_nat (PT_ENTRY_COUNT - PT_HIGH_HALF_START)) with 256%nat. change PT_HIGH_HALF_START with 256. rewrite E4. cbn [mbind option_bind].
    destruct (data_word (Ptm m4 c) T2 va pfn 510) as [_ Hw]; [by eapply data_page_same|lia|].
    change RECURSIVE_ENTRY_IDX with 510. fold (recursive_entry (pfn * PAGE_SIZE)). rewrite Hw. done.
  - do 2 (etrans; [done|]). apply changes_word. lia.
  - intros j Hj. rewrite entry_insert by lia. destruct (decide (j = 510)); [by rewrite decide_True|]. rewrite decide_False by tauto.
    rewrite He4, !He3, (decide_False (P := rk = pfn)), (decide_True (P := pfn = pfn)) by done. repeat case_decide; lia || done.
Qed.

Lemma mm_create_spec mm :
  mm <> 0 ->
  exists k' m' n, mm_create mb pml4_root mm (k, t) = Some ((k', Ptm m' (cr3 t)), n) /\ mm_areas n = [] /\
    pair_ok mb F k' m' (cr3 t) (page_dir_pa n) /\ (length (frames k) <= 7 + length (frames k'))%nat /\
    view_kept area_addr t (Ptm m' (cr3 t)) /\ forall x, user_addr x -> translate (Ptm m' (page_dir_pa n)) x = None.
Proof.
  intros Hmm. destruct create_root as (k2 & m2 & T2 & pfn & live2 & Hrp).
  destruct (create_run _ _ _ _ _ mm Hmm Hrp) as (m5 & E & C & He). destruct Hrp as [Hpfn _ S2 V2 HT Hv Hfree Hl _ Hker _ Hd _].
  pose proof (changes_same pfn T2 m2 m5 C HT) as S5.
  pose proof (new_pair k2 m2 m5 _ T2 vs live2 pfn rk S2 HT Hv Hfree ltac:(lia) Hker C He) as Hp.
  eexists k2, m5, _. split_and!; [exact E|done| |done| |]; cbn [page_dir_pa].
  - by exists T2, vs, (new_tree T2 pfn), (filter kernel_vpn vs), live2.
  - etrans; [exact V2|]. intros x Hx. destruct (area_addr_vpn x Hx) as (Hav & _).
    apply (view_page _ _ T2 T2 x Hx (dp_tree _ _ _ _ Hd)); [by eapply same_tables_tree, Hd|by apply same_tables_pte|].
    intros Hpx j Hj. apply C; [done|]. apply Hv. by apply (sp_vs _ _ _ _ _ _ S2).
  - intros x Hx. destruct (user_area x Hx) as [Hax Hk]. destruct (area_addr_vpn x Hax) as (_ & Hne & _).
    rewrite (translate_pte _ (new_tree T2 pfn)) by (done || apply (sp_pt _ _ _ _ _ _ (pr_b _ _ _ _ _ _ _ _ _ _ _ Hp))).
    by rewrite (new_tree_pte T2 m2 m5 (cr3 t)), decide_False.
Qed.
End Spec.
End Create.
