(* ===== verification/MmCopy.v ===== *)
(** * The copy of an address space

    [mm_copy] of [kernel/src/mm/vmalloc.c] gives the child of a fork an address space of its own: the same areas with the
    same bytes, and no physical memory in common with the user half of the original. *)

From S2P Require Import Prelude DList Pmm PmmBuddy PmmInit Ptm PtmProofs Vmalloc Slab SlabProofs Vmm PtmSpace Mm MmProofs MmCreate.

(** ** Bytes *)

Lemma vload_spec n : forall t x,
  0 <= x -> x + Z.of_nat n < 2 ^ 64 -> (forall i, 0 <= i < Z.of_nat n -> is_Some (translate t (x + i))) ->
  exists bs, vload n t x = Some bs /\ length bs = n /\ Forall (fun b => 0 <= b < 256) bs /\
    forall i, 0 <= i < Z.of_nat n -> bs !! Z.to_nat i = vread8 t (x + i).
Proof.
  induction n as [|n IH]; intros t x Hx Hn Hs; cbn [vload].
  { exists []. split_and!; [done..|]. intros; lia. }
  destruct (Hs 0) as [pa Epa]; [lia|]. rewrite Z.add_0_r in Epa.
  destruct (IH t (x + 1)) as (bs & E & Hlen & Hb & Hi); [lia..| |].
  { intros i Hi. rewrite <- Z.add_assoc. apply Hs. lia. }
  rewrite u64_small by lia. unfold vread8 at 1. rewrite Epa. cbn [mbind option_bind]. rewrite E. cbn [mbind option_bind].
  eexists. split_and!; [done|simpl; lia|constructor; [apply rd8_range|done]|].
  intros i Hi0. destruct (decide (i = 0)) as [->|Hne].
  - rewrite Z.add_0_r. unfold vread8. by rewrite Epa.
  - replace (Z.to_nat i) with (S (Z.to_nat (i - 1))) by lia. cbn [lookup list_lookup]. rewrite Hi by lia. f_equal. lia.
Qed.

Section Copy.
Context (mb : Z -> page_t) (F : list Z) (HF : NoDup F).
Notation pair_ok := (pair_ok mb F).
#[local] Instance copy_tables : PageTables ptm_t := ptm_tables mb.

(** Bytes stored at user addresses of [b]. *)
Lemma pair_vstore bs : forall k m ca cb x,
  pair_ok k m ca cb -> MI_USER_VMAREA_SAPACE_START <= x -> x + Z.of_nat (length bs) <= MI_USER_VMAREA_SAPACE_END ->
  (forall i, 0 <= i < Z.of_nat (length bs) -> is_Some (translate (Ptm m cb) (x + i))) -> Forall (fun b => 0 <= b < 256) bs ->
  exists m', vstore bs (Ptm m cb) x = Some (Ptm m' cb) /\ pair_ok k m' ca cb /\
    view_kept area_addr (Ptm m ca) (Ptm m' ca) /\
    forall y, area_addr y -> translate (Ptm m' cb) y = translate (Ptm m cb) y /\
      vread8 (Ptm m' cb) y = if decide (x <= y < x + Z.of_nat (length bs)) then bs !! Z.to_nat (y - x) else vread8 (Ptm m cb) y.
Proof.
  induction bs as [|b bs IH]; intros k m ca cb x Hp Hx He Hs Hb; cbn [vstore length] in *.
  { exists m. split_and!; try done. intros y Hy. by rewrite decide_False by lia. }
  apply Forall_cons in Hb as [Hb Hbs]. unfold_areas.
  destruct (pair_write mb F HF k m ca cb x b Hp) as (m1 & -> & Hp1 & V1 & W1);
    [unfold user_addr; unfold_areas; lia|rewrite <- (Z.add_0_r x); apply Hs; lia|done|]. cbn [mbind option_bind].
  assert (forall i, 0 <= i < Z.of_nat (length bs) -> area_addr (x + 1 + i)) as Ha by (intros i Hi; unfold_areas; lia).
  rewrite u64_small by lia. destruct (IH k m1 ca cb (x + 1) Hp1) as (m2 & -> & Hp2 & V2 & W2); [lia..| |done|].
  { intros i Hi. destruct (W1 (x + 1 + i)) as [-> _]; [by apply Ha|]. rewrite <- Z.add_assoc. apply Hs. lia. }
  exists m2. split_and!; [done..| |].
  - by etrans.
  - intros y Hy. destruct (W1 y Hy) as [E1 R1], (W2 y Hy) as [-> R2]. split; [done|]. rewrite R2, R1.
    destruct (decide (y = x)) as [->|Hne].
    + rewrite decide_False by lia. rewrite decide_True by lia. by rewrite Z.sub_diag.
    + destruct (decide (x + 1 <= y < _)); [rewrite decide_True by lia|by rewrite decide_False by lia].
      by replace (Z.to_nat (y - x)) with (S (Z.to_nat (y - (x + 1)))) by lia.
Qed.

(** The pages of an area, copied from the current space [a] to [b]. *)
Lemma pair_copy_pages r : forall k m ca n j start sz,
  let cb := page_dir_pa n in let va := start + j * PAGE_SIZE in
  pair_ok k m ca cb -> MI_USER_VMAREA_SAPACE_START <= start -> 0 <= j -> sz = (j + Z.of_nat r) * PAGE_SIZE ->
  start + sz <= MI_USER_VMAREA_SAPACE_END ->
  (forall x, va <= x < start + sz -> is_Some (translate (Ptm m ca) x) /\ is_Some (translate (Ptm m cb) x)) ->
  exists m', copy_pages r n va start sz (k, Ptm m ca) = Some (k, Ptm m' ca) /\ pair_ok k m' ca cb /\
    view_kept area_addr (Ptm m ca) (Ptm m' ca) /\
    forall y, area_addr y -> translate (Ptm m' cb) y = translate (Ptm m cb) y /\
      vread8 (Ptm m' cb) y = vread8 (Ptm m (if decide (va <= y < start + sz) then ca else cb)) y.
Proof.
  induction r as [|r IH]; intros k m ca n j start sz cb va Hp Hst Hj Hsz He Hs; cbn [copy_pages].
  { exists m. split_and!; try done. intros y Hy. unfold va. by rewrite decide_False by lia. }
  unfold va, cb in *. clear va cb. unfold PAGE_SIZE in *. unfold_areas.
  replace (u64 (sz - _)) with (Z.of_nat (S r) * 4096) by (rewrite u64_small by lia; lia).
  assert (forall x, start + j * 4096 <= x < start + sz -> area_addr x) as Ha by (intros x Hx; unfold_areas; lia).
  assert ((if 4096 <? Z.of_nat (S r) * 4096 then 4096 else Z.of_nat (S r) * 4096) = 4096) as ->.
  { destruct (4096 <? _) eqn:E; breflect; lia. }
  destruct (vload_spec (Z.to_nat 4096) (Ptm m ca) (start + j * 4096)) as (bs & E & Hlen & Hb & Hi); [lia..|intros i Hi; apply Hs; lia|].
  cbn [snd]. rewrite E. cbn [mbind option_bind]. unfold mm_write, at_cr3. cbn [fst snd pmem cr3].
  destruct (pair_vstore bs k m ca (page_dir_pa n) (start + j * 4096) Hp) as (m1 & -> & Hp1 & V1 & W1);
    [unfold_areas; lia..|intros i Hi'; apply Hs; lia|done|]. cbn [mbind option_bind pmem].
  rewrite u64_small by lia. replace (start + j * 4096 + 4096) with (start + (j + 1) * 4096) by lia.
  destruct (IH k m1 ca n (j + 1) start sz) as (m2 & -> & Hp2 & V2 & W2); [done|unfold_areas; lia..| |].
  { intros x Hx. destruct (V1 x) as [-> _]; [apply Ha; lia|]. destruct (W1 x) as [-> _]; [apply Ha; lia|]. apply Hs. lia. }
  exists m2. split_and!; [done..| |].
  - by etrans.
  - intros y Hy. destruct (W1 y Hy) as [E1 R1], (W2 y Hy) as [-> R2], (V1 y Hy) as [_ R3]. split; [done|]. rewrite R2.
    destruct (decide (start + (j + 1) * 4096 <= y < _)); [by rewrite decide_True by lia|]. rewrite R1, Hlen, Z2Nat.id by lia.
    destruct (decide (start + j * 4096 <= y < start + sz)).
    + rewrite decide_True, Hi by lia. f_equal. lia.
    + by rewrite decide_False by lia.
Qed.
(** *** Areas *)

(** A user area that [vmalloc] can place: page-aligned and below 64 KiB. *)
Record user_area_ok (a : vm_area_t) : Prop := {
  ua_aligned : area_aligned a;
  ua_flags : vm_flags a = VMM_FLAGS_USER;
  ua_start : MI_USER_VMAREA_SAPACE_START <= vm_start a < vm_end a;
  ua_end : vm_end a <= MI_USER_VMAREA_SAPACE_END;
  ua_size : vm_end a - vm_start a < MI_USER_VMAREA_SAPACE_START;
}.

Lemma area_user x a : user_area_ok a -> in_area x a -> area_addr x.
Proof. intros [_ _ H1 H2 _] Hx. unfold in_area in Hx. unfold_areas. lia. Qed.

Lemma user_area_size a :
  user_area_ok a -> exists q, 0 < q /\ u64 (vm_end a - vm_start a) = q * PAGE_SIZE /\ vm_pages a = q /\ vm_end a = vm_start a + q * PAGE_SIZE /\
    vm_end a < MI_USER_VMAREA_SAPACE_END /\ PAGE_ALIGN_UP_IF (q * PAGE_SIZE) = q * PAGE_SIZE /\ pages_in (q * PAGE_SIZE) = Z.to_nat q.
Proof.
  intros [[[p Hp] [r Hr]] _ H1 H2 H3]. unfold_areas. unfold vm_pages, SIZE_TO_PAGE, pages_in, PAGE_SIZE in *.
  exists (r - p). rewrite u64_small by lia. split_and!; [lia..|rewrite Hr, Hp, <- Z.mul_sub_distr_r; by rewrite Z.div_mul|lia|lia| |].
  - destruct (PAGE_ALIGN_UP_IF_spec ((r - p) * 4096)) as (q & -> & Hq); lia.
  - f_equal. Z.div_mod_to_equations. lia.
Qed.

Lemma pair_vmalloc k m ca n a self :
  let cb := page_dir_pa n in
  pair_ok k m ca cb -> user_area_ok a -> Forall (fun b => vm_end b <= vm_start a) (mm_areas n) ->
  (forall x, in_area x a -> translate (Ptm m cb) x = None) -> (7 * Z.to_nat (vm_pages a) <= length (frames k))%nat ->
  exists k2 m2, mm_vmalloc mb F HF (Some self) n (vm_start a) (u64 (vm_end a - vm_start a)) (vm_flags a) (k, Ptm m ca) =
      Some (k2, Ptm m2 ca, MmStruct (mm_areas n ++ [VmArea self (vm_start a) (vm_end a) (vm_flags a)]) (mm_page_dir n) cb, vm_start a) /\
    pair_ok k2 m2 ca cb /\ (length (frames k) <= 7 * Z.to_nat (vm_pages a) + length (frames k2))%nat /\
    view_kept area_addr (Ptm m ca) (Ptm m2 ca) /\
    view_kept (fun x => area_addr x /\ ~ in_area x a) (Ptm m cb) (Ptm m2 cb) /\
    forall x, in_area x a -> is_Some (translate (Ptm m2 cb) x).
Proof.
  intros cb Hp Ha Hbel Hn Hlen. destruct (user_area_size a Ha) as (q & Hq & Esz & Epg & Ee & Hee & Eal & _).
  pose proof Ha as [Hal Hfl H1 H2 H3].
  assert (in_space VMM_FLAGS_USER (vm_start a) q) as Hsp.
  { constructor; [by right|apply Hal|lia|apply H1|]. rewrite <- Ee. exact H2. }
  assert (forall x, page_in (vm_start a) q x <-> in_area x a) as Hpi by (intros x; unfold page_in, in_area; lia).
  destruct (in_space_loop _ _ _ Hsp) as [Hlc Hmm]. remember (loop_count (vm_start a) q) as c eqn:Ec.
  rewrite Epg, Hlc, Nat2Z.id in Hlen. rewrite Hlc in Hsp. setoid_rewrite Hlc in Hpi.
  destruct (pair_vmap mb F HF c k m ca cb (vm_start a) Hp Hsp) as (k2 & m2 & E & Hp2 & Hl & V1 & V2);
    [intros x Hx; by apply Hn, Hpi|done|].
  exists k2, m2. split_and!; [|done|rewrite Epg, Hlc, Nat2Z.id; lia|done| |].
  - unfold mm_vmalloc, vmalloc. rewrite Esz, Eal, Hfl. unfold_areas.
    change (mm_get_vmarea_start VMM_FLAGS_USER) with 0x10000.
    rewrite (proj2 (Z.eqb_neq _ _)), (proj2 (Z.leb_gt _ _)) by (unfold PAGE_SIZE in *; lia).
    unfold mm_find_vm_area, ctrue. change (mm_get_vmarea_end VMM_FLAGS_USER) with 0x7fffffffffff.
    rewrite (proj2 (Z.eqb_neq (vm_start a) 0)) by lia. cbn [negb vm_area_head].
    rewrite <- Ee, u64_small, (proj2 (Z.leb_gt _ _)) by lia.
    replace (existsb _ _) with false.
    2:{ symmetry. apply not_true_is_false. intros (b & Hb & Ho)%existsb_exists.
        pose proof (proj1 (Forall_forall _ _) Hbel b) as Hle. rewrite list_elem_of_In in Hle. specialize (Hle Hb). unfold overlap_test in Ho.
        rewrite !orb_true_iff, !andb_true_iff in Ho. rewrite ?Z.leb_le, ?Z.ltb_lt in Ho. lia. }
    cbn [create_and_link _vm_area_create mbind option_bind vm_start page_dir vmm_vmap mm_space ptm_space].
    unfold vm_pages. cbn [vm_start vm_end]. rewrite Esz. unfold SIZE_TO_PAGE. rewrite Z.div_mul by (unfold PAGE_SIZE; lia).
    unfold vmm_vmap_pages. rewrite Hmm, <- Ec. unfold at_cr3. cbn [fst snd pmem]. fold cb.
    change (PtmSpace.tables mb) with copy_tables. change (pair_tables mb) with copy_tables in E. rewrite E. done.
  - eapply view_kept_mono; [|exact V2]. intros x [Hx Hnx]. by rewrite Hpi.
  - intros x Hx. pose proof (vmap_loop_mapped mb F HF c (k, Ptm m cb) (vm_start a) VMM_FLAGS_USER) as M.
    change (PtmSpace.tables mb) with (pair_tables mb) in M. rewrite E in M. destruct M as [_ M]; [by eapply pair_ok_space|done| |apply M; left; by apply Hpi].
    intros y Hy [_ [? Hs]]. cbn [snd] in Hs. rewrite Hn in Hs; [done|by apply Hpi].
Qed.
(** What an area says of its place. *)
Definition area_place (a : vm_area_t) : Z * Z * Z := (vm_start a, vm_end a, vm_flags a).
Definition in_areas (l : list vm_area_t) (x : Z) : Prop := exists a, a ∈ l /\ in_area x a.
(** The pages of the areas. *)
Fixpoint areas_pages (l : list vm_area_t) : nat :=
  match l with [] => 0 | a :: l => Z.to_nat (vm_pages a) + areas_pages l end%nat.

Lemma in_areas_cons a l x : in_areas (a :: l) x <-> in_area x a \/ in_areas l x.
Proof.
  unfold in_areas. setoid_rewrite elem_of_cons. split; [intros (b & [->|Hb] & Hx); [by left|right; by exists b]|].
  intros [Hx|(b & Hb & Hx)]; [exists a|exists b]; by split; [auto|].
Qed.

(** The areas [l] above [lo], where nothing is mapped in [b], copied from the current space [a]. *)
Lemma pair_copy_areas slab l : forall k m ca n lo hi,
  let cb := page_dir_pa n in
  (forall i, is_Some (slab i)) -> pair_ok k m ca cb -> areas_ok lo hi l -> Forall user_area_ok l ->
  Forall (fun b => vm_end b <= lo) (mm_areas n) -> (forall x, user_addr x -> lo <= x -> translate (Ptm m cb) x = None) ->
  (forall x, in_areas l x -> is_Some (translate (Ptm m ca) x)) -> (7 * areas_pages l <= length (frames k))%nat ->
  exists k2 m2 n2, copy_areas mb F HF slab l n (k, Ptm m ca) = Some (k2, Ptm m2 ca, inr n2) /\
    page_dir_pa n2 = cb /\ area_place <$> mm_areas n2 = area_place <$> mm_areas n ++ l /\ pair_ok k2 m2 ca cb /\
    view_kept area_addr (Ptm m ca) (Ptm m2 ca) /\
    (forall x, in_areas l x -> is_Some (translate (Ptm m2 cb) x) /\ vread8 (Ptm m2 cb) x = vread8 (Ptm m ca) x) /\
    view_kept (fun x => area_addr x /\ ~ in_areas l x) (Ptm m cb) (Ptm m2 cb).
Proof.
  induction l as [|a l IH]; intros k m ca n lo hi cb Hsl Hp Hok Hua Hbel Hnone Hsrc Hlen; cbn [copy_areas areas_pages areas_ok] in *.
  { exists k, m, n. rewrite app_nil_r. split_and!; try done. by intros x (a & ?%not_elem_of_nil & _). }
  destruct Hok as [Hlo Hok]. apply Forall_cons in Hua as [Ha Hua]. setoid_rewrite in_areas_cons in Hsrc.
  destruct (user_area_size a Ha) as (q & Hq & Esz & Epg & Ee & Hee & _ & Epi). destruct (Hsl (length l)) as [self ->].
  destruct (pair_vmalloc k m ca n a self) as (k1 & m1 & -> & Hp1 & Hl1 & V1 & V2 & Hm1); [done..| | |lia|].
  { eapply Forall_impl; [exact Hbel|]. cbn. lia. }
  { intros x Hx. apply Hnone; [|unfold in_area in Hx; lia]. destruct Ha as [_ _ ? ? _]. unfold user_addr, in_area in *. lia. }
  fold cb in Hp1, V2, Hm1. cbn [mbind option_bind].
  rewrite (proj2 (Z.eqb_neq _ _)) by (destruct Ha as [_ _ ? _ _]; unfold_areas; lia). rewrite Esz, Epi. set (n1 := MmStruct _ _ _).
  assert (forall x, in_area x a -> area_addr x) as Haa by (intros x; by apply area_user).
  destruct (pair_copy_pages (Z.to_nat q) k1 m1 ca n1 0 (vm_start a) (q * PAGE_SIZE)) as (m2 & E2 & Hp2 & V3 & W3);
    [done|apply Ha|lia|rewrite Z2Nat.id by lia; done|rewrite <- Ee; apply Ha| |].
  { rewrite Z.mul_0_l, Z.add_0_r, <- Ee. intros x Hx. split; [|by apply Hm1]. destruct (V1 x) as [-> _]; [by apply Haa|]. apply Hsrc. by left. }
  change (page_dir_pa n1) with cb in *. rewrite Z.mul_0_l, Z.add_0_r in *. rewrite E2. cbn [mbind option_bind]. rewrite <- Ee in W3.
  assert (view_kept area_addr (Ptm m ca) (Ptm m2 ca)) as V by (by etrans).
  destruct (IH k1 m2 ca n1 (vm_end a) hi) as (k3 & m3 & n3 & E3 & Hc3 & Har & Hp3 & V4 & C3 & V5); [done..| | | |lia|].
  { apply Forall_app. split; [eapply Forall_impl; [exact Hbel|]; cbn; lia|by repeat constructor]. }
  { intros x Hu Hx. change (page_dir_pa n1) with cb. destruct (user_area x Hu) as [Hax _]. destruct (W3 x Hax) as [-> _].
    destruct (V2 x) as [-> _]; [by unfold in_area; split; [|lia]|]. apply Hnone; [done|lia]. }
  { intros x Hx. destruct (V x) as [-> _]; [|by apply Hsrc; right].
    destruct Hx as (b & Hb & Hx). apply (area_user x b); [|done]. by eapply Forall_forall in Hua. }
  change (page_dir_pa n1) with cb in *. exists k3, m3, n3. split_and!; [done..| |done|by etrans| |].
  - rewrite Har. unfold n1. cbn [mm_areas]. rewrite !fmap_app. by rewrite <- app_assoc.
  - assert (forall x, in_area x a -> ~ in_areas l x) as Hdis.
    { intros x Hx (b & Hb & Hxb). destruct (areas_ok_bounds _ _ _ b Hok Hb). unfold in_area in *. lia. }
    intros x [Hx|Hx]%in_areas_cons.
    + destruct (V5 x) as [-> ->]; [auto|]. destruct (W3 x) as [-> ->]; [auto|]. split; [by apply Hm1|].
      rewrite decide_True by done. apply V1; auto.
    + destruct (C3 x Hx) as [? ->]. split; [done|]. apply V. destruct Hx as (b & Hb & Hx). apply (area_user x b); [|done]. by eapply Forall_forall in Hua.
  - intros x [Hx Hnx]. rewrite in_areas_cons in Hnx. destruct (V5 x) as [-> ->]; [tauto|]. destruct (W3 x) as [-> ->]; [done|].
    rewrite decide_False by (unfold in_area in Hnx; tauto). apply V2. tauto.
Qed.
#[local] Instance in_areas_dec l x : Decision (in_areas l x).
Proof.
  refine (cast_if (decide (Exists (fun a => vm_start a <= x < vm_end a) l))); unfold in_areas, in_area; by rewrite <- Exists_exists.
Defined.

(** A later store of either space is not seen by the other. *)
Lemma pair_private k m ca cb x b t' :
  pair_ok k m ca cb -> user_addr x -> 0 <= b < 256 -> vwrite8 (Ptm m cb) x b = Some t' ->
  view_kept area_addr (Ptm m ca) (Ptm (pmem t') ca).
Proof.
  intros Hp Hx Hb E. destruct (pair_write mb F HF k m ca cb x b Hp Hx) as (m' & E' & _ & V & _); [|done|].
  - unfold vwrite8 in E. destruct (translate (Ptm m cb) x); [by eexists|done].
  - rewrite E in E'. by injection E' as ->.
Qed.

(** C5. The child of a fork has memory of its own.  With seven free frames for each page of the areas and seven for the root table,
    [mm_copy] succeeds: the new address space has the areas of the current one, exactly their pages are mapped in its user half, each byte
    of them is that of the original, and the current space sees all its bytes as before.  No user address of one space has a
    physical address of the other, and a byte stored in either of them later changes nothing the other can read. *)
Theorem mm_copy_private pml4_root rk mm page_buf slab l k t T vs live :
  copy_ready mb F pml4_root rk k t T vs live ->
  areas_ok MI_USER_VMAREA_SAPACE_START MI_USER_VMAREA_SAPACE_END l -> Forall user_area_ok l ->
  (forall x, in_areas l x -> is_Some (translate t x)) -> (7 * S (areas_pages l) <= length (frames k))%nat ->
  (forall i, is_Some (slab i)) -> mm <> 0 -> page_buf <> 0 ->
  exists k' m' n, mm_copy mb F HF pml4_root mm page_buf slab l (k, t) = Some ((k', Ptm m' (cr3 t)), Some n) /\
    let parent := Ptm m' (cr3 t) in let child := Ptm m' (page_dir_pa n) in
    area_place <$> mm_areas n = area_place <$> l /\
    (forall x, user_addr x -> is_Some (translate child x) <-> in_areas l x) /\
    (forall x, in_areas l x -> vread8 child x = vread8 t x) /\
    (forall x, area_addr x -> translate parent x = translate t x /\ vread8 parent x = vread8 t x) /\
    (forall x y, user_addr x -> user_addr y -> is_Some (translate child x) -> translate parent y <> translate child x) /\
    (forall x b t', user_addr x -> 0 <= b < 256 ->
      (vwrite8 child x b = Some t' -> view_kept area_addr parent (Ptm (pmem t') (cr3 t))) /\
      (vwrite8 parent x b = Some t' -> view_kept area_addr child (Ptm (pmem t') (page_dir_pa n)))).
Proof.
  intros Hrdy Hok Hua Hsrc Hlen Hsl Hmm Hbuf.
  destruct (mm_create_spec mb F HF pml4_root rk k t T vs live Hrdy ltac:(lia) mm Hmm) as (k1 & m1 & n & E1 & Hn & Hp1 & Hl1 & V1 & N1).
  assert (forall x, in_areas l x -> user_addr x) as Huser.
  { intros x (a & Ha & Hx). eapply Forall_forall in Hua; [|exact Ha]. destruct Hua as [_ _ ? ? _]. unfold in_area, user_addr in *. lia. }
  assert (forall x, in_areas l x -> area_addr x) as Hax by (intros x Hx; by apply user_area, Huser).
  destruct (pair_copy_areas slab l k1 m1 (cr3 t) n MI_USER_VMAREA_SAPACE_START MI_USER_VMAREA_SAPACE_END Hsl Hp1 Hok Hua)
    as (k2 & m2 & n2 & E2 & Hc & Har & Hp2 & V2 & C2 & V3); [by rewrite Hn|auto| |lia|].
  { intros x Hx. destruct (V1 x) as [-> _]; auto. }
  exists k2, m2, n2. split.
  { unfold mm_copy. rewrite E1. cbn [mbind option_bind]. rewrite (proj2 (Z.eqb_neq _ _)) by done. by rewrite E2. }
  cbv zeta. rewrite Hc. rewrite Hn in Har. pose proof (pair_ok_sym mb F _ _ _ _ Hp2) as Hp2'. split_and!; [done|..].
  - intros x Hx. split; [|by intros Hi; apply C2]. destruct (decide (in_areas l x)) as [Hi|Hi]; [done|].
    destruct (V3 x) as [-> _]; [split; [by apply user_area|done]|]. rewrite N1 by done. by intros [? ?].
  - intros x Hx. destruct (C2 x Hx) as [_ ->]. apply V1. auto.
  - intros x Hx. destruct (V2 x Hx) as [-> ->]. by apply V1.
  - intros x y Hx Hy. apply (pair_apart mb F k2 m2); [done..|by apply user_area].
  - intros x b t' Hx Hb. split; by apply (pair_private k2).
Qed.
End Copy.
