(* ===== verification/MmDemo.v ===== *)
(** * A concrete fork

    A machine with a kernel root whose upper half is filled, as [_prepare_hh_init] fills it, and a task with one page of code at
    0x400000: the hypotheses of [mm_copy_private] hold of it.  Trees of tables that are given as finite maps are
    recognised by [tree_check]. *)

From S2P Require Import Prelude DList Pmm PmmBuddy PmmInit Ptm PtmProofs Vmalloc Slab SlabProofs Vmm PtmSpace Mm MmProofs MmCreate MmCopy.

(** ** Recognising a tree *)

Section Check.
Context (m : gmap Z Z) (T : table_map).

(** The place of the table in a frame. *)
Definition places : gmap Z (nat * Z) := list_to_map ((fun p => (p.2, p.1)) <$> map_to_list T).

Definition link (e : Z) : option Z := if present e then Some (page_frame e) else None.

Definition word_check (R : gmap Z (nat * Z)) (w v : Z) : bool :=
  match R !! (w / 512) with
  | Some (l, n) =>
    if decide ((3 <= l)%nat \/ l = 0%nat /\ w mod 512 = 510) then true
    else bool_decide (T !! (S l, 512 * n + w mod 512) = link v) && negb (large_page v)
  | None => true
  end.
Definition table_check (R : gmap Z (nat * Z)) (a : nat * Z) (f : Z) : bool :=
  bool_decide (R !! f = Some a) && bool_decide ((a.1 <= 3)%nat /\ 0 <= a.2 < level_size a.1 /\ 0 <= f < 2 ^ 36) &&
  match a with
  | (S l, n) =>
    match T !! (l, n / 512) with
    | Some g => bool_decide (link (entry m g (n mod 512)) = Some f) && negb (bool_decide (l = 0%nat /\ n = 510))
    | None => false
    end
  | _ => true
  end.
Definition tree_check (c : Z) : bool :=
  let R := places in let r := Z.shiftr c PAGE_SHIFT in let e := entry m r 510 in
  forallb (fun p => word_check R p.1 p.2) (map_to_list m) && forallb (fun p => table_check R p.1 p.2) (map_to_list T) &&
  bool_decide (T !! (0%nat, 0) = Some r) && bool_decide (link e = Some r) && negb (large_page e).

Lemma tree_check_sound c : tree_check c = true -> tree_ok (Ptm m c) T.
Proof.
  unfold tree_check. rewrite !andb_true_iff. intros ((((Hw & Ht) & Hr) & He) & Hl). apply bool_decide_eq_true in Hr, He. apply negb_true_iff in Hl.
  assert (forall w v, m !! w = Some v -> word_check places w v = true) as HW.
  { intros w v Hv%elem_of_map_to_list. rewrite forallb_forall in Hw. apply (Hw (w, v)). by apply list_elem_of_In. }
  assert (forall a f, T !! a = Some f -> table_check places a f = true) as HT.
  { intros a f Hf%elem_of_map_to_list. rewrite forallb_forall in Ht. apply (Ht (a, f)). by apply list_elem_of_In. }
  assert (forall a f, T !! a = Some f -> places !! f = Some a) as HR.
  { intros a f Hf. apply HT in Hf. unfold table_check in Hf. rewrite !andb_true_iff in Hf. destruct Hf as [[Hf _] _]. by apply bool_decide_eq_true in Hf. }
  assert (forall l n f, T !! (S l, n) = Some f -> exists g, T !! (l, n / 512) = Some g /\ link (entry m g (n mod 512)) = Some f /\ ~ (l = 0%nat /\ n = 510)) as HP.
  { intros l n f Hf. apply HT in Hf. unfold table_check in Hf. rewrite !andb_true_iff in Hf. destruct Hf as [_ Hf].
    destruct (T !! (l, n / 512)) as [g|]; [|done]. exists g. rewrite andb_true_iff, negb_true_iff in Hf. destruct Hf as [H1 H2].
    by apply bool_decide_eq_true in H1; apply bool_decide_eq_false in H2. }
  constructor; cbn [pmem].
  - exact Hr.
  - intros l n f Hf. apply HT in Hf. unfold table_check in Hf. rewrite !andb_true_iff in Hf. destruct Hf as [[_ Hf] _]. by apply bool_decide_eq_true in Hf.
  - intros a b f Ha%HR Hb%HR. congruence.
  - intros l n f i Hf Hl' Hi Hne. fold (link (entry m f i)).
    assert ((f * PT_ENTRY_COUNT + i) / 512 = f /\ (f * PT_ENTRY_COUNT + i) mod 512 = i) as [Eq Em] by (unfold PT_ENTRY_COUNT; Z.div_mod_to_equations; lia).
    unfold entry, rd. destruct (m !! (f * PT_ENTRY_COUNT + i)) as [v|] eqn:Ev; cbn [default].
    + pose proof (HW _ _ Ev) as Hc. unfold word_check in Hc. rewrite Eq, Em, (HR _ _ Hf) in Hc. rewrite decide_False in Hc by lia.
      rewrite andb_true_iff, negb_true_iff in Hc. destruct Hc as [Hc ?]. by apply bool_decide_eq_true in Hc.
    + split; [|done]. destruct (T !! (S l, 512 * n + i)) as [g|] eqn:Eg; [|done]. exfalso.
      destruct (HP _ _ _ Eg) as (h & Hh & Hlk & _). replace ((512 * n + i) / 512) with n in Hh by (Z.div_mod_to_equations; lia).
      replace ((512 * n + i) mod 512) with i in Hlk by (Z.div_mod_to_equations; lia). rewrite Hf in Hh. injection Hh as <-.
      unfold entry, rd in Hlk. by rewrite Ev in Hlk.
  - intros l n f Hf. destruct (HP _ _ _ Hf) as (g & Hg & _ & ?). split; [by eexists|done].
  - unfold link in He. change (root (Ptm m c)) with (Z.shiftr c PAGE_SHIFT). destruct (present _); [|done]. by injection He.
Qed.
End Check.

(** ** The machine

    The root in frame 1000, tables of the upper half in frames 2256 to 2511, the page of the root itself at 0xffffffff80000000, and frame 0 behind
    the page of the task. *)

Definition demo_kernel_root : Z := 0xffffffff80000000.
Definition demo_fork_words : list (Z * Z) :=
  ((fun i => (1000 * 512 + i, (2000 + i) * PAGE_SIZE + 3)) <$> seqZ 256 254 ++ [511]) ++
  [(1000 * 512 + 510, recursive_entry (1000 * PAGE_SIZE)); (2511 * 512 + 510, 3000 * PAGE_SIZE + 3); (3000 * 512, 3001 * PAGE_SIZE + 3);
   (3001 * 512, 1000 * PAGE_SIZE + 3); (1000 * 512, 4000 * PAGE_SIZE + 7); (4000 * 512, 4001 * PAGE_SIZE + 7);
   (4001 * 512 + 2, 4002 * PAGE_SIZE + 7); (4002 * 512, 7); (0, 0x1122)].
Definition demo_fork_mem : gmap Z Z := list_to_map demo_fork_words.
Definition demo_fork_ptm : ptm_t := Ptm demo_fork_mem (1000 * PAGE_SIZE).
Definition demo_top : Z := (511 * 512 + 510) * 512.
Definition demo_fork_tree : table_map :=
  list_to_map (((fun i => ((1%nat, i), 2000 + i)) <$> seqZ 256 254 ++ [511]) ++
    [((0%nat, 0), 1000); ((1%nat, 0), 4000); ((2%nat, 511 * 512 + 510), 3000); ((3%nat, demo_top), 3001); ((2%nat, 0), 4001); ((3%nat, 2), 4002)]).

Lemma demo_fork_tree_ok : tree_ok demo_fork_ptm demo_fork_tree.
Proof. apply tree_check_sound. vm_compute. reflexivity. Qed.

(** Every table is above the frames of the allocator, and two tables hold pages. *)
Lemma demo_fork_tables l n f :
  demo_fork_tree !! (l, n) = Some f -> 1000 <= f /\ (l = 3%nat -> n = 2 /\ f = 4002 \/ n = demo_top /\ f = 3001).
Proof.
  intros Hf%elem_of_map_to_list.
  assert (forallb (fun p => (1000 <=? p.2) && (bool_decide (p.1.1 <> 3%nat) || bool_decide (p.1.2 = 2 /\ p.2 = 4002) || bool_decide (p.1.2 = demo_top /\ p.2 = 3001)))
    (map_to_list demo_fork_tree) = true) as H by (vm_compute; reflexivity).
  rewrite forallb_forall in H. specialize (H (l, n, f)). rewrite <- list_elem_of_In in H. specialize (H Hf). cbn [fst snd] in H.
  rewrite andb_true_iff, !orb_true_iff, Z.leb_le in H. destruct H as [H1 H2]. split; [done|]. intros ->.
  destruct H2 as [[H2|H2]|H2]; apply bool_decide_eq_true in H2; tauto.
Qed.

Lemma demo_fork_word w v : demo_fork_mem !! w = Some v -> w / 512 = 4002 -> w = 4002 * 512.
Proof.
  intros Hw%elem_of_map_to_list.
  assert (forallb (fun p => negb (p.1 / 512 =? 4002) || (p.1 =? 4002 * 512)) (map_to_list demo_fork_mem) = true) as H by (vm_compute; reflexivity).
  rewrite forallb_forall in H. specialize (H (w, v)). rewrite <- list_elem_of_In in H. specialize (H Hw). cbn [fst] in H.
  rewrite orb_true_iff, negb_true_iff, Z.eqb_neq, Z.eqb_eq in H. tauto.
Qed.

Lemma demo_fork_pages v :
  present (pte_of demo_fork_ptm demo_fork_tree v) = true -> v = 1024 \/ v / 512 = demo_top.
Proof.
  unfold pte_of. destruct (demo_fork_tree !! (3%nat, v / 512)) as [f|] eqn:Ef; [|done].
  apply demo_fork_tables in Ef as [_ Ef]. destruct (Ef eq_refl) as [[Hn ->]|[Hn ->]]; [|by right].
  unfold entry, rd, demo_fork_ptm. cbn [pmem]. destruct (demo_fork_mem !! _) as [x|] eqn:Ex; [|done]. intros _.
  left. unfold PT_ENTRY_COUNT in Ex. apply demo_fork_word in Ex; Z.div_mod_to_equations; lia.
Qed.

Lemma demo_area_page v : area_vpn v -> v / 512 <> demo_top.
Proof. unfold area_vpn, demo_top. intros Hv E. Z.div_mod_to_equations. lia. Qed.

Lemma demo_direct_page f : 0 <= f < 16 -> present (pte_of demo_fork_ptm demo_fork_tree (direct_vpn f)) = false.
Proof.
  intros Hf. apply not_true_is_false. intros [E|E]%demo_fork_pages; unfold direct_vpn, demo_top in *; Z.div_mod_to_equations; lia.
Qed.

Lemma demo_kernel_root_ok : kernel_root demo_fork_mem demo_fork_tree 1000.
Proof.
  assert (forallb (fun i => (i =? 510) || (present (entry demo_fork_mem 1000 i) && negb (large_page (entry demo_fork_mem 1000 i)) &&
    bool_decide (demo_fork_tree !! (1%nat, i) = Some (page_frame (entry demo_fork_mem 1000 i))))) (seqZ 256 256) = true) as H by (vm_compute; reflexivity).
  rewrite forallb_forall in H. intros i Hi Hne. specialize (H i). rewrite <- list_elem_of_In, elem_of_seqZ in H. specialize (H ltac:(lia)).
  rewrite (proj2 (Z.eqb_neq _ _)) in H by done. cbn [orb] in H. rewrite !andb_true_iff, negb_true_iff in H. destruct H as [[Hp Hl] H].
  apply bool_decide_eq_true in H. exact (conj Hp (conj Hl H)).
Qed.

(** ** The task before the fork *)

Definition demo_fork_kmem : kmem_info_t := (pmm_alloc_page no_pages demo_kmem).1.

Lemma demo_fork_alloc : pmm_alloc_page no_pages demo_kmem = (demo_fork_kmem, Pfn 0).
Proof.
  assert ((pmm_alloc_page no_pages demo_kmem).2 = Pfn 0) as E by (vm_compute; reflexivity).
  unfold demo_fork_kmem. by destruct (pmm_alloc_page no_pages demo_kmem); simplify_eq/=.
Qed.

Lemma demo_fork_frames :
  buddy_inv demo_fork_kmem /\ coalesced demo_fork_kmem /\ frames demo_kmem ≡ₚ 0 :: frames demo_fork_kmem /\
  npages demo_fork_kmem = 16 /\ pmm_inv no_pages (frames demo_kmem) (demo_fork_kmem, [(0, 0%nat)]).
Proof.
  destruct demo_loaded as [Hinv Hc _ _ _]. assert (pmm_inv no_pages (frames demo_kmem) (demo_kmem, [])) as H0.
  { constructor; try done. by intros p o ?%not_elem_of_nil. }
  pose proof (alloc_page_spec no_pages demo_kmem Hinv Hc) as A. rewrite demo_fork_alloc in A.
  destruct A as (H1 & H2 & H3 & H4 & _ & H6). split_and!; [exact H1|exact H2|exact H3| |].
  - rewrite H4. vm_compute. reflexivity.
  - exact (pmm_step_inv _ _ _ _ (bi_frames _ Hinv) H0 (H6 [])).
Qed.

Lemma demo_fork_range f : f ∈ frames demo_fork_kmem -> 0 <= f < 16.
Proof. destruct demo_fork_frames as (Hb & _ & _ & Hn & _). intros Hf%(inv_frame_range Hb). lia. Qed.

Lemma demo_copy_ready :
  copy_ready no_pages (frames demo_kmem) demo_kernel_root 1000 demo_fork_kmem demo_fork_ptm demo_fork_tree [1024] [(0, 0%nat)].
Proof.
  destruct demo_fork_frames as (Hb & Hc & Hfr & Hn & Hpm). pose proof demo_fork_range as Hrg.
  constructor.
  - constructor; cbn [fst snd].
    + constructor; [apply demo_fork_tree_ok|done..|lia|]. intros [l n] f [Hf _]%demo_fork_tables Hin%Hrg. lia.
    + done.
    + apply NoDup_singleton.
    + intros v. rewrite list_elem_of_singleton. split.
      * intros ->. split; [unfold area_vpn; lia|vm_compute; reflexivity].
      * intros [Hv [->|E]%demo_fork_pages]; [done|]. destruct (demo_area_page v Hv E).
    + exists []. vm_compute. done.
    + intros v [l n] ->%list_elem_of_singleton. assert (frame_of demo_fork_ptm demo_fork_tree 1024 = 0) as -> by (vm_compute; reflexivity).
      intros [Hf _]%demo_fork_tables. lia.
  - lia.
  - intros f Hf%Hrg. by apply demo_direct_page.
  - intros Hf%Hrg. lia.
  - exact demo_kernel_root_ok.
  - by left.
  - constructor; [apply demo_fork_tree_ok|..]; [|vm_compute; (done || reflexivity)..].
    split_and!; [unfold demo_kernel_root, PAGE_SIZE; lia..|]. by exists 0xffffffff80000.
Qed.

Definition demo_fork_areas : list vm_area_t := [VmArea 8 0x400000 0x401000 VMM_FLAGS_USER].
Definition demo_area_slab (i : nat) : option Z := Some 16.

Lemma mm_copy_private_witness :
  exists k' m' n, mm_copy no_pages (frames demo_kmem) (bi_frames _ (ld_inv _ _ _ _ demo_loaded)) demo_kernel_root 24 32 demo_area_slab
      demo_fork_areas (demo_fork_kmem, demo_fork_ptm) = Some ((k', Ptm m' (1000 * PAGE_SIZE)), Some n) /\
    vread8 (Ptm m' (page_dir_pa n)) 0x400001 = Some 0x11 /\
    translate (Ptm m' (1000 * PAGE_SIZE)) 0x400001 <> translate (Ptm m' (page_dir_pa n)) 0x400001.
Proof.
  pose proof (mm_copy_private no_pages (frames demo_kmem) (bi_frames _ (ld_inv _ _ _ _ demo_loaded)) demo_kernel_root 1000 24 32 demo_area_slab
    demo_fork_areas _ _ _ _ _ demo_copy_ready) as H.
  destruct demo_fork_frames as (_ & _ & Hfr & _ & _).
  assert (Forall user_area_ok demo_fork_areas) as Hu.
  { repeat constructor; try (vm_compute; (done || reflexivity)); [by exists 1024|by exists 1025]. }
  assert (forall x, in_areas demo_fork_areas x -> is_Some (translate demo_fork_ptm x)) as Hm.
  { intros x (a & ->%list_elem_of_singleton & Hx). unfold in_area in Hx. cbn [vm_start vm_end] in Hx.
    assert (vpn x = 1024) as Ev by (unfold vpn; Z.div_mod_to_equations; lia).
    rewrite (translate_pte _ demo_fork_tree) by (apply demo_fork_tree_ok || by rewrite Ev). rewrite Ev.
    assert (present (pte_of demo_fork_ptm demo_fork_tree 1024) = true) as -> by (vm_compute; reflexivity). by eexists. }
  destruct H as (k' & m' & n & E & _ & Hmap & Hby & _ & Hap & _).
  - vm_compute. repeat split; discriminate.
  - exact Hu.
  - exact Hm.
  - apply Permutation_length in Hfr. assert (length (frames demo_kmem) = 16%nat) as El by (vm_compute; reflexivity).
    change (areas_pages demo_fork_areas) with 1%nat. simpl in Hfr. lia.
  - intros i. by eexists.
  - done.
  - done.
  - assert (in_areas demo_fork_areas 0x400001) as Hin by (exists (VmArea 8 0x400000 0x401000 VMM_FLAGS_USER); split; [left|vm_compute; by split]).
    assert (user_addr 0x400001) as Hua by (vm_compute; by split).
    exists k', m', n. split_and!; [exact E|..].
    + rewrite Hby by done. vm_compute. reflexivity.
    + apply Hap; [done..|]. by apply Hmap.
Defined.
