(* ===== verification/Vfs.v ===== *)
(** * Virtual file system: the code

    [kernel/src/fs/vfs.c] with [kernel/include/fs/vfs.h]: registered file systems,
    mounting, the walk along a path through the tree of directory entries, and
    the open files of a task.

    Structures are values in stores that are indexed by their addresses; [kzalloc]
    succeeds and gives an unused address, which is counted by [brk].  A file system is
    a tag of a type [F]: what its operation tables ([vfs_fs_t], [vfs_inode_ops_t],
    [vfs_file_ops_t]) point to is the class [FsOps], with the state [W] of the file
    systems and the private data [P] of inodes and files.  Fixed-size character arrays
    are lists of bytes; paths given by callers, which end with a null, are
    lists without it.  [None] is a fault: a null pointer, an access behind an array,
    or a panic.  [vfs_lock] makes each function one step; the file operations
    run without it. *)

From S2P Require Import Prelude DList.

(** ** Data *)

Definition VFS_MAX_PATH_LENGTH : nat := 256.
Definition VFS_MIN_HANDLE : Z := 100.
Definition ENOENT : Z := 2.
Definition SEEK_SET : Z := 0.
Definition SEEK_CUR : Z := 1.
Definition SEEK_END : Z := 2.
Definition slash : Z := 47.
Definition dot : Z := 46.

Inductive vfs_inode_type_t :=
  | VFS_NODE_INVALID | VFS_NODE_FILE | VFS_NODE_DIRECTOR | VFS_NODE_SYMLINK | VFS_NODE_BLOCK
  | VFS_NODE_CHARACTER | VFS_NODE_MOUNTPOINT | VFS_NODE_ROOT.

Definition VFS_NODE_IS_DIR (t : vfs_inode_type_t) : bool :=
  match t with VFS_NODE_DIRECTOR | VFS_NODE_ROOT | VFS_NODE_MOUNTPOINT => true | _ => false end.

Inductive vfs_openmode_t := VFS_MODE_READ | VFS_MODE_WRITE | VFS_MODE_READWRITE.

(** [name] up to its null. *)
Record vfs_dirent_t := Dirent { de_name : list Z; de_type : vfs_inode_type_t; de_sz : Z }.

Record vfs_super_block_t := SuperBlock { s_root : Z }.

(** [d_subdirs] is the sequence on the list of children, which is kept by
    [dlist_add_prev]. *)
Record vfs_dentry_t := Dentry {
  d_name : list Z; d_inode : option Z; d_parent : option Z; d_subdirs : list Z }.

(** [i_ops] and [i_fops] name a file system or are null; [i_mountpoint] is a super
    block. *)
Record vfs_inode_t (F P : Type) := Inode {
  i_fsize : Z; i_ops : option F; i_type : vfs_inode_type_t; i_fops : option F;
  i_mountpoint : option Z; i_pdata : option P }.
Arguments Inode {F P}.
Arguments i_fsize {F P}.
Arguments i_ops {F P}.
Arguments i_type {F P}.
Arguments i_fops {F P}.
Arguments i_mountpoint {F P}.
Arguments i_pdata {F P}.

Record vfs_file_t (F P : Type) := File {
  f_handle : Z; f_openmode : vfs_openmode_t; f_inode : option Z; f_dentry : Z; f_ops : option F;
  f_pdata : option P; f_pos : Z; is_console : bool; count : Z }.
Arguments File {F P}.
Arguments f_handle {F P}.
Arguments f_openmode {F P}.
Arguments f_inode {F P}.
Arguments f_dentry {F P}.
Arguments f_ops {F P}.
Arguments f_pdata {F P}.
Arguments f_pos {F P}.
Arguments is_console {F P}.
Arguments count {F P}.

(** What a lookup returns: null, or the entry it was given, with an inode if it stored
    one. *)
Inductive lookup_ret (I : Type) := NullDentry | GotDentry (inode : option I).
Arguments NullDentry {I}.
Arguments GotDentry {I}.

(** The operation tables.  [mksb] gives the root inode and the name of the root entry,
    or null; a file operation may change the inode and the file it is given. *)
Class FsOps (F W P : Type) := {
  fs_mksb : F -> W -> W * option (vfs_inode_t F P * list Z);
  fs_lookup : F -> W -> vfs_inode_t F P -> list Z -> option (W * lookup_ret (vfs_inode_t F P));
  fs_open : F -> W -> vfs_inode_t F P -> vfs_file_t F P ->
    option (W * vfs_inode_t F P * vfs_file_t F P * Z);
  fs_close : F -> W -> vfs_inode_t F P -> vfs_file_t F P ->
    option (W * vfs_inode_t F P * vfs_file_t F P * Z);
  fs_read : F -> W -> vfs_inode_t F P -> vfs_file_t F P -> Z ->
    option (W * vfs_inode_t F P * vfs_file_t F P * (Z * list Z));
  fs_write : F -> W -> vfs_inode_t F P -> vfs_file_t F P -> list Z ->
    option (W * vfs_inode_t F P * vfs_file_t F P * Z);
  fs_lseek : F -> option (W -> vfs_inode_t F P -> vfs_file_t F P -> Z -> Z ->
    option (W * vfs_inode_t F P * vfs_file_t F P * Z));
  fs_iterate : F -> option (W -> vfs_inode_t F P -> vfs_file_t F P ->
    option (W * vfs_inode_t F P * vfs_file_t F P * (Z * list vfs_dirent_t)));
}.

(** ** Character arrays *)

(** [strlen]; [None] when the array holds no null. *)
Fixpoint bstrlen (b : list Z) : option nat :=
  match b with
  | [] => None
  | c :: b => if c =? 0 then Some 0%nat else S <$> bstrlen b
  end.

(** [memset(b + off, 0, n)] and [memcpy(b + off, bs, length bs)]. *)
Definition bzero (b : list Z) (off n : nat) : option (list Z) :=
  if (off + n <=? length b)%nat then Some (splice off (replicate n 0) b) else None.
Definition bcopy (b : list Z) (off : nat) (bs : list Z) : option (list Z) :=
  if (off + length bs <=? length b)%nat then Some (splice off bs b) else None.
Definition bset (b : list Z) (i : nat) (c : Z) : option (list Z) := bcopy b i [c].

(** The string in an array. *)
Definition cstr (b : list Z) : list Z := take (default (length b) (bstrlen b)) b.

Definition zero_path : list Z := replicate VFS_MAX_PATH_LENGTH 0.

(** ** Paths *)

(** The loop that copies a name; [n] characters of the path are left. *)
Fixpoint next_name (n : nat) (path : list Z) (path_i : nat) (next : list Z) (next_i : nat) :
    option (nat * list Z * bool) :=
  match n with
  | O => Some (path_i, next, false)
  | S n =>
    c ← path !! path_i;
    if c =? slash then Some (path_i, next, true)
    else next ← bset next next_i c; next_name n path (S path_i) next (S next_i)
  end.

(** The arrays after the call, and whether there was a name. *)
Definition vfs_next_path (path next : list Z) (nextlen : nat) (skiproot : bool) :
    option (list Z * list Z * bool) :=
  pathlen ← bstrlen path;
  if (pathlen =? 0)%nat then Some (path, next, false) else
  c ← path !! 0%nat;
  let path_i := if skiproot && (c =? slash) then 1%nat else 0%nat in
  next ← bzero next 0 nextlen;
  '(path_i, next, found_slash) ← next_name (pathlen - path_i) path path_i next 0;
  path ← (if (found_slash : bool) then
            path ← bcopy path 0 (slice (path_i + 1) (pathlen - path_i - 1) path);
            bzero path (pathlen - path_i - 1) pathlen
          else bzero path 0 (path_i + 1));
  len ← bstrlen next;
  Some (path, next, (0 <? len)%nat).

Section Vfs.
Context {F W P : Type} {ops : FsOps F W P}.
Notation inode_t := (vfs_inode_t F P).
Notation file_t := (vfs_file_t F P).

Record vfs_state := Vfs {
  world : W; brk : Z;
  dentries : gmap Z vfs_dentry_t; inodes : gmap Z inode_t; sbs : gmap Z vfs_super_block_t;
  vfs_root : option Z; vfs_fs_list : list (list Z * F); vfs_next_handle_count : Z;
  files : gmap Z file_t; open_files : gmap Z (list Z);
}.
Implicit Types st : vfs_state.

(** Updates of the parts of the state. *)
Definition with_tree st (w : W) (b : Z) (ds : gmap Z vfs_dentry_t) (ns : gmap Z inode_t) : vfs_state :=
  Vfs w b ds ns (sbs st) (vfs_root st) (vfs_fs_list st) (vfs_next_handle_count st) (files st) (open_files st).
Definition with_dentries st (ds : gmap Z vfs_dentry_t) : vfs_state := with_tree st (world st) (brk st) ds (inodes st).
Definition with_inodes st (ns : gmap Z inode_t) : vfs_state := with_tree st (world st) (brk st) (dentries st) ns.
Definition with_world st (w : W) : vfs_state := with_tree st w (brk st) (dentries st) (inodes st).
Definition with_root st (r : option Z) : vfs_state :=
  Vfs (world st) (brk st) (dentries st) (inodes st) (sbs st) r (vfs_fs_list st)
    (vfs_next_handle_count st) (files st) (open_files st).
Definition with_files st (b h : Z) (fs : gmap Z file_t) (os : gmap Z (list Z)) : vfs_state :=
  Vfs (world st) b (dentries st) (inodes st) (sbs st) (vfs_root st) (vfs_fs_list st) h fs os.

Definition vfs_init (w : W) : vfs_state := Vfs w 1 ∅ ∅ ∅ None [] VFS_MIN_HANDLE ∅ ∅.
Definition vfs_register_fs st (name : list Z) (f : F) : vfs_state :=
  Vfs (world st) (brk st) (dentries st) (inodes st) (sbs st) (vfs_root st)
    (l_add_prev (name, f) (vfs_fs_list st)) (vfs_next_handle_count st) (files st) (open_files st).
Fixpoint find_fs (l : list (list Z * F)) (name : list Z) : option F :=
  match l with
  | [] => None
  | (n, f) :: l => if bool_decide (name = n) then Some f else find_fs l name
  end.
Definition vfs_get_fs st (name : list Z) : option F := find_fs (vfs_fs_list st) name.

(** *** Walking a path *)

(** The child of that name; a child that is no entry is a fault. *)
Fixpoint find_child (ds : gmap Z vfs_dentry_t) (children : list Z) (name : list Z) : option (option Z) :=
  match children with
  | [] => Some None
  | c :: children =>
    d ← ds !! c;
    if bool_decide (d_name d = name) then Some (Some c) else find_child ds children name
  end.

(** A new entry under [parent] with the inode the lookup stored. *)
Definition new_child st (w : W) (parent : Z) (dp : vfs_dentry_t) (name : list Z) (inode : option inode_t) :
    vfs_state * Z :=
  let c := brk st in
  let ino := (fun _ => c + 1) <$> inode in
  let ns := match inode with Some i => <[c + 1 := i]> (inodes st) | None => inodes st end in
  let ds := <[parent := Dentry (d_name dp) (d_inode dp) (d_parent dp) (l_add_prev c (d_subdirs dp))]>
              (<[c := Dentry name ino (Some parent) []]> (dentries st)) in
  (with_tree st w (c + 2) ds ns, c).

(** The root entry of what is mounted on an entry, or the entry. *)
Definition follow_mount st (c : Z) : option Z :=
  d ← dentries st !! c; ino ← d_inode d; i ← inodes st !! ino;
  match i_mountpoint i with
  | Some sb => s ← sbs st !! sb; Some (s_root s)
  | None => Some c
  end.

(** One name of the path below [parent]; no entry when it is not found. *)
Definition resolve_name st (parent : option Z) (name : list Z) : option (vfs_state * option Z) :=
  p ← parent; dp ← dentries st !! p;
  child ← find_child (dentries st) (d_subdirs dp) name;
  match child with
  | Some c => r ← follow_mount st c; Some (st, Some r)
  | None =>
    match d_inode dp with
    | None => Some (st, None)
    | Some ino =>
      i ← inodes st !! ino;
      match i_ops i with
      | None => Some (st, None)
      | Some f =>
        l ← fs_lookup f (world st) i name;
        match l with
        | (w, NullDentry) => Some (with_world st w, None)
        | (w, GotDentry inode) =>
          let '(st, c) := new_child st w p dp name inode in
          r ← follow_mount st c; Some (st, Some r)
        end
      end
    end
  end.

(** The loop over the names; [current] is null before the first. *)
Fixpoint resolve_loop (fuel : nat) st (tmppath nextpath : list Z) (current parent : option Z) :
    option (vfs_state * option Z) :=
  match fuel with
  | O => None
  | S fuel =>
    '(tmppath, nextpath, hasnext) ← vfs_next_path tmppath nextpath VFS_MAX_PATH_LENGTH true;
    if negb hasnext then Some (st, current) else
    if bool_decide (cstr nextpath = [dot]) then resolve_loop fuel st tmppath nextpath current parent
    else if bool_decide (cstr nextpath = [dot; dot]) then
      match current with
      | Some c => d ← dentries st !! c; resolve_loop fuel st tmppath nextpath (d_parent d) (d_parent d)
      | None => resolve_loop fuel st tmppath nextpath current parent
      end
    else
      '(st, r) ← resolve_name st parent (cstr nextpath);
      match (r : option Z) with
      | Some c => resolve_loop fuel st tmppath nextpath (Some c) (Some c)
      | None => Some (st, None)
      end
  end.

(** [cwd] is that of the calling task. *)
Definition whole_path (cwd path : list Z) : option (list Z) :=
  if bool_decide (path !! 0%nat = Some slash) then bcopy zero_path 0 path else
  b ← bcopy zero_path 0 cwd;
  n ← bstrlen b;
  b ← (if bool_decide (cwd = [slash]) then Some b else bcopy b n [slash]);
  n ← bstrlen b;
  bcopy b n path.

Definition vfs_resolve_path st (cwd path : list Z) : option (vfs_state * option Z) :=
  match vfs_root st with
  | None => Some (st, None)
  | Some sb =>
    s ← sbs st !! sb;
    if bool_decide (path = [slash]) then Some (st, Some (s_root s)) else
    whole ← whole_path cwd path;
    n ← bstrlen whole;
    tmppath ← bcopy zero_path 0 (take n whole);
    resolve_loop VFS_MAX_PATH_LENGTH st tmppath zero_path None (Some (s_root s))
  end.

(** *** Mounting *)

(** [fs->mksb(fs)]: a super block with its root entry, which is its own parent. *)
Definition make_sb st (f : F) : vfs_state * option Z :=
  let '(w, r) := fs_mksb f (world st) in
  match r with
  | None => (with_world st w, None)
  | Some (inode, name) =>
    let sb := brk st in
    (Vfs w (sb + 3) (<[sb + 1 := Dentry name (Some (sb + 2)) (Some (sb + 1)) []]> (dentries st))
       (<[sb + 2 := inode]> (inodes st)) (<[sb := SuperBlock (sb + 1)]> (sbs st)) (vfs_root st)
       (vfs_fs_list st) (vfs_next_handle_count st) (files st) (open_files st), Some sb)
  end.

Definition set_mountpoint (i : inode_t) (sb : option Z) : inode_t :=
  Inode (i_fsize i) (i_ops i) (i_type i) (i_fops i) sb (i_pdata i).
Definition set_parent (d : vfs_dentry_t) (p : Z) : vfs_dentry_t :=
  Dentry (d_name d) (d_inode d) (Some p) (d_subdirs d).

Definition vfs_mount_fs st (cwd path fs_name : list Z) : option (vfs_state * Z) :=
  f ← vfs_get_fs st fs_name;
  if bool_decide (path = [slash]) then
    let '(st, sb) := make_sb st f in Some (with_root st sb, 0)
  else
    '(st, r) ← vfs_resolve_path st cwd path;
    match r with
    | None => Some (st, -1)
    | Some c =>
      let '(st, sb) := make_sb st f in
      d ← dentries st !! c; ino ← d_inode d; i ← inodes st !! ino;
      let st := with_inodes st (<[ino := set_mountpoint i sb]> (inodes st)) in
      sb ← sb; s ← sbs st !! sb; dr ← dentries st !! s_root s;
      Some (with_dentries st (<[s_root s := set_parent dr c]> (dentries st)), 0)
    end.

(** *** Open files *)

(** The file of that handle among those of a task; [console] is the second condition of
    [vfs_close_console]. *)
Fixpoint find_file (fs : gmap Z file_t) (l : list Z) (fh : Z) (console : bool) : option (option (Z * file_t)) :=
  match l with
  | [] => Some None
  | a :: l =>
    fd ← fs !! a;
    if (f_handle fd =? fh) && (is_console fd || negb console) then Some (Some (a, fd))
    else find_file fs l fh console
  end.
Definition task_file st (t fh : Z) : option (option (Z * file_t)) :=
  find_file (files st) (default [] (open_files st !! t)) fh false.

(** The state after an operation that was given inode [ino] and file [a]. *)
Definition after_op st (w : W) (ino : Z) (i : inode_t) (a : Z) (fd : file_t) : vfs_state :=
  Vfs w (brk st) (dentries st) (<[ino := i]> (inodes st)) (sbs st) (vfs_root st) (vfs_fs_list st)
    (vfs_next_handle_count st) (<[a := fd]> (files st)) (open_files st).

(** An operation of [f] on an open file: its inode is loaded, and inode and file are stored
    back. *)
Definition file_op {A} st (a : Z) (fd : file_t)
    (op : W -> inode_t -> file_t -> option (W * inode_t * file_t * A)) : option (vfs_state * A) :=
  ino ← f_inode fd; i ← inodes st !! ino;
  '(w, i, fd, r) ← op (world st) i fd;
  Some (after_op st w ino i a fd, r).

(** The common part of [vfs_open] and [vfs_open_console]. *)
Definition open_dentry st (t fh : Z) (c : Z) (mode : vfs_openmode_t) (console : bool) : option vfs_state :=
  d ← dentries st !! c; ino ← d_inode d; i ← inodes st !! ino;
  c ← match i_mountpoint i with Some sb => s ← sbs st !! sb; Some (s_root s) | None => Some c end;
  d ← dentries st !! c; ino ← d_inode d; i ← inodes st !! ino;
  f ← i_fops i;
  let a := brk st in
  let fd := File fh mode (Some ino) c (Some f) None 0 console 1 in
  let st := with_files st (a + 1) (vfs_next_handle_count st) (<[a := fd]> (files st)) (open_files st) in
  '(st, _) ← file_op st a fd (fs_open f);
  Some (with_files st (brk st) (vfs_next_handle_count st) (files st)
    (<[t := l_add_prev a (default [] (open_files st !! t))]> (open_files st))).

Definition vfs_open st (cwd : list Z) (t : Z) (path : list Z) (openmode : vfs_openmode_t) :
    option (vfs_state * Z) :=
  '(st, r) ← vfs_resolve_path st cwd path;
  match r with
  | None => Some (st, - ENOENT)
  | Some c =>
    let fh := i32 (vfs_next_handle_count st + 1) in
    let st := with_files st (brk st) fh (files st) (open_files st) in
    st ← open_dentry st t fh c openmode false;
    Some (st, fh)
  end.

Definition vfs_open_console st (cwd : list Z) (t : Z) (path : list Z) (fh : Z) : option (vfs_state * Z) :=
  '(st, r) ← vfs_resolve_path st cwd path;
  match r with
  | None => Some (st, - ENOENT)
  | Some c => st ← open_dentry st t fh c VFS_MODE_READWRITE true; Some (st, fh)
  end.

(** Close through the operations, unlink and free. *)
Definition close_file st (t a : Z) (fd : file_t) : option (vfs_state * Z) :=
  '(st, r) ← match f_ops fd with
             | Some f => file_op st a fd (fs_close f)
             | None => Some (st, -1)
             end;
  Some (with_files st (brk st) (vfs_next_handle_count st) (delete a (files st))
    (<[t := filter (fun b => b <> a) (default [] (open_files st !! t))]> (open_files st)), r).

Definition set_count (fd : file_t) (c : Z) : file_t :=
  File (f_handle fd) (f_openmode fd) (f_inode fd) (f_dentry fd) (f_ops fd) (f_pdata fd) (f_pos fd)
    (is_console fd) c.

Definition vfs_close st (t fh : Z) : option (vfs_state * Z) :=
  r ← task_file st t fh;
  match r with
  | None => Some (st, -1)
  | Some (a, fd) =>
    let fd := set_count fd (i32 (count fd - 1)) in
    let st := with_files st (brk st) (vfs_next_handle_count st) (<[a := fd]> (files st)) (open_files st) in
    if 0 <? count fd then Some (st, 0) else close_file st t a fd
  end.

Definition vfs_close_console st (t fh : Z) : option (vfs_state * Z) :=
  r ← find_file (files st) (default [] (open_files st !! t)) fh true;
  match r with
  | None => Some (st, -1)
  | Some (a, fd) => close_file st t a fd
  end.

Definition vfs_read st (t fh len : Z) : option (vfs_state * (Z * list Z)) :=
  r ← task_file st t fh;
  match r with
  | Some (a, fd) =>
    match f_ops fd with
    | Some f => file_op st a fd (fun w i fd => fs_read f w i fd len)
    | None => Some (st, (0, []))
    end
  | None => Some (st, (0, []))
  end.

Definition vfs_write st (t fh : Z) (buff : list Z) : option (vfs_state * Z) :=
  r ← task_file st t fh;
  match r with
  | Some (a, fd) =>
    match f_ops fd with
    | Some f => file_op st a fd (fun w i fd => fs_write f w i fd buff)
    | None => Some (st, 0)
    end
  | None => Some (st, 0)
  end.

Definition vfs_lseek st (t fh offset wence : Z) : option (vfs_state * Z) :=
  r ← task_file st t fh;
  match r with
  | Some (a, fd) =>
    match f_ops fd ≫= fs_lseek with
    | Some op => file_op st a fd (fun w i fd => op w i fd offset wence)
    | None => Some (st, 0)
    end
  | None => Some (st, 0)
  end.

Definition vfs_get_inode_type st (t fh : Z) : option vfs_inode_type_t :=
  r ← task_file st t fh;
  match r with
  | Some (_, fd) =>
    match f_inode fd with
    | Some ino => i ← inodes st !! ino; Some (i_type i)
    | None => Some VFS_NODE_INVALID
    end
  | None => Some VFS_NODE_INVALID
  end.

(** The result with the entries; [None] for the entries leaves the caller's variables as
    they were. *)
Definition vfs_iterate st (t fh : Z) : option (vfs_state * (Z * option (list vfs_dirent_t))) :=
  r ← task_file st t fh;
  match r with
  | Some (a, fd) =>
    match f_ops fd ≫= fs_iterate, f_inode fd with
    | Some op, Some ino =>
      i ← inodes st !! ino;
      if VFS_NODE_IS_DIR (i_type i) then
        '(st, (r, es)) ← file_op st a fd op; Some (st, (r, Some es))
      else Some (st, (-1, None))
    | _, _ => Some (st, (-1, None))
    end
  | None => Some (st, (-1, None))
  end.

(** [memcpy(temp_path + strlen(s), full_path, strlen(full_path)); memcpy(temp_path, s, strlen(s));
    memcpy(full_path, temp_path, strlen(temp_path))] for the strings [s] and
    [full]: the arrays must hold the result with its null. *)
Definition prepend (s full : list Z) : option (list Z) :=
  if (length s + length full <? VFS_MAX_PATH_LENGTH)%nat then Some (s ++ full) else None.

(** The loop from an entry up to [root]; [None] also when the fuel ends. *)
Fixpoint full_path_loop (fuel : nat) st (root c : Z) (full : list Z) : option (list Z) :=
  match fuel with
  | O => None
  | S fuel =>
    if c =? root then Some full else
    d ← dentries st !! c;
    full ← prepend (d_name d) full;
    match d_parent d with
    | None => Some full
    | Some p =>
      if p =? c then Some full else
      full ← prepend [slash] full;
      full_path_loop fuel st root p full
    end
  end.

Definition full_path (fuel : nat) st (c : Z) : option (list Z) :=
  sb ← vfs_root st; s ← sbs st !! sb;
  full ← (if c =? s_root s then prepend [slash] [] else full_path_loop fuel st (s_root s) c []);
  Some (if (1 <? length full)%nat && bool_decide (last full = Some slash)
        then take (length full - 1) full else full).

(** The result and the bytes stored to [buff], which has [len] bytes. *)
Definition vfs_get_full_path (fuel : nat) st (t fh len : Z) : option (Z * list Z) :=
  r ← task_file st t fh;
  match r with
  | None => Some (-1, [])
  | Some (_, fd) =>
    full ← full_path fuel st (f_dentry fd);
    let n := Z.of_nat (length full) in
    let copy_len := i32 (if u64 (len - 1) <? n then u64 (len - 1) else n) in
    Some (0, take (Z.to_nat copy_len) full ++ [0])
  end.

(** *** Copying the open files of a task *)

Definition set_pdata (fd : file_t) (p : option P) : file_t :=
  File (f_handle fd) (f_openmode fd) (f_inode fd) (f_dentry fd) (f_ops fd) p (f_pos fd) (is_console fd)
    (count fd).

Fixpoint copy_files st (dest : Z) (src : list Z) : option vfs_state :=
  match src with
  | [] => Some st
  | a :: src =>
    fd ← files st !! a;
    if is_console fd then copy_files st dest src else
    let fd := set_count fd (i32 (count fd + 1)) in
    let b := brk st in
    copy_files (with_files st (b + 1) (vfs_next_handle_count st)
      (<[b := set_pdata fd None]> (<[a := fd]> (files st)))
      (<[dest := l_add_prev b (default [] (open_files st !! dest))]> (open_files st))) dest src
  end.
Definition vfs_copy st (dest src : Z) : option vfs_state :=
  copy_files st dest (default [] (open_files st !! src)).

End Vfs.
