(* ===== verification/RamFs.v ===== *)
(** * RAM file system

    [kernel/src/fs/ramfs.c]: a read-only file system on a USTAR archive that the boot loader
    puts into memory.

    [rd_buff] is the list of its bytes, [rd_size] its length (no archive is the
    empty list).  Strings are lists of characters without the null; [None] is an access
    outside an array, a null pointer, or a search that does not end within
    the fuel.  The fuel of the searches is the length of the archive: a header takes 512
    bytes, so it is enough for any archive whose sizes are not negative.
    [ramfs_ops] fills the operation tables of the virtual file system. *)

From S2P Require Import Prelude DList Vfs.

(** ** The archive *)

Record ramfs_ustar_data_t := UstarData {
  filename : list Z; u_name : list Z; u_size : Z; data_offset : Z; head_offset : Z; type_flag : Z }.

Definition U_NORMAL : Z := 0.
Definition U_DIRECTORY : Z := 5.

(** [size] is an [int]. *)
Definition align_to_512 (x : Z) : Z := Z.land (i32 (x + 511)) (Z.lnot 511).

(** The [n] bytes from [off] on. *)
Definition get_bytes (b : list Z) (off n : Z) : option (list Z) :=
  if (0 <=? off) && (0 <=? n) && (off + n <=? Z.of_nat (length b))
  then Some (slice (Z.to_nat off) (Z.to_nat n) b) else None.

Fixpoint oct_from (str : list Z) (n : Z) : Z :=
  match str with
  | [] => n
  | c :: str => if (c <? 48) || (55 <? c) then n else oct_from str (u32 (n * 8 + (c - 48)))
  end.
Definition oct2bin (str : list Z) : Z := oct_from str 0.

Definition _ustar_strip_prefix (path : list Z) (outlen : nat) : list Z :=
  take (outlen - 1) (match path with
                     | a :: b :: rest => if (a =? dot) && (b =? slash) then rest else path
                     | _ => path
                     end).

Definition _ustar_remove_last_slash (path : list Z) : list Z :=
  if bool_decide (last path = Some slash) then take (length path - 1) path else path.

Definition ustar_magic : list Z := [117; 115; 116; 97; 114].

(** The stripped name, the size and the type, if the block is a header. *)
Definition _ustar_read_block_header (buff : list Z) (offset : Z) : option (option (list Z * Z * Z)) :=
  magic ← get_bytes buff (offset + 257) 5;
  if bool_decide (magic = ustar_magic) then
    name ← get_bytes buff offset 100;
    size ← get_bytes buff (offset + 124) 12;
    type ← get_bytes buff (offset + 156) 1;
    Some (Some (_ustar_remove_last_slash (_ustar_strip_prefix (cstr name) VFS_MAX_PATH_LENGTH),
                i32 (oct2bin size), u8 (default 0 (type !! 0%nat) - 48)))
  else Some None.

(** [i + 512 + align_to_512(size)] *)
Definition next_block (i size : Z) : Z := u64 (i + i32 (512 + align_to_512 size)).

Definition is_entry (stripped : list Z) (type : Z) : bool :=
  negb (bool_decide (stripped = [])) && ((type =? U_DIRECTORY) || (type =? U_NORMAL)).

(** ** Lookup *)

Definition search_path (parent name : list Z) : option (list Z) :=
  let s := match parent with [] => name | _ => parent ++ slash :: name end in
  if (length s <? VFS_MAX_PATH_LENGTH)%nat then Some s else None.

Fixpoint lookup_loop (fuel : nat) (buff : list Z) (i : Z) (path name : list Z) :
    option (option ramfs_ustar_data_t) :=
  match fuel with
  | O => None
  | S fuel =>
    if u64 (i + 512) <=? Z.of_nat (length buff) then
      h ← _ustar_read_block_header buff i;
      match h with
      | None => Some None
      | Some (stripped, size, type) =>
        if is_entry stripped type && bool_decide (stripped = path) then
          Some (Some (UstarData stripped name size (i32 (i + 512)) (i32 i) type))
        else lookup_loop fuel buff (next_block i size) path name
      end
    else Some None
  end.

Definition _ustar_lookup (buff : list Z) (parent_data : ramfs_ustar_data_t) (name : list Z) :
    option (option ramfs_ustar_data_t) :=
  path ← search_path (filename parent_data) name;
  if (length buff <? 512)%nat then Some None else lookup_loop (length buff) buff 0 path name.

Notation ram_inode := (vfs_inode_t unit ramfs_ustar_data_t).
Notation ram_file := (vfs_file_t unit ramfs_ustar_data_t).

(** The entry is returned even when nothing was found. *)
Definition ramfs_lookup (buff : list Z) (this : ram_inode) (d_name : list Z) :
    option (list Z * lookup_ret ram_inode) :=
  parent_data ← i_pdata this;
  r ← _ustar_lookup buff parent_data d_name;
  Some (buff, GotDentry (match r with
    | None => None
    | Some idata =>
      Some (Inode (u64 (u_size idata)) (Some tt)
        (if type_flag idata =? U_NORMAL then VFS_NODE_FILE
         else if type_flag idata =? U_DIRECTORY then VFS_NODE_DIRECTOR else VFS_NODE_INVALID)
        (Some tt) None (Some idata))
    end)).

Definition ramfs_mksb (buff : list Z) : list Z * option (ram_inode * list Z) :=
  (buff, Some (Inode 0 (Some tt) VFS_NODE_DIRECTOR (Some tt) None
    (Some (UstarData [] [] 0 0 0 U_DIRECTORY)), [])).

(** ** Files *)

Definition ramfs_open (this : ram_inode) (file : ram_file) : Z := 0.
Definition ramfs_close (this : ram_inode) (file : ram_file) : Z := 0.
Definition ramfs_write (this : ram_inode) (file : ram_file) (buffer : list Z) : Z := -1.

Definition set_pos (f : ram_file) (p : Z) : ram_file :=
  File (f_handle f) (f_openmode f) (f_inode f) (f_dentry f) (f_ops f) (f_pdata f) p (is_console f) (count f).

(** The result, the file, and the bytes stored to the buffer. *)
Definition ramfs_read (buff : list Z) (this : ram_inode) (filep : ram_file) (len : Z) :
    option (ram_file * (Z * list Z)) :=
  if len =? 0 then Some (filep, (0, [])) else
  udata ← i_pdata this;
  if u64 (u_size udata) <=? f_pos filep then Some (filep, (-1, [])) else
  let size := if u64 (u_size udata) <? u64 (f_pos filep + len)
              then i32 (u64 (u_size udata) - f_pos filep) else len in
  bs ← get_bytes buff (u64 (data_offset udata + f_pos filep)) (u64 size);
  Some (set_pos filep (u64 (f_pos filep + size)), (0, bs)).

(** Every assignment to [f_pos] stays, also when the call fails later; here none does. *)
Definition ramfs_lseek (this : ram_inode) (filep : ram_file) (offset wence : Z) : option (ram_file * Z) :=
  udata ← i_pdata this;
  let clamp p :=
    let p := if u64 (u_size udata) <? p then u64 (u_size udata) else p in
    Some (set_pos filep p, i32 p) in
  if wence =? SEEK_SET then
    if offset <? 0 then Some (filep, -1) else clamp (u64 offset)
  else if wence =? SEEK_CUR then
    if (offset <? 0) && (f_pos filep <? u64 (i32 (- offset))) then Some (filep, -1)
    else clamp (u64 (f_pos filep + offset))
  else if wence =? SEEK_END then
    if 0 <? offset then Some (filep, -1) else clamp (u64 (i32 (u_size udata + offset)))
  else Some (filep, -1).

(** ** Directories *)

Definition has_slash (s : list Z) : bool := existsb (fun c => c =? slash) s.

Definition _ustar_is_direct_child (entry parent : list Z) : bool :=
  let parent_len := length parent in
  if (parent_len =? 0)%nat then negb (has_slash entry) && negb (bool_decide (entry = []))
  else if negb (bool_decide (take parent_len entry = parent)) then false
  else if negb (bool_decide (entry !! parent_len = Some slash)) then false
  else
    let remainder := drop (parent_len + 1) entry in
    negb (bool_decide (remainder = [])) && negb (has_slash remainder).

Definition child_name (stripped parent : list Z) : list Z :=
  if (length parent =? 0)%nat then stripped else drop (length parent + 1) stripped.

Fixpoint iterate_loop (fuel : nat) (buff : list Z) (i : Z) (parent : list Z) (entries : list vfs_dirent_t) :
    option (list vfs_dirent_t) :=
  match fuel with
  | O => None
  | S fuel =>
    if u64 (i + 512) <=? Z.of_nat (length buff) then
      h ← _ustar_read_block_header buff i;
      match h with
      | None => Some entries
      | Some (stripped, size, type) =>
        let entries :=
          if is_entry stripped type && _ustar_is_direct_child stripped parent then
            entries ++ [Dirent (child_name stripped parent)
                          (if type =? U_DIRECTORY then VFS_NODE_DIRECTOR else VFS_NODE_FILE) (u32 size)]
          else entries in
        iterate_loop fuel buff (next_block i size) parent entries
      end
    else Some entries
  end.

Definition ramfs_iterate (buff : list Z) (this : ram_inode) : option (Z * list vfs_dirent_t) :=
  idata ← i_pdata this;
  if (length buff <? 512)%nat then Some (0, []) else
  es ← iterate_loop (length buff) buff 0 (filename idata) [];
  Some (Z.of_nat (length es), es).

(** ** The operation tables *)

#[global] Instance ramfs_ops : FsOps unit (list Z) ramfs_ustar_data_t := {|
  fs_mksb _ w := ramfs_mksb w;
  fs_lookup _ w i name := ramfs_lookup w i name;
  fs_open _ w i f := Some (w, i, f, ramfs_open i f);
  fs_close _ w i f := Some (w, i, f, ramfs_close i f);
  fs_read _ w i f len := '(f, r) ← ramfs_read w i f len; Some (w, i, f, r);
  fs_write _ w i f buffer := Some (w, i, f, ramfs_write i f buffer);
  fs_lseek _ := Some (fun w i f offset wence => '(f, r) ← ramfs_lseek i f offset wence; Some (w, i, f, r));
  fs_iterate _ := Some (fun w i f => r ← ramfs_iterate w i; Some (w, i, f, r));
|}.
