(* ===== verification/RamFsProofs.v ===== *)
(** * RAM file system: proofs

    An encoder of USTAR archives, and that the searches of [RamFs] on the bytes of an
    archive are searches in the list of its entries: lookup and listing find what
    the archive holds, and reading gives the contents back. *)

From S2P Require Import Prelude DList Vfs RamFs.

(** ** Archives *)

(** An entry; the fields that the code does not read are arbitrary bytes. *)
Record ustar_entry := UstarEntry {
  e_name : list Z; e_attr : list Z; e_time : list Z; e_type : Z; e_link : list Z; e_rest : list Z;
  e_data : list Z }.

Fixpoint oct_digits (n : nat) (v : Z) : list Z :=
  match n with
  | O => []
  | S n => oct_digits n (v / 8) ++ [48 + v mod 8]
  end.

Definition e_size (e : ustar_entry) : Z := Z.of_nat (length (e_data e)).

(** The parts of a header with the offsets at which the code reads. *)
Definition name_field (e : ustar_entry) : list Z := e_name e ++ replicate (100 - length (e_name e)) 0.
Definition size_field (e : ustar_entry) : list Z := oct_digits 11 (e_size e) ++ [0].
Definition header (e : ustar_entry) : list Z :=
  name_field e ++ e_attr e ++ size_field e ++ e_time e ++ [e_type e] ++ e_link e ++ ustar_magic ++ e_rest e.

Definition padding (e : ustar_entry) : list Z := replicate (Z.to_nat ((- e_size e) mod 512)) 0.
Definition entry_bytes (e : ustar_entry) : list Z := header e ++ e_data e ++ padding e.

(** Behind the entries there is no further header. *)
Definition archive (es : list ustar_entry) (tail : list Z) : list Z := (es ≫= entry_bytes) ++ tail.
Definition no_header (tail : list Z) : Prop :=
  (length tail < 512)%nat \/ slice 257 5 tail <> ustar_magic.

Record entry_ok (e : ustar_entry) : Prop := {
  eo_name : (length (e_name e) <= 100)%nat;
  eo_chars : 0 ∉ e_name e;
  eo_type : 0 <= e_type e < 256;
  eo_attr : length (e_attr e) = 24%nat;
  eo_time : length (e_time e) = 20%nat;
  eo_link : length (e_link e) = 100%nat;
  eo_rest : length (e_rest e) = 250%nat;
}.

(** What the code makes of the name and the type. *)
Definition e_path (e : ustar_entry) : list Z :=
  _ustar_remove_last_slash (_ustar_strip_prefix (e_name e) VFS_MAX_PATH_LENGTH).
Definition e_kind (e : ustar_entry) : Z := u8 (e_type e - 48).
Definition e_listed (e : ustar_entry) : bool := is_entry (e_path e) (e_kind e).

(** ** Octal numbers *)

Lemma length_oct_digits n : forall v, length (oct_digits n v) = n.
Proof. induction n as [|n IH]; intros v; [done|]. simpl. rewrite length_app, IH. simpl. lia. Qed.

Lemma oct_from_app s c n :
  Forall (fun c => 48 <= c <= 55) s -> 48 <= c <= 55 ->
  oct_from (s ++ [c]) n = u32 (oct_from s n * 8 + (c - 48)).
Proof.
  intros Hs Hc. revert n. induction Hs as [|d s Hd _ IH]; intros n; simpl.
  - rewrite (proj2 (Z.ltb_ge c 48)), (proj2 (Z.ltb_ge 55 c)) by lia. done.
  - rewrite (proj2 (Z.ltb_ge d 48)), (proj2 (Z.ltb_ge 55 d)) by lia. simpl. apply IH.
Qed.

Lemma oct_digits_range n : forall v, Forall (fun c => 48 <= c <= 55) (oct_digits n v).
Proof.
  induction n as [|n IH]; intros v; simpl; [constructor|]. apply Forall_app. split; [apply IH|].
  repeat constructor; Z.div_mod_to_equations; lia.
Qed.

(** Reading the digits gives the number back. *)
Lemma oct_roundtrip n : forall v, 0 <= v < 8 ^ Z.of_nat n -> v < 2 ^ 32 -> oct_from (oct_digits n v) 0 = v.
Proof.
  induction n as [|n IH]; intros v Hv Hw; simpl; [simpl in Hv; lia|].
  rewrite Nat2Z.inj_succ, Z.pow_succ_r in Hv by lia.
  rewrite oct_from_app by (try apply oct_digits_range; Z.div_mod_to_equations; lia).
  rewrite IH by (Z.div_mod_to_equations; nia). rewrite u32_small; Z.div_mod_to_equations; lia.
Qed.

Lemma oct_from_stop s n : oct_from (s ++ [0]) n = oct_from s n.
Proof. revert n. induction s as [|c s IH]; intros n; simpl; [done|]. case_match; [done|apply IH]. Qed.

(** ** Fields *)

Lemma get_bytes_some b off n :
  0 <= off -> 0 <= n -> off + n <= Z.of_nat (length b) ->
  get_bytes b off n = Some (slice (Z.to_nat off) (Z.to_nat n) b).
Proof. intros H1 H2 H3. unfold get_bytes. by rewrite !(proj2 (Z.leb_le _ _)). Qed.

Lemma get_bytes_app pre x post :
  get_bytes (pre ++ x ++ post) (Z.of_nat (length pre)) (Z.of_nat (length x)) = Some x.
Proof.
  rewrite get_bytes_some by (rewrite ?length_app; lia).
  unfold slice. rewrite !Nat2Z.id, drop_app_length, take_app_length. done.
Qed.

(** The field [x] at offset [k] of a header [h] behind [pre]. *)
Lemma get_field pre h post a x c k n :
  h = a ++ x ++ c -> k = Z.of_nat (length a) -> n = Z.of_nat (length x) ->
  get_bytes (pre ++ h ++ post) (Z.of_nat (length pre) + k) n = Some x.
Proof.
  intros -> -> ->. rewrite <- !app_assoc, app_assoc, <- Nat2Z.inj_add, <- length_app. apply get_bytes_app.
Qed.

Lemma cstr_padded s n : 0 ∉ s -> cstr (s ++ replicate n 0) = s.
Proof.
  intros Hs. unfold cstr.
  assert (bstrlen (s ++ replicate n 0) = if decide (n = 0%nat) then None else Some (length s)) as ->.
  { induction s as [|c s IH]; simpl.
    - destruct n; [done|]. by rewrite decide_False by lia.
    - apply not_elem_of_cons in Hs as [Hc Hs]. rewrite (proj2 (Z.eqb_neq c 0)) by done.
      rewrite IH by done. by case_decide. }
  case_decide as Hn; simpl.
  - subst n. simpl. rewrite app_nil_r. apply take_ge. lia.
  - by rewrite take_app_length.
Qed.

Lemma length_header e : entry_ok e -> length (header e) = 512%nat.
Proof.
  intros [H1 _ _ H2 H3 H4 H5]. unfold header, name_field, size_field.
  rewrite !length_app, length_oct_digits, length_replicate, H2, H3, H4, H5. simpl. lia.
Qed.

(** Reading a header. *)
Lemma read_header pre e post :
  entry_ok e -> e_size e < 2 ^ 31 ->
  _ustar_read_block_header (pre ++ header e ++ post) (Z.of_nat (length pre)) =
  Some (Some (e_path e, e_size e, e_kind e)).
Proof.
  intros [H1 H1' _ H2 H3 H4 H5] Hs. unfold _ustar_read_block_header.
  assert (length (name_field e) = 100%nat) as Hn
    by (unfold name_field; rewrite length_app, length_replicate; lia).
  assert (length (size_field e) = 12%nat) as Hz
    by (unfold size_field; rewrite length_app, length_oct_digits; done).
  rewrite (get_field pre (header e) post (name_field e ++ e_attr e ++ size_field e ++ e_time e ++ [e_type e] ++ e_link e)
    ustar_magic (e_rest e) 257 5);
    [|unfold header; by rewrite <- !app_assoc|rewrite !length_app, Hn, Hz, H2, H3, H4; done|done].
  cbn [mbind option_bind]. rewrite bool_decide_eq_true_2 by done.
  rewrite <- (Z.add_0_r (Z.of_nat (length pre))) at 1.
  rewrite (get_field pre (header e) post [] (name_field e)
    (e_attr e ++ size_field e ++ e_time e ++ [e_type e] ++ e_link e ++ ustar_magic ++ e_rest e) 0 100);
    [|done|done|by rewrite Hn].
  cbn [mbind option_bind].
  rewrite (get_field pre (header e) post (name_field e ++ e_attr e) (size_field e)
    (e_time e ++ [e_type e] ++ e_link e ++ ustar_magic ++ e_rest e) 124 12);
    [|unfold header; by rewrite <- !app_assoc|by rewrite length_app, Hn, H2|by rewrite Hz].
  cbn [mbind option_bind].
  rewrite (get_field pre (header e) post (name_field e ++ e_attr e ++ size_field e ++ e_time e) [e_type e]
    (e_link e ++ ustar_magic ++ e_rest e) 156 1);
    [|unfold header; by rewrite <- !app_assoc|by rewrite !length_app, Hn, H2, Hz, H3|done].
  cbn [mbind option_bind]. unfold name_field. rewrite cstr_padded by done.
  unfold size_field, oct2bin. rewrite oct_from_stop, oct_roundtrip, i32_small; unfold e_size in *; try done; lia.
Qed.

(** ** From block to block *)

Lemma align_to_512_spec x : 0 <= x < 2 ^ 31 - 512 -> align_to_512 x = x + (- x) mod 512.
Proof.
  intros Hx. unfold align_to_512. rewrite i32_small by lia.
  rewrite <- Z.ldiff_land. change 511 with (Z.ones 9) at 2. rewrite Z.ldiff_ones_r by lia.
  rewrite Z.shiftr_div_pow2, Z.shiftl_mul_pow2 by lia. Z.div_mod_to_equations. lia.
Qed.

Lemma length_entry_bytes e :
  entry_ok e -> Z.of_nat (length (entry_bytes e)) = 512 + e_size e + (- e_size e) mod 512.
Proof.
  intros He. unfold entry_bytes, padding. rewrite !length_app, length_header, length_replicate by done.
  unfold e_size. pose proof (Z.mod_pos_bound (- Z.of_nat (length (e_data e))) 512). lia.
Qed.

Lemma next_block_spec pre e :
  entry_ok e -> Z.of_nat (length pre) + Z.of_nat (length (entry_bytes e)) < 2 ^ 31 ->
  next_block (Z.of_nat (length pre)) (e_size e) = Z.of_nat (length (pre ++ entry_bytes e)) /\ 0 <= e_size e < 2 ^ 31.
Proof.
  intros He Hlen. pose proof (length_entry_bytes e He) as Hl. rewrite length_app.
  assert (0 <= e_size e) as Hp by (unfold e_size; lia).
  pose proof (Z.mod_pos_bound (- e_size e) 512 ltac:(lia)) as Hm. split; [|lia].
  unfold next_block. rewrite align_to_512_spec, i32_small, u64_small by lia. lia.
Qed.

Lemma archive_cons e es tail : archive (e :: es) tail = entry_bytes e ++ archive es tail.
Proof. unfold archive. simpl. by rewrite app_assoc. Qed.

(** At an entry both searches read its header and go on behind it. *)
Lemma at_entry pre e post :
  entry_ok e -> Z.of_nat (length (pre ++ entry_bytes e ++ post)) < 2 ^ 31 ->
  let buff := pre ++ entry_bytes e ++ post in
  let i := Z.of_nat (length pre) in
  (u64 (i + 512) <=? Z.of_nat (length buff)) = true /\
  _ustar_read_block_header buff i = Some (Some (e_path e, e_size e, e_kind e)) /\
  next_block i (e_size e) = Z.of_nat (length (pre ++ entry_bytes e)).
Proof.
  intros He Hlen. cbv zeta. rewrite !length_app in *. pose proof (length_entry_bytes e He) as Hl.
  destruct (next_block_spec pre e He ltac:(lia)) as [Hn Hs]. rewrite length_app in Hn.
  pose proof (Z.mod_pos_bound (- e_size e) 512 ltac:(lia)) as Hm. split_and!; [| |done].
  - rewrite u64_small by lia. apply Z.leb_le. lia.
  - unfold entry_bytes. rewrite <- app_assoc. apply read_header; [done|lia].
Qed.

(** Behind the entries both searches stop. *)
Lemma at_tail pre tail :
  no_header tail -> Z.of_nat (length (pre ++ tail)) < 2 ^ 31 ->
  let i := Z.of_nat (length pre) in
  (u64 (i + 512) <=? Z.of_nat (length (pre ++ tail))) = false \/
  _ustar_read_block_header (pre ++ tail) i = Some None.
Proof.
  intros Ht Hlen. cbv zeta. rewrite length_app in *. rewrite u64_small by lia.
  destruct (_ <=? _) eqn:E; [right|by left]. breflect.
  destruct Ht as [Ht|Ht]; [lia|]. unfold _ustar_read_block_header.
  rewrite (get_bytes_some _ (_ + 257) 5) by (rewrite ?length_app; lia). cbn [mbind option_bind].
  rewrite bool_decide_eq_false_2; [done|]. intros E'. apply Ht. rewrite <- E'.
  unfold slice. rewrite Z2Nat.inj_add, Nat2Z.id, <- drop_drop, drop_app_length by lia. done.
Qed.

(** ** Lookup *)

(** The first file or directory of that path, with the offset of its header. *)
Fixpoint ustar_find (es : list ustar_entry) (off : Z) (path : list Z) : option (Z * ustar_entry) :=
  match es with
  | [] => None
  | e :: es =>
    if e_listed e && bool_decide (e_path e = path) then Some (off, e)
    else ustar_find es (off + Z.of_nat (length (entry_bytes e))) path
  end.

(** The private data that stands for an entry. *)
Definition entry_data (name : list Z) (r : Z * ustar_entry) : ramfs_ustar_data_t :=
  UstarData (e_path r.2) name (e_size r.2) (r.1 + 512) r.1 (e_kind r.2).

Lemma lookup_loop_spec path name tail es : forall fuel pre,
  Forall entry_ok es -> no_header tail -> Z.of_nat (length (pre ++ archive es tail)) < 2 ^ 31 ->
  (length es < fuel)%nat ->
  lookup_loop fuel (pre ++ archive es tail) (Z.of_nat (length pre)) path name =
  Some (entry_data name <$> ustar_find es (Z.of_nat (length pre)) path).
Proof.
  induction es as [|e es IH]; intros [|fuel] pre Hes Ht Hlen Hf; [simpl in Hf; lia| |simpl in Hf; lia|];
    cbn [lookup_loop ustar_find].
  - change (archive [] tail) with tail in *. destruct (at_tail pre tail Ht Hlen) as [->|E]; [done|].
    rewrite E. case_match; done.
  - apply Forall_cons in Hes as [He Hes]. rewrite archive_cons in *.
    destruct (at_entry pre e (archive es tail) He Hlen) as (E1 & E2 & E3).
    rewrite E1, E2. cbn [mbind option_bind]. rewrite E3. unfold e_listed. destruct (is_entry (e_path e) (e_kind e) && bool_decide (e_path e = path)) eqn:E.
    + simpl. unfold entry_data. simpl. rewrite !length_app in Hlen. pose proof (length_entry_bytes e He).
      pose proof (Z.mod_pos_bound (- e_size e) 512 ltac:(lia)). unfold e_size in *.
      rewrite !i32_small by lia. done.
    + rewrite app_assoc in *. rewrite IH by (done || simpl in Hf; lia).
      by rewrite length_app, Nat2Z.inj_add.
Qed.

Lemma archive_length es tail :
  Forall entry_ok es -> (512 * length es <= length (archive es tail))%nat.
Proof.
  induction 1 as [|e es He _ IH]; [simpl; lia|]. rewrite archive_cons, length_app.
  unfold entry_bytes at 1. rewrite !length_app, length_header by done. cbn [length]. lia.
Qed.

Lemma ustar_lookup_spec es tail parent name path :
  Forall entry_ok es -> no_header tail -> Z.of_nat (length (archive es tail)) < 2 ^ 31 ->
  search_path (filename parent) name = Some path ->
  _ustar_lookup (archive es tail) parent name = Some (entry_data name <$> ustar_find es 0 path).
Proof.
  intros Hes Ht Hlen Hp. unfold _ustar_lookup. rewrite Hp. cbn [mbind option_bind].
  pose proof (archive_length es tail Hes) as Hl. destruct (_ <? 512)%nat eqn:E.
  - apply Nat.ltb_lt in E. destruct es; [done|simpl in Hl; lia].
  - apply Nat.ltb_ge in E. apply (lookup_loop_spec path name tail es _ [] Hes Ht Hlen). lia.
Qed.

(** ** Reading *)

(** Where the contents of an entry lie. *)
Lemma find_contents tail path es : forall pre off e,
  Forall entry_ok es -> ustar_find es (Z.of_nat (length pre)) path = Some (off, e) ->
  e ∈ es /\ e_path e = path /\ e_listed e = true /\ 0 <= off /\ exists pre' post,
    pre ++ archive es tail = pre' ++ e_data e ++ post /\ Z.of_nat (length pre') = off + 512.
Proof.
  induction es as [|e1 es IH]; intros pre off e Hes; cbn [ustar_find]; [done|].
  apply Forall_cons in Hes as [He Hes]. rewrite archive_cons.
  destruct (e_listed e1 && _) eqn:E.
  - intros [= <- ->]. apply andb_true_iff in E as [E1 E2%bool_decide_eq_true]. split_and!; [left|done|done|lia|].
    exists (pre ++ header e), (padding e ++ archive es tail). unfold entry_bytes.
    rewrite <- !app_assoc. split; [done|]. rewrite length_app, length_header by done. lia.
  - rewrite <- Nat2Z.inj_add, <- length_app. intros H.
    destruct (IH _ _ _ Hes H) as (Hin & Hp & Hl & Ho & pre' & post & Heq & Hlen).
    split_and!; [by right|done..|]. exists pre', post. by rewrite app_assoc.
Qed.

Lemma get_bytes_slice pre d post i n :
  0 <= i -> 0 <= n -> i + n <= Z.of_nat (length d) ->
  get_bytes (pre ++ d ++ post) (Z.of_nat (length pre) + i) n = Some (slice (Z.to_nat i) (Z.to_nat n) d).
Proof.
  intros Hi Hn Hd. rewrite get_bytes_some by (rewrite ?length_app; lia). unfold slice. rewrite Z2Nat.inj_add, Nat2Z.id, <- drop_drop, drop_app_length by lia.
  by rewrite drop_app_le, take_app_le by (rewrite ?length_drop; lia).
Qed.

(** A read of [len] bytes at the position of the file. *)
Lemma ramfs_read_spec buff pre d post name h t off this f len :
  buff = pre ++ d ++ post -> Z.of_nat (length pre) = off + 512 -> Z.of_nat (length buff) < 2 ^ 31 -> 0 <= off ->
  i_pdata this = Some (UstarData h name (Z.of_nat (length d)) (off + 512) off t) ->
  0 <= f_pos f < 2 ^ 63 -> 0 < len < 2 ^ 31 ->
  let pos := f_pos f in
  let n := Z.min len (Z.of_nat (length d) - pos) in
  ramfs_read buff this f len =
  if Z.of_nat (length d) <=? pos then Some (f, (-1, []))
  else Some (set_pos f (pos + n), (0, slice (Z.to_nat pos) (Z.to_nat n) d)).
Proof.
  intros -> Hpre Hlen Hoff Hd Hpos Hn. cbv zeta. unfold ramfs_read.
  rewrite (proj2 (Z.eqb_neq len 0)), Hd by lia. cbn [mbind option_bind u_size data_offset].
  rewrite !length_app in Hlen. rewrite !(u64_small (Z.of_nat _)) by lia.
  destruct (_ <=? f_pos f) eqn:E; [done|]. breflect. rewrite (u64_small (f_pos f + len)) by lia.
  replace (if Z.of_nat (length d) <? f_pos f + len then i32 (Z.of_nat (length d) - f_pos f) else len)
    with (Z.min len (Z.of_nat (length d) - f_pos f)).
  2:{ case_match; breflect; [rewrite i32_small by lia|]; lia. }
  set (n := Z.min _ _). rewrite <- Hpre, !(u64_small (_ + _)), (u64_small n) by lia.
  rewrite get_bytes_slice by lia. done.
Qed.

(** ** Listing *)

(** The path of a name below a directory. *)
Definition join (parent name : list Z) : list Z :=
  match parent with [] => name | _ => parent ++ slash :: name end.

Lemma has_slash_spec s : has_slash s = true <-> slash ∈ s.
Proof.
  unfold has_slash. rewrite existsb_exists. split.
  - intros (c & Hc & ->%Z.eqb_eq). by apply list_elem_of_In.
  - intros Hs. exists slash. split; [by apply list_elem_of_In|done].
Qed.

(** The test of the code: the entry is the directory's path, a slash, and a name. *)
Lemma direct_child_spec entry parent :
  _ustar_is_direct_child entry parent = true <->
  entry = join parent (child_name entry parent) /\ child_name entry parent <> [] /\
  slash ∉ child_name entry parent.
Proof.
  assert (forall s, negb (bool_decide (s = [])) && negb (has_slash s) = true <-> s <> [] /\ slash ∉ s) as Hname.
  { intros s. rewrite andb_true_iff, !negb_true_iff, bool_decide_eq_false, <- has_slash_spec.
    destruct (has_slash s); naive_solver. }
  unfold _ustar_is_direct_child, child_name, join. destruct parent as [|c parent]; cbn [length Nat.eqb].
  - rewrite andb_comm, Hname. naive_solver.
  - set (p := c :: parent). change (S (length parent)) with (length p).
    rewrite Nat.add_1_r. destruct (bool_decide (take (length p) entry = p)) eqn:E1; cbn [negb].
    2:{ apply bool_decide_eq_false in E1. split; [done|]. intros [E _]. destruct E1. rewrite E. by rewrite take_app_length. }
    apply bool_decide_eq_true in E1. destruct (bool_decide (entry !! length p = Some slash)) eqn:E2; cbn [negb].
    2:{ apply bool_decide_eq_false in E2. split; [done|]. intros [E _]. destruct E2. rewrite E.
        by rewrite lookup_app_r, Nat.sub_diag by lia. }
    apply bool_decide_eq_true in E2. rewrite Hname.
    assert (entry = p ++ slash :: drop (S (length p)) entry) as He; [|naive_solver].
    rewrite <- (take_drop (length p) entry) at 1. rewrite E1. f_equal. by apply drop_S.
Qed.

(** The entries that a directory lists, in the order of the archive. *)
Definition dirent_of (parent : list Z) (e : ustar_entry) : option vfs_dirent_t :=
  if e_listed e && _ustar_is_direct_child (e_path e) parent then
    Some (Dirent (child_name (e_path e) parent)
      (if e_kind e =? U_DIRECTORY then VFS_NODE_DIRECTOR else VFS_NODE_FILE) (e_size e))
  else None.

Lemma iterate_loop_spec parent tail es : forall fuel pre acc,
  Forall entry_ok es -> no_header tail -> Z.of_nat (length (pre ++ archive es tail)) < 2 ^ 31 ->
  (length es < fuel)%nat ->
  iterate_loop fuel (pre ++ archive es tail) (Z.of_nat (length pre)) parent acc =
  Some (acc ++ omap (dirent_of parent) es).
Proof.
  induction es as [|e es IH]; intros [|fuel] pre acc Hes Ht Hlen Hf; [simpl in Hf; lia| |simpl in Hf; lia|];
    cbn [iterate_loop omap list_omap].
  - change (archive [] tail) with tail in *. rewrite app_nil_r.
    destruct (at_tail pre tail Ht Hlen) as [->|E]; [done|]. rewrite E. case_match; done.
  - apply Forall_cons in Hes as [He Hes]. rewrite archive_cons in *.
    destruct (at_entry pre e (archive es tail) He Hlen) as (E1 & E2 & E3). rewrite E1, E2.
    cbn [mbind option_bind]. rewrite E3. rewrite app_assoc in *. rewrite IH by (done || simpl in Hf; lia).
    unfold dirent_of at 2, e_listed.
    assert (u32 (e_size e) = e_size e) as ->.
    { apply u32_small. rewrite !length_app in Hlen. unfold e_size, entry_bytes in *. rewrite !length_app in Hlen. lia. }
    destruct (is_entry _ _ && _); [|done]. by rewrite <- app_assoc.
Qed.

Lemma ramfs_iterate_spec es tail this idata :
  Forall entry_ok es -> no_header tail -> Z.of_nat (length (archive es tail)) < 2 ^ 31 ->
  i_pdata this = Some idata ->
  let children := omap (dirent_of (filename idata)) es in
  ramfs_iterate (archive es tail) this = Some (Z.of_nat (length children), children).
Proof.
  intros Hes Ht Hlen Hi. cbv zeta. unfold ramfs_iterate. rewrite Hi. cbn [mbind option_bind].
  pose proof (archive_length es tail Hes) as Hl. destruct (_ <? 512)%nat eqn:E.
  - apply Nat.ltb_lt in E. destruct es; [done|simpl in Hl; lia].
  - apply Nat.ltb_ge in E. rewrite (iterate_loop_spec (filename idata) tail es _ [] []); [done..|simpl; lia].
Qed.

(** ** What the archive holds

    The path of a name in the archive: a leading [./] and a slash at the end do not count.  Files have the type 0 and directories the type 5,
    as characters; an entry of another type, or without a path, is not served. *)
Definition plain_path (n : list Z) : list Z :=
  let n := if decide ([dot; slash] `prefix_of` n) then drop 2 n else n in
  if decide ([slash] `suffix_of` n) then take (length n - 1) n else n.
Definition has_path (e : ustar_entry) (path : list Z) : Prop :=
  plain_path (e_name e) = path /\ path <> [] /\ (e_type e = 48 \/ e_type e = 53).
(** The entry is one name below the directory. *)
Definition child_of (parent : list Z) (e : ustar_entry) (name : list Z) : Prop :=
  has_path e (join parent name) /\ name <> [] /\ slash ∉ name.
(** A listing of a directory: its children in the order of the archive, and no other entry. *)
Inductive lists (parent : list Z) : list ustar_entry -> list vfs_dirent_t -> Prop :=
  | lists_nil : lists parent [] []
  | lists_child e es name l :
      child_of parent e name -> lists parent es l ->
      lists parent (e :: es) (Dirent name (if e_type e =? 53 then VFS_NODE_DIRECTOR else VFS_NODE_FILE) (e_size e) :: l)
  | lists_other e es l : (forall name, ~ child_of parent e name) -> lists parent es l -> lists parent (e :: es) l.

Lemma e_path_plain e : entry_ok e -> e_path e = plain_path (e_name e).
Proof.
  intros He. pose proof (eo_name _ He) as Hl. unfold e_path, plain_path, _ustar_strip_prefix, _ustar_remove_last_slash, VFS_MAX_PATH_LENGTH.
  assert (forall n : list Z, (if bool_decide (last n = Some slash) then take (length n - 1) n else n) =
    if decide ([slash] `suffix_of` n) then take (length n - 1) n else n) as Hlast.
  { intros n. destruct (decide ([slash] `suffix_of` n)) as [[n' ->]|Hn].
    - by rewrite last_snoc, bool_decide_eq_true_2.
    - rewrite bool_decide_eq_false_2; [done|]. intros (n' & ->)%last_Some. apply Hn. by exists n'. }
  rewrite Hlast, take_ge.
  2:{ destruct (e_name e) as [|x [|y n]]; cbn [length] in *; [lia|lia|case_match; cbn [length]; lia]. }
  assert (match e_name e with x :: y :: rest => if (x =? dot) && (y =? slash) then rest else e_name e | _ => e_name e end =
    if decide ([dot; slash] `prefix_of` e_name e) then drop 2 (e_name e) else e_name e) as ->; [|done].
  destruct (decide _) as [[n ->]|Hn]; [done|]. destruct (e_name e) as [|x [|y n]]; [done..|].
  destruct (Z.eqb_spec x dot) as [->|]; [|done]. destruct (Z.eqb_spec y slash) as [->|]; [|done]. destruct Hn. by exists n.
Qed.

Lemma e_kind_type e : entry_ok e -> (e_kind e =? U_NORMAL) = (e_type e =? 48) /\ (e_kind e =? U_DIRECTORY) = (e_type e =? 53).
Proof.
  intros He. pose proof (eo_type _ He). unfold e_kind, u8, U_NORMAL, U_DIRECTORY.
  split; apply eq_bool_prop_intro; rewrite !Is_true_true, !Z.eqb_eq; Z.div_mod_to_equations; lia.
Qed.

Lemma listed_spec e path : entry_ok e -> e_listed e && bool_decide (e_path e = path) = true <-> has_path e path.
Proof.
  intros He. destruct (e_kind_type e He) as [H0 H5]. unfold e_listed, is_entry, has_path. rewrite H0, H5, (e_path_plain e He).
  rewrite !andb_true_iff, orb_true_iff, negb_true_iff, bool_decide_eq_false, bool_decide_eq_true, !Z.eqb_eq. naive_solver.
Qed.

(** The search finds the first entry of the path. *)
Lemma ustar_find_first path es : forall off, Forall entry_ok es ->
  match ustar_find es off path with
  | None => forall e, e ∈ es -> ~ has_path e path
  | Some (_, e) => exists before after, es = before ++ e :: after /\ has_path e path /\ forall e', e' ∈ before -> ~ has_path e' path
  end.
Proof.
  induction es as [|e es IH]; intros off Hes; cbn [ustar_find]; [by intros e ?%elem_of_nil|].
  apply Forall_cons in Hes as [He Hes]. pose proof (listed_spec e path He) as Hl. destruct (_ && _).
  - exists [], es. split_and!; [done|by apply Hl|by intros e' ?%elem_of_nil].
  - assert (~ has_path e path) as Hn by (intros ?%Hl; done). specialize (IH (off + Z.of_nat (length (entry_bytes e))) Hes).
    destruct (ustar_find es _ path) as [[o e1]|].
    + destruct IH as (before & after & -> & Hp & Hb). exists (e :: before), after. split_and!; [done..|].
      by intros e' [->|?]%elem_of_cons; [|apply Hb].
    + by intros e' [->|?]%elem_of_cons; [|apply IH].
Qed.

Lemma child_name_join parent name : child_name (join parent name) parent = name.
Proof.
  unfold child_name, join. destruct parent as [|c parent]; [done|]. cbn [length Nat.eqb].
  rewrite drop_app_ge by (cbn [length]; lia). by replace (S (length parent) + 1 - length (c :: parent))%nat with 1%nat by (cbn [length]; lia).
Qed.

Lemma lists_children parent es : Forall entry_ok es -> lists parent es (omap (dirent_of parent) es).
Proof.
  induction 1 as [|e es He _ IH]; cbn; [constructor|]. unfold dirent_of at 1. rewrite (proj2 (e_kind_type e He)).
  pose proof (direct_child_spec (e_path e) parent) as Hd. destruct (_ && _) eqn:E.
  - apply andb_true_iff in E as [El Ed]. apply Hd in Ed as (Ej & Hn & Hs). apply lists_child; [|done]. split; [|done].
    apply (listed_spec e _ He). by rewrite El, <- Ej, bool_decide_eq_true_2.
  - apply lists_other; [|done]. intros name (Hp & Hn & Hs). apply (listed_spec e _ He) in Hp. apply andb_true_iff in Hp as [Hl Hp%bool_decide_eq_true].
    rewrite Hl, (proj2 Hd) in E; [done|]. rewrite Hp, child_name_join. done.
Qed.

(** C35. The RAM file system serves its archive.  On the bytes of a USTAR archive, a lookup
    below a directory finds the first file or directory of that path, and reports
    none exactly when there is none; reads of what was found return its contents from
    the position on, as many as asked for or left, and fail at the end of the file;
    and the directory lists exactly the files and directories whose path is its own path and one more name without a slash, in
    order.  The path is the name in the archive without a leading [./] and a slash at the end.  The path is shorter than 256 characters and the archive than 2 GiB. *)
Theorem ramfs_serves_archive es tail this parent name :
  let path := join (filename parent) name in
  Forall entry_ok es -> no_header tail -> Z.of_nat (length (archive es tail)) < 2 ^ 31 ->
  i_pdata this = Some parent -> (length path < VFS_MAX_PATH_LENGTH)%nat ->
  (exists found, ramfs_lookup (archive es tail) this name = Some (archive es tail, GotDentry found) /\
   match found with
   | None => forall e, e ∈ es -> ~ has_path e path
   | Some inode => exists before e after,
     es = before ++ e :: after /\ has_path e path /\ (forall e', e' ∈ before -> ~ has_path e' path) /\
     i_fsize inode = e_size e /\ VFS_NODE_IS_DIR (i_type inode) = (e_type e =? 53) /\
     forall f len, 0 <= f_pos f < 2 ^ 63 -> 0 < len < 2 ^ 31 ->
       let n := Z.min len (e_size e - f_pos f) in
       ramfs_read (archive es tail) inode f len =
       if e_size e <=? f_pos f then Some (f, (-1, []))
       else Some (set_pos f (f_pos f + n), (0, slice (Z.to_nat (f_pos f)) (Z.to_nat n) (e_data e)))
   end) /\
  exists l, ramfs_iterate (archive es tail) this = Some (Z.of_nat (length l), l) /\ lists (filename parent) es l.
Proof.
  intros path Hes Ht Hlen Hi Hp. split; [|exists (omap (dirent_of (filename parent)) es);
    by rewrite (ramfs_iterate_spec es tail this parent); [split; [|apply lists_children]|..]].
  assert (search_path (filename parent) name = Some path) as Hsp.
  { unfold search_path, path, join in *. by rewrite (proj2 (Nat.ltb_lt _ _) Hp). }
  unfold ramfs_lookup. rewrite Hi. cbn [mbind option_bind].
  rewrite (ustar_lookup_spec es tail parent name path Hes Ht Hlen Hsp). cbn [mbind option_bind].
  eexists. split; [done|]. pose proof (ustar_find_first path es 0 Hes) as Hff.
  destruct (ustar_find es 0 path) as [[off e]|] eqn:Ef; [|done]. cbn [fmap option_fmap option_map].
  destruct Hff as (before & after & Hsplit & Hhp & Hbef). exists before, e, after.
  destruct (find_contents tail path es [] off e Hes Ef) as (Hin & Hpath & Hl & Ho & pre' & post & Heq & Hlen').
  simpl in Heq. assert (0 <= e_size e < 2 ^ 31) as Hs.
  { rewrite Heq, !length_app in Hlen. unfold e_size. lia. }
  rewrite Forall_forall in Hes. destruct (e_kind_type e (Hes e Hin)) as [_ Hk].
  split_and!; [done..|cbn; apply u64_small; lia| |].
  - rewrite <- Hk. cbn. unfold e_listed, is_entry in Hl. apply andb_true_iff in Hl as [_ Hl]. unfold U_NORMAL, U_DIRECTORY in *.
    destruct (Z.eqb_spec (e_kind e) 0) as [->|]; [done|]. by destruct (_ =? 5).
  - intros f len Hf Hn. cbv zeta.
    apply (ramfs_read_spec (archive es tail) pre' (e_data e) post name (e_path e) (e_kind e) off);
      done.
Qed.

(** ** Seeking *)

(** Where a seek leads, if anywhere: a position behind the end is the end. *)
Definition seek_target (size pos offset wence : Z) : option Z :=
  if (wence =? SEEK_SET) && (0 <=? offset) then Some (Z.min offset size)
  else if (wence =? SEEK_CUR) && (0 <=? pos + offset) then Some (Z.min (pos + offset) size)
  else if (wence =? SEEK_END) && (offset <=? 0) then
    Some (if 0 <=? size + offset then size + offset else size)
  else None.

(** C40. Seeking.  [ramfs_lseek] fails, with [-1] and the position unchanged, exactly for an
    unknown origin, a negative target from the start or from the position, and a positive
    offset from the end; otherwise it moves to the target, at most the end of the file, and
    returns it.  An offset from the end that leads before the start moves to the end. *)
Theorem ramfs_lseek_correct this f offset wence udata :
  i_pdata this = Some udata -> 0 <= u_size udata < 2 ^ 31 -> 0 <= f_pos f <= u_size udata ->
  - 2 ^ 31 < offset < 2 ^ 31 ->
  ramfs_lseek this f offset wence =
  Some match seek_target (u_size udata) (f_pos f) offset wence with
       | Some p => (set_pos f p, p)
       | None => (f, -1)
       end.
Proof.
  intros Hi Hs Hp Ho. unfold ramfs_lseek, seek_target. rewrite Hi. cbn [mbind option_bind].
  rewrite (u64_small (u_size udata)) by lia. unfold SEEK_SET, SEEK_CUR, SEEK_END.
  assert (forall q r, 0 <= q -> r = Z.min q (u_size udata) ->
    (if u_size udata <? q then u_size udata else q) = r /\ i32 r = r) as Hclamp.
  { intros q r Hq ->. split; [case_match; breflect; lia|]. apply i32_small. lia. }
  destruct (Z.eqb_spec wence 0) as [->|]; [|destruct (Z.eqb_spec wence 1) as [->|];
    [|destruct (Z.eqb_spec wence 2) as [->|]; [|done]]]; cbn [andb].
  - destruct (Z.ltb_spec offset 0); [by rewrite (proj2 (Z.leb_gt _ _))|].
    rewrite (proj2 (Z.leb_le _ _)), (u64_small offset) by lia.
    by destruct (Hclamp offset _ ltac:(lia) eq_refl) as [-> ->].
  - destruct (Z.ltb_spec offset 0) as [Hn|Hn]; cbn [andb].
    + rewrite (i32_small (- offset)), (u64_small (- offset)) by lia.
      destruct (Z.ltb_spec (f_pos f) (- offset)); [by rewrite (proj2 (Z.leb_gt _ _)) by lia|].
      rewrite (proj2 (Z.leb_le _ _)), (u64_small (f_pos f + offset)) by lia.
      by destruct (Hclamp (f_pos f + offset) _ ltac:(lia) eq_refl) as [-> ->].
    + rewrite (proj2 (Z.leb_le _ _)), (u64_small (f_pos f + offset)) by lia.
      by destruct (Hclamp (f_pos f + offset) _ ltac:(lia) eq_refl) as [-> ->].
  - destruct (Z.ltb_spec 0 offset); [by rewrite (proj2 (Z.leb_gt _ _))|].
    rewrite (proj2 (Z.leb_le offset 0)), (i32_small (_ + offset)) by lia.
    destruct (Z.leb_spec 0 (u_size udata + offset)) as [Hn|Hn].
    + rewrite u64_small by lia.
      by destruct (Hclamp (u_size udata + offset) (u_size udata + offset) ltac:(lia) ltac:(lia)) as [-> ->].
    + assert (u_size udata < u64 (u_size udata + offset)) as Hbig by wrap_lia.
      rewrite (proj2 (Z.ltb_lt _ _)) by done. by rewrite i32_small by lia.
Qed.

(** ** Concrete archives *)

(** Two files and a directory: [./d/], [./d/a] with the bytes 1 to 5 and [b] with 9. *)
Definition demo_entry (name data : list Z) (type : Z) : ustar_entry :=
  UstarEntry name (replicate 24 0) (replicate 20 0) type (replicate 100 0) (replicate 250 0) data.
Definition demo_entries : list ustar_entry :=
  [demo_entry [dot; slash; 100; slash] [] 53;
   demo_entry [dot; slash; 100; slash; 97] [1; 2; 3; 4; 5] 48;
   demo_entry [98] [9] 48].
Definition demo_archive : list Z := archive demo_entries (replicate 1024 0).

Lemma demo_entry_ok name data type : (length name <= 100)%nat -> 0 ∉ name -> 0 <= type < 256 -> entry_ok (demo_entry name data type).
Proof. by constructor. Qed.

Lemma demo_entries_ok : Forall entry_ok demo_entries.
Proof.
  unfold demo_entries. rewrite !Forall_cons.
  split_and!; [apply demo_entry_ok; [simpl; lia|apply (bool_decide_unpack _); vm_compute; exact I|lia]..|constructor].
Qed.

Definition demo_dir (path : list Z) : ram_inode :=
  Inode 0 (Some tt) VFS_NODE_DIRECTOR (Some tt) None (Some (UstarData path [] 0 0 0 U_DIRECTORY)).
Definition demo_file (pos : Z) : ram_file := File 101 VFS_MODE_READ (Some 3) 2 (Some tt) None pos false 1.

Lemma ramfs_serves_archive_witness :
  exists inode, ramfs_lookup demo_archive (demo_dir [100]) [97] = Some (demo_archive, GotDentry (Some inode)) /\
    i_fsize inode = 5 /\
    exists l, ramfs_iterate demo_archive (demo_dir [100]) = Some (Z.of_nat (length l), l) /\ lists [100] demo_entries l.
Proof.
  destruct (ramfs_serves_archive demo_entries (replicate 1024 0) (demo_dir [100]) (UstarData [100] [] 0 0 0 U_DIRECTORY)
    [97] demo_entries_ok) as [(found & E & H) Hl].
  - right. vm_compute. discriminate.
  - apply Z.ltb_lt. vm_compute. reflexivity.
  - reflexivity.
  - apply Nat.ltb_lt. reflexivity.
  - assert (match ramfs_lookup demo_archive (demo_dir [100]) [97] with
      | Some (_, GotDentry (Some i)) => i_fsize i = 5 | _ => False end) as Hf by (vm_compute; reflexivity).
    fold demo_archive in E. rewrite E in Hf. destruct found as [inode|]; [|done].
    exists inode. split_and!; [exact E|exact Hf|exact Hl].
Defined.

Lemma ramfs_lseek_correct_witness :
  ramfs_lseek (demo_dir []) (demo_file 0) (-1) SEEK_CUR = Some (demo_file 0, -1).
Proof. apply (ramfs_lseek_correct (demo_dir []) (demo_file 0) (-1) SEEK_CUR (UstarData [] [] 0 0 0 U_DIRECTORY)); simpl; try lia. reflexivity. Defined.

(** A size field of twelve digits can be negative as an [int]; the search then goes
    back, here to the same header for ever. *)
Definition backward_archive : list Z :=
  name_field (demo_entry [97] [] 48) ++ replicate 24 0 ++ [51; 55; 55; 55; 55; 55; 55; 55; 48; 48; 48; 0] ++
  replicate 20 0 ++ [48] ++ replicate 100 0 ++ ustar_magic ++ replicate 250 0.

Lemma negative_size_never_ends fuel : lookup_loop fuel backward_archive 0 [98] [98] = None.
Proof.
  assert (_ustar_read_block_header backward_archive 0 = Some (Some ([97], -512, 0))) as Eh by (vm_compute; done).
  induction fuel as [|fuel IH]; [done|]. cbn [lookup_loop].
  change (u64 (0 + 512) <=? Z.of_nat (length backward_archive)) with true. rewrite Eh.
  cbn [mbind option_bind]. change (is_entry [97] 0 && bool_decide ([97] = [98])) with false.
  change (next_block 0 (-512)) with 0. exact IH.
Qed.
