(* ===== verification/VfsProofs.v ===== *)
(** * Virtual file system: proofs

    The path iteration on fixed character arrays is splitting at slashes; the walk along a
    path is a walk over the names; the tree of entries stays well formed; and the
    path that is printed for an open file leads back to it. *)

From S2P Require Import Prelude DList Vfs RamFs RamFsProofs.

(** ** Character arrays that hold a string *)

#[local] Opaque VFS_MAX_PATH_LENGTH.

Definition buf (s : list Z) : list Z := s ++ replicate (VFS_MAX_PATH_LENGTH - length s) 0.
Definition fits (s : list Z) : Prop := 0 ∉ s /\ (length s < VFS_MAX_PATH_LENGTH)%nat.

Lemma length_buf s : (length s <= VFS_MAX_PATH_LENGTH)%nat -> length (buf s) = VFS_MAX_PATH_LENGTH.
Proof. intros H. unfold buf. rewrite length_app, length_replicate. lia. Qed.

Lemma bstrlen_app s n : 0 ∉ s -> bstrlen (s ++ replicate (S n) 0) = Some (length s).
Proof.
  induction s as [|c s IH]; [done|]. intros [Hc Hs]%not_elem_of_cons. simpl.
  rewrite (proj2 (Z.eqb_neq c 0)) by done. simpl in IH. by rewrite IH.
Qed.

Lemma bstrlen_buf s : fits s -> bstrlen (buf s) = Some (length s).
Proof.
  intros [H0 Hl]. unfold buf.
  replace (VFS_MAX_PATH_LENGTH - length s)%nat with (S (VFS_MAX_PATH_LENGTH - length s - 1)) by lia.
  by apply bstrlen_app.
Qed.

Lemma cstr_buf s : fits s -> cstr (buf s) = s.
Proof. intros [H0 _]. by apply cstr_padded. Qed.

Lemma splice_take_drop {A} off (c b : list A) :
  (off + length c <= length b)%nat -> splice off c b = take off b ++ c ++ drop (off + length c) b.
Proof.
  intros Hl. unfold splice. apply list_eq. intros i.
  destruct (decide (i < off)%nat) as [H1|H1]; [|destruct (decide (i < off + length c)%nat) as [H2|H2]].
  - rewrite list_lookup_inserts_lt, lookup_app_l, lookup_take_lt by (rewrite ?length_take; lia). done.
  - rewrite list_lookup_inserts, lookup_app_r, length_take, lookup_app_l by (rewrite ?length_take; lia).
    f_equal. lia.
  - rewrite list_lookup_inserts_ge, lookup_app_r, length_take, lookup_app_r, lookup_drop
      by (rewrite ?length_take; lia). f_equal. lia.
Qed.

(** Storing at the end of the string, and clearing the array behind a prefix. *)
Lemma bcopy_buf s t :
  (length s + length t <= VFS_MAX_PATH_LENGTH)%nat -> bcopy (buf s) (length s) t = Some (buf (s ++ t)).
Proof.
  intros Hl. unfold bcopy. rewrite length_buf, (proj2 (Nat.leb_le _ _)) by lia. f_equal.
  rewrite splice_take_drop by (rewrite length_buf; lia). unfold buf.
  rewrite take_app_length, drop_app_ge by lia. rewrite drop_replicate, length_app, app_assoc. do 2 f_equal. lia.
Qed.

Lemma bzero_all b : length b = VFS_MAX_PATH_LENGTH -> bzero b 0 VFS_MAX_PATH_LENGTH = Some (buf []).
Proof.
  intros Hl. unfold bzero. rewrite Hl, (proj2 (Nat.leb_le _ _)) by lia. rewrite splice_take_drop by (rewrite length_replicate, Hl; lia).
  rewrite length_replicate, drop_ge, app_nil_r by lia. done.
Qed.

Lemma bzero_string s : fits s -> bzero (buf s) 0 (length s + 1) = Some (buf []).
Proof.
  intros [_ Hl]. unfold bzero. rewrite length_buf, (proj2 (Nat.leb_le _ _)) by lia. f_equal.
  rewrite splice_take_drop by (rewrite length_replicate, length_buf; lia).
  rewrite length_replicate. unfold buf. simpl. rewrite drop_app_ge, drop_replicate, <- replicate_add by lia.
  f_equal. lia.
Qed.

(** Moving the rest of a string to the front. *)
Lemma shift_string s p r :
  fits s -> s = p ++ r -> (length r + length s <= VFS_MAX_PATH_LENGTH)%nat ->
  (b ← bcopy (buf s) 0 r; bzero b (length r) (length s)) = Some (buf r).
Proof.
  intros [_ Hl] -> Hr. rewrite length_app in *. unfold bcopy, bzero.
  rewrite length_buf, (proj2 (Nat.leb_le _ _)) by (rewrite ?length_app; lia). cbn [mbind option_bind].
  rewrite length_splice, length_buf, (proj2 (Nat.leb_le _ _)) by (rewrite ?length_app; lia). f_equal.
  rewrite !splice_take_drop by (rewrite ?length_replicate, ?length_splice, ?length_app, ?length_buf; rewrite ?length_app; lia).
  simpl. rewrite take_app_length, length_replicate, drop_app_ge, drop_drop by lia.
  unfold buf. f_equal. rewrite drop_app_ge, drop_replicate, <- replicate_add by (rewrite length_app; lia).
  f_equal. rewrite !length_app. lia.
Qed.

(** ** Names *)

(** The name before the first slash, and what is behind it. *)
Fixpoint split_at (s : list Z) : list Z * option (list Z) :=
  match s with
  | [] => ([], None)
  | c :: s => if c =? slash then ([], Some s) else let '(n, r) := split_at s in (c :: n, r)
  end.

Lemma split_at_spec s n r :
  split_at s = (n, r) -> slash ∉ n /\ s = match r with Some r => n ++ slash :: r | None => n end.
Proof.
  revert n. induction s as [|c s IH]; intros n; simpl; [intros [= <- <-]; by split; [apply not_elem_of_nil|]|].
  destruct (Z.eqb_spec c slash) as [->|Hc]; [intros [= <- <-]; by split; [apply not_elem_of_nil|]|].
  destruct (split_at s) as [m t]. intros [= <- <-]. destruct (IH _ eq_refl) as [Hm ->].
  split; [by apply not_elem_of_cons|by destruct t].
Qed.

Lemma next_name_spec (path r : list Z) : forall p acc : list Z,
  path !! (length p + length r)%nat = Some 0 -> (forall i, (i < length r)%nat -> path !! (length p + i)%nat = r !! i) ->
  (length acc + length r <= VFS_MAX_PATH_LENGTH)%nat ->
  let '(n, rest) := split_at r in
  next_name (length r) path (length p) (buf acc) (length acc) =
  Some ((length p + length n)%nat, buf (acc ++ n), bool_decide (is_Some rest)).
Proof.
  induction r as [|c r IH]; intros p acc Hz Hi Ha; cbn [split_at length next_name].
  { by rewrite app_nil_r, Nat.add_0_r. }
  pose proof (Hi 0%nat ltac:(simpl; lia)) as H0. rewrite Nat.add_0_r in H0. rewrite H0. cbn [lookup list_lookup mbind option_bind].
  destruct (Z.eqb_spec c slash) as [->|Hc]; [by rewrite app_nil_r, Nat.add_0_r|].
  simpl in Ha. unfold bset. rewrite bcopy_buf by (simpl; lia). cbn [mbind option_bind].
  specialize (IH (p ++ [c]) (acc ++ [c])). rewrite !length_app in IH. simpl in IH.
  destruct (split_at r) as [n rest].
  replace (S (length p)) with (length p + 1)%nat by lia. replace (S (length acc)) with (length acc + 1)%nat by lia.
  rewrite IH.
  - do 3 f_equal; [simpl; lia|by rewrite <- app_assoc].
  - rewrite <- Hz. f_equal. simpl. lia.
  - intros i Hi'. transitivity ((c :: r) !! S i); [|done]. rewrite <- (Hi (S i)) by (simpl; lia). f_equal. lia.
  - lia.
Qed.

(** The path without its first slash. *)
Definition unroot (s : list Z) : list Z :=
  match s with c :: r => if c =? slash then r else s | [] => [] end.

(** One call of [vfs_next_path]: the next name and the rest of the path.  It writes behind the
    array exactly when path and rest together are longer than the array. *)
Lemma next_path_spec s next :
  fits s -> length next = VFS_MAX_PATH_LENGTH ->
  vfs_next_path (buf s) next VFS_MAX_PATH_LENGTH true =
  match s with
  | [] => Some (buf [], next, false)
  | _ =>
    match split_at (unroot s) with
    | (n, Some r) =>
      if (length r + length s <=? VFS_MAX_PATH_LENGTH)%nat
      then Some (buf r, buf n, bool_decide (n <> [])) else None
    | (n, None) => Some (buf [], buf n, bool_decide (n <> []))
    end
  end.
Proof.
  intros Hs Hn. unfold vfs_next_path. rewrite bstrlen_buf by done. cbn [mbind option_bind].
  destruct s as [|c s']; [done|]. set (s := c :: s') in *.
  rewrite (proj2 (Nat.eqb_neq (length s) 0)) by done.
  assert (buf s !! 0%nat = Some c) as -> by done. cbn [mbind option_bind andb].
  rewrite bzero_all by done. cbn [mbind option_bind].
  assert (exists p, s = p ++ unroot s /\ length p = if c =? slash then 1%nat else 0%nat) as (p & Hp & Hlp).
  { unfold unroot, s. destruct (Z.eqb_spec c slash) as [->|]; [by exists [slash]|by exists []]. }
  rewrite <- Hlp. clear Hlp. set (r := unroot s) in *. destruct Hs as [H0 Hl].
  assert (length s = length p + length r)%nat as Hlen by (rewrite Hp at 1; apply length_app).
  clearbody r.
  replace (length s - length p)%nat with (length r) by lia.
  pose proof (next_name_spec (buf s) r p []) as HN. destruct (split_at r) as [n rest] eqn:Es.
  change (length []) with 0%nat in HN. rewrite HN.
  2:{ rewrite <- Hlen. unfold buf. rewrite lookup_app_r, Nat.sub_diag, lookup_replicate_2 by lia. done. }
  2:{ intros i Hi. unfold buf. rewrite lookup_app_l by lia. rewrite Hp at 1. rewrite lookup_app_r by lia. f_equal. lia. }
  2:{ simpl. lia. }
  cbn [mbind option_bind app]. apply split_at_spec in Es as [Hns Hr].
  assert (0 ∉ r) as H0r by (intros H; apply H0; rewrite Hp; apply elem_of_app; by right).
  assert (fits n) as Hfn.
  { split; [intros H; apply H0r; rewrite Hr; destruct rest; [apply elem_of_app; by left|done]|].
    assert (length n <= length r)%nat by (rewrite Hr; destruct rest; rewrite ?length_app; lia). lia. }
  assert (bool_decide (n <> []) = (0 <? length n)%nat) as -> by (by destruct n).
  destruct rest as [rest|]; cbn [mbind option_bind].
  - rewrite bool_decide_eq_true_2 by done. rewrite Hr, length_app in Hlen. cbn [length] in Hlen.
    replace (length s - (length p + length n) - 1)%nat with (length rest) by lia.
    assert (slice (length p + length n + 1) (length rest) (buf s) = rest) as ->.
    { unfold slice, buf. rewrite Hp, Hr at 1. rewrite <- !app_assoc. simpl.
      rewrite app_assoc, <- length_app. rewrite drop_app_add' by done. simpl. by rewrite drop_0, take_app_length. }
    destruct (_ <=? _)%nat eqn:El.
    + apply Nat.leb_le in El. rewrite (shift_string s (p ++ n ++ [slash]) rest); [|done| |done].
      2:{ rewrite Hp, Hr at 1. by rewrite <- !app_assoc. }
      cbn [mbind option_bind]. rewrite bstrlen_buf by done. done.
    + apply Nat.leb_gt in El. unfold bcopy, bzero. rewrite length_buf, (proj2 (Nat.leb_le _ _)) by lia.
      cbn [mbind option_bind]. rewrite length_splice, length_buf, (proj2 (Nat.leb_gt _ _)) by lia. done.
  - rewrite bool_decide_eq_false_2 by (by intros []). subst n. rewrite <- Hlen, bzero_string by done.
    cbn [mbind option_bind]. rewrite bstrlen_buf by done. done.
Qed.

(** ** Paths as lists of names *)

Fixpoint split_slash (s : list Z) : list (list Z) :=
  match s with
  | [] => [[]]
  | c :: s =>
    if c =? slash then [] :: split_slash s
    else match split_slash s with n :: l => (c :: n) :: l | [] => [[c]] end
  end.

(** One empty part is skipped before each name; two end the path. *)
Fixpoint path_names (parts : list (list Z)) : list (list Z) :=
  match parts with
  | [] => []
  | [] :: parts =>
    match parts with
    | ((_ :: _) as n) :: parts => n :: path_names parts
    | _ => []
    end
  | n :: parts => n :: path_names parts
  end.

Definition names (s : list Z) : list (list Z) := path_names (split_slash s).

Lemma split_slash_at s :
  split_slash s = match split_at s with (n, Some r) => n :: split_slash r | (n, None) => [n] end.
Proof.
  induction s as [|c s IH]; [done|]. simpl. destruct (c =? slash); [done|].
  rewrite IH. destruct (split_at s) as [n [r|]]; done.
Qed.

Lemma names_step c s :
  names (c :: s) =
  match split_at (unroot (c :: s)) with
  | ([], _) => []
  | (n, Some r) => n :: names r
  | (n, None) => [n]
  end.
Proof.
  unfold names, unroot. destruct (Z.eqb_spec c slash) as [->|Hc].
  - cbn [split_slash]. change (slash =? slash) with true. cbn [path_names]. rewrite split_slash_at.
    by destruct (split_at s) as [[|d n] [r|]].
  - rewrite split_slash_at. simpl. rewrite (proj2 (Z.eqb_neq c slash)) by done.
    by destruct (split_at s) as [n [r|]].
Qed.

Lemma unroot_length s : (length (unroot s) <= length s)%nat.
Proof. destruct s as [|c s]; simpl; [done|]. case_match; simpl; lia. Qed.

Section Walk.
Context {F W P : Type} {ops : FsOps F W P}.
Implicit Types st : vfs_state (F := F) (W := W) (P := P).

(** The walk along a list of names. *)
Fixpoint walk_names (ns : list (list Z)) st (current parent : option Z) :
    option (vfs_state (F := F) (W := W) (P := P) * option Z) :=
  match ns with
  | [] => Some (st, current)
  | n :: ns =>
    if bool_decide (n = [dot]) then walk_names ns st current parent
    else if bool_decide (n = [dot; dot]) then
      match current with
      | Some c => d ← dentries st !! c; walk_names ns st (d_parent d) (d_parent d)
      | None => walk_names ns st current parent
      end
    else
      '(st, r) ← resolve_name st parent n;
      match (r : option Z) with
      | Some c => walk_names ns st (Some c) (Some c)
      | None => Some (st, None)
      end
  end.

(** On paths of at most half the array the loop is the walk, and nothing is written behind
    the arrays. *)
Lemma resolve_loop_walk fuel : forall s st next current parent,
  0 ∉ s -> (2 * length s <= VFS_MAX_PATH_LENGTH)%nat -> (length s < fuel)%nat ->
  length next = VFS_MAX_PATH_LENGTH ->
  resolve_loop fuel st (buf s) next current parent = walk_names (names s) st current parent.
Proof.
  induction fuel as [|fuel IH]; intros s st next current parent H0 Hl Hf Hn; [lia|]. cbn [resolve_loop].
  assert (0 < VFS_MAX_PATH_LENGTH)%nat as Hpos by (apply Nat.ltb_lt; reflexivity).
  rewrite next_path_spec; [|split; [done|destruct s; simpl in *; lia]|done].
  destruct s as [|c s]; [done|]. rewrite names_step.
  pose proof (unroot_length (c :: s)) as Hu.
  assert (0 ∉ unroot (c :: s)) as H0u.
  { unfold unroot. case_match; [|done]. by apply not_elem_of_cons in H0 as [_ ?]. }
  destruct (split_at (unroot (c :: s))) as [n rest] eqn:E. apply split_at_spec in E as [_ E].
  assert (length n <= length (unroot (c :: s)))%nat as Hnl by (rewrite E; destruct rest; rewrite ?length_app; lia).
  assert (fits n) as Hfn.
  { split; [|lia]. intros H. apply H0u. rewrite E. destruct rest; [apply elem_of_app; by left|done]. }
  assert (length (buf n) = VFS_MAX_PATH_LENGTH) as Hbn by (apply length_buf; lia).
  assert (exists r, (r = [] \/ exists q, unroot (c :: s) = q ++ slash :: r) /\
    match rest with
    | Some r => if (length r + length (c :: s) <=? VFS_MAX_PATH_LENGTH)%nat
                then Some (buf r, buf n, bool_decide (n <> [])) else None
    | None => Some (buf [], buf n, bool_decide (n <> []))
    end = Some (buf r, buf n, bool_decide (n <> [])) /\
    match n, rest with [], _ => [] | n, Some r => n :: names r | n, None => [n] end =
    match n with [] => [] | n => n :: names r end) as (r & Hr & -> & ->).
  { destruct rest as [r|]; [exists r|exists []; split_and!; [by left|done|by destruct n]].
    split_and!; [right; by exists n| |by destruct n].
    rewrite E, length_app in Hu. simpl in Hu. by rewrite (proj2 (Nat.leb_le _ _)) by (simpl in *; lia). }
  cbn [mbind option_bind]. destruct n as [|d n]; [done|]. rewrite bool_decide_eq_true_2 by done. cbn [negb].
  rewrite cstr_buf by done. set (m := d :: n) in *. cbn [walk_names].
  assert (0 ∉ r /\ (length r < length (c :: s))%nat) as [H0r Hlr].
  { destruct Hr as [->|[q Eq]]; [split; [apply not_elem_of_nil|simpl; lia]|]. rewrite Eq in H0u, Hu.
    rewrite length_app in Hu. cbn [length] in Hu. split; [|cbn [length]; lia].
    intros H. apply H0u, elem_of_app. right. by right. }
  assert (forall st cur par, resolve_loop fuel st (buf r) (buf m) cur par = walk_names (names r) st cur par) as Hgo.
  { intros st' cur par. apply IH; try done; lia. }
  rewrite !Hgo. repeat case_bool_decide; try done.
  - destruct current as [cur|]; [|done]. destruct (dentries st !! cur); [apply Hgo|done].
  - destruct (resolve_name st parent m) as [[st' [c'|]]|]; [apply Hgo|done..].
Qed.

Definition abs_path (cwd path : list Z) : list Z :=
  if bool_decide (path !! 0%nat = Some slash) then path
  else if bool_decide (cwd = [slash]) then cwd ++ path else cwd ++ slash :: path.

Lemma whole_path_spec cwd path :
  0 ∉ cwd -> (length (abs_path cwd path) < VFS_MAX_PATH_LENGTH)%nat ->
  whole_path cwd path = Some (buf (abs_path cwd path)).
Proof.
  intros Hc Hl. unfold whole_path, abs_path in *.
  pose proof (bcopy_buf []) as Hcp. cbn [length app Nat.add] in Hcp. change zero_path with (buf []).
  revert Hl. destruct (bool_decide (path !! 0%nat = Some slash)); [intros Hl; by rewrite Hcp by lia|].
  destruct (bool_decide (cwd = [slash])) eqn:E; intros Hl; rewrite length_app in Hl.
  - apply bool_decide_eq_true in E as ->. rewrite Hcp by (simpl in *; lia). cbn [mbind option_bind app].
    rewrite bstrlen_buf by (split; [done|simpl in *; lia]). cbn [mbind option_bind].
    by rewrite bcopy_buf by (simpl in *; lia).
  - simpl in Hl. rewrite Hcp by lia. cbn [mbind option_bind app].
    rewrite bstrlen_buf by (split; [done|lia]). cbn [mbind option_bind].
    rewrite bcopy_buf by (simpl; lia). cbn [mbind option_bind].
    rewrite bstrlen_buf by (split; [|rewrite length_app; simpl; lia];
      rewrite not_elem_of_app, list_elem_of_singleton; by split). cbn [mbind option_bind].
    rewrite bcopy_buf by (rewrite length_app; simpl; lia). by rewrite <- app_assoc.
Qed.

Lemma resolve_path_walk st cwd path sb s :
  vfs_root st = Some sb -> sbs st !! sb = Some s -> 0 ∉ cwd -> 0 ∉ path ->
  (2 * length (abs_path cwd path) <= VFS_MAX_PATH_LENGTH)%nat ->
  vfs_resolve_path st cwd path =
  if bool_decide (path = [slash]) then Some (st, Some (s_root s))
  else walk_names (names (abs_path cwd path)) st None (Some (s_root s)).
Proof.
  intros Hr Hs Hc Hp Hl. unfold vfs_resolve_path. rewrite Hr. cbn [mbind option_bind]. rewrite Hs. cbn [mbind option_bind].
  case_bool_decide; [done|]. assert (0 < VFS_MAX_PATH_LENGTH)%nat as Hpos by (apply Nat.ltb_lt; reflexivity).
  set (a := abs_path cwd path) in *.
  assert (fits a) as Ha.
  { split; [|lia]. unfold a, abs_path. repeat case_bool_decide; rewrite ?not_elem_of_app, ?not_elem_of_cons; auto. }
  rewrite whole_path_spec by (done || apply Ha). cbn [mbind option_bind]. fold a.
  rewrite bstrlen_buf by done. cbn [mbind option_bind]. unfold buf at 1. rewrite take_app_length.
  pose proof (bcopy_buf [] a) as Hcp. cbn [length app Nat.add] in Hcp. change zero_path with (buf []).
  rewrite Hcp by lia. cbn [mbind option_bind app].
  destruct Ha as [Ha0 Hal]. apply resolve_loop_walk; [done|lia|lia|]. apply length_buf. simpl. lia.
Qed.

(** ** The tree of entries *)

(** A name that a path can contain. *)
Definition good_name (n : list Z) : Prop :=
  n <> [] /\ slash ∉ n /\ 0 ∉ n /\ n <> [dot] /\ n <> [dot; dot].

Definition is_root st (c : Z) : Prop := exists sb s, sbs st !! sb = Some s /\ s_root s = c.

(** Structures are allocated at increasing addresses; an entry has an inode, the root of a
    super block has no siblings, any other entry is a child of its parent, and
    children have distinct names. *)
Record tree_wf st : Prop := {
  tw_brk : 0 < brk st;
  tw_dentry : forall c d, dentries st !! c = Some d -> 0 < c < brk st /\
    exists ino i, d_inode d = Some ino /\ inodes st !! ino = Some i;
  tw_inode : forall ino i, inodes st !! ino = Some i -> 0 < ino < brk st /\
    forall sb, i_mountpoint i = Some sb -> is_Some (sbs st !! sb);
  tw_sb : forall sb s, sbs st !! sb = Some s -> 0 < sb < brk st /\ is_Some (dentries st !! s_root s);
  tw_root : forall sb, vfs_root st = Some sb -> is_Some (sbs st !! sb);
  tw_child : forall p dp c, dentries st !! p = Some dp -> c ∈ d_subdirs dp ->
    exists dc, dentries st !! c = Some dc /\ d_parent dc = Some p /\ p < c /\ good_name (d_name dc);
  tw_names : forall p dp c c' dc dc', dentries st !! p = Some dp -> c ∈ d_subdirs dp -> c' ∈ d_subdirs dp ->
    dentries st !! c = Some dc -> dentries st !! c' = Some dc' -> d_name dc = d_name dc' -> c = c';
  tw_parent : forall c d, dentries st !! c = Some d ->
    exists p dp, d_parent d = Some p /\ dentries st !! p = Some dp /\ p <= c /\ (is_root st c \/ c ∈ d_subdirs dp);
}.

(** The search among the children finds exactly the child of that name. *)
Lemma find_child_spec ds l n :
  (forall c, c ∈ l -> is_Some (ds !! c)) ->
  match find_child ds l n with
  | Some (Some c) => c ∈ l /\ exists d, ds !! c = Some d /\ d_name d = n
  | Some None => forall c d, c ∈ l -> ds !! c = Some d -> d_name d <> n
  | None => False
  end.
Proof.
  induction l as [|c l IH]; intros Hl; simpl; [by intros c d ?%not_elem_of_nil|].
  destruct (Hl c ltac:(left)) as [d Hd]. rewrite Hd. cbn [mbind option_bind].
  case_bool_decide as E; [split; [left|by exists d]|].
  specialize (IH (fun c' Hc' => Hl c' ltac:(by right))).
  destruct (find_child ds l n) as [[c'|]|]; [| |done].
  - destruct IH as [? ?]. split; [by right|done].
  - intros c' d' [->|Hc']%elem_of_cons Hd'; [naive_solver|by apply IH with c'].
Qed.

Lemma wf_find_child st p dp n :
  tree_wf st -> dentries st !! p = Some dp ->
  match find_child (dentries st) (d_subdirs dp) n with
  | Some (Some c) => c ∈ d_subdirs dp /\ exists d, dentries st !! c = Some d /\ d_name d = n
  | Some None => forall c d, c ∈ d_subdirs dp -> dentries st !! c = Some d -> d_name d <> n
  | None => False
  end.
Proof.
  intros Hw Hp. apply find_child_spec. intros c Hc. destruct (tw_child _ Hw _ _ _ Hp Hc) as (dc & -> & _). done.
Qed.

(** The tree has grown: nothing was removed and the open files are the same. *)
Record grows st st' : Prop := {
  gw_dentries : forall c, is_Some (dentries st !! c) -> is_Some (dentries st' !! c);
  gw_inodes : forall c, is_Some (inodes st !! c) -> is_Some (inodes st' !! c);
  gw_brk : brk st <= brk st';
  gw_files : files st' = files st;
  gw_open : open_files st' = open_files st;
}.

#[local] Instance grows_preorder : PreOrder grows.
Proof.
  split; [by constructor|]. intros a b c [] []. constructor; eauto with lia; congruence.
Qed.

Lemma with_world_wf st w : tree_wf st -> tree_wf (with_world st w) /\ grows st (with_world st w).
Proof. intros []. by split; constructor. Qed.

Lemma wf_fresh st : tree_wf st -> dentries st !! brk st = None /\ inodes st !! (brk st + 1) = None.
Proof.
  intros Hw. split.
  - destruct (dentries st !! brk st) eqn:E; [|done]. apply (tw_dentry _ Hw) in E. lia.
  - destruct (inodes st !! (brk st + 1)) eqn:E; [|done]. apply (tw_inode _ Hw) in E. lia.
Qed.

Lemma new_child_wf st w p dp n i :
  tree_wf st -> dentries st !! p = Some dp -> good_name n -> i_mountpoint i = None ->
  (forall c d, c ∈ d_subdirs dp -> dentries st !! c = Some d -> d_name d <> n) ->
  let '(st', c) := new_child st w p dp n (Some i) in
  tree_wf st' /\ grows st st' /\ is_Some (dentries st' !! c).
Proof.
  intros Hw Hp Hn Hi Hu. unfold new_child, l_add_prev. set (c := brk st).
  destruct (wf_fresh st Hw) as [Hc Hino]. fold c in Hc, Hino.
  pose proof (tw_dentry _ Hw _ _ Hp) as [Hpb Hpi]. fold c in Hpb.
  set (dc := Dentry n (Some (c + 1)) (Some p) []).
  set (dp' := Dentry (d_name dp) (d_inode dp) (d_parent dp) (d_subdirs dp ++ [c])).
  set (ds := <[p := dp']> (<[c := dc]> (dentries st))).
  set (ns := <[c + 1 := i]> (inodes st)).
  change (tree_wf (with_tree st w (c + 2) ds ns) /\ grows st (with_tree st w (c + 2) ds ns) /\ is_Some (ds !! c)).
  assert (forall x, ds !! x = if decide (x = p) then Some dp' else if decide (x = c) then Some dc else dentries st !! x) as Hds.
  { intros x. unfold ds. rewrite !lookup_insert. repeat case_decide; congruence. }
  assert (forall x, ns !! x = if decide (x = c + 1) then Some i else inodes st !! x) as Hns.
  { intros x. unfold ns. rewrite lookup_insert. repeat case_decide; congruence. }
  assert (forall x, is_Some (inodes st !! x) -> is_Some (ns !! x)) as Hnm by (intros x H; rewrite Hns; by case_decide).
  assert (forall x, is_Some (dentries st !! x) -> is_Some (ds !! x)) as Hdm
    by (intros x H; rewrite Hds; by repeat case_decide).
  (* an old entry with its fields, but for the children of [p] *)
  assert (forall x d, ds !! x = Some d -> x <> c -> exists d0, dentries st !! x = Some d0 /\ d_name d = d_name d0 /\
    d_inode d = d_inode d0 /\ d_parent d = d_parent d0 /\
    (forall y, y ∈ d_subdirs d -> y ∈ d_subdirs d0 \/ (x = p /\ y = c)) /\
    (forall y, y ∈ d_subdirs d0 -> y ∈ d_subdirs d)) as Hold.
  { intros x d Hx Hxc. rewrite Hds in Hx. case_decide as E1; [subst x; simplify_eq; exists dp|rewrite decide_False in Hx by done; exists d].
    - split_and!; try done; intros y; simpl; rewrite elem_of_app, list_elem_of_singleton; tauto.
    - split_and!; try done. auto. }
  assert (ds !! c = Some dc) as Hdc by (rewrite Hds, decide_False, decide_True by (done || lia); done).
  assert (ds !! p = Some dp') as Hdp by (by rewrite Hds, decide_True).
  (* an old entry as it is now *)
  assert (forall x d0, dentries st !! x = Some d0 -> x <> c /\ exists d, ds !! x = Some d /\ d_name d = d_name d0 /\
    d_inode d = d_inode d0 /\ d_parent d = d_parent d0 /\ (forall y, y ∈ d_subdirs d0 -> y ∈ d_subdirs d)) as Hnow.
  { intros x d0 Hx. assert (x <> c) as Hxc by congruence. split; [done|].
    destruct (Hdm x ltac:(by eexists)) as [d Hd]. exists d. destruct (Hold x d Hd Hxc) as (d1 & H1 & H2 & H3 & H4 & _ & H6).
    simplify_eq. done. }
  split_and!; [|constructor; cbn [with_tree dentries inodes brk files open_files]; try done; unfold c; lia|by exists dc].
  constructor; cbn [with_tree dentries inodes sbs brk vfs_root].
  - lia.
  - intros x d Hx. destruct (decide (x = c)) as [->|Hxc].
    + simplify_eq. split; [lia|]. exists (c + 1), i. split; [done|]. by rewrite Hns, decide_True.
    + destruct (Hold x d Hx Hxc) as (d0 & H0 & _ & -> & _). destruct (tw_dentry _ Hw _ _ H0) as [Hb (ino & j & -> & Hj)].
      split; [fold c in Hb; lia|]. destruct (Hnm ino ltac:(by eexists)) as [j' Hj']. eauto.
  - intros ino j. rewrite Hns. case_decide; [intros [= <-]; split; [lia|]; by rewrite Hi|].
    intros Hj. destruct (tw_inode _ Hw _ _ Hj) as [? ?]. split; [unfold c; lia|done].
  - intros sb s Hs. destruct (tw_sb _ Hw _ _ Hs) as [? ?]. split; [unfold c; lia|auto].
  - apply Hw.
  - intros x d y Hx Hy. destruct (decide (x = c)) as [->|Hxc]; [simplify_eq; by apply not_elem_of_nil in Hy|].
    destruct (Hold x d Hx Hxc) as (d0 & H0 & _ & _ & _ & Hs & _). destruct (Hs y Hy) as [Hy0|[-> ->]].
    + destruct (tw_child _ Hw _ _ _ H0 Hy0) as (dy & Hdy & Hpy & Hlt & Hg).
      destruct (Hnow y dy Hdy) as (_ & d' & Hd' & Hn1 & _ & Hp1 & _). exists d'. rewrite Hp1, Hn1. done.
    + exists dc. split_and!; try done. lia.
  - intros x d y y' dy dy' Hx Hy Hy' Hdy Hdy' Hnn. destruct (decide (x = c)) as [->|Hxc]; [simplify_eq; by apply not_elem_of_nil in Hy|].
    destruct (Hold x d Hx Hxc) as (d0 & H0 & _ & _ & _ & Hs & _).
    assert (forall z dz, z ∈ d_subdirs d0 -> ds !! z = Some dz -> exists dz0, dentries st !! z = Some dz0 /\ d_name dz = d_name dz0) as Hsame.
    { intros z dz Hz Hdz. destruct (tw_child _ Hw _ _ _ H0 Hz) as (dz0 & Hdz0 & _).
      destruct (Hnow z dz0 Hdz0) as (_ & d' & Hd' & Hn1 & _). simplify_eq. eauto. }
    destruct (Hs y Hy) as [Hy0|[-> ->]], (Hs y' Hy') as [Hy0'|[Ex ->]]; [| | |done].
    + destruct (Hsame y dy Hy0 Hdy) as (e & He & En), (Hsame y' dy' Hy0' Hdy') as (e' & He' & En').
      apply (tw_names _ Hw x d0 y y' e e' H0 Hy0 Hy0' He He'). congruence.
    + subst x. simplify_eq. destruct (Hsame y dy Hy0 Hdy) as (e & He & En). destruct (Hu y e Hy0 He). simpl in Hnn. congruence.
    + simplify_eq. destruct (Hsame y' dy' Hy0' Hdy') as (e & He & En). destruct (Hu y' e Hy0' He). simpl in Hnn. congruence.
  - intros x d Hx. destruct (decide (x = c)) as [->|Hxc].
    + simplify_eq. exists p, dp'. split_and!; [done..|lia|]. right. simpl. apply elem_of_app. right. left.
    + destruct (Hold x d Hx Hxc) as (d0 & H0 & _ & _ & -> & _).
      destruct (tw_parent _ Hw _ _ H0) as (q & dq & Hq & Hdq & Hle & Hr).
      destruct (Hnow q dq Hdq) as (_ & dq' & Hdq' & _ & _ & _ & Hsub). exists q, dq'. split_and!; [done..|].
      destruct Hr; [by left|right; auto].
Qed.

(** *** What the file systems promise *)

(** An operation leaves what belongs to the virtual file system. *)
Definition keeps (i : vfs_inode_t F P) (fd : vfs_file_t F P) (i' : vfs_inode_t F P) (fd' : vfs_file_t F P) : Prop :=
  i_mountpoint i' = i_mountpoint i /\ f_handle fd' = f_handle fd /\ f_inode fd' = f_inode fd /\
  f_dentry fd' = f_dentry fd /\ f_ops fd' = f_ops fd /\ is_console fd' = is_console fd /\ count fd' = count fd.

Class FsLaws : Prop := {
  lookup_unmounted : forall f w i n w' j,
    fs_lookup f w i n = Some (w', GotDentry (Some j)) -> i_mountpoint j = None;
  mksb_unmounted : forall f w w' j n, fs_mksb f w = (w', Some (j, n)) -> i_mountpoint j = None;
  open_keeps : forall f w i fd w' i' fd' r, fs_open f w i fd = Some (w', i', fd', r) -> keeps i fd i' fd';
  close_keeps : forall f w i fd w' i' fd' r, fs_close f w i fd = Some (w', i', fd', r) -> keeps i fd i' fd';
  read_keeps : forall f w i fd n w' i' fd' r, fs_read f w i fd n = Some (w', i', fd', r) -> keeps i fd i' fd';
  write_keeps : forall f w i fd b w' i' fd' r, fs_write f w i fd b = Some (w', i', fd', r) -> keeps i fd i' fd';
  lseek_keeps : forall f op w i fd o wh w' i' fd' r,
    fs_lseek f = Some op -> op w i fd o wh = Some (w', i', fd', r) -> keeps i fd i' fd';
  iterate_keeps : forall f op w i fd w' i' fd' r,
    fs_iterate f = Some op -> op w i fd = Some (w', i', fd', r) -> keeps i fd i' fd';
}.

Context {laws : FsLaws}.

Lemma follow_mount_valid st c r : tree_wf st -> follow_mount st c = Some r -> is_Some (dentries st !! r).
Proof.
  intros Hw. unfold follow_mount. destruct (dentries st !! c) as [d|] eqn:Hd; [|done]. cbn [mbind option_bind].
  destruct (d_inode d) as [ino|]; [|done]. cbn [mbind option_bind].
  destruct (inodes st !! ino) as [i|]; [|done]. cbn [mbind option_bind].
  destruct (i_mountpoint i) as [sb|]; [|by intros [= <-]].
  destruct (sbs st !! sb) as [s|] eqn:Hs; [|done]. intros [= <-]. apply (tw_sb _ Hw _ _ Hs).
Qed.

Lemma resolve_name_wf st p n st' r :
  tree_wf st -> good_name n -> resolve_name st (Some p) n = Some (st', r) ->
  tree_wf st' /\ grows st st' /\ forall c, r = Some c -> is_Some (dentries st' !! c).
Proof.
  intros Hw Hn. unfold resolve_name. cbn [mbind option_bind].
  destruct (dentries st !! p) as [dp|] eqn:Hp; [|done]. cbn [mbind option_bind].
  pose proof (wf_find_child st p dp n Hw Hp) as Hc.
  destruct (find_child _ _ _) as [[c|]|]; [| |done]; cbn [mbind option_bind].
  { destruct (follow_mount st c) as [q|] eqn:Eq; [|done]. intros [= <- <-]. split_and!; [done|done|].
    intros c' [= <-]. by eapply follow_mount_valid. }
  destruct (d_inode dp) as [ino|]; [|by intros [= <- <-]]. destruct (inodes st !! ino) as [i|]; [|done].
  cbn [mbind option_bind]. destruct (i_ops i) as [f|]; [|by intros [= <- <-]].
  destruct (fs_lookup f (world st) i n) as [[w [|[j|]]]|] eqn:El; [..|done]; cbn [mbind option_bind].
  - intros [= <- <-]. destruct (with_world_wf st w Hw) as [? ?]. split_and!; [done|done|by intros c].
  - pose proof (new_child_wf st w p dp n j Hw Hp Hn (lookup_unmounted _ _ _ _ _ _ El) Hc) as H.
    destruct (new_child st w p dp n (Some j)) as [st1 c]. destruct H as (Hw1 & Hg & _).
    destruct (follow_mount st1 c) as [q|] eqn:Eq; [|done]. intros [= <- <-]. split_and!; [done|done|].
    intros c' [= <-]. by eapply follow_mount_valid.
  - unfold new_child, follow_mount. cbn [with_tree dentries fmap option_fmap option_map].
    rewrite lookup_insert_ne, lookup_insert_eq; [done|]. apply (tw_dentry _ Hw) in Hp. lia.
Qed.

Lemma good_next n rest s :
  split_at (unroot s) = (n, rest) -> 0 ∉ s -> n <> [] -> n <> [dot] -> n <> [dot; dot] -> good_name n.
Proof.
  intros [Hs E]%split_at_spec H0 H1 H2 H3. split_and!; try done. intros Hn. apply H0.
  assert (0 ∈ unroot s) as Hu by (rewrite E; destruct rest; [apply elem_of_app; by left|done]).
  unfold unroot in Hu. destruct s as [|c s]; [done|]. case_match; [by right|done].
Qed.

Lemma resolve_loop_wf fuel : forall s st next current parent st' r,
  fits s -> length next = VFS_MAX_PATH_LENGTH -> tree_wf st ->
  (forall c, current = Some c -> is_Some (dentries st !! c)) -> is_Some parent ->
  resolve_loop fuel st (buf s) next current parent = Some (st', r) ->
  tree_wf st' /\ grows st st' /\ forall c, r = Some c -> is_Some (dentries st' !! c).
Proof.
  induction fuel as [|fuel IH]; intros s st next current parent st' r Hs Hn Hw Hc [p ->]; [done|]. cbn [resolve_loop].
  rewrite next_path_spec by done. destruct s as [|c0 s0]; [cbn; by intros [= <- <-]|]. set (s := c0 :: s0) in *.
  destruct (split_at (unroot s)) as [n rest] eqn:E. pose proof E as [_ E']%split_at_spec.
  assert (length n <= length s)%nat as Hnl.
  { etrans; [|apply unroot_length]. rewrite E'. destruct rest; rewrite ?length_app; lia. }
  destruct Hs as [H0 Hl].
  assert (forall x, rest = Some x -> fits x) as Hrest.
  { intros x ->. pose proof (unroot_length s) as Hu. rewrite E', length_app, length_cons in Hu. split; [|lia].
    intros Hx. apply H0. assert (0 ∈ unroot s) as H by (rewrite E'; apply elem_of_app; right; by right).
    unfold unroot, s in *. case_match; [by right|done]. }
  assert (0 ∉ n) as H0n.
  { intros Hx. apply H0. assert (0 ∈ unroot s) as H by (rewrite E'; destruct rest; [apply elem_of_app; by left|done]).
    unfold unroot, s in *. case_match; [by right|done]. }
  intros H1.
  assert (exists x, fits x /\ match rest with
    | Some r => if (length r + length s <=? VFS_MAX_PATH_LENGTH)%nat
                then Some (buf r, buf n, bool_decide (n <> [])) else None
    | None => Some (buf [], buf n, bool_decide (n <> []))
    end = Some (buf x, buf n, bool_decide (n <> []))) as (x & Hx & Ex).
  { destruct rest as [x|]; [exists x; split; [by apply Hrest|]; by destruct (_ <=? _)%nat|].
    exists []. split; [|done]. split; [apply not_elem_of_nil|simpl; lia]. }
  rewrite Ex in H1. cbn [mbind option_bind] in H1.
  assert (length (buf n) = VFS_MAX_PATH_LENGTH) as Hbn by (apply length_buf; lia).
  rewrite cstr_buf in H1 by (split; [done|lia]).
  case_bool_decide as Hne; cbn [negb] in H1; [|by injection H1 as <- <-].
  case_bool_decide as Hd1; [by eapply IH in H1|].
  case_bool_decide as Hd2.
  - destruct current as [c|]; [|by eapply IH in H1].
    destruct (Hc c eq_refl) as [d Hd]. rewrite Hd in H1. cbn [mbind option_bind] in H1.
    destruct (tw_parent _ Hw _ _ Hd) as (q & dq & Hq & Hdq & _). rewrite Hq in H1.
    eapply IH in H1; try done. by intros c' [= <-].
  - destruct (resolve_name st (Some p) n) as [[st1 q]|] eqn:Er; [|done]. cbn [mbind option_bind] in H1.
    apply resolve_name_wf in Er as (Hw1 & Hg1 & Hr1); [|done|by eapply good_next]. destruct q as [c|].
    + eapply IH in H1 as (Hw2 & Hg2 & Hr2); try done.
      split_and!; [done|by etrans|done].
    + by injection H1 as <- <-.
Qed.

Lemma bcopy_buf_some s t b :
  (length s <= VFS_MAX_PATH_LENGTH)%nat -> bcopy (buf s) (length s) t = Some b ->
  b = buf (s ++ t) /\ (length (s ++ t) <= VFS_MAX_PATH_LENGTH)%nat.
Proof.
  intros Hs Hb. assert (length s + length t <= VFS_MAX_PATH_LENGTH)%nat as Hl.
  { unfold bcopy in Hb. rewrite length_buf in Hb by done. destruct (_ <=? _)%nat eqn:E; [|done].
    by apply Nat.leb_le in E. }
  rewrite bcopy_buf in Hb by done. rewrite length_app. by simplify_eq.
Qed.

Lemma bstrlen_some s n :
  0 ∉ s -> (length s <= VFS_MAX_PATH_LENGTH)%nat -> bstrlen (buf s) = Some n -> fits s /\ n = length s.
Proof.
  intros H0 Hl Hn. destruct (decide (length s < VFS_MAX_PATH_LENGTH)%nat) as [Hlt|Hge].
  { rewrite bstrlen_buf in Hn by done. by simplify_eq. }
  unfold buf in Hn. replace (VFS_MAX_PATH_LENGTH - length s)%nat with 0%nat in Hn by lia. exfalso.
  clear -H0 Hn. rewrite app_nil_r in Hn. revert n Hn. induction s as [|c s IH]; intros n; [done|].
  apply not_elem_of_cons in H0 as [Hc Hs]. simpl. rewrite (proj2 (Z.eqb_neq c 0)) by done.
  destruct (bstrlen s); [by destruct (IH Hs n0)|done].
Qed.

Lemma whole_path_some cwd path b n :
  0 ∉ cwd -> 0 ∉ path -> whole_path cwd path = Some b -> bstrlen b = Some n ->
  exists s, fits s /\ b = buf s /\ n = length s.
Proof.
  intros Hc Hp Hb Hn. assert (exists s, 0 ∉ s /\ (length s <= VFS_MAX_PATH_LENGTH)%nat /\ b = buf s) as (s & H0 & Hl & ->).
  { unfold whole_path in Hb. change zero_path with (buf []) in Hb. case_bool_decide.
    - apply (bcopy_buf_some []) in Hb as [-> Hl]; [|simpl; lia]. by exists path.
    - destruct (bcopy (buf []) 0 cwd) as [b1|] eqn:E1; [|done]. cbn [mbind option_bind] in Hb.
      apply (bcopy_buf_some []) in E1 as [-> Hl1]; [|simpl; lia]. cbn [app] in *.
      destruct (bstrlen (buf cwd)) as [n1|] eqn:En1; [|done]. cbn [mbind option_bind] in Hb.
      apply bstrlen_some in En1 as [_ ->]; [|done..].
      assert (exists s, 0 ∉ s /\ (length s <= VFS_MAX_PATH_LENGTH)%nat /\
        (if bool_decide (cwd = [slash]) then Some (buf cwd) else bcopy (buf cwd) (length cwd) [slash]) = Some (buf s)) as (s & Hs0 & Hs & Es).
      { case_bool_decide; [by exists cwd|]. destruct (bcopy (buf cwd) (length cwd) [slash]) as [b2|] eqn:E2; [|done].
        apply bcopy_buf_some in E2 as [-> Hl2]; [|done]. exists (cwd ++ [slash]). split_and!; [|done|done].
        rewrite not_elem_of_app, list_elem_of_singleton. by split. }
      rewrite Es in Hb. cbn [mbind option_bind] in Hb. destruct (bstrlen (buf s)) as [n2|] eqn:En2; [|done].
      cbn [mbind option_bind] in Hb. apply bstrlen_some in En2 as [_ ->]; [|done..].
      apply bcopy_buf_some in Hb as [-> Hl2]; [|done]. exists (s ++ path). split_and!; [|done|done].
      rewrite not_elem_of_app. by split. }
  apply bstrlen_some in Hn as [Hf ->]; [|done..]. by exists s.
Qed.

Lemma resolve_path_wf st cwd path st' r :
  tree_wf st -> 0 ∉ cwd -> 0 ∉ path -> vfs_resolve_path st cwd path = Some (st', r) ->
  tree_wf st' /\ grows st st' /\ forall c, r = Some c -> is_Some (dentries st' !! c).
Proof.
  intros Hw Hc Hp. unfold vfs_resolve_path. destruct (vfs_root st) as [sb|]; [|by intros [= <- <-]].
  destruct (sbs st !! sb) as [s|] eqn:Hs; [|done]. cbn [mbind option_bind].
  case_bool_decide; [intros [= <- <-]; split_and!; [done|done|]; intros c [= <-]; apply (tw_sb _ Hw _ _ Hs)|].
  destruct (whole_path cwd path) as [b|] eqn:Eb; [|done]. cbn [mbind option_bind].
  destruct (bstrlen b) as [n|] eqn:En; [|done]. cbn [mbind option_bind].
  destruct (whole_path_some _ _ _ _ Hc Hp Eb En) as (a & Ha & -> & ->).
  unfold buf at 1. rewrite take_app_length. change zero_path with (buf []).
  pose proof (bcopy_buf [] a) as Hcp. cbn [length app Nat.add] in Hcp. destruct Ha as [Ha0 Ha].
  rewrite Hcp by lia. cbn [mbind option_bind]. intros H1. by eapply resolve_loop_wf in H1.
Qed.

(** *** Mounting *)

Lemma make_sb_wf st f st' r :
  tree_wf st -> make_sb st f = (st', r) ->
  tree_wf st' /\ grows st st' /\ forall sb, r = Some sb -> brk st < sb + 1 /\
    sbs st' !! sb = Some (SuperBlock (sb + 1)) /\
    exists d, dentries st' !! (sb + 1) = Some d /\ d_parent d = Some (sb + 1).
Proof.
  intros Hw. unfold make_sb. destruct (fs_mksb f (world st)) as [w [[j n]|]] eqn:Em.
  2:{ intros [= <- <-]. destruct (with_world_wf st w Hw). by split_and!. }
  intros [= <- <-]. set (b := brk st).
  assert (forall c d, dentries st !! c = Some d -> c < b) as Hdb by (intros c d H; apply (tw_dentry _ Hw) in H; unfold b; lia).
  assert (forall c i, inodes st !! c = Some i -> c < b) as Hib by (intros c i H; apply (tw_inode _ Hw) in H; unfold b; lia).
  assert (forall c s, sbs st !! c = Some s -> c < b) as Hsb by (intros c s H; apply (tw_sb _ Hw) in H; unfold b; lia).
  assert (forall c, is_Some (dentries st !! c) -> is_Some (<[b + 1:=Dentry n (Some (b + 2)) (Some (b + 1)) []]> (dentries st) !! c)) as Hd1
    by (intros c H; rewrite lookup_insert; by case_decide).
  assert (forall c, is_Some (sbs st !! c) -> is_Some (<[b:=SuperBlock (b + 1)]> (sbs st) !! c)) as Hs1
    by (intros c H; rewrite lookup_insert; by case_decide).
  pose proof (tw_brk _ Hw) as Hb0. fold b in Hb0. split_and!.
  - constructor; cbn [dentries inodes sbs brk vfs_root].
    + lia.
    + intros c d. rewrite lookup_insert. case_decide as Ex; [intros [= <-]|intros H].
      * split; [lia|]. exists (b + 2), j. split; [done|]. apply lookup_insert_eq.
      * destruct (tw_dentry _ Hw _ _ H) as [? (ino & i & ? & Hi)]. split; [unfold b; lia|].
        exists ino, i. split; [done|]. rewrite lookup_insert_ne; [done|]. apply Hib in Hi. lia.
    + intros ino i. rewrite lookup_insert. case_decide as Ex; [intros [= <-]|intros H].
      * split; [lia|]. intros sb H. by rewrite (mksb_unmounted _ _ _ _ _ Em) in H.
      * destruct (tw_inode _ Hw _ _ H) as [? ?]. split; [unfold b in *; lia|auto].
    + intros sb s. rewrite lookup_insert. case_decide as Ex; [intros [= <-]; split; [lia|]; cbn [s_root]; by rewrite lookup_insert_eq|].
      intros H. destruct (tw_sb _ Hw _ _ H) as [? ?]. split; [unfold b in *; lia|auto].
    + intros sb H. apply Hs1, (tw_root _ Hw _ H).
    + intros p dp c. rewrite lookup_insert. case_decide as Ex; [intros [= <-] H; by apply not_elem_of_nil in H|].
      intros Hp Hc. destruct (tw_child _ Hw _ _ _ Hp Hc) as (dc & Hdc & ?). exists dc.
      rewrite lookup_insert_ne; [done|]. apply Hdb in Hdc. lia.
    + intros p dp c c' dc dc'. rewrite lookup_insert. case_decide as Ex; [intros [= <-] H; by apply not_elem_of_nil in H|].
      intros Hp Hc Hc'. destruct (tw_child _ Hw _ _ _ Hp Hc) as (? & H1%Hdb & _).
      destruct (tw_child _ Hw _ _ _ Hp Hc') as (? & H2%Hdb & _).
      rewrite !lookup_insert_ne by lia. by apply (tw_names _ Hw p dp).
    + intros c d. rewrite lookup_insert. case_decide as E; [intros [= <-]; subst c|intros H].
      * eexists (b + 1), _. split_and!; [done|apply lookup_insert_eq|lia|]. left. exists b, (SuperBlock (b + 1)).
        split; [apply lookup_insert_eq|done].
      * destruct (tw_parent _ Hw _ _ H) as (p & dp & ? & Hp & ? & Hr). exists p, dp. split_and!; [done| |done|].
        { rewrite lookup_insert_ne; [done|]. apply Hdb in Hp. lia. }
        destruct Hr as [(sb & s & Hs & <-)|?]; [left|by right]. exists sb, s. split; [|done].
        cbn [sbs]. rewrite lookup_insert_ne; [done|]. apply Hsb in Hs. lia.
  - constructor; cbn [dentries inodes brk files open_files]; try done; [|unfold b; lia].
    intros c H. rewrite lookup_insert. by case_decide.
  - intros sb [= <-]. cbn [sbs dentries]. split_and!; [unfold b; lia|by rewrite lookup_insert_eq|].
    eexists. split; [by rewrite lookup_insert_eq|done].
Qed.

Lemma files_tree_wf st b h fs os : tree_wf st -> brk st <= b -> tree_wf (with_files st b h fs os).
Proof.
  intros Hw Hb. constructor; cbn [with_files dentries inodes sbs brk vfs_root]; try apply Hw.
  - pose proof (tw_brk _ Hw). lia.
  - intros c d H. destruct (tw_dentry _ Hw _ _ H). split; [lia|done].
  - intros c d H. destruct (tw_inode _ Hw _ _ H). split; [lia|done].
  - intros c d H. destruct (tw_sb _ Hw _ _ H). split; [lia|done].
Qed.

(** A store to an inode that keeps its mount point valid. *)
Lemma inode_tree_wf st w ino i i' :
  tree_wf st -> inodes st !! ino = Some i ->
  (forall sb, i_mountpoint i' = Some sb -> is_Some (sbs st !! sb)) ->
  let st' := with_tree st w (brk st) (dentries st) (<[ino := i']> (inodes st)) in tree_wf st' /\ grows st st'.
Proof.
  intros Hw Hi Hm. assert (forall x, is_Some (inodes st !! x) -> is_Some (<[ino := i']> (inodes st) !! x)) as Hx
    by (intros x H; rewrite lookup_insert; by case_decide).
  split; [|by constructor]. constructor; cbn [with_tree dentries inodes sbs brk vfs_root]; try apply Hw.
  - intros c d H. destruct (tw_dentry _ Hw _ _ H) as [? (x & j & E & Hj)]. split; [done|].
    destruct (Hx x ltac:(by eexists)) as [j' Hj']. eauto.
  - intros x j. rewrite lookup_insert. case_decide as E; [|by apply (tw_inode _ Hw)].
    intros [= <-]. subst x. split; [apply (tw_inode _ Hw _ _ Hi)|done].
Qed.

(** Hanging the root of a new super block below the entry it is mounted on. *)
Lemma set_parent_wf st c r dr :
  tree_wf st -> is_Some (dentries st !! c) -> dentries st !! r = Some dr -> d_parent dr = Some r -> is_root st r -> c <= r ->
  let st' := with_dentries st (<[r := set_parent dr c]> (dentries st)) in tree_wf st' /\ grows st st'.
Proof.
  intros Hw [dc Hc] Hr Hp Hroot Hle. set (ds := <[r := set_parent dr c]> (dentries st)).
  assert (forall x, is_Some (dentries st !! x) -> is_Some (ds !! x)) as Hx
    by (intros x H; unfold ds; rewrite lookup_insert; by case_decide).
  assert (forall x d, ds !! x = Some d -> exists d0, dentries st !! x = Some d0 /\ d_name d = d_name d0 /\
    d_inode d = d_inode d0 /\ d_subdirs d = d_subdirs d0 /\ (x = r /\ d_parent d = Some c \/ x <> r /\ d = d0)) as Hold.
  { intros x d. unfold ds. rewrite lookup_insert. case_decide as E; [intros [= <-]; subst x; exists dr|intros H; exists d]; naive_solver. }
  assert (forall p dp, dentries st !! p = Some dp -> r ∉ d_subdirs dp) as Hnr.
  { intros p dp Hdp Hin. destruct (tw_child _ Hw _ _ _ Hdp Hin) as (d & Hd & Hpd & Hlt & _). simplify_eq. lia. }
  split; [|by constructor]. constructor; cbn [with_dentries with_tree dentries inodes sbs brk vfs_root]; fold ds; try apply Hw.
  - intros x d (d0 & H0 & _ & -> & _)%Hold. by apply (tw_dentry _ Hw).
  - intros sb s H. destruct (tw_sb _ Hw _ _ H). auto.
  - intros p dp x (dp0 & Hdp0 & _ & _ & -> & _)%Hold Hin.
    destruct (tw_child _ Hw _ _ _ Hdp0 Hin) as (d & Hd & ?). exists d. split; [|done].
    unfold ds. rewrite lookup_insert_ne; [done|]. intros <-. by apply (Hnr _ _ Hdp0).
  - intros p dp x y dx dy (dp0 & Hdp0 & _ & _ & -> & _)%Hold Hin Hin' (d1 & H1 & -> & _)%Hold (d2 & H2 & -> & _)%Hold.
    by apply (tw_names _ Hw p dp0).
  - intros x d (d0 & H0 & _ & _ & _ & [[-> Hpar]|[Hne ->]])%Hold.
    + destruct (Hx c ltac:(by eexists)) as [dc' Hdc']. exists c, dc'. by split_and!; [..|left].
    + destruct (tw_parent _ Hw _ _ H0) as (p & dp & ? & Hdp & ? & Hor).
      destruct (Hx p ltac:(by eexists)) as [dp' Hdp']. exists p, dp'. split_and!; [done..|].
      destruct Hor as [?|Hin]; [by left|right]. by destruct (Hold _ _ Hdp') as (dp0 & Hdp0 & _ & _ & -> & _); simplify_eq.
Qed.

Lemma mount_fs_wf st cwd path fs st' r :
  tree_wf st -> 0 ∉ cwd -> 0 ∉ path -> vfs_mount_fs st cwd path fs = Some (st', r) ->
  tree_wf st' /\ grows st st'.
Proof.
  intros Hw Hc Hp. unfold vfs_mount_fs. destruct (vfs_get_fs st fs) as [f|]; [|done]. cbn [mbind option_bind].
  case_bool_decide.
  - destruct (make_sb st f) as [st1 sb] eqn:Em. intros [= <- <-].
    destruct (make_sb_wf _ _ _ _ Hw Em) as (Hw1 & Hg1 & Hsb). split; [|by destruct Hg1; constructor].
    constructor; cbn [with_root dentries inodes sbs brk vfs_root]; try apply Hw1.
    intros x ->. destruct (Hsb x eq_refl) as (_ & -> & _). done.
  - destruct (vfs_resolve_path st cwd path) as [[st1 q]|] eqn:Er; [|done]. cbn [mbind option_bind].
    apply resolve_path_wf in Er as (Hw1 & Hg1 & Hq); [|done..]. destruct q as [c|]; [|by intros [= <- <-]].
    destruct (make_sb st1 f) as [st2 osb] eqn:Em. destruct (make_sb_wf _ _ _ _ Hw1 Em) as (Hw2 & Hg2 & Hsb).
    pose proof (gw_dentries _ _ Hg2 c (Hq c eq_refl)) as Hc2.
    destruct (Hq c eq_refl) as [d1 Hd1]. pose proof (tw_dentry _ Hw1 _ _ Hd1) as [Hcb _].
    destruct (dentries st2 !! c) as [d|] eqn:Hd; [clear Hc2; assert (is_Some (dentries st2 !! c)) as Hc2 by (by eexists)|done].
    cbn [mbind option_bind]. destruct (d_inode d) as [ino|]; [|done]. cbn [mbind option_bind].
    destruct (inodes st2 !! ino) as [i|] eqn:Hi; [|done]. cbn [mbind option_bind].
    destruct osb as [sb|]; [|done]. cbn [mbind option_bind].
    destruct (Hsb sb eq_refl) as (Hlt & Hs & dr & Hdr & Hpr).
    destruct (inode_tree_wf st2 (world st2) ino i (set_mountpoint i (Some sb)) Hw2 Hi) as [Hw3 Hg3].
    { intros x [= <-]. by rewrite Hs. }
    cbn [with_inodes with_tree sbs dentries]. rewrite Hs. cbn [mbind option_bind s_root]. rewrite Hdr. cbn [mbind option_bind].
    intros [= <- <-]. destruct (set_parent_wf _ c (sb + 1) dr Hw3 Hc2 Hdr Hpr) as [Hw4 Hg4]; [|lia|].
    { exists sb, (SuperBlock (sb + 1)). done. }
    split; [exact Hw4|]. etrans; [exact Hg1|]. etrans; [exact Hg2|]. etrans; [exact Hg3|exact Hg4].
Qed.

(** *** Open files *)

Definition file_ok st (a : Z) (fd : vfs_file_t F P) : Prop :=
  0 < a < brk st /\ is_Some (dentries st !! f_dentry fd) /\
  exists ino, f_inode fd = Some ino /\ is_Some (inodes st !! ino).

(** Every open file of a task is a file with an entry and an inode, and is open once. *)
Record vfs_wf st : Prop := {
  vw_tree : tree_wf st;
  vw_open : forall t l a, open_files st !! t = Some l -> a ∈ l -> is_Some (files st !! a);
  vw_nodup : forall t l, open_files st !! t = Some l -> NoDup l;
  vw_apart : forall t t' l l' a, open_files st !! t = Some l -> open_files st !! t' = Some l' -> a ∈ l -> a ∈ l' -> t = t';
  vw_file : forall a fd, files st !! a = Some fd -> file_ok st a fd;
}.

Lemma file_ok_grows st st' a fd : grows st st' -> file_ok st a fd -> file_ok st' a fd.
Proof.
  intros [] (H1 & H2 & ino & H3 & H4). split_and!; [lia|lia|auto|]. exists ino. auto.
Qed.

Lemma wf_grows st st' : vfs_wf st -> tree_wf st' -> grows st st' -> vfs_wf st'.
Proof.
  intros [] Hw Hg. constructor; rewrite ?(gw_files _ _ Hg), ?(gw_open _ _ Hg); try done.
  intros a fd H. eapply file_ok_grows; eauto.
Qed.

(** Storing a file that is in order. *)
Lemma put_file_wf st b h a fd :
  vfs_wf st -> brk st <= b -> file_ok (with_files st b h (files st) (open_files st)) a fd ->
  vfs_wf (with_files st b h (<[a := fd]> (files st)) (open_files st)).
Proof.
  intros [Ht Ho Hn Ha Hf] Hb Hok. constructor; cbn [with_files files open_files]; try done.
  - by apply files_tree_wf.
  - intros t l x Hl Hx. rewrite lookup_insert. case_decide; [done|eauto].
  - intros x fd'. rewrite lookup_insert. case_decide as E; [intros [= <-]; by subst x|].
    intros H. destruct (Hf _ _ H) as (H1 & H2 & H3). split_and!; [cbn; lia..|done|done].
Qed.

Lemma file_op_wf {A} st a fd (op : W -> vfs_inode_t F P -> vfs_file_t F P -> option (W * vfs_inode_t F P * vfs_file_t F P * A)) st' r :
  (forall w i fd w' i' fd' r, op w i fd = Some (w', i', fd', r) -> keeps i fd i' fd') ->
  vfs_wf st -> file_ok st a fd -> file_op st a fd op = Some (st', r) ->
  vfs_wf st' /\ brk st' = brk st /\ open_files st' = open_files st /\ is_Some (files st' !! a).
Proof.
  intros Hop Hw Hok. unfold file_op. destruct (f_inode fd) as [ino|] eqn:Ei; [|done]. cbn [mbind option_bind].
  destruct (inodes st !! ino) as [i|] eqn:Hi; [|done]. cbn [mbind option_bind].
  destruct (op (world st) i fd) as [[[[w i'] fd'] r']|] eqn:E; [|done]. cbn [mbind option_bind]. intros [= <- <-].
  apply Hop in E as (Hm & _ & Hfi & Hfd & _).
  destruct (inode_tree_wf st w ino i i' (vw_tree _ Hw) Hi) as [Hw1 Hg1].
  { rewrite Hm. apply (tw_inode _ (vw_tree _ Hw) _ _ Hi). }
  assert (file_ok (with_tree st w (brk st) (dentries st) (<[ino:=i']> (inodes st))) a fd') as Hok'.
  { apply (file_ok_grows _ _ _ _ Hg1) in Hok. destruct Hok as (H1 & H2 & H3). rewrite <- Hfi in H3. rewrite <- Hfd in H2. done. }
  split_and!; [|done|done|cbn; by rewrite lookup_insert_eq].
  apply (put_file_wf _ (brk st) (vfs_next_handle_count st) a fd' (wf_grows _ _ Hw Hw1 Hg1)); [cbn; lia|exact Hok'].
Qed.

Lemma find_file_spec (fs : gmap Z (vfs_file_t F P)) l fh con :
  (forall a, a ∈ l -> is_Some (fs !! a)) ->
  match find_file fs l fh con with
  | Some (Some (a, fd)) => a ∈ l /\ fs !! a = Some fd /\ f_handle fd = fh
  | Some None => True
  | None => False
  end.
Proof.
  induction l as [|a l IH]; intros Hl; simpl; [done|]. destruct (Hl a ltac:(left)) as [fd Hfd].
  rewrite Hfd. cbn [mbind option_bind]. destruct (_ && _) eqn:E.
  - apply andb_true_iff in E as [E%Z.eqb_eq _]. split_and!; [left|done|done].
  - specialize (IH (fun b Hb => Hl b ltac:(by right))). destruct (find_file fs l fh con) as [[[b fd']|]|]; [|done..].
    destruct IH as (? & ? & ?). split_and!; [by right|done|done].
Qed.

(** A handle of a task is found or not, and what is found is a file of the task. *)
Lemma wf_find_file st t fh con :
  vfs_wf st ->
  match find_file (files st) (default [] (open_files st !! t)) fh con with
  | Some (Some (a, fd)) => exists l, open_files st !! t = Some l /\ a ∈ l /\ files st !! a = Some fd /\ f_handle fd = fh
  | Some None => True
  | None => False
  end.
Proof.
  intros Hw. pose proof (find_file_spec (files st) (default [] (open_files st !! t)) fh con) as H.
  destruct (open_files st !! t) as [l|] eqn:El; [|done]. cbn [default] in *.
  specialize (H (fun a Ha => vw_open _ Hw _ _ a El Ha)).
  destruct (find_file _ _ _ _) as [[[a fd]|]|]; [|done..]. exists l. tauto.
Qed.

Lemma add_open_wf st h t a :
  vfs_wf st -> is_Some (files st !! a) -> (forall t l, open_files st !! t = Some l -> a ∉ l) ->
  vfs_wf (with_files st (brk st) h (files st) (<[t := l_add_prev a (default [] (open_files st !! t))]> (open_files st))).
Proof.
  intros Hw Ha Hn. set (l0 := default [] (open_files st !! t)).
  assert (forall x, x ∈ l0 -> exists l, open_files st !! t = Some l /\ x ∈ l) as H0.
  { unfold l0. intros x Hx. destruct (open_files st !! t); [by eexists|by apply not_elem_of_nil in Hx]. }
  assert (forall t' l, <[t := l_add_prev a l0]> (open_files st) !! t' = Some l ->
    (forall x, x ∈ l -> (x = a /\ t' = t) \/ exists l', open_files st !! t' = Some l' /\ x ∈ l')) as Hl.
  { intros t' l. rewrite lookup_insert. case_decide as E; [intros [= <-]; subst t'|intros H x Hx; right; eauto].
    unfold l_add_prev. intros x [Hx|Hx%list_elem_of_singleton]%elem_of_app; [right; auto|left; by subst]. }
  destruct Hw as [Ht Ho Hnd Hap Hf]. constructor; cbn [with_files files open_files].
  - by apply files_tree_wf.
  - intros t' l x H Hx. destruct (Hl _ _ H x Hx) as [[-> _]|(l' & H' & Hx')]; eauto.
  - intros t' l. rewrite lookup_insert. case_decide as E; [intros [= <-]|apply Hnd].
    unfold l_add_prev, l0. apply NoDup_app. split_and!; [|intros x Hx ->%list_elem_of_singleton|apply NoDup_singleton].
    + destruct (open_files st !! t) eqn:El; [by eapply Hnd|constructor].
    + destruct (H0 a Hx) as (l & El & Hin). by apply (Hn t l).
  - intros t1 t2 l1 l2 x H1 H2 Hx1 Hx2.
    destruct (Hl _ _ H1 x Hx1) as [[E1 E1']|(l1' & H1' & Hx1')], (Hl _ _ H2 x Hx2) as [[E2 E2']|(l2' & H2' & Hx2')].
    + congruence.
    + subst x. by destruct (Hn _ _ H2').
    + subst x. by destruct (Hn _ _ H1').
    + by eapply Hap.
  - exact Hf.
Qed.

Lemma fresh_not_open st t l : vfs_wf st -> open_files st !! t = Some l -> brk st ∉ l.
Proof. intros Hw Hl Hin. destruct (vw_open _ Hw _ _ _ Hl Hin) as [fd Hfd]. apply (vw_file _ Hw) in Hfd as [? _]. lia. Qed.

Lemma open_dentry_wf st t fh c mode con st' :
  vfs_wf st -> open_dentry st t fh c mode con = Some st' -> vfs_wf st'.
Proof.
  intros Hw. unfold open_dentry. destruct (dentries st !! c) as [d|]; [|done]. cbn [mbind option_bind].
  destruct (d_inode d) as [ino|]; [|done]. cbn [mbind option_bind]. destruct (inodes st !! ino) as [i|]; [|done].
  cbn [mbind option_bind]. destruct (match i_mountpoint i with Some sb => _ | None => Some c end) as [c'|]; [|done].
  cbn [mbind option_bind]. destruct (dentries st !! c') as [d'|] eqn:Hd'; [|done]. cbn [mbind option_bind].
  destruct (d_inode d') as [ino'|]; [|done]. cbn [mbind option_bind].
  destruct (inodes st !! ino') as [i'|] eqn:Hi'; [|done]. cbn [mbind option_bind].
  destruct (i_fops i') as [f|]; [|done]. cbn [mbind option_bind]. set (a := brk st). set (fd := File _ _ _ _ _ _ _ _ _).
  pose proof (tw_brk _ (vw_tree _ Hw)) as Hb. fold a in Hb.
  set (st1 := with_files st (a + 1) (vfs_next_handle_count st) (<[a := fd]> (files st)) (open_files st)).
  assert (file_ok st1 a fd) as Hok.
  { split_and!; [done|cbn; lia|by eexists|]. exists ino'. split; [done|by eexists]. }
  assert (vfs_wf st1) as Hw1 by (apply put_file_wf; [done|unfold a; lia|exact Hok]).
  destruct (file_op st1 a fd (fs_open f)) as [[st2 r]|] eqn:Eo; [|done]. cbn [mbind option_bind]. intros [= <-].
  eapply file_op_wf in Eo as (Hw2 & Hb2 & Ho2 & Ha2); [|apply open_keeps|done|done].
  apply add_open_wf; [done|done|]. rewrite Ho2. intros t' l Hl. by eapply fresh_not_open.
Qed.

Lemma close_file_wf st t l a fd st' r :
  vfs_wf st -> open_files st !! t = Some l -> a ∈ l -> file_ok st a fd -> close_file st t a fd = Some (st', r) -> vfs_wf st'.
Proof.
  intros Hw Hl Ha Hok E. unfold close_file in E.
  assert (exists st1, vfs_wf st1 /\ open_files st1 = open_files st /\
    st' = with_files st1 (brk st1) (vfs_next_handle_count st1) (delete a (files st1))
      (<[t := filter (fun b => b <> a) (default [] (open_files st1 !! t))]> (open_files st1))) as (st1 & Hw1 & Ho1 & ->).
  { destruct (f_ops fd) as [f|].
    - destruct (file_op st a fd (fs_close f)) as [[st1 r1]|] eqn:Ec; [|done]. cbn [mbind option_bind] in E. injection E as <- <-.
      eapply file_op_wf in Ec as (? & _ & ? & _); [|apply close_keeps|done|done]. by exists st1.
    - cbn [mbind option_bind] in E. injection E as <- <-. by exists st. }
  rewrite Ho1, Hl. cbn [default]. rewrite <- Ho1 in Hl. destruct Hw1 as [Ht Ho Hnd Hap Hf].
  assert (forall t' l', <[t := filter (fun b => b <> a) l]> (open_files st) !! t' = Some l' ->
    exists l0, open_files st1 !! t' = Some l0 /\ forall x, x ∈ l' -> x ∈ l0 /\ x <> a) as Hsub.
  { rewrite <- Ho1. intros t' l'. rewrite lookup_insert. case_decide as E'; [intros [= <-]; subst t'; exists l|intros H; exists l'].
    - split; [done|]. intros x. rewrite list_elem_of_filter; tauto.
    - split; [done|]. intros x Hx. split; [done|]. intros ->. apply E'. by eapply Hap. }
  constructor; cbn [with_files files open_files].
  - by apply files_tree_wf.
  - intros t' l' x (l0 & Hl0 & Hin)%Hsub Hx. destruct (Hin x Hx) as [Hx0 Hne]. rewrite lookup_delete_ne by done. by eapply Ho.
  - intros t' l'. rewrite lookup_insert. case_decide; [intros [= <-]; apply NoDup_filter; by eapply Hnd|].
    rewrite <- Ho1. apply Hnd.
  - intros t1 t2 l1 l2 x (l1' & H1 & Hi1)%Hsub (l2' & H2 & Hi2)%Hsub Hx1 Hx2.
    eapply Hap; [exact H1|exact H2|by apply Hi1|by apply Hi2].
  - intros x fd'. rewrite lookup_delete_Some. intros [_ H]. by apply Hf.
Qed.

(** The operations on a handle: what they do with a file of the task. *)
Lemma handle_op_wf {A} st t fh (body : Z -> vfs_file_t F P -> option (vfs_state (F := F) (W := W) (P := P) * A)) (d : A) st' r :
  (forall a fd st' r, file_ok st a fd -> body a fd = Some (st', r) -> vfs_wf st') -> vfs_wf st ->
  (x ← task_file st t fh;
   match (x : option (Z * vfs_file_t F P)) with Some (a, fd) => body a fd | None => Some (st, d) end) = Some (st', r) ->
  vfs_wf st'.
Proof.
  intros Hb Hw. pose proof (wf_find_file st t fh false Hw) as H. unfold task_file.
  destruct (find_file _ _ _ _) as [[[a fd]|]|]; [|by intros [= <- <-]|done]. cbn [mbind option_bind].
  destruct H as (l & Hl & Ha & Hfd & _). apply Hb. by apply (vw_file _ Hw).
Qed.

Lemma close_wf st t fh st' r : vfs_wf st -> vfs_close st t fh = Some (st', r) -> vfs_wf st'.
Proof.
  intros Hw. unfold vfs_close, task_file. pose proof (wf_find_file st t fh false Hw) as H.
  destruct (find_file _ _ _ _) as [[[a fd]|]|]; [|by intros [= <- <-]|done]. cbn [mbind option_bind].
  destruct H as (l & Hl & Ha & Hfd & _). set (fd' := set_count fd _).
  set (st1 := with_files st (brk st) (vfs_next_handle_count st) (<[a := fd']> (files st)) (open_files st)).
  assert (file_ok st1 a fd') as Hok by exact (vw_file _ Hw _ _ Hfd).
  assert (vfs_wf st1) as Hw1 by (apply put_file_wf; [done|lia|exact Hok]).
  case_match; [by intros [= <- <-]|]. by apply close_file_wf with l.
Qed.

Lemma close_console_wf st t fh st' r : vfs_wf st -> vfs_close_console st t fh = Some (st', r) -> vfs_wf st'.
Proof.
  intros Hw. unfold vfs_close_console. pose proof (wf_find_file st t fh true Hw) as H.
  destruct (find_file _ _ _ _) as [[[a fd]|]|]; [|by intros [= <- <-]|done]. cbn [mbind option_bind].
  destruct H as (l & Hl & Ha & Hfd & _). apply close_file_wf with l; [done..|]. exact (vw_file _ Hw _ _ Hfd).
Qed.

Lemma copy_files_wf dest src : forall st st',
  vfs_wf st -> copy_files st dest src = Some st' -> vfs_wf st'.
Proof.
  induction src as [|a src IH]; intros st st' Hw; cbn [copy_files]; [by intros [= <-]|].
  destruct (files st !! a) as [fd|] eqn:Hfd; [|done]. cbn [mbind option_bind].
  destruct (is_console fd); [by apply IH|]. set (fd' := set_count fd _). set (b := brk st).
  pose proof (vw_file _ Hw _ _ Hfd) as (Ha & Hd & Hi). pose proof (tw_brk _ (vw_tree _ Hw)) as Hb. fold b in Ha, Hb.
  apply IH.
  set (st1 := with_files st (brk st) (vfs_next_handle_count st) (<[a := fd']> (files st)) (open_files st)).
  assert (vfs_wf st1) as Hw1 by (apply put_file_wf; [done|lia|exact (vw_file _ Hw _ _ Hfd)]).
  set (st2 := with_files st1 (b + 1) (vfs_next_handle_count st) (<[b := set_pdata fd' None]> (files st1)) (open_files st)).
  assert (vfs_wf st2) as Hw2.
  { apply (put_file_wf st1 (b + 1)); [done|unfold b; cbn; lia|]. split_and!; [cbn; lia|cbn; lia|done|done]. }
  apply (add_open_wf st2 (vfs_next_handle_count st) dest b Hw2); [by exists (set_pdata fd' None); apply lookup_insert_eq|].
  intros t l Hl. exact (fresh_not_open st t l Hw Hl).
Qed.

(** The operations, as any sequence of tasks may call them. *)
Inductive vfs_step : vfs_state (F := F) (W := W) (P := P) -> vfs_state (F := F) (W := W) (P := P) -> Prop :=
  | vs_register st n f : vfs_step st (vfs_register_fs st n f)
  | vs_mount st cwd path fs st' r :
      0 ∉ cwd -> 0 ∉ path -> vfs_mount_fs st cwd path fs = Some (st', r) -> vfs_step st st'
  | vs_open st cwd t path mode st' r :
      0 ∉ cwd -> 0 ∉ path -> vfs_open st cwd t path mode = Some (st', r) -> vfs_step st st'
  | vs_open_console st cwd t path fh st' r :
      0 ∉ cwd -> 0 ∉ path -> vfs_open_console st cwd t path fh = Some (st', r) -> vfs_step st st'
  | vs_close st t fh st' r : vfs_close st t fh = Some (st', r) -> vfs_step st st'
  | vs_close_console st t fh st' r : vfs_close_console st t fh = Some (st', r) -> vfs_step st st'
  | vs_read st t fh len st' r : vfs_read st t fh len = Some (st', r) -> vfs_step st st'
  | vs_write st t fh b st' r : vfs_write st t fh b = Some (st', r) -> vfs_step st st'
  | vs_lseek st t fh o wh st' r : vfs_lseek st t fh o wh = Some (st', r) -> vfs_step st st'
  | vs_iterate st t fh st' r : vfs_iterate st t fh = Some (st', r) -> vfs_step st st'
  | vs_copy st dest src st' : vfs_copy st dest src = Some st' -> vfs_step st st'.

Lemma iterate_wf st t fh st' r : vfs_wf st -> vfs_iterate st t fh = Some (st', r) -> vfs_wf st'.
Proof.
  intros Hw. apply (handle_op_wf st t fh); [|done]. intros a fd st1 r1 Hok.
  destruct (f_ops fd) as [f|]; cbn [mbind option_bind]; [|by intros [= <- <-]].
  destruct (fs_iterate f) as [op|] eqn:Eo; [|by intros [= <- <-]].
  destruct (f_inode fd) as [ino|]; [|by intros [= <- <-]]. destruct (inodes st !! ino); [|done]. cbn [mbind option_bind].
  case_match; [|by intros [= <- <-]]. destruct (file_op st a fd op) as [[st2 [n es]]|] eqn:Ef; [|done].
  cbn [mbind option_bind]. intros [= <- <-].
  eapply file_op_wf in Ef as (? & _); [done| |done|done]. intros; by eapply iterate_keeps.
Qed.

Lemma handle_count_wf st h : vfs_wf st -> vfs_wf (with_files st (brk st) h (files st) (open_files st)).
Proof. intros [? ? ? ? Hf]. constructor; [by apply files_tree_wf|done..|exact Hf]. Qed.

Lemma step_wf st st' : vfs_step st st' -> vfs_wf st -> vfs_wf st'.
Proof.
  intros Hst Hw. destruct Hst as [st n f|st cwd path fs st' r Hc Hp E|st cwd t path mode st' r Hc Hp E
    |st cwd t path fh st' r Hc Hp E|st t fh st' r E|st t fh st' r E|st t fh len st' r E|st t fh b st' r E
    |st t fh o wh st' r E|st t fh st' r E|st dest src st' E].
  - destruct Hw as [[] ? ? ? Hf]. by constructor.
  - apply mount_fs_wf in E as [? ?]; [by eapply wf_grows|apply Hw|done..].
  - unfold vfs_open in E. destruct (vfs_resolve_path st cwd path) as [[st1 q]|] eqn:Er; [|done]. cbn [mbind option_bind] in E.
    apply resolve_path_wf in Er as (Hw1 & Hg1 & _); [|apply Hw|done..].
    pose proof (wf_grows _ _ Hw Hw1 Hg1) as Hw2. destruct q as [c|]; [|by injection E as <- <-].
    destruct (open_dentry _ t _ c mode false) as [st2|] eqn:Eo; [|done]. cbn [mbind option_bind] in E. injection E as <- <-.
    eapply open_dentry_wf; [|exact Eo]. by apply handle_count_wf.
  - unfold vfs_open_console in E. destruct (vfs_resolve_path st cwd path) as [[st1 q]|] eqn:Er; [|done]. cbn [mbind option_bind] in E.
    apply resolve_path_wf in Er as (Hw1 & Hg1 & _); [|apply Hw|done..].
    pose proof (wf_grows _ _ Hw Hw1 Hg1) as Hw2. destruct q as [c|]; [|by injection E as <- <-].
    destruct (open_dentry _ t _ c _ true) as [st2|] eqn:Eo; [|done]. cbn [mbind option_bind] in E. injection E as <- <-.
    by eapply open_dentry_wf.
  - by eapply close_wf.
  - by eapply close_console_wf.
  - eapply (handle_op_wf st t fh (fun a fd => match f_ops fd with
      | Some f => file_op st a fd (fun w i fd => fs_read f w i fd len) | None => Some (st, (0, [])) end)); [|done|exact E].
    intros a fd st1 r1 Hok E1. destruct (f_ops fd); [|by injection E1 as <- <-].
    eapply file_op_wf in E1 as (? & _); [done| |done|done]. intros; by eapply read_keeps.
  - eapply (handle_op_wf st t fh (fun a fd => match f_ops fd with
      | Some f => file_op st a fd (fun w i fd => fs_write f w i fd b) | None => Some (st, 0) end)); [|done|exact E].
    intros a fd st1 r1 Hok E1. destruct (f_ops fd); [|by injection E1 as <- <-].
    eapply file_op_wf in E1 as (? & _); [done| |done|done]. intros; by eapply write_keeps.
  - eapply (handle_op_wf st t fh (fun a fd => match f_ops fd ≫= fs_lseek with
      | Some op => file_op st a fd (fun w i fd => op w i fd o wh) | None => Some (st, 0) end)); [|done|exact E].
    intros a fd st1 r1 Hok E1. destruct (f_ops fd) as [f|]; cbn [mbind option_bind] in E1; [|by injection E1 as <- <-].
    destruct (fs_lseek f) eqn:El; [|by injection E1 as <- <-].
    eapply file_op_wf in E1 as (? & _); [done| |done|done]. intros; by eapply (lseek_keeps f).
  - by eapply iterate_wf.
  - by eapply copy_files_wf.
Qed.

Lemma run_keeps_wf w st : rtc vfs_step (vfs_init w) st -> vfs_wf st.
Proof.
  assert (vfs_wf (vfs_init w)) as H0 by (by constructor; [constructor|..]).
  intros Hrun. revert H0. induction Hrun as [|x y z Hs _ IH]; [done|]. intros Hx. apply IH. by eapply step_wf.
Qed.

(** C33. The virtual file system stays well formed.  From [vfs_init] on, after any sequence of
    registrations, mounts, opens, closes, reads, writes, seeks, listings and copies of open
    files by any tasks: every entry of the tree has an inode and is the only child of its
    name of an older parent or the root of a super block; mount points and open
    files refer to existing structures; and a handle of a task is found or not found,
    without a fault, and what is found is one file of that task alone. *)
Theorem vfs_run_wf w st :
  rtc vfs_step (vfs_init w) st ->
  vfs_wf st /\ forall t fh, exists r, task_file st t fh = Some r /\
    forall a fd, r = Some (a, fd) -> f_handle fd = fh /\
      forall t' l, open_files st !! t' = Some l -> a ∈ l -> t' = t.
Proof.
  intros Hrun. pose proof (run_keeps_wf w st Hrun) as Hw. split; [done|]. intros t fh. pose proof (wf_find_file st t fh false Hw) as H. unfold task_file.
  destruct (find_file _ _ _ _) as [x|]; [|done]. exists x. split; [done|]. intros a fd ->.
  destruct H as (l & Hl & Ha & _ & Hh). split; [done|]. intros t' l' Hl' Ha'. by eapply (vw_apart _ Hw).
Qed.

(** ** The path of an open file *)

(** The entry [c] is reached from [root] by the names, without crossing a mount. *)
Inductive plain st (root : Z) : Z -> list (list Z) -> Prop :=
  | plain_root : plain st root root []
  | plain_child p dp ns c dc :
      plain st root p ns -> dentries st !! p = Some dp -> c ∈ d_subdirs dp -> dentries st !! c = Some dc ->
      follow_mount st c = Some c -> plain st root c (ns ++ [d_name dc]).

(** The printed path. *)
Definition path_string (ns : list (list Z)) : list Z :=
  match ns with [] => [slash] | _ => ns ≫= cons slash end.

Lemma plain_order st root c ns :
  tree_wf st -> plain st root c ns -> root <= c /\ (ns <> [] -> root < c) /\ Forall good_name ns.
Proof.
  intros Hw Hp. induction Hp as [|p dp ns c dc Hp (IH1 & _ & IH2) Hdp Hin Hdc _]; [split_and!; [lia|done|constructor]|].
  destruct (tw_child _ Hw _ _ _ Hdp Hin) as (d & Hd & _ & Hlt & Hg). simplify_eq.
  split_and!; [lia|lia|]. apply Forall_app. by split; [|constructor].
Qed.

Lemma full_loop_spec st root c ns :
  tree_wf st -> plain st root c ns -> forall fuel full, (length ns < fuel)%nat ->
  (length (ns ≫= cons slash) + length full < VFS_MAX_PATH_LENGTH)%nat ->
  full_path_loop fuel st root c full = Some ((ns ≫= cons slash) ++ full).
Proof.
  intros Hw Hp. induction Hp as [|p dp ns c dc Hp IH Hdp Hin Hdc Hm]; intros [|fuel] full Hf Hl; [lia| |lia|].
  { cbn [full_path_loop]. by rewrite Z.eqb_refl. }
  destruct (plain_order st root c (ns ++ [d_name dc]) Hw) as (_ & Hlt & _); [by eapply plain_child|].
  specialize (Hlt ltac:(by destruct ns)). cbn [full_path_loop]. rewrite (proj2 (Z.eqb_neq c root)), Hdc by lia.
  destruct (tw_child _ Hw _ _ _ Hdp Hin) as (d & Hd & Hpar & Hpc & _). simplify_eq.
  rewrite bind_app, length_app in Hl. simpl in Hl. rewrite app_nil_r in Hl. rewrite length_app in Hf. simpl in Hf.
  cbn [mbind option_bind]. unfold prepend. rewrite (proj2 (Nat.ltb_lt _ _)) by lia. cbn [mbind option_bind].
  rewrite Hpar, (proj2 (Z.eqb_neq p c)) by lia. rewrite length_app, (proj2 (Nat.ltb_lt _ _)) by (simpl; lia).
  cbn [mbind option_bind]. rewrite IH by (rewrite ?length_app; simpl; rewrite ?length_app; lia).
  rewrite bind_app. simpl. by rewrite app_nil_r, <- !app_assoc.
Qed.

(** Splitting a printed path gives its names. *)
Lemma split_at_app n s : slash ∉ n -> split_at (n ++ slash :: s) = (n, Some s).
Proof.
  induction n as [|c n IH]; simpl; [done|]. intros [Hc Hn]%not_elem_of_cons.
  rewrite (proj2 (Z.eqb_neq c slash)) by done. by rewrite IH.
Qed.
Lemma split_at_all n : slash ∉ n -> split_at n = (n, None).
Proof.
  induction n as [|c n IH]; simpl; [done|]. intros [Hc Hn]%not_elem_of_cons.
  rewrite (proj2 (Z.eqb_neq c slash)) by done. by rewrite IH.
Qed.

Lemma names_first n s :
  n <> [] -> slash ∉ n ->
  let ns := n :: match split_at (n ++ s) with (_, Some r) => names r | (_, None) => [] end in
  (split_at (n ++ s)).1 = n -> names (n ++ s) = ns /\ names (slash :: n ++ s) = ns.
Proof.
  intros Hne Hs ns E. destruct n as [|c n]; [done|]. pose proof Hs as [Hc _]%not_elem_of_cons.
  rewrite names_step. cbn [app]. rewrite names_step. unfold unroot. change (slash =? slash) with true.
  rewrite (proj2 (Z.eqb_neq c slash)) by done. cbn iota. unfold ns. cbn [app] in E |- *.
  destruct (split_at (c :: n ++ s)) as [m [r|]]; simpl in E; by subst m.
Qed.

Lemma names_joined n ns :
  Forall good_name (n :: ns) -> names (n ++ (ns ≫= cons slash)) = n :: ns /\ names (slash :: n ++ (ns ≫= cons slash)) = n :: ns.
Proof.
  revert n. induction ns as [|m ns IH]; intros n [(Hne & Hs & _) Hns]%Forall_cons.
  - pose proof (names_first n [] Hne Hs) as H. simpl. rewrite app_nil_r, split_at_all in H by done.
    rewrite app_nil_r. by apply H.
  - pose proof (names_first n (slash :: m ++ (ns ≫= cons slash)) Hne Hs) as H. rewrite split_at_app in H by done.
    rewrite (proj1 (IH m Hns)) in H. by apply H.
Qed.

Lemma resolve_child st p dp c dc :
  tree_wf st -> dentries st !! p = Some dp -> c ∈ d_subdirs dp -> dentries st !! c = Some dc ->
  follow_mount st c = Some c -> resolve_name st (Some p) (d_name dc) = Some (st, Some c).
Proof.
  intros Hw Hp Hin Hc Hm. unfold resolve_name. cbn [mbind option_bind]. rewrite Hp. cbn [mbind option_bind].
  pose proof (wf_find_child st p dp (d_name dc) Hw Hp) as H.
  destruct (find_child _ _ _) as [[c'|]|]; [|by destruct (H c dc Hin Hc)|done]. cbn [mbind option_bind].
  destruct H as (Hin' & d' & Hd' & Hn). rewrite (tw_names _ Hw p dp c' c d' dc Hp Hin' Hin Hd' Hc Hn), Hm. done.
Qed.

Lemma walk_plain st root c ns :
  tree_wf st -> plain st root c ns -> forall ms,
  walk_names (ns ++ ms) st None (Some root) =
  match ns with [] => walk_names ms st None (Some root) | _ => walk_names ms st (Some c) (Some c) end.
Proof.
  intros Hw Hp. induction Hp as [|p dp ns c dc Hp IH Hdp Hin Hdc Hm]; intros ms; [done|].
  rewrite <- app_assoc, IH. cbn [app walk_names].
  destruct (tw_child _ Hw _ _ _ Hdp Hin) as (d & Hd & _ & _ & (_ & _ & _ & H1 & H2)). simplify_eq.
  rewrite !bool_decide_eq_false_2 by done.
  assert (ns = [] -> p = root) as Hroot by (intros ->; inversion Hp; [done|by destruct ns]).
  destruct ns as [|n ns]; cbn [app].
  - rewrite <- (Hroot eq_refl), (resolve_child st p dp c dc) by done. done.
  - by rewrite (resolve_child st p dp c dc).
Qed.

Lemma path_string_good ns : Forall good_name ns -> 0 ∉ path_string ns.
Proof.
  intros Hg. unfold path_string. destruct ns as [|n ns]; [intros H%list_elem_of_singleton; discriminate H|].
  intros (x & Hx & Hin)%list_elem_of_bind. rewrite Forall_forall in Hg. destruct (Hg x Hin) as (_ & _ & H0 & _).
  by apply elem_of_cons in Hx as [?|?].
Qed.

Lemma path_string_last n ns : Forall good_name (n :: ns) -> last (path_string (n :: ns)) <> Some slash.
Proof.
  intros Hg. unfold path_string. destruct (exists_last (l := n :: ns) ltac:(done)) as (l & m & El). rewrite El in Hg |- *.
  apply Forall_app in Hg as [_ [(Hne & Hsl & _) _]%Forall_cons]. rewrite bind_app. simpl. rewrite app_nil_r.
  rewrite last_app. destruct (last (slash :: m)) as [x|] eqn:Elast; [|by apply last_None in Elast].
  intros [= ->]. rewrite last_cons in Elast. destruct (last m) as [y|] eqn:Ey; [|by apply last_None in Ey].
  injection Elast as ->. apply last_Some_elem_of in Ey. done.
Qed.

(** The path that is printed for an entry, and that it leads back. *)
Lemma full_path_plain fuel st sb s c ns :
  tree_wf st -> vfs_root st = Some sb -> sbs st !! sb = Some s -> plain st (s_root s) c ns ->
  (length (path_string ns) < VFS_MAX_PATH_LENGTH)%nat -> (length ns < fuel)%nat ->
  full_path fuel st c = Some (path_string ns).
Proof.
  intros Hw Hr Hs Hp Hl Hf. destruct (plain_order _ _ _ _ Hw Hp) as (_ & Hlt & Hg).
  unfold full_path. rewrite Hr. cbn [mbind option_bind]. rewrite Hs. cbn [mbind option_bind]. destruct ns as [|n ns].
  - assert (c = s_root s) as -> by (inversion Hp; [done|by destruct ns]). rewrite Z.eqb_refl. unfold prepend.
    rewrite (proj2 (Nat.ltb_lt _ _)) by (simpl in *; lia). done.
  - rewrite (proj2 (Z.eqb_neq c _)) by (specialize (Hlt ltac:(done)); lia).
    rewrite (full_loop_spec st (s_root s) c (n :: ns) Hw Hp fuel [] Hf).
    2:{ change (path_string (n :: ns)) with ((n :: ns) ≫= cons slash) in Hl. change (length ([] : list Z)) with 0%nat. lia. }
    rewrite app_nil_r. cbn [mbind option_bind]. fold (path_string (n :: ns)).
    by rewrite bool_decide_eq_false_2, andb_false_r by by apply path_string_last.
Qed.

Lemma resolve_plain st sb s c ns cwd :
  tree_wf st -> vfs_root st = Some sb -> sbs st !! sb = Some s -> plain st (s_root s) c ns ->
  (2 * length (path_string ns) <= VFS_MAX_PATH_LENGTH)%nat -> 0 ∉ cwd ->
  vfs_resolve_path st cwd (path_string ns) = Some (st, Some c).
Proof.
  intros Hw Hr Hs Hp Hl Hcwd. destruct (plain_order _ _ _ _ Hw Hp) as (_ & Hlt & Hg).
  assert (path_string ns !! 0%nat = Some slash) as Hfirst by (by destruct ns). pose proof (path_string_good ns Hg) as H0.
  rewrite (resolve_path_walk st cwd (path_string ns) sb s) by (done || unfold abs_path; rewrite bool_decide_eq_true_2 by done; lia).
  destruct ns as [|n ns].
  - assert (c = s_root s) as -> by (inversion Hp; [done|by destruct ns]). done.
  - rewrite bool_decide_eq_false_2.
    2:{ apply Forall_cons in Hg as [(Hne & _) _]. unfold path_string. simpl. by destruct n. }
    unfold abs_path. rewrite bool_decide_eq_true_2 by done.
    change (path_string (n :: ns)) with (slash :: n ++ (ns ≫= cons slash)). rewrite (proj2 (names_joined n ns Hg)).
    rewrite <- (app_nil_r (n :: ns)). by rewrite (walk_plain st (s_root s) c (n :: ns) Hw Hp []).
Qed.

Lemma get_full_path_plain fuel st sb s t fh a fd ns len :
  vfs_wf st -> vfs_root st = Some sb -> sbs st !! sb = Some s ->
  task_file st t fh = Some (Some (a, fd)) -> plain st (s_root s) (f_dentry fd) ns ->
  (length (path_string ns) < VFS_MAX_PATH_LENGTH)%nat -> (length ns < fuel)%nat ->
  Z.of_nat (length (path_string ns)) < len <= 2 ^ 31 ->
  vfs_get_full_path fuel st t fh len = Some (0, path_string ns ++ [0]).
Proof.
  intros [Hw _ _ _ _] Hr Hs Ht Hp Hl Hf Hlen. unfold vfs_get_full_path. rewrite Ht. cbn [mbind option_bind].
  rewrite (full_path_plain fuel st sb s (f_dentry fd) ns) by done. cbn [mbind option_bind].
  rewrite (u64_small (len - 1)) by lia. rewrite (proj2 (Z.ltb_ge _ _)), i32_small, Nat2Z.id by lia. by rewrite take_ge.
Qed.

(** C34. Paths lead back, inside one file system.  For an open file whose entry is reached from the root of the file
    system without crossing a mount, by a path of at most 128 characters, and a buffer with room for it, [vfs_get_full_path] stores the names on the way, each
    after a slash, and resolving that path, from any working directory, gives the same
    entry without changing the tree. *)
Theorem full_path_roundtrip fuel st sb s t fh a fd ns len cwd :
  vfs_wf st -> vfs_root st = Some sb -> sbs st !! sb = Some s ->
  task_file st t fh = Some (Some (a, fd)) -> plain st (s_root s) (f_dentry fd) ns ->
  (2 * length (path_string ns) <= VFS_MAX_PATH_LENGTH)%nat -> (length ns < fuel)%nat ->
  Z.of_nat (length (path_string ns)) < len <= 2 ^ 31 -> 0 ∉ cwd ->
  vfs_get_full_path fuel st t fh len = Some (0, path_string ns ++ [0]) /\
  vfs_resolve_path st cwd (path_string ns) = Some (st, Some (f_dentry fd)).
Proof.
  intros Hw Hr Hs Ht Hp Hl Hf Hlen Hcwd. assert (0 < VFS_MAX_PATH_LENGTH)%nat as Hpos by (apply Nat.ltb_lt; reflexivity). split.
  - apply (get_full_path_plain fuel st sb s t fh a fd ns len); try done. destruct ns; simpl in *; lia.
  - by apply (resolve_plain st sb s); [apply Hw|..].
Qed.

End Walk.

(** ** The RAM file system keeps the promises *)

#[global] Instance ramfs_laws : FsLaws (F := unit) (W := list Z) (P := ramfs_ustar_data_t).
Proof.
  constructor.
  - intros f w i n w' j. cbn. unfold ramfs_lookup. destruct (i_pdata i) as [d|]; [|done]. cbn [mbind option_bind].
    destruct (_ustar_lookup w d n) as [[x|]|]; [|done..]. by intros [= <- <-].
  - intros f w w' j n. cbn. by intros [= <- <- <-].
  - intros f w i fd w' i' fd' r. cbn. by intros [= <- <- <- <-].
  - intros f w i fd w' i' fd' r. cbn. by intros [= <- <- <- <-].
  - intros f w i fd n w' i' fd' r. cbn. unfold ramfs_read. case_match; [by intros [= <- <- <- <-]|].
    destruct (i_pdata i) as [d|]; [|done]. cbn [mbind option_bind]. case_match; [by intros [= <- <- <- <-]|].
    destruct (get_bytes _ _ _); [|done]. by intros [= <- <- <- <-].
  - intros f w i fd b w' i' fd' r. cbn. by intros [= <- <- <- <-].
  - intros f op w i fd o wh w' i' fd' r. cbn. intros [= <-]. unfold ramfs_lseek.
    destruct (i_pdata i) as [d|]; [|done]. cbn [mbind option_bind].
    repeat case_match; by intros [= <- <- <- <-].
  - intros f op w i fd w' i' fd' r. cbn. intros [= <-].
    destruct (ramfs_iterate w i); [|done]. by intros [= <- <- <- <-].
Qed.

(** ** Concrete runs *)

Notation demo_state := (vfs_state (F := unit) (W := list Z) (P := ramfs_ustar_data_t)).

Definition ramfs_str : list Z := [114; 97; 109; 102; 115].
Definition slash_d : list Z := [slash; 100].
Definition slash_d_a : list Z := [slash; 100; slash; 97].

(** The state after an operation. *)
Definition after {A} (o : option (demo_state * A)) : demo_state :=
  match o with Some (st, _) => st | None => vfs_init [] end.
Lemma after_spec {A} (o : option (demo_state * A)) :
  bool_decide (is_Some o) = true -> exists r, o = Some (after o, r).
Proof. destruct o as [[st r]|]; [by exists r|done]. Qed.

(** The archive mounted as the root, and [/d/a] opened by task 1. *)
Definition demo_mount : option (demo_state * Z) :=
  vfs_mount_fs (vfs_register_fs (vfs_init demo_archive) ramfs_str tt) [slash] [slash] ramfs_str.
Definition demo_open : option (demo_state * Z) :=
  vfs_open (after demo_mount) [slash] 1 slash_d_a VFS_MODE_READ.
Definition demo_st : demo_state := after demo_open.

Lemma demo_steps : rtc vfs_step (vfs_init demo_archive) demo_st.
Proof.
  eapply rtc_l; [apply (vs_register _ ramfs_str tt)|].
  destruct (after_spec demo_mount) as [r1 E1]; [vm_compute; reflexivity|].
  destruct (after_spec demo_open) as [r2 E2]; [vm_compute; reflexivity|].
  eapply rtc_l; [eapply (vs_mount _ [slash] [slash] ramfs_str _ r1); [..|exact E1]; apply (bool_decide_unpack _); vm_compute; exact I|].
  apply rtc_once. eapply (vs_open _ [slash] 1 slash_d_a); [..|exact E2]; apply (bool_decide_unpack _); vm_compute; exact I.
Qed.

Lemma vfs_run_wf_witness :
  vfs_wf demo_st /\ exists a fd, task_file demo_st 1 101 = Some (Some (a, fd)) /\ f_handle fd = 101.
Proof.
  destruct (vfs_run_wf demo_archive demo_st demo_steps) as [Hw H]. split; [exact Hw|].
  destruct (H 1 101) as (r & E & Hr).
  assert (match task_file demo_st 1 101 with Some (Some _) => true | _ => false end = true) as Es by (vm_compute; reflexivity).
  rewrite E in Es. destruct r as [[a fd]|]; [|discriminate Es]. exists a, fd. split; [exact E|]. by apply (Hr a fd).
Defined.

Lemma demo_plain : plain demo_st 2 6 [[100]; [97]].
Proof.
  apply (plain_child demo_st 2 4 (Dentry [100] (Some 5) (Some 2) [6]) [[100]] 6 (Dentry [97] (Some 7) (Some 4) []));
    [|vm_compute; reflexivity|left|vm_compute; reflexivity|vm_compute; reflexivity].
  apply (plain_child demo_st 2 2 (Dentry [] (Some 3) (Some 2) [4]) [] 4 (Dentry [100] (Some 5) (Some 2) [6]));
    [constructor|vm_compute; reflexivity|left|vm_compute; reflexivity|vm_compute; reflexivity].
Qed.

Lemma full_path_roundtrip_witness :
  vfs_get_full_path 10 demo_st 1 101 256 = Some (0, slash_d_a ++ [0]) /\
  vfs_resolve_path demo_st slash_d slash_d_a = Some (demo_st, Some 6).
Proof.
  assert (match task_file demo_st 1 101 with Some (Some (_, fd)) => f_dentry fd =? 6 | _ => false end = true) as Ed
    by (vm_compute; reflexivity).
  destruct (task_file demo_st 1 101) as [[[b fd']|]|] eqn:Et; [|discriminate Ed..].
  apply Z.eqb_eq in Ed. pose proof demo_plain as Hp. rewrite <- Ed in Hp. rewrite <- Ed.
  apply (full_path_roundtrip 10 demo_st 1 (SuperBlock 2) 1 101 b fd' [[100]; [97]] 256 slash_d
    (run_keeps_wf _ _ demo_steps)); try (vm_compute; reflexivity); try (simpl; lia).
  - exact Et.
  - exact Hp.
  - apply Nat.leb_le. vm_compute. reflexivity.
  - apply (bool_decide_unpack _). vm_compute. exact I.
Defined.

(** A path with three slashes in a row ends there. *)
Example triple_slash_ends_path :
  vfs_resolve_path demo_st [slash] ([slash; 100; slash; slash; slash; 97]) = vfs_resolve_path demo_st [slash] slash_d.
Proof. vm_compute. reflexivity. Qed.

(** A name that the RAM file system does not have: the entry it returns has no inode, which
    the walk loads. *)
Example missing_file_faults : vfs_open demo_st [slash] 1 [slash; 98; 98] VFS_MODE_READ = None.
Proof. vm_compute. reflexivity. Qed.

(** The current directory as a path from the root is not found. *)
Example root_dot_not_found : (snd <$> vfs_resolve_path demo_st [slash] [slash; dot]) = Some None.
Proof. vm_compute. reflexivity. Qed.

(** The parent of the root of a mounted file system is the entry it is mounted on. *)
Definition demo_two : option (demo_state * Z) := vfs_mount_fs demo_st [slash] slash_d ramfs_str.
Example dotdot_of_mount_is_itself :
  (snd <$> vfs_resolve_path (after demo_two) [slash] (slash_d ++ [slash; dot; dot])) = Some (Some 4) /\
  (snd <$> vfs_resolve_path demo_st [slash] slash_d) = Some (Some 4).
Proof. split; vm_compute; reflexivity. Qed.

(** After the files were copied for a new task, one close in it does not close. *)
Definition demo_copied : option (demo_state * unit) := st ← vfs_copy demo_st 2 1; Some (st, tt).
Example close_after_copy_keeps_open :
  (snd <$> vfs_close (after demo_copied) 2 101) = Some 0 /\
  bool_decide (is_Some (task_file (after (vfs_close (after demo_copied) 2 101)) 2 101 ≫= id)) = true.
Proof. split; vm_compute; reflexivity. Qed.
