(* ===== verification/Fat32.v ===== *)
(** * FAT32 file system: the code

    [kernel/src/fs/fat32.c] and [kernel/include/fs/fat32.h], function by function.

    The state [St] is one mounted volume ([Fat], its one-sector buffer included),
    the disk below it, the module's globals ([g_buf], [g_len], [g_crc], and
    whether the volume is on [g_fat_list]), and the structures the callers hand
    in by pointer: the [Dir], [Loc] and [File] being worked on and the path
    cursor.  Those keep their value when a function returns an error, which
    callers rely on, so they are part of the state and not of the result.

    A function that returns an [int] error code is a computation of the monad
    [M]: [Ok] is [FAT_ERR_NONE], [Err e] any other code.  [Trap] is a division by
    zero.  The unbounded loops take fuel, and [Fuel] is its exhaustion; the
    bounds that suffice are proved in [Fat32Chain].

    The disk is the interface [DiskOps], the structure of the same name: the
    driver's [read] and [write]. *)

From S2P Require Import Prelude.

(** ** Constants *)

Definition FAT_ERR_NOFAT : Z := -1.
Definition FAT_ERR_BROKEN : Z := -2.
Definition FAT_ERR_IO : Z := -3.
Definition FAT_ERR_PARAM : Z := -4.
Definition FAT_ERR_PATH : Z := -5.
Definition FAT_ERR_EOF : Z := -6.
Definition FAT_ERR_DENIED : Z := -7.
Definition FAT_ERR_FULL : Z := -8.

Definition FAT_ATTR_RO : Z := 0x01.
Definition FAT_ATTR_SYS : Z := 0x04.
Definition FAT_ATTR_LABEL : Z := 0x08.
Definition FAT_ATTR_DIR : Z := 0x10.
Definition FAT_ATTR_ARCHIVE : Z := 0x20.
Definition FAT_ATTR_LFN : Z := 0x0f.

Definition FAT_WRITE : Z := 0x01.
Definition FAT_READ : Z := 0x02.
Definition FAT_APPEND : Z := 0x04.
Definition FAT_TRUNC : Z := 0x08.
Definition FAT_CREATE : Z := 0x10.
Definition FAT_ACCESSED : Z := 0x20.
Definition FAT_MODIFIED : Z := 0x40.
Definition FAT_FILE_DIRTY : Z := 0x80.

Inductive fat_seek := FAT_SEEK_START | FAT_SEEK_CURR | FAT_SEEK_END.

Definition FSINFO_HEAD_SIG : Z := 0x41615252.
Definition FSINFO_STRUCT_SIG : Z := 0x61417272.
Definition FSINFO_TAIL_SIG : Z := 0xaa550000.
Definition MBR_PART_OFF : Z := 446.
Definition EXT_FLAG_MIRROR : Z := Z.shiftl 1 7.
Definition EXT_FLAG_ACT : Z := 0x000f.
Definition EXT_FLAG_SECOND : Z := 0x0001.
Definition LFN_HEAD_MSK : Z := 0x40.
Definition LFN_SEQ_MSK : Z := 0x1f.
Definition SFN_FREE : Z := 0xe5.
Definition SFN_LAST : Z := 0x00.
Definition SFN_PAD : Z := 0x20.
Definition FAT_BUF_DIRTY : Z := 0x01.
Definition FAT_INFO_DIRTY : Z := 0x02.
Definition CLUST_FREE : Z := 0x01.
Definition CLUST_USED : Z := 0x02.
Definition CLUST_LAST : Z := 0x04.
Definition CLUST_BAD : Z := 0x08.

Definition LIMIT (a b : Z) : Z := if a <? b then a else b.

(** [x & m] as a condition, [x | m] and [x & ~m] on a [u8] of flags. *)
Definition has (x m : Z) : bool := ctrue (Z.land x m).
Definition set_flag (m x : Z) : Z := Z.lor x m.
Definition clear_flag (m x : Z) : Z := Z.land x (u8 (Z.lnot m)).

(** Field offsets of the packed structures [Sfn], [Lfn], [Bpb], [FsInfo]. *)
Definition SFN_ATTR : nat := 11.
Definition SFN_RESERVED : nat := 12.
Definition SFN_TENTH : nat := 13.
Definition SFN_CRE_TIME : nat := 14.
Definition SFN_CRE_DATE : nat := 16.
Definition SFN_ACC_DATE : nat := 18.
Definition SFN_CLUST_HI : nat := 20.
Definition SFN_MOD_TIME : nat := 22.
Definition SFN_MOD_DATE : nat := 24.
Definition SFN_CLUST_LO : nat := 26.
Definition SFN_SIZE : nat := 28.
Definition LFN_TYPE : nat := 12.
Definition LFN_CRC : nat := 13.
Definition LFN_CLUST : nat := 26.
Definition FSINFO_FREE_CNT : nat := 488.
Definition FSINFO_NEXT_FREE : nat := 492.

(** ** State *)

Record Timestamp := Ts {
  hour : Z; min : Z; sec : Z; day : Z; month : Z; year : Z;
}.

Record Fat := mkFat {
  clust_msk : Z;
  clust_cnt : Z;
  info_sect : Z;
  fat_sect0 : Z;
  fat_sect1 : Z;
  data_sect : Z;
  root_clust : Z;
  last_used : Z;
  free_cnt : Z;
  sect : Z;
  buf : list Z;
  fflags : Z;
  clust_shift : Z;
  name : list Z;        (* the first [name_len] bytes of the field *)
}.

Record Dir := mkDir { d_sclust : Z; d_clust : Z; d_sect : Z; d_idx : Z }.
Record Loc := mkLoc { l_sect : Z; l_idx : Z }.

Record File := mkFile {
  f_open : bool;        (* whether the [fat] pointer is set *)
  f_dir_sect : Z;
  f_sclust : Z;
  f_clust : Z;
  f_sect : Z;
  f_size : Z;
  f_offset : Z;
  f_dir_idx : Z;
  f_attr : Z;
  f_flags : Z;
  f_buf : list Z;
}.

Record DirInfo := mkDirInfo {
  created : Timestamp;
  modified : Timestamp;
  i_size : Z;
  i_attr : Z;
  i_name : list Z;
}.

(** The disk driver: success, and the contents of the buffer after a read, the
    disk after a write. *)
Class DiskOps (D : Type) := {
  ops_read : D -> list Z -> Z -> bool * list Z;
  ops_write : D -> list Z -> Z -> bool * D;
}.

Record St (D : Type) := mkSt {
  fat : Fat;
  disk : D;
  mounted : bool;       (* the volume is on [g_fat_list] *)
  g_buf : list Z;
  g_len : Z;
  g_crc : Z;
  dir : Dir;
  loc : Loc;
  path : list Z;        (* what is left of the path *)
  file : File;
}.
Arguments mkSt {D}.
Arguments fat {D}. Arguments disk {D}. Arguments mounted {D}. Arguments g_buf {D}.
Arguments g_len {D}. Arguments g_crc {D}. Arguments dir {D}. Arguments loc {D}.
Arguments path {D}. Arguments file {D}.

Inductive res (A : Type) :=
  | Ok (a : A)
  | Err (e : Z)
  | Fuel
  | Trap.
Arguments Ok {A}. Arguments Err {A}. Arguments Fuel {A}. Arguments Trap {A}.

(** Field updates. *)
Definition with_sect (x : Z) (f : Fat) : Fat :=
  mkFat (clust_msk f) (clust_cnt f) (info_sect f) (fat_sect0 f) (fat_sect1 f) (data_sect f)
    (root_clust f) (last_used f) (free_cnt f) x (buf f) (fflags f) (clust_shift f) (name f).
Definition with_buf (x : list Z) (f : Fat) : Fat :=
  mkFat (clust_msk f) (clust_cnt f) (info_sect f) (fat_sect0 f) (fat_sect1 f) (data_sect f)
    (root_clust f) (last_used f) (free_cnt f) (sect f) x (fflags f) (clust_shift f) (name f).
Definition with_fflags (x : Z) (f : Fat) : Fat :=
  mkFat (clust_msk f) (clust_cnt f) (info_sect f) (fat_sect0 f) (fat_sect1 f) (data_sect f)
    (root_clust f) (last_used f) (free_cnt f) (sect f) (buf f) x (clust_shift f) (name f).
Definition with_last_used (x : Z) (f : Fat) : Fat :=
  mkFat (clust_msk f) (clust_cnt f) (info_sect f) (fat_sect0 f) (fat_sect1 f) (data_sect f)
    (root_clust f) x (free_cnt f) (sect f) (buf f) (fflags f) (clust_shift f) (name f).
Definition with_free_cnt (x : Z) (f : Fat) : Fat :=
  mkFat (clust_msk f) (clust_cnt f) (info_sect f) (fat_sect0 f) (fat_sect1 f) (data_sect f)
    (root_clust f) (last_used f) x (sect f) (buf f) (fflags f) (clust_shift f) (name f).

Section Updates.
Context {D : Type}.
Implicit Types s : St D.

Definition with_fat (f : Fat -> Fat) s : St D :=
  mkSt (f (fat s)) (disk s) (mounted s) (g_buf s) (g_len s) (g_crc s) (dir s) (loc s) (path s) (file s).
Definition with_disk (d : D) s : St D :=
  mkSt (fat s) d (mounted s) (g_buf s) (g_len s) (g_crc s) (dir s) (loc s) (path s) (file s).
Definition with_mounted (b : bool) s : St D :=
  mkSt (fat s) (disk s) b (g_buf s) (g_len s) (g_crc s) (dir s) (loc s) (path s) (file s).
Definition with_g_buf (b : list Z) s : St D :=
  mkSt (fat s) (disk s) (mounted s) b (g_len s) (g_crc s) (dir s) (loc s) (path s) (file s).
Definition with_g_len (n : Z) s : St D :=
  mkSt (fat s) (disk s) (mounted s) (g_buf s) n (g_crc s) (dir s) (loc s) (path s) (file s).
Definition with_g_crc (n : Z) s : St D :=
  mkSt (fat s) (disk s) (mounted s) (g_buf s) (g_len s) n (dir s) (loc s) (path s) (file s).
Definition with_dir (f : Dir -> Dir) s : St D :=
  mkSt (fat s) (disk s) (mounted s) (g_buf s) (g_len s) (g_crc s) (f (dir s)) (loc s) (path s) (file s).
Definition with_loc (l : Loc) s : St D :=
  mkSt (fat s) (disk s) (mounted s) (g_buf s) (g_len s) (g_crc s) (dir s) l (path s) (file s).
Definition with_path (p : list Z) s : St D :=
  mkSt (fat s) (disk s) (mounted s) (g_buf s) (g_len s) (g_crc s) (dir s) (loc s) p (file s).
Definition with_file (f : File -> File) s : St D :=
  mkSt (fat s) (disk s) (mounted s) (g_buf s) (g_len s) (g_crc s) (dir s) (loc s) (path s) (f (file s)).

End Updates.

Definition dir_to (clust sect idx : Z) (d : Dir) : Dir := mkDir (d_sclust d) clust sect idx.

Definition file_to (clust sect offset : Z) (f : File) : File :=
  mkFile (f_open f) (f_dir_sect f) (f_sclust f) clust sect (f_size f) offset (f_dir_idx f)
    (f_attr f) (f_flags f) (f_buf f).
Definition with_f_flags (x : Z) (f : File) : File :=
  mkFile (f_open f) (f_dir_sect f) (f_sclust f) (f_clust f) (f_sect f) (f_size f) (f_offset f)
    (f_dir_idx f) (f_attr f) x (f_buf f).
Definition with_f_size (x : Z) (f : File) : File :=
  mkFile (f_open f) (f_dir_sect f) (f_sclust f) (f_clust f) (f_sect f) x (f_offset f)
    (f_dir_idx f) (f_attr f) (f_flags f) (f_buf f).
Definition with_f_buf (x : list Z) (f : File) : File :=
  mkFile (f_open f) (f_dir_sect f) (f_sclust f) (f_clust f) (f_sect f) (f_size f) (f_offset f)
    (f_dir_idx f) (f_attr f) (f_flags f) x.

(** ** The error monad *)

Definition M (D A : Type) : Type := St D -> res A * St D.

Section Monad.
Context {D : Type}.

Definition ret {A} (a : A) : M D A := fun s => (Ok a, s).
Definition fail {A} (e : Z) : M D A := fun s => (Err e, s).
Definition out_of_fuel {A} : M D A := fun s => (Fuel, s).
Definition trap {A} : M D A := fun s => (Trap, s).
Definition bind {A B} (m : M D A) (k : A -> M D B) : M D B := fun s =>
  match m s with
  | (Ok a, s) => k a s
  | (Err e, s) => (Err e, s)
  | (Fuel, s) => (Fuel, s)
  | (Trap, s) => (Trap, s)
  end.
Definition get {A} (f : St D -> A) : M D A := fun s => (Ok (f s), s).
Definition modify (f : St D -> St D) : M D unit := fun s => (Ok tt, f s).

(** The call's error code as a value: [err = f(...)] followed by a test other
    than [if (err) return err]. *)
Definition attempt {A} (m : M D A) : M D (A + Z) := fun s =>
  match m s with
  | (Ok a, s) => (Ok (inl a), s)
  | (Err e, s) => (Ok (inr e), s)
  | (Fuel, s) => (Fuel, s)
  | (Trap, s) => (Trap, s)
  end.

End Monad.

Declare Scope fat_scope.
Delimit Scope fat_scope with fat.
Notation "x <- m ;; k" := (bind m (fun x => k))
  (at level 100, m at next level, right associativity) : fat_scope.
Notation "' p <- m ;; k" := (bind m (fun x => match x with p => k end))
  (at level 100, p pattern, m at next level, right associativity) : fat_scope.
Notation "m ;; k" := (bind m (fun _ => k)) (at level 100, right associativity) : fat_scope.
Open Scope fat_scope.

(** ** Names and time stamps *)

Definition to_upper (c : Z) : Z :=
  if (97 <=? c) && (c <=? 122) then Z.land c (Z.lnot 0x20) else c.

Fixpoint name_eq_from (n : nat) (i : nat) (a b : list Z) : bool :=
  match n with
  | O => true
  | S n =>
    if negb (to_upper (get_u8 a i) =? to_upper (get_u8 b i)) then false
    else name_eq_from n (S i) a b
  end.
Definition name_eq (a b : list Z) (len : Z) : bool := name_eq_from (Z.to_nat len) 0 a b.

(** A C string is the list of its characters, and what follows is NUL. *)
Fixpoint subpath_len (p : list Z) : Z :=
  match p with
  | [] => 0
  | c :: p => if ctrue c && negb (c =? 47) then 1 + subpath_len p else 0
  end.

Fixpoint skip_slashes (p : list Z) : list Z :=
  match p with
  | c :: r => if c =? 47 then skip_slashes r else p
  | [] => []
  end.

Definition last_subpath_len (p : list Z) : Z :=
  let len := subpath_len p in
  if len =? 0 then 0 else
  let p := skip_slashes (drop (Z.to_nat len) p) in
  if ctrue (get_u8 p 0) then 0 else len.

Fixpoint crc_from (sum : Z) (name : list Z) : Z :=
  match name with
  | [] => sum
  | c :: r => crc_from (u8 (Z.shiftl (Z.land sum 1) 7 + Z.shiftr sum 1 + c)) r
  end.
Definition get_crc (name : list Z) : Z := crc_from 0 (take 11 name).

Definition decode_timestamp (date time : Z) : Timestamp :=
  Ts (Z.land (Z.shiftr time 11) 0x1f) (Z.land (Z.shiftr time 5) 0x3f) (2 * Z.land time 0x1f)
    (Z.land date 0x1f) (Z.land (Z.shiftr date 5) 0xf) (Z.land (Z.shiftr date 9) 0x3f + 1980).

(** The weak default that nothing overrides. *)
Definition fat_get_timestamp : Timestamp := Ts 0 0 0 1 1 1980.

Definition encode_date (ts : Timestamp) : Z :=
  u16 (Z.lor (Z.lor (Z.shiftl (Z.land (year ts - 1980) 0x3f) 9) (Z.shiftl (Z.land (month ts) 0xf) 5))
         (Z.land (day ts) 0x1f)).
Definition encode_time (ts : Timestamp) : Z :=
  u16 (Z.lor (Z.lor (Z.land (sec ts / 2) 0x1f) (Z.shiftl (Z.land (min ts) 0x3f) 5))
         (Z.shiftl (Z.land (hour ts) 0x1f) 11)).
(** The date and the time of now. *)
Definition encode_timestamp : Z * Z :=
  let ts := fat_get_timestamp in (encode_date ts, encode_time ts).

(** ["!#$%&'()-@^_`{}~ "] *)
Definition sfn_special : list Z :=
  [33; 35; 36; 37; 38; 39; 40; 41; 45; 64; 94; 95; 96; 123; 125; 126; 32].

Definition sfn_char (c : Z) : Z :=
  let c := to_upper c in
  if (65 <=? c) && (c <=? 90) then c
  else if (48 <=? c) && (c <=? 57) then c
  else if existsb (Z.eqb c) sfn_special then c
  else 95.

(** The base name: up to [n] characters before the first dot. *)
Fixpoint sfn_base (n : nat) (name : list Z) (i len : Z) : list Z :=
  match n with
  | O => []
  | S n =>
    if (i <? LIMIT len 8) && negb (get_u8 name (Z.to_nat i) =? 46)
    then sfn_char (get_u8 name (Z.to_nat i)) :: sfn_base n name (i + 1) len
    else []
  end.
(** [while (i < len && name[i++] != '.');] *)
Fixpoint sfn_skip (n : nat) (name : list Z) (i len : Z) : Z :=
  match n with
  | O => i
  | S n =>
    if i <? len then
      if get_u8 name (Z.to_nat i) =? 46 then i + 1 else sfn_skip n name (i + 1) len
    else i
  end.
Fixpoint sfn_ext (n : nat) (name : list Z) (i len : Z) : list Z :=
  match n with
  | O => []
  | S n =>
    if i <? len then sfn_char (get_u8 name (Z.to_nat i)) :: sfn_ext n name (i + 1) len else []
  end.
(** Pad with spaces to [n] characters. *)
Definition sfn_padded (n : nat) (l : list Z) : list Z := l ++ replicate (n - length l) SFN_PAD.
Definition put_sfn_name (name : list Z) (len : Z) : list Z :=
  let base := sfn_base 8 name 0 len in
  let i := sfn_skip (Z.to_nat len) name (Z.of_nat (length base)) len in
  sfn_padded 8 base ++ sfn_padded 3 (sfn_ext 3 name i len).

Definition sfn_lower (c : Z) : Z := if (65 <=? c) && (c <=? 90) then Z.lor c 0x20 else c.
Fixpoint until_pad (l : list Z) : list Z :=
  match l with
  | [] => []
  | c :: r => if c =? SFN_PAD then [] else sfn_lower c :: until_pad r
  end.
(** The characters [parse_sfn_name] stores in [g_buf]. *)
Definition sfn_text (sfn_name : list Z) : list Z :=
  until_pad (take 8 sfn_name) ++
  (if get_u8 sfn_name 8 =? SFN_PAD then [] else [46]) ++
  until_pad (take 3 (drop 8 sfn_name)).

Definition g_lfn_indices : list nat := [1; 3; 5; 7; 9; 14; 16; 18; 20; 22; 24; 28; 30]%nat.
Definition lfn_index (i : nat) : nat := default 0%nat (g_lfn_indices !! i).

Definition put_pair (raw : list Z) (base i : nat) (lo hi : Z) : list Z :=
  put_u8 (put_u8 raw (base + lfn_index i) lo) (base + lfn_index i + 1) hi.

(** The three loops of [put_lfn_name_frag] on the entry at [base] of the buffer:
    characters, terminator, filler. *)
Fixpoint put_lfn_chars (n : nat) (raw : list Z) (base i : nat) (name : list Z) : list Z :=
  match n with
  | O => raw
  | S n => put_lfn_chars n (put_pair raw base i (get_u8 name i) 0) base (S i) name
  end.
Fixpoint put_lfn_fill (n : nat) (raw : list Z) (base i : nat) : list Z :=
  match n with
  | O => raw
  | S n => put_lfn_fill n (put_pair raw base i 0xff 0xff) base (S i)
  end.
Definition put_lfn_name_frag (raw : list Z) (base : nat) (name : list Z) (len : nat) : list Z :=
  let raw := put_lfn_chars len raw base 0 name in
  if (len <? 13)%nat then
    let raw := put_pair raw base len 0 0 in
    put_lfn_fill (12 - len) raw base (S len)
  else raw.

(** [i32 -> "FAT_ERR_..."] as the index into the table of names; [None] is
    ["null"]. *)
Definition fat_get_error (err : Z) : option Z :=
  let err := - err in
  if (err <? 0) || (9 <=? err) then None else Some err.

(** Views of a directory entry at offset [i] of a sector buffer. *)
Definition sfn_name (b : list Z) (i : nat) : list Z := slice i 11 b.
Definition sfn_attr (b : list Z) (i : nat) : Z := get_u8 b (i + SFN_ATTR).
Definition sfn_is_last (b : list Z) (i : nat) : bool := get_u8 b i =? SFN_LAST.
Definition sfn_is_free (b : list Z) (i : nat) : bool :=
  (get_u8 b i =? SFN_LAST) || (get_u8 b i =? SFN_FREE).
Definition sfn_is_lfn (b : list Z) (i : nat) : bool := sfn_attr b i =? FAT_ATTR_LFN.
Definition sfn_cluster (b : list Z) (i : nat) : Z :=
  Z.lor (u32 (Z.shiftl (get_le 2 b (i + SFN_CLUST_HI)) 16)) (get_le 2 b (i + SFN_CLUST_LO)).

Section Code.
Context {D : Type} `{DiskOps D}.

(** What an uninitialised local of the code happens to hold. *)
Context (undef_u8 undef_u32 : Z).

(** ** Sectors and clusters *)

Definition sect_to_clust (f : Fat) (sect : Z) : Z :=
  u32 (Z.shiftr (u32 (sect - data_sect f)) (clust_shift f) + 2).
Definition clust_to_sect (f : Fat) (clust : Z) : Z :=
  u32 (u32 (Z.shiftl (u32 (clust - 2)) (clust_shift f)) + data_sect f).

Definition modify_fat (f : Fat -> Fat) : M D unit := modify (with_fat f).
Definition or_flags (m : Z) : M D unit :=
  modify_fat (fun f => with_fflags (set_flag m (fflags f)) f).
Definition unset_flags (m : Z) : M D unit :=
  modify_fat (fun f => with_fflags (clear_flag m (fflags f)) f).
Definition modify_buf (g : list Z -> list Z) : M D unit :=
  modify_fat (fun f => with_buf (g (buf f)) f).

(** [ops.write(fat->buf, fat->sect)] and [ops.read(fat->buf, sect)]. *)
Definition write_buf : M D unit := fun s =>
  let '(ok, d) := ops_write (disk s) (buf (fat s)) (sect (fat s)) in
  (if ok : bool then Ok tt else Err FAT_ERR_IO, with_disk d s).
Definition read_buf (sect : Z) : M D unit := fun s =>
  let '(ok, b) := ops_read (disk s) (buf (fat s)) sect in
  (if ok : bool then Ok tt else Err FAT_ERR_IO, with_fat (with_buf b) s).

Definition sync_buf : M D unit :=
  fl <- get (fun s => fflags (fat s)) ;;
  if has fl FAT_BUF_DIRTY then write_buf ;; unset_flags FAT_BUF_DIRTY else ret tt.

Definition update_buf (sc : Z) : M D unit :=
  cur <- get (fun s => sect (fat s)) ;;
  if negb (cur =? sc) then
    sync_buf ;; read_buf sc ;; modify_fat (with_sect sc)
  else ret tt.

Definition sync_fs : M D unit :=
  sync_buf ;;
  fl <- get (fun s => fflags (fat s)) ;;
  if has fl FAT_INFO_DIRTY then
    isect <- get (fun s => info_sect (fat s)) ;;
    update_buf isect ;;
    or_flags FAT_BUF_DIRTY ;;
    lu <- get (fun s => last_used (fat s)) ;;
    modify_buf (fun b => put_le 4 b FSINFO_NEXT_FREE lu) ;;
    fc <- get (fun s => free_cnt (fat s)) ;;
    modify_buf (fun b => put_le 4 b FSINFO_FREE_CNT fc) ;;
    sync_buf ;;
    unset_flags FAT_INFO_DIRTY
  else ret tt.

(** ** The file allocation table *)

Definition get_fat (clust : Z) : M D (Z * Z) :=
  f0 <- get (fun s => fat_sect0 (fat s)) ;;
  update_buf (u32 (f0 + clust / 128)) ;;
  b <- get (fun s => buf (fat s)) ;;
  cnt <- get (fun s => clust_cnt (fat s)) ;;
  let val := Z.land (get_le 4 b (4 * Z.to_nat (clust mod 128))) 0x0fffffff in
  if val =? 0 then ret (val, CLUST_FREE)
  else if val =? 0x0ffffff7 then ret (val, CLUST_BAD)
  else if 0x0ffffff8 <=? val then ret (val, Z.lor CLUST_USED CLUST_LAST)
  else if (2 <=? val) && (val <? cnt) then ret (val, CLUST_USED)
  else fail FAT_ERR_BROKEN.

Definition put_fat2 (fsect clust val : Z) : M D unit :=
  update_buf (u32 (fsect + clust / 128)) ;;
  let off := (4 * Z.to_nat (clust mod 128))%nat in
  modify_buf (fun b => put_le 4 b off
    (Z.lor (Z.land (get_le 4 b off) 0xf0000000) (Z.land val 0x0fffffff))) ;;
  or_flags FAT_BUF_DIRTY.

Definition put_fat (clust val : Z) : M D unit :=
  f1 <- get (fun s => fat_sect1 (fat s)) ;;
  (if ctrue f1 then put_fat2 f1 clust val else ret tt) ;;
  f0 <- get (fun s => fat_sect0 (fat s)) ;;
  put_fat2 f0 clust val.

Fixpoint remove_chain_loop (fuel : nat) (clust : Z) : M D unit :=
  match fuel with
  | O => out_of_fuel
  | S fuel =>
    '(next, flags) <- get_fat clust ;;
    if has flags (Z.lor CLUST_BAD CLUST_FREE) then fail FAT_ERR_BROKEN else
    put_fat clust 0 ;;
    modify_fat (fun f => with_free_cnt (u32 (free_cnt f + 1)) f) ;;
    if has flags CLUST_LAST then ret tt else remove_chain_loop fuel next
  end.

Definition remove_chain (fuel : nat) (clust : Z) : M D unit :=
  or_flags FAT_INFO_DIRTY ;;
  remove_chain_loop fuel clust ;;
  sync_fs.

(** [if (++clust >= fat->clust_cnt) clust = 2;] *)
Definition next_clust (f : Fat) (clust : Z) : Z :=
  let clust := u32 (clust + 1) in if clust_cnt f <=? clust then 2 else clust.

(** The scan for a free cluster.  [flags] is the value of the local, returned
    instead of the error of a failed [get_fat]: the [inr] result is a plain
    [return flags]. *)
Fixpoint scan_free (fuel : nat) (clust flags : Z) : M D (Z + Z) :=
  match fuel with
  | O => out_of_fuel
  | S fuel =>
    f <- get fat ;;
    let clust := next_clust f clust in
    if clust =? last_used f then fail FAT_ERR_FULL else
    r <- attempt (get_fat clust) ;;
    match r with
    | inr _ => ret (inr flags)
    | inl (_, flags) =>
      if has flags CLUST_FREE then ret (inl clust) else scan_free fuel clust flags
    end
  end.

(** The second half of [stretch_chain], with the free cluster found. *)
Definition take_clust (prev clust : Z) : M D Z :=
  put_fat clust 0x0fffffff ;;
  (if ctrue prev then put_fat prev clust else ret tt) ;;
  modify_fat (with_last_used clust) ;;
  modify_fat (fun f => with_free_cnt (u32 (free_cnt f - 1)) f) ;;
  sync_fs ;;
  ret clust.

Definition stretch_chain (fuel : nat) (prev : Z) : M D Z :=
  or_flags FAT_INFO_DIRTY ;;
  f <- get fat ;;
  probe <- (if ctrue prev then
              let clust := next_clust f prev in
              '(_, flags) <- get_fat clust ;;
              ret (clust, flags, negb (has flags CLUST_FREE))
            else ret (prev, undef_u8, true)) ;;
  let '(clust, flags, scan) := probe in
  r <- (if scan : bool then
          lu <- get (fun s => last_used (fat s)) ;; scan_free fuel lu flags
        else ret (inl clust)) ;;
  match r with
  | inl clust => take_clust prev clust
  | inr flags => if ctrue flags then fail flags else ret undef_u32
  end.

Definition create_chain (fuel : nat) : M D Z := stretch_chain fuel 0.

(** The loop of [clust_clear]; [n] sectors are left. *)
Fixpoint clear_sects (n : nat) (sc : Z) : M D unit :=
  match n with
  | O => ret tt
  | S n =>
    or_flags FAT_BUF_DIRTY ;;
    modify_fat (with_sect sc) ;;
    sync_buf ;;
    clear_sects n (u32 (sc + 1))
  end.
Definition clust_clear (clust : Z) : M D unit :=
  sync_buf ;;
  f <- get fat ;;
  modify_buf (fun _ => replicate 512 0) ;;
  clear_sects (Z.to_nat (Z.shiftl 1 (clust_shift f))) (clust_to_sect f clust).

(** ** Directories *)

Definition dir_at_clust (clust : Z) : M D unit :=
  f <- get fat ;;
  modify (with_dir (dir_to clust (clust_to_sect f clust) 0)).

Definition dir_enter (clust : Z) : M D unit :=
  f <- get fat ;;
  let clust := if clust =? 0 then root_clust f else clust in
  modify (with_dir (fun d => mkDir clust (d_clust d) (d_sect d) (d_idx d))) ;;
  dir_at_clust clust.

Definition dir_next : M D unit :=
  modify (with_dir (fun d => dir_to (d_clust d) (d_sect d) (u16 (d_idx d + 32)) d)) ;;
  d <- get dir ;;
  if d_idx d <? 512 then ret tt else
  modify (with_dir (fun d => dir_to (d_clust d) (u32 (d_sect d + 1)) 0 d)) ;;
  d <- get dir ;;
  f <- get fat ;;
  if has (d_sect d) (clust_msk f) then ret tt else
  '(next, flags) <- get_fat (d_clust d) ;;
  if has flags (Z.lor CLUST_BAD CLUST_FREE) then fail FAT_ERR_BROKEN
  else if has flags CLUST_LAST then fail FAT_ERR_EOF
  else dir_at_clust next.

Fixpoint dir_advance (cnt : nat) : M D unit :=
  match cnt with
  | O => ret tt
  | S cnt => dir_next ;; dir_advance cnt
  end.

Definition dir_next_stretch (fuel : nat) : M D unit :=
  r <- attempt dir_next ;;
  match r with
  | inl _ => ret tt
  | inr err =>
    if negb (err =? FAT_ERR_EOF) then fail err else
    d <- get dir ;;
    next <- stretch_chain fuel (d_clust d) ;;
    dir_at_clust next ;;
    d <- get dir ;;
    clust_clear (d_clust d)
  end.

(** The sector buffer and the offset [dir_ptr] points to. *)
Definition dir_ptr : M D (list Z * nat) :=
  get (fun s => (buf (fat s), Z.to_nat (d_idx (dir s)))).
(** Load the sector of the directory position. *)
Definition update_dir_buf : M D unit := d <- get dir ;; update_buf (d_sect d).

(** [parse_sfn_name] *)
Definition parse_sfn_name (nm : list Z) : M D unit :=
  let t := sfn_text nm in
  modify (fun s => with_g_buf (splice 0 t (g_buf s)) s) ;;
  modify (with_g_len (Z.of_nat (length t))).

(** The loop over the 13 characters of one entry. *)
Fixpoint parse_lfn_chars (n : nat) (i : nat) (cnt : Z) (b : list Z) (p : nat) : M D unit :=
  match n with
  | O => ret tt
  | S n =>
    let c := get_u8 b (p + lfn_index i) in
    (* [c == 0xff] compares a signed char and is never true *)
    if c =? 0 then ret tt else
    modify (fun s => with_g_buf (put_u8 (g_buf s) (Z.to_nat (13 * cnt) + i) c) s) ;;
    modify (fun s => with_g_len (u16 (g_len s + 1)) s) ;;
    parse_lfn_chars n (S i) cnt b p
  end.

(** [while (cnt--)]; inside the body [cnt] is one less. *)
Fixpoint parse_lfn_loop (cnt : nat) : M D unit :=
  match cnt with
  | O => ret tt
  | S cnt =>
    '(b, p) <- dir_ptr ;;
    crc <- get g_crc ;;
    if negb (sfn_attr b p =? FAT_ATTR_LFN) || negb (get_u8 b (p + LFN_CRC) =? crc)
    then fail FAT_ERR_BROKEN else
    parse_lfn_chars 13 0 (Z.of_nat cnt) b p ;;
    dir_next ;;
    update_dir_buf ;;
    parse_lfn_loop cnt
  end.

Definition parse_lfn_name : M D unit :=
  update_dir_buf ;;
  '(b, p) <- dir_ptr ;;
  modify (with_g_crc (get_u8 b (p + LFN_CRC))) ;;
  modify (with_g_len 0) ;;
  let cnt := Z.land (get_u8 b p) LFN_SEQ_MSK in
  if 20 <? cnt then fail FAT_ERR_BROKEN else
  parse_lfn_loop (Z.to_nat cnt) ;;
  n <- get g_len ;;
  if n <=? 255 then ret tt else fail FAT_ERR_BROKEN.

(** The loop of [dir_search]: [first] is whether the iteration starts without
    advancing. *)
Fixpoint dir_search_loop (fuel : nat) (first : bool) (nm : list Z) (len : Z) (sfn : list Z)
    (want_loc : bool) : M D unit :=
  match fuel with
  | O => out_of_fuel
  | S fuel =>
    (if first then ret tt else dir_next) ;;
    update_dir_buf ;;
    '(b, p) <- dir_ptr ;;
    if sfn_is_last b p then fail FAT_ERR_EOF
    else if sfn_is_free b p then dir_search_loop fuel false nm len sfn want_loc
    else
    (if want_loc then d <- get dir ;; modify (with_loc (mkLoc (d_sect d) (d_idx d)))
     else ret tt) ;;
    if sfn_is_lfn b p then
      parse_lfn_name ;;
      '(b, p) <- dir_ptr ;;
      crc <- get g_crc ;;
      if sfn_is_free b p || sfn_is_lfn b p || negb (crc =? get_crc (sfn_name b p))
      then fail FAT_ERR_BROKEN else
      n <- get g_len ;;
      gb <- get g_buf ;;
      if (n =? len) && name_eq gb nm len then ret tt
      else dir_search_loop fuel false nm len sfn want_loc
    else if bool_decide (sfn = sfn_name b p) then ret tt
    else dir_search_loop fuel false nm len sfn want_loc
  end.

Definition dir_search (fuel : nat) (nm : list Z) (len : Z) (want_loc : bool) : M D unit :=
  d <- get dir ;;
  dir_at_clust (d_sclust d) ;;
  dir_search_loop fuel true nm len (put_sfn_name nm len) want_loc.

Definition dir_at_root : M D bool :=
  get (fun s =>
    (d_clust (dir s) =? root_clust (fat s)) &&
    (d_sect (dir s) =? clust_to_sect (fat s) (root_clust (fat s))) &&
    (d_idx (dir s) =? 0)).

(** The search of [g_fat_list]: the one volume, if it is mounted. *)
Definition find_fat_volume (s : St D) (nm : list Z) (len : Z) : bool :=
  mounted s && (len =? Z.of_nat (length (name (fat s)))) && name_eq nm (name (fat s)) len.

(** The loop of [follow_path]; [n] components can follow. *)
Fixpoint follow_loop (n fuel : nat) (dir_clust : Z) (enterable : bool) (want_loc : bool) : M D unit :=
  match n with
  | O => out_of_fuel
  | S n =>
    modify (fun s => with_path (skip_slashes (path s)) s) ;;
    str <- get path ;;
    let len := subpath_len str in
    if len =? 0 then ret tt else
    if negb enterable then fail FAT_ERR_PATH else
    dir_enter dir_clust ;;
    dir_search fuel str len want_loc ;;
    modify (with_path (drop (Z.to_nat len) str)) ;;
    '(b, p) <- dir_ptr ;;
    follow_loop n fuel (sfn_cluster b p) (ctrue (Z.land (sfn_attr b p) FAT_ATTR_DIR)) want_loc
  end.

Definition follow_path (fuel : nat) (want_loc : bool) : M D unit :=
  str <- get path ;;
  if negb (get_u8 str 0 =? 47) then fail FAT_ERR_PATH else
  let str := drop 1 str in
  let len := subpath_len str in
  if len =? 0 then fail FAT_ERR_PATH else
  found <- get (fun s => find_fat_volume s str len) ;;
  if negb found then fail FAT_ERR_PATH else
  f <- get fat ;;
  dir_enter (root_clust f) ;;
  d <- get dir ;;
  modify (with_path (drop (Z.to_nat len) str)) ;;
  follow_loop (S (length str)) fuel (d_clust d) true want_loc.

Fixpoint remove_entries_loop (fuel : nat) (sc idx : Z) : M D unit :=
  match fuel with
  | O => out_of_fuel
  | S fuel =>
    update_dir_buf ;;
    d <- get dir ;;
    modify_buf (fun b => put_u8 b (Z.to_nat (d_idx d)) SFN_FREE) ;;
    or_flags FAT_BUF_DIRTY ;;
    if (d_sect d =? sc) && (d_idx d =? idx) then ret tt else
    dir_next ;;
    remove_entries_loop fuel sc idx
  end.

(** Move the directory position to [loc]. *)
Definition dir_to_loc (l : Loc) : M D unit :=
  f <- get fat ;;
  modify (with_dir (dir_to (sect_to_clust f (l_sect l)) (l_sect l) (l_idx l))).

Definition remove_entries (fuel : nat) : M D unit :=
  d <- get dir ;;
  l <- get loc ;;
  dir_to_loc l ;;
  remove_entries_loop fuel (d_sect d) (d_idx d).

(** The search of [dir_add] for [want] consecutive free entries; the result is
    [eod] and the location of the first. *)
Fixpoint dir_add_find (fuel : nat) (want cnt : Z) (eod : bool) (at_ : Loc) : M D (bool * Loc) :=
  match fuel with
  | O => out_of_fuel
  | S fuel' =>
    if want <=? cnt then ret (eod, at_) else
    update_dir_buf ;;
    '(b, p) <- dir_ptr ;;
    d <- get dir ;;
    let free := eod || sfn_is_free b p in
    let at_ := if free && (cnt =? 0) then mkLoc (d_sect d) (d_idx d) else at_ in
    let cnt := if free then cnt + 1 else 0 in
    let eod := eod || sfn_is_last b p in
    dir_next_stretch fuel ;;
    dir_add_find fuel' want cnt eod at_
  end.

(** The LFN entries, highest first; [i] are left. *)
Fixpoint dir_add_lfns (i : nat) (nm : list Z) (len crc mask : Z) : M D unit :=
  match i with
  | O => ret tt
  | S i' =>
    update_dir_buf ;;
    '(_, p) <- dir_ptr ;;
    or_flags FAT_BUF_DIRTY ;;
    let pos := 13 * (Z.of_nat i - 1) in
    modify_buf (fun b => put_lfn_name_frag b p (drop (Z.to_nat pos) nm)
                           (Z.to_nat (LIMIT (len - pos) 13))) ;;
    modify_buf (fun b => put_u8 b (p + SFN_ATTR) FAT_ATTR_LFN) ;;
    modify_buf (fun b => put_u8 b p (Z.lor mask (Z.of_nat i))) ;;
    modify_buf (fun b => put_u8 b (p + LFN_CRC) crc) ;;
    modify_buf (fun b => put_u8 b (p + LFN_TYPE) 0) ;;
    modify_buf (fun b => put_le 2 b (p + LFN_CLUST) 0) ;;
    dir_next ;;
    dir_add_lfns i' nm len crc 0
  end.

(** The fields of a new SFN entry at [p]. *)
Definition put_sfn (p : nat) (nm : list Z) (attr clust date time : Z) (b : list Z) : list Z :=
  let b := splice p nm b in
  let b := put_le 2 b (p + SFN_CLUST_HI) (Z.shiftr clust 16) in
  let b := put_le 2 b (p + SFN_CLUST_LO) (Z.land clust 0xffff) in
  let b := put_u8 b (p + SFN_ATTR) attr in
  let b := put_u8 b (p + SFN_RESERVED) 0 in
  let b := put_u8 b (p + SFN_TENTH) 0 in
  let b := put_le 2 b (p + SFN_CRE_TIME) time in
  let b := put_le 2 b (p + SFN_MOD_TIME) time in
  let b := put_le 2 b (p + SFN_CRE_DATE) date in
  let b := put_le 2 b (p + SFN_MOD_DATE) date in
  let b := put_le 2 b (p + SFN_ACC_DATE) date in
  put_le 4 b (p + SFN_SIZE) 0.

Definition dir_add (fuel : nat) (nm : list Z) (len attr clust : Z) : M D unit :=
  if (len <=? 0) || (255 <? len) then fail FAT_ERR_PARAM else
  let lfns := (len + 12) / 13 in
  d <- get dir ;;
  dir_enter (d_sclust d) ;;
  '(eod, at_) <- dir_add_find fuel (lfns + 1) 0 false (mkLoc 0 0) ;;
  (if eod : bool then
     update_dir_buf ;;
     '(_, p) <- dir_ptr ;;
     modify_buf (fun b => put_u8 b p 0) ;;
     or_flags FAT_BUF_DIRTY
   else ret tt) ;;
  dir_to_loc at_ ;;
  let sfn := put_sfn_name nm len in
  dir_add_lfns (Z.to_nat lfns) nm len (get_crc sfn) LFN_HEAD_MSK ;;
  let '(date, time) := encode_timestamp in
  update_dir_buf ;;
  '(_, p) <- dir_ptr ;;
  or_flags FAT_BUF_DIRTY ;;
  modify_buf (put_sfn p sfn attr clust date time).

(** ** Volumes *)

(** The [lba] of an MBR partition of type FAT32. *)
Definition get_part_lba (b : list Z) (partition : nat) : option Z :=
  if negb (get_le 2 b 510 =? 0xaa55) then None
  else if negb (get_u8 b (446 + 16 * partition + 4) =? 0x0c) then None
  else Some (get_le 4 b (446 + 16 * partition + 8)).

(** ["FAT32   "] *)
Definition fs_type_fat32 : list Z := [70; 65; 84; 51; 50; 32; 32; 32].

(** [None] is the division by a zero [sect_per_clust]. *)
Definition check_fat (b : list Z) : option bool :=
  let fat_cnt := get_u8 b 16 in
  if negb (get_u8 b 0 =? 0xeb) && negb (get_u8 b 0 =? 0xe9) then Some false
  else if negb (fat_cnt =? 2) then Some false
  else if ctrue (get_le 2 b 17) || ctrue (get_le 2 b 19) || ctrue (get_le 2 b 22) then Some false
  else if negb (get_le 2 b 48 =? 1) then Some false
  else if negb (bool_decide (slice 82 8 b = fs_type_fat32)) then Some false
  else if negb (get_le 2 b 11 =? 512) then Some false
  else if negb (has (get_le 2 b 40) EXT_FLAG_MIRROR) &&
          (1 <? Z.land (get_le 2 b 40) EXT_FLAG_ACT) then Some false
  else
    let sect_cnt := u32 (get_le 4 b 32 - u32 (get_le 2 b 14 + u32 (fat_cnt * get_le 4 b 36))) in
    if get_u8 b 13 =? 0 then None else Some (65525 <=? sect_cnt / get_u8 b 13).

(** [ops->read(g_buf, sect)] *)
Definition read_g_buf (sc : Z) : M D unit := fun s =>
  let '(ok, b) := ops_read (disk s) (g_buf s) sc in
  (if ok : bool then Ok tt else Err FAT_ERR_IO, with_g_buf b s).

(** [probe], with the [lba] it finds. *)
Definition probe (partition : nat) : M D Z :=
  read_g_buf 0 ;;
  b <- get g_buf ;;
  match check_fat b with
  | None => trap
  | Some true => if (partition =? 0)%nat then ret 0 else fail FAT_ERR_NOFAT
  | Some false =>
    match get_part_lba b partition with
    | None => fail FAT_ERR_NOFAT
    | Some lba =>
      read_g_buf lba ;;
      b <- get g_buf ;;
      match check_fat b with
      | None => trap
      | Some ok => if ok then ret lba else fail FAT_ERR_NOFAT
      end
    end
  end.

Definition fat_probe (partition : nat) : M D unit := probe partition ;; ret tt.

(** [__builtin_ctz] of an 8-bit value; [n] bits are left. *)
Fixpoint ctz_from (n : nat) (x i : Z) : Z :=
  match n with
  | O => i
  | S n => if Z.testbit x i then i else ctz_from n x (i + 1)
  end.

Definition fat_mount (partition : nat) (nm : list Z) : M D unit :=
  lba <- probe partition ;;
  b <- get g_buf ;;
  let mirror := ctrue (Z.land (get_le 2 b 40) EXT_FLAG_MIRROR) in
  let use_first := Z.land (get_le 2 b 40) EXT_FLAG_SECOND =? 0 in
  let res_cnt := get_le 2 b 14 in
  let spf := get_le 4 b 36 in
  let fat_0 := u32 (lba + res_cnt) in
  let fat_1 := u32 (lba + res_cnt + spf) in
  let spc := get_u8 b 13 in
  modify_fat (fun f => mkFat (spc - 1) (u32 (spf * 128)) (u32 (lba + get_le 2 b 48))
    (if use_first then fat_0 else fat_1)
    (if mirror then (if use_first then fat_1 else fat_0) else 0)
    (u32 (lba + res_cnt + u32 (get_u8 b 16 * spf)))
    (get_le 4 b 44) (last_used f) (free_cnt f) (sect f) (buf f) (fflags f)
    (ctz_from 8 spc 0) (name f)) ;;
  isect <- get (fun s => info_sect (fat s)) ;;
  read_g_buf isect ;;
  b <- get g_buf ;;
  if negb (get_le 4 b 508 =? FSINFO_TAIL_SIG) || negb (get_le 4 b 0 =? FSINFO_HEAD_SIG) ||
     negb (get_le 4 b 484 =? FSINFO_STRUCT_SIG) ||
     (get_le 4 b FSINFO_NEXT_FREE =? 0xffffffff) || (get_le 4 b FSINFO_FREE_CNT =? 0xffffffff)
  then fail FAT_ERR_NOFAT else
  modify_fat (with_last_used (get_le 4 b FSINFO_NEXT_FREE)) ;;
  modify_fat (with_free_cnt (get_le 4 b FSINFO_FREE_CNT)) ;;
  if 32 <? Z.of_nat (length nm) then fail FAT_ERR_PARAM else
  modify_fat (fun f => mkFat (clust_msk f) (clust_cnt f) (info_sect f) (fat_sect0 f) (fat_sect1 f)
    (data_sect f) (root_clust f) (last_used f) (free_cnt f) 0 (buf f) (fflags f)
    (clust_shift f) nm) ;;
  modify (with_mounted true).

Definition fat_umount : M D unit :=
  m <- get mounted ;;
  if negb m then fail FAT_ERR_PARAM else
  modify (with_mounted false) ;;
  sync_fs.

Definition fat_sync : M D unit := sync_fs.

(** ** Reading directories *)

Fixpoint fat_dir_read_loop (fuel : nat) (first : bool) : M D DirInfo :=
  match fuel with
  | O => out_of_fuel
  | S fuel =>
    (if first then ret tt else dir_next) ;;
    update_dir_buf ;;
    '(b, p) <- dir_ptr ;;
    if sfn_is_last b p then fail FAT_ERR_EOF
    else if sfn_is_free b p then fat_dir_read_loop fuel false
    else
    (if sfn_is_lfn b p then
       parse_lfn_name ;;
       update_dir_buf ;;
       '(b, p) <- dir_ptr ;;
       crc <- get g_crc ;;
       if sfn_is_free b p || negb (crc =? get_crc (sfn_name b p)) then fail FAT_ERR_BROKEN
       else ret tt
     else parse_sfn_name (sfn_name b p)) ;;
    '(b, p) <- dir_ptr ;;
    n <- get g_len ;;
    gb <- get g_buf ;;
    ret (mkDirInfo
      (decode_timestamp (get_le 2 b (p + SFN_CRE_DATE)) (get_le 2 b (p + SFN_CRE_TIME)))
      (decode_timestamp (get_le 2 b (p + SFN_MOD_DATE)) (get_le 2 b (p + SFN_MOD_TIME)))
      (get_le 4 b (p + SFN_SIZE)) (sfn_attr b p) (take (Z.to_nat n) gb))
  end.
Definition fat_dir_read (fuel : nat) : M D DirInfo := fat_dir_read_loop fuel true.

Definition fat_dir_next : M D unit := dir_next.
Definition fat_dir_rewind : M D unit := d <- get dir ;; dir_at_clust (d_sclust d).

Definition fat_stat (fuel : nat) (p : list Z) : M D DirInfo :=
  modify (with_path p) ;;
  follow_path fuel true ;;
  rest <- get path ;;
  if ctrue (subpath_len rest) then fail FAT_ERR_PATH else
  l <- get loc ;;
  dir_to_loc l ;;
  fat_dir_read fuel.

(** The check of [fat_unlink] that a directory holds no entry. *)
Fixpoint dir_empty_loop (fuel : nat) : M D unit :=
  match fuel with
  | O => out_of_fuel
  | S fuel =>
    update_dir_buf ;;
    '(b, p) <- dir_ptr ;;
    if sfn_is_last b p then ret tt
    else if negb (sfn_is_free b p) then fail FAT_ERR_DENIED
    else dir_next ;; dir_empty_loop fuel
  end.

Definition fat_unlink (fuel : nat) (p : list Z) : M D unit :=
  modify (with_path p) ;;
  follow_path fuel true ;;
  root <- dir_at_root ;;
  if root : bool then fail FAT_ERR_DENIED else
  '(b, p) <- dir_ptr ;;
  let clust := sfn_cluster b p in
  let attr := sfn_attr b p in
  if has attr (Z.lor (Z.lor FAT_ATTR_RO FAT_ATTR_SYS) FAT_ATTR_LABEL) then fail FAT_ERR_DENIED else
  (if has attr FAT_ATTR_DIR then
     saved <- get dir ;;
     dir_enter clust ;;
     dir_advance 2 ;;
     dir_empty_loop fuel ;;
     modify (with_dir (fun _ => saved))
   else ret tt) ;;
  remove_chain fuel clust ;;
  remove_entries fuel ;;
  sync_fs.

(** ** Files *)

Definition modify_file (f : File -> File) : M D unit := modify (with_file f).

(** [ops.write(file->buf, sect)], [ops.read(file->buf, sect)] *)
Definition write_file_buf (sc : Z) : M D unit := fun s =>
  let '(ok, d) := ops_write (disk s) (f_buf (file s)) sc in
  (if ok : bool then Ok tt else Err FAT_ERR_IO, with_disk d s).
Definition read_file_buf (sc : Z) : M D unit := fun s =>
  let '(ok, b) := ops_read (disk s) (f_buf (file s)) sc in
  (if ok : bool then Ok tt else Err FAT_ERR_IO, with_file (with_f_buf b) s).

(** The walk along the cluster chain; [n] links are left. *)
Fixpoint seek_chain (n fuel : nat) : M D unit :=
  match n with
  | O => ret tt
  | S n =>
    f <- get file ;;
    '(next, flags) <- get_fat (f_clust f) ;;
    if has flags (Z.lor CLUST_BAD CLUST_FREE) then fail FAT_ERR_BROKEN else
    next <- (if has flags CLUST_LAST then stretch_chain fuel (f_clust f) else ret next) ;;
    modify_file (fun f => file_to next (f_sect f) (f_offset f) f) ;;
    seek_chain n fuel
  end.

Definition fat_file_seek (fuel : nat) (offset : Z) (seek : fat_seek) : M D unit :=
  f <- get file ;;
  let ssect := f_sect f in
  if negb (f_open f) then fail FAT_ERR_PARAM else
  let off64 := match seek with
               | FAT_SEEK_START => 0 | FAT_SEEK_CURR => f_offset f | FAT_SEEK_END => f_size f
               end + offset in
  if (off64 <? 0) || (0xffffffff <? off64) then fail FAT_ERR_EOF else
  let off := u32 off64 in
  v <- get fat ;;
  let clust_size := u32 (Z.shiftl 512 (clust_shift v)) in
  let dst_clust := off / clust_size in
  let src_clust := f_offset f / clust_size in
  src_clust <- (if dst_clust <? src_clust then
                  modify_file (fun f => file_to (f_sclust f) (clust_to_sect v (f_sclust f)) 0 f) ;;
                  ret 0
                else ret src_clust) ;;
  seek_chain (Z.to_nat (u32 (dst_clust - src_clust))) fuel ;;
  v <- get fat ;;
  modify_file (fun f => file_to (f_clust f)
    (u32 (clust_to_sect v (f_clust f) + Z.land (off / 512) (clust_msk v))) off f) ;;
  f <- get file ;;
  if negb (f_sect f =? ssect) then
    (if has (f_flags f) FAT_FILE_DIRTY then
       write_file_buf ssect ;;
       modify_file (fun f => with_f_flags (clear_flag FAT_FILE_DIRTY (f_flags f)) f)
     else ret tt) ;;
    read_file_buf (f_sect f)
  else ret tt.

Definition fat_file_open (fuel : nat) (p : list Z) (flags : Z) : M D unit :=
  modify (with_path p) ;;
  r <- attempt (follow_path fuel false) ;;
  match r with
  | inl _ => ret tt
  | inr err =>
    if negb (err =? FAT_ERR_EOF) then fail err else
    if Z.land flags FAT_CREATE =? 0 then fail FAT_ERR_DENIED else
    rest <- get path ;;
    let len := last_subpath_len rest in
    if len =? 0 then fail FAT_ERR_PATH else
    clust <- create_chain fuel ;;
    dir_add fuel rest len FAT_ATTR_ARCHIVE clust
  end ;;
  '(b, p) <- dir_ptr ;;
  d <- get dir ;;
  let size := get_le 4 b (p + SFN_SIZE) in
  modify_file (fun f => mkFile true (d_sect d) (sfn_cluster b p) (sfn_cluster b p) 0xffffffff
    size 0 (d_idx d) (sfn_attr b p) flags (f_buf f)) ;;
  (if ctrue size && has flags FAT_TRUNC then
     modify_file (fun f => with_f_flags (set_flag FAT_MODIFIED (f_flags f)) (with_f_size 0 f))
   else ret tt) ;;
  fat_file_seek fuel 0 (if has flags FAT_APPEND then FAT_SEEK_END else FAT_SEEK_START).

(** The bytes copied out so far are in front of the ones still to read. *)
Fixpoint fat_file_read_loop (n fuel : nat) (len : Z) (got : list Z) : M D (list Z) :=
  match n with
  | O => out_of_fuel
  | S n =>
    f <- get file ;;
    if (len =? 0) || (f_size f <=? f_offset f) then ret got else
    let idx := f_offset f mod 512 in
    let cnt := LIMIT len (LIMIT (512 - idx) (f_size f - f_offset f)) in
    let got := got ++ slice (Z.to_nat idx) (Z.to_nat cnt) (f_buf f) in
    fat_file_seek fuel cnt FAT_SEEK_CURR ;;
    fat_file_read_loop n fuel (len - cnt) got
  end.
Definition fat_file_read (fuel : nat) (len : Z) : M D (list Z) :=
  f <- get file ;;
  if negb (f_open f) then fail FAT_ERR_PARAM else
  if Z.land (f_flags f) FAT_READ =? 0 then fail FAT_ERR_DENIED else
  modify_file (fun f => with_f_flags (set_flag FAT_ACCESSED (f_flags f)) f) ;;
  fat_file_read_loop (S (Z.to_nat len)) fuel len [].

(** The result is the number of bytes written.  The [err] that the loop stops
    on is a variable of its own and is not the one returned. *)
Fixpoint fat_file_write_loop (n fuel : nat) (src : list Z) (bytes : Z) : M D Z :=
  match n with
  | O => out_of_fuel
  | S n =>
    match src with
    | [] => ret bytes
    | _ =>
      f <- get file ;;
      let idx := f_offset f mod 512 in
      let cnt := LIMIT (Z.of_nat (length src)) (512 - idx) in
      modify_file (fun f => with_f_flags (set_flag FAT_FILE_DIRTY (f_flags f))
        (with_f_buf (splice (Z.to_nat idx) (take (Z.to_nat cnt) src) (f_buf f)) f)) ;;
      r <- attempt (fat_file_seek fuel cnt FAT_SEEK_CURR) ;;
      match r with
      | inr _ => ret (bytes + cnt)
      | inl _ => fat_file_write_loop n fuel (drop (Z.to_nat cnt) src) (bytes + cnt)
      end
    end
  end.
Definition fat_file_write (fuel : nat) (src : list Z) : M D Z :=
  f <- get file ;;
  if negb (f_open f) then fail FAT_ERR_PARAM else
  if Z.land (f_flags f) FAT_WRITE =? 0 then fail FAT_ERR_DENIED else
  modify_file (fun f => with_f_flags
    (set_flag (Z.lor FAT_MODIFIED FAT_ACCESSED) (f_flags f)) f) ;;
  bytes <- fat_file_write_loop (S (length src)) fuel src 0 ;;
  modify_file (fun f => if f_size f <? f_offset f then with_f_size (f_offset f) f else f) ;;
  ret bytes.

Definition fat_file_sync : M D unit :=
  f <- get file ;;
  if negb (f_open f) then fail FAT_ERR_PARAM else
  write_file_buf (f_sect f) ;;
  (if has (f_flags f) (Z.lor FAT_ACCESSED FAT_MODIFIED) then
     update_buf (f_dir_sect f) ;;
     let p := Z.to_nat (f_dir_idx f) in
     or_flags FAT_BUF_DIRTY ;;
     let '(date, time) := encode_timestamp in
     (if has (f_flags f) FAT_ACCESSED
      then modify_buf (fun b => put_le 2 b (p + SFN_ACC_DATE) date) else ret tt) ;;
     (if has (f_flags f) FAT_MODIFIED then
        modify_buf (fun b => put_u8 b (p + SFN_ATTR) (Z.lor (sfn_attr b p) FAT_ATTR_ARCHIVE)) ;;
        modify_buf (fun b => put_le 4 b (p + SFN_SIZE) (f_size f)) ;;
        modify_buf (fun b => put_le 2 b (p + SFN_MOD_DATE) date) ;;
        modify_buf (fun b => put_le 2 b (p + SFN_MOD_TIME) time)
      else ret tt)
   else ret tt) ;;
  sync_fs ;;
  modify_file (fun f => with_f_flags
    (clear_flag (Z.lor FAT_ACCESSED FAT_MODIFIED) (f_flags f)) f).

Definition fat_file_close : M D unit :=
  f <- get file ;;
  if negb (f_open f) then fail FAT_ERR_PARAM else fat_file_sync.

(** The [.] and [..] entries of a new directory. *)
Definition put_dots (clust parent date time : Z) (b : list Z) : list Z :=
  let b := splice 0 (replicate 11 32) b in
  let b := put_u8 b 0 46 in
  let b := put_u8 b SFN_ATTR FAT_ATTR_DIR in
  let b := put_le 2 b SFN_CLUST_HI (Z.shiftr clust 16) in
  let b := put_le 2 b SFN_CLUST_LO (Z.land clust 0xffff) in
  let b := put_le 2 b SFN_CRE_DATE date in
  let b := put_le 2 b SFN_CRE_TIME time in
  let b := put_le 2 b SFN_MOD_DATE date in
  let b := put_le 2 b SFN_MOD_TIME time in
  let b := put_le 2 b SFN_ACC_DATE date in
  let b := splice 32 (slice 0 32 b) b in
  let b := put_u8 b (32 + 1) 46 in
  let b := put_le 2 b (32 + SFN_CLUST_HI) (Z.shiftr parent 16) in
  put_le 2 b (32 + SFN_CLUST_LO) (Z.land parent 0xffff).

Definition fat_dir_create (fuel : nat) (p : list Z) : M D unit :=
  modify (with_path p) ;;
  r <- attempt (follow_path fuel false) ;;
  match r with
  | inl _ => ret tt
  | inr err =>
    if negb (err =? FAT_ERR_EOF) then fail err else
    rest <- get path ;;
    let len := last_subpath_len rest in
    if len =? 0 then fail FAT_ERR_PATH else
    clust <- create_chain fuel ;;
    clust_clear clust ;;
    let '(date, time) := encode_timestamp in
    f <- get fat ;;
    update_buf (clust_to_sect f clust) ;;
    or_flags FAT_BUF_DIRTY ;;
    d <- get dir ;;
    let parent := if d_sclust d =? root_clust f then 0 else d_sclust d in
    modify_buf (put_dots clust parent date time) ;;
    dir_add fuel rest len FAT_ATTR_DIR clust ;;
    dir_enter clust ;;
    sync_fs
  end.

Definition fat_dir_open (fuel : nat) (p : list Z) : M D unit :=
  modify (with_path p) ;;
  follow_path fuel false ;;
  root <- dir_at_root ;;
  if root : bool then ret tt else
  update_dir_buf ;;
  '(b, p) <- dir_ptr ;;
  if Z.land (sfn_attr b p) FAT_ATTR_DIR =? 0 then fail FAT_ERR_PATH else
  dir_enter (sfn_cluster b p).

(** ** The VFS operations *)

Inductive node_type := VFS_NODE_FILE | VFS_NODE_DIRECTOR.

(** An inode of this file system: [i_type], [i_fsize] and the private data. *)
Record fat32_inode := mkInode {
  i_type : node_type;
  i_fsize : Z;
  start_clus : Z;
  file_size : Z;
  n_attr : Z;
  is_root : bool;
  n_dir_sect : Z;
  n_dir_idx : Z;
}.

(** An open file of the VFS: its position, and whether [f_pdata] is set (to the
    [File] of the state). *)
Record vfs_file := mkVfsFile { f_pos : Z; f_pdata : bool }.

Record vfs_dirent := mkDirent { e_name : list Z; e_sz : Z; e_type : node_type }.

(** The first MBR partition with a FAT32 type, -1 when there is none. *)
Fixpoint find_part (n : nat) (i : nat) (mbr : list Z) : Z :=
  match n with
  | O => -1
  | S n =>
    let t := get_u8 mbr (446 + 16 * i + 4) in
    if (t =? 0x0c) || (t =? 0x0b) then Z.of_nat i else find_part n (S i) mbr
  end.
Definition fat32_init (mbr : list Z) : Z :=
  if get_le 2 mbr 510 =? 0xaa55 then find_part 4 0 mbr else -1.

(** ["root"] and ["/root"] *)
Definition vol_name : list Z := [114; 111; 111; 116].
Definition vol_path : list Z := 47 :: vol_name.

(** A [Fat] from [kzalloc]. *)
Definition zero_fat : Fat := mkFat 0 0 0 0 0 0 0 0 0 0 (replicate 512 0) 0 0 [].

(** The root inode, or null when the volume cannot be mounted. *)
Definition fat32_mksb (active_part : Z) : M D (option fat32_inode) :=
  let part := if 0 <=? active_part then active_part else 0 in
  modify_fat (fun _ => zero_fat) ;;
  r <- attempt (fat_mount (Z.to_nat part) vol_name) ;;
  match r with
  | inr _ => ret None
  | inl _ =>
    f <- get fat ;;
    ret (Some (mkInode VFS_NODE_DIRECTOR 0 (root_clust f) 0 FAT_ATTR_DIR true 0 0))
  end.

Definition fat32_lookup (fuel : nat) (this : fat32_inode) (d_name : list Z) :
    M D (option fat32_inode) :=
  if negb (has (n_attr this) FAT_ATTR_DIR) then ret None else
  modify (with_dir (fun d => mkDir (start_clus this) (d_clust d) (d_sect d) (d_idx d))) ;;
  r <- attempt (dir_search fuel d_name (Z.of_nat (length d_name)) true ;; update_dir_buf) ;;
  match r with
  | inr _ => ret None
  | inl _ =>
    '(b, p) <- dir_ptr ;;
    d <- get dir ;;
    let size := get_le 4 b (p + SFN_SIZE) in
    let is_dir := has (sfn_attr b p) FAT_ATTR_DIR in
    ret (Some (mkInode (if is_dir then VFS_NODE_DIRECTOR else VFS_NODE_FILE)
      (if is_dir then 0 else size) (sfn_cluster b p) size (sfn_attr b p) false
      (d_sect d) (d_idx d)))
  end.

(** [write_mode] is a mode of [VFS_MODE_WRITE] or [VFS_MODE_READWRITE]. *)
Definition fat32_open (fuel : nat) (this : fat32_inode) (write_mode : bool) : M D vfs_file :=
  modify_file (fun _ => mkFile true (n_dir_sect this) (start_clus this) (start_clus this)
    0xffffffff (file_size this) 0 (n_dir_idx this) (n_attr this)
    (if write_mode then Z.lor FAT_READ FAT_WRITE else FAT_READ) (replicate 512 0)) ;;
  _ <- attempt (fat_file_seek fuel 0 FAT_SEEK_START) ;;
  f <- get file ;;
  ret (mkVfsFile (f_offset f) true).

Definition fat32_close (filep : vfs_file) : M D (Z * vfs_file) :=
  if negb (f_pdata filep) then ret (0, filep) else
  _ <- attempt fat_file_sync ;;
  ret (0, mkVfsFile (f_pos filep) false).

(** Return value, file and the bytes read. *)
Definition fat32_read (fuel : nat) (filep : vfs_file) (len : Z) : M D (Z * vfs_file * list Z) :=
  if negb (f_pdata filep) then ret (-1, filep, []) else
  if len <=? 0 then ret (0, filep, []) else
  r <- attempt (fat_file_read fuel len) ;;
  f <- get file ;;
  match r with
  | inl bs => ret (0, mkVfsFile (f_offset f) true, bs)
  | inr _ => ret (-1, mkVfsFile (f_offset f) true, [])
  end.

(** Return value, inode and file. *)
Definition fat32_write (fuel : nat) (this : fat32_inode) (filep : vfs_file) (src : list Z) :
    M D (Z * fat32_inode * vfs_file) :=
  if negb (f_pdata filep) then ret (-1, this, filep) else
  if Z.of_nat (length src) <=? 0 then ret (0, this, filep) else
  r <- attempt (fat_file_write fuel src) ;;
  f <- get file ;;
  ret (match r with inl _ => 0 | inr _ => -1 end,
       mkInode (i_type this) (f_size f) (start_clus this) (file_size this) (n_attr this)
         (is_root this) (n_dir_sect this) (n_dir_idx this),
       mkVfsFile (f_offset f) true).

(** [wence] is [None] when it is none of the three. *)
Definition fat32_lseek (fuel : nat) (filep : vfs_file) (offset : Z) (wence : option fat_seek) :
    M D (Z * vfs_file) :=
  if negb (f_pdata filep) then ret (-1, filep) else
  match wence with
  | None => ret (-1, filep)
  | Some seek =>
    r <- attempt (fat_file_seek fuel offset seek) ;;
    f <- get file ;;
    ret (match r with inl _ => i32 (f_offset f) | inr _ => -1 end, mkVfsFile (f_offset f) true)
  end.

Fixpoint iterate_loop (n fuel : nat) (entries : list vfs_dirent) : M D (list vfs_dirent) :=
  match n with
  | O => out_of_fuel
  | S n =>
    r <- attempt (fat_dir_read fuel) ;;
    match r with
    | inr _ => ret entries
    | inl info =>
      _ <- attempt fat_dir_next ;;
      if bool_decide (i_name info = [46]) || bool_decide (i_name info = [46; 46])
      then iterate_loop n fuel entries
      else iterate_loop n fuel (entries ++
        [mkDirent (i_name info) (i_size info)
           (if has (i_attr info) FAT_ATTR_DIR then VFS_NODE_DIRECTOR else VFS_NODE_FILE)])
    end
  end.

(** The entries of the directory, null on failure. *)
Definition fat32_iterate (fuel : nat) (this : fat32_inode) (p : list Z) :
    M D (option (list vfs_dirent)) :=
  if negb (has (n_attr this) FAT_ATTR_DIR) then ret None else
  r <- attempt (match p with
                | _ :: _ => fat_dir_open fuel p
                | [] => if is_root this then fat_dir_open fuel vol_path
                        else dir_enter (start_clus this)
                end) ;;
  match r with
  | inr _ => ret None
  | inl _ => es <- iterate_loop fuel fuel [] ;; ret (Some es)
  end.

End Code.
