(* ===== verification/Fat32Cache.v ===== *)
(** * FAT32: the sector buffer

    The one-sector write-back buffer of a volume refines the plain disk.
    [view s t] is the logical content of sector [t]: the buffer for the
    buffered sector, the disk for the others.  [update_buf], [sync_buf]
    and [sync_fs] keep it, whatever is dirty; a sync also makes the disk agree
    with it.

    Sector 0 is left out: a fresh volume has [sect = 0] with nothing loaded. *)

From S2P Require Import Prelude Fat32.

(** ** What the code relies on of the driver

    [sector d t] is what sector [t] of the disk holds.  A failed transfer
    promises nothing about its own sector or buffer. *)
Class DiskLaws (D : Type) `{DiskOps D} := {
  sector : D -> Z -> list Z;
  sector_length : forall d t, length (sector d t) = 512%nat;
  sector_bytes : forall d t, bytes (sector d t);
  read_sector : forall d b t b', ops_read d b t = (true, b') -> b' = sector d t;
  write_sector : forall d b t d' u, length b = 512%nat -> bytes b ->
    ops_write d b t = (true, d') -> sector d' u = if decide (u = t) then b else sector d u;
}.

(** No transfer fails. *)
Definition reliable (D : Type) `{DiskOps D} : Prop :=
  (forall d b t, (ops_read d b t).1 = true) /\ (forall d b t, (ops_write d b t).1 = true).

(** The error of a failed transfer; it cannot come from a reliable disk. *)
Definition io_failure (D : Type) `{DiskOps D} (e : Z) : Prop :=
  e = FAT_ERR_IO /\ ~ reliable D.

(** ** Weakest preconditions

    [wp m s Q E]: from [s] the computation neither runs out of fuel nor
    traps, a result satisfies [Q] and an error code [E]. *)
Section Wp.
Context {D : Type}.

Definition wp {A} (m : M D A) (s : St D) (Q : A -> St D -> Prop) (E : Z -> Prop) : Prop :=
  match m s with
  | (Ok a, s) => Q a s
  | (Err e, _) => E e
  | _ => False
  end.

Lemma wp_bind {A B} (m : M D A) (k : A -> M D B) s Q E :
  wp m s (fun a s => wp (k a) s Q E) E -> wp (bind m k) s Q E.
Proof. unfold wp, bind. destruct (m s) as [[] s']; done. Qed.

Lemma wp_ret {A} (a : A) s Q E : Q a s -> wp (ret a) s Q E.
Proof. done. Qed.
Lemma wp_fail {A} e s (Q : A -> St D -> Prop) (E : Z -> Prop) : E e -> wp (fail e) s Q E.
Proof. done. Qed.
Lemma wp_get {A} (f : St D -> A) s Q E : Q (f s) s -> wp (get f) s Q E.
Proof. done. Qed.
Lemma wp_modify (f : St D -> St D) s Q E : Q tt (f s) -> wp (modify f) s Q E.
Proof. done. Qed.

Lemma wp_mono {A} (m : M D A) s (Q Q' : A -> St D -> Prop) (E E' : Z -> Prop) :
  wp m s Q E -> (forall a s', Q a s' -> Q' a s') -> (forall e, E e -> E' e) -> wp m s Q' E'.
Proof. unfold wp. destruct (m s) as [[] s']; auto. Qed.

Lemma wp_attempt {A} (m : M D A) s (Q : A -> St D -> Prop) (E E' : Z -> Prop) R :
  wp m s Q E -> (forall a s', Q a s' -> R (inl a) s') ->
  (forall e s', E e -> m s = (Err e, s') -> R (inr e) s') ->
  wp (attempt m) s R E'.
Proof. unfold wp, attempt. destruct (m s) as [[] s']; auto. Qed.

(** Reading off the result of a run. *)
Lemma wp_Ok {A} (m : M D A) s Q E :
  wp m s Q E -> (forall e, ~ E e) -> exists a s', m s = (Ok a, s') /\ Q a s'.
Proof. unfold wp. intros H HE. destruct (m s) as [[a|e| |] s']; [by exists a, s'|exfalso|done..]. by eapply HE. Qed.

End Wp.

(** One step of symbolic execution. *)
Ltac wp_step :=
  lazymatch goal with
  | |- wp (bind _ _) _ _ _ => apply wp_bind
  | |- wp (ret _) _ _ _ => apply wp_ret
  | |- wp (get _) _ _ _ => apply wp_get
  | |- wp (modify _) _ _ _ => apply wp_modify
  | |- wp (fail _) _ _ _ => apply wp_fail
  end.
Ltac wp_steps := repeat (wp_step; cbn beta).

(** ** The logical disk *)

Section Cache.
Context {D : Type} {DO : DiskOps D} {DL : @DiskLaws D DO}.
Implicit Types s : St D.

Definition view s (t : Z) : list Z :=
  if decide (t = sect (fat s)) then buf (fat s) else sector (disk s) t.

Definition buf_dirty s : bool := has (fflags (fat s)) FAT_BUF_DIRTY.
Definition info_dirty s : bool := has (fflags (fat s)) FAT_INFO_DIRTY.

Record cache_inv s : Prop := {
  ci_length : length (buf (fat s)) = 512%nat;
  ci_bytes : bytes (buf (fat s));
  ci_flags : 0 <= fflags (fat s) < 256;
  ci_clean : buf_dirty s = false -> sect (fat s) ≠ 0 -> buf (fat s) = sector (disk s) (sect (fat s));
  ci_dirty : buf_dirty s = true -> sect (fat s) ≠ 0;
}.

(** The part of the state that the buffer operations leave alone. *)
Definition geom (f : Fat) :=
  (clust_msk f, clust_cnt f, info_sect f, fat_sect0 f, fat_sect1 f, data_sect f, root_clust f,
   clust_shift f, name f).
Definition others s :=
  (mounted s, (g_buf s, g_len s, g_crc s), (dir s, loc s, path s, file s)).
Definition rest s :=
  (geom (fat s), last_used (fat s), free_cnt (fat s), info_dirty s, others s).

Lemma rest_inv s s' :
  rest s' = rest s <->
  geom (fat s') = geom (fat s) /\ last_used (fat s') = last_used (fat s) /\
  free_cnt (fat s') = free_cnt (fat s) /\ info_dirty s' = info_dirty s /\ others s' = others s.
Proof.
  unfold rest. rewrite !pair_equal_spec. tauto.
Qed.

Lemma geom_inv (f f' : Fat) :
  geom f' = geom f ->
  clust_msk f' = clust_msk f /\ clust_cnt f' = clust_cnt f /\ info_sect f' = info_sect f /\
  fat_sect0 f' = fat_sect0 f /\ fat_sect1 f' = fat_sect1 f /\ data_sect f' = data_sect f /\
  root_clust f' = root_clust f /\ clust_shift f' = clust_shift f /\ name f' = name f.
Proof. unfold geom. intros E. injection E. intros. by split_and!. Qed.

(** [s'] shows the same sectors as [s]. *)
Definition same_view s s' : Prop := forall t, t ≠ 0 -> view s' t = view s t.

(** What every buffer operation guarantees. *)
Definition kept s s' : Prop := cache_inv s' /\ same_view s s' /\ rest s' = rest s.

Lemma view_length s t : cache_inv s -> length (view s t) = 512%nat.
Proof. intros Hs. unfold view. case_decide; [apply Hs | apply sector_length]. Qed.

Lemma view_bytes s t : cache_inv s -> bytes (view s t).
Proof. intros Hs. unfold view. case_decide; [apply Hs | apply sector_bytes]. Qed.

Lemma kept_refl s : cache_inv s -> kept s s.
Proof. intros Hs. unfold kept. by split_and!. Qed.

Lemma kept_trans s1 s2 s3 : kept s1 s2 -> kept s2 s3 -> kept s1 s3.
Proof.
  intros (? & V1 & R1) (? & V2 & R2). unfold kept. split_and!; [done| |congruence].
  intros t Ht. by rewrite V2, V1.
Qed.

(** Flags of a byte *)
Lemma has_testbit x n : 0 <= n -> has x (2 ^ n) = Z.testbit x n.
Proof.
  intros Hn. unfold has, ctrue. destruct (Z.testbit x n) eqn:E.
  - apply negb_true_iff, Z.eqb_neq. intros H0.
    assert (Z.testbit (Z.land x (2 ^ n)) n = false) as H1 by (rewrite H0; apply Z.bits_0).
    rewrite Z.land_spec, E, Z.pow2_bits_true in H1 by done. done.
  - apply negb_false_iff, Z.eqb_eq, Z.bits_inj'. intros m Hm.
    rewrite Z.land_spec, Z.bits_0, Z.pow2_bits_eqb by done.
    destruct (Z.eqb_spec n m) as [->|]; [by rewrite E|]. by rewrite andb_false_r.
Qed.

Lemma testbit_set_flag x n m :
  0 <= n -> 0 <= m -> Z.testbit (set_flag (2 ^ n) x) m = Z.testbit x m || (n =? m).
Proof. intros ??. unfold set_flag. by rewrite Z.lor_spec, Z.pow2_bits_eqb. Qed.

Lemma testbit_clear_flag x n m :
  0 <= n < 8 -> 0 <= m < 8 -> Z.testbit (clear_flag (2 ^ n) x) m = Z.testbit x m && negb (n =? m).
Proof.
  intros ??. unfold clear_flag, u8. rewrite Z.land_spec, Z.mod_pow2_bits_low by lia.
  by rewrite Z.lnot_spec, Z.pow2_bits_eqb by lia.
Qed.
Lemma byte_shiftr x : 0 <= x -> Z.shiftr x 8 = 0 -> 0 <= x < 256.
Proof.
  intros H0 H1. rewrite Z.shiftr_div_pow2 in H1 by lia. change (2 ^ 8) with 256 in H1.
  apply Z.div_small_iff in H1; lia.
Qed.

Lemma set_flag_range x m : 0 <= x < 256 -> 0 <= m < 256 -> 0 <= set_flag m x < 256.
Proof.
  intros Hx Hm. unfold set_flag. apply byte_shiftr; [apply Z.lor_nonneg; lia|].
  rewrite Z.shiftr_lor, !Z.shiftr_div_pow2 by lia. change (2 ^ 8) with 256.
  by rewrite !Z.div_small by lia.
Qed.

Lemma clear_flag_range x m : 0 <= x < 256 -> 0 <= clear_flag m x < 256.
Proof.
  intros Hx. unfold clear_flag. apply byte_shiftr; [apply Z.land_nonneg; lia|].
  rewrite Z.shiftr_land, !Z.shiftr_div_pow2 by lia. change (2 ^ 8) with 256.
  by rewrite (Z.div_small x) by lia.
Qed.

(** The two flags of a volume do not interfere. *)
Lemma has_set_clear x :
  has (set_flag FAT_BUF_DIRTY x) FAT_BUF_DIRTY = true /\
  has (set_flag FAT_BUF_DIRTY x) FAT_INFO_DIRTY = has x FAT_INFO_DIRTY /\
  has (set_flag FAT_INFO_DIRTY x) FAT_INFO_DIRTY = true /\
  has (set_flag FAT_INFO_DIRTY x) FAT_BUF_DIRTY = has x FAT_BUF_DIRTY /\
  has (clear_flag FAT_BUF_DIRTY x) FAT_BUF_DIRTY = false /\
  has (clear_flag FAT_BUF_DIRTY x) FAT_INFO_DIRTY = has x FAT_INFO_DIRTY /\
  has (clear_flag FAT_INFO_DIRTY x) FAT_INFO_DIRTY = false /\
  has (clear_flag FAT_INFO_DIRTY x) FAT_BUF_DIRTY = has x FAT_BUF_DIRTY.
Proof.
  change FAT_BUF_DIRTY with (2 ^ 0). change FAT_INFO_DIRTY with (2 ^ 1).
  rewrite !has_testbit, !testbit_set_flag, !testbit_clear_flag by lia. simpl.
  by rewrite ?orb_true_r, ?orb_false_r, ?andb_true_r, ?andb_false_r.
Qed.

Lemma write_buf_spec s :
  cache_inv s ->
  wp write_buf s (fun _ s' =>
    exists d, s' = with_disk d s /\ forall t, sector d t = view s t) (io_failure D).
Proof.
  intros Hs. unfold wp, write_buf.
  destruct (ops_write _ _ _) as [[] d] eqn:E.
  - exists d. split; [done|]. intros t.
    rewrite (write_sector _ _ _ _ t (ci_length s Hs) (ci_bytes s Hs) E). unfold view.
    by case_decide.
  - split; [done|]. intros [_ Hw]. specialize (Hw (disk s) (buf (fat s)) (sect (fat s))).
    by rewrite E in Hw.
Qed.

(** After a sync the disk itself shows every sector. *)
Lemma sync_buf_spec s :
  cache_inv s ->
  wp sync_buf s (fun _ s' =>
    kept s s' /\ buf_dirty s' = false /\ sect (fat s') = sect (fat s) /\
    buf (fat s') = buf (fat s) /\
    forall t, t ≠ 0 -> sector (disk s') t = view s t) (io_failure D).
Proof.
  intros Hs. unfold sync_buf. wp_steps. fold (buf_dirty s). destruct (buf_dirty s) eqn:Ed.
  - wp_step. eapply wp_mono; [by apply write_buf_spec| |done].
    intros _ s' (d & -> & Hd). unfold unset_flags, modify_fat. wp_step. wp_steps.
    destruct (has_set_clear (fflags (fat s))) as (_ & _ & _ & _ & Hc1 & Hc2 & _).
    assert (cache_inv (with_fat (fun f => with_fflags (clear_flag FAT_BUF_DIRTY (fflags f)) f)
              (with_disk d s))) as Hinv.
    { constructor; simpl; try apply Hs.
      - apply clear_flag_range, Hs.
      - intros _ Hne. rewrite Hd. unfold view. by rewrite decide_True.
      - unfold buf_dirty. simpl. by rewrite Hc1. }
    unfold kept. split_and!; [done| | |done..|by intros t _; rewrite <- Hd].
    + intros t Ht. unfold view. simpl. rewrite Hd. unfold view. by case_decide.
    + unfold rest, info_dirty. simpl. by rewrite Hc2.
  - wp_steps. split_and!; [by apply kept_refl|done..|]. intros t Ht. unfold view. case_decide; [|done].
    subst t. symmetry. by apply (ci_clean s Hs).
Qed.

Lemma read_buf_spec s t :
  wp (read_buf t) s (fun _ s' => s' = with_fat (with_buf (sector (disk s) t)) s) (io_failure D).
Proof.
  unfold wp, read_buf. destruct (ops_read _ _ _) as [[] b] eqn:E.
  - by rewrite (read_sector _ _ _ _ E).
  - split; [done|]. intros [Hr _]. specialize (Hr (disk s) (buf (fat s)) t). by rewrite E in Hr.
Qed.

(** The buffered sector is [t] afterwards. *)
Lemma update_buf_spec s t :
  cache_inv s -> t ≠ 0 ->
  wp (update_buf t) s (fun _ s' =>
    kept s s' /\ sect (fat s') = t /\ buf (fat s') = view s t) (io_failure D).
Proof.
  intros Hs Ht. unfold update_buf. wp_steps. destruct (sect (fat s) =? t) eqn:E; breflect; simpl.
  { wp_steps. split_and!; [by apply kept_refl|done|]. unfold view. by rewrite decide_True. }
  wp_step. eapply wp_mono; [by apply sync_buf_spec| |done].
  intros _ s1 ((Hs1 & Hv1 & Hr1) & Hd1 & Hsect1 & Hbuf1 & Hdisk1).
  wp_step. eapply wp_mono; [apply read_buf_spec| |done].
  intros _ s2 ->. unfold modify_fat. wp_steps.
  assert (sector (disk s1) t = view s t) as Hvt by by apply Hdisk1.
  unfold kept. split_and!; [| | |done|done].
  - constructor; simpl; [apply sector_length | apply sector_bytes | apply Hs1 | done | done].
  - intros u Hu. unfold view at 1. simpl. case_decide; [by subst u|]. by apply Hdisk1.
  - unfold rest, info_dirty in *. simpl. by rewrite <- Hr1.
Qed.

(** ** Writing through the buffer *)

(** The buffer changed by [g] and flagged, in either order. *)
Definition dirtied (g : list Z -> list Z) s : St D :=
  with_fat (fun f => with_fflags (set_flag FAT_BUF_DIRTY (fflags f)) (with_buf (g (buf f)) f)) s.

(** [s'] shows [s] with sector [t] replaced by [b]. *)
Definition wrote s s' (t : Z) (b : list Z) : Prop :=
  cache_inv s' /\ rest s' = rest s /\
  forall u, u ≠ 0 -> view s' u = if decide (u = t) then b else view s u.

Lemma dirtied_wrote s g :
  cache_inv s -> sect (fat s) ≠ 0 ->
  length (g (buf (fat s))) = 512%nat -> bytes (g (buf (fat s))) ->
  wrote s (dirtied g s) (sect (fat s)) (g (buf (fat s))).
Proof.
  intros Hs Ht Hl Hb. destruct (has_set_clear (fflags (fat s))) as (H1 & H2 & _).
  unfold wrote. split_and!.
  - constructor; simpl; try done.
    + apply set_flag_range; [apply Hs|]. unfold FAT_BUF_DIRTY. lia.
    + unfold buf_dirty. simpl. by rewrite H1.
  - unfold rest, info_dirty. simpl. by rewrite H2.
  - intros u Hu. unfold view. simpl. by case_decide.
Qed.

Lemma kept_wrote s s1 s2 t b : kept s s1 -> wrote s1 s2 t b -> wrote s s2 t b.
Proof.
  intros (_ & V & R) (Hs & R' & V'). unfold wrote. split_and!; [done|congruence|].
  intros u Hu. rewrite V' by done. case_decide; [done|]. by apply V.
Qed.

(** A read-modify-write of sector [t]. *)
Lemma write_through_spec s t g :
  cache_inv s -> t ≠ 0 ->
  length (g (view s t)) = 512%nat -> bytes (g (view s t)) ->
  wp (update_buf t ;; modify_buf g ;; or_flags FAT_BUF_DIRTY)%fat s
    (fun _ s' => wrote s s' t (g (view s t)) /\ sect (fat s') = t) (io_failure D).
Proof.
  intros Hs Ht Hl Hb. wp_step. eapply wp_mono; [by apply update_buf_spec| |done].
  intros _ s1 (Hk & Ht1 & Hb1). unfold modify_buf, or_flags, modify_fat. wp_steps.
  match goal with |- wrote _ ?x _ _ /\ _ => change x with (dirtied g s1) end.
  split; [|done]. eapply kept_wrote; [exact Hk|]. rewrite <- Hb1, <- Ht1 at 1.
  apply dirtied_wrote; [apply Hk|congruence|by rewrite Hb1|by rewrite Hb1].
Qed.

(** The information sector as [sync_fs] writes it. *)
Definition put_info (last free : Z) (b : list Z) : list Z :=
  put_le 4 (put_le 4 b FSINFO_NEXT_FREE last) FSINFO_FREE_CNT free.

(** The sectors after [sync_fs]. *)
Definition synced_view s (t : Z) : list Z :=
  if decide (t = info_sect (fat s) /\ info_dirty s = true)
  then put_info (last_used (fat s)) (free_cnt (fat s)) (view s t) else view s t.

Lemma sync_fs_spec s :
  cache_inv s -> info_sect (fat s) ≠ 0 ->
  wp sync_fs s (fun _ s' =>
    cache_inv s' /\ buf_dirty s' = false /\ info_dirty s' = false /\
    geom (fat s') = geom (fat s) /\ last_used (fat s') = last_used (fat s) /\
    free_cnt (fat s') = free_cnt (fat s) /\ others s' = others s /\
    forall t, t ≠ 0 -> sector (disk s') t = synced_view s t /\ view s' t = synced_view s t)
    (io_failure D).
Proof.
  intros Hs Hi. unfold sync_fs. wp_step. eapply wp_mono; [by apply sync_buf_spec| |done].
  intros _ s1 ((Hs1 & Hv1 & Hr1) & Hd1 & _ & _ & Hdisk1). wp_steps. fold (info_dirty s1).
  apply rest_inv in Hr1 as (Hg1 & Hlu1 & Hfc1 & Hid1 & Ho1).
  unfold synced_view. rewrite <- Hid1. destruct (info_dirty s1) eqn:Ei.
  2:{ wp_steps. split_and!; try done.
      intros t Ht. rewrite decide_False by naive_solver. auto. }
  wp_steps. destruct (geom_inv _ _ Hg1) as (_ & _ & Hinf & _).
  rewrite Hinf. eapply wp_mono; [by apply update_buf_spec| |done].
  intros _ s2 (Hk2 & Hsect2 & Hbuf2). unfold or_flags, modify_buf, modify_fat. wp_steps.
  match goal with |- wp _ ?x _ _ =>
    change x with (dirtied (put_info (last_used (fat s2)) (free_cnt (fat s2))) s2) end.
  set (g := put_info (last_used (fat s2)) (free_cnt (fat s2))).
  destruct Hk2 as (Hs2 & Hv2 & (Hg2 & Hlu2 & Hfc2 & _ & Ho2)%rest_inv).
  pose proof (dirtied_wrote s2 g Hs2 ltac:(congruence)) as (Hs3 & (Hg3 & Hlu3 & Hfc3 & _ & Ho3)%rest_inv & Hv3).
  { unfold g, put_info. rewrite !length_put_le. apply Hs2. }
  { unfold g, put_info. auto using bytes_put_le, ci_bytes. }
  set (s3 := dirtied g s2) in *. clearbody s3.
  eapply wp_mono; [by apply sync_buf_spec| |done].
  intros _ s4 ((Hs4 & Hv4 & (Hg4 & Hlu4 & Hfc4 & _ & Ho4)%rest_inv) & Hd4 & _ & _ & Hdisk4).
  unfold unset_flags, modify_fat. wp_steps.
  destruct (has_set_clear (fflags (fat s4))) as (_ & _ & _ & _ & _ & _ & Hc & Hcb).
  assert (forall t, t ≠ 0 -> view s3 t =
    if decide (t = info_sect (fat s) /\ true = true)
    then put_info (last_used (fat s)) (free_cnt (fat s)) (view s t) else view s t) as Hv.
  { intros t Ht. rewrite Hv3, Hsect2, Hbuf2 by done. unfold g.
    rewrite Hlu2, Hlu1, Hfc2, Hfc1.
    destruct (decide (t = info_sect (fat s))) as [->|].
    - rewrite decide_True by done. by rewrite Hv1.
    - rewrite decide_False by naive_solver. by rewrite Hv2, Hv1. }
  split_and!.
  - constructor; simpl; try apply Hs4.
    + apply clear_flag_range, Hs4.
    + unfold buf_dirty. simpl. rewrite Hcb. apply Hs4.
    + unfold buf_dirty. simpl. rewrite Hcb. apply Hs4.
  - unfold buf_dirty in *. simpl. by rewrite Hcb.
  - unfold info_dirty. simpl. by rewrite Hc.
  - change (geom (fat s4) = geom (fat s)). by rewrite Hg4, Hg3, Hg2.
  - simpl. by rewrite Hlu4, Hlu3, Hlu2.
  - simpl. by rewrite Hfc4, Hfc3, Hfc2.
  - change (others s4 = others s). by rewrite Ho4, Ho3, Ho2.
  - intros t Ht. split; [by rewrite <- Hv, <- Hdisk4|].
    rewrite <- Hv by done. by rewrite <- Hv4.
Qed.

(** Durability of a sync.  When [sync_fs] returns without an error nothing
    is dirty any more and every sector of the disk holds its logical content,
    the information sector (when it was stale) with the volume's free-cluster
    count and last-used hint filled in.  Only a failed transfer is an error. *)
Theorem sync_fs_durable s :
  cache_inv s -> info_sect (fat s) ≠ 0 ->
  wp sync_fs s (fun _ s' =>
    cache_inv s' /\ buf_dirty s' = false /\ info_dirty s' = false /\
    geom (fat s') = geom (fat s) /\
    forall t, t ≠ 0 -> sector (disk s') t =
      if decide (t = info_sect (fat s) /\ info_dirty s = true)
      then put_info (last_used (fat s)) (free_cnt (fat s)) (view s t)
      else view s t) (io_failure D).
Proof.
  intros Hs Hi. eapply wp_mono; [by apply sync_fs_spec| |done].
  intros _ s' (? & ? & ? & ? & _ & _ & _ & Hv). split_and!; [done..|].
  intros t Ht. by apply Hv.
Qed.

(** ** Refinement of a plain disk

    What the rest of the file system does with the buffer: load a sector and look
    at it, load a sector and change bytes of it, sync. *)

Inductive cop :=
  | CRead (t : Z)
  | CWrite (t : Z) (off : nat) (bs : list Z)
  | CSync.

Definition cop_run (o : cop) : M D (list Z) :=
  match o with
  | CRead t => (update_buf t ;; get (fun s => buf (fat s)))%fat
  | CWrite t off bs =>
    ((update_buf t ;; modify_buf (splice off bs) ;; or_flags FAT_BUF_DIRTY) ;; ret [])%fat
  | CSync => (sync_fs ;; ret [])%fat
  end.
Fixpoint cops_run (ops : list cop) : M D (list (list Z)) :=
  match ops with
  | [] => ret []
  | o :: ops => (r <- cop_run o ;; rs <- cops_run ops ;; ret (r :: rs))%fat
  end.

(** The same on an unbuffered array of sectors. *)
Definition cop_spec (o : cop) (v : Z -> list Z) : list Z * (Z -> list Z) :=
  match o with
  | CRead t => (v t, v)
  | CWrite t off bs => ([], fun u => if decide (u = t) then splice off bs (v t) else v u)
  | CSync => ([], v)
  end.
Fixpoint cops_spec (ops : list cop) (v : Z -> list Z) : list (list Z) * (Z -> list Z) :=
  match ops with
  | [] => ([], v)
  | o :: ops =>
    let '(r, v) := cop_spec o v in let '(rs, v) := cops_spec ops v in (r :: rs, v)
  end.

Definition cop_ok (o : cop) : Prop :=
  match o with
  | CRead t => t ≠ 0
  | CWrite t _ bs => t ≠ 0 /\ bytes bs
  | CSync => True
  end.

Lemma bytes_splice off bs b : bytes bs -> bytes b -> bytes (splice off bs b).
Proof. intros ??. by apply Forall_inserts. Qed.

(** The states agree: no information sector is pending. *)
Definition agrees s (v : Z -> list Z) : Prop :=
  cache_inv s /\ info_dirty s = false /\ info_sect (fat s) ≠ 0 /\
  forall t, t ≠ 0 -> view s t = v t.

Lemma agrees_rest s s' v :
  agrees s v -> cache_inv s' -> rest s' = rest s -> forall v',
  (forall t, t ≠ 0 -> view s' t = v' t) -> agrees s' v'.
Proof.
  intros (_ & Hi & Hn & _) Hs' (Hg & _ & _ & Hid & _)%rest_inv v' Hv.
  destruct (geom_inv _ _ Hg) as (_ & _ & Hinf & _). unfold agrees.
  split_and!; [done|congruence|congruence|done].
Qed.

Lemma cop_run_spec o s v :
  agrees s v -> cop_ok o ->
  wp (cop_run o) s (fun r s' => r = (cop_spec o v).1 /\ agrees s' (cop_spec o v).2) (io_failure D).
Proof.
  intros Ha Ho. pose proof Ha as (Hs & Hi & Hn & Hv). destruct o as [t|t off bs|]; simpl.
  - wp_step. eapply wp_mono; [by apply update_buf_spec| |done].
    intros _ s' ((Hs' & Hv' & Hr) & _ & Hb). wp_steps. split; [by rewrite Hb, Hv|].
    eapply agrees_rest; [done..|]. intros u Hu. by rewrite Hv', Hv.
  - destruct Ho as [Ht Hbs]. wp_step.
    eapply wp_mono; [apply write_through_spec; [done..| |]| |done].
    + rewrite length_splice. by apply view_length.
    + apply bytes_splice; [done|]. by apply view_bytes.
    + intros _ s' ((Hs' & Hr & Hv') & _). wp_steps. split; [done|].
      eapply agrees_rest; [done..|]. intros u Hu. rewrite Hv' by done.
      case_decide; [by rewrite Hv|by apply Hv].
  - wp_step. eapply wp_mono; [by apply sync_fs_spec| |done].
    intros _ s' (Hs' & _ & Hi' & Hg & Hl & Hf & Ho' & Hv'). wp_steps. split; [done|].
    eapply agrees_rest; [done|done| |].
    + apply rest_inv. by rewrite Hi', Hi.
    + intros u Hu. destruct (Hv' u Hu) as [_ ->]. unfold synced_view.
      rewrite decide_False by (intros [_ ?]; congruence). by apply Hv.
Qed.

Lemma cops_run_spec ops : forall s v,
  agrees s v -> Forall cop_ok ops ->
  wp (cops_run ops) s (fun rs s' => rs = (cops_spec ops v).1 /\ agrees s' (cops_spec ops v).2)
    (io_failure D).
Proof.
  induction ops as [|o ops IH]; intros s v Ha Hok; simpl; [by wp_steps|].
  apply Forall_cons in Hok as [Ho Hok]. wp_step.
  eapply wp_mono; [by apply cop_run_spec| |done]. intros r s1 [-> Ha1].
  wp_step. eapply wp_mono; [by apply IH| |done]. intros rs s2 [-> Ha2]. wp_steps.
  destruct (cop_spec o v) as [r v1]. simpl in *. by destruct (cops_spec ops v1).
Qed.

(** C23. The buffer refines a plain disk.  On a reliable disk any sequence of
    sector loads, byte updates and syncs, through the one write-back buffer,
    succeeds and returns what the same sequence returns on an unbuffered
    array of sectors that starts as the logical view, and leaves a state whose
    view is that array. *)
Theorem cache_refines s ops :
  reliable D -> cache_inv s -> info_dirty s = false -> info_sect (fat s) ≠ 0 ->
  Forall cop_ok ops ->
  exists rs s', cops_run ops s = (Ok rs, s') /\
    rs = (cops_spec ops (view s)).1 /\ cache_inv s' /\
    forall t, t ≠ 0 -> view s' t = (cops_spec ops (view s)).2 t.
Proof.
  intros Hrel Hs Hi Hn Hok.
  destruct (wp_Ok (cops_run ops) s _ _ (cops_run_spec ops s (view s) ltac:(by split_and!) Hok))
    as (rs & s' & E & Hrs & Ha).
  - by intros e [_ ?].
  - exists rs, s'. split_and!; [done..|apply Ha|apply Ha].
Qed.

End Cache.

(** ** A disk *)

(** Sectors in memory; transfers never fail. *)
Definition ram_sector (d : gmap Z (list Z)) (t : Z) : list Z :=
  let b := default [] (d !! t) in
  if bool_decide (length b = 512%nat /\ bytes b) then b else replicate 512 0.

#[global] Instance bytes_dec b : Decision (bytes b).
Proof. unfold bytes. apply _. Defined.

#[global] Instance ram_disk : DiskOps (gmap Z (list Z)) := {
  ops_read := fun d b t => (true, ram_sector d t);
  ops_write := fun d b t => (true, <[t := b]> d);
}.

#[global] Instance ram_disk_laws : DiskLaws (gmap Z (list Z)).
Proof.
  refine {| sector := ram_sector |}; simpl.
  - intros d t. unfold ram_sector. case_bool_decide as E; [apply E|apply length_replicate].
  - intros d t. unfold ram_sector. case_bool_decide as E; [apply E|].
    apply Forall_replicate. unfold is_byte. lia.
  - intros d b t b' E. congruence.
  - intros d b t d' u Hl Hb [= <-]. unfold ram_sector. rewrite lookup_insert.
    case_decide as E; subst; simpl.
    + rewrite decide_True by done. by rewrite bool_decide_eq_true_2.
    + rewrite decide_False by done. done.
Defined.

Lemma ram_disk_reliable : reliable (gmap Z (list Z)).
Proof. done. Qed.

(** A volume with one reserved sector (the information sector 1), a FAT of one
    sector at 2 mirrored at 3, data from 4, 128 clusters of one sector. *)
Definition demo_fat : Fat :=
  mkFat 0 128 1 2 3 4 2 2 125 0 (replicate 512 0) 0 0 [114; 111; 111; 116].
Definition demo_file : File := mkFile false 0 0 0 0 0 0 0 0 0 (replicate 512 0).
(** Clusters 0, 1 and 2 (the root) are in use. *)
Definition demo_fat_sector : list Z :=
  [0xf8; 0xff; 0xff; 0x0f; 0xff; 0xff; 0xff; 0x0f; 0xf8; 0xff; 0xff; 0x0f] ++ replicate 500 0.
Definition demo_st : St (gmap Z (list Z)) :=
  mkSt demo_fat {[2 := demo_fat_sector; 3 := demo_fat_sector]} true (replicate 512 0) 0 0
    (mkDir 2 2 4 0) (mkLoc 0 0) [] demo_file.

Lemma demo_cache_inv : cache_inv demo_st.
Proof.
  constructor; [done| |vm_compute; split; congruence|done|done].
  apply Forall_replicate. unfold is_byte. lia.
Qed.

Lemma sync_fs_durable_witness :
  exists s', sync_fs demo_st = (Ok tt, s') /\ buf_dirty s' = false.
Proof.
  destruct (wp_Ok sync_fs demo_st _ _ (sync_fs_durable demo_st demo_cache_inv ltac:(done)))
    as ([] & s' & E & _ & Hd & _).
  - by intros e [_ Hn]; destruct Hn; apply ram_disk_reliable.
  - by exists s'.
Defined.

Lemma cache_refines_witness :
  exists s', cops_run [CWrite 5 0 [1; 2]; CRead 2; CWrite 5 2 [3]; CRead 5] demo_st =
    (Ok [[]; demo_fat_sector; []; [1; 2; 3] ++ replicate 509 0], s') /\ cache_inv s'.
Proof.
  destruct (cache_refines demo_st [CWrite 5 0 [1; 2]; CRead 2; CWrite 5 2 [3]; CRead 5])
    as (rs & s' & E & Hrs & Hs & _).
  - apply ram_disk_reliable.
  - apply demo_cache_inv.
  - done.
  - done.
  - repeat constructor; (done || (unfold is_byte; lia)).
  - exists s'. split; [|done]. rewrite E, Hrs. vm_compute. reflexivity.
Defined.
