(* ===== verification/Fat32Chain.v ===== *)
(** * FAT32: the allocation table and cluster chains

    The file allocation table, read through the sector buffer, is a function
    from clusters to 28-bit entries.  [put_fat] updates one entry of it and of its
    mirror; [remove_chain] frees a chain and always terminates; [stretch_chain]
    takes a free cluster and links it, or reports a full volume. *)

From S2P Require Import Prelude Fat32 Fat32Cache.

(** ** Entries *)

Definition ENTRY_MASK : Z := 0x0fffffff.
Definition NIBBLE_MASK : Z := 0xf0000000.

(** The flags [get_fat] derives from an entry; [None] is a broken entry. *)
Definition classify (cnt val : Z) : option Z :=
  if val =? 0 then Some CLUST_FREE
  else if val =? 0x0ffffff7 then Some CLUST_BAD
  else if 0x0ffffff8 <=? val then Some (Z.lor CLUST_USED CLUST_LAST)
  else if (2 <=? val) && (val <? cnt) then Some CLUST_USED
  else None.

(** Bits of a 32-bit word split by the two masks. *)
Lemma entry_mask_mod x : Z.land x ENTRY_MASK = x mod 2 ^ 28.
Proof. change ENTRY_MASK with (Z.ones 28). by rewrite Z.land_ones by lia. Qed.

Lemma nibble_mask_bits x n :
  0 <= x < 2 ^ 32 -> 0 <= n -> Z.testbit (Z.land x NIBBLE_MASK) n = (28 <=? n) && Z.testbit x n.
Proof.
  intros Hx Hn. rewrite Z.land_spec. change NIBBLE_MASK with (Z.shiftl (Z.ones 4) 28).
  destruct (Z.leb_spec 28 n); simpl.
  - rewrite Z.shiftl_spec by lia. destruct (decide (n < 32)).
    + by rewrite Z.ones_spec_low, andb_true_r by lia.
    + rewrite Z.ones_spec_high, andb_false_r by lia. symmetry. apply Z.testbit_false; [lia|].
      rewrite Z.div_small; [done|]. split; [lia|].
      apply Z.lt_le_trans with (2 ^ 32); [lia|]. apply Z.pow_le_mono_r; lia.
  - by rewrite Z.shiftl_spec_low, andb_false_r by lia.
Qed.

(** The word that [put_fat2] stores. *)
Definition merge_entry (old val : Z) : Z :=
  Z.lor (Z.land old NIBBLE_MASK) (Z.land val ENTRY_MASK).

Lemma merge_entry_spec old val :
  0 <= old < 2 ^ 32 ->
  0 <= merge_entry old val < 2 ^ 32 /\
  Z.land (merge_entry old val) ENTRY_MASK = Z.land val ENTRY_MASK /\
  Z.land (merge_entry old val) NIBBLE_MASK = Z.land old NIBBLE_MASK.
Proof.
  intros Ho. assert (forall n, 0 <= n -> Z.testbit (merge_entry old val) n =
    if 28 <=? n then Z.testbit old n else Z.testbit val n) as Hb.
  { intros n Hn. unfold merge_entry. rewrite Z.lor_spec, nibble_mask_bits, entry_mask_mod by done.
    destruct (Z.leb_spec 28 n); simpl.
    - by rewrite Z.mod_pow2_bits_high, orb_false_r by lia.
    - by rewrite Z.mod_pow2_bits_low by lia. }
  assert (0 <= merge_entry old val) as H0.
  { apply Z.lor_nonneg. split; [apply Z.land_nonneg; lia|].
    rewrite entry_mask_mod. apply Z.mod_pos_bound. lia. }
  assert (merge_entry old val < 2 ^ 32) as H1.
  { assert (Z.shiftr (merge_entry old val) 32 = 0) as E.
    { apply Z.bits_inj'. intros n Hn. rewrite Z.shiftr_spec, Hb, Z.bits_0 by lia.
      rewrite (proj2 (Z.leb_le 28 _)) by lia. apply Z.testbit_false; [lia|].
      rewrite Z.div_small; [done|]. split; [lia|].
      apply Z.lt_le_trans with (2 ^ 32); [lia|]. apply Z.pow_le_mono_r; lia. }
    rewrite Z.shiftr_div_pow2 in E by lia. apply Z.div_small_iff in E; lia. }
  split_and!; [lia|lia| |]; apply Z.bits_inj'; intros n Hn.
  - rewrite !entry_mask_mod. destruct (decide (n < 28)).
    + rewrite !Z.mod_pow2_bits_low, Hb by lia. by rewrite (proj2 (Z.leb_gt 28 n)) by lia.
    + by rewrite !Z.mod_pow2_bits_high by lia.
  - rewrite !nibble_mask_bits, Hb by lia. by destruct (28 <=? n).
Qed.

(** ** Geometry *)

Section Chain.
Context {D : Type} {DO : DiskOps D} {DL : @DiskLaws D DO}.
Context (undef_u8 undef_u32 : Z).
Implicit Types s : St D.

(** The number of sectors of one copy of the table. *)
Definition fat_sects (f : Fat) : Z := clust_cnt f / 128.

Definition mirror_on (f : Fat) : bool := ctrue (fat_sect1 f).

(** A volume whose tables, mirror and information sector are apart. *)
Record vol_ok (f : Fat) : Prop := {
  vo_cnt : 2 < clust_cnt f <= 0x0ffffff7;
  vo_full : clust_cnt f mod 128 = 0;
  vo_fat0 : 0 < fat_sect0 f /\ fat_sect0 f + fat_sects f <= 2 ^ 32;
  vo_fat1 : mirror_on f = true -> 0 < fat_sect1 f /\ fat_sect1 f + fat_sects f <= 2 ^ 32 /\
    (fat_sect0 f + fat_sects f <= fat_sect1 f \/ fat_sect1 f + fat_sects f <= fat_sect0 f);
  vo_info : info_sect f ≠ 0 /\
    ~ (fat_sect0 f <= info_sect f < fat_sect0 f + fat_sects f) /\
    (mirror_on f = true -> ~ (fat_sect1 f <= info_sect f < fat_sect1 f + fat_sects f));
}.

(** Sector [t] belongs to a copy of the table. *)
Definition in_tables (f : Fat) (t : Z) : Prop :=
  (fat_sect0 f <= t < fat_sect0 f + fat_sects f) \/
  (mirror_on f = true /\ fat_sect1 f <= t < fat_sect1 f + fat_sects f).

(** The word of cluster [c] in the table that starts at sector [t0]. *)
Definition word_at s (t0 c : Z) : Z :=
  get_le 4 (view s (t0 + c / 128)) (4 * Z.to_nat (c mod 128)).
Definition raw_entry s (c : Z) : Z := word_at s (fat_sect0 (fat s)) c.
Definition entry s (c : Z) : Z := Z.land (raw_entry s c) ENTRY_MASK.
Definition mirror_entry s (c : Z) : Z := Z.land (word_at s (fat_sect1 (fat s)) c) ENTRY_MASK.

(** Both copies of the table agree. *)
Definition mirrored s : Prop :=
  mirror_on (fat s) = true ->
  forall c, 0 <= c < clust_cnt (fat s) -> mirror_entry s c = entry s c.

Lemma clust_sector f t0 c :
  vol_ok f -> 0 <= c < clust_cnt f -> 0 < t0 -> t0 + fat_sects f <= 2 ^ 32 ->
  u32 (t0 + c / 128) = t0 + c / 128 /\ t0 + c / 128 ≠ 0 /\
  t0 <= t0 + c / 128 < t0 + fat_sects f /\ 0 <= c mod 128 < 128.
Proof.
  intros Hv Hc Ht0 Ht1. pose proof (vo_full f Hv) as Hfull. unfold fat_sects in *.
  assert (0 <= c / 128 < clust_cnt f / 128) by (Z.div_mod_to_equations; lia).
  pose proof (Z.mod_pos_bound c 128). rewrite u32_small by lia. lia.
Qed.

Lemma word_at_range s t0 c : cache_inv s -> 0 <= word_at s t0 c < 2 ^ 32.
Proof.
  intros Hs. unfold word_at. pose proof (Z.mod_pos_bound c 128).
  apply (get_le_range 4); [by apply view_bytes|]. rewrite view_length by done. lia.
Qed.

(** Same geometry and same sectors: same entries. *)
Lemma kept_geom s s' : kept s s' -> geom (fat s') = geom (fat s).
Proof. intros (_ & _ & Hr). by apply rest_inv in Hr as (? & _). Qed.

Lemma vol_ok_geom f f' : geom f' = geom f -> vol_ok f -> vol_ok f'.
Proof.
  intros Hg [H1 H2 H3 H4 H5]. apply geom_inv in Hg as (_ & Ec & Ei & E0 & E1 & _).
  constructor; unfold fat_sects, mirror_on in *; rewrite ?Ec, ?Ei, ?E0, ?E1; done.
Qed.

Lemma word_at_same s s' t0 c :
  same_view s s' -> t0 + c / 128 ≠ 0 -> word_at s' t0 c = word_at s t0 c.
Proof. intros Hv Ht. unfold word_at. by rewrite Hv. Qed.

Lemma kept_entry s s' c :
  kept s s' -> vol_ok (fat s) -> 0 <= c < clust_cnt (fat s) -> entry s' c = entry s c.
Proof.
  intros Hk Hv Hc. pose proof (kept_geom _ _ Hk) as Hg.
  apply geom_inv in Hg as (_ & _ & _ & E0 & _).
  destruct (clust_sector (fat s) (fat_sect0 (fat s)) c) as (_ & Hne & _);
    [done..|apply Hv|apply Hv|].
  unfold entry, raw_entry. rewrite E0. destruct Hk as (_ & Hvw & _).
  by rewrite (word_at_same s s').
Qed.

Lemma kept_vol_ok s s' : kept s s' -> vol_ok (fat s) -> vol_ok (fat s').
Proof. intros Hk. apply vol_ok_geom. by apply kept_geom. Qed.

Lemma kept_cnt s s' : kept s s' -> clust_cnt (fat s') = clust_cnt (fat s).
Proof. intros Hk%kept_geom. by apply geom_inv in Hk as (_ & ? & _). Qed.

(** ** Reading an entry *)

Lemma get_fat_spec s c :
  cache_inv s -> vol_ok (fat s) -> 0 <= c < clust_cnt (fat s) ->
  wp (get_fat c) s (fun r s' =>
    kept s s' /\ r.1 = entry s c /\ classify (clust_cnt (fat s)) (entry s c) = Some r.2)
    (fun e => io_failure D e \/
       (e = FAT_ERR_BROKEN /\ classify (clust_cnt (fat s)) (entry s c) = None)).
Proof.
  intros Hs Hv Hc. unfold get_fat. wp_steps.
  destruct (clust_sector (fat s) (fat_sect0 (fat s)) c) as (Hu & Hne & _);
    [done..|apply Hv|apply Hv|].
  rewrite Hu. eapply wp_mono; [by apply update_buf_spec| |by left].
  intros _ s' (Hk & Hsect & Hbuf). wp_steps.
  rewrite Hbuf, (kept_cnt _ _ Hk). change 268435455 with ENTRY_MASK.
  fold (word_at s (fat_sect0 (fat s)) c). fold (raw_entry s c). fold (entry s c).
  unfold classify. repeat (case_match; wp_steps; [by split_and!|]). by right.
Qed.

(** ** Writing an entry *)

(** [s'] is [s] with the word of [c] in the table at [t0] merged with [v]. *)
Definition wrote_at s s' (t0 c v : Z) : Prop :=
  wrote s s' (t0 + c / 128)
    (put_le 4 (view s (t0 + c / 128)) (4 * Z.to_nat (c mod 128)) (merge_entry (word_at s t0 c) v)).

Lemma put_fat2_spec s t0 c v :
  cache_inv s -> vol_ok (fat s) -> 0 <= c < clust_cnt (fat s) ->
  0 < t0 -> t0 + fat_sects (fat s) <= 2 ^ 32 ->
  wp (put_fat2 t0 c v) s (fun _ s' => wrote_at s s' t0 c v) (io_failure D).
Proof.
  intros Hs Hv Hc Ht0 Ht1. unfold put_fat2.
  destruct (clust_sector (fat s) t0 c) as (-> & Hne & _); [done..|].
  eapply wp_mono; [apply write_through_spec; [done..| |]| |done].
  - rewrite length_put_le. by apply view_length.
  - apply bytes_put_le. by apply view_bytes.
  - intros _ s' [Hw _]. exact Hw.
Qed.

(** The words of one table after such a write. *)
Lemma wrote_word s s' t0 c c' x :
  cache_inv s -> 0 <= c -> 0 <= c' -> 0 <= x < 2 ^ 32 -> 0 < t0 ->
  wrote s s' (t0 + c / 128) (put_le 4 (view s (t0 + c / 128)) (4 * Z.to_nat (c mod 128)) x) ->
  word_at s' t0 c' = if decide (c' = c) then x else word_at s t0 c'.
Proof.
  intros Hs Hc Hc' Hx Ht0 (_ & _ & Hw). pose proof (Z.mod_pos_bound c 128).
  pose proof (Z.mod_pos_bound c' 128). unfold word_at.
  rewrite Hw by (Z.div_mod_to_equations; lia).
  destruct (decide (t0 + c' / 128 = t0 + c / 128)) as [E|E].
  - destruct (decide (c' = c)) as [->|Hne].
    + rewrite get_put_le by (rewrite view_length by done; lia).
      change (Z.of_nat 4 * 8) with 32. by rewrite Z.mod_small.
    + rewrite get_put_le_ne, E; [done|].
      assert (c' mod 128 ≠ c mod 128) by (Z.div_mod_to_equations; lia). lia.
  - rewrite decide_False; [done|]. intros ->. by apply E.
Qed.

(** Sectors outside the table keep their words. *)
Lemma wrote_word_other s s' t b t0 c :
  wrote s s' t b -> t0 + c / 128 ≠ 0 -> t0 + c / 128 ≠ t -> word_at s' t0 c = word_at s t0 c.
Proof. intros (_ & _ & Hw) H0 Ht. unfold word_at. by rewrite Hw, decide_False. Qed.

(** The state after entry [c] was set to [v] in the table and its mirror. *)
Record put_rel s s' (c v : Z) : Prop := {
  pr_inv : cache_inv s';
  pr_rest : rest s' = rest s;
  pr_raw : forall c', 0 <= c' < clust_cnt (fat s) -> raw_entry s' c' =
    if decide (c' = c) then merge_entry (raw_entry s c) v else raw_entry s c';
  pr_mirror : mirror_on (fat s) = true ->
    forall c', 0 <= c' < clust_cnt (fat s) -> mirror_entry s' c' =
    if decide (c' = c) then Z.land v ENTRY_MASK else mirror_entry s c';
  pr_view : forall t, t ≠ 0 -> ~ in_tables (fat s) t -> view s' t = view s t;
}.

(** One write of a table word, and the write of the mirror before it. *)
Lemma put_rel_one s s1 c v :
  cache_inv s -> vol_ok (fat s) -> 0 <= c < clust_cnt (fat s) -> mirror_on (fat s) = false ->
  wrote_at s s1 (fat_sect0 (fat s)) c v -> put_rel s s1 c v.
Proof.
  intros Hs Hv Hc Em Hw1. pose proof Hv as [_ _ [Hf0 Hf0'] _ _].
  destruct (clust_sector (fat s) (fat_sect0 (fat s)) c) as (_ & Hne0 & Hr0 & _); [done..|].
  pose proof (merge_entry_spec _ v (word_at_range s (fat_sect0 (fat s)) c Hs)) as (Hm0 & _).
  pose proof Hw1 as (Hs1 & Hrest1 & Hv1).
  pose proof (proj1 (rest_inv _ _) Hrest1) as (Hg1 & _).
  pose proof (geom_inv _ _ Hg1) as (_ & _ & _ & E01 & _).
  constructor; [done|done| |by rewrite Em|].
  - intros c' Hc'. unfold raw_entry. rewrite E01.
    by rewrite (wrote_word s s1 _ c c' _ Hs (proj1 Hc) (proj1 Hc') Hm0 Hf0 Hw1).
  - intros t Ht Hnt. unfold in_tables in Hnt. rewrite Hv1, decide_False by (done || naive_solver lia).
    done.
Qed.

Lemma put_rel_both s s1 s2 c v :
  cache_inv s -> vol_ok (fat s) -> 0 <= c < clust_cnt (fat s) -> mirror_on (fat s) = true ->
  wrote_at s s1 (fat_sect1 (fat s)) c v -> wrote_at s1 s2 (fat_sect0 (fat s)) c v -> put_rel s s2 c v.
Proof.
  intros Hs Hv Hc Em Hw1 Hw2. pose proof Hv as [_ _ [Hf0 Hf0'] Hf1 _].
  destruct (Hf1 Em) as (Hp1 & Hp1' & Hdis).
  destruct (clust_sector (fat s) (fat_sect0 (fat s)) c) as (_ & Hne0 & Hr0 & _); [done..|].
  destruct (clust_sector (fat s) (fat_sect1 (fat s)) c) as (_ & Hne1 & Hr1 & _); [done..|].
  pose proof (merge_entry_spec _ v (word_at_range s (fat_sect0 (fat s)) c Hs)) as (Hm0 & _).
  pose proof (merge_entry_spec _ v (word_at_range s (fat_sect1 (fat s)) c Hs)) as (Hm1 & Hme1 & _).
  assert (word_at s1 (fat_sect0 (fat s)) c = word_at s (fat_sect0 (fat s)) c) as Ew0
    by (eapply wrote_word_other; [exact Hw1|done|lia]).
  unfold wrote_at in Hw2. rewrite Ew0 in Hw2.
  pose proof Hw1 as (Hs1 & (Hg1 & Hlu1 & Hfc1 & Hid1 & Ho1)%rest_inv & Hv1).
  pose proof Hw2 as (Hs2 & (Hg2 & Hlu2 & Hfc2 & Hid2 & Ho2)%rest_inv & Hv2).
  pose proof (geom_inv _ _ Hg1) as (_ & _ & _ & E01 & E11 & _).
  pose proof (geom_inv _ _ Hg2) as (_ & _ & _ & E02 & E12 & _).
  constructor; [done| | | |].
  - apply rest_inv. by rewrite Hg2, Hlu2, Hfc2, Hid2, Ho2.
  - intros c' Hc'. unfold raw_entry. rewrite E02, E01.
    rewrite (wrote_word s1 s2 _ c c' _ Hs1 (proj1 Hc) (proj1 Hc') Hm0 Hf0 Hw2).
    case_decide; [done|].
    destruct (clust_sector (fat s) (fat_sect0 (fat s)) c') as (_ & ? & ? & _); [done..|].
    eapply wrote_word_other; [exact Hw1|done|lia].
  - intros _ c' Hc'. unfold mirror_entry. rewrite E12, E11.
    destruct (clust_sector (fat s) (fat_sect1 (fat s)) c') as (_ & ? & ? & _); [done..|].
    rewrite (wrote_word_other s1 s2 _ _ _ c' Hw2) by lia.
    rewrite (wrote_word s s1 _ c c' _ Hs (proj1 Hc) (proj1 Hc') Hm1 Hp1 Hw1).
    by case_decide.
  - intros t Ht Hnt. unfold in_tables in Hnt. rewrite Em in Hnt.
    rewrite Hv2, decide_False, Hv1, decide_False by (done || lia || naive_solver lia). done.
Qed.

Lemma put_fat_spec s c v :
  cache_inv s -> vol_ok (fat s) -> 0 <= c < clust_cnt (fat s) ->
  wp (put_fat c v) s (fun _ s' => put_rel s s' c v) (io_failure D).
Proof.
  intros Hs Hv Hc. pose proof Hv as [_ _ [Hf0 Hf0'] Hf1 _].
  unfold put_fat. wp_steps. fold (mirror_on (fat s)). destruct (mirror_on (fat s)) eqn:Em.
  - destruct (Hf1 eq_refl) as (Hp1 & Hp1' & _).
    eapply wp_mono; [by apply put_fat2_spec| |done]. intros [] s1 Hw1. cbn beta in Hw1. wp_steps.
    pose proof Hw1 as (Hs1 & (Hg1 & _)%rest_inv & _).
    pose proof (geom_inv _ _ Hg1) as (_ & Ec1 & _ & E01 & _).
    assert (fat_sects (fat s1) = fat_sects (fat s)) as Efs by (unfold fat_sects; by rewrite Ec1).
    rewrite E01. eapply wp_mono; [apply put_fat2_spec; rewrite ?Ec1, ?Efs; [done| |done..]| |done].
    { by apply (vol_ok_geom (fat s)). }
    intros [] s2 Hw2. by apply (put_rel_both s s1).
  - wp_steps. eapply wp_mono; [by apply put_fat2_spec| |done]. intros [] s1 Hw1.
    by apply put_rel_one.
Qed.

Lemma put_rel_geom s s' c v : put_rel s s' c v -> geom (fat s') = geom (fat s).
Proof. intros [_ Hr _ _ _]. by apply rest_inv in Hr as (? & _). Qed.

Lemma put_rel_entry s s' c v c' :
  cache_inv s -> put_rel s s' c v -> 0 <= c' < clust_cnt (fat s) ->
  entry s' c' = if decide (c' = c) then Z.land v ENTRY_MASK else entry s c'.
Proof.
  intros Hs Hp Hc'. unfold entry. rewrite (pr_raw _ _ _ _ Hp) by done. case_decide; [|done].
  by apply merge_entry_spec, word_at_range.
Qed.

Lemma put_rel_mirrored s s' c v :
  cache_inv s -> put_rel s s' c v -> mirrored s -> mirrored s'.
Proof.
  intros Hs Hp Hm Hon c' Hc'. pose proof (put_rel_geom _ _ _ _ Hp) as Hg.
  apply geom_inv in Hg as (_ & Ec & _ & _ & E1 & _). unfold mirror_on in Hon.
  rewrite E1 in Hon. rewrite Ec in Hc'. fold (mirror_on (fat s)) in Hon.
  rewrite (pr_mirror _ _ _ _ Hp), (put_rel_entry s s' c v) by done.
  case_decide; [done|]. by apply Hm.
Qed.

(** The allocation table is a map.  [put_fat] sets the 28-bit entry of its
    cluster and keeps the reserved upper nibble, leaves every other entry
    and every sector outside the tables alone, keeps the mirror equal to
    the active table, and a following [get_fat] of any cluster reads the new map.
    Only a failed transfer makes it fail. *)
Theorem put_fat_correct s c v :
  cache_inv s -> vol_ok (fat s) -> 0 <= c < clust_cnt (fat s) ->
  wp (put_fat c v) s (fun _ s' =>
    (forall c', 0 <= c' < clust_cnt (fat s) ->
       entry s' c' = (if decide (c' = c) then Z.land v ENTRY_MASK else entry s c') /\
       wp (get_fat c') s' (fun r _ => r.1 = entry s' c')
         (fun e => io_failure D e \/ classify (clust_cnt (fat s)) (entry s' c') = None)) /\
    Z.land (raw_entry s' c) NIBBLE_MASK = Z.land (raw_entry s c) NIBBLE_MASK /\
    (mirrored s -> mirrored s') /\
    (forall t, t ≠ 0 -> ~ in_tables (fat s) t -> view s' t = view s t)) (io_failure D).
Proof.
  intros Hs Hv Hc. eapply wp_mono; [by apply put_fat_spec| |done].
  intros [] s' Hp. cbn beta in Hp. pose proof (put_rel_geom _ _ _ _ Hp) as Hg.
  pose proof (geom_inv _ _ Hg) as (_ & Ec & _). split_and!.
  - intros c' Hc'. split; [by apply put_rel_entry|].
    eapply wp_mono; [apply get_fat_spec; rewrite ?Ec; [apply Hp| |done]| |].
    + by apply (vol_ok_geom (fat s)).
    + intros r s2 (_ & -> & _). done.
    + rewrite Ec. intros e [?|[_ ?]]; auto.
  - rewrite (pr_raw _ _ _ _ Hp), decide_True by done. by apply merge_entry_spec, word_at_range.
  - by apply (put_rel_mirrored _ _ c v).
  - apply Hp.
Qed.

(** ** Chains *)

(** [chain e cnt c l]: following the entries [e] from [c] visits the clusters [l]
    and ends with an end-of-chain mark. *)
Inductive chain (e : Z -> Z) (cnt : Z) : Z -> list Z -> Prop :=
  | chain_last c :
      2 <= c < cnt -> 0x0ffffff8 <= e c -> chain e cnt c [c]
  | chain_next c l :
      2 <= c < cnt -> 2 <= e c < cnt -> chain e cnt (e c) l -> chain e cnt c (c :: l).

Lemma chain_range e cnt c l x : chain e cnt c l -> x ∈ l -> 2 <= x < cnt.
Proof.
  induction 1 as [c Hc|c l Hc _ _ IH]; intros Hx.
  - apply list_elem_of_singleton in Hx. by subst.
  - apply elem_of_cons in Hx as [->|Hx]; auto.
Qed.

Lemma chain_det e cnt c l1 l2 :
  cnt <= 0x0ffffff7 -> chain e cnt c l1 -> chain e cnt c l2 -> l1 = l2.
Proof.
  intros Hcnt H1. revert l2. induction H1 as [c Hc Hl|c l Hc Hn Hch IH]; intros l2 H2.
  - inversion H2; subst; [done|lia].
  - inversion H2; subst; [lia|]. f_equal. by apply IH.
Qed.

Lemma chain_suffix e cnt c l x :
  chain e cnt c l -> x ∈ l -> exists l1 l2, l = l1 ++ l2 /\ chain e cnt x l2.
Proof.
  induction 1 as [c Hc Hl|c l Hc Hn Hch IH]; intros Hx.
  - apply list_elem_of_singleton in Hx as ->. exists [], [c]. split; [done|by constructor].
  - apply elem_of_cons in Hx as [->|Hx].
    + exists [], (c :: l). split; [done|by constructor].
    + destruct (IH Hx) as (l1 & l2 & -> & H2). by exists (c :: l1), l2.
Qed.

(** A chain that ends visits no cluster twice. *)
Lemma chain_NoDup e cnt c l : cnt <= 0x0ffffff7 -> chain e cnt c l -> NoDup l.
Proof.
  intros Hcnt. induction 1 as [c Hc Hl|c l Hc Hn Hch IH]; [apply NoDup_singleton|].
  constructor; [|done]. intros Hx.
  destruct (chain_suffix _ _ _ _ _ Hch Hx) as (l1 & l2 & -> & H2).
  assert (c :: l1 ++ l2 = l2) as E.
  { eapply chain_det; [exact Hcnt| |exact H2]. by constructor. }
  apply (f_equal length) in E. simpl in E. rewrite length_app in E. lia.
Qed.

(** Chains depend only on the entries they visit. *)
Lemma chain_ext e e' cnt c l :
  chain e cnt c l -> (forall x, x ∈ l -> e' x = e x) -> chain e' cnt c l.
Proof.
  induction 1 as [c Hc Hl|c l Hc Hn Hch IH]; intros Heq.
  - apply chain_last; [done|]. rewrite Heq by left. done.
  - assert (e' c = e c) as Ec by (apply Heq; left).
    apply chain_next; rewrite ?Ec; [done..|]. apply IH. intros x Hx. apply Heq. by right.
Qed.

(** Appending a cluster. *)
Lemma chain_snoc e e' cnt c l p n :
  chain e cnt c (l ++ [p]) -> 2 <= n < cnt -> n ∉ l ++ [p] -> cnt <= 0x0ffffff7 ->
  e' p = n -> 0x0ffffff8 <= e' n -> (forall x, x ∈ l -> e' x = e x) ->
  chain e' cnt c (l ++ [p; n]).
Proof.
  intros Hch Hn Hni Hcnt Hp He'. revert c Hch.
  induction l as [|y l IH]; simpl in *; intros c Hch Heq.
  - inversion Hch; subst; [|by inversion H4]. apply chain_next; [done|done|]. by apply chain_last.
  - apply not_elem_of_cons in Hni as [_ Hni]. inversion Hch; subst; [by destruct l|].
    assert (e' y = e y) as Ec by (apply Heq; left).
    apply chain_next; rewrite ?Ec; [done..|]. apply IH; [done|done|].
    intros x Hx. apply Heq. by right.
Qed.

(** ** Changes of the table

    [tab s s' e]: [s'] is [s] with the table [e]; data sectors and the other parts
    of the state are untouched. *)
Record tab s s' (e : Z -> Z) : Prop := {
  tb_inv : cache_inv s';
  tb_geom : geom (fat s') = geom (fat s);
  tb_others : others s' = others s;
  tb_entry : forall c, 0 <= c < clust_cnt (fat s) -> entry s' c = e c;
  tb_mirror : mirrored s -> mirrored s';
  tb_view : forall t, t ≠ 0 -> ~ in_tables (fat s) t -> t ≠ info_sect (fat s) ->
    view s' t = view s t;
}.

(** Everything is on disk. *)
Definition clean s : Prop :=
  buf_dirty s = false /\ info_dirty s = false /\
  forall t, t ≠ 0 -> sector (disk s) t = view s t.

Lemma tab_vol_ok s s' e : tab s s' e -> vol_ok (fat s) -> vol_ok (fat s').
Proof. intros [_ Hg _ _ _ _]. by apply vol_ok_geom. Qed.

Lemma tab_cnt s s' e : tab s s' e -> clust_cnt (fat s') = clust_cnt (fat s).
Proof. intros [_ Hg _ _ _ _]. by apply geom_inv in Hg as (_ & ? & _). Qed.

Lemma tab_trans s1 s2 s3 e2 e3 : tab s1 s2 e2 -> tab s2 s3 e3 -> tab s1 s3 e3.
Proof.
  intros T1 T2. pose proof (geom_inv _ _ (tb_geom _ _ _ T1)) as (_ & Ec & Ei & E0 & E1 & _).
  destruct T1 as [_ Hg1 Ho1 He1 Hm1 Hv1], T2 as [Hi2 Hg2 Ho2 He2 Hm2 Hv2].
  constructor; [done|congruence|congruence| | |].
  - intros c Hc. apply He2. by rewrite Ec.
  - auto.
  - intros t H0 Ht Hi. rewrite Hv2; [by apply Hv1|done| |by rewrite Ei].
    unfold in_tables, fat_sects, mirror_on in *. by rewrite Ec, E0, E1.
Qed.

Lemma tab_ext s s' e e' :
  tab s s' e -> (forall c, 0 <= c < clust_cnt (fat s) -> e c = e' c) -> tab s s' e'.
Proof. intros [? ? ? He ? ?] Heq. constructor; try done. intros c Hc. by rewrite He, Heq. Qed.

Lemma mirrored_same s s' :
  vol_ok (fat s) -> geom (fat s') = geom (fat s) ->
  (forall t, t ≠ 0 -> in_tables (fat s) t -> view s' t = view s t) ->
  (forall c, 0 <= c < clust_cnt (fat s) -> entry s' c = entry s c) /\
  (mirrored s -> mirrored s').
Proof.
  intros Hv Hg Hview. apply geom_inv in Hg as (_ & Ec & _ & E0 & E1 & _).
  pose proof Hv as [_ _ [? ?] Hf1 _].
  assert (forall c, 0 <= c < clust_cnt (fat s) -> entry s' c = entry s c) as He.
  { intros c Hc. destruct (clust_sector (fat s) (fat_sect0 (fat s)) c) as (_ & ? & ? & _); [done..|].
    unfold entry, raw_entry, word_at. rewrite E0, Hview; [done|done|by left]. }
  split; [done|]. intros Hm Hon c Hc. unfold mirror_on in Hon. rewrite E1 in Hon.
  fold (mirror_on (fat s)) in Hon. rewrite Ec in Hc. destruct (Hf1 Hon) as (? & ? & _).
  rewrite He, <- Hm by done. unfold mirror_entry, word_at. rewrite E1.
  destruct (clust_sector (fat s) (fat_sect1 (fat s)) c) as (_ & ? & ? & _); [done..|].
  rewrite Hview; [done|done|by right].
Qed.

Lemma kept_tab s s' : vol_ok (fat s) -> kept s s' -> tab s s' (entry s).
Proof.
  intros Hv Hk. pose proof Hk as (Hs' & Hvw & Hr).
  pose proof (kept_geom _ _ Hk) as Hg. apply rest_inv in Hr as (_ & _ & _ & _ & Ho).
  destruct (mirrored_same s s' Hv Hg) as [He Hm]; [auto|].
  constructor; try done. auto.
Qed.

Lemma put_rel_tab s s' c v :
  cache_inv s -> put_rel s s' c v ->
  tab s s' (fun x => if decide (x = c) then Z.land v ENTRY_MASK else entry s x).
Proof.
  intros Hs Hp. pose proof (pr_rest _ _ _ _ Hp) as (Hg & _ & _ & _ & Ho)%rest_inv.
  constructor; try done; [apply Hp| | |].
  - intros x Hx. by apply put_rel_entry.
  - by apply (put_rel_mirrored _ _ c v).
  - intros t H0 Ht _. by apply Hp.
Qed.

(** The updates of the volume's own fields. *)
Lemma tab_same_disk s s' :
  vol_ok (fat s) -> cache_inv s' -> geom (fat s') = geom (fat s) -> others s' = others s ->
  (forall t, view s' t = view s t) -> tab s s' (entry s).
Proof.
  intros Hv Hs' Hg Ho Hvw. destruct (mirrored_same s s' Hv Hg) as [He Hm]; [auto|].
  constructor; auto.
Qed.

Lemma tab_counters s lu fc :
  vol_ok (fat s) -> cache_inv s ->
  tab s (with_fat (fun f => with_free_cnt fc (with_last_used lu f)) s) (entry s).
Proof. intros Hv Hs. apply tab_same_disk; try done. by destruct Hs. Qed.

Lemma tab_info_flag s :
  vol_ok (fat s) -> cache_inv s ->
  tab s (with_fat (fun f => with_fflags (set_flag FAT_INFO_DIRTY (fflags f)) f) s) (entry s).
Proof.
  intros Hv Hs. destruct (has_set_clear (fflags (fat s))) as (_ & _ & _ & Hb & _).
  apply tab_same_disk; try done. constructor; simpl; try apply Hs.
  - apply set_flag_range; [apply Hs|]. unfold FAT_INFO_DIRTY. lia.
  - unfold buf_dirty. simpl. rewrite Hb. apply Hs.
  - unfold buf_dirty. simpl. rewrite Hb. apply Hs.
Qed.

Lemma sync_fs_tab s :
  cache_inv s -> vol_ok (fat s) ->
  wp sync_fs s (fun _ s' =>
    tab s s' (entry s) /\ clean s' /\ last_used (fat s') = last_used (fat s) /\
    free_cnt (fat s') = free_cnt (fat s)) (io_failure D).
Proof.
  intros Hs Hv. pose proof (vo_info _ Hv) as (Hi & Hi0 & Hi1).
  eapply wp_mono; [by apply sync_fs_spec| |done].
  intros _ s' (Hs' & Hd & Hid & Hg & Hlu & Hfc & Ho & Hvw).
  destruct (mirrored_same s s' Hv Hg) as [He Hm].
  { intros t H0 Ht. destruct (Hvw t H0) as [_ ->]. unfold synced_view.
    rewrite decide_False; [done|]. intros [-> _]. destruct Ht as [?|[? ?]]; [done|]. by apply Hi1. }
  split_and!; [|split_and!; [done..|]|done|done].
  - constructor; try done. intros t H0 Ht Hti. destruct (Hvw t H0) as [_ ->].
    unfold synced_view. rewrite decide_False; [done|]. by intros [? _].
  - intros t H0. destruct (Hvw t H0) as [-> ->]. done.
Qed.

Lemma classify_cases cnt v fl :
  classify cnt v = Some fl ->
  (v = 0 /\ fl = CLUST_FREE) \/ (v = 0x0ffffff7 /\ fl = CLUST_BAD) \/
  (0x0ffffff8 <= v /\ fl = Z.lor CLUST_USED CLUST_LAST) \/
  (v < 0x0ffffff7 /\ 2 <= v < cnt /\ fl = CLUST_USED).
Proof.
  unfold classify. intros Hc. repeat case_match; breflect; simplify_eq; try lia; auto.
Qed.

(** ** Removing a chain *)

(** One round of the loop: the entry is read, cleared and counted. *)
Lemma remove_round fuel s c (Q : unit -> St D -> Prop) (E : Z -> Prop) :
  cache_inv s -> vol_ok (fat s) -> 0 <= c < clust_cnt (fat s) ->
  (forall e, io_failure D e -> E e) ->
  (~ 2 <= entry s c < clust_cnt (fat s) -> entry s c < 0x0ffffff8 -> E FAT_ERR_BROKEN) ->
  (forall s', tab s s' (fun x => if decide (x = c) then 0 else entry s x) ->
     last_used (fat s') = last_used (fat s) ->
     free_cnt (fat s') = u32 (free_cnt (fat s) + 1) ->
     (0x0ffffff8 <= entry s c -> Q tt s') /\
     (2 <= entry s c < clust_cnt (fat s) -> wp (remove_chain_loop fuel (entry s c)) s' Q E)) ->
  wp (remove_chain_loop (S fuel) c) s Q E.
Proof.
  intros Hs Hv Hc Hio Hbr HQ. pose proof (vo_cnt _ Hv) as Hcnt.
  cbn [remove_chain_loop]. wp_step. eapply wp_mono; [by apply get_fat_spec| |].
  2:{ intros e [?|[-> Hcl]]; [by apply Hio|]. apply Hbr; unfold classify in Hcl;
      repeat case_match; breflect; try done; lia. }
  intros [next flags] s1 (Hk1 & Hnext & Hcl). cbn [fst snd] in *. subst next.
  apply classify_cases in Hcl. pose proof (kept_tab _ _ Hv Hk1) as T1.
  destruct (has flags (Z.lor CLUST_BAD CLUST_FREE)) eqn:Hf.
  { wp_steps. destruct Hcl as [[E0 ->]|[[E0 ->]|[[E0 ->]|(E0 & E1 & ->)]]];
      (done || (apply Hbr; lia)). }
  wp_step. eapply wp_mono; [apply put_fat_spec| |done].
  { apply Hk1. } { by apply (tab_vol_ok _ _ _ T1). } { by rewrite (tab_cnt _ _ _ T1). }
  intros [] s2 Hp2. cbn beta in Hp2. pose proof (put_rel_tab _ _ _ _ (tb_inv _ _ _ T1) Hp2) as T2.
  pose proof (tab_trans _ _ _ _ _ T1 T2) as T12. unfold modify_fat. wp_steps.
  set (s3 := with_fat (fun f => with_free_cnt (u32 (free_cnt f + 1)) f) s2).
  destruct (HQ s3) as [HQl HQn].
  - eapply tab_ext.
    + eapply tab_trans; [exact T12|].
      apply (tab_counters s2 (last_used (fat s2))); [by eapply tab_vol_ok|apply T12].
    + intros x Hx. cbn beta. rewrite (tb_entry _ _ _ T12) by done. case_decide; [done|].
      by rewrite (tb_entry _ _ _ T1).
  - pose proof (pr_rest _ _ _ _ Hp2) as (_ & El & _)%rest_inv.
    destruct Hk1 as (_ & _ & (_ & El1 & _)%rest_inv). unfold s3. simpl. by rewrite El.
  - pose proof (pr_rest _ _ _ _ Hp2) as (_ & _ & Ef & _)%rest_inv.
    destruct Hk1 as (_ & _ & (_ & _ & Ef1 & _)%rest_inv). unfold s3. simpl. by rewrite Ef, Ef1.
  - destruct Hcl as [[E0 ->]|[[E0 ->]|[[E0 ->]|(E0 & E1 & ->)]]]; try done.
    + wp_steps. by apply HQl.
    + by apply HQn.
Qed.

Lemma remove_loop_spec fuel : forall s c l,
  cache_inv s -> vol_ok (fat s) -> chain (entry s) (clust_cnt (fat s)) c l ->
  (length l <= fuel)%nat ->
  wp (remove_chain_loop fuel c) s (fun _ s' =>
    tab s s' (fun x => if decide (x ∈ l) then 0 else entry s x) /\
    last_used (fat s') = last_used (fat s) /\
    free_cnt (fat s') = u32 (free_cnt (fat s) + Z.of_nat (length l))) (io_failure D).
Proof.
  induction fuel as [|fuel IH]; intros s c l Hs Hv Hch Hf.
  { destruct Hch; simpl in Hf; lia. }
  pose proof (vo_cnt _ Hv) as Hcnt.
  pose proof (chain_NoDup _ (clust_cnt (fat s)) _ _ ltac:(lia) Hch) as Hnd.
  apply remove_round; [done|done|destruct Hch; lia|done|destruct Hch; lia|].
  intros s3 T3 Hlu3 Hfc3. destruct Hch as [c Hc Hl|c l Hc Hn Hch]; (split; [intros Hx|intros Hx]); try lia.
  - split_and!; [|done|done]. eapply tab_ext; [exact T3|]. intros x _. cbn beta.
    destruct (decide (x = c)) as [->|]; [by rewrite (decide_True (P := c ∈ [c])) by left|].
    rewrite (decide_False (P := x ∈ [c])); [done|]. by intros ?%list_elem_of_singleton.
  - apply NoDup_cons in Hnd as [Hcl' Hnd].
    eapply wp_mono; [apply (IH s3 (entry s c) l)| |done].
    + apply T3.
    + by apply (tab_vol_ok _ _ _ T3).
    + rewrite (tab_cnt _ _ _ T3). eapply chain_ext; [exact Hch|]. intros x Hxl.
      rewrite (tb_entry _ _ _ T3); [|eapply chain_range in Hxl; [|exact Hch]; lia].
      rewrite decide_False; [done|]. by intros ->.
    + simpl in Hf. lia.
    + intros _ s4 (T4 & Hlu4 & Hfc4). split_and!.
      * eapply tab_ext; [exact (tab_trans _ _ _ _ _ T3 T4)|]. intros x Hxr. cbn beta.
        rewrite (tb_entry _ _ _ T3) by done.
        destruct (decide (x = c)) as [->|].
        { rewrite (decide_True (P := c ∈ c :: l)) by left. by case_decide. }
        destruct (decide (x ∈ l)).
        { by rewrite (decide_True (P := x ∈ c :: l)) by by right. }
        rewrite (decide_False (P := x ∈ c :: l)); [done|]. by intros [?|?]%elem_of_cons.
      * congruence.
      * rewrite Hfc4, Hfc3, u32_add_l. f_equal. simpl. lia.
Qed.

(** C25. Freeing a chain.  Given the chain [l] of a file or directory,
    [remove_chain] sets exactly the entries of [l] to free, adds its length to the
    free-cluster count, keeps the mirror and every data sector, and leaves
    everything on disk; it fails only when a transfer does. *)
Theorem remove_chain_correct s c l fuel :
  cache_inv s -> vol_ok (fat s) -> chain (entry s) (clust_cnt (fat s)) c l ->
  (length l <= fuel)%nat ->
  wp (remove_chain fuel c) s (fun _ s' =>
    tab s s' (fun x => if decide (x ∈ l) then 0 else entry s x) /\
    free_cnt (fat s') = u32 (free_cnt (fat s) + Z.of_nat (length l)) /\ clean s')
    (io_failure D).
Proof.
  intros Hs Hv Hch Hf. unfold remove_chain, or_flags, modify_fat. wp_steps.
  pose proof (tab_info_flag s Hv Hs) as T0. set (s0 := with_fat _ s) in *.
  pose proof (vo_cnt _ Hv).
  eapply wp_mono; [apply (remove_loop_spec fuel s0 c l)| |done]; [apply T0|by eapply tab_vol_ok| |done|].
  { rewrite (tab_cnt _ _ _ T0). eapply chain_ext; [exact Hch|]. intros x Hx.
    apply (tb_entry _ _ _ T0). eapply chain_range in Hx; [|exact Hch]. lia. }
  intros _ s1 (T1 & _ & Hfc1). pose proof (tab_trans _ _ _ _ _ T0 T1) as T01.
  eapply wp_mono; [apply sync_fs_tab; [apply T1|by eapply tab_vol_ok]| |done].
  intros _ s2 (T2 & Hcl & _ & Hfc2). split_and!; [|by rewrite Hfc2|done].
  eapply tab_ext; [exact (tab_trans _ _ _ _ _ T01 T2)|]. intros x Hx. cbn beta.
  rewrite (tb_entry _ _ _ T01) by done. case_decide; [done|]. by apply (tb_entry _ _ _ T0).
Qed.

(** The number of entries that are not free. *)
Definition used s : nat :=
  length (filter (fun c => entry s c ≠ 0) (seqZ 0 (clust_cnt (fat s)))).

Lemma used_bound s : vol_ok (fat s) -> (used s <= Z.to_nat (clust_cnt (fat s)))%nat.
Proof.
  intros Hv. pose proof (vo_cnt _ Hv). unfold used.
  etransitivity; [apply length_filter|]. by rewrite length_seqZ.
Qed.

Lemma used_decreases s s' c :
  tab s s' (fun x => if decide (x = c) then 0 else entry s x) ->
  0 <= c < clust_cnt (fat s) -> entry s c ≠ 0 -> (used s' < used s)%nat.
Proof.
  intros T Hc Hne. unfold used. rewrite (tab_cnt _ _ _ T).
  apply (filter_length_lt _ _ _ c); [|apply elem_of_seqZ; lia|done|].
  - intros x Hx. apply elem_of_seqZ in Hx. rewrite (tb_entry _ _ _ T) by lia.
    by case_decide.
  - rewrite (tb_entry _ _ _ T), decide_True by done. auto.
Qed.

Lemma remove_loop_terminates fuel : forall s c,
  cache_inv s -> vol_ok (fat s) -> 0 <= c < clust_cnt (fat s) -> (used s < fuel)%nat ->
  wp (remove_chain_loop fuel c) s (fun _ s' => cache_inv s' /\ vol_ok (fat s')) (fun _ => True).
Proof.
  induction fuel as [|fuel IH]; intros s c Hs Hv Hc Hf; [lia|].
  apply remove_round; try done. intros s' T _ _.
  assert (cache_inv s' /\ vol_ok (fat s')) as [Hs' Hv'].
  { split; [apply T|by apply (tab_vol_ok _ _ _ T)]. }
  split; [done|]. intros He. apply IH; [done..|rewrite (tab_cnt _ _ _ T); lia|].
  pose proof (used_decreases s s' c T Hc ltac:(lia)). lia.
Qed.

(** [remove_chain] terminates on any table, also one with a cycle or a
    broken link: as many rounds as the volume has clusters, plus one, are
    enough for it to return, with or without an error. *)
Theorem remove_chain_terminates s c :
  cache_inv s -> vol_ok (fat s) -> 0 <= c < clust_cnt (fat s) ->
  wp (remove_chain (S (Z.to_nat (clust_cnt (fat s)))) c) s (fun _ s' => cache_inv s') (fun _ => True).
Proof.
  intros Hs Hv Hc. unfold remove_chain, or_flags, modify_fat. wp_steps.
  pose proof (tab_info_flag s Hv Hs) as T0. set (s0 := with_fat _ s) in *.
  pose proof (tab_vol_ok _ _ _ T0 Hv) as Hv0. pose proof (used_bound s0 Hv0) as Hu.
  rewrite (tab_cnt _ _ _ T0) in Hu.
  eapply wp_mono; [apply remove_loop_terminates| |done].
  - apply T0.
  - done.
  - by rewrite (tab_cnt _ _ _ T0).
  - lia.
  - intros _ s1 [Hs1 Hv1]. eapply wp_mono; [by apply sync_fs_tab| |done].
    intros _ s2 (T2 & _). apply T2.
Qed.

(** ** Stretching a chain *)

(** The [k]-th cluster the scan looks at, from the hint [lu] round the volume. *)
Definition scan_pos (cnt lu k : Z) : Z := 2 + (lu - 2 + k) mod (cnt - 2).

Lemma scan_pos_range cnt lu k : 2 < cnt -> 2 <= scan_pos cnt lu k < cnt.
Proof. intros H. unfold scan_pos. pose proof (Z.mod_pos_bound (lu - 2 + k) (cnt - 2)). lia. Qed.

Lemma scan_pos_0 cnt lu : 2 <= lu < cnt -> scan_pos cnt lu 0 = lu.
Proof. intros H. unfold scan_pos. rewrite Z.mod_small; lia. Qed.

Lemma scan_pos_wrap cnt lu : 2 <= lu < cnt -> scan_pos cnt lu (cnt - 2) = lu.
Proof.
  intros H. unfold scan_pos. replace (lu - 2 + (cnt - 2)) with (lu - 2 + 1 * (cnt - 2)) by lia.
  rewrite Z.mod_add, Z.mod_small; lia.
Qed.

Lemma next_clust_pos (f : Fat) lu k :
  2 < clust_cnt f <= 0x0ffffff7 ->
  next_clust f (scan_pos (clust_cnt f) lu k) = scan_pos (clust_cnt f) lu (k + 1).
Proof.
  intros Hc. unfold next_clust, scan_pos. set (n := clust_cnt f - 2).
  pose proof (Z.mod_pos_bound (lu - 2 + k) n ltac:(lia)) as Hm.
  rewrite u32_small by lia. replace (lu - 2 + (k + 1)) with (lu - 2 + k + 1) by lia.
  rewrite <- (Zplus_mod_idemp_l (lu - 2 + k)). set (m := (lu - 2 + k) mod n) in *.
  destruct (Z.leb_spec (clust_cnt f) (2 + m + 1)).
  - replace (m + 1) with n by lia. rewrite Z.mod_same by lia. done.
  - rewrite (Z.mod_small (m + 1)) by lia. lia.
Qed.

(** Every cluster is looked at. *)
Lemma scan_pos_onto cnt lu c :
  2 <= lu < cnt -> 2 <= c < cnt -> c ≠ lu ->
  exists k, 0 < k < cnt - 2 /\ c = scan_pos cnt lu k.
Proof.
  intros Hl Hc Hne. destruct (decide (lu < c)).
  - exists (c - lu). split; [lia|]. unfold scan_pos. rewrite Z.mod_small; lia.
  - exists (c - lu + (cnt - 2)). split; [lia|]. unfold scan_pos.
    replace (lu - 2 + (c - lu + (cnt - 2))) with (c - 2 + 1 * (cnt - 2)) by lia.
    rewrite Z.mod_add, Z.mod_small; lia.
Qed.

Lemma scan_pos_ne cnt lu k : 2 <= lu < cnt -> 0 < k < cnt - 2 -> scan_pos cnt lu k ≠ lu.
Proof.
  intros Hl Hk. unfold scan_pos. destruct (decide (lu - 2 + k < cnt - 2)).
  - rewrite Z.mod_small by lia. lia.
  - replace (lu - 2 + k) with (lu - 2 + k - (cnt - 2) + 1 * (cnt - 2)) by lia.
    rewrite Z.mod_add, Z.mod_small by lia. lia.
Qed.

(** No entry of the table is broken. *)
Definition table_ok s : Prop :=
  forall c, 2 <= c < clust_cnt (fat s) -> classify (clust_cnt (fat s)) (entry s c) ≠ None.

(** The volume is full: the only cluster that may be free is the hint. *)
Definition full s : Prop :=
  forall c, 2 <= c < clust_cnt (fat s) -> c ≠ last_used (fat s) -> entry s c ≠ 0.

Lemma scan_free_spec fuel : forall s k flags s0,
  kept s0 s -> reliable D -> cache_inv s0 -> vol_ok (fat s0) -> table_ok s0 ->
  let cnt := clust_cnt (fat s0) in
  let lu := last_used (fat s0) in
  2 <= lu < cnt -> 0 <= k < cnt - 2 -> cnt - 2 - k <= Z.of_nat fuel ->
  (forall j, 0 < j <= k -> entry s0 (scan_pos cnt lu j) ≠ 0) ->
  wp (scan_free fuel (scan_pos cnt lu k) flags) s (fun r s' =>
    kept s0 s' /\ exists c, r = inl c /\ 2 <= c < cnt /\ entry s0 c = 0)
    (fun e => e = FAT_ERR_FULL /\ full s0).
Proof.
  induction fuel as [|fuel IH]; intros s k flags s0 Hk Hrel Hs0 Hv Hok cnt lu Hlu Hk0 Hf Hseen; [lia|].
  pose proof (vo_cnt _ Hv) as Hcnt. cbn [scan_free]. wp_steps.
  assert (clust_cnt (fat s) = cnt /\ last_used (fat s) = lu) as [Ec El].
  { split; [by apply kept_cnt|]. destruct Hk as (_ & _ & (_ & -> & _)%rest_inv). done. }
  pose proof (next_clust_pos (fat s) lu k ltac:(rewrite Ec; done)) as Hn. rewrite Ec in Hn.
  rewrite Hn, El. pose proof (scan_pos_range cnt lu (k + 1) ltac:(lia)) as Hr.
  destruct (scan_pos cnt lu (k + 1) =? lu) eqn:E; breflect.
  - wp_steps. split; [done|]. intros c Hc Hne.
    destruct (scan_pos_onto cnt lu c Hlu Hc Hne) as (j & Hj & ->).
    destruct (decide (j <= k)); [apply Hseen; lia|].
    destruct (decide (k + 1 < cnt - 2)); [|lia].
    by destruct (scan_pos_ne cnt lu (k + 1) Hlu ltac:(lia)).
  - assert (k + 1 < cnt - 2) as Hk1.
    { destruct (decide (k + 1 = cnt - 2)) as [Heq|]; [|lia].
      rewrite Heq in E. by rewrite scan_pos_wrap in E. }
    wp_step. set (p := scan_pos cnt lu (k + 1)) in *.
    assert (entry s p = entry s0 p) as Ep by (apply kept_entry; [done..|lia]).
    eapply wp_attempt; [apply (get_fat_spec s p); [apply Hk|by eapply kept_vol_ok|lia]| |].
    + intros [v fl] s' (Hk' & _ & Hcl). cbn [snd] in Hcl. rewrite Ep, Ec in Hcl.
      pose proof (kept_trans _ _ _ Hk Hk') as Hk2.
      apply classify_cases in Hcl. destruct (decide (entry s0 p = 0)) as [E0|E0].
      * destruct Hcl as [[? ->]|[[? ?]|[[? ?]|(? & ? & ?)]]]; try lia.
        wp_steps. split; [done|]. by exists p.
      * assert (has fl CLUST_FREE = false) as ->.
        { destruct Hcl as [[? ?]|[[? ->]|[[? ->]|(? & ? & ->)]]]; done. }
        apply (IH s' (k + 1) fl s0); [done..|lia|lia|]. intros j Hj.
        destruct (decide (j = k + 1)) as [->|]; [done|]. apply Hseen. lia.
    + intros e s' [[_ Hn']|[_ Hcl]] _; [done|]. exfalso. rewrite Ep, Ec in Hcl.
      by apply (Hok p).
Qed.

Definition EOC : Z := 0x0fffffff.

(** The table after cluster [c] was taken and linked behind [prev] (0: none). *)
Definition linked (e : Z -> Z) (prev c x : Z) : Z :=
  if decide (x = c) then EOC else if decide (prev ≠ 0 /\ x = prev) then c else e x.

Lemma entry_mask_small v : 0 <= v <= EOC -> Z.land v ENTRY_MASK = v.
Proof. intros Hv. rewrite entry_mask_mod, Z.mod_small; [done|]. unfold EOC in Hv. lia. Qed.

(** A [put_fat] as a change of the table. *)
Lemma put_fat_tab s c v :
  cache_inv s -> vol_ok (fat s) -> 0 <= c < clust_cnt (fat s) -> 0 <= v <= EOC ->
  wp (put_fat c v) s (fun _ s' =>
    tab s s' (fun x => if decide (x = c) then v else entry s x) /\
    last_used (fat s') = last_used (fat s) /\ free_cnt (fat s') = free_cnt (fat s)) (io_failure D).
Proof.
  intros Hs Hv Hc Hval. eapply wp_mono; [by apply put_fat_spec| |done].
  intros [] s' Hp. cbn beta in Hp. pose proof (put_rel_tab _ _ _ _ Hs Hp) as T.
  rewrite entry_mask_small in T by done.
  pose proof (pr_rest _ _ _ _ Hp) as (_ & ? & ? & _)%rest_inv. done.
Qed.

Lemma take_clust_spec s prev c :
  cache_inv s -> vol_ok (fat s) -> 2 <= c < clust_cnt (fat s) ->
  (prev = 0 \/ (2 <= prev < clust_cnt (fat s) /\ prev ≠ c)) ->
  wp (take_clust prev c) s (fun r s' =>
    r = c /\ tab s s' (linked (entry s) prev c) /\ last_used (fat s') = c /\
    free_cnt (fat s') = u32 (free_cnt (fat s) - 1) /\ clean s') (io_failure D).
Proof.
  intros Hs Hv Hc Hprev. pose proof (vo_cnt _ Hv) as Hcnt. unfold take_clust.
  wp_step. eapply wp_mono; [apply put_fat_tab; [done..|lia|unfold EOC; lia]| |done].
  intros _ s1 (T1 & _ & Hfc1). wp_step.
  assert (wp (if ctrue prev then put_fat prev c else ret tt) s1 (fun _ s2 =>
    tab s s2 (linked (entry s) prev c) /\ free_cnt (fat s2) = free_cnt (fat s)) (io_failure D)) as Hlink.
  { unfold ctrue. destruct (Z.eqb_spec prev 0) as [->|Hne]; simpl.
    - wp_steps. split; [|done]. eapply tab_ext; [exact T1|]. intros x _. unfold linked.
      case_decide; [done|]. rewrite decide_False by naive_solver. done.
    - destruct Hprev as [?|[Hp Hpc]]; [done|].
      eapply wp_mono; [apply put_fat_tab| |done].
      + apply T1.
      + by apply (tab_vol_ok _ _ _ T1).
      + rewrite (tab_cnt _ _ _ T1). lia.
      + unfold EOC. lia.
      + intros _ s2 (T2 & _ & Hfc2). split; [|congruence].
        eapply tab_ext; [exact (tab_trans _ _ _ _ _ T1 T2)|]. intros x Hx. cbn beta.
        unfold linked. rewrite (tb_entry _ _ _ T1) by done.
        destruct (decide (x = prev)) as [->|].
        * by rewrite (decide_False (P := prev = c)), decide_True.
        * rewrite (decide_False (P := prev ≠ 0 /\ x = prev)) by naive_solver. done. }
  eapply wp_mono; [exact Hlink| |done]. intros _ s2 (T2 & Hfc2). unfold modify_fat. wp_steps.
  pose proof (tab_counters s2 c (u32 (free_cnt (fat s2) - 1)) (tab_vol_ok _ _ _ T2 Hv)
    (tb_inv _ _ _ T2)) as T3.
  match goal with |- wp _ ?x _ _ => set (s3 := x) in * end.
  change (tab s2 s3 (entry s2)) in T3. pose proof (tab_trans _ _ _ _ _ T2 T3) as T23.
  eapply wp_mono; [apply sync_fs_tab; [apply T3|by apply (tab_vol_ok _ _ _ T23)]| |done].
  intros _ s4 (T4 & Hcl & Hlu4 & Hfc4). wp_steps. split_and!; [done| |by rewrite Hlu4| |done].
  - eapply tab_ext; [exact (tab_trans _ _ _ _ _ T23 T4)|]. intros x Hx.
    rewrite (tb_entry _ _ _ T23), (tb_entry _ _ _ T2) by done. done.
  - rewrite Hfc4. unfold s3. simpl. by rewrite Hfc2.
Qed.

(** Growing the chains of [e] by a linked cluster. *)
Lemma linked_chain e e' cnt prev c c0 l :
  2 <= c < cnt -> cnt <= 0x0ffffff7 -> e c = 0 ->
  (forall x, 0 <= x < cnt -> e' x = linked e prev c x) ->
  chain e cnt c0 (l ++ [prev]) -> chain e' cnt c0 (l ++ [prev; c]).
Proof.
  intros Hc Hcnt H0 He' Hch.
  assert (forall x, x ∈ l ++ [prev] -> 2 <= x < cnt) as Hr by (intros x; by eapply chain_range).
  assert (2 <= prev < cnt) as Hp by (apply Hr, elem_of_app; right; left).
  pose proof (chain_NoDup _ cnt _ _ Hcnt Hch) as (_ & Hdis & _)%NoDup_app.
  assert (c ∉ l ++ [prev]) as Hni.
  { intros Hx. destruct (chain_suffix _ _ _ _ _ Hch Hx) as (l1 & l2 & _ & H2).
    destruct H2; lia. }
  assert (prev ≠ c) as Hpc.
  { intros ->. apply Hni, elem_of_app. right. left. }
  apply (chain_snoc e); try done.
  - rewrite He' by lia. unfold linked. by rewrite decide_False, decide_True by (done || lia).
  - rewrite He' by lia. unfold linked. rewrite decide_True by done. unfold EOC. lia.
  - intros x Hx. pose proof (Hr x ltac:(apply elem_of_app; by left)).
    rewrite He' by lia. unfold linked. rewrite decide_False, decide_False; [done| |].
    + intros [_ ->]. apply (Hdis prev Hx). left.
    + intros ->. apply Hni, elem_of_app. by left.
Qed.

(** The end of [stretch_chain] from a state that shows the table of [s]. *)
Lemma stretch_take s s1 prev c :
  reliable D -> vol_ok (fat s) -> tab s s1 (entry s) ->
  free_cnt (fat s1) = free_cnt (fat s) -> 2 <= c < clust_cnt (fat s) -> entry s c = 0 ->
  (prev = 0 \/ (2 <= prev < clust_cnt (fat s) /\ entry s prev ≠ 0)) ->
  wp (take_clust prev c) s1 (fun c s' =>
    2 <= c < clust_cnt (fat s) /\ entry s c = 0 /\ tab s s' (linked (entry s) prev c) /\
    last_used (fat s') = c /\ free_cnt (fat s') = u32 (free_cnt (fat s) - 1) /\ clean s' /\
    (forall c0 l, chain (entry s) (clust_cnt (fat s)) c0 (l ++ [prev]) ->
       chain (entry s') (clust_cnt (fat s)) c0 (l ++ [prev; c])))
    (fun e => e = FAT_ERR_FULL /\ full s).
Proof.
  intros Hrel Hv T1 Hfc Hc H0 Hprev. pose proof (vo_cnt _ Hv) as Hcnt.
  eapply wp_mono; [apply take_clust_spec| |by intros e [_ ?]].
  - apply T1.
  - by apply (tab_vol_ok _ _ _ T1).
  - by rewrite (tab_cnt _ _ _ T1).
  - rewrite (tab_cnt _ _ _ T1). destruct Hprev as [?|[? ?]]; [by left|]. right. naive_solver.
  - intros r s' (-> & T2 & Hlu & Hfc2 & Hcl).
    assert (tab s s' (linked (entry s) prev c)) as T.
    { eapply tab_ext; [exact (tab_trans _ _ _ _ _ T1 T2)|]. intros x Hx.
      unfold linked. by rewrite (tb_entry _ _ _ T1). }
    split_and!; try done; try lia; [by rewrite Hfc2, Hfc|]. intros c0 l.
    apply linked_chain; [done|lia|done|]. apply T.
Qed.

Lemma tab_table_ok s s' : tab s s' (entry s) -> table_ok s -> table_ok s'.
Proof.
  intros T0 Hok c Hc. rewrite (tab_cnt _ _ _ T0) in *. rewrite (tb_entry _ _ _ T0) by lia. by apply Hok.
Qed.

(** The scan of [stretch_chain], from a state that differs from [s] in the
    flag of the information sector and in what is buffered. *)
Lemma stretch_scan s s0 s1 fuel flags :
  reliable D -> vol_ok (fat s) -> table_ok s -> tab s s0 (entry s) ->
  2 <= last_used (fat s0) < clust_cnt (fat s) -> last_used (fat s0) = last_used (fat s) ->
  clust_cnt (fat s) - 2 <= Z.of_nat fuel -> kept s0 s1 ->
  wp (lu <- get (fun s => last_used (fat s)) ;; scan_free fuel lu flags)%fat s1 (fun r s' =>
    kept s0 s' /\ exists c, r = inl c /\ 2 <= c < clust_cnt (fat s) /\ entry s c = 0)
    (fun e => e = FAT_ERR_FULL /\ full s).
Proof.
  intros Hrel Hv Hok T0 Hlu Elu Hf Hk1. pose proof (vo_cnt _ Hv) as Hcnt.
  pose proof (tab_vol_ok _ _ _ T0 Hv) as Hv0. pose proof (tab_cnt _ _ _ T0) as Ec0. wp_steps.
  replace (last_used (fat s1)) with (last_used (fat s0))
    by (destruct Hk1 as (_ & _ & (_ & -> & _)%rest_inv); done).
  rewrite <- (scan_pos_0 (clust_cnt (fat s0)) (last_used (fat s0))) by by rewrite Ec0.
  eapply wp_mono; [apply (scan_free_spec fuel s1 0 flags s0); rewrite ?Ec0; try done; try lia|  |].
  - apply T0.
  - by apply (tab_table_ok s).
  - rewrite Ec0. intros r s' (Hk & c & -> & Hc & He). split; [done|].
    exists c. rewrite <- (tb_entry _ _ _ T0) by lia. done.
  - intros e [-> Hfull]. split; [done|]. intros c Hc Hne.
    rewrite <- (tb_entry _ _ _ T0) by lia. apply Hfull; rewrite ?Ec0, ?Elu; done.
Qed.

(** C6. Extending a chain.  On a reliable disk with an unbroken table and the
    hint in range, [stretch_chain] returns within one round of the volume: either
    a cluster that was free, now an end-of-chain and linked behind [prev] (so
    that the chain ending in [prev] has grown by it), with the hint, the
    count, the mirror and the disk up to date and nothing else changed; or
    [FAT_ERR_FULL], and then no cluster but possibly the hint is free. *)
Theorem stretch_chain_correct s prev fuel :
  reliable D -> cache_inv s -> vol_ok (fat s) -> table_ok s ->
  2 <= last_used (fat s) < clust_cnt (fat s) ->
  (prev = 0 \/ (2 <= prev < clust_cnt (fat s) /\ entry s prev ≠ 0)) ->
  clust_cnt (fat s) - 2 <= Z.of_nat fuel ->
  wp (stretch_chain undef_u8 undef_u32 fuel prev) s (fun c s' =>
    2 <= c < clust_cnt (fat s) /\ entry s c = 0 /\ tab s s' (linked (entry s) prev c) /\
    last_used (fat s') = c /\ free_cnt (fat s') = u32 (free_cnt (fat s) - 1) /\ clean s' /\
    (forall c0 l, chain (entry s) (clust_cnt (fat s)) c0 (l ++ [prev]) ->
       chain (entry s') (clust_cnt (fat s)) c0 (l ++ [prev; c])))
    (fun e => e = FAT_ERR_FULL /\ full s).
Proof.
  intros Hrel Hs Hv Hok Hlu Hprev Hf. pose proof (vo_cnt _ Hv) as Hcnt.
  unfold stretch_chain, or_flags, modify_fat. wp_steps.
  pose proof (tab_info_flag s Hv Hs) as T0. set (s0 := with_fat _ s) in *.
  pose proof (tab_vol_ok _ _ _ T0 Hv) as Hv0. pose proof (tab_cnt _ _ _ T0) as Ec0.
  pose proof (tab_table_ok _ _ T0 Hok) as Hok0.
  assert (forall s1, kept s0 s1 -> tab s s1 (entry s) /\ free_cnt (fat s1) = free_cnt (fat s)) as Hk0.
  { intros s1 Hk. split.
    - eapply tab_ext; [exact (tab_trans _ _ _ _ _ T0 (kept_tab _ _ Hv0 Hk))|].
      apply (tb_entry _ _ _ T0).
    - destruct Hk as (_ & _ & (_ & _ & -> & _)%rest_inv). done. }
  pose proof (fun s1 flags => stretch_scan s s0 s1 fuel flags Hrel Hv Hok T0 Hlu eq_refl Hf) as Hscan.
  pose proof (fun s1 c (Hk1 : kept s0 s1) Hc He => stretch_take s s1 prev c Hrel Hv
    (proj1 (Hk0 s1 Hk1)) (proj2 (Hk0 s1 Hk1)) Hc He Hprev) as Htake.
  unfold ctrue at 1. destruct (Z.eqb_spec prev 0) as [->|Hne]; simpl negb; cbv iota.
  - wp_steps. eapply wp_mono; [apply Hscan, kept_refl, T0| |done].
    intros r s1 (Hk1 & c & -> & Hc & He). cbv iota. by apply Htake.
  - destruct Hprev as [?|[Hp Hpe]]; [done|]. wp_steps.
    set (n := next_clust (fat s0) prev).
    assert (2 <= n < clust_cnt (fat s)) as Hn.
    { unfold n, next_clust. rewrite Ec0, u32_small by lia. case_match; breflect; lia. }
    eapply wp_mono; [apply get_fat_spec; [apply T0|done|rewrite Ec0; lia]| |].
    2:{ intros e [[_ ?]|[_ Hcl]]; [done|]. exfalso. rewrite Ec0 in Hcl.
        apply (Hok0 n); rewrite Ec0; done. }
    intros [v flags] s1 (Hk1 & _ & Hcl). cbn [snd] in Hcl. wp_steps.
    rewrite Ec0, (tb_entry _ _ _ T0) in Hcl by lia. apply classify_cases in Hcl.
    destruct (has flags CLUST_FREE) eqn:Hfree; simpl negb; cbv iota.
    + wp_steps. apply Htake; [done..|].
      destruct Hcl as [[? ?]|[[? ->]|[[? ->]|(? & ? & ->)]]]; done.
    + wp_steps. eapply wp_mono; [apply (Hscan s1 flags Hk1)| |done].
      intros r s2 (Hk2 & c & -> & Hc & He). cbv iota. by apply Htake.
Qed.

End Chain.

(** ** Concrete instances *)

Lemma demo_vol_ok : vol_ok (fat demo_st).
Proof.
  constructor; change (fat demo_st) with demo_fat;
    try change (fat_sects demo_fat) with 1; cbn -[Z.pow].
  - lia.
  - done.
  - lia.
  - lia.
  - lia.
Qed.

(** The table: clusters 0, 1 and 2 are in use. *)
Lemma demo_entry c :
  0 <= c < 128 -> entry demo_st c = if decide (c < 3) then entry demo_st c else 0.
Proof.
  intros Hc. case_decide; [done|].
  assert (Forall (fun x => entry demo_st x = 0) (seqZ 3 125)) as Hall.
  { apply (bool_decide_unpack _). vm_compute. exact I. }
  rewrite Forall_forall in Hall. apply Hall, elem_of_seqZ. lia.
Qed.

Lemma demo_table_ok : table_ok demo_st.
Proof.
  intros c Hc. change (clust_cnt (fat demo_st)) with 128 in *. rewrite demo_entry by lia.
  case_decide; [|done]. replace c with 2 by lia. vm_compute. congruence.
Qed.

Lemma demo_chain : chain (entry demo_st) 128 2 [2].
Proof. apply chain_last; [lia|]. vm_compute. congruence. Qed.

Lemma put_fat_correct_witness :
  exists s', put_fat 7 0x12345678 demo_st = (Ok tt, s') /\ entry s' 7 = 0x2345678 /\
    entry s' 2 = 0x0ffffff8.
Proof.
  destruct (wp_Ok (put_fat 7 0x12345678) demo_st _ _
    (put_fat_correct demo_st 7 0x12345678 demo_cache_inv demo_vol_ok
       ltac:(vm_compute; split; congruence))) as ([] & s' & E & Hent & _).
  - by intros e [_ Hn]; destruct Hn; apply ram_disk_reliable.
  - exists s'. split; [done|]. split.
    + rewrite (proj1 (Hent 7 ltac:(vm_compute; split; congruence))). done.
    + rewrite (proj1 (Hent 2 ltac:(vm_compute; split; congruence))). vm_compute. done.
Defined.

Lemma remove_chain_correct_witness :
  exists s', remove_chain 1 2 demo_st = (Ok tt, s') /\ entry s' 2 = 0 /\
    free_cnt (fat s') = 126.
Proof.
  destruct (wp_Ok (remove_chain 1 2) demo_st _ _
    (remove_chain_correct demo_st 2 [2] 1 demo_cache_inv demo_vol_ok demo_chain
       ltac:(simpl; lia))) as ([] & s' & E & T & Hfc & _).
  - by intros e [_ Hn]; destruct Hn; apply ram_disk_reliable.
  - exists s'. split_and!; [done| |done].
    rewrite (tb_entry _ _ _ T) by (vm_compute; split; congruence). done.
Defined.

(** A cycle: cluster 3 links to 4, and 4 back to 3. *)
Definition cyclic_st : St (gmap Z (list Z)) :=
  (put_fat 4 3 (put_fat 3 4 demo_st).2).2.

Lemma cyclic_ok : cache_inv cyclic_st /\ vol_ok (fat cyclic_st).
Proof.
  destruct (wp_Ok (put_fat 3 4) demo_st _ _ (put_fat_spec demo_st 3 4 demo_cache_inv demo_vol_ok
    ltac:(vm_compute; split; congruence))) as ([] & s1 & E1 & P1).
  { by intros e [_ Hn]; destruct Hn; apply ram_disk_reliable. }
  pose proof (put_rel_tab _ _ _ _ demo_cache_inv P1) as T1.
  destruct (wp_Ok (put_fat 4 3) s1 _ _ (put_fat_spec s1 4 3 (tb_inv _ _ _ T1)
    (tab_vol_ok _ _ _ T1 demo_vol_ok)
    ltac:(rewrite (tab_cnt _ _ _ T1); vm_compute; split; congruence))) as ([] & s2 & E2 & P2).
  { by intros e [_ Hn]; destruct Hn; apply ram_disk_reliable. }
  pose proof (put_rel_tab _ _ _ _ (tb_inv _ _ _ T1) P2) as T2.
  unfold cyclic_st. rewrite E1. cbn [snd]. rewrite E2. cbn [snd].
  split; [apply T2|]. apply (tab_vol_ok _ _ _ T2), (tab_vol_ok _ _ _ T1 demo_vol_ok).
Qed.

Lemma remove_chain_terminates_witness :
  wp (remove_chain 129 3) cyclic_st (fun _ s' => cache_inv s') (fun _ => True) /\
  (remove_chain 129 3 cyclic_st).1 = Err FAT_ERR_BROKEN.
Proof.
  assert (clust_cnt (fat cyclic_st) = 128) as Hcnt by (vm_compute; reflexivity).
  split; [|vm_compute; reflexivity].
  change 129%nat with (S (Z.to_nat 128)). rewrite <- Hcnt.
  apply (remove_chain_terminates cyclic_st 3 (proj1 cyclic_ok) (proj2 cyclic_ok)). rewrite Hcnt. lia.
Defined.

Lemma stretch_chain_correct_witness :
  exists s', stretch_chain 0 0 126 2 demo_st = (Ok 3, s') /\ chain (entry s') 128 2 [2; 3].
Proof.
  pose proof (stretch_chain_correct 0 0 demo_st 2 126 ram_disk_reliable demo_cache_inv
    demo_vol_ok demo_table_ok ltac:(vm_compute; split; congruence)
    ltac:(right; split; [vm_compute; split; congruence|vm_compute; congruence])
    ltac:(vm_compute; congruence)) as H.
  unfold wp in H. destruct (stretch_chain 0 0 126 2 demo_st) as [r s'] eqn:E.
  assert (r = Ok 3) as ->.
  { change r with ((r, s').1). rewrite <- E. vm_compute. reflexivity. }
  exists s'. split; [done|]. destruct H as (_ & _ & _ & _ & _ & _ & Hch).
  apply (Hch 2 []). apply demo_chain.
Defined.

(** A broken entry met by the scan: the error of [get_fat] is dropped and the
    uninitialised [flags] returned; when that is 0 the caller sees success with
    an uninitialised cluster number. *)
Example scan_error_is_lost :
  (stretch_chain 0 0xdead 126 0 (put_fat 3 1 demo_st).2).1 = Ok 0xdead.
Proof. vm_compute. done. Qed.
