(* ===== verification/Fat32File.v ===== *)
(** * FAT32: the contents of files

    The bytes of a file are those of the sectors of its cluster chain, with the buffered sector in place of the one on the disk.
    [fat_file_seek] moves in the chain and keeps them, [fat_file_read] returns them, and [fat_file_write] replaces them; within the
    clusters that the file has, nothing else on the volume changes. *)

From S2P Require Import Prelude Fat32 Fat32Cache Fat32Chain.

(** Two facts about one run. *)
Lemma wp_and {D A} (m : M D A) s (Q1 Q2 : A -> St D -> Prop) (E1 E2 : Z -> Prop) :
  wp m s Q1 E1 -> wp m s Q2 E2 -> wp m s (fun a s' => Q1 a s' /\ Q2 a s') (fun e => E1 e /\ E2 e).
Proof. unfold wp. destruct (m s) as [[] s']; tauto. Qed.

Section File.
Context {D : Type} {DO : DiskOps D} {DL : @DiskLaws D DO}.
Context (undef_u8 undef_u32 : Z).
Implicit Types s : St D.
Implicit Types l : list Z.

(** ** Clusters as sectors *)

(** Sectors in a cluster. *)
Definition spc (f : Fat) : Z := 2 ^ clust_shift f.

(** The data area lies behind the tables and within the sectors that have numbers. *)
Record data_ok (f : Fat) : Prop := {
  da_shift : 0 <= clust_shift f <= 7;
  da_msk : clust_msk f = spc f - 1;
  da_data : 0 < data_sect f /\ data_sect f + (clust_cnt f - 2) * spc f <= 2 ^ 32;
  da_apart : forall t, data_sect f <= t -> ~ in_tables f t /\ t ≠ info_sect f;
}.

Lemma spc_range f : data_ok f -> 1 <= spc f <= 128.
Proof.
  intros [Hs _ _ _]. unfold spc. change 1 with (2 ^ 0). change 128 with (2 ^ 7).
  split; apply Z.pow_le_mono_r; lia.
Qed.

Lemma clust_to_sect_eq f c :
  data_ok f -> 2 <= c < clust_cnt f -> clust_to_sect f c = data_sect f + (c - 2) * spc f /\ clust_to_sect f c + spc f <= 2 ^ 32.
Proof.
  intros Hd Hc. pose proof (spc_range f Hd) as Hs. destruct Hd as [Hsh _ [H0 H1] _]. unfold clust_to_sect.
  assert ((c - 1) * spc f <= (clust_cnt f - 2) * spc f) by (apply Z.mul_le_mono_nonneg_r; lia).
  assert (0 <= (c - 2) * spc f) by (apply Z.mul_nonneg_nonneg; lia). replace ((c - 1) * spc f) with ((c - 2) * spc f + spc f) in * by ring.
  assert (c - 2 <= (c - 2) * spc f) by nia.
  rewrite Z.shiftl_mul_pow2 by lia. fold (spc f). rewrite (u32_small (c - 2)) by lia. rewrite (u32_small (_ * _)), u32_small by lia. lia.
Qed.

(** Sector [i] of a file with the clusters [l], and how many there are. *)
Definition sect_of (f : Fat) l (i : Z) : Z := data_sect f + (l !!! Z.to_nat (i / spc f) - 2) * spc f + i mod spc f.
Definition nsect (f : Fat) l : Z := Z.of_nat (length l) * spc f.

Section Sectors.
Context (f : Fat) (l : list Z) (Hd : data_ok f) (Hl : forall c, c ∈ l -> 2 <= c < clust_cnt f).

Lemma clust_index i : 0 <= i < nsect f l -> exists c, l !! Z.to_nat (i / spc f) = Some c /\ 2 <= c < clust_cnt f.
Proof.
  intros Hi. pose proof (spc_range f Hd). unfold nsect in Hi.
  assert (0 <= i / spc f < Z.of_nat (length l)) by (split; [apply Z.div_pos|apply Z.div_lt_upper_bound]; lia).
  destruct (lookup_lt_is_Some_2 l (Z.to_nat (i / spc f))) as [c Hc]; [lia|]. exists c. split; [done|].
  apply Hl. by eapply list_elem_of_lookup_2.
Qed.

Lemma sect_of_range i : 0 <= i < nsect f l -> data_sect f <= sect_of f l i < 2 ^ 32.
Proof.
  intros Hi. destruct (clust_index i Hi) as (c & Hc & Hr). destruct (clust_to_sect_eq f c Hd Hr) as [E H1].
  pose proof (spc_range f Hd). pose proof (Z.mod_pos_bound i (spc f) ltac:(lia)).
  unfold sect_of. rewrite (list_lookup_total_correct _ _ _ Hc). nia.
Qed.

Lemma sect_of_inj i j : NoDup l -> 0 <= i < nsect f l -> 0 <= j < nsect f l -> sect_of f l i = sect_of f l j -> i = j.
Proof.
  intros Hnd Hi Hj E. destruct (clust_index i Hi) as (c & Hc & _), (clust_index j Hj) as (c' & Hc' & _).
  pose proof (spc_range f Hd). pose proof (Z.mod_pos_bound i (spc f) ltac:(lia)). pose proof (Z.mod_pos_bound j (spc f) ltac:(lia)).
  unfold sect_of in E. rewrite (list_lookup_total_correct _ _ _ Hc), (list_lookup_total_correct _ _ _ Hc') in E.
  assert (c = c') as -> by nia. assert (Z.to_nat (i / spc f) = Z.to_nat (j / spc f)) as En by (eapply NoDup_lookup; done).
  assert (0 <= i / spc f) by (apply Z.div_pos; lia). assert (0 <= j / spc f) by (apply Z.div_pos; lia).
  rewrite (Z.div_mod i (spc f)), (Z.div_mod j (spc f)) by lia. replace (i / spc f) with (j / spc f) by lia. lia.
Qed.

(** The sector that [fat_file_seek] computes for an offset. *)
Lemma seek_sector off c :
  0 <= off < nsect f l * 512 -> l !! Z.to_nat (off / (512 * spc f)) = Some c ->
  u32 (clust_to_sect f c + Z.land (off / 512) (clust_msk f)) = sect_of f l (off / 512) /\ 0 <= off / 512 < nsect f l.
Proof.
  intros Ho Hc. pose proof (spc_range f Hd) as Hs.
  assert (0 <= off / 512 < nsect f l) as Hi by (Z.div_mod_to_equations; lia). split; [|done].
  rewrite <- Z.div_div in Hc by lia.
  assert (2 <= c < clust_cnt f) as Hr by (apply Hl; by eapply list_elem_of_lookup_2).
  destruct (clust_to_sect_eq f c Hd Hr) as [-> H1].
  assert (Z.land (off / 512) (clust_msk f) = (off / 512) mod spc f) as ->.
  { rewrite (da_msk f Hd). unfold spc. rewrite <- Z.land_ones, Z.ones_equiv by apply Hd. f_equal. }
  pose proof (sect_of_range _ Hi) as Hsr. unfold sect_of in *. rewrite (list_lookup_total_correct _ _ _ Hc) in *.
  apply u32_small. pose proof (da_data f Hd). lia.
Qed.
End Sectors.
(** ** What the operations of a file keep *)

(** All but the open file. *)
Definition core s :=
  (geom (fat s), last_used (fat s), free_cnt (fat s), info_dirty s, mounted s, (g_buf s, g_len s, g_crc s), (dir s, loc s, path s)).

Lemma core_geom s s' : core s' = core s -> geom (fat s') = geom (fat s).
Proof. intros E. exact (f_equal (fun x => x.1.1.1.1.1.1) E). Qed.

(** The table is read: the buffer of the volume keeps its sector or holds one of the table. *)
Definition looked s s' : Prop :=
  cache_inv s' /\ same_view s s' /\ core s' = core s /\ (sect (fat s') = sect (fat s) \/ in_tables (fat s) (sect (fat s'))).

Lemma looked_refl s : cache_inv s -> looked s s.
Proof. intros Hs. unfold looked. split_and!; try done. by left. Qed.

Lemma in_tables_geom f f' t : geom f' = geom f -> in_tables f' t <-> in_tables f t.
Proof.
  intros Hg. apply geom_inv in Hg as (_ & Ec & _ & E0 & E1 & _). unfold in_tables, mirror_on, fat_sects. by rewrite Ec, E0, E1.
Qed.

Lemma looked_trans s1 s2 s3 : looked s1 s2 -> looked s2 s3 -> looked s1 s3.
Proof.
  intros (_ & V1 & C1 & B1) (H3 & V2 & C2 & B2). unfold looked. split_and!; [done| |congruence|].
  - intros t Ht. by rewrite V2, V1.
  - rewrite (in_tables_geom _ _ _ (core_geom _ _ C1)) in B2. destruct B2 as [->|?]; [done|by right].
Qed.

(** The open file is no part of what is looked at. *)
Lemma looked_file s s' g : looked s s' -> looked s (with_file g s').
Proof. intros (H1 & V & C & B). unfold looked. split_and!; try done. by destruct H1 as [? ? ? ? ?]; constructor. Qed.

Lemma looked_entry s s' c : looked s s' -> vol_ok (fat s) -> 0 <= c < clust_cnt (fat s) -> entry s' c = entry s c.
Proof.
  intros (_ & V & C & _) Hv Hc. pose proof (core_geom _ _ C) as Hg. apply geom_inv in Hg as (_ & _ & _ & E0 & _).
  destruct (clust_sector (fat s) (fat_sect0 (fat s)) c) as (_ & Hne & _); [done..|apply Hv|apply Hv|].
  unfold entry, raw_entry. rewrite E0. by rewrite (word_at_same s s').
Qed.

(** Reading an entry. *)
Lemma get_fat_looked s c :
  cache_inv s -> vol_ok (fat s) -> 0 <= c < clust_cnt (fat s) ->
  wp (get_fat c) s (fun r s' => (looked s s' /\ file s' = file s) /\ r.1 = entry s c /\ classify (clust_cnt (fat s)) (entry s c) = Some r.2)
    (fun e => io_failure D e \/ (e = FAT_ERR_BROKEN /\ classify (clust_cnt (fat s)) (entry s c) = None)).
Proof.
  intros Hs Hv Hc. destruct (clust_sector (fat s) (fat_sect0 (fat s)) c) as (Hu & Hne & Hr & _); [done..|apply Hv|apply Hv|].
  assert (wp (get_fat c) s (fun _ s' => sect (fat s') = fat_sect0 (fat s) + c / 128) (fun _ => True)) as W.
  { unfold get_fat. wp_steps. rewrite Hu. eapply wp_mono; [by apply update_buf_spec| |done].
    intros _ s' (_ & Hsect & _). wp_steps. repeat (case_match; wp_steps; [done|]). done. }
  eapply wp_mono; [exact (wp_and _ _ _ _ _ _ (get_fat_spec s c Hs Hv Hc) W)| |by intros e [? _]].
  intros r s' [((Hi & V & R) & H1 & H2) Hsect]. apply rest_inv in R as (R1 & R2 & R3 & R4 & R5).
  split_and!; [|exact (f_equal (fun x => x.2.2) R5)|done..]. unfold looked. split_and!; [done..| |].
  - unfold core. rewrite R1, R2, R3, R4. pose proof (f_equal (fun x => x.1.1) R5) as E1. pose proof (f_equal (fun x => x.1.2) R5) as E2.
    pose proof (f_equal (fun x => x.2.1) R5) as E3. cbn in E1, E2, E3. by rewrite E1, E2, E3.
  - right. rewrite Hsect. left. exact Hr.
Qed.

(** A link of a chain. *)
Lemma chain_link e cnt c l j x y :
  chain e cnt c l -> l !! j = Some x -> l !! S j = Some y -> e x = y /\ 2 <= y < cnt.
Proof.
  intros Hch. revert j. induction Hch as [c Hc Hl|c l Hc Hn Hch IH]; intros j Hx Hy.
  - by destruct j.
  - destruct j as [|j]; [|by apply (IH j)]. simpl in *. simplify_eq. by inversion Hch; subst; simplify_eq/=.
Qed.

Lemma classify_next cnt v : cnt <= 0x0ffffff7 -> 2 <= v < cnt -> classify cnt v = Some CLUST_USED.
Proof.
  intros Hc Hv. unfold classify. repeat (case_match; breflect; try lia). done.
Qed.

(** [n] links along the chain. *)
Lemma seek_chain_spec fuel l n : forall s j,
  cache_inv s -> vol_ok (fat s) -> chain (entry s) (clust_cnt (fat s)) (f_sclust (file s)) l ->
  l !! j = Some (f_clust (file s)) -> (j + n < length l)%nat ->
  wp (seek_chain undef_u8 undef_u32 n fuel) s (fun _ s' =>
    looked s s' /\ file s' = file_to (l !!! (j + n)%nat) (f_sect (file s)) (f_offset (file s)) (file s)) (io_failure D).
Proof.
  induction n as [|n IH]; intros s j Hs Hv Hch Hj Hn; cbn [seek_chain].
  { wp_steps. split; [by apply looked_refl|]. rewrite Nat.add_0_r, (list_lookup_total_correct _ _ _ Hj). by destruct (file s). }
  pose proof (vo_cnt _ Hv) as Hcnt. wp_steps.
  assert (2 <= f_clust (file s) < clust_cnt (fat s)) as Hr by (eapply chain_range; [exact Hch|by eapply list_elem_of_lookup_2]).
  destruct (lookup_lt_is_Some_2 l (S j)) as [y Hy]; [lia|]. destruct (chain_link _ _ _ _ _ _ _ Hch Hj Hy) as [Ey Hyr].
  assert (classify (clust_cnt (fat s)) (entry s (f_clust (file s))) = Some CLUST_USED) as Hcl by (rewrite Ey; apply classify_next; [apply Hcnt|done]).
  eapply wp_mono; [by apply get_fat_looked; [..|lia]| |].
  2:{ intros e [?|[_ Hcl']]; [done|]. congruence. }
  intros [v flags] s1 ((Hl1 & Hf1) & Hv1 & Hc1). cbn [fst snd] in *. rewrite Hcl in Hc1. injection Hc1 as <-. subst v.
  change (has CLUST_USED (Z.lor CLUST_BAD CLUST_FREE)) with false. change (has CLUST_USED CLUST_LAST) with false. cbv iota.
  unfold modify_file. wp_steps. set (s2 := with_file _ s1).
  pose proof (looked_file _ _ (fun f => file_to (entry s (f_clust (file s))) (f_sect f) (f_offset f) f) Hl1) as Hl2. fold s2 in Hl2.
  destruct Hl2 as (Hs2 & V2 & C2 & B2). pose proof (core_geom _ _ C2) as Hg2. pose proof (geom_inv _ _ Hg2) as (_ & Ec & _).
  eapply wp_mono; [apply (IH s2 (S j))| |done].
  - done.
  - by eapply vol_ok_geom.
  - rewrite Ec. unfold s2. simpl. rewrite Hf1. eapply chain_ext; [exact Hch|]. intros x Hx.
    apply (looked_entry s s2); [done..|]. pose proof (chain_range _ _ _ _ _ Hch Hx). lia.
  - unfold s2. simpl. by rewrite Ey.
  - lia.
  - intros _ s' [Hl3 Hf3]. split; [by eapply looked_trans|]. rewrite Hf3. unfold s2. simpl. rewrite Hf1.
    replace (j + S n)%nat with (S (j + n)) by lia. done.
Qed.
(** ** The contents of a file *)

Definition file_dirty s : bool := has (f_flags (file s)) FAT_FILE_DIRTY.

(** Sector [i] and byte [p] of the open file, whose clusters are [l]. *)
Definition fsector s l (i : Z) : list Z :=
  if decide (sect_of (fat s) l i = f_sect (file s)) then f_buf (file s) else view s (sect_of (fat s) l i).
Definition fbyte s l (p : Z) : Z := fsector s l (p / 512) !!! Z.to_nat (p mod 512).

(** [t] is a sector of the file. *)
Definition in_file (f : Fat) l (t : Z) : Prop := exists i, 0 <= i < nsect f l /\ t = sect_of f l i.

(** The open file is at an offset within its clusters, with the sector there in its buffer; the buffer of the volume holds another sector. *)
Record file_inv s l : Prop := {
  fi_cache : cache_inv s;
  fi_vol : vol_ok (fat s);
  fi_data : data_ok (fat s);
  fi_chain : chain (entry s) (clust_cnt (fat s)) (f_sclust (file s)) l;
  fi_open : f_open (file s) = true;
  fi_size : nsect (fat s) l * 512 <= 2 ^ 32;
  fi_off : 0 <= f_offset (file s) < nsect (fat s) l * 512;
  fi_clust : l !! Z.to_nat (f_offset (file s) / (512 * spc (fat s))) = Some (f_clust (file s));
  fi_sect : f_sect (file s) = sect_of (fat s) l (f_offset (file s) / 512);
  fi_length : length (f_buf (file s)) = 512%nat;
  fi_bytes : bytes (f_buf (file s));
  fi_flags : 0 <= f_flags (file s) < 256;
  fi_clean : file_dirty s = false -> f_buf (file s) = view s (f_sect (file s));
  fi_apart : ~ in_file (fat s) l (sect (fat s));
}.

(** What stays of the file: all but place, size, flags and buffer. *)
Definition ident (f : File) := (f_open f, f_dir_sect f, f_sclust f, f_dir_idx f, f_attr f).

(** From [s] to [s'] nothing but sectors of the file and its buffer changed. *)
Record framed s s' l : Prop := {
  fr_core : core s' = core s;
  fr_ident : ident (file s') = ident (file s);
  fr_view : forall t, t ≠ 0 -> ~ in_file (fat s) l t -> view s' t = view s t;
}.

Lemma geom_data f f' : geom f' = geom f ->
  (data_ok f -> data_ok f') /\ spc f' = spc f /\ (forall l i, sect_of f' l i = sect_of f l i) /\ (forall l, nsect f' l = nsect f l) /\
  (forall l t, in_file f' l t <-> in_file f l t).
Proof.
  intros Hg. pose proof (in_tables_geom f f') as Ht. pose proof (geom_inv _ _ Hg) as (Em & Ec & Ei & _ & _ & Ed & _ & Es & _).
  assert (spc f' = spc f) as Esp by (unfold spc; by rewrite Es).
  assert (forall l i, sect_of f' l i = sect_of f l i) as Eo by (intros l i; unfold sect_of; by rewrite Esp, Ed).
  assert (forall l, nsect f' l = nsect f l) as En by (intros l; unfold nsect; by rewrite Esp).
  split_and!; [|done..|].
  - intros [H1 H2 H3 H4]. constructor; rewrite ?Es, ?Em, ?Ec, ?Ed, ?Esp, ?Ei; [done..|]. intros t Hdt. rewrite (Ht t Hg). by apply H4.
  - intros l t. unfold in_file. rewrite En. by setoid_rewrite Eo.
Qed.

Lemma file_range s l : file_inv s l -> forall c, c ∈ l -> 2 <= c < clust_cnt (fat s).
Proof. intros Hf c Hc. by eapply chain_range; [apply Hf|]. Qed.

(** A sector of the file is none of the table, and is not buffered by the volume. *)
Lemma file_sector s l t :
  file_inv s l -> in_file (fat s) l t -> t ≠ 0 /\ ~ in_tables (fat s) t /\ t ≠ sect (fat s) /\ view s t = sector (disk s) t.
Proof.
  intros Hf (i & Hi & ->). pose proof (sect_of_range (fat s) l (fi_data _ _ Hf) (file_range _ _ Hf) i Hi) as Hr.
  destruct (fi_data _ _ Hf) as [_ _ [H0 _] Ha].
  assert (sect_of (fat s) l i ≠ sect (fat s)) as Hne by (intros E; apply (fi_apart _ _ Hf); exists i; by rewrite <- E).
  split_and!; [lia|apply Ha; lia|done|]. unfold view. by rewrite decide_False.
Qed.

Lemma cur_in_file s l : file_inv s l -> in_file (fat s) l (f_sect (file s)).
Proof.
  intros Hf. exists (f_offset (file s) / 512). split; [|apply Hf]. pose proof (fi_off _ _ Hf). Z.div_mod_to_equations. lia.
Qed.

(** The file buffer is written to a sector that the volume does not buffer. *)
Lemma write_file_spec s t :
  cache_inv s -> t ≠ sect (fat s) -> length (f_buf (file s)) = 512%nat -> bytes (f_buf (file s)) ->
  wp (write_file_buf t) s (fun _ s' => exists d, s' = with_disk d s /\ cache_inv s' /\
    forall u, view s' u = if decide (u = t) then f_buf (file s) else view s u) (io_failure D).
Proof.
  intros Hs Hne Hl Hb. unfold wp, write_file_buf. destruct (ops_write _ _ _) as [[] d] eqn:E.
  - pose proof (fun u => write_sector _ _ _ _ u Hl Hb E) as Hw. exists d. split_and!; [done| |].
    + destruct Hs as [C1 C2 C3 C4 C5]. constructor; simpl; try done. intros Hd Hz. rewrite Hw, decide_False by done. by apply C4.
    + intros u. unfold view. simpl. rewrite Hw. repeat case_decide; congruence.
  - split; [done|]. intros [_ Hw]. specialize (Hw (disk s) (f_buf (file s)) t). by rewrite E in Hw.
Qed.

Lemma read_file_spec s t :
  wp (read_file_buf t) s (fun _ s' => s' = with_file (with_f_buf (sector (disk s) t)) s) (io_failure D).
Proof.
  unfold wp, read_file_buf. destruct (ops_read _ _ _) as [[] b] eqn:E.
  - by rewrite (read_sector _ _ _ _ E).
  - split; [done|]. intros [Hr _]. specialize (Hr (disk s) (f_buf (file s)) t). by rewrite E in Hr.
Qed.
(** ** Seeking *)

(** A move of the file to [off]: it shows the same bytes. *)
Record moved s s' l (off : Z) : Prop := {
  mv_inv : file_inv s' l;
  mv_frame : framed s s' l;
  mv_off : f_offset (file s') = off;
  mv_size : f_size (file s') = f_size (file s);
  mv_flags : forall n, 0 <= n < 5 -> Z.testbit (f_flags (file s')) n = Z.testbit (f_flags (file s)) n;
  mv_bytes : forall p, 0 <= p < nsect (fat s) l * 512 -> fbyte s' l p = fbyte s l p;
}.

(** The last part of [fat_file_seek]: the sector changes. *)
Definition load_sector (ssect : Z) : M D unit :=
  (f <- get file ;;
   if negb (f_sect f =? ssect) then
     (if has (f_flags f) FAT_FILE_DIRTY then
        write_file_buf ssect ;;
        modify_file (fun f => with_f_flags (clear_flag FAT_FILE_DIRTY (f_flags f)) f)
      else ret tt) ;;
     read_file_buf (f_sect f)
   else ret tt)%fat.

Section Load.
Context (s s1 : St D) (l : list Z) (c t off : Z).
Context (Hf : file_inv s l) (Hlk : looked s s1) (Hfile : file s1 = file_to c t off (file s)).
Context (Ho : 0 <= off < nsect (fat s) l * 512) (Hc : l !! Z.to_nat (off / (512 * spc (fat s))) = Some c) (Ht : t = sect_of (fat s) l (off / 512)).

Lemma load_target : in_file (fat s) l t.
Proof. exists (off / 512). split; [Z.div_mod_to_equations; lia|done]. Qed.

Lemma load_apart u : in_file (fat s) l u -> u ≠ sect (fat s1).
Proof.
  intros Hu ->. destruct (file_sector _ _ _ Hf Hu) as (_ & Hnt & _ & _). destruct Hlk as (_ & _ & _ & [E|?]); [|done].
  rewrite E in Hu. by apply (fi_apart _ _ Hf).
Qed.

(** A state that shows the file as before, with the buffer at the new place. *)
Lemma load_moved s' fl :
  cache_inv s' -> core s' = core s1 -> sect (fat s') = sect (fat s1) ->
  (forall u, u ≠ 0 -> u ≠ f_sect (file s) -> view s' u = view s u) ->
  (t ≠ f_sect (file s) -> view s' (f_sect (file s)) = f_buf (file s)) ->
  file s' = with_f_flags fl (with_f_buf (if decide (t = f_sect (file s)) then f_buf (file s) else view s t) (file s1)) ->
  (forall n, 0 <= n < 5 -> Z.testbit fl n = Z.testbit (f_flags (file s)) n) -> 0 <= fl < 256 ->
  (has fl FAT_FILE_DIRTY = false -> t = f_sect (file s) -> f_buf (file s) = view s' t) ->
  moved s s' l off.
Proof.
  intros Hs' Hcore Hsect Hv1 Hv2 Hfl Hbits Hflr Hcl. pose proof Hlk as (_ & _ & C1 & _). rewrite C1 in Hcore.
  pose proof (core_geom _ _ Hcore) as Hg. destruct (geom_data _ _ Hg) as (Hd & Esp & Eso & Ens & Eif).
  pose proof (geom_inv _ _ Hg) as (_ & Ec & _). destruct (file_sector _ _ _ Hf load_target) as (Ht0 & _ & _ & _).
  destruct (file_sector _ _ _ Hf (cur_in_file _ _ Hf)) as (Hs0 & _ & _ & _).
  rewrite Hfile in Hfl. assert (f_sect (file s') = t) as Efs by (by rewrite Hfl).
  assert (forall u, u ≠ 0 -> ~ in_file (fat s) l u -> view s' u = view s u) as Hout.
  { intros u Hu Hn. apply Hv1; [done|]. intros ->. by apply Hn, cur_in_file. }
  assert (forall i, 0 <= i < nsect (fat s) l -> fsector s' l i = fsector s l i) as Hsec.
  { intros i Hi. unfold fsector. rewrite Eso, Efs, Hfl. simpl.
    assert (sect_of (fat s) l i ≠ 0) as Hi0 by (apply (file_sector _ _ _ Hf); by exists i).
    destruct (decide (sect_of (fat s) l i = t)) as [E|E]; destruct (decide (t = f_sect (file s))) as [E'|E'];
      destruct (decide (sect_of (fat s) l i = f_sect (file s))) as [E''|E'']; try congruence; auto.
    rewrite E''. by apply Hv2. }
  constructor; [constructor| | |by rewrite Hfl|intros n Hn; rewrite Hfl; by apply Hbits|].
  - done.
  - eapply vol_ok_geom; [exact Hg|apply Hf].
  - apply Hd, Hf.
  - rewrite Ec, Hfl. simpl. eapply chain_ext; [apply Hf|]. intros x Hx.
    pose proof (file_range _ _ Hf x Hx) as Hx2. destruct (clust_sector (fat s) (fat_sect0 (fat s)) x) as (_ & Hne & Hir & _);
      [apply Hf|lia|apply (fi_vol _ _ Hf)..|]. pose proof (geom_inv _ _ Hg) as (_ & _ & _ & E0 & _).
    unfold entry, raw_entry, word_at. rewrite E0, Hout; [done..|]. intros Hin. destruct (file_sector _ _ _ Hf Hin) as (_ & Hnt & _). apply Hnt. by left.
  - rewrite Hfl. apply Hf.
  - rewrite Ens. apply Hf.
  - rewrite Ens, Hfl. exact Ho.
  - rewrite Esp, Hfl. exact Hc.
  - rewrite Eso, Hfl. exact Ht.
  - rewrite Hfl. simpl. case_decide; [apply Hf|]. apply view_length, Hf.
  - rewrite Hfl. simpl. case_decide; [apply Hf|]. apply view_bytes, Hf.
  - by rewrite Hfl.
  - intros Hdf. rewrite Efs. unfold file_dirty in Hdf. rewrite Hfl in *. simpl in *. destruct (decide (t = f_sect (file s))) as [E|E]; [by apply Hcl|].
    symmetry. by apply Hv1.
  - rewrite Eif, Hsect. intros Hin. by apply (load_apart _ Hin).
  - constructor; [done|by rewrite Hfl|exact Hout].
  - by rewrite Hfl.
  - intros p Hp. unfold fbyte. rewrite Hsec; [done|]. Z.div_mod_to_equations. lia.
Qed.

Lemma load_sector_spec : wp (load_sector (f_sect (file s))) s1 (fun _ s' => moved s s' l off) (io_failure D).
Proof.
  pose proof Hlk as (Hs1 & V1 & _ & _). unfold load_sector. wp_steps.
  destruct (file_sector _ _ _ Hf load_target) as (Ht0 & _ & _ & _).
  destruct (file_sector _ _ _ Hf (cur_in_file _ _ Hf)) as (Hs0 & _ & _ & _).
  assert (file_inv s l) as [_ _ _ _ _ _ _ _ _ Hbl Hbb Hflr Hcl _] by exact Hf.
  assert (f_sect (file s1) = t /\ f_flags (file s1) = f_flags (file s) /\ f_buf (file s1) = f_buf (file s)) as (E1 & E2 & E3) by (by rewrite Hfile).
  rewrite E1, E2. fold (file_dirty s). destruct (Z.eqb_spec t (f_sect (file s))) as [Et|Et]; cbn [negb].
  { wp_steps. apply (load_moved s1 (f_flags (file s))); try done.
    - intros u Hu _. by apply V1.
    - rewrite decide_True by done. rewrite Hfile. by destruct (file s).
    - intros Hd _. rewrite (Hcl Hd), V1 by done. by rewrite Et. }
  assert (forall s2 fl, cache_inv s2 -> core s2 = core s1 -> sect (fat s2) = sect (fat s1) -> file s2 = with_f_flags fl (file s1) ->
    (forall u, u ≠ 0 -> view s2 u = if decide (u = f_sect (file s)) then f_buf (file s) else view s u) ->
    (forall n, 0 <= n < 5 -> Z.testbit fl n = Z.testbit (f_flags (file s)) n) -> 0 <= fl < 256 ->
    wp (read_file_buf t) s2 (fun _ s' => moved s s' l off) (io_failure D)) as Hread.
  { intros s2 fl Hs2 C2 B2 F2 V2 Hb Hr. eapply wp_mono; [apply read_file_spec| |done]. intros _ s' ->.
    assert (sector (disk s2) t = view s t) as Esec.
    { rewrite <- (decide_False (P := t = f_sect (file s)) (f_buf (file s)) (view s t)) by done. rewrite <- V2 by done. unfold view.
      rewrite decide_False; [done|]. rewrite B2. apply load_apart, load_target. }
    apply (load_moved _ fl); try done.
    - by destruct Hs2; constructor.
    - intros u Hu Hne. change (view s2 u = view s u). by rewrite V2, decide_False.
    - intros _. change (view s2 (f_sect (file s)) = f_buf (file s)). by rewrite V2, decide_True.
    - rewrite decide_False by done. cbn [file with_file]. rewrite F2, Esec. done. }
  destruct (file_dirty s) eqn:Ed.
  - wp_steps. eapply wp_mono; [apply write_file_spec; rewrite ?E3; [done|apply load_apart, cur_in_file, Hf|done|done]| |done].
    intros _ s2 (d & -> & Hs2 & V2). unfold modify_file. wp_steps. rewrite E3 in V2.
    apply (Hread _ (clear_flag FAT_FILE_DIRTY (f_flags (file s)))).
    + by destruct Hs2; constructor.
    + done.
    + done.
    + cbn [file with_file with_disk]. by rewrite E2.
    + intros u Hu. change (view (with_disk d s1) u = if decide (u = f_sect (file s)) then f_buf (file s) else view s u). rewrite V2.
      case_decide; [done|]. by apply V1.
    + intros n Hn. change FAT_FILE_DIRTY with (2 ^ 7). rewrite testbit_clear_flag by lia. rewrite (proj2 (Z.eqb_neq 7 n)) by lia. by rewrite andb_true_r.
    + by apply clear_flag_range.
  - wp_steps. apply (Hread s1 (f_flags (file s))); try done.
    + rewrite <- E2. by destruct (file s1).
    + intros u Hu. case_decide as E; [|by apply V1]. rewrite (Hcl eq_refl), V1 by done. by rewrite E.
Qed.
End Load.
(** Where a seek goes. *)
Definition seek_base (f : File) (seek : fat_seek) : Z :=
  match seek with FAT_SEEK_START => 0 | FAT_SEEK_CURR => f_offset f | FAT_SEEK_END => f_size f end.

(** The index of a cluster of the file. *)
Lemma clust_of_range s l p : file_inv s l -> 0 <= p < nsect (fat s) l * 512 -> 0 <= p / (512 * spc (fat s)) < Z.of_nat (length l).
Proof.
  intros Hf Hp. pose proof (spc_range _ (fi_data _ _ Hf)). split; [apply Z.div_pos; lia|]. apply Z.div_lt_upper_bound; [lia|]. unfold nsect in Hp. nia.
Qed.

(** From cluster [j] of the file along the chain to the cluster of [off], and the sector there. *)
Lemma seek_walk fuel s l off s1 j :
  let dst := off / (512 * spc (fat s)) in
  file_inv s l -> 0 <= off < nsect (fat s) l * 512 -> looked s s1 -> f_sclust (file s1) = f_sclust (file s) ->
  (exists a b, file s1 = file_to (l !!! Z.to_nat j) a b (file s)) -> 0 <= j <= dst ->
  wp (seek_chain undef_u8 undef_u32 (Z.to_nat (u32 (dst - j))) fuel) s1 (fun _ s2 =>
    wp (v <- get fat ;;
        modify_file (fun f => file_to (f_clust f) (u32 (clust_to_sect v (f_clust f) + Z.land (off / 512) (clust_msk v))) off f) ;;
        load_sector (f_sect (file s)))%fat s2 (fun _ s' => moved s s' l off) (io_failure D)) (io_failure D).
Proof.
  intros dst Hf Ho Hl1 Hsc (a & b & Hf1) Hj. pose proof (file_range _ _ Hf) as Hrg. pose proof (clust_of_range _ _ _ Hf Ho) as Hdst. fold dst in Hdst.
  pose proof (spc_range _ (fi_data _ _ Hf)) as Hspc. pose proof (fi_size _ _ Hf) as Hsz.
  pose proof Hl1 as (Hs1 & V1 & C1 & _). pose proof (core_geom _ _ C1) as Hg.
  pose proof (geom_inv _ _ Hg) as (_ & Ec & _). assert (nsect (fat s) l <= 2 ^ 32) as Hns by lia.
  assert (Z.of_nat (length l) <= nsect (fat s) l) as Hln by (unfold nsect; nia). rewrite u32_small by lia.
  eapply wp_mono; [apply (seek_chain_spec fuel l _ s1 (Z.to_nat j))| |done].
  - done.
  - eapply vol_ok_geom; [done|apply Hf].
  - rewrite Hsc, Ec. eapply chain_ext; [apply Hf|]. intros x Hx. apply looked_entry; [done|apply Hf|]. specialize (Hrg x Hx). lia.
  - rewrite Hf1. apply list_lookup_lookup_total_lt. lia.
  - lia.
  - intros _ s2 [Hl2 Hf2]. unfold modify_file. wp_steps. pose proof (looked_trans _ _ _ Hl1 Hl2) as Hl12.
    pose proof Hl12 as (_ & _ & C2 & _). pose proof (core_geom _ _ C2) as Hg2.
    replace (Z.to_nat j + Z.to_nat (dst - j))%nat with (Z.to_nat dst) in Hf2 by lia.
    destruct (lookup_lt_is_Some_2 l (Z.to_nat dst)) as [c Hc]; [lia|]. rewrite (list_lookup_total_correct _ _ _ Hc) in Hf2.
    destruct (seek_sector (fat s) l (fi_data _ _ Hf) Hrg off c Ho Hc) as [Et _].
    apply (load_sector_spec s _ l c (sect_of (fat s) l (off / 512)) off Hf); try done.
    + by apply looked_file.
    + cbn [file with_file]. rewrite Hf2, Hf1. unfold file_to at 1 3. cbn [f_clust f_open f_dir_sect f_sclust f_size f_dir_idx f_attr f_flags f_buf file_to].
      f_equal. rewrite <- Et. pose proof (geom_inv _ _ Hg2) as (Em & _ & _ & _ & _ & Ed & _ & Es & _). unfold clust_to_sect. by rewrite Em, Ed, Es.
Qed.

(** A seek within the clusters of the file moves it there. *)
Lemma fat_file_seek_spec fuel s l offset seek :
  let off := seek_base (file s) seek + offset in
  file_inv s l -> 0 <= off < nsect (fat s) l * 512 ->
  wp (fat_file_seek undef_u8 undef_u32 fuel offset seek) s (fun _ s' => moved s s' l off) (io_failure D).
Proof.
  intros off Hf Ho. pose proof Hf as [Hs Hv Hd Hch Hop Hsz Hcur Hcl _ _ _ _ _ _]. pose proof (spc_range _ Hd) as Hspc.
  assert (u32 (Z.shiftl 512 (clust_shift (fat s))) = 512 * spc (fat s)) as Ecs.
  { rewrite Z.shiftl_mul_pow2 by apply Hd. fold (spc (fat s)). apply u32_small. lia. }
  pose proof (clust_of_range _ _ _ Hf Ho) as Hdst. pose proof (clust_of_range _ _ _ Hf Hcur) as Hsrc.
  unfold fat_file_seek. wp_steps. rewrite Hop. cbn [negb]. cbv zeta. fold (seek_base (file s) seek). fold off.
  replace ((off <? 0) || (0xffffffff <? off)) with false.
  2:{ symmetry. apply orb_false_iff. rewrite Z.ltb_ge, Z.ltb_ge. lia. }
  wp_steps. rewrite Ecs, (u32_small off) by lia.
  set (src := f_offset (file s) / (512 * spc (fat s))) in *.
  destruct (Z.ltb_spec (off / (512 * spc (fat s))) src) as [Hlt|Hge].
  - unfold modify_file. wp_steps. apply (seek_walk fuel s l off _ 0); [done|done|by apply looked_file, looked_refl|done| |lia].
    exists (clust_to_sect (fat s) (f_sclust (file s))), 0. cbn [file with_file]. f_equal.
    assert (l !! 0%nat = Some (f_sclust (file s))) as Hhd by (by inversion Hch). by rewrite (list_lookup_total_correct _ _ _ Hhd).
  - wp_steps. apply (seek_walk fuel s l off _ src); [done|done|by apply looked_refl|done| |lia].
    exists (f_sect (file s)), (f_offset (file s)). rewrite (list_lookup_total_correct _ _ _ Hcl). by destruct (file s).
Qed.
(** ** Reading *)

Lemma framed_refl s l : framed s s l.
Proof. done. Qed.
Lemma framed_trans s1 s2 s3 l : framed s1 s2 l -> framed s2 s3 l -> framed s1 s3 l.
Proof.
  intros [C1 I1 V1] [C2 I2 V2]. destruct (geom_data _ _ (core_geom _ _ C1)) as (_ & _ & _ & _ & Eif). constructor; [congruence..|].
  intros t Ht Hn. rewrite V2, V1; [done..|]. by rewrite Eif.
Qed.

Lemma moved_refl s l : file_inv s l -> moved s s l (f_offset (file s)).
Proof. intros Hf. by constructor. Qed.
Lemma moved_trans s1 s2 s3 l o1 o2 : moved s1 s2 l o1 -> moved s2 s3 l o2 -> moved s1 s3 l o2.
Proof.
  intros [I1 F1 O1 S1 B1 Y1] [I2 F2 O2 S2 B2 Y2]. destruct (geom_data _ _ (core_geom _ _ (fr_core _ _ _ F1))) as (_ & _ & _ & En & _).
  constructor; [done|by eapply framed_trans|done|congruence|..].
  - intros n Hn. by rewrite B2, B1.
  - intros p Hp. rewrite Y2, Y1; [done..|]. by rewrite En.
Qed.

(** The buffer holds the bytes of the sector at the offset. *)
Lemma fbyte_cur s l k :
  file_inv s l -> 0 <= k -> f_offset (file s) mod 512 + k < 512 ->
  fbyte s l (f_offset (file s) + k) = f_buf (file s) !!! Z.to_nat (f_offset (file s) mod 512 + k).
Proof.
  intros Hf Hk Hlt. pose proof (Z.mod_pos_bound (f_offset (file s)) 512 ltac:(lia)) as Hm. unfold fbyte, fsector.
  replace ((f_offset (file s) + k) / 512) with (f_offset (file s) / 512) by (Z.div_mod_to_equations; lia).
  replace ((f_offset (file s) + k) mod 512) with (f_offset (file s) mod 512 + k) by (Z.div_mod_to_equations; lia).
  rewrite decide_True; [done|]. symmetry. apply Hf.
Qed.

Lemma slice_cur s l n :
  file_inv s l -> 0 <= n -> f_offset (file s) mod 512 + n <= 512 ->
  slice (Z.to_nat (f_offset (file s) mod 512)) (Z.to_nat n) (f_buf (file s)) = fbyte s l <$> seqZ (f_offset (file s)) n.
Proof.
  intros Hf Hn Hle. pose proof (Z.mod_pos_bound (f_offset (file s)) 512 ltac:(lia)) as Hm. pose proof (fi_length _ _ Hf) as Hl.
  apply list_eq. intros i. destruct (decide (i < Z.to_nat n)%nat) as [Hi|Hi].
  - rewrite lookup_slice by done. rewrite list_lookup_fmap, lookup_seqZ_lt by lia. cbn [fmap option_fmap option_map].
    rewrite (fbyte_cur s l) by (done || lia). rewrite list_lookup_lookup_total_lt by lia. do 2 f_equal. lia.
  - rewrite !lookup_ge_None_2; [done|rewrite length_fmap, length_seqZ; lia|]. rewrite length_slice; lia.
Qed.

Lemma read_loop_spec fuel l n : forall s len got,
  file_inv s l -> f_size (file s) < nsect (fat s) l * 512 -> 0 <= len -> (Z.to_nat len < n)%nat ->
  let m := Z.max 0 (Z.min len (f_size (file s) - f_offset (file s))) in
  wp (fat_file_read_loop undef_u8 undef_u32 n fuel len got) s (fun r s' =>
    r = got ++ (fbyte s l <$> seqZ (f_offset (file s)) m) /\ moved s s' l (f_offset (file s) + m)) (io_failure D).
Proof.
  induction n as [|n IH]; intros s len got Hf Hsz Hlen Hn m; [lia|]. cbn [fat_file_read_loop]. wp_steps.
  set (off := f_offset (file s)) in *. pose proof (Z.mod_pos_bound off 512 ltac:(lia)) as Hmod. pose proof (fi_off _ _ Hf) as Ho. fold off in Ho.
  destruct ((len =? 0) || (f_size (file s) <=? off)) eqn:Eend.
  { wp_steps. assert (m = 0) as -> by (apply orb_true_iff in Eend; rewrite Z.eqb_eq, Z.leb_le in Eend; lia).
    rewrite app_nil_r, Z.add_0_r. split; [done|]. by apply moved_refl. }
  apply orb_false_iff in Eend. rewrite Z.eqb_neq, Z.leb_gt in Eend. cbv zeta.
  set (cnt := LIMIT len _). assert (cnt = Z.min len (Z.min (512 - off mod 512) (f_size (file s) - off))) as Ecnt.
  { unfold cnt, LIMIT. repeat case_match; breflect; lia. }
  wp_steps. eapply wp_mono; [apply (fat_file_seek_spec fuel s l cnt FAT_SEEK_CURR Hf)| |done].
  { unfold seek_base. fold off. lia. }
  intros [] s1 M1. cbn [seek_base] in M1. fold off in M1. pose proof M1 as [I1 F1 O1 S1 B1 Y1].
  destruct (geom_data _ _ (core_geom _ _ (fr_core _ _ _ F1))) as (_ & _ & _ & En & _).
  eapply wp_mono; [apply (IH s1 (len - cnt)); [done|by rewrite S1, En|lia|lia]| |done]. intros r s' [-> M2]. rewrite O1, S1 in M2. rewrite O1, S1.
  assert (cnt + Z.max 0 (Z.min (len - cnt) (f_size (file s) - (off + cnt))) = m) as Em by lia. split.
  - pose proof (slice_cur s l cnt Hf) as Hsl. fold off in Hsl. rewrite Hsl by lia. rewrite <- app_assoc. f_equal. rewrite <- Em, seqZ_app, fmap_app by lia. f_equal.
    apply list_fmap_ext. intros i x (-> & Hx)%lookup_seqZ. apply Y1. lia.
  - replace (off + m) with (off + cnt + Z.max 0 (Z.min (len - cnt) (f_size (file s) - (off + cnt)))) by lia. by eapply moved_trans.
Qed.
(** ** Changes of the buffer and of the flags *)

(** The file with other flags and another buffer; a changed buffer is marked. *)
Lemma touch_inv s l fl b sz :
  file_inv s l -> 0 <= fl < 256 -> length b = 512%nat -> bytes b ->
  (has fl FAT_FILE_DIRTY = false -> file_dirty s = false /\ b = f_buf (file s)) ->
  let s' := with_file (fun f => with_f_flags fl (with_f_buf b (with_f_size sz f))) s in
  file_inv s' l /\ framed s s' l.
Proof.
  intros [H1 H2 H3 H4 H5 H6 H7 H8 H9 H10 H11 H12 H13 H14] Hfl Hb Hbb Hd s'. split; [|done].
  constructor; try done.
  - by destruct H1; constructor.
  - intros Hdf. destruct (Hd Hdf) as [Hc ->]. by apply H13.
Qed.

(** ** Writing *)

(** From [s] to [s'] the bytes [src] were written at [off]; the size is [sz] then. *)
Record written s s' l (off : Z) (src : list Z) (sz : Z) : Prop := {
  wr_inv : file_inv s' l;
  wr_frame : framed s s' l;
  wr_off : f_offset (file s') = off + Z.of_nat (length src);
  wr_size : f_size (file s') = sz;
  wr_flags : forall n, 0 <= n < 5 -> Z.testbit (f_flags (file s')) n = Z.testbit (f_flags (file s)) n;
  wr_bytes : forall p, 0 <= p < nsect (fat s) l * 512 -> fbyte s' l p =
    if decide (off <= p < off + Z.of_nat (length src)) then src !!! Z.to_nat (p - off) else fbyte s l p;
}.

(** The bytes in the buffer. *)
Lemma splice_written s l bs :
  let off := f_offset (file s) in
  file_inv s l -> bytes bs -> off mod 512 + Z.of_nat (length bs) <= 512 -> bs ≠ [] ->
  let s' := with_file (fun f => with_f_flags (set_flag FAT_FILE_DIRTY (f_flags f)) (with_f_buf (splice (Z.to_nat (off mod 512)) bs (f_buf f)) f)) s in
  file_inv s' l /\ framed s s' l /\ (forall n, 0 <= n < 5 -> Z.testbit (f_flags (file s')) n = Z.testbit (f_flags (file s)) n) /\
  forall p, 0 <= p < nsect (fat s) l * 512 -> fbyte s' l p =
    if decide (off <= p < off + Z.of_nat (length bs)) then bs !!! Z.to_nat (p - off) else fbyte s l p.
Proof.
  intros off Hf Hbs Hle Hne s'. pose proof (Z.mod_pos_bound off 512 ltac:(lia)) as Hm. pose proof (fi_length _ _ Hf) as Hl.
  destruct (touch_inv s l (set_flag FAT_FILE_DIRTY (f_flags (file s))) (splice (Z.to_nat (off mod 512)) bs (f_buf (file s))) (f_size (file s)) Hf)
    as [Hi Hfr].
  { apply set_flag_range; [apply Hf|]. unfold FAT_FILE_DIRTY. lia. }
  { by rewrite length_splice. }
  { apply bytes_splice; [done|apply Hf]. }
  { change FAT_FILE_DIRTY with (2 ^ 7). rewrite has_testbit, testbit_set_flag by lia. by rewrite orb_true_r. }
  split_and!; [exact Hi|exact Hfr| |].
  - intros n Hn. change (f_flags (file s')) with (set_flag FAT_FILE_DIRTY (f_flags (file s))). change FAT_FILE_DIRTY with (2 ^ 7).
    rewrite testbit_set_flag by lia. rewrite (proj2 (Z.eqb_neq 7 n)) by lia. apply orb_false_r.
  - intros p Hp. assert (0 <= p / 512 < nsect (fat s) l) as Hpi by (Z.div_mod_to_equations; lia).
    assert (0 <= off / 512 < nsect (fat s) l) as Hoi by (pose proof (fi_off _ _ Hf); unfold off; Z.div_mod_to_equations; lia).
    unfold fbyte, fsector. change (f_sect (file s')) with (f_sect (file s)). change (fat s') with (fat s).
    change (f_buf (file s')) with (splice (Z.to_nat (off mod 512)) bs (f_buf (file s))). change (view s') with (view s).
    rewrite (fi_sect _ _ Hf). fold off. destruct (decide (p / 512 = off / 512)) as [E|E].
    + rewrite !(decide_True (P := sect_of (fat s) l (p / 512) = _)) by (by rewrite E).
      unfold splice. rewrite list_lookup_total_alt. case_decide as Hin.
      * rewrite list_lookup_inserts by (rewrite ?Hl; Z.div_mod_to_equations; lia). rewrite list_lookup_total_alt. do 2 f_equal. Z.div_mod_to_equations; lia.
      * rewrite list_lookup_total_alt. f_equal. destruct (decide (p < off)).
        -- apply list_lookup_inserts_lt. Z.div_mod_to_equations; lia.
        -- apply list_lookup_inserts_ge. Z.div_mod_to_equations; lia.
    + assert (sect_of (fat s) l (p / 512) ≠ sect_of (fat s) l (off / 512)) as Hns.
      { intros E'. apply E. eapply sect_of_inj; [apply Hf|by apply file_range| |done|done|done].
        eapply chain_NoDup; [apply (vo_cnt _ (fi_vol _ _ Hf))|apply Hf]. }
      rewrite !decide_False; try done. Z.div_mod_to_equations. lia.
Qed.

Lemma written_nil s l : file_inv s l -> written s s l (f_offset (file s)) [] (f_size (file s)).
Proof. intros Hf. constructor; try done; [simpl; lia|]. intros p _. rewrite decide_False; [done|]. simpl. lia. Qed.

(** One write behind another. *)
Lemma written_app s1 s2 s3 l off a b sz sz' :
  0 <= off -> off + Z.of_nat (length a) <= nsect (fat s1) l * 512 ->
  written s1 s2 l off a sz -> written s2 s3 l (off + Z.of_nat (length a)) b sz' -> written s1 s3 l off (a ++ b) sz'.
Proof.
  intros Ho Hle [I1 F1 O1 S1 B1 Y1] [I2 F2 O2 S2 B2 Y2]. destruct (geom_data _ _ (core_geom _ _ (fr_core _ _ _ F1))) as (_ & _ & _ & En & _).
  constructor; [done|by eapply framed_trans|rewrite O2, length_app; lia|done|..].
  - intros n Hn. by rewrite B2, B1.
  - intros p Hp. rewrite Y2 by (by rewrite En). rewrite Y1 by done. rewrite length_app, Nat2Z.inj_add.
    destruct (decide (off <= p < off + Z.of_nat (length a))) as [Ha|Ha].
    + rewrite decide_False, decide_True by lia. rewrite lookup_total_app_l by lia. done.
    + destruct (decide (off + Z.of_nat (length a) <= p < off + Z.of_nat (length a) + Z.of_nat (length b))) as [Hb|Hb].
      * rewrite decide_True by lia. rewrite lookup_total_app_r by lia. f_equal. lia.
      * by rewrite decide_False by lia.
Qed.

(** A round of the loop of [fat_file_write]: what goes into the buffer, and the seek behind it. *)
Lemma write_round s l fuel bs cnt (R : unit + Z -> St D -> Prop) E :
  let off := f_offset (file s) in
  cnt = Z.of_nat (length bs) -> reliable D -> file_inv s l -> bytes bs -> bs ≠ [] -> off mod 512 + cnt <= 512 -> off + cnt < nsect (fat s) l * 512 ->
  (forall s', written s s' l off bs (f_size (file s)) -> R (inl tt) s') ->
  wp (modify_file (fun f => with_f_flags (set_flag FAT_FILE_DIRTY (f_flags f)) (with_f_buf (splice (Z.to_nat (off mod 512)) bs (f_buf f)) f))) s
    (fun _ s1 => wp (attempt (fat_file_seek undef_u8 undef_u32 fuel cnt FAT_SEEK_CURR)) s1 R E) E.
Proof.
  intros off -> Hrel Hf Hbs Hne Hle Hlt HR. destruct (splice_written s l bs Hf Hbs Hle Hne) as (I1 & F1 & B1 & Y1).
  unfold modify_file. wp_steps. set (s1 := with_file _ s) in *. pose proof (fi_off _ _ Hf) as Ho. fold off in Ho.
  eapply wp_attempt; [apply (fat_file_seek_spec fuel s1 l _ FAT_SEEK_CURR I1)| |].
  - change (0 <= off + Z.of_nat (length bs) < nsect (fat s) l * 512). lia.
  - intros [] s' [I2 F2 O2 S2 B2 Y2]. change (seek_base (file s1) FAT_SEEK_CURR) with off in O2. apply HR.
    constructor; [done|by eapply framed_trans|done|done|..].
    + intros n Hn. by rewrite B2, B1.
    + intros p Hp. by rewrite Y2, Y1.
  - intros e s' [_ []]. done.
Qed.

Lemma write_loop_spec fuel l n : forall s src got,
  reliable D -> file_inv s l -> bytes src -> (length src < n)%nat -> f_offset (file s) + Z.of_nat (length src) < nsect (fat s) l * 512 ->
  wp (fat_file_write_loop undef_u8 undef_u32 n fuel src got) s
    (fun r s' => r = got + Z.of_nat (length src) /\ written s s' l (f_offset (file s)) src (f_size (file s))) (fun _ => False).
Proof.
  induction n as [|n IH]; intros s src got Hrel Hf Hb Hn Hlt; [lia|]. cbn [fat_file_write_loop].
  destruct src as [|x src']; [wp_steps; split; [simpl; lia|by apply written_nil]|]. set (src := x :: src') in *.
  assert (0 < Z.of_nat (length src)) as Hpos by (simpl; lia). wp_steps.
  set (off := f_offset (file s)) in *. pose proof (Z.mod_pos_bound off 512 ltac:(lia)) as Hmod. pose proof (fi_off _ _ Hf) as Ho. fold off in Ho.
  cbv zeta. set (cnt := LIMIT _ _). assert (cnt = Z.min (Z.of_nat (length src)) (512 - off mod 512)) as Ecnt.
  { unfold cnt, LIMIT. repeat case_match; breflect; lia. }
  clearbody cnt. assert (Z.of_nat (length (take (Z.to_nat cnt) src)) = cnt) as Elen by (rewrite length_take; lia).
  rewrite <- (take_drop (Z.to_nat cnt) src) in Hb. apply Forall_app in Hb as [Hb1 Hb2].
  assert (take (Z.to_nat cnt) src ≠ []) as Hne by (intros E; rewrite E in Elen; simpl in Elen; lia).
  eapply wp_mono; [|intros a s1 H1; apply wp_bind; exact H1|intros e He; exact He].
  apply (write_round s l fuel _ cnt _ _ (eq_sym Elen) Hrel Hf Hb1 Hne); fold off; [lia|lia|].
  intros s1 W1. pose proof W1 as [I1 F1 O1 S1 B1 Y1]. destruct (geom_data _ _ (core_geom _ _ (fr_core _ _ _ F1))) as (_ & _ & _ & En & _).
  rewrite Elen in O1. eapply wp_mono; [apply IH; [done|done|done|rewrite length_drop; lia|rewrite O1, En, length_drop; lia]| |done].
  intros r s' [-> W2]. split; [rewrite length_drop; lia|]. rewrite <- (take_drop (Z.to_nat cnt) src).
  eapply (written_app s s1 s'); [lia|rewrite Elen; lia|done|]. rewrite Elen, <- O1, <- S1. exact W2.
Qed.

(** Flags other than [FAT_FILE_DIRTY] are set. *)
Lemma mark_spec s l m :
  file_inv s l -> 0 <= m < 256 -> let s' := with_file (fun f => with_f_flags (set_flag m (f_flags f)) f) s in
  file_inv s' l /\ framed s s' l /\ (forall n, Z.testbit m n = false -> Z.testbit (f_flags (file s')) n = Z.testbit (f_flags (file s)) n).
Proof.
  intros Hf Hm s'. destruct (touch_inv s l (set_flag m (f_flags (file s))) (f_buf (file s)) (f_size (file s)) Hf) as [Hi Hfr].
  - apply set_flag_range; [apply Hf|done].
  - apply Hf.
  - apply Hf.
  - unfold file_dirty. change FAT_FILE_DIRTY with (2 ^ 7). rewrite !has_testbit by lia. unfold set_flag. rewrite Z.lor_spec, orb_false_iff. tauto.
  - split_and!; [exact Hi|exact Hfr|]. intros n Hn. change (f_flags (file s')) with (set_flag m (f_flags (file s))).
    unfold set_flag. by rewrite Z.lor_spec, Hn, orb_false_r.
Qed.

(** Only the size changes. *)
Lemma resize_inv s l sz :
  file_inv s l -> let s' := with_file (with_f_size sz) s in file_inv s' l /\ framed s s' l.
Proof.
  intros Hf. apply (touch_inv s l (f_flags (file s)) (f_buf (file s)) sz Hf); [apply Hf..|done].
Qed.

(** The flags that a file is opened with. *)
Lemma mode_bits m n : m = FAT_ACCESSED \/ m = Z.lor FAT_MODIFIED FAT_ACCESSED -> 0 <= n < 5 -> Z.testbit m n = false.
Proof. intros [-> | ->] Hn; by assert (n = 0 \/ n = 1 \/ n = 2 \/ n = 3 \/ n = 4) as [->|[->|[->|[->| ->]]]] by lia. Qed.

Lemma has_land x m : has x m = true -> (Z.land x m =? 0) = false.
Proof. unfold has, ctrue. by destruct (Z.land x m =? 0). Qed.

(** A write within the clusters of the file. *)
Lemma fat_file_write_spec fuel s l src :
  let off := f_offset (file s) in
  reliable D -> file_inv s l -> bytes src -> has (f_flags (file s)) FAT_WRITE = true -> off + Z.of_nat (length src) < nsect (fat s) l * 512 ->
  wp (fat_file_write undef_u8 undef_u32 fuel src) s (fun r s' =>
    r = Z.of_nat (length src) /\ written s s' l off src (Z.max (f_size (file s)) (off + Z.of_nat (length src)))) (fun _ => False).
Proof.
  intros off Hrel Hf Hb Hw Hlt. unfold fat_file_write. wp_steps. rewrite (fi_open _ _ Hf), (has_land _ _ Hw). cbn [negb].
  destruct (mark_spec s l (Z.lor FAT_MODIFIED FAT_ACCESSED) Hf) as (I1 & F1 & B1); [done|].
  unfold modify_file. wp_steps. set (s1 := with_file _ s) in *.
  eapply wp_mono; [apply (write_loop_spec fuel l _ s1 src 0 Hrel I1 Hb); [lia|exact Hlt]| |done].
  intros r s2 [-> [I2 F2 O2 S2 B2 Y2]]. wp_steps. split; [done|]. change (f_offset (file s1)) with off in *. change (f_size (file s1)) with (f_size (file s)) in *.
  set (s3 := with_file _ s2).
  assert (s3 = with_file (with_f_size (Z.max (f_size (file s)) (off + Z.of_nat (length src)))) s2) as E3.
  { unfold s3, with_file. f_equal. rewrite S2, O2. destruct (Z.ltb_spec (f_size (file s)) (off + Z.of_nat (length src))).
    - by rewrite Z.max_r by lia.
    - rewrite Z.max_l by lia. rewrite <- S2. by destruct (file s2). }
  rewrite E3. destruct (resize_inv s2 l (Z.max (f_size (file s)) (off + Z.of_nat (length src))) I2) as [I3 F3]. constructor; try done.
  - by eapply framed_trans, framed_trans.
  - intros n Hn. change (Z.testbit (f_flags (file s2)) n = Z.testbit (f_flags (file s)) n). rewrite B2, B1; [done|by apply mode_bits; auto|done].
Qed.

(** A read gives the bytes up to the end of the file. *)
Lemma fat_file_read_spec fuel s l len :
  let off := f_offset (file s) in
  let m := Z.max 0 (Z.min len (f_size (file s) - off)) in
  file_inv s l -> has (f_flags (file s)) FAT_READ = true -> f_size (file s) < nsect (fat s) l * 512 -> 0 <= len ->
  wp (fat_file_read undef_u8 undef_u32 fuel len) s (fun r s' =>
    r = fbyte s l <$> seqZ off m /\ moved s s' l (off + m)) (io_failure D).
Proof.
  intros off m Hf Hr Hsz Hlen. unfold fat_file_read. wp_steps. rewrite (fi_open _ _ Hf), (has_land _ _ Hr). cbn [negb].
  destruct (mark_spec s l FAT_ACCESSED Hf) as (I1 & F1 & B1); [done|].
  unfold modify_file. wp_steps. set (s1 := with_file _ s) in *.
  eapply wp_mono; [apply (read_loop_spec fuel l _ s1 len [] I1); [exact Hsz|done|lia]| |done].
  intros r s2 [-> [I2 F2 O2 S2 B2 Y2]]. split; [done|]. constructor; try done.
  - by eapply framed_trans.
  - intros n Hn. rewrite B2, B1; [done|by apply mode_bits; auto|done].
Qed.

Lemma written_mode s s' l off src sz m :
  written s s' l off src sz -> m = FAT_WRITE \/ m = FAT_READ -> has (f_flags (file s')) m = has (f_flags (file s)) m.
Proof.
  intros W [-> | ->]; [change FAT_WRITE with (2 ^ 0)|change FAT_READ with (2 ^ 1)]; rewrite !has_testbit by lia; apply W; lia.
Qed.
Lemma moved_mode s s' l off m :
  moved s s' l off -> m = FAT_WRITE \/ m = FAT_READ -> has (f_flags (file s')) m = has (f_flags (file s)) m.
Proof.
  intros W [-> | ->]; [change FAT_WRITE with (2 ^ 0)|change FAT_READ with (2 ^ 1)]; rewrite !has_testbit by lia; apply W; lia.
Qed.

(** The written bytes, read again. *)
Lemma written_bytes s s' l off src sz :
  written s s' l off src sz -> 0 <= off -> off + Z.of_nat (length src) <= nsect (fat s) l * 512 -> fbyte s' l <$> seqZ off (Z.of_nat (length src)) = src.
Proof.
  intros W Ho Hle. apply list_eq. intros i. rewrite list_lookup_fmap. destruct (decide (i < length src)%nat) as [Hi|Hi].
  - rewrite lookup_seqZ_lt by lia. cbn [fmap option_fmap option_map]. rewrite (wr_bytes _ _ _ _ _ _ W), decide_True by lia.
    replace (Z.to_nat (off + Z.of_nat i - off)) with i by lia. symmetry. by apply list_lookup_lookup_total_lt.
  - rewrite (lookup_ge_None_2 src) by lia. by rewrite lookup_seqZ_ge by lia.
Qed.

(** C7. A file that is open for reading and writing and stands at an offset within its clusters: [fat_file_write] of bytes that end before the
    last byte of these clusters writes all of them; after a seek back to the old offset [fat_file_read] returns exactly these bytes.  The size
    has grown to the end of the write if it was smaller, every other byte of the file is the same, and so is every sector outside of the file,
    the allocation table among them.  Offsets and lengths fit the [int]s of the code; no transfer of the disk fails. *)
Theorem file_roundtrip fuel s l src :
  let off := f_offset (file s) in
  let len := Z.of_nat (length src) in
  reliable D -> file_inv s l -> bytes src ->
  has (f_flags (file s)) FAT_WRITE = true -> has (f_flags (file s)) FAT_READ = true ->
  f_size (file s) < nsect (fat s) l * 512 -> off + len < nsect (fat s) l * 512 -> off + len < 2 ^ 31 ->
  exists s1 s2 s3,
    fat_file_write undef_u8 undef_u32 fuel src s = (Ok len, s1) /\
    fat_file_seek undef_u8 undef_u32 fuel off FAT_SEEK_START s1 = (Ok tt, s2) /\
    fat_file_read undef_u8 undef_u32 fuel len s2 = (Ok src, s3) /\
    file_inv s3 l /\ framed s s3 l /\ f_offset (file s3) = off + len /\ f_size (file s3) = Z.max (f_size (file s)) (off + len) /\
    forall p, 0 <= p < nsect (fat s) l * 512 -> ~ off <= p < off + len -> fbyte s3 l p = fbyte s l p.
Proof.
  intros off len Hrel Hf Hb Hw Hr Hsz Hlt _. pose proof (fi_off _ _ Hf) as Ho. fold off in Ho. assert (forall e, ~ io_failure D e) as Hio by (by intros e [_ []]).
  destruct (wp_Ok _ _ _ _ (fat_file_write_spec fuel s l src Hrel Hf Hb Hw Hlt)) as (r & s1 & E1 & -> & W); [tauto|]. fold off in W. fold len in W, E1.
  destruct (geom_data _ _ (core_geom _ _ (fr_core _ _ _ (wr_frame _ _ _ _ _ _ W)))) as (_ & _ & _ & En & _).
  destruct (wp_Ok _ _ _ _ (fat_file_seek_spec fuel s1 l off FAT_SEEK_START (wr_inv _ _ _ _ _ _ W) ltac:(cbn [seek_base]; rewrite En; lia))) as ([] & s2 & E2 & M2); [done|].
  destruct (geom_data _ _ (core_geom _ _ (fr_core _ _ _ (mv_frame _ _ _ _ M2)))) as (_ & _ & _ & En2 & _).
  assert (f_size (file s2) = Z.max (f_size (file s)) (off + len)) as Es by (by rewrite (mv_size _ _ _ _ M2), (wr_size _ _ _ _ _ _ W)).
  cbn [seek_base] in M2.
  destruct (wp_Ok _ _ _ _ (fat_file_read_spec fuel s2 l len (mv_inv _ _ _ _ M2) ltac:(rewrite (moved_mode _ _ _ _ _ M2), (written_mode _ _ _ _ _ _ _ W); auto)
    ltac:(rewrite Es, En2, En; lia) ltac:(lia))) as (r & s3 & E3 & -> & M3); [done|].
  rewrite (mv_off _ _ _ _ M2), Es in *. rewrite Z.max_r, Z.min_l in E3, M3 by lia. rewrite Z.add_0_l in *.
  exists s1, s2, s3. split_and!; [done|done| |..].
  - rewrite E3. do 2 f_equal. transitivity (fbyte s1 l <$> seqZ off len); [|apply (written_bytes _ _ _ _ _ _ W); lia].
    apply list_fmap_ext. intros i x (-> & Hi)%lookup_seqZ. apply M2. rewrite En. lia.
  - apply M3.
  - eapply framed_trans; [apply W|]. eapply framed_trans; [apply M2|apply M3].
  - apply M3.
  - by rewrite (mv_size _ _ _ _ M3).
  - intros p Hp Hn. rewrite (mv_bytes _ _ _ _ M3), (mv_bytes _ _ _ _ M2), (wr_bytes _ _ _ _ _ _ W) by (rewrite ?En2, ?En; lia). by rewrite decide_False.
Qed.

(** ** Syncing *)

(** The directory entry as [fat_file_sync] writes it. *)
Definition sync_entry (f : File) (b : list Z) : list Z :=
  let p := Z.to_nat (f_dir_idx f) in
  let b := if has (f_flags f) FAT_ACCESSED then put_le 2 b (p + SFN_ACC_DATE) encode_timestamp.1 else b in
  put_le 2 (put_le 2 (put_le 4 (put_u8 b (p + SFN_ATTR) (Z.lor (sfn_attr b p) FAT_ATTR_ARCHIVE)) (p + SFN_SIZE) (f_size f))
    (p + SFN_MOD_DATE) encode_timestamp.1) (p + SFN_MOD_TIME) encode_timestamp.2.

Lemma sync_entry_ok f b : length b = 512%nat -> bytes b -> length (sync_entry f b) = 512%nat /\ bytes (sync_entry f b).
Proof.
  intros Hl Hb. unfold sync_entry. split.
  - rewrite !length_put_le. unfold put_u8. rewrite length_insert. by case_match; rewrite ?length_put_le.
  - repeat apply bytes_put_le. apply bytes_put_u8. by case_match; [apply bytes_put_le|].
Qed.

Lemma lookup_put_le_ne n b off v k : (k < off \/ off + n <= k)%nat -> put_le n b off v !! k = b !! k.
Proof.
  intros Hk. unfold put_le, splice. pose proof (length_le_bytes n v).
  destruct Hk; [apply list_lookup_inserts_lt|apply list_lookup_inserts_ge]; lia.
Qed.

(** The sector [b'] of a directory is [b] with the entry of the file [f] brought up to date: its size, the archive attribute, the
    date and the time of the modification and, if the file was read, the date of the access.  Every other byte of the sector, of this
    entry and of its neighbours, is the same. *)
Record entry_synced (f : File) (b b' : list Z) : Prop := {
  es_size : get_le 4 b' (Z.to_nat (f_dir_idx f) + 28) = f_size f;
  es_attr : get_u8 b' (Z.to_nat (f_dir_idx f) + 11) = Z.lor (get_u8 b (Z.to_nat (f_dir_idx f) + 11)) 0x20;
  es_time : get_le 2 b' (Z.to_nat (f_dir_idx f) + 22) = encode_timestamp.2;
  es_date : get_le 2 b' (Z.to_nat (f_dir_idx f) + 24) = encode_timestamp.1;
  es_access : has (f_flags f) FAT_ACCESSED = true -> get_le 2 b' (Z.to_nat (f_dir_idx f) + 18) = encode_timestamp.1;
  es_rest : forall k, let j := Z.of_nat k - f_dir_idx f in
    j <> 11 -> ~ (18 <= j < 20 /\ has (f_flags f) FAT_ACCESSED = true) -> ~ (22 <= j < 26) -> ~ (28 <= j < 32) -> b' !! k = b !! k;
}.

Lemma get_le_put_u8_ne n b off off' v : (off' < off \/ off + n <= off')%nat -> get_le n (put_u8 b off' v) off = get_le n b off.
Proof.
  intros H. unfold get_le, put_u8. f_equal. apply list_eq. intros i. destruct (decide (i < n)%nat) as [Hi|Hi].
  - rewrite !lookup_slice by done. apply list_lookup_insert_ne. lia.
  - unfold slice. rewrite !lookup_take_ge by lia. done.
Qed.
Lemma get_u8_put_le_ne n b off off' v : (off < off' \/ off' + n <= off)%nat -> get_u8 (put_le n b off' v) off = get_u8 b off.
Proof. intros H. unfold get_u8. by rewrite lookup_put_le_ne by lia. Qed.

Lemma lor_byte x y : 0 <= x < 2 ^ 8 -> 0 < y < 2 ^ 8 -> 0 <= Z.lor x y < 2 ^ 8.
Proof.
  intros Hx Hy. assert (0 <= Z.lor x y) by (apply Z.lor_nonneg; lia). split; [done|].
  assert (Z.lor x y <> 0) by (intros [_ ?]%Z.lor_eq_0_iff; lia). apply Z.log2_lt_pow2; [lia|].
  rewrite Z.log2_lor by lia. apply Z.max_lub_lt; [|apply Z.log2_lt_pow2; lia].
  destruct (decide (x = 0)) as [->|]; [done|]. apply Z.log2_lt_pow2; lia.
Qed.
Lemma timestamp_range : 0 <= encode_timestamp.1 < 2 ^ 16 /\ 0 <= encode_timestamp.2 < 2 ^ 16.
Proof. split; apply Z.mod_pos_bound; lia. Qed.

Lemma sync_entry_synced f b :
  length b = 512%nat -> bytes b -> 0 <= f_dir_idx f <= 480 -> 0 <= f_size f < 2 ^ 32 -> entry_synced f b (sync_entry f b).
Proof.
  intros Hl Hb Hi Hs. destruct timestamp_range as [Hd Ht]. set (p := Z.to_nat (f_dir_idx f)).
  assert (length (put_u8 (if has (f_flags f) FAT_ACCESSED then put_le 2 b (p + SFN_ACC_DATE) encode_timestamp.1 else b) (p + SFN_ATTR)
    (Z.lor (sfn_attr (if has (f_flags f) FAT_ACCESSED then put_le 2 b (p + SFN_ACC_DATE) encode_timestamp.1 else b) p) FAT_ATTR_ARCHIVE)) = 512%nat) as Hl'.
  { unfold put_u8. rewrite length_insert. by case_match; rewrite ?length_put_le. }
  constructor; fold p; unfold sync_entry; cbv zeta; fold p; unfold SFN_SIZE, SFN_MOD_TIME, SFN_MOD_DATE, SFN_ATTR, SFN_ACC_DATE in *.
  - rewrite !get_put_le_ne by lia. rewrite get_put_le by lia. by apply Z.mod_small.
  - rewrite !get_u8_put_le_ne by lia. unfold put_u8 in *. rewrite length_insert in Hl'. unfold get_u8 at 1. rewrite list_lookup_insert_eq by lia.
    cbn [default]. unfold sfn_attr, SFN_ATTR. assert (get_u8 (if has (f_flags f) FAT_ACCESSED then put_le 2 b (p + 18) encode_timestamp.1 else b) (p + 11) =
      get_u8 b (p + 11)) as -> by (case_match; [apply get_u8_put_le_ne; lia|done]).
    assert (0 <= get_u8 b (p + 11) < 2 ^ 8) as Hr.
    { unfold get_u8. destruct (b !! (p + 11)%nat) eqn:E; cbn; [|lia]. exact (proj1 (Forall_lookup _ _) Hb _ _ E). }
    apply Z.mod_small, lor_byte; lia.
  - rewrite get_put_le by (rewrite !length_put_le; lia). by apply Z.mod_small.
  - rewrite get_put_le_ne, get_put_le by (rewrite ?length_put_le; lia). by apply Z.mod_small.
  - intros Ha. rewrite !get_put_le_ne, get_le_put_u8_ne, Ha by lia. rewrite get_put_le by lia. by apply Z.mod_small.
  - intros k H1 H2 H3 H4. rewrite !lookup_put_le_ne by lia. unfold put_u8. rewrite list_lookup_insert_ne by lia.
    case_match; [|done]. apply lookup_put_le_ne. lia.
Qed.

Lemma has_lor x a b : has x b = true -> has x (Z.lor a b) = true.
Proof.
  unfold has, ctrue. rewrite !negb_true_iff, !Z.eqb_neq, Z.land_lor_distr_r, Z.lor_eq_0_iff. tauto.
Qed.

Lemma entry_updates s f E :
  wp (let p := Z.to_nat (f_dir_idx f) in
      or_flags FAT_BUF_DIRTY ;;
      let '(date, time) := encode_timestamp in
      (if has (f_flags f) FAT_ACCESSED then modify_buf (fun b => put_le 2 b (p + SFN_ACC_DATE) date) else ret tt) ;;
      modify_buf (fun b => put_u8 b (p + SFN_ATTR) (Z.lor (sfn_attr b p) FAT_ATTR_ARCHIVE)) ;;
      modify_buf (fun b => put_le 4 b (p + SFN_SIZE) (f_size f)) ;;
      modify_buf (fun b => put_le 2 b (p + SFN_MOD_DATE) date) ;;
      modify_buf (fun b => put_le 2 b (p + SFN_MOD_TIME) time))%fat s (fun _ s' => s' = dirtied (sync_entry f) s) E.
Proof.
  cbv zeta. rewrite (surjective_pairing encode_timestamp). unfold or_flags, modify_buf, modify_fat. wp_steps.
  unfold sync_entry. destruct (has (f_flags f) FAT_ACCESSED); wp_steps; done.
Qed.

(** C24. [fat_file_sync] of a modified file whose directory entry lies in a sector outside of it, on a disk that does not fail.  Afterwards the disk
    itself holds every sector of the file as the file shows it.  In the sector of the directory entry exactly the size, the archive attribute, the
    modification time and, after a read, the access date of this entry are new, and all other bytes as they were shown.  The information sector has the hint and
    the count of free clusters if they had changed, and is otherwise as it was.  Every other sector is written as it was shown, and the file counts as unmodified. *)
Theorem file_sync_durable s l :
  let d := f_dir_sect (file s) in
  reliable D -> file_inv s l -> has (f_flags (file s)) FAT_MODIFIED = true ->
  0 <= f_dir_idx (file s) <= 480 -> 0 <= f_size (file s) < 2 ^ 32 -> d ≠ 0 -> d ≠ info_sect (fat s) -> ~ in_file (fat s) l d ->
  exists s', fat_file_sync s = (Ok tt, s') /\
    (forall i, 0 <= i < nsect (fat s) l -> sector (disk s') (sect_of (fat s) l i) = fsector s l i) /\
    entry_synced (file s) (view s d) (sector (disk s') d) /\
    sector (disk s') (info_sect (fat s)) = (let b := view s (info_sect (fat s)) in
      if has (fflags (fat s)) FAT_INFO_DIRTY then put_le 4 (put_le 4 b 492 (last_used (fat s))) 488 (free_cnt (fat s)) else b) /\
    (forall t, t ≠ 0 -> t ≠ d -> t ≠ info_sect (fat s) -> ~ in_file (fat s) l t -> sector (disk s') t = view s t) /\
    has (f_flags (file s')) FAT_MODIFIED = false.
Proof.
  intros d Hrel Hf Hm Hi Hsz Hd0 Hdi Hdf. assert (info_sect (fat s) ≠ 0) as Hi0 by apply (vo_info _ (fi_vol _ _ Hf)).
  assert (forall t, in_file (fat s) l t -> t ≠ 0 /\ t ≠ info_sect (fat s)) as Hfs.
  { intros t Hin. destruct (file_sector _ _ _ Hf Hin) as (H0 & _ & _). split; [done|]. destruct Hin as (i & Hn & ->).
    pose proof (sect_of_range (fat s) l (fi_data _ _ Hf) (file_range _ _ Hf) i Hn) as [Hge _]. by apply (fi_data _ _ Hf). }
  enough (wp fat_file_sync s (fun _ s' =>
    has (f_flags (file s')) FAT_MODIFIED = false /\ forall t, t ≠ 0 -> sector (disk s') t =
      if decide (t = d) then sync_entry (file s) (view s d) else if decide (t = f_sect (file s)) then f_buf (file s) else synced_view s t) (io_failure D)) as W.
  { destruct (wp_Ok _ _ _ _ W) as ([] & s' & E & Hfl & Hv); [by intros e [_ []]|]. exists s'. split_and!; [done| | | | |done].
    - intros i Hn. assert (in_file (fat s) l (sect_of (fat s) l i)) as Hin by (by exists i). destruct (Hfs _ Hin) as [H0 Hni].
      rewrite Hv by done. rewrite decide_False by (intros E'; rewrite E' in Hin; done). unfold fsector, synced_view. case_decide; [done|]. rewrite decide_False by tauto. done.
    - rewrite Hv, decide_True by done. apply sync_entry_synced; [apply view_length, Hf|apply view_bytes, Hf|done|done].
    - rewrite Hv by done. rewrite !decide_False by (done || intros E'; by apply (Hfs (f_sect (file s)) (cur_in_file _ _ Hf))).
      unfold synced_view, put_info, info_dirty. case_decide as Hc; [destruct Hc as [_ ->]; done|]. destruct (has (fflags (fat s)) FAT_INFO_DIRTY); [by exfalso; apply Hc|done].
    - intros t H0 Hnd Hni Hnf. rewrite Hv, decide_False by done. rewrite decide_False by (intros ->; by apply Hnf, cur_in_file).
      unfold synced_view. rewrite decide_False by tauto. done. }
  unfold fat_file_sync. wp_steps. rewrite (fi_open _ _ Hf), (has_lor _ FAT_ACCESSED _ Hm), Hm. cbn [negb]. wp_steps.
  destruct (file_sector _ _ _ Hf (cur_in_file _ _ Hf)) as (Hc0 & _ & Hcs & _).
  eapply wp_mono; [apply write_file_spec; [apply Hf|done|apply Hf|apply Hf]| |done]. intros _ s1 (dk & -> & Hs1 & V1). wp_steps.
  fold d. eapply wp_mono; [by apply update_buf_spec| |done]. intros _ s2 (K2 & B2 & U2).
  eapply wp_mono; [apply entry_updates| |done]. intros _ s3 ->. wp_steps.
  destruct K2 as (Hs2 & V2 & (G2 & L2 & F2 & I2 & O2)%rest_inv).
  destruct (sync_entry_ok (file s) (buf (fat s2))) as [L3 Y3]; [apply Hs2..|].
  destruct (dirtied_wrote s2 (sync_entry (file s)) Hs2 ltac:(congruence) L3 Y3) as (Hs3 & (G3 & L3' & F3' & I3' & _)%rest_inv & V3).
  rewrite G2 in G3. rewrite L2 in L3'. rewrite F2 in F3'. rewrite I2 in I3'. destruct (geom_inv _ _ G3) as (_ & _ & Einf & _). rewrite B2, U2, V1, decide_False in V3 by (intros E; apply Hdf; rewrite E; by apply cur_in_file).
  eapply wp_mono; [apply sync_fs_spec; [done|]| |done].
  { rewrite Einf. apply (vo_info _ (fi_vol _ _ Hf)). }
  intros _ s4 (_ & _ & _ & _ & _ & _ & _ & Hdk). unfold modify_file. wp_steps. split; [|intros t H0].
  - simpl. change FAT_MODIFIED with (2 ^ 6). rewrite has_testbit by lia. unfold clear_flag. rewrite Z.land_spec. apply andb_false_r.
  - destruct (Hdk t H0) as [Hdt _]. simpl. rewrite Hdt. unfold synced_view. rewrite Einf, L3', F3', I3'.
    rewrite V3 by done. destruct (decide (t = d)) as [->|Hnd]; [by rewrite decide_False by tauto|].
    rewrite V2, V1 by done. destruct (decide (t = f_sect (file s))) as [->|]; [|done].
    rewrite decide_False; [done|]. intros [? _]. by apply (Hfs _ (cur_in_file _ _ Hf)).
Qed.
End File.

(** ** Concrete instances *)

(** Cluster 3 links to 4, the last one. *)
Definition file_fat_sector : list Z :=
  take 12 demo_fat_sector ++ [4; 0; 0; 0; 0xf8; 0xff; 0xff; 0x0f] ++ replicate 492 0.
(** A file of ten bytes on these clusters is open for reading and writing; its entry is the first of the root directory. *)
Definition file_st : St (gmap Z (list Z)) :=
  mkSt demo_fat {[2 := file_fat_sector; 3 := file_fat_sector]} true (replicate 512 0) 0 0 (mkDir 2 2 4 0) (mkLoc 0 0) []
    (mkFile true 4 3 3 5 10 0 0 0x20 0x43 (replicate 512 0)).

Lemma demo_data_ok : data_ok demo_fat.
Proof.
  constructor; cbn -[Z.pow]; [lia|done|unfold spc; cbn -[Z.pow]; lia|].
  intros t Ht. unfold in_tables, fat_sects. cbn. change (128 / 128) with 1. split; [|lia]. intros [?|[_ ?]]; lia.
Qed.

Lemma file_st_inv : file_inv file_st [3; 4].
Proof.
  assert (forall i, in_file demo_fat [3; 4] i -> 5 <= i) as Hin.
  { intros i Hi. destruct Hi as (j & Hj & ->). change (nsect demo_fat [3; 4]) with 2 in Hj.
    assert (j = 0 \/ j = 1) as [-> | ->] by lia; vm_compute; congruence. }
  constructor.
  - constructor; [done|apply Forall_replicate; unfold is_byte; lia|split; [done|reflexivity]|done|done].
  - exact demo_vol_ok.
  - exact demo_data_ok.
  - apply chain_next; change (clust_cnt (fat file_st)) with 128; change (f_sclust (file file_st)) with 3.
    + lia.
    + vm_compute. split; congruence.
    + replace (entry file_st 3) with 4 by (vm_compute; reflexivity). apply chain_last; [lia|]. vm_compute. congruence.
  - done.
  - vm_compute. congruence.
  - vm_compute. split; congruence.
  - done.
  - done.
  - done.
  - apply Forall_replicate. unfold is_byte. lia.
  - cbn. lia.
  - intros _. vm_compute. reflexivity.
  - intros Hi. specialize (Hin _ Hi). cbn in Hin. lia.
Qed.

(** 600 bytes: the write goes on from the first cluster in the second. *)
Lemma file_roundtrip_witness :
  exists s1 s2 s3, fat_file_write 0 0 0 (replicate 600 7) file_st = (Ok 600, s1) /\
    fat_file_seek 0 0 0 0 FAT_SEEK_START s1 = (Ok tt, s2) /\ fat_file_read 0 0 0 600 s2 = (Ok (replicate 600 7), s3) /\
    f_size (file s3) = 600 /\ fbyte s3 [3; 4] 600 = fbyte file_st [3; 4] 600.
Proof.
  destruct (file_roundtrip 0 0 0 file_st [3; 4] (replicate 600 7)) as (s1 & s2 & s3 & E1 & E2 & E3 & _ & _ & _ & Hs & Hb).
  - apply ram_disk_reliable.
  - apply file_st_inv.
  - apply Forall_replicate. unfold is_byte. lia.
  - done.
  - done.
  - vm_compute. done.
  - vm_compute. done.
  - vm_compute. done.
  - exists s1, s2, s3. split_and!; [exact E1|exact E2|exact E3|exact Hs|]. apply Hb; vm_compute; [split; congruence|by intros [_ H]].
Defined.

Lemma file_sync_durable_witness :
  exists s', fat_file_sync file_st = (Ok tt, s') /\ get_le 4 (sector (disk s') 4) 28 = 10 /\ has (f_flags (file s')) FAT_MODIFIED = false.
Proof.
  destruct (file_sync_durable file_st [3; 4]) as (s' & E & _ & Hg & _ & _ & Hm).
  - apply ram_disk_reliable.
  - apply file_st_inv.
  - done.
  - cbn. lia.
  - cbn. lia.
  - done.
  - done.
  - intros (j & Hj & Hd). change (nsect (fat file_st) [3; 4]) with 2 in Hj. assert (j = 0 \/ j = 1) as [-> | ->] by lia; vm_compute in Hd; congruence.
  - exists s'. split_and!; [exact E|exact (es_size _ _ _ Hg)|exact Hm].
Defined.

(** A file that fills its one cluster, read to its end: the seek behind the last byte takes another cluster for it, so that reading writes the
    table.  On a volume without a free cluster the read of these 512 bytes fails. *)
Definition full_cluster_st : St (gmap Z (list Z)) :=
  mkSt demo_fat {[2 := demo_fat_sector; 3 := demo_fat_sector]} true (replicate 512 0) 0 0 (mkDir 2 2 4 0) (mkLoc 0 0) []
    (mkFile true 4 2 2 4 512 0 0 0x20 0x02 (replicate 512 0)).
Example read_to_end_allocates :
  let r := fat_file_read 0 0 128 512 full_cluster_st in
  r.1 = Ok (replicate 512 0) /\ entry full_cluster_st 3 = 0 /\ entry r.2 2 = 3 /\ entry r.2 3 = EOC /\
  free_cnt (fat r.2) = free_cnt (fat full_cluster_st) - 1.
Proof. vm_compute. by split_and!. Qed.

Definition full_volume_st : St (gmap Z (list Z)) :=
  let table := take 12 demo_fat_sector ++ concat (replicate 125 [0xf8; 0xff; 0xff; 0x0f]) in
  mkSt demo_fat {[2 := table; 3 := table]} true (replicate 512 0) 0 0 (mkDir 2 2 4 0) (mkLoc 0 0) []
    (mkFile true 4 2 2 4 512 0 0 0x20 0x02 (replicate 512 0)).
Example read_to_end_fails :
  (fat_file_read 0 0 128 512 full_volume_st).1 = Err FAT_ERR_FULL.
Proof. vm_compute. done. Qed.
