(* ===== verification/Fat32Names.v ===== *)
(** * FAT32: names and time stamps

    The codecs of a directory entry: 13-character fragments of long names, 8.3
    short names, packed dates and times. *)

From Stdlib Require Import ZifyBool.
From S2P Require Import Prelude Fat32.

(** ** Long-name fragments *)

(** The 13 character positions of an entry: apart, and inside its 32 bytes. *)
Lemma lfn_index_facts :
  Forall (fun i => (lfn_index i + 2 <= 32)%nat /\
    Forall (fun j => i = j \/ (lfn_index i ≠ lfn_index j /\ lfn_index i + 1 ≠ lfn_index j)%nat)
      (seq 0 13)) (seq 0 13).
Proof. apply (bool_decide_unpack _). vm_compute. exact I. Qed.

Lemma lfn_index_bound i : (i < 13)%nat -> (lfn_index i + 2 <= 32)%nat.
Proof.
  intros Hi. pose proof lfn_index_facts as H. rewrite Forall_forall in H.
  apply H, elem_of_seq. lia.
Qed.

Lemma lfn_index_apart i j :
  (i < 13)%nat -> (j < 13)%nat -> i ≠ j ->
  (lfn_index i ≠ lfn_index j /\ lfn_index i + 1 ≠ lfn_index j)%nat.
Proof.
  intros Hi Hj Hne. pose proof lfn_index_facts as H. rewrite Forall_forall in H.
  destruct (H i) as [_ Hf]; [apply elem_of_seq; lia|]. rewrite Forall_forall in Hf.
  destruct (Hf j) as [?|?]; [apply elem_of_seq; lia|done..].
Qed.

Lemma get_put_u8 b i j v :
  (i < length b)%nat -> get_u8 (put_u8 b i v) j = if decide (j = i) then u8 v else get_u8 b j.
Proof.
  intros Hi. unfold get_u8, put_u8. case_decide as E; [subst|].
  - by rewrite list_lookup_insert_eq.
  - by rewrite list_lookup_insert_ne.
Qed.

Lemma length_put_pair raw base i lo hi : length (put_pair raw base i lo hi) = length raw.
Proof. unfold put_pair, put_u8. by rewrite !length_insert. Qed.

Lemma get_put_pair raw base i j lo hi :
  (base + 32 <= length raw)%nat -> (i < 13)%nat -> (j < 13)%nat ->
  get_u8 (put_pair raw base i lo hi) (base + lfn_index j) =
  if decide (j = i) then u8 lo else get_u8 raw (base + lfn_index j).
Proof.
  intros Hl Hi Hj. pose proof (lfn_index_bound i Hi). unfold put_pair.
  rewrite get_put_u8 by (unfold put_u8; rewrite length_insert; lia).
  rewrite get_put_u8 by lia. destruct (decide (j = i)) as [->|Hne].
  - rewrite decide_False, decide_True by lia. done.
  - destruct (lfn_index_apart i j) as [? ?]; [done..|congruence|].
    rewrite !decide_False by lia. done.
Qed.

Lemma put_lfn_chars_spec n : forall raw base i nm,
  (base + 32 <= length raw)%nat -> (i + n <= 13)%nat ->
  length (put_lfn_chars n raw base i nm) = length raw /\
  forall j, (j < 13)%nat -> get_u8 (put_lfn_chars n raw base i nm) (base + lfn_index j) =
    if decide (i <= j < i + n)%nat then u8 (get_u8 nm j) else get_u8 raw (base + lfn_index j).
Proof.
  induction n as [|n IH]; intros raw base i nm Hl Hn; simpl.
  { split; [done|]. intros j Hj. by rewrite decide_False by lia. }
  destruct (IH (put_pair raw base i (get_u8 nm i) 0) base (S i) nm) as [IHl IHj];
    [by rewrite length_put_pair|lia|].
  split; [by rewrite IHl, length_put_pair|]. intros j Hj.
  rewrite IHj, get_put_pair by lia. repeat case_decide; subst; try lia; done.
Qed.

Lemma put_lfn_fill_spec n : forall raw base i,
  (base + 32 <= length raw)%nat -> (i + n <= 13)%nat ->
  length (put_lfn_fill n raw base i) = length raw /\
  forall j, (j < 13)%nat -> get_u8 (put_lfn_fill n raw base i) (base + lfn_index j) =
    if decide (i <= j < i + n)%nat then 0xff else get_u8 raw (base + lfn_index j).
Proof.
  induction n as [|n IH]; intros raw base i Hl Hn; simpl.
  { split; [done|]. intros j Hj. by rewrite decide_False by lia. }
  destruct (IH (put_pair raw base i 0xff 0xff) base (S i)) as [IHl IHj];
    [by rewrite length_put_pair|lia|].
  split; [by rewrite IHl, length_put_pair|]. intros j Hj.
  rewrite IHj, get_put_pair by lia. repeat case_decide; subst; try lia; done.
Qed.

(** The character positions of a written fragment. *)
Lemma put_lfn_name_frag_spec raw base nm len j :
  (base + 32 <= length raw)%nat -> (len <= 13)%nat -> (j < 13)%nat ->
  get_u8 (put_lfn_name_frag raw base nm len) (base + lfn_index j) =
  if decide (j < len)%nat then u8 (get_u8 nm j) else if decide (j = len) then 0 else 0xff.
Proof.
  intros Hl Hlen Hj. unfold put_lfn_name_frag.
  destruct (put_lfn_chars_spec len raw base 0 nm) as [Hcl Hcj]; [done..|].
  destruct (Nat.ltb_spec len 13) as [Hlt|Hge].
  - destruct (put_lfn_fill_spec (12 - len) (put_pair (put_lfn_chars len raw base 0 nm) base len 0 0)
      base (S len)) as [_ Hfj]; [by rewrite length_put_pair, Hcl|lia|].
    rewrite Hfj, get_put_pair, Hcj by (rewrite ?Hcl; lia).
    repeat case_decide; subst; try lia; done.
  - rewrite Hcj by done. repeat case_decide; try lia; done.
Qed.

Section Lfn.
Context {D : Type}.
Implicit Types s : St D.

(** Reading characters [i .. len) back. *)
Lemma parse_lfn_chars_spec n : forall s i cnt b p nm len,
  (i + n = 13)%nat -> (i <= len <= 13)%nat -> (len <= length nm)%nat ->
  (forall j, (i <= j < len)%nat -> get_u8 b (p + lfn_index j) = get_u8 nm j /\
     0 < get_u8 nm j < 256) ->
  ((len < 13)%nat -> get_u8 b (p + lfn_index len) = 0) ->
  exists s', parse_lfn_chars n i cnt b p s = (Ok tt, s') /\
    g_buf s' = splice (Z.to_nat (13 * cnt) + i) (slice i (len - i) nm) (g_buf s) /\
    u16 (g_len s') = u16 (g_len s + Z.of_nat (len - i)).
Proof.
  induction n as [|n IH]; intros s i cnt b p nm len Hin Hil Hnm Hch Hend; simpl.
  { exists s. replace (len - i)%nat with 0%nat by lia. rewrite Z.add_0_r. done. }
  destruct (decide (i = len)) as [->|Hne].
  { rewrite Hend by lia. simpl. exists s. rewrite Nat.sub_diag, Z.add_0_r. done. }
  destruct (Hch i) as [-> Hc]; [lia|]. rewrite (proj2 (Z.eqb_neq _ _)) by lia.
  unfold bind, modify. cbn [with_g_buf with_g_len g_buf g_len].
  match goal with |- context [parse_lfn_chars n (S i) cnt b p ?st] => set (s1 := st) end.
  destruct (IH s1 (S i) cnt b p nm len) as (s' & E & Hb & Hg); [lia|lia|done| |done|].
  { intros j Hj. apply Hch. lia. }
  exists s'. split_and!; [done| |].
  - rewrite Hb. change (g_buf s1) with (put_u8 (g_buf s) (Z.to_nat (13 * cnt) + i) (get_u8 nm i)).
    rewrite Nat.add_succ_r.
    assert (exists c, nm !! i = Some c /\ get_u8 nm i = c) as (c & Ec & Egc).
    { destruct (lookup_lt_is_Some_2 nm i) as [c Ec]; [lia|]. exists c.
      unfold get_u8. by rewrite Ec. }
    rewrite Egc in *. unfold slice at 2. rewrite (drop_S nm c i Ec).
    replace (len - i)%nat with (S (len - S i)) by lia. simpl take.
    change (splice (S (Z.to_nat (13 * cnt) + i)) (slice (S i) (len - S i) nm)
      (put_u8 (g_buf s) (Z.to_nat (13 * cnt) + i) c) =
      <[(Z.to_nat (13 * cnt) + i)%nat := c]>
        (splice (S (Z.to_nat (13 * cnt) + i)) (slice (S i) (len - S i) nm) (g_buf s))).
    unfold splice, put_u8. rewrite u8_small by lia. by rewrite list_insert_inserts_lt by lia.
  - rewrite Hg. change (g_len s1) with (u16 (g_len s + 1)). unfold u16.
    rewrite Zplus_mod_idemp_l. f_equal. lia.
Qed.

(** Long-name fragments round-trip.  A fragment of at most 13 non-NUL
    characters written by [put_lfn_name_frag] into an entry of a sector, whatever
    was there before, is read back by the loop of [parse_lfn_name]: exactly its
    characters land at their place of [g_buf] and the length grows by their number. *)
Theorem lfn_frag_roundtrip s raw base nm len cnt :
  (base + 32 <= length raw)%nat -> (len <= 13)%nat -> (len <= length nm)%nat ->
  (forall j, (j < len)%nat -> 0 < get_u8 nm j < 256) ->
  exists s', parse_lfn_chars 13 0 cnt (put_lfn_name_frag raw base nm len) base s = (Ok tt, s') /\
    g_buf s' = splice (Z.to_nat (13 * cnt)) (take len nm) (g_buf s) /\
    u16 (g_len s') = u16 (g_len s + Z.of_nat len).
Proof.
  intros Hl Hlen Hnm Hch.
  destruct (parse_lfn_chars_spec 13 s 0 cnt (put_lfn_name_frag raw base nm len) base nm len)
    as (s' & E & Hb & Hg); [done|lia|done| | |].
  - intros j Hj. rewrite put_lfn_name_frag_spec, decide_True by lia.
    rewrite u8_small by (specialize (Hch j); lia). split; [done|]. apply Hch. lia.
  - intros Hlt. rewrite put_lfn_name_frag_spec, decide_False, decide_True by lia. done.
  - exists s'. rewrite Nat.sub_0_r in *. rewrite Nat.add_0_r in Hb. done.
Qed.

End Lfn.

Lemma lfn_frag_roundtrip_witness :
  exists s', parse_lfn_chars 13 0 1
      (put_lfn_name_frag (replicate 512 7) 64 [114; 101; 97; 100; 109; 101] 6) 64
      (mkSt zero_fat tt true (replicate 512 0) 0 0 (mkDir 0 0 0 0) (mkLoc 0 0) []
         (mkFile false 0 0 0 0 0 0 0 0 0 [])) = (Ok tt, s') /\
    slice 13 6 (g_buf s') = [114; 101; 97; 100; 109; 101].
Proof.
  edestruct (lfn_frag_roundtrip (mkSt zero_fat tt true (replicate 512 0) 0 0 (mkDir 0 0 0 0)
    (mkLoc 0 0) [] (mkFile false 0 0 0 0 0 0 0 0 0 [])) (replicate 512 7) 64
    [114; 101; 97; 100; 109; 101] 6 1) as (s' & E & Hb & _).
  - rewrite length_replicate. lia.
  - lia.
  - simpl. lia.
  - intros j Hj. do 6 (destruct j as [|j]; [vm_compute; done|]). lia.
  - exists s'. split; [done|]. rewrite Hb. vm_compute. reflexivity.
Defined.

(** ** Time stamps *)

(** Bit fields packed with [|] are sums. *)
Lemma lor_field a b n :
  0 <= n -> 0 <= a < 2 ^ n -> Z.lor (b * 2 ^ n) a = b * 2 ^ n + a.
Proof.
  intros Hn Ha. rewrite <- (Z.add_lor_land (b * 2 ^ n) a).
  replace (Z.land (b * 2 ^ n) a) with 0; [lia|]. symmetry.
  rewrite <- Z.shiftl_mul_pow2 by done. apply Z.bits_inj'. intros i Hi.
  rewrite Z.land_spec, Z.bits_0. destruct (decide (i < n)).
  - by rewrite Z.shiftl_spec_low by done.
  - replace (Z.testbit a i) with false; [by rewrite andb_false_r|]. symmetry.
    apply Z.testbit_false; [done|]. rewrite Z.div_small; [done|]. split; [lia|].
    apply Z.lt_le_trans with (2 ^ n); [lia|]. apply Z.pow_le_mono_r; lia.
Qed.

(** The packed date and time as numbers. *)
Lemma encode_date_value ts :
  1 <= day ts <= 31 -> 1 <= month ts <= 12 -> 1980 <= year ts <= 2043 ->
  encode_date ts = (year ts - 1980) * 512 + month ts * 32 + day ts.
Proof.
  intros Hd Hm Hy. unfold encode_date. change 0x3f with (Z.ones 6). change 0xf with (Z.ones 4).
  change 0x1f with (Z.ones 5). rewrite !Z.land_ones, !Z.shiftl_mul_pow2 by lia.
  rewrite !Z.mod_small by lia. rewrite lor_field by lia.
  replace ((year ts - 1980) * 2 ^ 9 + month ts * 2 ^ 5)
    with (((year ts - 1980) * 16 + month ts) * 2 ^ 5) by lia.
  rewrite lor_field by lia. rewrite u16_small by lia. lia.
Qed.

Lemma encode_time_value ts :
  0 <= hour ts < 24 -> 0 <= min ts < 60 -> 0 <= sec ts < 60 ->
  encode_time ts = hour ts * 2048 + min ts * 32 + sec ts / 2.
Proof.
  intros Hh Hm Hs. unfold encode_time. change 0x3f with (Z.ones 6). change 0x1f with (Z.ones 5).
  rewrite !Z.land_ones, !Z.shiftl_mul_pow2 by lia.
  assert (0 <= sec ts / 2 < 30) by (Z.div_mod_to_equations; lia).
  rewrite !Z.mod_small by lia. rewrite (Z.lor_comm (sec ts / 2)), lor_field by lia.
  rewrite Z.lor_comm, lor_field by lia. rewrite u16_small by lia. lia.
Qed.

(** Time stamps round-trip at two-second resolution for the years 1980 to
    2043: decoding an encoded date and time gives the time stamp back with the
    seconds rounded down to even.  (The on-disk year has seven bits; the six-bit
    mask of the code makes 2044 come back as 1980.) *)
Theorem timestamp_roundtrip ts :
  0 <= hour ts < 24 -> 0 <= min ts < 60 -> 0 <= sec ts < 60 ->
  1 <= day ts <= 31 -> 1 <= month ts <= 12 -> 1980 <= year ts <= 2043 ->
  decode_timestamp (encode_date ts) (encode_time ts) =
  Ts (hour ts) (min ts) (2 * (sec ts / 2)) (day ts) (month ts) (year ts).
Proof.
  intros Hh Hmi Hs Hd Hmo Hy. rewrite encode_date_value, encode_time_value by done.
  unfold decode_timestamp. change 0x3f with (Z.ones 6). change 0xf with (Z.ones 4).
  change 0x1f with (Z.ones 5). rewrite !Z.land_ones, !Z.shiftr_div_pow2 by lia.
  change (2 ^ 11) with 2048. change (2 ^ 9) with 512. change (2 ^ 6) with 64.
  change (2 ^ 5) with 32. change (2 ^ 4) with 16.
  f_equal; Z.div_mod_to_equations; lia.
Qed.

Lemma timestamp_roundtrip_witness :
  decode_timestamp (encode_date (Ts 23 59 58 31 12 2026)) (encode_time (Ts 23 59 58 31 12 2026)) =
  Ts 23 59 58 31 12 2026.
Proof. apply (timestamp_roundtrip (Ts 23 59 58 31 12 2026)); simpl; lia. Defined.

Example year_2044_wraps :
  year (decode_timestamp (encode_date (Ts 0 0 0 1 1 2044)) 0) = 1980.
Proof. vm_compute. done. Qed.

(** ** Short names *)

(** Lower-case letters and digits. *)
Definition plain (c : Z) : bool := ((97 <=? c) && (c <=? 122)) || ((48 <=? c) && (c <=? 57)).

Lemma plain_char c :
  plain c = true -> sfn_lower (sfn_char c) = c /\ sfn_char c ≠ SFN_PAD /\ c ≠ 46.
Proof.
  intros Hc. assert (Forall (fun c => plain c = true ->
    sfn_lower (sfn_char c) = c /\ sfn_char c ≠ SFN_PAD /\ c ≠ 46) (seqZ 48 75)) as H.
  { apply (bool_decide_unpack _). vm_compute. exact I. }
  rewrite Forall_forall in H. apply H; [|done]. apply elem_of_seqZ.
  unfold plain in Hc. lia.
Qed.

Lemma get_u8_app pre c suf : get_u8 (pre ++ c :: suf) (Z.to_nat (Z.of_nat (length pre))) = c.
Proof. unfold get_u8. rewrite Nat2Z.id. by rewrite list_lookup_middle. Qed.

Lemma sfn_base_spec b : forall n pre e len,
  forallb plain b = true -> len = Z.of_nat (length (pre ++ b ++ 46 :: e)) ->
  (length pre + length b <= 8)%nat -> (n = 8 - length pre)%nat ->
  sfn_base n (pre ++ b ++ 46 :: e) (Z.of_nat (length pre)) len = map sfn_char b.
Proof.
  induction b as [|c b IH]; intros n pre e len Hp Hlen Hle ->; simpl in *.
  - destruct (8 - length pre)%nat eqn:E; simpl; [done|].
    rewrite get_u8_app. simpl. by rewrite andb_false_r.
  - apply andb_true_iff in Hp as [Hc Hp]. destruct (plain_char c Hc) as (_ & _ & Hd).
    destruct (8 - length pre)%nat eqn:E; [lia|]. simpl. rewrite get_u8_app.
    rewrite !length_app in Hlen. simpl in Hlen.
    replace (Z.of_nat (length pre) <? LIMIT len 8) with true by (unfold LIMIT; case_match; lia).
    rewrite (proj2 (Z.eqb_neq _ _) Hd). simpl. f_equal.
    specialize (IH (8 - length (pre ++ [c]))%nat (pre ++ [c]) e len Hp).
    rewrite <- !app_assoc in IH. simpl in IH. rewrite !length_app in IH. simpl in IH.
    replace (8 - (length pre + 1))%nat with n in IH by lia.
    replace (Z.of_nat (length pre) + 1) with (Z.of_nat (length pre + 1)) by lia.
    apply IH; [lia|lia|done].
Qed.

Lemma sfn_ext_spec e : forall n pre len,
  len = Z.of_nat (length (pre ++ e)) -> (length e <= n)%nat ->
  sfn_ext n (pre ++ e) (Z.of_nat (length pre)) len = map sfn_char e.
Proof.
  induction e as [|c e IH]; intros n pre len Hlen Hn; simpl in *.
  - rewrite app_nil_r in *. destruct n; [done|]. simpl. by rewrite (proj2 (Z.ltb_ge _ _)) by lia.
  - destruct n as [|n]; [lia|]. simpl. rewrite get_u8_app. rewrite length_app in Hlen. simpl in Hlen.
    rewrite (proj2 (Z.ltb_lt _ _)) by lia. f_equal.
    specialize (IH n (pre ++ [c]) len). rewrite <- app_assoc in IH. simpl in IH.
    rewrite !length_app in IH. simpl in IH.
    replace (Z.of_nat (length pre) + 1) with (Z.of_nat (length pre + 1)) by lia. apply IH; lia.
Qed.

Lemma until_pad_spec b k :
  forallb plain b = true -> until_pad (map sfn_char b ++ replicate k SFN_PAD) = b.
Proof.
  induction b as [|c b IH]; simpl; intros Hp.
  - by destruct k.
  - apply andb_true_iff in Hp as [Hc Hp]. destruct (plain_char c Hc) as (Hl & Hn & _).
    rewrite (proj2 (Z.eqb_neq _ _) Hn), Hl. f_equal. by apply IH.
Qed.

Lemma until_padded n b : forallb plain b = true -> until_pad (sfn_padded n (map sfn_char b)) = b.
Proof. apply until_pad_spec. Qed.

Lemma length_sfn_padded n l : (length l <= n)%nat -> length (sfn_padded n l) = n.
Proof. intros H. unfold sfn_padded. rewrite length_app, length_replicate. lia. Qed.

(** Short names round-trip.  A lower-case alphanumeric 8.3 name stored by
    [put_sfn_name] takes exactly the 11 bytes of the field and is given back
    unchanged by [parse_sfn_name]. *)
Theorem sfn_roundtrip b e :
  forallb plain (b ++ e) = true -> (length b <= 8)%nat -> (1 <= length e <= 3)%nat ->
  let nm := b ++ 46 :: e in
  let sfn := put_sfn_name nm (Z.of_nat (length nm)) in
  length sfn = 11%nat /\ sfn_text sfn = nm.
Proof.
  intros Hp Hb He nm sfn. rewrite forallb_app in Hp. apply andb_true_iff in Hp as [Hpb Hpe].
  assert (sfn = sfn_padded 8 (map sfn_char b) ++ sfn_padded 3 (map sfn_char e)) as ->.
  { unfold sfn, put_sfn_name, nm.
    rewrite (sfn_base_spec b 8 [] e) by (done || lia). rewrite length_map.
    assert (Z.to_nat (Z.of_nat (length (b ++ 46 :: e))) = S (length b + length e)) as ->.
    { rewrite length_app. simpl. lia. }
    simpl sfn_skip. rewrite get_u8_app, (proj2 (Z.ltb_lt _ _)) by (rewrite length_app; simpl; lia).
    change (46 =? 46) with true. cbv iota. f_equal. f_equal.
    replace (b ++ 46 :: e) with ((b ++ [46]) ++ e) by (by rewrite <- app_assoc).
    replace (Z.of_nat (length b) + 1) with (Z.of_nat (length (b ++ [46])))
      by (rewrite length_app; simpl; lia).
    apply sfn_ext_spec; [done|lia]. }
  assert (length (sfn_padded 8 (map sfn_char b)) = 8%nat) as H8
    by (apply length_sfn_padded; by rewrite length_map).
  assert (length (sfn_padded 3 (map sfn_char e)) = 3%nat) as H3
    by (apply length_sfn_padded; rewrite length_map; lia).
  split; [rewrite length_app; lia|]. unfold sfn_text.
  rewrite take_app_length', drop_app_length', take_ge by lia.
  rewrite !until_padded by done. unfold nm. f_equal.
  destruct e as [|c e]; [simpl in He; lia|]. unfold get_u8. rewrite lookup_app_r by lia.
  rewrite H8. simpl. apply andb_true_iff in Hpe as [Hc _].
  destruct (plain_char c Hc) as (_ & Hn & _). by rewrite (proj2 (Z.eqb_neq _ _) Hn).
Qed.

Lemma sfn_roundtrip_witness :
  let nm := [116; 101; 115; 116; 49] ++ 46 :: [101; 108; 102] in
  sfn_text (put_sfn_name nm (Z.of_nat (length nm))) = nm.
Proof.
  apply (sfn_roundtrip [116; 101; 115; 116; 49] [101; 108; 102]); [done | simpl; lia | simpl; lia].
Defined.
