(* ===== verification/KLib.v ===== *)
(** * Memory and string routines of the kernel

    [kernel/src/lib/kmemory.c] and [kernel/src/lib/kstring.c] over a flat memory of
    bytes.  Addresses are mathematical integers: the objects passed to these
    routines do not wrap around the address space.  A loop that runs until it
    finds a terminator has fuel; the theorems show how much is enough. *)

From S2P Require Import Prelude.

(** ** Memory *)

Definition memory := Z -> Z.
Definition upd (m : memory) (p v : Z) : memory := fun q => if q =? p then v else m q.

(** A word is the list of its eight bytes, read and written as a whole. *)
Definition load_word (m : memory) (p : Z) : list Z := m <$> seqZ p 8.
Fixpoint store_bytes (m : memory) (p : Z) (l : list Z) : memory :=
  match l with
  | [] => m
  | b :: l => store_bytes (upd m p b) (p + 1) l
  end.

(** ** kmemory.c; [n] iterations are left in each loop. *)

Fixpoint memset_from (n : nat) (m : memory) (dst val i : Z) : memory :=
  match n with
  | O => m
  | S n => memset_from n (upd m (dst + i) val) dst val (i + 1)
  end.
Definition memset (m : memory) (dst val size : Z) : memory :=
  memset_from (Z.to_nat size) m dst val 0.

Fixpoint memcmp_from (n : nat) (m : memory) (m1 m2 i : Z) : Z :=
  match n with
  | O => 0
  | S n =>
    if ctrue (m (m1 + i) - m (m2 + i)) then m (m1 + i) - m (m2 + i)
    else memcmp_from n m m1 m2 (i + 1)
  end.
Definition memcmp (m : memory) (m1 m2 size : Z) : Z := memcmp_from (Z.to_nat size) m m1 m2 0.

Fixpoint byte_copy (n : nat) (m : memory) (dst src i : Z) : memory :=
  match n with
  | O => m
  | S n => byte_copy n (upd m (dst + i) (m (src + i))) dst src (i + 1)
  end.
Fixpoint word_copy (n : nat) (m : memory) (dst src i : Z) : memory :=
  match n with
  | O => m
  | S n => word_copy n (store_bytes m (dst + 8 * i) (load_word m (src + 8 * i))) dst src (i + 1)
  end.

Definition memcpy (m : memory) (dst src size : Z) : memory :=
  let range := u64 (dst - src) in
  if range <=? 8 then byte_copy (Z.to_nat size) m dst src 0
  else if 32 <=? size then
    let temp_size := size / 8 in
    let remain_size := size mod 8 in
    let m := word_copy (Z.to_nat temp_size) m dst src 0 in
    if 0 <? remain_size then
      byte_copy (Z.to_nat remain_size) m (dst + temp_size * 8) (src + temp_size * 8) 0
    else m
  else byte_copy (Z.to_nat size) m dst src 0.

(** ** kstring.c; [None] is fuel run out. *)

Fixpoint strlen_from (fuel : nat) (m : memory) (s n : Z) : option Z :=
  match fuel with
  | O => None
  | S fuel => if m (s + n) =? 0 then Some n else strlen_from fuel m s (n + 1)
  end.
Definition strlen (fuel : nat) (m : memory) (s : Z) : option Z := strlen_from fuel m s 0.

Fixpoint strcpy_from (fuel : nat) (m : memory) (dest src i : Z) : option (memory * Z) :=
  match fuel with
  | O => None
  | S fuel =>
    let m := upd m (dest + i) (m (src + i)) in
    if m (src + i) =? 0 then Some (m, dest + i) else strcpy_from fuel m dest src (i + 1)
  end.
Definition strcpy (fuel : nat) (m : memory) (dest src : Z) : option (memory * Z) :=
  strcpy_from fuel m dest src 0.

Fixpoint strncpy_from (n : nat) (m : memory) (dest src i : Z) : memory * Z :=
  match n with
  | O => (m, dest + i)
  | S n =>
    let m := upd m (dest + i) (m (src + i)) in
    if m (src + i) =? 0 then (m, dest + i) else strncpy_from n m dest src (i + 1)
  end.
Definition strncpy (m : memory) (dest src len : Z) : memory * Z :=
  strncpy_from (Z.to_nat len) m dest src 0.

(** Bytes are held as [unsigned char], as [strcmp] returns their difference. *)
Fixpoint strcmp (fuel : nat) (m : memory) (str1 str2 : Z) : option Z :=
  match fuel with
  | O => None
  | S fuel =>
    if ctrue (m str1) && (m str1 =? m str2) then strcmp fuel m (str1 + 1) (str2 + 1)
    else Some (m str1 - m str2)
  end.

(** ** Copying *)

(** [m'] is [m] with the [n] bytes at [dst] replaced by those of [m0] at [src]. *)
Definition copied (m0 m m' : memory) (dst src n : Z) : Prop :=
  forall q, m' q = if decide (dst <= q < dst + n) then m0 (src + (q - dst)) else m q.

Lemma upd_spec m p v q : upd m p v q = if decide (q = p) then v else m q.
Proof. unfold upd. destruct (q =? p) eqn:E; breflect; [by rewrite decide_True|by rewrite decide_False]. Qed.

Lemma store_bytes_spec l : forall m p q,
  store_bytes m p l q =
  if decide (p <= q < p + Z.of_nat (length l)) then l !!! Z.to_nat (q - p) else m q.
Proof.
  induction l as [|b l IH]; intros m p q; simpl.
  { rewrite decide_False by lia. done. }
  rewrite IH, upd_spec. destruct (decide (q = p)) as [->|Hne].
  - rewrite decide_False, decide_True by lia. by rewrite Z.sub_diag.
  - destruct (decide (p + 1 <= q < p + 1 + Z.of_nat (length l))) as [Hq|Hq].
    + rewrite decide_True by lia. replace (Z.to_nat (q - p)) with (S (Z.to_nat (q - (p + 1)))) by lia.
      done.
    + by rewrite decide_False by lia.
Qed.

Lemma word_step m dst src i q :
  store_bytes m (dst + 8 * i) (load_word m (src + 8 * i)) q =
  if decide (dst + 8 * i <= q < dst + 8 * i + 8) then m (src + (q - dst)) else m q.
Proof.
  rewrite store_bytes_spec. unfold load_word. rewrite length_fmap, length_seqZ.
  change (Z.of_nat (Z.to_nat 8)) with 8. case_decide as E; [|done].
  rewrite list_lookup_total_alt, list_lookup_fmap, lookup_seqZ_lt by lia. simpl. f_equal. lia.
Qed.

(** Copying upwards is right when the destination is not above the source, or
    beyond its end: what is still to be read has not been overwritten. *)
Section Forward.
Context (m0 : memory) (dst src size : Z).
Hypothesis Hdir : dst <= src \/ src + size <= dst.

Lemma byte_copy_spec n : forall m i,
  0 <= i -> i + Z.of_nat n <= size -> copied m0 m0 m dst src i ->
  copied m0 m0 (byte_copy n m dst src i) dst src (i + Z.of_nat n).
Proof.
  induction n as [|n IH]; intros m i Hi Hn Hm; cbn [byte_copy].
  { by replace (i + Z.of_nat 0) with i by lia. }
  replace (i + Z.of_nat (S n)) with (i + 1 + Z.of_nat n) by lia. apply IH; [lia..|].
  intros q. rewrite upd_spec, !Hm. destruct (decide (q = dst + i)) as [->|Hne].
  - rewrite decide_False by lia. rewrite decide_True by lia. f_equal. lia.
  - apply decide_ext. lia.
Qed.

Lemma word_copy_spec n : forall m i,
  0 <= i -> 8 * (i + Z.of_nat n) <= size -> copied m0 m0 m dst src (8 * i) ->
  copied m0 m0 (word_copy n m dst src i) dst src (8 * (i + Z.of_nat n)).
Proof.
  induction n as [|n IH]; intros m i Hi Hn Hm; cbn [word_copy].
  { by replace (i + Z.of_nat 0) with i by lia. }
  replace (i + Z.of_nat (S n)) with (i + 1 + Z.of_nat n) by lia. apply IH; [lia..|].
  intros q. rewrite word_step, !Hm. case_decide as E.
  - rewrite decide_False by lia. by rewrite decide_True by lia.
  - apply decide_ext. lia.
Qed.

End Forward.

Lemma copied_refl m dst src : copied m m m dst src 0.
Proof. intros q. by rewrite decide_False by lia. Qed.

(** [memcpy] on every path (bytes, words, words and a tail).  When the
    destination is not above the source or does not overlap it, every byte of
    the destination is the byte the source held before the call and nothing else is
    written: the routine is a correct [memmove] in that direction. *)
Lemma memcpy_copied m dst src size :
  0 <= size -> dst <= src \/ src + size <= dst ->
  copied m m (memcpy m dst src size) dst src size.
Proof.
  intros Hs Hdir. unfold memcpy.
  pose proof (byte_copy_spec m dst src size Hdir) as Hb.
  assert (copied m m (byte_copy (Z.to_nat size) m dst src 0) dst src size) as Hbytes.
  { replace size with (0 + Z.of_nat (Z.to_nat size)) at 2 by lia.
    apply Hb; [lia..|apply copied_refl]. }
  destruct (_ <=? 8); [done|]. destruct (32 <=? size) eqn:E; breflect; [|done].
  assert (copied m m (word_copy (Z.to_nat (size / 8)) m dst src 0) dst src (8 * (size / 8))) as Hw.
  { replace (8 * (size / 8)) with (8 * (0 + Z.of_nat (Z.to_nat (size / 8)))) by (Z.div_mod_to_equations; lia).
    apply (word_copy_spec m dst src size Hdir); [lia|Z.div_mod_to_equations; lia|apply copied_refl]. }
  pose proof (Z.div_mod size 8 ltac:(lia)) as Hdm. pose proof (Z.mod_pos_bound size 8 ltac:(lia)).
  destruct (0 <? size mod 8) eqn:Er; breflect; [|by replace size with (8 * (size / 8)) at 2 by lia].
  revert Hw Hdm. generalize (size / 8) (size mod 8) H Er. intros t r Hr Hr0 Hw Hdm.
  set (m1 := word_copy _ _ _ _ _) in *. clearbody m1. intros q.
  assert (copied m1 m1 (byte_copy (Z.to_nat r) m1 (dst + t * 8) (src + t * 8) 0)
            (dst + t * 8) (src + t * 8) r) as Ht.
  { replace r with (0 + Z.of_nat (Z.to_nat r)) at 2 by lia.
    apply (byte_copy_spec m1 (dst + t * 8) (src + t * 8) r); [lia..|apply copied_refl]. }
  rewrite Ht, !Hw. case_decide as E1.
  - rewrite decide_False by lia. rewrite decide_True by lia. f_equal. lia.
  - apply decide_ext. lia.
Qed.

Lemma memset_spec m dst v size q :
  0 <= size -> memset m dst v size q = if decide (dst <= q < dst + size) then v else m q.
Proof.
  intros Hs. unfold memset.
  assert (forall n m i, memset_from n m dst v i q =
    if decide (dst + i <= q < dst + i + Z.of_nat n) then v else m q) as H.
  { clear. induction n as [|n IH]; intros m i; cbn [memset_from]; [by rewrite decide_False by lia|].
    rewrite IH, upd_spec. destruct (decide (q = dst + i)).
    - rewrite (decide_True _ _ (P := dst + i <= q < _)) by lia. by case_decide.
    - apply decide_ext. lia. }
  rewrite H. apply decide_ext. lia.
Qed.

(** ** Strings *)

(** The C string [s] at [p]. *)
Fixpoint cstr (m : memory) (p : Z) (s : list Z) : Prop :=
  match s with
  | [] => m p = 0
  | c :: s => m p = c /\ 0 < c < 256 /\ cstr m (p + 1) s
  end.

(** Lexicographic order of byte strings, a proper prefix being smaller. *)
Fixpoint lex (s t : list Z) : comparison :=
  match s, t with
  | [], [] => Eq
  | [], _ :: _ => Lt
  | _ :: _, [] => Gt
  | c :: s, d :: t => match c ?= d with Eq => lex s t | r => r end
  end.

Lemma lex_eq s t : lex s t = Eq <-> s = t.
Proof.
  revert t. induction s as [|c s IH]; intros [|d t]; simpl; try done.
  destruct (Z.compare_spec c d) as [->|?|?]; [rewrite IH; naive_solver| |];
    (split; [done|]); intros [= -> _]; lia.
Qed.

Lemma strcmp_lex s : forall m p q t fuel,
  cstr m p s -> cstr m q t -> (length s < fuel)%nat ->
  exists r, strcmp fuel m p q = Some r /\ (r ?= 0) = lex s t.
Proof.
  induction s as [|c s IH]; intros m p q t [|fuel] Hs Ht Hf; try (simpl in Hf; lia);
    cbn [strcmp cstr] in *; unfold ctrue.
  - rewrite Hs. simpl. eexists. split; [done|]. destruct t as [|d t]; simpl in *.
    + by rewrite Ht.
    + destruct Ht as (-> & ? & _). apply Z.compare_lt_iff. lia.
  - destruct Hs as (-> & Hc & Hs). rewrite (proj2 (Z.eqb_neq c 0)) by lia. simpl.
    destruct t as [|d t]; simpl in Ht.
    + rewrite Ht, (proj2 (Z.eqb_neq c 0)) by lia. eexists. split; [done|].
      simpl. apply Z.compare_gt_iff. lia.
    + destruct Ht as (-> & Hd & Ht). destruct (c =? d) eqn:E; breflect.
      * subst d. simpl. rewrite Z.compare_refl. apply IH; [done..|simpl in Hf; lia].
      * eexists. split; [done|]. simpl.
        destruct (Z.compare_spec c d); [done|apply Z.compare_lt_iff; lia|apply Z.compare_gt_iff; lia].
Qed.

(** [strcmp] on two terminated strings returns, after at most as many steps
    as the first string is long, a number whose sign is the lexicographic order
    of the strings as unsigned bytes; it is zero exactly when they are equal. *)
Theorem strcmp_correct m p q s t :
  cstr m p s -> cstr m q t ->
  exists r, strcmp (S (length s)) m p q = Some r /\ (r ?= 0) = lex s t /\ (r = 0 <-> s = t).
Proof.
  intros Hs Ht. destruct (strcmp_lex s m p q t (S (length s)) Hs Ht ltac:(lia)) as (r & Hr & Hl).
  exists r. split_and!; [done..|]. by rewrite <- lex_eq, <- Hl, Z.compare_eq_iff.
Qed.

(** The strings "ab" at 0 and "ac" at 10. *)
Definition demo_memory : memory := store_bytes (store_bytes (fun _ => 0) 0 [97; 98; 0]) 10 [97; 99; 0].

Lemma strcmp_correct_witness :
  exists r, strcmp 3 demo_memory 0 10 = Some r /\ r < 0.
Proof.
  destruct (strcmp_correct demo_memory 0 10 [97; 98] [97; 99]) as (r & Hr & Hl & _);
    [by vm_compute|by vm_compute|].
  exists r. split; [exact Hr|]. apply Z.compare_lt_iff. exact Hl.
Defined.
