(* ===== verification/Kmalloc.v ===== *)
(** * Blocks of the kernel heap with their contents

    [kzalloc] and [krealloc] of [kernel/src/mm/kmalloc.c] on top of [kmalloc] and [kfree] of [Slab].  The bytes of the blocks that are
    handed out are a memory of their own; the words in free objects are those of the slab state. *)

From S2P Require Import Prelude DList Pmm Vmalloc Slab SlabProofs KLib.

Section Contents.
Context {P : Type} `{PageSource P} {S : Type} `{AddrSpace S}.
Notation kheap := (kheap (P := P) (S := S)).

Definition kzalloc (k : kheap) (m : memory) (size : Z) : option (kheap * memory * Z) :=
  '(k, p) ← kmalloc k size; Some (k, if ctrue p then memset m p 0 size else m, p).

(** The copy to a null block is a fault, unless nothing is copied. *)
Definition krealloc (k : kheap) (m : memory) (ptr old_size new_size : Z) : option (kheap * memory * Z) :=
  '(k, m, newptr) ← kzalloc k m new_size;
  if ctrue ptr then
    let n := if new_size <? old_size then new_size else old_size in
    if (newptr =? 0) && (0 <? n) then None else
    k ← kfree k ptr; Some (k, memcpy m newptr ptr n, newptr)
  else Some (k, m, newptr).

Lemma kzalloc_zero k m size k' m' p :
  0 <= size -> kzalloc k m size = Some (k', m', p) -> p <> 0 ->
  kmalloc k size = Some (k', p) /\ forall q, m' q = if decide (p <= q < p + size) then 0 else m q.
Proof.
  intros Hs. unfold kzalloc. destruct (kmalloc k size) as [[k1 p1]|]; [|done]. cbn. intros [= <- <- <-] Hp.
  split; [done|]. intros q. unfold ctrue. rewrite (proj2 (Z.eqb_neq _ _)) by done. cbn. by apply memset_spec.
Qed.

(** Growing or shrinking a block keeps the bytes both sizes have, clears the rest of the new block and changes nothing else; the old block is
    given back.  The blocks are apart, as live blocks are. *)
Lemma krealloc_keeps k m ptr old_size new_size k' m' p :
  0 <= old_size -> 0 <= new_size -> ptr <> 0 -> krealloc k m ptr old_size new_size = Some (k', m', p) -> p <> 0 ->
  ptr + old_size <= p \/ p + new_size <= ptr ->
  (forall i, 0 <= i < new_size -> m' (p + i) = if decide (i < old_size) then m (ptr + i) else 0) /\
  (forall q, ~ (p <= q < p + new_size) -> m' q = m q) /\
  exists k1, kmalloc k new_size = Some (k1, p) /\ kfree k1 ptr = Some k'.
Proof.
  intros Ho Hn Hptr. unfold krealloc. destruct (kzalloc k m new_size) as [[[k1 m1] p1]|] eqn:E; [|done]. cbn [mbind option_bind].
  unfold ctrue. rewrite (proj2 (Z.eqb_neq _ _)) by done. cbn [negb]. set (n := if new_size <? old_size then _ else _).
  destruct ((p1 =? 0) && (0 <? n)); [done|]. destruct (kfree k1 ptr) as [k2|] eqn:Ek; [|done]. cbn. intros [= <- <- <-] Hp Hdis.
  destruct (kzalloc_zero _ _ _ _ _ _ Hn E Hp) as [Ekm Hz].
  assert (0 <= n /\ n <= old_size /\ n <= new_size /\ (n = old_size \/ n = new_size)) as Hmin.
  { unfold n. destruct (new_size <? old_size) eqn:El; breflect; lia. }
  assert (forall q, memcpy m1 p1 ptr n q = if decide (p1 <= q < p1 + n) then m1 (ptr + (q - p1)) else m1 q) as Hc by (apply memcpy_copied; lia).
  split_and!; [| |by exists k1].
  - intros i Hi. rewrite Hc. destruct (decide (i < n)) as [Hin|Hin].
    + rewrite decide_True by lia. rewrite Hz, decide_False by lia. rewrite decide_True by lia. f_equal. lia.
    + rewrite decide_False by lia. rewrite Hz, decide_True by lia. by rewrite decide_False by lia.
  - intros q Hq. rewrite Hc, decide_False by lia. by rewrite Hz, decide_False by lia.
Qed.
End Contents.
