(* ===== verification/Kprint.v ===== *)
(** * Formatted output

    [kernel/src/log/kprint.c]: the formatter [kvsnprintf] with its number and string
    conversions, and the log functions on top of it.

    The buffer is a list of bytes, the format and strings are lists of characters
    without their null.  The variable arguments are a list of 64-bit words and
    strings ([None] for a null pointer); taking an argument of another kind, or one more than
    there are, is undefined.  [None] is a store outside an array, a load behind the end of
    the format, or an undefined argument. *)

From S2P Require Import Prelude.

(** ** Conversions *)

Definition hex_lower : list Z := [48; 49; 50; 51; 52; 53; 54; 55; 56; 57; 97; 98; 99; 100; 101; 102].
Definition hex_upper : list Z := [48; 49; 50; 51; 52; 53; 54; 55; 56; 57; 65; 66; 67; 68; 69; 70].

(** [buf[pos++] = c] *)
Definition putc (b : list Z * nat) (c : Z) : option (list Z * nat) :=
  let '(buf, pos) := b in
  if (pos <? length buf)%nat then Some (<[pos := c]> buf, S pos) else None.

Fixpoint puts (b : list Z * nat) (s : list Z) : option (list Z * nat) :=
  match s with
  | [] => Some b
  | c :: s => b ← putc b c; puts b s
  end.

(** The size of [tmp]. *)
Definition TMP_SIZE : nat := 32.

(** The digits from the lowest on; [room] characters are left in [tmp]. *)
Fixpoint digits_loop (room : nat) (v base : Z) (table : list Z) : option (list Z) :=
  if v =? 0 then Some [] else
  match room with
  | O => None
  | S room => c ← table !! Z.to_nat (v mod base); l ← digits_loop room (v / base) base table; Some (c :: l)
  end.

Definition _fmt_u64 (b : list Z * nat) (v base : Z) (table : list Z) : option (list Z * nat) :=
  if v =? 0 then putc b 48 else
  tmp ← digits_loop TMP_SIZE v base table;
  puts b (rev tmp).

Definition _fmt_i64 (b : list Z * nat) (v : Z) : option (list Z * nat) :=
  if v =? 0 then putc b 48 else
  if v <? 0 then b ← putc b 45; _fmt_u64 b (u64 (- v)) 10 hex_lower
  else _fmt_u64 b (u64 v) 10 hex_lower.

Definition null_str : list Z := [40; 110; 117; 108; 108; 41].
Definition _fmt_str (b : list Z * nat) (s : option (list Z)) : option (list Z * nat) :=
  puts b (default null_str s).

(** ** The formatter *)

Inductive varg := VWord (w : Z) | VStr (s : option (list Z)).

Definition va_word (args : list varg) : option (Z * list varg) :=
  match args with VWord w :: args => Some (w, args) | _ => None end.
Definition va_str (args : list varg) : option (option (list Z) * list varg) :=
  match args with VStr s :: args => Some (s, args) | _ => None end.

Definition chr_cr : Z := 13.
Definition chr_percent : Z := 37.
Definition chr_l : Z := 108.

(** [lflag], the character behind it, which is the null at the end, and the rest; at the
    end of the format the rest is none: the loop goes on behind it. *)
Definition next_char (fmt : list Z) : Z * option (list Z) :=
  match fmt with [] => (0, None) | c :: fmt => (c, Some fmt) end.
Definition parse_lflag (fmt : list Z) : Z * Z * option (list Z) :=
  match next_char fmt with
  | (c, Some fmt1) =>
    if c =? chr_l then
      match next_char fmt1 with
      | (c, Some fmt2) =>
        if c =? chr_l then let '(c, r) := next_char fmt2 in (2, c, r) else (1, c, Some fmt2)
      | (c, None) => (1, c, None)
      end
    else (0, c, Some fmt1)
  | (c, None) => (0, c, None)
  end.

(** One conversion: the character [ch] with [lflag]; [fmt] is what follows. *)
Definition convert (b : list Z * nat) (lflag ch : Z) (fmt : list Z) (args : list varg) :
    option (list Z * nat * list Z * list varg) :=
  let word (f : Z -> option (list Z * nat)) :=
    '(w, args) ← va_word args; b ← f w; Some (b, fmt, args) in
  if ch =? 100 then
    word (fun w => _fmt_i64 b (if lflag =? 0 then i32 w else i64 w))
  else if ch =? 113 then word (fun w => _fmt_i64 b (i64 w))
  else if ch =? 117 then
    match fmt with
    | 100 :: fmt => '(w, args) ← va_word args; b ← _fmt_u64 b (u32 w) 10 hex_lower; Some (b, fmt, args)
    | 113 :: fmt => '(w, args) ← va_word args; b ← _fmt_u64 b (u64 w) 10 hex_lower; Some (b, fmt, args)
    | _ => word (fun w => _fmt_u64 b (if lflag =? 0 then u32 w else u64 w) 10 hex_lower)
    end
  else if ch =? 120 then word (fun w => _fmt_u64 b (if lflag =? 0 then u32 w else u64 w) 16 hex_lower)
  else if ch =? 88 then word (fun w => _fmt_u64 b (if lflag =? 0 then u32 w else u64 w) 16 hex_upper)
  else if ch =? 112 then word (fun w => b ← puts b [48; 120]; _fmt_u64 b (u64 w) 16 hex_lower)
  else if ch =? 115 then '(s, args) ← va_str args; b ← _fmt_str b s; Some (b, fmt, args)
  else if ch =? 99 then word (fun w => putc b (u8 w))
  else if ch =? 98 then word (fun w => _fmt_u64 b (u64 w) 2 hex_lower)
  else b ← puts b [chr_percent; ch]; Some (b, fmt, args).

(** The loop; at most one round for each character of the format. *)
Fixpoint fmt_loop (fuel : nat) (b : list Z * nat) (end_ : nat) (fmt : list Z) (args : list varg) :
    option (list Z * nat) :=
  match fuel with
  | O => None
  | S fuel =>
    match fmt with
    | [] => Some b
    | ch :: fmt =>
      if (end_ <=? b.2)%nat then Some b
      else if ch =? chr_cr then fmt_loop fuel (b.1, 0%nat) end_ fmt args
      else if negb (ch =? chr_percent) then b ← putc b ch; fmt_loop fuel b end_ fmt args
      else
        match fmt with
        | [] => Some b
        | c :: fmt' =>
          if c =? chr_percent then b ← putc b chr_percent; fmt_loop fuel b end_ fmt' args
          else
            match parse_lflag fmt with
            | (_, _, None) => None
            | (lflag, ch, Some fmt) =>
              '(b, fmt, args) ← convert b lflag ch fmt args;
              fmt_loop fuel b end_ fmt args
            end
        end
    end
  end.

(** The buffer and the length. *)
Definition kvsnprintf (buf : list Z) (n : nat) (fmt : list Z) (args : list varg) : option (list Z * nat) :=
  if (n =? 0)%nat then Some (buf, 0%nat) else
  '(buf, pos) ← fmt_loop (S (length fmt)) (buf, 0%nat) (n - 1) fmt args;
  '(buf, _) ← putc (buf, pos) 0;
  Some (buf, pos).
Definition ksnprintf := kvsnprintf.

(** ** The log *)

Definition FMT_BUF_SIZE : nat := 1024.

Inductive klog_mode_t := KLOG_SERIAL | KLOG_TERM.
Inductive klog_level_t := KL_TRACE | KL_DEBUG | KL_INFO | KL_WARN | KL_ERROR.
Definition level_number (lv : klog_level_t) : Z :=
  match lv with KL_TRACE => 1 | KL_DEBUG => 2 | KL_INFO => 3 | KL_WARN => 4 | KL_ERROR => 5 end.

Record klog_t := Klog { g_mode : klog_mode_t; g_level : klog_level_t }.
Definition klog_set_mode (k : klog_t) (mode : klog_mode_t) : klog_t := Klog mode (g_level k).
Definition klog_set_level (k : klog_t) (lv : klog_level_t) : klog_t := Klog (g_mode k) lv.

Definition COLOR_GARY : Z := 0x6c757d.
Definition COLOR_WHITE : Z := 0xffffff.
Definition COLOR_GREEN : Z := 0x00ff00.
Definition COLOR_YELLOW : Z := 0xffc107.
Definition COLOR_RED : Z := 0xff0000.
Definition klog_level_color (lv : klog_level_t) : Z :=
  match lv with
  | KL_TRACE => COLOR_GARY
  | KL_DEBUG => COLOR_WHITE
  | KL_INFO => COLOR_GREEN
  | KL_WARN => COLOR_YELLOW
  | KL_ERROR => COLOR_RED
  end.

(** What is sent to the serial port, or written to the terminal in a colour. *)
Inductive klog_out := SerialOut (bs : list Z) | TermOut (color : Z) (s : list Z).

Definition klog_serial_putch (ch : Z) : list Z := if ch =? 10 then [13; ch] else [ch].

(** The string in the buffer ends at its first null. *)
Fixpoint until_null (b : list Z) : list Z :=
  match b with [] => [] | c :: b => if c =? 0 then [] else c :: until_null b end.

Definition kprint_core (k : klog_t) (stack : list Z) (color : Z) (fmt : list Z) (args : list varg) :
    option (klog_out * nat) :=
  '(buf, len) ← kvsnprintf stack FMT_BUF_SIZE fmt args;
  Some (match g_mode k with
        | KLOG_SERIAL => SerialOut (take len buf ≫= klog_serial_putch)
        | KLOG_TERM => TermOut color (until_null buf)
        end, len).
Definition kprintf_color := kprint_core.

Definition klog_write (k : klog_t) (stack : list Z) (lv : klog_level_t) (fmt : list Z) (args : list varg) :
    option (option klog_out) :=
  if level_number lv <? level_number (g_level k) then Some None
  else '(o, _) ← kprint_core k stack (klog_level_color lv) fmt args; Some (Some o).

(** ** Numbers *)

(** The digits of a number from the lowest on. *)
Fixpoint to_digits (n : nat) (v base : Z) : list Z :=
  match n with
  | O => []
  | S n => if v =? 0 then [] else v mod base :: to_digits n (v / base) base
  end.

(** The text of a number in a base, which has at most 64 digits. *)
Definition num_text (v base : Z) (table : list Z) : list Z :=
  if v =? 0 then [48] else (fun d => nth (Z.to_nat d) table 0) <$> rev (to_digits 64 v base).

(** Reading a text back. *)
Definition digit_value (c : Z) : Z :=
  if c <=? 57 then c - 48 else if c <=? 70 then c - 55 else c - 87.
Definition read_number (base : Z) (s : list Z) : Z := fold_left (fun n c => n * base + digit_value c) s 0.

Definition digit_table (table : list Z) : Prop := table = hex_lower \/ table = hex_upper.

Lemma table_value table d :
  digit_table table -> 0 <= d < 16 ->
  exists c, table !! Z.to_nat d = Some c /\ nth (Z.to_nat d) table 0 = c /\ digit_value c = d.
Proof.
  intros Ht Hd. assert (exists n, (n < 16)%nat /\ d = Z.of_nat n) as (n & Hn & ->) by (exists (Z.to_nat d); lia).
  rewrite Nat2Z.id.
  destruct Ht as [-> | ->]; do 16 (destruct n as [|n]; [eexists; done|]); lia.
Qed.

Lemma to_digits_value base n : forall v,
  2 <= base -> 0 <= v < base ^ Z.of_nat n ->
  Forall (fun d => 0 <= d < base) (to_digits n v base) /\
  fold_right (fun d a => a * base + d) 0 (to_digits n v base) = v.
Proof.
  induction n as [|n IH]; intros v Hb Hv; cbn [to_digits]; [simpl in *; split; [constructor|lia]|].
  destruct (Z.eqb_spec v 0) as [->|Hne]; [split; [constructor|done]|].
  rewrite Nat2Z.inj_succ, Z.pow_succ_r in Hv by lia.
  destruct (IH (v / base) Hb) as [Hf Hs].
  { split; [apply Z.div_pos; lia|apply Z.div_lt_upper_bound; lia]. }
  split; [constructor; [apply Z.mod_pos_bound; lia|done]|]. cbn [fold_right]. rewrite Hs.
  pose proof (Z.div_mod v base ltac:(lia)). lia.
Qed.

Lemma read_rev base l :
  fold_left (fun n c => n * base + digit_value c) (rev l) 0 = fold_right (fun c a => a * base + digit_value c) 0 l.
Proof.
  induction l as [|c l IH]; [done|]. cbn [rev fold_right]. by rewrite fold_left_app, IH.
Qed.

Lemma fmap_rev {A B} (f : A -> B) l : f <$> rev l = rev (f <$> l).
Proof. induction l as [|a l IH]; [done|]. cbn [rev fmap list_fmap]. by rewrite fmap_app, IH. Qed.

(** The text of a number reads back as the number. *)
Lemma num_text_roundtrip v base table :
  digit_table table -> 2 <= base <= 16 -> 0 <= v < 2 ^ 64 -> read_number base (num_text v base table) = v.
Proof.
  intros Ht Hb Hv. unfold num_text, read_number. destruct (Z.eqb_spec v 0) as [->|Hne]; [done|].
  destruct (to_digits_value base 64 v) as [Hf Hs]; [lia| |].
  { split; [lia|]. apply Z.lt_le_trans with (2 ^ 64); [lia|]. apply Z.pow_le_mono_l. lia. }
  rewrite fmap_rev, read_rev. transitivity (fold_right (fun d a => a * base + d) 0 (to_digits 64 v base)); [|done].
  clear Hs. induction Hf as [|d l Hd _ IH]; [done|]. cbn [fold_right fmap list_fmap]. rewrite IH.
  destruct (table_value table d Ht) as (c & _ & -> & ->); [lia|]. done.
Qed.

(** [tmp] holds the digits of every number but the binary ones of more than 32 digits. *)
Lemma digits_loop_spec base table n : forall m v,
  digit_table table -> 2 <= base <= 16 -> 0 <= v < base ^ Z.of_nat n -> (n <= m)%nat ->
  digits_loop n v base table = Some ((fun d => nth (Z.to_nat d) table 0) <$> to_digits m v base).
Proof.
  induction n as [|n IH]; intros m v Ht Hb Hv Hm.
  { simpl in Hv. replace v with 0 by lia. by destruct m. }
  cbn [digits_loop]. destruct (Z.eqb_spec v 0) as [->|Hne]; [by destruct m|].
  destruct m as [|m]; [lia|]. cbn [to_digits]. rewrite (proj2 (Z.eqb_neq v 0)) by done.
  pose proof (Z.mod_pos_bound v base ltac:(lia)) as Hmod.
  destruct (table_value table (v mod base) Ht) as (c & -> & Hc & _); [lia|]. cbn [mbind option_bind].
  rewrite Nat2Z.inj_succ, Z.pow_succ_r in Hv by lia.
  rewrite (IH m); [|done|done|split; [apply Z.div_pos; lia|apply Z.div_lt_upper_bound; lia]|lia].
  cbn [mbind option_bind fmap list_fmap]. by rewrite Hc.
Qed.

Definition tmp_fits (v base : Z) : Prop := 0 <= v < 2 ^ 64 /\ v < base ^ 32 /\ 2 <= base <= 16.

Lemma fmt_u64_text b v base table :
  digit_table table -> tmp_fits v base -> _fmt_u64 b v base table = puts b (num_text v base table).
Proof.
  intros Ht (Hv & Hf & Hb). unfold _fmt_u64, num_text. destruct (Z.eqb_spec v 0) as [->|Hne].
  { cbn [puts]. by destruct (putc b 48). }
  rewrite (digits_loop_spec base table TMP_SIZE 64 v Ht Hb); [|split; [lia|exact Hf]|unfold TMP_SIZE; lia].
  cbn [mbind option_bind]. by rewrite fmap_rev.
Qed.

(** A binary number of more than 32 digits runs over [tmp]. *)
Lemma binary_overruns b v : 2 ^ 32 <= v < 2 ^ 64 -> _fmt_u64 b v 2 hex_lower = None.
Proof.
  intros Hv. unfold _fmt_u64. rewrite (proj2 (Z.eqb_neq v 0)) by lia.
  assert (forall n v, 2 ^ Z.of_nat n <= v -> digits_loop n v 2 hex_lower = None) as H.
  { clear. induction n as [|n IH]; intros v Hv; cbn [digits_loop].
    - simpl in Hv. by rewrite (proj2 (Z.eqb_neq v 0)) by lia.
    - rewrite Nat2Z.inj_succ, Z.pow_succ_r in Hv by lia. pose proof (Z.pow_pos_nonneg 2 (Z.of_nat n)).
      rewrite (proj2 (Z.eqb_neq v 0)) by lia. destruct (hex_lower !! _); [|done]. cbn [mbind option_bind].
      rewrite IH; [done|]. apply Z.div_le_lower_bound; lia. }
  rewrite H; [done|]. exact (proj1 Hv).
Qed.

(** ** What the formatter writes

    A format is a sequence of items, each with its spelling, the argument it takes and the
    text it stands for. *)

Inductive spell64 := SpL | SpLL | SpQ.
Inductive item :=
| Lit (c : Z)
| Percent
| Dec32 (v : Z)
| Dec64 (sp : spell64) (v : Z)
| Udec32 (d : bool) (v : Z)
| Udec64 (sp : spell64) (v : Z)
| Hex32 (upper : bool) (v : Z)
| Hex64 (upper : bool) (v : Z)
| Ptr (v : Z)
| Str (s : option (list Z))
| Chr (c : Z)
| Bin (v : Z).

Definition item_fmt (it : item) : list Z :=
  match it with
  | Lit c => [c]
  | Percent => [37; 37]
  | Dec32 _ => [37; 100]
  | Dec64 SpL _ => [37; 108; 100]
  | Dec64 SpLL _ => [37; 108; 108; 100]
  | Dec64 SpQ _ => [37; 113]
  | Udec32 false _ => [37; 117]
  | Udec32 true _ => [37; 117; 100]
  | Udec64 SpL _ => [37; 108; 117]
  | Udec64 SpLL _ => [37; 108; 108; 117]
  | Udec64 SpQ _ => [37; 117; 113]
  | Hex32 u _ => [37; if u then 88 else 120]
  | Hex64 u _ => [37; 108; if u then 88 else 120]
  | Ptr _ => [37; 112]
  | Str _ => [37; 115]
  | Chr _ => [37; 99]
  | Bin _ => [37; 98]
  end.

Definition item_args (it : item) : list varg :=
  match it with
  | Lit _ | Percent => []
  | Dec32 v | Dec64 _ v | Udec32 _ v | Udec64 _ v | Hex32 _ v | Hex64 _ v | Ptr v | Chr v | Bin v => [VWord v]
  | Str s => [VStr s]
  end.

Definition dec_text (v : Z) : list Z :=
  if v <? 0 then 45 :: num_text (- v) 10 hex_lower else num_text v 10 hex_lower.
Definition hex_text (u : bool) (v : Z) : list Z := num_text v 16 (if u then hex_upper else hex_lower).

Definition item_text (it : item) : list Z :=
  match it with
  | Lit c | Chr c => [c]
  | Percent => [37]
  | Dec32 v | Dec64 _ v => dec_text v
  | Udec32 _ v | Udec64 _ v => num_text v 10 hex_lower
  | Hex32 u v | Hex64 u v => hex_text u v
  | Ptr v => 48 :: 120 :: num_text v 16 hex_lower
  | Str s => default null_str s
  | Bin v => num_text v 2 hex_lower
  end.

(** The arguments are of their types; a binary number has at most 32 digits. *)
Definition item_ok (it : item) : Prop :=
  match it with
  | Lit c => 0 < c < 256 /\ c <> chr_cr /\ c <> chr_percent
  | Percent => True
  | Dec32 v => - 2 ^ 31 <= v < 2 ^ 31
  | Dec64 _ v => - 2 ^ 63 < v < 2 ^ 63
  | Udec32 _ v | Hex32 _ v | Bin v => 0 <= v < 2 ^ 32
  | Udec64 _ v | Hex64 _ v | Ptr v => 0 <= v < 2 ^ 64
  | Str s => True
  | Chr c => 0 <= c < 256
  end.

(** [%u], [%lu] and [%llu] take a [d] or [q] that follows as their own. *)
Definition takes_suffix (it : item) : bool :=
  match it with Udec32 false _ | Udec64 SpL _ | Udec64 SpLL _ => true | _ => false end.
Definition is_suffix (it : item) : bool :=
  match it with Lit c => (c =? 100) || (c =? 113) | _ => false end.
Fixpoint items_ok (its : list item) : Prop :=
  match its with
  | [] => True
  | it :: its =>
    item_ok it /\ items_ok its /\
    (takes_suffix it = true -> match its with it' :: _ => is_suffix it' = false | [] => True end)
  end.

Definition items_fmt (its : list item) : list Z := its ≫= item_fmt.
Definition items_args (its : list item) : list varg := its ≫= item_args.
Definition items_text (its : list item) : list Z := its ≫= item_text.

(** ** The writes *)

(** The text written so far, in front of the old contents. *)
Definition written (buf out : list Z) : list Z * nat := (out ++ drop (length out) buf, length out).

Lemma puts_written buf out s :
  (length (out ++ s) <= length buf)%nat -> puts (written buf out) s = Some (written buf (out ++ s)).
Proof.
  revert out. induction s as [|c s IH]; intros out Hl; cbn [puts]; [by rewrite app_nil_r|].
  rewrite length_app in Hl. simpl in Hl. unfold putc, written at 1.
  destruct (Nat.ltb_spec (length out) (length (out ++ drop (length out) buf))) as [_|Hge].
  2:{ rewrite length_app, length_drop in Hge. lia. }
  cbn [mbind option_bind].
  rewrite (cons_middle c out s), app_assoc, <- (IH (out ++ [c])).
  2:{ rewrite !length_app. simpl. lia. }
  f_equal. unfold written. rewrite insert_app_r_alt, Nat.sub_diag by lia.
  destruct (drop (length out) buf) as [|o l] eqn:Hd.
  { apply (f_equal length) in Hd. rewrite length_drop in Hd. simpl in Hd. lia. }
  rewrite length_app, <- app_assoc. simpl. replace (length out + 1)%nat with (S (length out)) by lia.
  f_equal. do 2 f_equal. replace (S (length out)) with (length out + 1)%nat by lia.
  by rewrite <- drop_drop, Hd.
Qed.

Lemma fmt_i64_text b v : - 2 ^ 63 < v < 2 ^ 63 -> _fmt_i64 b v = puts b (dec_text v).
Proof.
  intros Hv. unfold _fmt_i64, dec_text. destruct (Z.eqb_spec v 0) as [->|Hne].
  { cbn. by destruct (putc b 48). }
  assert (forall v, 0 <= v < 2 ^ 63 -> forall b, _fmt_u64 b (u64 v) 10 hex_lower = puts b (num_text v 10 hex_lower)) as H.
  { clear. intros v Hv b. rewrite u64_small by lia. apply fmt_u64_text; [by left|]. repeat split; lia. }
  destruct (Z.ltb_spec v 0); [|apply H; lia]. cbn [puts].
  destruct (putc b 45) as [b'|]; [|done]. cbn [mbind option_bind]. apply H. lia.
Qed.

Lemma fmt_u_text b v base u :
  0 <= v < 2 ^ 64 -> base = 10 \/ base = 16 \/ base = 2 /\ v < 2 ^ 32 ->
  _fmt_u64 b v base (if u : bool then hex_upper else hex_lower) =
  puts b (num_text v base (if u then hex_upper else hex_lower)).
Proof.
  intros Hv Hb. apply fmt_u64_text; [destruct u; [by right|by left]|].
  destruct Hb as [-> | [-> | [-> Hs]]]; repeat split; lia.
Qed.

Definition no_suffix (fmt : list Z) : Prop :=
  match fmt with c :: _ => c <> 100 /\ c <> 113 | [] => True end.

Lemma i64_id v : - 2 ^ 63 <= v < 2 ^ 63 -> i64 v = v.
Proof. intros H. unfold i64. rewrite Z.mod_small; lia. Qed.

Lemma convert_u b lflag v rest args :
  no_suffix rest ->
  convert b lflag 117 rest (VWord v :: args) =
  (b ← _fmt_u64 b (if lflag =? 0 then u32 v else u64 v) 10 hex_lower; Some (b, rest, args)).
Proof.
  intros Hn. unfold convert. change (117 =? 100) with false. change (117 =? 113) with false.
  change (117 =? 117) with true. cbn [negb]. cbv zeta.
  destruct rest as [|c rest]; [done|]. destruct Hn as [H1 H2].
  destruct c as [|p|p]; [done| |done].
  do 7 (destruct p as [p|p|]; try done).
Qed.

Lemma fmt_loop_conv fuel b e fmt args lflag ch rest b1 args1 rest1 :
  (b.2 < e)%nat ->
  match fmt with c :: _ => c <> 37 | [] => False end ->
  parse_lflag fmt = (lflag, ch, Some rest) ->
  convert b lflag ch rest args = (b ← b1; Some (b, rest1, args1)) ->
  fmt_loop (S fuel) b e (37 :: fmt) args = (b ← b1; fmt_loop fuel b e rest1 args1).
Proof.
  intros Hb Hc Hp Hv. cbn [fmt_loop]. destruct (Nat.leb_spec e (b.2)); [lia|].
  change (37 =? chr_cr) with false. change (37 =? chr_percent) with true. cbn [negb].
  destruct fmt as [|c fmt]; [done|]. rewrite (proj2 (Z.eqb_neq c chr_percent)) by done.
  rewrite Hp. cbv iota beta. rewrite Hv. destruct b1; done.
Qed.

Ltac fmt_round :=
  etrans; [eapply fmt_loop_conv; [eassumption|simpl; lia|reflexivity|]|reflexivity].

Lemma fmt_loop_item fuel b e it rest args :
  item_ok it -> (takes_suffix it = true -> no_suffix rest) -> (b.2 < e)%nat ->
  fmt_loop (S fuel) b e (item_fmt it ++ rest) (item_args it ++ args) =
  (b ← puts b (item_text it); fmt_loop fuel b e rest args).
Proof.
  intros Hok Hs Hb. destruct it as [c| |v|sp v|d v|sp v|u v|u v|v|s|c|v]; simpl in Hok.
  - destruct Hok as (_ & H1 & H2). cbn [item_fmt app fmt_loop item_args item_text puts].
    destruct (Nat.leb_spec e (b.2)); [lia|].
    rewrite (proj2 (Z.eqb_neq _ _) H1), (proj2 (Z.eqb_neq _ _) H2). cbn [negb]. by destruct (putc b c).
  - cbn [item_fmt app fmt_loop item_args item_text puts]. destruct (Nat.leb_spec e (b.2)); [lia|].
    change (37 =? chr_cr) with false. change (37 =? chr_percent) with true. cbn [negb]. change chr_percent with 37.
    by destruct (putc b 37).
  - fmt_round. unfold convert. cbn. by rewrite i32_small, fmt_i64_text by lia.
  - destruct sp; fmt_round; unfold convert; cbn; by rewrite i64_id, fmt_i64_text by lia.
  - destruct d.
    + fmt_round. unfold convert. cbn. by rewrite u32_small, (fmt_u_text b v 10 false) by lia.
    + fmt_round. etrans; [apply convert_u; auto|]. cbn. by rewrite u32_small, (fmt_u_text b v 10 false) by lia.
  - destruct sp; fmt_round; [etrans; [apply convert_u; auto|]; cbn..|unfold convert; cbn];
      by rewrite u64_small, (fmt_u_text b v 10 false) by lia.
  - destruct u; fmt_round; unfold convert; cbn; rewrite u32_small by lia;
      [by rewrite (fmt_u_text b v 16 true) by lia|by rewrite (fmt_u_text b v 16 false) by lia].
  - destruct u; fmt_round; unfold convert; cbn; rewrite u64_small by lia;
      [by rewrite (fmt_u_text b v 16 true) by lia|by rewrite (fmt_u_text b v 16 false) by lia].
  - fmt_round. unfold convert. cbn. destruct (putc b 48) as [b1|]; [|done]. cbn. destruct (putc b1 120); [|done].
    cbn. by rewrite u64_small, (fmt_u_text _ v 16 false) by lia.
  - fmt_round. done.
  - fmt_round. unfold convert. cbn. rewrite u8_small by lia. by destruct (putc b c).
  - fmt_round. unfold convert. cbn. by rewrite u64_small, (fmt_u_text b v 2 false) by lia.
Qed.

Lemma items_no_suffix it its :
  items_ok (it :: its) -> takes_suffix it = true -> no_suffix (items_fmt its).
Proof.
  intros (_ & _ & Hs) Ht. specialize (Hs Ht). destruct its as [|it' its]; [done|].
  destruct it' as [c| |v|[] v|[] v|[] v|u v|u v|v|s|c|v]; simpl; try (split; lia).
  simpl in Hs. apply orb_false_iff in Hs as [H1%Z.eqb_neq H2%Z.eqb_neq]. done.
Qed.

Lemma fmt_loop_items buf e its : forall fuel out,
  items_ok its -> (length its < fuel)%nat ->
  (length (out ++ items_text its) <= e)%nat -> (e < length buf)%nat ->
  fmt_loop fuel (written buf out) e (items_fmt its) (items_args its) = Some (written buf (out ++ items_text its)).
Proof.
  induction its as [|it its IH]; intros fuel out Hok Hf He Hbuf;
    (destruct fuel as [|fuel]; [simpl in Hf; lia|]).
  { cbn. by rewrite app_nil_r. }
  assert (exists c l, items_fmt (it :: its) = c :: l) as (c & l & Hfmt).
  { destruct it as [c| |v|[] v|[] v|[] v|u v|u v|v|s|c|v]; eexists _, _; reflexivity. }
  change (items_text (it :: its)) with (item_text it ++ items_text its) in *.
  destruct (Nat.le_gt_cases e (length out)) as [Hfull|Hroom].
  - rewrite Hfmt. cbn [fmt_loop]. rewrite (proj2 (Nat.leb_le _ _)) by done.
    rewrite !length_app in He. rewrite (nil_length_inv (item_text it ++ items_text its)).
    2:{ rewrite length_app. lia. }
    by rewrite app_nil_r.
  - change (items_fmt (it :: its)) with (item_fmt it ++ items_fmt its).
    change (items_args (it :: its)) with (item_args it ++ items_args its).
    pose proof (items_no_suffix it its Hok) as Hs. destruct Hok as (Hit & Hits & _).
    rewrite fmt_loop_item by done. rewrite app_assoc in He |- *.
    rewrite puts_written by (rewrite !length_app in *; lia). cbn [mbind option_bind].
    apply IH; [done|simpl in Hf; lia|done|done].
Qed.

(** [kvsnprintf] writes the text of every item of the format, each conversion in its
    spelling with its argument, then the null, leaves the rest of the buffer alone, and returns
    the length of the text, as long as the whole text with its null fits the [n] bytes. *)
Lemma kvsnprintf_items its buf n :
  items_ok its -> (length (items_text its) < n)%nat -> (n <= length buf)%nat ->
  kvsnprintf buf n (items_fmt its) (items_args its) =
  Some (items_text its ++ 0 :: drop (S (length (items_text its))) buf, length (items_text its)).
Proof.
  intros Hok Hn Hb. unfold kvsnprintf. destruct (Nat.eqb_spec n 0) as [->|_]; [lia|].
  assert (length its <= length (items_fmt its))%nat as Hl.
  { clear. induction its as [|it its IH]; [done|]. change (items_fmt (it :: its)) with (item_fmt it ++ items_fmt its).
    rewrite length_app. simpl. assert (1 <= length (item_fmt it))%nat; [|lia].
    destruct it as [c| |v|[] v|[] v|[] v|u v|u v|v|s|c|v]; simpl; lia. }
  change (buf, 0%nat) with (written buf []).
  rewrite fmt_loop_items; [|done|lia|simpl; lia|lia]. cbn [mbind option_bind app].
  assert (putc (written buf (items_text its)) 0 = Some (written buf (items_text its ++ [0]))) as Hp.
  { pose proof (puts_written buf (items_text its) [0]) as Hp. cbn [puts] in Hp.
    rewrite length_app in Hp. cbn [length] in Hp. specialize (Hp ltac:(lia)). rewrite <- Hp. by destruct (putc _ 0). }
  unfold written at 1. cbv beta iota. unfold written at 1 in Hp. rewrite Hp. cbn [mbind option_bind].
  unfold written. rewrite length_app, <- app_assoc. simpl. by replace (length _ + 1)%nat with (S (length (items_text its))) by lia.
Qed.

(** ["pid=%d at %p: %s"] with [-7], [0xffff8000], ["up"]. *)
Definition demo_items : list item :=
  (Lit <$> [112; 105; 100; 61]) ++ [Dec32 (-7)] ++ (Lit <$> [32; 97; 116; 32]) ++
  [Ptr 0xffff8000; Lit 58; Lit 32; Str (Some [117; 112])].

(** The bound is looked at between two items only: a string that is longer than the rest of the
    buffer is written past its end. *)
Lemma long_string_overruns : ksnprintf (replicate 4 0) 4 (items_fmt [Str (Some [97; 98; 99; 100; 101])]) [VStr (Some [97; 98; 99; 100; 101])] = None.
Proof. reflexivity. Qed.

Lemma until_null_app l r : Forall (fun c => c <> 0) l -> until_null (l ++ 0 :: r) = l.
Proof. induction 1 as [|c l Hc _ IH]; [done|]. cbn [app until_null]. by rewrite (proj2 (Z.eqb_neq c 0)), IH. Qed.

(** A message below the level is dropped; every other one is formatted into the 1024 bytes and goes,
    as long as it fits, to the serial port with a carriage return before each newline, or to the terminal in the
    colour of its level. *)
Theorem klog_write_correct k stack lv its :
  length stack = FMT_BUF_SIZE -> items_ok its -> (length (items_text its) < FMT_BUF_SIZE)%nat ->
  Forall (fun c => c <> 0) (items_text its) ->
  klog_write k stack lv (items_fmt its) (items_args its) =
  Some (if level_number lv <? level_number (g_level k) then None
        else Some (match g_mode k with
                   | KLOG_SERIAL => SerialOut (items_text its ≫= klog_serial_putch)
                   | KLOG_TERM => TermOut (klog_level_color lv) (items_text its)
                   end)).
Proof.
  intros Hs Hok Hl Hnz. unfold klog_write. destruct (_ <? _); [done|]. unfold kprint_core.
  rewrite kvsnprintf_items by (rewrite ?Hs; done). cbn [mbind option_bind]. do 2 f_equal.
  destruct (g_mode k).
  - by rewrite take_app_length.
  - by rewrite until_null_app.
Qed.

(** The demo line as a warning on the serial port, and not at all when only errors are logged. *)
Lemma klog_write_correct_witness :
  let its := demo_items ++ [Lit 10] in
  klog_write (Klog KLOG_SERIAL KL_INFO) (replicate FMT_BUF_SIZE 0xff) KL_WARN (items_fmt its) (items_args its) =
  Some (Some (SerialOut ([112; 105; 100; 61; 45; 55; 32; 97; 116; 32; 48; 120; 102; 102; 102; 102; 56; 48; 48; 48;
                          58; 32; 117; 112; 13; 10]))).
Proof.
  intros its. etrans; [apply (klog_write_correct _ _ KL_WARN its)|reflexivity].
  - reflexivity.
  - repeat split; try (vm_compute; congruence); done.
  - vm_compute. lia.
  - repeat constructor; vm_compute; congruence.
Defined.
