(* ===== verification/Keyboard.v ===== *)
(** * Keyboard

    [kernel/src/device/keyboard/keycode.c] and [keyboard.c]: the translation of
    PS/2 scan codes to key codes and characters, the state of the modifier keys,
    and the word published for every key event.  The ports of the controller
    ([keyboard_callback], [keyboard_init]) are not represented: a scan code is an
    input of [_process_scan_code], the word given to [kevent_publish] its output. *)

From S2P Require Import Prelude.

(** ** Key codes *)

Definition KEY_RESERVED : Z := 0.
Definition KEY_LEFTCTRL : Z := 29.
Definition KEY_LEFTSHIFT : Z := 42.
Definition KEY_RIGHTSHIFT : Z := 54.
Definition KEY_LEFTALT : Z := 56.
Definition KEY_CAPSLOCK : Z := 58.
Definition KEY_NUMLOCK : Z := 69.
Definition KEY_SCROLLLOCK : Z := 70.
Definition KEY_F11 : Z := 84.
Definition KEY_F12 : Z := 85.
Definition KEY_LEFTSQUARE : Z := 86.
Definition KEY_RIGHTSQUARE : Z := 87.
Definition KEY_RIGHTCTRL : Z := 88.
Definition KEY_RIGHTALT : Z := 89.

(** [scancode_to_keycode]: the codes up to 0x53 are the scan codes themselves but
    for the square brackets; the entry of the keypad asterisk is commented out. *)
Definition scancode_to_keycode (s : Z) : Z :=
  if s =? 0x1a then KEY_LEFTSQUARE
  else if s =? 0x1b then KEY_RIGHTSQUARE
  else if s =? 0x37 then 0
  else if (1 <=? s) && (s <=? 0x53) then s
  else if s =? 0x57 then KEY_F11
  else if s =? 0x58 then KEY_F12
  else 0.

Definition extended_scancode_to_keycode (s : Z) : Z :=
  if s =? 0x1d then KEY_RIGHTCTRL else if s =? 0x38 then KEY_RIGHTALT else 0.

Definition keycode_get_by_scancode (s : Z) : Z := scancode_to_keycode s.
Definition keycode_get_keypad_by_scancode (s : Z) : Z :=
  let keycode := extended_scancode_to_keycode s in
  if keycode =? 0 then KEY_RESERVED else keycode.

(** [key_ascii], as bytes: plain and with shift; its 132 rows end with zeros. *)
Definition key_ascii : list (Z * Z) :=
  [(0, 0); (27, 0); (49, 33); (50, 64); (51, 35);
   (52, 36); (53, 37); (54, 94); (55, 38); (56, 42);
   (57, 40); (48, 41); (45, 95); (61, 43); (8, 0);
   (9, 0); (113, 81); (119, 87); (101, 69); (114, 82);
   (116, 84); (121, 89); (117, 85); (105, 73); (111, 79);
   (112, 80); (91, 123); (93, 125); (10, 0); (0, 0);
   (97, 65); (115, 83); (100, 68); (102, 70); (103, 71);
   (104, 72); (106, 74); (107, 75); (108, 76); (59, 58);
   (39, 34); (96, 126); (0, 0); (92, 124); (122, 90);
   (120, 88); (99, 67); (118, 86); (98, 66); (110, 78);
   (109, 77); (44, 60); (46, 62); (47, 63); (0, 0);
   (42, 0); (0, 0); (32, 0); (0, 0); (0, 0);
   (0, 0); (0, 0); (0, 0); (0, 0); (0, 0);
   (0, 0); (0, 0); (0, 0); (0, 0); (0, 0);
   (0, 0); (0, 0); (0, 0); (0, 0); (45, 0);
   (0, 0); (0, 0); (0, 0); (43, 0); (0, 0)] ++ replicate 52 (0, 0).

(** [None] is an index behind the table. *)
Definition keyecode_to_ascii (keycode : Z) (isupper : bool) : option Z :=
  '(l, u) ← key_ascii !! Z.to_nat keycode;
  Some (if isupper then u else l).

(** ** Events *)

Record kb_state := Kb {
  is_extended : bool;
  capslock_state : bool;
  scrolllock_state : bool;
  numlock_state : bool;
  keystate_lctrl : bool;
  keystate_rctrl : bool;
  keystate_lshift : bool;
  keystate_rshift : bool;
  keystate_lalt : bool;
  keystate_ralt : bool;
}.

Record keyboard_data_t := KeyData {
  key_state_ctrl : bool;
  key_state_shift : bool;
  key_state_alt : bool;
  key_code : Z;
  key_pressed : bool;
  key_pad : bool;
}.

(** The bit fields of the union and its member [flags]. *)
Definition kb_flags (d : keyboard_data_t) : Z :=
  Z.b2z (key_state_ctrl d) * 2 ^ 5 + Z.b2z (key_state_shift d) * 2 ^ 6 +
  Z.b2z (key_state_alt d) * 2 ^ 7 + key_code d * 2 ^ 8 + Z.b2z (key_pressed d) * 2 ^ 16 +
  Z.b2z (key_pad d) * 2 ^ 24.
Definition kb_data (flags : Z) : keyboard_data_t :=
  KeyData (Z.testbit flags 5) (Z.testbit flags 6) (Z.testbit flags 7)
    (Z.land (Z.shiftr flags 8) 0xff) (Z.testbit flags 16) (Z.testbit flags 24).
Arguments kb_data : simpl never.

Definition _set_key_state (s : kb_state) (keycode : Z) (p : bool) : kb_state :=
  let '(Kb e c sc n lc rc ls rs la ra) := s in
  if keycode =? KEY_LEFTCTRL then Kb e c sc n p rc ls rs la ra
  else if keycode =? KEY_RIGHTCTRL then Kb e c sc n lc p ls rs la ra
  else if keycode =? KEY_LEFTSHIFT then Kb e c sc n lc rc p rs la ra
  else if keycode =? KEY_RIGHTSHIFT then Kb e c sc n lc rc ls p la ra
  else if keycode =? KEY_LEFTALT then Kb e c sc n lc rc ls rs p ra
  else if keycode =? KEY_RIGHTALT then Kb e c sc n lc rc ls rs la p
  else s.

Definition toggle_locks (s : kb_state) (keycode : Z) : kb_state :=
  let '(Kb e c sc n lc rc ls rs la ra) := s in
  if keycode =? KEY_CAPSLOCK then Kb e (negb c) sc n lc rc ls rs la ra
  else if keycode =? KEY_SCROLLLOCK then Kb e c (negb sc) n lc rc ls rs la ra
  else if keycode =? KEY_NUMLOCK then Kb e c sc (negb n) lc rc ls rs la ra
  else s.

Definition set_extended (s : kb_state) (e : bool) : kb_state :=
  let '(Kb _ c sc n lc rc ls rs la ra) := s in Kb e c sc n lc rc ls rs la ra.

(** The new state and the word published, if any. *)
Definition _process_scan_code (s : kb_state) (scancode : Z) : kb_state * option Z :=
  if scancode =? 0xe0 then (set_extended s true, None) else
  let is_pressed := Z.land scancode 0x80 =? 0 in
  let base_scancode := Z.land scancode 0x7f in
  let keycode :=
    if is_extended s then keycode_get_keypad_by_scancode base_scancode
    else keycode_get_by_scancode base_scancode in
  let s := set_extended s false in
  if keycode =? KEY_RESERVED then (s, None) else
  let s := if is_pressed then toggle_locks s keycode else s in
  let s := _set_key_state s keycode is_pressed in
  let data := KeyData (keystate_lctrl s || keystate_rctrl s) (keystate_lshift s || keystate_rshift s)
                (keystate_lalt s || keystate_ralt s) keycode is_pressed false in
  (s, Some (kb_flags data)).

(** ** The published word *)

Lemma kb_data_flags d : 0 <= key_code d < 256 -> kb_data (kb_flags d) = d.
Proof.
  destruct d as [c s a k p q]. cbn [key_code]. intros Hk.
  assert (forallb (fun k =>
    forallb (fun b : bool * bool * bool * bool * bool =>
      let '(c, s, a, p, q) := b in
      let d := kb_data (kb_flags (KeyData c s a k p q)) in
      eqb (key_state_ctrl d) c && eqb (key_state_shift d) s && eqb (key_state_alt d) a &&
      (key_code d =? k) && eqb (key_pressed d) p && eqb (key_pad d) q)
      (let bs := [true; false] in
       list_prod (list_prod (list_prod (list_prod bs bs) bs) bs) bs)) (seqZ 0 256) = true) as H
    by (vm_compute; reflexivity).
  rewrite forallb_forall in H. specialize (H k). rewrite <- list_elem_of_In, elem_of_seqZ in H.
  specialize (H ltac:(lia)). rewrite forallb_forall in H. specialize (H (c, s, a, p, q)).
  assert (In (c, s, a, p, q) (let bs := [true; false] in
    list_prod (list_prod (list_prod (list_prod bs bs) bs) bs) bs)) as Hin
    by (repeat apply in_prod; destruct c, s, a, p, q; simpl; tauto).
  specialize (H Hin). cbv beta iota zeta in H. rewrite !andb_true_iff in H.
  destruct (kb_data _) as [c' s' a' k' p' q'].
  cbn [key_state_ctrl key_state_shift key_state_alt key_code key_pressed key_pad] in H.
  destruct H as (((((Hc & Hs) & Ha) & Hkk) & Hp) & Hq).
  apply eqb_prop in Hc, Hs, Ha, Hp, Hq. apply Z.eqb_eq in Hkk. by subst.
Qed.

(** Every key code of the tables indexes [key_ascii]. *)
Lemma keycode_bound s e :
  let k := if e : bool then keycode_get_keypad_by_scancode s else keycode_get_by_scancode s in
  0 <= k <= 89.
Proof.
  destruct e; simpl; unfold keycode_get_keypad_by_scancode, extended_scancode_to_keycode,
    keycode_get_by_scancode, scancode_to_keycode, KEY_RESERVED, KEY_LEFTSQUARE, KEY_RIGHTSQUARE,
    KEY_F11, KEY_F12, KEY_RIGHTCTRL, KEY_RIGHTALT.
  - destruct (s =? 0x1d); [done|]. by destruct (s =? 0x38).
  - repeat (case_match; [done|]). case_match eqn:E; [|by repeat case_match].
    apply andb_prop in E as [? ?]. breflect. lia.
Qed.

Lemma set_key_extended s k p : is_extended (_set_key_state s k p) = is_extended s.
Proof. destruct s. unfold _set_key_state. by repeat case_match. Qed.

Lemma locks_extended s k (p : bool) :
  is_extended (if p then toggle_locks s k else s) = is_extended s.
Proof. destruct s, p; [|done]. unfold toggle_locks. by repeat case_match. Qed.

(** The word published for a key event carries the event to its reader.  A
    byte of a scan code either is the prefix 0xe0, or has no key (then nothing is
    published), or the published word decodes to the key of the byte's table,
    whether the key went down, and the modifier keys held after the event; and that
    key indexes the character table.  In every case but the prefix the extended mode
    is left. *)
Theorem scan_code_published s scancode :
  0 <= scancode < 256 ->
  let base := Z.land scancode 0x7f in
  let key := if is_extended s then keycode_get_keypad_by_scancode base
             else keycode_get_by_scancode base in
  match _process_scan_code s scancode with
  | (s', None) => (scancode = 0xe0 /\ is_extended s' = true) \/
                  (key = KEY_RESERVED /\ is_extended s' = false)
  | (s', Some flags) =>
      let d := kb_data flags in
      key_code d = key /\ key <> KEY_RESERVED /\ key_pressed d = (scancode <? 128) /\
      key_state_shift d = (keystate_lshift s' || keystate_rshift s') /\
      key_state_ctrl d = (keystate_lctrl s' || keystate_rctrl s') /\
      key_state_alt d = (keystate_lalt s' || keystate_ralt s') /\
      is_extended s' = false /\ is_Some (keyecode_to_ascii (key_code d) (key_state_shift d))
  end.
Proof.
  intros Hs base key. unfold _process_scan_code.
  destruct (scancode =? 0xe0) eqn:E; breflect; [left; by destruct s|].
  fold base. fold key. assert (0 <= key <= 89) as Hkey by apply (keycode_bound base (is_extended s)).
  assert ((Z.land scancode 128 =? 0) = (scancode <? 128)) as ->.
  { clear -Hs. assert (forallb (fun x => eqb (Z.land x 128 =? 0) (x <? 128)) (seqZ 0 256) = true) as H
      by (vm_compute; reflexivity).
    rewrite forallb_forall in H. apply eqb_prop, H. rewrite <- list_elem_of_In, elem_of_seqZ. lia. }
  clearbody key. destruct (key =? KEY_RESERVED) eqn:Ek; breflect; [right; by destruct s|].
  set (p := scancode <? 128). rewrite kb_data_flags by (cbn [key_code]; lia).
  cbn [key_state_ctrl key_state_shift key_state_alt key_code key_pressed].
  split_and!; try done.
  - by rewrite set_key_extended, locks_extended; destruct s.
  - unfold keyecode_to_ascii. destruct (key_ascii !! Z.to_nat key) as [[l u]|] eqn:El; [by eexists|].
    apply lookup_ge_None in El. assert (length key_ascii = 132%nat) as Hl by reflexivity. lia.
Qed.

Definition kb_idle : kb_state := Kb false false false false false false false false false false.

(** The left shift key held, then [a]. *)
Lemma scan_code_published_witness :
  exists s flags, _process_scan_code (_process_scan_code kb_idle 0x2a).1 0x1e = (s, Some flags) /\
    key_code (kb_data flags) = 30 /\ key_state_shift (kb_data flags) = true /\
    keyecode_to_ascii (key_code (kb_data flags)) (key_state_shift (kb_data flags)) = Some 65.
Proof.
  pose proof (scan_code_published (_process_scan_code kb_idle 0x2a).1 0x1e ltac:(lia)) as H.
  destruct (_process_scan_code (_process_scan_code kb_idle 0x2a).1 0x1e) as [s [flags|]] eqn:E;
    [|vm_compute in E; discriminate E].
  exists s, flags. split; [reflexivity|]. cbv beta iota zeta in H. destruct H as (Hk & _).
  vm_compute in E. injection E as <- <-. split; [exact Hk|]. split; reflexivity.
Defined.

(** The bracket keys give no character although the table holds one for them: the
    scan codes 0x1a and 0x1b map to key codes behind the filled rows. *)
Example bracket_keys_are_silent :
  keyecode_to_ascii (keycode_get_by_scancode 0x1a) false = Some 0 /\
  keyecode_to_ascii (keycode_get_by_scancode 0x1b) true = Some 0 /\
  keyecode_to_ascii 26 false = Some 91 /\ keyecode_to_ascii 27 true = Some 125.
Proof. repeat split. Qed.
