(* ===== verification/TtyFs.v ===== *)
(** * Terminal file system

    [kernel/src/fs/ttyfs.c]: the ring buffer of the line being typed, its editing and
    echo, and the file operations on the terminal.

    What [kevent_subscribe(EV_KEYBOARD)] returns is the stream of words given to
    [ttyfs_read].  Calls of the terminal ([device/display/term.c]) are the outputs
    [term_op], in order.  The lock [tty_lock] is held but while waiting for a key,
    where other readers may edit the line too: [ttyfs_read] is one reader's view
    when it is alone.  The super block, the root entry and the open and close
    operations hold no state. *)

From Stdlib Require Import ZifyBool.
From S2P Require Import Prelude Keyboard.

Definition TTY_BUFFER_SIZE : Z := 4096.

(** ** State and operations *)

Record ttyfs_fdata_t := Tty { ibuff : list Z; ibegin : Z; isize : Z; icursor : Z }.

Inductive term_op :=
  | TermBack
  | TermNewline
  | TermPutch (c : Z)
  | TermRefresh
  | TermColorPush (red : bool)
  | TermColorPop
  | TermWrite (s : list Z)
  | TermFlush.

(** [None] is the panic on a full buffer. *)
Definition _tty_echo_char (t : ttyfs_fdata_t) (ch : Z) : option (ttyfs_fdata_t * list term_op) :=
  if ch =? 8 then
    if 0 <? isize t then
      Some (Tty (ibuff t) (ibegin t) (u64 (isize t - 1))
              (u64 (u64 (icursor t - 1) + TTY_BUFFER_SIZE) mod TTY_BUFFER_SIZE), [TermBack; TermRefresh])
    else Some (t, [TermRefresh])
  else if ch =? 10 then Some (t, [TermNewline; TermRefresh])
  else if ch =? 0 then Some (t, [TermRefresh])
  else if TTY_BUFFER_SIZE <=? isize t then None
  else Some (Tty (<[Z.to_nat (icursor t) := ch]> (ibuff t)) (ibegin t) (u64 (isize t + 1))
               ((icursor t + 1) mod TTY_BUFFER_SIZE), [TermPutch ch; TermRefresh]).

(** [memcpy] from the ring buffer. *)
Definition ring_bytes (t : ttyfs_fdata_t) (from n : Z) : list Z :=
  take (Z.to_nat n) (drop (Z.to_nat from) (ibuff t)).

(** After the newline: the bytes copied out and the emptied buffer. *)
Definition tty_take_line (t : ttyfs_fdata_t) (len : Z) : Z * list Z * ttyfs_fdata_t :=
  let actual_len := i32 (Z.min (u32 len) (u32 (isize t))) in
  let avail_to_end := u64 (TTY_BUFFER_SIZE - ibegin t) in
  let bytes :=
    if u64 actual_len <=? avail_to_end then ring_bytes t (ibegin t) actual_len
    else ring_bytes t (ibegin t) avail_to_end ++ ring_bytes t 0 (u64 actual_len - avail_to_end) in
  (actual_len, bytes, Tty (ibuff t) (icursor t) 0 (icursor t)).

(** A read returns, is still waiting for keys, or panics; a key code behind the
    character table is [TtyFault]. *)
Inductive tty_result :=
  | TtyDone (ret : Z) (buffer : list Z) (t : ttyfs_fdata_t) (rest : list Z)
  | TtyWaiting (t : ttyfs_fdata_t)
  | TtyPanic
  | TtyFault.

Fixpoint tty_wait_line (t : ttyfs_fdata_t) (len : Z) (keys : list Z) : tty_result :=
  match keys with
  | [] => TtyWaiting t
  | flags :: keys =>
    let d := kb_data flags in
    match keyecode_to_ascii (key_code d) (key_state_shift d) with
    | None => TtyFault
    | Some ch =>
      if negb (key_pressed d) then tty_wait_line t len keys
      else if ch =? 0 then tty_wait_line t len keys
      else
        match _tty_echo_char t ch with
        | None => TtyPanic
        | Some (t, _) =>
          if ch =? 10 then
            let '(ret, bytes, t) := tty_take_line t len in TtyDone ret bytes t keys
          else tty_wait_line t len keys
        end
    end
  end.

Definition ttyfs_read (t : ttyfs_fdata_t) (len : Z) (keys : list Z) : tty_result :=
  if TTY_BUFFER_SIZE <? len then TtyDone (-1) [] t keys else tty_wait_line t len keys.

(** [is_stderr] is [filep->is_console && filep->f_handle == VFS_STDERR]; a null
    buffer is [None]. *)
Definition ttyfs_write (is_stderr : bool) (len : Z) (buffer : option (list Z)) : Z * list term_op :=
  match buffer with
  | None => (0, [])
  | Some b =>
    if len <=? 0 then (0, []) else
    let w := TermWrite (take (Z.to_nat len) b) in
    (len, if is_stderr then [TermColorPush true; w; TermColorPop; TermFlush] else [w; TermFlush])
  end.

(** ** The line discipline *)

(** The editing of a line: backspace removes the last character, a newline is not
    stored; [None] when the line is full. *)
Definition edit (w : list Z) (ch : Z) : option (list Z) :=
  if ch =? 8 then Some (removelast w)
  else if (ch =? 10) || (ch =? 0) then Some w
  else if 4096 <=? Z.of_nat (length w) then None
  else Some (w ++ [ch]).

(** The line in the buffer, and the shape of the buffer. *)
Record tty_inv (t : ttyfs_fdata_t) (w : list Z) : Prop := {
  ti_len : length (ibuff t) = 4096%nat;
  ti_begin : 0 <= ibegin t < 4096;
  ti_size : isize t = Z.of_nat (length w);
  ti_full : isize t <= 4096;
  ti_cursor : icursor t = (ibegin t + isize t) mod 4096;
  ti_line : forall i, (i < length w)%nat ->
    ibuff t !! Z.to_nat ((ibegin t + Z.of_nat i) mod 4096) = w !! i;
}.

Lemma mod_shift b i j : 0 <= i < 4096 -> 0 <= j < 4096 ->
  (b + i) mod 4096 = (b + j) mod 4096 -> i = j.
Proof. intros. Z.div_mod_to_equations. lia. Qed.

Lemma length_removelast {A} (l : list A) : length (removelast l) = pred (length l).
Proof. induction l as [|x [|y l] IH]; [done..|]. simpl in *. by rewrite IH. Qed.

Lemma removelast_lookup {A} (l : list A) i : (S i < length l)%nat -> removelast l !! i = l !! i.
Proof.
  revert i. induction l as [|x [|y l] IH]; intros i Hi; [simpl in Hi; lia..|].
  destruct i as [|i]; [done|]. simpl in Hi.
  change (removelast (y :: l) !! i = (y :: l) !! i). apply IH. simpl. lia.
Qed.

(** Echoing a character edits the line, and panics exactly when it is full. *)
Lemma echo_spec t w ch :
  tty_inv t w ->
  match _tty_echo_char t ch, edit w ch with
  | Some (t', _), Some w' => tty_inv t' w'
  | None, None => True
  | _, _ => False
  end.
Proof.
  intros [Hl Hb Hs Hf Hc Hw]. unfold _tty_echo_char, edit, TTY_BUFFER_SIZE.
  destruct (ch =? 8); [|destruct (ch =? 10); [done|destruct (ch =? 0); [done|]]].
  - destruct (0 <? isize t) eqn:E; breflect.
    + constructor; cbn [ibuff ibegin isize icursor]; try done; rewrite ?length_removelast.
      * rewrite u64_small; lia.
      * rewrite u64_small; lia.
      * rewrite (u64_small (isize t - 1)) by lia.
        replace (u64 (u64 (icursor t - 1) + 4096)) with (icursor t + 4095).
        -- rewrite Hc. Z.div_mod_to_equations. lia.
        -- unfold u64. rewrite Zplus_mod_idemp_l, Z.mod_small; Z.div_mod_to_equations; lia.
      * intros i Hi. rewrite Hw by lia. symmetry. apply removelast_lookup. lia.
    + destruct w; [|simpl in Hs; lia]. by constructor.
  - cbn [orb]. rewrite <- Hs. destruct (4096 <=? isize t) eqn:E; breflect; [done|].
    constructor; cbn [ibuff ibegin isize icursor]; rewrite ?length_insert, ?length_app; try done.
    + rewrite u64_small; simpl; lia.
    + rewrite u64_small; lia.
    + rewrite u64_small, Hc, Zplus_mod_idemp_l by lia. f_equal. lia.
    + intros i Hi. simpl in Hi. rewrite Hc, Hs.
      destruct (decide (i = length w)) as [->|Hne].
      * rewrite list_lookup_insert_eq by (Z.div_mod_to_equations; lia).
        by rewrite lookup_app_r, Nat.sub_diag by lia.
      * rewrite list_lookup_insert_ne.
        -- rewrite lookup_app_l by lia. apply Hw. lia.
        -- intros Heq. assert (Z.of_nat (length w) = Z.of_nat i); [|lia].
           eapply (mod_shift (ibegin t)); [lia..|]. Z.div_mod_to_equations. lia.
Qed.

Lemma ring_lookup t from n i :
  0 <= from ->
  ring_bytes t from n !! i = if decide (Z.of_nat i < n) then ibuff t !! Z.to_nat (from + Z.of_nat i) else None.
Proof.
  intros Hf. unfold ring_bytes. case_decide.
  - rewrite lookup_take_lt, lookup_drop by lia. f_equal. lia.
  - apply lookup_take_ge. lia.
Qed.

(** The bytes handed out are the front of the line, over the end of the ring. *)
Lemma take_line_spec t w len :
  tty_inv t w -> 0 <= len <= 4096 ->
  exists t', tty_take_line t len =
    (Z.min len (Z.of_nat (length w)), take (Z.to_nat len) w, t') /\ tty_inv t' [].
Proof.
  intros [Hl Hb Hs Hf Hc Hw] Hlen. unfold tty_take_line, TTY_BUFFER_SIZE.
  rewrite !u32_small by lia. rewrite i32_small by lia. rewrite (u64_small (Z.min _ _)) by lia.
  rewrite (u64_small (4096 - ibegin t)) by lia. rewrite Hs.
  set (n := Z.min len (Z.of_nat (length w))). eexists. split; [f_equal; f_equal|].
  - apply list_eq. intros i.
    assert (take (Z.to_nat len) w !! i =
      if decide (Z.of_nat i < n) then ibuff t !! Z.to_nat ((ibegin t + Z.of_nat i) mod 4096) else None) as ->.
    { case_decide.
      - rewrite lookup_take_lt by lia. symmetry. apply Hw. lia.
      - apply lookup_ge_None. rewrite length_take. lia. }
    destruct (n <=? 4096 - ibegin t) eqn:E; breflect.
    + rewrite ring_lookup by lia. case_decide; [|done]. f_equal. rewrite Z.mod_small; lia.
    + destruct (decide (Z.of_nat i < 4096 - ibegin t)) as [Hi|Hi].
      * rewrite lookup_app_l by (unfold ring_bytes; rewrite length_take, length_drop; lia).
        rewrite ring_lookup by lia. rewrite !decide_True by lia. f_equal. rewrite Z.mod_small; lia.
      * rewrite lookup_app_r by (unfold ring_bytes; rewrite length_take, length_drop; lia).
        rewrite ring_lookup by lia. unfold ring_bytes. rewrite length_take, length_drop, Hl.
        replace (Z.of_nat (i - _)) with (Z.of_nat i - (4096 - ibegin t)) by lia.
        destruct (decide (Z.of_nat i < n)); [rewrite decide_True by lia|by rewrite decide_False by lia].
        f_equal. Z.div_mod_to_equations. lia.
  - constructor; cbn [ibuff ibegin isize icursor length]; try done; [..|by intros i ?%Nat.nlt_0_r].
    + rewrite Hc. apply Z.mod_pos_bound. lia.
    + rewrite Z.add_0_r, Hc. by rewrite Z.mod_mod.
Qed.

(** ** Reading a line *)

#[local] Arguments key_pressed : simpl never.

(** The character a key event types, if any. *)
Definition key_char (flags : Z) : option Z :=
  let d := kb_data flags in keyecode_to_ascii (key_code d) (key_state_shift d).
Definition typed (flags : Z) : option Z :=
  c ← key_char flags; if key_pressed (kb_data flags) && negb (c =? 0) then Some c else None.

Fixpoint edits (w cs : list Z) : option (list Z) :=
  match cs with
  | [] => Some w
  | c :: cs => w ← edit w c; edits w cs
  end.

Lemma wait_line_spec pre : forall t w len nl rest,
  tty_inv t w -> 0 <= len <= 4096 ->
  Forall (fun f => is_Some (key_char f) /\ typed f <> Some 10) pre -> typed nl = Some 10 ->
  match edits w (omap typed pre) with
  | Some line => exists t', tty_wait_line t len (pre ++ nl :: rest) =
      TtyDone (Z.min len (Z.of_nat (length line))) (take (Z.to_nat len) line) t' rest /\ tty_inv t' []
  | None => tty_wait_line t len (pre ++ nl :: rest) = TtyPanic
  end.
Proof.
  induction pre as [|f pre IH]; intros t w len nl rest Hinv Hlen Hpre Hnl; cbn [app tty_wait_line].
  - change (keyecode_to_ascii _ _) with (key_char nl). unfold typed in Hnl.
    destruct (key_char nl) as [c|]; [|done]. simpl in Hnl.
    destruct (key_pressed (kb_data nl)); [|done]. destruct (c =? 0) eqn:Ez; [done|].
    simpl in Hnl. injection Hnl as ->. cbn [negb omap list_omap edits].
    change (_tty_echo_char t 10) with (Some (t, [TermNewline; TermRefresh])). cbv beta iota.
    change (10 =? 0) with false. change (10 =? 10) with true. cbv beta iota.
    destruct (take_line_spec t w len Hinv Hlen) as (t' & -> & Hinv'). by exists t'.
  - apply Forall_cons in Hpre as [[[c Hc] Hf] Hpre].
    change (keyecode_to_ascii _ _) with (key_char f). rewrite Hc.
    unfold typed in Hf. rewrite Hc in Hf. simpl in Hf.
    assert (omap typed (f :: pre) = if key_pressed (kb_data f) && negb (c =? 0)
      then c :: omap typed pre else omap typed pre) as ->.
    { cbn. unfold typed at 1. rewrite Hc. simpl. by destruct (_ && _). }
    destruct (key_pressed (kb_data f)); simpl in *; [|by apply IH].
    destruct (c =? 0); simpl in *; [by apply IH|].
    rewrite (proj2 (Z.eqb_neq c 10)) by (intros ->; by apply Hf).
    pose proof (echo_spec t w c Hinv) as He.
    destruct (_tty_echo_char t c) as [[t' ops]|], (edit w c) as [w'|]; try done.
    by apply IH.
Qed.

(** C28. A read of the terminal returns the line as edited.  For any keys before
    the newline, pressed or released, with or without a character, the ring
    buffer implements the editing of a line: backspace deletes the last character,
    the read returns the front of the line that fits the caller's buffer and its
    length, keys behind the newline stay unread, and the buffer is empty
    afterwards wherever in the ring it begins; the panic occurs exactly when the line
    would exceed 4096 characters. *)
Theorem tty_read_line t w len pre nl rest :
  tty_inv t w -> 0 <= len <= TTY_BUFFER_SIZE ->
  Forall (fun f => is_Some (key_char f) /\ typed f <> Some 10) pre -> typed nl = Some 10 ->
  match edits w (omap typed pre) with
  | Some line => exists t', ttyfs_read t len (pre ++ nl :: rest) =
      TtyDone (Z.min len (Z.of_nat (length line))) (take (Z.to_nat len) line) t' rest /\ tty_inv t' []
  | None => ttyfs_read t len (pre ++ nl :: rest) = TtyPanic
  end.
Proof.
  intros Hinv Hlen Hpre Hnl. unfold ttyfs_read. rewrite (proj2 (Z.ltb_ge _ _)) by lia.
  by apply wait_line_spec.
Qed.

(** Keys a, b, backspace, c, newline; the ring begins at its last cell. *)
Definition demo_tty : ttyfs_fdata_t := Tty (replicate 4096 0) 4095 0 4095.
Definition demo_key (code : Z) : Z := kb_flags (KeyData false false false code true false).
Definition demo_keys : list Z := map demo_key [30; 48; 14; 46].

Lemma demo_tty_inv : tty_inv demo_tty [].
Proof.
  constructor; cbn [demo_tty ibuff ibegin isize icursor length]; try done.
  by intros i ?%Nat.nlt_0_r.
Qed.

Lemma tty_read_line_witness :
  exists t, ttyfs_read demo_tty 10 (demo_keys ++ demo_key 28 :: [7]) = TtyDone 2 [97; 99] t [7] /\ tty_inv t [].
Proof.
  assert (Forall (fun f => is_Some (key_char f) /\ typed f <> Some 10) demo_keys) as Hk.
  { unfold demo_keys. simpl. repeat constructor; first [by eexists | by vm_compute]. }
  pose proof (tty_read_line demo_tty [] 10 demo_keys (demo_key 28) [7] demo_tty_inv ltac:(vm_compute; split; discriminate)
    Hk ltac:(vm_compute; reflexivity)) as H.
  change (edits [] (omap typed demo_keys)) with (Some [97; 99]) in H. exact H.
Defined.
