(* ===== verification/TtyVfs.v ===== *)
(** * The terminal as a file system

    The operation tables of [kernel/src/fs/ttyfs.c]: the terminal behind the interface of the virtual file system.  Its world is the line
    being typed, the words that will come from the keyboard, and what was sent to the terminal. *)

From S2P Require Import Prelude Keyboard TtyFs Vfs VfsProofs.

Definition VFS_STDERR : Z := 2.

Record tty_world := TtyWorld { tty_buf : ttyfs_fdata_t; tty_keys : list Z; tty_shown : list term_op }.

Notation tty_inode := (vfs_inode_t unit unit).
Notation tty_file := (vfs_file_t unit unit).

(** The root entry has an empty name. *)
Definition ttyfs_mksb (w : tty_world) : tty_world * option (tty_inode * list Z) :=
  (w, Some (Inode 0 (Some tt) VFS_NODE_CHARACTER (Some tt) None None, [])).
Definition ttyfs_open (this : tty_inode) (filep : tty_file) : Z := 0.
Definition ttyfs_close (this : tty_inode) (filep : tty_file) : Z := 0.
Definition ttyfs_lookup (w : tty_world) (this : tty_inode) (name : list Z) : option (tty_world * lookup_ret tty_inode) :=
  Some (w, NullDentry).

(** What the loop of [ttyfs_read] echoes. *)
Fixpoint echoed (t : ttyfs_fdata_t) (keys : list Z) : list term_op :=
  match keys with
  | [] => []
  | flags :: keys =>
    let d := kb_data flags in
    match keyecode_to_ascii (key_code d) (key_state_shift d) with
    | None => []
    | Some ch =>
      if negb (key_pressed d) || (ch =? 0) then echoed t keys
      else
        match _tty_echo_char t ch with
        | None => []
        | Some (t, ops) => ops ++ if ch =? 10 then [] else echoed t keys
        end
    end
  end.

(** [None] when the line is not complete, and on the panic of a full buffer. *)
Definition tty_fs_read (w : tty_world) (len : Z) : option (tty_world * (Z * list Z)) :=
  match ttyfs_read (tty_buf w) len (tty_keys w) with
  | TtyDone ret buffer t rest =>
    let shown := if TTY_BUFFER_SIZE <? len then [] else echoed (tty_buf w) (tty_keys w) in
    Some (TtyWorld t rest (tty_shown w ++ shown), (ret, buffer))
  | _ => None
  end.
Definition tty_fs_write (w : tty_world) (filep : tty_file) (buffer : list Z) : tty_world * Z :=
  let is_stderr := is_console filep && (f_handle filep =? VFS_STDERR) in
  let '(r, ops) := ttyfs_write is_stderr (Z.of_nat (length buffer)) (Some buffer) in
  (TtyWorld (tty_buf w) (tty_keys w) (tty_shown w ++ ops), r).

#[global] Instance ttyfs_ops : FsOps unit tty_world unit := {|
  fs_mksb _ w := ttyfs_mksb w;
  fs_lookup _ w i name := ttyfs_lookup w i name;
  fs_open _ w i f := Some (w, i, f, ttyfs_open i f);
  fs_close _ w i f := Some (w, i, f, ttyfs_close i f);
  fs_read _ w i f len := '(w, r) ← tty_fs_read w len; Some (w, i, f, r);
  fs_write _ w i f buffer := let '(w, r) := tty_fs_write w f buffer in Some (w, i, f, r);
  fs_lseek _ := None;
  fs_iterate _ := None;
|}.

#[global] Instance ttyfs_laws : FsLaws (F := unit) (W := tty_world) (P := unit).
Proof.
  constructor; cbn; try done.
  - intros _ w w' j n [= <- <- <-]. done.
  - by intros _ w i fd w' i' fd' r [= <- <- <- <-].
  - by intros _ w i fd w' i' fd' r [= <- <- <- <-].
  - intros _ w i fd n w' i' fd' r. destruct (tty_fs_read w n) as [[w1 r1]|]; [|done]. cbn. by intros [= <- <- <- <-].
  - intros _ w i fd b w' i' fd' r. destruct (tty_fs_write w fd b) as [w1 r1]. by intros [= <- <- <- <-].
Qed.

(** Typing does not lose keys: a read takes the words up to the end of the line from the front of the stream. *)
Lemma tty_wait_suffix keys : forall t len ret b t' rest,
  tty_wait_line t len keys = TtyDone ret b t' rest -> exists taken, keys = taken ++ rest.
Proof.
  induction keys as [|k keys IH]; intros t len ret b t' rest; cbn [tty_wait_line]; [done|].
  destruct (keyecode_to_ascii _ _) as [ch|]; [|done].
  assert (forall t, tty_wait_line t len keys = TtyDone ret b t' rest -> exists taken, k :: keys = taken ++ rest) as Hrec.
  { intros t0 (taken & ->)%IH. by exists (k :: taken). }
  destruct (negb _); [by apply Hrec|]. destruct (ch =? 0); [by apply Hrec|].
  destruct (_tty_echo_char t ch) as [[t1 ops]|]; [|done]. destruct (ch =? 10); [|by apply Hrec].
  destruct (tty_take_line t1 len) as [[r b1] t2]. intros [= <- <- <- <-]. by exists [k].
Qed.

Lemma tty_fs_read_suffix w len w' r : tty_fs_read w len = Some (w', r) -> exists taken, tty_keys w = taken ++ tty_keys w'.
Proof.
  unfold tty_fs_read, ttyfs_read. destruct (TTY_BUFFER_SIZE <? len).
  - intros [= <- <-]. by exists [].
  - destruct (tty_wait_line _ _ _) as [ret b t rest| | |] eqn:E; [|done..]. intros [= <- <-]. by eapply tty_wait_suffix.
Qed.
