(* ===== verification/Sync.v ===== *)
(** * Spin locks, mutexes and semaphores

    [kernel/src/base/atomic.c], [spinlock.c], [kmutex.c] and [ksemaphore.c].

    An instruction with a [lock] prefix, or a load or store of the counter, is one
    step.  Any number of threads run the acquire and release routines, interleaved
    in any order; the step relations below give each thread the program
    counter of the routine it is in.  [pause] and [sched_sleep(0)] between two
    attempts are where other threads run. *)

From S2P Require Import Prelude.

(** ** atomic.c: the counter after the operation, and its result *)

Definition atomic_inc (v : Z) : Z := i32 (v + 1).
Definition atomic_dec (v : Z) : Z := i32 (v - 1).
Definition atomic_get (v : Z) : Z := v.
Definition atomic_set (i v : Z) : Z := i.
Definition atomic_cmpxchg (v oldval newval : Z) : Z * Z :=
  (if v =? oldval then newval else v, v).

(** ** spinlock.c and kmutex.c *)

Definition spin_init : Z := 0.
Definition spin_try_acquire (lock : Z) : Z * bool :=
  let '(lock, oldval) := atomic_cmpxchg lock 0 1 in (lock, oldval =? 0).
Definition spin_release (lock : Z) : Z := atomic_set 0 lock.

(** A mutex is a spin lock whose acquire sleeps between attempts. *)
Definition kmutex_init : Z := spin_init.
Definition kmutex_release (m : Z) : Z := spin_release m.

(** Where a thread is: elsewhere, in the loop of [spin_acquire] (or
    [kmutex_acquire]), or between its acquire and its release. *)
Inductive spin_pc := Outside | Trying | Inside.
#[global] Instance spin_pc_dec : EqDecision spin_pc.
Proof. solve_decision. Defined.

Record spin_state := Spin { lock : Z; threads : list spin_pc }.

(** [spin_acquire] and [kmutex_acquire] try until they succeed. *)
Inductive spin_step : spin_state -> spin_state -> Prop :=
  | spin_enter l ts i :
      ts !! i = Some Outside -> spin_step (Spin l ts) (Spin l (<[i := Trying]> ts))
  | spin_try l ts i l' ok :
      ts !! i = Some Trying -> spin_try_acquire l = (l', ok) ->
      spin_step (Spin l ts) (Spin l' (<[i := if ok : bool then Inside else Trying]> ts))
  | spin_leave l ts i :
      ts !! i = Some Inside -> spin_step (Spin l ts) (Spin (spin_release l) (<[i := Outside]> ts)).

Definition inside (ts : list spin_pc) : nat := length (filter (eq Inside) ts).

(** ** ksemaphore.c *)

Record ksemaphore_t := Sem { counter : Z; max : Z; waiters : Z; wakeups : Z }.

Definition ksemapore_init (new mx : Z) : ksemaphore_t := Sem new mx 0 0.

(** What runs under the lock: one look at [wakeups] in the waiting loop of
    [ksemapore_acquire], with whether the caller got through; the entry of
    [ksemapore_acquire] up to the first look; [ksemapore_release]. *)
Definition ksemapore_acquire_wait (s : ksemaphore_t) : ksemaphore_t * bool :=
  if wakeups s =? 0 then (s, false)
  else (Sem (counter s) (max s) (i32 (waiters s - 1)) (i32 (wakeups s - 1)), true).
Definition ksemapore_acquire_enter (s : ksemaphore_t) : ksemaphore_t * bool :=
  if 0 <? counter s then (Sem (i32 (counter s - 1)) (max s) (waiters s) (wakeups s), true)
  else ksemapore_acquire_wait (Sem (counter s) (max s) (i32 (waiters s + 1)) (wakeups s)).
Definition ksemapore_release (s : ksemaphore_t) : ksemaphore_t :=
  let s := if counter s <? max s then Sem (i32 (counter s + 1)) (max s) (waiters s) (wakeups s) else s in
  if 0 <? waiters s then Sem (counter s) (max s) (waiters s) (i32 (wakeups s + 1)) else s.

Inductive sem_pc := SOutside | SWaiting | SInside.

Inductive sem_step : ksemaphore_t * list sem_pc -> ksemaphore_t * list sem_pc -> Prop :=
  | sem_enter s ts i s' ok :
      ts !! i = Some SOutside -> ksemapore_acquire_enter s = (s', ok) ->
      sem_step (s, ts) (s', <[i := if ok : bool then SInside else SWaiting]> ts)
  | sem_wait s ts i s' ok :
      ts !! i = Some SWaiting -> ksemapore_acquire_wait s = (s', ok) ->
      sem_step (s, ts) (s', <[i := if ok : bool then SInside else SWaiting]> ts)
  | sem_release s ts i :
      ts !! i = Some SInside -> sem_step (s, ts) (ksemapore_release s, <[i := SOutside]> ts).

(** ** Mutual exclusion *)

Lemma inside_insert ts i pc pc' :
  ts !! i = Some pc ->
  (inside (<[i := pc']> ts) + (if decide (pc = Inside) then 1 else 0) =
   inside ts + (if decide (pc' = Inside) then 1 else 0))%nat.
Proof.
  unfold inside. revert i. induction ts as [|p ts IH]; intros [|i] Hi; simpl in *; [done..| |].
  - injection Hi as ->. rewrite !filter_cons.
    destruct pc, pc'; repeat case_decide; simpl; try lia; congruence.
  - specialize (IH i Hi). rewrite !filter_cons. repeat case_decide; simpl in *; lia.
Qed.

Record spin_inv (s : spin_state) : Prop := {
  sp_lock : lock s = Z.of_nat (inside (threads s));
  sp_one : (inside (threads s) <= 1)%nat;
}.

Lemma spin_step_inv s s' : spin_step s s' -> spin_inv s -> spin_inv s'.
Proof.
  intros [l ts i Hi|l ts i l' ok Hi Ht|l ts i Hi] [Hl Ho]; cbn [lock threads] in *.
  - pose proof (inside_insert ts i _ Trying Hi) as Hn. simpl in Hn.
    constructor; cbn [lock threads]; lia.
  - unfold spin_try_acquire, atomic_cmpxchg in Ht. injection Ht as <- <-.
    pose proof (inside_insert ts i _ (if l =? 0 then Inside else Trying) Hi) as Hn.
    destruct (l =? 0) eqn:E; breflect; simpl in Hn; constructor; cbn [lock threads]; lia.
  - pose proof (inside_insert ts i _ Outside Hi) as Hn. simpl in Hn.
    unfold spin_release, atomic_set. constructor; cbn [lock threads]; lia.
Qed.

Lemma spin_run_inv s s' : rtc spin_step s s' -> spin_inv s -> spin_inv s'.
Proof. induction 1; eauto using spin_step_inv. Qed.

(** C27. Mutual exclusion of spin locks and mutexes.  From a lock just initialised
    and any number of threads outside, in every interleaving at most one thread is
    between its acquire and its release, the lock's counter says whether one is,
    and a thread in the acquire loop gets in at its next attempt exactly when none
    is. *)
Theorem spin_mutual_exclusion n l ts :
  rtc spin_step (Spin spin_init (replicate n Outside)) (Spin l ts) ->
  (forall i j, ts !! i = Some Inside -> ts !! j = Some Inside -> i = j) /\
  l = Z.of_nat (inside ts) /\
  (spin_try_acquire l = (1, true) <-> forall i, ts !! i <> Some Inside).
Proof.
  intros Hrun. assert (inside (replicate n Outside) = 0%nat) as H0.
  { clear. unfold inside. induction n as [|n IH]; [done|]. simpl. rewrite filter_cons. by case_decide. }
  destruct (spin_run_inv _ _ Hrun) as [Hl Ho]; [constructor; simpl; rewrite H0; [done|lia]|].
  cbn [lock threads] in *. split_and!; [|done|].
  - intros i j Hi Hj. destruct (decide (i = j)) as [|Hne]; [done|exfalso].
    pose proof (inside_insert ts i _ Outside Hi) as Hn1. simpl in Hn1.
    assert (<[i := Outside]> ts !! j = Some Inside) as Hj' by (by rewrite list_lookup_insert_ne).
    pose proof (inside_insert _ j _ Outside Hj') as Hn2. simpl in Hn2. lia.
  - unfold spin_try_acquire, atomic_cmpxchg. split.
    + intros Heq i Hi. pose proof (inside_insert ts i _ Outside Hi) as Hn. simpl in Hn.
      destruct (l =? 0) eqn:E; [breflect; lia|]. by injection Heq.
    + intros Hno. assert (inside ts = 0%nat) as Hz.
      { unfold inside. destruct (filter (eq Inside) ts) as [|p q] eqn:E; [done|exfalso].
        assert (p ∈ filter (eq Inside) ts) as Hp by (rewrite E; left).
        apply list_elem_of_filter in Hp as [<- [i Hi]%list_elem_of_lookup]. by apply (Hno i). }
      rewrite Hl, Hz. done.
Qed.

(** Two threads: one got in, the other tries. *)
Lemma spin_mutual_exclusion_witness :
  rtc spin_step (Spin spin_init (replicate 2 Outside)) (Spin 1 [Inside; Trying]) /\
  spin_try_acquire 1 <> (1, true).
Proof.
  assert (rtc spin_step (Spin spin_init (replicate 2 Outside)) (Spin 1 [Inside; Trying])) as Hrun.
  { eapply rtc_l; [apply (spin_enter _ _ 0); reflexivity|].
    eapply rtc_l; [apply (spin_try _ _ 0 1 true); reflexivity|].
    eapply rtc_l; [apply (spin_enter _ _ 1); reflexivity|]. apply rtc_refl. }
  split; [exact Hrun|].
  destruct (spin_mutual_exclusion 2 1 [Inside; Trying] Hrun) as (_ & _ & Hiff).
  intros H. exact (proj1 Hiff H 0%nat eq_refl).
Defined.

(** A semaphore of one permit lets two threads in: a release with a waiter both
    returns the permit and wakes the waiter. *)
Example semaphore_admits_two :
  rtc sem_step (ksemapore_init 1 1, [SOutside; SOutside; SOutside])
    (Sem 0 1 0 0, [SOutside; SInside; SInside]).
Proof.
  eapply rtc_l; [apply (sem_enter _ _ 0 (Sem 0 1 0 0) true); reflexivity|].
  eapply rtc_l; [apply (sem_enter _ _ 1 (Sem 0 1 1 0) false); reflexivity|].
  eapply rtc_l; [apply (sem_release _ _ 0); reflexivity|].
  eapply rtc_l; [apply (sem_enter _ _ 2 (Sem 0 1 1 1) true); reflexivity|].
  eapply rtc_l; [apply (sem_wait _ _ 1 (Sem 0 1 0 0) true); reflexivity|]. apply rtc_refl.
Qed.
