(* ===== verification/Sched.v ===== *)
(** * Scheduler and kernel events

    [kernel/src/proc/sched.c] and [kernel/src/proc/kevent.c]: the queue of active
    tasks, the choice of the next task, waiting for events and for time, the end of a
    task and its collection, and the publication of events to waiting tasks.

    Tasks and events are referred to by pointer ([0] is null) through the stores
    [tasks] and [events], since a subscription, the task that waits for it and the
    list of subscriptions share one event.  The queues are sequences changed by the
    operations of [DList].  Every function is atomic under its lock; a function that
    gives up the processor in the middle ([sched_wait_event], [kevent_subscribe])
    is two, before and after the switch.  [None] is the use of a null or invalid
    pointer, or a panic.  The creation of tasks ([task.c]), [sched_execve],
    [sched_fork] and [sched_spawn] are in [Proc]. *)

From S2P Require Import Prelude DList.

(** ** State *)

Inductive task_state_t :=
  | TASK_READY | TASK_RUNNING | TASK_WAITING | TASK_STOPPED | TASK_ZOMBIE | TASK_DEAD.
Inductive kevent_type_t := EV_UNKNOWN | EV_KEYBOARD | EV_SLEEP | EV_MAX.

#[global] Instance task_state_dec : EqDecision task_state_t.
Proof. solve_decision. Defined.
#[global] Instance kevent_type_dec : EqDecision kevent_type_t.
Proof. solve_decision. Defined.

Definition TASK_ID_EMPTY : Z := 2 ^ 64 - 1.
Definition EV_DATA_NULL : Z := 0.
Definition TASK_STACK_SIZE_32KB : Z := 32 * 1024.

Record kevent_t := Event {
  publisher : Z;
  subscriber : Z;
  type : kevent_type_t;
  data : Z;
  timestamp : Z;
}.

(** The stacks of a task: the kernel stack, and the one that replaces it after
    [execve]. *)
Record stacks_t := Stacks {
  kstack : Z; klimit : Z; kstack_ptr : Z;
  rstack : Z; rlimit : Z; rstack_ptr : Z;
  old_kstack_ptr : Z;
}.

Record task_t := Task {
  tgid : Z;
  tid : Z;
  state : task_state_t;
  wakeup_event : Z;
  exitcode : Z;
  errno : Z;
  page_dir_pa : Z;
  stacks : stacks_t;
}.

Record sched_t := Sched {
  tasks : gmap Z task_t;
  events : gmap Z kevent_t;
  active_tasks : list Z;
  cleanup_tasks : list Z;
  running_tasks : gmap Z Z;      (* by processor; absent is null *)
  idle_tasks : gmap Z Z;
  sched_count : gmap Z Z;
  sub_list : list Z;
  pub_list : list Z;
  cpu_kstack : gmap Z Z;
  millis : Z;                    (* what [tsc_get_millis] reads *)
}.

Definition with_tasks (f : gmap Z task_t -> gmap Z task_t) (s : sched_t) : sched_t :=
  Sched (f (tasks s)) (events s) (active_tasks s) (cleanup_tasks s) (running_tasks s) (idle_tasks s)
    (sched_count s) (sub_list s) (pub_list s) (cpu_kstack s) (millis s).
Definition with_events (f : gmap Z kevent_t -> gmap Z kevent_t) (s : sched_t) : sched_t :=
  Sched (tasks s) (f (events s)) (active_tasks s) (cleanup_tasks s) (running_tasks s) (idle_tasks s)
    (sched_count s) (sub_list s) (pub_list s) (cpu_kstack s) (millis s).
Definition with_active (f : list Z -> list Z) (s : sched_t) : sched_t :=
  Sched (tasks s) (events s) (f (active_tasks s)) (cleanup_tasks s) (running_tasks s) (idle_tasks s)
    (sched_count s) (sub_list s) (pub_list s) (cpu_kstack s) (millis s).
Definition with_cleanup (f : list Z -> list Z) (s : sched_t) : sched_t :=
  Sched (tasks s) (events s) (active_tasks s) (f (cleanup_tasks s)) (running_tasks s) (idle_tasks s)
    (sched_count s) (sub_list s) (pub_list s) (cpu_kstack s) (millis s).
Definition with_running (f : gmap Z Z -> gmap Z Z) (s : sched_t) : sched_t :=
  Sched (tasks s) (events s) (active_tasks s) (cleanup_tasks s) (f (running_tasks s)) (idle_tasks s)
    (sched_count s) (sub_list s) (pub_list s) (cpu_kstack s) (millis s).
Definition with_count (f : gmap Z Z -> gmap Z Z) (s : sched_t) : sched_t :=
  Sched (tasks s) (events s) (active_tasks s) (cleanup_tasks s) (running_tasks s) (idle_tasks s)
    (f (sched_count s)) (sub_list s) (pub_list s) (cpu_kstack s) (millis s).
Definition with_sub (f : list Z -> list Z) (s : sched_t) : sched_t :=
  Sched (tasks s) (events s) (active_tasks s) (cleanup_tasks s) (running_tasks s) (idle_tasks s)
    (sched_count s) (f (sub_list s)) (pub_list s) (cpu_kstack s) (millis s).
Definition with_pub (f : list Z -> list Z) (s : sched_t) : sched_t :=
  Sched (tasks s) (events s) (active_tasks s) (cleanup_tasks s) (running_tasks s) (idle_tasks s)
    (sched_count s) (sub_list s) (f (pub_list s)) (cpu_kstack s) (millis s).
Definition with_kstack (f : gmap Z Z -> gmap Z Z) (s : sched_t) : sched_t :=
  Sched (tasks s) (events s) (active_tasks s) (cleanup_tasks s) (running_tasks s) (idle_tasks s)
    (sched_count s) (sub_list s) (pub_list s) (f (cpu_kstack s)) (millis s).

Definition set_state (st : task_state_t) (t : task_t) : task_t :=
  Task (tgid t) (tid t) st (wakeup_event t) (exitcode t) (errno t) (page_dir_pa t) (stacks t).
Definition set_wakeup (e : Z) (t : task_t) : task_t :=
  Task (tgid t) (tid t) (state t) e (exitcode t) (errno t) (page_dir_pa t) (stacks t).
Definition set_exitcode (c : Z) (t : task_t) : task_t :=
  Task (tgid t) (tid t) (state t) (wakeup_event t) c (errno t) (page_dir_pa t) (stacks t).
Definition set_errno (c : Z) (t : task_t) : task_t :=
  Task (tgid t) (tid t) (state t) (wakeup_event t) (exitcode t) c (page_dir_pa t) (stacks t).
Definition set_stacks (st : stacks_t) (t : task_t) : task_t :=
  Task (tgid t) (tid t) (state t) (wakeup_event t) (exitcode t) (errno t) (page_dir_pa t) st.
Definition set_data (d : Z) (e : kevent_t) : kevent_t :=
  Event (publisher e) (subscriber e) (type e) d (timestamp e).
Definition set_timer (ty : kevent_type_t) (ts : Z) (e : kevent_t) : kevent_t :=
  Event (publisher e) (subscriber e) ty (data e) ts.

(** A store through a task or event pointer. *)
Definition upd_task (p : Z) (f : task_t -> task_t) (s : sched_t) : option sched_t :=
  t ← tasks s !! p; Some (with_tasks <[p := f t]> s).
Definition upd_event (p : Z) (f : kevent_t -> kevent_t) (s : sched_t) : option sched_t :=
  e ← events s !! p; Some (with_events <[p := f e]> s).

(** ** Queues *)

Definition __active_task_fifo_push (p : Z) (s : sched_t) : sched_t := with_active (l_add_prev p) s.

Definition __active_task_fifo_pop (s : sched_t) : sched_t * option Z :=
  match l_remove_next (active_tasks s) with
  | None => (s, None)
  | Some (p, l) => (with_active (fun _ => l) s, Some p)
  end.

Definition __active_task_add_to_cleanup (p : Z) (s : sched_t) : sched_t := with_cleanup (l_add_prev p) s.

(** The loop of [__active_task_next_available]: the first task that is ready or
    whose sleep is over. *)
Fixpoint find_available (s : sched_t) (l : list Z) : option (sched_t * option Z) :=
  match l with
  | [] => Some (s, None)
  | p :: l =>
    t ← tasks s !! p;
    match state t with
    | TASK_READY => Some (s, Some p)
    | TASK_WAITING =>
      e ← events s !! wakeup_event t;
      if bool_decide (type e = EV_SLEEP) && (0 <? timestamp e) && (timestamp e <=? millis s) then
        s ← upd_event (wakeup_event t) (set_timer EV_UNKNOWN 0) s;
        Some (s, Some p)
      else find_available s l
    | _ => find_available s l
    end
  end.
Definition __active_task_next_available (s : sched_t) : option (sched_t * option Z) :=
  '(s, r) ← find_available s (active_tasks s);
  match r with
  | None => Some (s, None)
  | Some p => Some (with_active (l_remove_entry p) s, Some p)
  end.

(** ** Events *)

(** The loop of [sched_resume_event] over the active tasks. *)
Fixpoint resume_waiters (l : list Z) (ty : kevent_type_t) (d : Z) (s : sched_t) (is_dispatch : bool) :
    option (sched_t * bool) :=
  match l with
  | [] => Some (s, is_dispatch)
  | p :: l =>
    t ← tasks s !! p;
    if bool_decide (state t = TASK_WAITING) && ctrue (wakeup_event t) then
      e ← events s !! wakeup_event t;
      if bool_decide (type e = ty) then
        s ← upd_event (wakeup_event t) (set_data d) s;
        s ← upd_task p (set_state TASK_READY) s;
        resume_waiters l ty d s true
      else resume_waiters l ty d s is_dispatch
    else resume_waiters l ty d s is_dispatch
  end.
Definition sched_resume_event (p : Z) (s : sched_t) : option (sched_t * bool) :=
  e ← events s !! p;
  resume_waiters (active_tasks s) (type e) (data e) s false.

Definition kevent_init (s : sched_t) : sched_t := with_pub (fun _ => []) (with_sub (fun _ => []) s).

Definition _publish_pop (s : sched_t) : option (Z * sched_t) :=
  '(entry, rest) ← l_remove_next (pub_list s); Some (entry, with_pub (fun _ => rest) s).

(** The first subscription of a type. *)
Fixpoint find_subscription (s : sched_t) (l : list Z) (ty : kevent_type_t) : option (option Z) :=
  match l with
  | [] => Some None
  | p :: l =>
    e ← events s !! p;
    if bool_decide (type e = ty) then Some (Some p) else find_subscription s l ty
  end.

(** The body of the loop of [kevent_dispatch], after the event was popped; then the
    loop: [n] published events are left. *)
Definition dispatch_event (pub_event : Z) (s : sched_t) : option sched_t :=
  e ← events s !! pub_event;
  sub ← find_subscription s (sub_list s) (type e);
  s ← match sub with
      | Some sub_event =>
        '(s, ok) ← sched_resume_event pub_event s;
        Some (if ok : bool then with_sub (l_remove_entry sub_event) s else s)
      | None => Some s
      end;
  Some (with_events (delete pub_event) s).
Fixpoint dispatch_loop (n : nat) (s : sched_t) : option sched_t :=
  match n with
  | O => Some s
  | S n =>
    match _publish_pop s with
    | None => Some s
    | Some (pub_event, s) => s ← dispatch_event pub_event s; dispatch_loop n s
    end
  end.
Definition kevent_dispatch (s : sched_t) : option sched_t := dispatch_loop (length (pub_list s)) s.

(** ** Switching *)

(** What is handed to [__switch_to]. *)
Record switch_t := Switch { to_task : Z; from_task : option Z; cr3 : Z; is_replace : bool }.

(** The stack that [execve] prepared becomes the kernel stack. *)
Definition replace_stacks (st : stacks_t) : stacks_t :=
  Stacks (rstack st) (rlimit st) (rstack_ptr st) 0 0 0 (kstack_ptr st).

(** The task to run and the queue, after [kevent_dispatch]: [curr] is the running
    task of the processor, if any. *)
Definition choose_next (cpu : Z) (s : sched_t) : option (sched_t * Z) :=
  let curr := running_tasks s !! cpu in
  '(s, curr_is_running) ←
    match curr with
    | Some c =>
      if bool_decide (idle_tasks s !! cpu = Some c) then Some (s, false) else
      t ← tasks s !! c;
      if bool_decide (state t = TASK_RUNNING) then Some (s, true)
      else Some (__active_task_fifo_push c s, false)
    | None => Some (s, false)
    end;
  '(s, next) ← __active_task_next_available s;
  match next, curr with
  | Some n, Some c =>
    if curr_is_running : bool then
      s ← upd_task c (set_state TASK_READY) s;
      Some (__active_task_fifo_push c s, n)
    else Some (s, n)
  | Some n, None => Some (s, n)
  | None, Some c =>
    if curr_is_running : bool then Some (s, c) else i ← idle_tasks s !! cpu; Some (s, i)
  | None, None => i ← idle_tasks s !! cpu; Some (s, i)
  end.

(** From [next->state = TASK_RUNNING] on. *)
Definition finish_switch (cpu : Z) (curr : option Z) (next : Z) (s : sched_t) : option (sched_t * switch_t) :=
  s ← upd_task next (set_state TASK_RUNNING) s;
  let s := with_running <[cpu := next]> s in
  '(s, replace) ←
    match curr with
    | Some c =>
      t ← tasks s !! c;
      let st := if ctrue (rstack (stacks t)) then replace_stacks (stacks t) else stacks t in
      s ← upd_task c (set_stacks st) s;
      Some (s, ctrue (old_kstack_ptr st))
    | None => Some (s, false)
    end;
  t ← tasks s !! next;
  let s := with_kstack <[cpu := u64 (klimit (stacks t) + TASK_STACK_SIZE_32KB)]> s in
  Some (s, Switch next curr (page_dir_pa t) replace).

Definition sched_again (cpu : Z) (s : sched_t) : option (sched_t * switch_t) :=
  let s := with_count <[cpu := u64 (default 0 (sched_count s !! cpu) + 1)]> s in
  s ← kevent_dispatch s;
  '(s', next) ← choose_next cpu s;
  finish_switch cpu (running_tasks s !! cpu) next s'.

(** ** Operations of the running task *)

Definition sched_get_task (cpu : Z) (s : sched_t) : option Z := running_tasks s !! cpu.
Definition sched_get_tid (cpu : Z) (s : sched_t) : option Z :=
  p ← sched_get_task cpu s; t ← tasks s !! p; Some (tid t).
Definition sched_get_errno (cpu : Z) (s : sched_t) : option Z :=
  p ← sched_get_task cpu s; t ← tasks s !! p; Some (errno t).
Definition sched_set_errno (cpu e : Z) (s : sched_t) : option sched_t :=
  p ← sched_get_task cpu s; upd_task p (set_errno e) s.

Definition sched_add (p : Z) (s : sched_t) : sched_t := __active_task_fifo_push p s.

(** [sched_wait_event] up to the call of [sched_again], and after it returned. *)
Definition sched_wait_event_begin (cpu in_event : Z) (s : sched_t) : option sched_t :=
  p ← sched_get_task cpu s;
  upd_task p (fun t => set_wakeup in_event (set_state TASK_WAITING t)) s.
Definition sched_wait_event_end (p in_event : Z) (s : sched_t) : option sched_t :=
  t ← tasks s !! p;
  e ← events s !! wakeup_event t;
  s ← upd_event in_event (set_data (data e)) s;
  upd_task p (set_wakeup 0) s.

(** [kevent_subscribe]: [event] is what [kzalloc] returned ([None] for null), [nanos]
    the time.  The second half returns the event's data and frees it. *)
Definition kevent_subscribe_begin (cpu : Z) (event : option Z) (ty : kevent_type_t) (nanos : Z)
    (s : sched_t) : option sched_t :=
  match event with
  | None => Some s
  | Some e =>
    tid ← sched_get_tid cpu s;
    let s := with_events <[e := Event TASK_ID_EMPTY tid ty EV_DATA_NULL nanos]> s in
    sched_wait_event_begin cpu e (with_sub (l_add_prev e) s)
  end.
Definition kevent_subscribe_end (p e : Z) (s : sched_t) : option (sched_t * Z) :=
  s ← sched_wait_event_end p e s;
  ev ← events s !! e;
  Some (with_events (delete e) s, data ev).

Definition kevent_publish (cpu : Z) (event : option Z) (ty : kevent_type_t) (d nanos : Z) (s : sched_t) :
    option sched_t :=
  match event with
  | None => Some s
  | Some e =>
    tid ← sched_get_tid cpu s;
    let s := with_events <[e := Event tid TASK_ID_EMPTY ty d nanos]> s in
    kevent_dispatch (with_pub (l_add_prev e) s)
  end.

(** [sched_sleep] of a task, up to the call of [sched_again]. *)
Definition sched_sleep_begin (p ms : Z) (s : sched_t) : option sched_t :=
  t ← tasks s !! p;
  s ← upd_event (wakeup_event t) (set_timer EV_SLEEP (u64 (millis s + ms))) s;
  upd_task p (set_state TASK_WAITING) s.

(** [__sched_kernel_end] without the release of the task's memory. *)
Definition __sched_kernel_end (cpu code : Z) (s : sched_t) : option (sched_t * switch_t) :=
  p ← running_tasks s !! cpu;
  s ← upd_task p (fun t => set_state TASK_ZOMBIE (set_exitcode code t)) s;
  let s := __active_task_add_to_cleanup p s in
  sched_again cpu (with_running (delete cpu) s).
Definition sched_exit (cpu code : Z) (s : sched_t) : option (sched_t * switch_t) :=
  __sched_kernel_end cpu code s.

(** One turn of the loop of [sched_wait]: the exit code of the child, once it is
    among the tasks to clean up; [task_free] frees it. *)
Fixpoint find_zombie (s : sched_t) (l : list Z) (group child : Z) : option (option (Z * Z)) :=
  match l with
  | [] => Some None
  | p :: l =>
    t ← tasks s !! p;
    if negb (bool_decide (state t = TASK_ZOMBIE)) then None
    else if (tgid t =? group) && (tid t =? child) then Some (Some (p, exitcode t))
    else find_zombie s l group child
  end.
Definition sched_wait_turn (p child : Z) (s : sched_t) : option (sched_t * option Z) :=
  t ← tasks s !! p;
  r ← find_zombie s (cleanup_tasks s) (tgid t) child;
  match r with
  | Some (z, code) =>
    Some (with_tasks (delete z) (with_cleanup (l_remove_entry z) s), Some code)
  | None => Some (s, None)
  end.

(** [_get_exec_name]: what follows the last slash. *)
Fixpoint _get_exec_name (path name : list Z) : list Z :=
  match path with
  | [] => name
  | c :: path => _get_exec_name path (if c =? 47 then path else name)
  end.
