(* ===== verification/SchedProofs.v ===== *)
(** * Scheduler: correctness

    The invariant of tasks, queues and events, the correctness of [sched_again], the
    progress of a ready task and the delivery of events. *)

From S2P Require Import Prelude DList Sched.

(** ** Invariant *)

Definition waits_for (s : sched_t) (t : task_t) : Prop :=
  state t = TASK_WAITING -> is_Some (events s !! wakeup_event t) /\ wakeup_event t ∉ pub_list s.

(** Queued and running tasks are different tasks; the events of published,
    subscribed and waited-for pointers exist, and nobody waits for a published one. *)
Record sched_inv (s : sched_t) : Prop := {
  si_active : forall p, p ∈ active_tasks s -> is_Some (tasks s !! p);
  si_queue : NoDup (active_tasks s);
  si_run : forall cpu c, running_tasks s !! cpu = Some c -> is_Some (tasks s !! c) /\ c ∉ active_tasks s;
  si_once : forall cpu cpu' c,
    running_tasks s !! cpu = Some c -> running_tasks s !! cpu' = Some c -> cpu = cpu';
  si_idle : forall cpu i, idle_tasks s !! cpu = Some i -> is_Some (tasks s !! i) /\ i ∉ active_tasks s;
  si_idle_once : forall cpu cpu' i,
    idle_tasks s !! cpu = Some i -> idle_tasks s !! cpu' = Some i -> cpu = cpu';
  si_own_idle : forall cpu cpu' i,
    idle_tasks s !! cpu = Some i -> running_tasks s !! cpu' = Some i -> cpu = cpu';
  si_wait : forall p t, tasks s !! p = Some t -> waits_for s t;
  si_pub : NoDup (pub_list s) /\ forall e, e ∈ pub_list s -> is_Some (events s !! e);
  si_sub : forall e, e ∈ sub_list s -> is_Some (events s !! e) /\ e ∉ pub_list s;
}.

(** What the delivery of events does: tasks that waited become ready, published
    events are gone. *)
Definition woke (s s' : sched_t) (p : Z) : Prop :=
  exists t, tasks s !! p = Some t /\ state t = TASK_WAITING /\
    tasks s' !! p = Some (set_state TASK_READY t).

Record woken (s s' : sched_t) : Prop := {
  w_active : active_tasks s' = active_tasks s;
  w_running : running_tasks s' = running_tasks s;
  w_idle : idle_tasks s' = idle_tasks s;
  w_millis : millis s' = millis s;
  w_tasks : forall p, tasks s' !! p = tasks s !! p \/ woke s s' p;
  w_sub : forall e, e ∈ sub_list s' -> e ∈ sub_list s;
  w_pub : forall e, e ∈ pub_list s' -> e ∈ pub_list s;
  w_events : forall e, e ∉ pub_list s \/ e ∈ pub_list s' ->
    is_Some (events s !! e) -> is_Some (events s' !! e);
}.

Lemma woken_refl s : woken s s.
Proof. constructor; auto. Qed.

Lemma woken_trans s1 s2 s3 : woken s1 s2 -> woken s2 s3 -> woken s1 s3.
Proof.
  intros [A1 B1 C1 D1 E1 F1 G1 H1] [A2 B2 C2 D2 E2 F2 G2 H2].
  constructor; try congruence; auto.
  - intros p. destruct (E1 p) as [Hp|(t & Ht & Hs & Ht')], (E2 p) as [Hq|(u & Hu & Hs' & Hu')].
    + left. congruence.
    + right. exists u. split_and!; [congruence|done|congruence].
    + right. exists t. split_and!; [done|done|congruence].
    + rewrite Ht' in Hu. injection Hu as <-. done.
  - intros e He Hs. apply H2; [destruct He; auto|]. apply H1; [|done]. destruct He; auto.
Qed.

Lemma woken_valid s s' p : woken s s' -> is_Some (tasks s !! p) -> is_Some (tasks s' !! p).
Proof. intros Hw Hp. destruct (w_tasks _ _ Hw p) as [->|(t & _ & _ & ->)]; [done|by eexists]. Qed.

Lemma woken_waits s s' p t :
  woken s s' -> tasks s' !! p = Some t -> state t = TASK_WAITING -> tasks s !! p = Some t.
Proof.
  intros Hw Ht Hs. destruct (w_tasks _ _ Hw p) as [<-|(u & _ & _ & Hu)]; [done|].
  rewrite Ht in Hu. injection Hu as ->. done.
Qed.

Lemma woken_inv s s' : woken s s' -> NoDup (pub_list s') -> sched_inv s -> sched_inv s'.
Proof.
  intros Hw Hnd []. constructor.
  - intros p. rewrite (w_active _ _ Hw). intros Hp. eapply woken_valid; eauto.
  - by rewrite (w_active _ _ Hw).
  - intros cpu c. rewrite (w_running _ _ Hw), (w_active _ _ Hw). intros Hc.
    destruct (si_run0 _ _ Hc). split; [eapply woken_valid; eauto|done].
  - rewrite (w_running _ _ Hw). done.
  - intros cpu c. rewrite (w_idle _ _ Hw), (w_active _ _ Hw). intros Hc.
    destruct (si_idle0 _ _ Hc). split; [eapply woken_valid; eauto|done].
  - rewrite (w_idle _ _ Hw). done.
  - rewrite (w_idle _ _ Hw), (w_running _ _ Hw). done.
  - intros p t Ht Hs. pose proof (woken_waits _ _ _ _ Hw Ht Hs) as Ht0.
    destruct (si_wait0 _ _ Ht0 Hs) as [He Hn]. split.
    + apply (w_events _ _ Hw); auto.
    + intros Hin. apply Hn, (w_pub _ _ Hw), Hin.
  - split; [done|]. intros e He. apply (w_events _ _ Hw); [auto|].
    apply si_pub0, (w_pub _ _ Hw), He.
  - intros e He. destruct (si_sub0 e (w_sub _ _ Hw _ He)) as [Hs Hn]. split.
    + apply (w_events _ _ Hw); auto.
    + intros Hin. apply Hn, (w_pub _ _ Hw), Hin.
Qed.

(** ** Delivery of events *)

(** The tasks that [sched_resume_event] wakes. *)
Definition wakes (s : sched_t) (ty : kevent_type_t) (p : Z) : Prop :=
  exists t e, tasks s !! p = Some t /\ state t = TASK_WAITING /\ wakeup_event t <> 0 /\
    events s !! wakeup_event t = Some e /\ type e = ty.

(** Only states of waiting tasks and data of events change. *)
Record resumed (d : Z) (s s' : sched_t) : Prop := {
  r_woken : woken s s';
  r_sub : sub_list s' = sub_list s;
  r_pub : pub_list s' = pub_list s;
  r_events : forall e ev, events s !! e = Some ev ->
    events s' !! e = Some ev \/ events s' !! e = Some (set_data d ev);
}.

Lemma resumed_trans d s1 s2 s3 : resumed d s1 s2 -> resumed d s2 s3 -> resumed d s1 s3.
Proof.
  intros [A1 B1 C1 D1] [A2 B2 C2 D2]. constructor; try congruence.
  - by eapply woken_trans.
  - intros e ev He. destruct (D1 _ _ He) as [H|H], (D2 _ _ H) as [H'|H']; auto.
Qed.

Lemma resumed_refl d s : resumed d s s.
Proof. constructor; auto using woken_refl. Qed.

(** One woken task. *)
Lemma resume_one d s p t e :
  tasks s !! p = Some t -> state t = TASK_WAITING -> events s !! wakeup_event t = Some e ->
  exists s', (upd_event (wakeup_event t) (set_data d) s ≫= upd_task p (set_state TASK_READY)) = Some s' /\
    resumed d s s' /\ tasks s' !! p = Some (set_state TASK_READY t) /\
    events s' !! wakeup_event t = Some (set_data d e) /\
    (forall q, q <> p -> tasks s' !! q = tasks s !! q).
Proof.
  intros Ht Hs He. unfold upd_event, upd_task. rewrite He. simpl. rewrite Ht. simpl.
  eexists. split; [reflexivity|]. split_and!.
  - constructor; cbn; try done.
    + constructor; cbn; auto.
      * intros q. destruct (decide (q = p)) as [->|Hne].
        -- right. exists t. split_and!; [done..|]. cbn. apply lookup_insert_eq.
        -- left. by rewrite lookup_insert_ne.
      * intros q _ Hq. rewrite lookup_insert. by case_decide.
    + intros q ev Hq. destruct (decide (q = wakeup_event t)) as [->|Hne].
      * right. rewrite lookup_insert_eq. congruence.
      * left. by rewrite lookup_insert_ne.
  - apply lookup_insert_eq.
  - apply lookup_insert_eq.
  - intros q Hq. cbn. by rewrite lookup_insert_ne.
Qed.

(** A woken task is ready and finds the data in the event it waited for. *)
Definition delivered (d : Z) (s s' : sched_t) (p : Z) : Prop :=
  exists t ev, tasks s !! p = Some t /\ tasks s' !! p = Some (set_state TASK_READY t) /\
    events s' !! wakeup_event t = Some ev /\ data ev = d.

Definition waiters_ok (s : sched_t) : Prop :=
  forall p t, tasks s !! p = Some t -> state t = TASK_WAITING -> is_Some (events s !! wakeup_event t).

Lemma resumed_waiters d s s' : resumed d s s' -> waiters_ok s -> waiters_ok s'.
Proof.
  intros Hr Hok p t Ht Hs. pose proof (woken_waits _ _ _ _ (r_woken _ _ _ Hr) Ht Hs) as Ht0.
  destruct (Hok p t Ht0 Hs) as [ev Hev]. destruct (r_events _ _ _ Hr _ _ Hev) as [->| ->]; by eexists.
Qed.

Lemma delivered_later d s s1 s2 p : delivered d s s1 p -> resumed d s1 s2 -> delivered d s s2 p.
Proof.
  intros (t & ev & Ht & Ht1 & Hev & Hd) Hr.
  assert (tasks s2 !! p = Some (set_state TASK_READY t)) as Ht2.
  { destruct (w_tasks _ _ (r_woken _ _ _ Hr) p) as [->|(u & Hu & Hs & _)]; [done|].
    rewrite Ht1 in Hu. injection Hu as <-. discriminate Hs. }
  destruct (r_events _ _ _ Hr _ _ Hev) as [He|He]; by eexists t, _.
Qed.

Lemma wakes_other d s s' ty p :
  resumed d s s' -> tasks s' !! p = tasks s !! p -> wakes s ty p -> wakes s' ty p.
Proof.
  intros Hr Hp (t & e & Ht & Hs & H0 & He & Hty). exists t. rewrite Hp.
  destruct (r_events _ _ _ Hr _ _ He) as [H|H]; by eexists.
Qed.

Lemma delivered_same d s s1 s2 p :
  tasks s1 !! p = tasks s !! p -> delivered d s1 s2 p -> delivered d s s2 p.
Proof. intros Hp (t & ev & Ht & H). exists t, ev. by rewrite <- Hp. Qed.

Lemma resume_spec l ty d : forall s b,
  NoDup l -> (forall p, p ∈ l -> is_Some (tasks s !! p)) -> waiters_ok s ->
  exists s' b', resume_waiters l ty d s b = Some (s', b') /\ resumed d s s' /\
    (forall p, p ∈ l -> wakes s ty p -> delivered d s s' p) /\
    (b' = true <-> b = true \/ exists p, p ∈ l /\ wakes s ty p).
Proof.
  induction l as [|p l IH]; intros s b Hnd Hl Hok; cbn [resume_waiters].
  { exists s, b. split_and!; [done|apply resumed_refl|intros p Hp; by apply not_elem_of_nil in Hp|].
    split; [auto|]. intros [?|(p & Hp & _)]; [done|]. by apply not_elem_of_nil in Hp. }
  apply NoDup_cons in Hnd as [Hp Hnd].
  destruct (Hl p ltac:(left)) as [t Ht]. rewrite Ht. simpl.
  assert (forall q, q ∈ l -> is_Some (tasks s !! q)) as Hl' by (intros q Hq; apply Hl; by right).
  assert (~ wakes s ty p ->
    exists s' b', resume_waiters l ty d s b = Some (s', b') /\ resumed d s s' /\
      (forall q, q ∈ p :: l -> wakes s ty q -> delivered d s s' q) /\
      (b' = true <-> b = true \/ exists q, q ∈ p :: l /\ wakes s ty q)) as Hskip.
  { intros Hn. destruct (IH s b Hnd Hl' Hok) as (s' & b' & -> & Hr & Hd & Hb).
    exists s', b'. split_and!; [done..| |].
    - intros q [->|Hq]%elem_of_cons Hw; auto. done.
    - rewrite Hb. setoid_rewrite elem_of_cons. naive_solver. }
  destruct (bool_decide (state t = TASK_WAITING) && ctrue (wakeup_event t)) eqn:Ec.
  2:{ apply Hskip. intros (u & e & Hu & Hs & H0 & _). rewrite Ht in Hu. injection Hu as <-.
      rewrite bool_decide_true in Ec by done. apply negb_false_iff, Z.eqb_eq in Ec. done. }
  apply andb_prop in Ec as [Hs%bool_decide_eq_true H0%negb_true_iff%Z.eqb_neq].
  destruct (Hok p t Ht Hs) as [e He]. rewrite He. simpl.
  case_bool_decide as Hty.
  2:{ apply Hskip. intros (u & e' & Hu & _ & _ & He' & Hty'). congruence. }
  destruct (resume_one d s p t e Ht Hs He) as (s1 & E1 & Hr1 & Htp & Hev & Hoth).
  assert (forall q, q ∈ l -> q <> p) as Hne by (intros q Hq ->; done).
  destruct (IH s1 true Hnd) as (s' & b' & E2 & Hr & Hd & Hb).
  { intros q Hq. rewrite Hoth by auto. auto. }
  { by eapply resumed_waiters. }
  assert (b' = true) as -> by (apply Hb; auto).
  exists s', true. split_and!.
  - destruct (upd_event _ _ s) as [s0|]; [|done]. simpl in *.
    destruct (upd_task _ _ s0) as [s3|]; [|done]. simpl. by simplify_eq.
  - by eapply resumed_trans.
  - intros q [->|Hq]%elem_of_cons Hw.
    + eapply delivered_later; [|done]. exists t, (set_data d e). done.
    + apply (delivered_same d s s1); [by apply Hoth, Hne|]. apply Hd; [done|].
      apply (wakes_other d s); [done|by apply Hoth, Hne|done].
  - split; [|done]. intros _. right. exists p. split; [left|]. exists t, e. done.
Qed.

Lemma subscription_spec s l ty :
  (forall e, e ∈ l -> is_Some (events s !! e)) ->
  exists r, find_subscription s l ty = Some r /\
    match r with
    | Some p => p ∈ l /\ exists e, events s !! p = Some e /\ type e = ty
    | None => forall p e, p ∈ l -> events s !! p = Some e -> type e <> ty
    end.
Proof.
  induction l as [|p l IH]; intros Hl; cbn [find_subscription].
  { exists None. split; [done|]. intros p e Hp. by apply not_elem_of_nil in Hp. }
  destruct (Hl p ltac:(left)) as [e He]. rewrite He. simpl. case_bool_decide as Hty.
  { exists (Some p). split_and!; [done|left|by eexists]. }
  destruct IH as (r & -> & Hr); [intros q Hq; apply Hl; by right|]. exists r. split; [done|].
  destruct r as [q|].
  - destruct Hr as [Hq Hr]. split; [by right|done].
  - intros q e' [->|Hq]%elem_of_cons He'; [congruence|by eapply Hr].
Qed.

Lemma remove_entry_subset e l x : x ∈ l_remove_entry e l -> x ∈ l.
Proof.
  induction l as [|y l IH]; [done|]. simpl. destruct (y =? e); [by right|].
  rewrite !elem_of_cons. naive_solver.
Qed.

(** Has a subscription of the type. *)
Definition subscribed (s : sched_t) (ty : kevent_type_t) : Prop :=
  exists p e, p ∈ sub_list s /\ events s !! p = Some e /\ type e = ty.

Lemma dispatch_event_spec s pe rest e :
  sched_inv s -> pub_list s = pe :: rest -> events s !! pe = Some e ->
  exists s', dispatch_event pe (with_pub (fun _ => rest) s) = Some s' /\
    woken s s' /\ pub_list s' = rest /\ events s' !! pe = None /\
    (subscribed s (type e) -> forall p, p ∈ active_tasks s -> wakes s (type e) p ->
      delivered (data e) s s' p) /\
    (~ subscribed s (type e) -> tasks s' = tasks s /\ sub_list s' = sub_list s).
Proof.
  intros Hinv Hpub He. destruct Hinv as [Hact Hq Hrun _ _ _ _ Hwait [Hnd Hpe] Hsub].
  rewrite Hpub in *. apply NoDup_cons in Hnd as [Hnin Hnd].
  unfold dispatch_event. cbn [with_pub events sub_list]. rewrite He. simpl.
  set (s0 := with_pub _ s).
  destruct (subscription_spec s0 (sub_list s) (type e)) as (r & -> & Hr); [intros q Hq'; by apply Hsub|].
  simpl. destruct r as [sub|].
  - unfold sched_resume_event. cbn [s0 with_pub events active_tasks]. rewrite He. simpl.
    destruct (resume_spec (active_tasks s) (type e) (data e) s0 false)
      as (s1 & ok & -> & Hres & Hdel & Hok); [done|done| |].
    { intros p t Ht Hs. by apply (Hwait p t Ht Hs). }
    simpl. eexists. split; [reflexivity|].
    destruct Hres as [Hw Hs1 Hp1 Hev1].
    assert (woken s (with_events (delete pe) (if ok then with_sub (l_remove_entry sub) s1 else s1))) as Hwk.
    { destruct Hw as [Wa Wr Wi Wm Wt Ws Wp We]. destruct ok; constructor; cbn in *; auto.
      all: try (intros q Hq'; apply Ws; by eapply remove_entry_subset).
      all: try (intros q Hq'; rewrite Hpub; right; by rewrite <- Hp1).
      all: intros q Hq' Hsome; rewrite Hpub in Hq'; rewrite lookup_delete_ne by
          (intros ->; destruct Hq' as [Hq'|Hq']; [apply Hq'; left|apply Hnin; by rewrite <- Hp1]);
        apply We; [destruct Hq' as [Hq'|Hq']; [left; intros ?; apply Hq'; by right|by right]|done]. }
    split_and!; [done| | | |].
    + by destruct ok.
    + destruct ok; apply lookup_delete_eq.
    + intros _ p Hp Hwk'. destruct (Hdel p Hp Hwk') as (t & ev & Ht & Ht' & Hev & Hd).
      change (tasks s !! p = Some t) in Ht. assert (wakeup_event t <> pe) as Hne.
      { destruct Hwk' as (u & ? & Hu & Hsu & _). rewrite Ht in Hu. injection Hu as <-.
        intros Heq. destruct (Hwait p t Ht Hsu) as [_ Hn]. apply Hn. rewrite Hpub, Heq. left. }
      exists t, ev. destruct ok; cbn; rewrite lookup_delete_ne by done; done.
    + intros Hno. destruct Hr as [Hin (e' & He' & Hty)]. exfalso. apply Hno. by exists sub, e'.
  - eexists. split; [reflexivity|]. split_and!; [|done|apply lookup_delete_eq| |done].
    + constructor; cbn; auto.
      * intros q Hq'. rewrite Hpub. by right.
      * intros q Hq' Hsome. rewrite Hpub in Hq'. rewrite lookup_delete_ne; [done|].
        intros ->. destruct Hq' as [Hq'|Hq']; [apply Hq'; left|done].
    + intros (q & e' & Hq' & He' & Hty) p _ _. exfalso. by eapply Hr.
Qed.

Lemma dispatch_loop_spec n : forall s,
  sched_inv s -> n = length (pub_list s) ->
  exists s', dispatch_loop n s = Some s' /\ woken s s' /\ sched_inv s' /\ pub_list s' = [].
Proof.
  induction n as [|n IH]; intros s Hinv Hn; cbn [dispatch_loop].
  { exists s. split_and!; auto using woken_refl. by destruct (pub_list s). }
  unfold _publish_pop. destruct (pub_list s) as [|pe rest] eqn:Hpub; [done|]. simpl.
  destruct (si_pub s Hinv) as [Hnd Hpe]. rewrite Hpub in *.
  destruct (Hpe pe ltac:(left)) as [e He].
  destruct (dispatch_event_spec s pe rest e Hinv Hpub He) as (s1 & -> & Hw & Hp1 & _). simpl.
  apply NoDup_cons in Hnd as [_ Hnd].
  assert (sched_inv s1) as Hinv1 by (apply (woken_inv s); [done|by rewrite Hp1|done]).
  destruct (IH s1 Hinv1) as (s' & -> & Hw' & Hinv' & Hp'); [by rewrite Hp1; simpl in Hn; injection Hn|].
  exists s'. split_and!; try done. by eapply woken_trans.
Qed.

Lemma dispatch_spec s :
  sched_inv s -> exists s', kevent_dispatch s = Some s' /\ woken s s' /\ sched_inv s' /\ pub_list s' = [].
Proof. intros Hinv. by apply dispatch_loop_spec. Qed.

(** ** The choice of the next task *)

(** Ready, or asleep until now. *)
Definition runnable (s : sched_t) (p : Z) : bool :=
  match tasks s !! p with
  | Some t =>
    match state t with
    | TASK_READY => true
    | TASK_WAITING =>
      match events s !! wakeup_event t with
      | Some e => bool_decide (type e = EV_SLEEP) && (0 <? timestamp e) && (timestamp e <=? millis s)
      | None => false
      end
    | _ => false
    end
  | None => false
  end.

(** Taking a sleeper resets its timer and changes nothing else. *)
Record retimed (s s' : sched_t) : Prop := {
  rt_events : forall e, is_Some (events s !! e) -> is_Some (events s' !! e);
  rt_rest : with_events (fun _ => ∅) s' = with_events (fun _ => ∅) s;
}.

Lemma find_available_spec s l :
  (forall p, p ∈ l -> is_Some (tasks s !! p)) -> waiters_ok s ->
  exists s', find_available s l = Some (s', find (runnable s) l) /\ retimed s s'.
Proof.
  intros Hl Hok. induction l as [|p l IH]; cbn [find_available find].
  { by exists s. }
  destruct (Hl p ltac:(left)) as [t Ht]. unfold runnable at 1. rewrite Ht. simpl.
  destruct IH as (s' & E' & Hr'); [intros q Hq; apply Hl; by right|].
  destruct (state t) eqn:Hs; try by exists s'.
  { by exists s. }
  destruct (Hok p t Ht Hs) as [e He]. rewrite He. simpl.
  destruct (bool_decide (type e = EV_SLEEP) && (0 <? timestamp e) && (timestamp e <=? millis s));
    [|by exists s'].
  unfold upd_event. rewrite He. simpl. eexists. split; [reflexivity|]. constructor; [|done].
  intros q Hq. cbn. rewrite lookup_insert. by case_decide.
Qed.

Lemma retimed_fields s s' : retimed s s' ->
  tasks s' = tasks s /\ active_tasks s' = active_tasks s /\ running_tasks s' = running_tasks s /\
  idle_tasks s' = idle_tasks s /\ pub_list s' = pub_list s /\ sub_list s' = sub_list s /\ cleanup_tasks s' = cleanup_tasks s.
Proof.
  intros [_ H]. split_and!;
    [apply (f_equal tasks) in H|apply (f_equal active_tasks) in H|apply (f_equal running_tasks) in H
    |apply (f_equal idle_tasks) in H|apply (f_equal pub_list) in H|apply (f_equal sub_list) in H
    |apply (f_equal cleanup_tasks) in H];
    exact H.
Qed.

(** The task a processor runs, apart from its idle task: one that still runs, and
    one that has stopped and goes back to the queue. *)
Definition own (cpu : Z) (s : sched_t) : list Z :=
  match running_tasks s !! cpu with
  | Some c => if bool_decide (idle_tasks s !! cpu = Some c) then [] else [c]
  | None => []
  end.
Definition runs (s : sched_t) (p : Z) : bool :=
  match tasks s !! p with Some t => bool_decide (state t = TASK_RUNNING) | None => false end.
Definition preempted (cpu : Z) (s : sched_t) : list Z := filter (fun p => runs s p = true) (own cpu s).
Definition parked (cpu : Z) (s : sched_t) : list Z := filter (fun p => runs s p = false) (own cpu s).
Definition queue (cpu : Z) (s : sched_t) : list Z := active_tasks s ++ parked cpu s.

(** First come, first served: the first task of the queue that can run; else the
    running task goes on, else the idle task [i]. *)
Definition pick (cpu i : Z) (s : sched_t) : Z :=
  match find (runnable s) (queue cpu s) with
  | Some n => n
  | None => default i (head (preempted cpu s))
  end.

(** The effect of [choose_next] *)
Record chosen (cpu i : Z) (s s' : sched_t) : Prop := {
  ch_active : active_tasks s' =
    match find (runnable s) (queue cpu s) with
    | Some n => l_remove_entry n (queue cpu s) ++ preempted cpu s
    | None => queue cpu s
    end;
  ch_tasks : forall p, tasks s' !! p = tasks s !! p \/
    p ∈ preempted cpu s /\ exists t, tasks s !! p = Some t /\ tasks s' !! p = Some (set_state TASK_READY t);
  ch_events : forall e, is_Some (events s !! e) -> is_Some (events s' !! e);
  ch_running : running_tasks s' = running_tasks s;
  ch_idle : idle_tasks s' = idle_tasks s;
  ch_pub : pub_list s' = pub_list s;
  ch_sub : sub_list s' = sub_list s;
  ch_cleanup : cleanup_tasks s' = cleanup_tasks s;
}.

Lemma next_available_spec s :
  (forall p, p ∈ active_tasks s -> is_Some (tasks s !! p)) -> waiters_ok s ->
  exists s1, retimed s s1 /\
    __active_task_next_available s = Some (match find (runnable s) (active_tasks s) with
      | Some n => with_active (l_remove_entry n) s1 | None => s1 end,
      find (runnable s) (active_tasks s)).
Proof.
  intros Hl Hok. unfold __active_task_next_available.
  destruct (find_available_spec s (active_tasks s) Hl Hok) as (s1 & -> & Hr). exists s1.
  split; [done|]. simpl. by destruct (find _ _).
Qed.

Lemma inv_waiters s : sched_inv s -> waiters_ok s.
Proof. intros H p t Ht Hs. by apply (si_wait _ H p t Ht Hs). Qed.

Lemma own_valid cpu s p : sched_inv s -> p ∈ own cpu s ->
  running_tasks s !! cpu = Some p /\ idle_tasks s !! cpu <> Some p /\ is_Some (tasks s !! p) /\
  p ∉ active_tasks s.
Proof.
  intros Hinv. unfold own. destruct (running_tasks s !! cpu) as [c|] eqn:E; [|by intros ?%not_elem_of_nil].
  case_bool_decide as Hi; [by intros ?%not_elem_of_nil|]. intros ->%list_elem_of_singleton.
  destruct (si_run s Hinv _ _ E). by split_and!.
Qed.

Section Choose.
Context (cpu i : Z) (s : sched_t) (Hinv : sched_inv s) (Hi : idle_tasks s !! cpu = Some i).

Lemma choose_idle :
  own cpu s = [] -> exists s', choose_next cpu s = Some (s', pick cpu i s) /\ chosen cpu i s s'.
Proof.
  intros Ho. unfold choose_next, pick.
  assert (preempted cpu s = [] /\ parked cpu s = []) as [Hp Hk]
    by (unfold preempted, parked; by rewrite Ho).
  assert (queue cpu s = active_tasks s) as Hqu by (unfold queue; by rewrite Hk, app_nil_r).
  destruct (next_available_spec s (si_active s Hinv) (inv_waiters s Hinv)) as (s1 & Hr & E).
  pose proof (retimed_fields _ _ Hr) as (Ft & Fa & Fr & Fi & Fp & Fs & Fc).
  assert (chosen cpu i s (match find (runnable s) (active_tasks s) with
         | Some n => with_active (l_remove_entry n) s1 | None => s1 end)) as Hch.
  { rewrite <- Hqu in *. constructor; rewrite ?Hp; destruct (find (runnable s) (queue cpu s)); cbn;
      rewrite ?Ft, ?Fa, ?Fr, ?Fi, ?Fp, ?Fs, ?Fc, ?app_nil_r, <- ?Hqu; auto; apply Hr. }
  unfold own in Ho. rewrite Hqu, Hp. eexists. split; [|exact Hch].
  destruct (running_tasks s !! cpu) as [c|].
  - case_bool_decide as Hc; [|done]. simpl. rewrite E. simpl.
    destruct (find (runnable s) (active_tasks s)); [done|]. rewrite Fi, Hi. done.
  - simpl. rewrite E. simpl.
    destruct (find (runnable s) (active_tasks s)); [done|]. rewrite Fi, Hi. done.
Qed.

Context (c : Z) (t : task_t) (Hc : running_tasks s !! cpu = Some c) (Hni : idle_tasks s !! cpu <> Some c)
  (Ht : tasks s !! c = Some t).

Lemma own_one : own cpu s = [c].
Proof. unfold own. rewrite Hc. by rewrite bool_decide_false. Qed.

Lemma own_split : preempted cpu s = (if bool_decide (state t = TASK_RUNNING) then [c] else []) /\
  parked cpu s = (if bool_decide (state t = TASK_RUNNING) then [] else [c]).
Proof.
  unfold preempted, parked. rewrite own_one, !filter_cons, !filter_nil. unfold runs. rewrite Ht.
  by case_bool_decide; rewrite ?decide_True, ?decide_False by done.
Qed.

Lemma choose_running :
  state t = TASK_RUNNING -> exists s', choose_next cpu s = Some (s', pick cpu i s) /\ chosen cpu i s s'.
Proof.
  intros Hs. destruct own_split as [Hp Hk]. rewrite bool_decide_true in Hp, Hk by done.
  assert (queue cpu s = active_tasks s) as Hqu by (unfold queue; by rewrite Hk, app_nil_r).
  destruct (next_available_spec s (si_active s Hinv) (inv_waiters s Hinv)) as (s1 & Hr & E).
  pose proof (retimed_fields _ _ Hr) as (Ft & Fa & Fr & Fi & Fp & Fs & Fc).
  unfold choose_next, pick. rewrite Hc, Hqu, Hp, bool_decide_false by done. rewrite Ht. simpl.
  rewrite bool_decide_true by done. simpl. rewrite E. simpl.
  destruct (find (runnable s) (active_tasks s)) as [n|] eqn:Ef.
  - unfold upd_task. cbn [with_active tasks]. rewrite Ft, Ht. simpl. eexists. split; [reflexivity|].
    constructor; rewrite ?Hqu, ?Ef, ?Hp; cbn; rewrite ?Ft, ?Fa, ?Fr, ?Fi, ?Fp, ?Fs, ?Fc; auto; [|apply Hr].
    intros p. destruct (decide (p = c)) as [->|Hne].
    + right. split; [left|]. exists t. split; [done|]. apply lookup_insert_eq.
    + left. by rewrite lookup_insert_ne.
  - eexists. split; [reflexivity|].
    constructor; rewrite ?Hqu, ?Ef, ?Hp; cbn; rewrite ?Ft, ?Fa, ?Fr, ?Fi, ?Fp, ?Fs, ?Fc; auto. apply Hr.
Qed.

Lemma choose_parked :
  state t <> TASK_RUNNING -> exists s', choose_next cpu s = Some (s', pick cpu i s) /\ chosen cpu i s s'.
Proof.
  intros Hs. destruct own_split as [Hp Hk]. rewrite bool_decide_false in Hp, Hk by done.
  set (s0 := __active_task_fifo_push c s).
  assert (queue cpu s = active_tasks s0) as Hqu by (unfold queue; by rewrite Hk).
  destruct (next_available_spec s0) as (s1 & Hr & E).
  { cbn. unfold l_add_prev. intros p [Hq| ->%list_elem_of_singleton]%elem_of_app; [by apply Hinv|by eexists]. }
  { exact (inv_waiters s Hinv). }
  pose proof (retimed_fields _ _ Hr) as (Ft & Fa & Fr & Fi & Fp & Fs & Fc).
  unfold choose_next, pick. rewrite Hc, Hqu, Hp, bool_decide_false by done. rewrite Ht.
  cbn [mbind option_bind]. rewrite bool_decide_false by done. fold s0. cbn [mbind option_bind]. rewrite E.
  change (runnable s0) with (runnable s). cbn [mbind option_bind].
  destruct (find (runnable s) (active_tasks s0)) as [n|] eqn:Ef.
  - eexists. split; [reflexivity|].
    constructor; rewrite ?Hqu, ?Ef, ?Hp; cbn; rewrite ?Ft, ?Fa, ?Fr, ?Fi, ?Fp, ?Fs, ?Fc, ?app_nil_r; auto.
    apply Hr.
  - rewrite Fi. cbn [s0 __active_task_fifo_push with_active idle_tasks]. rewrite Hi. simpl.
    eexists. split; [reflexivity|].
    constructor; rewrite ?Hqu, ?Ef, ?Hp; cbn; rewrite ?Ft, ?Fa, ?Fr, ?Fi, ?Fp, ?Fs, ?Fc; auto. apply Hr.
Qed.

End Choose.

Lemma choose_next_spec cpu i s :
  sched_inv s -> idle_tasks s !! cpu = Some i ->
  exists s', choose_next cpu s = Some (s', pick cpu i s) /\ chosen cpu i s s'.
Proof.
  intros Hinv Hi. destruct (own cpu s) as [|c l] eqn:Ho; [by apply choose_idle|].
  destruct (own_valid cpu s c Hinv) as (Hc & Hni & [t Ht] & _); [rewrite Ho; left|].
  destruct (decide (state t = TASK_RUNNING)); [by eapply choose_running|by eapply choose_parked].
Qed.

(** ** The switch *)

(** The switch keeps a task but for its state, and for the stack that [execve] prepared. *)
Definition same_task (t t' : task_t) : Prop :=
  exists st, t' = set_stacks st (set_state (state t') t) /\ (st = stacks t \/ rstack (stacks t) <> 0 /\ st = replace_stacks (stacks t)).

(** A task after a switch to [next]. *)
Definition task_after (next p : Z) (t t' : task_t) : Prop :=
  wakeup_event t' = wakeup_event t /\ tid t' = tid t /\
  (state t' = if decide (p = next) then TASK_RUNNING else state t) /\ same_task t t'.

Record finished (cpu next : Z) (s s' : sched_t) : Prop := {
  fi_tasks : forall p t', tasks s' !! p = Some t' -> exists t, tasks s !! p = Some t /\ task_after next p t t';
  fi_dom : forall p, is_Some (tasks s !! p) -> is_Some (tasks s' !! p);
  fi_running : running_tasks s' = <[cpu := next]> (running_tasks s);
  fi_active : active_tasks s' = active_tasks s;
  fi_idle : idle_tasks s' = idle_tasks s;
  fi_events : events s' = events s;
  fi_pub : pub_list s' = pub_list s;
  fi_sub : sub_list s' = sub_list s;
  fi_cleanup : cleanup_tasks s' = cleanup_tasks s;
}.

Lemma finish_spec cpu curr next s :
  is_Some (tasks s !! next) -> (forall c, curr = Some c -> is_Some (tasks s !! c)) ->
  exists s' sw, finish_switch cpu curr next s = Some (s', sw) /\
    to_task sw = next /\ from_task sw = curr /\ finished cpu next s s'.
Proof.
  intros [n Hn] Hcurr. unfold finish_switch, upd_task. rewrite Hn. simpl.
  assert (forall q t', <[next := set_state TASK_RUNNING n]> (tasks s) !! q = Some t' ->
    exists t, tasks s !! q = Some t /\ task_after next q t t') as Hset.
  { intros q t' Hq. unfold task_after. destruct (decide (q = next)) as [->|Hne].
    - rewrite lookup_insert_eq in Hq. injection Hq as <-. exists n. split_and!; [done..|]. exists (stacks n). split; [done|by left].
    - rewrite lookup_insert_ne in Hq by done. exists t'. split_and!; [done..|]. exists (stacks t'). split; [by destruct t'|by left]. }
  assert (forall q, is_Some (tasks s !! q) -> is_Some (<[next := set_state TASK_RUNNING n]> (tasks s) !! q)) as Hdom.
  { intros q Hq. rewrite lookup_insert. by case_decide. }
  destruct curr as [c|]; simpl.
  - destruct (Hdom c (Hcurr c eq_refl)) as [tc Hc]. rewrite Hc. simpl.
    set (st := if ctrue _ then _ else _).
    assert (is_Some (<[c := set_stacks st tc]> (<[next := set_state TASK_RUNNING n]> (tasks s)) !! next))
      as [tn Hn']. { rewrite lookup_insert. case_decide; [by eexists|]. rewrite lookup_insert_eq. by eexists. }
    rewrite Hn'. simpl. eexists _, _. split; [reflexivity|]. split_and!; [done..|].
    constructor; cbn; auto.
    + intros q t'. destruct (decide (q = c)) as [->|Hne].
      * rewrite lookup_insert_eq. intros [= <-]. destruct (Hset c tc Hc) as (t & Ht & H).
        exists t. split; [done|]. destruct H as (H1 & H2 & H3 & st' & H4 & H5). split_and!; [done..|]. exists st.
        assert (stacks tc = stacks t) as Es.
        { unfold same_task in *. destruct (decide (c = next)) as [->|Hne].
          - rewrite lookup_insert_eq in Hc. injection Hc as <-. rewrite Hn in Ht. by injection Ht as <-.
          - rewrite lookup_insert_ne in Hc by done. congruence. }
        split; [by rewrite H4|]. unfold st. rewrite Es. unfold ctrue. destruct (Z.eqb_spec (rstack (stacks t)) 0); [by left|by right].
      * rewrite lookup_insert_ne by done. apply Hset.
    + intros q Hq. rewrite lookup_insert. case_decide; [by eexists|]. by apply Hdom.
  - rewrite lookup_insert_eq. simpl. eexists _, _. split; [reflexivity|]. split_and!; [done..|].
    constructor; cbn; auto.
Qed.

Lemma remove_entry_perm e l : e ∈ l -> l ≡ₚ e :: l_remove_entry e l.
Proof.
  induction l as [|x l IH]; [by intros ?%not_elem_of_nil|]. simpl.
  destruct (x =? e) eqn:E; breflect; [by subst|]. intros [->|He]%elem_of_cons; [done|].
  rewrite IH at 1 by done. constructor.
Qed.

Lemma own_perm cpu s : preempted cpu s ++ parked cpu s ≡ₚ own cpu s.
Proof.
  unfold preempted, parked. induction (own cpu s) as [|p l IH]; [done|]. rewrite !filter_cons.
  destruct (runs s p); repeat case_decide; try done; simpl.
  - by rewrite IH.
  - rewrite <- Permutation_middle. by rewrite IH.
Qed.

(** The queue and the task of the processor keep the same tasks. *)
Lemma chosen_conserves cpu i s s' :
  sched_inv s -> idle_tasks s !! cpu = Some i -> chosen cpu i s s' ->
  active_tasks s' ++ (if pick cpu i s =? i then [] else [pick cpu i s]) ≡ₚ active_tasks s ++ own cpu s.
Proof.
  intros Hinv Hi Hch. rewrite (ch_active _ _ _ _ Hch). unfold pick.
  assert (forall p, p ∈ active_tasks s ++ own cpu s -> p <> i) as Hne.
  { intros p [Hp|Hp]%elem_of_app ->.
    - by apply (si_idle s Hinv _ _ Hi).
    - by apply (own_valid cpu s i Hinv) in Hp as (_ & ? & _). }
  destruct (find (runnable s) (queue cpu s)) as [n|] eqn:Ef.
  - apply find_some in Ef as [Hn _]. apply list_elem_of_In in Hn.
    rewrite (proj2 (Z.eqb_neq n i)).
    + rewrite <- own_perm. rewrite (Permutation_app_comm (preempted cpu s)), app_assoc.
      fold (queue cpu s). rewrite (remove_entry_perm n (queue cpu s)) at 2 by done.
      by rewrite <- Permutation_cons_append.
    + apply Hne. unfold queue in Hn. rewrite <- own_perm. rewrite !elem_of_app in *. tauto.
  - unfold queue. rewrite <- app_assoc. f_equiv. rewrite <- own_perm.
    destruct (preempted cpu s) as [|c l] eqn:Ep; simpl; [by rewrite Z.eqb_refl, app_nil_r|].
    assert (l = []) as ->.
    { unfold preempted, own in Ep. destruct (running_tasks s !! cpu); [|done].
      case_bool_decide; [done|]. rewrite filter_cons, filter_nil in Ep. by case_decide; simplify_eq. }
    rewrite (proj2 (Z.eqb_neq c i)); [by rewrite <- Permutation_cons_append|].
    apply Hne, elem_of_app. right. rewrite <- own_perm, Ep. left.
Qed.

Lemma finished_waits cpu i next s s1 s' p t' :
  chosen cpu i s s1 -> finished cpu next s1 s' -> tasks s' !! p = Some t' -> state t' = TASK_WAITING ->
  exists t, tasks s !! p = Some t /\ state t = TASK_WAITING /\ wakeup_event t' = wakeup_event t.
Proof.
  intros Hch Hfi Ht' Hs. destruct (fi_tasks _ _ _ _ Hfi p t' Ht') as (t1 & Ht1 & Hw & _ & Hs1 & _).
  rewrite Hs in Hs1. destruct (decide (p = next)); [done|].
  destruct (ch_tasks _ _ _ _ Hch p) as [Heq|(_ & t & Ht & Heq)].
  - rewrite Heq in Ht1. by exists t1.
  - rewrite Heq in Ht1. injection Ht1 as <-. done.
Qed.

Lemma chosen_dom cpu i s s1 p : chosen cpu i s s1 -> is_Some (tasks s !! p) -> is_Some (tasks s1 !! p).
Proof. intros Hch Hp. destruct (ch_tasks _ _ _ _ Hch p) as [->|(_ & t & _ & ->)]; [done|by eexists]. Qed.

(** A switch keeps the invariant. *)
Section Switch.
Context (cpu i : Z) (s s1 s' : sched_t).
Context (Hinv : sched_inv s) (Hi : idle_tasks s !! cpu = Some i) (Hch : chosen cpu i s s1)
  (Hfi : finished cpu (pick cpu i s) s1 s').
Let next := pick cpu i s.
(** The tasks that compete for the processor. *)
Let pool := active_tasks s ++ own cpu s.

Lemma switch_pool : active_tasks s' ++ (if next =? i then [] else [next]) ≡ₚ pool.
Proof. rewrite (fi_active _ _ _ _ Hfi). by apply chosen_conserves. Qed.

Lemma pool_nodup : NoDup pool.
Proof.
  apply NoDup_app. split_and!; [apply Hinv| |].
  - intros p Hpa Hpo. by apply (own_valid cpu s p Hinv) in Hpo as (_ & _ & _ & ?).
  - unfold own. destruct (running_tasks s !! cpu); [case_bool_decide|];
      auto using NoDup_nil_2, NoDup_singleton.
Qed.

Lemma active_pool p : p ∈ active_tasks s' -> p ∈ pool.
Proof. intros Hp. rewrite <- switch_pool. apply elem_of_app. by left. Qed.

Lemma next_pool : next = i \/ next ∈ pool.
Proof.
  destruct (next =? i) eqn:E; [breflect; by left|right]. rewrite <- switch_pool, E.
  apply elem_of_app. right. left.
Qed.

Lemma pool_valid p : p ∈ pool -> is_Some (tasks s !! p).
Proof.
  intros [?|Hpo]%elem_of_app; [by apply Hinv|].
  by apply (own_valid cpu s p Hinv) in Hpo as (_ & _ & ? & _).
Qed.

Lemma pool_not_idle cpu' p : p ∈ pool -> idle_tasks s !! cpu' <> Some p.
Proof.
  intros [Hpa|Hpo]%elem_of_app Hi'; [by apply (si_idle s Hinv _ _ Hi')|].
  apply (own_valid cpu s p Hinv) in Hpo as (Hr & Hn & _).
  rewrite (si_own_idle s Hinv _ _ _ Hi' Hr) in Hi'. done.
Qed.

Lemma others_apart cpu' p :
  cpu' <> cpu -> running_tasks s !! cpu' = Some p -> p ∉ pool /\ p <> next.
Proof.
  intros Hne Hr. assert (p ∉ pool) as Hn.
  - intros [Hpa|Hpo]%elem_of_app; [by apply (si_run s Hinv _ _ Hr)|].
    apply (own_valid cpu s p Hinv) in Hpo as (Hr' & _). by apply Hne, (si_once s Hinv cpu' cpu p).
  - split; [done|]. intros ->. destruct next_pool as [Hn'|Hn']; [|by apply Hn]. rewrite Hn' in Hr.
    apply Hne. symmetry. by apply (si_own_idle s Hinv cpu cpu' i).
Qed.

Lemma next_not_queued : next ∉ active_tasks s'.
Proof.
  intros Hin. destruct (next =? i) eqn:E.
  - breflect. apply (pool_not_idle cpu next); [by apply active_pool|by rewrite E].
  - pose proof pool_nodup as Hnd. rewrite <- switch_pool, E in Hnd.
    apply NoDup_app in Hnd as (_ & Hdis & _). apply (Hdis next Hin). left.
Qed.

Lemma switch_dom p : is_Some (tasks s !! p) -> is_Some (tasks s' !! p).
Proof. intros Hsome. eapply fi_dom, chosen_dom; eauto. Qed.

Lemma switch_running : running_tasks s' = <[cpu := next]> (running_tasks s).
Proof. by rewrite (fi_running _ _ _ _ Hfi), (ch_running _ _ _ _ Hch). Qed.

Lemma switch_idle : idle_tasks s' = idle_tasks s.
Proof. rewrite (fi_idle _ _ _ _ Hfi). apply Hch. Qed.

Lemma switch_own : own cpu s' = if next =? i then [] else [next].
Proof.
  unfold own. rewrite switch_running, switch_idle, lookup_insert_eq, Hi.
  destruct (next =? i) eqn:E; breflect.
  - by rewrite bool_decide_true by (by rewrite E).
  - by rewrite bool_decide_false by congruence.
Qed.

Lemma switch_run cpu' p :
  running_tasks s' !! cpu' = Some p -> is_Some (tasks s' !! p) /\ p ∉ active_tasks s'.
Proof.
  rewrite switch_running, lookup_insert. case_decide as E.
  - intros [= <-]. split; [|apply next_not_queued]. apply switch_dom.
    destruct next_pool as [Hn|Hn]; [|by apply pool_valid].
    fold next. rewrite Hn. by apply (si_idle s Hinv cpu).
  - intros Hr. split; [by apply switch_dom, (si_run s Hinv cpu')|].
    intros Hin%active_pool. apply others_apart in Hr as [Hn _]; auto.
Qed.

Lemma switch_once cpu1 cpu2 p :
  running_tasks s' !! cpu1 = Some p -> running_tasks s' !! cpu2 = Some p -> cpu1 = cpu2.
Proof.
  rewrite switch_running, !lookup_insert.
  destruct (decide (cpu = cpu1)) as [E1|E1], (decide (cpu = cpu2)) as [E2|E2];
    [congruence| | |apply (si_once s Hinv)].
  - intros [= <-] Hr. by apply others_apart in Hr as [_ ?]; auto.
  - intros Hr [= <-]. by apply others_apart in Hr as [_ ?]; auto.
Qed.

Lemma switch_inv : sched_inv s'.
Proof.
  constructor.
  - intros p Hpa. by apply switch_dom, pool_valid, active_pool.
  - pose proof pool_nodup as Hnd. rewrite <- switch_pool in Hnd. by apply NoDup_app in Hnd as [? _].
  - apply switch_run.
  - apply switch_once.
  - rewrite switch_idle. intros cpu' p Hi'. split; [by apply switch_dom, (si_idle s Hinv cpu')|].
    intros Hin%active_pool. by apply (pool_not_idle cpu' p).
  - rewrite switch_idle. apply Hinv.
  - rewrite switch_idle, switch_running. intros cpu1 cpu2 p Hi1. rewrite lookup_insert. case_decide as E.
    + intros [= <-]. rewrite <- E. destruct next_pool as [Hn|Hn]; [|by destruct (pool_not_idle cpu1 _ Hn)].
      apply (si_idle_once s Hinv _ _ i); [by rewrite <- Hn|done].
    + by apply (si_own_idle s Hinv).
  - intros p t' Ht' Hs. destruct (finished_waits _ _ _ _ _ _ _ _ Hch Hfi Ht' Hs) as (t & Ht & Hst & ->).
    destruct (si_wait s Hinv p t Ht Hst) as [He Hn].
    rewrite (fi_events _ _ _ _ Hfi), (fi_pub _ _ _ _ Hfi), (ch_pub _ _ _ _ Hch).
    split; [by apply (ch_events _ _ _ _ Hch)|done].
  - rewrite (fi_events _ _ _ _ Hfi), (fi_pub _ _ _ _ Hfi), (ch_pub _ _ _ _ Hch).
    split; [apply Hinv|]. intros e He. by apply (ch_events _ _ _ _ Hch), Hinv.
  - rewrite (fi_events _ _ _ _ Hfi), (fi_pub _ _ _ _ Hfi), (ch_pub _ _ _ _ Hch),
      (fi_sub _ _ _ _ Hfi), (ch_sub _ _ _ _ Hch).
    intros e He. destruct (si_sub s Hinv e He). split; [by apply (ch_events _ _ _ _ Hch)|done].
Qed.

End Switch.

(** ** sched_again *)

Definition counted (cpu : Z) (s : sched_t) : sched_t :=
  with_count <[cpu := u64 (default 0 (sched_count s !! cpu) + 1)]> s.

Lemma counted_inv cpu s : sched_inv s -> sched_inv (counted cpu s).
Proof. by intros []. Qed.

Lemma again_spec cpu i s :
  sched_inv s -> idle_tasks s !! cpu = Some i ->
  exists s1 s2 s' sw, kevent_dispatch (counted cpu s) = Some s1 /\ woken (counted cpu s) s1 /\
    sched_inv s1 /\ chosen cpu i s1 s2 /\ finished cpu (pick cpu i s1) s2 s' /\
    sched_again cpu s = Some (s', sw) /\ to_task sw = pick cpu i s1 /\
    from_task sw = running_tasks s !! cpu.
Proof.
  intros Hinv Hi. destruct (dispatch_spec _ (counted_inv cpu s Hinv)) as (s1 & E1 & Hw & Hinv1 & _).
  assert (idle_tasks s1 !! cpu = Some i) as Hi1 by (by rewrite (w_idle _ _ Hw)).
  destruct (choose_next_spec cpu i s1 Hinv1 Hi1) as (s2 & E2 & Hch).
  destruct (finish_spec cpu (running_tasks s1 !! cpu) (pick cpu i s1) s2) as (s' & sw & E3 & Hto & Hfrom & Hfi).
  { eapply chosen_dom; [done|]. pose proof (chosen_conserves _ _ _ _ Hinv1 Hi1 Hch) as Hp.
    destruct (pick cpu i s1 =? i) eqn:E; breflect; [rewrite E; by apply (si_idle s1 Hinv1 cpu)|].
    eapply (pool_valid cpu s1 Hinv1). rewrite <- Hp. apply elem_of_app. right. left. }
  { intros c Hc. eapply chosen_dom; [done|]. by apply (si_run s1 Hinv1 cpu). }
  exists s1, s2, s', sw. unfold sched_again. fold (counted cpu s). rewrite E1. simpl. rewrite E2. simpl.
  split_and!; try done. rewrite Hfrom. by rewrite (w_running _ _ Hw).
Qed.

(** A call of [sched_again] when no event is published: what it does to the tasks. *)
Record resched (cpu i : Z) (s s' : sched_t) (sw : switch_t) : Prop := {
  rs_inv : sched_inv s';
  rs_running : running_tasks s' = <[cpu := to_task sw]> (running_tasks s);
  rs_lists : idle_tasks s' = idle_tasks s /\ pub_list s' = [] /\ sub_list s' = sub_list s /\ cleanup_tasks s' = cleanup_tasks s;
  rs_next : to_task sw = i \/ to_task sw ∈ active_tasks s ++ own cpu s;
  rs_active : forall p, p ∈ active_tasks s' -> p ∈ active_tasks s ++ own cpu s;
  rs_events : forall e, is_Some (events s !! e) -> is_Some (events s' !! e);
  rs_dom : forall p, tasks s !! p = None -> tasks s' !! p = None;
  rs_tasks : forall p t, tasks s !! p = Some t -> exists t', tasks s' !! p = Some t' /\ same_task t t' /\
    (p ∉ active_tasks s ++ own cpu s -> p <> i -> state t' = state t);
}.

Lemma dispatch_quiet s : pub_list s = [] -> kevent_dispatch s = Some s.
Proof. intros E. unfold kevent_dispatch. by rewrite E. Qed.

Lemma preempted_own cpu s p : p ∈ preempted cpu s -> p ∈ own cpu s.
Proof. unfold preempted. by intros [_ ?]%list_elem_of_filter. Qed.

Lemma again_quiet cpu i s :
  sched_inv s -> idle_tasks s !! cpu = Some i -> pub_list s = [] ->
  exists s' sw, sched_again cpu s = Some (s', sw) /\ resched cpu i s s' sw.
Proof.
  intros Hinv Hi Hpub.
  destruct (again_spec cpu i s Hinv Hi) as (s1 & s2 & s' & sw & E1 & _ & Hinv1 & Hch & Hfi & E & Hto & Hfrom).
  rewrite dispatch_quiet in E1 by done. injection E1 as <-. exists s', sw. split; [done|].
  set (s1 := counted cpu s) in *. assert (idle_tasks s1 !! cpu = Some i) as Hi1 by done.
  pose proof (next_pool cpu i s1 s2 s' Hinv1 Hi1 Hch Hfi) as Hnp.
  constructor.
  - by apply (switch_inv cpu i s1 s2).
  - rewrite Hto. apply (switch_running cpu i s1 s2 s' Hch Hfi).
  - by rewrite (fi_idle _ _ _ _ Hfi), (ch_idle _ _ _ _ Hch), (fi_pub _ _ _ _ Hfi), (ch_pub _ _ _ _ Hch), (fi_sub _ _ _ _ Hfi),
      (ch_sub _ _ _ _ Hch), (fi_cleanup _ _ _ _ Hfi), (ch_cleanup _ _ _ _ Hch).
  - rewrite Hto. exact Hnp.
  - exact (active_pool cpu i s1 s2 s' Hinv1 Hi1 Hch Hfi).
  - intros e He. rewrite (fi_events _ _ _ _ Hfi). by apply (ch_events _ _ _ _ Hch).
  - intros p Hp. apply eq_None_not_Some. intros [t' Ht']. destruct (fi_tasks _ _ _ _ Hfi p t' Ht') as (t & Ht & _).
    destruct (ch_tasks _ _ _ _ Hch p) as [Heq|(_ & t0 & Ht0 & _)]; change (tasks s1) with (tasks s) in *; congruence.
  - intros p t Ht. destruct (switch_dom cpu i s1 s2 s' Hch Hfi p) as [t' Ht']; [by eexists|]. exists t'. split; [done|].
    destruct (fi_tasks _ _ _ _ Hfi p t' Ht') as (t2 & Ht2 & _ & _ & Hs & st & Hst & Hsk).
    assert ((t2 = t \/ p ∈ own cpu s /\ t2 = set_state TASK_READY t)) as H2.
    { destruct (ch_tasks _ _ _ _ Hch p) as [Heq|(Hin & t0 & Ht0 & Heq)]; rewrite Ht2 in Heq.
      - left. change (tasks s1) with (tasks s) in Heq. congruence.
      - right. split; [by apply (preempted_own cpu s1)|]. change (tasks s1) with (tasks s) in Ht0. congruence. }
    split.
    + exists st. destruct H2 as [->|[_ ->]]; split; done.
    + intros Hn Hne. destruct H2 as [->|[Hown _]]; [|exfalso; apply Hn, elem_of_app; by right]. rewrite Hs, decide_False; [done|].
      intros ->. destruct Hnp as [Hni|Hni]; [by apply Hne|by apply Hn].
Qed.

(** C3. Scheduling.  From a well-formed state [sched_again] always returns: it
    delivers the published events and then switches to the first task of the queue
    that is ready or whose sleep is over, in the order the tasks entered it; if
    there is none the running task goes on, and if it does not run any more the
    idle task is taken.  The task switched to is the one recorded for the processor
    and is marked running, the queue and the processor hold the same tasks as
    before (none is lost or queued twice, and no task runs on two processors),
    and the state is well formed again. *)
Theorem sched_again_correct cpu i s :
  sched_inv s -> idle_tasks s !! cpu = Some i ->
  exists s1 s' sw, kevent_dispatch (counted cpu s) = Some s1 /\ sched_again cpu s = Some (s', sw) /\
    sched_inv s' /\ to_task sw = pick cpu i s1 /\ from_task sw = running_tasks s !! cpu /\
    running_tasks s' = <[cpu := to_task sw]> (running_tasks s) /\
    (exists t, tasks s' !! to_task sw = Some t /\ state t = TASK_RUNNING) /\
    active_tasks s' ++ own cpu s' ≡ₚ active_tasks s ++ own cpu s.
Proof.
  intros Hinv Hi.
  destruct (again_spec cpu i s Hinv Hi) as (s1 & s2 & s' & sw & E1 & Hw & Hinv1 & Hch & Hfi & E & Hto & Hfrom).
  assert (idle_tasks s1 !! cpu = Some i) as Hi1 by (by rewrite (w_idle _ _ Hw)).
  pose proof (switch_inv cpu i s1 s2 s' Hinv1 Hi1 Hch Hfi) as Hinv'.
  pose proof (switch_running cpu i s1 s2 s' Hch Hfi) as Hru.
  exists s1, s', sw. split_and!; try done.
  - rewrite Hto, Hru. by rewrite (w_running _ _ Hw).
  - rewrite Hto. destruct (si_run s' Hinv' cpu (pick cpu i s1)) as [[t Ht] _].
    { by rewrite Hru, lookup_insert_eq. }
    exists t. split; [done|]. destruct (fi_tasks _ _ _ _ Hfi _ _ Ht) as (t0 & _ & _ & _ & -> & _).
    by rewrite decide_True.
  - rewrite (switch_own cpu i s1 s2 s' Hi1 Hch Hfi), (switch_pool cpu i s1 s2 s' Hinv1 Hi1 Hch Hfi).
    unfold own. by rewrite (w_active _ _ Hw), (w_running _ _ Hw), (w_idle _ _ Hw).
Qed.

(** ** Progress *)

(** Steps of the system: a call of [sched_again] by any processor, labelled with the
    task it switches to; a running task that starts to wait; a new task; time. *)
Inductive sched_step : option Z -> sched_t -> sched_t -> Prop :=
  | st_again cpu i s s' sw :
      idle_tasks s !! cpu = Some i -> sched_again cpu s = Some (s', sw) ->
      sched_step (Some (to_task sw)) s s'
  | st_wait cpu e s s' :
      is_Some (events s !! e) -> e ∉ pub_list s -> sched_wait_event_begin cpu e s = Some s' ->
      sched_step None s s'
  | st_add p s :
      is_Some (tasks s !! p) -> p ∉ active_tasks s ->
      (forall cpu, running_tasks s !! cpu <> Some p /\ idle_tasks s !! cpu <> Some p) ->
      sched_step None s (sched_add p s)
  | st_time m s :
      sched_step None s (Sched (tasks s) (events s) (active_tasks s) (cleanup_tasks s) (running_tasks s)
        (idle_tasks s) (sched_count s) (sub_list s) (pub_list s) (cpu_kstack s) m).

Inductive sched_run : list (option Z) -> sched_t -> sched_t -> Prop :=
  | run_nil s : sched_run [] s s
  | run_cons l ls s1 s2 s3 : sched_step l s1 s2 -> sched_run ls s2 s3 -> sched_run (l :: ls) s1 s3.

(** [p] is ready at position [k] of the queue. *)
Definition ready_at (s : sched_t) (p : Z) (k : nat) : Prop :=
  active_tasks s !! k = Some p /\ exists t, tasks s !! p = Some t /\ state t = TASK_READY.

(** Taking the first fitting element moves a later fitting one forward. *)
Lemma find_moves f l p k n :
  l !! k = Some p -> f p = true -> find f l = Some n ->
  n = p \/ exists k', k = S k' /\ l_remove_entry n l !! k' = Some p.
Proof.
  revert k. induction l as [|x l IH]; intros k Hk Hp Hf; [done|]. simpl in Hf.
  destruct k as [|k]; simpl in Hk.
  { injection Hk as ->. rewrite Hp in Hf. injection Hf as ->. by left. }
  destruct (f x) eqn:Ex.
  - injection Hf as ->. right. exists k. split; [done|]. simpl. by rewrite Z.eqb_refl.
  - destruct (IH k Hk Hp Hf) as [->|(k' & -> & Hk')]; [by left|]. right. exists (S k').
    split; [done|]. simpl. rewrite (proj2 (Z.eqb_neq x n)); [done|]. intros ->.
    apply find_some in Hf as [_ Hf]. congruence.
Qed.

Lemma find_exists f (l : list Z) p : p ∈ l -> f p = true -> find f l <> None.
Proof. intros Hp Hf Hn. apply list_elem_of_In in Hp. pose proof (find_none _ _ Hn p Hp). congruence. Qed.

Lemma again_moves cpu i s s' sw p k :
  sched_inv s -> idle_tasks s !! cpu = Some i -> sched_again cpu s = Some (s', sw) -> ready_at s p k ->
  to_task sw = p \/ exists k', k = S k' /\ ready_at s' p k'.
Proof.
  intros Hinv Hi E [Hk (t & Ht & Hs)].
  destruct (again_spec cpu i s Hinv Hi) as (s1 & s2 & s3 & sw' & _ & Hw & Hinv1 & Hch & Hfi & E' & Hto & _).
  rewrite E in E'. injection E' as <- <-.
  assert (tasks s1 !! p = Some t) as Ht1.
  { destruct (w_tasks _ _ Hw p) as [->|(u & Hu & Hsu & _)]; [done|]. cbn in Hu. congruence. }
  assert (active_tasks s1 !! k = Some p) as Hk1 by (by rewrite (w_active _ _ Hw)).
  assert (queue cpu s1 !! k = Some p) as Hkq by (apply lookup_app_l_Some; done).
  assert (runnable s1 p = true) as Hrun by (unfold runnable; by rewrite Ht1, Hs).
  pose proof (ch_active _ _ _ _ Hch) as Ha. rewrite Hto. unfold pick in *.
  destruct (find (runnable s1) (queue cpu s1)) as [n|] eqn:Ef.
  2:{ by apply find_exists with (p := p) in Ef; [|by eapply list_elem_of_lookup_2|]. }
  destruct (find_moves _ _ _ _ _ Hkq Hrun Ef) as [->|(k' & -> & Hk')]; [by left|].
  destruct (decide (n = p)) as [->|Hne]; [by left|]. right. exists k'. split; [done|]. split.
  - rewrite (fi_active _ _ _ _ Hfi), Ha. by apply lookup_app_l_Some.
  - assert (tasks s2 !! p = Some t) as Ht2.
    { destruct (ch_tasks _ _ _ _ Hch p) as [->|(Hin & _)]; [done|].
      unfold preempted in Hin. apply list_elem_of_filter in Hin as [_ Hin].
      apply (own_valid cpu s1 p Hinv1) in Hin as (_ & _ & _ & Hin). exfalso.
      by apply Hin; eapply list_elem_of_lookup_2. }
    destruct (fi_dom _ _ _ _ Hfi p ltac:(by rewrite Ht2)) as [t' Ht']. exists t'. split; [done|].
    destruct (fi_tasks _ _ _ _ Hfi _ _ Ht') as (t0 & Ht0 & _ & _ & -> & _).
    rewrite decide_False by done. congruence.
Qed.

Lemma wait_begin_spec cpu e s s' :
  sched_inv s -> is_Some (events s !! e) -> e ∉ pub_list s -> sched_wait_event_begin cpu e s = Some s' ->
  exists c t, running_tasks s !! cpu = Some c /\ tasks s !! c = Some t /\
    s' = with_tasks <[c := set_wakeup e (set_state TASK_WAITING t)]> s /\ sched_inv s'.
Proof.
  intros Hinv He Hn. unfold sched_wait_event_begin, sched_get_task, upd_task.
  destruct (running_tasks s !! cpu) as [c|] eqn:Ec; [|done]. simpl.
  destruct (tasks s !! c) as [t|] eqn:Et; [|done]. simpl. intros [= <-].
  exists c, t. split_and!; [done..|]. destruct Hinv as [A B C D F G H I J K].
  assert (forall p, is_Some (tasks s !! p) ->
    is_Some (<[c := set_wakeup e (set_state TASK_WAITING t)]> (tasks s) !! p)) as Hdom.
  { intros p Hp. rewrite lookup_insert. by case_decide. }
  constructor; cbn; auto.
  - intros cpu' p Hp. destruct (C cpu' p Hp). auto.
  - intros cpu' p Hp. destruct (F cpu' p Hp). auto.
  - intros p u. rewrite lookup_insert. case_decide as E; [|by apply I].
    intros [= <-] _. done.
Qed.

Lemma sched_step_inv l s s' : sched_step l s s' -> sched_inv s -> sched_inv s'.
Proof.
  intros [cpu i s0 s1 sw Hi E|cpu e s0 s1 He Hn E|p s0 Hp Hnq Hno|m s0] Hinv.
  - destruct (again_spec cpu i s0 Hinv Hi) as (s2 & s3 & s4 & sw' & _ & Hw & Hinv1 & Hch & Hfi & E' & _).
    rewrite E in E'. injection E' as <- <-. eapply switch_inv; [done| |done..].
    by rewrite (w_idle _ _ Hw).
  - by destruct (wait_begin_spec _ _ _ _ Hinv He Hn E) as (c & t & _ & _ & _ & ?).
  - destruct Hinv as [A B C D F G H I J K]. constructor; cbn; unfold l_add_prev; auto.
    + intros q [Hq| ->%list_elem_of_singleton]%elem_of_app; auto.
    + apply NoDup_app. split_and!; [done| |apply NoDup_singleton].
      intros q Hq ->%list_elem_of_singleton. done.
    + intros cpu c Hc. destruct (C _ _ Hc). split; [done|].
      intros [?| ->%list_elem_of_singleton]%elem_of_app; [done|]. by destruct (Hno cpu).
    + intros cpu c Hc. destruct (F _ _ Hc). split; [done|].
      intros [?| ->%list_elem_of_singleton]%elem_of_app; [done|]. by destruct (Hno cpu).
  - by destruct Hinv.
Qed.

Lemma step_moves l s s' p k :
  sched_step l s s' -> sched_inv s -> ready_at s p k ->
  l = Some p \/ exists k', ready_at s' p k' /\ (match l with Some _ => S k' | None => k' end <= k)%nat.
Proof.
  intros [cpu i s0 s1 sw Hi E|cpu e s0 s1 He Hn E|q s0 Hq Hnq Hno|m s0] Hinv [Hk Ht].
  - destruct (again_moves cpu i s0 s1 sw p k Hinv Hi E (conj Hk Ht)) as [<-|(k' & -> & Hr)]; [by left|].
    right. by exists k'.
  - right. exists k. split; [|done].
    destruct (wait_begin_spec _ _ _ _ Hinv He Hn E) as (c & u & Hc & _ & -> & _). split; [done|].
    destruct Ht as (t & Ht & Hs). exists t. split; [|done]. cbn. rewrite lookup_insert_ne; [done|].
    intros ->. apply (si_run s0 Hinv _ _ Hc). by eapply list_elem_of_lookup_2.
  - right. exists k. split; [|done]. split; [|done]. by apply lookup_app_l_Some.
  - right. by exists k.
Qed.

(** The switches in a run. *)
Fixpoint switches (ls : list (option Z)) : nat :=
  match ls with
  | [] => 0
  | Some _ :: ls => S (switches ls)
  | None :: ls => switches ls
  end.

(** C19. No ready task starves.  A ready task with [k] tasks before it in the queue is
    switched to by one of the next [k + 1] calls of [sched_again], whichever
    processors make them, and whatever tasks start to wait, are added or wake up
    meanwhile. *)
Theorem ready_task_is_scheduled ls s s' p k :
  sched_inv s -> ready_at s p k -> sched_run ls s s' -> (k < switches ls)%nat -> Some p ∈ ls.
Proof.
  intros Hinv Hr Hrun. revert k Hinv Hr.
  induction Hrun as [s|l ls s1 s2 s3 Hstep Hrun IH]; intros k Hinv Hr Hk; [simpl in Hk; lia|].
  destruct (step_moves _ _ _ _ _ Hstep Hinv Hr) as [->|(k' & Hr' & Hle)]; [left|]. right.
  apply (IH k'); [by eapply sched_step_inv|done|]. destruct l; simpl in *; lia.
Qed.

(** ** Publication *)

(** Delivery of an event.  When nothing is pending, publishing an event with a
    subscription of its type makes every queued task that waits for the type ready, with
    the data in the event it waits for; without a subscription no task changes.
    In both cases nothing stays pending, the event is freed, and the state is well
    formed. *)
Theorem kevent_publish_delivers cpu e ty d nanos s c t :
  sched_inv s -> pub_list s = [] -> running_tasks s !! cpu = Some c -> tasks s !! c = Some t ->
  events s !! e = None ->
  exists s', kevent_publish cpu (Some e) ty d nanos s = Some s' /\ sched_inv s' /\
    pub_list s' = [] /\ events s' !! e = None /\ active_tasks s' = active_tasks s /\
    (subscribed s ty -> forall p, p ∈ active_tasks s -> wakes s ty p -> delivered d s s' p) /\
    (~ subscribed s ty -> tasks s' = tasks s /\ sub_list s' = sub_list s).
Proof.
  intros Hinv Hpub Hc Ht He. unfold kevent_publish, sched_get_tid, sched_get_task.
  rewrite Hc. simpl. rewrite Ht. simpl. set (ev := Event _ _ _ _ _).
  set (s1 := with_pub _ _). assert (pub_list s1 = [e]) as Hpub1 by (cbn; by rewrite Hpub).
  assert (forall q, q <> e -> events s1 !! q = events s !! q) as Hev.
  { intros q Hq. cbn. by rewrite lookup_insert_ne. }
  assert (forall q, is_Some (events s !! q) -> q <> e /\ is_Some (events s1 !! q)) as Hold.
  { intros q Hq. assert (q <> e) by (intros ->; rewrite He in Hq; by destruct Hq). by rewrite Hev. }
  assert (sched_inv s1) as Hinv1.
  { destruct Hinv as [A B C D F G H I J K]. constructor; auto.
    - intros p u Hu Hs. destruct (I p u Hu Hs) as [Hw _]. rewrite Hpub1.
      apply Hold in Hw as [Hne Hw]. split; [done|]. by intros ?%list_elem_of_singleton.
    - rewrite Hpub1. split; [apply NoDup_singleton|]. intros q ->%list_elem_of_singleton.
      cbn. rewrite lookup_insert_eq. by eexists.
    - intros q Hq. destruct (K q Hq) as [Hw _]. rewrite Hpub1. apply Hold in Hw as [Hne Hw].
      split; [done|]. by intros ?%list_elem_of_singleton. }
  destruct (dispatch_event_spec s1 e [] ev Hinv1 Hpub1) as (s' & E & Hw & Hp & Hfree & Hdel & Hno).
  { cbn. apply lookup_insert_eq. }
  exists s'. assert (subscribed s ty <-> subscribed s1 ty) as Hsub.
  { unfold subscribed. split; intros (q & qe & Hq & Hqe & Hty); exists q, qe; split_and!; try done.
    - by rewrite Hev by (apply Hold; by rewrite Hqe).
    - by rewrite <- Hev by (apply Hold, (si_sub s Hinv q Hq)). }
  unfold kevent_dispatch. rewrite Hpub1. cbn [length dispatch_loop]. unfold _publish_pop. rewrite Hpub1.
  cbn [l_remove_next mbind option_bind]. rewrite E. simpl. split_and!; [done| |done|done|apply Hw| |].
  - apply (woken_inv s1); [done|rewrite Hp; constructor|done].
  - intros Hs p Hpa (u & ue & Hu & Hus & Hu0 & Hue & Huty). apply Hdel; [by apply Hsub|done|].
    exists u, ue. split_and!; try done. by rewrite Hev by (apply Hold; by rewrite Hue).
  - intros Hs. apply Hno. intros Hn. apply Hs, Hsub, Hn.
Qed.

(** ** Concrete states

    One processor with an idle task (1), a running task (2), a ready one (3), and one
    (4) that waits for the keyboard with its subscription (100). *)

Definition demo_task (id : Z) (st : task_state_t) (e : Z) : task_t :=
  Task 0 id st e 0 0 0 (Stacks 0 0 0 0 0 0 0).
Definition demo_sched : sched_t :=
  Sched
    {[1 := demo_task 1 TASK_READY 0; 2 := demo_task 2 TASK_RUNNING 0; 3 := demo_task 3 TASK_READY 0;
      4 := demo_task 4 TASK_WAITING 100]}
    {[100 := Event TASK_ID_EMPTY 4 EV_KEYBOARD 0 0]}
    [4; 3] [] {[0 := 2]} {[0 := 1]} ∅ [100] [] ∅ 5.

Lemma demo_sched_inv : sched_inv demo_sched.
Proof.
  assert (forall cpu c, running_tasks demo_sched !! cpu = Some c -> cpu = 0 /\ c = 2) as Hr.
  { change (running_tasks demo_sched) with ({[0 := 2]} : gmap Z Z).
    intros cpu c [<- <-]%lookup_singleton_Some. done. }
  assert (forall cpu c, idle_tasks demo_sched !! cpu = Some c -> cpu = 0 /\ c = 1) as Hi.
  { change (idle_tasks demo_sched) with ({[0 := 1]} : gmap Z Z).
    intros cpu c [<- <-]%lookup_singleton_Some. done. }
  constructor.
  - change (active_tasks demo_sched) with [4; 3].
    intros p. rewrite !elem_of_cons, elem_of_nil. intros [->|[->|[]]]; by eexists.
  - apply NoDup_ListNoDup. repeat constructor; simpl; lia.
  - intros cpu c [-> ->]%Hr. split; [by eexists|]. change (active_tasks demo_sched) with [4; 3].
    rewrite !elem_of_cons, elem_of_nil. lia.
  - intros cpu cpu' c [-> _]%Hr [-> _]%Hr. done.
  - intros cpu c [-> ->]%Hi. split; [by eexists|]. change (active_tasks demo_sched) with [4; 3].
    rewrite !elem_of_cons, elem_of_nil. lia.
  - intros cpu cpu' c [-> _]%Hi [-> _]%Hi. done.
  - intros cpu cpu' c [_ ->]%Hi [_ ?]%Hr. lia.
  - intros p t Ht Hs. unfold demo_sched in Ht. cbn [tasks] in Ht.
    rewrite !lookup_insert_Some, lookup_singleton_Some in Ht.
    assert (t = demo_task 4 TASK_WAITING 100) as ->.
    { repeat (destruct Ht as [[_ <-]|[_ Ht]]; [done|]). by destruct Ht. }
    split; [by eexists|]. apply not_elem_of_nil.
  - split; [constructor|]. intros e He. by apply not_elem_of_nil in He.
  - intros e He. change (sub_list demo_sched) with [100] in He. apply list_elem_of_singleton in He as ->.
    split; [by eexists|]. apply not_elem_of_nil.
Qed.

Lemma sched_again_correct_witness :
  exists s' sw, sched_again 0 demo_sched = Some (s', sw) /\ sched_inv s' /\ to_task sw = 3.
Proof.
  destruct (sched_again_correct 0 1 demo_sched demo_sched_inv eq_refl)
    as (s1 & s' & sw & E1 & E & Hinv & Hto & _).
  exists s', sw. split; [exact E|]. split; [exact Hinv|]. rewrite Hto.
  vm_compute in E1. injection E1 as <-. reflexivity.
Defined.

Lemma ready_task_is_scheduled_witness :
  exists l1 l2 s', sched_run [Some l1; Some l2] demo_sched s' /\ Some 3 ∈ [Some l1; Some l2].
Proof.
  destruct (again_spec 0 1 demo_sched demo_sched_inv eq_refl)
    as (s1 & s2 & s' & sw & _ & Hw & Hinv1 & Hch & Hfi & E & _).
  assert (sched_step (Some (to_task sw)) demo_sched s') as St
    by (apply (st_again 0 1); [reflexivity|exact E]).
  pose proof (sched_step_inv _ _ _ St demo_sched_inv) as Hinv'.
  assert (idle_tasks s' !! 0 = Some 1) as Hi'.
  { rewrite (switch_idle 0 1 s1 s2 s' Hch Hfi). rewrite (w_idle _ _ Hw). reflexivity. }
  destruct (again_spec 0 1 s' Hinv' Hi') as (s3 & s4 & s'' & sw' & _ & _ & _ & _ & _ & E' & _).
  assert (sched_run [Some (to_task sw); Some (to_task sw')] demo_sched s'') as Hrun.
  { econstructor; [exact St|]. econstructor; [eapply st_again; [exact Hi'|exact E']|constructor]. }
  exists (to_task sw), (to_task sw'), s''. split; [exact Hrun|].
  apply (ready_task_is_scheduled _ demo_sched s'' 3 1 demo_sched_inv); [|exact Hrun|simpl; lia].
  split; [reflexivity|]. eexists. split; reflexivity.
Defined.

Lemma kevent_publish_delivers_witness :
  exists s', kevent_publish 0 (Some 200) EV_KEYBOARD 77 9 demo_sched = Some s' /\
    delivered 77 demo_sched s' 4.
Proof.
  destruct (kevent_publish_delivers 0 200 EV_KEYBOARD 77 9 demo_sched 2 (demo_task 2 TASK_RUNNING 0)
    demo_sched_inv eq_refl eq_refl eq_refl eq_refl) as (s' & E & _ & _ & _ & _ & Hdel & _).
  exists s'. split; [exact E|]. apply Hdel.
  - exists 100, (Event TASK_ID_EMPTY 4 EV_KEYBOARD 0 0). split_and!; [left|reflexivity..].
  - left.
  - exists (demo_task 4 TASK_WAITING 100), (Event TASK_ID_EMPTY 4 EV_KEYBOARD 0 0).
    split_and!; [reflexivity|reflexivity|discriminate|reflexivity|reflexivity].
Defined.

(** ** Behaviours worth knowing *)

(** An event published between the subscription and the switch of the subscriber is
    lost: the task already waits but is not queued yet, the event is freed, and the
    subscription stays. *)
Example publish_before_switch_is_lost :
  exists s1 s2, kevent_subscribe_begin 0 (Some 101) EV_KEYBOARD 0
      (with_active (fun _ => [3]) (with_sub (fun _ => []) demo_sched)) = Some s1 /\
    kevent_publish 0 (Some 200) EV_KEYBOARD 77 9 s1 = Some s2 /\
    option_map state (tasks s2 !! 2) = Some TASK_WAITING /\ sub_list s2 = [101] /\
    pub_list s2 = [] /\ option_map data (events s2 !! 101) = Some EV_DATA_NULL.
Proof. eexists _, _. split; [vm_compute; reflexivity|]. split; [vm_compute; reflexivity|]. by vm_compute. Qed.

(** Two tasks that wait for the keyboard are both woken by one event, but only one
    subscription is removed: when the second task frees its event, the list of
    subscriptions still refers to it. *)
Example second_subscription_dangles :
  let s := with_active (fun _ => [4; 3])
    (with_tasks <[3 := demo_task 3 TASK_WAITING 101]>
    (with_events <[101 := Event TASK_ID_EMPTY 3 EV_KEYBOARD 0 0]>
    (with_sub (fun _ => [100; 101]) demo_sched))) in
  exists s1 s2, kevent_publish 0 (Some 200) EV_KEYBOARD 77 9 s = Some s1 /\
    kevent_subscribe_end 3 101 s1 = Some (s2, 77) /\
    sub_list s2 = [101] /\ events s2 !! 101 = None.
Proof. eexists _, _. split; [vm_compute; reflexivity|]. split; [vm_compute; reflexivity|]. by vm_compute. Qed.
