(* ===== verification/Task.v ===== *)
(** * Tasks: images, stacks and arguments

    [kernel/src/proc/task.c] with [kernel/include/proc/task.h] for what concerns one task: the
    kernel stack it starts on, its path, arguments and environment, and the stack its
    program finds at its start.

    The part of [task_t] that the scheduler uses is [Sched.task_t]; the rest is
    [image_t], a record of the other fields.  The character arrays of the structure, the
    blocks of arguments, the stacks and the frames on them are bytes of the flat
    memory of [KLib], and the routines of [KLib] copy them.  What an allocator
    returns is an argument; a null pointer of an allocator that is used without a test is a
    fault, [None].  Loops over strings have the fuel of [KLib.strlen]. *)

From S2P Require Import Prelude KLib Sched.

(** ** Memory words *)

Definition load64 (m : memory) (p : Z) : Z := little_endian_to_Z 8 (load_word m p).
Definition store64 (m : memory) (p v : Z) : memory := store_bytes m p (Z_to_little_endian 8 8 v).
Definition store16 (m : memory) (p v : Z) : memory := store_bytes m p (Z_to_little_endian 2 8 v).

(** ** Data *)

Definition TASK_MAX_NAME_LEN : Z := 64.
Definition TASK_MAX_ARGV_LEN : Z := 32.
Definition PATH_LENGTH : Z := 256.

Definition USER_DATA_SELECTOR : Z := 0x23.
Definition USER_CODE_SELECTOR : Z := 0x2b.

Inductive task_mode_t := TASK_KERNEL_MODE | TASK_USER_MODE.
#[global] Instance task_mode_dec : EqDecision task_mode_t.
Proof. solve_decision. Defined.

(** [first_frame_t], [task_gr_t] and [trapframe_t]: sizes and offsets. *)
Definition FIRST_FRAME_SIZE : Z := 24.
Definition TASK_GR_SIZE : Z := 128.
Definition TRAPFRAME_SIZE : Z := 176.
Definition ff_func : Z := 0.
Definition ff_func0 : Z := 8.
Definition ff_param0 : Z := 16.
Definition tf_r15 : Z := 8.
Definition tf_r14 : Z := 16.
Definition tf_r13 : Z := 24.
Definition tf_r12 : Z := 32.
Definition tf_r11 : Z := 40.
Definition tf_r10 : Z := 48.
Definition tf_r9 : Z := 56.
Definition tf_r8 : Z := 64.
Definition tf_rdi : Z := 72.
Definition tf_rsi : Z := 80.
Definition tf_rbp : Z := 88.
Definition tf_rbx : Z := 96.
Definition tf_rdx : Z := 104.
Definition tf_rcx : Z := 112.
Definition tf_rax : Z := 120.
Definition tf_rip : Z := 136.
Definition tf_cs : Z := 144.
Definition tf_rflags : Z := 152.
Definition tf_rsp : Z := 160.
Definition tf_ss : Z := 168.

(** The size of [task_t] and the offsets of its character arrays. *)
Definition SIZEOF_TASK : Z := 888.
Definition off_name : Z := 104.
Definition off_execve_path : Z := 296.
Definition off_cwd : Z := 568.

Record frames_t := Frames { tstack : Z; tlimit : Z; task_gr : Z; frist_frame : Z; trap_frame : Z }.
Record ustack_t := Ustack { ustack : Z; ulimit : Z; ustack_ptr : Z }.
Record args_t := Args { u_argc : Z; u_argv : Z; u_envc : Z; u_envp : Z }.
Record auxv_t := Auxv { entry : Z; phdr : Z; phent : Z; phnum : Z }.
Record image_t := Image {
  mode : task_mode_t;
  priority : Z;
  start_routine : Z;
  system_routine : Z;
  mm : Z;
  frames : frames_t;
  ustk : ustack_t;
  args : args_t;
  is_fork : bool;
  auxv : auxv_t;
}.

Definition set_frames (f : frames_t) (i : image_t) : image_t :=
  Image (mode i) (priority i) (start_routine i) (system_routine i) (mm i) f (ustk i) (args i) (is_fork i) (auxv i).
Definition set_ustk (u : ustack_t) (i : image_t) : image_t :=
  Image (mode i) (priority i) (start_routine i) (system_routine i) (mm i) (frames i) u (args i) (is_fork i) (auxv i).
Definition set_args (a : args_t) (i : image_t) : image_t :=
  Image (mode i) (priority i) (start_routine i) (system_routine i) (mm i) (frames i) (ustk i) a (is_fork i) (auxv i).
Definition set_routine (r : Z) (i : image_t) : image_t :=
  Image (mode i) (priority i) r (system_routine i) (mm i) (frames i) (ustk i) (args i) (is_fork i) (auxv i).
Definition set_fork (b : bool) (i : image_t) : image_t :=
  Image (mode i) (priority i) (start_routine i) (system_routine i) (mm i) (frames i) (ustk i) (args i) b (auxv i).
Definition set_mm (x : Z) (i : image_t) : image_t :=
  Image (mode i) (priority i) (start_routine i) (system_routine i) x (frames i) (ustk i) (args i) (is_fork i) (auxv i).
Definition set_auxv (a : auxv_t) (i : image_t) : image_t :=
  Image (mode i) (priority i) (start_routine i) (system_routine i) (mm i) (frames i) (ustk i) (args i) (is_fork i) a.

(** A structure of zeros. *)
Definition null_image : image_t :=
  Image TASK_KERNEL_MODE 0 0 0 0 (Frames 0 0 0 0 0) (Ustack 0 0 0) (Args 0 0 0 0) false (Auxv 0 0 0 0).
Definition null_stacks : stacks_t := Stacks 0 0 0 0 0 0 0.

(** ** Kernel stacks

    [limit] is what [vmalloc] returned. *)

Definition _task_setup_kstack (limit : Z) (t : stacks_t * image_t) (m : memory) :
    option (stacks_t * image_t * memory) :=
  if limit =? 0 then None else
  let '(st, i) := t in
  let ff := limit + TASK_STACK_SIZE_32KB - FIRST_FRAME_SIZE in
  let gr := ff - TASK_GR_SIZE in
  let st := Stacks gr limit limit (rstack st) (rlimit st) (rstack_ptr st) (old_kstack_ptr st) in
  let i := set_frames (Frames gr limit gr ff (trap_frame (frames i))) i in
  let m := store64 m (ff + ff_func) (system_routine i) in
  let m := store64 m (ff + ff_func0) (start_routine i) in
  let m := store64 m (ff + ff_param0) 0 in
  Some (st, i, m).

Definition _task_setup_kstack_user (limit : Z) (replace : bool) (t : stacks_t * image_t) (m : memory) :
    option (stacks_t * image_t * memory) :=
  if limit =? 0 then None else
  let '(st, i) := t in
  let tf := limit + TASK_STACK_SIZE_32KB - TRAPFRAME_SIZE in
  let m := memset m tf 0 TRAPFRAME_SIZE in
  let ff := tf - FIRST_FRAME_SIZE in
  let m := memset m ff 0 FIRST_FRAME_SIZE in
  let gr := ff - TASK_GR_SIZE in
  let m := memset m gr 0 TASK_GR_SIZE in
  let st :=
    if replace then
      Stacks (kstack st) (klimit st) (kstack_ptr st) gr limit limit (old_kstack_ptr st)
    else Stacks gr limit limit (rstack st) (rlimit st) (rstack_ptr st) (old_kstack_ptr st) in
  let i := set_frames (Frames gr limit gr ff tf) i in
  let m := store64 m (ff + ff_func) (system_routine i) in
  let m := store64 m (ff + ff_func0) 0 in
  let m := store64 m (ff + ff_param0) 0 in
  let m := store16 m (tf + tf_ss) USER_DATA_SELECTOR in
  let m := store64 m (tf + tf_rflags) 0x202 in
  let m := store16 m (tf + tf_cs) USER_CODE_SELECTOR in
  Some (st, i, m).

(** ** Path, arguments and environment *)

Section Setup.
(** The fuel of [strlen]. *)
Variable fuel : nat.

(** [len = strlen(s); if (len >= cap) len = cap - 1; memcpy(dst, s, len); dst[len] = 0] *)
Definition copy_string (m : memory) (dst s cap : Z) : option memory :=
  len ← strlen fuel m s;
  let len := if cap <=? len then cap - 1 else len in
  Some (upd (memcpy m dst s len) (dst + len) 0).

Definition task_setup_path (t path : Z) (m : memory) : option memory :=
  copy_string m (t + off_execve_path) path PATH_LENGTH.
Definition task_setup_cwd (t cwd : Z) (m : memory) : option memory :=
  copy_string m (t + off_cwd) cwd PATH_LENGTH.

(** The loop of [task_setup_argv] and [task_setup_env]: [n] strings are left, the next
    is the [i]th of the array at [argv]. *)
Fixpoint copy_strings (n : nat) (i : Z) (m : memory) (block argv : Z) : option memory :=
  match n with
  | O => Some m
  | S n =>
    m ← copy_string m (block + i * TASK_MAX_ARGV_LEN) (load64 m (argv + 8 * i)) TASK_MAX_ARGV_LEN;
    copy_strings n (i + 1) m block argv
  end.

(** [block] is what [kzalloc] returned. *)
Definition copy_block (m : memory) (block argc argv : Z) : option memory :=
  if block =? 0 then None else
  copy_strings (Z.to_nat argc) 0 (memset m block 0 (argc * TASK_MAX_ARGV_LEN)) block argv.

Definition task_setup_argv (block argc argv : Z) (i : image_t) (m : memory) : option (image_t * memory) :=
  if argc <=? 0 then Some (i, m) else
  m ← copy_block m block argc argv;
  Some (set_args (Args argc block (u_envc (args i)) (u_envp (args i))) i, m).

Definition task_setup_env (block envc envp : Z) (i : image_t) (m : memory) : option (image_t * memory) :=
  if envc <=? 0 then Some (i, m) else
  m ← copy_block m block envc envp;
  Some (set_args (Args (u_argc (args i)) (u_argv (args i)) envc block) i, m).
End Setup.

Definition task_argv (i : image_t) (idx : Z) : Z := u_argv (args i) + idx * TASK_MAX_ARGV_LEN.
Definition task_envp (i : image_t) (idx : Z) : Z := u_envp (args i) + idx * TASK_MAX_ARGV_LEN.

(** ** The user stack *)

Definition task_setup_ustack (stack size : Z) (i : image_t) (m : memory) : image_t * memory :=
  let u := Ustack (stack + size) stack stack in
  (set_ustk u i, store64 m (trap_frame (frames i) + tf_rsp) (ustack u)).

Definition task_setup_routine (routine : Z) (i : image_t) (m : memory) : image_t * memory :=
  (set_routine routine i, store64 m (trap_frame (frames i) + tf_rip) routine).

(** The two loops of [task_init_ustack]: [n] strings are left, the [i]th is at [src i],
    goes to [area + 32 i], and its address to [ptrs + 8 i]. *)
Fixpoint push_strings (n : nat) (i : Z) (m : memory) (src : Z -> Z) (area ptrs : Z) : memory :=
  match n with
  | O => m
  | S n =>
    let dst := area + i * TASK_MAX_ARGV_LEN in
    let m := memcpy m dst (src i) TASK_MAX_ARGV_LEN in
    let m := store64 m (ptrs + 8 * i) dst in
    push_strings n (i + 1) m src area ptrs
  end.

Definition task_init_ustack (t : Z) (im : image_t) (m : memory) : image_t * memory :=
  let argc := u_argc (args im) + 1 in
  let envc := u_envc (args im) in
  let argv_area := ustack (ustk im) - argc * TASK_MAX_ARGV_LEN in
  let envp_area := argv_area - envc * TASK_MAX_ARGV_LEN in
  let argv_ptr := envp_area - argc * 8 in
  let envp_ptr := argv_ptr - (envc + 1) * 8 in
  let m := store64 m (envp_ptr + 8 * envc) 0 in
  let envpp := envp_ptr - 8 in
  let argvp := envpp - 8 in
  let argcp := argvp - 8 in
  let m := memcpy m argv_area (t + off_execve_path) TASK_MAX_ARGV_LEN in
  let m := store64 m argv_ptr argv_area in
  let m := push_strings (Z.to_nat (argc - 1)) 1 m (task_argv im) argv_area argv_ptr in
  let m := push_strings (Z.to_nat envc) 0 m (task_envp im) envp_area envp_ptr in
  let m := store64 m envpp envp_ptr in
  let m := store64 m argvp argv_ptr in
  let m := store64 m argcp argc in
  let sp := argcp in
  (set_ustk (Ustack sp (ulimit (ustk im)) (ustack_ptr (ustk im))) im,
   store64 m (trap_frame (frames im) + tf_rsp) sp).

(** ** The frame of a forked task

    [p_top] is the top of the parent's kernel stack, where the entry of the system call saved
    its registers, and [cpu_ustack] the user stack of the processor. *)
Definition copy_reg (p_top tf o d : Z) (m : memory) : memory :=
  store64 m (tf + o) (load64 m (p_top - d)).

Definition fork_frame (p_top cpu_ustack tf : Z) (m : memory) : memory :=
  let m := copy_reg p_top tf tf_rip 8 m in
  let m := copy_reg p_top tf tf_rflags 16 m in
  let m := store64 m (tf + tf_rsp) cpu_ustack in
  let m := copy_reg p_top tf tf_rcx 24 m in
  let m := copy_reg p_top tf tf_rdx 32 m in
  let m := copy_reg p_top tf tf_rbx 40 m in
  let m := copy_reg p_top tf tf_rbp 48 m in
  let m := copy_reg p_top tf tf_rsi 56 m in
  let m := copy_reg p_top tf tf_rdi 64 m in
  let m := copy_reg p_top tf tf_r8 72 m in
  let m := copy_reg p_top tf tf_r9 80 m in
  let m := copy_reg p_top tf tf_r10 88 m in
  let m := copy_reg p_top tf tf_r11 96 m in
  let m := copy_reg p_top tf tf_r12 104 m in
  let m := copy_reg p_top tf tf_r13 112 m in
  let m := copy_reg p_top tf tf_r14 120 m in
  let m := copy_reg p_top tf tf_r15 128 m in
  m.
