(* ===== verification/TaskProofs.v ===== *)
(** * Tasks: correctness

    What the program of a task finds on its stack, and what a forked task resumes with. *)

From S2P Require Import Prelude KLib Sched Task.

(** ** Memory *)

(** Two memories agree on [n] bytes. *)
Definition agree (m m' : memory) (p n : Z) : Prop := forall q, p <= q < p + n -> m' q = m q.

(** Two ranges do not overlap. *)
Definition apart (p n q k : Z) : Prop := p + n <= q \/ q + k <= p.

Lemma load64_agree m m' p : agree m m' p 8 -> load64 m' p = load64 m p.
Proof.
  intros H. unfold load64, load_word. f_equal. apply list_fmap_ext. intros i x Hx.
  apply lookup_seqZ in Hx. apply H. lia.
Qed.

Lemma load64_store64 m p v : load64 (store64 m p v) p = u64 v.
Proof.
  unfold load64, store64, u64. change (2 ^ 64) with (2 ^ (8 * 8)).
  rewrite <- little_endian_to_Z_to_little_endian by lia. f_equal.
  apply list_eq. intros i. unfold load_word. rewrite list_lookup_fmap.
  assert (length (Z_to_little_endian 8 8 v) = 8%nat) as Hl by apply (length_le_bytes 8).
  destruct (decide (i < 8)%nat) as [Hi|Hi].
  - rewrite lookup_seqZ_lt by lia. cbn [fmap option_fmap option_map]. rewrite store_bytes_spec, Hl, decide_True by lia.
    replace (Z.to_nat (p + Z.of_nat i - p)) with i by lia. symmetry. apply list_lookup_lookup_total_lt. lia.
  - rewrite lookup_seqZ_ge, (lookup_ge_None_2 (Z_to_little_endian 8 8 v)) by lia. done.
Qed.

Lemma store_agree m p l q n : apart p (Z.of_nat (length l)) q n -> agree m (store_bytes m p l) q n.
Proof. intros Ha x Hx. rewrite store_bytes_spec, decide_False; [done|]. destruct Ha; lia. Qed.

Lemma store64_agree m p v q n : apart p 8 q n -> agree m (store64 m p v) q n.
Proof. intros Ha. apply store_agree. by rewrite (length_le_bytes 8). Qed.

Lemma store16_agree m p v q n : apart p 2 q n -> agree m (store16 m p v) q n.
Proof. intros Ha. apply store_agree. by rewrite (length_le_bytes 2). Qed.

Lemma memcpy_agree m dst src size q n :
  0 <= size -> apart dst size src size -> apart dst size q n -> agree m (memcpy m dst src size) q n.
Proof.
  intros Hs Ha Hq x Hx. rewrite memcpy_copied by (destruct Ha; lia).
  rewrite decide_False; [done|]. destruct Hq; lia.
Qed.

Lemma memcpy_dst m dst src size j :
  apart dst size src size -> 0 <= j < size -> memcpy m dst src size (dst + j) = m (src + j).
Proof.
  intros Ha Hj. rewrite memcpy_copied by (destruct Ha; lia). rewrite decide_True by lia. f_equal. lia.
Qed.

Lemma memset_agree m dst v size q n : 0 <= size -> apart dst size q n -> agree m (memset m dst v size) q n.
Proof. intros Hs Ha x Hx. rewrite memset_spec, decide_False; [done| |done]. destruct Ha; lia. Qed.

Lemma agree_trans m1 m2 m3 p n : agree m1 m2 p n -> agree m2 m3 p n -> agree m1 m3 p n.
Proof. intros H1 H2 q Hq. by rewrite H2, H1. Qed.

Lemma agree_sub m m' p n q k : agree m m' p n -> p <= q -> q + k <= p + n -> agree m m' q k.
Proof. intros H ? ? x ?. apply H. lia. Qed.

(** ** The strings on the user stack *)

(** [k] strings from the [i]th on, with their addresses. *)
Definition strings_at (m0 m : memory) (src : Z -> Z) (area ptrs i k : Z) : Prop :=
  forall x, i <= x < i + k ->
    load64 m (ptrs + 8 * x) = u64 (area + x * 32) /\
    forall j, 0 <= j < 32 -> m (area + x * 32 + j) = m0 (src x + j).

Lemma strings_at_agree m0 m m' src area ptrs i k :
  0 <= k -> agree m m' (area + i * 32) (32 * k) -> agree m m' (ptrs + 8 * i) (8 * k) ->
  strings_at m0 m src area ptrs i k -> strings_at m0 m' src area ptrs i k.
Proof.
  intros Hk Ha Hp Hs x Hx. destruct (Hs x Hx) as [H1 H2]. split.
  - rewrite <- H1. apply load64_agree. eapply agree_sub; [exact Hp|lia..].
  - intros j Hj. rewrite <- H2 by done. apply Ha. lia.
Qed.

Lemma strings_at_src m0 m0' m src area ptrs i k :
  (forall x j, i <= x < i + k -> 0 <= j < 32 -> m0 (src x + j) = m0' (src x + j)) ->
  strings_at m0 m src area ptrs i k -> strings_at m0' m src area ptrs i k.
Proof. intros H Hs x Hx. destruct (Hs x Hx) as [H1 H2]. split; [done|]. intros j Hj. rewrite H2, H; done. Qed.

Lemma push_strings_spec src area ptrs n : forall i m,
  let k := Z.of_nat n in
  let m' := push_strings n i m src area ptrs in
  apart (area + i * 32) (32 * k) (ptrs + 8 * i) (8 * k) ->
  (forall x, i <= x < i + k ->
     apart (area + i * 32) (32 * k) (src x) 32 /\ apart (ptrs + 8 * i) (8 * k) (src x) 32) ->
  strings_at m m' src area ptrs i k /\
  (forall q, ~ (area + i * 32 <= q < area + i * 32 + 32 * k) -> ~ (ptrs + 8 * i <= q < ptrs + 8 * i + 8 * k) ->
     m' q = m q).
Proof.
  induction n as [|n IH]; intros i m k m' Hap Hsrc; [split; [intros x ?; lia|done]|].
  subst k m'. cbn [push_strings]. change TASK_MAX_ARGV_LEN with 32.
  set (m1 := memcpy m (area + i * 32) (src i) 32).
  set (m2 := store64 m1 (ptrs + 8 * i) (area + i * 32)).
  destruct (Hsrc i ltac:(lia)) as [Hs1 Hs2].
  assert (apart (area + i * 32) 32 (src i) 32) as Hsi by (destruct Hs1; [left|right]; lia).
  assert (forall q, ~ (area + i * 32 <= q < area + i * 32 + 32) -> ~ (ptrs + 8 * i <= q < ptrs + 8 * i + 8) ->
    m2 q = m q) as Hm2.
  { intros q H1 H2. unfold m2. rewrite (store64_agree m1 _ _ q 1) by (unfold apart; lia).
    apply (memcpy_agree m _ _ 32 q 1); unfold apart in *; lia. }
  destruct (IH (i + 1) m2) as [IH1 IH2].
  { destruct Hap; [left|right]; lia. }
  { intros x Hx. destruct (Hsrc x ltac:(lia)) as [[]  []]; split; unfold apart; lia. }
  set (m' := push_strings n (i + 1) m2 src area ptrs) in *.
  split.
  - intros x Hx. destruct (decide (x = i)) as [->|Hne].
    + split.
      * rewrite <- (load64_store64 m1 (ptrs + 8 * i)). apply load64_agree. intros q Hq.
        apply IH2; destruct Hap; lia.
      * intros j Hj. rewrite IH2 by (destruct Hap; lia). unfold m2.
        rewrite (store64_agree m1 _ _ (area + i * 32 + j) 1) by (unfold apart in *; lia).
        by apply memcpy_dst.
    + destruct (IH1 x ltac:(lia)) as [H1 H2]. split; [done|]. intros j Hj. rewrite H2 by done.
      destruct (Hsrc x ltac:(lia)) as [H3 H4]. apply Hm2; destruct H3, H4; lia.
  - intros q H1 H2. rewrite IH2 by lia. apply Hm2; lia.
Qed.

(** ** The stack of a new program *)

(** Where [task_init_ustack] puts things, from the top down. *)
Section Layout.
Context (im : image_t).
Definition argc_of : Z := u_argc (args im) + 1.
Definition envc_of : Z := u_envc (args im).
Definition argv_area_of : Z := ustack (ustk im) - argc_of * 32.
Definition envp_area_of : Z := argv_area_of - envc_of * 32.
Definition argv_ptr_of : Z := envp_area_of - argc_of * 8.
Definition envp_ptr_of : Z := argv_ptr_of - (envc_of + 1) * 8.
Definition sp_of : Z := envp_ptr_of - 24.
Definition stack_used : Z := ustack (ustk im) - sp_of.
End Layout.

(** What the program finds at [sp]: the number of arguments, the two vectors, their strings,
    and the null behind the environment. *)
Record start_stack (t : Z) (im : image_t) (m0 m : memory) : Prop := {
  ss_argc : load64 m (sp_of im) = argc_of im;
  ss_argv : load64 m (sp_of im + 8) = argv_ptr_of im;
  ss_envp : load64 m (sp_of im + 16) = envp_ptr_of im;
  ss_path : strings_at m0 m (fun _ => t + off_execve_path) (argv_area_of im) (argv_ptr_of im) 0 1;
  ss_args : strings_at m0 m (task_argv im) (argv_area_of im) (argv_ptr_of im) 1 (argc_of im - 1);
  ss_envs : strings_at m0 m (task_envp im) (envp_area_of im) (envp_ptr_of im) 0 (envc_of im);
  ss_end : load64 m (envp_ptr_of im + 8 * envc_of im) = 0;
}.

(** The stack has room and what is copied is not on it. *)
Record stack_room (t : Z) (im : image_t) : Prop := {
  sr_argc : 0 <= u_argc (args im);
  sr_envc : 0 <= u_envc (args im);
  sr_range : 0 <= sp_of im /\ ustack (ustk im) < 2 ^ 64;
  sr_path : apart (sp_of im) (stack_used im) (t + off_execve_path) 32;
  sr_argv : forall x, 1 <= x < argc_of im -> apart (sp_of im) (stack_used im) (task_argv im x) 32;
  sr_envp : forall x, 0 <= x < envc_of im -> apart (sp_of im) (stack_used im) (task_envp im x) 32;
  sr_frame : apart (sp_of im) (stack_used im) (trap_frame (frames im) + tf_rsp) 8;
}.

Ltac layout :=
  unfold stack_used, sp_of, envp_ptr_of, argv_ptr_of, envp_area_of, argv_area_of, argc_of, envc_of, apart in *.

(** A chain of stores that leaves a range alone. *)
Ltac frame_step :=
  first
    [ apply store64_agree; layout; lia
    | eapply agree_trans; [|apply store64_agree; layout; lia] ].

Lemma store64_u64 m p v : 0 <= v < 2 ^ 64 -> load64 (store64 m p v) p = v.
Proof. intros Hv. by rewrite load64_store64, u64_small. Qed.

(** The path, its pointer and the null behind the environment. *)
Lemma init_path_spec t im m :
  stack_room t im ->
  let m3 := store64 (memcpy (store64 m (envp_ptr_of im + 8 * envc_of im) 0) (argv_area_of im)
    (t + off_execve_path) 32) (argv_ptr_of im) (argv_area_of im) in
  (forall q, ~ (sp_of im <= q < ustack (ustk im)) -> m3 q = m q) /\
  strings_at m m3 (fun _ => t + off_execve_path) (argv_area_of im) (argv_ptr_of im) 0 1 /\
  load64 m3 (envp_ptr_of im + 8 * envc_of im) = 0.
Proof.
  intros [Ha He [Hlo Hhi] Hpath _ _ _].
  set (m1 := store64 m _ 0). set (m2 := memcpy m1 _ _ 32). set (m3 := store64 m2 _ _). split_and!.
  - intros q Hq. transitivity (m1 q); [|apply (store64_agree m _ _ q 1); layout; lia].
    transitivity (m2 q); [apply (store64_agree m2 _ _ q 1)|apply (memcpy_agree m1 _ _ 32 q 1)]; layout; lia.
  - intros x Hx. replace x with 0 by lia. rewrite Z.mul_0_l, Z.mul_0_r, !Z.add_0_r.
    split; [apply load64_store64|]. intros j Hj.
    unfold m3. rewrite (store64_agree m2 _ _ (argv_area_of im + j) 1) by (layout; lia).
    unfold m2. rewrite memcpy_dst by (layout; lia).
    apply (store64_agree m _ _ (t + off_execve_path + j) 1); layout; lia.
  - transitivity (load64 m1 (envp_ptr_of im + 8 * envc_of im)); [|by apply (store64_u64 m)].
    apply load64_agree. apply agree_trans with m2; [apply memcpy_agree|apply store64_agree]; layout; lia.
Qed.

Lemma task_init_ustack_spec t im m :
  stack_room t im ->
  let '(im', m') := task_init_ustack t im m in
  ustack (ustk im') = sp_of im /\ load64 m' (trap_frame (frames im) + tf_rsp) = sp_of im /\
  start_stack t im m m' /\
  forall q, ~ (sp_of im <= q < ustack (ustk im)) ->
    ~ (trap_frame (frames im) + tf_rsp <= q < trap_frame (frames im) + tf_rsp + 8) -> m' q = m q.
Proof.
  intros Hroom. destruct (init_path_spec t im m Hroom) as (Hm3 & Hp3 & He3).
  destruct Hroom as [Ha He [Hlo Hhi] Hpath Hargv Henvp Htf]. unfold task_init_ustack.
  change TASK_MAX_ARGV_LEN with 32. fold (argc_of im) (envc_of im).
  fold (argv_area_of im). fold (envp_area_of im). fold (argv_ptr_of im). fold (envp_ptr_of im).
  replace (envp_ptr_of im - 8 - 8 - 8) with (sp_of im) by (unfold sp_of; lia).
  replace (envp_ptr_of im - 8 - 8) with (sp_of im + 8) by (unfold sp_of; lia).
  replace (envp_ptr_of im - 8) with (sp_of im + 16) by (unfold sp_of; lia).
  set (m3 := store64 (memcpy _ _ _ _) _ _) in *.
  set (m4 := push_strings _ 1 m3 _ _ _). set (m5 := push_strings _ 0 m4 _ _ _).
  set (m6 := store64 m5 _ _). set (m7 := store64 m6 _ _). set (m8 := store64 m7 _ _). set (m9 := store64 m8 _ _).
  destruct (push_strings_spec (task_argv im) (argv_area_of im) (argv_ptr_of im)
    (Z.to_nat (argc_of im - 1)) 1 m3) as [Hs4 Hf4]; [layout; lia|intros x Hx; specialize (Hargv x); layout; lia|].
  destruct (push_strings_spec (task_envp im) (envp_area_of im) (envp_ptr_of im)
    (Z.to_nat (envc_of im)) 0 m4) as [Hs5 Hf5]; [layout; lia|intros x Hx; specialize (Henvp x); layout; lia|].
  fold m4 in Hs4, Hf4. fold m5 in Hs5, Hf5. rewrite !Z2Nat.id in * by (layout; lia).
  assert (forall p n, sp_of im + 24 <= p -> p + n <= ustack (ustk im) -> agree m5 m9 p n) as H59
    by (intros p n ? ?; do 3 frame_step; frame_step).
  assert (forall p n, argv_ptr_of im <= p /\ p + n <= envp_area_of im \/ argv_area_of im <= p \/
    p = envp_ptr_of im + 8 * envc_of im /\ n = 8 -> agree m4 m5 p n) as H45
    by (intros p n ? q ?; apply Hf5; layout; lia).
  assert (forall p n, sp_of im + 24 <= p -> p + n <= ustack (ustk im) ->
    argv_ptr_of im <= p /\ p + n <= envp_area_of im \/ argv_area_of im <= p \/
    p = envp_ptr_of im + 8 * envc_of im /\ n = 8 -> agree m4 m9 p n) as H49 by (intros; eapply agree_trans; eauto).
  split_and!; [done|cbn [frames set_ustk]; apply store64_u64; layout; lia| |].
  - constructor.
    + transitivity (load64 m8 (sp_of im)); [apply load64_agree; frame_step|apply store64_u64; layout; lia].
    + transitivity (load64 m7 (sp_of im + 8)); [apply load64_agree; do 2 frame_step|apply store64_u64; layout; lia].
    + transitivity (load64 m6 (sp_of im + 16)); [apply load64_agree; do 3 frame_step|apply store64_u64; layout; lia].
    + apply strings_at_agree with m3; [done| | |done].
      all: eapply agree_trans; [|apply H49; layout; lia]; intros q Hq; apply Hf4; layout; lia.
    + apply strings_at_agree with m4; [layout; lia|apply H49; layout; lia..|].
      eapply strings_at_src; [|exact Hs4]. intros x j Hx Hj. apply Hm3. specialize (Hargv x). layout. lia.
    + apply strings_at_agree with m5; [done|apply H59; layout; lia..|].
      eapply strings_at_src; [|exact Hs5]. intros x j Hx Hj. specialize (Henvp x).
      rewrite Hf4 by (layout; lia). apply Hm3. layout. lia.
    + rewrite <- He3. apply load64_agree. eapply agree_trans; [|apply H49; layout; lia].
      intros q Hq. apply Hf4; layout; lia.
  - intros q H1 H2. transitivity (m5 q).
    + cut (agree m5 m9 q 1); [intros H; apply H; lia|]. do 3 frame_step. frame_step.
    + rewrite Hf5, Hf4 by (layout; lia). by apply Hm3.
Qed.

(** ** Strings *)

Lemma cstr_iff m p s :
  cstr m p s <->
  (forall i c, s !! i = Some c -> m (p + Z.of_nat i) = c /\ 0 < c < 256) /\ m (p + Z.of_nat (length s)) = 0.
Proof.
  revert p. induction s as [|c s IH]; intros p; cbn [cstr length].
  { rewrite Z.add_0_r. naive_solver. }
  rewrite IH. replace (p + 1 + Z.of_nat (length s)) with (p + Z.of_nat (S (length s))) by lia. split.
  - intros (Hp & Hc & Hs & H0). split; [|done]. intros [|i] d Hd; cbn in Hd.
    + simplify_eq. by rewrite Z.add_0_r.
    + replace (p + Z.of_nat (S i)) with (p + 1 + Z.of_nat i) by lia. by apply Hs.
  - intros [Hs H0]. destruct (Hs 0%nat c eq_refl) as [Hp Hc]. rewrite Z.add_0_r in Hp. split; [done|]. split; [done|]. split; [|done].
    intros i d Hd. replace (p + 1 + Z.of_nat i) with (p + Z.of_nat (S i)) by lia. by apply Hs.
Qed.

Lemma strlen_cstr fuel m p s : cstr m p s -> (length s < fuel)%nat -> strlen fuel m p = Some (Z.of_nat (length s)).
Proof.
  intros Hc Hf. unfold strlen.
  cut (forall s fuel n, cstr m (p + n) s -> (length s < fuel)%nat ->
    strlen_from fuel m p n = Some (n + Z.of_nat (length s))).
  { intros H. rewrite (H s) by (rewrite ?Z.add_0_r; done). done. }
  clear. induction s as [|c s IH]; intros [|fuel] n Hc Hf; cbn [strlen_from cstr length] in *; try lia.
  - rewrite Hc. f_equal. lia.
  - destruct Hc as (Hp & Hc & Hs). rewrite (proj2 (Z.eqb_neq _ 0)) by lia.
    rewrite IH; [f_equal; lia| |lia]. by replace (p + (n + 1)) with (p + n + 1) by lia.
Qed.

Lemma cstr_agree m m' p s : agree m m' p (Z.of_nat (length s) + 1) -> cstr m p s -> cstr m' p s.
Proof.
  intros Ha [Hs H0]%cstr_iff. apply cstr_iff. split; [|rewrite Ha; [done|lia]].
  intros i c Hi. pose proof (lookup_lt_Some _ _ _ Hi). rewrite Ha by lia. by apply Hs.
Qed.

Lemma copy_string_spec fuel m dst p cap s :
  cstr m p s -> (length s < fuel)%nat -> 0 < cap -> apart dst cap p (Z.of_nat (length s) + 1) ->
  exists m', copy_string fuel m dst p cap = Some m' /\
    cstr m' dst (take (Z.to_nat (cap - 1)) s) /\ forall q, ~ (dst <= q < dst + cap) -> m' q = m q.
Proof.
  intros Hs Hf Hcap Hap. unfold copy_string. rewrite (strlen_cstr fuel m p s) by done. cbn [mbind option_bind].
  set (len := if cap <=? Z.of_nat (length s) then cap - 1 else Z.of_nat (length s)).
  assert (len = Z.of_nat (length (take (Z.to_nat (cap - 1)) s))) as Hlen.
  { rewrite length_take. unfold len. destruct (Z.leb_spec cap (Z.of_nat (length s))); lia. }
  rewrite length_take in Hlen. assert (0 <= len < cap /\ len <= Z.of_nat (length s)) by lia.
  assert (forall q, memcpy m dst p len q = if decide (dst <= q < dst + len) then m (p + (q - dst)) else m q) as Hm.
  { apply memcpy_copied; [lia|]. destruct Hap; lia. }
  eexists. split; [done|]. split.
  - apply cstr_iff. rewrite length_take, <- Hlen. split; [|by rewrite upd_spec, decide_True].
    intros i c Hi. apply lookup_take_Some in Hi as [Hi Hlt]. pose proof (lookup_lt_Some _ _ _ Hi).
    rewrite upd_spec, decide_False, Hm, decide_True by lia.
    apply cstr_iff in Hs as [Hs _]. replace (p + _) with (p + Z.of_nat i) by lia. by apply Hs.
  - intros q Hq. rewrite upd_spec, decide_False, Hm, decide_False by lia. done.
Qed.

(** A vector of strings at [argv]. *)
Definition vector_at (m : memory) (argv : Z) (strs : list (list Z)) : Prop :=
  forall i s, strs !! i = Some s -> cstr m (load64 m (argv + 8 * Z.of_nat i)) s.
(** A block of strings of at most 31 characters each. *)
Definition block_at (m : memory) (block : Z) (strs : list (list Z)) : Prop :=
  forall i s, strs !! i = Some s -> cstr m (block + 32 * Z.of_nat i) (take 31 s).
(** The block overlaps neither the vector nor its strings. *)
Definition block_apart (m : memory) (block argv : Z) (strs : list (list Z)) : Prop :=
  let n := Z.of_nat (length strs) in
  apart block (32 * n) argv (8 * n) /\
  forall i s, strs !! i = Some s ->
    apart block (32 * n) (load64 m (argv + 8 * Z.of_nat i)) (Z.of_nat (length s) + 1).

Lemma copy_strings_spec fuel block argv strs m0 : forall done todo m,
  strs = done ++ todo -> vector_at m0 argv strs -> block_apart m0 block argv strs ->
  Forall (fun s => (length s < fuel)%nat) strs ->
  (forall q, ~ (block <= q < block + 32 * Z.of_nat (length strs)) -> m q = m0 q) -> block_at m block done ->
  exists m', copy_strings fuel (length todo) (Z.of_nat (length done)) m block argv = Some m' /\
    block_at m' block strs /\
    forall q, ~ (block <= q < block + 32 * Z.of_nat (length strs)) -> m' q = m0 q.
Proof.
  intros dn todo. revert dn. induction todo as [|s todo IH]; intros dn m -> Hv Hap Hf Hm Hb; cbn [length copy_strings].
  { rewrite app_nil_r in *. eauto. }
  assert ((dn ++ s :: todo) !! length dn = Some s) as Hs by (by rewrite lookup_app_r, Nat.sub_diag by lia).
  destruct Hap as [Hap1 Hap2]. rewrite length_app in *. cbn [length] in *.
  assert (load64 m (argv + 8 * Z.of_nat (length dn)) = load64 m0 (argv + 8 * Z.of_nat (length dn))) as Hl.
  { apply load64_agree. intros q Hq. apply Hm. destruct Hap1; lia. }
  rewrite Hl. specialize (Hv _ _ Hs) as Hvs. specialize (Hap2 _ _ Hs) as Haps.
  destruct (copy_string_spec fuel m (block + Z.of_nat (length dn) * TASK_MAX_ARGV_LEN)
    (load64 m0 (argv + 8 * Z.of_nat (length dn))) TASK_MAX_ARGV_LEN s) as (m' & -> & Hc & Hq).
  { eapply cstr_agree; [|exact Hvs]. intros q Hq. apply Hm. destruct Haps; lia. }
  { by eapply (Forall_lookup_1 _ _ _ _ Hf). }
  { done. }
  { change TASK_MAX_ARGV_LEN with 32. destruct Haps; [left|right]; lia. }
  change TASK_MAX_ARGV_LEN with 32 in *. cbn [mbind option_bind].
  destruct (IH (dn ++ [s]) m') as (m2 & Hm2 & Hb2 & Hq2).
  - by rewrite <- app_assoc.
  - done.
  - split; rewrite length_app; done.
  - done.
  - intros q Hq'. rewrite Hq by lia. apply Hm. lia.
  - intros i x Hi. apply lookup_app_Some in Hi as [Hi|[Hge Hi]].
    + pose proof (lookup_lt_Some _ _ _ Hi) as Hlt. eapply cstr_agree; [|by apply Hb].
      intros q Hq'. rewrite length_take in Hq'. apply Hq. lia.
    + destruct (i - length dn)%nat eqn:E; [injection Hi as <-|done]. replace i with (length dn) by lia.
      replace (block + 32 * _) with (block + Z.of_nat (length dn) * 32) by lia. exact Hc.
  - exists m2. rewrite length_app in Hm2. cbn [length] in Hm2.
    replace (Z.of_nat (length dn) + 1) with (Z.of_nat (length dn + 1)) by lia. done.
Qed.

Lemma copy_block_spec fuel m block argv strs :
  block <> 0 -> vector_at m argv strs -> block_apart m block argv strs ->
  Forall (fun s => (length s < fuel)%nat) strs ->
  let n := Z.of_nat (length strs) in
  exists m', copy_block fuel m block n argv = Some m' /\ block_at m' block strs /\
    forall q, ~ (block <= q < block + 32 * n) -> m' q = m q.
Proof.
  intros Hb Hv Hap Hf n. unfold copy_block. rewrite (proj2 (Z.eqb_neq block 0)) by done.
  change TASK_MAX_ARGV_LEN with 32. subst n. rewrite Nat2Z.id.
  destruct (copy_strings_spec fuel block argv strs m [] strs (memset m block 0 (Z.of_nat (length strs) * 32)))
    as (m' & H1 & H2 & H3); [done..| |by intros ? ? ?|eauto].
  intros q Hq. rewrite memset_spec, decide_False by lia. done.
Qed.

(** [task_setup_argv] and [task_setup_env] with strings: the task has a block with a slot of 32 bytes for each, cut at 31 characters; the
    environment or the arguments it had stay.  Without strings nothing changes. *)
Lemma task_setup_argv_spec fuel block argv strs im m :
  strs <> [] -> block <> 0 -> vector_at m argv strs -> block_apart m block argv strs -> Forall (fun s => (length s < fuel)%nat) strs ->
  exists m', block_at m' block strs /\ (forall q, ~ (block <= q < block + 32 * Z.of_nat (length strs)) -> m' q = m q) /\
    task_setup_argv fuel block (Z.of_nat (length strs)) argv im m =
      Some (set_args (Args (Z.of_nat (length strs)) block (u_envc (args im)) (u_envp (args im))) im, m') /\
    task_setup_env fuel block (Z.of_nat (length strs)) argv im m =
      Some (set_args (Args (u_argc (args im)) (u_argv (args im)) (Z.of_nat (length strs)) block) im, m').
Proof.
  intros Hn Hb Hv Ha Hf. destruct (copy_block_spec fuel m block argv strs) as (m' & E & Bl & Fr); [done..|].
  exists m'. split; [done|]. split; [done|]. unfold task_setup_argv, task_setup_env.
  destruct strs as [|s0 strs]; [done|]. rewrite (proj2 (Z.leb_gt _ 0)) by (cbn [length]; lia). rewrite E. done.
Qed.
Lemma no_arguments fuel block argv im m :
  task_setup_argv fuel block 0 argv im m = Some (im, m) /\ task_setup_env fuel block 0 argv im m = Some (im, m).
Proof. done. Qed.


(** ** The frame of a forked task *)

(** The fields of the trap frame with the place below the top of the kernel stack where the entry
    of the system call saved them; [None] is the stack pointer, which the processor has. *)
Definition saved_regs : list (Z * option Z) :=
  [(tf_rip, Some 8); (tf_rflags, Some 16); (tf_rsp, None); (tf_rcx, Some 24); (tf_rdx, Some 32); (tf_rbx, Some 40);
   (tf_rbp, Some 48); (tf_rsi, Some 56); (tf_rdi, Some 64); (tf_r8, Some 72); (tf_r9, Some 80); (tf_r10, Some 88);
   (tf_r11, Some 96); (tf_r12, Some 104); (tf_r13, Some 112); (tf_r14, Some 120); (tf_r15, Some 128)].

Section Regs.
Context (p_top u tf : Z).

Definition saved_value (m : memory) (r : Z * option Z) : Z :=
  match r.2 with Some d => load64 m (p_top - d) | None => u end.
Definition save_field (m : memory) (r : Z * option Z) : memory :=
  match r with (o, Some d) => copy_reg p_top tf o d m | (o, None) => store64 m (tf + o) u end.
Definition copy_regs (l : list (Z * option Z)) (m : memory) : memory := fold_left save_field l m.

Lemma save_field_store m r : save_field m r = store64 m (tf + r.1) (saved_value m r).
Proof. by destruct r as [o [d|]]. Qed.

Lemma fork_frame_regs m : fork_frame p_top u tf m = copy_regs saved_regs m.
Proof. unfold fork_frame, copy_regs, saved_regs. cbn [fold_left save_field]. reflexivity. Qed.

(** Fields of a frame that do not overlap. *)
Fixpoint fields_apart (l : list (Z * option Z)) : Prop :=
  match l with
  | [] => True
  | r :: l => Forall (fun r' => apart r.1 8 r'.1 8) l /\ fields_apart l
  end.

(** In the frame, but not [rax] or the selectors, and from the saved registers. *)
Definition reg_ok (r : Z * option Z) : Prop :=
  0 <= r.1 /\ (r.1 + 8 <= tf_rax \/ r.1 = tf_rip \/ r.1 = tf_rflags \/ r.1 = tf_rsp) /\
  8 <= default 8 r.2 <= 128.

Lemma saved_regs_ok : Forall reg_ok saved_regs.
Proof. unfold reg_ok. apply (bool_decide_unpack _). vm_compute. done. Qed.
Lemma saved_regs_apart : fields_apart saved_regs.
Proof. repeat split; apply (bool_decide_unpack _); vm_compute; done. Qed.

Lemma copy_regs_other l q n : forall m,
  Forall (fun r => apart (tf + r.1) 8 q n) l -> agree m (copy_regs l m) q n.
Proof.
  induction l as [|r l IH]; intros m Hl; [by intros x|]. apply Forall_cons in Hl as [Hr Hl].
  eapply agree_trans; [|exact (IH (save_field m r) Hl)]. rewrite save_field_store. by apply store64_agree.
Qed.

Lemma load64_store64_ne m p v q : apart p 8 q 8 -> load64 (store64 m p v) q = load64 m q.
Proof. intros H. by apply load64_agree, store64_agree. Qed.

Lemma copy_regs_copied l : forall m,
  fields_apart l -> Forall reg_ok l -> apart (p_top - 128) 128 tf TRAPFRAME_SIZE ->
  Forall (fun r => load64 (copy_regs l m) (tf + r.1) = u64 (saved_value m r)) l.
Proof.
  induction l as [|r l IH]; intros m Hf Hb Hap; [constructor|]. destruct Hf as [Hr Hl].
  apply Forall_cons in Hb as [Hrb Hb]. set (m1 := store64 m (tf + r.1) (saved_value m r)).
  change (copy_regs (r :: l) m) with (copy_regs l (save_field m r)). rewrite save_field_store. fold m1. constructor.
  - rewrite (load64_agree m1); [apply load64_store64|].
    apply copy_regs_other. eapply Forall_impl; [exact Hr|]. intros r' Ha. unfold apart in *. lia.
  - specialize (IH m1 Hl Hb Hap).
    eapply Forall_impl; [exact (proj2 (Forall_and _ _) (conj IH Hb))|]. intros r' [H1 H2].
    etransitivity; [exact H1|]. f_equal. unfold saved_value. destruct r' as [o [d|]]; [|done].
    destruct Hrb as (H3 & H4 & _), H2 as (_ & _ & H5). cbn in H5 |- *. apply load64_store64_ne.
    unfold tf_rax, tf_rip, tf_rflags, tf_rsp, TRAPFRAME_SIZE, apart in *. lia.
Qed.
End Regs.

Definition mem_bytes (m : memory) : Prop := forall q, is_byte (m q).

Lemma load64_range m p : mem_bytes m -> 0 <= load64 m p < 2 ^ 64.
Proof.
  intros Hm. unfold load64. pose proof (little_endian_to_Z_bound 8 (load_word m p) ltac:(lia)) as H.
  unfold load_word in *. rewrite length_fmap, length_seqZ in H. apply H.
  apply Forall_fmap, Forall_true. intros q. apply Hm.
Qed.

Lemma load64_bytes m p :
  load64 m p = little_endian_to_Z 8
    [m p; m (p + 1); m (p + 2); m (p + 3); m (p + 4); m (p + 5); m (p + 6); m (p + 7)].
Proof.
  unfold load64. f_equal. apply list_eq. intros i. unfold load_word. rewrite list_lookup_fmap.
  destruct (decide (i < 8)%nat) as [Hi|Hi].
  - rewrite lookup_seqZ_lt by lia. do 8 (destruct i as [|i]; [cbn; do 2 f_equal; lia|]). lia.
  - rewrite lookup_seqZ_ge by lia. by rewrite lookup_ge_None_2 by (cbn; lia).
Qed.

(** A 16-bit field in a zeroed word. *)
Lemma load64_store16 m p v :
  0 <= v < 256 -> (forall j, 0 <= j < 8 -> m (p + j) = 0) -> load64 (store16 m p v) p = v.
Proof.
  intros Hv Hz. unfold store16. assert (Z_to_little_endian 2 8 v = [v; 0]) as ->.
  { unfold Z_to_little_endian. cbn. rewrite Z.shiftr_div_pow2 by lia.
    change 255 with (Z.ones 8). rewrite !Z.land_ones by lia. rewrite Z.mod_small, Z.div_small by lia. done. }
  rewrite load64_bytes. cbn [store_bytes]. rewrite !upd_spec.
  repeat first [rewrite decide_False by lia | rewrite decide_True by lia]. rewrite !Hz by lia. cbn. by rewrite Z.lor_0_r.
Qed.

Lemma load64_zero m p : (forall j, 0 <= j < 8 -> m (p + j) = 0) -> load64 m p = 0.
Proof. intros Hz. rewrite load64_bytes. rewrite <- (Z.add_0_r p) at 1. by rewrite !Hz by lia. Qed.

(** The first switch to a new user task pops sixteen zero registers and returns to [system_routine]; behind them is
    a trap frame for user mode. *)
Record user_kstack (limit : Z) (i i' : image_t) (m m' : memory) : Prop := {
  uk_frames :
    let tf := limit + TASK_STACK_SIZE_32KB - TRAPFRAME_SIZE in
    let ff := tf - FIRST_FRAME_SIZE in
    let gr := ff - TASK_GR_SIZE in
    frames i' = Frames gr limit gr ff tf;
  uk_regs : forall o, 0 <= o <= TASK_GR_SIZE - 8 -> load64 m' (task_gr (frames i') + o) = 0;
  uk_func : load64 m' (frist_frame (frames i')) = u64 (system_routine i);
  uk_trap : forall o, 0 <= o <= tf_rip -> load64 m' (trap_frame (frames i') + o) = 0;
  uk_cs : load64 m' (trap_frame (frames i') + tf_cs) = USER_CODE_SELECTOR;
  uk_rflags : load64 m' (trap_frame (frames i') + tf_rflags) = 0x202;
  uk_ss : load64 m' (trap_frame (frames i') + tf_ss) = USER_DATA_SELECTOR;
  uk_frame : forall q, ~ (limit <= q < limit + TASK_STACK_SIZE_32KB) -> m' q = m q;
}.

Ltac kconst :=
  unfold TASK_STACK_SIZE_32KB, TRAPFRAME_SIZE, FIRST_FRAME_SIZE, TASK_GR_SIZE, ff_func, ff_func0, ff_param0, tf_ss, tf_cs,
    tf_rflags, tf_rip, tf_rsp, tf_rax, apart in *.
Ltac kagree :=
  repeat first
    [ apply store64_agree; unfold apart; lia
    | apply store16_agree; unfold apart; lia
    | apply memset_agree; unfold apart; lia
    | eapply agree_trans; [|apply store64_agree; unfold apart; lia]
    | eapply agree_trans; [|apply store16_agree; unfold apart; lia]
    | eapply agree_trans; [|apply memset_agree; unfold apart; lia] ].

Lemma agree_at m m' q : agree m m' q 1 -> m' q = m q.
Proof. intros H. apply H. lia. Qed.

Lemma kstack_user_spec limit replace st i m :
  limit <> 0 ->
  exists st' i' m', _task_setup_kstack_user limit replace (st, i) m = Some (st', i', m') /\
    user_kstack limit i i' m m' /\
    if replace then rlimit st' = limit /\ rstack_ptr st' = limit /\ kstack_ptr st' = kstack_ptr st /\ klimit st' = klimit st
    else klimit st' = limit /\ kstack_ptr st' = limit.
Proof.
  intros Hl. unfold _task_setup_kstack_user. rewrite (proj2 (Z.eqb_neq limit 0)) by done.
  eexists _, _, _. split; [reflexivity|]. split; [|by destruct replace].
  cbn [system_routine set_frames frames].
  set (tf := limit + TASK_STACK_SIZE_32KB - TRAPFRAME_SIZE). set (ff := tf - FIRST_FRAME_SIZE).
  set (gr := ff - TASK_GR_SIZE).
  set (m1 := memset m tf 0 _). set (m2 := memset m1 ff 0 _). set (m3 := memset m2 gr 0 _).
  set (m4 := store64 m3 _ _). set (m5 := store64 m4 _ 0). set (m6 := store64 m5 _ 0). set (m7 := store16 m6 _ _).
  set (m8 := store64 m7 _ _). set (m9 := store16 m8 _ _).
  assert (forall q, gr <= q < limit + TASK_STACK_SIZE_32KB -> m3 q = 0) as Hz.
  { intros q Hq. unfold m3, m2, m1. rewrite !memset_spec by (kconst; lia).
    repeat (case_decide; [done|]). exfalso. unfold gr, ff, tf in *. kconst. lia. }
  constructor; cbn [frames task_gr frist_frame trap_frame]; try done.
  - intros o Ho. apply load64_zero. intros j Hj. rewrite <- (Hz (gr + o + j)) by (unfold gr, ff, tf in *; kconst; lia).
    apply agree_at. unfold m9, m8, m7, m6, m5, m4, gr in *. kconst; kagree.
  - rewrite <- (Z.add_0_r ff). change (ff + 0) with (ff + ff_func). rewrite <- (load64_store64 m3 (ff + ff_func)).
    fold m4. apply load64_agree. unfold m9, m8, m7, m6, m5, ff. kconst; kagree.
  - intros o Ho. apply load64_zero. intros j Hj. rewrite <- (Hz (tf + o + j)) by (unfold gr, ff, tf in *; kconst; lia).
    apply agree_at. unfold m9, m8, m7, m6, m5, m4, ff in *. kconst; kagree.
  - unfold m9. apply load64_store16; [done|]. intros j Hj.
    rewrite <- (Hz (tf + tf_cs + j)) by (unfold gr, ff, tf in *; kconst; lia).
    apply agree_at. unfold m8, m7, m6, m5, m4, ff in *. kconst; kagree.
  - transitivity (load64 m8 (tf + tf_rflags)); [|by apply store64_u64]. apply load64_agree. unfold m9. kconst; kagree.
  - transitivity (load64 m7 (tf + tf_ss)); [apply load64_agree; unfold m9, m8; kconst; kagree|].
    unfold m7. apply load64_store16; [done|]. intros j Hj.
    rewrite <- (Hz (tf + tf_ss + j)) by (unfold gr, ff, tf in *; kconst; lia).
    apply agree_at. unfold m6, m5, m4, ff in *. kconst; kagree.
  - intros q Hq. apply agree_at. unfold m9, m8, m7, m6, m5, m4, m3, m2, m1, gr, ff, tf in *. kconst; kagree.
Qed.

(** C39. The kernel stack and trap frame of a forked task: it resumes in user mode behind the system call, with
    every register that the entry of the system call saved for the parent, the parent's stack pointer, and
    zero in [rax], which is what [fork] returns in the child. *)
Theorem fork_resumes_parent limit st i m p_top u :
  limit <> 0 -> mem_bytes m -> 0 <= u < 2 ^ 64 -> apart (p_top - 128) 128 limit TASK_STACK_SIZE_32KB ->
  exists st' i' m1, _task_setup_kstack_user limit false (st, i) m = Some (st', i', m1) /\
    let tf := trap_frame (frames i') in
    let m' := fork_frame p_top u tf m1 in
    Forall (fun r => load64 m' (tf + r.1) = saved_value p_top u m r) saved_regs /\
    load64 m' (tf + tf_rax) = 0 /\
    load64 m' (tf + tf_cs) = USER_CODE_SELECTOR /\ load64 m' (tf + tf_ss) = USER_DATA_SELECTOR /\
    forall q, ~ (limit <= q < limit + TASK_STACK_SIZE_32KB) -> m' q = m q.
Proof.
  intros Hl Hm Hu Hap. destruct (kstack_user_spec limit false st i m Hl) as (st' & i' & m1 & E & [F1 F2 F3 F4 F5 F6 F7 F8] & _).
  exists st', i', m1. split; [done|]. cbv zeta. cbv zeta in F1.
  assert (trap_frame (frames i') = limit + TASK_STACK_SIZE_32KB - TRAPFRAME_SIZE) as Htf by (by rewrite F1).
  set (tf := trap_frame (frames i')) in *. clearbody tf. clear F1 F2 F3 E.
  assert (apart (p_top - 128) 128 tf TRAPFRAME_SIZE) as Hap' by (kconst; lia).
  rewrite fork_frame_regs.
  assert (forall q n, q + n <= tf \/ tf + tf_rax <= q /\ q + n <= tf + tf_rax + 8 \/
    tf + tf_cs <= q /\ q + n <= tf + tf_rflags \/ tf + tf_ss <= q ->
    agree m1 (copy_regs p_top u tf saved_regs m1) q n) as Hkeep.
  { intros q n Hq. apply copy_regs_other. eapply Forall_impl; [apply saved_regs_ok|].
    intros r (H1 & H2 & _). kconst. lia. }
  pose proof (copy_regs_copied p_top u tf saved_regs m1 saved_regs_apart saved_regs_ok Hap') as Hregs.
  assert (forall d, 8 <= d <= 128 -> load64 m1 (p_top - d) = load64 m (p_top - d)) as Hld.
  { intros d Hd. apply load64_agree. intros q Hq. apply F8. kconst. lia. }
  split_and!.
  - eapply Forall_impl; [exact (proj2 (Forall_and _ _) (conj Hregs saved_regs_ok))|]. intros [o [d|]] [H1 H2].
    + etransitivity; [exact H1|]. destruct H2 as (_ & _ & H2). cbn in H2 |- *. rewrite Hld by done.
      apply u64_small, load64_range, Hm.
    + etransitivity; [exact H1|]. by apply u64_small.
  - rewrite (load64_agree m1) by (apply Hkeep; lia). apply F4. done.
  - rewrite (load64_agree m1) by (apply Hkeep; kconst; lia). done.
  - rewrite (load64_agree m1) by (apply Hkeep; kconst; lia). done.
  - intros q Hq. rewrite <- F8 by done. apply agree_at, Hkeep. kconst. lia.
Qed.

(** The last entry of the argument vector is not one of the [u_argc] strings of the block but the 32 bytes behind
    it: [task_init_ustack] counts the path as one more argument and leaves out the first string instead. *)
Lemma last_argument_is_behind_block t im m :
  stack_room t im -> 1 <= u_argc (args im) ->
  let '(im', m') := task_init_ustack t im m in
  forall j, 0 <= j < 32 ->
    m' (load64 m' (load64 m' (ustack (ustk im') + 8) + 8 * u_argc (args im)) + j) =
    m (u_argv (args im) + u_argc (args im) * 32 + j).
Proof.
  intros Hr Hn. pose proof (task_init_ustack_spec t im m Hr) as H.
  destruct (task_init_ustack t im m) as [im' m']. destruct H as (Hu & _ & [_ S2 _ _ S5 _ _] & _).
  destruct Hr as [_ Hec [Hlo Hhi] _ _ _ _]. intros j Hj. rewrite Hu, S2.
  destruct (S5 (u_argc (args im))) as [-> Hb]; [unfold argc_of; lia|]. rewrite u64_small by (layout; lia).
  by apply Hb.
Qed.

(** *** A concrete program

    A task at 1000 with the path "/bin/ls", a block with the arguments "ls" and "-l", and no environment. *)
Definition demo_mem : memory :=
  store_bytes (store_bytes (store_bytes (fun _ => 0) 4000 [108; 115; 0]) 4032 [45; 108; 0]) 1296 [47; 98; 105; 110; 47; 108; 115; 0].
Definition demo_image : image_t :=
  set_args (Args 2 4000 0 0) (set_frames (Frames 0 0 0 0 50000) (set_ustk (Ustack 40000 7232 7232) null_image)).


(** The registers of a parent with its kernel stack below 60000; the stack of the child is at 100000. *)
Lemma fork_resumes_parent_witness :
  exists st' i' m1, _task_setup_kstack_user 100000 false (null_stacks, null_image) (fun q => q mod 256) = Some (st', i', m1) /\
    let tf := trap_frame (frames i') in
    let m' := fork_frame 60000 7000 tf m1 in
    load64 m' (tf + tf_rip) = load64 (fun q => q mod 256) 59992 /\ load64 m' (tf + tf_rax) = 0.
Proof.
  destruct (fork_resumes_parent 100000 null_stacks null_image (fun q => q mod 256) 60000 7000)
    as (st' & i' & m1 & E & H1 & H2 & _); [done| |done|left; vm_compute; congruence|].
  - intros q. apply Z.mod_pos_bound. lia.
  - exists st', i', m1. split; [exact E|]. split; [|exact H2].
    exact (proj1 (proj1 (Forall_cons _ _ _) H1)).
Defined.
