(* ===== verification/Elf.v ===== *)
(** * ELF loader

    [kernel/src/proc/elf.c] with [kernel/include/proc/elf.h]: the file is read into a block of the kernel heap, its
    loadable segments are copied into new areas of the task, and the task gets its stack and entry point.

    The file comes through [Vfs]; the block and the areas are in the flat memory of [KLib].  What [kzalloc] returns is an
    argument, and so is [vmalloc], as a function of the areas so far, the address and the size; [Vmalloc] has the function itself.
    Of the task's address space the starts of its areas are kept, and of the kernel heap the blocks in use.  [None] is a null pointer that is written through, or a fault of a file system. *)

From S2P Require Import Prelude KLib Sched Task Vfs.

(** ** The headers *)

Definition ELFMAGIC : Z := 0x464C457F.
Definition PT_LOAD : Z := 1.

(** A field of [n] bytes. *)
Definition field (n : Z) (m : memory) (p : Z) : Z := little_endian_to_Z 8 (m <$> seqZ p n).

Definition e_magic (m : memory) (ehdr : Z) : Z := field 4 m ehdr.
Definition e_entry (m : memory) (ehdr : Z) : Z := field 8 m (ehdr + 24).
Definition e_phoff (m : memory) (ehdr : Z) : Z := field 8 m (ehdr + 32).
Definition e_shoff (m : memory) (ehdr : Z) : Z := field 8 m (ehdr + 40).
Definition e_phentsize (m : memory) (ehdr : Z) : Z := field 2 m (ehdr + 54).
Definition e_phnum (m : memory) (ehdr : Z) : Z := field 2 m (ehdr + 56).
Definition e_shentsize (m : memory) (ehdr : Z) : Z := field 2 m (ehdr + 58).

Definition p_type (m : memory) (phdr : Z) : Z := field 4 m phdr.
Definition p_offset (m : memory) (phdr : Z) : Z := field 8 m (phdr + 8).
Definition p_vaddr (m : memory) (phdr : Z) : Z := field 8 m (phdr + 16).
Definition p_filesz (m : memory) (phdr : Z) : Z := field 8 m (phdr + 32).
Definition p_memsz (m : memory) (phdr : Z) : Z := field 8 m (phdr + 40).

Definition elf_section (m : memory) (ehdr idx : Z) : Z := u64 (ehdr + e_shoff m ehdr + idx * e_shentsize m ehdr).
Definition elf_program (m : memory) (ehdr idx : Z) : Z := u64 (ehdr + e_phoff m ehdr + idx * e_phentsize m ehdr).
Definition elf_program_data (m : memory) (ehdr idx : Z) : Z := u64 (ehdr + p_offset m (elf_program m ehdr idx)).

(** ** Segments *)

(** The loop over the program headers from the [i]th on.  [vmalloc areas addr size] is what a call of [vmalloc] returns
    for the address space of the task when [areas] are the starts of its areas; the area is then one of them. *)
Fixpoint load_segments (vmalloc : gset Z -> Z -> Z -> Z) (fuel : nat) (i : Z) (m : memory) (ehdr : Z) (areas : gset Z) :
    option (memory * gset Z) :=
  match fuel with
  | O => None
  | S fuel =>
    if i <? e_phnum m ehdr then
      let phdr := elf_program m ehdr i in
      if (p_type m phdr =? PT_LOAD) && ctrue (p_memsz m phdr) && ctrue (p_filesz m phdr) then
        let pdata := vmalloc areas (p_vaddr m phdr) (p_memsz m phdr) in
        if pdata =? 0 then None else
        load_segments vmalloc fuel (i + 1) (memcpy m pdata (elf_program_data m ehdr i) (p_filesz m phdr)) ehdr ({[pdata]} ∪ areas)
      else load_segments vmalloc fuel (i + 1) m ehdr areas
    else Some (m, areas)
  end.

(** ** The loader *)

Section Elf.
Context {F W P : Type} {ops : FsOps F W P}.

Record loader_t := Loader {
  l_vfs : vfs_state (F := F) (W := W) (P := P);
  l_image : image_t;
  l_mem : memory;
  l_areas : gset Z;
  l_heap : gset Z;
}.

(** [fbuff] is what [kzalloc] returned; [cur] is the running task, whose files are used, with its [cwd]. *)
Definition elf_load (vmalloc : gset Z -> Z -> Z -> Z) (cwd : list Z) (cur : Z) (path : list Z) (fbuff : Z) (l : loader_t) :
    option (loader_t * Z) :=
  let '(Loader st im m areas heap) := l in
  '(st, fh) ← vfs_open st cwd cur path VFS_MODE_READ;
  if fh <? 0 then Some (Loader st im m areas heap, fh) else
  '(st, fsize) ← vfs_lseek st cur fh 0 SEEK_END;
  if fsize =? 0 then Some (Loader st im m areas heap, -1) else
  '(st, _) ← vfs_lseek st cur fh 0 SEEK_SET;
  if fbuff =? 0 then None else
  let m := memset m fbuff 0 (fsize + 1) in
  let heap := {[fbuff]} ∪ heap in
  '(st, (rflag, bs)) ← vfs_read st cur fh fsize;
  let m := store_bytes m fbuff bs in
  if rflag =? -1 then Some (Loader st im m areas heap, -1) else
  if negb (e_magic m fbuff =? ELFMAGIC) then Some (Loader st im m areas heap, -1) else
  '(m, areas) ← load_segments vmalloc (S (Z.to_nat (e_phnum m fbuff))) 0 m fbuff areas;
  let ustack := vmalloc areas 0 TASK_STACK_SIZE_32KB in
  let areas := if ustack =? 0 then areas else {[ustack]} ∪ areas in
  let '(im, m) := task_setup_ustack ustack TASK_STACK_SIZE_32KB im m in
  let '(im, m) := task_setup_routine (e_entry m fbuff) im m in
  let im := set_auxv (Auxv (e_entry m fbuff) 0 0 0) im in
  Some (Loader st im m areas (heap ∖ {[fbuff]}), 0).
End Elf.
