(* ===== verification/ElfProofs.v ===== *)
(** * ELF loader: correctness

    A well-formed file is loaded as its headers say. *)

From S2P Require Import Prelude KLib Sched Task TaskProofs Vfs RamFs RamFsProofs VfsProofs Elf.

(** ** Files

    The fields of the headers as bytes of the file. *)

Definition f_magic (f : list Z) : Z := get_le 4 f 0.
Definition f_entry (f : list Z) : Z := get_le 8 f 24.
Definition f_phoff (f : list Z) : Z := get_le 8 f 32.
Definition f_phentsize (f : list Z) : Z := get_le 2 f 54.
Definition f_phnum (f : list Z) : Z := get_le 2 f 56.
Definition ph (f : list Z) (i : Z) : nat := Z.to_nat (f_phoff f + i * f_phentsize f).
Definition ph_type (f : list Z) (i : Z) : Z := get_le 4 f (ph f i).
Definition ph_offset (f : list Z) (i : Z) : Z := get_le 8 f (ph f i + 8).
Definition ph_vaddr (f : list Z) (i : Z) : Z := get_le 8 f (ph f i + 16).
Definition ph_filesz (f : list Z) (i : Z) : Z := get_le 8 f (ph f i + 32).
Definition ph_memsz (f : list Z) (i : Z) : Z := get_le 8 f (ph f i + 40).

Definition loadable (f : list Z) (i : Z) : bool :=
  (ph_type f i =? PT_LOAD) && ctrue (ph_memsz f i) && ctrue (ph_filesz f i).
(** The loadable segments from the [i]th header on. *)
Definition loads_from (f : list Z) (i : Z) : list Z :=
  filter (fun k => loadable f k = true) (seqZ i (f_phnum f - i)).

Record elf_file (f : list Z) : Prop := {
  ef_bytes : bytes f;
  ef_header : (64 <= length f)%nat;
  ef_phdrs : forall i, 0 <= i < f_phnum f -> f_phoff f + i * f_phentsize f + 56 <= Z.of_nat (length f);
  ef_data : forall i, 0 <= i < f_phnum f -> loadable f i = true ->
    ph_offset f i + ph_filesz f i <= Z.of_nat (length f);
}.

(** The file in memory. *)
Definition mem_file (m : memory) (fb : Z) (f : list Z) : Prop :=
  forall k c, f !! k = Some c -> m (fb + Z.of_nat k) = c.

Lemma field_file m fb f n off p :
  mem_file m fb f -> p = fb + Z.of_nat off -> (off + n <= length f)%nat -> field (Z.of_nat n) m p = get_le n f off.
Proof.
  intros Hm -> Hl. unfold field, get_le. f_equal. apply list_eq. intros i. rewrite list_lookup_fmap.
  destruct (decide (i < n)%nat) as [Hi|Hi].
  - rewrite lookup_seqZ_lt, lookup_slice by lia. cbn.
    destruct (lookup_lt_is_Some_2 f (off + i)) as [c Hc]; [lia|]. rewrite Hc. f_equal.
    rewrite <- (Hm _ _ Hc). f_equal. lia.
  - rewrite lookup_seqZ_ge by lia. symmetry. apply lookup_ge_None_2. rewrite length_slice by done. lia.
Qed.

Lemma get_field_range n f off :
  bytes f -> (off + n <= length f)%nat -> 0 <= get_le n f off < 2 ^ (Z.of_nat n * 8).
Proof.
  intros Hb Hl. unfold get_le. replace (Z.of_nat n * 8) with (Z.of_nat (length (slice off n f)) * 8)
    by (by rewrite length_slice).
  apply little_endian_to_Z_bound; [done|]. unfold slice. apply Forall_take, Forall_drop. exact Hb.
Qed.

Section File.
Context (f : list Z) (fb : Z).
Hypothesis Hf : elf_file f.
Hypothesis Hfb : 0 <= fb /\ fb + Z.of_nat (length f) < 2 ^ 64.

Lemma phnum_range : 0 <= f_phnum f < 2 ^ 16.
Proof. destruct Hf as [Hb Hh _ _]. apply (get_field_range 2); [done|lia]. Qed.
Lemma phoff_range : 0 <= f_phoff f.
Proof. destruct Hf as [Hb Hh _ _]. apply (get_field_range 8); [done|lia]. Qed.
Lemma phentsize_range : 0 <= f_phentsize f.
Proof. destruct Hf as [Hb Hh _ _]. apply (get_field_range 2); [done|lia]. Qed.

Lemma ph_in i : 0 <= i < f_phnum f ->
  Z.of_nat (ph f i) = f_phoff f + i * f_phentsize f /\ (ph f i + 56 <= length f)%nat.
Proof.
  intros Hi. pose proof (ef_phdrs f Hf i Hi). pose proof phoff_range. pose proof phentsize_range.
  assert (0 <= i * f_phentsize f) by nia. unfold ph. lia.
Qed.

(** What the loader reads. *)
Lemma read_elf_header m :
  mem_file m fb f -> e_magic m fb = f_magic f /\ e_entry m fb = f_entry f /\ e_phnum m fb = f_phnum f.
Proof.
  intros Hm. pose proof (ef_header f Hf).
  split_and!; [apply (field_file m fb f 4 0)|apply (field_file m fb f 8 24)|apply (field_file m fb f 2 56)];
    (done || lia).
Qed.

Lemma read_phdr m i :
  mem_file m fb f -> 0 <= i < f_phnum f ->
  let p := elf_program m fb i in
  p = fb + Z.of_nat (ph f i) /\ p_type m p = ph_type f i /\ p_offset m p = ph_offset f i /\
  p_vaddr m p = ph_vaddr f i /\ p_filesz m p = ph_filesz f i /\ p_memsz m p = ph_memsz f i.
Proof.
  intros Hm Hi. pose proof (ef_header f Hf). destruct (ph_in i Hi) as [Hp Hl].
  assert (elf_program m fb i = fb + Z.of_nat (ph f i)) as Hpr.
  { unfold elf_program. assert (e_phoff m fb = f_phoff f) as -> by (apply (field_file m fb f 8 32); done || lia).
    assert (e_phentsize m fb = f_phentsize f) as -> by (apply (field_file m fb f 2 54); done || lia).
    rewrite u64_small; lia. }
  cbv zeta. rewrite Hpr. split_and!; [done|apply (field_file m fb f 4)|apply (field_file m fb f 8)..]; done || lia.
Qed.

Lemma loadable_range i : 0 <= i < f_phnum f -> loadable f i = true ->
  0 <= ph_offset f i /\ 0 < ph_filesz f i /\ ph_offset f i + ph_filesz f i <= Z.of_nat (length f).
Proof.
  intros Hi Hl. pose proof (ef_data f Hf i Hi Hl). destruct (ph_in i Hi) as [_ Hin].
  pose proof (get_field_range 8 f (ph f i + 8) (ef_bytes f Hf) ltac:(lia)).
  pose proof (get_field_range 8 f (ph f i + 32) (ef_bytes f Hf) ltac:(lia)).
  unfold loadable, ctrue in Hl. breflect. unfold ph_offset, ph_filesz in *. lia.
Qed.

Lemma read_data m i : mem_file m fb f -> 0 <= i < f_phnum f -> loadable f i = true ->
  elf_program_data m fb i = fb + ph_offset f i.
Proof.
  intros Hm Hi Hl. unfold elf_program_data. destruct (read_phdr m i Hm Hi) as (_ & _ & -> & _).
  pose proof (loadable_range i Hi Hl). rewrite u64_small; lia.
Qed.

Lemma loads_from_step i : 0 <= i < f_phnum f ->
  loads_from f i = (if loadable f i then [i] else []) ++ loads_from f (i + 1).
Proof.
  intros Hi. unfold loads_from. rewrite (seqZ_cons i) by lia. rewrite filter_cons.
  replace (Z.pred (f_phnum f - i)) with (f_phnum f - (i + 1)) by lia. replace (Z.succ i) with (i + 1) by lia.
  destruct (loadable f i); [by rewrite decide_True|by rewrite decide_False].
Qed.
Lemma loads_from_end i : f_phnum f <= i -> loads_from f i = [].
Proof. intros Hi. unfold loads_from. by rewrite seqZ_nil by lia. Qed.

(** The places of the segments: not null, away from the file and from each other. *)
Fixpoint segs_apart (l : list Z) : Prop :=
  match l with
  | [] => True
  | i :: l =>
    ph_vaddr f i <> 0 /\ apart (ph_vaddr f i) (ph_filesz f i) fb (Z.of_nat (length f)) /\
    (forall k, k ∈ l -> apart (ph_vaddr f i) (ph_filesz f i) (ph_vaddr f k) (ph_filesz f k)) /\ segs_apart l
  end.

(** [vmalloc] grants the segments [l], one after the other, their virtual address and size in memory. *)
Fixpoint grants (vmalloc : gset Z -> Z -> Z -> Z) (areas : gset Z) (l : list Z) : Prop :=
  match l with
  | [] => True
  | i :: l => vmalloc areas (ph_vaddr f i) (ph_memsz f i) = ph_vaddr f i /\ grants vmalloc ({[ph_vaddr f i]} ∪ areas) l
  end.
Definition seg_areas (l : list Z) (areas : gset Z) : gset Z := list_to_set (ph_vaddr f <$> l) ∪ areas.

(** The bytes of the segments in the file are in their places, and nothing else changed. *)
Record segs_loaded (l : list Z) (m m' : memory) : Prop := {
  sl_file : mem_file m' fb f;
  sl_data : forall i, i ∈ l ->
    forall j, 0 <= j < ph_filesz f i -> f !! Z.to_nat (ph_offset f i + j) = Some (m' (ph_vaddr f i + j));
  sl_frame : forall q, (forall i, i ∈ l -> ~ (ph_vaddr f i <= q < ph_vaddr f i + ph_filesz f i)) -> m' q = m q;
}.

Lemma load_segments_spec vmalloc fuel : forall i m areas,
  0 <= i <= f_phnum f -> f_phnum f - i < Z.of_nat fuel -> mem_file m fb f ->
  grants vmalloc areas (loads_from f i) -> segs_apart (loads_from f i) ->
  exists m', load_segments vmalloc fuel i m fb areas = Some (m', seg_areas (loads_from f i) areas) /\
    segs_loaded (loads_from f i) m m'.
Proof.
  induction fuel as [|fuel IH]; intros i m areas Hi Hfu Hm Hg Hap; cbn [load_segments].
  { lia. }
  destruct (read_elf_header m Hm) as (_ & _ & ->).
  destruct (Z.ltb_spec i (f_phnum f)) as [Hlt|Hge].
  2:{ rewrite loads_from_end in * by done. exists m. split; [by unfold seg_areas; cbn; rewrite (left_id_L ∅ (∪))|].
      constructor; [done|intros ? []%elem_of_nil|done]. }
  destruct (read_phdr m i Hm ltac:(lia)) as (_ & -> & _ & -> & -> & ->). fold (loadable f i).
  rewrite loads_from_step in Hg, Hap |- * by lia. destruct (loadable f i) eqn:Hl; cbn [app] in *; [|by apply IH; try lia].
  destruct Hap as (Hnz & Hsrc & Hoth & Hap), Hg as [Hva Hg]. rewrite Hva. set (va := ph_vaddr f i) in *.
  rewrite (proj2 (Z.eqb_neq va 0)), (read_data m i) by (done || lia).
  destruct (loadable_range i ltac:(lia) Hl) as (Ho & Hsz & Hin).
  set (m1 := memcpy m va _ _).
  assert (apart va (ph_filesz f i) (fb + ph_offset f i) (ph_filesz f i)) as Hap1 by (unfold apart in *; lia).
  assert (mem_file m1 fb f) as Hm1.
  { intros k c Hk. rewrite <- (Hm k c Hk). pose proof (lookup_lt_Some _ _ _ Hk).
    apply agree_at, memcpy_agree; unfold apart in *; lia. }
  destruct (IH (i + 1) m1 ({[va]} ∪ areas)) as (m' & -> & [S1 S2 S3]); [lia|lia|done..|].
  exists m'. split; [unfold seg_areas; cbn; fold va; f_equal; f_equal; set_solver|]. constructor; [done| |].
  - intros k [->|Hk]%elem_of_cons j Hj; [|by apply S2].
    destruct (lookup_lt_is_Some_2 f (Z.to_nat (ph_offset f i + j))) as [c Hc]; [lia|]. rewrite Hc. f_equal.
    rewrite S3; [|intros k' Hk'; specialize (Hoth k' Hk'); unfold apart in *; lia].
    unfold m1. fold va. rewrite memcpy_dst by done. rewrite <- (Hm _ _ Hc). f_equal. lia.
  - intros q Hq. rewrite S3 by (intros k Hk; apply Hq; by right).
    specialize (Hq i ltac:(left)). apply agree_at, memcpy_agree; unfold apart in *; lia.
Qed.
End File.

(** ** The loader *)

Section Load.
Context {F W P : Type} {ops : FsOps F W P}.
Implicit Types l : loader_t (F := F) (W := W) (P := P).

(** The file system delivers the file: it is opened with the handle [fh], its end is where the bytes of [f]
    end, and reading it from the start gives [f]. *)
Record serves (l : loader_t (F := F) (W := W) (P := P)) (cwd : list Z) (cur : Z) (path : list Z) (fh : Z) (f : list Z)
    (st : vfs_state (F := F) (W := W) (P := P)) : Prop := {
  sv_handle : 0 <= fh;
  sv_calls : exists st1 st2 st3 r0 r,
    vfs_open (l_vfs l) cwd cur path VFS_MODE_READ = Some (st1, fh) /\
    vfs_lseek st1 cur fh 0 SEEK_END = Some (st2, Z.of_nat (length f)) /\
    vfs_lseek st2 cur fh 0 SEEK_SET = Some (st3, r0) /\
    vfs_read st3 cur fh (Z.of_nat (length f)) = Some (st, (r, f)) /\ r <> -1;
}.

(** What [kzalloc] and [vmalloc] return: a block for the file, the areas the segments ask for and a stack; the block, the places of the
    segments and the trap frame do not overlap. *)
Record load_room (vmalloc : gset Z -> Z -> Z -> Z) (areas : gset Z) (f : list Z) (fbuff tf : Z) : Prop := {
  lr_block : 0 < fbuff /\ fbuff + Z.of_nat (length f) + 1 < 2 ^ 64;
  lr_grants : grants f vmalloc areas (loads_from f 0);
  lr_stack : 0 < vmalloc (seg_areas f (loads_from f 0) areas) 0 TASK_STACK_SIZE_32KB < 2 ^ 63;
  lr_segs : segs_apart f fbuff (loads_from f 0);
  lr_frame : apart tf TRAPFRAME_SIZE fbuff (Z.of_nat (length f)) /\
    forall i, i ∈ loads_from f 0 -> apart tf TRAPFRAME_SIZE (ph_vaddr f i) (ph_filesz f i);
}.

Lemma store_file m fb f : mem_file (store_bytes m fb f) fb f.
Proof.
  intros k c Hk. pose proof (lookup_lt_Some _ _ _ Hk). rewrite store_bytes_spec, decide_True by lia.
  replace (Z.to_nat (fb + Z.of_nat k - fb)) with k by lia. by apply list_lookup_total_correct.
Qed.

(** C36. [elf_load] of a well-formed file that the file system delivers, when [vmalloc] grants each loadable segment its virtual address and
    size in memory and these places do not overlap: the loader succeeds, the bytes of every loadable segment are at its virtual
    address, the task enters at the entry point of the file with the stack pointer at the end of a new 32 KiB stack, the areas of the
    task are the ones it had, those of the segments and the stack, and the block of the file is freed.  The file stays open. *)
Theorem elf_load_correct vmalloc l cwd cur path fh f st fbuff :
  serves l cwd cur path fh f st -> elf_file f -> f_magic f = ELFMAGIC ->
  load_room vmalloc (l_areas l) f fbuff (trap_frame (frames (l_image l))) -> fbuff ∉ l_heap l ->
  exists l', elf_load vmalloc cwd cur path fbuff l = Some (l', 0) /\
    let tf := trap_frame (frames (l_image l)) in
    let areas := list_to_set (ph_vaddr f <$> loads_from f 0) ∪ l_areas l in
    let stack := vmalloc areas 0 TASK_STACK_SIZE_32KB in
    (forall i, 0 <= i < f_phnum f -> ph_type f i = PT_LOAD -> 0 < ph_memsz f i ->
       forall j, 0 <= j < ph_filesz f i -> f !! Z.to_nat (ph_offset f i + j) = Some (l_mem l' (ph_vaddr f i + j))) /\
    load64 (l_mem l') (tf + tf_rip) = f_entry f /\ start_routine (l_image l') = f_entry f /\
    load64 (l_mem l') (tf + tf_rsp) = stack + TASK_STACK_SIZE_32KB /\
    l_areas l' = {[stack]} ∪ areas /\ l_heap l' = l_heap l /\ l_vfs l' = st.
Proof.
  intros [Hfh (st1 & st2 & st3 & r0 & r & E1 & E2 & E3 & E4 & Hr)] Hf Hmg [Hb Hg Hs Hsegs [Htf Htfs]] Hheap.
  destruct l as [lv im m areas heap]. cbn in E1, Hheap, Hg, Hs, Htf, Htfs. unfold elf_load. rewrite E1. cbn [mbind option_bind].
  rewrite (proj2 (Z.ltb_ge fh 0)) by done. rewrite E2. cbn [mbind option_bind].
  pose proof (ef_header f Hf). rewrite (proj2 (Z.eqb_neq (Z.of_nat (length f)) 0)) by lia.
  rewrite E3. cbn [mbind option_bind]. rewrite (proj2 (Z.eqb_neq fbuff 0)) by lia. rewrite E4. cbn [mbind option_bind].
  rewrite (proj2 (Z.eqb_neq r (-1))) by done. set (m1 := store_bytes _ fbuff f).
  pose proof (store_file (memset m fbuff 0 (Z.of_nat (length f) + 1)) fbuff f) as Hm1. fold m1 in Hm1.
  destruct (read_elf_header f fbuff Hf m1 Hm1) as (-> & _ & ->).
  rewrite (proj2 (Z.eqb_eq _ _) Hmg). cbn [negb].
  pose proof (phnum_range f Hf). pose proof (get_field_range 8 f 24 (ef_bytes f Hf) ltac:(lia)) as Hentry.
  destruct (load_segments_spec f fbuff Hf ltac:(lia) vmalloc (S (Z.to_nat (f_phnum f))) 0 m1 areas) as (m2 & -> & [S1 S2 S3]);
    [lia|lia|done|done|done|]. cbn [mbind option_bind].
  set (stack := vmalloc _ 0 _) in *. rewrite (proj2 (Z.eqb_neq stack 0)) by lia.
  unfold task_setup_ustack, task_setup_routine. cbn [set_ustk frames ustack set_routine].
  set (tf := trap_frame (frames im)) in *. set (m3 := store64 m2 _ _).
  assert (mem_file m3 fbuff f) as Hm3.
  { intros k c Hk. rewrite <- (S1 k c Hk). pose proof (lookup_lt_Some _ _ _ Hk). apply agree_at, store64_agree. kconst. lia. }
  destruct (read_elf_header f fbuff Hf m3 Hm3) as (_ & -> & _).
  eexists. split; [done|]. cbn. fold tf. split_and!.
  - intros i Hi Ht Hm j Hj. assert (i ∈ loads_from f 0) as Hin.
    { apply list_elem_of_filter. rewrite elem_of_seqZ. unfold loadable, ctrue. split; [|lia]. rewrite Ht. breflect. lia. }
    rewrite (S2 i Hin j Hj). f_equal. symmetry. specialize (Htfs i Hin). apply agree_at.
    apply agree_trans with m3; apply store64_agree; kconst; lia.
  - apply store64_u64. exact Hentry.
  - done.
  - rewrite (load64_agree m3) by (apply store64_agree; kconst; lia). apply store64_u64. kconst. lia.
  - done.
  - set_solver.
  - done.
Qed.
End Load.

(** ** A concrete file

    One loadable segment of the bytes 1 to 4 for 0x400000, in a RAM disk as [/e]. *)
Definition demo_elf : list Z :=
  take 120 (put_le 8 (put_le 8 (put_le 8 (put_le 8 (put_le 4 (put_le 2 (put_le 2 (put_le 8 (put_le 8
    (put_le 4 (replicate 124 0) 0 ELFMAGIC) 24 0x400000) 32 64) 54 56) 56 1) 64 PT_LOAD) 72 120) 80 0x400000) 96 4) 104 4)
  ++ [1; 2; 3; 4].

Definition elf_archive : list Z := archive [demo_entry [101] demo_elf 48] (replicate 1024 0).
Definition elf_mount : option (demo_state * Z) :=
  vfs_mount_fs (vfs_register_fs (vfs_init elf_archive) ramfs_str tt) [slash] [slash] ramfs_str.
Definition slash_e : list Z := [slash; 101].
Definition elf_open : option (demo_state * Z) := vfs_open (after elf_mount) [slash] 1 slash_e VFS_MODE_READ.
Definition elf_end : option (demo_state * Z) := vfs_lseek (after elf_open) 1 101 0 SEEK_END.
Definition elf_start : option (demo_state * Z) := vfs_lseek (after elf_end) 1 101 0 SEEK_SET.
Definition elf_read : option (demo_state * (Z * list Z)) := vfs_read (after elf_start) 1 101 124.

Definition demo_loader : loader_t := Loader (after elf_mount) demo_image (fun _ => 0) ∅ ∅.

Lemma demo_serves : serves demo_loader [slash] 1 slash_e 101 demo_elf (after elf_read).
Proof.
  split; [done|]. exists (after elf_open), (after elf_end), (after elf_start), 0, 0.
  split_and!; vm_compute; congruence || done.
Qed.

Lemma demo_elf_ok : elf_file demo_elf.
Proof.
  assert (f_phnum demo_elf = 1) as Hn by (vm_compute; done). split.
  - apply (bool_decide_unpack _). vm_compute. done.
  - vm_compute. lia.
  - intros i Hi. rewrite Hn in Hi. replace i with 0 by lia. vm_compute. congruence.
  - intros i Hi _. rewrite Hn in Hi. replace i with 0 by lia. vm_compute. congruence.
Qed.

(** [vmalloc] grants any address that is asked for. *)
Definition demo_vmalloc (areas : gset Z) (ptr sz : Z) : Z := if ptr =? 0 then 0x600000 else ptr.

Lemma elf_load_correct_witness :
  exists l', elf_load demo_vmalloc [slash] 1 slash_e 8192 demo_loader = Some (l', 0) /\
    l_mem l' 0x400002 = 3 /\ load64 (l_mem l') (50000 + tf_rip) = 0x400000 /\ l_vfs l' = after elf_read.
Proof.
  assert (loads_from demo_elf 0 = [0]) as Hl by (vm_compute; done).
  destruct (elf_load_correct demo_vmalloc demo_loader [slash] 1 slash_e 101 demo_elf (after elf_read) 8192
    demo_serves demo_elf_ok) as (l' & E & H1 & H2 & _ & _ & _ & _ & H3).
  - vm_compute. done.
  - assert (length demo_elf = 124%nat) as H124 by (vm_compute; done). split; rewrite ?Hl, ?H124; [lia|vm_compute; done|vm_compute; done| |].
    + split_and!; [vm_compute; done|right; vm_compute; congruence|intros ? []%elem_of_nil|done].
    + split; [right; vm_compute; congruence|]. intros i Hi. apply list_elem_of_singleton in Hi as ->.
      left. vm_compute. congruence.
  - apply not_elem_of_empty.
  - exists l'. split; [exact E|].
    split_and!; [|exact H2|exact H3].
    specialize (H1 0 ltac:(vm_compute; split; congruence) ltac:(vm_compute; done) ltac:(vm_compute; done)
      2 ltac:(vm_compute; split; congruence)).
    assert (demo_elf !! Z.to_nat (ph_offset demo_elf 0 + 2) = Some 3) as H5 by (vm_compute; done).
    rewrite H5 in H1. injection H1 as H1. symmetry. exact H1.
Defined.
