(* ===== verification/Proc.v ===== *)
(** * Processes

    [kernel/src/proc/task.c] and [kernel/src/proc/sched.c] for what concerns the life of a task: creation, fork,
    replacement by a new program, exit and collection.

    The state joins the scheduler ([Sched]), the images of the tasks ([Task], by the same pointers), the flat memory,
    the files ([Vfs]) and the address spaces, of which the starts of the areas are kept.
    [heap] is the set of blocks in use: task structures, blocks of arguments, events, kernel stacks and address
    spaces; freeing a block that is not in use is undefined.  What an allocator returns is an argument,
    [0] for null.  Every function is one step under its locks, up to the call of [sched_again].
    [None] is a fault, a panic, or undefined. *)

From S2P Require Import Prelude DList KLib Sched Task Vfs Elf.

Section Proc.
Context {F W P : Type} {ops : FsOps F W P}.
(** The routines of the assembly that a new task starts in, and the fuel of [strlen]. *)
Context (sched_task_start sched_task_start_user : Z) (fuel : nat).
Notation vfs_t := (vfs_state (F := F) (W := W) (P := P)).

Record proc_t := Proc {
  sched : sched_t;
  images : gmap Z image_t;
  mem : memory;
  vfs : vfs_t;
  spaces : gmap Z (gset Z);      (* by [mm]: the starts of its areas *)
  heap : gset Z;
  global_id : Z;
}.

Definition with_sched (f : sched_t) (s : proc_t) : proc_t :=
  Proc f (images s) (mem s) (vfs s) (spaces s) (heap s) (global_id s).
Definition with_image (p : Z) (i : image_t) (s : proc_t) : proc_t :=
  Proc (sched s) (<[p := i]> (images s)) (mem s) (vfs s) (spaces s) (heap s) (global_id s).
Definition with_mem (m : memory) (s : proc_t) : proc_t :=
  Proc (sched s) (images s) m (vfs s) (spaces s) (heap s) (global_id s).
Definition with_vfs (v : vfs_t) (s : proc_t) : proc_t :=
  Proc (sched s) (images s) (mem s) v (spaces s) (heap s) (global_id s).
Definition with_spaces (f : gmap Z (gset Z)) (s : proc_t) : proc_t :=
  Proc (sched s) (images s) (mem s) (vfs s) f (heap s) (global_id s).
Definition with_heap (h : gset Z) (s : proc_t) : proc_t :=
  Proc (sched s) (images s) (mem s) (vfs s) (spaces s) h (global_id s).

Definition upd_image (p : Z) (f : image_t -> image_t) (s : proc_t) : option proc_t :=
  i ← images s !! p; Some (with_image p (f i) s).
Definition upd_base (p : Z) (f : task_t -> task_t) (s : proc_t) : option proc_t :=
  c ← upd_task p f (sched s); Some (with_sched c s).

(** ** Blocks *)

Definition take_block (p : Z) (s : proc_t) : proc_t := if p =? 0 then s else with_heap ({[p]} ∪ heap s) s.
Definition free_block (p : Z) (s : proc_t) : option proc_t :=
  if bool_decide (p ∈ heap s) then Some (with_heap (heap s ∖ {[p]}) s) else None.
(** [if (p) kfree(p)] *)
Definition kfree_if (p : Z) (s : proc_t) : option proc_t := if p =? 0 then Some s else free_block p s.

(** [kzalloc(sizeof(kevent_t))] and [kfree] of an event. *)
Definition null_event : kevent_t := Event 0 0 EV_UNKNOWN 0 0.
Definition take_event (p : Z) (s : proc_t) : proc_t :=
  if p =? 0 then s else take_block p (with_sched (with_events <[p := null_event]> (sched s)) s).
Definition free_event (p : Z) (s : proc_t) : option proc_t :=
  if p =? 0 then Some s else
  s ← free_block p s; Some (with_sched (with_events (delete p) (sched s)) s).

(** [vfree(mm, ptr)]: the area must be there. *)
Definition vfree_user (mm ptr : Z) (s : proc_t) : option proc_t :=
  match spaces s !! mm with
  | Some a => if bool_decide (ptr ∈ a) then Some (with_spaces (<[mm := a ∖ {[ptr]}]> (spaces s)) s) else None
  | None => None
  end.

(** ** Creation *)

Definition _alloc_tid (s : proc_t) : Z * proc_t :=
  let id := u64 (global_id s + 1) in
  (id, Proc (sched s) (images s) (mem s) (vfs s) (spaces s) (heap s) id).

(** What the allocators return for a new task. *)
Record fresh_t := Fresh { n_task : Z; n_mm : Z; n_pa : Z; n_event : Z; n_stack : Z; n_argv : Z; n_envp : Z }.

(** [dlist_init(&t->open_files)], and the list after an entry was removed. *)
Definition set_open (t : Z) (l : list Z) (v : vfs_t) : vfs_t :=
  with_files v (brk v) (vfs_next_handle_count v) (files v) (<[t := l]> (open_files v)).

(** The task in both stores. *)
Definition put_task (t : Z) (b : task_t) (i : image_t) (s : proc_t) : proc_t :=
  with_image t i (with_sched (with_tasks <[t := b]> (sched s)) s).

(** [strncpy(t->name, name, TASK_MAX_NAME_LEN - 1)] with the null behind it. *)
Definition set_name (t name : Z) (m : memory) : memory :=
  upd (strncpy m (t + off_name) name (TASK_MAX_NAME_LEN - 1)).1 (t + off_name + (TASK_MAX_NAME_LEN - 1)) 0.

Definition task_create (fr : fresh_t) (name routine prio : Z) (md : task_mode_t) (s : proc_t) : option (proc_t * Z) :=
  let t := n_task fr in
  if (t =? 0) || (n_mm fr =? 0) then None else
  let s := with_mem (memset (mem s) t 0 SIZEOF_TASK) (take_block t s) in
  let '(id, s) := _alloc_tid s in
  let s := with_mem (set_name t name (mem s)) s in
  let s := with_spaces (<[n_mm fr := ∅]> (spaces s)) (take_block (n_mm fr) s) in
  let s := with_vfs (set_open t [] (vfs s)) s in
  let s := take_event (n_event fr) s in
  let start := match md with TASK_USER_MODE => sched_task_start_user | TASK_KERNEL_MODE => sched_task_start end in
  let i := Image md prio routine start (n_mm fr) (Frames 0 0 0 0 0) (Ustack 0 0 0) (Args 0 0 0 0) false (Auxv 0 0 0 0) in
  '(st, i, m) ←
    match md with
    | TASK_USER_MODE => _task_setup_kstack_user (n_stack fr) false (null_stacks, i) (mem s)
    | TASK_KERNEL_MODE => _task_setup_kstack (n_stack fr) (null_stacks, i) (mem s)
    end;
  let s := with_mem m (take_block (n_stack fr) s) in
  Some (put_task t (Task id id TASK_READY (n_event fr) 0 0 (n_pa fr) st) i s, t).

(** ** Release *)

(** The loop of [_task_close_all_files]; [cur] is the running task, in whose list the close functions look. *)
Fixpoint close_all (n : nat) (cur t : Z) (v : vfs_t) : option vfs_t :=
  match n with
  | O => Some v
  | S n =>
    match default [] (open_files v !! t) with
    | [] => Some v
    | a :: rest =>
      let v := set_open t rest v in
      fd ← files v !! a;
      '(v, _) ← (if is_console fd then vfs_close_console v cur (f_handle fd) else vfs_close v cur (f_handle fd));
      close_all n cur t v
    end
  end.
Definition _task_close_all_files (cpu t : Z) (s : proc_t) : option proc_t :=
  match default [] (open_files (vfs s) !! t) with
  | [] => Some s
  | l => cur ← sched_get_task cpu (sched s); v ← close_all (length l) cur t (vfs s); Some (with_vfs v s)
  end.

Definition set_ustack_ptr (p : Z) (i : image_t) : image_t := set_ustk (Ustack (ustack (ustk i)) (ulimit (ustk i)) p) i.
Definition set_argv (p : Z) (i : image_t) : image_t :=
  set_args (Args (u_argc (args i)) p (u_envc (args i)) (u_envp (args i))) i.
Definition set_envp (p : Z) (i : image_t) : image_t :=
  set_args (Args (u_argc (args i)) (u_argv (args i)) (u_envc (args i)) p) i.

(** [if (t->u_argv) { kfree(t->u_argv); t->u_argv = null; }] and the same for the environment and the event. *)
Definition drop_argv (t : Z) (s : proc_t) : option proc_t :=
  i ← images s !! t; s ← kfree_if (u_argv (args i)) s; upd_image t (set_argv 0) s.
Definition drop_envp (t : Z) (s : proc_t) : option proc_t :=
  i ← images s !! t; s ← kfree_if (u_envp (args i)) s; upd_image t (set_envp 0) s.
Definition drop_event (t : Z) (s : proc_t) : option proc_t :=
  b ← tasks (sched s) !! t; s ← free_event (wakeup_event b) s; upd_base t (set_wakeup 0) s.

Definition task_free_phase0 (cpu t : Z) (s : proc_t) : option proc_t :=
  i ← images s !! t;
  s ← (if bool_decide (mode i = TASK_USER_MODE) && ctrue (ustack_ptr (ustk i)) then
         s ← vfree_user (mm i) (ustack_ptr (ustk i)) s; upd_image t (set_ustack_ptr 0) s
       else Some s);
  s ← drop_argv t s;
  s ← drop_envp t s;
  s ← _task_close_all_files cpu t s;
  drop_event t s.

(** [mm_free]: all areas go with the address space. *)
Definition free_mm (p : Z) (s : proc_t) : option proc_t :=
  _ ← spaces s !! p;
  s ← free_block p s; Some (with_spaces (delete p (spaces s)) s).

Definition task_free (cpu t : Z) (s : proc_t) : option proc_t :=
  s ← task_free_phase0 cpu t s;
  b ← tasks (sched s) !! t;
  s ← kfree_if (kstack_ptr (stacks b)) s;
  i ← images s !! t;
  s ← free_mm (mm i) s;
  s ← free_block t s;
  Some (Proc (with_tasks (delete t) (sched s)) (delete t (images s)) (mem s) (vfs s) (spaces s) (heap s) (global_id s)).

(** ** Fork and replacement *)

(** The copy of a block of arguments, and the pointer the child has. *)
Definition fork_block (n ptr block : Z) (s : proc_t) : option (proc_t * Z) :=
  if (0 <? n) && ctrue ptr then
    if block =? 0 then None else
    let size := n * TASK_MAX_ARGV_LEN in
    Some (take_block block (with_mem (memcpy (memset (mem s) block 0 size) block ptr size) s), block)
  else Some (s, ptr).

(** [cpu_ustack] is the user stack pointer of the processor.  The copy of the parent's user memory by [mm_copy] is in the
    child's address space, which the flat memory does not show. *)
Definition task_fork (fr : fresh_t) (p cpu_ustack : Z) (s : proc_t) : option (proc_t * Z) :=
  i ← images s !! p;
  b ← tasks (sched s) !! p;
  if bool_decide (mode i = TASK_KERNEL_MODE) then None else
  let c := n_task fr in
  if c =? 0 then Some (s, 0) else
  let s := take_block c (with_mem (memcpy (memset (mem s) c 0 SIZEOF_TASK) c p SIZEOF_TASK) s) in
  let '(id, s) := _alloc_tid s in
  if n_mm fr =? 0 then s ← free_block c s; Some (s, 0) else
  areas ← spaces s !! mm i;
  let s := with_spaces (<[n_mm fr := areas]> (spaces s)) (take_block (n_mm fr) s) in
  let s := with_vfs (set_open c [] (vfs s)) s in
  '(s, argv) ← fork_block (u_argc (args i)) (u_argv (args i)) (n_argv fr) s;
  '(s, envp) ← fork_block (u_envc (args i)) (u_envp (args i)) (n_envp fr) s;
  let s := take_event (n_event fr) s in
  let ci := set_fork true (set_mm (n_mm fr) (set_args (Args (u_argc (args i)) argv (u_envc (args i)) envp) i)) in
  let st := Stacks (kstack (stacks b)) (klimit (stacks b)) (kstack_ptr (stacks b)) 0 0 0 0 in
  '(st, ci, m) ← _task_setup_kstack_user (n_stack fr) false (st, ci) (mem s);
  let p_top := klimit (stacks b) + TASK_STACK_SIZE_32KB in
  let s := with_mem (fork_frame p_top cpu_ustack (trap_frame (frames ci)) m) (take_block (n_stack fr) s) in
  Some (put_task c (Task (tgid b) id TASK_READY (n_event fr) (exitcode b) (errno b) (n_pa fr) st) ci s, c).

(** [mm_replace]: the address space loses all its areas. *)
Definition replace_mm (p : Z) (s : proc_t) : option proc_t :=
  _ ← spaces s !! p; Some (with_spaces (<[p := ∅]> (spaces s)) s).

Definition task_replace (cpu : Z) (fr : fresh_t) (t name : Z) (s : proc_t) : option proc_t :=
  i ← images s !! t;
  if bool_decide (mode i = TASK_KERNEL_MODE) then None else
  s ← drop_event t s;
  s ← drop_argv t s;
  s ← drop_envp t s;
  s ← replace_mm (mm i) s;
  s ← upd_base t (set_state TASK_READY) s;
  let s := with_mem (set_name t name (mem s)) s in
  s ← upd_base t (set_wakeup (n_event fr)) (take_event (n_event fr) s);
  s ← _task_close_all_files cpu t s;
  b ← tasks (sched s) !! t;
  i ← images s !! t;
  '(st, i, m) ← _task_setup_kstack_user (n_stack fr) true (stacks b, i) (mem s);
  let s := with_mem m (take_block (n_stack fr) s) in
  Some (put_task t (set_stacks st b) (set_fork false i) s).
(** ** Operations of the running task *)

Definition clear_tstack (i : image_t) : image_t :=
  let f := frames i in set_frames (Frames 0 0 (task_gr f) (frist_frame f) (trap_frame f)) i.

(** [__sched_kernel_end] up to the call of [sched_again]. *)
Definition proc_exit (cpu code : Z) (s : proc_t) : option proc_t :=
  t ← sched_get_task cpu (sched s);
  s ← upd_base t (set_exitcode code) s;
  s ← upd_image t clear_tstack s;
  s ← task_free_phase0 cpu t s;
  s ← upd_base t (set_state TASK_ZOMBIE) s;
  Some (with_sched (with_running (delete cpu) (__active_task_add_to_cleanup t (sched s))) s).

(** One turn of the loop of [sched_wait]. *)
Definition proc_wait_turn (cpu child : Z) (s : proc_t) : option (proc_t * option Z) :=
  t ← sched_get_task cpu (sched s);
  b ← tasks (sched s) !! t;
  r ← find_zombie (sched s) (cleanup_tasks (sched s)) (tgid b) child;
  match r with
  | Some (z, code) =>
    s ← task_free cpu z (with_sched (with_cleanup (l_remove_entry z) (sched s)) s);
    Some (s, Some code)
  | None => Some (s, None)
  end.

Definition proc_add (t : Z) (s : proc_t) : proc_t := with_sched (sched_add t (sched s)) s.

Definition sched_fork (cpu : Z) (fr : fresh_t) (cpu_ustack : Z) (s : proc_t) : option (proc_t * Z) :=
  t ← sched_get_task cpu (sched s);
  i ← images s !! t;
  if is_fork i then s ← upd_image t (set_fork false) s; Some (s, 0) else
  '(s, n) ← task_fork fr t cpu_ustack s;
  if n =? 0 then Some (s, 0) else
  v ← vfs_copy (vfs s) n t;
  b ← tasks (sched s) !! n;
  Some (proc_add n (with_vfs v s), u32 (tid b)).

(** The copy of the path in a local array at [tmp], which must hold it with its null, and the address of the name in it. *)
Definition temp_path (tmp path : Z) (m : memory) : option (memory * Z) :=
  len ← strlen fuel m path;
  if PATH_LENGTH <=? len then None else
  let m := memcpy (memset m tmp 0 PATH_LENGTH) tmp path len in
  let str := m <$> seqZ tmp len in
  Some (m, tmp + len - Z.of_nat (length (_get_exec_name str str))).

Definition sched_spawn (cpu : Z) (fr : fresh_t) (tmp path argc argv : Z) (s : proc_t) : option (proc_t * Z) :=
  '(m, name) ← temp_path tmp path (mem s);
  let s := with_mem m s in
  '(s, n) ← task_create fr name 0 255 TASK_USER_MODE s;
  m ← task_setup_path fuel n tmp (mem s);
  i ← images s !! n;
  '(i, m) ← task_setup_argv fuel (n_argv fr) argc argv i m;
  t ← sched_get_task cpu (sched s);
  m ← task_setup_cwd fuel n (t + off_cwd) m;
  let s := if 0 <? argc then take_block (n_argv fr) s else s in
  b ← tasks (sched s) !! t;
  s ← upd_base n (fun c => Task (tid b) (tid c) (state c) (wakeup_event c) (exitcode c) (errno c) (page_dir_pa c) (stacks c))
        (with_image n i (with_mem m s));
  c ← tasks (sched s) !! n;
  Some (proc_add n s, u32 (tid c)).

(** The block of the new arguments, if there are any. *)
Definition take_args (argc envc : Z) (fr : fresh_t) (s : proc_t) : proc_t :=
  let s := if 0 <? argc then take_block (n_argv fr) s else s in
  if 0 <? envc then take_block (n_envp fr) s else s.

(** [sched_execve] of a processor that runs no task: a new one. *)
Definition execve_new (fr : fresh_t) (name path argc argv cwd envc envp : Z) (s : proc_t) : option proc_t :=
  '(s, n) ← task_create fr name 0 255 TASK_USER_MODE s;
  m ← task_setup_path fuel n path (mem s);
  i ← images s !! n;
  '(i, m) ← task_setup_argv fuel (n_argv fr) argc argv i m;
  m ← (if cwd =? 0 then Some m else task_setup_cwd fuel n cwd m);
  '(i, m) ← task_setup_env fuel (n_envp fr) envc envp i m;
  Some (proc_add n (take_args argc envc fr (with_image n i (with_mem m s)))).

(** [sched_execve] of the running task [t]. *)
Definition execve_replace (cpu : Z) (fr : fresh_t) (t name tmp argc argv envc envp : Z) (s : proc_t) : option proc_t :=
  i ← images s !! t;
  let free_argv := u_argv (args i) in
  let free_envp := u_envp (args i) in
  m ← task_setup_path fuel t tmp (mem s);
  '(i, m) ← task_setup_argv fuel (n_argv fr) argc argv i m;
  '(i, m) ← task_setup_env fuel (n_envp fr) envc envp i m;
  let new_args := args i in
  let s := take_args argc envc fr (with_image t (set_envp 0 (set_argv 0 i)) (with_mem m s)) in
  s ← task_replace cpu fr t name s;
  s ← upd_image t (set_args new_args) s;
  s ← kfree_if free_argv s;
  kfree_if free_envp s.

(** The result, and whether [sched_again] is called then. *)
Definition sched_execve (cpu : Z) (fr : fresh_t) (tmp path argc argv cwd envc envp : Z) (s : proc_t) :
    option (proc_t * Z * bool) :=
  if path =? 0 then Some (s, -1, false) else
  len ← strlen fuel (mem s) path;
  if len =? 0 then Some (s, -1, false) else
  '(m, name) ← temp_path tmp path (mem s);
  let s := with_mem m s in
  match sched_get_task cpu (sched s) with
  | None => s ← execve_new fr name path argc argv cwd envc envp s; Some (s, 0, false)
  | Some t => s ← execve_replace cpu fr t name tmp argc argv envc envp s; Some (s, -1, true)
  end.

(** *** The start of a user task *)

Definition dev_ttyfs : list Z := [47; 100; 101; 118; 47; 116; 116; 121; 102; 115].
Definition VFS_STDIN : Z := 0.
Definition VFS_STDOUT : Z := 1.
Definition VFS_STDERR : Z := 2.

(** The string at an address. *)
Definition read_string (m : memory) (p : Z) : option (list Z) := len ← strlen fuel m p; Some (m <$> seqZ p len).

Definition open_consoles (t : Z) (s : proc_t) : option proc_t :=
  cwd ← read_string (mem s) (t + off_cwd);
  '(v, _) ← vfs_open_console (vfs s) cwd t dev_ttyfs VFS_STDIN;
  '(v, _) ← vfs_open_console v cwd t dev_ttyfs VFS_STDOUT;
  '(v, _) ← vfs_open_console v cwd t dev_ttyfs VFS_STDERR;
  Some (with_vfs v s).

(** [fbuff] and [vmalloc] are for the loader; the second result is [-1] when the task has ended. *)
Definition _sched_do_execve (cpu fbuff : Z) (vmalloc : gset Z -> Z -> Z -> Z) (s : proc_t) : option (proc_t * Z) :=
  t ← sched_get_task cpu (sched s);
  b ← tasks (sched s) !! t;
  s ← kfree_if (old_kstack_ptr (stacks b)) s;
  s ← upd_base t (fun b => let st := stacks b in
        set_stacks (Stacks (kstack st) (klimit st) (kstack_ptr st) (rstack st) (rlimit st) (rstack_ptr st) 0) b) s;
  s ← open_consoles t s;
  i ← images s !! t;
  if is_fork i then Some (s, 0) else
  path ← read_string (mem s) (t + off_execve_path);
  cwd ← read_string (mem s) (t + off_cwd);
  areas ← spaces s !! mm i;
  '(l, r) ← elf_load vmalloc cwd t path fbuff (Loader (vfs s) i (mem s) areas (heap s));
  let s := Proc (sched s) (<[t := l_image l]> (images s)) (l_mem l) (l_vfs l) (<[mm i := l_areas l]> (spaces s))
             (l_heap l) (global_id s) in
  if negb (r =? 0) then s ← proc_exit cpu (-1) s; Some (s, -1) else
  let '(i, m) := task_init_ustack t (l_image l) (mem s) in
  Some (with_image t i (with_mem m s), 0).
End Proc.
