(* ===== verification/ProcProofs.v ===== *)
(** * Processes: correctness

    Every block of the kernel heap that the life of tasks takes is owned by exactly one task until it is freed:
    fork, spawn, exit, wait and the switch of stacks neither free a block twice nor lose one. *)

From S2P Require Import Prelude DList KLib Sched Task TaskProofs Vfs RamFs RamFsProofs VfsProofs Elf Proc.

(** Open the binds of a successful computation. *)
Ltac unbind H :=
  repeat match type of H with
  | mbind _ ?x = Some _ => let E := fresh "E" in destruct x eqn:E; [cbn [mbind option_bind] in H|discriminate H]
  | (let '(_, _) := ?x in _) = Some _ => let E := fresh "E" in destruct x eqn:E
  | None = Some _ => discriminate H
  end.

Section Proofs.
Context {F W P : Type} {ops : FsOps F W P}.
Context (sched_task_start sched_task_start_user : Z) (fuel : nat).
Notation proc := (proc_t (F := F) (W := W) (P := P)).
Notation vfs_t := (vfs_state (F := F) (W := W) (P := P)).
Implicit Types (s : proc) (v : vfs_t).

(** ** Open files at the end of a task *)

(** The open files of a task exist and have different handles. *)
Definition files_ok v (t : Z) : Prop :=
  exists fds, Forall2 (fun a fd => files v !! a = Some fd) (default [] (open_files v !! t)) fds /\
    NoDup (f_handle <$> fds).

Lemma find_file_none (fs : gmap Z (vfs_file_t F P)) l fds fh console :
  Forall2 (fun a fd => fs !! a = Some fd) l fds -> fh ∉ f_handle <$> fds ->
  find_file fs l fh console = Some None.
Proof.
  induction 1 as [|a fd l fds Ha _ IH]; intros Hn; cbn [find_file]; [done|].
  rewrite Ha. cbn [mbind option_bind fmap list_fmap] in Hn |- *. apply not_elem_of_cons in Hn as [Hne Hn].
  rewrite (proj2 (Z.eqb_neq _ _)) by done. cbn [andb]. by apply IH.
Qed.

Lemma close_all_spec t : forall l fds v,
  default [] (open_files v !! t) = l -> Forall2 (fun a fd => files v !! a = Some fd) l fds ->
  NoDup (f_handle <$> fds) -> l <> [] -> close_all (length l) t t v = Some (set_open t [] v).
Proof.
  induction l as [|a l IH]; intros fds v Hl Hf Hnd Hne; [done|]. cbn [close_all length]. rewrite Hl.
  inversion Hf as [|? fd ? fds' Ha Hf']; subst. cbn [fmap list_fmap] in Hnd. apply NoDup_cons in Hnd as [Hn Hnd].
  set (v' := set_open t l v). assert (files v' = files v) as Hfs by done.
  assert (default [] (open_files v' !! t) = l) as Hl' by (cbn; by rewrite lookup_insert_eq).
  rewrite Hfs, Ha. cbn [mbind option_bind].
  assert ((if is_console fd then vfs_close_console v' t (f_handle fd) else vfs_close v' t (f_handle fd)) =
    Some (v', -1)) as ->.
  { unfold vfs_close_console, vfs_close, task_file. rewrite Hl', Hfs, !(find_file_none _ _ fds') by done.
    by destruct (is_console fd). }
  cbn [mbind option_bind].
  assert (forall r, set_open t r v' = set_open t r v) as Hset.
  { intros r. unfold set_open, v'. cbn. unfold with_files. cbn. by rewrite insert_insert_eq. }
  destruct l as [|b l]; [cbn; f_equal; unfold v'; done|].
  rewrite (IH fds' v'); [by rewrite Hset|done..].
Qed.

(** When a task ends none of its open files is closed: [_task_close_all_files] takes a file off the list first, and the
    functions that close look for it there. *)
Lemma exit_closes_no_file cpu t s :
  sched_get_task cpu (sched s) = Some t -> files_ok (vfs s) t -> default [] (open_files (vfs s) !! t) <> [] ->
  _task_close_all_files cpu t s = Some (with_vfs (set_open t [] (vfs s)) s) /\
  files (set_open t [] (vfs s)) = files (vfs s) /\ world (set_open t [] (vfs s)) = world (vfs s).
Proof.
  intros Hcur (fds & Hf & Hnd) Hne. split; [|done]. unfold _task_close_all_files.
  destruct (default [] (open_files (vfs s) !! t)) as [|a l] eqn:Hl; [done|]. rewrite Hcur. cbn [mbind option_bind].
  by rewrite (close_all_spec t (a :: l) fds).
Qed.

(** ** Ownership *)

(** The blocks a task owns. *)
Definition nz (l : list Z) : list Z := filter (fun p => p <> 0) l.
Definition slots (t : Z) (b : task_t) (i : image_t) : list Z :=
  [t; mm i; kstack_ptr (stacks b); rstack_ptr (stacks b); old_kstack_ptr (stacks b); wakeup_event b;
   u_argv (args i); u_envp (args i)].
Definition owned (t : Z) (b : task_t) (i : image_t) : list Z := nz (slots t b i).

(** The new stack of [execve] is there until the switch, the old one from then until the new program starts. *)
Definition pending_ok (st : stacks_t) : Prop :=
  (rstack st = 0 <-> rstack_ptr st = 0) /\ (rstack st <> 0 -> old_kstack_ptr st = 0 /\ kstack_ptr st <> 0).
Definition settled (st : stacks_t) : Prop := rstack st = 0 /\ old_kstack_ptr st = 0.

(** The address space exists, and has the user stack of a task that runs its program. *)
Definition space_ok (S : gmap Z (gset Z)) (b : task_t) (i : image_t) : Prop :=
  exists areas, S !! mm i = Some areas /\
    (ustack_ptr (ustk i) <> 0 -> settled (stacks b) -> ustack_ptr (ustk i) ∈ areas).

Record local_ok (S : gmap Z (gset Z)) (t : Z) (b : task_t) (i : image_t) : Prop := {
  lo_task : t <> 0;
  lo_mm : mm i <> 0;
  lo_nodup : NoDup (owned t b i);
  lo_pending : pending_ok (stacks b);
  lo_space : space_ok S b i;
  lo_args : (u_argv (args i) <> 0 -> 0 < u_argc (args i)) /\ (u_envp (args i) <> 0 -> 0 < u_envc (args i));
}.

Definition owns (T : gmap Z task_t) (I : gmap Z image_t) (t p : Z) : Prop :=
  exists b i, T !! t = Some b /\ I !! t = Some i /\ p ∈ owned t b i.

(** The heap is the blocks of the tasks and a rest [R] that others use. *)
Record inv (R : gset Z) (T : gmap Z task_t) (I : gmap Z image_t) (H : gset Z) (S : gmap Z (gset Z)) : Prop := {
  in_dom : forall t, is_Some (T !! t) <-> is_Some (I !! t);
  in_local : forall t b i, T !! t = Some b -> I !! t = Some i -> local_ok S t b i;
  in_excl : forall t t' p, owns T I t p -> owns T I t' p -> t = t';
  in_heap : forall p, p ∈ H <-> p ∈ R \/ exists t, owns T I t p;
  in_rest : forall t p, owns T I t p -> p ∉ R;
}.
Definition proc_inv (R : gset Z) s : Prop := inv R (tasks (sched s)) (images s) (heap s) (spaces s).

Lemma elem_nz p l : p ∈ nz l <-> p <> 0 /\ p ∈ l.
Proof. unfold nz. by rewrite list_elem_of_filter. Qed.

(** One place of a list gets another number. *)
Lemma nz_middle l1 x y l2 :
  NoDup (nz (l1 ++ x :: l2)) -> y = 0 \/ y ∉ l1 ++ x :: l2 ->
  NoDup (nz (l1 ++ y :: l2)) /\
  forall p, p ∈ nz (l1 ++ y :: l2) <-> p <> 0 /\ (p = y \/ p ∈ l1 ++ x :: l2 /\ p <> x).
Proof.
  unfold nz. rewrite !filter_app, !filter_cons. fold (nz l1) (nz l2). intros Hnd Hy.
  assert (forall p, p <> 0 -> p ∈ l1 \/ p ∈ l2 -> p <> x) as Hx.
  { intros p Hp Hin ->. rewrite decide_True in Hnd by done. apply NoDup_app in Hnd as (_ & H1 & H2).
    apply NoDup_cons in H2 as [H2 _]. destruct Hin.
    - apply (H1 x); [by apply elem_nz|left].
    - by apply H2, elem_nz. }
  assert (NoDup (nz l1 ++ nz l2)) as Hnd'.
  { case_decide; [|done]. apply NoDup_app in Hnd as (H1 & H2 & H3). apply NoDup_cons in H3 as [_ H3].
    apply NoDup_app. split_and!; [done| |done]. intros p Hp Hp'. apply (H2 p Hp). by right. }
  split.
  - destruct (decide (y <> 0)) as [Hny|]; [|done]. destruct Hy as [?|Hy]; [done|].
    rewrite elem_of_app, elem_of_cons in Hy. apply NoDup_app in Hnd' as (H1 & H2 & H3).
    apply NoDup_app. split_and!; [done| |].
    + intros p Hp [->|Hp']%elem_of_cons; [|by apply (H2 p)]. apply elem_nz in Hp as [_ Hp]. tauto.
    + apply NoDup_cons. split; [|done]. intros [_ Hp]%elem_nz. tauto.
  - intros p. rewrite !elem_of_app, !elem_of_cons. specialize (Hx p).
    destruct (decide (y <> 0)) as [Hny|Hny]; [|apply dec_stable in Hny; subst y]; rewrite ?elem_of_cons, !elem_nz; intuition congruence.
Qed.

Section Put.
Context (R : gset Z) (T : gmap Z task_t) (I : gmap Z image_t) (H : gset Z) (S : gmap Z (gset Z)).
Hypothesis Hinv : inv R T I H S.

Lemma owns_heap t p : owns T I t p -> p ∈ H.
Proof. intros Ho. apply (in_heap _ _ _ _ _ Hinv). eauto. Qed.

Lemma owns_put t b i t' p :
  owns (<[t := b]> T) (<[t := i]> I) t' p <-> t' = t /\ p ∈ owned t b i \/ t' <> t /\ owns T I t' p.
Proof.
  unfold owns. destruct (decide (t' = t)) as [->|Hne].
  - rewrite !lookup_insert_eq. split; [intros (b' & i' & [= <-] & [= <-] & Hp); auto|].
    intros [[_ Hp]|[? _]]; [eauto|done].
  - rewrite !lookup_insert_ne by done. split; [intros Ho; right; done|]. intros [[? _]|[_ Ho]]; done.
Qed.

(** A task is stored, new or changed: the blocks it gets were its own or not in use, those it gives up are freed. *)
Lemma inv_put t b i (H' : gset Z) (S' : gmap Z (gset Z)) :
  local_ok S' t b i ->
  (forall p, p ∈ owned t b i -> owns T I t p \/ p ∉ H) ->
  (forall t0 b0 i0, t0 <> t -> T !! t0 = Some b0 -> I !! t0 = Some i0 -> S' !! mm i0 = S !! mm i0) ->
  (forall p, p ∈ H' <-> p ∈ H /\ ~ owns T I t p \/ p ∈ owned t b i) ->
  inv R (<[t := b]> T) (<[t := i]> I) H' S'.
Proof.
  intros Hl Hown Hsp HH. pose proof Hinv as [Hd Hloc Hex Hhp Hre].
  assert (forall p, p ∈ owned t b i -> p ∉ R) as HnR.
  { intros p Hp HR. destruct (Hown p Hp) as [Ho|Hn]; [by eapply Hre|]. apply Hn, Hhp. by left. }
  assert (forall p t', t' <> t -> p ∈ owned t b i -> ~ owns T I t' p) as Hother.
  { intros p t' Hne Hp Ho. destruct (Hown p Hp) as [Ho'|Hn]; [by apply Hne, (Hex t' t p)|]. by apply Hn, (owns_heap t'). }
  constructor.
  - intros t'. rewrite !lookup_insert. case_decide; [split; intros _; eauto|apply Hd].
  - intros t' b' i'. rewrite !lookup_insert. case_decide as E; [intros [= <-] [= <-]; by rewrite <- E|].
    intros Hb Hi. destruct (Hloc t' b' i' Hb Hi) as [? ? ? ? (a & Ha & Hu) ?]. constructor; try done.
    exists a. split; [|done]. by rewrite (Hsp t' b' i').
  - intros t1 t2 p. rewrite !owns_put. intros [[-> H1]|[N1 H1]] [[-> H2]|[N2 H2]]; [done| | |by eapply Hex].
    + by destruct (Hother p t2 N2 H1).
    + by destruct (Hother p t1 N1 H2).
  - intros p. rewrite HH, Hhp. split.
    + intros [[[HR|[t' Ho]] Hn]|Hp]; [by left|right; exists t'; apply owns_put; right|right; exists t; apply owns_put; by left].
      split; [|done]. intros ->. done.
    + intros [HR|[t' [[-> Hp]|[Hne Ho]]%owns_put]]; [|by right|]; left.
      * split; [by left|]. intros Ho. by eapply Hre.
      * split; [eauto|]. intros Ho'. by apply Hne, (Hex t' t p).
  - intros t' p [[-> Hp]|[_ Ho]]%owns_put; [by apply HnR|by eapply Hre].
Qed.

(** One block of a task is replaced: the old one is freed, the new one was not in use. *)
Lemma inv_slot t b i b' i' l1 x y l2 (H' : gset Z) (S' : gmap Z (gset Z)) :
  T !! t = Some b -> I !! t = Some i -> slots t b i = l1 ++ x :: l2 -> slots t b' i' = l1 ++ y :: l2 -> l1 <> [] ->
  mm i' <> 0 -> pending_ok (stacks b') -> space_ok S' b' i' ->
  (u_argv (args i') <> 0 -> 0 < u_argc (args i')) /\ (u_envp (args i') <> 0 -> 0 < u_envc (args i')) ->
  y = 0 \/ y ∉ H ->
  (forall t0 b0 i0, t0 <> t -> T !! t0 = Some b0 -> I !! t0 = Some i0 -> S' !! mm i0 = S !! mm i0) ->
  (forall p, p ∈ H' <-> p ∈ H /\ (p <> x \/ x = 0) \/ p = y /\ y <> 0) ->
  inv R (<[t := b']> T) (<[t := i']> I) H' S'.
Proof.
  intros Hb Hi Es Es' Hne Hmm Hp Hsp Ha Hy HS HH. pose proof (in_local _ _ _ _ _ Hinv t b i Hb Hi) as [Ht _ Hnd _ _ _].
  assert (forall p, p ∈ owned t b i -> p ∈ H) as Hheap by (intros p Hp'; apply (owns_heap t); by exists b, i).
  unfold owned in Hnd, Hheap. rewrite Es in Hnd, Hheap.
  destruct (nz_middle l1 x y l2 Hnd) as [Hnd' Hin].
  { destruct Hy as [?|Hy]; [by left|]. destruct (decide (y = 0)); [by left|]. right. intros Hyin.
    by apply Hy, Hheap, elem_nz. }
  assert (forall p, owns T I t p <-> p <> 0 /\ p ∈ l1 ++ x :: l2) as Hown.
  { intros p. rewrite <- elem_nz. unfold owns, owned. rewrite Hb, Hi. split.
    - intros (? & ? & [= <-] & [= <-] & Hp'). by rewrite Es in Hp'.
    - intros Hp'. exists b, i. by rewrite Es. }
  assert (owned t b' i' = nz (l1 ++ y :: l2)) as Eo by (unfold owned; by rewrite Es').
  apply inv_put; [|rewrite Eo| done|rewrite Eo].
  - constructor; try done. by rewrite Eo.
  - intros p [Hp0 [->|[Hpl _]]]%Hin; [destruct Hy; [done|by right]|left; by apply Hown].
  - intros p. rewrite HH, Hin, Hown. split.
    + intros [[Hp' Hx]|[-> ?]]; [|by right; auto]. destruct (decide (p = 0)) as [->|Hp0]; [left; tauto|].
      destruct (decide (p ∈ l1 ++ x :: l2)) as [Hpl|]; [|left; tauto].
      right. split; [done|]. right. split; [done|]. destruct Hx as [?|Hx]; [done|]. by rewrite Hx.
    + intros [[Hp' Hno]|[Hp0 [->|[Hpl Hpx]]]].
      * left. split; [done|]. destruct (decide (x = 0)) as [->|Hx0]; [by right|]. left. intros ->.
        apply Hno. split; [done|]. apply elem_of_app. right. left.
      * by right.
      * left. split; [|by left]. apply Hheap. by apply elem_nz.
Qed.

(** A task is removed with its blocks. *)
Lemma inv_delete t (H' : gset Z) (S' : gmap Z (gset Z)) :
  (forall t0 b0 i0, t0 <> t -> T !! t0 = Some b0 -> I !! t0 = Some i0 -> S' !! mm i0 = S !! mm i0) ->
  (forall p, p ∈ H' <-> p ∈ H /\ ~ owns T I t p) ->
  inv R (delete t T) (delete t I) H' S'.
Proof.
  intros Hsp HH. pose proof Hinv as [Hd Hloc Hex Hhp Hre].
  assert (forall t' p, owns (delete t T) (delete t I) t' p <-> t' <> t /\ owns T I t' p) as Hdel.
  { intros t' p. unfold owns. destruct (decide (t' = t)) as [->|Hne].
    - rewrite !lookup_delete_eq. split; [intros (? & ? & ? & _); done|intros [? _]; done].
    - rewrite !lookup_delete_ne by done. tauto. }
  constructor.
  - intros t'. rewrite !lookup_delete. case_decide; [split; intros [? ?]; done|apply Hd].
  - intros t' b' i'. rewrite !lookup_delete. case_decide as E; [done|]. intros Hb Hi.
    destruct (Hloc t' b' i' Hb Hi) as [? ? ? ? (a & Ha & Hu) ?]. constructor; try done.
    exists a. split; [|done]. by rewrite (Hsp t' b' i').
  - intros t1 t2 p [_ H1]%Hdel [_ H2]%Hdel. by eapply Hex.
  - intros p. rewrite HH, Hhp. split.
    + intros [[HR|[t' Ho]] Hn]; [by left|right; exists t'; apply Hdel]. split; [|done]. intros ->. done.
    + intros [HR|[t' [Hne Ho]%Hdel]]; (split; [eauto|]); intros Ho'; [by eapply Hre|]. by apply Hne, (Hex t' t p).
  - intros t' p [_ Ho]%Hdel. by eapply Hre.
Qed.
End Put.

(** ** Steps of one task *)

(** Only the task [t] changed, and of the scheduler only events. *)
Record touched (t : Z) s s' (b : task_t) (i : image_t) : Prop := {
  tc_tasks : tasks (sched s') = <[t := b]> (tasks (sched s));
  tc_images : images s' = <[t := i]> (images s);
  tc_active : active_tasks (sched s') = active_tasks (sched s);
  tc_cleanup : cleanup_tasks (sched s') = cleanup_tasks (sched s);
  tc_running : running_tasks (sched s') = running_tasks (sched s);
}.

Lemma touched_trans t s1 s2 s3 b i b' i' :
  touched t s1 s2 b i -> touched t s2 s3 b' i' -> touched t s1 s3 b' i'.
Proof.
  intros [A1 A2 A3 A4 A5] [B1 B2 B3 B4 B5]. constructor; try congruence.
  - by rewrite B1, A1, insert_insert_eq.
  - by rewrite B2, A2, insert_insert_eq.
Qed.

Lemma touched_at t s s' b i : touched t s s' b i -> tasks (sched s') !! t = Some b /\ images s' !! t = Some i.
Proof. intros [-> -> _ _ _]. by rewrite !lookup_insert_eq. Qed.

Definition heap_minus (x : Z) s : gset Z := if decide (x = 0) then heap s else heap s ∖ {[x]}.

Lemma elem_heap_minus x s p : p ∈ heap_minus x s <-> p ∈ heap s /\ (p <> x \/ x = 0).
Proof. unfold heap_minus. case_decide; set_solver. Qed.

Lemma inv_slot_heap R s t p b i :
  proc_inv R s -> tasks (sched s) !! t = Some b -> images s !! t = Some i -> p ∈ slots t b i -> p = 0 \/ p ∈ heap s.
Proof.
  intros Hinv Hb Hi Hp. destruct (decide (p = 0)); [by left|]. right.
  eapply (owns_heap R _ _ _ _ Hinv t). exists b, i. split_and!; [done..|]. by apply elem_nz.
Qed.

Lemma kfree_if_spec x s : x = 0 \/ x ∈ heap s -> kfree_if x s = Some (with_heap (heap_minus x s) s).
Proof.
  intros Hx. unfold kfree_if, free_block, heap_minus. destruct (Z.eqb_spec x 0) as [->|Hne].
  - by destruct s.
  - rewrite decide_False by done. rewrite bool_decide_eq_true_2; [done|]. by destruct Hx.
Qed.

Lemma owns_at s t b i p :
  tasks (sched s) !! t = Some b -> images s !! t = Some i ->
  owns (tasks (sched s)) (images s) t p <-> p ∈ owned t b i.
Proof.
  intros Hb Hi. unfold owns. rewrite Hb, Hi. split; [by intros (? & ? & [= <-] & [= <-] & ?)|eauto].
Qed.

(** Two tasks have different address spaces. *)
Lemma mm_apart R s t b i t' b' i' :
  proc_inv R s -> tasks (sched s) !! t = Some b -> images s !! t = Some i ->
  tasks (sched s) !! t' = Some b' -> images s !! t' = Some i' -> t' <> t -> mm i <> mm i'.
Proof.
  intros Hinv Hb Hi Hb' Hi' Hne E. apply Hne. apply (in_excl _ _ _ _ _ Hinv t' t (mm i)).
  - apply (owns_at s t' b' i'); [done..|]. apply elem_nz. split; [apply (in_local _ _ _ _ _ Hinv t b i Hb Hi)|].
    rewrite E. right. left.
  - apply (owns_at s t b i); [done..|]. apply elem_nz. split; [apply (in_local _ _ _ _ _ Hinv t b i Hb Hi)|]. right. left.
Qed.

(** The files of a task that is released: none, or the task is the running one. *)
Definition closable (cpu t : Z) s : Prop :=
  default [] (open_files (vfs s) !! t) = [] \/ sched_get_task cpu (sched s) = Some t /\ files_ok (vfs s) t.

Section Task.
Context (R : gset Z) (t : Z) (b : task_t) (i : image_t) (s : proc).
Hypothesis Hinv : proc_inv R s.
Hypothesis Hb : tasks (sched s) !! t = Some b.
Hypothesis Hi : images s !! t = Some i.

Let Hloc : local_ok (spaces s) t b i := in_local _ _ _ _ _ Hinv t b i Hb Hi.

(** A change that keeps the blocks. *)
Lemma inv_keep s' b' i' :
  touched t s s' b' i' -> heap s' = heap s -> spaces s' = spaces s -> slots t b' i' = slots t b i ->
  pending_ok (stacks b') -> space_ok (spaces s) b' i' ->
  (u_argv (args i') <> 0 -> 0 < u_argc (args i')) /\ (u_envp (args i') <> 0 -> 0 < u_envc (args i')) ->
  proc_inv R s'.
Proof.
  intros Ht Hh Hsp Hs Hp Hspace Ha. unfold proc_inv. rewrite (tc_tasks _ _ _ _ _ Ht), (tc_images _ _ _ _ _ Ht), Hh, Hsp.
  assert (owned t b' i' = owned t b i) as Eo by (unfold owned; by rewrite Hs).
  assert (forall p, p ∈ owned t b i <-> owns (tasks (sched s)) (images s) t p) as Ho by (intros p; by rewrite (owns_at s t b i)).
  eapply inv_put; [exact Hinv| |rewrite Eo|done|rewrite Eo].
  - constructor; [apply Hloc| |rewrite Eo; apply Hloc|done..]. injection Hs as Hmm. rewrite Hmm. apply Hloc.
  - intros p Hp'. left. by apply Ho.
  - intros p. rewrite Ho. split; [|intros [[? _]|?]; [done|by eapply owns_heap]].
    intros Hp'. destruct (decide (p ∈ owned t b i)) as [H|H]; [right; by apply Ho|left]. by rewrite <- Ho.
Qed.

(** The block in one slot is freed, or a new one is put into it. *)
Lemma inv_set_slot s' b' i' l1 x y l2 :
  touched t s s' b' i' -> spaces s' = spaces s ->
  slots t b i = l1 ++ x :: l2 -> slots t b' i' = l1 ++ y :: l2 -> (2 <= length l1)%nat ->
  stacks b' = stacks b -> ustk i' = ustk i ->
  (u_argv (args i') <> 0 -> 0 < u_argc (args i')) /\ (u_envp (args i') <> 0 -> 0 < u_envc (args i')) ->
  y = 0 \/ y ∉ heap s ->
  (forall p, p ∈ heap s' <-> p ∈ heap s /\ (p <> x \/ x = 0) \/ p = y /\ y <> 0) ->
  proc_inv R s'.
Proof.
  intros Ht Hsp E1 E2 Hl Hst Hus Ha Hy Hh. unfold proc_inv.
  rewrite (tc_tasks _ _ _ _ _ Ht), (tc_images _ _ _ _ _ Ht), Hsp.
  assert (mm i' = mm i) as Hmm.
  { assert (slots t b' i' !! 1%nat = slots t b i !! 1%nat) as E by (rewrite E1, E2, !lookup_app_l by lia; done).
    by injection E. }
  eapply inv_slot; [exact Hinv|exact Hb|exact Hi|exact E1|exact E2| | | | |exact Ha|exact Hy|done|exact Hh].
  - destruct l1; [simpl in Hl; lia|done]. 
  - rewrite Hmm. apply Hloc.
  - rewrite Hst. apply Hloc.
  - unfold space_ok. rewrite Hst, Hus, Hmm. apply Hloc.
Qed.

Lemma drop_argv_spec :
  exists s', drop_argv t s = Some s' /\ proc_inv R s' /\ touched t s s' b (set_argv 0 i) /\ vfs s' = vfs s.
Proof.
  unfold drop_argv. rewrite Hi. cbn [mbind option_bind].
  rewrite kfree_if_spec by (eapply inv_slot_heap; eauto; unfold slots; set_solver).
  cbn [mbind option_bind]. unfold upd_image. cbn [images with_heap]. rewrite Hi. cbn [mbind option_bind].
  eexists. split; [done|]. assert (touched t s (with_image t (set_argv 0 i)
    (with_heap (heap_minus (u_argv (args i)) s) s)) b (set_argv 0 i)) as Ht by (constructor; try done; cbn; by rewrite insert_id).
  split_and!; [|done|done].
  eapply (inv_set_slot _ _ _ [t; mm i; _; _; _; _] _ 0 [_]); try done; [cbn; lia| |by left|].
  - cbn. split; [done|apply Hloc].
  - intros p. cbn. rewrite elem_heap_minus. naive_solver.
Qed.

Lemma drop_envp_spec :
  exists s', drop_envp t s = Some s' /\ proc_inv R s' /\ touched t s s' b (set_envp 0 i) /\ vfs s' = vfs s.
Proof.
  unfold drop_envp. rewrite Hi. cbn [mbind option_bind].
  rewrite kfree_if_spec by (eapply inv_slot_heap; eauto; unfold slots; set_solver).
  cbn [mbind option_bind]. unfold upd_image. cbn [images with_heap]. rewrite Hi. cbn [mbind option_bind].
  eexists. split; [done|]. assert (touched t s (with_image t (set_envp 0 i)
    (with_heap (heap_minus (u_envp (args i)) s) s)) b (set_envp 0 i)) as Ht by (constructor; try done; cbn; by rewrite insert_id).
  split_and!; [|done|done].
  eapply (inv_set_slot _ _ _ [t; mm i; _; _; _; _; _] _ 0 []); try done; [cbn; lia| |by left|].
  - cbn. split; [apply Hloc|done].
  - intros p. cbn. rewrite elem_heap_minus. naive_solver.
Qed.

Lemma drop_event_spec :
  exists s', drop_event t s = Some s' /\ proc_inv R s' /\ touched t s s' (set_wakeup 0 b) i /\ vfs s' = vfs s.
Proof.
  unfold drop_event. rewrite Hb. cbn [mbind option_bind].
  assert (exists s1, free_event (wakeup_event b) s = Some s1 /\ heap s1 = heap_minus (wakeup_event b) s /\
    touched t s s1 b i /\ spaces s1 = spaces s /\ vfs s1 = vfs s) as (s1 & E1 & Hh1 & Ht1 & Hsp1 & Hv1).
  { pose proof (kfree_if_spec (wakeup_event b) s) as E. unfold free_event, kfree_if in *.
    destruct (Z.eqb_spec (wakeup_event b) 0) as [E0|Hne].
    - exists s. split_and!; try done; [unfold heap_minus; by rewrite decide_True|].
      constructor; try done; cbn; by rewrite insert_id.
    - rewrite E by (eapply inv_slot_heap; eauto; unfold slots; set_solver). cbn [mbind option_bind].
      eexists. split; [done|]. split_and!; try done. constructor; try done; cbn; by rewrite insert_id. }
  rewrite E1. cbn [mbind option_bind]. unfold upd_base, upd_task.
  destruct (touched_at _ _ _ _ _ Ht1) as [Hb1 Hi1]. rewrite Hb1. cbn [mbind option_bind]. eexists. split; [done|].
  set (s2 := with_sched _ s1).
  assert (touched t s s2 (set_wakeup 0 b) i) as Ht.
  { eapply touched_trans; [exact Ht1|]. constructor; try done; cbn; by rewrite insert_id. }
  split_and!; [|done|done].
  eapply (inv_set_slot _ _ _ [t; mm i; _; _; _] _ 0 [_; _]); try done; [cbn; lia|apply Hloc|by left|].
  intros p. cbn. rewrite Hh1, elem_heap_minus. naive_solver.
Qed.

(** The user stack of a task that runs its program. *)
Lemma drop_ustack_spec :
  settled (stacks b) -> ustack_ptr (ustk i) <> 0 ->
  exists s', (s' ← vfree_user (mm i) (ustack_ptr (ustk i)) s; upd_image t (set_ustack_ptr 0) s') = Some s' /\
    proc_inv R s' /\ touched t s s' b (set_ustack_ptr 0 i) /\ vfs s' = vfs s.
Proof.
  intros Hset Hu. destruct (lo_space _ _ _ _ Hloc) as (a & Ha & Hin). unfold vfree_user. rewrite Ha.
  rewrite (bool_decide_eq_true_2 (ustack_ptr (ustk i) ∈ a)) by (by apply Hin). cbn [mbind option_bind]. unfold upd_image. cbn [images with_spaces]. rewrite Hi.
  cbn [mbind option_bind]. eexists. split; [done|]. set (s' := with_image _ _ _).
  assert (touched t s s' b (set_ustack_ptr 0 i)) as Ht by (constructor; try done; cbn; by rewrite insert_id).
  split_and!; [|done|done]. unfold proc_inv. rewrite (tc_tasks _ _ _ _ _ Ht), (tc_images _ _ _ _ _ Ht).
  assert (forall p, p ∈ owned t b i <-> owns (tasks (sched s)) (images s) t p) as Ho by (intros p; by rewrite (owns_at s t b i)).
  eapply inv_put; [exact Hinv| | | |].
  - destruct Hloc as [H1 H2 H3 H4 _ H6]. constructor; try done. eexists. cbn. split; [apply lookup_insert_eq|done].
  - intros p Hp. left. by apply Ho.
  - intros t0 b0 i0 Hne Hb0 Hi0. cbn. rewrite lookup_insert_ne; [done|]. by apply (mm_apart R s t b i t0 b0 i0).
  - intros p. cbn. change (owned t b (set_ustack_ptr 0 i)) with (owned t b i). rewrite Ho.
    split; [|intros [[? _]|?]; [done|by eapply owns_heap]]. intros Hp'.
    destruct (decide (p ∈ owned t b i)) as [H|H]; [right; by apply Ho|left]. by rewrite <- Ho.
Qed.

Lemma close_all_inv cpu :
  closable cpu t s ->
  exists s', _task_close_all_files cpu t s = Some s' /\ proc_inv R s' /\ touched t s s' b i /\
    default [] (open_files (vfs s') !! t) = [] /\
    forall t', t' <> t -> open_files (vfs s') !! t' = open_files (vfs s) !! t'.
Proof.
  intros Hcl. destruct (default [] (open_files (vfs s) !! t)) as [|a l] eqn:El.
  - exists s. unfold _task_close_all_files. rewrite El. split_and!; try done. constructor; try done; by rewrite insert_id.
  - destruct Hcl as [E|[Hcur (fds & Hf & Hnd)]]; [congruence|]. unfold _task_close_all_files. rewrite El, Hcur. cbn [mbind option_bind].
    rewrite El in Hf. rewrite (close_all_spec t (a :: l) fds) by done. cbn [mbind option_bind].
    eexists. split; [done|]. split_and!; [exact Hinv|constructor; try done; cbn; by rewrite insert_id| |].
    + cbn. by rewrite lookup_insert_eq.
    + intros t' Hne. cbn. by rewrite lookup_insert_ne.
Qed.
End Task.

(** What is left of a task after [task_free_phase0]. *)
Definition released (i : image_t) : image_t := set_envp 0 (set_argv 0 (if decide (mode i = TASK_USER_MODE) then set_ustack_ptr 0 i else i)).

Lemma ustack_ptr_idle i : ustack_ptr (ustk i) = 0 -> set_ustack_ptr 0 i = i.
Proof. destruct i as [? ? ? ? ? ? [u l p] ? ? ?]. cbn. by intros ->. Qed.

Lemma closable_touched cpu t s s' b i : touched t s s' b i -> vfs s' = vfs s -> closable cpu t s -> closable cpu t s'.
Proof. intros Ht Hv [H|[H1 H2]]; unfold closable, sched_get_task in *; rewrite Hv; [by left|right]. by rewrite (tc_running _ _ _ _ _ Ht). Qed.

Lemma release_ustack R t b i s :
  proc_inv R s -> tasks (sched s) !! t = Some b -> images s !! t = Some i -> settled (stacks b) ->
  exists s', (if bool_decide (mode i = TASK_USER_MODE) && ctrue (ustack_ptr (ustk i)) then
      s ← vfree_user (mm i) (ustack_ptr (ustk i)) s; upd_image t (set_ustack_ptr 0) s
    else Some s) = Some s' /\ proc_inv R s' /\
    touched t s s' b (if decide (mode i = TASK_USER_MODE) then set_ustack_ptr 0 i else i) /\ vfs s' = vfs s.
Proof.
  intros Hinv Hb Hi Hset. unfold ctrue.
  assert (touched t s s b i) as Hrefl by (constructor; try done; by rewrite insert_id).
  case_decide as Hm; [rewrite bool_decide_eq_true_2 by done|rewrite bool_decide_eq_false_2 by done; eauto]. cbn [andb].
  destruct (Z.eqb_spec (ustack_ptr (ustk i)) 0) as [E|Hne]; cbn [negb]; [rewrite ustack_ptr_idle by done; eauto|].
  by apply (drop_ustack_spec R t b i s).
Qed.

Lemma phase0_spec R cpu t b i s :
  proc_inv R s -> tasks (sched s) !! t = Some b -> images s !! t = Some i -> settled (stacks b) -> closable cpu t s ->
  exists s', task_free_phase0 cpu t s = Some s' /\ proc_inv R s' /\ touched t s s' (set_wakeup 0 b) (released i) /\
    default [] (open_files (vfs s') !! t) = [] /\
    forall t', t' <> t -> open_files (vfs s') !! t' = open_files (vfs s) !! t'.
Proof.
  intros Hinv Hb Hi Hset Hcl. unfold task_free_phase0. rewrite Hi. cbn [mbind option_bind].
  destruct (release_ustack R t b i s Hinv Hb Hi Hset) as (s1 & -> & I1 & T1 & V1). cbn [mbind option_bind].
  destruct (touched_at _ _ _ _ _ T1) as [B1 J1].
  destruct (drop_argv_spec R t b _ s1 I1 B1 J1) as (s2 & -> & I2 & T2 & V2). cbn [mbind option_bind].
  destruct (touched_at _ _ _ _ _ T2) as [B2 J2].
  destruct (drop_envp_spec R t b _ s2 I2 B2 J2) as (s3 & -> & I3 & T3 & V3). cbn [mbind option_bind].
  destruct (touched_at _ _ _ _ _ T3) as [B3 J3].
  destruct (close_all_inv R t b _ s3 I3 B3 J3 cpu) as (s4 & -> & I4 & T4 & V4 & V4').
  { eapply closable_touched, closable_touched, closable_touched; eauto. }
  cbn [mbind option_bind]. destruct (touched_at _ _ _ _ _ T4) as [B4 J4].
  destruct (drop_event_spec R t b _ s4 I4 B4 J4) as (s5 & -> & I5 & T5 & V5).
  exists s5. split_and!; [done|done| |by rewrite V5|].
  - eapply touched_trans, touched_trans, touched_trans, touched_trans; eauto.
  - intros t' Hne. rewrite V5, V4', V3, V2, V1 by done. done.
Qed.

(** ** The life of tasks *)

(** A task that has ended and waits to be collected. *)
Definition zombie s (z : Z) (b : task_t) (i : image_t) : Prop :=
  tasks (sched s) !! z = Some b /\ images s !! z = Some i /\ state b = TASK_ZOMBIE /\ settled (stacks b) /\
  set_wakeup 0 b = b /\ released i = i /\ default [] (open_files (vfs s) !! z) = [].

Record life_inv (R : gset Z) s : Prop := {
  lf_proc : proc_inv R s;
  lf_cleanup : NoDup (cleanup_tasks (sched s));
  lf_zombie : forall z, z ∈ cleanup_tasks (sched s) -> exists b i, zombie s z b i;
  lf_run : forall cpu t, sched_get_task cpu (sched s) = Some t ->
    is_Some (tasks (sched s) !! t) /\ t ∉ cleanup_tasks (sched s);
  lf_once : forall cpu cpu' t,
    sched_get_task cpu (sched s) = Some t -> sched_get_task cpu' (sched s) = Some t -> cpu = cpu';
}.

Lemma released_idem i : released (released i) = released i.
Proof. destruct i as [[] p r sr x f [u l q] [ac av ec ev] fk a]; reflexivity. Qed.

Lemma upd_base_spec t f s b i :
  tasks (sched s) !! t = Some b -> images s !! t = Some i ->
  exists s', upd_base t f s = Some s' /\ touched t s s' (f b) i /\ heap s' = heap s /\ spaces s' = spaces s /\ vfs s' = vfs s.
Proof.
  intros Hb Hi. unfold upd_base, upd_task. rewrite Hb. cbn [mbind option_bind]. eexists. split; [done|].
  split_and!; [|done..]. constructor; try done; cbn; by rewrite insert_id.
Qed.
Lemma upd_image_spec t f s b i :
  tasks (sched s) !! t = Some b -> images s !! t = Some i ->
  exists s', upd_image t f s = Some s' /\ touched t s s' b (f i) /\ heap s' = heap s /\ spaces s' = spaces s /\ vfs s' = vfs s.
Proof.
  intros Hb Hi. unfold upd_image. rewrite Hi. cbn [mbind option_bind]. eexists. split; [done|].
  split_and!; [|done..]. constructor; try done; cbn; by rewrite insert_id.
Qed.

(** A zombie that is not the changed task stays one. *)
Lemma zombie_touched t s s' b i z bz iz :
  touched t s s' b i -> z <> t -> open_files (vfs s') !! z = open_files (vfs s) !! z -> zombie s z bz iz -> zombie s' z bz iz.
Proof.
  intros Ht Hne Hv (H1 & H2 & H3). unfold zombie.
  by rewrite (tc_tasks _ _ _ _ _ Ht), (tc_images _ _ _ _ _ Ht), !lookup_insert_ne, Hv by done.
Qed.

(** The running task, released, goes to the tasks to clean up. *)
Lemma life_retire R cpu t s s1 b i :
  life_inv R s -> sched_get_task cpu (sched s) = Some t -> touched t s s1 b i -> proc_inv R s1 ->
  (forall z, z <> t -> open_files (vfs s1) !! z = open_files (vfs s) !! z) -> zombie s1 t b i ->
  life_inv R (with_sched (with_running (delete cpu) (__active_task_add_to_cleanup t (sched s1))) s1).
Proof.
  intros [Hinv Hnd Hz Hrun Honce] Hcur T I1 Hof Hzt. destruct (Hrun cpu t Hcur) as [_ Hnt].
  constructor; [exact I1| | | |]; unfold __active_task_add_to_cleanup, l_add_prev, sched_get_task; cbn;
    rewrite ?(tc_cleanup _ _ _ _ _ T), ?(tc_running _ _ _ _ _ T).
  - apply NoDup_app. split_and!; [done| |apply NoDup_singleton]. intros z Hin E%list_elem_of_singleton. by subst z.
  - intros z [Hin|E%list_elem_of_singleton]%elem_of_app; [|subst z; by exists b, i].
    assert (z <> t) by (intros ->; done). destruct (Hz z Hin) as (bz & iz & Hzz). exists bz, iz.
    exact (zombie_touched t s s1 b i z bz iz T ltac:(done) (Hof z ltac:(done)) Hzz).
  - intros cpu' t' [Hne Hr]%lookup_delete_Some. destruct (Hrun cpu' t' Hr) as [[bt' Hbt'] Hnin].
    assert (t' <> t) by (intros ->; by apply Hne, (Honce cpu cpu' t)). split.
    + rewrite (tc_tasks _ _ _ _ _ T), lookup_insert_ne by done. eauto.
    + intros [?|?%list_elem_of_singleton]%elem_of_app; done.
  - intros cpu1 cpu2 t' [_ R1]%lookup_delete_Some [_ R2]%lookup_delete_Some. by apply (Honce cpu1 cpu2 t').
Qed.

(** The exit of the running task: it becomes a zombie with its exit code, its blocks but its structure, kernel stack and address
    space are freed, and the processor runs no task. *)
Lemma proc_exit_spec R cpu code t b i s :
  life_inv R s -> sched_get_task cpu (sched s) = Some t -> tasks (sched s) !! t = Some b -> images s !! t = Some i ->
  settled (stacks b) -> files_ok (vfs s) t ->
  exists s' b' i', proc_exit cpu code s = Some s' /\ life_inv R s' /\ zombie s' t b' i' /\
    exitcode b' = code /\ tid b' = tid b /\ tgid b' = tgid b /\
    cleanup_tasks (sched s') = cleanup_tasks (sched s) ++ [t] /\ sched_get_task cpu (sched s') = None /\
    images s' = <[t := i']> (images s) /\ mode i' = mode i.
Proof.
  intros Hlife Hcur Hb Hi Hset Hf. pose proof (lf_proc _ _ Hlife) as Hinv.
  unfold proc_exit. rewrite Hcur. cbn [mbind option_bind].
  destruct (upd_base_spec t (set_exitcode code) s b i Hb Hi) as (s1 & -> & T1 & H1 & P1 & V1). cbn [mbind option_bind].
  destruct (touched_at _ _ _ _ _ T1) as [B1 J1].
  destruct (upd_image_spec t clear_tstack s1 _ _ B1 J1) as (s2 & -> & T2 & H2 & P2 & V2).
  cbn [mbind option_bind]. destruct (touched_at _ _ _ _ _ T2) as [B2 J2].
  pose proof (in_local _ _ _ _ _ Hinv t b i Hb Hi) as Hloc.
  assert (proc_inv R s2) as I2.
  { eapply (inv_keep R t b i s Hinv Hb Hi s2); [by eapply touched_trans|congruence|congruence|done|apply Hloc..]. }
  destruct (phase0_spec R cpu t _ _ s2 I2 B2 J2 Hset) as (s3 & -> & I3 & T3 & V3 & V3').
  { right. unfold sched_get_task. rewrite (tc_running _ _ _ _ _ T2), (tc_running _ _ _ _ _ T1), V2, V1. done. }
  cbn [mbind option_bind]. destruct (touched_at _ _ _ _ _ T3) as [B3 J3].
  destruct (upd_base_spec t (set_state TASK_ZOMBIE) s3 _ _ B3 J3) as (s4 & -> & T4 & H4 & P4 & V4). cbn [mbind option_bind].
  assert (proc_inv R s4) as I4.
  { pose proof (in_local _ _ _ _ _ I3 t _ _ B3 J3) as Hloc3. eapply (inv_keep R t _ _ s3 I3 B3 J3 s4); try done; apply Hloc3. }
  destruct (touched_at _ _ _ _ _ T4) as [B4 J4].
  pose proof (touched_trans _ _ _ _ _ _ _ _ (touched_trans _ _ _ _ _ _ _ _ (touched_trans _ _ _ _ _ _ _ _ T1 T2) T3) T4) as T.
  assert (zombie s4 t (set_state TASK_ZOMBIE (set_wakeup 0 (set_exitcode code b))) (released (clear_tstack i))) as Hz4.
  { split_and!; [done|done|done|done|done|apply released_idem|by rewrite V4]. }
  eexists _, _, _. split; [done|]. split; [|split; [exact Hz4|]].
  - eapply life_retire; eauto. intros z Hzt. rewrite V4, V3', V2, V1 by done. done.
  - unfold sched_get_task. cbn. unfold l_add_prev. rewrite (tc_cleanup _ _ _ _ _ T), lookup_delete_eq, (tc_images _ _ _ _ _ T).
    split_and!; try done. unfold released. by case_decide.
Qed.

(** ** Collection *)

Lemma find_zombie_spec s l group child :
  (forall z, z ∈ l -> exists b i, zombie s z b i) ->
  exists r, find_zombie (sched s) l group child = Some r /\
    match r with
    | Some (z, code) => z ∈ l /\ exists b i, zombie s z b i /\ tgid b = group /\ tid b = child /\ exitcode b = code
    | None => forall z b, z ∈ l -> tasks (sched s) !! z = Some b -> tgid b = group -> tid b <> child
    end.
Proof.
  induction l as [|z l IH]; intros Hl; cbn [find_zombie].
  { exists None. split; [done|]. by intros ? ? ?%elem_of_nil. }
  destruct (Hl z ltac:(left)) as (b & i & Hz). pose proof Hz as (Hb & _ & Hst & _). rewrite Hb. cbn [mbind option_bind].
  rewrite bool_decide_eq_true_2 by done. cbn [negb].
  destruct ((tgid b =? group) && (tid b =? child)) eqn:E; breflect.
  - eexists. split; [done|]. split; [left|]. eauto 10.
  - destruct IH as (r & -> & Hr); [intros z' Hz'; apply Hl; by right|]. exists r. split; [done|].
    destruct r as [[z' code]|]; [destruct Hr; split; [by right|done]|].
    intros z' b' [->|Hin]%elem_of_cons; [|by apply Hr]. intros ? ? ?. simplify_eq.
    by rewrite !Z.eqb_refl in E.
Qed.

Lemma zombie_owned R s z b i :
  proc_inv R s -> zombie s z b i ->
  owned z b i = z :: mm i :: nz [kstack_ptr (stacks b)] /\ z <> mm i /\ z <> kstack_ptr (stacks b) /\
  (mm i <> kstack_ptr (stacks b) \/ kstack_ptr (stacks b) = 0).
Proof.
  intros Hinv (Hb & Hi & _ & [Hr0 Ho0] & Hw & Hrel & _).
  destruct (in_local _ _ _ _ _ Hinv z b i Hb Hi) as [Hz Hmm Hnd [Hp _] _ _].
  assert (owned z b i = z :: mm i :: nz [kstack_ptr (stacks b)]) as E.
  { assert (wakeup_event b = 0) as E1 by (by rewrite <- Hw).
    assert (u_argv (args i) = 0) as E2 by (by rewrite <- Hrel). assert (u_envp (args i) = 0) as E3 by (by rewrite <- Hrel).
    unfold owned, slots. rewrite E1, E2, E3, Ho0, (proj1 Hp Hr0). unfold nz.
    rewrite (filter_cons_True _ z), (filter_cons_True _ (mm i)) by done. by do 2 f_equal. }
  rewrite E in Hnd. apply NoDup_cons in Hnd as [N1 Hnd]. apply NoDup_cons in Hnd as [N2 _].
  rewrite elem_of_cons, elem_nz, list_elem_of_singleton in N1. rewrite elem_nz, list_elem_of_singleton in N2.
  split; [done|]. destruct (decide (kstack_ptr (stacks b) = 0)); [split_and!; [tauto|congruence|by right]|].
  split_and!; [tauto|tauto|left]. intros E'. apply N2. split; congruence.
Qed.

(** A zombie is freed with all its blocks. *)
Lemma task_free_spec R cpu z b i s :
  proc_inv R s -> zombie s z b i ->
  exists s', task_free cpu z s = Some s' /\ proc_inv R s' /\
    (forall p, p ∈ heap s' <-> p ∈ heap s /\ p ∉ owned z b i) /\
    tasks (sched s') = delete z (tasks (sched s)) /\ images s' = delete z (images s) /\
    cleanup_tasks (sched s') = cleanup_tasks (sched s) /\ running_tasks (sched s') = running_tasks (sched s) /\
    forall t, t <> z -> open_files (vfs s') !! t = open_files (vfs s) !! t.
Proof.
  intros Hinv Hz. destruct (zombie_owned R s z b i Hinv Hz) as (Eo & N1 & N2 & N3).
  pose proof Hz as (Hb & Hi & Hst & Hset & Hw & Hrel & Hof).
  destruct (in_local _ _ _ _ _ Hinv z b i Hb Hi) as [Hz0 Hmm _ _ (a & Ha & _) _].
  destruct (phase0_spec R cpu z b i s Hinv Hb Hi Hset ltac:(by left)) as (s1 & E1 & I1 & T1 & _ & V1).
  rewrite Hw, Hrel in T1. destruct (touched_at _ _ _ _ _ T1) as [B1 J1].
  assert (tasks (sched s1) = tasks (sched s)) as Et by (by rewrite (tc_tasks _ _ _ _ _ T1), insert_id).
  assert (images s1 = images s) as Ei by (by rewrite (tc_images _ _ _ _ _ T1), insert_id).
  assert (forall p, p ∈ heap s1 <-> p ∈ heap s) as Eh.
  { intros p. rewrite (in_heap _ _ _ _ _ I1), (in_heap _ _ _ _ _ Hinv). by rewrite Et, Ei. }
  assert (forall p, p ∈ owned z b i -> p ∈ heap s1) as Hin.
  { intros p Hp. eapply (owns_heap R _ _ _ _ I1 z), owns_at; eauto. }
  destruct (in_local _ _ _ _ _ I1 z b i B1 J1) as [_ _ _ _ (a1 & Ha1 & _) _].
  unfold task_free. rewrite E1. cbn [mbind option_bind]. rewrite B1. cbn [mbind option_bind].
  rewrite kfree_if_spec by (eapply inv_slot_heap; eauto; unfold slots; set_solver). cbn [mbind option_bind].
  cbn [images with_heap]. rewrite J1. cbn [mbind option_bind]. unfold free_mm, free_block. cbn [spaces with_heap heap].
  rewrite Ha1. cbn [mbind option_bind].
  rewrite bool_decide_eq_true_2.
  2:{ apply elem_heap_minus. split; [apply Hin; rewrite Eo; set_solver|tauto]. }
  cbn [mbind option_bind spaces with_heap heap with_spaces].
  rewrite bool_decide_eq_true_2.
  2:{ apply elem_of_difference. rewrite not_elem_of_singleton, elem_heap_minus.
      split_and!; [apply Hin; rewrite Eo; set_solver|by left|done]. }
  cbn [mbind option_bind]. eexists. split; [done|].
  assert (forall p, p ∈ heap_minus (kstack_ptr (stacks b)) s1 ∖ {[mm i]} ∖ {[z]} <-> p ∈ heap s /\ p ∉ owned z b i) as EH.
  { intros p. rewrite !elem_of_difference, !not_elem_of_singleton, elem_heap_minus, Eh, Eo, !not_elem_of_cons, elem_nz,
      list_elem_of_singleton. destruct (decide (p = 0)), (decide (p = kstack_ptr (stacks b))); intuition congruence. }
  split_and!; [|exact EH|cbn; by rewrite Et|cbn; by rewrite Ei|apply (tc_cleanup _ _ _ _ _ T1)|apply (tc_running _ _ _ _ _ T1)|exact V1].
  unfold proc_inv. cbn. eapply inv_delete; [exact I1| |].
  - intros t0 b0 i0 Hne Hb0 Hi0. rewrite lookup_delete_ne; [done|]. by apply (mm_apart R s1 z b i t0 b0 i0).
  - intros p. by rewrite EH, Eh, (owns_at s1 z b i).
Qed.

(** One turn of [sched_wait]: a zombie child with the number is freed and its exit code returned; otherwise nothing changes. *)
Definition collected R (b : task_t) (child : Z) s s' (r : option Z) : Prop :=
  match r with
  | Some code => exists z bz iz, z ∈ cleanup_tasks (sched s) /\ zombie s z bz iz /\
      tgid bz = tgid b /\ tid bz = child /\ exitcode bz = code /\
      tasks (sched s') = delete z (tasks (sched s)) /\ images s' = delete z (images s) /\
      (forall p, p ∈ heap s' <-> p ∈ heap s /\ p ∉ owned z bz iz) /\ life_inv R s'
  | None => s' = s /\
      forall z bz, z ∈ cleanup_tasks (sched s) -> tasks (sched s) !! z = Some bz -> tgid bz = tgid b -> tid bz <> child
  end.

Lemma proc_wait_spec R cpu child t b s :
  life_inv R s -> sched_get_task cpu (sched s) = Some t -> tasks (sched s) !! t = Some b ->
  exists s' r, proc_wait_turn cpu child s = Some (s', r) /\ collected R b child s s' r.
Proof.
  intros [Hinv Hnd Hz Hrun Honce] Hcur Hb. unfold proc_wait_turn. rewrite Hcur. cbn [mbind option_bind]. rewrite Hb.
  cbn [mbind option_bind]. destruct (find_zombie_spec s (cleanup_tasks (sched s)) (tgid b) child Hz) as (r & -> & Hr).
  cbn [mbind option_bind]. destruct r as [[z code]|]; [|by exists s, None].
  destruct Hr as (Hin & bz & iz & Hzz & Hg & Hc & Hcode).
  set (s0 := with_sched _ s). assert (zombie s0 z bz iz) as Hz0 by exact Hzz.
  destruct (task_free_spec R cpu z bz iz s0 Hinv Hz0) as (s' & -> & I' & Hh & Ht & Hi & Hcl & Hru & Hof).
  cbn [mbind option_bind]. exists s', (Some code). split; [done|]. exists z, bz, iz. split_and!; try done.
  cbn in Ht, Hi, Hcl, Hru.
  assert (forall x, x ∈ cleanup_tasks (sched s') <-> x ∈ cleanup_tasks (sched s) /\ x <> z) as Hcin.
  { intros x. rewrite Hcl. by apply elem_of_l_remove_entry. }
  constructor; [done|rewrite Hcl; by apply NoDup_l_remove_entry| | |].
  - intros x [Hx Hne]%Hcin. destruct (Hz x Hx) as (bx & ix & H1 & H2 & H3 & H4 & H5 & H6 & H7). exists bx, ix. unfold zombie.
    by rewrite Ht, Hi, !lookup_delete_ne, Hof.
  - intros cpu' t'. unfold sched_get_task. rewrite Hru. intros Hr'. destruct (Hrun cpu' t' Hr') as [Hs Hni].
    rewrite Hcin, Ht, lookup_delete_ne by (by intros <-). tauto.
  - intros c1 c2 t'. unfold sched_get_task. rewrite Hru. apply Honce.
Qed.

(** ** Fork *)

(** What the allocators returned for a fork: new blocks, and none is missing that is needed. *)
Record fresh_ok (fr : fresh_t) (i : image_t) s : Prop := {
  fo_some : n_task fr <> 0 /\ n_mm fr <> 0 /\ n_stack fr <> 0;
  fo_args : (u_argv (args i) <> 0 -> n_argv fr <> 0) /\ (u_envp (args i) <> 0 -> n_envp fr <> 0);
  fo_nodup : NoDup (nz [n_task fr; n_mm fr; n_stack fr; n_event fr; n_argv fr; n_envp fr]);
  fo_new : Forall (fun p => p ∉ heap s) [n_task fr; n_mm fr; n_stack fr; n_event fr; n_argv fr; n_envp fr];
}.

Lemma heap_take_block p s q : q ∈ heap (take_block p s) <-> q ∈ heap s \/ q = p /\ p <> 0.
Proof.
  unfold take_block. destruct (Z.eqb_spec p 0); [naive_solver|]. cbn. rewrite elem_of_union, elem_of_singleton. naive_solver.
Qed.

Lemma take_block_rest p s :
  sched (take_block p s) = sched s /\ images (take_block p s) = images s /\ spaces (take_block p s) = spaces s /\
  vfs (take_block p s) = vfs s /\ global_id (take_block p s) = global_id s.
Proof. unfold take_block. by destruct (p =? 0). Qed.

Lemma fork_block_spec n ptr block s :
  (ptr <> 0 -> 0 < n) -> (ptr <> 0 -> block <> 0) ->
  exists m h, fork_block n ptr block s = Some (with_mem m (with_heap h s), if decide (ptr = 0) then 0 else block) /\
    forall q, q ∈ h <-> q ∈ heap s \/ ptr <> 0 /\ q = block.
Proof.
  intros Hn Hb. unfold fork_block, ctrue. destruct (Z.eqb_spec ptr 0) as [->|Hne].
  - rewrite andb_false_r. exists (mem s), (heap s). rewrite decide_True by done. split; [by destruct s|]. naive_solver.
  - rewrite (proj2 (Z.ltb_lt 0 n)) by auto. cbn [andb negb]. rewrite (proj2 (Z.eqb_neq block 0)) by auto.
    rewrite decide_False by done. unfold take_block. rewrite (proj2 (Z.eqb_neq block 0)) by auto.
    eexists _, ({[block]} ∪ heap s). split; [reflexivity|]. intros q. rewrite elem_of_union, elem_of_singleton. naive_solver.
Qed.

Lemma copy_files_spec dest src : forall v,
  Forall (fun a => is_Some (files v !! a)) src ->
  exists v', copy_files v dest src = Some v' /\ forall t, t <> dest -> open_files v' !! t = open_files v !! t.
Proof.
  induction src as [|a src IH]; intros v Hf; cbn [copy_files]; [eauto|].
  apply Forall_cons in Hf as [[fd Ha] Hf]. rewrite Ha. cbn [mbind option_bind].
  destruct (is_console fd); [by apply IH|]. edestruct IH as (v' & -> & Hv').
  2:{ eexists. split; [done|]. intros t Hne. rewrite Hv' by done. cbn. by rewrite lookup_insert_ne. }
  eapply Forall_impl; [exact Hf|]. intros x Hx. cbn. rewrite !lookup_insert. repeat case_decide; eauto.
Qed.

Lemma kstack_user_false limit st i m :
  limit <> 0 -> exists gr f m', _task_setup_kstack_user limit false (st, i) m =
    Some (Stacks gr limit limit (rstack st) (rlimit st) (rstack_ptr st) (old_kstack_ptr st), set_frames f i, m').
Proof.
  intros Hl. unfold _task_setup_kstack_user. rewrite (proj2 (Z.eqb_neq limit 0)) by done. eexists _, _, _. reflexivity.
Qed.

Lemma take_event_spec e s :
  let s' := take_event e s in
  (forall q, q ∈ heap s' <-> q ∈ heap s \/ q = e /\ e <> 0) /\ tasks (sched s') = tasks (sched s) /\
  images s' = images s /\ spaces s' = spaces s /\ vfs s' = vfs s /\ active_tasks (sched s') = active_tasks (sched s) /\
  cleanup_tasks (sched s') = cleanup_tasks (sched s) /\ running_tasks (sched s') = running_tasks (sched s).
Proof.
  unfold take_event. destruct (Z.eqb_spec e 0); cbv zeta; [split; [naive_solver|done]|].
  split; [intros q; by rewrite heap_take_block|]. unfold take_block. by rewrite (proj2 (Z.eqb_neq e 0)).
Qed.

(** The state with the new task, apart from memory: what [task_fork] returns. *)
Record forked R (fr : fresh_t) s s' (b : task_t) (i : image_t) (cb : task_t) (ci : image_t) : Prop := {
  fk_inv : proc_inv R s';
  fk_tasks : tasks (sched s') = <[n_task fr := cb]> (tasks (sched s));
  fk_images : images s' = <[n_task fr := ci]> (images s);
  fk_id : tgid cb = tgid b /\ tid cb = u64 (global_id s + 1) /\ state cb = TASK_READY;
  fk_child : is_fork ci = true /\ settled (stacks cb) /\ mode ci = mode i;
  fk_heap : forall p, p ∈ heap s' <-> p ∈ heap s \/ p ∈ owned (n_task fr) cb ci;
  fk_lists : active_tasks (sched s') = active_tasks (sched s) /\ cleanup_tasks (sched s') = cleanup_tasks (sched s) /\
    running_tasks (sched s') = running_tasks (sched s);
  fk_files : files (vfs s') = files (vfs s) /\ open_files (vfs s') = <[n_task fr := []]> (open_files (vfs s));
}.

(** The blocks of a forked child are new. *)
Lemma fresh_slots fr (i : image_t) s c mm' st ev av ep :
  fresh_ok fr i s -> (av = 0 \/ av = n_argv fr) -> (ep = 0 \/ ep = n_envp fr) ->
  c = n_task fr -> mm' = n_mm fr -> st = n_stack fr -> ev = n_event fr ->
  NoDup (nz [c; mm'; st; 0; 0; ev; av; ep]) /\ Forall (fun p => p = 0 \/ p ∉ heap s) [c; mm'; st; 0; 0; ev; av; ep].
Proof.
  intros [_ _ Hnd Hnew] Ha He -> -> -> ->. rewrite !Forall_cons in Hnew. split.
  - change (nz [n_task fr; n_mm fr; n_stack fr; 0; 0; n_event fr; av; ep])
      with (nz ([n_task fr; n_mm fr; n_stack fr; n_event fr] ++ av :: [ep])).
    assert (NoDup (nz ([n_task fr; n_mm fr; n_stack fr; n_event fr] ++ av :: [n_envp fr]))) as Hnd1.
    { destruct Ha as [->| ->]; [|exact Hnd].
      apply (nz_middle [n_task fr; n_mm fr; n_stack fr; n_event fr] (n_argv fr) 0 [n_envp fr] Hnd). by left. }
    destruct He as [->| ->]; [|exact Hnd1].
    apply (nz_middle [n_task fr; n_mm fr; n_stack fr; n_event fr; av] (n_envp fr) 0 [] Hnd1). by left.
  - rewrite !Forall_cons, Forall_nil. destruct Ha as [->| ->], He as [->| ->]; intuition.
Qed.

(** A block that is not in use is no task, and no address space of one. *)
Lemma fresh_no_task R s t : proc_inv R s -> t ∉ heap s -> tasks (sched s) !! t = None /\ images s !! t = None.
Proof.
  intros Hinv Hn. destruct (tasks (sched s) !! t) as [b|] eqn:Hb.
  - exfalso. destruct (proj1 (in_dom _ _ _ _ _ Hinv t)) as [i Hi]; [eauto|].
    apply Hn, (owns_heap R _ _ _ _ Hinv t), (owns_at s t b i); [done..|]. apply elem_nz.
    split; [apply (in_local _ _ _ _ _ Hinv t b i Hb Hi)|left].
  - split; [done|]. apply eq_None_not_Some. intros Hs. apply (in_dom _ _ _ _ _ Hinv) in Hs. rewrite Hb in Hs. by destruct Hs.
Qed.

(** A new task with new blocks. *)
Lemma inv_new R s t cb ci (H' : gset Z) (S' : gmap Z (gset Z)) :
  proc_inv R s -> local_ok S' t cb ci -> Forall (fun p => p = 0 \/ p ∉ heap s) (slots t cb ci) ->
  (forall m, m ∈ heap s -> S' !! m = spaces s !! m) ->
  (forall q, q ∈ H' <-> q ∈ heap s \/ q ∈ owned t cb ci) ->
  inv R (<[t := cb]> (tasks (sched s))) (<[t := ci]> (images s)) H' S'.
Proof.
  intros Hinv Hl Hnew HS HH. rewrite Forall_forall in Hnew.
  assert (t ∉ heap s) as Ht by (destruct (Hnew t) as [?|?]; [left|by destruct Hl|done]).
  destruct (fresh_no_task R s t Hinv Ht) as [Et Ei].
  assert (forall p, ~ owns (tasks (sched s)) (images s) t p) as Hno by (intros p (? & ? & E & _); congruence).
  eapply inv_put; [exact Hinv|done| | |].
  - intros p [Hp0 Hp]%elem_nz. right. by destruct (Hnew p Hp).
  - intros t0 b0 i0 _ Hb0 Hi0. apply HS. apply (owns_heap R _ _ _ _ Hinv t0), (owns_at s t0 b0 i0); [done..|].
    apply elem_nz. split; [apply (in_local _ _ _ _ _ Hinv t0 b0 i0 Hb0 Hi0)|]. right. left.
  - intros p. rewrite HH. specialize (Hno p). tauto.
Qed.

Lemma nz_eq (q x : Z) : q = x /\ x <> 0 <-> q <> 0 /\ q = x.
Proof. naive_solver. Qed.
Lemma nz_copy (q ptr x : Z) :
  (ptr <> 0 -> x <> 0) -> ptr <> 0 /\ q = x <-> q <> 0 /\ q = if decide (ptr = 0) then 0 else x.
Proof. intros H. case_decide; naive_solver. Qed.

Lemma task_fork_spec R fr p u b i s :
  proc_inv R s -> tasks (sched s) !! p = Some b -> images s !! p = Some i -> mode i = TASK_USER_MODE ->
  settled (stacks b) -> fresh_ok fr i s ->
  exists s' cb ci, task_fork fr p u s = Some (s', n_task fr) /\ forked R fr s s' b i cb ci.
Proof.
  intros Hinv Hb Hi Hm Hset Hfo. pose proof Hfo as [(Nt & Nm & Ns) [Na Ne] _ Hnew].
  destruct (in_local _ _ _ _ _ Hinv p b i Hb Hi) as [_ _ _ _ (areas & Har & Hus) [Haa Hae]].
  unfold task_fork. rewrite Hi, Hb. cbn [mbind option_bind]. rewrite Hm, (proj2 (Z.eqb_neq _ 0) Nt).
  change (bool_decide (TASK_USER_MODE = TASK_KERNEL_MODE)) with false. cbv iota.
  set (s1 := take_block (n_task fr) (with_mem _ s)). cbn [_alloc_tid]. unfold _alloc_tid. cbv iota beta.
  set (s2 := Proc (sched s1) _ _ _ _ _ _). rewrite (proj2 (Z.eqb_neq _ 0) Nm).
  assert (sched s2 = sched s /\ images s2 = images s /\ spaces s2 = spaces s /\ vfs s2 = vfs s /\ global_id s1 = global_id s)
    as (Es & Ei & Esp & Ev & Eg) by (unfold s2, s1, take_block; by rewrite (proj2 (Z.eqb_neq _ 0) Nt)).
  rewrite Esp, Har. cbn [mbind option_bind]. set (s3 := with_vfs _ _).
  destruct (fork_block_spec (u_argc (args i)) (u_argv (args i)) (n_argv fr) s3 Haa Na) as (m4 & h4 & -> & H4).
  cbn [mbind option_bind]. set (s4 := with_mem m4 (with_heap h4 s3)).
  destruct (fork_block_spec (u_envc (args i)) (u_envp (args i)) (n_envp fr) s4 Hae Ne) as (m5 & h5 & -> & H5).
  cbn [mbind option_bind]. set (s5 := with_mem m5 (with_heap h5 s4)).
  set (av := if decide (u_argv (args i) = 0) then 0 else n_argv fr) in *.
  set (ep := if decide (u_envp (args i) = 0) then 0 else n_envp fr) in *.
  destruct (take_event_spec (n_event fr) s5) as (H6 & T6 & I6 & S6 & V6 & A6 & C6 & R6).
  set (s6 := take_event (n_event fr) s5) in *.
  edestruct (kstack_user_false (n_stack fr)) as (gr & f & m7 & ->); [done|]. cbn [mbind option_bind].
  set (s8 := put_task _ _ _ _). eexists s8, _, _. split; [reflexivity|].
  assert (forall q, q ∈ heap s8 <-> q ∈ heap s \/ q <> 0 /\ q ∈ [n_task fr; n_mm fr; n_stack fr; 0; 0; n_event fr; av; ep]) as Hh.
  { intros q. change (heap s8) with (heap (take_block (n_stack fr) s6)). rewrite heap_take_block, H6.
    change (heap s5) with h5. rewrite H5. change (heap s4) with h4. rewrite H4.
    change (heap s3) with (heap (take_block (n_mm fr) s2)). rewrite heap_take_block.
    change (heap s2) with (heap s1). unfold s1. rewrite heap_take_block. change (heap (with_mem _ s)) with (heap s).
    rewrite !elem_of_cons, elem_of_nil, (nz_copy q (u_argv (args i))), (nz_copy q (u_envp (args i))), !nz_eq by done.
    fold av ep.
    split; [intros [[[[[[Hq|[? ?]]|[? ?]]|[? ?]]|[? ?]]|[? ?]]|[? ?]]; auto 20|].
    intros [Hq|[? [?|[?|[?|[?|[?|[?|[?|[?|[]]]]]]]]]]]; auto 20; done. }
  destruct (fresh_slots fr i s (n_task fr) (n_mm fr) (n_stack fr) (n_event fr) av ep Hfo) as [Hnd Hfr];
    [unfold av; case_decide; auto|unfold ep; case_decide; auto|done..|].
  destruct (take_block_rest (n_stack fr) s6) as (Ks & Ki & Ksp & Kv & _).
  destruct (take_block_rest (n_mm fr) s2) as (Ls & Li & Lsp & Lv & _).
  assert (sched s5 = sched s /\ images s5 = images s /\ spaces s5 = <[n_mm fr := areas]> (spaces s) /\
    vfs s5 = set_open (n_task fr) [] (vfs s)) as (Q1 & Q2 & Q3 & Q4).
  { unfold s5, s4, s3. cbn. by rewrite Ls, Es, Li, Ei, ?Esp, Lv, Ev. }
  rewrite Q1 in T6, A6, C6, R6. rewrite Q2 in I6. rewrite Q3 in S6. rewrite Q4 in V6.
  set (cb := Task _ _ _ _ _ _ _ _) in s8. set (ci := set_frames _ _) in s8.
  assert (tasks (sched s8) = <[n_task fr := cb]> (tasks (sched s))) as Et by (cbn; by rewrite Ks, T6).
  assert (images s8 = <[n_task fr := ci]> (images s)) as Eim by (cbn; by rewrite Ki, I6).
  constructor; try done.
  - unfold proc_inv. rewrite Et, Eim. apply inv_new; [done| |exact Hfr| |].
    + constructor; [done|done|exact Hnd|done| |].
      * exists areas. cbn. rewrite Ksp, S6, lookup_insert_eq. split; [done|]. intros Hu _. by apply Hus.
      * cbn. unfold av, ep. split; case_decide; auto.
    + intros m Hm'. cbn. rewrite Ksp, S6, lookup_insert_ne; [done|]. intros <-.
      rewrite !Forall_cons in Hnew. tauto.
    + intros q. rewrite Hh. unfold owned. by rewrite elem_nz.
  - cbn. by rewrite Eg.
  - intros q. rewrite Hh. unfold owned. by rewrite elem_nz.
  - cbn. by rewrite Ks, A6, C6, R6.
  - cbn. by rewrite Kv, V6.
Qed.

(** [sched_fork] by a user task that is not itself fresh from a fork: a new ready task at the end of the queue, with the next number and
    the group of its parent. *)
Lemma sched_fork_spec R cpu fr u t b i s :
  life_inv R s -> sched_get_task cpu (sched s) = Some t -> tasks (sched s) !! t = Some b -> images s !! t = Some i ->
  mode i = TASK_USER_MODE -> is_fork i = false -> settled (stacks b) -> fresh_ok fr i s ->
  Forall (fun a => is_Some (files (vfs s) !! a)) (default [] (open_files (vfs s) !! t)) ->
  exists s' cb ci, sched_fork cpu fr u s = Some (s', u32 (u64 (global_id s + 1))) /\ life_inv R s' /\
    tasks (sched s') = <[n_task fr := cb]> (tasks (sched s)) /\ images s' = <[n_task fr := ci]> (images s) /\
    tgid cb = tgid b /\ tid cb = u64 (global_id s + 1) /\ state cb = TASK_READY /\ is_fork ci = true /\
    active_tasks (sched s') = active_tasks (sched s) ++ [n_task fr].
Proof.
  intros [Hinv Hnd Hz Hrun Honce] Hcur Hb Hi Hm Hf Hset Hfo Hfiles.
  unfold sched_fork. rewrite Hcur. cbn [mbind option_bind]. rewrite Hi. cbn [mbind option_bind]. rewrite Hf.
  destruct (task_fork_spec R fr t u b i s Hinv Hb Hi Hm Hset Hfo) as (s1 & cb & ci & -> & [I1 T1 J1 (F1 & F2 & F3) (C1 & _ & _) _ (A1 & A2 & A3) [V1 V2]]).
  cbn [mbind option_bind]. destruct Hfo as [(Nt & _) _ _ Hnew]. rewrite Forall_cons in Hnew. destruct Hnew as [Hnew _].
  destruct (fresh_no_task R s _ Hinv Hnew) as [Nt1 _]. rewrite (proj2 (Z.eqb_neq _ 0) Nt).
  assert (n_task fr <> t) as Hne by congruence.
  destruct (copy_files_spec (n_task fr) (default [] (open_files (vfs s1) !! t)) (vfs s1)) as (v & Hv & Hvo).
  { rewrite V2, V1, lookup_insert_ne by done. done. }
  unfold vfs_copy. rewrite Hv. cbn [mbind option_bind]. rewrite T1, lookup_insert_eq. cbn [mbind option_bind]. rewrite F2.
  eexists _, cb, ci. split; [done|]. split_and!; try done; [|cbn; unfold l_add_prev; by rewrite A1].
  assert (forall z, z ∈ cleanup_tasks (sched s) -> z <> n_task fr) as Hzn.
  { intros z Hin ->. destruct (Hz _ Hin) as (bz & iz & Hbz & _). congruence. }
  constructor; [exact I1|cbn; by rewrite A2| | |].
  - cbn. rewrite A2. intros z Hin. destruct (Hz z Hin) as (bz & iz & H1 & H2 & H3 & H4 & H5 & H6 & H7). exists bz, iz.
    pose proof (Hzn z Hin). unfold zombie. cbn. by rewrite T1, J1, !lookup_insert_ne, Hvo, V2, lookup_insert_ne.
  - intros cpu' t'. unfold sched_get_task. cbn. rewrite A2, A3, T1. intros Hr. destruct (Hrun cpu' t' Hr) as [Hs Hni].
    split; [|done]. rewrite lookup_insert. case_decide; [eauto|done].
  - intros c1 c2 t'. unfold sched_get_task. cbn. rewrite A3. apply Honce.
Qed.

(** A task that came from a fork does not fork the first time: the call returns zero, as in a child, and no task is made. *)
Lemma first_fork_of_child_is_lost cpu fr u t i s :
  sched_get_task cpu (sched s) = Some t -> images s !! t = Some i -> is_fork i = true ->
  sched_fork cpu fr u s = Some (with_image t (set_fork false i) s, 0).
Proof.
  intros Hcur Hi Hf. unfold sched_fork. rewrite Hcur. cbn [mbind option_bind]. rewrite Hi. cbn [mbind option_bind].
  rewrite Hf. unfold upd_image. by rewrite Hi.
Qed.

(** ** Runs *)

(** A user task that runs its program. *)
Definition user_task cpu s t b i : Prop :=
  sched_get_task cpu (sched s) = Some t /\ tasks (sched s) !! t = Some b /\ images s !! t = Some i /\
  mode i = TASK_USER_MODE /\ settled (stacks b) /\ files_ok (vfs s) t.

Lemma files_exist v t : files_ok v t -> Forall (fun a => is_Some (files v !! a)) (default [] (open_files v !! t)).
Proof. intros (fds & Hf & _). induction Hf; constructor; eauto. Qed.

(** ** What goes wrong *)

(** [execve] without an environment, which is how the system call calls it, keeps the pointer to the old one
    and frees it. *)
Lemma execve_frees_kept_environment cpu fr t name tmp argc argv envc envp i s s' :
  images s !! t = Some i -> u_envp (args i) <> 0 -> envc <= 0 ->
  execve_replace fuel cpu fr t name tmp argc argv envc envp s = Some s' ->
  exists i', images s' !! t = Some i' /\ u_envp (args i') = u_envp (args i) /\ u_envp (args i') ∉ heap s'.
Proof.
  intros Hi Hne Hc. unfold execve_replace. rewrite Hi. cbn [mbind option_bind].
  destruct (task_setup_path _ _ _ _) as [m|]; [|done]. cbn [mbind option_bind].
  destruct (task_setup_argv _ _ _ _ _ _) as [[i1 m1]|] eqn:E1; [|done]. cbn [mbind option_bind].
  assert (u_envp (args i1) = u_envp (args i)) as Ee.
  { unfold task_setup_argv in E1. destruct (argc <=? 0); [by injection E1 as <- _|].
    destruct (copy_block _ _ _ _ _); [|done]. by injection E1 as <- _. }
  unfold task_setup_env. rewrite (proj2 (Z.leb_le envc 0)) by done. cbn [mbind option_bind].
  destruct (task_replace _ _ _ _ _) as [s2|]; [|done]. cbn [mbind option_bind].
  unfold upd_image. destruct (images s2 !! t) as [i2|] eqn:Hi2; [|done]. cbn [mbind option_bind].
  destruct (kfree_if _ _) as [s3|] eqn:E3; [|done]. cbn [mbind option_bind]. intros E4.
  assert (images s3 !! t = Some (set_args (args i1) i2)) as Hi3.
  { unfold kfree_if, free_block in E3. destruct (_ =? 0); [injection E3 as <-|].
    - cbn. by rewrite lookup_insert_eq.
    - case_bool_decide; [|done]. injection E3 as <-. cbn. by rewrite lookup_insert_eq. }
  unfold kfree_if, free_block in E4. rewrite (proj2 (Z.eqb_neq _ 0) Hne) in E4. case_bool_decide; [|done].
  injection E4 as <-. exists (set_args (args i1) i2). cbn. rewrite Hi3, Ee. split_and!; [done..|]. set_solver.
Qed.

(** The user stack and address space of a task. *)
Definition stack_of s (t : Z) : option (task_mode_t * Z * Z) :=
  (fun i => (mode i, mm i, ustack_ptr (ustk i))) <$> images s !! t.

Lemma kfree_if_rest x s s' : kfree_if x s = Some s' -> images s' = images s /\ spaces s' = spaces s /\ sched s' = sched s.
Proof. unfold kfree_if, free_block. destruct (x =? 0); [by intros [= <-]|]. case_bool_decide; [by intros [= <-]|done]. Qed.

Lemma upd_image_stack t f s s' :
  (forall i, (mode (f i), mm (f i), ustack_ptr (ustk (f i))) = (mode i, mm i, ustack_ptr (ustk i))) ->
  upd_image t f s = Some s' -> stack_of s' t = stack_of s t /\ spaces s' = spaces s.
Proof.
  intros Hf. unfold upd_image. destruct (images s !! t) as [i|] eqn:Hi; [|done]. cbn [mbind option_bind]. intros [= <-].
  unfold stack_of. cbn. rewrite lookup_insert_eq, Hi. cbn. by rewrite Hf.
Qed.

Lemma drop_argv_stack t s s' : drop_argv t s = Some s' -> stack_of s' t = stack_of s t /\ spaces s' = spaces s.
Proof.
  unfold drop_argv. destruct (images s !! t) as [i|]; [|done]. cbn [mbind option_bind].
  destruct (kfree_if _ s) as [s1|] eqn:E1; [|done]. cbn [mbind option_bind]. intros E2.
  destruct (kfree_if_rest _ _ _ E1) as (H1 & H2 & _). apply upd_image_stack in E2 as [H3 H4]; [|done].
  rewrite H3, H4, H2. unfold stack_of. by rewrite H1.
Qed.
Lemma drop_envp_stack t s s' : drop_envp t s = Some s' -> stack_of s' t = stack_of s t /\ spaces s' = spaces s.
Proof.
  unfold drop_envp. destruct (images s !! t) as [i|]; [|done]. cbn [mbind option_bind].
  destruct (kfree_if _ s) as [s1|] eqn:E1; [|done]. cbn [mbind option_bind]. intros E2.
  destruct (kfree_if_rest _ _ _ E1) as (H1 & H2 & _). apply upd_image_stack in E2 as [H3 H4]; [|done].
  rewrite H3, H4, H2. unfold stack_of. by rewrite H1.
Qed.
Lemma upd_base_stack t f s s' : upd_base t f s = Some s' -> images s' = images s /\ spaces s' = spaces s.
Proof. unfold upd_base. destruct (upd_task _ _ _); [|done]. by intros [= <-]. Qed.
Lemma drop_event_stack t s s' : drop_event t s = Some s' -> images s' = images s /\ spaces s' = spaces s.
Proof.
  unfold drop_event. destruct (tasks (sched s) !! t) as [b|]; [|done]. cbn [mbind option_bind].
  destruct (free_event _ s) as [s1|] eqn:E1; [|done]. cbn [mbind option_bind]. intros E2%upd_base_stack.
  cut (images s1 = images s /\ spaces s1 = spaces s); [by intros [<- <-]|].
  unfold free_event in E1. destruct (_ =? 0); [by injection E1 as <-|]. unfold free_block in E1.
  case_bool_decide; [|done]. cbn [mbind option_bind] in E1. by injection E1 as <-.
Qed.

(** [execve] gives up all areas of the address space but keeps the pointer to the user stack: when the new program cannot be
    loaded, the exit of the task frees that stack again and faults. *)
Lemma failed_exec_faults cpu cpu' fr t name i s s' :
  images s !! t = Some i -> ustack_ptr (ustk i) <> 0 -> task_replace cpu fr t name s = Some s' ->
  task_free_phase0 cpu' t s' = None.
Proof.
  intros Hi Hu. unfold task_replace. rewrite Hi. cbn [mbind option_bind]. case_bool_decide as Hm; [done|].
  destruct (drop_event t s) as [s1|] eqn:E1; [|done]. cbn [mbind option_bind].
  destruct (drop_argv t s1) as [s2|] eqn:E2; [|done]. cbn [mbind option_bind].
  destruct (drop_envp t s2) as [s3|] eqn:E3; [|done]. cbn [mbind option_bind].
  unfold replace_mm. destruct (spaces s3 !! mm i) as [a|]; [|done]. cbn [mbind option_bind].
  destruct (upd_base t _ _) as [s5|] eqn:E5; [|done]. cbn [mbind option_bind].
  destruct (upd_base t (set_wakeup _) _) as [s6|] eqn:E6; [|done]. cbn [mbind option_bind].
  destruct (_task_close_all_files cpu t s6) as [s7|] eqn:E7; [|done]. cbn [mbind option_bind].
  destruct (tasks (sched s7) !! t) as [b7|]; [|done]. cbn [mbind option_bind].
  destruct (images s7 !! t) as [i7|] eqn:Hi7; [|done]. cbn [mbind option_bind].
  destruct (_task_setup_kstack_user _ _ _ _) as [[[st i8] m8]|] eqn:E8; [|done]. cbn [mbind option_bind]. intros [= <-].
  assert (stack_of s7 t = Some (mode i, mm i, ustack_ptr (ustk i)) /\ spaces s7 !! mm i = Some ∅) as [H7 P7].
  { apply drop_event_stack in E1 as [A1 B1]. apply drop_argv_stack in E2 as [A2 B2]. apply drop_envp_stack in E3 as [A3 B3].
    apply upd_base_stack in E5 as [A5 B5]. apply upd_base_stack in E6 as [A6 B6].
    destruct (take_event_spec (n_event fr) (with_mem (set_name t name (mem s5)) s5)) as (_ & _ & A6' & B6' & _).
    assert (images s7 = images s6 /\ spaces s7 = spaces s6) as [A7 B7].
    { unfold _task_close_all_files in E7. destruct (default [] _); [by injection E7 as <-|].
      destruct (sched_get_task _ _); [|done]. cbn [mbind option_bind] in E7. destruct (close_all _ _ _ _); [|done].
      cbn [mbind option_bind] in E7. by injection E7 as <-. }
    split.
    - rewrite A2 in A3. unfold stack_of in *. rewrite A7, A6, A6'. cbn. rewrite A5. cbn. by rewrite A3, A1, Hi.
    - rewrite B7, B6, B6'. cbn. rewrite B5. cbn. apply lookup_insert_eq. }
  unfold stack_of in H7. rewrite Hi7 in H7. cbn in H7. injection H7 as M1 M2 M3.
  assert (exists f, i8 = set_frames f i7) as [f ->].
  { unfold _task_setup_kstack_user in E8. destruct (_ =? 0); [done|]. injection E8 as _ <- _. eauto. }
  unfold task_free_phase0. cbn. rewrite lookup_insert_eq. cbn. rewrite M1, M2, M3.
  destruct (mode i) eqn:Em; [done|]. unfold ctrue. rewrite (proj2 (Z.eqb_neq _ 0) Hu), bool_decide_eq_true_2 by done. cbn.
  unfold vfree_user. cbn. destruct (take_block_rest (n_stack fr) s7) as (_ & _ & -> & _). rewrite P7.
  by rewrite (bool_decide_eq_false_2 (_ ∈ (∅ : gset Z))) by apply not_elem_of_empty.
Qed.

(** The task that [sched_spawn] makes is in the group named by its parent's own number, not in its parent's group. *)
Definition same_group (s : sched_t) (t z : Z) : Prop :=
  exists b bz, tasks s !! t = Some b /\ tasks s !! z = Some bz /\ tgid bz = tgid b.

Lemma wait_collects_own_group R cpu child t b s s' code :
  life_inv R s -> sched_get_task cpu (sched s) = Some t -> tasks (sched s) !! t = Some b ->
  proc_wait_turn cpu child s = Some (s', Some code) ->
  exists z, z ∈ cleanup_tasks (sched s) /\ same_group (sched s) t z.
Proof.
  intros Hl Hcur Hb E. destruct (proc_wait_spec R cpu child t b s Hl Hcur Hb) as (s1 & r & E1 & Hc).
  rewrite E1 in E. injection E as <- ->. destruct Hc as (z & bz & iz & Hin & (Hbz & _) & Hg & _).
  exists z. split; [done|]. by exists b, bz.
Qed.

Lemma take_block_sched p s : sched (take_block p s) = sched s.
Proof. apply take_block_rest. Qed.

Lemma task_create_tasks fr name routine prio md s s1 n :
  task_create sched_task_start sched_task_start_user fr name routine prio md s = Some (s1, n) ->
  n = n_task fr /\ running_tasks (sched s1) = running_tasks (sched s) /\
  forall t, t <> n -> tasks (sched s1) !! t = tasks (sched s) !! t.
Proof.
  unfold task_create. destruct (_ || _); [done|]. cbn [_alloc_tid]. unfold _alloc_tid. cbv iota beta.
  set (s0 := with_vfs _ _). assert (sched s0 = sched s) as E0 by (unfold s0; cbn; rewrite take_block_sched; cbn; by rewrite take_block_sched).
  destruct (take_event_spec (n_event fr) s0) as (_ & T & _ & _ & _ & _ & _ & Ru). rewrite E0 in T, Ru.
  destruct (match md with TASK_KERNEL_MODE => _ | TASK_USER_MODE => _ end) as [[[st i] m]|]; [|done]. cbn [mbind option_bind].
  intros [= <- <-]. cbn. rewrite take_block_sched, Ru. split_and!; [done..|]. intros t Hne. rewrite T, lookup_insert_ne; done.
Qed.

(** The task that [sched_spawn] makes is in the group named by its parent's own number: unless that is the parent's group too, [sched_wait] of
    the parent never finds it. *)
Lemma spawned_task_group cpu fr tmp path argc argv t b s s' r :
  sched_get_task cpu (sched s) = Some t -> tasks (sched s) !! t = Some b -> t <> n_task fr ->
  sched_spawn sched_task_start sched_task_start_user fuel cpu fr tmp path argc argv s = Some (s', r) ->
  exists c, tasks (sched s') !! n_task fr = Some c /\ tgid c = tid b.
Proof.
  intros Hcur Hb Hne. unfold sched_spawn. destruct (temp_path _ _ _ _) as [[m0 nm]|]; [|done]. cbn [mbind option_bind].
  destruct (task_create _ _ _ _ _ _ _ _) as [[s1 n]|] eqn:E1; [|done]. cbn [mbind option_bind].
  destruct (task_create_tasks _ _ _ _ _ _ _ _ E1) as (-> & Hr & Ht). cbn in Hr, Ht.
  destruct (task_setup_path _ _ _ _); [|done]. cbn [mbind option_bind].
  destruct (images s1 !! n_task fr); [|done]. cbn [mbind option_bind].
  destruct (task_setup_argv _ _ _ _ _ _) as [[i2 m2]|]; [|done]. cbn [mbind option_bind].
  unfold sched_get_task in *. rewrite Hr, Hcur. cbn [mbind option_bind].
  destruct (task_setup_cwd _ _ _ _) as [m3|]; [|done]. cbn [mbind option_bind].
  set (s2 := if 0 <? argc then _ else _).
  assert (sched s2 = sched s1) as E2 by (unfold s2; destruct (0 <? argc); [apply take_block_sched|done]).
  rewrite E2, (Ht t Hne), Hb. cbn [mbind option_bind]. unfold upd_base, upd_task. cbn [sched with_image with_mem].
  rewrite E2. destruct (tasks (sched s1) !! n_task fr) as [c|]; [|done]. cbn [mbind option_bind].
  cbn [sched with_sched with_tasks tasks]. rewrite lookup_insert_eq. cbn [mbind option_bind]. intros [= <- _]. cbn. rewrite lookup_insert_eq. eauto.
Qed.
End Proofs.

(** ** A concrete system

    One user task at 1000 runs on processor 0; its blocks are at 2000, 3000 and 4000; 9000 is used by others. *)
Definition demo_parent : task_t := Task 1 1 TASK_RUNNING 4000 0 0 0x5000 (Stacks 3000 3000 3000 0 0 0 0).
Definition demo_user : image_t :=
  Image TASK_USER_MODE 255 0 0 2000 (Frames 0 0 0 0 0) (Ustack 0 0 0) (Args 0 0 0 0) false (Auxv 0 0 0 0).
Definition demo_sched1 (t : Z) : sched_t :=
  Sched {[t := demo_parent]} {[4000 := null_event]} [] [] {[0 := t]} ∅ ∅ [] [] ∅ 0.
Definition demo_proc : proc_t (F := unit) (W := list Z) (P := ramfs_ustar_data_t) :=
  Proc (demo_sched1 1000) {[1000 := demo_user]} (fun _ => 0) (vfs_init []) {[2000 := ∅]} {[1000; 2000; 3000; 4000; 9000]} 1.
Definition demo_fresh : fresh_t := Fresh 5000 5001 0x6000 5002 5003 0 0.

Lemma demo_life : life_inv {[9000]} demo_proc.
Proof.
  assert (forall t p, owns (tasks (sched demo_proc)) (images demo_proc) t p <-> t = 1000 /\ p ∈ [1000; 2000; 3000; 4000]) as Ho.
  { intros t p. unfold owns. cbn. split.
    - intros (b & i & [<- <-]%lookup_singleton_Some & [_ <-]%lookup_singleton_Some & Hp). split; [done|exact Hp].
    - intros [-> Hp]. exists demo_parent, demo_user. by rewrite !lookup_singleton_eq. }
  constructor.
  - constructor.
    + intros t. cbn. rewrite !lookup_singleton_is_Some. done.
    + intros t b i. cbn. intros [<- <-]%lookup_singleton_Some [_ <-]%lookup_singleton_Some. constructor; try done.
      * apply (bool_decide_unpack _). vm_compute. done.
      * exists ∅. split; [apply lookup_singleton_eq|done].
    + intros t t' p [-> _]%Ho [-> _]%Ho. done.
    + intros p. setoid_rewrite Ho. cbn. set_solver.
    + intros t p [_ Hp]%Ho. set_solver.
  - constructor.
  - intros z []%elem_of_nil.
  - intros cpu t. unfold sched_get_task. cbn. intros [<- <-]%lookup_singleton_Some. split; [by eexists|]. apply not_elem_of_nil.
  - intros c1 c2 t. unfold sched_get_task. cbn. intros [<- _]%lookup_singleton_Some [<- _]%lookup_singleton_Some. done.
Qed.

Lemma demo_user_task : user_task 0 demo_proc 1000 demo_parent demo_user.
Proof.
  split_and!; [done..|]. exists []. split; [constructor|constructor].
Qed.

Lemma demo_fresh_ok : fresh_ok demo_fresh demo_user demo_proc.
Proof.
  constructor; [done|done|apply (bool_decide_unpack _); vm_compute; done|]. cbn. repeat constructor; set_solver.
Qed.

(** The task with the number 1 has the file of [VfsProofs] open. *)
Definition demo_open_proc : proc_t (F := unit) (W := list Z) (P := ramfs_ustar_data_t) :=
  Proc (demo_sched1 1) {[1 := demo_user]} (fun _ => 0) demo_st {[2000 := ∅]} {[1; 2000; 3000; 4000]} 1.

Lemma demo_files_ok : files_ok demo_st 1.
Proof.
  assert ((match open_files demo_st !! 1 with Some [a] => bool_decide (is_Some (files demo_st !! a)) | _ => false end) = true) as E
    by (vm_compute; reflexivity).
  unfold files_ok. destruct (open_files demo_st !! 1) as [[|a [|? ?]]|]; try discriminate E.
  apply bool_decide_eq_true in E as [fd Hfd]. exists [fd]. cbn. split; [|by repeat constructor; intros []%elem_of_nil].
  by repeat constructor.
Qed.

Lemma exit_keeps_demo_file :
  exists a l, open_files demo_st !! 1 = Some (a :: l) /\
    _task_close_all_files 0 1 demo_open_proc = Some (with_vfs (set_open 1 [] demo_st) demo_open_proc).
Proof.
  assert ((default [] (open_files demo_st !! 1)) <> []) as E by (apply (bool_decide_unpack _); vm_compute; exact I).
  assert (E' := E).
  destruct (open_files demo_st !! 1) as [[|a l]|] eqn:Eo in E'; [by destruct (E' eq_refl)| |by destruct (E' eq_refl)].
  exists a, l. split; [exact Eo|].
  exact (proj1 (exit_closes_no_file 0 1 demo_open_proc eq_refl demo_files_ok E)).
Defined.
