(* ===== verification/ProcRun.v ===== *)
(** * Processes: runs

    The life of tasks ([Proc]) together with the scheduler ([Sched]): forks, exits, waits and sleeps of user tasks, and calls of
    [sched_again] on any processor, in any order.  The invariant joins the ownership of blocks ([ProcProofs]) with that of the queues
    ([SchedProofs]): a task that has ended is neither queued nor idle, so that no processor gets it again. *)

From S2P Require Import Prelude DList KLib Sched SchedProofs Task TaskProofs Vfs RamFs RamFsProofs VfsProofs Elf Proc ProcProofs.

Section Run.
Context {F W P : Type} {ops : FsOps F W P}.
Notation proc := (proc_t (F := F) (W := W) (P := P)).
Implicit Types s : proc.

(** ** What the operations do to the scheduler *)

Lemma kfree_if_sched p s s' : kfree_if p s = Some s' -> sched s' = sched s.
Proof. intros H. by destruct (kfree_if_rest _ _ _ H) as (_ & _ & ?). Qed.
Lemma free_block_sched p s s' : free_block p s = Some s' -> sched s' = sched s.
Proof. unfold free_block. case_bool_decide; [|done]. by intros [= <-]. Qed.
Lemma upd_image_sched p f s s' : upd_image p f s = Some s' -> sched s' = sched s.
Proof. unfold upd_image. intros H. unbind H. by injection H as <-. Qed.
Lemma vfree_user_sched a p s s' : vfree_user a p s = Some s' -> sched s' = sched s.
Proof. unfold vfree_user. destruct (spaces s !! a); [|done]. case_bool_decide; [|done]. by intros [= <-]. Qed.
Lemma drop_argv_sched t s s' : drop_argv t s = Some s' -> sched s' = sched s.
Proof. unfold drop_argv. intros H. unbind H. apply kfree_if_sched in E0. apply upd_image_sched in H. congruence. Qed.
Lemma drop_envp_sched t s s' : drop_envp t s = Some s' -> sched s' = sched s.
Proof. unfold drop_envp. intros H. unbind H. apply kfree_if_sched in E0. apply upd_image_sched in H. congruence. Qed.
Lemma close_files_sched cpu t s s' : _task_close_all_files cpu t s = Some s' -> sched s' = sched s.
Proof. unfold _task_close_all_files. destruct (default [] _); [by intros [= <-]|]. intros H. unbind H. by injection H as <-. Qed.
Lemma free_mm_sched p s s' : free_mm p s = Some s' -> sched s' = sched s.
Proof. unfold free_mm. intros H. unbind H. injection H as <-. by apply free_block_sched in E0. Qed.
Lemma fork_block_sched n p b s s' r : fork_block n p b s = Some (s', r) -> sched s' = sched s.
Proof.
  unfold fork_block. destruct (_ && _); [|by intros [= <- <-]]. destruct (b =? 0); [done|]. intros [= <- <-]. by rewrite take_block_sched.
Qed.

(** The events without one, and with a new one. *)
Definition sans (e : Z) (E : gmap Z kevent_t) : gmap Z kevent_t := if e =? 0 then E else delete e E.
Definition plus (e : Z) (E : gmap Z kevent_t) : gmap Z kevent_t := if e =? 0 then E else <[e := null_event]> E.

Lemma with_events_id (c : sched_t) : with_events (fun E => E) c = c.
Proof. by destruct c. Qed.

Lemma take_event_sched e s : sched (take_event e s) = with_events (plus e) (sched s).
Proof.
  unfold take_event, plus. destruct (e =? 0); [by rewrite with_events_id|]. by rewrite take_block_sched.
Qed.

Lemma drop_event_sched t s s' : drop_event t s = Some s' ->
  exists b, tasks (sched s) !! t = Some b /\ sched s' = with_tasks <[t := set_wakeup 0 b]> (with_events (sans (wakeup_event b)) (sched s)).
Proof.
  unfold drop_event. intros H. unbind H. exists t0. split; [done|]. unfold upd_base in H. unbind H. injection H as <-.
  assert (sched p = with_events (sans (wakeup_event t0)) (sched s)) as Ep.
  { unfold free_event, sans in *. destruct (wakeup_event t0 =? 0); [injection E0 as <-; by rewrite with_events_id|].
    unbind E0. injection E0 as <-. cbn. by rewrite (free_block_sched _ _ _ E2). }
  cbn. unfold upd_task in E1. rewrite Ep in E1. cbn in E1. rewrite E in E1. cbn in E1. by injection E1 as <-.
Qed.

Lemma phase0_sched cpu t s s' : task_free_phase0 cpu t s = Some s' ->
  exists b, tasks (sched s) !! t = Some b /\ sched s' = with_tasks <[t := set_wakeup 0 b]> (with_events (sans (wakeup_event b)) (sched s)).
Proof.
  unfold task_free_phase0. intros H. unbind H. apply drop_event_sched in H as (b & Hb & ->).
  apply close_files_sched in E3. apply drop_envp_sched in E2. apply drop_argv_sched in E1.
  assert (sched p = sched s) as E4.
  { destruct (_ && _); [|by injection E0 as <-]. unbind E0. apply vfree_user_sched in E4. apply upd_image_sched in E0. congruence. }
  exists b. by rewrite E3, E2, E1, E4 in *.
Qed.

(** A zombie made of the task. *)
Definition ended (code : Z) (b : task_t) : task_t := set_state TASK_ZOMBIE (set_wakeup 0 (set_exitcode code b)).

Lemma exit_sched cpu code s s' : proc_exit cpu code s = Some s' ->
  exists t b, sched_get_task cpu (sched s) = Some t /\ tasks (sched s) !! t = Some b /\
    sched s' = with_running (delete cpu) (with_cleanup (l_add_prev t)
      (with_tasks <[t := ended code b]> (with_events (sans (wakeup_event b)) (sched s)))).
Proof.
  unfold proc_exit. intros H. unbind H. injection H as <-. unfold upd_base, upd_task in *. unbind E0. unbind E4. injection E0 as <-. injection E4 as <-.
  apply upd_image_sched in E1. cbn in E1. apply phase0_sched in E2 as (b & Hb & E2). rewrite E1 in Hb, E2. cbn in Hb. rewrite lookup_insert_eq in Hb.
  injection Hb as <-. unbind E3. unbind E0. injection E3 as <-. injection E0 as <-.
  rewrite E2 in E4. cbn in E4. rewrite lookup_insert_eq in E4. injection E4 as <-.
  exists z, t. split_and!; [done|done|]. cbn. rewrite E2. cbn. unfold __active_task_add_to_cleanup, with_cleanup, with_running, with_tasks, with_events. cbn.
  by rewrite !insert_insert_eq.
Qed.

(** A collected zombie leaves the tasks and the list. *)
Lemma wait_sched cpu child s s' code : proc_wait_turn cpu child s = Some (s', Some code) ->
  exists z b, tasks (sched s) !! z = Some b /\
    sched s' = with_tasks (delete z) (with_events (sans (wakeup_event b)) (with_cleanup (l_remove_entry z) (sched s))).
Proof.
  unfold proc_wait_turn. intros H. unbind H. destruct o as [[z' code']|]; [|discriminate H]. unbind H. injection H as <- _.
  unfold task_free in E2. unbind E2. injection E2 as <-.
  repeat match goal with
  | E : kfree_if _ _ = Some _ |- _ => apply kfree_if_sched in E
  | E : free_mm _ _ = Some _ |- _ => apply free_mm_sched in E
  | E : free_block _ _ = Some _ |- _ => apply free_block_sched in E
  end.
  match goal with E : task_free_phase0 _ _ _ = Some _ |- _ => apply phase0_sched in E as (b & Hb & E3) end.
  exists z', b. split; [exact Hb|]. cbn. repeat match goal with E : sched _ = sched _ |- _ => rewrite E; clear E end. rewrite E3. cbn.
  unfold with_tasks, with_events, with_cleanup. cbn. by rewrite delete_insert_eq.
Qed.

Lemma task_fork_sched fr p u s s' n : n_task fr <> 0 -> n_mm fr <> 0 -> task_fork fr p u s = Some (s', n) ->
  exists cb, state cb = TASK_READY /\ wakeup_event cb = n_event fr /\ n = n_task fr /\
    sched s' = with_tasks <[n := cb]> (with_events (plus (n_event fr)) (sched s)).
Proof.
  intros Nt Nm. unfold task_fork. intros H. unbind H. case_bool_decide; [done|]. rewrite (proj2 (Z.eqb_neq _ 0) Nt), (proj2 (Z.eqb_neq _ 0) Nm) in H.
  unfold _alloc_tid in H. cbn iota beta in H. set (s1 := Proc _ _ _ _ _ _ _) in H.
  assert (sched s1 = sched s) as E1 by (unfold s1; cbn; by rewrite take_block_sched). clearbody s1. unbind H. injection H as <- <-.
  match goal with |- context [put_task _ ?cb _ _] => exists cb end. split_and!; [done..|]. cbn. rewrite take_block_sched. cbn. rewrite take_event_sched.
  repeat match goal with E : fork_block _ _ _ _ = Some _ |- _ => apply fork_block_sched in E end.
  cbn in *. rewrite take_block_sched in *. congruence.
Qed.

Lemma fork_sched cpu fr u s s' r : n_task fr <> 0 -> n_mm fr <> 0 -> sched_fork cpu fr u s = Some (s', r) ->
  sched s' = sched s \/ exists cb, state cb = TASK_READY /\ wakeup_event cb = n_event fr /\
    sched s' = with_active (l_add_prev (n_task fr)) (with_tasks <[n_task fr := cb]> (with_events (plus (n_event fr)) (sched s))).
Proof.
  intros Nt Nm. unfold sched_fork. intros H. unbind H. destruct (is_fork _).
  - unbind H. injection H as <- _. apply upd_image_sched in E1. by left.
  - unbind H. apply task_fork_sched in E1 as (cb & H1 & H2 & -> & H4); [|done..]. rewrite (proj2 (Z.eqb_neq _ 0) Nt) in H. unbind H.
    injection H as <- _. right. exists cb. split_and!; [done..|]. cbn. by rewrite H4.
Qed.

(** ** The queues *)

Definition quiet (c : sched_t) : Prop := pub_list c = [] /\ sub_list c = [].

Lemma plus_dom e E x : is_Some (E !! x) -> is_Some (plus e E !! x).
Proof. unfold plus. destruct (e =? 0); [done|]. intros Hx. rewrite lookup_insert. case_decide; [by eexists|done]. Qed.

(** The running task becomes a zombie and gives up its event. *)
Lemma retire_inv cpu code t b c :
  sched_inv c -> quiet c -> running_tasks c !! cpu = Some t -> tasks c !! t = Some b ->
  (forall p bp, p <> t -> tasks c !! p = Some bp -> wakeup_event bp = wakeup_event b -> wakeup_event b = 0) ->
  sched_inv (with_running (delete cpu) (with_cleanup (l_add_prev t)
    (with_tasks <[t := ended code b]> (with_events (sans (wakeup_event b)) c)))).
Proof.
  intros Hinv [Hp Hs] Hr Hb Hw.
  assert (forall p, is_Some (tasks c !! p) -> is_Some (<[t := ended code b]> (tasks c) !! p)) as Hdom.
  { intros p Hp'. rewrite lookup_insert. case_decide; [by eexists|done]. }
  destruct Hinv as [I1 I2 I3 I4 I5 I6 I7 I8 I9 I10]. constructor; cbn.
  - auto.
  - done.
  - intros cpu' p [_ Hr']%lookup_delete_Some. destruct (I3 _ _ Hr'). auto.
  - intros c1 c2 p [_ H1]%lookup_delete_Some [_ H2]%lookup_delete_Some. by apply (I4 c1 c2 p).
  - intros cpu' p Hi. destruct (I5 _ _ Hi). auto.
  - done.
  - intros c1 c2 p H1 [_ H2]%lookup_delete_Some. by apply (I7 c1 c2 p).
  - intros p bp. rewrite lookup_insert. case_decide as Ep; [by intros [= <-]|]. intros Hbp Hst. cbn.
    destruct (I8 p bp Hbp Hst) as [He Hn]. split; [|done]. unfold sans. destruct (Z.eqb_spec (wakeup_event b) 0) as [E|E]; [done|].
    rewrite lookup_delete_ne; [done|]. intros E'. by apply E, (Hw p bp).
  - rewrite Hp in *. split; [constructor|]. by intros e ?%elem_of_nil.
  - rewrite Hs. by intros e ?%elem_of_nil.
Qed.

(** A task that is nowhere queued goes away. *)
Lemma collect_inv z c e :
  sched_inv c -> quiet c -> z ∉ active_tasks c -> (forall cpu, running_tasks c !! cpu <> Some z /\ idle_tasks c !! cpu <> Some z) -> e = 0 ->
  sched_inv (with_tasks (delete z) (with_events (sans e) (with_cleanup (l_remove_entry z) c))).
Proof.
  intros [I1 I2 I3 I4 I5 I6 I7 I8 I9 I10] [Hp Hs] Hna Hn ->. constructor; cbn; try done.
  - intros p Hin. rewrite lookup_delete_ne by (by intros <-). by apply I1.
  - intros cpu p Hr. destruct (I3 _ _ Hr). rewrite lookup_delete_ne by (intros <-; by destruct (Hn cpu)). done.
  - intros cpu p Hr. destruct (I5 _ _ Hr). rewrite lookup_delete_ne by (intros <-; by destruct (Hn cpu)). done.
  - intros p bp [_ Hbp]%lookup_delete_Some. exact (I8 p bp Hbp).
Qed.

(** A new ready task at the end of the queue. *)
Lemma add_inv t b e c :
  sched_inv c -> quiet c -> tasks c !! t = None -> state b = TASK_READY ->
  sched_inv (with_active (l_add_prev t) (with_tasks <[t := b]> (with_events (plus e) c))).
Proof.
  intros [I1 I2 I3 I4 I5 I6 I7 I8 I9 I10] [Hp Hs] Hn Hst.
  assert (forall p, is_Some (tasks c !! p) -> is_Some (<[t := b]> (tasks c) !! p) /\ p <> t) as Hdom.
  { intros p Hp'. assert (p <> t) by (intros ->; rewrite Hn in Hp'; by destruct Hp'). by rewrite lookup_insert_ne. }
  constructor; cbn; unfold l_add_prev.
  - intros p [Hin| ->%list_elem_of_singleton]%elem_of_app; [by apply Hdom, I1|]. rewrite lookup_insert_eq. by eexists.
  - apply NoDup_app. split_and!; [done| |apply NoDup_singleton]. intros p Hin ->%list_elem_of_singleton. by apply (Hdom t (I1 _ Hin)).
  - intros cpu p Hr. destruct (I3 _ _ Hr) as [Hd Hna]. destruct (Hdom p Hd) as [? Hne]. split; [done|].
    by intros [?| ?%list_elem_of_singleton]%elem_of_app.
  - done.
  - intros cpu p Hr. destruct (I5 _ _ Hr) as [Hd Hna]. destruct (Hdom p Hd) as [? Hne]. split; [done|].
    by intros [?| ?%list_elem_of_singleton]%elem_of_app.
  - done.
  - done.
  - intros p bp. rewrite lookup_insert. case_decide; [intros [= <-] E; by rewrite Hst in E|]. intros Hbp Hw. cbn.
    destruct (I8 p bp Hbp Hw). split; [by apply plus_dom|done].
  - rewrite Hp in *. split; [constructor|]. by intros x ?%elem_of_nil.
  - rewrite Hs. by intros x ?%elem_of_nil.
Qed.

(** ** The invariant *)

Record sys_inv (R : gset Z) s : Prop := {
  sy_life : life_inv R s;
  sy_sched : sched_inv (sched s);
  sy_quiet : quiet (sched s);
  sy_zombie : forall z, z ∈ cleanup_tasks (sched s) -> z ∉ active_tasks (sched s) /\ forall cpu, idle_tasks (sched s) !! cpu <> Some z;
  sy_idle : forall cpu i, idle_tasks (sched s) !! cpu = Some i -> exists im, images s !! i = Some im /\ mode im = TASK_KERNEL_MODE;
  sy_events : forall t b, tasks (sched s) !! t = Some b -> wakeup_event b <> 0 -> is_Some (events (sched s) !! wakeup_event b);
}.

(** The steps: a user task forks, ends, looks for a child or goes to sleep; a processor calls [sched_again]; time passes. *)
Inductive life_step : proc -> proc -> Prop :=
| ls_fork cpu fr u t b i s s' r :
    user_task cpu s t b i -> fresh_ok fr i s -> sched_fork cpu fr u s = Some (s', r) -> life_step s s'
| ls_exit cpu code t b i s s' :
    user_task cpu s t b i -> proc_exit cpu code s = Some s' -> life_step s s'
| ls_wait cpu child t b i s s' r :
    user_task cpu s t b i -> proc_wait_turn cpu child s = Some (s', r) -> life_step s s'
| ls_sleep cpu ms t b i s c :
    user_task cpu s t b i -> sched_sleep_begin t ms (sched s) = Some c -> life_step s (with_sched c s)
| ls_again cpu i s c sw :
    idle_tasks (sched s) !! cpu = Some i -> sched_again cpu (sched s) = Some (c, sw) -> life_step s (with_sched c s)
| ls_time m s :
    life_step s (with_sched (let c := sched s in Sched (tasks c) (events c) (active_tasks c) (cleanup_tasks c) (running_tasks c) (idle_tasks c)
      (sched_count c) (sub_list c) (pub_list c) (cpu_kstack c) m) s).

(** *** Changes of tasks that keep their blocks *)

Lemma same_task_slots t b b' i :
  pending_ok (stacks b) -> same_task b b' -> slots t b' i ≡ₚ slots t b i /\ pending_ok (stacks b') /\ wakeup_event b' = wakeup_event b /\
    (settled (stacks b') -> settled (stacks b)).
Proof.
  intros [Hp Ho] (st & -> & [->|[Hr ->]]); [done|]. destruct (Ho Hr) as [Ho0 Hk]. unfold slots, pending_ok, settled. cbn. split_and!; try done.
  - rewrite Ho0. do 2 f_equiv. symmetry. apply (Permutation_middle [rstack_ptr (stacks b); 0] _ (kstack_ptr (stacks b))).
  - by intros [_ ?].
Qed.

Lemma retask_inv R s (c : sched_t) :
  proc_inv R s -> (forall p, tasks (sched s) !! p = None -> tasks c !! p = None) ->
  (forall p t, tasks (sched s) !! p = Some t -> exists t', tasks c !! p = Some t' /\ same_task t t') -> proc_inv R (with_sched c s).
Proof.
  intros Hinv Hn Hs. pose proof Hinv as [Hd Hl He Hh Hr]. unfold proc_inv. cbn.
  assert (forall t b', tasks c !! t = Some b' -> exists b, tasks (sched s) !! t = Some b /\ same_task b b') as Hback.
  { intros t b' Hb'. destruct (tasks (sched s) !! t) as [b|] eqn:Hb; [|by rewrite Hn in Hb'].
    destruct (Hs t b Hb) as (b1 & Hb1 & Hsame). exists b. split; [done|]. congruence. }
  assert (forall t p, owns (tasks c) (images s) t p <-> owns (tasks (sched s)) (images s) t p) as Ho.
  { intros t p. split.
    - intros (b' & i & Hb' & Hi & Hp). destruct (Hback t b' Hb') as (b & Hb & Hsame). exists b, i. split_and!; [done..|].
      destruct (same_task_slots t b b' i (lo_pending _ _ _ _ (Hl t b i Hb Hi)) Hsame) as (Hperm & _).
      unfold owned in *. rewrite elem_nz in *. by rewrite <- Hperm.
    - intros (b & i & Hb & Hi & Hp). destruct (Hs t b Hb) as (b' & Hb' & Hsame). exists b', i. split_and!; [done..|].
      destruct (same_task_slots t b b' i (lo_pending _ _ _ _ (Hl t b i Hb Hi)) Hsame) as (Hperm & _).
      unfold owned in *. rewrite elem_nz in *. by rewrite Hperm. }
  constructor.
  - intros t. rewrite <- Hd. destruct (tasks (sched s) !! t) as [b|] eqn:Hb.
    + destruct (Hs t b Hb) as (b' & -> & _). split; eauto.
    + by rewrite Hn.
  - intros t b' i Hb' Hi. destruct (Hback t b' Hb') as (b & Hb & Hsame). destruct (Hl t b i Hb Hi) as [L1 L2 L3 L4 (a & La & Lu) L6].
    destruct (same_task_slots t b b' i L4 Hsame) as (Hperm & Hpend & Hw & Hset). constructor; try done.
    + unfold owned, nz in *. by rewrite Hperm.
    + exists a. split; [done|]. auto.
  - intros t t' p H1%Ho H2%Ho. by eapply He.
  - intros p. rewrite Hh. by setoid_rewrite Ho.
  - intros t p H1%Ho. by eapply Hr.
Qed.

(** A zombie is the same task after the scheduler ran. *)
Lemma same_zombie b b' : same_task b b' -> settled (stacks b) -> state b' = state b -> b' = b.
Proof. intros (st & -> & [->|[Hr _]]) [Hr0 _] Hst; [|done]. cbn in Hst. rewrite Hst. by destruct b. Qed.

(** *** Steps *)

Lemma own_running cpu (c : sched_t) p : p ∈ own cpu c -> running_tasks c !! cpu = Some p.
Proof.
  unfold own. destruct (running_tasks c !! cpu); [|by intros ?%elem_of_nil]. case_bool_decide; [by intros ?%elem_of_nil|].
  by intros ->%list_elem_of_singleton.
Qed.

(** A zombie does not compete for a processor. *)
Lemma zombie_apart R s cpu z : sys_inv R s -> z ∈ cleanup_tasks (sched s) -> z ∉ active_tasks (sched s) ++ own cpu (sched s).
Proof.
  intros Hs Hz [Ha|Ho%own_running]%elem_of_app; [by apply (sy_zombie _ _ Hs z Hz)|]. by apply (lf_run _ _ (sy_life _ _ Hs) cpu z Ho).
Qed.

Lemma again_step R s cpu i :
  sys_inv R s -> idle_tasks (sched s) !! cpu = Some i ->
  exists c sw, sched_again cpu (sched s) = Some (c, sw) /\ sys_inv R (with_sched c s) /\ to_task sw ∉ cleanup_tasks c.
Proof.
  intros Hs Hi. pose proof Hs as [[Hinv Hnd Hz Hrun Honce] Hsch [Hpub Hsub] Hza Hid Hev].
  destruct (again_quiet cpu i (sched s) Hsch Hi Hpub) as (c & sw & E & [R1 R2 (R3 & R3' & R3'' & R4) R5 R6 R7 R8 R9]).
  exists c, sw. split; [done|].
  assert (to_task sw ∉ cleanup_tasks (sched s)) as Hto.
  { intros Hin. destruct R5 as [E5|Hp]; [rewrite E5 in Hin; by apply (Hza _ Hin) in Hi|]. by apply (zombie_apart R s cpu _ Hs Hin). }
  assert (forall z, z ∈ cleanup_tasks (sched s) -> tasks c !! z = tasks (sched s) !! z) as Hsame.
  { intros z Hin. destruct (Hz z Hin) as (b & im & Hb & _ & _ & Hset & _). destruct (R9 z b Hb) as (b' & Hb' & Hst & Hstate).
    rewrite Hb, Hb'. f_equal. apply same_zombie; [done..|]. apply Hstate; [by apply (zombie_apart R)|]. intros ->. by apply (Hza i Hin) in Hi. }
  split; [|by rewrite R4]. constructor; cbn.
  - constructor; cbn.
    + apply retask_inv; [done..|]. intros p t Ht. destruct (R9 p t Ht) as (t' & ? & ? & _). eauto.
    + by rewrite R4.
    + rewrite R4. intros z Hin. destruct (Hz z Hin) as (b & im & Hzz). exists b, im. unfold zombie in *. cbn. by rewrite Hsame.
    + unfold sched_get_task. rewrite R2, R4. intros cpu' t Hr. split; [by apply (si_run _ R1 cpu'); rewrite R2|].
      rewrite lookup_insert in Hr. case_decide; [by injection Hr as <-|]. by apply (Hrun cpu' t).
    + unfold sched_get_task. apply (si_once _ R1).
  - done.
  - split; [done|]. by rewrite R3''.
  - rewrite R4, R3. intros z Hin. split; [|by apply Hza]. intros Ha%R6. by apply (zombie_apart R s cpu z).
  - rewrite R3. exact Hid.
  - intros t b' Hb' Hne. destruct (tasks (sched s) !! t) as [b|] eqn:Hb; [|by rewrite R8 in Hb'].
    destruct (R9 t b Hb) as (b1 & Hb1 & (st & Hst & _) & _). rewrite Hb' in Hb1. injection Hb1 as <-.
    assert (wakeup_event b' = wakeup_event b) as Ew by (by rewrite Hst). rewrite Ew in *. apply R7. by apply (Hev t b).
Qed.

(** A user task is no idle task, is not queued and has not ended. *)
Lemma user_not_idle R s cpu t b i : sys_inv R s -> user_task cpu s t b i -> forall cpu', idle_tasks (sched s) !! cpu' <> Some t.
Proof. intros Hs (_ & _ & Hi & Hm & _) cpu' Hid. destruct (sy_idle _ _ Hs _ _ Hid) as (im & Him & Hk). congruence. Qed.

Lemma fresh_task R s t : sys_inv R s -> t ∉ heap s -> tasks (sched s) !! t = None.
Proof. intros Hs Hn. by apply (fresh_no_task R s t (lf_proc _ _ (sy_life _ _ Hs))). Qed.

Lemma fork_step R s s' cpu fr u t b i r :
  sys_inv R s -> user_task cpu s t b i -> fresh_ok fr i s -> sched_fork cpu fr u s = Some (s', r) -> sys_inv R s'.
Proof.
  intros Hs Hut Hfo E. pose proof Hut as (H1 & H2 & H3 & H4 & H5 & H6). pose proof Hs as [Hl Hsch Hq Hza Hid Hev].
  assert (life_inv R s' /\ forall p im, images s !! p = Some im -> exists im', images s' !! p = Some im' /\ mode im' = mode im) as [Hl' Hmode].
  { destruct (is_fork i) eqn:Hf.
    - rewrite (first_fork_of_child_is_lost cpu fr u t i s) in E by done. injection E as <- _. split.
      + destruct Hl as [Hinv Hnd Hz Hrun Honce]. destruct (Hrun cpu t H1) as [_ Hni].
        assert (touched t s (with_image t (set_fork false i) s) b (set_fork false i)) as Ht by (constructor; try done; cbn; by rewrite insert_id).
        constructor; try done.
        * pose proof (in_local _ _ _ _ _ Hinv t b i H2 H3) as Hloc. eapply (inv_keep R t b i s); try done; apply Hloc.
        * intros z Hin. destruct (Hz z Hin) as (bz & iz & Hzz). exists bz, iz. eapply (zombie_touched t s); eauto. by intros ->.
      + intros p im Hp. cbn. rewrite lookup_insert. case_decide as Ep; [|eauto]. subst p. rewrite H3 in Hp. injection Hp as <-. by eexists.
    - destruct (sched_fork_spec R cpu fr u t b i s) as (s1 & cb & ci & E1 & Hl1 & Ht1 & Hi1 & _); try done; [by apply files_exist|].
      rewrite E in E1. injection E1 as <-. split; [done|]. intros p im Hp. rewrite Hi1, lookup_insert_ne; [eauto|]. intros <-.
      pose proof (fo_new _ _ _ Hfo) as [Hn _]%Forall_cons. by rewrite (proj2 (fresh_no_task R s _ (lf_proc _ _ Hl) Hn)) in Hp. }
  pose proof (fo_new _ _ _ Hfo) as [Hn _]%Forall_cons. pose proof (fresh_task R s _ Hs Hn) as Hnone.
  destruct (fork_sched cpu fr u s s' r) as [Es|(cb & Hst & Hw & Es)]; [apply Hfo..|done| |].
  - constructor; rewrite ?Es; try done. intros cpu' i' Hi'. destruct (Hid _ _ Hi') as (im & Him & Hk). destruct (Hmode _ _ Him) as (im' & ? & ?).
    exists im'. split; congruence.
  - constructor; rewrite ?Es; cbn; try done.
    + by apply add_inv.
    + intros z Hin. destruct (Hza z Hin) as [Ha Hi']. split; [|done]. unfold l_add_prev. intros [?| ->%list_elem_of_singleton]%elem_of_app; [done|].
      destruct (lf_zombie _ _ Hl _ Hin) as (bz & iz & Hbz & _). congruence.
    + intros cpu' i' Hi'. destruct (Hid _ _ Hi') as (im & Him & Hk). destruct (Hmode _ _ Him) as (im' & ? & ?). exists im'. split; congruence.
    + intros p bp. rewrite lookup_insert. case_decide.
      * intros [= <-]. rewrite Hw. intros Hne. unfold plus. rewrite (proj2 (Z.eqb_neq _ 0) Hne), lookup_insert_eq. by eexists.
      * intros Hp Hne. apply plus_dom. by apply (Hev p bp).
Qed.

(** Two tasks do not share an event. *)
Lemma event_apart R s t b p bp :
  proc_inv R s -> tasks (sched s) !! t = Some b -> tasks (sched s) !! p = Some bp -> p <> t -> wakeup_event bp = wakeup_event b -> wakeup_event b = 0.
Proof.
  intros Hinv Hb Hbp Hne E. destruct (decide (wakeup_event b = 0)) as [|Hn]; [done|]. exfalso. apply Hne.
  destruct (proj1 (in_dom _ _ _ _ _ Hinv t)) as [i Hi]; [eauto|]. destruct (proj1 (in_dom _ _ _ _ _ Hinv p)) as [ip Hip]; [eauto|].
  apply (in_excl _ _ _ _ _ Hinv p t (wakeup_event b)).
  - exists bp, ip. split_and!; [done..|]. apply elem_nz. split; [done|]. unfold slots. rewrite E. set_solver.
  - exists b, i. split_and!; [done..|]. apply elem_nz. split; [done|]. unfold slots. set_solver.
Qed.

Lemma exit_step R s s' cpu code t b i :
  sys_inv R s -> user_task cpu s t b i -> proc_exit cpu code s = Some s' -> sys_inv R s'.
Proof.
  intros Hs Hut E. pose proof Hut as (H1 & H2 & H3 & H4 & H5 & H6). pose proof Hs as [Hl Hsch Hq Hza Hid Hev].
  destruct (proc_exit_spec R cpu code t b i s) as (s1 & b' & i' & E1 & Hl' & _ & _ & _ & _ & _ & _ & Him & Hmode); try done.
  rewrite E in E1. injection E1 as <-. destruct (exit_sched cpu code s s' E) as (t0 & b0 & Ht0 & Hb0 & Es).
  assert (t0 = t) as -> by congruence. assert (b0 = b) as -> by congruence. clear Ht0 Hb0.
  pose proof (fun p bp Hne Hp => event_apart R s t b p bp (lf_proc _ _ Hl) H2 Hp Hne) as Hex.
  constructor; rewrite ?Es; cbn; try done.
  - by apply retire_inv.
  - intros z [Hin| ->%list_elem_of_singleton]%elem_of_app; [by apply Hza|]. split; [by apply (si_run _ Hsch cpu t)|]. by eapply user_not_idle.
  - intros cpu' k Hk. destruct (Hid _ _ Hk) as (im & Hm & Hkm). exists im. split; [|done]. rewrite Him, lookup_insert_ne; [done|].
    intros <-. by eapply (user_not_idle R s cpu t b i Hs Hut).
  - intros p bp. rewrite lookup_insert. case_decide as Ep; [by intros [= <-]|]. intros Hp Hne. unfold sans.
    destruct (Z.eqb_spec (wakeup_event b) 0); [by apply (Hev p bp)|]. rewrite lookup_delete_ne; [by apply (Hev p bp)|]. intros Ee.
    by apply (Hex p bp) in Hp.
Qed.

Lemma wait_step R s s' cpu child t b i r :
  sys_inv R s -> user_task cpu s t b i -> proc_wait_turn cpu child s = Some (s', r) -> sys_inv R s'.
Proof.
  intros Hs (H1 & H2 & _) E. pose proof Hs as [Hl Hsch Hq Hza Hid Hev].
  destruct (proc_wait_spec R cpu child t b s) as (s1 & r1 & E1 & Hc); try done. rewrite E1 in E. injection E as <- <-.
  destruct r1 as [code|]; [|by destruct Hc as [-> _]].
  destruct Hc as (z & bz & iz & Hin & Hz & _ & _ & _ & Ht & Him & _ & Hl').
  destruct (wait_sched cpu child s s1 code E1) as (z0 & b0 & Hb0 & Es).
  pose proof (lf_cleanup _ _ Hl) as Hnd. pose proof Hz as (Hbz & _ & _ & _ & Hw & _).
  assert (z0 = z) as ->.
  { rewrite Es in Ht. cbn in Ht. apply (f_equal (.!! z)) in Ht. rewrite lookup_delete_eq in Ht. destruct (decide (z0 = z)); [done|].
    rewrite lookup_delete_ne in Ht by done. congruence. }
  assert (b0 = bz) as -> by congruence. assert (wakeup_event bz = 0) as E0 by (by rewrite <- Hw).
  destruct (Hza z Hin) as [Hna Hni]. constructor; rewrite ?Es; cbn; try done.
  - apply collect_inv; [done..| |done]. intros cpu'. split; [|done]. intros Hr. by apply (lf_run _ _ Hl cpu' z Hr).
  - intros x [Hx _]%elem_of_l_remove_entry; [|done]. by apply Hza.
  - intros cpu' k Hk. destruct (Hid _ _ Hk) as (im & Hm & Hkm). exists im. split; [|done]. rewrite Him, lookup_delete_ne; [done|].
    intros <-. by apply (Hni cpu').
  - rewrite E0. intros p bp [_ Hp]%lookup_delete_Some Hne. by apply (Hev p bp).
Qed.

Lemma sleep_step R s cpu ms t b i c :
  sys_inv R s -> user_task cpu s t b i -> sched_sleep_begin t ms (sched s) = Some c -> sys_inv R (with_sched c s).
Proof.
  intros Hs (H1 & H2 & H3 & _) E. pose proof Hs as [Hl Hsch [Hp Hsb] Hza Hid Hev]. pose proof Hl as [Hinv Hnd Hz Hrun Honce].
  unfold sched_sleep_begin in E. rewrite H2 in E. cbn [mbind option_bind] in E. unbind E. unfold upd_event in E0. unbind E0. injection E0 as <-.
  unfold upd_task in E. cbn in E. rewrite H2 in E. cbn in E. injection E as <-. destruct (Hrun cpu t H1) as [_ Hnc].
  assert (forall x, is_Some (events (sched s) !! x) -> is_Some (<[wakeup_event b := set_timer EV_SLEEP (u64 (millis (sched s) + ms)) k]> (events (sched s)) !! x)) as He.
  { intros x Hx. rewrite lookup_insert. case_decide; [by eexists|done]. }
  assert (forall p, is_Some (tasks (sched s) !! p) -> is_Some (<[t := set_state TASK_WAITING b]> (tasks (sched s)) !! p)) as Hd.
  { intros x Hx. rewrite lookup_insert. case_decide; [by eexists|done]. }
  constructor; cbn; try done.
  - constructor; cbn; try done.
    + apply retask_inv; [done| |]; cbn.
      * intros p Hpn. rewrite lookup_insert_ne; [done|]. intros <-. congruence.
      * intros p bp Hbp. rewrite lookup_insert. case_decide as Ep.
        -- subst p. rewrite H2 in Hbp. injection Hbp as <-. eexists. split; [done|]. exists (stacks b). split; [done|by left].
        -- exists bp. split; [done|]. exists (stacks bp). split; [by destruct bp|by left].
    + intros z Hin. destruct (Hz z Hin) as (bz & iz & Hzz). exists bz, iz. unfold zombie in *. cbn. rewrite lookup_insert_ne; [done|]. by intros <-.
    + intros cpu' t' Hr. destruct (Hrun cpu' t' Hr). auto.
  - destruct Hsch as [I1 I2 I3 I4 I5 I6 I7 I8 I9 I10]. constructor; cbn; try done; [auto|..].
    + intros cpu' p Hr. destruct (I3 _ _ Hr). auto.
    + intros cpu' p Hr. destruct (I5 _ _ Hr). auto.
    + intros p bp. rewrite lookup_insert. case_decide.
      * intros [= <-] _. cbn. rewrite lookup_insert_eq, Hp. split; [by eexists|apply not_elem_of_nil].
      * intros Hbp Hw. cbn. destruct (I8 p bp Hbp Hw). auto.
    + rewrite Hp. split; [constructor|]. by intros x ?%elem_of_nil.
    + rewrite Hsb. by intros x ?%elem_of_nil.
  - intros p bp. rewrite lookup_insert. case_decide; [intros [= <-]; cbn; intros _; rewrite lookup_insert_eq; by eexists|].
    intros Hbp Hne. apply He. by apply (Hev p bp).
Qed.

Lemma life_step_inv R s s' : sys_inv R s -> life_step s s' -> sys_inv R s'.
Proof.
  intros Hs Hst. destruct Hst.
  - by eapply fork_step.
  - by eapply exit_step.
  - by eapply wait_step.
  - by eapply sleep_step.
  - destruct (again_step R s cpu i Hs) as (c' & sw' & E & Hs' & _); [done|]. congruence.
  - by destruct Hs as [[] [] ? ? ? ?].
Qed.

End Run.

(** ** A concrete system

    The user task of [ProcProofs] runs on processor 0, whose idle task is at 1100 with its blocks at 2100 and 3100. *)
Definition demo_idle : task_t := Task 9 9 TASK_READY 0 0 0 0x5000 (Stacks 3100 3100 3100 0 0 0 0).
Definition demo_kernel : image_t :=
  Image TASK_KERNEL_MODE 255 0 0 2100 (Frames 0 0 0 0 0) (Ustack 0 0 0) (Args 0 0 0 0) false (Auxv 0 0 0 0).
Definition demo_sys : proc_t (F := unit) (W := list Z) (P := ramfs_ustar_data_t) :=
  Proc (Sched {[1000 := demo_parent; 1100 := demo_idle]} {[4000 := null_event]} [] [] {[0 := 1000]} {[0 := 1100]} ∅ [] [] ∅ 0)
    {[1000 := demo_user; 1100 := demo_kernel]} (fun _ => 0) (vfs_init []) {[2000 := ∅; 2100 := ∅]}
    {[1000; 2000; 3000; 4000; 1100; 2100; 3100; 9000]} 1.

Lemma demo_tasks t b : tasks (sched demo_sys) !! t = Some b <-> t = 1000 /\ b = demo_parent \/ t = 1100 /\ b = demo_idle.
Proof.
  cbn. rewrite lookup_insert_Some, lookup_singleton_Some. naive_solver.
Qed.
Lemma demo_images t b : images demo_sys !! t = Some b <-> t = 1000 /\ b = demo_user \/ t = 1100 /\ b = demo_kernel.
Proof. cbn. rewrite lookup_insert_Some, lookup_singleton_Some. naive_solver. Qed.

Lemma demo_owns t p : owns (tasks (sched demo_sys)) (images demo_sys) t p <->
  t = 1000 /\ p ∈ [1000; 2000; 3000; 4000] \/ t = 1100 /\ p ∈ [1100; 2100; 3100].
Proof.
  unfold owns. split.
  - intros (b & i & Hb%demo_tasks & Hi%demo_images & Hp). destruct Hb as [[-> ->]|[-> ->]], Hi as [[? ->]|[? ->]]; try done; [left|right]; done.
  - intros [[-> Hp]|[-> Hp]]; [exists demo_parent, demo_user|exists demo_idle, demo_kernel]; split_and!; try done.
Qed.

Lemma demo_sys_inv : sys_inv {[9000]} demo_sys.
Proof.
  constructor.
  - constructor.
    + constructor.
      * intros t. split; intros [x Hx]; [apply demo_tasks in Hx|apply demo_images in Hx]; destruct Hx as [[-> ->]|[-> ->]]; by eexists.
      * intros t b i Hb%demo_tasks Hi%demo_images. destruct Hb as [[-> ->]|[-> ->]], Hi as [[? ->]|[? ->]]; try done; constructor; try done.
        -- apply (bool_decide_unpack _). vm_compute. done.
        -- by exists ∅.
        -- apply (bool_decide_unpack _). vm_compute. done.
        -- by exists ∅.
      * intros t t' p H1%demo_owns H2%demo_owns. set_solver.
      * intros p. setoid_rewrite demo_owns. cbn. set_solver.
      * intros t p H1%demo_owns. set_solver.
    + constructor.
    + intros z []%elem_of_nil.
    + intros cpu t. unfold sched_get_task. cbn. intros [<- <-]%lookup_singleton_Some. split; [by eexists|apply not_elem_of_nil].
    + intros c1 c2 t. unfold sched_get_task. cbn. by intros [<- _]%lookup_singleton_Some [<- _]%lookup_singleton_Some.
  - constructor; cbn.
    + by intros p ?%elem_of_nil.
    + constructor.
    + intros cpu c [<- <-]%lookup_singleton_Some. split; [by eexists|apply not_elem_of_nil].
    + by intros c1 c2 c [<- _]%lookup_singleton_Some [<- _]%lookup_singleton_Some.
    + intros cpu c [<- <-]%lookup_singleton_Some. split; [by eexists|apply not_elem_of_nil].
    + by intros c1 c2 c [<- _]%lookup_singleton_Some [<- _]%lookup_singleton_Some.
    + intros c1 c2 c [? ?]%lookup_singleton_Some [? ?]%lookup_singleton_Some. lia.
    + intros p t Ht%demo_tasks. by destruct Ht as [[-> ->]|[-> ->]].
    + split; [constructor|]. by intros e ?%elem_of_nil.
    + by intros e ?%elem_of_nil.
  - done.
  - by intros z ?%elem_of_nil.
  - intros cpu i. cbn. intros [<- <-]%lookup_singleton_Some. by exists demo_kernel.
  - intros t b Hb%demo_tasks. destruct Hb as [[-> ->]|[-> ->]]; [|done]. intros _. by eexists.
Qed.

Lemma demo_sys_user : user_task 0 demo_sys 1000 demo_parent demo_user.
Proof. split_and!; [done..|]. exists []. split; constructor. Qed.

Lemma demo_sys_fresh : fresh_ok demo_fresh demo_user demo_sys.
Proof. constructor; [done|done|apply (bool_decide_unpack _); vm_compute; done|]. cbn. repeat constructor; set_solver. Qed.

Definition demo_forked := default (demo_sys, 0) (sched_fork 0 demo_fresh 7000 demo_sys).
Definition demo_exited := default demo_sys (proc_exit 0 7 demo_forked.1).

Lemma demo_forked_user : user_task 0 demo_forked.1 1000 demo_parent demo_user.
Proof.
  split_and!; [vm_compute; reflexivity..|done|]. exists [].
  replace (default [] (open_files (vfs demo_forked.1) !! 1000)) with ([] : list Z) by (vm_compute; reflexivity). split; constructor.
Qed.

