(* ===== verification/Ata.v ===== *)
(** * Disk driver

    [kernel/src/device/storage/ata.c]: detection of the drives and the transfer of sectors by programmed I/O, on
    the port instructions of [ia32/cpuinstr.h].

    The machine behind the ports is a parameter, the class [Ports]; the functions pass its state [D] through every
    instruction.  What the driver relies on of a drive is the class [AtaLaws] of [AtaProofs].
    [None] is a panic, an access behind the caller's buffer, or, in the loops that poll the status without a
    limit, exhausted fuel. *)

From S2P Require Import Prelude.

(** ** Constants *)

Definition ATA_PRIMARY_IO_BASE : Z := 0x1f0.
Definition ATA_PRIMARY_CTRL_BASE : Z := 0x3f6.
Definition ATA_SECONDARY_IO_BASE : Z := 0x170.

Definition ATA_REG_DATA : Z := 0.
Definition ATA_REG_FEATURES : Z := 1.
Definition ATA_REG_SECCOUNT0 : Z := 2.
Definition ATA_REG_LBA0 : Z := 3.
Definition ATA_REG_LBA1 : Z := 4.
Definition ATA_REG_LBA2 : Z := 5.
Definition ATA_REG_HDDEVSEL : Z := 6.
Definition ATA_REG_COMMAND : Z := 7.
Definition ATA_REG_STATUS : Z := 7.
Definition ATA_REG_ALTSTATUS : Z := 12.

Definition ATA_STATUS_ERR : Z := 0x01.
Definition ATA_STATUS_DRQ : Z := 0x08.
Definition ATA_STATUS_DF : Z := 0x20.
Definition ATA_STATUS_BSY : Z := 0x80.

Definition ATA_CMD_READ_PIO : Z := 0x20.
Definition ATA_CMD_WRITE_PIO : Z := 0x30.
Definition ATA_CMD_CACHE_FLUSH : Z := 0xe7.
Definition ATA_CMD_IDENTIFY : Z := 0xec.

Definition ATA_MASTER_DRIVE : Z := 0.
Definition ATA_SLAVE_DRIVE : Z := 1.

(** The status has a bit of the mask. *)
Definition has (status mask : Z) : bool := ctrue (Z.land status mask).

(** ** Drives *)

(** The first 256 bytes of the identification, the ones that [ata_detect] fills. *)
Record ata_device_t := AtaDevice { io : Z; ctrl : Z; slave : Z; identify : list Z }.

Definition ata_primary_master : ata_device_t := AtaDevice ATA_PRIMARY_IO_BASE ATA_PRIMARY_CTRL_BASE ATA_MASTER_DRIVE [].
Definition ata_primary_slave : ata_device_t := AtaDevice ATA_PRIMARY_IO_BASE ATA_PRIMARY_CTRL_BASE ATA_SLAVE_DRIVE [].
Definition ata_secondary_master : ata_device_t :=
  AtaDevice ATA_SECONDARY_IO_BASE ATA_SECONDARY_IO_BASE ATA_MASTER_DRIVE [].
Definition ata_secondary_slave : ata_device_t :=
  AtaDevice ATA_SECONDARY_IO_BASE ATA_SECONDARY_IO_BASE ATA_SLAVE_DRIVE [].

Definition set_identify (bs : list Z) (dev : ata_device_t) : ata_device_t :=
  AtaDevice (io dev) (ctrl dev) (slave dev) bs.

(** The port of a register. *)
Definition port (dev : ata_device_t) (reg : Z) : Z := u16 (io dev + reg).

(** ** Ports *)

Class Ports (D : Type) := {
  port_inb : Z -> D -> Z * D;
  port_outb : Z -> Z -> D -> D;
  port_inw : Z -> D -> Z * D;
  port_outw : Z -> Z -> D -> D;
}.

(** A word in the buffer. *)
Definition word_bytes (w : Z) : list Z := Z_to_little_endian 2 8 w.

(** At most [n] attempts of [step], until one of them gives a result. *)
Fixpoint retry {S R : Type} (n : positive) (step : S -> S + R) (s : S) : S + R :=
  match n with
  | xH => step s
  | xO n => match retry n step s with inl s => retry n step s | r => r end
  | xI n =>
    match step s with
    | inl s => match retry n step s with inl s => retry n step s | r => r end
    | r => r
    end
  end.

Section Ata.
Context {D : Type} `{Ports D}.
Implicit Types (d : D) (dev : ata_device_t).

Fixpoint port_insw (p : Z) (count : nat) (d : D) : list Z * D :=
  match count with
  | O => ([], d)
  | S n => let '(w, d) := port_inw p d in let '(bs, d) := port_insw p n d in (word_bytes w ++ bs, d)
  end.

(** ** Waiting *)

Definition ata_delay_400ns dev d : D := Nat.iter 4 (fun d => (port_inb (port dev ATA_REG_ALTSTATUS) d).2) d.

Definition ata_reset_drive dev d : D := port_outb (ctrl dev) 0 (port_outb (ctrl dev) 4 d).

(** The loop while the drive is busy. *)
Fixpoint poll_busy (fuel : nat) dev (status : Z) (d : D) : option D :=
  if has status ATA_STATUS_BSY then
    match fuel with
    | O => None
    | S fuel => let '(status, d) := port_inb (port dev ATA_REG_STATUS) d in poll_busy fuel dev status d
    end
  else Some d.

(** The loop until there is data; [ignore] counts down, and the error bits are looked at when it is zero. *)
Fixpoint poll_data (fuel : nat) dev (ignore : Z) (d : D) : option D :=
  match fuel with
  | O => None
  | S fuel =>
    let '(status, d) := port_inb (port dev ATA_REG_STATUS) d in
    if status =? 0 then Some d else
    let ignore := ignore - 1 in
    if (ignore =? 0) && (has status ATA_STATUS_ERR || has status ATA_STATUS_DF) then None else
    if has status ATA_STATUS_DRQ then Some d else poll_data fuel dev ignore d
  end.

Definition ata_poll (fuel : nat) dev (datardy : bool) (d : D) : option D :=
  let '(status, d) := port_inb (port dev ATA_REG_STATUS) d in
  d ← poll_busy fuel dev status d;
  if datardy then poll_data fuel dev 5 d else Some d.

(** ** Transfers *)

(** The registers of a transfer and its command. *)
Definition start_pio (dev : ata_device_t) (sector_count lba cmd : Z) (d : D) : D :=
  let d := ata_delay_400ns dev d in
  let d := port_outb (port dev ATA_REG_HDDEVSEL)
             (Z.lor (Z.lor 0xe0 (Z.shiftl (slave dev) 4)) (Z.land (Z.shiftr lba 24) 0x0f)) d in
  let d := ata_delay_400ns dev d in
  let d := port_outb (port dev ATA_REG_FEATURES) 0 d in
  let d := port_outb (port dev ATA_REG_SECCOUNT0) sector_count d in
  let d := port_outb (port dev ATA_REG_LBA0) (u8 lba) d in
  let d := port_outb (port dev ATA_REG_LBA1) (u8 (Z.shiftr lba 8)) d in
  let d := port_outb (port dev ATA_REG_LBA2) (u8 (Z.shiftr lba 16)) d in
  let d := port_outb (port dev ATA_REG_COMMAND) cmd d in
  ata_delay_400ns dev d.

Fixpoint read_sectors (fuel : nat) dev (n : nat) (d : D) : option (list Z * D) :=
  match n with
  | O => Some ([], d)
  | S n =>
    d ← ata_poll fuel dev true d;
    let '(bs, d) := port_insw (port dev ATA_REG_DATA) 256 d in
    let d := ata_delay_400ns dev d in
    '(rest, d) ← read_sectors fuel dev n d;
    Some (bs ++ rest, d)
  end.

(** [dev] is null for the current drive; the bytes are what the call leaves in the buffer. *)
Definition ata_pio_read28 (fuel : nat) (current_drive dev : option ata_device_t) (sector_count lba : Z) (d : D) :
    option (list Z * D) :=
  dev ← match dev with None => current_drive | Some _ => dev end;
  let d := start_pio dev sector_count lba ATA_CMD_READ_PIO d in
  '(bs, d) ← read_sectors fuel dev (Z.to_nat sector_count) d;
  d ← ata_poll fuel dev false d;
  Some (bs, d).

(** The words of the buffer, as far as they are needed. *)
Fixpoint out_words (p : Z) (n : nat) (buff : list Z) (d : D) : option (list Z * D) :=
  match n with
  | O => Some (buff, d)
  | S n =>
    match buff with
    | b0 :: b1 :: buff => out_words p n buff (port_outw p (b0 + b1 * 2 ^ 8) d)
    | _ => None
    end
  end.

Fixpoint write_sectors (fuel : nat) dev (n : nat) (buff : list Z) (d : D) : option D :=
  match n with
  | O => Some d
  | S n =>
    d ← ata_poll fuel dev true d;
    '(buff, d) ← out_words (port dev ATA_REG_DATA) 256 buff d;
    write_sectors fuel dev n buff (ata_delay_400ns dev d)
  end.

Definition ata_pio_write28 (fuel : nat) (current_drive dev : option ata_device_t) (sector_count lba : Z) (buff : list Z) (d : D) :
    option D :=
  dev ← match dev with None => current_drive | Some _ => dev end;
  let d := start_pio dev sector_count lba ATA_CMD_WRITE_PIO d in
  d ← write_sectors fuel dev (Z.to_nat sector_count) buff d;
  d ← ata_poll fuel dev false d;
  let d := port_outb (port dev ATA_REG_COMMAND) ATA_CMD_CACHE_FLUSH d in
  ata_poll fuel dev false d.

(** ** Detection *)

(** The turns of [while (--timer)] from [I32_MAX]. *)
Definition TIMER_TURNS : positive := 2147483646.

(** One turn: [Some true] to go on, [Some false] for no drive. *)
Definition detect_turn dev (ready : Z -> bool) (d : D) : D + bool * D :=
  let '(status, d) := port_inb (port dev ATA_REG_STATUS) d in
  if has status ATA_STATUS_ERR then inr (false, d) else
  if ready status then inr (true, d) else inl d.
Definition detect_wait dev (ready : Z -> bool) (d : D) : bool * D :=
  match retry TIMER_TURNS (detect_turn dev ready) d with inl d => (false, d) | inr r => r end.

(** [ata_detect] up to the test for the identification. *)
Definition detect_select dev (d : D) : D :=
  let d := ata_delay_400ns dev d in
  let d := (port_inb (port dev ATA_REG_STATUS) d).2 in
  let d := port_outb (port dev ATA_REG_ALTSTATUS) 0 d in
  let d := ata_delay_400ns dev d in
  let d := (port_inb (port dev ATA_REG_STATUS) d).2 in
  let d := port_outb (port dev ATA_REG_HDDEVSEL) (Z.lor 0xa0 (Z.shiftl (slave dev) 4)) d in
  let d := ata_delay_400ns dev d in
  let d := port_outb (port dev ATA_REG_SECCOUNT0) 0 d in
  let d := port_outb (port dev ATA_REG_LBA0) 0 d in
  let d := port_outb (port dev ATA_REG_LBA1) 0 d in
  let d := port_outb (port dev ATA_REG_LBA2) 0 d in
  let d := port_outb (port dev ATA_REG_COMMAND) ATA_CMD_IDENTIFY d in
  ata_delay_400ns dev d.

(** The bytes of the identification, read one by one. *)
Fixpoint read_identify (p : Z) (n : nat) (d : D) : list Z * D :=
  match n with
  | O => ([], d)
  | S n => let '(b, d) := port_inb p d in let '(bs, d) := read_identify p n d in (b :: bs, d)
  end.

Definition ata_detect dev (d : D) : option ata_device_t * D :=
  let '(status, d) := port_inb (port dev ATA_REG_STATUS) (detect_select dev d) in
  if status =? 0 then (None, d) else
  let d := ata_delay_400ns dev d in
  let '(found, d) := detect_wait dev (fun s => negb (has s ATA_STATUS_BSY) && has s ATA_STATUS_DRQ) d in
  if negb found then (None, d) else
  let d := ata_delay_400ns dev d in
  let '(l1, d) := port_inb (port dev ATA_REG_LBA1) d in
  if ctrue l1 then (None, d) else
  let '(l2, d) := port_inb (port dev ATA_REG_LBA2) d in
  if ctrue l2 then (None, d) else
  let d := ata_delay_400ns dev d in
  let '(found, d) := detect_wait dev (fun s => has s ATA_STATUS_DRQ) d in
  if negb found then (None, d) else
  let d := ata_delay_400ns dev d in
  let '(bs, d) := read_identify (port dev ATA_REG_DATA) 256 d in
  (Some (set_identify bs dev), d).

(** The first drive that is found; none is a panic. *)
Fixpoint detect_first (devs : list ata_device_t) (d : D) : option (ata_device_t * D) :=
  match devs with
  | [] => None
  | dev :: devs =>
    let '(r, d) := ata_detect dev d in
    match r with Some dev => Some (dev, d) | None => detect_first devs d end
  end.
Definition ata_init (d : D) : option (ata_device_t * D) :=
  detect_first [ata_primary_master; ata_primary_slave; ata_secondary_master; ata_secondary_slave] d.

(** ** The disk of the FAT driver

    [fat32_disk_read] and [fat32_disk_write] of [fat32.c]. *)
Definition fat32_disk_read (fuel : nat) (current_drive : option ata_device_t) (sect : Z) (d : D) :
    option (bool * list Z * D) :=
  '(bs, d) ← ata_pio_read28 fuel current_drive None 1 sect d; Some (true, bs, d).
Definition fat32_disk_write (fuel : nat) (current_drive : option ata_device_t) (buf : list Z) (sect : Z) (d : D) :
    option (bool * D) :=
  d ← ata_pio_write28 fuel current_drive None 1 sect buf d; Some (true, d).
End Ata.
