(* ===== verification/AtaProofs.v ===== *)
(** * Disk driver: correctness

    On a drive that follows the protocol of programmed I/O the driver reads and writes exactly the sectors asked for,
    within the time the drive is busy, and so implements the disk that the FAT driver assumes. *)

From S2P Require Import Prelude Fat32 Fat32Cache Ata.

(** ** What the driver relies on of a drive *)

(** The words of the sector in transfer, the number of the sector after it and how many follow. *)
Inductive phase :=
  | Idle
  | DataIn (ws : list Z) (next : Z) (more : nat)
  | DataOut (sect : Z) (ws : list Z) (more : nat).

Record ata_view := View {
  v_disk : gmap Z (list Z);
  v_sel : Z; v_cnt : Z; v_lba0 : Z; v_lba1 : Z; v_lba2 : Z;
  v_phase : phase;
}.

Definition with_phase (p : phase) (v : ata_view) : ata_view :=
  View (v_disk v) (v_sel v) (v_cnt v) (v_lba0 v) (v_lba1 v) (v_lba2 v) p.

(** The registers of a transfer. *)
Definition set_reg (r x : Z) (v : ata_view) : ata_view :=
  let '(View dk s c l0 l1 l2 p) := v in
  if r =? ATA_REG_SECCOUNT0 then View dk s x l0 l1 l2 p else
  if r =? ATA_REG_LBA0 then View dk s c x l1 l2 p else
  if r =? ATA_REG_LBA1 then View dk s c l0 x l2 p else
  if r =? ATA_REG_LBA2 then View dk s c l0 l1 x p else
  if r =? ATA_REG_HDDEVSEL then View dk x c l0 l1 l2 p else v.

(** The first sector and the number of sectors that they name. *)
Definition v_lba (v : ata_view) : Z := v_sel v mod 2 ^ 4 * 2 ^ 24 + v_lba2 v * 2 ^ 16 + v_lba1 v * 2 ^ 8 + v_lba0 v.
Definition v_count (v : ata_view) : nat := Z.to_nat (if v_cnt v =? 0 then 256 else v_cnt v).

(** The words of a sector, and the bytes of words. *)
Fixpoint words_of (bs : list Z) : list Z :=
  match bs with b0 :: b1 :: bs => (b0 + b1 * 2 ^ 8) :: words_of bs | _ => [] end.
Definition bytes_of (ws : list Z) : list Z := ws ≫= word_bytes.

Definition start_in (v : ata_view) : ata_view :=
  with_phase (DataIn (words_of (ram_sector (v_disk v) (v_lba v))) (v_lba v + 1) (v_count v - 1)) v.
Definition start_out (v : ata_view) : ata_view := with_phase (DataOut (v_lba v) [] (v_count v - 1)) v.

(** After a word was read. *)
Definition in_next (v : ata_view) : ata_view :=
  match v_phase v with
  | DataIn [_] next (S more) => with_phase (DataIn (words_of (ram_sector (v_disk v) next)) (next + 1) more) v
  | DataIn [_] _ O => with_phase Idle v
  | DataIn (_ :: ws) next more => with_phase (DataIn ws next more) v
  | _ => v
  end.

(** After a word was written; the last one of a sector puts it on the disk. *)
Definition out_next (w : Z) (v : ata_view) : ata_view :=
  match v_phase v with
  | DataOut s ws more =>
    let ws := ws ++ [w] in
    if (length ws <? 256)%nat then with_phase (DataOut s ws more) v else
    let p := match more with O => Idle | S m => DataOut (s + 1) [] m end in
    View (<[s := bytes_of ws]> (v_disk v)) (v_sel v) (v_cnt v) (v_lba0 v) (v_lba1 v) (v_lba2 v) p
  | _ => v
  end.

#[global] Instance phase_dec : EqDecision phase.
Proof. solve_decision. Defined.

(** The status of a drive that is not busy. *)
Definition ready_status (p : phase) (s : Z) : Prop :=
  has s ATA_STATUS_BSY = false /\ has s ATA_STATUS_ERR = false /\ has s ATA_STATUS_DF = false /\ s <> 0 /\
  has s ATA_STATUS_DRQ = bool_decide (p <> Idle).

(** The registers select the drive, with linear addresses. *)
Definition selects (dev : ata_device_t) (v : ata_view) : Prop := v_sel v / 2 ^ 4 = 0xe + slave dev.

(** The drive [dev] of the machine: [view] is its state, [busy] how often its status will say that it is busy, which
    reading it makes less and which [max_busy] limits. *)
Class AtaLaws (D : Type) `{Ports D} (dev : ata_device_t) := {
  view : D -> ata_view;
  busy : D -> nat;
  max_busy : nat;
  busy_bound : forall d, (busy d <= max_busy)%nat;
  slave_bit : slave dev = 0 \/ slave dev = 1;
  law_alt : forall d, let d' := (port_inb (port dev ATA_REG_ALTSTATUS) d).2 in
    view d' = view d /\ (busy d' <= busy d)%nat;
  law_status : forall d, let '(s, d') := port_inb (port dev ATA_REG_STATUS) d in
    view d' = view d /\
    match busy d with
    | O => busy d' = O /\ ready_status (v_phase (view d)) s
    | S n => (busy d' <= n)%nat /\ has s ATA_STATUS_BSY = true
    end;
  law_reg : forall d r x, busy d = O -> v_phase (view d) = Idle -> 1 <= r <= 6 ->
    let d' := port_outb (port dev r) x d in view d' = set_reg r x (view d) /\ busy d' = O;
  law_read : forall d, busy d = O -> v_phase (view d) = Idle -> selects dev (view d) ->
    view (port_outb (port dev ATA_REG_COMMAND) ATA_CMD_READ_PIO d) = start_in (view d);
  law_write : forall d, busy d = O -> v_phase (view d) = Idle -> selects dev (view d) ->
    view (port_outb (port dev ATA_REG_COMMAND) ATA_CMD_WRITE_PIO d) = start_out (view d);
  law_flush : forall d, busy d = O -> v_phase (view d) = Idle ->
    view (port_outb (port dev ATA_REG_COMMAND) ATA_CMD_CACHE_FLUSH d) = view d;
  law_inw : forall d w ws next more, busy d = O -> v_phase (view d) = DataIn (w :: ws) next more ->
    let '(x, d') := port_inw (port dev ATA_REG_DATA) d in
    x = w /\ view d' = in_next (view d) /\ (ws <> [] -> busy d' = O);
  law_outw : forall d w s ws more, busy d = O -> v_phase (view d) = DataOut s ws more ->
    let d' := port_outw (port dev ATA_REG_DATA) w d in
    view d' = out_next w (view d) /\ ((length ws < 255)%nat -> busy d' = O);
}.

(** ** Words *)

Lemma word_bytes_split b0 b1 : is_byte b0 -> is_byte b1 -> word_bytes (b0 + b1 * 2 ^ 8) = [b0; b1].
Proof.
  unfold is_byte, word_bytes. intros H0 H1.
  set (x := b0 + b1 * 2 ^ 8).
  change (Z_to_little_endian 2 8 x) with [Z.land x (Z.ones 8); Z.land (Z.shiftr x 8) (Z.ones 8)].
  rewrite !Z.land_ones, Z.shiftr_div_pow2 by lia. unfold x.
  f_equal; [|f_equal]; Z.to_euclidean_division_equations; lia.
Qed.

Lemma bytes_of_words : forall n bs, length bs = (2 * n)%nat -> bytes bs -> bytes_of (words_of bs) = bs.
Proof.
  induction n as [|n IH]; intros [|b0 [|b1 bs]] Hl Hb; simpl in Hl; try lia; [done|].
  apply Forall_cons in Hb as [H0 [H1 Hb]%Forall_cons]. unfold bytes_of in *. cbn [words_of]. cbn.
  change (Z.pow_pos 2 8) with (2 ^ 8). rewrite word_bytes_split by done. cbn. rewrite IH by (done || lia). done.
Qed.

Lemma words_of_length : forall n bs, length bs = (2 * n)%nat -> length (words_of bs) = n.
Proof.
  induction n as [|n IH]; intros [|b0 [|b1 bs]] Hl; simpl in Hl; try lia; [done|].
  cbn. f_equal. apply IH. lia.
Qed.

(** The sectors from [t] on. *)
Definition sectors (dk : gmap Z (list Z)) (t : Z) (n : nat) : list Z := seqZ t (Z.of_nat n) ≫= ram_sector dk.

Lemma sectors_S dk t n : sectors dk t (S n) = ram_sector dk t ++ sectors dk (t + 1) n.
Proof. unfold sectors. rewrite seqZ_cons by lia. cbn [mbind list_bind]. do 2 f_equal. f_equal; lia. Qed.

(** The disk after [n] sectors from [t] on were written. *)
Fixpoint put_sectors (n : nat) (t : Z) (bs : list Z) (dk : gmap Z (list Z)) : gmap Z (list Z) :=
  match n with O => dk | S n => put_sectors n (t + 1) (drop 512 bs) (<[t := take 512 bs]> dk) end.

(** Between two sectors of a transfer. *)
Definition after_in (dk : gmap Z (list Z)) (next : Z) (more : nat) : phase :=
  match more with O => Idle | S m => DataIn (words_of (ram_sector dk next)) (next + 1) m end.
Definition after_out (s : Z) (more : nat) : phase := match more with O => Idle | S m => DataOut (s + 1) [] m end.
Definition with_disk (dk : gmap Z (list Z)) (v : ata_view) : ata_view :=
  View dk (v_sel v) (v_cnt v) (v_lba0 v) (v_lba1 v) (v_lba2 v) (v_phase v).

Lemma ram_sector_length dk t : length (ram_sector dk t) = 512%nat.
Proof. exact (@sector_length _ _ ram_disk_laws dk t). Qed.
Lemma ram_sector_bytes dk t : bytes (ram_sector dk t).
Proof. exact (@sector_bytes _ _ ram_disk_laws dk t). Qed.

(** ** The driver *)
Section Driver.
Context {D : Type} {PO : Ports D} (dev : ata_device_t) {AL : AtaLaws D dev}.
Context (fuel : nat) (Hfuel : (max_busy < fuel)%nat).
Implicit Types d : D.

Definition idle d : Prop := busy d = O /\ v_phase (view d) = Idle.

Lemma delay_spec d : view (ata_delay_400ns dev d) = view d /\ (busy (ata_delay_400ns dev d) <= busy d)%nat.
Proof.
  unfold ata_delay_400ns. generalize 4%nat. induction n as [|n [IHv IHb]]; [done|]. rewrite Nat.iter_succ.
  destruct (law_alt (Nat.iter n (fun d => (port_inb (port dev ATA_REG_ALTSTATUS) d).2) d)) as [-> Hb]. split; [done|lia].
Qed.

Lemma delay_idle d : idle d -> idle (ata_delay_400ns dev d).
Proof. intros [Hb Hp]. destruct (delay_spec d) as [Hv Hle]. split; [lia|by rewrite Hv]. Qed.

Lemma poll_busy_spec : forall f d, (busy d <= f)%nat ->
  let '(s, d') := port_inb (port dev ATA_REG_STATUS) d in
  exists d2, poll_busy f dev s d' = Some d2 /\ view d2 = view d /\ busy d2 = O.
Proof.
  induction f as [|f IH]; intros d Hd; pose proof (law_status d) as Hs;
    destruct (port_inb (port dev ATA_REG_STATUS) d) as [s d'] eqn:E; destruct Hs as [Hv Hs].
  - destruct (busy d) as [|n]; [|lia]. destruct Hs as [Hb Hr]. cbn. rewrite (proj1 Hr). by exists d'.
  - destruct (busy d) as [|n]; cbn [poll_busy].
    + destruct Hs as [Hb Hr]. rewrite (proj1 Hr). by exists d'.
    + destruct Hs as [Hb ->]. specialize (IH d'). destruct (port_inb (port dev ATA_REG_STATUS) d') as [s2 d2].
      destruct IH as (d3 & -> & Hv3 & Hb3); [lia|]. exists d3. split_and!; [done|congruence|done].
Qed.

Lemma ata_poll_spec d (rdy : bool) :
  (rdy = true -> v_phase (view d) <> Idle) ->
  exists d2, ata_poll fuel dev rdy d = Some d2 /\ view d2 = view d /\ busy d2 = O.
Proof.
  intros Hrdy. unfold ata_poll. pose proof (busy_bound d). pose proof (poll_busy_spec fuel d) as Hp.
  destruct (port_inb (port dev ATA_REG_STATUS) d) as [s d1]. destruct Hp as (d2 & -> & Hv & Hb); [lia|].
  cbn [mbind option_bind]. destruct rdy; [|by exists d2]. destruct fuel as [|f]; [lia|]. cbn [poll_data].
  pose proof (law_status d2) as Hs. destruct (port_inb (port dev ATA_REG_STATUS) d2) as [s2 d3].
  rewrite Hb in Hs. destruct Hs as (Hv3 & Hb3 & Hbsy & Herr & Hdf & Hne & Hdrq).
  rewrite (proj2 (Z.eqb_neq s2 0) Hne), Herr, Hdf. cbn. rewrite Hdrq, Hv, bool_decide_eq_true_2 by auto.
  exists d3. split_and!; [done|congruence|done].
Qed.

Lemma reg_spec d r x : idle d -> 1 <= r <= 6 ->
  idle (port_outb (port dev r) x d) /\ view (port_outb (port dev r) x d) = set_reg r x (view d).
Proof.
  intros [Hb Hp] Hr. destruct (law_reg d r x Hb Hp Hr) as [Hv Hb']. split; [split; [done|]|done].
  rewrite Hv. destruct (view d). unfold set_reg. cbn in Hp |- *. repeat (destruct (_ =? _); [done|]). done.
Qed.

Lemma select_value lba : 0 <= lba < 2 ^ 28 ->
  let x := Z.lor (Z.lor 0xe0 (Z.shiftl (slave dev) 4)) (Z.land (Z.shiftr lba 24) 0x0f) in
  x / 2 ^ 4 = 0xe + slave dev /\ x mod 2 ^ 4 = lba / 2 ^ 24.
Proof.
  intros Hl. change 0x0f with (Z.ones 4). rewrite Z.land_ones, Z.shiftr_div_pow2 by lia.
  rewrite (Z.mod_small (lba / 2 ^ 24)) by (Z.to_euclidean_division_equations; lia).
  assert (0 <= lba / 2 ^ 24 < 16) as Hx by (Z.to_euclidean_division_equations; lia).
  set (h := lba / 2 ^ 24) in *. cbv zeta.
  replace (Z.lor 0xe0 (Z.shiftl (slave dev) 4)) with (Z.shiftl (0xe + slave dev) 4) by (destruct slave_bit as [-> | ->]; done).
  assert (Forall (fun h => Z.lor 224 h = 14 * 2 ^ 4 + h /\ Z.lor 240 h = 15 * 2 ^ 4 + h) (seqZ 0 16)) as Hall by (repeat constructor).
  rewrite Forall_forall in Hall. destruct (Hall h) as [H0 H1]; [by apply elem_of_seqZ|].
  assert (Z.lor (Z.shiftl (0xe + slave dev) 4) h = (0xe + slave dev) * 2 ^ 4 + h) as -> by (destruct slave_bit as [-> | ->]; done).
  split; Z.to_euclidean_division_equations; lia.
Qed.

(** The registers of a transfer are as the command needs them. *)
Definition addressed (cnt lba : Z) (dk : gmap Z (list Z)) (v : ata_view) : Prop :=
  v_lba v = lba /\ v_cnt v = cnt /\ v_disk v = dk /\ v_phase v = Idle /\ selects dev v.

Lemma start_pio_spec cnt lba cmd d : idle d -> 0 <= lba < 2 ^ 28 ->
  exists d1, start_pio dev cnt lba cmd d = ata_delay_400ns dev (port_outb (port dev ATA_REG_COMMAND) cmd d1) /\
    busy d1 = O /\ addressed cnt lba (v_disk (view d)) (view d1).
Proof.
  intros Hi Hl. unfold start_pio. eexists. split; [reflexivity|].
  destruct (select_value lba Hl) as [Hs1 Hs2].
  destruct (delay_spec d) as [V0 _]. apply delay_idle in Hi. revert Hi V0. generalize (ata_delay_400ns dev d) as d0. intros d0 Hi V0.
  set (x := Z.lor _ (Z.land _ _)) in *.
  destruct (reg_spec d0 ATA_REG_HDDEVSEL x Hi) as [I1 V1]; [done|]. set (d1 := port_outb _ x d0) in *.
  destruct (delay_spec d1) as [V2 _]. apply delay_idle in I1. set (d2 := ata_delay_400ns dev d1) in *.
  destruct (reg_spec d2 ATA_REG_FEATURES 0 I1) as [I3 V3]; [done|]. set (d3 := port_outb _ 0 d2) in *.
  destruct (reg_spec d3 ATA_REG_SECCOUNT0 cnt I3) as [I4 V4]; [done|]. set (d4 := port_outb _ cnt d3) in *.
  destruct (reg_spec d4 ATA_REG_LBA0 (u8 lba) I4) as [I5 V5]; [done|]. set (d5 := port_outb _ _ d4) in *.
  destruct (reg_spec d5 ATA_REG_LBA1 (u8 (Z.shiftr lba 8)) I5) as [I6 V6]; [done|]. set (d6 := port_outb _ _ d5) in *.
  destruct (reg_spec d6 ATA_REG_LBA2 (u8 (Z.shiftr lba 16)) I6) as [I7 V7]; [done|]. set (d7 := port_outb _ _ d6) in *.
  split; [apply I7|]. rewrite V7, V6, V5, V4, V3, V2, V1, V0. destruct Hi as [_ Hp]. rewrite V0 in Hp.
  destruct (view d) as [dk a b c e f p]. cbn in Hp. subst p.
  unfold addressed, selects, v_lba. cbn -[Z.pow Z.mul Z.add Z.div Z.modulo Z.shiftr]. split_and!; [|done..].
  rewrite Hs2, !Z.shiftr_div_pow2 by lia. unfold u8. Z.to_euclidean_division_equations; lia.
Qed.

Lemma insw_spec : forall ws d next more, ws <> [] -> busy d = O -> v_phase (view d) = DataIn ws next more ->
  exists d', port_insw (port dev ATA_REG_DATA) (length ws) d = (bytes_of ws, d') /\
    view d' = with_phase (after_in (v_disk (view d)) next more) (view d).
Proof.
  induction ws as [|w ws IH]; intros d next more Hne Hb Hp; [done|]. cbn [port_insw length].
  pose proof (law_inw d w ws next more Hb Hp) as Hl. destruct (port_inw (port dev ATA_REG_DATA) d) as [x d1].
  destruct Hl as (-> & Hv & Hb1). unfold in_next in Hv. rewrite Hp in Hv. destruct ws as [|w' ws].
  - cbn [port_insw length]. exists d1. split; [done|]. rewrite Hv. by destruct more.
  - destruct (IH d1 next more) as (d2 & E & Hv2); [done|by apply Hb1|by rewrite Hv|]. rewrite E. exists d2. split; [done|].
    rewrite Hv2, Hv. done.
Qed.

Lemma read_sectors_spec : forall more t d,
  v_phase (view d) = DataIn (words_of (ram_sector (v_disk (view d)) t)) (t + 1) more ->
  exists d', read_sectors fuel dev (S more) d = Some (sectors (v_disk (view d)) t (S more), d') /\
    view d' = with_phase Idle (view d).
Proof.
  induction more as [|more IH]; intros t d Hp.
  all: destruct (ata_poll_spec d true) as (d1 & E1 & Hv1 & Hb1); [by rewrite Hp|].
  all: set (dk := v_disk (view d)) in *; pose proof (words_of_length 256 (ram_sector dk t) (ram_sector_length dk t)) as Hlen.
  all: destruct (insw_spec (words_of (ram_sector dk t)) d1 (t + 1) _ ltac:(by intros E; rewrite E in Hlen) Hb1
    ltac:(by rewrite Hv1, Hp)) as (d2 & E2 & Hv2); rewrite Hlen in E2.
  all: rewrite (bytes_of_words 256) in E2 by (apply ram_sector_length || apply ram_sector_bytes).
  all: rewrite Hv1 in Hv2; fold dk in Hv2.
  all: destruct (delay_spec d2) as [Hv3 _]; rewrite Hv2 in Hv3; rewrite sectors_S.
  - cbn [read_sectors]. rewrite E1. cbn [mbind option_bind]. rewrite E2.
    exists (ata_delay_400ns dev d2). split; [|done]. done.
  - destruct (IH (t + 1) (ata_delay_400ns dev d2)) as (d3 & E3 & Hv4); [by rewrite Hv3|].
    remember (S more) as m. cbn [read_sectors]. rewrite E1. cbn [mbind option_bind]. rewrite E2, E3. cbn [mbind option_bind].
    rewrite Hv3 in Hv4 |- *. exists d3. split; [done|]. by rewrite Hv4.
Qed.

Lemma out_words_spec : forall n bs rest d s ws more,
  length bs = (2 * S n)%nat -> (length ws + S n = 256)%nat -> busy d = O -> v_phase (view d) = DataOut s ws more ->
  exists d', out_words (port dev ATA_REG_DATA) (S n) (bs ++ rest) d = Some (rest, d') /\
    view d' = with_disk (<[s := bytes_of (ws ++ words_of bs)]> (v_disk (view d))) (with_phase (after_out s more) (view d)).
Proof.
  induction n as [|n IH]; intros [|b0 [|b1 bs]] rest d s ws more Hl Hw Hb Hp; simpl in Hl; try lia.
  all: remember (b0 + b1 * 2 ^ 8) as w; destruct (law_outw d w s ws more Hb Hp) as [Hv Hb1].
  all: unfold out_next in Hv; rewrite Hp, length_app in Hv; cbn [length] in Hv.
  - destruct bs; [|simpl in Hl; lia]. rewrite (proj2 (Nat.ltb_ge _ _)) in Hv by lia.
    exists (port_outw (port dev ATA_REG_DATA) w d). rewrite Heqw in *. split; [done|]. rewrite Hv. done.
  - rewrite (proj2 (Nat.ltb_lt _ _)) in Hv by lia.
    destruct (IH bs rest (port_outw (port dev ATA_REG_DATA) w d) s (ws ++ [w]) more) as (d2 & E2 & Hv2);
      [lia|rewrite length_app; simpl; lia|apply Hb1; lia|by rewrite Hv|].
    remember (S n) as k. cbn [app out_words]. rewrite <- Heqw, E2. exists d2. split; [done|].
    rewrite Hv2, Hv, <- app_assoc. cbn [words_of app]. by rewrite <- Heqw.
Qed.

Lemma write_sectors_spec : forall more t bs d,
  length bs = (512 * S more)%nat -> bytes bs -> v_phase (view d) = DataOut t [] more ->
  exists d', write_sectors fuel dev (S more) bs d = Some d' /\
    view d' = with_disk (put_sectors (S more) t bs (v_disk (view d))) (with_phase Idle (view d)).
Proof.
  induction more as [|more IH]; intros t bs d Hl Hby Hp.
  all: destruct (ata_poll_spec d true) as (d1 & E1 & Hv1 & Hb1); [by rewrite Hp|].
  all: assert (length (take 512 bs) = (2 * 256)%nat) as Hlt by (rewrite length_take; lia).
  all: destruct (out_words_spec 255 (take 512 bs) (drop 512 bs) d1 t [] _ Hlt ltac:(done) Hb1 ltac:(by rewrite Hv1, Hp)) as (d2 & E2 & Hv2).
  all: rewrite take_drop in E2; cbn [app] in Hv2.
  all: rewrite (bytes_of_words 256), Hv1 in Hv2 by (done || by apply Forall_take).
  all: destruct (delay_spec d2) as [Hv3 _]; rewrite Hv2 in Hv3.
  - cbn [write_sectors]. rewrite E1. cbn [mbind option_bind]. rewrite E2. cbn [mbind option_bind]. by eexists.
  - destruct (IH (t + 1) (drop 512 bs) (ata_delay_400ns dev d2)) as (d3 & E3 & Hv4);
      [rewrite length_drop; lia|by apply Forall_drop|by rewrite Hv3|].
    remember (S more) as m. cbn [write_sectors]. rewrite E1. cbn [mbind option_bind]. rewrite E2. cbn [mbind option_bind].
    rewrite E3. exists d3. split; [done|]. rewrite Hv4, Hv3. done.
Qed.

Lemma v_count_eq v cnt : v_cnt v = cnt -> 1 <= cnt <= 255 -> exists k, v_count v = S k /\ Z.to_nat cnt = S k.
Proof.
  intros Hc Hr. unfold v_count. rewrite Hc, (proj2 (Z.eqb_neq _ _)) by lia. exists (Z.to_nat (cnt - 1)). lia.
Qed.

(** Both transfers, of several sectors. *)
Lemma ata_pio_read28_spec cnt lba d :
  idle d -> 1 <= cnt <= 255 -> 0 <= lba < 2 ^ 28 ->
  exists d', ata_pio_read28 fuel (Some dev) None cnt lba d = Some (sectors (v_disk (view d)) lba (Z.to_nat cnt), d') /\
    idle d' /\ v_disk (view d') = v_disk (view d).
Proof.
  intros Hi Hc Hl. unfold ata_pio_read28. cbn [mbind option_bind].
  destruct (start_pio_spec cnt lba ATA_CMD_READ_PIO d Hi Hl) as (d1 & -> & Hb1 & A1 & A2 & A3 & A4 & A5).
  pose proof (law_read d1 Hb1 A4 A5) as Hv2. destruct (delay_spec (port_outb (port dev ATA_REG_COMMAND) ATA_CMD_READ_PIO d1)) as [Hv3 _].
  set (d3 := ata_delay_400ns dev _) in *. rewrite Hv2 in Hv3. destruct (v_count_eq _ _ A2 Hc) as (k & Hk & ->).
  unfold start_in in Hv3. rewrite A1, Hk, A3 in Hv3.
  destruct (read_sectors_spec k lba d3) as (d4 & E4 & Hv4); [rewrite Hv3; cbn; by rewrite A3, Nat.sub_0_r|].
  rewrite E4. cbn [mbind option_bind]. destruct (ata_poll_spec d4 false) as (d5 & -> & Hv5 & Hb5); [done|].
  assert (v_disk (view d3) = v_disk (view d)) as Hdk by (by rewrite Hv3).
  cbn [mbind option_bind]. exists d5. rewrite Hdk. split_and!; [done| |].
  - split; [done|]. by rewrite Hv5, Hv4.
  - by rewrite Hv5, Hv4.
Qed.

Lemma ata_pio_write28_spec cnt lba bs d :
  idle d -> 1 <= cnt <= 255 -> 0 <= lba < 2 ^ 28 -> length bs = (512 * Z.to_nat cnt)%nat -> bytes bs ->
  exists d', ata_pio_write28 fuel (Some dev) None cnt lba bs d = Some d' /\
    idle d' /\ v_disk (view d') = put_sectors (Z.to_nat cnt) lba bs (v_disk (view d)).
Proof.
  intros Hi Hc Hl Hlen Hby. unfold ata_pio_write28. cbn [mbind option_bind].
  destruct (start_pio_spec cnt lba ATA_CMD_WRITE_PIO d Hi Hl) as (d1 & -> & Hb1 & A1 & A2 & A3 & A4 & A5).
  pose proof (law_write d1 Hb1 A4 A5) as Hv2. destruct (delay_spec (port_outb (port dev ATA_REG_COMMAND) ATA_CMD_WRITE_PIO d1)) as [Hv3 _].
  set (d3 := ata_delay_400ns dev _) in *. rewrite Hv2 in Hv3. destruct (v_count_eq _ _ A2 Hc) as (k & Hk & Hk'). rewrite Hk' in *.
  unfold start_out in Hv3. rewrite A1, Hk in Hv3.
  destruct (write_sectors_spec k lba bs d3) as (d4 & E4 & Hv4); [done|done|rewrite Hv3; cbn; by rewrite Nat.sub_0_r|].
  rewrite E4. cbn [mbind option_bind]. destruct (ata_poll_spec d4 false) as (d5 & -> & Hv5 & Hb5); [done|].
  cbn [mbind option_bind]. set (d6 := port_outb _ ATA_CMD_CACHE_FLUSH d5).
  assert (view d6 = view d5) as Hv6 by (apply law_flush; [done|]; by rewrite Hv5, Hv4).
  destruct (ata_poll_spec d6 false) as (d7 & -> & Hv7 & Hb7); [done|]. rewrite Hv6, Hv5, Hv4, Hv3 in Hv7.
  exists d7. split_and!; [done| |]; rewrite ?Hv7; [by split; [|rewrite Hv7]|]. cbn [v_disk with_disk with_phase]. by rewrite A3.
Qed.

(** ** The disk of the FAT driver *)

Inductive disk_op := DRead (t : Z) | DWrite (t : Z) (b : list Z).

Definition disk_op_ok (o : disk_op) : Prop :=
  match o with
  | DRead t => 0 <= t < 2 ^ 28
  | DWrite t b => 0 <= t < 2 ^ 28 /\ length b = 512%nat /\ bytes b
  end.

(** What the driver does, and what the array of sectors does. *)
Fixpoint drive_run (os : list disk_op) d : option (list (list Z) * D) :=
  match os with
  | [] => Some ([], d)
  | DRead t :: os =>
    match fat32_disk_read fuel (Some dev) t d with
    | Some (true, bs, d) => prod_map (cons bs) id <$> drive_run os d
    | _ => None
    end
  | DWrite t b :: os =>
    match fat32_disk_write fuel (Some dev) b t d with
    | Some (true, d) => drive_run os d
    | _ => None
    end
  end.
Fixpoint array_run (os : list disk_op) (dk : gmap Z (list Z)) : list (list Z) * gmap Z (list Z) :=
  match os with
  | [] => ([], dk)
  | DRead t :: os => let '(rs, dk') := array_run os dk in ((ops_read dk [] t).2 :: rs, dk')
  | DWrite t b :: os => array_run os (ops_write dk b t).2
  end.

(** C9. The driver on a drive that follows the protocol is the disk of [Fat32Cache], an array of sectors: every sequence of reads and writes
    of sectors below [2^28] succeeds, reads what the array holds and leaves the drive idle with the contents of the array. *)
Theorem ata_disk_refines os d :
  idle d -> Forall disk_op_ok os ->
  exists d', drive_run os d = Some ((array_run os (v_disk (view d))).1, d') /\
    idle d' /\ v_disk (view d') = (array_run os (v_disk (view d))).2.
Proof.
  intros Hi Hos. revert d Hi. induction Hos as [|[t|t b] os Ho _ IH]; intros d Hi; [by exists d|..].
  - destruct (ata_pio_read28_spec 1 t d Hi) as (d1 & E1 & Hi1 & Hd1); [done|done|].
    cbn [drive_run array_run]. unfold fat32_disk_read. rewrite E1. cbn [mbind option_bind].
    destruct (IH d1 Hi1) as (d2 & -> & Hi2 & Hd2). rewrite Hd1 in *. exists d2.
    destruct (array_run os _). split_and!; [|done..]. cbn [prod_map id fmap option_fmap option_map fst snd].
    change (sectors (v_disk (view d)) t (Z.to_nat 1)) with (ram_sector (v_disk (view d)) (0 + t) ++ []). by rewrite app_nil_r.
  - destruct Ho as (Ht & Hb & Hby). destruct (ata_pio_write28_spec 1 t b d Hi) as (d1 & E1 & Hi1 & Hd1); [done..|].
    cbn [drive_run array_run]. unfold fat32_disk_write. rewrite E1. cbn [mbind option_bind].
    destruct (IH d1 Hi1) as (d2 & -> & Hi2 & Hd2). rewrite Hd1 in *. cbn [put_sectors ops_write ram_disk snd].
    change (put_sectors (Z.to_nat 1) t b (v_disk (view d))) with (<[t := take 512 b]> (v_disk (view d))) in *.
    rewrite take_ge in * by lia. by exists d2.
Qed.
End Driver.

(** ** A drive

    The primary master on its ports; it is busy twice after a command and between two sectors. *)
Definition demo_drive : Type := ata_view * nat.
Definition demo_busy (d : demo_drive) : nat := Nat.min 2 d.2.
Definition demo_status (d : demo_drive) : Z :=
  if decide (demo_busy d = O) then (if decide (v_phase d.1 = Idle) then 0x40 else 0x48) else ATA_STATUS_BSY.

#[global] Instance demo_ports : Ports demo_drive := {
  port_inb p d := if p =? port ata_primary_master ATA_REG_STATUS then (demo_status d, (d.1, (demo_busy d - 1)%nat)) else (0, d);
  port_outb p x d :=
    let r := p - io ata_primary_master in
    if (1 <=? r) && (r <=? 6) then (set_reg r x d.1, d.2) else
    if r =? ATA_REG_COMMAND then
      (if x =? ATA_CMD_READ_PIO then start_in d.1 else if x =? ATA_CMD_WRITE_PIO then start_out d.1 else d.1, 2%nat)
    else d;
  port_inw p d :=
    match v_phase d.1 with
    | DataIn (w :: ws) _ _ => (w, (in_next d.1, if decide (ws = []) then 2%nat else d.2))
    | _ => (0, d)
    end;
  port_outw p w d :=
    match v_phase d.1 with
    | DataOut _ ws _ => (out_next w d.1, if decide (length ws < 255)%nat then d.2 else 2%nat)
    | _ => d
    end;
}.

Lemma demo_reg r : 1 <= r <= 7 -> port ata_primary_master r - io ata_primary_master = r.
Proof. intros Hr. unfold port. cbn [io ata_primary_master]. unfold ATA_PRIMARY_IO_BASE. rewrite u16_small by lia. lia. Qed.

#[global] Instance demo_laws : AtaLaws demo_drive ata_primary_master.
Proof.
  refine {| view := fst; busy := demo_busy; max_busy := 2 |}; unfold demo_busy.
  - lia.
  - by left.
  - intros d. cbn. done.
  - intros [v b]. cbn [port_inb demo_ports]. rewrite Z.eqb_refl. split; [done|]. unfold demo_status, demo_busy. cbn [fst snd].
    destruct (Nat.min 2 b) as [|n] eqn:E; cbn [decide].
    + split; [cbn; lia|]. destruct (decide (v_phase v = Idle)) as [-> |Hne].
      * by repeat split.
      * unfold ready_status. rewrite bool_decide_eq_true_2 by done. by repeat split.
    + split; [lia|done].
  - intros d r x Hb Hp Hr. cbn [port_outb demo_ports]. rewrite demo_reg by lia.
    rewrite (proj2 (Z.leb_le 1 r)), (proj2 (Z.leb_le r 6)) by lia. done.
  - done.
  - done.
  - done.
  - intros [v b] w ws next more Hb Hp. cbn [port_inw demo_ports fst snd] in *. rewrite Hp. split_and!; [done..|].
    intros Hne. by destruct (decide (ws = [])).
  - intros [v b] w s ws more Hb Hp. cbn [port_outw demo_ports fst snd] in *. rewrite Hp. split; [done|].
    intros Hl. by rewrite decide_True by done.
Defined.

Definition demo_disk : demo_drive := (View ∅ 0 0 0 0 0 Idle, O).

(** Sector 300 is written and read back. *)
Lemma ata_disk_refines_witness :
  exists d', drive_run ata_primary_master 3 [DWrite 300 (replicate 512 7); DRead 300; DRead 301] demo_disk =
    Some ([replicate 512 7; replicate 512 0], d').
Proof.
  destruct (@ata_disk_refines _ _ ata_primary_master demo_laws 3 ltac:(cbn; lia)
    [DWrite 300 (replicate 512 7); DRead 300; DRead 301] demo_disk) as (d' & E & _).
  - done.
  - repeat constructor; done.
  - exists d'. rewrite E. reflexivity.
Defined.

(** ** Limits of the code *)

(** The four upper bits of a sector number are dropped: a read of sector [2^28 + t] reads sector [t]. *)
Lemma high_sector_wraps {D} `{Ports D} (dev : ata_device_t) cnt lba cmd (d : D) :
  start_pio dev cnt (lba + 2 ^ 28) cmd d = start_pio dev cnt lba cmd d.
Proof.
  unfold start_pio. rewrite !Z.shiftr_div_pow2 by lia. change 0x0f with (Z.ones 4). rewrite !Z.land_ones by lia. unfold u8.
  replace ((lba + 2 ^ 28) / 2 ^ 24 mod 2 ^ 4) with (lba / 2 ^ 24 mod 2 ^ 4) by (Z.to_euclidean_division_equations; lia).
  replace ((lba + 2 ^ 28) mod 2 ^ 8) with (lba mod 2 ^ 8) by (Z.to_euclidean_division_equations; lia).
  replace ((lba + 2 ^ 28) / 2 ^ 8 mod 2 ^ 8) with (lba / 2 ^ 8 mod 2 ^ 8) by (Z.to_euclidean_division_equations; lia).
  replace ((lba + 2 ^ 28) / 2 ^ 16 mod 2 ^ 8) with (lba / 2 ^ 16 mod 2 ^ 8) by (Z.to_euclidean_division_equations; lia).
  done.
Qed.

(** A drive that reports an error with no data after the fifth look is polled for ever. *)
Lemma late_error_polls_forever {D} `{Ports D} (dev : ata_device_t) s :
  has s ATA_STATUS_DRQ = false -> s <> 0 -> (forall d : D, (port_inb (port dev ATA_REG_STATUS) d).1 = s) ->
  forall fuel ignore (d : D), ignore <= 0 -> poll_data fuel dev ignore d = None.
Proof.
  intros Hs Hne Hd. induction fuel as [|fuel IH]; intros ignore d Hi; [done|]. cbn [poll_data].
  specialize (Hd d). destruct (port_inb _ d) as [x d1]. cbn in Hd. subst x.
  rewrite (proj2 (Z.eqb_neq _ _) Hne), (proj2 (Z.eqb_neq (ignore - 1) 0)), Hs by lia. cbn. apply IH. lia.
Qed.

(** [retry] is the loop that counts down. *)
Fixpoint retry_nat {S R : Type} (n : nat) (step : S -> S + R) (s : S) : S + R :=
  match n with O => inl s | Datatypes.S n => match step s with inl s => retry_nat n step s | r => r end end.

Lemma retry_nat_add {S R} (step : S -> S + R) n m s :
  retry_nat (n + m) step s = match retry_nat n step s with inl s => retry_nat m step s | r => r end.
Proof. revert s. induction n as [|n IH]; intros s; [done|]. cbn. destruct (step s); [apply IH|done]. Qed.

Lemma retry_counts {S R} (step : S -> S + R) p s : retry p step s = retry_nat (Pos.to_nat p) step s.
Proof.
  revert s. induction p as [p IH|p IH|]; intros s; cbn [retry].
  - rewrite Pos2Nat.inj_xI. cbn [retry_nat]. destruct (step s) as [s1|]; [|done].
    replace (2 * Pos.to_nat p)%nat with (Pos.to_nat p + Pos.to_nat p)%nat by lia. rewrite retry_nat_add, IH.
    destruct (retry_nat _ _ _); [apply IH|done].
  - rewrite Pos2Nat.inj_xO. replace (2 * Pos.to_nat p)%nat with (Pos.to_nat p + Pos.to_nat p)%nat by lia.
    rewrite retry_nat_add, IH. destruct (retry_nat _ _ _); [apply IH|done].
  - change (Pos.to_nat 1) with 1%nat. cbn. by destruct (step s).
Qed.
