(* ===== verification/Syscall.v ===== *)
(** * System calls

    [kernel/src/proc/syscall.c]: the functions of the call table, over the state of [Proc].  They join the file
    system ([Vfs]), the life of tasks ([Proc]), the scheduler ([Sched]) and the memory of the caller.

    The assembly that enters the kernel calls [syscall_funs] with the registers of the task; here a call comes with
    its arguments, [syscall_t].  What the allocators return is in [sys_env].  A call ends with a result, with the end
    of the task, or, where the code waits in a loop, with another turn ([Wait]).  The bytes a call leaves in the
    caller's memory are in the flat memory.  [None] is a fault, a panic or undefined. *)

From S2P Require Import Prelude KLib Sched Task Vfs Elf Proc.

(** ** Constants *)

Definition ENOBUFS : Z := 105.
Definition DIRENT_DIRECTORY : Z := 0.
Definition DIRENT_FILE : Z := 1.

(** [struct dirent]: its size and the offsets of its fields. *)
Definition SIZEOF_DIRENT : Z := 264.
Definition DIRENT_NAME_LEN : Z := 256.
Definition dirent_type : Z := 256.
Definition dirent_sz : Z := 260.

Definition inode_type_number (t : vfs_inode_type_t) : Z :=
  match t with
  | VFS_NODE_INVALID => 0 | VFS_NODE_FILE => 1 | VFS_NODE_DIRECTOR => 2 | VFS_NODE_SYMLINK => 3
  | VFS_NODE_BLOCK => 4 | VFS_NODE_CHARACTER => 5 | VFS_NODE_MOUNTPOINT => 6 | VFS_NODE_ROOT => 7
  end.

Definition store32 (m : memory) (p v : Z) : memory := store_bytes m p (Z_to_little_endian 4 8 v).

(** The entries in the caller's array.  The code compares the size with the types of nodes; for another size the
    field of the type keeps what it had. *)
Definition put_dirent (m : memory) (dp : Z) (e : vfs_dirent_t) : memory :=
  let nlen := Z.min (Z.of_nat (length (de_name e))) (DIRENT_NAME_LEN - 1) in
  let m := store_bytes m dp (take (Z.to_nat nlen) (de_name e)) in
  let m := upd m (dp + nlen) 0 in
  let m := store32 m (dp + dirent_sz) (de_sz e) in
  if de_sz e =? inode_type_number VFS_NODE_FILE then store32 m (dp + dirent_type) DIRENT_FILE
  else if de_sz e =? inode_type_number VFS_NODE_DIRECTOR then store32 m (dp + dirent_type) DIRENT_DIRECTORY
  else m.
Fixpoint put_dirents (m : memory) (dp : Z) (es : list vfs_dirent_t) : memory :=
  match es with
  | [] => m
  | e :: es => put_dirents (put_dirent m dp e) (dp + SIZEOF_DIRENT) es
  end.

(** ** The calls *)

(** The arguments of each call, in the order of the table. *)
Inductive syscall_t :=
  | SYSCALL_DEBUGLOG
  | SYSCALL_USEREXIT (exitcode : Z)
  | SYSCALL_OPEN (path : Z) (mode : vfs_openmode_t)
  | SYSCALL_CLOSE (handle : Z)
  | SYSCALL_READ (h len buff : Z)
  | SYSCALL_WRITE (h len buff : Z)
  | SYSCALL_LSEEK (h offset wence : Z)
  | SYSCALL_USER_PANIC (str errno : Z)
  | SYSCALL_VMALLOC (ptr sz : Z)
  | SYSCALL_VFREE (ptr : Z)
  | SYSCALL_READDIR (h data sz : Z)
  | SYSCALL_FORK
  | SYSCALL_SLEEP (millis : Z)
  | SYSCALL_EXECVE (path argc argv : Z)
  | SYSCALL_WAIT (id : Z)
  | SYSCALL_GETCWD (buf len : Z)
  | SYSCALL_CHDIR (path : Z)
  | SYSCALL_SPAWN (path argc argv : Z).

(** The index in the table. *)
Definition syscall_number (c : syscall_t) : Z :=
  match c with
  | SYSCALL_DEBUGLOG => 0 | SYSCALL_USEREXIT _ => 1 | SYSCALL_OPEN _ _ => 2 | SYSCALL_CLOSE _ => 3
  | SYSCALL_READ _ _ _ => 4 | SYSCALL_WRITE _ _ _ => 5 | SYSCALL_LSEEK _ _ _ => 6 | SYSCALL_USER_PANIC _ _ => 7
  | SYSCALL_VMALLOC _ _ => 8 | SYSCALL_VFREE _ => 9 | SYSCALL_READDIR _ _ _ => 10 | SYSCALL_FORK => 11
  | SYSCALL_SLEEP _ => 12 | SYSCALL_EXECVE _ _ _ => 13 | SYSCALL_WAIT _ => 14 | SYSCALL_GETCWD _ _ => 15
  | SYSCALL_CHDIR _ => 16 | SYSCALL_SPAWN _ _ _ => 17
  end.

(** A result, none for a call of type [void], the end of the task, or another turn. *)
Inductive sys_ret := Ret (r : Z) | Void | Ended | Wait.

(** What the allocators return ([e_vmalloc] for an address and a size), the address of the local array of a path, and
    the user stack pointer of the processor. *)
Record sys_env := SysEnv { e_fresh : fresh_t; e_block : Z; e_vmalloc : Z -> Z -> Z; e_tmp : Z; e_ustack : Z }.

Section Syscall.
Context {F W P : Type} {ops : FsOps F W P}.
Context (sched_task_start sched_task_start_user : Z) (fuel : nat) (cpu : Z).
Notation proc := (proc_t (F := F) (W := W) (P := P)).
Implicit Types s : proc.

(** The running task with its current directory. *)
Definition current s : option (Z * list Z) :=
  t ← sched_get_task cpu (sched s);
  cwd ← read_string fuel (mem s) (t + off_cwd);
  Some (t, cwd).

Definition sys_debug_log s : option (proc * Z) := Some (s, 0).

Definition sys_user_exit (exitcode : Z) s : option proc := proc_exit cpu exitcode s.

Definition sys_open (temp_path path : Z) (mode : vfs_openmode_t) s : option (proc * Z) :=
  len ← strlen fuel (mem s) path;
  let pathlen := Z.min len PATH_LENGTH in
  if temp_path =? 0 then None else
  let m := memcpy (memset (mem s) temp_path 0 (pathlen + 1)) temp_path path pathlen in
  let s := take_block temp_path (with_mem m s) in
  '(t, cwd) ← current s;
  p ← read_string fuel (mem s) temp_path;
  '(v, fh) ← vfs_open (vfs s) cwd t p mode;
  s ← free_block temp_path (with_vfs v s);
  Some (s, fh).

Definition sys_close (handle : Z) s : option (proc * Z) :=
  t ← sched_get_task cpu (sched s);
  '(v, r) ← vfs_close (vfs s) t handle;
  Some (with_vfs v s, r).

Definition sys_read (h len buff : Z) s : option (proc * Z) :=
  t ← sched_get_task cpu (sched s);
  '(v, (r, bs)) ← vfs_read (vfs s) t h len;
  Some (with_mem (store_bytes (mem s) buff bs) (with_vfs v s), r).

(** A length below one is no bytes in every file system. *)
Definition sys_write (h len buff : Z) s : option (proc * Z) :=
  t ← sched_get_task cpu (sched s);
  '(v, r) ← vfs_write (vfs s) t h (mem s <$> seqZ buff len);
  Some (with_vfs v s, r).

Definition sys_lseek (h offset wence : Z) s : option (proc * Z) :=
  t ← sched_get_task cpu (sched s);
  '(v, r) ← vfs_lseek (vfs s) t h offset wence;
  Some (with_vfs v s, r).

(** The message goes to the log. *)
Definition sys_user_panic (str errno : Z) s : option proc :=
  _ ← sched_get_task cpu (sched s); proc_exit cpu errno s.

(** [vmalloc] is what the allocator of areas returns for the task's address space. *)
Definition sys_vmalloc (vmalloc : Z -> Z -> Z) (ptr sz : Z) s : option (proc * Z) :=
  t ← sched_get_task cpu (sched s);
  i ← images s !! t;
  areas ← spaces s !! mm i;
  let va := vmalloc ptr sz in
  Some (if va =? 0 then s else with_spaces (<[mm i := {[va]} ∪ areas]> (spaces s)) s, va).

Definition sys_vfree (ptr : Z) s : option proc :=
  t ← sched_get_task cpu (sched s);
  i ← images s !! t;
  vfree_user (mm i) ptr s.

(** A directory without entries has no array.  [array] is where the array of the entries is that [vfs_iterate] allocated,
    after it grew to its last size; it is freed on both ways out. *)
Definition sys_readdir (array h data sz : Z) s : option (proc * Z) :=
  t ← sched_get_task cpu (sched s);
  '(v, (_, dirent)) ← vfs_iterate (vfs s) t h;
  let s := with_vfs v s in
  match dirent with
  | None | Some [] => Some (s, - ENOBUFS)
  | Some es =>
    if array =? 0 then None else
    let s := take_block array s in
    let filecnt := Z.of_nat (length es) in
    if sz <? i32 (filecnt * SIZEOF_DIRENT) then s ← free_block array s; Some (s, - ENOBUFS) else
    let s := with_mem (put_dirents (mem s) data es) s in
    s ← free_block array s;
    Some (s, filecnt)
  end.

Definition sys_fork (e : sys_env) s : option (proc * Z) := sched_fork cpu (e_fresh e) (e_ustack e) s.

(** [sched_sleep] up to the switch. *)
Definition sys_sleep (millis : Z) s : option proc :=
  t ← sched_get_task cpu (sched s);
  c ← sched_sleep_begin t (u64 millis) (sched s);
  Some (with_sched c s).

Definition sys_execve (e : sys_env) (path argc argv : Z) s : option (proc * Z * bool) :=
  sched_execve sched_task_start sched_task_start_user fuel cpu (e_fresh e) (e_tmp e) path argc argv 0 0 0 s.

(** A turn of the loop of [sched_wait]. *)
Definition sys_wait (id : Z) s : option (proc * option Z) := proc_wait_turn cpu id s.

Definition sys_getcwd (buf len : Z) s : option proc :=
  t ← sched_get_task cpu (sched s);
  clen ← strlen fuel (mem s) (t + off_cwd);
  let clen := if len <=? clen then u64 (len - 1) else clen in
  Some (with_mem (upd (memcpy (mem s) buf (t + off_cwd) clen) (buf + clen) 0) s).

Definition sys_chdir (path : Z) s : option (proc * Z) :=
  '(t, cwd) ← current s;
  p ← read_string fuel (mem s) path;
  '(v, fh) ← vfs_open (vfs s) cwd t p VFS_MODE_READ;
  if fh <? 0 then Some (with_vfs v s, fh) else
  itype ← vfs_get_inode_type v t fh;
  if negb (VFS_NODE_IS_DIR itype) then '(v, _) ← vfs_close v t fh; Some (with_vfs v s, -1) else
  '(r, stored) ← vfs_get_full_path fuel v t fh PATH_LENGTH;
  if ctrue r then '(v, _) ← vfs_close v t fh; Some (with_vfs v s, -1) else
  let full_path := Vfs.cstr (stored ++ replicate (Z.to_nat PATH_LENGTH - length stored) 0) in
  let plen := if PATH_LENGTH <=? Z.of_nat (length full_path) then PATH_LENGTH - 1 else Z.of_nat (length full_path) in
  let m := memset (mem s) (t + off_cwd) 0 PATH_LENGTH in
  let m := store_bytes m (t + off_cwd) (take (Z.to_nat plen) full_path) in
  '(v, _) ← vfs_close v t fh;
  Some (with_vfs v (with_mem m s), 0).

Definition sys_spawn (e : sys_env) (path argc argv : Z) s : option (proc * Z) :=
  sched_spawn sched_task_start sched_task_start_user fuel cpu (e_fresh e) (e_tmp e) path argc argv s.

(** ** The table *)

Definition returns (r : option (proc * Z)) : option (proc * sys_ret) := '(s, r) ← r; Some (s, Ret r).
Definition ends (r : option proc) (k : sys_ret) : option (proc * sys_ret) := s ← r; Some (s, k).

Definition syscall_funs (e : sys_env) (c : syscall_t) s : option (proc * sys_ret) :=
  match c with
  | SYSCALL_DEBUGLOG => returns (sys_debug_log s)
  | SYSCALL_USEREXIT code => ends (sys_user_exit code s) Ended
  | SYSCALL_OPEN path mode => returns (sys_open (e_block e) path mode s)
  | SYSCALL_CLOSE h => returns (sys_close h s)
  | SYSCALL_READ h len buff => returns (sys_read h len buff s)
  | SYSCALL_WRITE h len buff => returns (sys_write h len buff s)
  | SYSCALL_LSEEK h off wh => returns (sys_lseek h off wh s)
  | SYSCALL_USER_PANIC str err => ends (sys_user_panic str err s) Ended
  | SYSCALL_VMALLOC ptr sz => returns (sys_vmalloc (e_vmalloc e) ptr sz s)
  | SYSCALL_VFREE ptr => ends (sys_vfree ptr s) Void
  | SYSCALL_READDIR h data sz => returns (sys_readdir (e_block e) h data sz s)
  | SYSCALL_FORK => returns (sys_fork e s)
  | SYSCALL_SLEEP ms => ends (sys_sleep ms s) (Ret 0)
  | SYSCALL_EXECVE path argc argv =>
    '(s, r, again) ← sys_execve e path argc argv s; Some (s, if (again : bool) then Wait else Ret r)
  | SYSCALL_WAIT id => '(s, r) ← sys_wait id s; Some (s, match r with Some code => Ret code | None => Wait end)
  | SYSCALL_GETCWD buf len => ends (sys_getcwd buf len s) Void
  | SYSCALL_CHDIR path => returns (sys_chdir path s)
  | SYSCALL_SPAWN path argc argv => returns (sys_spawn e path argc argv s)
  end.
End Syscall.
