(* ===== verification/SyscallProofs.v ===== *)
(** * System calls: correctness

    Any sequence of system calls by any tasks keeps the file system well formed, calls on files leave the kernel heap
    as it was, and the directory a task changes to is the one it reads back and resolves to. *)

From S2P Require Import Prelude DList KLib Sched Task TaskProofs Vfs RamFs RamFsProofs VfsProofs Elf Proc ProcProofs Syscall.

Section Proofs.
Context {F W P : Type} {ops : FsOps F W P} {laws : FsLaws (F := F) (W := W) (P := P)}.
Context (sched_task_start sched_task_start_user : Z) (fuel : nat).
Notation proc := (proc_t (F := F) (W := W) (P := P)).
Notation vfs_t := (vfs_state (F := F) (W := W) (P := P)).
Implicit Types (s : proc) (v : vfs_t).

(** ** Strings in memory *)

Lemma strlen_from_spec n m p i len :
  strlen_from n m p i = Some len -> i <= len /\ m (p + len) = 0 /\ forall j, i <= j < len -> m (p + j) <> 0.
Proof.
  revert i. induction n as [|n IH]; intros i; cbn [strlen_from]; [done|].
  destruct (m (p + i) =? 0) eqn:E; breflect.
  - intros [= <-]. split_and!; [lia|done|intros; lia].
  - intros (H1 & H2 & H3)%IH. split_and!; [lia|done|]. intros j Hj. destruct (decide (j = i)) as [-> |]; [done|]. apply H3. lia.
Qed.

Lemma strlen_from_complete m p len : forall n i,
  0 <= i <= len -> m (p + len) = 0 -> (forall j, i <= j < len -> m (p + j) <> 0) -> (Z.to_nat (len - i) < n)%nat ->
  strlen_from n m p i = Some len.
Proof.
  induction n as [|n IH]; intros i Hi H0 Hne Hn; [lia|]. cbn [strlen_from]. destruct (decide (i = len)) as [-> |Hlt].
  - by rewrite H0.
  - rewrite (proj2 (Z.eqb_neq _ 0)) by (apply Hne; lia). apply IH; [lia|done|intros; apply Hne; lia|lia].
Qed.

Lemma read_string_no_null m p str : read_string fuel m p = Some str -> 0 ∉ str.
Proof.
  unfold read_string, strlen. intros H. unbind H. injection H as <-. apply strlen_from_spec in E as (_ & _ & Hne).
  intros (q & Hq & Hin)%list_elem_of_fmap. apply elem_of_seqZ in Hin.
  apply (Hne (q - p)); [lia|]. by replace (p + (q - p)) with q by lia.
Qed.

(** The string that [store_bytes] leaves before a null. *)
Lemma read_string_at m p str :
  (length str < fuel)%nat -> 0 ∉ str -> (forall j c, str !! j = Some c -> m (p + Z.of_nat j) = c) ->
  m (p + Z.of_nat (length str)) = 0 -> read_string fuel m p = Some str.
Proof.
  intros Hf Hn Hs H0. unfold read_string, strlen. rewrite (strlen_from_complete m p (Z.of_nat (length str))).
  - cbn [mbind option_bind]. f_equal. apply list_eq. intros j. rewrite list_lookup_fmap. destruct (str !! j) as [c|] eqn:E.
    + rewrite lookup_seqZ_lt by (apply lookup_lt_Some in E; lia). cbn. f_equal. by apply Hs.
    + apply lookup_ge_None in E. rewrite lookup_seqZ_ge by lia. done.
  - lia.
  - done.
  - intros j Hj. destruct (lookup_lt_is_Some_2 str (Z.to_nat j)) as [c Hc]; [lia|].
    specialize (Hs _ _ Hc). rewrite Z2Nat.id in Hs by lia. rewrite Hs. intros ->. apply Hn. by eapply list_elem_of_lookup_2.
  - lia.
Qed.

Lemma strlen_from_agree m m' p len : forall n i,
  0 <= i -> strlen_from n m p i = Some len -> agree m m' p (len + 1) -> strlen_from n m' p i = Some len.
Proof.
  induction n as [|n IH]; intros i Hi; cbn [strlen_from]; [done|]. intros H Ha.
  assert (i <= len) as Hle by (by eapply (strlen_from_spec (S n) m p)). rewrite (Ha (p + i)) by lia.
  destruct (m (p + i) =? 0); [done|]. apply IH; [lia|done..].
Qed.

Lemma read_string_agree m m' p str :
  read_string fuel m p = Some str -> agree m m' p (Z.of_nat (length str) + 1) -> read_string fuel m' p = Some str.
Proof.
  unfold read_string, strlen. intros H Ha. unbind H. injection H as <-. rewrite length_fmap, length_seqZ in Ha.
  pose proof (strlen_from_spec _ _ _ _ _ E) as (H0 & _). rewrite Z2Nat.id in Ha by lia.
  rewrite (strlen_from_agree m m' p z) by done. cbn [mbind option_bind]. f_equal. apply list_fmap_ext. intros j q Hq.
  apply lookup_seqZ in Hq. apply Ha. lia.
Qed.

(** ** What does not touch the files *)

Lemma take_block_vfs p s : vfs (take_block p s) = vfs s.
Proof. unfold take_block. by destruct (p =? 0). Qed.
Lemma take_event_vfs p s : vfs (take_event p s) = vfs s.
Proof. unfold take_event. destruct (p =? 0); [done|]. by rewrite take_block_vfs. Qed.
Lemma free_block_vfs p s s' : free_block p s = Some s' -> vfs s' = vfs s.
Proof. unfold free_block. case_bool_decide; [|done]. by intros [= <-]. Qed.
Lemma kfree_if_vfs p s s' : kfree_if p s = Some s' -> vfs s' = vfs s.
Proof. unfold kfree_if. destruct (p =? 0); [by intros [= <-]|apply free_block_vfs]. Qed.
Lemma free_event_vfs p s s' : free_event p s = Some s' -> vfs s' = vfs s.
Proof.
  unfold free_event. destruct (p =? 0); [by intros [= <-]|]. intros H. unbind H. injection H as <-. by apply free_block_vfs in E.
Qed.
Lemma vfree_user_vfs a p s s' : vfree_user a p s = Some s' -> vfs s' = vfs s.
Proof. unfold vfree_user. destruct (spaces s !! a); [|done]. case_bool_decide; [|done]. by intros [= <-]. Qed.
Lemma upd_image_vfs p f s s' : upd_image p f s = Some s' -> vfs s' = vfs s.
Proof. unfold upd_image. intros H. unbind H. by injection H as <-. Qed.
Lemma upd_base_vfs p f s s' : upd_base p f s = Some s' -> vfs s' = vfs s.
Proof. unfold upd_base. intros H. unbind H. by injection H as <-. Qed.
Lemma drop_argv_vfs t s s' : drop_argv t s = Some s' -> vfs s' = vfs s.
Proof. unfold drop_argv. intros H. unbind H. apply kfree_if_vfs in E0. apply upd_image_vfs in H. congruence. Qed.
Lemma drop_envp_vfs t s s' : drop_envp t s = Some s' -> vfs s' = vfs s.
Proof. unfold drop_envp. intros H. unbind H. apply kfree_if_vfs in E0. apply upd_image_vfs in H. congruence. Qed.
Lemma drop_event_vfs t s s' : drop_event t s = Some s' -> vfs s' = vfs s.
Proof. unfold drop_event. intros H. unbind H. apply free_event_vfs in E0. apply upd_base_vfs in H. congruence. Qed.
Lemma replace_mm_vfs p s s' : replace_mm p s = Some s' -> vfs s' = vfs s.
Proof. unfold replace_mm. intros H. unbind H. by injection H as <-. Qed.
Lemma free_mm_vfs p s s' : free_mm p s = Some s' -> vfs s' = vfs s.
Proof. unfold free_mm. intros H. unbind H. injection H as <-. by apply free_block_vfs in E0. Qed.
Lemma fork_block_vfs n p b s s' r : fork_block n p b s = Some (s', r) -> vfs s' = vfs s.
Proof.
  unfold fork_block. destruct (_ && _); [|by intros [= <- <-]]. destruct (b =? 0); [done|]. intros [= <- <-]. by rewrite take_block_vfs.
Qed.
Lemma take_args_vfs a b fr s : vfs (take_args a b fr s) = vfs s.
Proof. unfold take_args. by destruct (0 <? a), (0 <? b); rewrite ?take_block_vfs. Qed.

(** ** Calls that do *)

Lemma set_open_wf v t l :
  vfs_wf v -> NoDup l -> (forall a, a ∈ l -> a ∈ default [] (open_files v !! t)) -> vfs_wf (set_open t l v).
Proof.
  intros [Ht Ho Hn Ha Hf] Hnd Hsub.
  assert (forall t' l' a, <[t := l]> (open_files v) !! t' = Some l' -> a ∈ l' -> exists l0, open_files v !! t' = Some l0 /\ a ∈ l0) as Hin.
  { intros t' l' a Hl' Hal. destruct (decide (t' = t)) as [-> |Hne].
    - rewrite lookup_insert_eq in Hl'. injection Hl' as <-. apply Hsub in Hal. destruct (open_files v !! t) as [l0|]; [by exists l0|].
      by apply elem_of_nil in Hal.
    - rewrite lookup_insert_ne in Hl' by done. by exists l'. }
  constructor; cbn [set_open with_files files open_files].
  - by apply files_tree_wf.
  - intros t' l' a Hl' Hal. destruct (Hin t' l' a Hl' Hal) as (l0 & H0 & Ha0). by eapply Ho.
  - intros t' l' Hl'. destruct (decide (t' = t)) as [-> |Hne].
    + rewrite lookup_insert_eq in Hl'. by injection Hl' as <-.
    + rewrite lookup_insert_ne in Hl' by done. by eapply Hn.
  - intros t1 t2 l1 l2 a H1 H2 Ha1 Ha2. destruct (Hin _ _ _ H1 Ha1) as (k1 & K1 & ?), (Hin _ _ _ H2 Ha2) as (k2 & K2 & ?).
    by eapply (Ha t1 t2).
  - exact Hf.
Qed.

Lemma close_all_wf cur t : forall n v v', vfs_wf v -> close_all n cur t v = Some v' -> vfs_wf v'.
Proof.
  induction n as [|n IH]; intros v v' Hw; cbn [close_all]; [by intros [= <-]|].
  destruct (default [] (open_files v !! t)) as [|a rest] eqn:El; [by intros [= <-]|]. intros H. unbind H.
  eapply IH; [|exact H]. assert (vfs_wf (set_open t rest v)) as Hw1.
  { destruct (open_files v !! t) as [l|] eqn:Eo; [|done]. cbn in El. subst l.
    pose proof (vw_nodup _ Hw _ _ Eo) as [_ Hnd]%NoDup_cons. apply set_open_wf; [done..|]. rewrite Eo. cbn. intros b Hb. by right. }
  destruct (is_console _); [by eapply close_console_wf|by eapply close_wf].
Qed.

Definition wf s : Prop := vfs_wf (vfs s).

Lemma wf_same s s' : wf s -> vfs s' = vfs s -> wf s'.
Proof. unfold wf. by intros Hw ->. Qed.

Lemma close_all_files_wf cpu t s s' : wf s -> _task_close_all_files cpu t s = Some s' -> wf s'.
Proof.
  intros Hw. unfold _task_close_all_files. destruct (default [] _) as [|a l]; [by intros [= <-]|]. intros H. unbind H.
  injection H as <-. unfold wf. cbn. by eapply close_all_wf.
Qed.

Lemma phase0_wf cpu t s s' : wf s -> task_free_phase0 cpu t s = Some s' -> wf s'.
Proof.
  intros Hw. unfold task_free_phase0. intros H. unbind H.
  apply drop_event_vfs in H. eapply wf_same; [|exact H]. eapply close_all_files_wf; [|exact E3].
  apply drop_argv_vfs in E1. apply drop_envp_vfs in E2. eapply wf_same; [exact Hw|]. rewrite E2, E1.
  destruct (_ && _); [|by injection E0 as <-]. unbind E0. apply vfree_user_vfs in E4. apply upd_image_vfs in E0. congruence.
Qed.

Lemma task_free_wf cpu t s s' : wf s -> task_free cpu t s = Some s' -> wf s'.
Proof.
  intros Hw. unfold task_free. intros H. unbind H. injection H as <-. unfold wf. cbn.
  apply kfree_if_vfs in E1. apply free_mm_vfs in E3. apply free_block_vfs in E4. rewrite E4, E3, E1. by eapply phase0_wf.
Qed.

Lemma proc_exit_wf cpu code s s' : wf s -> proc_exit cpu code s = Some s' -> wf s'.
Proof.
  intros Hw. unfold proc_exit. intros H. unbind H. injection H as <-. unfold wf. cbn.
  apply upd_base_vfs in E0, E3. apply upd_image_vfs in E1. rewrite E3. eapply phase0_wf; [|exact E2].
  eapply wf_same; [exact Hw|]. congruence.
Qed.

Lemma proc_wait_wf cpu id s s' r : wf s -> proc_wait_turn cpu id s = Some (s', r) -> wf s'.
Proof.
  intros Hw. unfold proc_wait_turn. intros H. unbind H. destruct o as [[zb code]|]; [|by injection H as <- <-].
  unbind H. injection H as <- <-. match goal with E : task_free _ _ _ = Some _ |- _ => eapply task_free_wf; [|exact E] end. exact Hw.
Qed.

Lemma new_task_wf t s : wf s -> wf (with_vfs (set_open t [] (vfs s)) s).
Proof. intros Hw. apply set_open_wf; [exact Hw|constructor|]. by intros a ?%elem_of_nil. Qed.

Lemma task_fork_wf fr p u s s' n : wf s -> task_fork fr p u s = Some (s', n) -> wf s'.
Proof.
  intros Hw. unfold task_fork. intros H. unbind H. case_bool_decide; [done|].
  destruct (n_task fr =? 0); [by injection H as <- <-|]. unfold _alloc_tid in H. cbn iota beta in H.
  set (s1 := Proc _ _ _ _ _ _ _) in H. assert (wf s1) as Hw1 by (unfold wf, s1; cbn; rewrite take_block_vfs; exact Hw).
  destruct (n_mm fr =? 0).
  { unbind H. injection H as <- <-. apply free_block_vfs in E1. by eapply wf_same. }
  clearbody s1. unbind H. injection H as <- <-. unfold wf. cbn. rewrite take_block_vfs. cbn. rewrite take_event_vfs.
  repeat match goal with E : fork_block _ _ _ _ = Some _ |- _ => apply fork_block_vfs in E; rewrite E; clear E end.
  apply new_task_wf. unfold wf. cbn. by rewrite take_block_vfs.
Qed.

Lemma sched_fork_wf cpu fr u s s' r : wf s -> sched_fork cpu fr u s = Some (s', r) -> wf s'.
Proof.
  intros Hw. unfold sched_fork. intros H. unbind H. destruct (is_fork _).
  - unbind H. injection H as <- <-. apply upd_image_vfs in E1. by eapply wf_same.
  - unbind H. apply task_fork_wf in E1; [|done]. destruct (_ =? 0); [by injection H as <- <-|]. unbind H. injection H as <- <-.
    unfold wf. cbn. eapply step_wf; [by eapply vs_copy|exact E1].
Qed.

Lemma task_create_wf fr name rt prio md s s' n :
  wf s -> task_create sched_task_start sched_task_start_user fr name rt prio md s = Some (s', n) -> wf s'.
Proof.
  intros Hw. unfold task_create. destruct (_ || _); [done|]. unfold _alloc_tid. cbn iota beta. cbn [mem with_mem].
  set (s1 := Proc _ _ _ _ _ _ _). assert (wf s1) as Hw1 by (unfold wf, s1; cbn; rewrite take_block_vfs; exact Hw).
  clearbody s1. set (s2 := with_spaces _ _). assert (wf s2) as Hw2 by (unfold wf, s2; cbn; rewrite take_block_vfs; exact Hw1).
  clearbody s2. intros H. unbind H. injection H as <- <-. unfold wf. cbn. rewrite take_block_vfs, take_event_vfs. by apply new_task_wf.
Qed.

Lemma sched_spawn_wf cpu fr tmp path argc argv s s' r :
  wf s -> sched_spawn sched_task_start sched_task_start_user fuel cpu fr tmp path argc argv s = Some (s', r) -> wf s'.
Proof.
  intros Hw. unfold sched_spawn. intros H. unbind H. injection H as <- <-. apply task_create_wf in E1; [|exact Hw].
  match goal with E : upd_base _ _ _ = Some _ |- _ => apply upd_base_vfs in E; unfold wf; cbn; rewrite E end.
  cbn. destruct (0 <? argc); rewrite ?take_block_vfs; exact E1.
Qed.

Lemma task_replace_wf cpu fr t name s s' : wf s -> task_replace cpu fr t name s = Some s' -> wf s'.
Proof.
  intros Hw. unfold task_replace. intros H. unbind H. case_bool_decide; [done|]. unbind H. injection H as <-.
  apply drop_event_vfs in E0. apply drop_argv_vfs in E1. apply drop_envp_vfs in E2. apply replace_mm_vfs in E3.
  apply upd_base_vfs in E4, E5. rewrite take_event_vfs in E5. cbn in E5.
  unfold wf. cbn. rewrite take_block_vfs. eapply close_all_files_wf; [|exact E6]. eapply wf_same; [exact Hw|]. congruence.
Qed.

Lemma sched_execve_wf cpu fr tmp path argc argv cwd envc envp s s' r again :
  wf s -> sched_execve sched_task_start sched_task_start_user fuel cpu fr tmp path argc argv cwd envc envp s = Some (s', r, again) -> wf s'.
Proof.
  intros Hw. unfold sched_execve. destruct (path =? 0); [by intros [= <- _ _]|]. intros H. unbind H.
  destruct (_ =? 0); [by injection H as <- _ _|]. unbind H. destruct (sched_get_task _ _) as [t|]; unbind H; injection H as <- _ _.
  - unfold execve_replace in E2. unbind E2. apply kfree_if_vfs in E2.
    repeat match goal with E : kfree_if _ _ = Some _ |- _ => apply kfree_if_vfs in E end.
    repeat match goal with E : upd_image _ _ _ = Some _ |- _ => apply upd_image_vfs in E end.
    match goal with E : task_replace _ _ _ _ _ = Some _ |- _ => apply task_replace_wf in E; [eapply wf_same; [exact E|congruence]|] end.
    unfold wf. rewrite take_args_vfs. exact Hw.
  - unfold execve_new in E2. unbind E2. injection E2 as <-. unfold wf. cbn. rewrite take_args_vfs. cbn.
    match goal with E : task_create _ _ _ _ _ _ _ _ = Some _ |- _ => apply task_create_wf in E; [exact E|exact Hw] end.
Qed.

(** ** The calls *)

(** The calls on files; a read may wait for the terminal and is not among them. *)
Definition file_call (c : syscall_t) : bool :=
  match c with
  | SYSCALL_OPEN _ _ | SYSCALL_CLOSE _ | SYSCALL_WRITE _ _ _ | SYSCALL_LSEEK _ _ _
  | SYSCALL_READDIR _ _ _ | SYSCALL_GETCWD _ _ | SYSCALL_CHDIR _ => true
  | _ => false
  end.

(** Two states with the same tasks, address spaces and blocks. *)
Definition same_tasks s s' : Prop :=
  heap s' = heap s /\ sched s' = sched s /\ images s' = images s /\ spaces s' = spaces s.

Notation call := (syscall_funs sched_task_start sched_task_start_user fuel).

Lemma open_wf v cwd t p mode v' r : vfs_wf v -> vfs_open v cwd t p mode = Some (v', r) -> 0 ∉ cwd -> 0 ∉ p -> vfs_wf v'.
Proof. intros Hw E Hc Hp. by eapply step_wf; [exact (vs_open _ _ _ _ _ _ _ Hc Hp E)|]. Qed.

Lemma chdir_spec cpu path s s' r :
  wf s -> sys_chdir fuel cpu path s = Some (s', r) -> wf s' /\ same_tasks s s' /\ (r <> 0 -> mem s' = mem s).
Proof.
  intros Hw. unfold sys_chdir, current. intros H. unbind H. unbind E. injection E as <-. simplify_eq.
  repeat match goal with E : read_string _ _ _ = Some _ |- _ => apply read_string_no_null in E end.
  match goal with E : vfs_open _ _ _ _ _ = Some (?v1, ?fh) |- _ => assert (vfs_wf v1) as Hw1 by (by eapply open_wf; [exact Hw|exact E|..]) end.
  destruct (_ <? 0); [by injection H as <- <-|]. unbind H. destruct (negb _).
  { unbind H. injection H as <- <-. split_and!; [|done..]. by eapply close_wf. }
  unbind H. destruct (ctrue _); unbind H; injection H as <- <-; (split_and!; [by eapply close_wf|done..]).
Qed.

Lemma open_spec cpu tmp path mode s s' r :
  wf s -> sys_open fuel cpu tmp path mode s = Some (s', r) -> wf s' /\ (tmp ∉ heap s -> same_tasks s s').
Proof.
  intros Hw. unfold sys_open, current. intros H. unbind H. destruct (tmp =? 0) eqn:E0; [done|]. unbind H. injection H as <- <-.
  unbind E1. injection E1 as <-. simplify_eq. unfold free_block in *. case_bool_decide; [|done].
  match goal with E : Some _ = Some _ |- _ => injection E as <- end.
  repeat match goal with E : read_string _ _ _ = Some _ |- _ => apply read_string_no_null in E end.
  unfold take_block in *. rewrite E0 in *. cbn in *. split.
  - unfold wf. cbn. match goal with E : vfs_open _ _ _ _ _ = Some _ |- _ => by eapply open_wf; [exact Hw|exact E|..] end.
  - intros Hn. split_and!; [cbn; set_solver|done..].
Qed.

Lemma call_spec cpu e c s s' r :
  wf s -> call cpu e c s = Some (s', r) -> wf s' /\ (file_call c = true -> e_block e ∉ heap s -> same_tasks s s').
Proof.
  intros Hw. destruct c; cbn [syscall_funs file_call]; unfold returns, ends; intros H; unbind H; injection H as <- <-.
  - by injection E as <- <-.
  - split; [by eapply proc_exit_wf|done].
  - apply open_spec in E as [? Ht]; [|done]. eauto.
  - unfold sys_close in E. unbind E. injection E as <- <-. split; [|done]. by eapply close_wf.
  - unfold sys_read in E. unbind E. injection E as <- <-. split; [|done]. unfold wf. cbn. eapply step_wf; [by eapply vs_read|exact Hw].
  - unfold sys_write in E. unbind E. injection E as <- <-. split; [|done]. unfold wf. cbn. eapply step_wf; [by eapply vs_write|exact Hw].
  - unfold sys_lseek in E. unbind E. injection E as <- <-. split; [|done]. unfold wf. cbn. eapply step_wf; [by eapply vs_lseek|exact Hw].
  - unfold sys_user_panic in E. unbind E. split; [by eapply proc_exit_wf|done].
  - unfold sys_vmalloc in E. unbind E. injection E as <- <-. split; [|done]. by destruct (_ =? 0).
  - unfold sys_vfree in E. unbind E. apply vfree_user_vfs in E. split; [by eapply wf_same|done].
  - unfold sys_readdir in E. unbind E. match goal with E : vfs_iterate _ _ _ = Some (?v1, _) |- _ =>
      assert (vfs_wf v1) as Hw1 by (eapply step_wf; [by eapply vs_iterate|exact Hw]) end.
    destruct o as [[|x l]|]; [by injection E as <- <-| |by injection E as <- <-].
    destruct (e_block e =? 0) eqn:Ez; [done|]. unfold free_block, take_block in E. rewrite Ez in E.
    destruct (_ <? _); cbn [heap with_heap with_mem] in E; case_bool_decide; cbn [mbind option_bind] in E; try done;
      injection E as <- <-; (split; [exact Hw1|]); intros _ Hn; (split_and!; [cbn; set_solver|done..]).
  - split; [by eapply sched_fork_wf|done].
  - unfold sys_sleep in E. unbind E. injection E as <-. done.
  - split; [by eapply sched_execve_wf|done].
  - split; [by eapply proc_wait_wf|done].
  - unfold sys_getcwd in E. unbind E. by injection E as <-.
  - apply chdir_spec in E as (? & ? & _); done.
  - split; [by eapply sched_spawn_wf|done].
Qed.

(** ** The current directory *)

(** Closing a file changes neither the entries nor what is mounted. *)
Definition same_tree v v' : Prop :=
  dentries v' = dentries v /\ sbs v' = sbs v /\ vfs_root v' = vfs_root v /\
  forall ino i, inodes v !! ino = Some i -> exists i', inodes v' !! ino = Some i' /\ i_mountpoint i' = i_mountpoint i.

Lemma plain_same_tree v v' root c ns : same_tree v v' -> plain v root c ns -> plain v' root c ns.
Proof.
  intros (Hd & Hs & _ & Hi). induction 1 as [|q dq ns c dc Hp IH Hdq Hin Hdc Hm]; [constructor|].
  eapply plain_child; [exact IH|by rewrite Hd|done|by rewrite Hd|]. unfold follow_mount in *. rewrite Hd, Hs.
  unbind Hm. cbn [mbind option_bind]. rewrite E0. cbn [mbind option_bind]. destruct (Hi _ _ E1) as (i' & -> & Hm'). cbn [mbind option_bind].
  by rewrite Hm'.
Qed.

Lemma close_same_tree v t fh v' r : vfs_close v t fh = Some (v', r) -> same_tree v v'.
Proof.
  assert (same_tree v v) as Hrefl by (split_and!; [done..|eauto]).
  unfold vfs_close. intros H. unbind H. destruct o as [[a fd]|]; [|by injection H as <- <-].
  set (v1 := with_files _ _ _ _ _) in H. destruct (0 <? _); [by injection H as <- <-|].
  unfold close_file in H. unbind H. injection H as <- <-. cbn in E0. destruct (f_ops fd) as [f|]; [|by injection E0 as <- <-].
  unfold file_op in E0. unbind E0. injection E0 as <- <-. match goal with E : fs_close _ _ _ _ = Some _ |- _ => apply close_keeps in E as [Hm _] end.
  split_and!; [done..|]. cbn. intros ino i Hi. match goal with Ei : inodes _ !! ?j = Some _ |- context [<[?j := _]> _] =>
    cbn in Ei; destruct (decide (ino = j)) as [-> |Hne]; [rewrite lookup_insert_eq; simplify_eq; eauto|rewrite lookup_insert_ne by done; eauto] end.
Qed.

Lemma cstr_stored str n : 0 ∉ str -> Vfs.cstr ((str ++ [0]) ++ replicate n 0) = str.
Proof.
  intros Hn. rewrite <- app_assoc. change ([0] ++ replicate n 0) with (replicate (S n) 0). unfold Vfs.cstr.
  rewrite bstrlen_app by done. cbn [from_option id]. by rewrite take_app_length.
Qed.

(** The directory of a task after it was stored. *)
Lemma cwd_stored m t str :
  (length str < fuel)%nat -> Z.of_nat (length str) < PATH_LENGTH -> 0 ∉ str ->
  read_string fuel (store_bytes (memset m (t + off_cwd) 0 PATH_LENGTH) (t + off_cwd) str) (t + off_cwd) = Some str.
Proof.
  intros Hf Hl Hn. apply read_string_at; [done..| |].
  - intros j c Hj. pose proof (lookup_lt_Some _ _ _ Hj). rewrite store_bytes_spec, decide_True by lia.
    replace (Z.to_nat _) with j by lia. by apply list_lookup_total_correct.
  - rewrite store_bytes_spec, decide_False, memset_spec, decide_True by (done || lia). done.
Qed.

(** What the open and the close of a directory give. *)
Record dir_open := DirOpen {
  do_task : Z; do_cwd : list Z; do_path : list Z; do_open : vfs_t; do_fh : Z; do_close : vfs_t; do_r : Z;
  do_addr : Z; do_file : vfs_file_t F P; do_type : vfs_inode_type_t; do_sb : Z; do_super : vfs_super_block_t; do_names : list (list Z) }.

(** The running task opens a directory by the path at [path]; its entry is reached by the names without crossing a mount. *)
Record opens_dir cpu path s (o : dir_open) : Prop := {
  od_current : current fuel cpu s = Some (do_task o, do_cwd o);
  od_string : read_string fuel (mem s) path = Some (do_path o);
  od_open : vfs_open (vfs s) (do_cwd o) (do_task o) (do_path o) VFS_MODE_READ = Some (do_open o, do_fh o);
  od_pos : 0 <= do_fh o;
  od_file : task_file (do_open o) (do_task o) (do_fh o) = Some (Some (do_addr o, do_file o));
  od_dir : vfs_get_inode_type (do_open o) (do_task o) (do_fh o) = Some (do_type o) /\ VFS_NODE_IS_DIR (do_type o) = true;
  od_root : vfs_root (do_open o) = Some (do_sb o) /\ sbs (do_open o) !! do_sb o = Some (do_super o);
  od_plain : plain (do_open o) (s_root (do_super o)) (f_dentry (do_file o)) (do_names o);
  od_short : (2 * length (path_string (do_names o)) <= VFS_MAX_PATH_LENGTH)%nat /\ (length (path_string (do_names o)) < fuel)%nat;
  od_close : vfs_close (do_open o) (do_task o) (do_fh o) = Some (do_close o, do_r o);
}.

Lemma length_names ns : (length ns <= length (path_string ns))%nat.
Proof.
  assert (forall l : list (list Z), (length l <= length (l ≫= cons slash))%nat) as H.
  { induction l as [|a l IH]; [done|]. change ((a :: l) ≫= cons slash) with ((slash :: a) ++ (l ≫= cons slash)). rewrite length_app. simpl. lia. }
  destruct ns as [|n ns]; [simpl; lia|apply H].
Qed.

Lemma chdir_stores cpu path s o :
  wf s -> opens_dir cpu path s o ->
  let dir := path_string (do_names o) in
  exists m, sys_chdir fuel cpu path s = Some (with_vfs (do_close o) (with_mem m s), 0) /\
    read_string fuel m (do_task o + off_cwd) = Some dir /\ 0 ∉ dir /\ Z.of_nat (length dir) < PATH_LENGTH /\
    vfs_resolve_path (do_close o) [] dir = Some (do_close o, Some (f_dentry (do_file o))).
Proof.
  intros Hw [H1 H2 H3 H4 H5 [H6 H7] [H8 H9] H10 [H11 H12] H13] dir.
  assert (VFS_MAX_PATH_LENGTH = 256%nat) as Hmax by (vm_compute; reflexivity).
  assert (0 < length dir)%nat as Hpos by (unfold dir; destruct (do_names o); simpl; lia).
  pose proof (length_names (do_names o)) as Hn. unfold current in H1. unbind H1. injection H1 as -> ->.
  assert (vfs_wf (do_open o)) as Hw1 by (by eapply open_wf; [exact Hw|exact H3|eapply read_string_no_null..]).
  assert (Forall good_name (do_names o)) as Hg by (by eapply plain_order; [apply Hw1|exact H10]).
  pose proof (path_string_good _ Hg) as H0. fold dir in H0, H11, H12, Hn.
  unfold sys_chdir, current. rewrite E. cbn [mbind option_bind]. rewrite E0. cbn [mbind option_bind]. rewrite H2. cbn [mbind option_bind].
  rewrite H3. cbn [mbind option_bind]. rewrite (proj2 (Z.ltb_ge _ 0)) by lia. rewrite H6. cbn [mbind option_bind]. rewrite H7. cbn [negb].
  rewrite (get_full_path_plain fuel _ (do_sb o) (do_super o) _ _ (do_addr o) (do_file o) (do_names o)) by (done || unfold PATH_LENGTH; fold dir; lia).
  fold dir. cbn [mbind option_bind ctrue Z.eqb negb]. rewrite cstr_stored by done.
  rewrite (proj2 (Z.leb_gt _ _)), Nat2Z.id, take_ge by (unfold PATH_LENGTH; lia). rewrite H13. cbn [mbind option_bind].
  eexists. split; [done|]. split_and!; [apply cwd_stored; [done|unfold PATH_LENGTH; lia|done]|done|unfold PATH_LENGTH; lia|].
  pose proof (close_same_tree _ _ _ _ _ H13) as Ht. destruct Ht as (Td & Ts & Tr & Ti) eqn:Et.
  apply (resolve_plain (do_close o) (do_sb o) (do_super o)); [|by rewrite Tr|by rewrite Ts|by eapply plain_same_tree|done|apply not_elem_of_nil].
  apply (close_wf _ _ _ _ _ Hw1 H13).
Qed.

Lemma getcwd_copies cpu t dir buf len s :
  sched_get_task cpu (sched s) = Some t -> read_string fuel (mem s) (t + off_cwd) = Some dir ->
  Z.of_nat (length dir) < len -> Z.of_nat (length dir) < PATH_LENGTH -> apart buf len (t + off_cwd) PATH_LENGTH ->
  exists m, sys_getcwd fuel cpu buf len s = Some (with_mem m s) /\ read_string fuel m buf = Some dir /\
    forall q, ~ (buf <= q < buf + len) -> m q = mem s q.
Proof.
  intros Hc Hd Hl Hp Ha. pose proof (read_string_no_null _ _ _ Hd) as Hn. unfold sys_getcwd. rewrite Hc. cbn [mbind option_bind].
  unfold read_string in Hd. unbind Hd. injection Hd as Hd. cbn [mbind option_bind].
  pose proof (strlen_from_spec _ _ _ _ _ E) as (H0 & Hz & _).
  assert (Z.of_nat (length dir) = z) as Hlen by (rewrite <- Hd, length_fmap, length_seqZ; lia).
  rewrite (proj2 (Z.leb_gt _ _)) by lia. eexists. split; [done|]. split.
  - assert (length dir < fuel)%nat as Hf.
    { clear -E Hlen. unfold strlen in E. revert E. assert (forall n i, strlen_from n (mem s) (t + off_cwd) i = Some z -> z < i + Z.of_nat n) as H.
      { induction n as [|n IH]; intros i; cbn [strlen_from]; [done|]. destruct (_ =? 0); [intros [= <-]; lia|]. intros ?%IH. lia. }
      intros ?%H. lia. }
    apply read_string_at; [done..| |].
    + intros j c Hj. pose proof (lookup_lt_Some _ _ _ Hj). rewrite upd_spec, decide_False by lia.
      rewrite memcpy_copied, decide_True by (destruct Ha; lia). rewrite <- Hd, list_lookup_fmap, lookup_seqZ_lt in Hj by lia.
      injection Hj as <-. f_equal. lia.
    + by rewrite upd_spec, decide_True by lia.
  - intros q Hq. rewrite upd_spec, decide_False, memcpy_copied, decide_False by (destruct Ha; lia). done.
Qed.

(** C11. The current directory, inside one file system.  When the running task opens a directory by a path, and the entry of the directory is reached from the root
    without crossing a mount and by a path of at most 128 characters, [sys_chdir] with that path succeeds and closes the
    directory again; [sys_getcwd] then gives the caller, in any buffer that is long enough, a path that leads to the entry of that directory, and
    a path that is not absolute is taken from there.  A [sys_chdir] that fails leaves the memory, and so the directory, as it was. *)
Theorem chdir_getcwd cpu path buf len s o :
  vfs_wf (vfs s) -> opens_dir cpu path s o ->
  Z.of_nat (length (path_string (do_names o))) < len -> apart buf len (do_task o + off_cwd) PATH_LENGTH ->
  exists s1 s2, sys_chdir fuel cpu path s = Some (s1, 0) /\ sys_getcwd fuel cpu buf len s1 = Some s2 /\
    vfs s1 = do_close o /\ vfs s2 = do_close o /\
    current fuel cpu s2 = Some (do_task o, path_string (do_names o)) /\
    read_string fuel (mem s2) buf = Some (path_string (do_names o)) /\
    vfs_resolve_path (vfs s2) [] (path_string (do_names o)) = Some (vfs s2, Some (f_dentry (do_file o))) /\
    forall path' s' r, sys_chdir fuel cpu path' s = Some (s', r) -> r <> 0 -> mem s' = mem s.
Proof.
  intros Hw Ho Hlen Hap. destruct (chdir_stores cpu path s o Hw Ho) as (m & E1 & Hr & Hn & Hs & Hres). set (s1 := with_vfs _ _) in E1.
  assert (sched_get_task cpu (sched s1) = Some (do_task o)) as Hc.
  { pose proof (od_current _ _ _ _ Ho) as H. unfold current in H. unbind H. by injection H as -> _. }
  destruct (getcwd_copies cpu (do_task o) (path_string (do_names o)) buf len s1 Hc Hr Hlen Hs Hap) as (m2 & E2 & Hb & Hframe).
  exists s1, (with_mem m2 s1). split_and!; [done..| |done|done|].
  - unfold current. change (sched (with_mem m2 s1)) with (sched s1). rewrite Hc. cbn [mbind option_bind].
    change (mem (with_mem m2 s1)) with m2. rewrite (read_string_agree m m2 _ (path_string (do_names o)) Hr); [done|]. intros q Hq. apply Hframe. destruct Hap; lia.
  - intros path' s' r E Hr0. by apply (chdir_spec cpu path' s s' r Hw E).
Qed.

(** ** Directories *)

Lemma field_store32 m p (x : Z) : field 4 (store32 m p x) p = x mod 2 ^ 32.
Proof.
  pose proof (length_Z_to_little_endian 4 8 x ltac:(lia)) as Hl.
  assert (store32 m p x <$> seqZ p 4 = Z_to_little_endian 4 8 x) as E.
  { apply list_eq. intros i. rewrite list_lookup_fmap. destruct (decide (i < 4)%nat) as [Hi|Hi].
    - rewrite lookup_seqZ_lt by lia. cbn [fmap option_fmap option_map]. unfold store32. rewrite store_bytes_spec, length_Z_to_little_endian by lia.
      rewrite decide_True by lia. replace (Z.to_nat (p + Z.of_nat i - p)) with i by lia. symmetry. apply list_lookup_lookup_total_lt. lia.
    - rewrite lookup_seqZ_ge by lia. symmetry. apply lookup_ge_None_2. lia. }
  unfold field. rewrite E, little_endian_to_Z_to_little_endian by lia. done.
Qed.
Lemma store32_outside m p (x : Z) q : ~ (p <= q < p + 4) -> store32 m p x q = m q.
Proof. intros Hq. unfold store32. rewrite store_bytes_spec, length_Z_to_little_endian, decide_False by lia. done. Qed.
Lemma field_agree n m m' p : (forall q, p <= q < p + n -> m' q = m q) -> field n m' p = field n m p.
Proof.
  intros H. unfold field. f_equal. apply list_fmap_ext. intros i q Hq. apply lookup_seqZ in Hq. apply H. lia.
Qed.

(** An entry of the caller's array: its name, cut to 255 bytes and terminated, and its size; the kind is stored for the sizes one and two.
    The other bytes are those of [m0]. *)
Definition name_length (e : vfs_dirent_t) : nat := Nat.min (length (de_name e)) 255.
Record dirent_at (m0 m : memory) (p : Z) (e : vfs_dirent_t) : Prop := {
  da_name : forall j c, (j < 255)%nat -> de_name e !! j = Some c -> m (p + Z.of_nat j) = c;
  da_null : m (p + Z.of_nat (name_length e)) = 0;
  da_rest : forall j, Z.of_nat (name_length e) < j < 256 -> m (p + j) = m0 (p + j);
  da_sz : field 4 m (p + 260) = de_sz e mod 2 ^ 32;
  da_type : if decide (de_sz e = 1) then field 4 m (p + 256) = DIRENT_FILE
    else if decide (de_sz e = 2) then field 4 m (p + 256) = DIRENT_DIRECTORY else forall j, 256 <= j < 260 -> m (p + j) = m0 (p + j);
}.

Lemma dirent_at_agree m0 m m1 m' p e :
  (forall q, p <= q < p + 264 -> m1 q = m0 q /\ m' q = m q) -> dirent_at m0 m p e -> dirent_at m1 m' p e.
Proof.
  intros Ha [H1 H2 H3 H4 H5]. assert (name_length e <= 255)%nat as Hn by (unfold name_length; lia). constructor.
  - intros j c Hj Hc. destruct (Ha (p + Z.of_nat j)) as [_ ->]; [lia|]. by apply H1.
  - destruct (Ha (p + Z.of_nat (name_length e))) as [_ ->]; [lia|done].
  - intros j Hj. destruct (Ha (p + j)) as [-> ->]; [lia|]. by apply H3.
  - rewrite (field_agree 4 m m'); [done|]. intros q Hq. apply Ha. lia.
  - rewrite (field_agree 4 m m') by (intros q Hq; apply Ha; lia). repeat case_decide; try done.
    intros j Hj. destruct (Ha (p + j)) as [-> ->]; [lia|]. by apply H5.
Qed.

Lemma put_dirent_spec m p e :
  dirent_at m (put_dirent m p e) p e /\ forall q, ~ (p <= q < p + 264) -> put_dirent m p e q = m q.
Proof.
  unfold put_dirent. cbn [inode_type_number]. unfold DIRENT_NAME_LEN.
  replace (Z.min (Z.of_nat (length (de_name e))) (256 - 1)) with (Z.of_nat (name_length e)) by (unfold name_length; lia).
  rewrite Nat2Z.id. set (m1 := store_bytes m p _). set (m2 := upd m1 _ 0). set (m3 := store32 m2 _ _).
  assert (name_length e <= 255)%nat as Hn by (unfold name_length; lia).
  assert (length (take (name_length e) (de_name e)) = name_length e) as Hl by (rewrite length_take; unfold name_length; lia).
  assert (forall q, ~ (p <= q <= p + Z.of_nat (name_length e)) -> m2 q = m q) as H2.
  { intros q Hq. unfold m2, m1. rewrite upd_spec, decide_False, store_bytes_spec, decide_False by lia. done. }
  assert (forall q, ~ (p + 260 <= q < p + 264) -> m3 q = m2 q) as H3 by (intros q Hq; apply store32_outside; unfold dirent_sz; lia).
  set (m4 := if de_sz e =? 1 then _ else _).
  assert (forall q, ~ (p + 256 <= q < p + 260) -> m4 q = m3 q) as H4.
  { intros q Hq. unfold m4. repeat case_match; rewrite ?store32_outside by (unfold dirent_type; lia); done. }
  split; [|intros q Hq; rewrite H4, H3, H2 by lia; done]. constructor.
  - intros j c Hj Hc. pose proof (lookup_lt_Some _ _ _ Hc). rewrite H4, H3 by lia. unfold m2, m1, name_length in *.
    rewrite upd_spec, decide_False, store_bytes_spec, decide_True by lia. replace (Z.to_nat (p + Z.of_nat j - p)) with j by lia.
    apply list_lookup_total_correct. rewrite lookup_take_lt by lia. done.
  - rewrite H4, H3 by lia. unfold m2. by rewrite upd_spec, decide_True.
  - intros j Hj. rewrite H4, H3, H2 by lia. done.
  - rewrite (field_agree 4 m3) by (intros q Hq; apply H4; lia). apply field_store32.
  - unfold m4, dirent_type. destruct (Z.eqb_spec (de_sz e) 1) as [E1|E1]; [rewrite decide_True by done; by rewrite field_store32|].
    rewrite decide_False by done. destruct (Z.eqb_spec (de_sz e) 2) as [E2|E2]; [rewrite decide_True by done; by rewrite field_store32|].
    rewrite decide_False by done. intros j Hj. rewrite H3, H2 by lia. done.
Qed.

Lemma put_dirents_spec es : forall m p,
  (forall k e, es !! k = Some e -> dirent_at m (put_dirents m p es) (p + 264 * Z.of_nat k) e) /\
  forall q, ~ (p <= q < p + 264 * Z.of_nat (length es)) -> put_dirents m p es q = m q.
Proof.
  induction es as [|e es IH]; intros m p; cbn [put_dirents length]; [done|]. change SIZEOF_DIRENT with 264.
  destruct (IH (put_dirent m p e) (p + 264)) as [H1 H2]. destruct (put_dirent_spec m p e) as [H3 H4]. split.
  - intros [|k] e' Hk; cbn in Hk.
    + injection Hk as <-. rewrite Z.add_0_r. eapply dirent_at_agree; [|exact H3]. intros q Hq. split; [done|]. apply H2. lia.
    + replace (p + 264 * Z.of_nat (S k)) with (p + 264 + 264 * Z.of_nat k) by lia. pose proof (lookup_lt_Some _ _ _ Hk).
      eapply dirent_at_agree; [|by apply H1]. intros q Hq. split; [|done]. symmetry. apply H4. lia.
  - intros q Hq. rewrite H2, H4 by lia. done.
Qed.

(** The array is taken and freed again. *)
Lemma take_free_block a s : a <> 0 -> a ∉ heap s -> free_block a (take_block a s) = Some s.
Proof.
  intros H0 Hn. unfold free_block, take_block. rewrite (proj2 (Z.eqb_neq a 0) H0). cbn [heap with_heap].
  rewrite bool_decide_eq_true_2 by set_solver. replace (({[a]} ∪ heap s) ∖ {[a]}) with (heap s) by set_solver. by destruct s.
Qed.

(** C8. [sys_readdir] of an open file whose file system lists the entries [es].  With room for all of them in the caller's array every entry is
    there, in order, with its name and size, and nothing else of the memory changes; the result is their number.  With less room, or without any
    entry, the result is [-ENOBUFS] and the memory is unchanged.  On every way the array that the file system allocated is freed, and tasks,
    address spaces and blocks are as they were. *)
Theorem readdir_correct cpu array h data sz t v r es s :
  sched_get_task cpu (sched s) = Some t -> vfs_iterate (vfs s) t h = Some (v, (r, Some es)) ->
  array <> 0 -> array ∉ heap s -> 264 * Z.of_nat (length es) < 2 ^ 31 ->
  if decide (es = [] \/ sz < 264 * Z.of_nat (length es)) then sys_readdir cpu array h data sz s = Some (with_vfs v s, - ENOBUFS)
  else exists m, sys_readdir cpu array h data sz s = Some (with_mem m (with_vfs v s), Z.of_nat (length es)) /\
    (forall k e, es !! k = Some e -> dirent_at (mem s) m (data + 264 * Z.of_nat k) e) /\
    forall q, ~ (data <= q < data + 264 * Z.of_nat (length es)) -> m q = mem s q.
Proof.
  intros Ht Hv H0 Hn Hlen. unfold sys_readdir. rewrite Ht. cbn [mbind option_bind]. rewrite Hv. cbn [mbind option_bind].
  destruct es as [|e es]; [by rewrite decide_True by auto|]. rewrite (proj2 (Z.eqb_neq array 0) H0). change SIZEOF_DIRENT with 264.
  rewrite i32_small by lia. destruct (Z.ltb_spec sz (Z.of_nat (length (e :: es)) * 264)) as [Hlt|Hge].
  - rewrite decide_True by (right; lia). by rewrite take_free_block.
  - rewrite decide_False by (intros [?|?]; [done|lia]). destruct (put_dirents_spec (e :: es) (mem s) data) as [H1 H2].
    set (m := put_dirents _ data (e :: es)). exists m.
    assert (with_mem m (take_block array (with_vfs v s)) = take_block array (with_mem m (with_vfs v s))) as ->
      by (unfold take_block; by rewrite (proj2 (Z.eqb_neq array 0) H0)).
    rewrite take_free_block by done. cbn [mbind option_bind]. split_and!; [done|..].
    + replace m with (put_dirents (mem s) data (e :: es)); [exact H1|]. unfold m, take_block. by rewrite (proj2 (Z.eqb_neq array 0) H0).
    + replace m with (put_dirents (mem s) data (e :: es)); [exact H2|]. unfold m, take_block. by rewrite (proj2 (Z.eqb_neq array 0) H0).
Qed.

(** Any processor makes any call. *)
Inductive sys_step s s' : Prop :=
  | SysStep cpu e c r : call cpu e c s = Some (s', r) -> sys_step s s'.

(** System calls keep the file system in order.  From a well-formed file system, after any sequence of system calls of any tasks
    on any processors the tree of entries, the mount points and the open files of all tasks are well formed and the lookup of a
    handle never faults; and a call on files, other than a read, changes no task and no address space and leaves none of the blocks that
    [syscall.c] and the life of tasks take behind. *)
Theorem system_calls_safe s0 s :
  vfs_wf (vfs s0) -> rtc sys_step s0 s ->
  vfs_wf (vfs s) /\ (forall t fh, is_Some (task_file (vfs s) t fh)) /\
  (forall cpu e c s' r, file_call c = true -> e_block e ∉ heap s -> call cpu e c s = Some (s', r) -> same_tasks s s').
Proof.
  intros Hw Hr. assert (wf s) as Hs.
  { clear -Hw Hr laws. induction Hr as [|s1 s2 s3 [cpu e c r E] _ IH]; [exact Hw|]. apply IH. by eapply call_spec. }
  split_and!; [exact Hs| |].
  - intros t fh. pose proof (wf_find_file (vfs s) t fh false Hs) as H. unfold task_file. destruct (find_file _ _ _ _); [by eexists|done].
  - intros cpu e c s' r Hc He E. apply call_spec in E as [_ H]; [by apply H|exact Hs].
Qed.
End Proofs.

(** ** A concrete system

    Task 1 of [ProcProofs] on the RAM disk of [VfsProofs]; its current directory is the root, and the path [/d] is at 9000. *)
Definition sys_mem (q : Z) : Z :=
  if q =? 1 + off_cwd then slash else if q =? 9000 then slash else if q =? 9001 then 100 else 0.
Definition sys_proc : proc_t (F := unit) (W := list Z) (P := ramfs_ustar_data_t) :=
  Proc (demo_sched1 1) {[1 := demo_user]} sys_mem VfsProofs.demo_st {[2000 := ∅]} {[1; 2000; 3000; 4000]} 1.

Definition sys_v1 : demo_state := after (vfs_open VfsProofs.demo_st [slash] 1 slash_d VFS_MODE_READ).
Definition sys_v2 : demo_state := after (vfs_close sys_v1 1 102).
Definition sys_file : Z * vfs_file_t unit ramfs_ustar_data_t :=
  match task_file sys_v1 1 102 with
  | Some (Some r) => r
  | _ => (0, File 0 VFS_MODE_READ None 0 None None 0 false 0)
  end.
Definition sys_dir : dir_open :=
  DirOpen 1 [slash] slash_d sys_v1 102 sys_v2 0 sys_file.1 sys_file.2 VFS_NODE_DIRECTOR 1 (SuperBlock 2) [[100]].

Lemma sys_opens_dir : opens_dir 20 0 9000 sys_proc sys_dir.
Proof.
  constructor; try (vm_compute; reflexivity); try (split; vm_compute; reflexivity).
  - vm_compute. congruence.
  - assert (f_dentry (do_file sys_dir) = 4) as -> by (vm_compute; reflexivity).
    apply (plain_child (do_open sys_dir) 2 2 (Dentry [] (Some 3) (Some 2) [4]) [] 4 (Dentry [100] (Some 5) (Some 2) [6]));
      [constructor|vm_compute; reflexivity|left|vm_compute; reflexivity|vm_compute; reflexivity].
  - split; [apply Nat.leb_le|apply Nat.ltb_lt]; vm_compute; reflexivity.
Qed.

(** [chdir("/d")] and a [getcwd] to 9500. *)
Lemma chdir_getcwd_witness :
  exists s1 s2, sys_chdir 20 0 9000 sys_proc = Some (s1, 0) /\ sys_getcwd 20 0 9500 10 s1 = Some s2 /\
    read_string 20 (mem s2) 9500 = Some slash_d.
Proof.
  destruct (chdir_getcwd 20 0 9000 9500 10 sys_proc sys_dir) as (s1 & s2 & E1 & E2 & _ & _ & _ & E3 & _).
  - exact (run_keeps_wf _ _ demo_steps).
  - exact sys_opens_dir.
  - vm_compute. reflexivity.
  - right. vm_compute. congruence.
  - exists s1, s2. split; [exact E1|]. split; [exact E2|exact E3].
Defined.

(** The same task opens and closes the directory. *)
Lemma system_calls_safe_witness :
  exists s', rtc (sys_step 0 0 20) sys_proc s' /\ vfs_wf (vfs s') /\ heap s' = heap sys_proc.
Proof.
  set (e := SysEnv (Fresh 0 0 0 0 0 0 0) 7000 (fun _ _ => 0) 0 0). set (c := SYSCALL_OPEN 9000 VFS_MODE_READ).
  assert (bool_decide (is_Some (syscall_funs 0 0 20 0 e c sys_proc)) = true) as H by (vm_compute; reflexivity).
  apply bool_decide_eq_true in H as [[s' r] E]. exists s'.
  assert (rtc (sys_step 0 0 20) sys_proc s') as Hr by (apply rtc_once; exact (SysStep _ _ _ _ _ _ e c r E)).
  split; [exact Hr|].
  destruct (system_calls_safe 0 0 20 sys_proc sys_proc (run_keeps_wf _ _ demo_steps) (rtc_refl _ _)) as (_ & _ & Hf).
  destruct (system_calls_safe 0 0 20 sys_proc s' (run_keeps_wf _ _ demo_steps) Hr) as (Hw & _).
  split; [exact Hw|]. apply (Hf 0 e c s' r eq_refl); [|exact E]. apply (bool_decide_unpack _). vm_compute. exact I.
Defined.

(** A directory without entries is reported as a buffer that is too small. *)
Lemma empty_directory_is_an_error {F W P} {ops : FsOps F W P} cpu h data sz t v r (s : proc_t (F := F) (W := W) (P := P)) :
  sched_get_task cpu (sched s) = Some t -> vfs_iterate (vfs s) t h = Some (v, (r, Some [])) ->
  forall array, sys_readdir cpu array h data sz s = Some (with_vfs v s, - ENOBUFS).
Proof. intros Hc Hi array. unfold sys_readdir. rewrite Hc. cbn [mbind option_bind]. by rewrite Hi. Qed.

(** The kind of a directory entry is stored only for sizes one and two; the memory keeps it otherwise. *)
Lemma dirent_type_not_stored m dp e :
  de_sz e <> 1 -> de_sz e <> 2 -> forall j, 0 <= j < 4 -> put_dirent m dp e (dp + dirent_type + j) = m (dp + dirent_type + j).
Proof.
  intros H1 H2 j Hj. unfold put_dirent. cbn [inode_type_number]. rewrite !(proj2 (Z.eqb_neq _ _)) by done.
  unfold store32, dirent_sz, dirent_type, DIRENT_NAME_LEN. rewrite store_bytes_spec.
  rewrite decide_False by lia. rewrite upd_spec, decide_False, store_bytes_spec, decide_False by (rewrite ?length_take; lia). done.
Qed.

(** A listing of the open directory [/d] to 9500: its one entry is [a] with five bytes, and the array at 5000 is freed. *)
Lemma readdir_correct_witness :
  exists s, sys_readdir 0 5000 102 9500 3000 (with_vfs sys_v1 sys_proc) = Some (s, 1) /\ heap s = heap sys_proc /\
    mem s 9500 = 97 /\ mem s 9501 = 0 /\ field 4 (mem s) 9760 = 5.
Proof.
  set (e := Dirent [97] VFS_NODE_FILE 5).
  set (v := match vfs_iterate sys_v1 1 102 with Some (v, _) => v | None => sys_v1 end).
  assert (vfs_iterate sys_v1 1 102 = Some (v, (1, Some [e]))) as Hv by (vm_compute; reflexivity).
  pose proof (readdir_correct 0 5000 102 9500 3000 1 v 1 [e] (with_vfs sys_v1 sys_proc) eq_refl Hv ltac:(lia)
    ltac:(apply (bool_decide_unpack _); vm_compute; exact I) eq_refl) as H.
  rewrite decide_False in H by (intros [?|?]; [done|cbn in *; lia]). destruct H as (m & E & He & _).
  eexists. split; [exact E|]. split; [reflexivity|]. destruct (He 0%nat e eq_refl) as [Hn H0 _ Hs _].
  split_and!; [exact (Hn 0%nat 97 ltac:(lia) eq_refl)|exact H0|exact Hs].
Defined.
