(* ===== verification/Fb.v ===== *)
(** * Frame buffer

    [kernel/src/device/display/fb.c]: a buffer of pixels in memory, drawn to and copied to the screen.

    The buffers are ranges of the flat memory of [KLib].  Locks are not represented; the variants without
    lock are the same functions. *)

From S2P Require Import Prelude KLib Pmm Ptm.

(** ** Data *)

Inductive pixel_format := PIXEL_RGB | PIXEL_BGR | PIXEL_UNKNOWN.

Definition FB_BYTE_SIZE_PER_PIXEL : Z := 4.

Record fb_info_t := FbInfo {
  fb_ptr : Z; pfnn : Z; fb_size : Z; fb_nr_pages : Z; width : Z; height : Z; fb_pitch : Z; format : pixel_format;
  actual_size : Z; swap_ptr : Z; swap_size : Z;
  red_mask_shift : Z; green_mask_shift : Z; blue_mask_shift : Z;
}.

(** What the boot loader says of a frame buffer. *)
Record limine_framebuffer := Limine {
  l_address : Z; l_width : Z; l_height : Z; l_pitch : Z; l_rgb : bool;
  l_red_mask_shift : Z; l_green_mask_shift : Z; l_blue_mask_shift : Z;
}.

(** A pixel in memory. *)
Definition load32 (m : memory) (p : Z) : Z := little_endian_to_Z 8 (m <$> seqZ p 4).
Definition put32 (m : memory) (p v : Z) : memory := store_bytes m p (Z_to_little_endian 4 8 v).

(** The unions of colours by their bytes. *)
Definition pack_bytes (b0 b1 b2 : Z) : Z := little_endian_to_Z 8 [u8 b0; u8 b1; u8 b2; 0].
Definition _pack_color (f : pixel_format) (red green blue : Z) : Z :=
  match f with
  | PIXEL_RGB => pack_bytes blue green red
  | PIXEL_BGR => pack_bytes red green blue
  | PIXEL_UNKNOWN => 0
  end.
(** A colour as the drawing functions split it. *)
Definition packed (f : pixel_format) (color : Z) : Z :=
  _pack_color f (Z.land (Z.shiftr color 16) 0xff) (Z.land (Z.shiftr color 8) 0xff) (Z.land color 0xff).

(** ** Initialisation *)

Definition FRAME_BUFFER_START : Z := 0xfffff68000000000.

(** [swap] is what [kzalloc] returned; the new buffer is cleared and filled from the screen.  The mapping of the screen by
    [vmm_map] is in the page tables, which the flat memory does not show. *)
Definition fb_init (fbs : list limine_framebuffer) (swap : Z) (m : memory) :
    option (fb_info_t * memory) :=
  match fbs with
  | [] => None
  | lfb :: _ =>
    if swap =? 0 then None else
    let pitch := u32 (l_pitch lfb) in
    let fb_sz := u32 (l_height lfb * pitch) in
    let actual := u32 (PAGE_ALIGN_UP_IF fb_sz) in
    let info := FbInfo FRAME_BUFFER_START (Z.shiftr (__VIRT_TO_PHYS (l_address lfb)) PAGE_SHIFT) fb_sz (SIZE_TO_PAGE actual)
      (u32 (l_width lfb)) (u32 (l_height lfb)) pitch (if l_rgb lfb then PIXEL_RGB else PIXEL_UNKNOWN) actual swap fb_sz
      (l_red_mask_shift lfb) (l_green_mask_shift lfb) (l_blue_mask_shift lfb) in
    Some (info, memcpy (memset m swap 0 actual) swap FRAME_BUFFER_START fb_sz)
  end.

Section Fb.
Context (fb : fb_info_t).

(** ** Drawing *)

Definition pixel_addr (base x y : Z) : Z := base + FB_BYTE_SIZE_PER_PIXEL * (u32 (y * width fb) + x).
Definition put_at (base x y color : Z) (m : memory) : memory :=
  if (width fb <=? x) || (height fb <=? y) then m else put32 m (pixel_addr base x y) (packed (format fb) color).

Definition fb_putpixel : Z -> Z -> Z -> memory -> memory := put_at (swap_ptr fb).
Definition fb_putpixel_nolock : Z -> Z -> Z -> memory -> memory := put_at (swap_ptr fb).
Definition fb_putpixel_direct : Z -> Z -> Z -> memory -> memory := put_at (fb_ptr fb).

Definition fb_flush (m : memory) : memory := memcpy m (fb_ptr fb) (swap_ptr fb) (fb_size fb).
Definition fb_flush_nolock (m : memory) : memory :=
  if (fb_ptr fb =? 0) || (swap_ptr fb =? 0) then m else fb_flush m.

(** The regions in range. *)
Definition region_ok (byte_start byte_end : Z) : bool :=
  negb ((fb_size fb <=? byte_start) || (fb_size fb <? byte_end)) && negb (byte_end <=? byte_start).
Definition fb_flush_region (byte_start byte_end : Z) (m : memory) : memory :=
  if region_ok byte_start byte_end
  then memcpy m (fb_ptr fb + byte_start) (swap_ptr fb + byte_start) (byte_end - byte_start) else m.
Definition fb_clear_region (byte_start byte_end : Z) (m : memory) : memory :=
  if region_ok byte_start byte_end then memset m (swap_ptr fb + byte_start) 0 (byte_end - byte_start) else m.
Definition fb_clear (m : memory) : memory := memset m (swap_ptr fb) 0 (swap_size fb).

(** The loop copies byte by byte from the front. *)
Definition fb_scroll (pixel_rows : Z) (m : memory) : memory :=
  let skip_bytes := u32 (u32 (pixel_rows * width fb) * FB_BYTE_SIZE_PER_PIXEL) in
  if (skip_bytes =? 0) || (swap_size fb <=? skip_bytes) then m else
  let keep_bytes := swap_size fb - skip_bytes in
  let base := swap_ptr fb in
  memset (byte_copy (Z.to_nat keep_bytes) m base (base + skip_bytes) 0) (base + keep_bytes) 0 skip_bytes.
Definition fb_scroll_nolock : Z -> memory -> memory := fb_scroll.

(** ** Filling *)

Fixpoint fill_row (n : nat) (p v : Z) (m : memory) : memory :=
  match n with O => m | S n => fill_row n (p + FB_BYTE_SIZE_PER_PIXEL) v (put32 m p v) end.
Fixpoint fill_rows (n : nat) (base x row : Z) (cols : nat) (v : Z) (m : memory) : memory :=
  match n with
  | O => m
  | S n => fill_rows n base x (row + 1) cols v (fill_row cols (pixel_addr base x row) v m)
  end.
Definition fill_at (base x y w h color : Z) (m : memory) : memory :=
  if (width fb <=? x) || (height fb <=? y) then m else
  let x2 := u32 (x + w) in
  let y2 := u32 (y + h) in
  let x2 := if width fb <? x2 then width fb else x2 in
  let y2 := if height fb <? y2 then height fb else y2 in
  fill_rows (Z.to_nat (y2 - y)) base x y (Z.to_nat (x2 - x)) (packed (format fb) color) m.
Definition fb_fill_nolock : Z -> Z -> Z -> Z -> Z -> memory -> memory := fill_at (swap_ptr fb).
Definition fb_fill_direct : Z -> Z -> Z -> Z -> Z -> memory -> memory := fill_at (fb_ptr fb).

Fixpoint test_pixels (n : nat) (i color : Z) (m : memory) : memory :=
  match n with
  | O => m
  | S n => test_pixels n (i + 1) color (fb_putpixel (i mod width fb) (i / width fb) color m)
  end.
Definition fb_test (m : memory) : memory :=
  let third := u32 (width fb * (height fb / 3)) in
  let n := Z.to_nat third in
  let m := test_pixels n 0 0x00ff0000 m in
  let m := test_pixels n third 0x0000ff00 m in
  test_pixels n (third * 2) 0x000000ff m.

Definition fb_get_width : Z := width fb.
Definition fb_get_height : Z := height fb.
End Fb.
