(* ===== verification/Term.v ===== *)
(** * Terminal

    [kernel/src/device/display/term.c]: characters at a cursor, drawn with a bitmap font into the frame buffer ([Fb]).

    The state is [term_info_t] with the flat memory that holds the buffers.  The font is a parameter: the height of a
    glyph and the bytes of the two fonts, one for each row of a glyph.  Characters are bytes; strings are lists
    without their null.  The frame buffer is the only renderer, so the tests of [g.render] are left out. *)

From S2P Require Import Prelude KLib Kprint Fb.

Definition PSF1_FONT_WIDTH : Z := 8.
Definition COLOR_BLACK : Z := 0.

Record term_info_t := TermInfo {
  ch_x : Z; ch_y : Z; ch_width : Z; ch_height : Z;
  font_width : Z; font_height : Z;
  fgcolor : Z; bgcolor : Z; prev_fgcolor : Z;
  ch_x_prev : Z; ch_y_prev : Z;
  bold : bool;
}.

Definition set_xy (x y : Z) (g : term_info_t) : term_info_t :=
  TermInfo x y (ch_width g) (ch_height g) (font_width g) (font_height g) (fgcolor g) (bgcolor g) (prev_fgcolor g)
    (ch_x_prev g) (ch_y_prev g) (bold g).
Definition set_prev (x y : Z) (g : term_info_t) : term_info_t :=
  TermInfo (ch_x g) (ch_y g) (ch_width g) (ch_height g) (font_width g) (font_height g) (fgcolor g) (bgcolor g)
    (prev_fgcolor g) x y (bold g).
Definition set_colors (fg bg prev : Z) (b : bool) (g : term_info_t) : term_info_t :=
  TermInfo (ch_x g) (ch_y g) (ch_width g) (ch_height g) (font_width g) (font_height g) fg bg prev
    (ch_x_prev g) (ch_y_prev g) b.

Definition chr_nl : Z := 10.
Definition chr_tab : Z := 9.
Definition chr_space : Z := 32.

Section Term.
(** The size of the fonts and their bytes, the bold one for [true]. *)
Context (font_size : Z) (font_data : bool -> Z -> Z).
Context (fb : fb_info_t).

Definition tstate : Type := term_info_t * memory.

(** ** Glyphs *)

Definition glyph_mask (col : Z) : Z := default 0 ([0x80; 0x40; 0x20; 0x10; 0x08; 0x04; 0x02; 0x01] !! Z.to_nat col).

Fixpoint glyph_cols (put : Z -> Z -> Z -> memory -> memory) (n : nat) (px y col b fg bg : Z) (m : memory) : memory :=
  match n with
  | O => m
  | S n => glyph_cols put n px y (col + 1) b fg bg (put (px + col) y (if ctrue (Z.land b (glyph_mask col)) then fg else bg) m)
  end.
Fixpoint glyph_rows (put : Z -> Z -> Z -> memory -> memory) (n : nat) (px py row : Z) (rows : Z -> Z) (fg bg : Z) (m : memory) :
    memory :=
  match n with
  | O => m
  | S n => glyph_rows put n px py (row + 1) rows fg bg (glyph_cols put 8 px (py + row) 0 (rows row) fg bg m)
  end.

(** The bytes of a character. *)
Definition glyph (bd : bool) (ch row : Z) : Z := font_data bd (u8 ch * font_size + row).

Definition _draw_glyph_to (put : Z -> Z -> Z -> memory -> memory) (g : term_info_t) (px py ch fg bg : Z) (m : memory) : memory :=
  glyph_rows put (Z.to_nat font_size) px py 0 (glyph (bold g) ch) fg bg m.
Definition _draw_glyph (g : term_info_t) (px py ch fg bg : Z) (m : memory) : memory :=
  _draw_glyph_to (fb_putpixel fb) g px py ch fg bg m.

Fixpoint clear_cols (n : nat) (px y x bg : Z) (m : memory) : memory :=
  match n with O => m | S n => clear_cols n px y (x + 1) bg (fb_putpixel fb (px + x) y bg m) end.
Fixpoint clear_rows (n : nat) (cols : nat) (px py y bg : Z) (m : memory) : memory :=
  match n with O => m | S n => clear_rows n cols px py (y + 1) bg (clear_cols cols px (py + y) 0 bg m) end.
Definition _clear_cell (g : term_info_t) (cx cy : Z) (m : memory) : memory :=
  clear_rows (Z.to_nat (font_height g)) (Z.to_nat (font_width g)) (cx * font_width g) (cy * font_height g) 0 (bgcolor g) m.

Definition _scroll_up (rows : Z) (m : memory) : memory := fb_scroll fb (u32 rows) m.

Definition _advance_line (s : tstate) : tstate :=
  let '(g, m) := s in
  let g := set_xy 0 (ch_y g - 1) (set_prev 0 0 g) in
  (g, _scroll_up (font_height g) m).

Definition term_init : term_info_t :=
  TermInfo 0 0 (width fb / PSF1_FONT_WIDTH) (height fb / font_size) PSF1_FONT_WIDTH font_size COLOR_WHITE COLOR_BLACK 0 0 0 false.

(** ** Writing *)

(** A character other than a tabulator. *)
Definition putch_plain (color ch : Z) (s : tstate) : tstate :=
  let '(g, m) := s in
  let fg := if ctrue color then color else fgcolor g in
  let g := if ch =? chr_nl then set_xy 0 (ch_y g + 1) g
           else if ch_width g <=? ch_x g then set_xy 0 (ch_y g + 1) g else g in
  let '(g, m) := if ch_height g <=? ch_y g then _advance_line (g, m) else (g, m) in
  if ch =? chr_nl then (g, m) else
  (set_xy (ch_x g + 1) (ch_y g) g,
   _draw_glyph g (ch_x g * font_width g) (ch_y g * font_height g) ch fg (bgcolor g) m).

(** A tabulator is spaces up to the next multiple of eight. *)
Definition tab_count (g : term_info_t) : nat := Z.to_nat (8 - Z.rem (ch_x g) 8).
Definition _term_putch_locked (color ch : Z) (s : tstate) : tstate :=
  if ch =? chr_tab then Nat.iter (tab_count s.1) (putch_plain color chr_space) s else putch_plain color ch s.

Definition term_putch (color ch : Z) (s : tstate) : tstate := _term_putch_locked color ch s.
Definition term_write (str : list Z) (s : tstate) : tstate := fold_left (fun s ch => _term_putch_locked 0 ch s) str s.
Definition term_write_n (str : list Z) (s : tstate) : tstate := fold_left (fun s ch => _term_putch_locked 0 ch s) str s.

Definition term_back (s : tstate) : tstate :=
  let '(g, m) := s in
  if 0 <? ch_x g then
    let g := set_xy (ch_x g - 1) (ch_y g) g in (g, _clear_cell g (ch_x g) (ch_y g) m)
  else if 0 <? ch_y g then
    let g := set_xy (ch_width g - 1) (ch_y g - 1) g in (g, _clear_cell g (ch_x g) (ch_y g) m)
  else (g, m).

Definition term_newline (s : tstate) : tstate :=
  let '(g, m) := s in
  let g := set_xy 0 (ch_y g + 1) g in
  if ch_height g <=? ch_y g then _advance_line (g, m) else (g, m).

Definition term_flush (s : tstate) : tstate := (s.1, fb_flush fb s.2).

Definition term_clear (s : tstate) : tstate :=
  term_flush (set_xy 0 0 (set_prev 0 0 s.1), fb_clear fb s.2).

Definition term_refresh (s : tstate) : tstate :=
  let '(g, m) := s in
  if (ch_y_prev g =? ch_y g) && (ch_x_prev g =? ch_x g) then (g, m) else
  let rb := i32 (font_height g * font_width g * ch_width g * FB_BYTE_SIZE_PER_PIXEL) in
  let start := i32 (ch_y_prev g * rb) in
  let end_ := i32 (ch_y g * rb + rb) in
  (set_prev (ch_x g) (ch_y g) g, fb_flush_region fb (u32 start) (u32 end_) m).

(** ** Colours *)

Definition term_set_fgcolor (color : Z) (g : term_info_t) : term_info_t :=
  set_colors color (bgcolor g) (prev_fgcolor g) (bold g) g.
Definition term_set_bgcolor (color : Z) (g : term_info_t) : term_info_t :=
  set_colors (fgcolor g) color (prev_fgcolor g) (bold g) g.
Definition term_set_bold (b : bool) (g : term_info_t) : term_info_t :=
  set_colors (fgcolor g) (bgcolor g) (prev_fgcolor g) b g.
Definition term_set_fgcolor_prev (color : Z) (g : term_info_t) : term_info_t :=
  set_colors color (bgcolor g) (fgcolor g) (bold g) g.
Definition term_restore_fgcolor (g : term_info_t) : term_info_t :=
  set_colors (prev_fgcolor g) (bgcolor g) 0 (bold g) g.
Definition term_get_fgcolor (g : term_info_t) : Z := fgcolor g.

(** ** Panic *)

(** A character other than a tabulator, without locks. *)
Definition panic_plain (ch : Z) (s : tstate) : tstate :=
  let '(g, m) := s in
  if ch =? chr_nl then
    let g := set_xy 0 (ch_y g + 1) g in
    if ch_height g <=? ch_y g then
      (set_xy 0 (ch_y g - 1) g, fb_flush_nolock fb (fb_scroll_nolock fb (u32 (font_height g)) m))
    else (g, m)
  else
    let '(g, m) :=
      if ch_width g <=? ch_x g then
        let g := set_xy 0 (ch_y g + 1) g in
        if ch_height g <=? ch_y g then (set_xy 0 (ch_y g - 1) g, fb_scroll_nolock fb (u32 (font_height g)) m) else (g, m)
      else (g, m) in
    (set_xy (ch_x g + 1) (ch_y g) g,
     _draw_glyph_to (fb_putpixel_nolock fb) g (ch_x g * font_width g) (ch_y g * font_height g) ch (fgcolor g) (bgcolor g) m).

(** The string of one space that a tabulator is written as. *)
Definition panic_space (s : tstate) : tstate :=
  let '(g, m) := panic_plain chr_space (set_prev 0 0 s.1, s.2) in (g, fb_flush_nolock fb m).
Definition panic_putch (ch : Z) (s : tstate) : tstate :=
  if ch =? chr_tab then Nat.iter (tab_count s.1) panic_space s else panic_plain ch s.
Definition term_panic_write (str : list Z) (s : tstate) : tstate :=
  let '(g, m) := fold_left (fun s ch => panic_putch ch s) str (set_prev 0 0 s.1, s.2) in (g, fb_flush_nolock fb m).

Definition term_panic_clear (s : tstate) : tstate :=
  (set_xy 0 0 (set_prev 0 0 s.1), fb_fill_direct fb 0 0 (fb_get_width fb) (fb_get_height fb) COLOR_BLACK s.2).
End Term.
