(* ===== verification/TermProofs.v ===== *)
(** * Terminal: correctness

    The pixels in the buffer are the glyphs of a grid of characters, which the operations of the terminal change as a
    text screen does; copying the buffer shows the grid on the screen. *)

From S2P Require Import Prelude KLib TaskProofs Kprint Fb Term.

(** ** Words *)

Lemma store_bytes_read m p l : store_bytes m p l <$> seqZ p (Z.of_nat (length l)) = l.
Proof.
  apply list_eq. intros j. rewrite list_lookup_fmap. destruct (l !! j) as [c|] eqn:E.
  - pose proof (lookup_lt_Some _ _ _ E). rewrite lookup_seqZ_lt by lia. cbn. rewrite store_bytes_spec, decide_True by lia.
    f_equal. replace (Z.to_nat _) with j by lia. by apply list_lookup_total_correct.
  - apply lookup_ge_None in E. rewrite lookup_seqZ_ge by lia. done.
Qed.

Lemma load32_agree m m' p : agree m m' p 4 -> load32 m' p = load32 m p.
Proof.
  intros H. unfold load32. f_equal. apply list_fmap_ext. intros i x Hx. apply lookup_seqZ in Hx. apply H. lia.
Qed.

Lemma length_le32 v : length (Z_to_little_endian 4 8 v) = 4%nat.
Proof. exact (length_le_bytes 4 v). Qed.

Lemma load32_put32 m p v : 0 <= v < 2 ^ 32 -> load32 (put32 m p v) p = v.
Proof.
  intros Hv. unfold load32, put32. pose proof (store_bytes_read m p (Z_to_little_endian 4 8 v)) as H.
  rewrite length_le32 in H. change (Z.of_nat 4) with 4 in H. rewrite H, little_endian_to_Z_to_little_endian by lia.
  change (2 ^ (4 * 8)) with (2 ^ 32). rewrite Z.mod_small; lia.
Qed.

Lemma put32_agree m p v q n : apart p 4 q n -> agree m (put32 m p v) q n.
Proof. intros Ha. unfold put32. apply store_agree. by rewrite length_le32. Qed.

Lemma packed_range f c : 0 <= packed f c < 2 ^ 32.
Proof.
  assert (forall a b d, 0 <= pack_bytes a b d < 2 ^ 32) as H.
  { intros a b d. unfold pack_bytes. pose proof (little_endian_to_Z_bound 8 [u8 a; u8 b; u8 d; 0]) as H.
    change (Z.of_nat (length [u8 a; u8 b; u8 d; 0]) * 8) with 32 in H. apply H; [lia|].
    repeat constructor; try apply u8_range; lia. }
  unfold packed, _pack_color. destruct f; [apply H|apply H|lia].
Qed.

(** ** Pixels *)

(** A display without padding between its rows ([ok_pitch]): the drawing functions take the width for the distance of two rows, and so
    a display with a wider pitch is not served.  The two buffers do not overlap. *)
Record fb_ok (fb : fb_info_t) : Prop := {
  ok_width : 0 < width fb;
  ok_height : 0 < height fb;
  ok_pitch : fb_pitch fb = 4 * width fb;
  ok_bytes : swap_size fb = height fb * fb_pitch fb;
  ok_size : fb_size fb = swap_size fb;
  ok_fits : swap_size fb < 2 ^ 32;
  ok_apart : apart (fb_ptr fb) (swap_size fb) (swap_ptr fb) (swap_size fb);
}.
Lemma ok_swap fb : fb_ok fb -> swap_size fb = 4 * (width fb * height fb).
Proof. intros H. rewrite (ok_bytes _ H), (ok_pitch _ H). lia. Qed.

(** [fb_init] with such a display leaves the buffers as they are used from then on. *)
Lemma fb_init_ok lfb lfbs swap m fb m' :
  fb_init (lfb :: lfbs) swap m = Some (fb, m') -> 0 < l_width lfb -> 0 < l_height lfb -> l_pitch lfb = 4 * l_width lfb ->
  l_height lfb * l_pitch lfb < 2 ^ 32 -> apart FRAME_BUFFER_START (l_height lfb * l_pitch lfb) swap (l_height lfb * l_pitch lfb) -> fb_ok fb.
Proof.
  intros E Hw Hh Hp Hs Ha. unfold fb_init in E. destruct (swap =? 0); [done|]. injection E as <- _. rewrite Hp in *.
  assert (4 * l_width lfb < 2 ^ 32) by nia. assert (l_height lfb < 2 ^ 32) by nia.
  rewrite (u32_small (4 * l_width lfb)), (u32_small (l_height lfb * _)), (u32_small (l_width lfb)), (u32_small (l_height lfb)) by nia.
  constructor; cbn; done || nia.
Qed.

Section Pixels.
Context (fb : fb_info_t) (Hfb : fb_ok fb).

Definition pixel (base : Z) (m : memory) (x y : Z) : Z := load32 m (base + 4 * (y * width fb + x)).
Definition on_screen (x y : Z) : Prop := 0 <= x < width fb /\ 0 <= y < height fb.

Lemma offset_bound x y : on_screen x y -> 0 <= y * width fb + x < width fb * height fb.
Proof. intros [Hx Hy]. nia. Qed.

Lemma offset_inj x y x' y' : on_screen x y -> on_screen x' y' -> y * width fb + x = y' * width fb + x' -> x = x' /\ y = y'.
Proof. intros [Hx Hy] [Hx' Hy'] E. assert (y = y') by nia. subst. lia. Qed.

Lemma put_at_spec base x y c m x' y' : on_screen x y -> on_screen x' y' ->
  pixel base (put_at fb base x y c m) x' y' = if decide (x' = x /\ y' = y) then packed (format fb) c else pixel base m x' y'.
Proof.
  intros H H'. unfold put_at, pixel, pixel_addr. pose proof (ok_fits _ Hfb) as Hf. rewrite (ok_swap _ Hfb) in Hf.
  pose proof (offset_bound _ _ H) as Hb. pose proof H as [Hx Hy].
  rewrite (proj2 (Z.leb_gt _ _)), (proj2 (Z.leb_gt _ _)) by lia. cbn [orb]. rewrite u32_small by nia. unfold FB_BYTE_SIZE_PER_PIXEL.
  case_decide as E.
  - destruct E as [-> ->]. apply load32_put32, packed_range.
  - apply load32_agree, put32_agree. assert (y * width fb + x <> y' * width fb + x') by (intros ?%offset_inj; naive_solver).
    unfold apart. lia.
Qed.

Definition swap_pixel : memory -> Z -> Z -> Z := pixel (swap_ptr fb).

(** A rectangle of the buffer changed, each pixel to its own value. *)
Definition painted (m m' : memory) (x0 y0 w h : Z) (f : Z -> Z -> Z) : Prop :=
  forall x y, on_screen x y -> swap_pixel m' x y =
    if decide (x0 <= x < x0 + w /\ y0 <= y < y0 + h) then f (x - x0) (y - y0) else swap_pixel m x y.

Lemma painted_put x y c m : on_screen x y -> painted m (fb_putpixel fb x y c m) x y 1 1 (fun _ _ => packed (format fb) c).
Proof. intros H x' y' H'. unfold swap_pixel, fb_putpixel. rewrite put_at_spec by done. apply decide_ext. lia. Qed.

Lemma glyph_cols_spec b fg bg px y : forall n col m,
  0 <= col -> 0 <= px -> px + col + Z.of_nat n <= width fb -> 0 <= y < height fb ->
  painted m (glyph_cols (fb_putpixel fb) n px y col b fg bg m) (px + col) y (Z.of_nat n) 1
    (fun x _ => packed (format fb) (if ctrue (Z.land b (glyph_mask (col + x))) then fg else bg)).
Proof.
  induction n as [|n IH]; intros col m Hc Hp Hw Hy; cbn [glyph_cols].
  - intros x' y' H. by rewrite decide_False by lia.
  - set (c := if ctrue (Z.land b (glyph_mask col)) then fg else bg).
    assert (on_screen (px + col) y) as Hs by (unfold on_screen; lia).
    specialize (IH (col + 1) (fb_putpixel fb (px + col) y c m) ltac:(lia) Hp ltac:(lia) Hy).
    intros x' y' H. rewrite IH, painted_put by done. destruct (decide (px + (col + 1) <= x' < _ /\ _)) as [E|E].
    + rewrite decide_True by lia. by replace (col + 1 + (x' - (px + (col + 1)))) with (col + (x' - (px + col))) by lia.
    + destruct (decide (px + col <= x' < px + col + 1 /\ _)) as [E'|E'].
      * rewrite decide_True by lia. replace (col + (x' - (px + col))) with col by lia. done.
      * by rewrite decide_False by lia.
Qed.

Lemma glyph_rows_spec rows fg bg px py : forall n row m,
  0 <= row -> 0 <= px -> px + 8 <= width fb -> 0 <= py -> py + row + Z.of_nat n <= height fb ->
  painted m (glyph_rows (fb_putpixel fb) n px py row rows fg bg m) px (py + row) 8 (Z.of_nat n)
    (fun x y => packed (format fb) (if ctrue (Z.land (rows (row + y)) (glyph_mask x)) then fg else bg)).
Proof.
  induction n as [|n IH]; intros row m Hr Hp Hw Hy Hh; cbn [glyph_rows].
  - intros x' y' H. by rewrite decide_False by lia.
  - pose proof (glyph_cols_spec (rows row) fg bg px (py + row) 8 0 m ltac:(lia) Hp ltac:(lia) ltac:(lia)) as Hc.
    set (m1 := glyph_cols _ _ _ _ _ _ _ _ _) in *.
    specialize (IH (row + 1) m1 ltac:(lia) Hp Hw Hy ltac:(lia)).
    intros x' y' H. rewrite IH, Hc by done. destruct (decide (_ /\ py + (row + 1) <= y' < _)) as [E|E].
    + rewrite decide_True by lia. by replace (row + 1 + (y' - (py + (row + 1)))) with (row + (y' - (py + row))) by lia.
    + destruct (decide (px + 0 <= x' < _ /\ _)) as [E'|E'].
      * rewrite decide_True by lia. replace (row + (y' - (py + row))) with row by lia.
        replace (0 + (x' - (px + 0))) with (x' - px) by lia. done.
      * by rewrite decide_False by lia.
Qed.

Lemma clear_cols_spec bg px y : forall n x m,
  0 <= x -> 0 <= px -> px + x + Z.of_nat n <= width fb -> 0 <= y < height fb ->
  painted m (clear_cols fb n px y x bg m) (px + x) y (Z.of_nat n) 1 (fun _ _ => packed (format fb) bg).
Proof.
  induction n as [|n IH]; intros x m Hc Hp Hw Hy; cbn [clear_cols].
  - intros x' y' H. by rewrite decide_False by lia.
  - assert (on_screen (px + x) y) as Hs by (unfold on_screen; lia).
    specialize (IH (x + 1) (fb_putpixel fb (px + x) y bg m) ltac:(lia) Hp ltac:(lia) Hy).
    intros x' y' H. rewrite IH, painted_put by done. destruct (decide (px + (x + 1) <= x' < _ /\ _)) as [E|E].
    + by rewrite decide_True by lia.
    + apply decide_ext. lia.
Qed.

Lemma clear_rows_spec bg w px py : forall n y m,
  0 <= y -> 0 <= px -> px + Z.of_nat w <= width fb -> 0 <= py -> py + y + Z.of_nat n <= height fb ->
  painted m (clear_rows fb n w px py y bg m) px (py + y) (Z.of_nat w) (Z.of_nat n) (fun _ _ => packed (format fb) bg).
Proof.
  induction n as [|n IH]; intros y m Hr Hp Hw Hy Hh; cbn [clear_rows].
  - intros x' y' H. by rewrite decide_False by lia.
  - pose proof (clear_cols_spec bg px (py + y) w 0 m ltac:(lia) Hp ltac:(lia) ltac:(lia)) as Hc.
    set (m1 := clear_cols _ _ _ _ _ _ _) in *. specialize (IH (y + 1) m1 ltac:(lia) Hp Hw Hy ltac:(lia)).
    intros x' y' H. rewrite IH, Hc by done. destruct (decide (_ /\ py + (y + 1) <= y' < _)) as [E|E].
    + by rewrite decide_True by lia.
    + apply decide_ext. lia.
Qed.

(** ** Scrolling, clearing, copying *)

Lemma load32_zero m p : (forall j, 0 <= j < 4 -> m (p + j) = 0) -> load32 m p = 0.
Proof.
  intros H. unfold load32. replace (m <$> seqZ p 4) with [0; 0; 0; 0]; [done|].
  change (seqZ p 4) with [0 + p; 1 + p; 2 + p; 3 + p]. cbn [fmap list_fmap].
  replace (0 + p) with (p + 0) by lia. replace (1 + p) with (p + 1) by lia. replace (2 + p) with (p + 2) by lia.
  replace (3 + p) with (p + 3) by lia. by rewrite !H by lia.
Qed.

Lemma load32_shift m m' p q : (forall j, 0 <= j < 4 -> m' (p + j) = m (q + j)) -> load32 m' p = load32 m q.
Proof.
  intros H. unfold load32. f_equal. apply list_eq. intros j. rewrite !list_lookup_fmap. destruct (decide (j < 4)%nat).
  - rewrite !lookup_seqZ_lt by lia. cbn. f_equal. apply H. lia.
  - by rewrite !lookup_seqZ_ge by lia.
Qed.

Lemma fb_scroll_spec rows m x y :
  0 < rows < height fb -> on_screen x y ->
  swap_pixel (fb_scroll fb rows m) x y = if decide (y + rows < height fb) then swap_pixel m x (y + rows) else 0.
Proof.
  intros Hr H. pose proof (ok_width _ Hfb) as Hwd. pose proof (ok_fits _ Hfb) as Hf. pose proof (ok_swap _ Hfb) as Hs.
  unfold fb_scroll, FB_BYTE_SIZE_PER_PIXEL. rewrite (u32_small (rows * width fb)), (u32_small (rows * width fb * 4)) by nia.
  rewrite (proj2 (Z.eqb_neq _ _)), (proj2 (Z.leb_gt _ _)) by nia. cbn [orb].
  set (skip := rows * width fb * 4). set (keep := swap_size fb - skip). set (base := swap_ptr fb).
  assert (0 <= skip /\ 0 <= keep) as [? ?] by (unfold keep, skip; nia).
  pose proof (byte_copy_spec m base (base + skip) keep ltac:(lia) (Z.to_nat keep) m 0 ltac:(lia) ltac:(lia) (copied_refl _ _ _)) as Hc.
  set (m1 := byte_copy _ _ _ _ _) in *. pose proof (offset_bound _ _ H) as Hb.
  rewrite Z2Nat.id in Hc by lia. unfold swap_pixel, pixel. fold base. case_decide as E.
  - assert (4 * (y * width fb + x) + 4 <= keep) by (unfold keep, skip; destruct H; nia).
    apply load32_shift. intros j Hj. rewrite memset_spec, decide_False, Hc, decide_True by lia. f_equal. unfold skip. lia.
  - assert (keep <= 4 * (y * width fb + x)) by (unfold keep, skip; destruct H; nia).
    assert (4 * (y * width fb + x) + 4 <= swap_size fb) by lia.
    apply load32_zero. intros j Hj. rewrite memset_spec, decide_True by lia. done.
Qed.

Lemma fb_clear_spec m x y : on_screen x y -> swap_pixel (fb_clear fb m) x y = 0.
Proof.
  intros H. pose proof (offset_bound _ _ H). pose proof (ok_swap _ Hfb). apply load32_zero. intros j Hj.
  unfold fb_clear. by rewrite memset_spec, decide_True by lia.
Qed.

Lemma fb_flush_spec m x y : on_screen x y ->
  pixel (fb_ptr fb) (fb_flush fb m) x y = swap_pixel m x y /\ swap_pixel (fb_flush fb m) x y = swap_pixel m x y.
Proof.
  intros H. pose proof (offset_bound _ _ H). pose proof (ok_swap _ Hfb). pose proof (ok_size _ Hfb). pose proof (ok_apart _ Hfb) as Ha.
  unfold apart in Ha. unfold fb_flush, swap_pixel, pixel.
  assert (copied m m (memcpy m (fb_ptr fb) (swap_ptr fb) (fb_size fb)) (fb_ptr fb) (swap_ptr fb) (fb_size fb)) as Hc
    by (apply memcpy_copied; lia).
  split; apply load32_shift; intros j Hj; rewrite Hc.
  - rewrite decide_True by lia. f_equal. lia.
  - by rewrite decide_False by lia.
Qed.
End Pixels.

(** ** A text screen *)

(** A cell is black after scrolling, cleared by a backspace, or a character. *)
Inductive cell := Blank | Cleared (bg : Z) | Char (ch fg bg : Z) (bd : bool).

Record screen := Screen { cells : Z -> Z -> cell; cur_x : Z; cur_y : Z; s_fg : Z; s_bg : Z; s_prev : Z; s_bold : bool }.

Inductive term_op :=
  | TPutch (color ch : Z) | TWrite (str : list Z) | TWriteN (str : list Z) | TBack | TNewline | TClear | TFlush | TRefresh
  | TFg (c : Z) | TBg (c : Z) | TBold (b : bool) | TPush (c : Z) | TPop.

Section Screen.
Context (font_size : Z) (font_data : bool -> Z -> Z) (fb : fb_info_t) (Hfb : fb_ok fb).
Context (Hfont : 0 < font_size < height fb) (Hbyte : font_size < 2 ^ 8) (Hwide : 8 <= width fb).

Definition cols : Z := width fb / 8.
Definition lines : Z := height fb / font_size.

Definition cell_pixel (c : cell) (x y : Z) : Z :=
  match c with
  | Blank => 0
  | Cleared bg => packed (format fb) bg
  | Char ch fg bg bd =>
    packed (format fb) (if ctrue (Z.land (glyph font_size font_data bd ch y) (glyph_mask x)) then fg else bg)
  end.

Definition move (x y : Z) (sc : screen) : screen := Screen (cells sc) x y (s_fg sc) (s_bg sc) (s_prev sc) (s_bold sc).
Definition set_cells (f : Z -> Z -> cell) (sc : screen) : screen :=
  Screen f (cur_x sc) (cur_y sc) (s_fg sc) (s_bg sc) (s_prev sc) (s_bold sc).
Definition set_pen (fg bg prev : Z) (b : bool) (sc : screen) : screen := Screen (cells sc) (cur_x sc) (cur_y sc) fg bg prev b.

Definition set_cell (x y : Z) (c : cell) (f : Z -> Z -> cell) : Z -> Z -> cell :=
  fun x' y' => if decide (x' = x /\ y' = y) then c else f x' y'.
Definition scroll_cells (f : Z -> Z -> cell) : Z -> Z -> cell :=
  fun x y => if decide (y + 1 < lines) then f x (y + 1) else Blank.

(** The start of the next line; the last line scrolls the text. *)
Definition line_feed (sc : screen) : screen :=
  if decide (cur_y sc + 1 < lines) then move 0 (cur_y sc + 1) sc else move 0 (cur_y sc) (set_cells (scroll_cells (cells sc)) sc).

Definition put_char (color ch : Z) (sc : screen) : screen :=
  if ch =? chr_nl then line_feed sc else
  let sc := if decide (cur_x sc < cols) then sc else line_feed sc in
  move (cur_x sc + 1) (cur_y sc)
    (set_cells (set_cell (cur_x sc) (cur_y sc) (Char ch (if ctrue color then color else s_fg sc) (s_bg sc) (s_bold sc)) (cells sc)) sc).
Definition put_any (color ch : Z) (sc : screen) : screen :=
  if ch =? chr_tab then Nat.iter (Z.to_nat (8 - cur_x sc mod 8)) (put_char color chr_space) sc else put_char color ch sc.

Definition back (sc : screen) : screen :=
  let erase x y := move x y (set_cells (set_cell x y (Cleared (s_bg sc)) (cells sc)) sc) in
  if decide (0 < cur_x sc) then erase (cur_x sc - 1) (cur_y sc)
  else if decide (0 < cur_y sc) then erase (cols - 1) (cur_y sc - 1) else sc.

Definition screen_op (o : term_op) (sc : screen) : screen :=
  match o with
  | TPutch color ch => put_any color ch sc
  | TWrite str | TWriteN str => fold_left (fun sc ch => put_any 0 ch sc) str sc
  | TBack => back sc
  | TNewline => line_feed sc
  | TFlush | TRefresh => sc
  | TClear => move 0 0 (set_cells (fun _ _ => Blank) sc)
  | TFg c => set_pen c (s_bg sc) (s_prev sc) (s_bold sc) sc
  | TBg c => set_pen (s_fg sc) c (s_prev sc) (s_bold sc) sc
  | TBold b => set_pen (s_fg sc) (s_bg sc) (s_prev sc) b sc
  | TPush c => set_pen c (s_bg sc) (s_fg sc) (s_bold sc) sc
  | TPop => set_pen (s_prev sc) (s_bg sc) 0 (s_bold sc) sc
  end.

Definition on_pen (f : term_info_t -> term_info_t) (s : tstate) : tstate := (f s.1, s.2).
Definition do_op (o : term_op) (s : tstate) : tstate :=
  match o with
  | TPutch color ch => term_putch font_size font_data fb color ch s
  | TWrite str => term_write font_size font_data fb str s
  | TWriteN str => term_write_n font_size font_data fb str s
  | TBack => term_back fb s
  | TNewline => term_newline fb s
  | TClear => term_clear fb s
  | TFlush => term_flush fb s
  | TRefresh => term_refresh fb s
  | TFg c => on_pen (term_set_fgcolor c) s
  | TBg c => on_pen (term_set_bgcolor c) s
  | TBold b => on_pen (term_set_bold b) s
  | TPush c => on_pen (term_set_fgcolor_prev c) s
  | TPop => on_pen term_restore_fgcolor s
  end.

(** A buffer shows the cells, and nothing below the last line. *)
Definition shows_cells (base : Z) (m : memory) (f : Z -> Z -> cell) : Prop :=
  (forall cx cy x y, 0 <= cx < cols -> 0 <= cy < lines -> 0 <= x < 8 -> 0 <= y < font_size ->
     pixel fb base m (cx * 8 + x) (cy * font_size + y) = cell_pixel (f cx cy) x y) /\
  (forall x y, 0 <= x < width fb -> lines * font_size <= y < height fb -> pixel fb base m x y = 0).

(** The state of the terminal is that of the screen. *)
Record shows (s : tstate) (sc : screen) : Prop := {
  sh_geometry : ch_width s.1 = cols /\ ch_height s.1 = lines /\ font_width s.1 = 8 /\ font_height s.1 = font_size;
  sh_cursor : ch_x s.1 = cur_x sc /\ ch_y s.1 = cur_y sc;
  sh_pen : fgcolor s.1 = s_fg sc /\ bgcolor s.1 = s_bg sc /\ prev_fgcolor s.1 = s_prev sc /\ bold s.1 = s_bold sc;
  sh_range : 0 <= cur_x sc <= cols /\ 0 <= cur_y sc < lines;
  sh_cells : shows_cells (swap_ptr fb) s.2 (cells sc);
}.

Lemma geometry : 0 < cols /\ cols * 8 <= width fb /\ 0 < lines /\ lines * font_size <= height fb.
Proof.
  unfold cols, lines. split_and!; [|Z.to_euclidean_division_equations; lia| |Z.to_euclidean_division_equations; nia].
  - apply Z.div_str_pos. lia.
  - apply Z.div_str_pos. lia.
Qed.

Lemma cell_bounds cx cy : 0 <= cx < cols -> 0 <= cy < lines ->
  0 <= cx * 8 /\ cx * 8 + 8 <= width fb /\ 0 <= cy * font_size /\ cy * font_size + font_size <= lines * font_size /\ lines * font_size <= height fb.
Proof. intros. pose proof geometry. nia. Qed.

Lemma cell_on_screen cx cy x y : 0 <= cx < cols -> 0 <= cy < lines -> 0 <= x < 8 -> 0 <= y < font_size ->
  on_screen fb (cx * 8 + x) (cy * font_size + y).
Proof. intros Hx Hy ? ?. pose proof (cell_bounds cx cy Hx Hy). unfold on_screen. lia. Qed.

(** Painting one cell changes that cell. *)
Lemma paint_cell m m' cx cy c f :
  0 <= cx < cols -> 0 <= cy < lines -> shows_cells (swap_ptr fb) m f ->
  painted fb m m' (cx * 8) (cy * font_size) 8 font_size (cell_pixel c) -> shows_cells (swap_ptr fb) m' (set_cell cx cy c f).
Proof.
  intros Hx Hy [Hc Hr] Hp. pose proof (cell_bounds cx cy Hx Hy) as Hb. split.
  - intros cx' cy' x y Hx' Hy' Hx8 Hyf. change (pixel fb (swap_ptr fb)) with (swap_pixel fb). rewrite Hp by by apply cell_on_screen.
    unfold set_cell. destruct (decide (cx' = cx /\ cy' = cy)) as [[-> ->]|Hne].
    + rewrite decide_True by lia. f_equal; lia.
    + rewrite decide_False; [by apply Hc|]. intros [H1 H2]. apply Hne. split; nia.
  - intros x y Hx' Hy'. change (pixel fb (swap_ptr fb)) with (swap_pixel fb). rewrite Hp by (unfold on_screen; lia).
    rewrite decide_False by lia. by apply Hr.
Qed.

Lemma scroll_shows m f : shows_cells (swap_ptr fb) m f ->
  shows_cells (swap_ptr fb) (_scroll_up fb font_size m) (scroll_cells f).
Proof.
  intros [Hc Hr]. pose proof geometry as (Hg1 & Hg2 & Hg3 & Hg4). unfold _scroll_up. rewrite u32_small by lia.
  change (pixel fb (swap_ptr fb)) with (swap_pixel fb) in *. split.
  - intros cx cy x y Hx Hy Hx8 Hyf. pose proof (cell_on_screen cx cy x y Hx Hy Hx8 Hyf) as Hs.
    change (pixel fb (swap_ptr fb)) with (swap_pixel fb). rewrite (fb_scroll_spec fb Hfb) by (done || lia). unfold scroll_cells.
    destruct (decide (cy + 1 < lines)) as [Hl|Hl].
    + rewrite decide_True by nia. replace (cy * font_size + y + font_size) with ((cy + 1) * font_size + y) by lia.
      apply Hc; [lia..|done|lia].
    + case_decide; [|done]. apply Hr; [unfold on_screen in Hs; lia|nia].
  - intros x y Hx Hy. change (pixel fb (swap_ptr fb)) with (swap_pixel fb). rewrite (fb_scroll_spec fb Hfb) by (unfold on_screen; lia).
    case_decide; [|done]. apply Hr; lia.
Qed.

Lemma newline_shows s sc : shows s sc -> shows (term_newline fb s) (line_feed sc).
Proof.
  destruct s as [g m]. intros [(G1 & G2 & G3 & G4) (C1 & C2) Hp (R1 & R2) Hc]. cbn in *. pose proof geometry as Hg.
  unfold term_newline, line_feed. cbn. rewrite G2, C2. destruct (Z.leb_spec lines (cur_y sc + 1)) as [Hl|Hl].
  - rewrite decide_False by lia. constructor; cbn; [done|lia|done|lia|]. rewrite G4. by apply scroll_shows.
  - rewrite decide_True by lia. constructor; cbn; [done|lia|done|lia|done].
Qed.

(** A glyph at the cursor. *)
Lemma draw_shows g m sc ch fg :
  shows (g, m) sc -> cur_x sc < cols ->
  shows (set_xy (ch_x g + 1) (ch_y g) g,
         _draw_glyph font_size font_data fb g (ch_x g * font_width g) (ch_y g * font_height g) ch fg (bgcolor g) m)
    (move (cur_x sc + 1) (cur_y sc) (set_cells (set_cell (cur_x sc) (cur_y sc) (Char ch fg (s_bg sc) (s_bold sc)) (cells sc)) sc)).
Proof.
  intros [(G1 & G2 & G3 & G4) (C1 & C2) (P1 & P2 & P3 & P4) (R1 & R2) Hc] Hx. cbn in *. rewrite G3, G4, C1, C2, P2.
  pose proof (cell_bounds (cur_x sc) (cur_y sc) ltac:(lia) R2) as Hb.
  constructor; cbn; [done|lia|done|lia|]. apply (paint_cell m); [lia|lia|done|]. unfold _draw_glyph, _draw_glyph_to. rewrite P4.
  pose proof (glyph_rows_spec fb Hfb (glyph font_size font_data (s_bold sc) ch) fg (s_bg sc) (cur_x sc * 8) (cur_y sc * font_size)
    (Z.to_nat font_size) 0 m ltac:(lia) ltac:(lia) ltac:(lia) ltac:(lia) ltac:(lia)) as H.
  rewrite Z.add_0_r, Z2Nat.id in H by lia. exact H.
Qed.

Lemma putch_plain_eq color ch s :
  putch_plain font_size font_data fb color ch s =
  if ch =? chr_nl then term_newline fb s else
  let '(g, m) := if ch_width s.1 <=? ch_x s.1 then term_newline fb s
                 else if ch_height s.1 <=? ch_y s.1 then _advance_line fb s else s in
  (set_xy (ch_x g + 1) (ch_y g) g,
   _draw_glyph font_size font_data fb g (ch_x g * font_width g) (ch_y g * font_height g) ch
     (if ctrue color then color else fgcolor s.1) (bgcolor g) m).
Proof.
  destruct s as [g m]. unfold putch_plain, term_newline. cbn [fst]. destruct (ch =? chr_nl).
  - destruct (_ <=? _); [|done]. by destruct (_advance_line fb _).
  - destruct (ch_width g <=? ch_x g); [|done]. destruct (_ <=? _); [|done]. by destruct (_advance_line fb _).
Qed.

Lemma put_char_shows color ch s sc : shows s sc -> shows (putch_plain font_size font_data fb color ch s) (put_char color ch sc).
Proof.
  intros Hs. rewrite putch_plain_eq. unfold put_char. destruct (ch =? chr_nl); [by apply newline_shows|].
  pose proof Hs as [(G1 & G2 & G3 & G4) (C1 & C2) (P1 & P2 & P3 & P4) (R1 & R2) Hc]. rewrite G1, C1, G2, C2, P1.
  destruct (Z.leb_spec cols (cur_x sc)) as [Hl|Hl].
  - rewrite decide_False by lia. pose proof (newline_shows s sc Hs) as Hn. destruct (term_newline fb s) as [g m] eqn:E.
    assert (s_fg (line_feed sc) = s_fg sc) as <- by (unfold line_feed; by case_decide).
    apply draw_shows; [done|]. unfold line_feed. pose proof geometry. case_decide; cbn; lia.
  - rewrite decide_True by lia. rewrite (proj2 (Z.leb_gt _ _)) by lia. destruct s as [g m]. by apply draw_shows.
Qed.

Lemma put_any_shows color ch s sc : shows s sc -> shows (_term_putch_locked font_size font_data fb color ch s) (put_any color ch sc).
Proof.
  intros Hs. unfold _term_putch_locked, put_any, tab_count. destruct (ch =? chr_tab); [|by apply put_char_shows].
  pose proof Hs as [_ (C1 & _) _ (R1 & _) _]. rewrite C1, Z.rem_mod_nonneg by lia.
  generalize (Z.to_nat (8 - cur_x sc mod 8)). intros n. induction n as [|n IH]; [done|]. rewrite !Nat.iter_succ. by apply put_char_shows.
Qed.

Lemma write_shows str : forall s sc, shows s sc ->
  shows (term_write font_size font_data fb str s) (fold_left (fun sc ch => put_any 0 ch sc) str sc).
Proof.
  unfold term_write. induction str as [|ch str IH]; intros s sc Hs; cbn; [done|]. by apply IH, put_any_shows.
Qed.

(** The cursor back on a cell that is cleared. *)
Lemma erase_shows g m sc x y :
  shows (g, m) sc -> 0 <= x < cols -> 0 <= y < lines ->
  shows (set_xy x y g, _clear_cell fb (set_xy x y g) x y m) (move x y (set_cells (set_cell x y (Cleared (s_bg sc)) (cells sc)) sc)).
Proof.
  intros [(G1 & G2 & G3 & G4) (C1 & C2) (P1 & P2 & P3 & P4) (R1 & R2) Hc] Hx Hy. cbn in *.
  pose proof (cell_bounds x y Hx Hy) as Hb. constructor; cbn; [done|done|done|lia|].
  apply (paint_cell m); [done..|]. unfold _clear_cell. cbn. rewrite G3, G4, P2.
  pose proof (clear_rows_spec fb Hfb (s_bg sc) 8 (x * 8) (y * font_size) (Z.to_nat font_size) 0 m
    ltac:(lia) ltac:(lia) ltac:(lia) ltac:(lia) ltac:(lia)) as H.
  rewrite Z.add_0_r, Z2Nat.id in H by lia. exact H.
Qed.

Lemma back_shows s sc : shows s sc -> shows (term_back fb s) (back sc).
Proof.
  intros Hs. destruct s as [g m]. pose proof Hs as [(G1 & _) (C1 & C2) _ (R1 & R2) _]. cbn in *. pose proof geometry.
  unfold term_back, back. rewrite C1, C2, G1. destruct (Z.ltb_spec 0 (cur_x sc)).
  - rewrite decide_True by lia. cbn. apply erase_shows; [done|lia..].
  - rewrite decide_False by lia. destruct (Z.ltb_spec 0 (cur_y sc)).
    + rewrite decide_True by lia. cbn. apply erase_shows; [done|lia..].
    + by rewrite decide_False by lia.
Qed.

Lemma flush_shows base m f : shows_cells (swap_ptr fb) m f -> base = swap_ptr fb \/ base = fb_ptr fb -> shows_cells base (fb_flush fb m) f.
Proof.
  intros [Hc Hr] Hb. pose proof geometry as (Hg1 & Hg2 & Hg3 & Hg4). assert (forall x y, on_screen fb x y -> pixel fb base (fb_flush fb m) x y = pixel fb (swap_ptr fb) m x y) as H.
  { intros x y Hs. destruct (fb_flush_spec fb Hfb m x y Hs) as [H1 H2]. destruct Hb as [-> | ->]; done. }
  split.
  - intros cx cy x y Hx Hy Hx8 Hyf. rewrite H by by apply cell_on_screen. by apply Hc.
  - intros x y Hx Hy. rewrite H by (unfold on_screen; lia). by apply Hr.
Qed.

Lemma clear_shows s sc : shows s sc -> shows (term_clear fb s) (move 0 0 (set_cells (fun _ _ => Blank) sc)).
Proof.
  intros [(G1 & G2 & G3 & G4) (C1 & C2) Hp (R1 & R2) Hc]. pose proof geometry. constructor; cbn; [done|done|done|lia|].
  apply flush_shows; [|by left]. split.
  - intros cx cy x y Hx Hy Hx8 Hyf. by apply (fb_clear_spec fb Hfb), cell_on_screen.
  - intros x y Hx Hy. apply (fb_clear_spec fb Hfb). unfold on_screen. lia.
Qed.

(** Bytes outside of the buffer do not matter. *)
Lemma cells_agree base m m' f :
  (forall q, base <= q < base + swap_size fb -> m' q = m q) -> shows_cells base m f -> shows_cells base m' f.
Proof.
  intros Ha [Hc Hr]. pose proof (ok_swap _ Hfb) as Hs. pose proof geometry as (Hg1 & Hg2 & Hg3 & Hg4).
  assert (forall x y, on_screen fb x y -> pixel fb base m' x y = pixel fb base m x y) as Hp.
  { intros x y Ho. pose proof (offset_bound fb x y Ho). unfold pixel. apply load32_agree. intros j Hj. apply Ha. lia. }
  split.
  - intros cx cy x y Hx Hy Hx8 Hyf. rewrite Hp by by apply cell_on_screen. by apply Hc.
  - intros x y Hx Hy. rewrite Hp by (unfold on_screen; lia). by apply Hr.
Qed.

Lemma refresh_shows s sc : shows s sc -> shows (term_refresh fb s) sc.
Proof.
  destruct s as [g m]. intros Hs. unfold term_refresh. destruct (_ && _); [done|]. destruct Hs as [Hg Hc Hp Hr Hcells].
  constructor; [done..|]. cbn. set (a := u32 _). set (b := u32 _). unfold fb_flush_region, region_ok.
  destruct (_ && _) eqn:E; [|done]. rewrite andb_true_iff, !negb_true_iff, orb_false_iff, Z.leb_gt, Z.ltb_ge, Z.leb_gt in E.
  pose proof (u32_range (i32 (ch_y_prev g * i32 (font_height g * font_width g * ch_width g * FB_BYTE_SIZE_PER_PIXEL)))) as Ha. fold a in Ha.
  pose proof (ok_size _ Hfb). pose proof (ok_apart _ Hfb) as Hap. unfold apart in Hap. apply (cells_agree _ m); [|done]. intros q Hq.
  apply agree_at, memcpy_agree; unfold apart; lia.
Qed.

(** The terminal as it is started, on a cleared buffer. *)
Definition start_screen : screen := Screen (fun _ _ => Blank) 0 0 COLOR_WHITE COLOR_BLACK 0 false.

Lemma start_shows m : shows (term_clear fb (term_init font_size fb, m)) start_screen.
Proof.
  pose proof geometry. constructor; [done..|cbn; lia|]. cbn. apply flush_shows; [|by left]. split.
  - intros cx cy x y Hx Hy Hx8 Hyf. by apply (fb_clear_spec fb Hfb), cell_on_screen.
  - intros x y Hx Hy. apply (fb_clear_spec fb Hfb). unfold on_screen. lia.
Qed.

Lemma op_shows o s sc : shows s sc -> shows (do_op o s) (screen_op o sc).
Proof.
  intros Hs. destruct o as [color ch|str|str| | | | | |c|c|b|c|]; cbn [do_op screen_op].
  - by apply put_any_shows.
  - by apply write_shows.
  - by apply write_shows.
  - by apply back_shows.
  - by apply newline_shows.
  - by apply clear_shows.
  - destruct Hs. constructor; [done..|]. apply flush_shows; [done|by left].
  - by apply refresh_shows.
  - destruct Hs as [? ? (P1 & P2 & P3 & P4) ? ?]. by constructor.
  - destruct Hs as [? ? (P1 & P2 & P3 & P4) ? ?]. by constructor.
  - destruct Hs as [? ? (P1 & P2 & P3 & P4) ? ?]. by constructor.
  - destruct Hs as [? ? (P1 & P2 & P3 & P4) ? ?]. by constructor.
  - destruct Hs as [? ? (P1 & P2 & P3 & P4) ? ?]. by constructor.
Qed.

(** C10. The terminal is a text screen, on a display whose rows follow each other without padding ([fb_ok]: the pitch is four bytes for each pixel of a row) and
    that has room for more than one row of glyphs.  From the cleared terminal on, any sequence of writing, backspaces, new lines, clearing, flushing,
    refreshing and changes of colours keeps the cursor inside the screen and the buffer the picture of the grid of characters that the same
    sequence makes of an empty text screen, and [term_flush] puts that picture on the display.  What [term_refresh] alone puts there is not stated. *)
Theorem terminal_refines ops m :
  let s := fold_left (fun s o => do_op o s) ops (term_clear fb (term_init font_size fb, m)) in
  let sc := fold_left (fun sc o => screen_op o sc) ops start_screen in
  shows s sc /\ shows (term_flush fb s) sc /\ shows_cells (fb_ptr fb) (term_flush fb s).2 (cells sc).
Proof.
  intros s sc. assert (shows s sc) as Hs.
  { unfold s, sc. generalize (start_shows m). generalize (term_clear fb (term_init font_size fb, m)) start_screen.
    induction ops as [|o ops IH]; intros s0 sc0 H0; cbn; [done|]. by apply IH, op_shows. }
  split; [done|]. destruct Hs as [H1 H2 H3 H4 H5]. split; [constructor; [done..|]|]; cbn; (apply flush_shows; [done|auto]).
Qed.
(** *** The screen of a panic *)

Lemma flush_nolock_shows m f : shows_cells (swap_ptr fb) m f -> shows_cells (swap_ptr fb) (fb_flush_nolock fb m) f.
Proof. intros Hc. unfold fb_flush_nolock. destruct (_ || _); [done|]. apply flush_shows; [done..|by left]. Qed.

(** The start of the next line, with the buffer copied or not. *)
Lemma panic_line_shows (k : memory -> memory) g m sc :
  (forall m f, shows_cells (swap_ptr fb) m f -> shows_cells (swap_ptr fb) (k m) f) -> shows (g, m) sc ->
  shows (let g := set_xy 0 (ch_y g + 1) g in
         if ch_height g <=? ch_y g then (set_xy 0 (ch_y g - 1) g, k (fb_scroll_nolock fb (u32 (font_height g)) m)) else (g, m))
    (line_feed sc).
Proof.
  intros Hk [(G1 & G2 & G3 & G4) (C1 & C2) Hp (R1 & R2) Hc]. cbn in *. pose proof geometry as Hg.
  unfold line_feed. rewrite G2, C2. destruct (Z.leb_spec lines (cur_y sc + 1)) as [Hl|Hl].
  - rewrite decide_False by lia. constructor; cbn; [done|lia|done|lia|]. rewrite G4. apply Hk. by apply scroll_shows.
  - rewrite decide_True by lia. constructor; cbn; [done|lia|done|lia|done].
Qed.

Lemma panic_plain_shows ch s sc : shows s sc -> shows (panic_plain font_size font_data fb ch s) (put_char 0 ch sc).
Proof.
  destruct s as [g m]. intros Hs. unfold panic_plain, put_char. destruct (ch =? chr_nl).
  { apply (panic_line_shows (fb_flush_nolock fb)); [apply flush_nolock_shows|done]. }
  pose proof Hs as [(G1 & G2 & G3 & G4) (C1 & C2) (P1 & P2 & P3 & P4) (R1 & R2) Hc]. cbn in G1, C1, P1.
  rewrite G1, C1. cbn [ctrue Z.eqb negb]. destruct (Z.leb_spec (cols) (cur_x sc)) as [Hl|Hl].
  - rewrite decide_False by lia. pose proof (panic_line_shows (fun m => m) g m sc ltac:(done) Hs) as Hn. cbv zeta in Hn.
    assert (fgcolor (let g := set_xy 0 (ch_y g + 1) g in
         if ch_height g <=? ch_y g then (set_xy 0 (ch_y g - 1) g, fb_scroll_nolock fb (u32 (font_height g)) m) else (g, m)).1 = fgcolor g) as Hf
      by (cbv zeta; by destruct (_ <=? _)). cbv zeta in Hf.
    destruct (if ch_height _ <=? _ then _ else _) as [g' m']. cbn [fst] in Hf. rewrite Hf, P1.
    assert (s_fg (line_feed sc) = s_fg sc) as <- by (unfold line_feed; by case_decide).
    apply draw_shows; [done|]. unfold line_feed.
    pose proof geometry. case_decide; cbn; lia.
  - rewrite decide_True, P1 by lia. by apply draw_shows.
Qed.

Lemma prev_shows x y s sc : shows s sc -> shows (set_prev x y s.1, s.2) sc.
Proof. by intros [? ? ? ? ?]. Qed.

Lemma panic_space_shows s sc : shows s sc -> shows (panic_space font_size font_data fb s) (put_char 0 chr_space sc).
Proof.
  intros Hs. unfold panic_space. pose proof (panic_plain_shows chr_space _ _ (prev_shows 0 0 s sc Hs)) as H.
  destruct (panic_plain _ _ _ _ _) as [g m]. destruct H. constructor; [done..|]. by apply flush_nolock_shows.
Qed.

Lemma panic_putch_shows ch s sc : shows s sc -> shows (panic_putch font_size font_data fb ch s) (put_any 0 ch sc).
Proof.
  intros Hs. unfold panic_putch, put_any, tab_count. destruct (ch =? chr_tab); [|by apply panic_plain_shows].
  pose proof Hs as [_ (C1 & _) _ (R1 & _) _]. rewrite C1, Z.rem_mod_nonneg by lia.
  generalize (Z.to_nat (8 - cur_x sc mod 8)). intros n. induction n as [|n IH]; [done|]. rewrite !Nat.iter_succ. by apply panic_space_shows.
Qed.

(** A message of the panic is written like any other text, and is on the display. *)
Lemma panic_write_shows str s sc : shows s sc ->
  let s' := term_panic_write font_size font_data fb str s in
  let sc' := fold_left (fun sc ch => put_any 0 ch sc) str sc in
  shows s' sc' /\ (fb_ptr fb <> 0 -> swap_ptr fb <> 0 -> shows_cells (fb_ptr fb) s'.2 (cells sc')).
Proof.
  intros Hs. unfold term_panic_write. apply (prev_shows 0 0) in Hs. revert Hs. generalize (set_prev 0 0 s.1, s.2). clear s. intros s Hs. cbv zeta.
  assert (shows (fold_left (fun s ch => panic_putch font_size font_data fb ch s) str s) (fold_left (fun sc ch => put_any 0 ch sc) str sc)) as H.
  { revert s sc Hs. induction str as [|ch str IH]; intros s sc Hs; cbn; [done|]. by apply IH, panic_putch_shows. }
  destruct (fold_left (fun s ch => panic_putch font_size font_data fb ch s) str s) as [g m]. destruct H as [H1 H2 H3 H4 H5]. split.
  - constructor; [done..|]. by apply flush_nolock_shows.
  - intros F1 F2. cbn in *. unfold fb_flush_nolock. rewrite !(proj2 (Z.eqb_neq _ 0)) by done. cbn [orb]. apply flush_shows; [done..|by right].
Qed.
End Screen.

(** ** A screen of two lines of two characters

    The font has two rows, and below the second line one row of pixels is left. *)
Definition demo_fb : fb_info_t := FbInfo 1000 0 320 0 16 5 64 PIXEL_RGB 4096 2000 320 16 8 0.
Definition demo_font (bd : bool) (i : Z) : Z := if bd then 255 else u8 i.

Lemma demo_fb_ok : fb_ok demo_fb.
Proof. constructor; try done. left. cbn. lia. Qed.

(** Five characters in green scroll the first line away; the second cell of the last line is erased again. *)
Definition demo_ops : list term_op := [TFg COLOR_GREEN; TWrite [65; 66; 67; 68; 69; 70]; TBack].

Lemma terminal_refines_witness :
  let s := fold_left (fun s o => do_op 2 demo_font demo_fb o s) demo_ops (term_clear demo_fb (term_init 2 demo_fb, fun _ => 0)) in
  (ch_x s.1, ch_y s.1) = (1, 1) /\
  forall x y, 0 <= x < 8 -> 0 <= y < 2 ->
    pixel demo_fb 1000 (term_flush demo_fb s).2 x (2 + y) = cell_pixel 2 demo_font demo_fb (Char 69 COLOR_GREEN COLOR_BLACK false) x y.
Proof.
  destruct (terminal_refines 2 demo_font demo_fb demo_fb_ok ltac:(done) ltac:(done) ltac:(done) demo_ops (fun _ => 0))
    as (H1 & _ & [H2 _]).
  split.
  - destruct H1 as [_ [E1 E2] _ _ _]. exact (f_equal2 pair E1 E2).
  - intros x y Hx Hy. specialize (H2 0 1 x y ltac:(done) ltac:(done) Hx Hy). exact H2.
Defined.

(** ** The screen of a panic *)

Lemma fill_row_agree n : forall p v m q k, apart p (4 * Z.of_nat n) q k -> agree m (fill_row n p v m) q k.
Proof.
  induction n as [|n IH]; intros p v m q k Ha; cbn [fill_row]; [by intros ? ?|]. unfold FB_BYTE_SIZE_PER_PIXEL. unfold apart in Ha.
  eapply agree_trans; [|apply IH; unfold apart; lia]. apply put32_agree. unfold apart. lia.
Qed.

Lemma fill_rows_agree fb base x cols v q k : fb_ok fb -> 0 <= x -> x + Z.of_nat cols <= width fb ->
  apart base (swap_size fb) q k -> forall n row m, 0 <= row -> row + Z.of_nat n <= height fb ->
  agree m (fill_rows fb n base x row cols v m) q k.
Proof.
  intros Hfb Hx Hc Ha. pose proof (ok_swap _ Hfb). pose proof (ok_fits _ Hfb). pose proof (ok_width _ Hfb).
  induction n as [|n IH]; intros row m Hr Hn; cbn [fill_rows]; [by intros ? ?|].
  eapply agree_trans; [|apply IH; lia]. apply fill_row_agree. unfold pixel_addr, FB_BYTE_SIZE_PER_PIXEL.
  rewrite u32_small by nia. assert (0 <= row * width fb + x /\ row * width fb + x + Z.of_nat cols <= width fb * height fb) by nia.
  unfold apart in *. lia.
Qed.

(** The panic clears the display but not the buffer, which the next message copies over it: the old picture comes back. *)
Lemma panic_clear_undone fsize font fb s x y :
  fb_ok fb -> fb_ptr fb <> 0 -> swap_ptr fb <> 0 -> width fb < 2 ^ 32 -> height fb < 2 ^ 32 -> on_screen fb x y ->
  pixel fb (fb_ptr fb) (term_panic_write fsize font fb [] (term_panic_clear fb s)).2 x y = pixel fb (swap_ptr fb) s.2 x y.
Proof.
  intros Hfb H1 H2 Hw Hh Hs. pose proof (ok_width _ Hfb). pose proof (ok_height _ Hfb). pose proof (ok_swap _ Hfb).
  pose proof (offset_bound fb x y Hs) as Ho. cbn. unfold fb_flush_nolock.
  rewrite !(proj2 (Z.eqb_neq _ 0)) by done. cbn [orb]. set (m := fb_fill_direct _ _ _ _ _ _ _).
  destruct (fb_flush_spec fb Hfb m x y Hs) as [-> _]. unfold swap_pixel, pixel. apply load32_agree.
  unfold m, fb_fill_direct, fill_at, fb_get_width, fb_get_height. rewrite !(proj2 (Z.leb_gt _ 0)) by lia. cbn [orb].
  rewrite !Z.add_0_l, !u32_small, !Z.ltb_irrefl, !Z.sub_0_r by lia.
  apply fill_rows_agree; [done|lia|lia| |lia|lia]. pose proof (ok_apart _ Hfb) as Ha. unfold apart in *. lia.
Qed.

(** So the panic goes on with the old picture, from the top left corner. *)
Lemma panic_clear_shows font_size font_data fb s sc :
  fb_ok fb -> 0 < font_size < height fb -> 8 <= width fb -> width fb < 2 ^ 32 -> height fb < 2 ^ 32 ->
  shows font_size font_data fb s sc -> shows font_size font_data fb (term_panic_clear fb s) (move 0 0 sc).
Proof.
  intros Hfb Hfont Hwide Hw Hh [Hg Hc Hp Hr Hcells]. pose proof (geometry font_size font_data fb Hfont Hwide) as Hge.
  constructor; cbn; [done|done|done|lia|]. apply (cells_agree font_size font_data fb Hfb Hfont Hwide _ s.2); [|done]. intros q Hq.
  unfold fb_fill_direct, fill_at, fb_get_width, fb_get_height. pose proof (ok_width _ Hfb). pose proof (ok_height _ Hfb).
  rewrite !(proj2 (Z.leb_gt _ 0)) by lia. cbn [orb].
  rewrite !Z.add_0_l, !u32_small, !Z.ltb_irrefl, !Z.sub_0_r by lia. apply agree_at.
  apply fill_rows_agree; [done|lia|lia| |lia|lia]. pose proof (ok_apart _ Hfb) as Ha. unfold apart in *. lia.
Qed.
