(* ===== verification/Acpi.v ===== *)
(** * Firmware tables

    [kernel/src/system/acpi.c] and [kernel/src/system/madt.c]: the search for a table by
    its signature and the records of the interrupt controllers.  Tables are read from a flat
    memory of bytes; a record is kept as its address, as the code keeps it. *)

From S2P Require Import Prelude DList Pmm KLib.

(** A little-endian field of [n] bytes. *)
Definition load_le (n : Z) (m : memory) (p : Z) : Z := little_endian_to_Z 8 (m <$> seqZ p n).

(** ** acpi.c *)

(** Offsets of [rsdp_t] and [acpi_sdt_hdr_t]. *)
Definition rsdp_revision : Z := 15.
Definition rsdp_rsdt_address : Z := 16.
Definition rsdp_xsdt_address : Z := 24.
Definition hdr_length : Z := 4.
Definition SIZEOF_SDT_HDR : Z := 36.

Record acpi_t := Acpi { sdt : Z; use_xsdt : bool }.

Definition acpi_init (m : memory) (rsdp : Z) : acpi_t :=
  if 2 <=? m (rsdp + rsdp_revision)
  then Acpi (__PHYS_TO_VIRT (load_le 8 m (rsdp + rsdp_xsdt_address))) true
  else Acpi (__PHYS_TO_VIRT (load_le 4 m (rsdp + rsdp_rsdt_address))) false.

(** The [i]-th table that the root table lists. *)
Definition sdt_entry (m : memory) (a : acpi_t) (i : Z) : Z :=
  let data := sdt a + SIZEOF_SDT_HDR in
  __PHYS_TO_VIRT (if use_xsdt a then load_le 8 m (data + 8 * i) else load_le 4 m (data + 4 * i)).

Fixpoint find_sdt (n : nat) (m : memory) (a : acpi_t) (i sign : Z) : Z :=
  match n with
  | O => 0
  | S n =>
    let table := sdt_entry m a i in
    if memcmp m table sign 4 =? 0 then table else find_sdt n m a (i + 1) sign
  end.
Definition sdt_count (m : memory) (a : acpi_t) : Z :=
  u32 (u64 (load_le 4 m (sdt a + hdr_length) - SIZEOF_SDT_HDR) / (if use_xsdt a then 8 else 4)).
(** [sign] is the address of the signature; 0 is null. *)
Definition acpi_get_sdt (m : memory) (a : acpi_t) (sign : Z) : Z :=
  find_sdt (Z.to_nat (sdt_count m a)) m a 0 sign.

(** ** madt.c *)

Definition MADT_ICS_TYPE_LAPIC : Z := 0.
Definition MADT_ICS_TYPE_IOAPIC : Z := 1.
Definition MADT_ICS_TYPE_ISO : Z := 2.
Definition MADT_ISA_IRQ_MAX : Z := 16.
Definition SIZEOF_MADT : Z := 44.

(** The arrays up to their counters. *)
Record madt_state := Madt { lapics : list Z; ioapics : list Z; ioapic_iso : list Z }.

(** [Overrun] is the store behind the end of the array of overrides. *)
Inductive madt_result := Parsed (s : madt_state) | Overrun | OutOfFuel | NoMadt.

(** The [switch] on one record. *)
Definition madt_record (m : memory) (record : Z) (s : madt_state) : option madt_state :=
  let type := m record in
  if type =? MADT_ICS_TYPE_LAPIC then
    Some (if 256 <=? Z.of_nat (length (lapics s)) then s
          else Madt (lapics s ++ [record]) (ioapics s) (ioapic_iso s))
  else if type =? MADT_ICS_TYPE_IOAPIC then
    Some (if 2 <? Z.of_nat (length (ioapics s)) then s
          else Madt (lapics s) (ioapics s ++ [record]) (ioapic_iso s))
  else if type =? MADT_ICS_TYPE_ISO then
    if MADT_ISA_IRQ_MAX <=? Z.of_nat (length (ioapic_iso s)) then None
    else Some (Madt (lapics s) (ioapics s) (ioapic_iso s ++ [record]))
  else Some s.

Fixpoint madt_records (fuel : nat) (m : memory) (records size i : Z) (s : madt_state) : madt_result :=
  match fuel with
  | O => OutOfFuel
  | S fuel =>
    if i <? size then
      match madt_record m (records + i) s with
      | Some s => madt_records fuel m records size (u32 (i + m (records + i + 1))) s
      | None => Overrun
      end
    else Parsed s
  end.

(** [apic] is the address of the signature; [iso] is the array of overrides, which the
    function does not reset. *)
Definition madt_init (fuel : nat) (m : memory) (a : acpi_t) (apic : Z) (iso : list Z) : madt_result :=
  let madt := acpi_get_sdt m a apic in
  if madt =? 0 then NoMadt else
  madt_records fuel m (madt + SIZEOF_MADT) (u32 (load_le 4 m (madt + hdr_length) - SIZEOF_MADT)) 0 (Madt [] [] iso).

Definition madt_get_num_lapic (s : madt_state) : Z := u16 (Z.of_nat (length (lapics s))).
Definition madt_get_num_ioapic (s : madt_state) : Z := u16 (Z.of_nat (length (ioapics s))).
Definition madt_get_num_ioapic_iso (s : madt_state) : Z := u16 (Z.of_nat (length (ioapic_iso s))).
(** Null when there is no such record. *)
Definition madt_get_lapic (s : madt_state) (idx : Z) : Z :=
  if madt_get_num_lapic s <=? idx then 0 else default 0 (lapics s !! Z.to_nat idx).
Definition madt_get_ioapic (s : madt_state) (idx : Z) : Z :=
  if madt_get_num_ioapic s <=? idx then 0 else default 0 (ioapics s !! Z.to_nat idx).
Definition madt_get_ioapic_iso (s : madt_state) (idx : Z) : Z := default 0 (ioapic_iso s !! Z.to_nat idx).

(** ** The tables as data *)

(** A record of the table: its type and what follows type and length. *)
Definition record : Type := Z * list Z.
Definition record_length (r : record) : Z := 2 + Z.of_nat (length r.2).
Definition record_bytes (r : record) : list Z := r.1 :: record_length r :: r.2.
Definition records_length (rs : list record) : Z := zsum (record_length <$> rs).

(** [m] holds the bytes [bs] at [p]. *)
Definition holds (m : memory) (p : Z) (bs : list Z) : Prop := m <$> seqZ p (Z.of_nat (length bs)) = bs.

(** The addresses of the records of one type, in order. *)
Fixpoint of_type (ty p : Z) (rs : list record) : list Z :=
  match rs with
  | [] => []
  | r :: rs => (if r.1 =? ty then [p] else []) ++ of_type ty (p + record_length r) rs
  end.

Lemma holds_app m p b1 b2 :
  holds m p (b1 ++ b2) <-> holds m p b1 /\ holds m (p + Z.of_nat (length b1)) b2.
Proof.
  unfold holds. rewrite length_app, Nat2Z.inj_add, seqZ_app, fmap_app by lia.
  split; [|by intros [-> ->]].
  intros H. apply app_inj_1 in H; [done|]. by rewrite length_fmap, length_seqZ, Nat2Z.id.
Qed.

Lemma holds_cons m p b bs : holds m p (b :: bs) <-> m p = b /\ holds m (p + 1) bs.
Proof.
  change (b :: bs) with ([b] ++ bs). rewrite holds_app. change (Z.of_nat (length [b])) with 1.
  unfold holds at 1. change (m <$> seqZ p (Z.of_nat (length [b]))) with [m (0 + p)]. rewrite Z.add_0_l. naive_solver.
Qed.

Lemma records_length_cons r rs : records_length (r :: rs) = record_length r + records_length rs.
Proof. done. Qed.

Lemma records_length_nonneg rs : 0 <= records_length rs.
Proof. induction rs as [|r rs IH]; [done|]. rewrite records_length_cons. unfold record_length. lia. Qed.

(** The arrays after a list of records: full arrays ignore further processors and controllers. *)
Definition keep (n : nat) (l l' : list Z) : list Z := if decide (n <= length l)%nat then l else take n (l ++ l').
Definition parsed (s : madt_state) (p : Z) (rs : list record) : madt_state :=
  Madt (keep 256 (lapics s) (of_type MADT_ICS_TYPE_LAPIC p rs))
       (keep 3 (ioapics s) (of_type MADT_ICS_TYPE_IOAPIC p rs))
       (ioapic_iso s ++ of_type MADT_ICS_TYPE_ISO p rs).

Lemma keep_nil n l : (length l <= n)%nat -> keep n l [] = l.
Proof. intros. unfold keep. case_decide; [done|]. rewrite app_nil_r. by apply take_ge. Qed.

Lemma keep_cons n l x l' :
  (length l <= n)%nat -> keep n l (x :: l') = keep n (if decide (n <= length l)%nat then l else l ++ [x]) l'.
Proof.
  intros Hl. unfold keep. repeat case_decide; try done; try lia.
  - rewrite length_app in *. simpl in *. assert (n = length l + 1)%nat as -> by lia.
    change (x :: l') with ([x] ++ l'). rewrite (assoc_L (++) l [x] l'). rewrite take_app_le by (rewrite length_app; simpl; lia).
    apply take_ge. rewrite length_app. simpl. lia.
  - by rewrite <- (assoc_L (++)).
Qed.

Lemma keep_app_nil n l l' : keep n l ([] ++ l') = keep n l l'.
Proof. done. Qed.

(** One record. *)
Lemma madt_record_spec m p (r : record) (rs : list record) s :
  m p = r.1 -> (length (lapics s) <= 256)%nat -> (length (ioapics s) <= 3)%nat ->
  match madt_record m p s with
  | Some s' => parsed s p (r :: rs) = parsed s' (p + record_length r) rs /\
      (length (lapics s') <= 256)%nat /\ (length (ioapics s') <= 3)%nat /\
      (length (ioapic_iso s') = length (ioapic_iso s) + (if (r.1 =? MADT_ICS_TYPE_ISO)%Z then 1 else 0))%nat /\
      ((length (ioapic_iso s) <= 16)%nat -> (length (ioapic_iso s') <= 16)%nat)
  | None => r.1 = MADT_ICS_TYPE_ISO /\ (16 <= length (ioapic_iso s))%nat
  end.
Proof.
  intros Hp Hl Hi. unfold madt_record, parsed. rewrite Hp. cbn [of_type].
  unfold MADT_ICS_TYPE_LAPIC, MADT_ICS_TYPE_IOAPIC, MADT_ICS_TYPE_ISO, MADT_ISA_IRQ_MAX.
  destruct (Z.eqb_spec r.1 0) as [->|H0]; [|destruct (Z.eqb_spec r.1 1) as [->|H1];
    [|destruct (Z.eqb_spec r.1 2) as [->|H2]]]; cbn [Z.eqb Pos.eqb app lapics ioapics ioapic_iso]; simpl ([] ++ _).
  - rewrite keep_cons by done. destruct (Z.leb_spec 256 (Z.of_nat (length (lapics s)))); cbn [lapics ioapics ioapic_iso].
    + rewrite decide_True by lia. split_and!; [done|lia..].
    + rewrite decide_False by lia. rewrite length_app. simpl. split_and!; [done|lia..].
  - rewrite keep_cons by done. destruct (Z.ltb_spec 2 (Z.of_nat (length (ioapics s)))); cbn [lapics ioapics ioapic_iso].
    + rewrite decide_True by lia. split_and!; [done|lia..].
    + rewrite decide_False by lia. rewrite length_app. simpl. split_and!; [done|lia..].
  - destruct (Z.leb_spec 16 (Z.of_nat (length (ioapic_iso s)))); [split; [done|lia]|]. cbn [lapics ioapics ioapic_iso].
    rewrite length_app, <- (assoc_L (++)). simpl. split_and!; [done|lia..].
  - rewrite Nat.add_0_r. split_and!; done.
Qed.

(** All records. *)
Lemma madt_records_spec m base rs : forall fuel i s,
  holds m (base + i) (concat (record_bytes <$> rs)) -> 0 <= i -> i + records_length rs < 2 ^ 32 ->
  (length (lapics s) <= 256)%nat -> (length (ioapics s) <= 3)%nat -> (length rs < fuel)%nat ->
  (length (ioapic_iso s) <= 16)%nat ->
  madt_records fuel m base (i + records_length rs) i s =
  if decide (length (ioapic_iso s ++ of_type MADT_ICS_TYPE_ISO (base + i) rs) <= 16)%nat
  then Parsed (parsed s (base + i) rs) else Overrun.
Proof.
  induction rs as [|r rs IH]; intros [|fuel] i s Hm Hi Hsz Hl Hio Hf Hiso; try (simpl in Hf; lia); cbn [madt_records].
  - rewrite (proj2 (Z.ltb_ge _ _)) by (unfold records_length; simpl; lia).
    cbn [of_type]. rewrite app_nil_r, decide_True by done. f_equal. unfold parsed. cbn [of_type].
    rewrite !keep_nil, app_nil_r by done. by destruct s.
  - rewrite records_length_cons in *. pose proof (records_length_nonneg rs) as Hn.
    assert (2 <= record_length r) as Hr by (unfold record_length; lia).
    rewrite (proj2 (Z.ltb_lt _ _)) by lia.
    rewrite fmap_cons in Hm. cbn [concat] in Hm. apply holds_app in Hm as [Hm Hm'].
    unfold record_bytes in Hm. apply holds_cons in Hm as [Ht Hm]. apply holds_cons in Hm as [Hlen _].
    pose proof (madt_record_spec m (base + i) r rs s Ht Hl Hio) as H.
    destruct (madt_record m (base + i) s) as [s'|].
    + destruct H as (Hp & Hl' & Hio' & Hc & H16). rewrite Hlen, u32_small by lia.
      replace (base + i + record_length r) with (base + (i + record_length r)) in Hp by lia.
      replace (i + (record_length r + records_length rs)) with (i + record_length r + records_length rs) by lia.
      assert (length (ioapic_iso s ++ of_type MADT_ICS_TYPE_ISO (base + i) (r :: rs)) =
              length (ioapic_iso s' ++ of_type MADT_ICS_TYPE_ISO (base + (i + record_length r)) rs)) as E.
      { rewrite !length_app, Hc. cbn [of_type]. rewrite length_app, Z.add_assoc.
        destruct (r.1 =? MADT_ICS_TYPE_ISO); simpl; lia. }
      rewrite E, Hp. specialize (H16 Hiso). apply IH; try done; try lia; [|simpl in Hf; lia].
      replace (base + (i + record_length r)) with (base + i + Z.of_nat (length (record_bytes r))); [done|].
      unfold record_bytes, record_length. simpl. lia.
    + destruct H as [Ht2 H16]. rewrite decide_False; [done|].
      rewrite length_app. cbn [of_type]. rewrite Ht2, length_app. simpl. lia.
Qed.

(** ** The search for a table *)

Lemma memcmp_from_zero n : forall m p q i,
  memcmp_from n m p q i = 0 <-> forall j, i <= j < i + Z.of_nat n -> m (p + j) = m (q + j).
Proof.
  induction n as [|n IH]; intros m p q i; cbn [memcmp_from]; [split; [lia|done]|].
  unfold ctrue. destruct (Z.eqb_spec (m (p + i) - m (q + i)) 0) as [E|E]; simpl.
  - rewrite IH. split; intros H j Hj; [|apply H; lia]. destruct (decide (j = i)) as [->|]; [lia|apply H; lia].
  - split; [done|]. intros H. specialize (H i ltac:(lia)). lia.
Qed.

(** The table at [p] has the signature at [sign]. *)
Definition signed (m : memory) (sign p : Z) : Prop := m <$> seqZ p 4 = m <$> seqZ sign 4.
#[global] Instance signed_dec m sign p : Decision (signed m sign p) := list_eq_dec _ _.

Lemma memcmp_signed m p sign : memcmp m p sign 4 =? 0 = bool_decide (signed m sign p).
Proof.
  apply Bool.eq_iff_eq_true. rewrite Z.eqb_eq, bool_decide_eq_true. unfold memcmp, signed. rewrite memcmp_from_zero.
  change (Z.of_nat (Z.to_nat 4)) with 4. split.
  - intros H. apply list_eq. intros i. rewrite !list_lookup_fmap.
    destruct (decide (i < 4)%nat) as [Hi|Hi].
    + rewrite !lookup_seqZ_lt by lia. simpl. f_equal. apply H. lia.
    + by rewrite !lookup_seqZ_ge by lia.
  - intros H j Hj. apply (f_equal (.!! Z.to_nat j)) in H. rewrite !list_lookup_fmap, !lookup_seqZ_lt in H by lia.
    simpl in H. injection H as H. by rewrite Z2Nat.id in H by lia.
Qed.

(** The root table lists [tables]. *)
Record lists (m : memory) (a : acpi_t) (tables : list Z) : Prop := {
  ls_length : load_le 4 m (sdt a + hdr_length) = SIZEOF_SDT_HDR + (if use_xsdt a then 8 else 4) * Z.of_nat (length tables);
  ls_small : Z.of_nat (length tables) < 2 ^ 32;
  ls_entry : forall i p, tables !! i = Some p -> sdt_entry m a (Z.of_nat i) = p;
}.

Lemma find_sdt_spec m a sign tables : forall n i,
  (forall j p, tables !! j = Some p -> sdt_entry m a (i + Z.of_nat j) = p) -> n = length tables ->
  find_sdt n m a i sign = default 0 (head (filter (signed m sign) tables)).
Proof.
  induction tables as [|p tables IH]; intros [|n] i He Hn; try done; cbn [find_sdt].
  pose proof (He 0%nat p eq_refl) as E. rewrite Z.add_0_r in E. rewrite E, memcmp_signed, filter_cons.
  case_bool_decide; case_decide; try done. apply IH; [|by injection Hn].
  intros j q Hj. rewrite <- (He (S j) q Hj). f_equal. lia.
Qed.

Lemma acpi_get_sdt_spec m a tables sign :
  lists m a tables -> acpi_get_sdt m a sign = default 0 (head (filter (signed m sign) tables)).
Proof.
  intros [Hl Hs He]. unfold acpi_get_sdt. apply (find_sdt_spec m a sign tables).
  - intros j p Hj. rewrite Z.add_0_l. by apply He.
  - unfold sdt_count. rewrite Hl. replace (_ - _) with ((if use_xsdt a then 8 else 4) * Z.of_nat (length tables)) by lia.
    rewrite (u64_small (_ * _)) by (destruct (use_xsdt a); lia).
    rewrite Z.mul_comm, Z.div_mul by (by destruct (use_xsdt a)). rewrite u32_small by lia. lia.
Qed.

Lemma keep_first n l : keep (S n) [] l = take (S n) l.
Proof. done. Qed.

(** A getter of an array that its counter covers. *)
Lemma getter (l : list Z) i :
  0 <= i -> (length l <= 256)%nat ->
  (if u16 (Z.of_nat (length l)) <=? i then 0 else default 0 (l !! Z.to_nat i)) = default 0 (l !! Z.to_nat i).
Proof.
  intros Hi Hl. rewrite u16_small by lia. destruct (Z.leb_spec (Z.of_nat (length l)) i); [|done].
  by rewrite (lookup_ge_None_2 l) by lia.
Qed.

(** [madt_init] keeps the first 256 processors, the first three I/O controllers, although it means to support two, and all overrides; with
    more than sixteen of these it stores behind the end of the array. *)
Lemma madt_init_spec fuel m a tables apic madt rs :
  lists m a tables -> head (filter (signed m apic) tables) = Some madt -> madt <> 0 ->
  load_le 4 m (madt + hdr_length) = SIZEOF_MADT + records_length rs ->
  holds m (madt + SIZEOF_MADT) (concat (record_bytes <$> rs)) ->
  records_length rs < 2 ^ 32 -> (length rs < fuel)%nat ->
  let at_type ty := of_type ty (madt + SIZEOF_MADT) rs in
  let s := Madt (take 256 (at_type MADT_ICS_TYPE_LAPIC)) (take 3 (at_type MADT_ICS_TYPE_IOAPIC))
             (at_type MADT_ICS_TYPE_ISO) in
  madt_init fuel m a apic [] =
    (if decide (length (at_type MADT_ICS_TYPE_ISO) <= 16)%nat then Parsed s else Overrun) /\
  madt_get_num_lapic s = Z.of_nat (length (lapics s)) /\
  (forall i, 0 <= i -> madt_get_lapic s i = default 0 (lapics s !! Z.to_nat i)) /\
  (forall i, 0 <= i -> madt_get_ioapic s i = default 0 (ioapics s !! Z.to_nat i)).
Proof.
  intros Ht Hh Hne Hlen Hm Hsz Hf at_type s. split_and!.
  - unfold madt_init. rewrite (acpi_get_sdt_spec m a tables) by done. rewrite Hh. simpl default.
    rewrite (proj2 (Z.eqb_neq _ _)) by done. rewrite Hlen.
    pose proof (records_length_nonneg rs). replace (_ - SIZEOF_MADT) with (records_length rs) by lia.
    rewrite u32_small by lia. change (records_length rs) with (0 + records_length rs).
    rewrite (madt_records_spec m (madt + SIZEOF_MADT) rs fuel 0 (Madt [] [] [])); cbn [lapics ioapics ioapic_iso];
      rewrite ?Z.add_0_r; try done; try lia; try (simpl; lia).
  - unfold madt_get_num_lapic, u16. cbn [lapics s]. rewrite Z.mod_small; [done|]. rewrite length_take. lia.
  - intros i Hi. apply getter; [done|]. cbn [lapics s]. rewrite length_take. lia.
  - intros i Hi. apply getter; [done|]. cbn [ioapics s]. rewrite length_take. lia.
Qed.

(** C32. The interrupt controllers of the machine.  When the root table lists a table with the signature
    of the controllers, and that table consists of the records [rs] with at most two I/O controllers and sixteen overrides, [madt_init] returns after
    one round a record and finds the first 256 processors, the I/O controllers and
    the overrides, in the order of the table.  The getters return exactly the records found, and null behind the last. *)
Theorem madt_init_correct fuel m a tables apic madt rs :
  lists m a tables -> head (filter (signed m apic) tables) = Some madt -> madt <> 0 ->
  load_le 4 m (madt + hdr_length) = SIZEOF_MADT + records_length rs ->
  holds m (madt + SIZEOF_MADT) (concat (record_bytes <$> rs)) ->
  records_length rs < 2 ^ 32 -> (length rs < fuel)%nat ->
  let at_type ty := of_type ty (madt + SIZEOF_MADT) rs in
  (length (at_type MADT_ICS_TYPE_IOAPIC) <= 2)%nat -> (length (at_type MADT_ICS_TYPE_ISO) <= 16)%nat ->
  exists s, madt_init fuel m a apic [] = Parsed s /\
    lapics s = take 256 (at_type MADT_ICS_TYPE_LAPIC) /\ ioapics s = at_type MADT_ICS_TYPE_IOAPIC /\
    ioapic_iso s = at_type MADT_ICS_TYPE_ISO /\
    madt_get_num_lapic s = Z.of_nat (length (lapics s)) /\
    (forall i, 0 <= i -> madt_get_lapic s i = default 0 (lapics s !! Z.to_nat i)) /\
    (forall i, 0 <= i -> madt_get_ioapic s i = default 0 (ioapics s !! Z.to_nat i)).
Proof.
  intros Ht Hh Hne Hlen Hm Hsz Hf at_type Hio Hiso.
  destruct (madt_init_spec fuel m a tables apic madt rs Ht Hh Hne Hlen Hm Hsz Hf) as (E & H1 & H2 & H3). fold at_type in E, H1, H2, H3.
  rewrite decide_True in E by done. rewrite (take_ge (at_type MADT_ICS_TYPE_IOAPIC)) in * by lia. eexists. split_and!; done.
Qed.

(** A record of length zero: the loop does not end. *)
Lemma empty_record_never_ends m records size i s fuel :
  0 <= i < 2 ^ 32 -> i < size -> m (records + i) = 3 -> m (records + i + 1) = 0 ->
  madt_records fuel m records size i s = OutOfFuel.
Proof.
  intros Hi Hs Ht Hl. revert s. induction fuel as [|fuel IH]; intros s; [done|]. cbn [madt_records].
  rewrite (proj2 (Z.ltb_lt _ _)) by done. unfold madt_record. rewrite Ht. cbn [Z.eqb Pos.eqb MADT_ICS_TYPE_LAPIC MADT_ICS_TYPE_IOAPIC MADT_ICS_TYPE_ISO]. rewrite Hl, Z.add_0_r, u32_small by done.
  apply IH.
Qed.

(** ** A machine with two processors, one I/O controller and one override *)

Definition demo_records : list record :=
  [(0, [0; 0; 1; 0; 0; 0]); (0, [1; 1; 1; 0; 0; 0]); (1, [2; 0; 0; 0; 192; 254; 0; 0; 0; 0]);
   (2, [0; 0; 2; 0; 0; 0; 0; 0]); (4, [255; 0; 0; 1])].
Definition demo_virt (p : Z) : Z := __PHYS_TO_VIRT p.
Definition demo_sdt_hdr (sig : list Z) (len : Z) : list Z := sig ++ Z_to_little_endian 4 8 len ++ replicate 28 0.
Definition demo_firmware : memory :=
  fold_left (fun m '(p, bs) => store_bytes m p bs)
    [(8, [65; 80; 73; 67]);
     (100, replicate 15 0 ++ [2] ++ replicate 8 0 ++ Z_to_little_endian 8 8 0x1000);
     (demo_virt 0x1000, demo_sdt_hdr [88; 83; 68; 84] 52 ++ Z_to_little_endian 8 8 0x2000 ++ Z_to_little_endian 8 8 0x3000);
     (demo_virt 0x2000, demo_sdt_hdr [72; 80; 69; 84] 56);
     (demo_virt 0x3000, demo_sdt_hdr [65; 80; 73; 67] (44 + records_length demo_records) ++ replicate 8 0 ++
        concat (record_bytes <$> demo_records))]
    (fun _ => 0).
Definition demo_acpi : acpi_t := acpi_init demo_firmware 100.

Lemma demo_lists : lists demo_firmware demo_acpi [demo_virt 0x2000; demo_virt 0x3000].
Proof.
  constructor; [vm_compute; reflexivity|simpl; lia|].
  intros [|[|i]] p Hp; simpl in Hp; simplify_eq; vm_compute; reflexivity.
Qed.

Lemma madt_init_correct_witness :
  madt_init 6 demo_firmware demo_acpi 8 [] =
    Parsed (Madt [demo_virt 0x302c; demo_virt 0x3034] [demo_virt 0x303c] [demo_virt 0x3048]).
Proof.
  destruct (madt_init_correct 6 demo_firmware demo_acpi [demo_virt 0x2000; demo_virt 0x3000] 8 (demo_virt 0x3000)
    demo_records demo_lists) as (s & E & H1 & H2 & H3 & _).
  - vm_compute. reflexivity.
  - vm_compute. discriminate.
  - vm_compute. reflexivity.
  - vm_compute. reflexivity.
  - vm_compute. reflexivity.
  - simpl. lia.
  - vm_compute. lia.
  - vm_compute. lia.
  - rewrite E. destruct s as [l i o]. cbn [lapics ioapics ioapic_iso] in H1, H2, H3. rewrite H1, H2, H3. vm_compute. reflexivity.
Defined.
