(* ===== verification/Cpuf.v ===== *)
(** * Processor identification

    [kernel/src/system/cpuf.c] and [include/system/cpuf.h]: the tests of single features and
    the table that [cpuf_info_init] fills from the [cpuid] instruction.  The instruction is
    a parameter, a function of leaf and subleaf.  [bool] is [unsigned char] in this code: a
    result that is not a comparison keeps its low byte. *)

From S2P Require Import Prelude.

(** ** Registers of the instruction *)

Record cpuid_t := Cpuid { edx : Z; ecx : Z; ebx : Z; eax : Z }.

(** [enum cpuid_reg_e], the index of the union's array. *)
Inductive cpuid_reg_e := CPUID_REG_EDX | CPUID_REG_ECX | CPUID_REG_EBX | CPUID_REG_EAX.
Definition regs (c : cpuid_t) (r : cpuid_reg_e) : Z :=
  match r with CPUID_REG_EDX => edx c | CPUID_REG_ECX => ecx c | CPUID_REG_EBX => ebx c | CPUID_REG_EAX => eax c end.

Record cpuid_feature_t := CpuidFeature { leaf : Z; subleaf : Z; reg : cpuid_reg_e; fmask : Z }.
Definition CPUID_FEATURE_APIC : cpuid_feature_t := CpuidFeature 1 0 CPUID_REG_EDX (Z.shiftl 1 9).
Definition CPUID_FEATURE_x2APIC : cpuid_feature_t := CpuidFeature 1 0 CPUID_REG_EDX (Z.shiftl 1 21).

Record cpu_info_t := CpuInfo {
  x86_family : Z; x86_model : Z; x86_vendor : Z; brand_index : Z; clflush_size : Z; x86_max_id : Z; x86_lapicid : Z;
  x86_feature_ecx : Z; x86_feature_edx : Z; x86_pwm : Z; x86_pwm_extend : Z }.

Definition X86_VENDOR_INTEL : Z := 0.
Definition X86_VENDOR_AMD : Z := 1.
Definition X86_VENDOR_UNKNOW : Z := 0xff.
Definition X86_VENDOR_INTEL_EBX : Z := 0x756e6547.
(** The character constant ['htuA']. *)
Definition X86_VENDOR_AMD_EBX : Z := 0x68747541.

Definition X86_FEATURE_SSE3 : Z := 0x1.
Definition X86_FEATURE_FPU : Z := Z.shiftl 0x1 32.
Definition X86_PWM_NOSTOP_TSC : Z := 0x04.
Definition X86_PWMEXT_INVARIANT_TSC : Z := 0x10.
Definition U32_MAX : Z := 0xffffffff.

(** ** Operations *)

Section Cpuf.
Context (__cpuid : Z -> Z -> cpuid_t).

Definition cpuid_check_feature (f : cpuid_feature_t) : bool :=
  if eax (__cpuid 0 0) <? leaf f then false
  else ctrue (Z.land (regs (__cpuid (leaf f) (subleaf f)) (reg f)) (fmask f)).

Definition vendor_of (name : Z) : Z :=
  if name =? X86_VENDOR_INTEL_EBX then X86_VENDOR_INTEL
  else if name =? X86_VENDOR_AMD_EBX then X86_VENDOR_AMD
  else X86_VENDOR_UNKNOW.

Definition cpuf_info_init : cpu_info_t :=
  let maxfunc := __cpuid 0 0 in
  let f := __cpuid 1 0 in
  {| x86_vendor := vendor_of (ebx maxfunc);
     x86_model := Z.land (eax f) 0xff;
     x86_family := Z.land (Z.shiftr (eax f) 8) 0xff;
     brand_index := Z.land (ebx f) 0xff;
     clflush_size := Z.land (Z.shiftr (ebx f) 8) 0xff;
     x86_max_id := Z.land (Z.shiftr (ebx f) 16) 0xff;
     x86_lapicid := Z.land (Z.shiftr (ebx f) 24) 0xff;
     x86_feature_ecx := ecx f;
     x86_feature_edx := edx f;
     x86_pwm := eax (__cpuid 6 0);
     x86_pwm_extend := edx (__cpuid 0x80000007 0) |}.

End Cpuf.

Definition cpuf_check_feature (c : cpu_info_t) (mask : Z) : Z :=
  if U32_MAX <? mask then u8 (Z.land (x86_feature_edx c) mask) else u8 (Z.land (x86_feature_ecx c) mask).
Definition cpuf_check_pwm (c : cpu_info_t) (mask : Z) : Z := u8 (Z.land (x86_pwm c) mask).
Definition cpuf_check_pwm_ext (c : cpu_info_t) (mask : Z) : Z := u8 (Z.land (x86_pwm_extend c) mask).

(** ** What the tests answer *)

(** A mask for the second register lies above its 32 bits: these features are never found. *)
Lemma edx_features_not_found c b :
  0 <= x86_feature_edx c < 2 ^ 32 -> 32 <= b -> cpuf_check_feature c (Z.shiftl 1 b) = 0.
Proof.
  intros He Hb. unfold cpuf_check_feature, U32_MAX. rewrite Z.shiftl_1_l.
  assert (2 ^ 32 <= 2 ^ b) by (apply Z.pow_le_mono_r; lia).
  destruct (Z.ltb_spec 0xffffffff (2 ^ b)); [|lia].
  enough (Z.land (x86_feature_edx c) (2 ^ b) = 0) as -> by done.
  apply Z.bits_inj'. intros i Hi. rewrite Z.land_spec, Z.bits_0, Z.pow2_bits_eqb by lia.
  destruct (Z.eqb_spec b i) as [->|]; [|apply andb_false_r].
  rewrite <- (Z.mod_small (x86_feature_edx c) (2 ^ 32)), Z.mod_pow2_bits_high by lia. done.
Qed.

(** A feature of the first register is found exactly when its bit is set and the bit is one of the low
    eight: the result is a byte. *)
Lemma ecx_feature_found c b :
  0 <= b < 32 -> ctrue (cpuf_check_feature c (Z.shiftl 1 b)) = Z.testbit (x86_feature_ecx c) b && (b <? 8).
Proof.
  intros Hb. unfold cpuf_check_feature, U32_MAX. rewrite Z.shiftl_1_l.
  assert (2 ^ b <= 2 ^ 31) by (apply Z.pow_le_mono_r; lia).
  destruct (Z.ltb_spec 0xffffffff (2 ^ b)); [lia|].
  assert (Z.land (x86_feature_ecx c) (2 ^ b) = if Z.testbit (x86_feature_ecx c) b then 2 ^ b else 0) as ->.
  { apply Z.bits_inj'. intros i Hi. rewrite Z.land_spec, Z.pow2_bits_eqb by lia.
    destruct (Z.testbit (x86_feature_ecx c) b) eqn:E; [rewrite Z.pow2_bits_eqb by lia|rewrite Z.bits_0];
      destruct (Z.eqb_spec b i) as [<-|]; rewrite ?E, ?andb_false_r; done. }
  destruct (Z.testbit _ _); [|done]. unfold u8, ctrue. destruct (Z.ltb_spec b 8); simpl.
  - assert (2 ^ b < 2 ^ 8) by (apply Z.pow_lt_mono_r; lia). rewrite Z.mod_small by lia.
    destruct (Z.eqb_spec (2 ^ b) 0); [lia|done].
  - replace b with (b - 8 + 8) by lia. rewrite Z.pow_add_r, Z.mod_mul by lia. done.
Qed.
