(* ===== verification/Irq.v ===== *)
(** * Interrupts

    [kernel/src/system/apic.c] and [kernel/src/system/isr.c]: the local controller, the
    redirection tables of the I/O controllers, the table of handlers and the dispatch of an interrupt.

    The registers of the controllers are reached through memory-mapped words and model-specific
    registers, which are a parameter ([Hw]) together with the [cpuid] instruction.  A panic, the use of a null controller and an access
    outside an array are [None].  Calls of [vmm_map] for the registers are results; the
    locks make each function one step. *)

From S2P Require Import Prelude DList Pmm KLib Acpi Ptm Vmalloc Slab Vmm Cpuf.

(** ** Hardware *)

Class Hw (D : Type) := {
  mmio_read : Z -> D -> Z;
  mmio_write : Z -> Z -> D -> D;
  read_msr : Z -> D -> Z;
  write_msr : Z -> Z -> D -> D;
  __cpuid : Z -> Z -> cpuid_t;
}.

(** A bit field of a word; stores are [set_field] of [Ptm]. *)
Definition field (e off width : Z) : Z := Z.land (Z.shiftr e off) (Z.ones width).

(** ** The local controller *)

Definition IA32_APIC_BASE : Z := 0x1b.
Definition APIC_ID_REG : Z := 0x020.
Definition APIC_VER_REG : Z := 0x030.
Definition APIC_REG_EOI : Z := 0x0b0.
Definition APIC_SVR : Z := 0x0f0.
Definition APIC_ICR_LOW : Z := 0x300.
Definition APIC_ICR_HIGH : Z := 0x310.
Definition APIC_MSR_BASE_XAPIC_ENABLE : Z := 0x800.
Definition APIC_MSR_BASE_X2APIC_ENABLE : Z := 0x400.

Record lapic_t := Lapic { lapic_base : Z; is_x2apic_mode : bool; is_eoi_boardcast : bool }.

Section Apic.
Context {D : Type} `{Hw D}.

Definition feature (f : cpuid_feature_t) : bool := cpuid_check_feature __cpuid f.

Definition apic_msr_get_base (d : D) : Z := read_msr IA32_APIC_BASE d.
Definition apic_base_addr (d : D) : Z :=
  let quad := read_msr IA32_APIC_BASE d in
  Z.lor (Z.land (Z.land quad 0xffffffff) 0xfffff000) (Z.shiftl (Z.land (Z.shiftr quad 32) 0x0f) 32).
Definition apic_enable_apic (d : D) : D := write_msr IA32_APIC_BASE (Z.lor (read_msr IA32_APIC_BASE d) 0x80) d.

(** In x2APIC mode, which [apic_init] refuses, nothing is read or written. *)
Definition apic_reg_read (a : lapic_t) (offset : Z) (d : D) : Z := mmio_read (lapic_base a + u16 offset) d.
Definition apic_reg_write (a : lapic_t) (offset val : Z) (d : D) : D :=
  if is_x2apic_mode a then d else mmio_write (lapic_base a + u16 offset) (u32 val) d.

Definition apic_send_ipi (a : lapic_t) (destination vector delivery : Z) (d : D) : D :=
  apic_reg_write a APIC_ICR_LOW (Z.lor delivery vector) (apic_reg_write a APIC_ICR_HIGH (u32 (Z.shiftl destination 24)) d).
Definition apic_send_eoi (a : lapic_t) (d : D) : D := apic_reg_write a APIC_REG_EOI 1 d.

(** Spurious vector 255, the enable bit, and the suppression of broadcasts where there is one. *)
Definition _apic_enable (a : lapic_t) (d : D) : lapic_t * D :=
  let svr := Z.lor (Z.land (apic_reg_read a APIC_SVR d) (Z.lnot 0xff)) 0xff in
  let svr := Z.lor svr (Z.shiftl 1 8) in
  if Z.testbit (apic_reg_read a APIC_VER_REG d) 24
  then (Lapic (lapic_base a) (is_x2apic_mode a) true, apic_reg_write a APIC_SVR (Z.lor svr (Z.shiftl 1 12)) d)
  else (Lapic (lapic_base a) (is_x2apic_mode a) false, apic_reg_write a APIC_SVR svr d).

(** The enable bit of the base register is set, or the function panics. *)
Definition enable_xapic (d : D) : option D :=
  if Z.land (apic_msr_get_base d) APIC_MSR_BASE_XAPIC_ENABLE =? APIC_MSR_BASE_XAPIC_ENABLE then Some d else
  let d := apic_enable_apic d in
  if Z.land (apic_msr_get_base d) APIC_MSR_BASE_XAPIC_ENABLE =? 0 then None else Some d.

(** [x2] is the initial mode.  The second result is the call of [vmm_map]: address, physical
    address, number of pages (the code passes a size) and flags. *)
Definition apic_init (x2 : bool) (d : D) : option (lapic_t * D * (Z * Z * Z * Z)) :=
  let base := apic_msr_get_base d in
  let xapic_on := Z.land base APIC_MSR_BASE_XAPIC_ENABLE =? APIC_MSR_BASE_XAPIC_ENABLE in
  let x2apic_on := Z.land base APIC_MSR_BASE_X2APIC_ENABLE =? APIC_MSR_BASE_X2APIC_ENABLE in
  if negb (feature CPUID_FEATURE_APIC) then None else
  d ← enable_xapic d;
  let x2 := if xapic_on then feature CPUID_FEATURE_x2APIC && x2apic_on else x2 in
  if x2 then None else
  let lapic_base := u64 (MI_DIRECT_MAPPING_RANGE_START + apic_base_addr d) in
  let map := (lapic_base, apic_base_addr d, PAGE_SIZE, VMM_FLAGS_MMIO) in
  let '(a, d) := _apic_enable (Lapic lapic_base x2 false) d in
  Some (a, d, map).

Definition apic_load (a : lapic_t) (d : D) : option (lapic_t * D) :=
  d ← enable_xapic d; Some (_apic_enable a d).

(** ** The I/O controllers *)

Definition IOAPIC_NUM_MAX : nat := 4.
Definition IOAPIC_REDTBL (n : Z) : Z := 0x10 + n * 2.
Definition IOAPIC_DEST_PHYSICAL : Z := 0.
Definition IOAPIC_ACTIVE_HIGH : Z := 0.
Definition IOAPIC_ACTIVE_LOW : Z := 1.
Definition IOAPIC_EDGE : Z := 0.
Definition IOAPIC_LEVEL : Z := 1.

Record ioapic_data_t := IoApic {
  ia_phys_addr : Z; ia_virt_addr : Z; ia_ioapic_id : Z; ia_id : Z; ia_version : Z; redir_tbl_entry : Z; gsi_base : Z }.
Definition no_ioapic : ioapic_data_t := IoApic 0 0 0 0 0 0 0.

(** Fields of a redirection entry. *)
Definition rte_vector (e : Z) : Z := field e 0 8.
Definition rte_polarity (e : Z) : Z := field e 13 1.
Definition rte_trigger (e : Z) : Z := field e 15 1.
Definition rte_mask (e : Z) : Z := field e 16 1.
Definition set_vector (v e : Z) : Z := set_field e 0 8 v.
Definition set_dest_mode (v e : Z) : Z := set_field e 11 1 v.
Definition set_pin_polarity (v e : Z) : Z := set_field e 13 1 v.
Definition set_trigger_mode (v e : Z) : Z := set_field e 15 1 v.
Definition set_mask (v e : Z) : Z := set_field e 16 1 v.
Definition set_destination (v e : Z) : Z := set_field e 56 8 v.

Definition IOWIN : Z := 0x10.
Definition ioapic_reg_read (base offset : Z) (d : D) : Z * D :=
  let d := mmio_write base (u8 offset) d in (mmio_read (base + IOWIN) d, d).
Definition ioapic_reg_write (base offset val : Z) (d : D) : D :=
  mmio_write (base + IOWIN) (u32 val) (mmio_write base (u8 offset) d).

Definition ioapic_read_rte (base irq_no : Z) (d : D) : Z * D :=
  let '(hi, d) := ioapic_reg_read base (IOAPIC_REDTBL irq_no + 1) d in
  let '(lo, d) := ioapic_reg_read base (IOAPIC_REDTBL irq_no) d in
  (Z.lor (u64 (Z.shiftl hi 32)) lo, d).
Definition ioapic_write_rte (base irq_no val : Z) (d : D) : D :=
  let d := ioapic_reg_write base (IOAPIC_REDTBL irq_no) (Z.land val 0xffffffff) d in
  ioapic_reg_write base (IOAPIC_REDTBL irq_no + 1) (Z.land (Z.shiftr val 32) 0xffffffff) d.

(** The first controller whose lines include [irqno], as the code tests it: from its first line on,
    and below its number of entries. *)
Definition serves (irqno : Z) (c : ioapic_data_t) : bool :=
  (gsi_base c <=? u32 irqno) && (irqno <? redir_tbl_entry c).
Definition ioapic_get_by_irq (cs : list ioapic_data_t) (irqno : Z) : option ioapic_data_t :=
  head (filter (fun c => Is_true (serves irqno c)) cs).

Definition ioapic_get_rtentry (cs : list ioapic_data_t) (irqno : Z) (d : D) : option (Z * D) :=
  c ← ioapic_get_by_irq cs irqno; Some (ioapic_read_rte (ia_virt_addr c) irqno d).
Definition ioapic_set_rtentry (cs : list ioapic_data_t) (irqno val : Z) (d : D) : option D :=
  c ← ioapic_get_by_irq cs irqno; Some (ioapic_write_rte (ia_virt_addr c) irqno val d).

(** Read, change, write. *)
Definition change_rte (cs : list ioapic_data_t) (irqno : Z) (f : Z -> Z) (d : D) : option D :=
  '(rte, d) ← ioapic_get_rtentry cs irqno d; ioapic_set_rtentry cs irqno (f rte) d.

Definition ioapic_get_max_irq (cs : list ioapic_data_t) : Z := zsum (redir_tbl_entry <$> cs).

Definition ioapic_set_irq_vector (cs : list ioapic_data_t) (irqno vector : Z) (d : D) : option D :=
  change_rte cs irqno (fun rte => set_vector vector (set_trigger_mode IOAPIC_EDGE rte)) d.
Definition ioapic_set_irq_mask (cs : list ioapic_data_t) (irqno mask : Z) (d : D) : option D :=
  change_rte cs irqno (set_mask mask) d.

(** [None] is the panic for an invalid value. *)
Definition iso_polarity (flags : Z) : option Z :=
  let polarity := Z.land flags 3 in
  if (polarity =? 0) || (polarity =? 3) then Some IOAPIC_ACTIVE_LOW
  else if polarity =? 1 then Some IOAPIC_ACTIVE_HIGH else None.
Definition iso_trigger (flags : Z) : option Z :=
  let mode := Z.land (Z.shiftr flags 2) 3 in
  if (mode =? 0) || (mode =? 1) then Some IOAPIC_EDGE
  else if mode =? 3 then Some IOAPIC_LEVEL else None.
Definition ioapic_set_isa_irq_flags (cs : list ioapic_data_t) (irqno vector flags : Z) (d : D) : option D :=
  '(rte, d) ← ioapic_get_rtentry cs irqno d;
  let rte := set_mask 1 (set_destination 0 (set_dest_mode IOAPIC_DEST_PHYSICAL (set_vector vector rte))) in
  p ← iso_polarity flags;
  t ← iso_trigger flags;
  ioapic_set_rtentry cs irqno (set_trigger_mode t (set_pin_polarity p rte)) d.

(** One controller of [ioapic_init], from its record. *)
Definition ioapic_probe (m : memory) (rec : Z) (d : D) : ioapic_data_t * D :=
  let addr := load_le 4 m (rec + 4) in
  let base := u64 (MI_DIRECT_MAPPING_RANGE_START + addr) in
  let '(r0, d) := ioapic_reg_read base 0 d in
  let '(r1, d) := ioapic_reg_read base 1 d in
  let '(r1', d) := ioapic_reg_read base 1 d in
  (IoApic addr base (m (rec + 2)) (Z.land (Z.shiftr r0 24) 0xf) (Z.land r1 0xff)
     (u8 (Z.land (Z.shiftr r1' 16) 0xff + 1)) (load_le 4 m (rec + 8)), d).
Fixpoint ioapic_probes (m : memory) (recs : list Z) (d : D) : list ioapic_data_t * D :=
  match recs with
  | [] => ([], d)
  | rec :: recs =>
    let '(c, d) := ioapic_probe m rec d in
    let '(cs, d) := ioapic_probes m recs d in (c :: cs, d)
  end.
(** The array has four elements, of which the records fill the first. *)
Definition ioapic_init (m : memory) (s : madt_state) (d : D) : list ioapic_data_t * D :=
  let '(cs, d) := ioapic_probes m (madt_get_ioapic s <$> seqZ 0 (madt_get_num_ioapic s)) d in
  (cs ++ replicate (IOAPIC_NUM_MAX - length cs) no_ioapic, d).

End Apic.

(** ** Handlers *)

Definition IRQ0 : Z := 0.
Definition NUM_ISA_IRQS : Z := 16.
Definition NUM_EXCEPTIONS : Z := 32.
Definition NUM_INTERRUPTS : Z := 224.
Definition NUM_VECTORS : Z := 256.
Definition irq_to_vector (irq : Z) : Z := irq + NUM_EXCEPTIONS.

Inductive isr_type_t :=
  ISR_TYPE_UNKNOWN | ISR_TYPE_ISA_IRQ | ISR_TYPE_LAPIC_TIMER | ISR_TYPE_SOFTIRQ | ISR_TYPE_HARDIRQ.
(** The two handlers of the file, which panic, and functions of drivers by address. *)
Inductive isr_handler_t := default_exception_handler | unhandled_interrupt_handler | Driver (f : Z).

Record isr_register_t := IsrRegister { isr_type : isr_type_t; isr_handler : isr_handler_t; used : bool }.
Record isr_isa_override := Override { o_used : bool; o_dest : Z; o_flags : Z }.

Record isr_t := Isr {
  isr_registers : list isr_register_t;
  irq_bitmap : list Z;
  irq_external_max : Z;
  isr_isa_overrides : list isr_isa_override;
}.
Definition set_registers (r : list isr_register_t) (s : isr_t) : isr_t :=
  Isr r (irq_bitmap s) (irq_external_max s) (isr_isa_overrides s).
Definition set_bitmap (b : list Z) (s : isr_t) : isr_t :=
  Isr (isr_registers s) b (irq_external_max s) (isr_isa_overrides s).

(** Access to an element of an array; [None] outside. *)
Definition at_index {A} (l : list A) (i : Z) : option A := if i <? 0 then None else l !! Z.to_nat i.
Definition put_index {A} (l : list A) (i : Z) (x : A) : option (list A) :=
  _ ← at_index l i; Some (<[Z.to_nat i := x]> l).

Definition fallback (vector : Z) : isr_handler_t :=
  if (0 <=? vector) && (vector <? NUM_EXCEPTIONS) then default_exception_handler else unhandled_interrupt_handler.
Definition isr_init0 (ty : isr_type_t) : list isr_register_t :=
  (fun i => IsrRegister ty (fallback i) false) <$> seqZ 0 NUM_VECTORS.

Definition isr_register_handler (vector : Z) (h : isr_handler_t) (s : isr_t) : option isr_t :=
  r ← at_index (isr_registers s) vector;
  if used r then None else
  rs ← put_index (isr_registers s) vector (IsrRegister (isr_type r) h true); Some (set_registers rs s).
Definition isr_unregister_handler (vector : Z) (s : isr_t) : option isr_t :=
  r ← at_index (isr_registers s) vector;
  if used r then
    rs ← put_index (isr_registers s) vector (IsrRegister (isr_type r) (fallback vector) (used r)); Some (set_registers rs s)
  else Some s.
Definition isr_set_handler_type (vector : Z) (ty : isr_type_t) (s : isr_t) : option isr_t :=
  r ← at_index (isr_registers s) vector;
  rs ← put_index (isr_registers s) vector (IsrRegister ty (isr_handler r) (used r)); Some (set_registers rs s).
Definition isr_set_handler (vector : Z) (h : isr_handler_t) (s : isr_t) : option isr_t :=
  r ← at_index (isr_registers s) vector;
  rs ← put_index (isr_registers s) vector (IsrRegister (isr_type r) h (used r)); Some (set_registers rs s).

(** What the common entry of exceptions and interrupts does: the exchange of the processor's
    base registers around a frame of user mode, and the call of the handler. *)
Inductive action := Swapgs | Call (h : isr_handler_t).
Definition USER_CODE_SELECTOR : Z := 0x2b.
Definition common_handler (cs trapno : Z) (s : isr_t) : option (list action) :=
  r ← at_index (isr_registers s) trapno;
  let swap := if cs =? USER_CODE_SELECTOR then [Swapgs] else [] in
  Some (swap ++ [Call (isr_handler r)] ++ swap).
Definition exc_common_handler : Z -> Z -> isr_t -> option (list action) := common_handler.
Definition intr_common_handler : Z -> Z -> isr_t -> option (list action) := common_handler.

(** ** Interrupt numbers in use *)

Definition change_bits (irqno : Z) (f : Z -> Z -> Z) (s : isr_t) : option isr_t :=
  b ← at_index (irq_bitmap s) (Z.quot irqno 8);
  bs ← put_index (irq_bitmap s) (Z.quot irqno 8) (u8 (f b (Z.shiftl 1 (Z.rem irqno 8))));
  Some (set_bitmap bs s).
Definition _irq_bitmap_set (irqno : Z) (s : isr_t) : option isr_t := change_bits irqno Z.land s.
Definition _irq_bitmap_clear (irqno : Z) (s : isr_t) : option isr_t :=
  change_bits irqno (fun b m => Z.land b (Z.lnot m)) s.
Definition _irq_bitmap_is_set (irqno : Z) (s : isr_t) : option bool :=
  b ← at_index (irq_bitmap s) (Z.quot irqno 8);
  Some (ctrue (Z.land b (Z.shiftl 1 (Z.rem irqno 8)))).
(** [for (i = start; i < end; i++)]; [n] iterations are left; -1 when all are set. *)
Fixpoint find_clear (n : nat) (i : Z) (s : isr_t) : option Z :=
  match n with
  | O => Some (-1)
  | S n => b ← _irq_bitmap_is_set i s; if (b : bool) then find_clear n (i + 1) s else Some i
  end.
Definition _irq_bitmap_find_first_clear (start end_ : Z) (s : isr_t) : option Z :=
  find_clear (Z.to_nat (end_ - start)) start s.
Definition isr_alloc_softirq (s : isr_t) : option Z :=
  i ← _irq_bitmap_find_first_clear (irq_external_max s) (NUM_INTERRUPTS - 1) s; if i =? -1 then None else Some i.
Definition isr_alloc_hardirq (s : isr_t) : option Z :=
  i ← _irq_bitmap_find_first_clear 0 (irq_external_max s) s; if i =? -1 then None else Some i.
Definition isr_reserve_irq (irqno : Z) (s : isr_t) : option isr_t :=
  b ← _irq_bitmap_is_set irqno s; if (b : bool) then None else _irq_bitmap_set irqno s.

Definition isr_is_softirq (irqno : Z) (s : isr_t) : bool :=
  (irq_external_max s <? irqno) && (irqno <? NUM_INTERRUPTS).
Definition isr_get_isa_irq_override (irqno : Z) (s : isr_t) : option Z :=
  if NUM_ISA_IRQS <=? irqno then None else o ← at_index (isr_isa_overrides s) irqno; Some (o_dest o).

(** ** Lines *)

Section Lines.
Context {D : Type} `{Hw D}.

(** The handlers, the controllers and the hardware. *)
Record irq_state := IrqState { isr : isr_t; ctls : list ioapic_data_t; dev : D }.

Definition isr_setup_irq (irqno : Z) (s : irq_state) : option (irq_state * Z) :=
  let vector := irq_to_vector irqno in
  if irq_external_max (isr s) <? irqno then Some (s, vector) else
  o ← (if irqno <? NUM_ISA_IRQS then at_index (isr_isa_overrides (isr s)) irqno else Some (Override false 0 0));
  if o_used o then
    let irqno := o_dest o in
    let vector := irq_to_vector irqno in
    fl ← at_index (isr_isa_overrides (isr s)) irqno;
    d ← ioapic_set_isa_irq_flags (ctls s) irqno vector (o_flags fl) (dev s);
    Some (IrqState (isr s) (ctls s) d, vector)
  else
    d ← ioapic_set_irq_vector (ctls s) irqno vector (dev s);
    Some (IrqState (isr s) (ctls s) d, vector).

Definition isr_enable_irq (irqno : Z) (s : irq_state) : option irq_state :=
  d ← ioapic_set_irq_mask (ctls s) irqno 0 (dev s); Some (IrqState (isr s) (ctls s) d).
Definition isr_disbale_irq (irqno : Z) (s : irq_state) : option irq_state :=
  d ← ioapic_set_irq_mask (ctls s) irqno 1 (dev s); Some (IrqState (isr s) (ctls s) d).

(** Unmask a line of a controller. *)
Definition enable_hard (irqno : Z) (s : irq_state) : option irq_state :=
  if isr_is_softirq irqno (isr s) then Some s else isr_enable_irq irqno s.

Definition isr_register_irq_h (irqno : Z) (h : isr_handler_t) (s : irq_state) : option irq_state :=
  if NUM_INTERRUPTS <=? irqno then None else
  '(s, vector) ← isr_setup_irq irqno s;
  i ← isr_register_handler vector h (isr s);
  enable_hard irqno (IrqState i (ctls s) (dev s)).
Definition isr_register_irq (irqno : Z) (s : irq_state) : option irq_state :=
  if NUM_INTERRUPTS <=? irqno then None else
  '(s, _) ← isr_setup_irq irqno s;
  enable_hard irqno s.
Definition isr_setup_irq_handler (irqno : Z) (h : isr_handler_t) (s : isr_t) : option isr_t :=
  isr_register_handler (irq_to_vector irqno) h s.

(** ** Initialisation *)

Fixpoint reserve_isa (n : nat) (i : Z) (s : isr_t) : option isr_t :=
  match n with O => Some s | S n => s ← _irq_bitmap_set i s; reserve_isa n (i + 1) s end.
Definition _isr_reserve_isa_irq (s : isr_t) : option isr_t := reserve_isa (Z.to_nat NUM_ISA_IRQS) IRQ0 s.

(** The override that a record describes. *)
Definition iso_override (m : memory) (rec : Z) : isr_isa_override :=
  Override true (i32 (load_le 4 m (rec + 4))) (load_le 2 m (rec + 8)).
Fixpoint init_overrides (m : memory) (recs : list Z) (os : list isr_isa_override) : option (list isr_isa_override) :=
  match recs with
  | [] => Some os
  | rec :: recs => os ← put_index os (m (rec + 3)) (iso_override m rec); init_overrides m recs os
  end.
Definition _isr_init_override (m : memory) (md : madt_state) (s : isr_t) : option isr_t :=
  os ← init_overrides m (madt_get_ioapic_iso md <$> seqZ 0 (madt_get_num_ioapic_iso md)) (isr_isa_overrides s);
  Some (Isr (isr_registers s) (irq_bitmap s) (irq_external_max s) os).

Definition isr_init (m : memory) (md : madt_state) (cs : list ioapic_data_t) (s : isr_t) : option isr_t :=
  let s := Isr (isr_registers s) (replicate (Z.to_nat (NUM_VECTORS / 8)) 0) (ioapic_get_max_irq cs) (isr_isa_overrides s) in
  s ← _isr_reserve_isa_irq s;
  _isr_init_override m md s.

End Lines.
Arguments irq_state : clear implicits.
