(* ===== verification/Desc.v ===== *)
(** * Descriptor tables

    [kernel/src/system/gdt.c], [kernel/src/system/idt.c] and the selectors that [syscall_init] of
    [kernel/src/proc/syscall.c] gives to the processor.  A segment descriptor is its 64-bit
    word and a gate its record of fields; the decoding functions below are the processor's view
    of them.  The instructions that load a table are results: base and limit. *)

From S2P Require Import Prelude DList Pmm KLib Acpi Ptm PtmProofs Vmalloc Slab Vmm Cpuf Irq.

(** ** Segments *)

Definition MAX_GDT_ENTRIES : Z := 256.
Definition SEGMENT_ACCESS_RW : Z := Z.shiftl 1 1.
Definition SEGMENT_ACCESS_EXECUTE : Z := Z.shiftl 1 3.
Definition SEGMENT_ACCESS_SYSTEM : Z := Z.shiftl 1 4.
Definition SEGMENT_ACCESS_DPL0 : Z := 0.
Definition SEGMENT_ACCESS_DPL3 : Z := Z.shiftl 3 5.
Definition SEGMENT_ACCESS_PRESENT : Z := Z.shiftl 1 7.
Definition SEGMENT_ACCESS_CODE : Z := Z.lor SEGMENT_ACCESS_SYSTEM (Z.lor SEGMENT_ACCESS_EXECUTE SEGMENT_ACCESS_RW).
Definition SEGMENT_ACCESS_DATA : Z := Z.lor SEGMENT_ACCESS_SYSTEM SEGMENT_ACCESS_RW.
Definition SEGMENT_ACCESS_TSS64 : Z := Z.lor SEGMENT_ACCESS_PRESENT (Z.lor SEGMENT_ACCESS_DPL0 0x9).
Definition SEGMENT_FLAGS_GRANULARITY : Z := Z.shiftl 1 3.
Definition SEGMENT_FLAGS_LONG : Z := Z.shiftl 1 1.
Definition KERNEL_CODE_SELECTOR : Z := 0x0008.
Definition KERNEL_DATA_SELECTOR : Z := 0x0010.
Definition USER_DATA_SELECTOR : Z := 0x0023.
Definition TSS_KERNEL_STACK_SELECTOR : Z := 0x0078.
Definition SIZEOF_TSS64 : Z := 104.

(** The fields of [gdt_entry_t] in their places. *)
Definition gdt_word (limit_low base_low base_middle attr base_high : Z) : Z :=
  Z.lor (u16 limit_low) (Z.lor (Z.shiftl (u16 base_low) 16) (Z.lor (Z.shiftl (u8 base_middle) 32)
    (Z.lor (Z.shiftl (u16 attr) 40) (Z.shiftl (u8 base_high) 56)))).

Definition gdt_descriptor (base limit access flags : Z) : Z :=
  let limit_high := Z.land (Z.shiftr limit 16) 0xf in
  let attr := u16 (Z.lor (Z.shiftl flags 4) limit_high) in
  let attr := u16 (Z.lor (Z.shiftl attr 8) access) in
  gdt_word (Z.land limit 0xffff) (Z.land base 0xffff) (Z.land (Z.shiftr base 16) 0xffff) attr
    (Z.land (Z.shiftr base 24) 0xff).

Definition gdt_entry_set (g : list Z) (selector base limit access flags : Z) : option (list Z) :=
  put_index g (Z.shiftr selector 3) (gdt_descriptor (u32 base) (u32 limit) (u8 access) (u8 flags)).
(** The second half of a system descriptor, of which the upper 32 bits are kept. *)
Definition gdt_sysentry_set (g : list Z) (selector base limit access flags : Z) : option (list Z) :=
  g ← gdt_entry_set g selector base limit access flags;
  w ← at_index g (Z.shiftr selector 3 + 1);
  put_index g (Z.shiftr selector 3 + 1) (set_field w 0 32 (Z.shiftr base 32)).

(** The fields of [tss64_t] that are set. *)
Record tss64_t := Tss { rsp0 : Z; ist1 : Z; ist2 : Z }.

(** [tss] is the address of the task state; [ist] are the interrupt stacks of the boot
    processor. *)
Definition gdt_init (is_bsp : bool) (g : list Z) (tss : Z) (t : tss64_t) (ist : Z * Z) :
    option (list Z * tss64_t * (Z * Z)) :=
  let g := if is_bsp then replicate (Z.to_nat MAX_GDT_ENTRIES) 0 else g in
  let t := if is_bsp then Tss 0 0 0 else t in
  g ← gdt_entry_set g KERNEL_CODE_SELECTOR 0 0
        (Z.lor SEGMENT_ACCESS_PRESENT (Z.lor SEGMENT_ACCESS_DPL0 SEGMENT_ACCESS_CODE))
        (Z.lor SEGMENT_FLAGS_LONG SEGMENT_FLAGS_GRANULARITY);
  g ← gdt_entry_set g KERNEL_DATA_SELECTOR 0 0
        (Z.lor SEGMENT_ACCESS_PRESENT (Z.lor SEGMENT_ACCESS_DPL0 SEGMENT_ACCESS_DATA))
        (Z.lor SEGMENT_FLAGS_GRANULARITY SEGMENT_FLAGS_LONG);
  g ← gdt_entry_set g USER_CODE_SELECTOR 0 0
        (Z.lor SEGMENT_ACCESS_PRESENT (Z.lor SEGMENT_ACCESS_DPL3 SEGMENT_ACCESS_CODE))
        (Z.lor SEGMENT_FLAGS_GRANULARITY SEGMENT_FLAGS_LONG);
  g ← gdt_entry_set g USER_DATA_SELECTOR 0 0
        (Z.lor SEGMENT_ACCESS_PRESENT (Z.lor SEGMENT_ACCESS_DPL3 SEGMENT_ACCESS_DATA))
        (Z.lor SEGMENT_FLAGS_GRANULARITY SEGMENT_FLAGS_LONG);
  let t := if is_bsp then Tss 0 ist.1 ist.2 else Tss 0 (ist1 t) (ist2 t) in
  g ← gdt_sysentry_set g TSS_KERNEL_STACK_SELECTOR tss (SIZEOF_TSS64 - 1) SEGMENT_ACCESS_TSS64 SEGMENT_FLAGS_LONG;
  Some (g, t, (u16 (8 * (8 * MAX_GDT_ENTRIES) - 1), TSS_KERNEL_STACK_SELECTOR)).

(** The values [syscall_init] writes to IA32_STAR and IA32_SFMASK. *)
Definition syscall_star : Z :=
  Z.lor (Z.shiftl KERNEL_CODE_SELECTOR 32) (Z.shiftl (USER_DATA_SELECTOR - 8) 48).
Definition syscall_sfmask : Z :=
  Z.lor 0x100 (Z.lor 0x400 (Z.lor 0x200 (Z.lor 0x3000 (Z.lor 0x40000 0x4000)))).

(** ** The processor's view of a descriptor *)

Definition seg_base (w : Z) : Z := Z.lor (field w 16 24) (Z.shiftl (field w 56 8) 24).
Definition seg_limit (w : Z) : Z := Z.lor (field w 0 16) (Z.shiftl (field w 48 4) 16).
Definition seg_access (w : Z) : Z := field w 40 8.
Definition seg_flags (w : Z) : Z := field w 52 4.

(** A present 64-bit segment of privilege [dpl], code or data. *)
Record segment (g : list Z) (selector dpl : Z) (code : bool) : Prop := {
  sg_word : exists w, at_index g (Z.shiftr selector 3) = Some w /\ field w 47 1 = 1 /\ field w 44 1 = 1 /\
    field w 45 2 = dpl /\ field w 43 1 = Z.b2z code /\ field w 41 1 = 1 /\ field w 53 1 = 1 /\ field w 54 1 = 0 }.

(** Selectors that SYSCALL and SYSRET (to 64-bit mode) load. *)
Definition syscall_cs (star : Z) : Z := Z.land (field star 32 16) 0xfffc.
Definition syscall_ss (star : Z) : Z := field star 32 16 + 8.
Definition sysret_cs (star : Z) : Z := Z.lor (field star 48 16 + 16) 3.
Definition sysret_ss (star : Z) : Z := Z.lor (field star 48 16 + 8) 3.

(** ** Gates *)

Definition INTERRUPT_TABLE_MAX_ENTRIES : Z := 256.
Definition INTR_IRQ_START : Z := 32.
Definition IDT_ATTR_PRESENT : Z := Z.shiftl 1 7.
Definition IDT_ATTR_DPL3 : Z := Z.shiftl 3 5.
Definition IDT_ATTR_INTERRUPT_GATE : Z := Z.lor IDT_ATTR_PRESENT 0xe.
Definition IDT_ATTR_TRAP_GATE : Z := Z.lor IDT_ATTR_PRESENT 0xf.

Record idt_entry_t := IdtEntry {
  isr_low : Z; selector : Z; ist : Z; attributes : Z; isr_mid : Z; isr_high : Z }.
Definition no_gate : idt_entry_t := IdtEntry 0 0 0 0 0 0.

Definition idt_entry_set (t : list idt_entry_t) (vector sel ist_ attr isr_ : Z) : list idt_entry_t :=
  <[Z.to_nat (u8 vector) :=
     IdtEntry (Z.land isr_ 0xffff) sel ist_ attr (Z.land (Z.shiftr isr_ 16) 0xffff) (Z.land (Z.shiftr isr_ 32) 0xffffffff)]> t.
Definition idt_set_interrupt_gate t vector ist_ isr_ :=
  idt_entry_set t vector KERNEL_CODE_SELECTOR ist_ IDT_ATTR_INTERRUPT_GATE isr_.
Definition idt_set_trap_gate t vector ist_ isr_ :=
  idt_entry_set t vector KERNEL_CODE_SELECTOR ist_ IDT_ATTR_TRAP_GATE isr_.
Definition idt_set_trap_gate_dpl3 t vector ist_ isr_ :=
  idt_entry_set t vector KERNEL_CODE_SELECTOR ist_ (Z.lor IDT_ATTR_TRAP_GATE IDT_ATTR_DPL3) isr_.

Section Idt.
(** The addresses of the exception entries by vector, and of the array of stubs, which take
    five bytes each. *)
Context (exc : Z -> Z) (intr_stubs : Z).

Definition stub (i : Z) : Z := u64 (intr_stubs + 5 * (i - INTR_IRQ_START)).

Definition exc_gate (t : list idt_entry_t) (v : Z) : list idt_entry_t :=
  if v =? 3 then idt_set_trap_gate_dpl3 t v 0 (exc v) else idt_set_trap_gate t v 0 (exc v).
Definition idt_init : list idt_entry_t :=
  let t := replicate (Z.to_nat INTERRUPT_TABLE_MAX_ENTRIES) no_gate in
  let t := fold_left exc_gate (seqZ 0 15 ++ seqZ 16 6) t in
  fold_left (fun t i => idt_set_interrupt_gate t i 0 (stub i))
    (seqZ INTR_IRQ_START (INTERRUPT_TABLE_MAX_ENTRIES - INTR_IRQ_START)) t.
Definition idt_set_interrupt (t : list idt_entry_t) (vector h : Z) : list idt_entry_t := idt_set_interrupt_gate t vector 0 h.
Definition idt_restore_interrupt (t : list idt_entry_t) (vector : Z) : list idt_entry_t :=
  idt_set_interrupt_gate t vector 0 (stub vector).

(** The address a gate leads to. *)
Definition gate_addr (e : idt_entry_t) : Z :=
  Z.lor (isr_low e) (Z.lor (Z.shiftl (isr_mid e) 16) (Z.shiftl (isr_high e) 32)).
(** The vector that the stub at an address pushes ([idt_support.S]): stub [i] jumps to the entry that
    pushes [32 + i]. *)
Definition stub_trapno (addr : Z) : option Z :=
  let off := u64 (addr - intr_stubs) in
  if (off mod 5 =? 0) && (off / 5 <? NUM_INTERRUPTS) then Some (INTR_IRQ_START + off / 5) else None.

(** An interrupt with a vector: the gate, the stub, the common entry. *)
Definition deliver (t : list idt_entry_t) (cs vector : Z) (s : isr_t) : option (list action) :=
  e ← at_index t vector;
  trapno ← stub_trapno (gate_addr e);
  intr_common_handler cs trapno s.

End Idt.
