(* ===== verification/DescProofs.v ===== *)
(** * Descriptor tables: proofs

    Descriptors and gates mean to the processor what they are set to mean, and every interrupt
    vector leads to the handler that is registered for it. *)

From S2P Require Import Prelude DList Pmm KLib Acpi Ptm PtmProofs Vmalloc Slab Vmm Cpuf Irq Desc.

(** ** Bits *)

Lemma testbit_mod x w i : 0 <= w -> 0 <= i -> Z.testbit (x mod 2 ^ w) i = (i <? w) && Z.testbit x i.
Proof.
  intros Hw Hi. destruct (Z.ltb_spec i w); simpl.
  - by apply Z.mod_pow2_bits_low.
  - by apply Z.mod_pow2_bits_high.
Qed.

Lemma testbit_field e off w i :
  0 <= off -> 0 <= w -> 0 <= i -> Z.testbit (field e off w) i = (i <? w) && Z.testbit e (i + off).
Proof.
  intros Ho Hw Hi. unfold field. rewrite Z.land_ones, testbit_mod, Z.shiftr_spec by lia. done.
Qed.

Lemma field_range e off w : 0 <= w -> 0 <= field e off w < 2 ^ w.
Proof. intros. unfold field. rewrite Z.land_ones by done. apply Z.mod_pos_bound. lia. Qed.

Lemma testbit_shiftl x n i : 0 <= n -> 0 <= i -> Z.testbit (Z.shiftl x n) i = (n <=? i) && Z.testbit x (i - n).
Proof.
  intros Hn Hi. rewrite Z.shiftl_spec by done. destruct (Z.leb_spec n i); [done|]. by rewrite Z.testbit_neg_r by lia.
Qed.

Ltac bit_cases :=
  repeat match goal with
  | |- context [?a <? ?b] => destruct (Z.ltb_spec a b); try lia
  | |- context [?a <=? ?b] => destruct (Z.leb_spec a b); try lia
  end; cbn [andb orb]; rewrite ?andb_true_r, ?orb_false_r; try done.

Lemma gdt_word_bit l b m a h i :
  0 <= i -> Z.testbit (gdt_word l b m a h) i =
  if i <? 16 then Z.testbit l i else if i <? 32 then Z.testbit b (i - 16) else if i <? 40 then Z.testbit m (i - 32)
  else if i <? 56 then Z.testbit a (i - 40) else if i <? 64 then Z.testbit h (i - 56) else false.
Proof.
  intros Hi. unfold gdt_word. rewrite !Z.lor_spec, !testbit_shiftl by lia. unfold u8, u16.
  assert (forall x w n, 0 <= n -> 0 <= w ->
    (n <=? i) && Z.testbit (x mod 2 ^ w) (i - n) = ((n <=? i) && (i <? n + w)) && Z.testbit x (i - n)) as E.
  { intros x w n Hn Hw. destruct (Z.leb_spec n i); [|done]. simpl. rewrite testbit_mod by lia. f_equal.
    apply Bool.eq_iff_eq_true. rewrite !Z.ltb_lt. lia. }
  rewrite testbit_mod, !E by lia.
  bit_cases.
Qed.

Lemma testbit_masked x w i : 0 <= w -> 0 <= i -> Z.testbit (Z.land x (Z.ones w)) i = (i <? w) && Z.testbit x i.
Proof. intros. rewrite Z.land_ones by done. by apply testbit_mod. Qed.

Lemma testbit_small x w i : 0 <= x < 2 ^ w -> w <= i -> Z.testbit x i = false.
Proof.
  intros Hx Hi. destruct (decide (0 <= w)); [|rewrite Z.pow_neg_r in Hx; lia].
  rewrite <- (Z.mod_small x (2 ^ w)) by done. by apply Z.mod_pow2_bits_high.
Qed.

(** The descriptor that [gdt_entry_set] builds. *)
Lemma gdt_descriptor_bit base limit access flags i :
  0 <= i -> 0 <= access < 2 ^ 8 -> Z.testbit (gdt_descriptor base limit access flags) i =
  if i <? 16 then Z.testbit limit i else if i <? 40 then Z.testbit base (i - 16)
  else if i <? 48 then Z.testbit access (i - 40) else if i <? 52 then Z.testbit limit (i - 32)
  else if i <? 56 then Z.testbit flags (i - 52) else if i <? 64 then Z.testbit base (i - 32) else false.
Proof.
  intros Hi Ha. unfold gdt_descriptor. rewrite gdt_word_bit by done.
  change 0xffff with (Z.ones 16). change 0xff with (Z.ones 8). change 0xf with (Z.ones 4).
  bit_cases; rewrite ?testbit_masked, ?Z.shiftr_spec by lia; bit_cases; try (f_equal; lia);
    unfold u16; rewrite testbit_mod, Z.lor_spec, testbit_shiftl, ?testbit_mod by lia; bit_cases.
  - rewrite Z.lor_spec, testbit_shiftl, (testbit_small access 8), testbit_masked, Z.shiftr_spec by lia.
    bit_cases. f_equal; lia.
  - rewrite Z.lor_spec, testbit_shiftl, (testbit_small access 8), testbit_masked by lia. bit_cases. f_equal; lia.
Qed.

(** ** Segments *)

Lemma descriptor_decode base limit access flags :
  0 <= base < 2 ^ 32 -> 0 <= limit < 2 ^ 20 -> 0 <= access < 2 ^ 8 -> 0 <= flags < 2 ^ 4 ->
  let w := gdt_descriptor base limit access flags in
  seg_base w = base /\ seg_limit w = limit /\ seg_access w = access /\ seg_flags w = flags.
Proof.
  intros Hb Hl Ha Hf w. unfold seg_base, seg_limit, seg_access, seg_flags, w.
  split_and!; apply Z.bits_inj'; intros i Hi;
    rewrite ?Z.lor_spec, ?testbit_shiftl, ?testbit_field by lia; bit_cases; rewrite ?testbit_field by lia; bit_cases;
    rewrite ?gdt_descriptor_bit by (lia || done); bit_cases;
    first [f_equal; lia|symmetry; eapply testbit_small; [eassumption|lia]].
Qed.

Lemma put_index_ok {A} (l : list A) i x :
  0 <= i < Z.of_nat (length l) -> put_index l i x = Some (<[Z.to_nat i := x]> l).
Proof.
  intros Hi. unfold put_index, at_index. rewrite (proj2 (Z.ltb_ge _ _)) by lia.
  destruct (lookup_lt_is_Some_2 l (Z.to_nat i)) as [y ->]; [lia|done].
Qed.

Lemma at_index_ok {A} (l : list A) i : 0 <= i -> at_index l i = l !! Z.to_nat i.
Proof. intros Hi. unfold at_index. by rewrite (proj2 (Z.ltb_ge _ _)) by lia. Qed.

Lemma at_put_index {A} (l l' : list A) i j x :
  put_index l i x = Some l' -> at_index l' j = if j =? i then Some x else at_index l j.
Proof.
  unfold put_index, at_index. destruct (Z.ltb_spec i 0); [done|].
  destruct (l !! Z.to_nat i) as [y|] eqn:E; [|done]. simpl. intros [= <-].
  destruct (Z.ltb_spec j 0); [by rewrite (proj2 (Z.eqb_neq _ _)) by lia|].
  destruct (Z.eqb_spec j i) as [->|Hne].
  - apply list_lookup_insert_eq. by eapply lookup_lt_Some.
  - apply list_lookup_insert_ne. lia.
Qed.

Lemma put_index_length {A} (l l' : list A) i x : put_index l i x = Some l' -> length l' = length l.
Proof. unfold put_index. destruct (at_index l i); [|done]. intros [= <-]. apply length_insert. Qed.

(** Setting an entry of a table of 256. *)
Lemma gdt_entry_set_spec g sel base limit access flags :
  length g = 256%nat -> 0 <= Z.shiftr sel 3 < 256 ->
  exists g', gdt_entry_set g sel base limit access flags = Some g' /\ length g' = 256%nat /\
    forall j, at_index g' j = if j =? Z.shiftr sel 3
                              then Some (gdt_descriptor (u32 base) (u32 limit) (u8 access) (u8 flags)) else at_index g j.
Proof.
  intros Hg Hs. unfold gdt_entry_set. rewrite put_index_ok by lia.
  pose proof (put_index_ok g (Z.shiftr sel 3) (gdt_descriptor (u32 base) (u32 limit) (u8 access) (u8 flags)) ltac:(lia)) as E.
  eexists. split; [done|]. split; [by rewrite length_insert|]. intros j. by apply (at_put_index _ _ _ _ _ E).
Qed.

Lemma seg_base_high w base : Z.lor (field (set_field w 0 32 (Z.shiftr base 32)) 0 32) 0 = field base 32 32.
Proof.
  rewrite Z.lor_0_r. apply Z.bits_inj'. intros i Hi. rewrite !testbit_field by lia.
  destruct (Z.ltb_spec i 32); [|done]. simpl. rewrite testbit_set_field by lia.
  rewrite bool_decide_eq_true_2 by lia. rewrite Z.shiftr_spec by lia. f_equal. lia.
Qed.

Lemma field_split base : 0 <= base < 2 ^ 64 -> Z.lor (field base 0 32) (Z.shiftl (field base 32 32) 32) = base.
Proof.
  intros Hb. apply Z.bits_inj'. intros i Hi. rewrite Z.lor_spec, testbit_shiftl by lia. rewrite testbit_field by lia.
  bit_cases; rewrite ?testbit_field by lia; bit_cases;
    first [f_equal; lia|symmetry; eapply testbit_small; [eassumption|lia]].
Qed.

(** The segments of a processor.  [gdt_init] builds, at the selectors the kernel uses, present 64-bit code and
    data segments of privilege 0 and 3 and the descriptor of the task state with its full address and
    limit; the selectors that SYSCALL and SYSRET derive from the value of IA32_STAR are
    those of the kernel's and the user's segments. *)
Theorem gdt_init_correct is_bsp g tss t ist :
  length g = 256%nat -> 0 <= tss < 2 ^ 64 ->
  exists g' t' r, gdt_init is_bsp g tss t ist = Some (g', t', r) /\ length g' = 256%nat /\
    segment g' KERNEL_CODE_SELECTOR 0 true /\ segment g' KERNEL_DATA_SELECTOR 0 false /\
    segment g' USER_DATA_SELECTOR 3 false /\ segment g' USER_CODE_SELECTOR 3 true /\
    (exists w0 w1, at_index g' (Z.shiftr TSS_KERNEL_STACK_SELECTOR 3) = Some w0 /\
       at_index g' (Z.shiftr TSS_KERNEL_STACK_SELECTOR 3 + 1) = Some w1 /\
       Z.lor (seg_base w0) (Z.shiftl (field w1 0 32) 32) = tss /\ seg_limit w0 = SIZEOF_TSS64 - 1 /\
       seg_access w0 = SEGMENT_ACCESS_TSS64) /\
    rsp0 t' = 0 /\
    syscall_cs syscall_star = KERNEL_CODE_SELECTOR /\ syscall_ss syscall_star = KERNEL_DATA_SELECTOR /\
    sysret_cs syscall_star = USER_CODE_SELECTOR /\ sysret_ss syscall_star = USER_DATA_SELECTOR.
Proof.
  intros Hg Ht. unfold gdt_init. set (g0 := if is_bsp then _ else g).
  assert (length g0 = 256%nat) as H0 by (unfold g0; by destruct is_bsp).
  edestruct (gdt_entry_set_spec g0 KERNEL_CODE_SELECTOR) as (g1 & -> & H1 & E1); [done|done|]. cbn [mbind option_bind].
  edestruct (gdt_entry_set_spec g1 KERNEL_DATA_SELECTOR) as (g2 & -> & H2 & E2); [done|done|]. cbn [mbind option_bind].
  edestruct (gdt_entry_set_spec g2 USER_CODE_SELECTOR) as (g3 & -> & H3 & E3); [done|done|]. cbn [mbind option_bind].
  edestruct (gdt_entry_set_spec g3 USER_DATA_SELECTOR) as (g4 & -> & H4 & E4); [done|done|]. cbn [mbind option_bind].
  unfold gdt_sysentry_set.
  edestruct (gdt_entry_set_spec g4 TSS_KERNEL_STACK_SELECTOR) as (g5 & -> & H5 & E5); [done|done|]. cbn [mbind option_bind].
  destruct (at_index g5 (Z.shiftr TSS_KERNEL_STACK_SELECTOR 3 + 1)) as [w|] eqn:Ew.
  2:{ rewrite at_index_ok in Ew by done. apply lookup_ge_None in Ew. rewrite H5 in Ew. compute in Ew. lia. }
  cbn [mbind option_bind]. pose proof (put_index_ok g5 (Z.shiftr TSS_KERNEL_STACK_SELECTOR 3 + 1)
    (set_field w 0 32 (Z.shiftr tss 32)) ltac:(rewrite H5; done)) as Ep.
  rewrite Ep. cbn [mbind option_bind]. set (g6 := <[_ := _]> g5) in *.
  pose proof (fun j => at_put_index _ _ _ j _ Ep) as E6.
  eexists g6, _, _. split; [done|]. split; [by unfold g6; rewrite length_insert|].
  split_and!; try (constructor; rewrite E6, E5, E4, E3, E2, E1; eexists; split; [reflexivity|vm_compute; done]); try done.
  - rewrite !E6, !E5. eexists _, _. split_and!; [reflexivity..| | |].
    + destruct (descriptor_decode (u32 tss) (u32 (SIZEOF_TSS64 - 1)) (u8 SEGMENT_ACCESS_TSS64) (u8 SEGMENT_FLAGS_LONG))
        as (-> & _); [apply u32_range|done..|].
      rewrite <- (field_split tss) at 3 by done. f_equal; [unfold u32, field; by rewrite Z.shiftr_0_r, Z.land_ones by lia|].
      f_equal. rewrite <- (seg_base_high w). by rewrite Z.lor_0_r.
    + by destruct (descriptor_decode (u32 tss) (u32 (SIZEOF_TSS64 - 1)) (u8 SEGMENT_ACCESS_TSS64) (u8 SEGMENT_FLAGS_LONG))
        as (_ & -> & _); [apply u32_range|done..|].
    + by destruct (descriptor_decode (u32 tss) (u32 (SIZEOF_TSS64 - 1)) (u8 SEGMENT_ACCESS_TSS64) (u8 SEGMENT_FLAGS_LONG))
        as (_ & _ & -> & _); [apply u32_range|done..|].
  - by destruct is_bsp.
Qed.

(** ** Gates *)

Lemma gate_addr_set sel ist_ attr a :
  0 <= a < 2 ^ 64 ->
  gate_addr (IdtEntry (Z.land a 0xffff) sel ist_ attr (Z.land (Z.shiftr a 16) 0xffff) (Z.land (Z.shiftr a 32) 0xffffffff)) = a.
Proof.
  intros Ha. unfold gate_addr. cbn [isr_low isr_mid isr_high]. apply Z.bits_inj'. intros i Hi.
  change 0xffff with (Z.ones 16). change 0xffffffff with (Z.ones 32).
  rewrite !Z.lor_spec, !testbit_shiftl, testbit_masked by lia.
  bit_cases; rewrite ?testbit_masked, ?Z.shiftr_spec by lia; bit_cases;
    first [f_equal; lia|symmetry; eapply testbit_small; [eassumption|lia]].
Qed.

(** A list of gates set one after the other. *)
Lemma fold_gates (e : Z -> idt_entry_t) vs : forall t v,
  Forall (fun i => 0 <= i < 256) vs -> 0 <= v < 256 -> length t = 256%nat ->
  fold_left (fun t i => <[Z.to_nat (u8 i) := e i]> t) vs t !! Z.to_nat v =
  if bool_decide (v ∈ vs) then Some (e v) else t !! Z.to_nat v.
Proof.
  induction vs as [|i vs IH]; intros t v Hvs Hv Ht; [done|]. inversion_clear Hvs as [|? ? Hi Hvs']. cbn [fold_left].
  rewrite IH by (done || by rewrite length_insert). rewrite u8_small by lia.
  destruct (decide (v = i)) as [->|Hne].
  - rewrite list_lookup_insert_eq by lia. rewrite (bool_decide_eq_true_2 (i ∈ i :: vs)) by left. by case_bool_decide.
  - rewrite list_lookup_insert_ne by lia. apply (f_equal (fun b : bool => if b then Some (e v) else _)).
    apply bool_decide_ext. set_solver.
Qed.

Section Gates.
Context (exc : Z -> Z) (intr_stubs : Z).

Lemma stub_vector v : 32 <= v < 256 -> stub_trapno intr_stubs (stub intr_stubs v) = Some v.
Proof.
  intros Hv. unfold stub_trapno, stub. rewrite u64_sub_l.
  replace (intr_stubs + 5 * (v - INTR_IRQ_START) - intr_stubs) with (5 * (v - 32)) by (unfold INTR_IRQ_START; lia).
  rewrite u64_small by lia. rewrite Z.mul_comm, Z.mod_mul, Z.div_mul by lia. cbn [Z.eqb andb].
  unfold NUM_INTERRUPTS, INTR_IRQ_START. rewrite (proj2 (Z.ltb_lt _ _)) by lia. f_equal. lia.
Qed.

(** The gate of an interrupt vector. *)
Lemma idt_init_gate v :
  32 <= v < 256 -> exists e, at_index (idt_init exc intr_stubs) v = Some e /\ gate_addr e = stub intr_stubs v /\
    selector e = KERNEL_CODE_SELECTOR /\ attributes e = IDT_ATTR_INTERRUPT_GATE.
Proof.
  intros Hv. rewrite at_index_ok by lia. unfold idt_init, idt_set_interrupt_gate, idt_entry_set.
  rewrite (fold_gates (fun i => IdtEntry (Z.land (stub intr_stubs i) 0xffff) KERNEL_CODE_SELECTOR 0 IDT_ATTR_INTERRUPT_GATE
      (Z.land (Z.shiftr (stub intr_stubs i) 16) 0xffff) (Z.land (Z.shiftr (stub intr_stubs i) 32) 0xffffffff))).
  - rewrite bool_decide_eq_true_2; [|apply elem_of_seqZ; unfold INTR_IRQ_START, INTERRUPT_TABLE_MAX_ENTRIES; lia].
    eexists. split; [done|]. split; [|done]. apply gate_addr_set. unfold stub. apply u64_range.
  - apply Forall_forall. intros i Hi%elem_of_seqZ. unfold INTR_IRQ_START, INTERRUPT_TABLE_MAX_ENTRIES in *. lia.
  - lia.
  - unfold exc_gate, idt_set_trap_gate_dpl3, idt_set_trap_gate, idt_entry_set. generalize (seqZ 0 15 ++ seqZ 16 6) as vs.
    intros vs. assert (length (replicate (Z.to_nat INTERRUPT_TABLE_MAX_ENTRIES) no_gate) = 256%nat) as H by done.
    revert H. generalize (replicate (Z.to_nat INTERRUPT_TABLE_MAX_ENTRIES) no_gate) as t.
    induction vs as [|i vs IH]; intros t Ht; [done|]. cbn [fold_left]. apply IH.
    case_match; by rewrite length_insert.
Qed.

(** An interrupt runs what is registered for its vector. *)
Lemma deliver_vector cs v s :
  32 <= v < 256 -> deliver intr_stubs (idt_init exc intr_stubs) cs v s = intr_common_handler cs v s.
Proof.
  intros Hv. destruct (idt_init_gate v Hv) as (e & Ee & Ha & _). unfold deliver. rewrite Ee. cbn [mbind option_bind].
  by rewrite Ha, stub_vector.
Qed.

End Gates.

Lemma gdt_init_correct_witness :
  exists g' t' r, gdt_init true (replicate 256 0) 0xffffffff80123450 (Tss 1 2 3) (4, 5) = Some (g', t', r) /\
    segment g' USER_CODE_SELECTOR 3 true.
Proof.
  destruct (gdt_init_correct true (replicate 256 0) 0xffffffff80123450 (Tss 1 2 3) (4, 5) ltac:(reflexivity) ltac:(lia))
    as (g' & t' & r & E & _ & _ & _ & _ & H & _).
  exists g', t', r. split; [exact E|exact H].
Defined.
