(* ===== verification/IrqProofs.v ===== *)
(** * Interrupts: proofs

    A line of an I/O controller that is registered with a handler leads to that handler: the redirection
    entry names the vector, the gate of the vector leads to its stub, and the table holds the handler.
    The controllers are any hardware that follows the documented use of their index and
    data registers ([IoApicLaws]). *)

From S2P Require Import Prelude DList Pmm KLib Acpi Ptm PtmProofs Vmalloc Slab Vmm Cpuf Irq Desc DescProofs.

(** ** The documented controller

    A controller has 32-bit registers; a store to its base selects one, which the window then
    reads and writes.  Of the redirection registers the delivery status, the remote IRR and the reserved bits
    are not changed by a store. *)

Definition low_mask : Z := 0x1afff.
Definition high_mask : Z := 0xff000000.
Definition reg_mask (r : Z) : Z := if Z.even r then low_mask else high_mask.
Definition store_bits (mask old v : Z) : Z := Z.lor (Z.land old (Z.lnot mask)) (Z.land v mask).

Class IoApicLaws (D : Type) `{Hw D} := {
  is_ctl : Z -> Prop;
  io_reg : D -> Z -> Z -> Z;
  io_sel : D -> Z -> Z;
  io_range : forall d b r, 0 <= io_reg d b r < 2 ^ 32;
  select_keeps : forall d b x b' r, is_ctl b -> io_reg (mmio_write b x d) b' r = io_reg d b' r;
  select_sel : forall d b x, is_ctl b -> 0 <= x < 256 -> io_sel (mmio_write b x d) b = x;
  window_read : forall d b, is_ctl b -> mmio_read (b + IOWIN) d = io_reg d b (io_sel d b);
  window_write : forall d b v b' r, is_ctl b -> 0x10 <= io_sel d b -> 0 <= v < 2 ^ 32 ->
    io_reg (mmio_write (b + IOWIN) v d) b' r =
    if bool_decide (b' = b /\ r = io_sel d b) then store_bits (reg_mask r) (io_reg d b r) v else io_reg d b' r;
}.

(** ** Words made of two registers *)

Definition rte_word (hi lo : Z) : Z := Z.lor (Z.shiftl hi 32) lo.
Definition rte_bits : Z := rte_word high_mask low_mask.

Lemma testbit_store mask old v i :
  0 <= i -> Z.testbit (store_bits mask old v) i = if Z.testbit mask i then Z.testbit v i else Z.testbit old i.
Proof.
  intros Hi. unfold store_bits. rewrite Z.lor_spec, !Z.land_spec, Z.lnot_spec by done.
  destruct (Z.testbit mask i); simpl; by rewrite ?andb_false_r, ?andb_true_r, ?orb_false_r.
Qed.

Lemma testbit_rte hi lo i :
  0 <= i -> 0 <= lo < 2 ^ 32 -> Z.testbit (rte_word hi lo) i = if i <? 32 then Z.testbit lo i else Z.testbit hi (i - 32).
Proof.
  intros Hi Hlo. unfold rte_word. rewrite Z.lor_spec, testbit_shiftl by lia. bit_cases.
  by rewrite (testbit_small lo 32), orb_false_r by lia.
Qed.

Lemma store_range mask old v w :
  0 <= w -> 0 <= old < 2 ^ w -> 0 <= v < 2 ^ w -> 0 <= store_bits mask old v < 2 ^ w.
Proof.
  intros Hw Ho Hv. assert (store_bits mask old v = store_bits mask old v mod 2 ^ w) as ->; [|apply Z.mod_pos_bound; lia].
  apply Z.bits_inj'. intros i Hi. rewrite testbit_mod, testbit_store by done. destruct (Z.ltb_spec i w); [done|].
  destruct (Z.testbit mask i); by apply (testbit_small _ w).
Qed.

Lemma store_rte hi lo v :
  0 <= hi < 2 ^ 32 -> 0 <= lo < 2 ^ 32 ->
  rte_word (store_bits high_mask hi (Z.land (Z.shiftr v 32) 0xffffffff)) (store_bits low_mask lo (Z.land v 0xffffffff)) =
  store_bits rte_bits (rte_word hi lo) v.
Proof.
  intros Hh Hl. change 0xffffffff with (Z.ones 32).
  assert (0 <= store_bits low_mask lo (Z.land v (Z.ones 32)) < 2 ^ 32) as Hs.
  { apply store_range; [lia|done|]. rewrite Z.land_ones by lia. apply Z.mod_pos_bound. lia. }
  apply Z.bits_inj'. intros i Hi. rewrite testbit_rte, (testbit_store rte_bits) by done.
  unfold rte_bits. rewrite !testbit_rte by done. destruct (Z.ltb_spec i 32).
  - rewrite testbit_store, testbit_masked by lia. bit_cases.
  - rewrite testbit_store, testbit_masked, Z.shiftr_spec by lia. bit_cases.
    + by replace (i - 32 + 32) with i by lia.
    + by rewrite (testbit_small high_mask 32) by (done || lia).
Qed.

(** Stores that change only writable bits are what they say. *)
Lemma store_exact mask old v :
  (forall i, 0 <= i -> Z.testbit mask i = false -> Z.testbit v i = Z.testbit old i) -> store_bits mask old v = v.
Proof.
  intros H. apply Z.bits_inj'. intros i Hi. rewrite testbit_store by done.
  destruct (Z.testbit mask i) eqn:E; [done|]. symmetry. by apply H.
Qed.

Section Ctl.
Context {D : Type} `{IoApicLaws D}.

(** The redirection entry of a line. *)
Definition rte (d : D) (b i : Z) : Z := rte_word (io_reg d b (IOAPIC_REDTBL i + 1)) (io_reg d b (IOAPIC_REDTBL i)).

Lemma reg_read_spec b r d :
  is_ctl b -> 0 <= r < 256 ->
  exists d', ioapic_reg_read b r d = (io_reg d b r, d') /\ forall b' r', io_reg d' b' r' = io_reg d b' r'.
Proof.
  intros Hb Hr. unfold ioapic_reg_read. rewrite u8_small by done. eexists. split; [|intros; by apply select_keeps].
  by rewrite window_read, select_sel, select_keeps by done.
Qed.

Lemma reg_write_spec b r v d b' r' :
  is_ctl b -> 0x10 <= r < 256 -> 0 <= v < 2 ^ 32 ->
  io_reg (ioapic_reg_write b r v d) b' r' =
  if bool_decide (b' = b /\ r' = r) then store_bits (reg_mask r) (io_reg d b r) v else io_reg d b' r'.
Proof.
  intros Hb Hr Hv. unfold ioapic_reg_write. rewrite u8_small, u32_small by lia.
  rewrite window_write; rewrite ?select_sel by (done || lia); try done; [|lia].
  repeat case_bool_decide; rewrite ?select_keeps by done; try done. by destruct_and?; subst.
Qed.

Lemma read_rte_spec b i d :
  is_ctl b -> 0 <= i < 120 ->
  exists d', ioapic_read_rte b i d = (rte d b i, d') /\ forall b' r', io_reg d' b' r' = io_reg d b' r'.
Proof.
  intros Hb Hi. unfold ioapic_read_rte, IOAPIC_REDTBL.
  destruct (reg_read_spec b (0x10 + i * 2 + 1) d Hb ltac:(lia)) as (d1 & -> & E1).
  destruct (reg_read_spec b (0x10 + i * 2) d1 Hb ltac:(lia)) as (d2 & -> & E2).
  exists d2. split; [|intros; by rewrite E2, E1]. f_equal. unfold rte, rte_word, IOAPIC_REDTBL. rewrite E1. f_equal.
  pose proof (io_range d b (0x10 + i * 2 + 1)). rewrite u64_small; [done|]. rewrite Z.shiftl_mul_pow2 by lia. lia.
Qed.

Lemma write_rte_spec b i v d b' j :
  is_ctl b -> 0 <= i < 120 ->
  rte (ioapic_write_rte b i v d) b' j =
  if bool_decide (b' = b /\ j = i) then store_bits rte_bits (rte d b i) v else rte d b' j.
Proof.
  intros Hb Hi. unfold ioapic_write_rte, rte at 1, IOAPIC_REDTBL.
  assert (forall x, 0 <= Z.land x 0xffffffff < 2 ^ 32) as Hm.
  { intros x. change 0xffffffff with (Z.ones 32). rewrite Z.land_ones by lia. apply Z.mod_pos_bound. lia. }
  rewrite !reg_write_spec by (done || lia || apply Hm). destruct (decide (b' = b /\ j = i)) as [[-> ->]|E].
  - rewrite !bool_decide_eq_true_2 by (split; [done|lia]).
    rewrite !bool_decide_eq_false_2 by lia. rewrite ?bool_decide_eq_true_2 by done.
    unfold rte, IOAPIC_REDTBL. rewrite <- store_rte by apply io_range.
    assert (reg_mask (16 + i * 2 + 1) = high_mask) as ->.
    { unfold reg_mask. replace (16 + i * 2 + 1) with (1 + 2 * (8 + i)) by lia. by rewrite Z.even_add_mul_2. }
    assert (reg_mask (16 + i * 2) = low_mask) as ->; [|done].
    unfold reg_mask. replace (16 + i * 2) with (0 + 2 * (8 + i)) by lia. by rewrite Z.even_add_mul_2.
  - rewrite (bool_decide_eq_false_2 (b' = b /\ j = i)) by done.
    assert (forall r, r = 16 + i * 2 \/ r = 16 + i * 2 + 1 ->
      bool_decide (b' = b /\ 16 + j * 2 + 1 = r) = false /\ bool_decide (b' = b /\ 16 + j * 2 = r) = false) as Hne.
    { intros r Hr. split; apply bool_decide_eq_false_2; intros [-> ?]; apply E; (split; [done|]); lia. }
    destruct (Hne (16 + i * 2)) as [-> ->]; [by left|]. destruct (Hne (16 + i * 2 + 1)) as [-> ->]; [by right|]. done.
Qed.

(** Read, change, write, for changes of writable bits. *)
Definition writable (f : Z -> Z) : Prop :=
  forall e i, 0 <= i -> Z.testbit rte_bits i = false -> Z.testbit (f e) i = Z.testbit e i.

Lemma change_rte_spec cs irq c f d :
  ioapic_get_by_irq cs irq = Some c -> is_ctl (ia_virt_addr c) -> 0 <= irq < 120 -> writable f ->
  exists d', change_rte cs irq f d = Some d' /\
    rte d' (ia_virt_addr c) irq = f (rte d (ia_virt_addr c) irq) /\
    forall b j, ~ (b = ia_virt_addr c /\ j = irq) -> rte d' b j = rte d b j.
Proof.
  intros Hc Hb Hi Hf. unfold change_rte, ioapic_get_rtentry, ioapic_set_rtentry. rewrite Hc. cbn [mbind option_bind].
  destruct (read_rte_spec (ia_virt_addr c) irq d Hb Hi) as (d1 & -> & E1). eexists. split; [done|].
  assert (forall b j, rte d1 b j = rte d b j) as E by (intros; unfold rte; by rewrite !E1). split.
  - rewrite write_rte_spec, bool_decide_eq_true_2, E by done. apply store_exact. intros i Hi' Hm. by apply Hf.
  - intros b j Hne. by rewrite write_rte_spec, bool_decide_eq_false_2, E by done.
Qed.

Lemma set_field_writable off w v :
  0 <= off -> 0 <= w -> (forall i, off <= i < off + w -> Z.testbit rte_bits i = true) -> writable (fun e => set_field e off w v).
Proof.
  intros Ho Hw Hm e i Hi Hb. rewrite testbit_set_field by done. case_bool_decide as E; [|done].
  by rewrite (Hm i E) in Hb.
Qed.

Lemma compose_writable f g : writable f -> writable g -> writable (fun e => f (g e)).
Proof. intros Hf Hg e i Hi Hb. by rewrite Hf, Hg. Qed.

Lemma vector_writable v : writable (set_vector v).
Proof.
  apply set_field_writable; [lia..|]. intros i Hi.
  assert (Forall (fun i => Z.testbit rte_bits i = true) (seqZ 0 8)) as F by (vm_compute; repeat constructor).
  rewrite Forall_forall in F. apply F, elem_of_seqZ. lia.
Qed.
Lemma trigger_writable v : writable (set_trigger_mode v).
Proof. apply set_field_writable; [lia..|]. intros i Hi. by replace i with 15 by lia. Qed.
Lemma mask_writable v : writable (set_mask v).
Proof. apply set_field_writable; [lia..|]. intros i Hi. by replace i with 16 by lia. Qed.

(** ** From the line to the handler *)

(** Reading back a field. *)
Lemma field_set_field e off w v : 0 <= off -> 0 <= w -> field (set_field e off w v) off w = v mod 2 ^ w.
Proof.
  intros Ho Hw. apply Z.bits_inj'. intros i Hi. rewrite testbit_field, testbit_mod by lia.
  destruct (Z.ltb_spec i w); [|done]. simpl. rewrite testbit_set_field, bool_decide_eq_true_2 by lia. f_equal. lia.
Qed.
Lemma field_set_field_ne e off w v off' w' :
  0 <= off -> 0 <= w -> 0 <= off' -> 0 <= w' -> off + w <= off' \/ off' + w' <= off ->
  field (set_field e off w v) off' w' = field e off' w'.
Proof.
  intros. apply Z.bits_inj'. intros i Hi. rewrite !testbit_field by lia.
  destruct (Z.ltb_spec i w'); [|done]. simpl. rewrite testbit_set_field, bool_decide_eq_false_2 by lia. done.
Qed.

Context (exc : Z -> Z) (intr_stubs : Z).

(** The state of the line [irq] before it is registered: controller [c] serves it, no override
    replaces it, and its vector is free. *)
Record line_ready (s : irq_state D) (c : ioapic_data_t) (irq : Z) (r : isr_register_t) : Prop := {
  lr_ctl : ioapic_get_by_irq (ctls s) irq = Some c;
  lr_base : is_ctl (ia_virt_addr c);
  lr_irq : 0 <= irq < 120;
  lr_hard : irq <= irq_external_max (isr s);
  lr_own : irq < NUM_ISA_IRQS -> exists o, at_index (isr_isa_overrides (isr s)) irq = Some o /\ o_used o = false;
  lr_free : at_index (isr_registers (isr s)) (irq_to_vector irq) = Some r /\ used r = false;
}.

Lemma register_handler_spec vector h s r :
  at_index (isr_registers s) vector = Some r -> used r = false ->
  exists s', isr_register_handler vector h s = Some s' /\
    irq_external_max s' = irq_external_max s /\ isr_isa_overrides s' = isr_isa_overrides s /\
    forall v, at_index (isr_registers s') v =
      if v =? vector then Some (IsrRegister (isr_type r) h true) else at_index (isr_registers s) v.
Proof.
  intros Hr Hu. unfold isr_register_handler. rewrite Hr. cbn [mbind option_bind]. rewrite Hu.
  destruct (put_index (isr_registers s) vector _) as [rs|] eqn:E.
  - cbn [mbind option_bind]. eexists. split_and!; [done..|]. intros v. cbn [isr_registers set_registers].
    by apply (at_put_index _ _ _ v _ E).
  - unfold put_index in E. by rewrite Hr in E.
Qed.

Lemma isr_setup_irq_own s c irq r :
  line_ready s c irq r ->
  exists d', isr_setup_irq irq s = Some (IrqState (isr s) (ctls s) d', irq_to_vector irq) /\
    rte d' (ia_virt_addr c) irq =
      set_vector (irq_to_vector irq) (set_trigger_mode IOAPIC_EDGE (rte (dev s) (ia_virt_addr c) irq)) /\
    forall b j, ~ (b = ia_virt_addr c /\ j = irq) -> rte d' b j = rte (dev s) b j.
Proof.
  intros [Hc Hb Hi Hh Ho Hf]. unfold isr_setup_irq. rewrite (proj2 (Z.ltb_ge _ _)) by done.
  destruct (change_rte_spec (ctls s) irq c _ (dev s) Hc Hb Hi
    (compose_writable _ _ (vector_writable (irq_to_vector irq)) (trigger_writable IOAPIC_EDGE))) as (d' & E & Hr & Hn).
  exists d'. split_and!; [|done..]. unfold ioapic_set_irq_vector. cbv beta in E.
  destruct (Z.ltb_spec irq NUM_ISA_IRQS) as [Hl|Hl].
  - destruct (Ho Hl) as (o & -> & Hu). cbn [mbind option_bind]. rewrite Hu, E. done.
  - cbn [mbind option_bind o_used]. rewrite E. done.
Qed.
Lemma setup_own_vector irq s s' v :
  isr_setup_irq irq s = Some (s', v) -> irq <= irq_external_max (isr s) ->
  (irq < NUM_ISA_IRQS -> exists o, at_index (isr_isa_overrides (isr s)) irq = Some o /\ o_used o = false) ->
  v = irq_to_vector irq /\ isr s' = isr s.
Proof.
  unfold isr_setup_irq. intros E Hh Ho. rewrite (proj2 (Z.ltb_ge _ _)) in E by done.
  destruct (Z.ltb_spec irq NUM_ISA_IRQS) as [Hl|Hl].
  - destruct (Ho Hl) as (o & Eo & Hu). rewrite Eo in E. cbn [mbind option_bind] in E. rewrite Hu in E.
    destruct (ioapic_set_irq_vector _ _ _ _); [|done]. by injection E as <- <-.
  - cbn [mbind option_bind o_used] in E. destruct (ioapic_set_irq_vector _ _ _ _); [|done]. by injection E as <- <-.
Qed.

(** ** What the code does not do *)

Lemma bit_writable off v :
  0 <= off -> Z.testbit rte_bits off = true -> writable (fun e => set_field e off 1 v).
Proof. intros Ho Hb. apply set_field_writable; [lia..|]. intros i Hi. by replace i with off by lia. Qed.

Lemma destination_writable v : writable (set_destination v).
Proof.
  apply set_field_writable; [lia..|]. intros i Hi.
  assert (Forall (fun i => Z.testbit rte_bits i = true) (seqZ 56 8)) as F by (vm_compute; repeat constructor).
  rewrite Forall_forall in F. apply F, elem_of_seqZ. lia.
Qed.

(** The change that [ioapic_set_isa_irq_flags] makes. *)
Definition isa_entry (vector p t e : Z) : Z :=
  set_trigger_mode t (set_pin_polarity p
    (set_mask 1 (set_destination 0 (set_dest_mode IOAPIC_DEST_PHYSICAL (set_vector vector e))))).

Lemma set_isa_irq_flags_spec cs irq c vector flags p t d :
  ioapic_get_by_irq cs irq = Some c -> is_ctl (ia_virt_addr c) -> 0 <= irq < 120 ->
  iso_polarity flags = Some p -> iso_trigger flags = Some t ->
  exists d', ioapic_set_isa_irq_flags cs irq vector flags d = Some d' /\
    rte d' (ia_virt_addr c) irq = isa_entry vector p t (rte d (ia_virt_addr c) irq) /\
    forall b j, ~ (b = ia_virt_addr c /\ j = irq) -> rte d' b j = rte d b j.
Proof.
  intros Hc Hb Hi Hp Ht.
  assert (writable (isa_entry vector p t)) as Hw.
  { unfold isa_entry. apply (compose_writable (set_trigger_mode t)); [apply trigger_writable|].
    apply (compose_writable (set_pin_polarity p)); [by apply bit_writable|].
    apply (compose_writable (set_mask 1)); [apply mask_writable|].
    apply (compose_writable (set_destination 0)); [apply destination_writable|].
    apply (compose_writable (set_dest_mode _)); [by apply bit_writable|apply vector_writable]. }
  destruct (change_rte_spec cs irq c _ d Hc Hb Hi Hw) as (d' & E & Hr & Hn). exists d'. split_and!; [|done..].
  unfold change_rte in E. unfold ioapic_set_isa_irq_flags. destruct (ioapic_get_rtentry cs irq d) as [[e d1]|]; [|done].
  cbn [mbind option_bind] in *. by rewrite Hp, Ht.
Qed.

(** A line that an override replaces: the entry of the new line stays masked, because the old one is unmasked. *)
Lemma overridden_line_stays_masked irq o fl c p t h s s' :
  at_index (isr_isa_overrides (isr s)) irq = Some o -> o_used o = true -> o_dest o <> irq -> irq <= irq_external_max (isr s) ->
  irq < NUM_ISA_IRQS -> at_index (isr_isa_overrides (isr s)) (o_dest o) = Some fl ->
  ioapic_get_by_irq (ctls s) (o_dest o) = Some c -> ioapic_get_by_irq (ctls s) irq = Some c ->
  is_ctl (ia_virt_addr c) -> 0 <= irq < 120 -> 0 <= o_dest o < 120 ->
  iso_polarity (o_flags fl) = Some p -> iso_trigger (o_flags fl) = Some t ->
  isr_register_irq_h irq h s = Some s' -> rte_mask (rte (dev s') (ia_virt_addr c) (o_dest o)) = 1.
Proof.
  intros Ho Hu Hne Hh Hisa Hfl Hc Hc' Hb Hi Hd Hp Ht. unfold isr_register_irq_h.
  destruct (NUM_INTERRUPTS <=? irq); [done|]. unfold isr_setup_irq.
  rewrite (proj2 (Z.ltb_ge _ _)), (proj2 (Z.ltb_lt _ _)), Ho by done. cbn [mbind option_bind]. rewrite Hu, Hfl. cbn [mbind option_bind].
  destruct (set_isa_irq_flags_spec (ctls s) (o_dest o) c (irq_to_vector (o_dest o)) (o_flags fl) p t (dev s) Hc Hb Hd Hp Ht)
    as (d1 & -> & Hr & _). cbn [mbind option_bind isr ctls dev].
  destruct (isr_register_handler _ h (isr s)) as [i1|] eqn:Ei; [|done]. cbn [mbind option_bind].
  unfold enable_hard, isr_is_softirq. cbn [isr].
  assert (irq_external_max i1 = irq_external_max (isr s)) as Em.
  { unfold isr_register_handler in Ei. destruct (at_index (isr_registers (isr s)) _) as [r|]; [|done]. cbn [mbind option_bind] in Ei.
    destruct (used r); [done|]. destruct (put_index _ _ _); [|done]. by injection Ei as <-. }
  rewrite Em, (proj2 (Z.ltb_ge _ _)) by done. cbn [andb]. unfold isr_enable_irq, ioapic_set_irq_mask. cbn [ctls dev].
  destruct (change_rte_spec (ctls s) irq c _ d1 Hc' Hb Hi (mask_writable 0)) as (d2 & -> & _ & Hn). cbn [mbind option_bind].
  intros [= <-]. cbn [dev]. rewrite Hn by (intros [_ ?]; done). rewrite Hr. unfold isa_entry, rte_mask.
  unfold set_trigger_mode, set_pin_polarity, set_mask. rewrite !field_set_field_ne, field_set_field by lia. done.
Qed.

(** The lines of a second controller, and the line behind the last one, have no controller: registering them faults. *)
Lemma second_controller_unreachable c1 c2 irq :
  0 <= irq < 2 ^ 31 -> redir_tbl_entry c1 <= irq -> gsi_base c2 >= redir_tbl_entry c2 ->
  ioapic_get_by_irq [c1; c2; no_ioapic; no_ioapic] irq = None.
Proof.
  intros Hi H1 H2. unfold ioapic_get_by_irq.
  assert (forall c, c ∈ [c1; c2; no_ioapic; no_ioapic] -> serves irq c = false) as Hs.
  { intros c Hc. unfold serves. rewrite u32_small by lia. apply andb_false_iff. rewrite Z.leb_gt, Z.ltb_ge.
    repeat (apply elem_of_cons in Hc as [->|Hc]); [by right|lia|right; cbn; lia|right; cbn; lia|by apply not_elem_of_nil in Hc]. }
  destruct (filter _ _) as [|c l] eqn:E; [done|]. assert (c ∈ c :: l) as Hin by left. rewrite <- E in Hin.
  apply list_elem_of_filter in Hin as [Hc1 Hc2]. by rewrite Hs in Hc1.
Qed.
End Ctl.

(** Setting a bit of an empty bitmap leaves it empty: a reserved number can be reserved again. *)
Lemma reserved_irq_not_marked irq s :
  irq_bitmap s = replicate 32 0 -> 0 <= irq < 256 -> isr_reserve_irq irq s = Some s.
Proof.
  intros Hb Hi. unfold isr_reserve_irq, _irq_bitmap_is_set, _irq_bitmap_set, change_bits. rewrite Hb.
  assert (Z.quot irq 8 = irq / 8) as Eq by (apply Z.quot_div_nonneg; lia).
  assert (0 <= irq / 8 < 32) as Hq by (Z.div_mod_to_equations; lia).
  rewrite Eq, at_index_ok, lookup_replicate_2 by lia. cbn [mbind option_bind]. rewrite Z.land_0_l. cbn [ctrue negb Z.eqb].
  rewrite put_index_ok by (rewrite length_replicate; lia). cbn [mbind option_bind]. rewrite insert_replicate.
  f_equal. destruct s. cbn in *. by subst.
Qed.

(** A handler that is removed leaves its vector in use. *)
Lemma unregistered_vector_stays_used vector h h' s s' s'' :
  isr_register_handler vector h s = Some s' -> isr_unregister_handler vector s' = Some s'' ->
  isr_register_handler vector h' s'' = None.
Proof.
  unfold isr_register_handler at 1. destruct (at_index (isr_registers s) vector) as [r|]; [|done]. cbn [mbind option_bind].
  destruct (used r); [done|]. destruct (put_index (isr_registers s) vector _) as [rs|] eqn:E; [|done]. cbn [mbind option_bind].
  intros [= <-]. unfold isr_unregister_handler. cbn [isr_registers set_registers].
  rewrite (at_put_index _ _ _ vector _ E), Z.eqb_refl. cbn [mbind option_bind used].
  destruct (put_index rs vector _) as [rs2|] eqn:E2; [|done]. cbn [mbind option_bind]. intros [= <-].
  unfold isr_register_handler. cbn [isr_registers set_registers]. by rewrite (at_put_index _ _ _ vector _ E2), Z.eqb_refl.
Qed.

(** The bit that [apic_enable_apic] sets is not the enable bit: a controller that is off stays off and the
    initialisation panics. *)
Lemma disabled_apic_panics {D} `{Hw D} (d : D) :
  (forall a v, read_msr a (write_msr a v d) = v) ->
  Z.land (apic_msr_get_base d) APIC_MSR_BASE_XAPIC_ENABLE = 0 -> enable_xapic d = None.
Proof.
  intros Hrw H0. unfold enable_xapic. rewrite H0. cbn [Z.eqb APIC_MSR_BASE_XAPIC_ENABLE].
  unfold apic_msr_get_base, apic_enable_apic in *. rewrite Hrw, Z.land_lor_distr_l, H0. done.
Qed.

(** ** A concrete controller *)

(** One controller, its selected register and its registers. *)
Record demo_ctl := DemoCtl { dc_sel : Z; dc_regs : gmap Z Z }.
Definition demo_base : Z := 0xfec00000.
Definition dc_get (d : demo_ctl) (r : Z) : Z := u32 (default 0 (dc_regs d !! r)).

#[local] Instance demo_hw : Hw demo_ctl := {
  mmio_read a d := if a =? demo_base + IOWIN then dc_get d (dc_sel d) else 0;
  mmio_write a v d :=
    if a =? demo_base then DemoCtl v (dc_regs d)
    else if a =? demo_base + IOWIN then
      DemoCtl (dc_sel d) (<[dc_sel d := store_bits (reg_mask (dc_sel d)) (dc_get d (dc_sel d)) v]> (dc_regs d))
    else d;
  read_msr _ _ := 0;
  write_msr _ _ d := d;
  __cpuid _ _ := Cpuid (Z.shiftl 1 9) 0 0 1;
}.

Lemma demo_window_write d b v b' r :
  b = demo_base -> 0x10 <= dc_sel d -> 0 <= v < 2 ^ 32 ->
  (if b' =? demo_base then dc_get (mmio_write (b + IOWIN) v d) r else 0) =
  if bool_decide (b' = b /\ r = dc_sel d)
  then store_bits (reg_mask r) (if b =? demo_base then dc_get d r else 0) v else (if b' =? demo_base then dc_get d r else 0).
Proof.
  intros -> Hs Hv. rewrite Z.eqb_refl. destruct (Z.eqb_spec b' demo_base) as [->|Hne].
  2:{ rewrite bool_decide_eq_false_2 by naive_solver. done. }
  cbn [mmio_write demo_hw]. change (demo_base + IOWIN =? demo_base) with false. rewrite Z.eqb_refl. unfold dc_get at 1. cbn [dc_regs].
  rewrite lookup_insert. case_decide as E.
  - subst r. rewrite bool_decide_eq_true_2 by done. simpl default. apply u32_small. apply store_range; [lia|apply u32_range|done].
  - rewrite bool_decide_eq_false_2 by naive_solver. done.
Qed.

#[local] Instance demo_ctl_laws : IoApicLaws demo_ctl.
Proof.
  refine {| is_ctl b := b = demo_base; io_reg d b r := if b =? demo_base then dc_get d r else 0;
            io_sel d b := dc_sel d |}.
  - intros d b r. case_match; [apply u32_range|lia].
  - intros d b x b' r ->. cbn [mmio_write demo_hw]. by rewrite Z.eqb_refl.
  - intros d b x -> Hx. cbn [mmio_write demo_hw]. by rewrite Z.eqb_refl.
  - intros d b ->. cbn [mmio_read demo_hw]. by rewrite !Z.eqb_refl.
  - exact demo_window_write.
Defined.

(** The keyboard's line 1 of a controller with 24 lines that are masked at start. *)
Definition demo_line : ioapic_data_t := IoApic demo_base demo_base 2 2 0x20 24 0.
Definition demo_irq_state : irq_state demo_ctl :=
  IrqState (Isr (isr_init0 ISR_TYPE_UNKNOWN) (replicate 32 0) 24 (replicate 16 (Override false 0 0)))
    [demo_line; no_ioapic; no_ioapic; no_ioapic] (DemoCtl 0 (list_to_map ((fun i => (0x10 + 2 * i, 0x10000)) <$> seqZ 0 24))).

Lemma demo_line_ready :
  line_ready demo_irq_state demo_line 1 (IsrRegister ISR_TYPE_UNKNOWN unhandled_interrupt_handler false).
Proof.
  constructor; [vm_compute; reflexivity|reflexivity|lia|vm_compute; discriminate| |split; vm_compute; reflexivity].
  intros _. exists (Override false 0 0). split; vm_compute; reflexivity.
Qed.

