(* ===== verification/Timer.v ===== *)
(** * Timers

    [kernel/src/system/hpet.c], [tsc.c] and [timer.c]: the event timer, the calibration and use of the
    time stamp counter, and the timer of the local interrupt controller.

    The counters are hardware and a parameter: class [Clocks] for the memory-mapped 64-bit registers
    and the time stamp counter, where every access passes a new state of the machine on, [Ports] of [Ata] for the interval
    timer and [Hw] of [Irq] for the local controller.  [None] is a panic, a division by zero, the use of a
    null table or, in a loop that waits for a counter, exhausted fuel. *)

From S2P Require Import Prelude DList Pmm KLib Acpi Ptm Vmalloc Slab Vmm Cpuf Irq Ata.

Class Clocks (D : Type) := {
  mmio_read64 : Z -> D -> Z * D;
  mmio_write64 : Z -> Z -> D -> D;
  rdtsc : D -> Z * D;
}.

(** [for (;;)] until [clock] is [amount] past [start], in 64-bit arithmetic. *)
Fixpoint wait_clock {D} (fuel : nat) (clock : D -> Z * D) (start amount : Z) (d : D) : option D :=
  match fuel with
  | O => None
  | S fuel =>
    let '(now, d) := clock d in
    if amount <=? u64 (now - start) then Some d else wait_clock fuel clock start amount d
  end.

(** ** hpet.c *)

Definition HPET_GENERAL_CAP_ID : Z := 0x000.
Definition HPET_GENERAL_CONF : Z := 0x010.
Definition HPET_MCV : Z := 0x0f0.

(** Offsets of [address.address] in the table. *)
Definition hpet_address : Z := 44.

Record hpet_t := Hpet { hpet_base : Z; hpet_count_size_cap : Z; hpet_freq_khz : Z; hpet_period_ns_ : Z }.
Definition no_hpet : hpet_t := Hpet 0 0 0 0.

Section Hpet.
Context {D : Type} `{Clocks D}.

Definition hpet_reg_read (h : hpet_t) (offset : Z) (d : D) : Z * D := mmio_read64 (u64 (hpet_base h + offset)) d.
Definition hpet_reg_write (h : hpet_t) (offset value : Z) (d : D) : D :=
  mmio_write64 (u64 (hpet_base h + offset)) value d.

(** [sdt] is the result of [acpi_get_sdt]; the last result is the call of [vmm_map], with the page count and
    flags, when the timer has an address. *)
Definition hpet_init (m : memory) (sdt : Z) (d : D) : option (hpet_t * D * option (Z * Z * Z * Z)) :=
  if sdt =? 0 then None else
  let address := load_le 8 m (sdt + hpet_address) in
  if address =? 0 then Some (no_hpet, d, None) else
  let base := u64 (MI_DIRECT_MAPPING_RANGE_START + address) in
  let h := Hpet base 0 0 0 in
  let '(cap, d) := hpet_reg_read h HPET_GENERAL_CAP_ID d in
  let counter_clk_period := Z.land (Z.shiftr cap 32) 0xffffffff in
  if counter_clk_period =? 0 then None else
  let h := Hpet base (Z.land (Z.shiftr cap 13) 0x1)
             (1000000000000000 / counter_clk_period / 1000) (counter_clk_period / 1000000) in
  let '(conf, d) := hpet_reg_read h HPET_GENERAL_CONF d in
  Some (h, hpet_reg_write h HPET_GENERAL_CONF (Z.lor conf 0x1) d, Some (base, address, 1, VMM_FLAGS_MMIO)).

Definition hpet_get (h : hpet_t) (d : D) : Z * D := hpet_reg_read h HPET_MCV d.
Definition hpet_get_nanos (h : hpet_t) (d : D) : Z * D :=
  let '(c, d) := hpet_get h d in (u64 (c * hpet_period_ns_ h), d).
Definition hpet_get_millis (h : hpet_t) (d : D) : Z * D :=
  let '(n, d) := hpet_get_nanos h d in (n / 1000000, d).

Definition hpet_sleep_nanos (fuel : nat) (h : hpet_t) (nanos : Z) (d : D) : option D :=
  let '(start, d) := hpet_get_nanos h d in wait_clock fuel (hpet_get_nanos h) start nanos d.
Definition hpet_sleep_millis (fuel : nat) (h : hpet_t) (millis : Z) (d : D) : option D :=
  hpet_sleep_nanos fuel h (u64 (millis * 1000000)) d.

Definition hpet_enable (h : hpet_t) : bool := ctrue (hpet_base h).
Definition hpet_period (h : hpet_t) : Z := u64 (hpet_period_ns_ h * 1000000).
End Hpet.

(** ** tsc.c *)

Definition PIT_TICK_RATE : Z := 1193182.
Definition MAX_QUICK_PIT_ITERATIONS : Z := 25 * PIT_TICK_RATE / 1000 / 256.
Definition CALIBRATE_TICK_COUNT : Z := 100000000.

Section Tsc.
Context {D : Type} `{Clocks D} `{Ports D}.

(** The first read is thrown away. *)
Definition __pit_verify_msb (val : Z) (d : D) : bool * D :=
  let '(_, d) := port_inb 0x42 d in
  let '(b, d) := port_inb 0x42 d in (b =? val, d).

(** [for (count = 0; count < 50000; count++)]; [n] iterations are left.  The result is [count] and
    the last stamp. *)
Fixpoint expect_loop (n : nat) (val count tsc : Z) (d : D) : Z * Z * D :=
  match n with
  | O => (count, tsc, d)
  | S n =>
    let '(same, d) := __pit_verify_msb val d in
    if same : bool then let '(tsc, d) := rdtsc d in expect_loop n val (count + 1) tsc d else (count, tsc, d)
  end.
(** The verdict, [*tscp], [*deltap]. *)
Definition __pit_expect_msb (val : Z) (d : D) : bool * Z * Z * D :=
  let '(count, tsc, d) := expect_loop (Z.to_nat 50000) val 0 0 d in
  let '(now, d) := rdtsc d in
  (5 <? count, tsc, u64 (now - tsc), d).

(** The frequency from the stamps: [delta] ticks in [i * 256] of the timer, corrected by half of the difference
    of the uncertainties. *)
Definition pit_khz (delta d1 d2 i : Z) : Z :=
  u64 (u64 (delta + u64 (d2 - d1) / 2) * PIT_TICK_RATE) / (i * 256 * 1000).

(** [for (i = 1; ...)]; [n] iterations are left; 0 is failure. *)
Fixpoint pit_loop (n : nat) (i tsc d1 : Z) (d : D) : Z * D :=
  match n with
  | O => (0, d)
  | S n =>
    let '(ok, stamp, d2, d) := __pit_expect_msb (u8 (0xff - i)) d in
    if negb ok then (0, d) else
    let delta := u64 (stamp - tsc) in
    if Z.shiftr delta 11 <=? u64 (d1 + d2) then pit_loop n (i + 1) tsc d1 d else
    let '(same, d) := __pit_verify_msb (u8 (0xfe - i)) d in
    if negb same then (0, d) else (pit_khz delta d1 d2 i, d)
  end.

Definition __quick_pit_calibrate_tsc (d : D) : Z * D :=
  let '(b, d) := port_inb 0x61 d in
  let d := port_outb 0x61 (u8 (Z.lor (Z.land b (Z.lnot 0x2)) 0x1)) d in
  let d := port_outb 0x42 0xff (port_outb 0x42 0xff (port_outb 0x43 0xb0 d)) in
  let '(_, d) := __pit_verify_msb 0 d in
  let '(ok, tsc, d1, d) := __pit_expect_msb 0xff d in
  if ok : bool then pit_loop (Z.to_nat (MAX_QUICK_PIT_ITERATIONS - 1)) 1 tsc d1 d else (0, d).

(** The loop runs until both counters have made their ticks. *)
Fixpoint calibrate_loop (fuel : nat) (h : hpet_t) (tsc_start hpet_start : Z) (d : D) : option (Z * Z * D) :=
  match fuel with
  | O => None
  | S fuel =>
    let '(hpet_now, d) := hpet_get h d in
    let '(tsc_now, d) := rdtsc d in
    if (u64 (tsc_now - tsc_start) <? CALIBRATE_TICK_COUNT) || (u64 (hpet_now - hpet_start) <? CALIBRATE_TICK_COUNT)
    then calibrate_loop fuel h tsc_start hpet_start d
    else Some (u64 (tsc_now - tsc_start), u64 (hpet_now - hpet_start), d)
  end.
Definition __hpet_calibrate_tsc (fuel : nat) (h : hpet_t) (d : D) : option (Z * D) :=
  if negb (hpet_enable h) then Some (0, d) else
  let '(tsc_start, d) := rdtsc d in
  let '(hpet_start, d) := hpet_get h d in
  '(tsc_cycles, hpet_cycles, d) ← calibrate_loop fuel h tsc_start hpet_start d;
  let hpet_times_ns := u64 (hpet_cycles * hpet_period h) / 1000000 in
  if hpet_times_ns =? 0 then None else Some (u64 (tsc_cycles * 1000000) / hpet_times_ns, d).

Definition __calibrate_tsc (fuel : nat) (h : hpet_t) (d : D) : option (Z * D) :=
  let '(khz, d) := __quick_pit_calibrate_tsc d in
  if ctrue khz then Some (khz, d) else __hpet_calibrate_tsc fuel h d.

(** The result is [tsc_freq_khz]. *)
Definition tsc_init (fuel : nat) (h : hpet_t) (d : D) : option (Z * D) :=
  '(khz, d) ← __calibrate_tsc fuel h d;
  if khz =? 0 then None else Some (khz, d).

Definition tsc_delay (fuel : nat) (xloops : Z) (d : D) : option D :=
  let '(start, d) := rdtsc d in wait_clock fuel rdtsc start xloops d.
Definition tsc_sleep_millis (fuel : nat) (khz millis : Z) (d : D) : option D := tsc_delay fuel (u64 (khz * millis)) d.
Definition tsc_get_nanos (khz : Z) (d : D) : option (Z * D) :=
  if khz =? 0 then None else let '(c, d) := rdtsc d in Some (c / khz / 1000000, d).
Definition tsc_get_millis (khz : Z) (d : D) : option (Z * D) :=
  if khz =? 0 then None else let '(c, d) := rdtsc d in Some (c / khz, d).
End Tsc.

(** ** timer.c *)

Definition APIC_TIMER_IRQ : Z := 222.
Definition APIC_REG_LVT_TIMER : Z := 0x320.
Definition APIC_TIMER_REG_ICR : Z := 0x380.
Definition APIC_TIMER_REG_CCR : Z := 0x390.
Definition APIC_TIMER_REG_DCR : Z := 0x3e0.
Definition APIC_LVT_MASK_FLAG : Z := Z.shiftl 1 16.
Inductive apic_timer_mode_t := TIMER_ONESHOT | TIMER_PERIODIC | TIMER_TSC_DEADLINE.
Definition mode_bits (m : apic_timer_mode_t) : Z :=
  match m with TIMER_ONESHOT => 0 | TIMER_PERIODIC => 1 | TIMER_TSC_DEADLINE => 2 end.

Section ApicTimer.
Context {D : Type} `{Clocks D} `{Hw D}.

Definition set_dev (d : D) (s : irq_state D) : irq_state D := IrqState (isr s) (ctls s) d.

(** The last result is [timer_freq_khz]; [divisor] is 4. *)
Definition apic_timer_init (fuel : nat) (a : lapic_t) (h : hpet_t) (s : irq_state D) : option (irq_state D * Z) :=
  let vector := irq_to_vector APIC_TIMER_IRQ in
  s ← isr_register_irq APIC_TIMER_IRQ s;
  i ← isr_set_handler_type vector ISR_TYPE_LAPIC_TIMER (isr s);
  let d := apic_reg_write a APIC_REG_LVT_TIMER (Z.lor APIC_LVT_MASK_FLAG vector) (dev s) in
  let d := apic_reg_write a APIC_TIMER_REG_DCR 1 d in
  let d := apic_reg_write a APIC_TIMER_REG_ICR U32_MAX d in
  d ← hpet_sleep_millis fuel h 100 d;
  Some (IrqState i (ctls s) d, u32 (U32_MAX - apic_reg_read a APIC_TIMER_REG_CCR d) / 100).

Definition apic_timer_set_period_ms (a : lapic_t) (khz millis : Z) (d : D) : D :=
  apic_reg_write a APIC_TIMER_REG_ICR (u64 (millis * khz)) d.
Definition apic_timer_set_handler (h : isr_handler_t) (s : irq_state D) : option (irq_state D) :=
  i ← isr_setup_irq_handler APIC_TIMER_IRQ h (isr s); Some (IrqState i (ctls s) (dev s)).
Definition apic_timer_stop (a : lapic_t) (d : D) : D :=
  apic_reg_write a APIC_REG_LVT_TIMER (Z.lor APIC_LVT_MASK_FLAG (apic_reg_read a APIC_REG_LVT_TIMER d)) d.
Definition apic_timer_start (a : lapic_t) (d : D) : D :=
  apic_reg_write a APIC_REG_LVT_TIMER
    (Z.land (u32 (Z.lnot APIC_LVT_MASK_FLAG)) (apic_reg_read a APIC_REG_LVT_TIMER d)) d.
Definition apic_timer_set_mode (a : lapic_t) (mode : apic_timer_mode_t) (d : D) : D :=
  apic_reg_write a APIC_REG_LVT_TIMER
    (Z.lor (apic_reg_read a APIC_REG_LVT_TIMER d) (Z.shiftl (mode_bits mode) 17)) d.
End ApicTimer.
