(* ===== verification/TimerProofs.v ===== *)
(** * Timers: proofs

    The waiting loops of [hpet.c] and [tsc.c] end and wait at least as long as asked, over counters that follow
    their documented use ([HpetLaws], [TscLaws]); a timer whose tick is shorter than a nanosecond is never waited
    for.  The units of [tsc_get_nanos] and the correction of the quick calibration. *)

From S2P Require Import Prelude DList Pmm KLib Acpi Ptm Vmalloc Slab Vmm Cpuf Irq Ata Timer.

(** ** Waiting for a counter

    [clock] reads a counter that advances by at least one and at most [k] ticks a read, and multiplies it by
    [per]. *)

Section Wait.
Context {D : Type} (clock : D -> Z * D) (ticks : D -> Z) (on : D -> Prop) (per k : Z).
Context (Hclock : forall d, on d ->
  exists d', clock d = (u64 (ticks d * per), d') /\ on d' /\ ticks d < ticks d' <= ticks d + k).

Lemma since_start t0 d : u64 (u64 (ticks d * per) - u64 (t0 * per)) = u64 ((ticks d - t0) * per).
Proof. unfold u64. rewrite <- Zminus_mod. f_equal. lia. Qed.

Lemma wait_clock_ends amount t0 : forall fuel d,
  on d -> 0 < per -> 0 <= amount -> amount + k * per < 2 ^ 64 -> t0 <= ticks d ->
  (ticks d - t0) * per <= amount + k * per ->
  amount <= (ticks d - t0 + Z.of_nat fuel - 1) * per -> (0 < fuel)%nat ->
  exists d', wait_clock fuel clock (u64 (t0 * per)) amount d = Some d' /\ on d' /\
    amount < (ticks d' - t0) * per <= amount + 2 * k * per.
Proof.
  induction fuel as [|fuel IH]; intros d Hon Hper Ha Hk Ht Hle Hfuel Hpos; [lia|]. cbn [wait_clock].
  destruct (Hclock d Hon) as (d' & -> & Hon' & Hd'). rewrite since_start, u64_small by nia.
  destruct (Z.leb_spec amount ((ticks d - t0) * per)) as [Hdone|Hmore].
  - exists d'. split; [done|]. split; [done|]. nia.
  - apply IH; try done; try nia.
Qed.

(** A clock that stands still is waited for for ever. *)
Lemma wait_still_clock start amount : forall fuel d,
  per = 0 -> start = 0 -> 0 < amount -> on d -> wait_clock fuel clock start amount d = None.
Proof.
  induction fuel as [|fuel IH]; intros d Hper Hs Ha Hon; [done|]. cbn [wait_clock].
  destruct (Hclock d Hon) as (d' & -> & Hon' & _). replace (u64 (_ - start)) with 0 by (by rewrite Hper, Hs, Z.mul_0_r).
  destruct (Z.leb_spec amount 0); [lia|]. by apply IH.
Qed.
End Wait.

(** ** The event timer

    The documented timer: a tick of [tick_fs] femtoseconds in the upper half of its capabilities, and a main counter
    that runs once the enable bit is set. *)

Class HpetLaws (D : Type) `{Clocks D} := {
  timer_at : Z;
  tick_fs : Z;
  hpet_count : D -> Z;
  hpet_on : D -> Prop;
  hpet_step : Z;
  timer_at_range : 0 <= timer_at < 2 ^ 64 - 0x400;
  tick_fs_range : 0 < tick_fs < 2 ^ 32;
  read_cap d : exists low d', mmio_read64 (timer_at + HPET_GENERAL_CAP_ID) d = (tick_fs * 2 ^ 32 + low, d') /\ 0 <= low < 2 ^ 32;
  write_conf d v : Z.testbit v 0 = true -> hpet_on (mmio_write64 (timer_at + HPET_GENERAL_CONF) v d);
  read_count d : hpet_on d ->
    exists d', mmio_read64 (timer_at + HPET_MCV) d = (u64 (hpet_count d), d') /\ hpet_on d' /\
      hpet_count d < hpet_count d' <= hpet_count d + hpet_step;
}.

Section Hpet.
Context {D : Type} `{HpetLaws D}.

(** What [hpet_init] leaves. *)
Record ready (h : hpet_t) (d : D) : Prop := Ready {
  rd_base : hpet_base h = timer_at;
  rd_period : hpet_period_ns_ h = tick_fs / 1000000;
  rd_on : hpet_on d;
}.

Lemma hpet_reg offset : 0 <= offset < 0x400 -> u64 (timer_at + offset) = timer_at + offset.
Proof. intros Ho. pose proof timer_at_range. apply u64_small. lia. Qed.

Lemma hpet_init_ready m sdt d h d1 call :
  hpet_init m sdt d = Some (h, d1, Some call) -> call.1.1.1 = timer_at -> ready h d1.
Proof.
  unfold hpet_init. destruct (sdt =? 0); [done|]. destruct (_ =? 0); [done|].
  set (base := u64 _). unfold hpet_reg_read at 1. cbn [hpet_base].
  destruct (Z.eq_dec base timer_at) as [->|Hne].
  2:{ repeat case_match; intros; simplify_eq; done. }
  rewrite hpet_reg by done. destruct (read_cap d) as (low & d' & -> & Hlow).
  pose proof tick_fs_range. assert (Z.land (Z.shiftr (tick_fs * 2 ^ 32 + low) 32) 0xffffffff = tick_fs) as ->.
  { rewrite Z.shiftr_div_pow2, Z.div_add_l, (Z.div_small low), Z.add_0_r by lia.
    change 0xffffffff with (Z.ones 32). rewrite Z.land_ones, Z.mod_small by lia. done. }
  destruct (Z.eqb_spec tick_fs 0); [lia|]. unfold hpet_reg_read, hpet_reg_write. cbn [hpet_base].
  rewrite hpet_reg by done. destruct (mmio_read64 _ d') as [conf d2] eqn:E. intros Heq _. simplify_eq.
  constructor; [done|done|]. apply write_conf. rewrite Z.lor_spec. apply orb_true_r.
Qed.

Lemma hpet_clock h d : ready h d -> forall d, hpet_on d ->
  exists d', hpet_get_nanos h d = (u64 (hpet_count d * hpet_period_ns_ h), d') /\ hpet_on d' /\
    hpet_count d < hpet_count d' <= hpet_count d + hpet_step.
Proof.
  intros [Hb _ _] d1 Hon. unfold hpet_get_nanos, hpet_get, hpet_reg_read. rewrite Hb, hpet_reg by done.
  destruct (read_count d1 Hon) as (d' & -> & Hon' & Hd'). exists d'. split; [|done]. f_equal.
  unfold u64. rewrite Zmult_mod_idemp_l. done.
Qed.

(** Waiting for [nanos] at a timer with whole nanoseconds. *)
Lemma hpet_sleep_nanos_spec h d nanos fuel :
  ready h d -> 1000000 <= tick_fs -> 0 <= nanos -> nanos + hpet_step * hpet_period_ns_ h < 2 ^ 64 ->
  nanos <= (Z.of_nat fuel - 1) * hpet_period_ns_ h -> (0 < fuel)%nat ->
  exists d', hpet_sleep_nanos fuel h nanos d = Some d' /\ ready h d' /\
    nanos < (hpet_count d' - hpet_count d) * hpet_period_ns_ h <= nanos + 2 * hpet_step * hpet_period_ns_ h.
Proof.
  intros Hr Hfs Hn Hk Hfuel Hpos. pose proof (hpet_clock h d Hr) as Hc. destruct Hr as [Hb Hp Hon].
  assert (0 < hpet_period_ns_ h). { rewrite Hp. apply Z.div_str_pos. lia. }
  unfold hpet_sleep_nanos. destruct (Hc d Hon) as (d1 & -> & Hon1 & Hd1).
  destruct (wait_clock_ends _ _ _ _ _ Hc nanos (hpet_count d) fuel d1) as (d' & -> & Hon' & Hd');
    [done|lia|lia|lia|lia|nia|nia|lia|].
  exists d'. split; [done|]. split; [done|lia].
Qed.

Lemma hpet_step_pos d : hpet_on d -> 0 < hpet_step.
Proof. intros Hon. destruct (read_count d Hon) as (d' & _ & _ & Hd'). lia. Qed.

(** The time that passed, in femtoseconds, when [e] ticks count as [e * (tick / 10^6)] nanoseconds. *)
Lemma elapsed_time e tick n k :
  1000000 <= tick -> 0 < k -> n < e * (tick / 1000000) <= n + 2 * k * (tick / 1000000) -> 0 <= n ->
  n * 1000000 <= e * tick <= 2 * (n * 1000000 + 2 * k * tick) /\
  (tick mod 1000000 = 0 -> e * tick <= n * 1000000 + 2 * k * tick).
Proof.
  intros Ht Hk He Hn. pose proof (Z.div_mod tick 1000000 ltac:(lia)) as Hdiv.
  pose proof (Z.mod_pos_bound tick 1000000 ltac:(lia)) as Hmod.
  assert (1 <= tick / 1000000) by (apply Z.div_le_lower_bound; lia).
  set (p := tick / 1000000) in *. set (r := tick mod 1000000) in *. assert (0 < e) by nia.
  assert (e * tick = 1000000 * (e * p) + e * r) as Hsum by (rewrite Hdiv at 1; ring).
  assert (k * tick = 1000000 * (k * p) + k * r) as Hsum' by (rewrite Hdiv at 1; ring).
  assert (0 <= e * r) by nia. assert (0 <= k * r) by nia. assert (e * r <= 1000000 * (e * p)) by nia.
  split; [split; lia|]. intros ->. lia.
Qed.

(** C22. [hpet_sleep_millis] after [hpet_init], over a timer that follows its documentation and moves by at most
    [hpet_step] ticks between two reads.  With a tick of a nanosecond or more it returns, after at most one round
    a nanosecond, when the time asked for has passed and not later than twice that time and four steps (with a
    tick of whole nanoseconds, that time and two steps).  With a shorter tick it never returns. *)
Theorem hpet_sleep_correct m sdt d0 h d call ms fuel :
  hpet_init m sdt d0 = Some (h, d, Some call) -> call.1.1.1 = timer_at ->
  0 <= ms -> ms * 1000000 + hpet_step * (tick_fs / 1000000) < 2 ^ 64 ->
  (1000000 <= tick_fs -> ms * 1000000 < Z.of_nat fuel ->
   exists d', hpet_sleep_millis fuel h ms d = Some d' /\
     let fs := (hpet_count d' - hpet_count d) * tick_fs in
     ms * 10 ^ 12 <= fs <= 2 * (ms * 10 ^ 12 + 2 * hpet_step * tick_fs) /\
     (tick_fs mod 1000000 = 0 -> fs <= ms * 10 ^ 12 + 2 * hpet_step * tick_fs)) /\
  (tick_fs < 1000000 -> 0 < ms -> hpet_sleep_millis fuel h ms d = None).
Proof.
  intros Hi Hc Hms Hk. pose proof (hpet_init_ready _ _ _ _ _ _ Hi Hc) as Hr. pose proof tick_fs_range.
  pose proof (hpet_step_pos d (rd_on _ _ Hr)) as Hstep.
  assert (0 <= tick_fs / 1000000) by (apply Z.div_pos; lia).
  unfold hpet_sleep_millis. rewrite u64_small by nia. pose proof (rd_period _ _ Hr) as Hp. split.
  - intros Hfs Hfuel. assert (1 <= tick_fs / 1000000) by (apply Z.div_le_lower_bound; lia).
    destruct (hpet_sleep_nanos_spec h d (ms * 1000000) fuel) as (d' & E & _ & Hd'); rewrite ?Hp in *;
      [done|done|lia|lia|nia|lia|].
    exists d'. split; [done|]. apply elapsed_time in Hd'; [|lia..]. replace (ms * 10 ^ 12) with (ms * 1000000 * 1000000) by lia.
    done.
  - intros Hfs Hpos. unfold hpet_sleep_nanos. destruct (hpet_clock h d Hr d (rd_on _ _ Hr)) as (d1 & -> & Hon & _).
    rewrite (Z.div_small tick_fs) in Hp by lia.
    apply (wait_still_clock _ _ _ _ _ (hpet_clock h d Hr)); [done| |lia|done]. by rewrite Hp, Z.mul_0_r.
Qed.
End Hpet.

(** ** The time stamp counter *)

Class TscLaws (D : Type) `{Clocks D} := {
  tsc_count : D -> Z;
  tsc_step : Z;
  read_tsc d : exists d', rdtsc d = (u64 (tsc_count d), d') /\ tsc_count d < tsc_count d' <= tsc_count d + tsc_step;
}.

Section Tsc.
Context {D : Type} `{TscLaws D}.

(** [tsc_sleep_millis] returns when [khz * millis] ticks have passed. *)
Lemma tsc_sleep_spec fuel khz ms d :
  0 <= khz * ms -> khz * ms + tsc_step < 2 ^ 64 -> khz * ms < Z.of_nat fuel ->
  exists d', tsc_sleep_millis fuel khz ms d = Some d' /\
    khz * ms < tsc_count d' - tsc_count d <= khz * ms + 2 * tsc_step.
Proof.
  intros Ha Hk Hfuel.
  assert (forall d : D, True -> exists d', rdtsc d = (u64 (tsc_count d * 1), d') /\ True /\
            tsc_count d < tsc_count d' <= tsc_count d + tsc_step) as Hc.
  { intros d' _. rewrite Z.mul_1_r. destruct (read_tsc d') as (d1 & -> & Hd1). by exists d1. }
  unfold tsc_sleep_millis, tsc_delay. destruct (Hc d I) as (d1 & -> & _ & Hd1).
  rewrite (u64_small (khz * ms)) by lia.
  destruct (wait_clock_ends _ _ (fun _ => True) _ _ Hc (khz * ms) (tsc_count d) fuel d1) as (d' & -> & _ & Hd');
    [done|lia|lia|lia|lia|lia|lia|lia|].
  exists d'. split; [done|lia].
Qed.

(** What [tsc_get_nanos] returns are milliseconds divided by a million. *)
Lemma tsc_get_nanos_unit khz (d : D) n d' :
  tsc_get_millis khz d = Some (n, d') -> tsc_get_nanos khz d = Some (n / 1000000, d').
Proof.
  unfold tsc_get_millis, tsc_get_nanos. destruct (khz =? 0); [done|]. destruct (rdtsc d). intros ?. by simplify_eq.
Qed.
End Tsc.

(** The correction of the quick calibration is signed arithmetic: where [d2 < d1], the halved difference is
    too large by half of the range, which the even tick rate multiplies away. *)
Lemma pit_khz_signed delta d1 d2 i :
  0 <= d1 < 2 ^ 64 -> 0 <= d2 < 2 ^ 64 -> 0 <= (delta + (d2 - d1) / 2) * PIT_TICK_RATE < 2 ^ 64 ->
  pit_khz delta d1 d2 i = (delta + (d2 - d1) / 2) * PIT_TICK_RATE / (i * 256 * 1000).
Proof.
  intros H1 H2 Hr. unfold pit_khz. f_equal. rewrite <- (u64_small _ Hr). unfold u64 at 1 2 4.
  rewrite Zmult_mod_idemp_l. destruct (decide (0 <= d2 - d1)) as [Hp|Hn].
  - rewrite (u64_small (d2 - d1)) by lia. done.
  - assert (u64 (d2 - d1) / 2 = (d2 - d1) / 2 + 2 ^ 63) as ->.
    { unfold u64. rewrite <- (Z.mod_add _ 1), Z.mod_small by lia.
      replace (d2 - d1 + 1 * 2 ^ 64) with (d2 - d1 + 2 ^ 63 * 2) by lia. by rewrite Z.div_add by lia. }
    rewrite Z.add_assoc, Z.mul_add_distr_r. change (2 ^ 63 * PIT_TICK_RATE) with (596591 * 2 ^ 64).
    apply Z_mod_plus_full.
Qed.

(** ** A concrete timer *)

(** A timer of 100 MHz whose counter moves by three ticks a read. *)
Record demo_clock := DemoClock { dk_count : Z; dk_on : bool }.
Definition demo_hpet_base : Z := u64 (MI_DIRECT_MAPPING_RANGE_START + 0xfed00000).

#[local] Instance demo_clocks : Clocks demo_clock := {
  mmio_read64 a d :=
    if a =? demo_hpet_base + HPET_GENERAL_CAP_ID then (10000000 * 2 ^ 32 + 0x8086a201, d)
    else if a =? demo_hpet_base + HPET_MCV then (u64 (dk_count d), DemoClock (dk_count d + 3) (dk_on d))
    else (0, d);
  mmio_write64 a v d := if a =? demo_hpet_base + HPET_GENERAL_CONF then DemoClock (dk_count d) (Z.testbit v 0) else d;
  rdtsc d := (u64 (dk_count d), DemoClock (dk_count d + 3) (dk_on d));
}.

#[local] Instance demo_hpet_laws : HpetLaws demo_clock.
Proof.
  refine {| timer_at := demo_hpet_base; tick_fs := 10000000; hpet_count := dk_count; hpet_on d := dk_on d = true;
            hpet_step := 3 |}; [done|done| | |].
  - intros d. exists 0x8086a201, d. split; [|lia]. cbn [mmio_read64 demo_clocks]. by rewrite Z.eqb_refl.
  - intros d v Hv. cbn [mmio_write64 demo_clocks]. by rewrite Z.eqb_refl.
  - intros d Hd. exists (DemoClock (dk_count d + 3) (dk_on d)). split; [|split; [done|simpl; lia]].
    cbn [mmio_read64 demo_clocks]. change (demo_hpet_base + HPET_MCV =? demo_hpet_base + HPET_GENERAL_CAP_ID) with false.
    by rewrite Z.eqb_refl.
Defined.

Definition demo_hpet_table : memory := fun a => if a =? 4142 then 0xd0 else if a =? 4143 then 0xfe else 0.

Lemma hpet_sleep_correct_witness :
  exists h d call, hpet_init demo_hpet_table 4096 (DemoClock 5 false) = Some (h, d, Some call) /\
    exists d', hpet_sleep_millis (Z.to_nat 1000001) h 1 d = Some d' /\
      10 ^ 12 <= (dk_count d' - dk_count d) * 10000000 <= 10 ^ 12 + 60000000.
Proof.
  eexists _, _, _. split; [vm_compute; reflexivity|].
  destruct (hpet_sleep_correct demo_hpet_table 4096 (DemoClock 5 false) (Hpet demo_hpet_base 1 100000 10) (DemoClock 5 true)
    (demo_hpet_base, 0xfed00000, 1, VMM_FLAGS_MMIO) 1 (Z.to_nat 1000001)) as [Hs _]; [vm_compute; reflexivity|done|lia|done|].
  destruct Hs as (d' & E & Hlo & Hhi); [done|rewrite Z2Nat.id; lia|].
  exists d'. split; [exact E|]. specialize (Hhi eq_refl). simpl in Hlo, Hhi |- *. lia.
Defined.
