(* ===== verification/Panic.v ===== *)
(** * Serial port and panic

    [kernel/src/com/serial.c], [kernel/src/panic/panic.c] and the output of the panic path in
    [kernel/src/log/klog.c].  The port instructions are the class [Ports] of [Ata]; strings are lists without
    their null.  Of the processor the interrupt flag is kept and whether it has halted; [panic] is [None] when a
    buffer overflows. *)

From S2P Require Import Prelude KLib Kprint Fb Term TermProofs Ata.

(** ** serial.c *)

Definition COM1_BASE : Z := 0x3f8.

Section Serial.
Context {D : Type} `{Ports D}.

Definition serial_init (d : D) : D * bool :=
  let d := port_outb (COM1_BASE + 1) 0x00 d in
  let d := port_outb (COM1_BASE + 3) 0x80 d in
  let d := port_outb (COM1_BASE + 0) 0x03 d in
  let d := port_outb (COM1_BASE + 1) 0x00 d in
  let d := port_outb (COM1_BASE + 3) 0x03 d in
  let d := port_outb (COM1_BASE + 2) 0xc7 d in
  let d := port_outb (COM1_BASE + 4) 0x0b d in
  let d := port_outb (COM1_BASE + 4) 0x1e d in
  let d := port_outb (COM1_BASE + 0) 0xae d in
  let '(_, d) := port_inb (COM1_BASE + 0) d in
  (port_outb (COM1_BASE + 4) 0x0f d, true).

(** [n] more looks at the line status until a bit of the mask is set. *)
Fixpoint serial_poll (n : nat) (mask : Z) (d : D) : D :=
  match n with
  | O => d
  | S n => let '(status, d) := port_inb (COM1_BASE + 5) d in if ctrue (Z.land status mask) then d else serial_poll n mask d
  end.

Definition serial_read (d : D) : Z * D := port_inb COM1_BASE (serial_poll 3 1 d).
Definition serial_write (data : Z) (d : D) : D := port_outb COM1_BASE data (serial_poll 3 0x20 d).
Fixpoint serial_write_str (s : list Z) (d : D) : D :=
  match s with
  | [] => d
  | c :: s => serial_write_str s (serial_write (u8 c) (if c =? 10 then serial_write 13 d else d))
  end.
End Serial.

(** ** panic.c *)

(** The lines of the frame. *)
Definition panic_top : list Z := replicate 33 62 ++ [10].
Definition panic_word : list Z := [112; 97; 110; 105; 99; 33; 10].
Definition panic_rule : list Z := replicate 33 45 ++ [10].
Definition panic_end : list Z := [10] ++ replicate 33 60 ++ [10].

(** The processor that panics. *)
Record cpu_t := Cpu { intr_on : bool; halted : bool }.
Definition __cli (c : cpu_t) : cpu_t := Cpu false (halted c).
(** [hlt]: without maskable interrupts the processor does not go on. *)
Definition __hang (c : cpu_t) : cpu_t := Cpu (intr_on c) true.

Section Panic.
Context {D : Type} `{Ports D} (font_size : Z) (font_data : bool -> Z -> Z) (fb : fb_info_t).
(** What the buffers on the stack hold at first. *)
Context (stack : list Z).

Definition kpanic_printf (fmt : list Z) (args : list varg) (s : tstate) : option tstate :=
  '(buf, _) ← kvsnprintf stack FMT_BUF_SIZE fmt args;
  Some (term_panic_write font_size font_data fb (until_null buf) s).
Definition kpanic_clear (s : tstate) : tstate := term_panic_clear fb s.

Definition panic (fmt : list Z) (args : list varg) (c : cpu_t) (s : tstate) (d : D) : option (cpu_t * tstate * D) :=
  '(buf, _) ← kvsnprintf stack FMT_BUF_SIZE fmt args;
  let c := __cli c in
  let s := kpanic_clear s in
  let s := (term_set_fgcolor COLOR_RED s.1, s.2) in
  s ← kpanic_printf panic_top [] s;
  s ← kpanic_printf panic_word [] s;
  s ← kpanic_printf panic_rule [] s;
  s ← kpanic_printf [37; 115] [VStr (Some (until_null buf))] s;
  s ← kpanic_printf (panic_end ++ [10; 10]) [] s;
  let d := serial_write_str panic_top d in
  let d := serial_write_str panic_word d in
  let d := serial_write_str panic_rule d in
  let d := serial_write_str (until_null buf) d in
  let d := serial_write_str panic_end d in
  Some (__hang c, s, d).
End Panic.

(** ** The documented port

    A byte written to the data register goes to the line unless the divisor latch or the loop is on. *)

Class SerialLaws (D : Type) `{Ports D} := {
  line : D -> list Z;
  lcr : D -> Z;
  mcr : D -> Z;
  out_data d v :
    let d' := port_outb COM1_BASE v d in
    lcr d' = lcr d /\ mcr d' = mcr d /\
    line d' = if Z.testbit (lcr d) 7 || Z.testbit (mcr d) 4 then line d else line d ++ [v];
  out_control d r v :
    r = 1 \/ r = 2 -> let d' := port_outb (COM1_BASE + r) v d in lcr d' = lcr d /\ mcr d' = mcr d /\ line d' = line d;
  out_lcr d v : let d' := port_outb (COM1_BASE + 3) v d in lcr d' = v /\ mcr d' = mcr d /\ line d' = line d;
  out_mcr d v : let d' := port_outb (COM1_BASE + 4) v d in lcr d' = lcr d /\ mcr d' = v /\ line d' = line d;
  in_any d r : 0 <= r <= 5 -> let d' := (port_inb (COM1_BASE + r) d).2 in lcr d' = lcr d /\ mcr d' = mcr d /\ line d' = line d;
}.

Section Laws.
Context {D : Type} `{SerialLaws D}.

(** Bytes that are written go to the line. *)
Definition sends (d : D) : Prop := Z.testbit (lcr d) 7 = false /\ Z.testbit (mcr d) 4 = false.

Lemma serial_poll_spec n mask : forall d,
  let d' := serial_poll n mask d in lcr d' = lcr d /\ mcr d' = mcr d /\ line d' = line d.
Proof.
  induction n as [|n IH]; intros d; [done|]. cbn [serial_poll].
  pose proof (in_any d 5 ltac:(lia)) as Hin. destruct (port_inb (COM1_BASE + 5) d) as [st d1]. cbn [snd] in Hin.
  destruct (ctrue _); [done|]. specialize (IH d1). cbv zeta in *. intuition congruence.
Qed.

Lemma serial_write_spec v d : sends d -> sends (serial_write v d) /\ line (serial_write v d) = line d ++ [v].
Proof.
  intros [Hl Hm]. unfold serial_write. destruct (serial_poll_spec 3 0x20 d) as (E1 & E2 & E3).
  destruct (out_data (serial_poll 3 0x20 d) v) as (F1 & F2 & F3). unfold sends.
  rewrite F1, F2, F3, E1, E2, E3, Hl, Hm. done.
Qed.

Lemma serial_write_str_spec s : forall d,
  sends d -> Forall (fun c => 0 <= c < 256) s ->
  sends (serial_write_str s d) /\ line (serial_write_str s d) = line d ++ (s ≫= klog_serial_putch).
Proof.
  induction s as [|c s IH]; intros d Hd Hs; [by rewrite app_nil_r|]. inversion_clear Hs as [|? ? Hc Hs'].
  cbn [serial_write_str mbind list_bind]. unfold u8. rewrite Z.mod_small by lia. unfold klog_serial_putch.
  destruct (c =? 10).
  - destruct (serial_write_spec 13 d Hd) as [Hd1 E1]. destruct (serial_write_spec c _ Hd1) as [Hd2 E2].
    destruct (IH _ Hd2 Hs') as [Hd3 E3]. split; [done|]. by rewrite E3, E2, E1, <- !app_assoc.
  - destruct (serial_write_spec c _ Hd) as [Hd2 E2].
    destruct (IH _ Hd2 Hs') as [Hd3 E3]. split; [done|]. by rewrite E3, E2, <- !app_assoc.
Qed.

(** After [serial_init] bytes go to the line; neither the divisor nor the test byte does. *)
Lemma serial_init_spec d : sends (serial_init d).1 /\ line (serial_init d).1 = line d.
Proof.
  unfold serial_init. cbv zeta. change (COM1_BASE + 0) with COM1_BASE.
  set (d1 := port_outb (COM1_BASE + 1) 0 d). destruct (out_control d 1 0) as (A1 & B1 & C1); [by left|]. fold d1 in A1, B1, C1.
  set (d2 := port_outb (COM1_BASE + 3) 0x80 d1). destruct (out_lcr d1 0x80) as (A2 & B2 & C2). fold d2 in A2, B2, C2.
  set (d3 := port_outb COM1_BASE 3 d2). destruct (out_data d2 3) as (A3 & B3 & C3). fold d3 in A3, B3, C3.
  set (d4 := port_outb (COM1_BASE + 1) 0 d3). destruct (out_control d3 1 0) as (A4 & B4 & C4); [by left|]. fold d4 in A4, B4, C4.
  set (d5 := port_outb (COM1_BASE + 3) 3 d4). destruct (out_lcr d4 3) as (A5 & B5 & C5). fold d5 in A5, B5, C5.
  set (d6 := port_outb (COM1_BASE + 2) 0xc7 d5). destruct (out_control d5 2 0xc7) as (A6 & B6 & C6); [by right|]. fold d6 in A6, B6, C6.
  set (d7 := port_outb (COM1_BASE + 4) 0x0b d6). destruct (out_mcr d6 0x0b) as (A7 & B7 & C7). fold d7 in A7, B7, C7.
  set (d8 := port_outb (COM1_BASE + 4) 0x1e d7). destruct (out_mcr d7 0x1e) as (A8 & B8 & C8). fold d8 in A8, B8, C8.
  set (d9 := port_outb COM1_BASE 0xae d8). destruct (out_data d8 0xae) as (A9 & B9 & C9). fold d9 in A9, B9, C9.
  destruct (in_any d9 0) as (Aa & Ba & Ca); [lia|]. change (COM1_BASE + 0) with COM1_BASE in Aa, Ba, Ca.
  destruct (port_inb COM1_BASE d9) as [b da]. cbn [snd] in Aa, Ba, Ca. cbn [fst snd].
  destruct (out_mcr da 0x0f) as (Ab & Bb & Cb). rewrite A2 in C3. cbn in C3. rewrite B8, orb_true_r in C9.
  split; [|congruence]. unfold sends. rewrite Ab, Bb, Aa, A9, A8, A7, A6, A5. done.
Qed.
End Laws.

(** ** What a panic shows *)

Section Report.
Context {D : Type} `{SerialLaws D} (font_size : Z) (font_data : bool -> Z -> Z) (fb : fb_info_t).
Notation write := (term_panic_write font_size font_data fb).

Lemma kpanic_printf_items stack its s :
  length stack = FMT_BUF_SIZE -> items_ok its -> (length (items_text its) < FMT_BUF_SIZE)%nat ->
  Forall (fun c => c <> 0) (items_text its) ->
  kpanic_printf font_size font_data fb stack (items_fmt its) (items_args its) s = Some (write (items_text its) s).
Proof.
  intros Hs Hok Hl Hnz. unfold kpanic_printf. rewrite kvsnprintf_items by (rewrite ?Hs; done).
  cbn [mbind option_bind]. by rewrite until_null_app.
Qed.

(** A text without conversions. *)
Definition literal (s : list Z) : bool := forallb (fun c => (0 <? c) && (c <? 256) && negb (c =? chr_cr) && negb (c =? chr_percent)) s.
Lemma literal_items s :
  literal s = true ->
  items_ok (Lit <$> s) /\ items_fmt (Lit <$> s) = s /\ items_args (Lit <$> s) = [] /\ items_text (Lit <$> s) = s /\
  Forall (fun c => c <> 0) s /\ Forall (fun c => 0 <= c < 256) s.
Proof.
  induction s as [|c s IH]; [intros _; by repeat constructor|]. unfold literal. cbn [forallb]. rewrite !andb_true_iff, !negb_true_iff.
  rewrite !Z.ltb_lt, !Z.eqb_neq. intros [Hc Hs]. destruct (IH Hs) as (A & B & C & E & F & G).
  change (Lit <$> c :: s) with (Lit c :: (Lit <$> s)). unfold items_fmt, items_args, items_text in *. cbn [mbind list_bind].
  rewrite B, C, E. cbn [items_ok item_ok takes_suffix item_fmt item_args item_text app].
  destruct Hc as [[[Hc1 Hc2] Hc3] Hc4]. split_and!; try done; (constructor; [lia|done]).
Qed.

Lemma kpanic_printf_literal stack t s :
  length stack = FMT_BUF_SIZE -> literal t = true -> (length t < FMT_BUF_SIZE)%nat ->
  kpanic_printf font_size font_data fb stack t [] s = Some (write t s).
Proof.
  intros Hs Ht Hl. destruct (literal_items t Ht) as (A & B & C & E & F & _).
  pose proof (kpanic_printf_items stack (Lit <$> t) s Hs A) as Hp. rewrite B, C, E in Hp. by apply Hp.
Qed.

(** A report, and what the serial line gets of a text: a carriage return before every newline. *)
Definition report (text : list Z) : list Z := panic_top ++ panic_word ++ panic_rule ++ text ++ panic_end.
Definition with_returns (s : list Z) : list Z := s ≫= fun c => if c =? 10 then [13; 10] else [c].

Lemma panic_bytes : Forall (fun c => 0 <= c < 256) (panic_top ++ panic_word ++ panic_rule ++ panic_end).
Proof. repeat constructor; vm_compute; congruence. Qed.

(** A text written to the text screen, character by character. *)
Definition typed (text : list Z) (sc : screen) : screen := fold_left (fun sc ch => put_any font_size fb 0 ch sc) text sc.

(** The display is one of [TermProofs], with its buffers in place. *)
Record panic_screen : Prop := {
  ps_fb : fb_ok fb;
  ps_font : 0 < font_size < height fb;
  ps_byte : font_size < 2 ^ 8;
  ps_wide : 8 <= width fb;
  ps_width : width fb < 2 ^ 32;
  ps_height : height fb < 2 ^ 32;
  ps_ptrs : fb_ptr fb <> 0 /\ swap_ptr fb <> 0;
}.

Lemma typed_report text sc :
  typed (report text ++ [10; 10]) sc = typed (panic_end ++ [10; 10]) (typed text (typed panic_rule (typed panic_word (typed panic_top sc)))).
Proof. unfold typed, report. rewrite <- !app_assoc. by rewrite !fold_left_app. Qed.

Lemma write_typed text s sc : panic_screen -> shows font_size font_data fb s sc -> shows font_size font_data fb (write text s) (typed text sc).
Proof. intros [? ? ? ? ? ? ?] Hs. by apply panic_write_shows. Qed.

Lemma serial_report text d :
  sends d -> Forall (fun c => 0 <= c < 256) text ->
  let d' := serial_write_str panic_end (serial_write_str text (serial_write_str panic_rule (serial_write_str panic_word (serial_write_str panic_top d)))) in
  sends d' /\ line d' = line d ++ with_returns (report text).
Proof.
  intros Hd Hbytes. pose proof panic_bytes as Hp. rewrite !Forall_app in Hp. destruct Hp as (P1 & P2 & P3 & P4).
  destruct (serial_write_str_spec panic_top d Hd P1) as [D1 E1].
  destruct (serial_write_str_spec panic_word _ D1 P2) as [D2 E2].
  destruct (serial_write_str_spec panic_rule _ D2 P3) as [D3 E3].
  destruct (serial_write_str_spec text _ D3 Hbytes) as [D4 E4].
  destruct (serial_write_str_spec panic_end _ D4 P4) as [D5 E5].
  split; [exact D5|].
  assert (forall s, with_returns s = s ≫= klog_serial_putch) as -> by (intros s; apply list_bind_ext; [intros c; unfold klog_serial_putch; destruct (Z.eqb_spec c 10); by subst|done]).
  rewrite E5, E4, E3, E2, E1. unfold report. by rewrite !bind_app, <- !app_assoc.
Qed.

End Report.

(** ** A concrete port *)

Record demo_uart := DemoUart { du_line : list Z; du_lcr : Z; du_mcr : Z }.

#[local] Instance demo_uart_ports : Ports demo_uart := {
  port_inb p d := (0x60, d);
  port_outb p v d :=
    if p =? COM1_BASE then
      if Z.testbit (du_lcr d) 7 || Z.testbit (du_mcr d) 4 then d else DemoUart (du_line d ++ [v]) (du_lcr d) (du_mcr d)
    else if p =? COM1_BASE + 3 then DemoUart (du_line d) v (du_mcr d)
    else if p =? COM1_BASE + 4 then DemoUart (du_line d) (du_lcr d) v
    else d;
  port_inw p d := (0, d);
  port_outw p v d := d;
}.

#[local] Instance demo_uart_laws : SerialLaws demo_uart.
Proof.
  refine {| line := du_line; lcr := du_lcr; mcr := du_mcr |}.
  - intros d v. cbn [port_outb demo_uart_ports]. rewrite Z.eqb_refl. destruct (_ || _); done.
  - intros d r v [-> | ->]; done.
  - done.
  - done.
  - done.
Defined.

(** A message with a number, on the two lines of the screen of [TermProofs]. *)
Definition demo_panic_items : list item := [Lit 98; Lit 97; Lit 100; Lit 32; Dec32 (-3)].

