(* ===== verification/Drivers.v ===== *)
(** * Interrupt handlers of the keyboard and the scheduler

    [keyboard_callback] and [keyboard_init] of [kernel/src/device/keyboard/keyboard.c], and [sched_init] and
    [__timer_switch_context] of [kernel/src/proc/sched.c]: where the interrupt controllers, the timer, the tables of
    the keyboard, the events and the scheduler meet.  The machine [D] has the ports of [Ata], the registers of
    [Irq] and the counters of [Timer].  What [kzalloc] and [hpet_get_nanos] return inside [kevent_publish] are
    arguments, as in [Sched].  Handlers are known by their addresses. *)

From S2P Require Import Prelude DList Pmm KLib Acpi Ptm Vmalloc Slab Vmm Cpuf Irq Ata Timer Keyboard Sched Task Vfs Elf Proc.

(** ** keyboard.c *)

Definition KEYBOARD_IRQ : Z := 1.
Definition PS2_PORT_DATA : Z := 0x60.
Definition PS2_PORT_STATUS : Z := 0x64.
Definition PS2_PORT_CMD : Z := 0x64.
Definition PS2_CMD_DISABLE_FIRST_PORT : Z := 0xad.
Definition PS2_CMD_DISABLE_SECOND_PORT : Z := 0xa7.
Definition PS2_CMD_ENABLE_FIRST_PORT : Z := 0xae.
Definition PS2_CMD_ENABLE_SECOND_PORT : Z := 0xa8.
Definition PS2_STATUS_OUTPUT_BUFFER_FULL : Z := 0x01.

Section Keyboard.
Context {D : Type} `{Ports D} `{Hw D}.

Definition output_full (status : Z) : bool := ctrue (Z.land status PS2_STATUS_OUTPUT_BUFFER_FULL).

(** [kevent_publish] of the word, if there is one. *)
Definition publish_key (cpu : Z) (event : option Z) (nanos : Z) (word : option Z) (s : sched_t) : option sched_t :=
  match word with Some w => kevent_publish cpu event EV_KEYBOARD w nanos s | None => Some s end.

Definition keyboard_callback (a : lapic_t) (cpu : Z) (event : option Z) (nanos : Z) (k : kb_state) (s : sched_t) (d : D) :
    option (kb_state * sched_t * D) :=
  let '(status, d) := port_inb PS2_PORT_STATUS d in
  if negb (output_full status) then Some (k, s, apic_send_eoi a d) else
  let '(scancode, d) := port_inb PS2_PORT_DATA d in
  let '(k, word) := _process_scan_code k scancode in
  s ← publish_key cpu event nanos word s;
  Some (k, s, apic_send_eoi a d).

(** [while (port_inb(PS2_PORT_STATUS) & ...) port_inb(PS2_PORT_DATA)] *)
Fixpoint flush_output (fuel : nat) (d : D) : option D :=
  match fuel with
  | O => None
  | S fuel =>
    let '(status, d) := port_inb PS2_PORT_STATUS d in
    if output_full status then flush_output fuel (port_inb PS2_PORT_DATA d).2 else Some d
  end.

(** [callback] is the address of [keyboard_callback]. *)
Definition keyboard_init (fuel : nat) (callback : Z) (s : irq_state D) : option (irq_state D) :=
  let d := port_outb PS2_PORT_CMD PS2_CMD_DISABLE_FIRST_PORT (dev s) in
  let d := port_outb PS2_PORT_CMD PS2_CMD_DISABLE_SECOND_PORT d in
  d ← flush_output fuel d;
  s ← isr_register_irq_h KEYBOARD_IRQ (Driver callback) (set_dev d s);
  let d := port_outb PS2_PORT_CMD PS2_CMD_ENABLE_FIRST_PORT (dev s) in
  Some (set_dev (port_outb PS2_PORT_CMD PS2_CMD_ENABLE_SECOND_PORT d) s).
End Keyboard.

(** ** sched.c *)

Definition with_idle (f : gmap Z Z -> gmap Z Z) (s : sched_t) : sched_t :=
  Sched (tasks s) (events s) (active_tasks s) (cleanup_tasks s) (running_tasks s) (f (idle_tasks s))
    (sched_count s) (sub_list s) (pub_list s) (cpu_kstack s) (millis s).

Section SchedInit.
Context {D : Type} `{Clocks D} `{Hw D}.
Context {F W P : Type} {ops : FsOps F W P} (sched_task_start sched_task_start_user : Z).
Notation proc_t := (proc_t (F := F) (W := W) (P := P)).

(** [timer_switch] is the address of [__timer_switch_context], [idle] that of [__idle_proc], [name] that of the
    name of the idle task. *)
Definition sched_init (fuel : nat) (a : lapic_t) (h : hpet_t) (cpu : Z) (is_bsp : bool) (fr : fresh_t) (name idle timer_switch : Z)
    (p : proc_t) (s : irq_state D) : option (proc_t * irq_state D * Z) :=
  let p := if is_bsp then with_sched (with_cleanup (fun _ => []) (with_active (fun _ => []) (sched p))) p else p in
  '(p, t) ← task_create sched_task_start sched_task_start_user fr name idle 0 TASK_KERNEL_MODE p;
  let p := with_sched (with_idle <[cpu := t]> (sched p)) p in
  '(s, khz) ← apic_timer_init fuel a h s;
  let d := apic_timer_set_mode a TIMER_PERIODIC (dev s) in
  let d := apic_timer_set_period_ms a khz 1 d in
  s ← (if is_bsp then apic_timer_set_handler (Driver timer_switch) (set_dev d s) else Some (set_dev d s));
  Some (p, set_dev (apic_timer_start a (dev s)) s, khz).

Definition __timer_switch_context (a : lapic_t) (cpu : Z) (s : sched_t) (d : D) : option (sched_t * switch_t * D) :=
  let d := apic_send_eoi a d in
  '(s, sw) ← sched_again cpu s; Some (s, sw, d).
End SchedInit.
