(* ===== verification/DriversProofs.v ===== *)
(** * Interrupt handlers: proofs

    A key press that raises the keyboard's interrupt reaches every task that waits for a key, with a word that
    decodes to the key; and [sched_init] leaves a scheduler without tasks to run, an idle task and a periodic
    timer whose interrupts run the scheduler. *)

From S2P Require Import Prelude DList Pmm KLib Acpi Ptm PtmProofs Vmalloc Slab Vmm Cpuf Irq Desc DescProofs Ata Timer TimerProofs Keyboard Sched SchedProofs Task TaskProofs Vfs Elf Proc ProcProofs IrqProofs Drivers.

(** ** The keyboard *)

Section Keyboard.
Context {D : Type} `{Ports D} `{Hw D}.

(** The key that a byte of the keyboard stands for, going by the tables. *)
Definition key_of (k : kb_state) (scancode : Z) : Z :=
  let base := Z.land scancode 0x7f in
  if is_extended k then keycode_get_keypad_by_scancode base else keycode_get_by_scancode base.

(** What the tasks of [s'] have seen of a key event [w]. *)
Definition key_delivered (w : Z) (s s' : sched_t) : Prop :=
  (subscribed s EV_KEYBOARD -> forall p, p ∈ active_tasks s -> wakes s EV_KEYBOARD p -> delivered w s s' p) /\
  (~ subscribed s EV_KEYBOARD -> tasks s' = tasks s /\ sub_list s' = sub_list s).

Lemma publish_key_spec cpu e nanos w s c t :
  sched_inv s -> pub_list s = [] -> running_tasks s !! cpu = Some c -> tasks s !! c = Some t -> events s !! e = None ->
  exists s', publish_key cpu (Some e) nanos w s = Some s' /\ sched_inv s' /\ pub_list s' = [] /\
    active_tasks s' = active_tasks s /\ match w with Some w => key_delivered w s s' | None => s' = s end.
Proof.
  intros Hi Hp Hc Ht He. destruct w as [w|]; [|by exists s].
  destruct (kevent_publish_delivers cpu e EV_KEYBOARD w nanos s c t Hi Hp Hc Ht He) as (s' & E & A & B & _ & C & F & G).
  exists s'. done.
Qed.

Lemma process_pad k b k' w : _process_scan_code k b = (k', Some w) -> key_pad (kb_data w) = false.
Proof.
  unfold _process_scan_code. destruct (b =? 0xe0); [done|]. pose proof (keycode_bound (Z.land b 127) (is_extended k)) as Hk. cbv zeta in Hk.
  set (key := if is_extended k then _ else _) in *. destruct (key =? KEY_RESERVED); [done|]. intros [= _ <-].
  by rewrite kb_data_flags by (cbn [key_code]; lia).
Qed.

(** Whether a modifier key is held. *)
Definition held (k : kb_state) (m : Z) : bool :=
  if m =? KEY_LEFTCTRL then keystate_lctrl k else if m =? KEY_RIGHTCTRL then keystate_rctrl k
  else if m =? KEY_LEFTSHIFT then keystate_lshift k else if m =? KEY_RIGHTSHIFT then keystate_rshift k
  else if m =? KEY_LEFTALT then keystate_lalt k else if m =? KEY_RIGHTALT then keystate_ralt k else false.
Definition modifiers : list Z := [KEY_LEFTCTRL; KEY_RIGHTCTRL; KEY_LEFTSHIFT; KEY_RIGHTSHIFT; KEY_LEFTALT; KEY_RIGHTALT].

(** The byte [b] is an event of a key, which went down for a byte below 128 and up for the others. *)
Definition key_event (k : kb_state) (b : Z) : bool := negb (b =? 0xe0) && negb (key_of k b =? KEY_RESERVED).

(** The state of the keyboard after the byte [b].  A modifier key is held from its press to its release, a lock changes when its key goes
    down, and a code is an extended one right after the prefix. *)
Record kb_after (k : kb_state) (b : Z) (k' : kb_state) : Prop := {
  ka_extended : is_extended k' = (b =? 0xe0);
  ka_held : forall m, m ∈ modifiers -> held k' m = if key_event k b && (key_of k b =? m) then b <? 128 else held k m;
  ka_caps : capslock_state k' = xorb (capslock_state k) (key_event k b && (key_of k b =? KEY_CAPSLOCK) && (b <? 128));
  ka_scroll : scrolllock_state k' = xorb (scrolllock_state k) (key_event k b && (key_of k b =? KEY_SCROLLLOCK) && (b <? 128));
  ka_num : numlock_state k' = xorb (numlock_state k) (key_event k b && (key_of k b =? KEY_NUMLOCK) && (b <? 128));
}.

Lemma set_key_state_held k key p m :
  m ∈ modifiers -> held (_set_key_state k key p) m = if key =? m then p else held k m.
Proof.
  unfold modifiers. rewrite !elem_of_cons, elem_of_nil. destruct k. unfold _set_key_state, KEY_LEFTCTRL, KEY_RIGHTCTRL, KEY_LEFTSHIFT,
    KEY_RIGHTSHIFT, KEY_LEFTALT, KEY_RIGHTALT. intros Hm.
  destruct (Z.eqb_spec key m) as [->|Hne]; destruct_or! Hm; subst; try done; repeat (case_match; breflect; [try done; lia|]); done.
Qed.
Lemma set_key_state_locks k key p :
  capslock_state (_set_key_state k key p) = capslock_state k /\ scrolllock_state (_set_key_state k key p) = scrolllock_state k /\
  numlock_state (_set_key_state k key p) = numlock_state k.
Proof. destruct k. unfold _set_key_state. by repeat case_match. Qed.
Lemma toggle_locks_spec k key (p : bool) :
  let k' := if p then toggle_locks k key else k in
  (forall m, held k' m = held k m) /\ capslock_state k' = xorb (capslock_state k) ((key =? KEY_CAPSLOCK) && p) /\
  scrolllock_state k' = xorb (scrolllock_state k) ((key =? KEY_SCROLLLOCK) && p) /\
  numlock_state k' = xorb (numlock_state k) ((key =? KEY_NUMLOCK) && p).
Proof.
  destruct k, p; unfold toggle_locks, KEY_CAPSLOCK, KEY_SCROLLLOCK, KEY_NUMLOCK; cbv zeta; rewrite ?andb_true_r, ?andb_false_r, ?xorb_false_r;
    [|done]. repeat (case_match; breflect; subst; cbn; rewrite ?xorb_false_r, ?xorb_true_r; [done|]). by cbn; rewrite ?xorb_false_r.
Qed.

Lemma pressed_bit b : 0 <= b < 256 -> (Z.land b 0x80 =? 0) = (b <? 128).
Proof.
  intros Hb. assert (forallb (fun b => eqb (Z.land b 0x80 =? 0) (b <? 128)) (seqZ 0 256) = true) as Hall by (vm_compute; done).
  rewrite forallb_forall in Hall. specialize (Hall b). rewrite <- list_elem_of_In, elem_of_seqZ in Hall. apply eqb_prop, Hall. lia.
Qed.

Lemma process_after k b : 0 <= b < 256 -> kb_after k b (_process_scan_code k b).1.
Proof.
  intros Hb. unfold _process_scan_code. rewrite (pressed_bit b Hb). fold (key_of k b). destruct (Z.eqb_spec b 0xe0) as [->|Hne].
  { constructor; unfold key_event; destruct k; cbn [Z.eqb negb andb]; rewrite ?xorb_false_r; done. }
  assert (key_event k b = negb (key_of k b =? KEY_RESERVED)) as Hev by (unfold key_event; by rewrite (proj2 (Z.eqb_neq _ _) Hne)).
  assert (forall m, held (set_extended k false) m = held k m) as Hse by (by destruct k).
  destruct (key_of k b =? KEY_RESERVED); cbn [fst].
  { constructor; rewrite ?Hev, ?(proj2 (Z.eqb_neq _ _) Hne); cbn [negb andb]; rewrite ?xorb_false_r; destruct k; done. }
  destruct (toggle_locks_spec (set_extended k false) (key_of k b) (b <? 128)) as (T1 & T2 & T3 & T4). cbv zeta in *.
  destruct (set_key_state_locks (if b <? 128 then toggle_locks (set_extended k false) (key_of k b) else set_extended k false) (key_of k b) (b <? 128))
    as (S1 & S2 & S3).
  constructor; rewrite Hev || idtac; cbn [negb andb].
  - rewrite set_key_extended, locks_extended, (proj2 (Z.eqb_neq _ _) Hne). by destruct k.
  - intros m Hm. by rewrite set_key_state_held, T1, Hse by done.
  - rewrite S1, T2. by destruct k.
  - rewrite S2, T3. by destruct k.
  - rewrite S3, T4. by destruct k.
Qed.

(** C20. From the key to its readers.  On an interrupt with a byte [b] in the controller's buffer the handler takes the byte, and
    acknowledges the interrupt last.  The modifier keys held, the locks and the extended mode change as the byte says: a
    modifier is held from its press to its release.  A byte that stands for a key is published as a word that decodes to the key, whether it
    went down, and the modifier keys held; every queued task that waits for a key is made ready with this
    word, when there is a subscription.  The prefix of an extended code, an unknown code, and an interrupt
    without a byte wake nobody, and the last changes nothing of the keyboard's state. *)
Theorem keyboard_interrupt_delivers a cpu e nanos k s d c t status d1 b d2 :
  sched_inv s -> pub_list s = [] -> running_tasks s !! cpu = Some c -> tasks s !! c = Some t -> events s !! e = None ->
  port_inb PS2_PORT_STATUS d = (status, d1) -> port_inb PS2_PORT_DATA d1 = (b, d2) -> 0 <= b < 256 ->
  let full := Z.testbit status 0 in
  exists k' s', keyboard_callback a cpu (Some e) nanos k s d = Some (k', s', apic_send_eoi a (if full then d2 else d1)) /\
    sched_inv s' /\ pub_list s' = [] /\ active_tasks s' = active_tasks s /\
    (if full then kb_after k b k' else k' = k) /\
    if full && key_event k b then
      exists w, key_delivered w s s' /\
        kb_data w = KeyData (held k' KEY_LEFTCTRL || held k' KEY_RIGHTCTRL) (held k' KEY_LEFTSHIFT || held k' KEY_RIGHTSHIFT)
                      (held k' KEY_LEFTALT || held k' KEY_RIGHTALT) (key_of k b) (b <? 128) false
    else s' = s.
Proof.
  intros Hi Hp Hc Ht He E1 E2 Hb full. unfold keyboard_callback. rewrite E1. unfold output_full.
  assert (ctrue (Z.land status PS2_STATUS_OUTPUT_BUFFER_FULL) = full) as ->.
  { unfold full, PS2_STATUS_OUTPUT_BUFFER_FULL. change 1 with (Z.ones 1). rewrite Z.land_ones, <- Z.bit0_mod by lia.
    by destruct (Z.testbit status 0). }
  destruct full; cbn [negb andb]; [|exists k, s; done]. rewrite E2.
  pose proof (scan_code_published k b Hb) as Hs. cbv zeta in Hs. fold (key_of k b) in Hs.
  pose proof (process_after k b Hb) as Hka. destruct (_process_scan_code k b) as [k' w] eqn:Ek.
  destruct (publish_key_spec cpu e nanos w s c t Hi Hp Hc Ht He) as (s' & -> & A & B & C & F). cbn [mbind option_bind].
  exists k', s'. split_and!; [done..|]. unfold key_event. destruct w as [w|].
  - destruct Hs as (H1 & H2 & H3 & H4 & H5 & H6 & _). destruct (Z.eqb_spec (key_of k b) KEY_RESERVED) as [|_]; [done|].
    destruct (Z.eqb_spec b 0xe0) as [->|_]; [by unfold _process_scan_code in Ek|]. cbn [negb andb].
    exists w. split; [done|]. unfold held. cbn [Z.eqb Pos.eqb KEY_LEFTCTRL KEY_RIGHTCTRL KEY_LEFTSHIFT KEY_RIGHTSHIFT KEY_LEFTALT KEY_RIGHTALT]. rewrite <- H1, <- H3, <- H4, <- H5, <- H6.
    assert (key_pad (kb_data w) = false) as <-; [|by destruct (kb_data w)].
    apply (process_pad _ _ _ _ Ek).
  - destruct Hs as [[-> _]|[-> _]]; [done|]. by rewrite andb_false_r.
Qed.
End Keyboard.

(** ** The timer of the scheduler

    The documented use of the local controller's timer registers: entry, initial count and divide configuration keep what is
    stored, whatever is stored to the other registers and whatever time passes, and stores to them do not stop the event timer.  The
    current count starts at the initial count when that is stored, and falls by one every [count_fs c] femtoseconds, where [c] is the
    divide configuration; the time is that of the event timer. *)

Definition timer_reg (r : Z) : Prop := r = APIC_REG_LVT_TIMER \/ r = APIC_TIMER_REG_ICR \/ r = APIC_TIMER_REG_DCR.

Class LapicLaws (D : Type) `{HpetLaws D} `{Hw D} (base : Z) := {
  count_fs : Z -> Z;
  count_since : D -> Z;
  count_fs_pos c : 0 < count_fs c;
  lapic_stores d r v :
    timer_reg r -> 0 <= v < 2 ^ 32 -> (r = APIC_TIMER_REG_DCR -> v < 4) -> mmio_read (base + r) (mmio_write (base + r) v d) = v;
  lapic_keeps d r r' v :
    timer_reg r -> timer_reg r' -> r <> r' -> mmio_read (base + r) (mmio_write (base + r') v d) = mmio_read (base + r) d;
  lapic_hpet d r v : timer_reg r -> hpet_on d -> hpet_on (mmio_write (base + r) v d);
  lapic_while d r p : timer_reg r -> mmio_read (base + r) (mmio_read64 p d).2 = mmio_read (base + r) d;
  lapic_starts d v : let d' := mmio_write (base + APIC_TIMER_REG_ICR) v d in count_since d' = hpet_count d';
  lapic_runs d p : count_since (mmio_read64 p d).2 = count_since d;
  lapic_counts d :
    let elapsed := (hpet_count d - count_since d) * tick_fs / count_fs (mmio_read (base + APIC_TIMER_REG_DCR) d) in
    0 <= elapsed <= mmio_read (base + APIC_TIMER_REG_ICR) d ->
    mmio_read (base + APIC_TIMER_REG_CCR) d = mmio_read (base + APIC_TIMER_REG_ICR) d - elapsed;
}.

Section Timer.
Context {D : Type} `{HpetLaws D} `{Hw D}.

(** What reads of the event timer keep, a sleep keeps. *)
Lemma nanos_keep h (g : D -> Z) d : (forall p d, g (mmio_read64 p d).2 = g d) -> g (hpet_get_nanos h d).2 = g d.
Proof.
  intros Hg. unfold hpet_get_nanos, hpet_get, hpet_reg_read. pose proof (Hg (u64 (hpet_base h + HPET_MCV)) d) as E.
  by destruct (mmio_read64 _ d).
Qed.

Lemma wait_keeps h (g : D -> Z) start amount d' : (forall p d, g (mmio_read64 p d).2 = g d) -> forall fuel d,
  wait_clock fuel (hpet_get_nanos h) start amount d = Some d' -> g d' = g d.
Proof.
  intros Hg. induction fuel as [|fuel IH]; intros d; [done|]. cbn [wait_clock].
  pose proof (nanos_keep h g d Hg) as E. destruct (hpet_get_nanos h d) as [now d1]. cbn [snd] in E.
  destruct (_ <=? _); [intros [= <-]; done|]. intros Hw. by rewrite (IH _ Hw).
Qed.

Lemma sleep_keeps h (g : D -> Z) fuel ms d d' :
  (forall p d, g (mmio_read64 p d).2 = g d) -> hpet_sleep_millis fuel h ms d = Some d' -> g d' = g d.
Proof.
  intros Hg. unfold hpet_sleep_millis, hpet_sleep_nanos. pose proof (nanos_keep h g d Hg) as E.
  destruct (hpet_get_nanos h d) as [start d1]. cbn [snd] in E. intros Hw. by rewrite (wait_keeps h g _ _ _ Hg _ _ Hw).
Qed.

(** The local controller in its own mode, with the registers at [lapic_base]. *)
Context (a : lapic_t) `{!LapicLaws D (lapic_base a)} (Ha : is_x2apic_mode a = false).

Lemma reg_write r v d : 0 <= r < 2 ^ 16 -> apic_reg_write a r v d = mmio_write (lapic_base a + r) (u32 v) d.
Proof. intros Hr. unfold apic_reg_write. by rewrite Ha, (u16_small r) by done. Qed.
Lemma reg_read r d : 0 <= r < 2 ^ 16 -> apic_reg_read a r d = mmio_read (lapic_base a + r) d.
Proof. intros Hr. unfold apic_reg_read. by rewrite (u16_small r) by done. Qed.

(** A timer register after a store of the driver. *)
Lemma timer_reg_write r r' v d :
  timer_reg r -> timer_reg r' -> (r' = APIC_TIMER_REG_DCR -> 0 <= v < 4) ->
  mmio_read (lapic_base a + r) (apic_reg_write a r' v d) = if r =? r' then u32 v else mmio_read (lapic_base a + r) d.
Proof.
  intros Hr Hr' Hv. rewrite reg_write by (destruct Hr' as [-> |[-> | ->]]; done).
  destruct (Z.eqb_spec r r') as [->|Hne]; [|by apply lapic_keeps].
  apply lapic_stores; [done|apply u32_range|]. intros Hd%Hv. rewrite u32_small; lia.
Qed.

Lemma ready_write h r v d : timer_reg r -> ready h d -> ready h (apic_reg_write a r v d).
Proof.
  intros Hr [Hb Hp Ho]. constructor; [done..|]. rewrite reg_write by (destruct Hr as [-> |[-> | ->]]; done). by apply lapic_hpet.
Qed.

Lemma register_soft (s : irq_state D) :
  irq_external_max (isr s) < APIC_TIMER_IRQ -> isr_register_irq APIC_TIMER_IRQ s = Some s.
Proof.
  intros Hx%Z.ltb_lt. unfold isr_register_irq, isr_setup_irq, enable_hard, isr_is_softirq. rewrite Hx.
  change (NUM_INTERRUPTS <=? APIC_TIMER_IRQ) with false. cbv iota beta. cbn [mbind option_bind]. by rewrite Hx.
Qed.

(** The counts of a timer with [c] femtoseconds a count in a time of [fs] femtoseconds, divided by 100: about the counts of
    a hundredth of that time. *)
Lemma hundredth fs c : 0 <= fs -> 0 < c -> let n := fs / c / 100 in fs < 100 * (n * c) + 100 * c /\ 100 * (n * c) <= fs.
Proof.
  intros Hfs Hc n. unfold n. rewrite Z.div_div by lia. pose proof (Z.div_mod fs (c * 100) ltac:(lia)).
  pose proof (Z.mod_pos_bound fs (c * 100) ltac:(lia)). lia.
Qed.

(** [n] counts of the local timer with the divide configuration [c] are one millisecond, but for less than one count and a hundredth of two steps
    of the event timer; a tick of the event timer that is not a whole number of nanoseconds can double that. *)
Definition one_milli (c n : Z) : Prop :=
  10 ^ 12 < n * count_fs c + count_fs c /\
  100 * (n * count_fs c) <= 2 * (100 * 10 ^ 12 + 2 * hpet_step * tick_fs) /\
  (tick_fs mod 1000000 = 0 -> 100 * (n * count_fs c) <= 100 * 10 ^ 12 + 2 * hpet_step * tick_fs).

(** [apic_timer_init] with a free vector above the lines of the controllers. *)
Lemma apic_timer_init_spec fuel h s r :
  ready h (dev s) -> 1000000 <= tick_fs -> 100 * 1000000 + hpet_step * (tick_fs / 1000000) < 2 ^ 64 ->
  100 * 1000000 < Z.of_nat fuel -> 2 * (100 * 10 ^ 12 + 2 * hpet_step * tick_fs) <= U32_MAX * count_fs 1 ->
  irq_external_max (isr s) < APIC_TIMER_IRQ -> at_index (isr_registers (isr s)) (irq_to_vector APIC_TIMER_IRQ) = Some r ->
  exists s' khz, apic_timer_init fuel a h s = Some (s', khz) /\ 0 <= khz < 2 ^ 32 /\ one_milli 1 khz /\
    mmio_read (lapic_base a + APIC_TIMER_REG_DCR) (dev s') = 1 /\
    mmio_read (lapic_base a + APIC_REG_LVT_TIMER) (dev s') = Z.lor APIC_LVT_MASK_FLAG (irq_to_vector APIC_TIMER_IRQ) /\
    ctls s' = ctls s /\ at_index (isr_registers (isr s')) (irq_to_vector APIC_TIMER_IRQ) =
      Some (IsrRegister ISR_TYPE_LAPIC_TIMER (isr_handler r) (used r)).
Proof.
  intros Hr Hfs Hk Hfuel Hmax Hx Hv. unfold apic_timer_init. rewrite register_soft by done. cbn [mbind option_bind].
  unfold isr_set_handler_type. rewrite Hv. cbn [mbind option_bind].
  destruct (put_index (isr_registers (isr s)) (irq_to_vector APIC_TIMER_IRQ) _) as [rs|] eqn:E; [|unfold put_index in E; by rewrite Hv in E].
  cbn [mbind option_bind]. set (d1 := apic_reg_write a APIC_REG_LVT_TIMER _ (dev s)). set (d2 := apic_reg_write a APIC_TIMER_REG_DCR 1 d1).
  set (d3 := apic_reg_write a APIC_TIMER_REG_ICR U32_MAX d2).
  assert (ready h d3) as Hr3 by (do 3 (apply ready_write; [unfold timer_reg; tauto|]); done).
  assert (0 <= hpet_step * (tick_fs / 1000000)).
  { pose proof (hpet_step_pos d3 (rd_on _ _ Hr3)). assert (0 <= tick_fs / 1000000) by (apply Z.div_pos; lia). nia. }
  assert (1 <= tick_fs / 1000000) as Hp by (apply Z.div_le_lower_bound; lia).
  pose proof (rd_period _ _ Hr3) as Hper.
  destruct (hpet_sleep_nanos_spec h d3 (100 * 1000000) fuel Hr3 Hfs) as (d4 & Es & _ & Hn); [lia|lia|nia|lia|].
  assert (hpet_sleep_millis fuel h 100 d3 = Some d4) as Em by (unfold hpet_sleep_millis; rewrite u64_small by lia; exact Es).
  rewrite Em. cbn [mbind option_bind].
  assert (forall q, timer_reg q -> mmio_read (lapic_base a + q) d4 = mmio_read (lapic_base a + q) d3) as Hkeep
    by (intros q Hq; apply (sleep_keeps h (fun d => mmio_read (lapic_base a + q) d) _ _ _ _ (fun p d => lapic_while d q p Hq) Em)).
  assert (count_since d4 = hpet_count d3) as Hsince.
  { rewrite (sleep_keeps h count_since _ _ _ _ (fun p d => lapic_runs d p) Em). unfold d3. rewrite reg_write by done. apply lapic_starts. }
  assert (mmio_read (lapic_base a + APIC_TIMER_REG_DCR) d4 = 1) as Hdcr.
  { rewrite Hkeep by (unfold timer_reg; tauto). unfold d3, d2. rewrite !timer_reg_write by (done || (unfold timer_reg; tauto)). done. }
  assert (mmio_read (lapic_base a + APIC_TIMER_REG_ICR) d4 = U32_MAX) as Hicr.
  { rewrite Hkeep by (unfold timer_reg; tauto). unfold d3. rewrite timer_reg_write by (done || (unfold timer_reg; tauto)). done. }
  rewrite Hper in Hn. apply elapsed_time in Hn as [[Hlo Hhi] Hex]; [|done|by apply (hpet_step_pos d3), Hr3|lia].
  set (fs := (hpet_count d4 - hpet_count d3) * tick_fs) in *. pose proof (count_fs_pos 1) as Hc.
  assert (0 <= fs / count_fs 1 <= U32_MAX) as He.
  { split; [apply Z.div_pos; lia|]. apply Z.div_le_upper_bound; [done|]. lia. }
  pose proof (lapic_counts d4) as Hccr. cbv zeta in Hccr. rewrite Hdcr, Hicr, Hsince in Hccr. fold fs in Hccr. specialize (Hccr He).
  rewrite reg_read, Hccr by done. replace (U32_MAX - (U32_MAX - fs / count_fs 1)) with (fs / count_fs 1) by lia.
  rewrite u32_small by (unfold U32_MAX in He; lia). destruct (hundredth fs (count_fs 1) ltac:(lia) Hc) as [Hb1 Hb2].
  eexists _, _. split; [reflexivity|]. cbn [dev isr ctls isr_registers set_registers]. split_and!.
  - apply Z.div_pos; lia.
  - unfold U32_MAX in He. apply Z.div_lt_upper_bound; lia.
  - unfold one_milli. split_and!; [lia|lia|]. intros Hm. specialize (Hex Hm). lia.
  - done.
  - rewrite Hkeep by (unfold timer_reg; tauto). unfold d3, d2, d1. rewrite !timer_reg_write by (done || (unfold timer_reg; tauto)). vm_compute. reflexivity.
  - done.
  - by rewrite (at_put_index _ _ _ (irq_to_vector APIC_TIMER_IRQ) _ E), Z.eqb_refl.
Qed.
End Timer.

Section SchedInit.
Context {D : Type} `{HpetLaws D} `{Hw D} {F W P : Type} {ops : FsOps F W P} (start start_user : Z).
Context (exc : Z -> Z) (intr_stubs : Z).
Notation proc_t := (proc_t (F := F) (W := W) (P := P)).

(** A kernel task is ready and in no queue. *)
Lemma kernel_task_created fr name routine prio (p : proc_t) :
  n_task fr <> 0 -> n_mm fr <> 0 -> n_stack fr <> 0 ->
  exists p' t, task_create start start_user fr name routine prio TASK_KERNEL_MODE p = Some (p', n_task fr) /\
    tasks (sched p') = <[n_task fr := t]> (tasks (sched p)) /\ state t = TASK_READY /\
    active_tasks (sched p') = active_tasks (sched p) /\ running_tasks (sched p') = running_tasks (sched p) /\
    idle_tasks (sched p') = idle_tasks (sched p) /\ sub_list (sched p') = sub_list (sched p) /\
    pub_list (sched p') = pub_list (sched p) /\ (forall q, is_Some (events (sched p) !! q) -> is_Some (events (sched p') !! q)).
Proof.
  intros Ht Hm Hs. unfold task_create. rewrite (proj2 (Z.eqb_neq _ _) Ht), (proj2 (Z.eqb_neq _ _) Hm). cbn [orb].
  unfold _alloc_tid. cbv iota beta. set (s0 := with_vfs _ _).
  assert (sched s0 = sched p) as E0 by (unfold s0; cbn; rewrite take_block_sched; cbn; by rewrite take_block_sched).
  unfold _task_setup_kstack. rewrite (proj2 (Z.eqb_neq _ _) Hs). cbn [mbind option_bind]. eexists _, _. split; [reflexivity|].
  cbn [sched put_task with_image with_sched with_mem tasks with_tasks active_tasks running_tasks idle_tasks sub_list pub_list events].
  rewrite take_block_sched. unfold take_event. destruct (n_event fr =? 0); [by rewrite E0|].
  rewrite take_block_sched, E0. cbn. split_and!; try done. intros q Hq.
  destruct (decide (q = n_event fr)) as [->|Hne]; [rewrite lookup_insert_eq; eauto|by rewrite lookup_insert_ne].
Qed.

(** The scheduler before it is initialised. *)
Record boot_sched (s : sched_t) : Prop := BootSched {
  bs_tasks : tasks s = ∅; bs_run : running_tasks s = ∅; bs_idle : idle_tasks s = ∅; bs_sub : sub_list s = []; bs_pub : pub_list s = [] }.

Lemma boot_inv s s' cpu i t :
  boot_sched s -> state t = TASK_READY -> tasks s' = <[i := t]> (tasks s) -> active_tasks s' = [] -> running_tasks s' = running_tasks s ->
  idle_tasks s' = <[cpu := i]> (idle_tasks s) -> sub_list s' = sub_list s -> pub_list s' = pub_list s -> sched_inv s'.
Proof.
  intros [Bt Br Bi Bs Bp] Hst Et Ea Er Ei Es Ep. rewrite Bt in Et. rewrite Br in Er. rewrite Bi in Ei. rewrite Bs in Es. rewrite Bp in Ep.
  constructor; rewrite ?Et, ?Ea, ?Er, ?Ei, ?Es, ?Ep.
  - intros p Hp. by apply elem_of_nil in Hp.
  - constructor.
  - intros c x Hx. by rewrite lookup_empty in Hx.
  - intros c c' x Hx. by rewrite lookup_empty in Hx.
  - intros c x [[<- <-]|[_ Hx]]%lookup_insert_Some; [|by rewrite lookup_empty in Hx].
    rewrite lookup_insert_eq. split; [eauto|apply not_elem_of_nil].
  - intros c c' x [[<- <-]|[_ Hx]]%lookup_insert_Some [[<- _]|[_ Hy]]%lookup_insert_Some; try done; by rewrite lookup_empty in *.
  - intros c c' x _ Hx. by rewrite lookup_empty in Hx.
  - intros p u [[<- <-]|[_ Hx]]%lookup_insert_Some Hw; [|by rewrite lookup_empty in Hx]. by rewrite Hst in Hw.
  - split; [constructor|]. intros e He. by apply elem_of_nil in He.
  - intros e He. by apply elem_of_nil in He.
Qed.

(** C21. [sched_init] on the boot processor, over a running event timer with a tick of at least a nanosecond and a local controller in its own mode that
    follow their documentation, succeeds.  The scheduler is well formed with empty queues and a ready idle task of this processor;
    the local timer is periodic and unmasked, its period is one millisecond up to the accuracy of the measurement ([one_milli]), and it
    names a vector whose interrupts run exactly [__timer_switch_context]. *)
Theorem sched_init_correct fuel a `{!LapicLaws D (lapic_base a)} h cpu fr name idle timer_switch (p : proc_t) (s : irq_state D) r :
  is_x2apic_mode a = false -> ready h (dev s) -> 1000000 <= tick_fs ->
  100 * 1000000 + hpet_step * (tick_fs / 1000000) < 2 ^ 64 -> 100 * 1000000 < Z.of_nat fuel ->
  2 * (100 * 10 ^ 12 + 2 * hpet_step * tick_fs) <= U32_MAX * count_fs 1 -> boot_sched (sched p) -> n_task fr <> 0 -> n_mm fr <> 0 -> n_stack fr <> 0 ->
  irq_external_max (isr s) < APIC_TIMER_IRQ -> at_index (isr_registers (isr s)) (irq_to_vector APIC_TIMER_IRQ) = Some r -> used r = false ->
  exists p' s' khz,
    sched_init start start_user fuel a h cpu true fr name idle timer_switch p s = Some (p', s', khz) /\
    sched_inv (sched p') /\ active_tasks (sched p') = [] /\ idle_tasks (sched p') = {[cpu := n_task fr]} /\
    one_milli a (mmio_read (lapic_base a + APIC_TIMER_REG_DCR) (dev s')) (mmio_read (lapic_base a + APIC_TIMER_REG_ICR) (dev s')) /\
    let lvt := mmio_read (lapic_base a + APIC_REG_LVT_TIMER) (dev s') in
    Irq.field lvt 16 1 = 0 /\ Irq.field lvt 17 2 = 1 /\
    forall cs, exists swap, deliver intr_stubs (idt_init exc intr_stubs) cs (Irq.field lvt 0 8) (isr s') =
      Some (swap ++ [Call (Driver timer_switch)] ++ swap) /\ (swap = [Swapgs] <-> cs = Irq.USER_CODE_SELECTOR).
Proof.
  intros Ha Hr Hfs Hk Hfuel Hmax Hboot Ht Hm Hs Hx Hv Hu. unfold sched_init.
  set (p0 := with_sched _ p).
  destruct (kernel_task_created fr name idle 0 p0 Ht Hm Hs) as (p1 & t & -> & Et & Hst & Ea & Er & Ei & Es & Ep & _). cbn [mbind option_bind].
  destruct (apic_timer_init_spec a Ha fuel h s r Hr Hfs Hk Hfuel Hmax Hx Hv) as (s1 & khz & -> & Hkhz & Hmilli & Hdcr & Hlvt & Hc & Hv1). cbn [mbind option_bind].
  unfold apic_timer_set_handler, isr_setup_irq_handler. cbn [isr set_dev].
  destruct (register_handler_spec (irq_to_vector APIC_TIMER_IRQ) (Driver timer_switch) (isr s1) _ Hv1 Hu) as (i1 & -> & _ & _ & Hreg).
  cbn [mbind option_bind]. set (d1 := apic_timer_set_mode a TIMER_PERIODIC (dev s1)). set (d2 := apic_timer_set_period_ms a khz 1 d1).
  cbn [dev ctls set_dev isr].
  assert (mmio_read (lapic_base a + APIC_REG_LVT_TIMER) d2 = 0x300fe) as E2.
  { unfold d2, d1, apic_timer_set_period_ms, apic_timer_set_mode. rewrite !timer_reg_write by (done || (unfold timer_reg; tauto)).
    rewrite reg_read by done. rewrite Hlvt. vm_compute. reflexivity. }
  assert (mmio_read (lapic_base a + APIC_REG_LVT_TIMER) (apic_timer_start a d2) = 0x200fe) as E3.
  { unfold apic_timer_start. rewrite timer_reg_write by (done || (unfold timer_reg; tauto)). rewrite reg_read by done. rewrite E2.
    vm_compute. reflexivity. }
  eexists _, _, khz. split; [reflexivity|]. cbn [dev isr set_dev sched with_sched with_idle active_tasks idle_tasks]. split_and!.
  - eapply (boot_inv (sched p) _ cpu (n_task fr) t Hboot Hst); cbn; rewrite ?Et, ?Ea, ?Er, ?Ei, ?Es, ?Ep; done.
  - rewrite Ea. done.
  - rewrite Ei. cbn. by rewrite (bs_idle _ Hboot).
  - assert (mmio_read (lapic_base a + APIC_TIMER_REG_DCR) (apic_timer_start a d2) = 1) as ->.
    { unfold apic_timer_start, d2, d1, apic_timer_set_period_ms, apic_timer_set_mode.
      rewrite !timer_reg_write by (done || (unfold timer_reg; tauto)). exact Hdcr. }
    assert (mmio_read (lapic_base a + APIC_TIMER_REG_ICR) (apic_timer_start a d2) = khz) as ->; [|done].
    unfold apic_timer_start, d2, apic_timer_set_period_ms. rewrite !timer_reg_write by (done || (unfold timer_reg; tauto)).
    change (APIC_TIMER_REG_ICR =? APIC_REG_LVT_TIMER) with false. cbv iota. by rewrite Z.eqb_refl, Z.mul_1_l, (u64_small khz), u32_small by lia.
  - by rewrite E3.
  - by rewrite E3.
  - intros cs. rewrite E3. change (Irq.field 0x200fe 0 8) with (irq_to_vector APIC_TIMER_IRQ). rewrite deliver_vector by done.
    unfold intr_common_handler, common_handler. rewrite Hreg, Z.eqb_refl. cbn [mbind option_bind isr_handler]. eexists. split; [done|].
    destruct (Z.eqb_spec cs Irq.USER_CODE_SELECTOR); naive_solver.
Qed.
End SchedInit.

(** ** A concrete machine

    An event timer of 100 MHz, a local timer, and bytes that the keyboard has sent. *)

Record demo_pc := DemoPc { pc_count : Z; pc_on : bool; pc_regs : gmap Z Z; pc_since : Z; pc_keys : list Z }.
Definition pc_hpet : Z := u64 (MI_DIRECT_MAPPING_RANGE_START + 0xfed00000).
Definition pc_lapic : Z := 0xfee00000.

#[local] Instance demo_pc_clocks : Clocks demo_pc := {
  mmio_read64 a d :=
    if a =? pc_hpet + HPET_GENERAL_CAP_ID then (10000000 * 2 ^ 32, d)
    else if a =? pc_hpet + HPET_MCV then (u64 (pc_count d), DemoPc (pc_count d + 3) (pc_on d) (pc_regs d) (pc_since d) (pc_keys d))
    else (0, d);
  mmio_write64 a v d :=
    if a =? pc_hpet + HPET_GENERAL_CONF then DemoPc (pc_count d) (Z.testbit v 0) (pc_regs d) (pc_since d) (pc_keys d) else d;
  rdtsc d := (u64 (pc_count d), d);
}.
#[local] Instance demo_pc_hw : Hw demo_pc := {
  mmio_read a d :=
    if a =? pc_lapic + APIC_TIMER_REG_CCR
    then default 0 (pc_regs d !! (pc_lapic + APIC_TIMER_REG_ICR)) - (pc_count d - pc_since d) * 10000000 / 40000000
    else default 0 (pc_regs d !! a);
  mmio_write a v d :=
    DemoPc (pc_count d) (pc_on d) (<[a := v]> (pc_regs d)) (if a =? pc_lapic + APIC_TIMER_REG_ICR then pc_count d else pc_since d) (pc_keys d);
  read_msr _ _ := 0;
  write_msr _ _ d := d;
  __cpuid _ _ := Cpuid (Z.shiftl 1 9) 0 0 1;
}.
#[local] Instance demo_pc_ports : Ports demo_pc := {
  port_inb p d :=
    match pc_keys d with
    | [] => (0, d)
    | b :: bs => if p =? PS2_PORT_STATUS then (1, d) else (b, DemoPc (pc_count d) (pc_on d) (pc_regs d) (pc_since d) bs)
    end;
  port_outb _ _ d := d;
  port_inw _ d := (0, d);
  port_outw _ _ d := d;
}.

#[local] Instance demo_pc_hpet : HpetLaws demo_pc.
Proof.
  refine {| timer_at := pc_hpet; tick_fs := 10000000; hpet_count := pc_count; hpet_on d := pc_on d = true; hpet_step := 3 |};
    [done|done| | |].
  - intros d. exists 0, d. split; [|lia]. cbn [mmio_read64 demo_pc_clocks]. by rewrite Z.eqb_refl.
  - intros d v Hv. cbn [mmio_write64 demo_pc_clocks]. by rewrite Z.eqb_refl.
  - intros d Hd. exists (DemoPc (pc_count d + 3) (pc_on d) (pc_regs d) (pc_since d) (pc_keys d)). split; [|split; [exact Hd|cbn [pc_count]; lia]].
    cbn [mmio_read64 demo_pc_clocks]. change (pc_hpet + HPET_MCV =? pc_hpet + HPET_GENERAL_CAP_ID) with false.
    by rewrite Z.eqb_refl.
Defined.
#[local] Instance demo_pc_lapic : LapicLaws demo_pc pc_lapic.
Proof.
  assert (forall r, timer_reg r -> (pc_lapic + r =? pc_lapic + APIC_TIMER_REG_CCR) = false) as Hr by (by intros r [->|[->| ->]]).
  refine {| count_fs := fun _ => 40000000; count_since := pc_since |}.
  - done.
  - intros d r v Hq _ _. cbn. rewrite Hr by done. by rewrite lookup_insert_eq.
  - intros d r r' v Hq _ Hne. cbn. rewrite !Hr by done. by rewrite lookup_insert_ne by lia.
  - intros d r v _ Hd. exact Hd.
  - intros d r p Hq. cbn [mmio_read demo_pc_hw]. rewrite !Hr by done. cbn [mmio_read64 demo_pc_clocks]. by repeat case_match.
  - intros d v. cbn [mmio_write demo_pc_hw count_since pc_since]. by rewrite Z.eqb_refl.
  - intros d p. cbn [mmio_read64 demo_pc_clocks]. by repeat case_match.
  - intros d. cbv zeta. intros _. reflexivity.
Defined.

Definition demo_irqs : irq_state demo_pc :=
  IrqState (Isr (isr_init0 ISR_TYPE_UNKNOWN) (replicate 32 0) 24 (replicate 16 (Override false 0 0))) []
    (DemoPc 7 true ∅ 0 []).
Definition boot_proc : proc_t (F := unit) (W := list Z) (P := unit) :=
  Proc (Sched ∅ ∅ [] [] ∅ ∅ ∅ [] [] ∅ 0) ∅ (fun _ => 0) (vfs_init []) ∅ ∅ 0.

Lemma sched_init_correct_witness :
  exists p s khz, sched_init 1 2 (Z.to_nat 100000001) (Lapic pc_lapic false false) (Hpet pc_hpet 1 100000 10) 0 true demo_fresh 0x40 0x50 0x60
      boot_proc demo_irqs = Some (p, s, khz) /\ sched_inv (sched p) /\ idle_tasks (sched p) = {[0 := 5000]}.
Proof.
  destruct (sched_init_correct 1 2 (fun i => i) 0x8000 (Z.to_nat 100000001) (Lapic pc_lapic false false) (Hpet pc_hpet 1 100000 10) 0
    demo_fresh 0x40 0x50 0x60 boot_proc demo_irqs (IsrRegister ISR_TYPE_UNKNOWN unhandled_interrupt_handler false))
    as (p & s & khz & E & Hi & _ & Hidle & _).
  - reflexivity.
  - constructor; done.
  - done.
  - done.
  - rewrite Z2Nat.id; lia.
  - vm_compute. discriminate.
  - constructor; reflexivity.
  - done.
  - done.
  - done.
  - done.
  - vm_compute. reflexivity.
  - reflexivity.
  - exists p, s, khz. split; [exact E|]. split; [exact Hi|exact Hidle].
Defined.

(** The key [a] goes down while task 4 waits for a key. *)
Lemma keyboard_interrupt_delivers_witness :
  exists k s w, keyboard_callback (Lapic pc_lapic false false) 0 (Some 200) 9 kb_idle demo_sched (DemoPc 0 true ∅ 0 [0x1e]) =
      Some (k, s, apic_send_eoi (Lapic pc_lapic false false) (DemoPc 0 true ∅ 0 [])) /\
    delivered w demo_sched s 4 /\ key_code (kb_data w) = 30 /\ key_pressed (kb_data w) = true.
Proof.
  destruct (keyboard_interrupt_delivers (Lapic pc_lapic false false) 0 200 9 kb_idle demo_sched (DemoPc 0 true ∅ 0 [0x1e]) 2
    (demo_task 2 TASK_RUNNING 0) 1 (DemoPc 0 true ∅ 0 [0x1e]) 0x1e (DemoPc 0 true ∅ 0 []) demo_sched_inv eq_refl eq_refl eq_refl eq_refl)
    as (k & s & E & _ & _ & _ & _ & w & [Hw _] & Hk); [reflexivity|reflexivity|lia|].
  exists k, s, w. split; [exact E|]. split.
  - apply Hw.
    + exists 100, (Event TASK_ID_EMPTY 4 EV_KEYBOARD 0 0). split_and!; [left|reflexivity..].
    + left.
    + exists (demo_task 4 TASK_WAITING 100), (Event TASK_ID_EMPTY 4 EV_KEYBOARD 0 0).
      split_and!; [reflexivity|reflexivity|discriminate|reflexivity|reflexivity].
  - rewrite Hk. split; reflexivity.
Defined.
