(* ===== verification/Smp.v ===== *)
(** * The second processor

    [kernel/src/system/cpu.c] and [kernel/src/system/smp.c]: the control blocks of the processors, the page with the start-up code and its
    arguments, and the hand-shake over the counter [ap_count].

    Results of [kzalloc] and [vmalloc] are arguments, [0] for null; a store through null is [None].  The code of the trampoline is
    data here: what it does with the arguments is assembly.  [idt_load] loads the table of the boot processor and is left out.  From the second start-up message on the two processors run
    interleaved, as a step relation in which an increment or a load of the counter is one step. *)

From S2P Require Import Prelude DList Pmm KLib Sync Acpi Ptm Vmalloc Slab Vmm Cpuf Irq Desc Timer.

(** ** cpu.c *)

Definition MAX_CPUS : Z := 256.
Definition IA32_GS_BASE_MSR : Z := 0xC0000101.
Definition IA32_KERNEL_GS_BASE : Z := 0xC0000102.
Definition IA32_EFER : Z := 0xC0000080.
Definition IA32_STAR : Z := 0xC0000081.
Definition IA32_LSTAR : Z := 0xC0000082.
Definition IA32_SFMASK : Z := 0xC0000084.

Record cpu_ctrl_t := CpuCtrl { cpu_self : Z; cpu_is_bsp : bool; cpu_id : Z; cpu_tss : Z; cpu_gdt : Z }.

(** The array [cpu_ctrls], the blocks by address, and the task states by address. *)
Record cpu_state := Cpus { cpu_ctrls : list Z; ctrl_at : gmap Z cpu_ctrl_t; tss_at : gmap Z tss64_t }.

(** [kz] are the results of the allocations in order; [bsp] is the address of [bsp_cpu_ctrls]. *)
Definition cpu_init (bsp : Z) (kz : nat -> Z) (cpuno : Z) (s : cpu_state) : option (cpu_state * Z) :=
  if cpuno =? 0 then
    Some (Cpus (<[0%nat := bsp]> (replicate (Z.to_nat MAX_CPUS) 0)) (<[bsp := CpuCtrl bsp true (u16 cpuno) 0 0]> (ctrl_at s)) (tss_at s), bsp)
  else
    let c := kz 0%nat in let gdt := kz 1%nat in let tss := kz 2%nat in
    if negb ((0 <=? cpuno) && (cpuno <? MAX_CPUS)) || (c =? 0) || (tss =? 0) then None else
    Some (Cpus (<[Z.to_nat cpuno := c]> (cpu_ctrls s)) (<[c := CpuCtrl c false (u16 cpuno) tss gdt]> (ctrl_at s))
            (<[tss := Tss 0 (kz 3%nat) (kz 4%nat)]> (tss_at s)), c).

Definition num_cpus (s : madt_state) : Z := madt_get_num_lapic s.

Section Smp.
Context {D : Type} `{Hw D} `{Clocks D}.

Definition cpu_gs_init (cpu_ctrl : Z) (d : D) : D :=
  write_msr IA32_KERNEL_GS_BASE 0 (write_msr IA32_GS_BASE_MSR cpu_ctrl d).

(** [syscall_init] of [proc/syscall.c]; [handler] is the address of [syscall_handler0]. *)
Definition syscall_init (handler : Z) (d : D) : D :=
  let d := write_msr IA32_EFER (Z.lor (read_msr IA32_EFER d) 0x01) d in
  let d := write_msr IA32_STAR syscall_star d in
  let d := write_msr IA32_LSTAR handler d in
  write_msr IA32_SFMASK syscall_sfmask d.

(** [smp_ap_entry] up to the increment: the block, the descriptors [g], the controller and the system calls. *)
Definition smp_ap_setup (handler ctrl : Z) (a : lapic_t) (g : list Z) (s : cpu_state) (d : D) :
    option (list Z * cpu_state * lapic_t * D) :=
  let d := cpu_gs_init ctrl d in
  c ← ctrl_at s !! ctrl;
  t ← tss_at s !! cpu_tss c;
  '(g, t, _) ← gdt_init (cpu_is_bsp c) g (cpu_tss c) t (0, 0);
  '(a, d) ← apic_load a d;
  Some (g, Cpus (cpu_ctrls s) (ctrl_at s) (<[cpu_tss c := t]> (tss_at s)), a, syscall_init handler d).

(** ** The page of the start-up code *)

Definition MI_SMP_APENTRY_PHYS_START : Z := 0x1000.
Definition APIC_ICR_DELIVERY_INIT : Z := 0x500.
Definition APIC_ICR_DELIVERY_STARTUP : Z := 0x600.

(** Offsets of the packed [ap_args_t]. *)
Definition long_idt_ptr : Z := 2.
Definition long_stack_ptr : Z := 10.
Definition long_cr3_val : Z := 18.
Definition long_entry_ptr : Z := 26.
Definition long_cpu_ctrl : Z := 34.
Definition SIZEOF_AP_ARGS : Z := 42.

Definition put64 (m : memory) (p v : Z) : memory := store_bytes m p (Z_to_little_endian 8 8 v).

(** [bin] and [size] are the start-up code in the image of the kernel, [bakup] the page for a copy of the old contents. *)
Definition ap_page (bin size bakup ap_stack cr3 entry ctrl : Z) (m : memory) : memory :=
  let p := MI_SMP_APENTRY_PHYS_START in
  let m := memcpy m bakup p PAGE_SIZE in
  let m := memset m p 0 PAGE_SIZE in
  let m := memcpy m p bin size in
  let ap_stack_bottom := u64 (ap_stack + PAGE_SIZE) in
  let m := put64 m (p + long_idt_ptr) 0 in
  let m := put64 m (p + long_stack_ptr) ap_stack_bottom in
  let m := put64 m (p + long_cr3_val) cr3 in
  let m := put64 m (p + long_entry_ptr) entry in
  put64 m (p + long_cpu_ctrl) ctrl.

(** The messages to processor 1 with the sleeps between them. *)
Definition start_ap (fuel : nat) (a : lapic_t) (h : hpet_t) (d : D) : option D :=
  let startup d := apic_send_ipi a 1 (ptr_to_pfn MI_SMP_APENTRY_PHYS_START) APIC_ICR_DELIVERY_STARTUP d in
  d ← hpet_sleep_millis fuel h 20 (apic_send_ipi a 1 0 APIC_ICR_DELIVERY_INIT d);
  d ← hpet_sleep_millis fuel h 20 (startup d);
  hpet_sleep_millis fuel h 20 (startup d).

(** [smp_init] up to its loop.  The results: the memory, the control blocks, the counter, the call of [vmm_map], the device. *)
Definition smp_init (fuel : nat) (a : lapic_t) (h : hpet_t) (bsp_ctrl bin size bakup ap_stack cr3 entry : Z) (kz : nat -> Z)
    (ap_count : Z) (m : memory) (s : cpu_state) (d : D) : option (memory * cpu_state * Z * (Z * Z * Z * Z) * D) :=
  let ap_count := atomic_inc ap_count in
  if bakup =? 0 then None else
  '(s, ctrl) ← cpu_init bsp_ctrl kz (atomic_get ap_count) s;
  d ← start_ap fuel a h d;
  Some (ap_page bin size bakup ap_stack cr3 entry ctrl m, s, ap_count,
    (MI_SMP_APENTRY_PHYS_START, MI_SMP_APENTRY_PHYS_START, 1, VMM_FLAGS_DEFAULT), d).

End Smp.

(** ** The hand-shake *)

(** The boot processor polls the counter, or has left the loop. *)
Inductive bsp_pc := Polling | Left.
(** The processor that was sent the messages: it is not there, it has not counted itself yet, it is in its final loop. *)
Inductive ap_pc := Absent | Starting | Halted.

Record smp_state := SmpState { bsp : bsp_pc; ap : ap_pc; ap_count : Z }.

Inductive smp_step (expect : Z) : smp_state -> smp_state -> Prop :=
  | poll_done a n : atomic_get n = expect -> smp_step expect (SmpState Polling a n) (SmpState Left a n)
  | poll_again a n : atomic_get n <> expect -> smp_step expect (SmpState Polling a n) (SmpState Polling a n)
  | ap_counts b n : smp_step expect (SmpState b Starting n) (SmpState b Halted (atomic_inc n)).

(** With [n] processors; the messages go to processor 1 only. *)
Definition smp_started (n : Z) : smp_state := SmpState Polling (if 2 <=? n then Starting else Absent) 1.

(** ** What the second processor finds *)

Lemma put64_load m p v q : 0 <= v < 2 ^ 64 -> q + 8 <= p \/ p + 8 <= q \/ q = p ->
  load_le 8 (put64 m p v) q = if decide (q = p) then v else load_le 8 m q.
Proof.
  intros Hv Hq. unfold load_le, put64.
  assert (length (Z_to_little_endian 8 8 v) = 8%nat) as Hl by (by apply (length_le_bytes 8)).
  destruct (decide (q = p)) as [->|Hne].
  - rewrite (list_eq (_ <$> seqZ p 8) (Z_to_little_endian 8 8 v)).
    + rewrite little_endian_to_Z_to_little_endian by lia. by apply Z.mod_small.
    + intros i. destruct (decide (i < 8)%nat) as [Hi|Hi].
      * rewrite list_lookup_fmap, lookup_seqZ_lt by lia. cbn [fmap option_fmap option_map].
        rewrite store_bytes_spec, decide_True by lia. replace (Z.to_nat (p + Z.of_nat i - p)) with i by lia.
        symmetry. apply list_lookup_lookup_total_lt. lia.
      * rewrite !lookup_ge_None_2; [done|lia|]. rewrite length_fmap, length_seqZ. lia.
  - f_equal. apply list_fmap_ext. intros i x [-> Hx]%lookup_seqZ. rewrite store_bytes_spec, decide_False by lia. done.
Qed.

(** The arguments are in the page, the start-up code behind them is that of the image, and the old contents are in the other
    page.  The stack pointer is one page above the bottom of the stack, whose other seven pages are not used. *)
Lemma ap_page_correct bin size bakup ap_stack cr3 entry ctrl m :
  let p := MI_SMP_APENTRY_PHYS_START in let m' := ap_page bin size bakup ap_stack cr3 entry ctrl m in
  SIZEOF_AP_ARGS <= size <= PAGE_SIZE -> p + PAGE_SIZE <= bin -> p + PAGE_SIZE <= bakup ->
  bin + size <= bakup \/ bakup + PAGE_SIZE <= bin ->
  0 <= ap_stack -> ap_stack + PAGE_SIZE < 2 ^ 64 -> 0 <= cr3 < 2 ^ 64 -> 0 <= entry < 2 ^ 64 -> 0 <= ctrl < 2 ^ 64 ->
  load_le 8 m' (p + long_stack_ptr) = ap_stack + PAGE_SIZE /\ load_le 8 m' (p + long_cr3_val) = cr3 /\
  load_le 8 m' (p + long_entry_ptr) = entry /\ load_le 8 m' (p + long_cpu_ctrl) = ctrl /\
  (forall i, SIZEOF_AP_ARGS <= i < size -> m' (p + i) = m (bin + i)) /\
  (forall i, 0 <= i < PAGE_SIZE -> m' (bakup + i) = m (p + i)).
Proof.
  intros p m' Hsz Hbin Hbak Hdis Hs0 Hs1 Hc He Hk. unfold m', ap_page. unfold SIZEOF_AP_ARGS, PAGE_SIZE, MI_SMP_APENTRY_PHYS_START in *.
  unfold long_idt_ptr, long_stack_ptr, long_cr3_val, long_entry_ptr, long_cpu_ctrl. rewrite (u64_small (_ + _)) by lia. unfold p in *. clear p m'.
  assert (forall m p v q, ~ (p <= q < p + 8) -> put64 m p v q = m q) as Hput.
  { intros m0 p v q Hq. unfold put64. rewrite store_bytes_spec. rewrite (length_le_bytes 8). by rewrite decide_False by lia. }
  split_and!.
  1-4: repeat (rewrite put64_load by lia; first [rewrite decide_True by lia|rewrite decide_False by lia]); done.
  - intros i Hi. rewrite !Hput by lia. rewrite (memcpy_copied _ 4096 bin size) by lia. rewrite decide_True by lia.
    rewrite memset_spec, decide_False by lia. rewrite (memcpy_copied _ bakup 4096 4096) by lia. rewrite decide_False by lia. f_equal. lia.
  - intros i Hi. rewrite !Hput by lia. rewrite (memcpy_copied _ 4096 bin size) by lia. rewrite decide_False by lia.
    rewrite memset_spec, decide_False by lia. rewrite (memcpy_copied _ bakup 4096 4096) by lia. rewrite decide_True by lia. f_equal. lia.
Qed.

(** ** The boot processor waits for a count that only two processors reach *)

Definition smp_inv (n : Z) (s : smp_state) : Prop :=
  match ap s with
  | Absent => n < 2 /\ ap_count s = 1
  | Starting => 2 <= n /\ ap_count s = 1 /\ bsp s = Polling
  | Halted => 2 <= n /\ ap_count s = 2 /\ (bsp s = Left -> n = 2)
  end.

Lemma smp_run_inv n s : 1 <= n -> rtc (smp_step n) (smp_started n) s -> smp_inv n s.
Proof.
  intros Hn Hr. assert (smp_inv n (smp_started n)) as H0.
  { unfold smp_inv, smp_started. cbn. destruct (2 <=? n) eqn:E; breflect; cbn; split_and!; done || lia. }
  revert H0. induction Hr as [|s s1 s2 Hst _ IH]; [done|]. intros Hi. apply IH. clear IH.
  destruct Hst as [a k Hk|a k Hk|b k]; unfold smp_inv, atomic_get in *; cbn [ap ap_count bsp] in *.
  - destruct a; [done|lia|]. split_and!; try tauto; lia.
  - done.
  - destruct Hi as (? & -> & ->). split_and!; [done..|discriminate].
Qed.

(** [smp_init] leaves its loop on a machine with one or two processors, on one with two only when the second is in its final loop;
    on a machine with more it never does, since only processor 1 is started. *)
Lemma smp_wait n s :
  1 <= n -> rtc (smp_step n) (smp_started n) s ->
  (n <= 2 -> exists s', rtc (smp_step n) s s' /\ bsp s' = Left) /\ (n = 2 -> bsp s = Left -> ap s = Halted) /\ (2 < n -> bsp s = Polling).
Proof.
  intros Hn Hr%smp_run_inv; [|done]. destruct s as [b a k]. unfold smp_inv in Hr. cbn [ap bsp ap_count] in *. split_and!.
  - intros H2. destruct b; [|by eexists; split; [apply rtc_refl|]].
    destruct a.
    + eexists. split; [apply rtc_once, poll_done; unfold atomic_get; lia|done].
    + destruct Hr as (? & -> & _). eexists. split; [eapply rtc_l; [apply ap_counts|]; apply rtc_once, poll_done; unfold atomic_get; change (atomic_inc 1) with 2; lia|done].
    + eexists. split; [apply rtc_once, poll_done; unfold atomic_get; lia|done].
  - intros -> ->. destruct a; [lia| |done]. by destruct Hr as (_ & _ & ?).
  - intros H2. destruct b; [done|]. destruct a; [lia| |]; [by destruct Hr as (_ & _ & ?)|]. destruct Hr as (_ & _ & Hr). specialize (Hr eq_refl). lia.
Qed.
