(* ===== verification/Libc.v ===== *)
(** * The C library of the user programs

    [libc/string.c], [libc/print.c], [libc/file.c] and [libc/sysfunc.c].  A user program runs on a flat memory of bytes
    and asks the kernel for everything else with the [syscall] instruction: the class [UserKernel] is what the
    instruction does, with the number of the call and its arguments in registers.

    Formats are string literals and are given as the list of their characters without the null; the variable arguments
    are a list of 64-bit words.  [None] is a fault, undefined behaviour, or fuel run out. *)

From S2P Require Import Prelude KLib Kprint.

(** ** string.c *)

Definition ctol (ch : Z) : Z := if (48 <=? ch) && (ch <=? 57) then ch - 48 else -1.

Section Strings.
Context (fuel : nat).

(** The macro [str_to_ltype] declares a variable of the name of the caller's result.  The loop adds to the inner one and
    returns it at a character that is no digit; at the end of the string it is assigned to itself, and the function
    returns its own variable, which nothing has set: [indet] is what it holds. *)
Fixpoint str_to_loop (wrap : Z -> Z) (n : nat) (m : memory) (s i c : Z) : option Z :=
  match n with
  | O => None
  | S n =>
    if ctol (m (s + i)) =? -1 then Some c
    else str_to_loop wrap n m s (i + 1) (wrap (c * 10 + ctol (m (s + i))))
  end.
Definition str_to_ltype (wrap : Z -> Z) (indet : Z) (m : memory) (s : Z) : option Z :=
  l ← strlen fuel m s;
  Some (match str_to_loop wrap (Z.to_nat l) m s 0 0 with Some c => c | None => indet end).

Definition strtol := str_to_ltype i32.
Definition strtoll := str_to_ltype i64.
Definition strtoul := str_to_ltype u32.
Definition strtoull := str_to_ltype u64.

(** The difference of two characters as a [size_t]. *)
Fixpoint strcmp_from (fuel : nat) (m : memory) (s1 s2 : Z) : option Z :=
  match fuel with
  | O => None
  | S fuel =>
    if ctrue (m s1) && (m s1 =? m s2) then strcmp_from fuel m (s1 + 1) (s2 + 1)
    else Some (u64 (m s1 - m s2))
  end.
Definition strcmp := strcmp_from fuel.

(** [n] is the counter before [--n]. *)
Fixpoint strncmp_from (n : nat) (m : memory) (s1 s2 : Z) : Z :=
  match n with
  | O => 0
  | S n =>
    if negb (n =? 0)%nat && ctrue (m s1) && (m s1 =? m s2) then strncmp_from n m (s1 + 1) (s2 + 1)
    else m s1 - m s2
  end.
Definition strncmp (m : memory) (s1 s2 n : Z) : Z := strncmp_from (Z.to_nat n) m s1 s2.

Fixpoint strcpy_from (fuel : nat) (m : memory) (dest src : Z) : option memory :=
  match fuel with
  | O => None
  | S fuel =>
    if m src =? 0 then Some (upd m dest 0) else strcpy_from fuel (upd m dest (m src)) (dest + 1) (src + 1)
  end.
Definition strcpy (m : memory) (dest src : Z) : option (memory * Z) :=
  m ← strcpy_from fuel m dest src; Some (m, dest).

Fixpoint strchr_from (fuel : nat) (m : memory) (str c : Z) : option Z :=
  match fuel with
  | O => None
  | S fuel =>
    if m str =? 0 then Some (if c =? 0 then str else 0)
    else if m str =? c then Some str else strchr_from fuel m (str + 1) c
  end.
Definition strchr := strchr_from fuel.

Definition memcpy (m : memory) (dst src size : Z) : memory :=
  if size =? 0 then m else
  let range := u64 (dst - src) in
  if range <=? 8 then byte_copy (Z.to_nat size) m dst src 0
  else if 32 <=? size then
    let temp_size := size / 8 in
    let remain_size := size mod 8 in
    let m := word_copy (Z.to_nat temp_size) m dst src 0 in
    if 0 <? remain_size then
      byte_copy (Z.to_nat remain_size) m (dst + temp_size * 8) (src + temp_size * 8) 0
    else m
  else byte_copy (Z.to_nat size) m dst src 0.

(** ** print.c: formatting

    The memory and the position, as [pos] of the source. *)

Definition putc (b : memory * Z) (s c : Z) : memory * Z := (upd b.1 (s + b.2) c, b.2 + 1).
Definition puts (b : memory * Z) (s : Z) (l : list Z) : memory * Z :=
  (store_bytes b.1 (s + b.2) l, b.2 + Z.of_nat (length l)).

Definition _fmt_u64 (b : memory * Z) (s v base : Z) (wordcase : bool) : option (memory * Z) :=
  if v =? 0 then Some (putc b s 48) else
  tmp ← digits_loop TMP_SIZE v base (if wordcase then hex_upper else hex_lower);
  Some (puts b s (rev tmp)).

Definition _fmt_i64 (b : memory * Z) (s v : Z) : option (memory * Z) :=
  if v =? 0 then Some (putc b s 48) else
  if v <? 0 then _fmt_u64 (putc b s 45) s (u64 (- v)) 10 false
  else _fmt_u64 b s (u64 v) 10 false.

Fixpoint fmt_str_from (fuel : nat) (b : memory * Z) (s v : Z) : option (memory * Z) :=
  match fuel with
  | O => None
  | S fuel => if b.1 v =? 0 then Some b else fmt_str_from fuel (putc b s (b.1 v)) s (v + 1)
  end.
Definition _fmt_str (b : memory * Z) (s v : Z) : option (memory * Z) :=
  if v =? 0 then Some (puts b s null_str) else fmt_str_from fuel b s v.

Definition va_arg (args : list Z) : option (Z * list Z) :=
  match args with [] => None | w :: args => Some (w, args) end.

(** One conversion. *)
Definition convert (b : memory * Z) (s lflag ch : Z) (args : list Z) : option (memory * Z * list Z) :=
  let word (f : Z -> option (memory * Z)) := '(w, args) ← va_arg args; b ← f w; Some (b, args) in
  let unsigned w := if lflag =? 0 then u32 w else u64 w in
  if ch =? 100 then word (fun w => _fmt_i64 b s (if lflag =? 0 then i32 w else i64 w))
  else if ch =? 117 then word (fun w => _fmt_u64 b s (unsigned w) 10 false)
  else if ch =? 120 then word (fun w => _fmt_u64 b s (unsigned w) 16 false)
  else if ch =? 88 then word (fun w => _fmt_u64 b s (unsigned w) 16 true)
  else if ch =? 112 then word (fun w => _fmt_u64 (putc (putc b s 48) s 120) s (u64 w) 16 false)
  else if ch =? 115 then word (fun w => _fmt_str b s w)
  else if ch =? 99 then word (fun w => Some (putc b s (u8 w)))
  else if ch =? 98 then word (fun w => _fmt_u64 b s (u64 w) 2 false)
  else Some (putc (putc b s chr_percent) s ch, args).

(** The loop; [rounds] is at least the number of characters left. *)
Fixpoint fmt_loop (rounds : nat) (b : memory * Z) (s end_ : Z) (fmt : list Z) (args : list Z) : option (memory * Z) :=
  match rounds with
  | O => None
  | S rounds =>
    match fmt with
    | [] => Some b
    | ch :: fmt =>
      if end_ <=? b.2 then Some b
      else if negb (ch =? chr_percent) then fmt_loop rounds (putc b s ch) s end_ fmt args
      else
        match fmt with
        | [] => Some b
        | c :: fmt' =>
          if c =? chr_percent then fmt_loop rounds (putc b s chr_percent) s end_ fmt' args
          else
            match parse_lflag fmt with
            | (_, _, None) => None
            | (lflag, ch, Some fmt) =>
              '(b, args) ← convert b s lflag ch args;
              fmt_loop rounds b s end_ fmt args
            end
        end
    end
  end.

Definition vsnprintf (m : memory) (s n : Z) (fmt : list Z) (args : list Z) : option (memory * Z) :=
  if (s =? 0) || (n =? 0) then Some (m, 0) else
  '(m, pos) ← fmt_loop (S (length fmt)) (m, 0) s (n - 1) fmt args;
  Some (upd m (s + pos) 0, pos).
Definition snprintf := vsnprintf.
End Strings.

(** ** The kernel as a program sees it *)

(** A computation ends with a value, or with the end of the program: it has exited, or has been replaced. *)
Inductive outcome (W A : Type) := Done (a : A) (w : W) | Gone (w : W).
Arguments Done {W A} a w.
Arguments Gone {W A} w.
Definition U (W A : Type) : Type := W -> option (outcome W A).

#[global] Instance U_ret W : MRet (U W) := fun A a w => Some (Done a w).
#[global] Instance U_bind W : MBind (U W) := fun A B f c w =>
  match c w with
  | Some (Done a w) => f a w
  | Some (Gone w) => Some (Gone w)
  | None => None
  end.

(** The memory of the program in the state of the system, and the instruction [syscall] with the number of the call
    and its arguments; the result is the register [rax]. *)
Class UserKernel (W : Type) := {
  user_mem : W -> memory;
  with_user_mem : memory -> W -> W;
  syscall : Z -> list Z -> U W Z;
}.

Definition lift {W A} (o : option A) : U W A := fun w => a ← o; Some (Done a w).

Section Libc.
Context {W : Type} `{UserKernel W} (fuel : nat).

Definition get_mem : U W memory := fun w => Some (Done (user_mem w) w).
Definition set_mem (m : memory) : U W unit := fun w => Some (Done tt (with_user_mem m w)).
Definition change_mem (f : memory -> memory) : U W unit := m ← get_mem; set_mem (f m).
Definition load8 (p : Z) : U W Z := m ← get_mem; mret (m p).

(** Fields of a structure; a null pointer faults. *)
Definition load_field (n p : Z) : U W Z := m ← get_mem; mret (little_endian_to_Z 8 (m <$> seqZ p n)).
Definition store_field (n p v : Z) : U W unit := change_mem (fun m => store_bytes m p (Z_to_little_endian n 8 v)).
Definition not_null (p : Z) : U W unit := if p =? 0 then lift None else mret tt.

(** ** sysfunc.c *)

Definition sys_debug_log : U W unit := _ ← syscall 0 []; mret tt.
(** A call that returns goes on to [hlt], which a program may not execute. *)
Definition sys_user_exit (code : Z) : U W unit := _ ← syscall 1 [code]; lift None.
Definition sys_open (path mode : Z) : U W Z := r ← syscall 2 [path; mode]; mret (i32 r).
Definition sys_close (handle : Z) : U W Z := r ← syscall 3 [handle]; mret (i32 r).
Definition sys_read (h len buff : Z) : U W Z := r ← syscall 4 [h; len; buff]; mret (i32 r).
Definition sys_write (h len buff : Z) : U W Z := r ← syscall 5 [h; len; buff]; mret (i32 r).
Definition sys_lseek (h offset wence : Z) : U W Z := r ← syscall 6 [h; offset; wence]; mret (i32 r).
Definition sys_panic (s errno : Z) : U W Z := r ← syscall 7 [s; errno]; mret (i32 r).
Definition sys_vmalloc (ptr sz : Z) : U W Z := r ← syscall 8 [ptr; i32 sz]; mret (u64 r).
Definition sys_vfree (ptr : Z) : U W unit := _ ← syscall 9 [ptr]; mret tt.
Definition sys_readdir (h data sz : Z) : U W Z := r ← syscall 10 [h; data; sz]; mret (i32 r).
Definition sys_fork : U W Z := r ← syscall 11 []; mret (u32 r).
Definition sys_sleep (millis : Z) : U W Z := r ← syscall 12 [millis]; mret (i32 r).
Definition sys_execve (path argc argv : Z) : U W Z := r ← syscall 13 [path; argc; argv]; mret (i32 r).
Definition sys_wait (id : Z) : U W Z := r ← syscall 14 [id]; mret (i32 r).
Definition sys_getcwd (buf len : Z) : U W unit := _ ← syscall 15 [buf; len]; mret tt.
Definition sys_chdir (path : Z) : U W Z := r ← syscall 16 [path]; mret (i32 r).
Definition sys_spawn (path argc argv : Z) : U W Z := r ← syscall 17 [path; argc; argv]; mret (u32 r).

(** ** file.c *)

Definition O_READ : Z := 0.
Definition O_WRITE : Z := 1.
Definition O_READWRITE : Z := 2.

(** A handle is its number as a pointer. *)
Definition open (path mode : Z) : U W Z := r ← sys_open path mode; if r <? 0 then mret 0 else mret r.
Definition read (fh len buff : Z) : U W Z := sys_read (i32 fh) len buff.
Definition write (fh len buff : Z) : U W Z := sys_write (i32 fh) len buff.
Definition close (fh : Z) : U W unit := _ ← sys_close (i32 fh); mret tt.

(** [DIR]. *)
Definition SIZEOF_DIR : Z := 24.
Definition dir_fh : Z := 0.
Definition dir_allocation : Z := 8.
Definition dir_cnt : Z := 12.
Definition dir_data : Z := 16.

Definition opendir (path : Z) : U W Z :=
  dirp ← sys_vmalloc 0 SIZEOF_DIR;
  fh ← open path O_READWRITE;
  _ ← not_null dirp;
  _ ← store_field 8 (dirp + dir_fh) fh;
  if fh =? 0 then _ ← sys_vfree dirp; mret 0 else
  _ ← store_field 4 (dirp + dir_allocation) 4096;
  data ← sys_vmalloc 0 4096;
  _ ← store_field 8 (dirp + dir_data) data;
  _ ← not_null data;
  _ ← change_mem (fun m => memset m data 0 4096);
  mret dirp.

Definition readdir (dirp : Z) : U W Z :=
  _ ← not_null dirp;
  fh ← load_field 8 (dirp + dir_fh);
  data ← load_field 8 (dirp + dir_data);
  allocation ← load_field 4 (dirp + dir_allocation);
  r ← sys_readdir (i32 fh) data (i32 allocation);
  if r <? 0 then mret 0 else
  _ ← store_field 4 (dirp + dir_cnt) r;
  load_field 8 (dirp + dir_data).

Definition closedir (dirp : Z) : U W unit :=
  _ ← not_null dirp;
  fh ← load_field 8 (dirp + dir_fh);
  _ ← close fh;
  data ← load_field 8 (dirp + dir_data);
  _ ← sys_vfree data;
  sys_vfree dirp.

(** ** print.c: input and output *)

Definition PRINT_BUF_SIZE : Z := 4096.
Definition STDIN : Z := 0.
Definition STDOUT : Z := 1.
Definition STDERR : Z := 2.

Definition vdprintf (fd : Z) (fmt args : list Z) : U W Z :=
  buf ← sys_vmalloc 0 PRINT_BUF_SIZE;
  if buf =? 0 then mret (-1) else
  _ ← change_mem (fun m => memset m buf 0 PRINT_BUF_SIZE);
  m ← get_mem;
  '(m, len) ← lift (vsnprintf fuel m buf PRINT_BUF_SIZE fmt args);
  _ ← set_mem m;
  _ ← sys_write fd len buf;
  _ ← sys_vfree buf;
  mret len.
Definition dprintf := vdprintf.
Definition vprintf (fmt args : list Z) : U W Z := vdprintf STDOUT fmt args.
Definition printf (fmt args : list Z) : U W Z := vdprintf STDOUT fmt args.

(** A line into the local array. *)
Definition scan_line (rbuf len : Z) : U W unit :=
  _ ← change_mem (fun m => memset m rbuf 0 4096);
  _ ← sys_read STDIN len rbuf;
  mret tt.

(** A number of [size] bytes into the next argument. *)
Definition scan_number (to_number : memory -> Z -> option Z) (rbuf size : Z) (args : list Z) : U W (list Z) :=
  _ ← scan_line rbuf 4096;
  m ← get_mem;
  v ← lift (to_number m rbuf);
  '(p, args) ← lift (va_arg args);
  _ ← store_field size p v;
  mret args.

Definition scan_convert (indet rbuf lflag ch : Z) (args : list Z) : U W (list Z) :=
  if ch =? 100 then
    if ctrue lflag then scan_number (strtoll fuel indet) rbuf 8 args else scan_number (strtol fuel indet) rbuf 4 args
  else if ch =? 117 then
    if ctrue lflag then scan_number (strtoull fuel indet) rbuf 8 args else scan_number (strtoul fuel indet) rbuf 4 args
  else if ch =? 115 then
    _ ← scan_line rbuf 4095;
    _ ← change_mem (fun m => upd m (rbuf + 4095) 0);
    m ← get_mem;
    l ← lift (strlen fuel m rbuf);
    '(p, args) ← lift (va_arg args);
    _ ← set_mem (memcpy m p rbuf (Z.min l 255));
    mret args
  else mret args.

(** [rbuf] is the address of the local array, [indet] what the uninitialised local of [strtol] holds. *)
Fixpoint scan_loop (rounds : nat) (indet rbuf : Z) (fmt args : list Z) : U W unit :=
  match rounds with
  | O => lift None
  | S rounds =>
    match fmt with
    | [] => mret tt
    | ch :: fmt =>
      if negb (ch =? chr_percent) then scan_loop rounds indet rbuf fmt args
      else
        match fmt with
        | [] => mret tt
        | _ =>
          match parse_lflag fmt with
          | (_, _, None) => lift None
          | (lflag, ch, Some fmt) =>
            args ← scan_convert indet rbuf lflag ch args;
            scan_loop rounds indet rbuf fmt args
          end
        end
    end
  end.
Definition vscanf (indet rbuf : Z) (fmt args : list Z) : U W Z :=
  _ ← scan_loop (S (length fmt)) indet rbuf fmt args; mret 0.
Definition scanf := vscanf.
End Libc.
