(* ===== verification/LibcProofs.v ===== *)
(** * The C library: strings and formatting

    What the routines of [libc/string.c] compute on terminated strings, and what [vsnprintf] of [libc/print.c] leaves in
    memory for any format whose conversions match their arguments. *)

From S2P Require Import Prelude KLib Kprint Libc.

(** ** Stores *)

Lemma store_bytes_app l1 : forall m p l2,
  store_bytes m p (l1 ++ l2) = store_bytes (store_bytes m p l1) (p + Z.of_nat (length l1)) l2.
Proof.
  induction l1 as [|b l1 IH]; intros m p l2; cbn [app store_bytes length].
  - by rewrite Z.add_0_r.
  - rewrite IH. f_equal. lia.
Qed.

Lemma store_bytes_outside l m p q :
  ~ (p <= q < p + Z.of_nat (length l)) -> store_bytes m p l q = m q.
Proof. intros Hq. by rewrite store_bytes_spec, decide_False. Qed.

Lemma cstr_ext m m' p s :
  (forall q, p <= q <= p + Z.of_nat (length s) -> m' q = m q) -> cstr m p s -> cstr m' p s.
Proof.
  revert p. induction s as [|c s IH]; intros p He; cbn [cstr length] in *.
  - rewrite He by lia. done.
  - rewrite He by lia. intros (H1 & H2 & H3). split_and!; [done|lia..|]. apply IH; [|done]. intros q Hq. apply He. lia.
Qed.

(** The terminated string that a store leaves. *)
Lemma cstr_store s : forall m p, Forall (fun c => 0 < c < 256) s -> cstr (store_bytes m p (s ++ [0])) p s.
Proof.
  induction s as [|c s IH]; intros m p Hs; cbn [app store_bytes cstr].
  - unfold upd. by rewrite Z.eqb_refl.
  - apply Forall_cons in Hs as [Hc Hs]. split_and!; [|lia..|by apply IH].
    rewrite store_bytes_outside by lia. unfold upd. by rewrite Z.eqb_refl.
Qed.

Lemma cstr_lookup m p s i c : cstr m p s -> s !! i = Some c -> m (p + Z.of_nat i) = c /\ 0 < c < 256.
Proof.
  revert p i. induction s as [|d s IH]; intros p i Hs Hi; [done|]. destruct Hs as (H1 & H2 & H3).
  destruct i as [|i]; simplify_eq/=; [by rewrite Z.add_0_r|].
  replace (p + Z.of_nat (S i)) with (p + 1 + Z.of_nat i) by lia. by apply IH.
Qed.

Lemma cstr_end m p s : cstr m p s -> m (p + Z.of_nat (length s)) = 0.
Proof.
  revert p. induction s as [|d s IH]; intros p Hs; cbn [length]; [by rewrite Z.add_0_r|].
  destruct Hs as (_ & _ & Hs). replace (p + Z.of_nat (S (length s))) with (p + 1 + Z.of_nat (length s)) by lia.
  by apply IH.
Qed.

Lemma cstr_drop m p s n : cstr m p s -> (n <= length s)%nat -> cstr m (p + Z.of_nat n) (drop n s).
Proof.
  revert p s. induction n as [|n IH]; intros p s Hs Hn; [by rewrite Z.add_0_r, drop_0|].
  destruct s as [|c s]; [simpl in Hn; lia|]. destruct Hs as (_ & _ & Hs). simpl in Hn |- *.
  replace (p + Z.of_nat (S n)) with (p + 1 + Z.of_nat n) by lia. apply IH; [done|lia].
Qed.

Lemma cstr_chars m p s : cstr m p s -> Forall (fun c => 0 < c < 256) s.
Proof.
  revert p. induction s as [|c s IH]; intros p Hs; [done|]. destruct Hs as (_ & Hc & Hs). constructor; [done|by eapply IH].
Qed.

(** ** string.c *)

Lemma user_strlen_from_spec s : forall fuel m p n,
  cstr m (p + n) s -> (length s < fuel)%nat -> strlen_from fuel m p n = Some (n + Z.of_nat (length s)).
Proof.
  induction s as [|c s IH]; intros [|fuel] m p n Hs Hf; try (simpl in Hf; lia); cbn [strlen_from length].
  - simpl in Hs. rewrite Hs. simpl. f_equal. lia.
  - destruct Hs as (-> & Hc & Hs). rewrite (proj2 (Z.eqb_neq c 0)) by lia.
    rewrite IH; [f_equal; lia|by rewrite Z.add_assoc|simpl in Hf; lia].
Qed.
Lemma user_strlen_cstr fuel m p s :
  cstr m p s -> (length s < fuel)%nat -> strlen fuel m p = Some (Z.of_nat (length s)).
Proof. intros Hs Hf. apply (user_strlen_from_spec s fuel m p 0); [by rewrite Z.add_0_r|done]. Qed.

(** [memcpy] has the same effect as the kernel's. *)
Lemma memcpy_copied_user m dst src size :
  0 <= size -> dst <= src \/ src + size <= dst -> copied m m (Libc.memcpy m dst src size) dst src size.
Proof.
  intros Hs Hd. unfold Libc.memcpy. destruct (Z.eqb_spec size 0) as [->|]; [apply copied_refl|].
  exact (memcpy_copied m dst src size Hs Hd).
Qed.

Lemma strcmp_zero s : forall fuel m p q t,
  cstr m p s -> cstr m q t -> (length s < fuel)%nat ->
  exists r, Libc.strcmp fuel m p q = Some r /\ (r = 0 <-> s = t).
Proof.
  unfold Libc.strcmp.
  induction s as [|c s IH]; intros [|fuel] m p q t Hs Ht Hf; try (simpl in Hf; lia); cbn [Libc.strcmp_from cstr] in *.
  - unfold ctrue. rewrite Hs. simpl. eexists. split; [done|].
    destruct t as [|d t]; simpl in Ht; [rewrite Ht; done|].
    destruct Ht as (-> & ? & _). split; [|done]. intros Hz. exfalso. revert Hz. wrap_lia.
  - destruct Hs as (-> & Hc & Hs). unfold ctrue. rewrite (proj2 (Z.eqb_neq c 0)) by lia. cbn [negb andb].
    destruct t as [|d t]; simpl in Ht.
    + rewrite Ht, (proj2 (Z.eqb_neq c 0)) by lia. eexists. split; [done|]. split; [|done]. intros Hz. exfalso.
      revert Hz. wrap_lia.
    + destruct Ht as (-> & Hd & Ht). destruct (Z.eqb_spec c d) as [->|Hne].
      * destruct (IH fuel m (p + 1) (q + 1) t Hs Ht ltac:(simpl in Hf; lia)) as (r & Hr & He).
        exists r. split; [done|]. rewrite He. naive_solver.
      * eexists. split; [done|]. split; [|by intros [= ? _]]. intros Hz. exfalso. revert Hz. wrap_lia.
Qed.

(** The first occurrence of a character. *)
Lemma strchr_spec s : forall fuel m p c,
  cstr m p s -> (length s < fuel)%nat -> c <> 0 ->
  strchr fuel m p c =
  Some (match list_find (c =.) s with Some (i, _) => p + Z.of_nat i | None => 0 end).
Proof.
  unfold strchr. induction s as [|d s IH]; intros [|fuel] m p c Hs Hf Hc; try (simpl in Hf; lia); cbn [strchr_from cstr] in *.
  - rewrite Hs. simpl. by rewrite (proj2 (Z.eqb_neq c 0)).
  - destruct Hs as (-> & Hd & Hs). rewrite (proj2 (Z.eqb_neq d 0)) by lia. cbn [list_find].
    destruct (Z.eqb_spec d c) as [->|Hne]; [rewrite decide_True by done; by rewrite Z.add_0_r|].
    rewrite decide_False by done. rewrite (IH fuel m (p + 1) c Hs) by (simpl in Hf; lia || done). f_equal.
    destruct (list_find _ s) as [[i x]|]; simpl; [lia|done].
Qed.

(** [strncmp] is zero when the second string is a prefix of the given length of the first. *)
Lemma strncmp_prefix t : forall m p q s,
  cstr m p s -> cstr m q t ->
  (strncmp m p q (Z.of_nat (length t)) = 0 <-> exists r, s = t ++ r).
Proof.
  unfold strncmp. induction t as [|d t IH]; intros m p q s Hs Ht.
  { split; [by exists s|done]. }
  rewrite Nat2Z.id. cbn [length strncmp_from]. destruct Ht as (-> & Hd & Ht).
  destruct s as [|c s].
  - simpl in Hs. unfold ctrue. rewrite Hs. rewrite Z.eqb_refl. cbn [negb]. rewrite andb_false_r. cbn [andb].
    split; [lia|by intros [r ?]].
  - destruct Hs as (-> & Hc & Hs). unfold ctrue. rewrite (proj2 (Z.eqb_neq c 0)) by lia. cbn [negb andb].
    destruct (Z.eqb_spec c d) as [->|Hne]; rewrite ?andb_true_r, ?andb_false_r.
    + specialize (IH m (p + 1) (q + 1) s Hs Ht). rewrite Nat2Z.id in IH. destruct t as [|e t].
      * simpl. split; [by exists s|lia].
      * change (negb (length (e :: t) =? 0)%nat) with true. cbv iota. rewrite IH. split.
        -- intros [r ->]. by exists r.
        -- intros [r [= ->]]. by exists r.
    + split; [lia|]. intros [r [= ? _]]. done.
Qed.

(** ** Numbers *)

Definition is_digit (c : Z) : Prop := 48 <= c <= 57.
Definition add_digit (wrap : Z -> Z) (n c : Z) : Z := wrap (n * 10 + ctol c).

Lemma ctol_digit c : is_digit c -> ctol c = digit_value c /\ 0 <= ctol c <= 9.
Proof.
  unfold is_digit, ctol, digit_value. intros Hc. rewrite !(proj2 (Z.leb_le _ _)) by lia. simpl. lia.
Qed.

Lemma str_to_digits wrap m s ds : forall k i c,
  Forall is_digit ds -> (forall j d, ds !! j = Some d -> m (s + i + Z.of_nat j) = d) ->
  str_to_loop wrap (length ds + k) m s i c =
  str_to_loop wrap k m s (i + Z.of_nat (length ds)) (fold_left (add_digit wrap) ds c).
Proof.
  induction ds as [|d ds IH]; intros k i c Hd Hm; cbn [length Nat.add str_to_loop fold_left]; [by rewrite Z.add_0_r|].
  apply Forall_cons in Hd as [Hd Hds]. pose proof (Hm 0%nat d eq_refl) as H0. rewrite Z.add_0_r in H0. rewrite H0.
  destruct (ctol_digit d Hd) as [_ Hv]. rewrite (proj2 (Z.eqb_neq _ _)) by lia. rewrite IH; [|done|].
  - f_equal. lia.
  - intros j d' Hj. rewrite <- (Hm (S j) d' Hj). f_equal. lia.
Qed.

Lemma fold_digits wrap b ds : forall c,
  (forall v, 0 <= v < b -> wrap v = v) -> Forall is_digit ds -> 0 <= c ->
  c <= fold_left (fun n d => n * 10 + digit_value d) ds c /\
  (fold_left (fun n d => n * 10 + digit_value d) ds c < b ->
   fold_left (add_digit wrap) ds c = fold_left (fun n d => n * 10 + digit_value d) ds c).
Proof.
  induction ds as [|d ds IH]; intros c Hw Hd Hc; cbn [fold_left]; [done|].
  apply Forall_cons in Hd as [Hd Hds]. destruct (ctol_digit d Hd) as [He Hv].
  destruct (IH (c * 10 + digit_value d) Hw Hds) as [Hle Heq]; [lia|]. split; [lia|].
  intros Hb. unfold add_digit at 2. rewrite He, Hw by lia. by apply Heq.
Qed.

(** The digits up to another character are the number; a string of digits only gives what the variable held. *)
Lemma str_to_ltype_spec wrap b fuel indet m p ds rest :
  (forall v, 0 <= v < b -> wrap v = v) -> Forall is_digit ds -> read_number 10 ds < b ->
  cstr m p (ds ++ rest) -> (length (ds ++ rest) < fuel)%nat ->
  match rest with [] => True | c :: _ => ~ is_digit c end ->
  str_to_ltype fuel wrap indet m p = Some (match rest with [] => indet | _ => read_number 10 ds end).
Proof.
  intros Hw Hd Hb Hs Hf Hr. unfold str_to_ltype. rewrite (user_strlen_cstr fuel m p (ds ++ rest)) by done.
  cbn [mbind option_bind]. rewrite Nat2Z.id, length_app. rewrite str_to_digits; [|done|].
  2:{ intros j d Hj. rewrite Z.add_0_r. eapply cstr_lookup; [done|]. by apply lookup_app_l_Some. }
  destruct (fold_digits wrap b ds 0 Hw Hd) as [_ Heq]; [lia|]. rewrite Heq by done.
  destruct rest as [|c rest]; [done|]. cbn [length str_to_loop].
  assert (m (p + (0 + Z.of_nat (length ds))) = c) as ->.
  { rewrite Z.add_0_l. eapply cstr_lookup; [done|]. rewrite lookup_app_r, Nat.sub_diag by lia. done. }
  assert (ctol c = -1) as ->; [|done].
  unfold ctol, is_digit in *. destruct (48 <=? c) eqn:E1; [|done]. destruct (c <=? 57) eqn:E2; [|done]. breflect. lia.
Qed.

Lemma num_text_digits v : 0 <= v < 2 ^ 64 -> Forall is_digit (num_text v 10 hex_lower).
Proof.
  intros Hv. unfold num_text. destruct (v =? 0); [repeat constructor; unfold is_digit; lia|].
  destruct (to_digits_value 10 64 v) as [Hf _]; [lia|split; [lia|]|].
  { apply Z.lt_le_trans with (2 ^ 64); [lia|]. apply Z.pow_le_mono_l. lia. }
  apply Forall_fmap, Forall_rev. eapply Forall_impl; [exact Hf|]. intros d Hd. unfold compose. cbv beta in Hd.
  assert (exists n, (n < 10)%nat /\ d = Z.of_nat n) as (n & Hn & ->) by (exists (Z.to_nat d); lia).
  rewrite Nat2Z.id. unfold is_digit. do 10 (destruct n as [|n]; [simpl; lia|]). lia.
Qed.

(** Reading back a printed number.  The decimal text of any 64-bit number is read by [strtoull] as that number when a
    character that is no digit follows it.  When the string ends with the number, as a typed line does, the result is
    whatever the uninitialised variable of the function held, because the macro assigns its own variable to itself. *)
Theorem strtoull_reads fuel indet m p v rest :
  0 <= v < 2 ^ 64 ->
  cstr m p (num_text v 10 hex_lower ++ rest) -> (length (num_text v 10 hex_lower ++ rest) < fuel)%nat ->
  match rest with [] => True | c :: _ => ~ is_digit c end ->
  strtoull fuel indet m p = Some (match rest with [] => indet | _ => v end).
Proof.
  intros Hv Hs Hf Hr. unfold strtoull.
  rewrite (str_to_ltype_spec u64 (2 ^ 64) fuel indet m p (num_text v 10 hex_lower) rest); [|..|done|done|done].
  - destruct rest; [done|]. f_equal. apply num_text_roundtrip; [by left|lia|lia].
  - intros x Hx. apply u64_small. lia.
  - by apply num_text_digits.
  - rewrite num_text_roundtrip by (by left) || lia. lia.
Qed.

(** ["4711 "] reads as 4711, ["4711"] as what was there. *)
Lemma strtoull_reads_witness :
  strtoull 9 77 (store_bytes (fun _ => 0) 100 [52; 55; 49; 49; 32; 0]) 100 = Some 4711 /\
  strtoull 9 77 (store_bytes (fun _ => 0) 100 [52; 55; 49; 49; 0]) 100 = Some 77.
Proof.
  split.
  - apply (strtoull_reads 9 77 _ 100 4711 [32]); [lia|..|unfold is_digit; lia]; vm_compute; repeat split; lia.
  - apply (strtoull_reads 9 77 _ 100 4711 []); [lia|..|done]; vm_compute; repeat split; lia.
Defined.

(** ** Formatting

    The items of a format are those of [Kprint]; the library has no [%q], [%ud] and [%uq]. *)

Definition user_item (it : item) : Prop :=
  match it with
  | Lit c => 0 < c < 256 /\ c <> chr_percent
  | Dec64 SpQ _ | Udec64 SpQ _ | Udec32 true _ => False
  | _ => True
  end.

(** The words passed for an item; a string is readable at its address and, with its null, apart from the bytes written,
    which are those from [s] to [t]. *)
Definition item_words (m : memory) (s t : Z) (it : item) (ws : list Z) : Prop :=
  match it with
  | Lit _ | Percent => ws = []
  | Dec32 v => exists w, ws = [w] /\ i32 w = v
  | Dec64 _ v => exists w, ws = [w] /\ i64 w = v /\ - 2 ^ 63 < v
  | Udec32 _ v | Hex32 _ v => exists w, ws = [w] /\ u32 w = v
  | Udec64 _ v | Hex64 _ v | Ptr v => exists w, ws = [w] /\ u64 w = v
  | Bin v => exists w, ws = [w] /\ u64 w = v /\ v < 2 ^ 32
  | Chr c => exists w, ws = [w] /\ u8 w = c
  | Str None => ws = [0]
  | Str (Some str) =>
    exists p, ws = [p] /\ p <> 0 /\ cstr m p str /\ (p + Z.of_nat (length str) < s \/ t <= p)
  end.

Lemma puts_nil (b : memory * Z) s : puts b s [] = b.
Proof. destruct b as [m pos]. unfold puts. simpl. f_equal. lia. Qed.
Lemma puts_app (b : memory * Z) s l1 l2 : puts b s (l1 ++ l2) = puts (puts b s l1) s l2.
Proof.
  unfold puts. cbn [fst snd]. rewrite store_bytes_app, length_app. f_equal; [f_equal; lia|lia].
Qed.
Lemma putc_puts (b : memory * Z) s c : Libc.putc b s c = puts b s [c].
Proof. done. Qed.

Lemma user_u64_text (b : memory * Z) s v base (u : bool) :
  0 <= v < 2 ^ 64 -> base = 10 \/ base = 16 \/ base = 2 /\ v < 2 ^ 32 ->
  Libc._fmt_u64 b s v base u = Some (puts b s (num_text v base (if u then hex_upper else hex_lower))).
Proof.
  intros Hv Hb. unfold Libc._fmt_u64, num_text. destruct (Z.eqb_spec v 0) as [->|Hne]; [done|].
  rewrite (digits_loop_spec base _ TMP_SIZE 64 v).
  - cbn [mbind option_bind]. by rewrite fmap_rev.
  - destruct u; [by right|by left].
  - lia.
  - unfold TMP_SIZE. destruct Hb as [-> | [-> | [-> Hs]]]; lia.
  - unfold TMP_SIZE. lia.
Qed.

Lemma user_i64_text (b : memory * Z) s v :
  - 2 ^ 63 < v < 2 ^ 63 -> Libc._fmt_i64 b s v = Some (puts b s (dec_text v)).
Proof.
  intros Hv. unfold Libc._fmt_i64, dec_text. destruct (Z.eqb_spec v 0) as [->|Hne]; [done|].
  destruct (Z.ltb_spec v 0).
  - rewrite u64_small, user_u64_text by lia. by rewrite putc_puts, <- puts_app.
  - rewrite u64_small, user_u64_text by lia. done.
Qed.

Lemma user_str_text str : forall fuel (b : memory * Z) s p,
  cstr b.1 p str -> (length str < fuel)%nat ->
  p + Z.of_nat (length str) < s + b.2 \/ s + b.2 + Z.of_nat (length str) <= p ->
  fmt_str_from fuel b s p = Some (puts b s str).
Proof.
  induction str as [|c str IH]; intros [|fuel] b s p Hs Hf Hd; try (simpl in Hf; lia); cbn [fmt_str_from cstr length] in *.
  - rewrite Hs. by rewrite puts_nil.
  - destruct Hs as (Hp & Hc & Hs). rewrite Hp, (proj2 (Z.eqb_neq c 0)) by lia.
    rewrite IH.
    + f_equal. rewrite putc_puts. by rewrite <- puts_app.
    + cbn [Libc.putc fst]. eapply cstr_ext; [|done]. intros q Hq. unfold upd. rewrite (proj2 (Z.eqb_neq _ _)); [done|lia].
    + lia.
    + cbn [Libc.putc snd]. lia.
Qed.

Lemma user_fmt_conv fuel rounds b s e fmt args lflag ch rest b1 args1 :
  b.2 < e ->
  match fmt with c :: _ => c <> 37 | [] => False end ->
  parse_lflag fmt = (lflag, ch, Some rest) ->
  Libc.convert fuel b s lflag ch args = Some (b1, args1) ->
  Libc.fmt_loop fuel (S rounds) b s e (37 :: fmt) args = Libc.fmt_loop fuel rounds b1 s e rest args1.
Proof.
  intros Hb Hc Hp Hv. cbn [Libc.fmt_loop]. rewrite (proj2 (Z.leb_gt _ _)) by done.
  change (37 =? chr_percent) with true. cbn [negb].
  destruct fmt as [|c fmt]; [done|]. rewrite (proj2 (Z.eqb_neq c chr_percent)) by done.
  rewrite Hp. cbv iota beta. by rewrite Hv.
Qed.

Ltac user_round :=
  eapply user_fmt_conv; [eassumption|simpl; lia|reflexivity|]; unfold Libc.convert, va_arg; cbn.

Lemma i32_range w : - 2 ^ 31 <= i32 w < 2 ^ 31. Proof. wrap_lia. Qed.
Lemma i64_range w : - 2 ^ 63 <= i64 w < 2 ^ 63. Proof. wrap_lia. Qed.

Lemma user_fmt_item fuel rounds b s e it rest ws args :
  user_item it -> item_words b.1 (s + b.2) (s + b.2 + Z.of_nat (length (item_text it))) it ws -> b.2 < e ->
  (forall str, it = Str (Some str) -> (length str < fuel)%nat) ->
  Libc.fmt_loop fuel (S rounds) b s e (item_fmt it ++ rest) (ws ++ args) =
  Libc.fmt_loop fuel rounds (puts b s (item_text it)) s e rest args.
Proof.
  intros Hok Hw Hb Hf. destruct it as [c| |v|sp v|d v|sp v|u v|u v|v|str|c|v]; simpl in Hok, Hw.
  - subst ws. destruct Hok as (_ & H2). cbn [item_fmt app Libc.fmt_loop item_text].
    rewrite (proj2 (Z.leb_gt _ _)) by done. by rewrite (proj2 (Z.eqb_neq _ _) H2).
  - subst ws. cbn [item_fmt app Libc.fmt_loop item_text]. rewrite (proj2 (Z.leb_gt _ _)) by done. done.
  - destruct Hw as (w & -> & <-). user_round. pose proof (i32_range w). by rewrite user_i64_text by lia.
  - destruct Hw as (w & -> & <- & Hlow). pose proof (i64_range w).
    destruct sp; [..|done]; user_round; by rewrite user_i64_text by lia.
  - destruct Hw as (w & -> & <-). pose proof (u32_range w). destruct d; [done|]. user_round.
    by rewrite (user_u64_text _ _ _ 10 false) by lia.
  - destruct Hw as (w & -> & <-). pose proof (u64_range w).
    destruct sp; [..|done]; user_round; by rewrite (user_u64_text _ _ _ 10 false) by lia.
  - destruct Hw as (w & -> & <-). pose proof (u32_range w). destruct u; user_round;
      [by rewrite (user_u64_text _ _ _ 16 true) by lia|by rewrite (user_u64_text _ _ _ 16 false) by lia].
  - destruct Hw as (w & -> & <-). pose proof (u64_range w). destruct u; user_round;
      [by rewrite (user_u64_text _ _ _ 16 true) by lia|by rewrite (user_u64_text _ _ _ 16 false) by lia].
  - destruct Hw as (w & -> & <-). pose proof (u64_range w). user_round.
    rewrite (user_u64_text _ _ _ 16 false) by lia. cbn [mbind option_bind]. by rewrite !putc_puts, <- !puts_app.
  - destruct str as [str|]; [destruct Hw as (p & -> & Hp & Hs & Hd)|subst ws]; user_round; unfold Libc._fmt_str.
    + rewrite (proj2 (Z.eqb_neq _ _) Hp). simpl in Hd. rewrite (user_str_text str); [done..|by apply Hf|lia].
    + done.
  - destruct Hw as (w & -> & <-). user_round. done.
  - destruct Hw as (w & -> & <- & Hs). pose proof (u64_range w). user_round.
    by rewrite (user_u64_text _ _ _ 2 false) by lia.
Qed.

(** The items that are written: the room is looked at in front of each only. *)
Fixpoint fitted (room : Z) (its : list item) : list item :=
  match its with
  | [] => []
  | it :: its => if room <=? 0 then [] else it :: fitted (room - Z.of_nat (length (item_text it))) its
  end.

(** The words of all items. *)
Fixpoint items_words (m : memory) (s t : Z) (its : list item) (ws : list Z) : Prop :=
  match its with
  | [] => ws = []
  | it :: its => exists w1 w2, ws = w1 ++ w2 /\ item_words m s t it w1 /\ items_words m s t its w2
  end.

(** Every string is shorter than the fuel. *)
Definition strings_short (fuel : nat) (its : list item) : Prop :=
  forall str, Str (Some str) ∈ its -> (length str < fuel)%nat.

Lemma item_words_later m m' s t s' t' it ws :
  (forall q, ~ (s <= q < t) -> m' q = m q) -> s <= s' -> t' <= t ->
  item_words m s t it ws -> item_words m' s' t' it ws.
Proof.
  intros He Hs Ht. destruct it as [| | | | | | | | |[str|]| |]; simpl; try done.
  intros (p & -> & Hp & Hc & Hd). exists p. split_and!; [done..| |lia].
  eapply cstr_ext; [|done]. intros q Hq. apply He. lia.
Qed.

Lemma items_words_later m m' s t s' t' its : forall ws,
  (forall q, ~ (s <= q < t) -> m' q = m q) -> s <= s' -> t' <= t ->
  items_words m s t its ws -> items_words m' s' t' its ws.
Proof.
  induction its as [|it its IH]; intros ws He Hs Ht; [done|].
  intros (v1 & v2 & -> & Hv1 & Hv2). exists v1, v2. split_and!; [done|by eapply item_words_later|by apply IH].
Qed.

Lemma user_fmt_loop fuel s its : forall rounds b e t ws,
  Forall user_item its -> strings_short fuel its -> (length its < rounds)%nat ->
  s + b.2 + Z.of_nat (length (items_text (fitted (e - b.2) its))) <= t ->
  items_words b.1 (s + b.2) t its ws ->
  Libc.fmt_loop fuel rounds b s e (items_fmt its) ws = Some (puts b s (items_text (fitted (e - b.2) its))).
Proof.
  induction its as [|it its IH]; intros [|rounds] b e t ws Hok Hf Hr Ht Hw; try (simpl in Hr; lia).
  { simpl. by rewrite puts_nil. }
  destruct Hw as (w1 & w2 & -> & H1 & H2). apply Forall_cons in Hok as [Hit Hits].
  assert (exists c l, items_fmt (it :: its) = c :: l) as (c & l & Hfmt).
  { destruct it as [c| |v|[] v|[] v|[] v|u v|u v|v|str|c|v]; eexists _, _; reflexivity. }
  cbn [fitted] in Ht |- *. destruct (Z.leb_spec (e - b.2) 0) as [Hfull|Hroom].
  { rewrite Hfmt. cbn [Libc.fmt_loop]. rewrite (proj2 (Z.leb_le _ _)) by lia. by rewrite puts_nil. }
  change (items_text (it :: ?l)) with (item_text it ++ items_text l) in Ht |- *.
  change (items_fmt (it :: its)) with (item_fmt it ++ items_fmt its).
  rewrite length_app in Ht. rewrite user_fmt_item; [|done| |lia|].
  - pose proof (IH rounds (puts b s (item_text it)) e t w2) as IH'. cbn [puts fst snd] in IH'.
    rewrite Z.sub_add_distr in IH'. rewrite IH'; [..|lia|].
    + by rewrite puts_app.
    + done.
    + intros str Hin. apply Hf. by right.
    + simpl in Hr. lia.
    + eapply items_words_later; [|..|exact H2]; [|lia..]. intros q Hq. apply store_bytes_outside. lia.
  - eapply item_words_later; [done|..|exact H1]; lia.
  - intros str ->. apply Hf. by left.
Qed.

Lemma fitted_all its : forall room,
  Z.of_nat (length (items_text its)) <= room -> items_text (fitted room its) = items_text its.
Proof.
  induction its as [|it its IH]; intros room Hr; [done|].
  change (items_text (it :: ?l)) with (item_text it ++ items_text l) in *. rewrite length_app in Hr. cbn [fitted].
  destruct (Z.leb_spec room 0).
  - symmetry. apply nil_length_inv. change (items_text (it :: its)) with (item_text it ++ items_text its).
    rewrite length_app. lia.
  - change (items_text (it :: ?l)) with (item_text it ++ items_text l). rewrite IH by lia. done.
Qed.

(** Every item but the last one written ends inside the room. *)
Lemma fitted_bound its it rest : forall room,
  fitted room its = rest ++ [it] -> Z.of_nat (length (items_text rest)) < room.
Proof.
  revert rest. induction its as [|it' its IH]; intros rest room Hf; cbn [fitted] in Hf; [by destruct rest|].
  destruct (Z.leb_spec room 0); [by destruct rest|]. destruct rest as [|r rest]; [simpl; lia|].
  injection Hf as -> Hf. apply IH in Hf.
  change (items_text (r :: rest)) with (item_text r ++ items_text rest). rewrite length_app. lia.
Qed.

Lemma items_fmt_length its : (length its <= length (items_fmt its))%nat.
Proof.
  induction its as [|it its IH]; [done|]. change (items_fmt (it :: its)) with (item_fmt it ++ items_fmt its).
  rewrite length_app. simpl. assert (1 <= length (item_fmt it))%nat; [|lia].
  destruct it as [c| |v|[] v|[] v|[] v|u v|u v|v|s|c|v]; simpl; lia.
Qed.

Lemma vsnprintf_text fuel m s n its ws :
  let text := items_text (fitted (n - 1) its) in
  s <> 0 -> 0 < n -> Forall user_item its -> strings_short fuel its ->
  items_words m s (s + Z.of_nat (length text)) its ws ->
  vsnprintf fuel m s n (items_fmt its) ws = Some (store_bytes m s (text ++ [0]), Z.of_nat (length text)).
Proof.
  intros text Hs Hn Hok Hf Hw. unfold vsnprintf.
  rewrite (proj2 (Z.eqb_neq _ _) Hs), (proj2 (Z.eqb_neq n 0)) by lia. cbn [orb].
  rewrite (user_fmt_loop fuel s its _ _ _ (s + Z.of_nat (length text))); cbn [fst snd]; rewrite ?Z.sub_0_r, ?Z.add_0_r.
  - cbn [mbind option_bind puts fst snd]. rewrite Z.add_0_l, Z.add_0_r. f_equal. f_equal. by rewrite store_bytes_app.
  - done.
  - done.
  - pose proof (items_fmt_length its). lia.
  - subst text. lia.
  - done.
Qed.

(** C15. What [vsnprintf] leaves in memory, for a format of the conversions that the library has, whose arguments match them: binary
    numbers are below 2^32 (a greater one overruns the buffer of the digits), signed numbers of 64 bits are not the smallest one, and
    strings end in a null and lie apart from the buffer.  The bytes from [s]
    on are the text of the items and a null, every other byte of the memory is as before, and the length of the text is
    returned.  The whole text is written when it fits the [n] bytes with its null.  Otherwise the items are written up
    to the first one that reaches the end, and that one whole: only the last item can pass the end of the buffer. *)
Theorem vsnprintf_correct fuel m s n its ws :
  let written := fitted (n - 1) its in
  let text := items_text written in
  s <> 0 -> 0 < n -> Forall user_item its -> strings_short fuel its ->
  items_words m s (s + Z.of_nat (length text)) its ws ->
  vsnprintf fuel m s n (items_fmt its) ws = Some (store_bytes m s (text ++ [0]), Z.of_nat (length text)) /\
  (Z.of_nat (length (items_text its)) < n -> text = items_text its) /\
  (forall rest it, written = rest ++ [it] -> Z.of_nat (length (items_text rest)) < n - 1).
Proof.
  intros written text Hs Hn Hok Hf Hw. split_and!.
  - by apply vsnprintf_text.
  - intros Hl. apply fitted_all. lia.
  - intros rest it. apply fitted_bound.
Qed.

(** ["a%d%s"] with [-7] and ["up"] at 500, into 16 bytes at 100: all of it; into 4: without the string; into 5: the
    string whole, over the end. *)
Definition demo_format : list item := [Lit 97; Dec32 (-7); Str (Some [117; 112])].
Definition demo_words : memory := store_bytes (fun _ => 7) 500 [117; 112; 0].

Lemma demo_format_ok t : t <= 500 ->
  Forall user_item demo_format /\ strings_short 9 demo_format /\
  items_words demo_words 100 t demo_format [-7; 500].
Proof.
  intros Ht. split_and!.
  - repeat constructor; try done; vm_compute; congruence.
  - intros str Hin. unfold demo_format in Hin. set_unfold. destruct_or!; simplify_eq/=. lia.
  - exists [], [-7; 500]. split_and!; [done..|]. exists [-7], [500]. split_and!; [done|by exists (-7)|].
    exists [500], []. split_and!; [done| |done]. exists 500. split_and!; [done|done| |lia]. by vm_compute.
Qed.

Lemma vsnprintf_correct_witness :
  vsnprintf 9 demo_words 100 16 (items_fmt demo_format) [-7; 500] =
    Some (store_bytes demo_words 100 [97; 45; 55; 117; 112; 0], 5) /\
  vsnprintf 9 demo_words 100 4 (items_fmt demo_format) [-7; 500] =
    Some (store_bytes demo_words 100 [97; 45; 55; 0], 3) /\
  vsnprintf 9 demo_words 100 5 (items_fmt demo_format) [-7; 500] =
    Some (store_bytes demo_words 100 [97; 45; 55; 117; 112; 0], 5).
Proof.
  split_and!.
  - destruct (demo_format_ok 105 ltac:(lia)) as (H1 & H2 & H3).
    exact (proj1 (vsnprintf_correct 9 demo_words 100 16 demo_format [-7; 500] ltac:(lia) ltac:(lia) H1 H2 H3)).
  - destruct (demo_format_ok 103 ltac:(lia)) as (H1 & H2 & H3).
    exact (proj1 (vsnprintf_correct 9 demo_words 100 4 demo_format [-7; 500] ltac:(lia) ltac:(lia) H1 H2 H3)).
  - destruct (demo_format_ok 105 ltac:(lia)) as (H1 & H2 & H3).
    exact (proj1 (vsnprintf_correct 9 demo_words 100 5 demo_format [-7; 500] ltac:(lia) ltac:(lia) H1 H2 H3)).
Defined.

(** The kernel's formatter and the library's agree: the same format and arguments, where both know the conversions and
    the text fits, leave the same bytes in the buffer and return the same length. *)
Lemma formatters_agree fuel m s n its ws buf :
  s <> 0 -> items_ok its -> Forall user_item its -> strings_short fuel its ->
  (length (items_text its) < n)%nat -> buf = m <$> seqZ s (Z.of_nat n) ->
  items_words m s (s + Z.of_nat n) its ws ->
  exists m' buf' len,
    kvsnprintf buf n (items_fmt its) (items_args its) = Some (buf', len) /\
    vsnprintf fuel m s (Z.of_nat n) (items_fmt its) ws = Some (m', Z.of_nat len) /\
    m' <$> seqZ s (Z.of_nat n) = buf' /\
    (forall q, ~ (s <= q < s + Z.of_nat n) -> m' q = m q).
Proof.
  intros Hs Hk Hu Hf Hl -> Hw. set (text := items_text its) in *.
  assert (items_text (fitted (Z.of_nat n - 1) its) = text) as Ht by (apply fitted_all; subst text; lia).
  pose proof (vsnprintf_text fuel m s (Z.of_nat n) its ws Hs ltac:(lia) Hu Hf) as Hv. rewrite Ht in Hv.
  rewrite Hv.
  2:{ eapply items_words_later; [| |..|exact Hw]; [done|lia|lia]. }
  eexists _, _, _. split_and!.
  - apply kvsnprintf_items; [done..|]. rewrite length_fmap, length_seqZ. lia.
  - done.
  - apply list_eq. intros i. rewrite list_lookup_fmap. fold text.
    destruct (decide (i < n)%nat) as [Hi|Hi].
    + rewrite lookup_seqZ_lt by lia. cbn [fmap option_fmap option_map]. rewrite store_bytes_spec, length_app.
      rewrite (cons_middle 0 text (drop _ _)), app_assoc.
      case_decide as Hd; simpl in Hd.
      * rewrite lookup_app_l by (rewrite length_app; simpl; lia).
        replace (Z.to_nat (s + Z.of_nat i - s)) with i by lia.
        rewrite list_lookup_total_alt. destruct (lookup_lt_is_Some_2 (text ++ [0]) i) as [x Hx].
        { rewrite length_app. simpl. lia. } by rewrite Hx.
      * rewrite lookup_app_r by (rewrite length_app; simpl; lia). rewrite lookup_drop, length_app, list_lookup_fmap.
        simpl. rewrite lookup_seqZ_lt by lia. simpl. do 2 f_equal. lia.
    + rewrite lookup_seqZ_ge by lia. simpl. symmetry. apply lookup_ge_None_2.
      rewrite length_app. cbn [length]. rewrite length_drop, length_fmap, length_seqZ. lia.
  - intros q Hq. apply store_bytes_outside. rewrite length_app. simpl. lia.
Qed.
