(* ===== verification/UserLaws.v ===== *)
(** * What a program may rely on

    Computations of a user program, and what the kernel promises to it: memory ([UserHeap]), files, output and the
    current directory ([UserFiles]).  The theorems on the library and on the shell are proved from these classes. *)

From S2P Require Import Prelude KLib Kprint Libc LibcProofs.

(** ** Running a program *)

Definition runs {W A} (c : U W A) (w : W) (a : A) (w' : W) : Prop := c w = Some (Done a w').

Section Runs.
Context {W : Type} `{UserKernel W}.

Lemma runs_bind {A B} (c : U W A) (f : A -> U W B) w a w1 b w2 :
  runs c w a w1 -> runs (f a) w1 b w2 -> runs (c ≫= f) w b w2.
Proof. unfold runs, mbind, U_bind. by intros -> ->. Qed.
Lemma runs_ret {A} (a : A) (w : W) : runs (mret a) w a w.
Proof. done. Qed.
Lemma runs_lift {A} (o : option A) a (w : W) : o = Some a -> runs (lift o) w a w.
Proof. by intros ->. Qed.
Lemma runs_get_mem (w : W) : runs get_mem w (user_mem w) w.
Proof. done. Qed.
Lemma runs_set_mem m (w : W) : runs (set_mem m) w tt (with_user_mem m w).
Proof. done. Qed.
Lemma runs_change_mem f (w : W) : runs (change_mem f) w tt (with_user_mem (f (user_mem w)) w).
Proof. done. Qed.
Lemma runs_load8 p (w : W) : runs (load8 p) w (user_mem w p) w.
Proof. done. Qed.
Lemma runs_not_null p (w : W) : p <> 0 -> runs (not_null p) w tt w.
Proof. intros Hp. unfold not_null. by rewrite (proj2 (Z.eqb_neq _ _) Hp). Qed.
End Runs.

(** One step of a sequence of statements. *)
Ltac run_step :=
  lazymatch goal with
  | |- runs (_ ≫= _) _ _ _ => eapply runs_bind; [first
      [ apply runs_get_mem | apply runs_set_mem | apply runs_change_mem | apply runs_load8 | apply runs_ret
      | eassumption ] | cbv beta]
  | |- runs (mret _) _ _ _ => apply runs_ret
  | |- runs (set_mem _) _ _ _ => apply runs_set_mem
  | |- runs (change_mem _) _ _ _ => apply runs_change_mem
  end.

(** ** Words of the memory *)

Definition field (m : memory) (n p : Z) : Z := little_endian_to_Z 8 (m <$> seqZ p n).

Lemma field_ext m m' n p : (forall q, p <= q < p + n -> m' q = m q) -> field m' n p = field m n p.
Proof.
  intros He. unfold field. f_equal. apply list_fmap_ext. intros i q Hq. apply lookup_seqZ in Hq as [-> Hi]. apply He. lia.
Qed.

Lemma field_store m n p v : 0 <= n -> 0 <= v < 2 ^ (8 * n) -> field (store_bytes m p (Z_to_little_endian n 8 v)) n p = v.
Proof.
  intros Hn Hv. unfold field.
  assert (store_bytes m p (Z_to_little_endian n 8 v) <$> seqZ p n = Z_to_little_endian n 8 v) as ->.
  { pose proof (length_Z_to_little_endian n 8 v Hn) as Hl.
    apply list_eq. intros i. rewrite list_lookup_fmap. destruct (decide (Z.of_nat i < n)).
    - rewrite lookup_seqZ_lt by lia. cbn [fmap option_fmap option_map]. rewrite store_bytes_spec, decide_True by lia.
      replace (Z.to_nat (p + Z.of_nat i - p)) with i by lia. rewrite list_lookup_total_alt.
      destruct (lookup_lt_is_Some_2 (Z_to_little_endian n 8 v) i) as [x ->]; [lia|done].
    - rewrite lookup_seqZ_ge by lia. simpl. symmetry. apply lookup_ge_None_2. lia. }
  rewrite little_endian_to_Z_to_little_endian by lia.
  rewrite Z.mod_small; [done|]. by rewrite Z.mul_comm.
Qed.

Lemma field_store_ne m n p k q v :
  0 <= k -> p + n <= q \/ q + k <= p -> field (store_bytes m q (Z_to_little_endian k 8 v)) n p = field m n p.
Proof.
  intros Hk Hd. apply field_ext. intros x Hx. apply store_bytes_outside.
  rewrite length_Z_to_little_endian by done. lia.
Qed.

Lemma runs_load_field {W : Type} `{UserKernel W} n p (w : W) : runs (load_field n p) w (field (user_mem w) n p) w.
Proof. done. Qed.
Lemma runs_store_field {W : Type} `{UserKernel W} n p v (w : W) :
  runs (store_field n p v) w tt (with_user_mem (store_bytes (user_mem w) p (Z_to_little_endian n 8 v)) w).
Proof. done. Qed.

(** ** What the kernel promises: memory

    [blocks] are the blocks the program has, with their sizes, and [avail] is how many more it can have; [image] is where
    the program and its stack are.  Blocks are apart from each other and from the image.  Only the bytes of a new
    block may change when it is handed out. *)
Class UserHeap (W : Type) `{UserKernel W} := {
  blocks : W -> gmap Z Z;
  avail : W -> nat;
  image : Z -> Prop;
  heap_ok : W -> Prop;
  user_mem_with m w : user_mem (with_user_mem m w) = m;
  blocks_with m w : blocks (with_user_mem m w) = blocks w;
  avail_with m w : avail (with_user_mem m w) = avail w;
  heap_ok_with m w : heap_ok w -> heap_ok (with_user_mem m w);
  blocks_apart w a n b k :
    heap_ok w -> blocks w !! a = Some n -> blocks w !! b = Some k -> a <> b -> a + n <= b \/ b + k <= a;
  blocks_image w a n q : heap_ok w -> blocks w !! a = Some n -> a <= q < a + n -> ~ image q;
  vmalloc_law w sz :
    heap_ok w -> 0 < sz < 2 ^ 31 -> (0 < avail w)%nat ->
    exists a w', runs (syscall 8 [0; sz]) w a w' /\ 0 < a < 2 ^ 64 /\ heap_ok w' /\
      blocks w !! a = None /\ blocks w' = <[a := sz]> (blocks w) /\ avail w = S (avail w') /\
      (forall q, ~ (a <= q < a + sz) -> user_mem w' q = user_mem w q);
  vfree_law w a n :
    heap_ok w -> blocks w !! a = Some n ->
    exists r w', runs (syscall 9 [a]) w r w' /\ heap_ok w' /\
      blocks w' = delete a (blocks w) /\ avail w' = S (avail w) /\
      (forall q, ~ (a <= q < a + n) -> user_mem w' q = user_mem w q);
}.

Section Heap.
Context {W : Type} `{UserHeap W}.
Implicit Types w : W.

Lemma runs_vmalloc w sz :
  heap_ok w -> 0 < sz < 2 ^ 31 -> (0 < avail w)%nat ->
  exists a w', runs (sys_vmalloc 0 sz) w a w' /\ 0 < a < 2 ^ 64 /\ heap_ok w' /\
    blocks w !! a = None /\ blocks w' = <[a := sz]> (blocks w) /\ avail w = S (avail w') /\
    (forall q, ~ (a <= q < a + sz) -> user_mem w' q = user_mem w q).
Proof.
  intros Hok Hsz Hav. destruct (vmalloc_law w sz Hok Hsz Hav) as (a & w' & Hr & Ha & Hrest).
  exists a, w'. split; [|done]. unfold sys_vmalloc. rewrite i32_small by lia.
  eapply runs_bind; [exact Hr|]. cbv beta. rewrite u64_small by lia. done.
Qed.

Lemma runs_vfree w a n :
  heap_ok w -> blocks w !! a = Some n ->
  exists w', runs (sys_vfree a) w tt w' /\ heap_ok w' /\ blocks w' = delete a (blocks w) /\ avail w' = S (avail w) /\
    (forall q, ~ (a <= q < a + n) -> user_mem w' q = user_mem w q).
Proof.
  intros Hok Ha. destruct (vfree_law w a n Hok Ha) as (r & w' & Hr & Hrest).
  exists w'. split; [|done]. eapply runs_bind; [exact Hr|]. done.
Qed.

(** The bytes the program may use: its image and its blocks. *)
Definition owned (w : W) (q : Z) : Prop := image q \/ exists a n, blocks w !! a = Some n /\ a <= q < a + n.

(** A byte that was the program's is in no newer block. *)
Lemma owned_not_new w w' a n q :
  heap_ok w' -> blocks w ⊆ blocks w' -> owned w q -> blocks w' !! a = Some n -> blocks w !! a = None -> ~ (a <= q < a + n).
Proof.
  intros Hok Hsub [Hi|(b & k & Hb & Hq)] Ha Hn Hin; [by eapply blocks_image|].
  assert (b <> a) as Hne by congruence. pose proof (lookup_weaken _ _ _ _ Hb Hsub) as Hb'.
  pose proof (blocks_apart w' b k a n Hok Hb' Ha Hne). lia.
Qed.
End Heap.

Lemma cstr_intro m s : forall p,
  (forall i c, s !! i = Some c -> m (p + Z.of_nat i) = c /\ 0 < c < 256) -> m (p + Z.of_nat (length s)) = 0 -> cstr m p s.
Proof.
  induction s as [|c s IH]; intros p Hs He; cbn [cstr length] in *; [by rewrite Z.add_0_r in He|].
  destruct (Hs 0%nat c eq_refl) as [H0 Hc]. rewrite Z.add_0_r in H0. split_and!; [done|lia..|]. apply IH.
  - intros i d Hi. replace (p + 1 + Z.of_nat i) with (p + Z.of_nat (S i)) by lia. by apply Hs.
  - rewrite <- He. f_equal. lia.
Qed.

(** ** What the kernel promises: files

    [output] is what has been written, with the handle; [handles] are the open handles, at most [max_handles], [openable] says
    whether a path can be opened for reading, or nothing when the call does not come back with an answer, as for a file that is missing on the
    RAM disk; [cwd_of] is the current directory.  Handle 0 is the terminal, so that no file gets it. *)
Record same_heap {W : Type} `{UserHeap W} (w w' : W) : Prop := {
  sh_ok : heap_ok w';
  sh_blocks : blocks w' = blocks w;
  sh_avail : avail w' = avail w;
}.
Record same_files {W : Type} (output : W -> list (Z * list Z)) (handles : W -> gset Z) (openable : W -> list Z -> option bool)
    (cwd_of : W -> list Z) (w w' : W) : Prop := {
  sf_output : output w' = output w;
  sf_handles : handles w' = handles w;
  sf_openable : forall path, openable w' path = openable w path;
  sf_cwd : cwd_of w' = cwd_of w;
}.

Class UserFiles (W : Type) `{UserHeap W} := {
  output : W -> list (Z * list Z);
  handles : W -> gset Z;
  openable : W -> list Z -> option bool;
  cwd_of : W -> list Z;
  max_handles : nat;
  files_with m w : same_files output handles openable cwd_of w (with_user_mem m w);
  alloc_files n args w r w' :
    n = 8 \/ n = 9 -> runs (syscall n args) w r w' -> same_files output handles openable cwd_of w w';
  write_law w h len buf :
    heap_ok w -> 0 <= len < 2 ^ 31 ->
    exists r w', runs (syscall 5 [h; len; buf]) w r w' /\ same_heap w w' /\
      (forall q, owned w q -> user_mem w' q = user_mem w q) /\
      output w' = output w ++ [(h, user_mem w <$> seqZ buf len)] /\ handles w' = handles w /\
      (forall path, openable w' path = openable w path) /\ cwd_of w' = cwd_of w;
  open_law w p path :
    heap_ok w -> cstr (user_mem w) p path -> (size (handles w) < max_handles)%nat -> is_Some (openable w path) ->
    exists r w', runs (syscall 2 [p; O_READ]) w r w' /\ same_heap w w' /\
      (forall q, owned w q -> user_mem w' q = user_mem w q) /\
      output w' = output w /\ (forall path, openable w' path = openable w path) /\ cwd_of w' = cwd_of w /\
      if default false (openable w path) then 0 < r < 2 ^ 31 /\ r ∉ handles w /\ handles w' = {[r]} ∪ handles w
      else i32 r < 0 /\ handles w' = handles w;
  close_law w h :
    heap_ok w -> h ∈ handles w ->
    exists r w', runs (syscall 3 [h]) w r w' /\ same_heap w w' /\
      (forall q, owned w q -> user_mem w' q = user_mem w q) /\
      output w' = output w /\ (forall path, openable w' path = openable w path) /\ cwd_of w' = cwd_of w /\
      handles w' = handles w ∖ {[h]};
  getcwd_law w buf len :
    heap_ok w -> Z.of_nat (length (cwd_of w)) < len -> Forall (fun c => 0 < c < 256) (cwd_of w) ->
    (forall q, buf <= q < buf + len -> owned w q) ->
    exists r w', runs (syscall 15 [buf; len]) w r w' /\ same_heap w w' /\
      (forall q, owned w q -> user_mem w' q = store_bytes (user_mem w) buf (cwd_of w ++ [0]) q) /\
      same_files output handles openable cwd_of w w';
  chdir_law w p path :
    heap_ok w -> cstr (user_mem w) p path -> is_Some (openable w path) ->
    exists r w', runs (syscall 16 [p]) w r w' /\ same_heap w w' /\
      (forall q, owned w q -> user_mem w' q = user_mem w q) /\
      output w' = output w /\ handles w' = handles w /\
      (i32 r < 0 -> cwd_of w' = cwd_of w);
}.

Section Files.
Context {W : Type} `{UserFiles W} (fuel : nat).
Implicit Types w : W.
Notation same_files := (same_files output handles openable cwd_of).

Lemma same_files_trans w w1 w2 : same_files w w1 -> same_files w1 w2 -> same_files w w2.
Proof.
  intros [Ha Hb Hc Hd] [Ha' Hb' Hc' Hd']. split; [by rewrite Ha'|by rewrite Hb'| |by rewrite Hd'].
  intros path. by rewrite Hc'.
Qed.

Lemma vmalloc_files ptr sz w a w' : runs (sys_vmalloc ptr sz) w a w' -> same_files w w'.
Proof.
  unfold sys_vmalloc, runs, mbind, U_bind. destruct (syscall 8 _ w) as [[r w1|w1]|] eqn:E; [|done..].
  intros [= _ <-]. eapply alloc_files; [by left|exact E].
Qed.
Lemma vfree_files ptr w w' : runs (sys_vfree ptr) w tt w' -> same_files w w'.
Proof.
  unfold sys_vfree, runs, mbind, U_bind. destruct (syscall 9 _ w) as [[r w1|w1]|] eqn:E; [|done..].
  intros [= <-]. eapply alloc_files; [by right|exact E].
Qed.

(** The words passed for an item, with every string in the program's own memory. *)
Definition item_passed w (it : item) (ws : list Z) : Prop :=
  match it with
  | Str (Some str) => exists p, ws = [p] /\ p <> 0 /\ cstr (user_mem w) p str /\
      (forall q, p <= q <= p + Z.of_nat (length str) -> owned w q)
  | _ => item_words (user_mem w) 0 0 it ws
  end.
Fixpoint items_passed w (its : list item) (ws : list Z) : Prop :=
  match its with
  | [] => ws = []
  | it :: its => exists v1 v2, ws = v1 ++ v2 /\ item_passed w it v1 /\ items_passed w its v2
  end.

Lemma items_passed_words w m s t its : forall ws,
  (forall q, owned w q -> m q = user_mem w q) -> (forall q, s <= q < t -> ~ owned w q) -> s < t ->
  items_passed w its ws -> items_words m s t its ws.
Proof.
  induction its as [|it its IH]; intros ws Hm Hn Hst; [done|].
  intros (v1 & v2 & -> & Hv1 & Hv2). exists v1, v2. split_and!; [done| |by apply IH].
  destruct it as [| | | | | | | | |[str|]| |]; try exact Hv1. destruct Hv1 as (p & -> & Hp & Hc & Ho).
  exists p. split_and!; [done|done| |].
  - eapply cstr_ext; [|exact Hc]. intros q Hq. apply Hm, Ho. lia.
  - destruct (decide (p + Z.of_nat (length str) < s)); [by left|]. destruct (decide (t <= p)); [by right|].
    exfalso. apply (Hn (Z.max s p)); [lia|]. apply Ho. lia.
Qed.

Lemma stored_bytes m s l : store_bytes m s (l ++ [0]) <$> seqZ s (Z.of_nat (length l)) = l.
Proof.
  apply list_eq. intros i. rewrite list_lookup_fmap. destruct (decide (i < length l)%nat).
  - rewrite lookup_seqZ_lt by lia. cbn [fmap option_fmap option_map]. rewrite store_bytes_spec, length_app.
    rewrite decide_True by (simpl; lia). replace (Z.to_nat (s + Z.of_nat i - s)) with i by lia.
    rewrite lookup_total_app_l, list_lookup_lookup_total_lt by lia. done.
  - rewrite lookup_seqZ_ge by lia. symmetry. apply lookup_ge_None_2. lia.
Qed.

Lemma vdprintf_run w fd fmt ws buf w1 w2 m3 len r w4 w5 :
  runs (sys_vmalloc 0 PRINT_BUF_SIZE) w buf w1 -> buf <> 0 ->
  runs (change_mem (fun m => memset m buf 0 PRINT_BUF_SIZE)) w1 tt w2 ->
  vsnprintf fuel (user_mem w2) buf PRINT_BUF_SIZE fmt ws = Some (m3, len) ->
  runs (sys_write fd len buf) (with_user_mem m3 w2) r w4 -> runs (sys_vfree buf) w4 tt w5 ->
  runs (vdprintf fuel fd fmt ws) w len w5.
Proof.
  intros Hr1 Hb Hr2 Hv Hr4 Hr5. unfold vdprintf. eapply runs_bind; [exact Hr1|]. cbv beta.
  rewrite (proj2 (Z.eqb_neq _ _) Hb). eapply runs_bind; [exact Hr2|]. cbv beta. run_step.
  eapply runs_bind; [apply runs_lift; exact Hv|]. cbv beta iota. run_step.
  eapply runs_bind; [exact Hr4|]. cbv beta. eapply runs_bind; [exact Hr5|]. apply runs_ret.
Qed.

(** The buffer, filled with zeros. *)
Lemma print_buffer w :
  heap_ok w -> (0 < avail w)%nat ->
  exists buf w1 w2, runs (sys_vmalloc 0 PRINT_BUF_SIZE) w buf w1 /\ 0 < buf < 2 ^ 64 /\
    runs (change_mem (fun m => memset m buf 0 PRINT_BUF_SIZE)) w1 tt w2 /\
    heap_ok w2 /\ blocks w !! buf = None /\ blocks w2 = <[buf := PRINT_BUF_SIZE]> (blocks w) /\ avail w = S (avail w2) /\
    same_files w w2 /\ (forall q, buf <= q < buf + PRINT_BUF_SIZE -> ~ owned w q) /\
    (forall q, owned w q -> user_mem w2 q = user_mem w q).
Proof.
  intros Hok Hav. assert (0 < PRINT_BUF_SIZE < 2 ^ 31) as Hsz by (unfold PRINT_BUF_SIZE; lia).
  destruct (runs_vmalloc w PRINT_BUF_SIZE Hok Hsz Hav) as (buf & w1 & Hr1 & Hbuf & Hok1 & Hfr & Hb1 & Hav1 & Hm1).
  assert (blocks w1 !! buf = Some PRINT_BUF_SIZE) as Hbb by (rewrite Hb1; by rewrite lookup_insert_eq).
  assert (forall q, buf <= q < buf + PRINT_BUF_SIZE -> ~ owned w q) as Hno.
  { intros q Hq Ho. eapply (owned_not_new w w1 buf PRINT_BUF_SIZE q); try done. rewrite Hb1. by apply insert_subseteq. }
  eexists _, _, _. split; [exact Hr1|]. split; [done|]. split; [apply runs_change_mem|].
  rewrite blocks_with, avail_with, user_mem_with. split_and!; [by apply heap_ok_with|done..| |done|].
  - eapply same_files_trans; [by eapply vmalloc_files|apply files_with].
  - intros q Ho. pose proof (Hno q). rewrite memset_spec, decide_False, Hm1 by (lia || naive_solver). done.
Qed.

(** [vdprintf] writes the text of the format to the handle, in one call, and keeps the blocks and the memory of the
    program, as long as the text with its null fits the 4096 bytes it takes for it. *)
Lemma runs_vdprintf w fd its ws :
  heap_ok w -> (0 < avail w)%nat -> Forall user_item its -> strings_short fuel its -> items_passed w its ws ->
  Z.of_nat (length (items_text its)) < PRINT_BUF_SIZE ->
  exists w', runs (vdprintf fuel fd (items_fmt its) ws) w (Z.of_nat (length (items_text its))) w' /\ same_heap w w' /\
    (forall q, owned w q -> user_mem w' q = user_mem w q) /\
    output w' = output w ++ [(fd, items_text its)] /\ handles w' = handles w /\
    (forall path, openable w' path = openable w path) /\ cwd_of w' = cwd_of w.
Proof.
  intros Hok Hav Hu Hsh Hp Hlen. set (text := items_text its) in *.
  assert (0 < PRINT_BUF_SIZE < 2 ^ 31) as Hsz by (unfold PRINT_BUF_SIZE; lia).
  destruct (print_buffer w Hok Hav) as (buf & w1 & w2 & Hr1 & Hbuf & Hr2 & Hok2 & Hfr & Hb2 & Hav2 & Hf2 & Hno & Hm2).
  set (m3 := store_bytes (user_mem w2) buf (text ++ [0])).
  assert (items_text (fitted (PRINT_BUF_SIZE - 1) its) = text) as Htx by (apply fitted_all; subst text; lia).
  assert (vsnprintf fuel (user_mem w2) buf PRINT_BUF_SIZE (items_fmt its) ws = Some (m3, Z.of_nat (length text))) as Hv.
  { pose proof (vsnprintf_text fuel (user_mem w2) buf PRINT_BUF_SIZE its ws) as Hv. rewrite Htx in Hv.
    apply Hv; [lia|lia|done|done|].
    eapply (items_words_later (user_mem w2) (user_mem w2) buf (buf + PRINT_BUF_SIZE)); [done|lia|lia|].
    eapply items_passed_words; [exact Hm2|exact Hno|lia|done]. }
  set (w3 := with_user_mem m3 w2).
  destruct (write_law w3 fd (Z.of_nat (length text)) buf) as (r & w4 & Hr4 & [Hok4 Hb4 Hav4] & Hm4 & Ho4 & Hh4 & Hp4 & Hc4).
  { by apply heap_ok_with. }
  { lia. }
  unfold w3 in Hb4, Hav4. rewrite !blocks_with in Hb4. rewrite !avail_with in Hav4.
  destruct (runs_vfree w4 buf PRINT_BUF_SIZE Hok4) as (w5 & Hr5 & Hok5 & Hb5 & Hav5 & Hm5).
  { rewrite Hb4, Hb2. by rewrite lookup_insert_eq. }
  pose proof (vfree_files _ _ _ Hr5) as [Hf5o Hf5h Hf5p Hf5c].
  pose proof (same_files_trans _ _ _ Hf2 (files_with m3 w2)) as [Hf3o Hf3h Hf3p Hf3c].
  fold w3 in Hf3o, Hf3h, Hf3p, Hf3c.
  exists w5. split_and!.
  - eapply vdprintf_run; [exact Hr1|lia|exact Hr2|exact Hv| |exact Hr5].
    eapply runs_bind; [exact Hr4|apply runs_ret].
  - split; [done| |].
    + rewrite Hb5, Hb4, Hb2. by apply delete_insert_id.
    + rewrite Hav5, Hav4. lia.
  - intros q Ho. pose proof (Hno q) as Hq.
    assert (owned w3 q) as Ho3.
    { destruct Ho as [Hi|(a & n & Ha & Hin)]; [by left|]. right. exists a, n. split; [|done]. unfold w3.
      rewrite !blocks_with, Hb2, lookup_insert_ne; [done|congruence]. }
    rewrite Hm5, (Hm4 q Ho3) by naive_solver. unfold w3. rewrite user_mem_with. unfold m3.
    rewrite store_bytes_outside by (rewrite length_app; simpl; intros ?; apply Hq; [lia|done]). by apply Hm2.
  - rewrite Hf5o, Ho4, Hf3o. do 3 f_equal. unfold w3. rewrite user_mem_with. apply stored_bytes.
  - by rewrite Hf5h, Hh4, Hf3h.
  - intros path. by rewrite Hf5p, Hp4, Hf3p.
  - by rewrite Hf5c, Hc4, Hf3c.
Qed.
End Files.
