(* ===== verification/UserDemo.v ===== *)
(** * A kernel for examples

    A small kernel that keeps the promises of [UserHeap] and [UserFiles], on which the library and the shell can be run:
    64 slots for blocks, a set of files and directories by name, and lines typed at the terminal. *)

From S2P Require Import Prelude KLib Kprint Libc LibcProofs UserLaws.

Record demo := Demo {
  d_mem : memory;
  d_blocks : gmap Z Z;
  d_out : list (Z * list Z);
  d_handles : gset Z;
  d_files : list (list Z);
  d_dirs : list (list Z);
  d_cwd : list Z;
  d_lines : list (list Z);
}.
Definition d_set_mem (m : memory) (w : demo) : demo :=
  Demo m (d_blocks w) (d_out w) (d_handles w) (d_files w) (d_dirs w) (d_cwd w) (d_lines w).
Definition d_set_blocks (b : gmap Z Z) (w : demo) : demo :=
  Demo (d_mem w) b (d_out w) (d_handles w) (d_files w) (d_dirs w) (d_cwd w) (d_lines w).
Definition d_add_out (o : Z * list Z) (w : demo) : demo :=
  Demo (d_mem w) (d_blocks w) (d_out w ++ [o]) (d_handles w) (d_files w) (d_dirs w) (d_cwd w) (d_lines w).
Definition d_set_handles (h : gset Z) (w : demo) : demo :=
  Demo (d_mem w) (d_blocks w) (d_out w) h (d_files w) (d_dirs w) (d_cwd w) (d_lines w).
Definition d_set_cwd (c : list Z) (w : demo) : demo :=
  Demo (d_mem w) (d_blocks w) (d_out w) (d_handles w) (d_files w) (d_dirs w) c (d_lines w).
Definition d_set_lines (l : list (list Z)) (w : demo) : demo :=
  Demo (d_mem w) (d_blocks w) (d_out w) (d_handles w) (d_files w) (d_dirs w) (d_cwd w) l.

(** Blocks are in slots of 2 GB behind the first 4 GB; the image is in the first 2. *)
Definition slot (i : Z) : Z := 2 ^ 32 + 2 ^ 31 * i.
Definition free_slots (b : gmap Z Z) : list Z := filter (fun i => b !! slot i = None) (seqZ 0 64).
Definition free_handles (h : gset Z) : list Z := filter (fun i => i ∉ h) (seqZ 3 17).

(** The string at an address, of at most 4096 characters. *)
Fixpoint read_chars (n : nat) (m : memory) (p : Z) : list Z :=
  match n with
  | O => []
  | S n => if m p =? 0 then [] else m p :: read_chars n m (p + 1)
  end.
Definition d_path (w : demo) (p : Z) : list Z := read_chars 4096 (d_mem w) p.

Definition demo_syscall (n : Z) (args : list Z) : U demo Z := fun w =>
  match args with
  | [_; sz] =>
    if n =? 8 then
      match free_slots (d_blocks w) with
      | i :: _ => Some (Done (slot i) (d_set_blocks (<[slot i := sz]> (d_blocks w)) w))
      | [] => Some (Done 0 w)
      end
    else if n =? 2 then
      let p := default 0 (head args) in
      if bool_decide (d_path w p ∈ d_files w) then
        match free_handles (d_handles w) with
        | h :: _ => Some (Done h (d_set_handles ({[h]} ∪ d_handles w) w))
        | [] => Some (Done (-1) w)
        end
      else Some (Done (-1) w)
    else if n =? 15 then
      let buf := default 0 (head args) in
      Some (Done 0 (d_set_mem (store_bytes (d_mem w) buf (take (Z.to_nat (sz - 1)) (d_cwd w) ++ [0])) w))
    else None
  | [a] =>
    if n =? 9 then Some (Done 0 (d_set_blocks (delete a (d_blocks w)) w))
    else if n =? 3 then Some (Done 0 (d_set_handles (d_handles w ∖ {[a]}) w))
    else if n =? 16 then
      if bool_decide (d_path w a ∈ d_dirs w) then Some (Done 0 (d_set_cwd (d_path w a) w)) else Some (Done (-1) w)
    else if n =? 1 then Some (Gone w)
    else if n =? 14 then Some (Done 0 w)
    else None
  | [h; len; buf] =>
    if n =? 5 then Some (Done len (d_add_out (h, d_mem w <$> seqZ buf len) w))
    else if n =? 4 then
      match d_lines w with
      | l :: ls =>
        let l := take (Z.to_nat len) l in
        Some (Done (Z.of_nat (length l)) (d_set_lines ls (d_set_mem (store_bytes (d_mem w) buf l) w)))
      | [] => None
      end
    else if n =? 10 then Some (Done (-105) w)
    else if n =? 13 then Some (Gone w)
    else None
  | [] => if n =? 11 then Some (Done 7 w) else None
  | _ => None
  end.

#[global] Instance demo_kernel : UserKernel demo :=
  {| user_mem := d_mem; with_user_mem := d_set_mem; syscall := demo_syscall |}.

Definition blocks_ok (b : gmap Z Z) : Prop :=
  forall a n, b !! a = Some n -> (exists i, 0 <= i < 64 /\ a = slot i) /\ n <= 2 ^ 31.
Definition demo_ok (w : demo) : Prop :=
  blocks_ok (d_blocks w) /\ Forall (fun f => (length f < 4096)%nat) (d_files w).

Lemma filter_one_less (P Q : Z -> Prop) `{!forall x, Decision (P x), !forall x, Decision (Q x)} (l : list Z) c :
  NoDup l -> c ∈ l -> P c -> (forall x, x ∈ l -> (Q x <-> P x /\ x <> c)) ->
  length (filter P l) = S (length (filter Q l)).
Proof.
  induction l as [|x l IH]; intros Hnd Hin HP HQ; [by apply not_elem_of_nil in Hin|].
  apply NoDup_cons in Hnd as [Hx Hnd]. rewrite !filter_cons. pose proof (HQ x ltac:(left)) as Hqx.
  destruct (decide (x = c)) as [->|Hne].
  - rewrite decide_True, decide_False by naive_solver. cbn [length]. f_equal.
    apply Nat.le_antisymm; apply filter_length_le; intros y Hy; rewrite HQ by (by right); [|naive_solver].
    intros Hp. split; [done|]. by intros ->.
  - apply elem_of_cons in Hin as [->|Hin]; [done|].
    specialize (IH Hnd Hin HP ltac:(intros; apply HQ; by right)).
    destruct (decide (P x)), (decide (Q x)); cbn [length]; [lia|naive_solver..|lia].
Qed.

Lemma slot_inj i j : slot i = slot j -> i = j.
Proof. unfold slot. lia. Qed.

Lemma free_slots_insert b i n : 0 <= i < 64 -> b !! slot i = None ->
  length (free_slots b) = S (length (free_slots (<[slot i := n]> b))).
Proof.
  intros Hi Hb. apply (filter_one_less _ _ _ i); [apply NoDup_seqZ|by apply elem_of_seqZ|done|].
  intros x _. destruct (decide (x = i)) as [->|Hne]; [rewrite lookup_insert_eq; naive_solver|].
  rewrite lookup_insert_ne by (intros ?%slot_inj; done). naive_solver.
Qed.

Lemma free_slots_delete b i n : 0 <= i < 64 -> b !! slot i = Some n ->
  length (free_slots (delete (slot i) b)) = S (length (free_slots b)).
Proof.
  intros Hi Hb. rewrite (free_slots_insert (delete (slot i) b) i n Hi) by apply lookup_delete_eq.
  by rewrite insert_delete_id.
Qed.

#[global] Program Instance demo_heap : UserHeap demo :=
  {| blocks := d_blocks; avail w := length (free_slots (d_blocks w)); image q := 0 <= q < 2 ^ 31; heap_ok := demo_ok |}.
Next Obligation. done. Qed.
Next Obligation. done. Qed.
Next Obligation. done. Qed.
Next Obligation. done. Qed.
Next Obligation.
  intros w a n b k [Hok _] Ha Hb Hne. destruct (Hok a n Ha) as [(i & Hi & ->) Hn], (Hok b k Hb) as [(j & Hj & ->) Hk].
  assert (i <> j) by congruence. unfold slot. lia.
Qed.
Next Obligation.
  intros w a n q [Hok _] Ha Hq. destruct (Hok a n Ha) as [(i & Hi & ->) Hn]. unfold slot in Hq. lia.
Qed.
Next Obligation.
  intros w sz [Hok Hfs] Hsz Hav. cbv beta in Hav. destruct (free_slots (d_blocks w)) as [|i l] eqn:E; [simpl in Hav; lia|].
  assert (i ∈ free_slots (d_blocks w)) as Hin by (rewrite E; left).
  unfold free_slots in Hin. apply list_elem_of_filter in Hin as [Hfr Hin]. apply elem_of_seqZ in Hin.
  exists (slot i), (d_set_blocks (<[slot i := sz]> (d_blocks w)) w). split_and!; try done.
  - unfold runs, syscall, demo_kernel, demo_syscall. simpl. by rewrite E.
  - unfold slot. lia.
  - unfold slot. lia.
  - split; [|done]. intros a n. simpl. intros [[<- <-]|[_ Ha]]%lookup_insert_Some; [|by apply Hok]. split; [by exists i|lia].
  - pose proof (free_slots_insert (d_blocks w) i sz ltac:(lia) Hfr) as Hf. by rewrite E in Hf.
Qed.
Next Obligation.
  intros w a n [Hok Hfs] Ha. exists 0, (d_set_blocks (delete a (d_blocks w)) w). split_and!; try done.
  - split; [|done]. intros b k. simpl. intros [_ Hb]%lookup_delete_Some. by apply Hok.
  - destruct (Hok a n Ha) as [(i & Hi & ->) _]. simpl. by apply (free_slots_delete _ i n).
Qed.

Lemma read_chars_cstr path : forall n m p, cstr m p path -> read_chars n m p = take n path.
Proof.
  induction path as [|c path IH]; intros [|n] m p Hc; try done; cbn [read_chars cstr take] in *.
  - by rewrite Hc.
  - destruct Hc as (-> & Hr & Hc). rewrite (proj2 (Z.eqb_neq _ _)) by lia. f_equal. by apply IH.
Qed.

Lemma d_path_in w p path : demo_ok w -> cstr (d_mem w) p path -> (d_path w p ∈ d_files w <-> path ∈ d_files w).
Proof.
  intros [_ Hf] Hc. unfold d_path. rewrite (read_chars_cstr path) by done. rewrite Forall_forall in Hf.
  destruct (decide (length path < 4096)%nat); [by rewrite take_ge by lia|]. split; intros Hin.
  - apply Hf in Hin. rewrite length_take in Hin. lia.
  - apply Hf in Hin. lia.
Qed.

Lemma free_handle_exists (h : gset Z) : (size h < 17)%nat -> exists x l, free_handles h = x :: l.
Proof.
  intros Hs. destruct (free_handles h) as [|x l] eqn:E; [|by exists x, l]. exfalso.
  assert (list_to_set (seqZ 3 17) ⊆ h) as Hsub%subseteq_size.
  { intros x Hx%elem_of_list_to_set. destruct (decide (x ∈ h)); [done|].
    assert (x ∈ free_handles h) as Hin by (by apply list_elem_of_filter). rewrite E in Hin. by apply not_elem_of_nil in Hin. }
  rewrite size_list_to_set, length_seqZ in Hsub by apply NoDup_seqZ. change (Z.to_nat 17) with 17%nat in Hsub. lia.
Qed.

#[global] Program Instance demo_user_files : UserFiles demo :=
  {| output := d_out; handles := d_handles; openable w path := Some (bool_decide (path ∈ d_files w)); cwd_of := d_cwd;
     max_handles := 17 |}.
Next Obligation. done. Qed.
Next Obligation.
  intros n args w r w' Hn Hr. unfold runs, syscall, demo_kernel, demo_syscall in Hr.
  destruct args as [|a [|b [|c [|d args]]]]; destruct Hn as [-> | ->]; simpl in Hr; simplify_eq; try done.
  destruct (free_slots _); simplify_eq; done.
Qed.
Next Obligation. intros w h len buf Hok Hl. eexists _, _. split; [reflexivity|]. by split_and!. Qed.
Next Obligation.
  intros w p path Hok Hc Hs _. unfold runs, syscall, demo_kernel, demo_syscall. cbn [Z.eqb head default].
  rewrite (bool_decide_ext _ _ (d_path_in w p path Hok Hc)). destruct (bool_decide (path ∈ d_files w)).
  - destruct (free_handle_exists _ Hs) as (x & l & E). simpl. rewrite E.
    assert (x ∈ free_handles (d_handles w)) as Hin by (rewrite E; left).
    apply list_elem_of_filter in Hin as [Hx Hin]. apply elem_of_seqZ in Hin.
    eexists _, _. split; [reflexivity|]. split_and!; try done; lia.
  - eexists _, _. split; [reflexivity|]. by split_and!.
Qed.
Next Obligation. intros w h Hok Hh. eexists _, _. split; [reflexivity|]. by split_and!. Qed.
Next Obligation.
  intros w buf len Hok Hl Hc Ho. eexists _, _. split; [reflexivity|]. split_and!; try done.
  intros q _. simpl. rewrite take_ge by lia. done.
Qed.
Next Obligation.
  intros w p path Hok Hc _. unfold runs, syscall, demo_kernel, demo_syscall. simpl.
  destruct (bool_decide _); eexists _, _; (split; [reflexivity|]); by split_and!.
Qed.
