(* ===== verification/Shell.v ===== *)
(** * The shell

    [user/shell.c] on the library of [Libc].  The static arrays, the string literals that are compared, and the locals
    whose address is passed on are at the addresses of a [shell_image]; [struct cmd_parse] is laid out in memory as the
    compiler does. *)

From Stdlib Require Import String Ascii.
From S2P Require Import Prelude KLib Kprint Libc.

(** The characters of a literal. *)
Fixpoint lit (s : string) : list Z :=
  match s with
  | EmptyString => []
  | String c s => Z.of_N (N_of_ascii c) :: lit s
  end.

Definition MAX_ARGS : Z := 16.
Definition BUF_SIZE : Z := 256.

(** [struct cmd_parse]: its size and the offsets of its fields. *)
Definition SIZEOF_CMD_PARSE : Z := 144.
Definition cp_raw : Z := 0.
Definition cp_args : Z := 8.
Definition cp_cnt : Z := 136.

Inductive builtin_fn := builtin_cd | builtin_ls | builtin_pwd | builtin_echo | builtin_help | builtin_exit.
Definition builtins : list (string * builtin_fn) :=
  [("cd", builtin_cd); ("ls", builtin_ls); ("pwd", builtin_pwd);
   ("echo", builtin_echo); ("help", builtin_help); ("exit", builtin_exit)]%string.

(** The static arrays; the literal of [env_parse] and the names in [builtins]; the locals [parse], [path] of [main] and of
    [run_external], and [rbuf] of [vscanf]. *)
Record shell_image := ShellImage {
  cwd : Z; input_buf : Z; path_env : Z;
  lit_PATH : Z; builtin_names : list Z;
  a_parse : Z; a_path : Z; a_path_ext : Z; a_rbuf : Z;
}.

Section Shell.
Context {W : Type} `{UserKernel W} (fuel : nat) (img : shell_image).

(** ** The search path *)

Fixpoint env_loop (n : nat) (e : Z) : U W unit :=
  match n with
  | O => lift None
  | S n =>
    p ← load_field 8 e;
    if p =? 0 then mret tt else
    m ← get_mem;
    if strncmp m p (lit_PATH img) 5 =? 0 then
      l ← lift (strlen fuel m (p + 5));
      let len := if BUF_SIZE <=? l then BUF_SIZE - 1 else l in
      set_mem (upd (memcpy m (path_env img) (p + 5) len) (path_env img + len) 0)
    else env_loop n (e + 8)
  end.
Definition env_parse (envp : Z) : U W unit := if envp =? 0 then mret tt else env_loop fuel envp.

(** A directory of the path with the name of the command behind it, if there is room; whether it can be opened. *)
Definition try_dir (cmd out outsz p dirlen : Z) : U W bool :=
  m ← get_mem;
  l ← lift (strlen fuel m cmd);
  if outsz <? dirlen + l + 2 then mret false else
  let m := upd (memcpy m out p dirlen) (out + dirlen) 47 in
  l ← lift (strlen fuel m cmd);
  _ ← set_mem (memcpy m (out + dirlen + 1) cmd (l + 1));
  fh ← open out O_READ;
  if fh =? 0 then mret false else
  _ ← close fh;
  mret true.

Fixpoint path_loop (n : nat) (cmd out outsz p : Z) : U W bool :=
  match n with
  | O => lift None
  | S n =>
    m ← get_mem;
    if m p =? 0 then mret false else
    c ← lift (strchr fuel m p 58);
    end_ ← (if c =? 0 then l ← lift (strlen fuel m p); mret (p + l) else mret c);
    found ← try_dir cmd out outsz p (end_ - p);
    if (found : bool) then mret true else
    ch ← load8 end_;
    path_loop n cmd out outsz (if ch =? 0 then end_ else end_ + 1)
  end.

Definition resolve_path (cmd out outsz : Z) : U W unit :=
  m ← get_mem;
  slash ← lift (strchr fuel m cmd 47);
  if negb (slash =? 0) then
    l ← lift (strlen fuel m cmd);
    set_mem (memcpy m out cmd (l + 1))
  else
  found ← path_loop fuel cmd out outsz (path_env img);
  if (found : bool) then mret tt else
  m ← get_mem;
  '(m, _) ← lift (snprintf fuel m out outsz (lit "/bin/%s") [cmd]);
  set_mem m.

Definition try_resolve (cmd out outsz : Z) : U W Z :=
  _ ← resolve_path cmd out outsz;
  fh ← open out O_READ;
  if fh =? 0 then mret 0 else
  _ ← close fh;
  mret 1.

Definition get_cwd : U W Z :=
  _ ← change_mem (fun m => memset m (cwd img) 0 BUF_SIZE);
  _ ← sys_getcwd (cwd img) BUF_SIZE;
  mret (cwd img).

(** ** The commands of the shell *)

Definition arg (p i : Z) : U W Z := load_field 8 (p + cp_args + 8 * i).
Definition cnt (p : Z) : U W Z := c ← load_field 4 (p + cp_cnt); mret (i32 c).

Definition run_pwd : U W unit := _ ← printf fuel (lit "%s" ++ [10]) [cwd img]; mret tt.

Definition run_cd (p : Z) : U W unit :=
  c ← cnt p;
  if c <? 2 then mret tt else
  a ← arg p 1;
  _ ← sys_chdir a;
  _ ← get_cwd;
  mret tt.

(** [entries[i].name] is at the start of an entry. *)
Definition SIZEOF_DIRENT : Z := 264.
Fixpoint print_entries (n : nat) (entries i : Z) : U W unit :=
  match n with
  | O => mret tt
  | S n =>
    _ ← printf fuel (lit "%s  ") [entries + SIZEOF_DIRENT * i];
    print_entries n entries (i + 1)
  end.

Definition run_ls : U W unit :=
  dp ← opendir (cwd img);
  if dp =? 0 then _ ← dprintf fuel STDERR (lit "ls: cannot open '%s'" ++ [10]) [cwd img]; mret tt else
  entries ← readdir dp;
  _ ← (if entries =? 0 then mret tt else
       n ← load_field 4 (dp + dir_cnt);
       _ ← print_entries (Z.to_nat (i32 n)) entries 0;
       _ ← printf fuel [10] [];
       mret tt);
  closedir dp.

Definition run_help : U W unit := _ ← printf fuel (lit "builtins: cd  ls  pwd  echo  help" ++ [10]) []; mret tt.

Fixpoint echo_args (n : nat) (p i : Z) : U W unit :=
  match n with
  | O => mret tt
  | S n => a ← arg p i; _ ← printf fuel (lit "%s ") [a]; echo_args n p (i + 1)
  end.
Definition run_echo (p : Z) : U W unit :=
  c ← cnt p;
  _ ← echo_args (Z.to_nat (c - 1)) p 1;
  _ ← printf fuel [10] [];
  mret tt.

Definition run_exit : U W unit := sys_user_exit 0.

Definition run_builtin (f : builtin_fn) (p : Z) : U W unit :=
  match f with
  | builtin_cd => run_cd p
  | builtin_ls => run_ls
  | builtin_pwd => run_pwd
  | builtin_echo => run_echo p
  | builtin_help => run_help
  | builtin_exit => run_exit
  end.

(** The first entry whose name compares equal. *)
Fixpoint find_name (m : memory) (names : list Z) (fns : list (string * builtin_fn)) (name : Z) : option (option builtin_fn) :=
  match names, fns with
  | a :: names, (_, f) :: fns =>
    r ← strcmp fuel m a name;
    if r =? 0 then Some (Some f) else find_name m names fns name
  | _, _ => Some None
  end.
Definition find_builtin (name : Z) : U W (option builtin_fn) :=
  m ← get_mem; lift (find_name m (builtin_names img) builtins name).

(** ** The command line *)

Fixpoint free_args (n : nat) (p i : Z) : U W unit :=
  match n with
  | O => mret tt
  | S n => a ← arg p i; _ ← sys_vfree a; free_args n p (i + 1)
  end.
Definition parse_free (p : Z) : U W unit :=
  raw ← load_field 8 (p + cp_raw);
  _ ← sys_vfree raw;
  c ← cnt p;
  _ ← free_args (Z.to_nat c) p 0;
  change_mem (fun m => memset m p 0 SIZEOF_CMD_PARSE).

(** The word at [tok] becomes the next argument; whether there is room for another. *)
Definition add_arg (p tok tlen : Z) : U W bool :=
  a ← sys_vmalloc 0 (tlen + 1);
  c ← cnt p;
  _ ← store_field 8 (p + cp_args + 8 * c) a;
  _ ← not_null a;
  _ ← change_mem (fun m => memset m a 0 (tlen + 1));
  _ ← change_mem (fun m => memcpy m a tok tlen);
  c ← cnt p;
  _ ← store_field 4 (p + cp_cnt) (c + 1);
  c ← cnt p;
  mret (c <? MAX_ARGS).

(** At a separator: it is overwritten, and the word in front of it, if there is one, becomes an argument. *)
Definition end_word (p raw i tok : Z) : U W bool :=
  _ ← change_mem (fun m => upd m (raw + i) 0);
  m ← get_mem;
  tlen ← lift (strlen fuel m tok);
  if 0 <? tlen then add_arg p tok tlen else mret true.

(** [n] characters are left, the null at the end included. *)
Fixpoint parse_loop (n : nat) (p raw i tok : Z) : U W unit :=
  match n with
  | O => mret tt
  | S n =>
    ch ← load8 (raw + i);
    if (ch =? 32) || (ch =? 0) then
      more ← end_word p raw i tok;
      if (more : bool) then parse_loop n p raw (i + 1) (raw + i + 1) else mret tt
    else parse_loop n p raw (i + 1) tok
  end.

Definition parse_cmd (s p : Z) : U W unit :=
  _ ← change_mem (fun m => memset m p 0 SIZEOF_CMD_PARSE);
  m ← get_mem;
  slen ← lift (strlen fuel m s);
  if slen =? 0 then mret tt else
  raw ← sys_vmalloc 0 (slen + 1);
  _ ← store_field 8 (p + cp_raw) raw;
  _ ← not_null raw;
  _ ← change_mem (fun m => memset m raw 0 (slen + 1));
  _ ← change_mem (fun m => memcpy m raw s slen);
  parse_loop (S (Z.to_nat slen)) p raw 0 raw.

Definition read_line (indet : Z) : U W Z :=
  _ ← change_mem (fun m => memset m (input_buf img) 0 BUF_SIZE);
  _ ← scanf fuel indet (a_rbuf img) (lit "%s") [input_buf img];
  mret (input_buf img).

(** ** Running a program *)

Definition run_external (p : Z) : U W unit :=
  let path := a_path_ext img in
  a ← arg p 0;
  _ ← resolve_path a path BUF_SIZE;
  pid ← sys_fork;
  _ ← (if pid =? 0 then
         c ← cnt p;
         _ ← sys_execve path c (p + cp_args);
         _ ← dprintf fuel STDERR (lit "exec '%s' failed" ++ [10]) [path];
         sys_user_exit 0
       else mret tt);
  _ ← sys_wait pid;
  mret tt.

(** ** The loop *)

(** What is done with a parsed line. *)
Definition run_command (p : Z) : U W unit :=
  a ← arg p 0;
  f ← find_builtin a;
  match f with
  | Some f => run_builtin f p
  | None =>
    found ← try_resolve a (a_path img) BUF_SIZE;
    if ctrue found then run_external p
    else _ ← dprintf fuel STDERR (lit "%s: command not found" ++ [10]) [a]; mret tt
  end.

(** A line that was read: parsed, run and released, unless it is empty or has no words. *)
Definition run_line (line p : Z) : U W unit :=
  m ← get_mem;
  l ← lift (strlen fuel m line);
  if l =? 0 then mret tt else
  _ ← parse_cmd line p;
  c ← cnt p;
  if c =? 0 then mret tt else
  _ ← run_command p;
  parse_free p.

(** One turn of [while (1)]. *)
Definition main_turn (indet : Z) : U W unit :=
  c ← get_cwd;
  _ ← printf fuel (lit "%s$: ") [c];
  line ← read_line indet;
  run_line line (a_parse img).

Fixpoint main_loop (turns : nat) (indet : Z) : U W unit :=
  match turns with
  | O => mret tt
  | S turns => _ ← main_turn indet; main_loop turns indet
  end.
Definition main (turns : nat) (indet envp : Z) : U W unit := _ ← env_parse envp; main_loop turns indet.

(** ** [user/test1.c] *)

Definition test1_main : U W unit := _ ← printf fuel (lit "I am test1 program!" ++ [10]) []; mret tt.
End Shell.
