(* ===== verification/ShellProofs.v ===== *)
(** * The shell: the command line

    [parse_cmd] and [parse_free] of [user/shell.c] over the memory a kernel promises ([UserHeap]): the arguments are the
    words of the line, each in a block of its own, and every block is given back. *)

From Stdlib Require Import String Ascii.
From S2P Require Import Prelude KLib Kprint Libc LibcProofs UserLaws Shell.

(** ** The words of a line *)

Definition flush (cur : list Z) : list (list Z) := match cur with [] => [] | _ => [cur] end.
Fixpoint words_from (cur rest : list Z) : list (list Z) :=
  match rest with
  | [] => flush cur
  | c :: rest => if c =? 32 then flush cur ++ words_from [] rest else words_from (cur ++ [c]) rest
  end.
Definition words (line : list Z) : list (list Z) := words_from [] line.

(** Putting the words behind each other with a blank gives a line of the same words. *)
Lemma words_join ws :
  Forall (fun x => x <> [] /\ Forall (fun c => c <> 32) x) ws -> words (ws ≫= fun x => x ++ [32]) = ws.
Proof.
  unfold words. induction 1 as [|x ws [Hx Hb] _ IH]; [done|]. cbn [mbind list_bind].
  assert (forall y cur rest, Forall (fun c => c <> 32) y -> words_from cur (y ++ rest) = words_from (cur ++ y) rest) as Hw.
  { clear. induction y as [|c y IH]; intros cur rest Hy; simpl; [by rewrite app_nil_r|].
    apply Forall_cons in Hy as [Hc Hy]. rewrite (proj2 (Z.eqb_neq _ _) Hc), IH by done. by rewrite <- app_assoc. }
  rewrite <- app_assoc, Hw by done. cbn. destruct x; [done|]. cbn. f_equal. exact IH.
Qed.

(** ** The command line *)

(** The blocks of the arguments, each with its word. *)
Definition add_blocks (bs : gmap Z Z) (l : list (Z * list Z)) : gmap Z Z :=
  foldl (fun bs e => <[e.1 := Z.of_nat (length e.2) + 1]> bs) bs l.

Lemma add_blocks_snoc bs l a x : add_blocks bs (l ++ [(a, x)]) = <[a := Z.of_nat (length x) + 1]> (add_blocks bs l).
Proof. unfold add_blocks. by rewrite foldl_app. Qed.

Lemma add_blocks_other l : forall bs k, k ∉ l.*1 -> add_blocks bs l !! k = bs !! k.
Proof.
  unfold add_blocks. induction l as [|[a x] l IH]; intros bs k Hk; [done|]. cbn [foldl]. apply not_elem_of_cons in Hk as [Hne Hk].
  rewrite IH by done. cbn. by rewrite lookup_insert_ne.
Qed.

Lemma add_blocks_lookup l : forall bs a x,
  NoDup l.*1 -> (a, x) ∈ l -> add_blocks bs l !! a = Some (Z.of_nat (length x) + 1).
Proof.
  induction l as [|[b y] l IH]; intros bs a x Hnd Hin; [by apply not_elem_of_nil in Hin|].
  apply NoDup_cons in Hnd as [Hb Hnd]. apply elem_of_cons in Hin as [[= <- <-]|Hin].
  - cbn. fold (add_blocks (<[a := Z.of_nat (length x) + 1]> bs) l). rewrite add_blocks_other by done. by rewrite lookup_insert_eq.
  - by apply (IH _ a x).
Qed.

(** Arithmetic on the offsets of the structure. *)
Ltac struct_lia := unfold SIZEOF_CMD_PARSE, cp_raw, cp_args, cp_cnt in *; lia.

Section Parse.
Context {W : Type} `{UserHeap W} (fuel : nat).
Implicit Types w : W.
Context (w0 : W) (p : Z).
Hypothesis Himage : forall q, p <= q < p + SIZEOF_CMD_PARSE -> image q.

(** The structure at [p] holds the arguments [l] of a line of [slen] characters that is copied at [raw]; the blocks for
    them have been taken since [w0], and no byte outside the structure and these blocks has changed. *)
Record parsed (w : W) (raw slen : Z) (l : list (Z * list Z)) : Prop := {
  ps_heap : heap_ok w;
  ps_blocks : blocks w = add_blocks (<[raw := slen + 1]> (blocks w0)) l;
  ps_pos : Forall (fun a => a <> 0) l.*1;
  ps_fresh : NoDup (raw :: l.*1) /\ Forall (fun a => blocks w0 !! a = None) (raw :: l.*1);
  ps_avail : avail w0 = (avail w + S (length l))%nat;
  ps_raw : field (user_mem w) 8 (p + cp_raw) = raw;
  ps_cnt : field (user_mem w) 4 (p + cp_cnt) = Z.of_nat (length l);
  ps_len : (length l <= 16)%nat;
  ps_args : forall i a x, l !! i = Some (a, x) ->
    field (user_mem w) 8 (p + cp_args + 8 * Z.of_nat i) = a /\ cstr (user_mem w) a x;
  ps_frame : forall q, owned w0 q -> ~ (p <= q < p + SIZEOF_CMD_PARSE) -> user_mem w q = user_mem w0 q;
}.

Lemma parsed_sub w raw slen l : parsed w raw slen l -> blocks w0 ⊆ blocks w.
Proof.
  intros [_ -> _ [_ Hf] _ _ _ _ _ _]. apply map_subseteq_spec. intros k n Hk. rewrite Forall_forall in Hf.
  rewrite add_blocks_other, lookup_insert_ne; [done|..].
  - intros ->. rewrite Hf in Hk; [done|left].
  - intros Hin. rewrite Hf in Hk; [done|by right].
Qed.

Lemma parsed_raw_block w raw slen l : parsed w raw slen l -> blocks w !! raw = Some (slen + 1).
Proof.
  intros [_ -> _ [Hnd _] _ _ _ _ _ _]. apply NoDup_cons in Hnd as [Hr _].
  rewrite add_blocks_other by done. by rewrite lookup_insert_eq.
Qed.
Lemma parsed_arg_block w raw slen l i a x :
  parsed w raw slen l -> l !! i = Some (a, x) -> blocks w !! a = Some (Z.of_nat (length x) + 1) /\ a <> raw.
Proof.
  intros [_ -> _ [Hnd _] _ _ _ _ _ _] Hi. apply NoDup_cons in Hnd as [Hr Hnd].
  pose proof (list_elem_of_lookup_2 _ _ _ Hi) as Hin. split; [by apply add_blocks_lookup|].
  intros ->. apply Hr. apply list_elem_of_fmap. by exists (raw, x).
Qed.

(** A block has no byte of the structure. *)
Lemma block_off_struct w a n q :
  heap_ok w -> blocks w !! a = Some n -> a <= q < a + n -> ~ (p <= q < p + SIZEOF_CMD_PARSE).
Proof. intros Hok Ha Hq Hp. eapply blocks_image; eauto. Qed.

(** Stores into the copied line keep everything else. *)
Lemma parsed_store_raw w raw slen l m :
  parsed w raw slen l -> (forall q, ~ (raw <= q < raw + slen + 1) -> m q = user_mem w q) ->
  parsed (with_user_mem m w) raw slen l.
Proof.
  intros Hp Hm. pose proof (parsed_raw_block _ _ _ _ Hp) as Hraw.
  assert (forall q, p <= q < p + SIZEOF_CMD_PARSE -> m q = user_mem w q) as Hs.
  { intros q Hq. apply Hm. intros Hq'. eapply (block_off_struct w raw (slen + 1) q); [apply Hp|done|lia|done]. }
  constructor; rewrite ?user_mem_with, ?blocks_with, ?avail_with; try apply Hp.
  - apply heap_ok_with, Hp.
  - erewrite field_ext; [apply (ps_raw _ _ _ _ Hp)|]. intros q Hq. apply Hs. unfold SIZEOF_CMD_PARSE, cp_raw in *. lia.
  - erewrite field_ext; [apply (ps_cnt _ _ _ _ Hp)|]. intros q Hq. apply Hs. unfold SIZEOF_CMD_PARSE, cp_cnt in *. lia.
  - intros i a x Hi. destruct (ps_args _ _ _ _ Hp i a x Hi) as [Hf Hc]. pose proof (ps_len _ _ _ _ Hp).
    pose proof (lookup_lt_Some _ _ _ Hi). split.
    + rewrite <- Hf. apply field_ext. intros q Hq. apply Hs. unfold SIZEOF_CMD_PARSE, cp_args in *. lia.
    + destruct (parsed_arg_block _ _ _ _ _ _ _ Hp Hi) as [Hb Hne]. eapply cstr_ext; [|exact Hc]. intros q Hq.
      apply Hm. pose proof (blocks_apart w a _ raw _ (ps_heap _ _ _ _ Hp) Hb Hraw Hne). lia.
  - intros q Ho Hq. rewrite Hm; [by apply Hp|]. destruct (ps_fresh _ _ _ _ Hp) as [_ Hf]. apply Forall_cons in Hf as [Hf _].
    pose proof (owned_not_new w0 w raw _ q (ps_heap _ _ _ _ Hp) (parsed_sub _ _ _ _ Hp) Ho Hraw Hf). lia.
Qed.

Lemma runs_cnt_field w v : field (user_mem w) 4 (p + cp_cnt) = v -> 0 <= v < 2 ^ 31 -> runs (cnt p) w v w.
Proof. intros <- Hv. eapply runs_bind; [apply runs_load_field|]. cbv beta. rewrite i32_small by lia. done. Qed.

Lemma runs_cnt w raw slen l : parsed w raw slen l -> runs (cnt p) w (Z.of_nat (length l)) w.
Proof.
  intros Hp. pose proof (ps_len _ _ _ _ Hp). apply runs_cnt_field; [apply Hp|lia].
Qed.

(** The memory that [add_arg] leaves. *)
Definition arg_copied (m : memory) (c a tok : Z) (x : list Z) : memory :=
  let n := Z.of_nat (length x) in
  let m := store_bytes m (p + cp_args + 8 * c) (Z_to_little_endian 8 8 a) in
  memcpy (memset m a 0 (n + 1)) a tok n.
Definition arg_memory (m : memory) (c a tok : Z) (x : list Z) : memory :=
  store_bytes (arg_copied m c a tok x) (p + cp_cnt) (Z_to_little_endian 4 8 (c + 1)).

Lemma arg_memory_spec m c a tok x :
  0 <= c < 16 -> 0 < a < 2 ^ 64 -> cstr m tok x ->
  (forall q, a <= q < a + Z.of_nat (length x) + 1 -> ~ (p <= q < p + SIZEOF_CMD_PARSE)) ->
  (forall q, tok <= q <= tok + Z.of_nat (length x) ->
     ~ (a <= q < a + Z.of_nat (length x) + 1) /\ ~ (p <= q < p + SIZEOF_CMD_PARSE)) ->
  let m' := arg_memory m c a tok x in
  cstr m' a x /\
  field (arg_copied m c a tok x) 4 (p + cp_cnt) = field m 4 (p + cp_cnt) /\
  field m' 8 (p + cp_args + 8 * c) = a /\ field m' 4 (p + cp_cnt) = c + 1 /\
  (forall q, ~ (a <= q < a + Z.of_nat (length x) + 1) -> ~ (p + cp_args + 8 * c <= q < p + cp_args + 8 * c + 8) ->
     ~ (p + cp_cnt <= q < p + cp_cnt + 4) -> m' q = m q).
Proof.
  intros Hc Ha Hx Hst Htok m'. unfold SIZEOF_CMD_PARSE in *. set (n := Z.of_nat (length x)) in *.
  set (m2 := store_bytes m (p + cp_args + 8 * c) (Z_to_little_endian 8 8 a)).
  set (m4 := memcpy (memset m2 a 0 (n + 1)) a tok n).
  assert (forall q, m4 q = if decide (a <= q < a + n) then m (tok + (q - a))
                           else if decide (q = a + n) then 0 else m2 q) as H4.
  { intros q. unfold m4. rewrite memcpy_copied_user.
    2:{ subst n. lia. }
    2:{ destruct (decide (a <= tok)); [by left|right]. pose proof (Htok tok). pose proof (Htok a). lia. }
    assert (forall q, tok <= q <= tok + n -> m2 q = m q) as H2.
    { intros q' Hq'. apply store_bytes_outside. rewrite length_Z_to_little_endian by lia.
      pose proof (Htok q' Hq'). unfold cp_args. lia. }
    rewrite !memset_spec by (subst n; lia). case_decide.
    - rewrite decide_False; [apply H2; lia|]. pose proof (Htok (tok + (q - a))). lia.
    - destruct (decide (q = a + n)) as [->|]; [by rewrite decide_True by lia|by rewrite decide_False by lia]. }
  assert (forall q, p <= q < p + 144 -> m4 q = m2 q) as Hst4.
  { intros q Hq. rewrite H4. rewrite !decide_False; [done|..]; intros ?; eapply (Hst q); lia. }
  split_and!.
  - apply (cstr_ext m4).
    { intros q Hq. apply store_bytes_outside. rewrite length_Z_to_little_endian by lia. pose proof (Hst q).
      unfold cp_cnt. subst n. lia. }
    apply cstr_intro.
    + intros i ch Hi. pose proof (lookup_lt_Some _ _ _ Hi). rewrite H4, decide_True by (subst n; lia).
      replace (tok + (a + Z.of_nat i - a)) with (tok + Z.of_nat i) by lia. by eapply cstr_lookup.
    + rewrite H4, decide_False, decide_True by (subst n; lia). done.
  - transitivity (field m2 4 (p + cp_cnt)).
    + apply field_ext. intros q Hq. apply Hst4. unfold cp_cnt in *. lia.
    + apply field_store_ne; unfold cp_args, cp_cnt; lia.
  - unfold m', arg_memory. rewrite field_store_ne by (unfold cp_args, cp_cnt; lia).
    unfold arg_copied. fold n m2 m4. rewrite (field_ext m2); [apply field_store; lia|]. intros q Hq. apply Hst4. unfold cp_args in *. lia.
  - unfold m', arg_memory. apply field_store; lia.
  - intros q H1 H2 H3. unfold m', arg_memory. rewrite store_bytes_outside by (by rewrite length_Z_to_little_endian by lia).
    unfold arg_copied. fold n m2 m4. rewrite H4, !decide_False by lia.
    apply store_bytes_outside. by rewrite length_Z_to_little_endian by lia.
Qed.

Lemma add_arg_run w w1 a c tok x :
  runs (sys_vmalloc 0 (Z.of_nat (length x) + 1)) w a w1 -> 0 < a < 2 ^ 64 -> heap_ok w1 ->
  field (user_mem w1) 4 (p + cp_cnt) = c -> 0 <= c < 16 ->
  field (arg_copied (user_mem w1) c a tok x) 4 (p + cp_cnt) = c ->
  field (arg_memory (user_mem w1) c a tok x) 4 (p + cp_cnt) = c + 1 ->
  exists w', runs (add_arg p tok (Z.of_nat (length x))) w (c + 1 <? MAX_ARGS) w' /\
    user_mem w' = arg_memory (user_mem w1) c a tok x /\ blocks w' = blocks w1 /\ avail w' = avail w1 /\ heap_ok w'.
Proof.
  intros Hr Ha Hok Hc Hrange Hmid Hlast. eexists. split.
  { unfold add_arg. eapply runs_bind; [exact Hr|]. cbv beta.
    eapply runs_bind; [by apply runs_cnt_field; [exact Hc|lia]|]. cbv beta.
    eapply runs_bind; [apply runs_store_field|]. cbv beta.
    eapply runs_bind; [apply runs_not_null; lia|]. cbv beta.
    do 2 (eapply runs_bind; [apply runs_change_mem|]; cbv beta). rewrite !user_mem_with.
    eapply runs_bind; [apply (runs_cnt_field _ c); [|lia]|].
    { rewrite user_mem_with. exact Hmid. }
    cbv beta. eapply runs_bind; [apply runs_store_field|]. cbv beta. rewrite !user_mem_with.
    eapply runs_bind; [apply (runs_cnt_field _ (c + 1)); [|lia]|].
    { rewrite user_mem_with. exact Hlast. }
    apply runs_ret. }
  rewrite !user_mem_with, !blocks_with, !avail_with. split_and!; [done..|]. by repeat apply heap_ok_with.
Qed.

(** One more argument. *)
Lemma parsed_snoc w w' raw slen l a x :
  let n := Z.of_nat (length x) in
  let c := Z.of_nat (length l) in
  parsed w raw slen l -> (length l < 16)%nat ->
  heap_ok w' -> a <> 0 -> blocks w !! a = None -> blocks w' = <[a := n + 1]> (blocks w) -> avail w = S (avail w') ->
  cstr (user_mem w') a x -> field (user_mem w') 8 (p + cp_args + 8 * c) = a -> field (user_mem w') 4 (p + cp_cnt) = c + 1 ->
  (forall q, ~ (a <= q < a + n + 1) -> ~ (p + cp_args + 8 * c <= q < p + cp_args + 8 * c + 8) ->
     ~ (p + cp_cnt <= q < p + cp_cnt + 4) -> user_mem w' q = user_mem w q) ->
  parsed w' raw slen (l ++ [(a, x)]).
Proof.
  intros n c Hp Hl Hok Hnz Hfr Hb Hav Hcs Hfa Hfc Hout. destruct (ps_fresh _ _ _ _ Hp) as [Hnd Hfresh].
  assert (blocks w' !! a = Some (n + 1)) as Hab by (rewrite Hb; by rewrite lookup_insert_eq).
  assert (a ∉ raw :: l.*1) as Hnin.
  { intros [->|Hin]%elem_of_cons; [by rewrite (parsed_raw_block _ _ _ _ Hp) in Hfr|].
    apply list_elem_of_fmap in Hin as ([a' y] & -> & Hin).
    apply list_elem_of_lookup_1 in Hin as [i Hi]. destruct (parsed_arg_block _ _ _ _ _ _ _ Hp Hi). simpl in *. congruence. }
  assert (blocks w0 !! a = None) as Ha0.
  { rewrite (ps_blocks _ _ _ _ Hp) in Hfr. apply not_elem_of_cons in Hnin as [Hn1 Hn2].
    rewrite add_blocks_other, lookup_insert_ne in Hfr by done. done. }
  assert (forall q, p <= q < p + SIZEOF_CMD_PARSE -> ~ (p + cp_args + 8 * c <= q < p + cp_args + 8 * c + 8) ->
            ~ (p + cp_cnt <= q < p + cp_cnt + 4) -> user_mem w' q = user_mem w q) as Hsm.
  { intros q H1 H2 H3. apply Hout; [|done..]. intros ?. by apply (block_off_struct w' a (n + 1) q); [..|lia|]. }
  constructor.
  - done.
  - rewrite add_blocks_snoc, Hb. fold n. by rewrite (ps_blocks _ _ _ _ Hp).
  - rewrite fmap_app. apply Forall_app. split; [apply Hp|by constructor].
  - rewrite fmap_app. change (raw :: l.*1 ++ [(a, x)].*1) with ((raw :: l.*1) ++ [a]). split.
    + apply NoDup_app. split_and!; [done| |apply NoDup_singleton]. intros b Hb' ->%list_elem_of_singleton. done.
    + apply Forall_app. split; [done|]. by constructor.
  - rewrite length_app. simpl. pose proof (ps_avail _ _ _ _ Hp). lia.
  - rewrite <- (ps_raw _ _ _ _ Hp). apply field_ext. intros q Hq. apply Hsm; struct_lia.
  - rewrite Hfc, length_app. unfold c. simpl. lia.
  - rewrite length_app. simpl. lia.
  - intros i b y Hi. apply lookup_app_Some in Hi as [Hi|[Hge Hi]].
    + pose proof (lookup_lt_Some _ _ _ Hi). destruct (ps_args _ _ _ _ Hp i b y Hi) as [Hf Hc]. split.
      * rewrite <- Hf. apply field_ext. intros q Hq. apply Hsm; unfold c; struct_lia.
      * destruct (parsed_arg_block _ _ _ _ _ _ _ Hp Hi) as [Hby _]. assert (b <> a) as Hba by congruence.
        assert (blocks w' !! b = Some (Z.of_nat (length y) + 1)) as Hb2 by (by rewrite Hb, lookup_insert_ne).
        pose proof (blocks_apart w' b _ a _ Hok Hb2 Hab Hba). eapply cstr_ext; [|exact Hc]. intros q Hq.
        pose proof (block_off_struct w' b _ q Hok Hb2 ltac:(lia)) as Hoff. apply Hout; unfold c in *; struct_lia.
    + destruct (i - length l)%nat eqn:E; [|done]. simpl in Hi. simplify_eq. assert (i = length l) as -> by lia. done.
  - intros q Ho Hq. rewrite Hout; [by apply Hp|..|unfold c in *; struct_lia|struct_lia].
    assert (blocks w0 ⊆ blocks w') as Hsub.
    { rewrite Hb. apply insert_subseteq_r; [done|]. by eapply parsed_sub. }
    pose proof (owned_not_new w0 w' a _ q Hok Hsub Ho Hab Ha0). lia.
Qed.

Lemma runs_add_arg w raw slen l tok x :
  parsed w raw slen l -> (length l < 16)%nat -> cstr (user_mem w) tok x ->
  raw <= tok -> tok + Z.of_nat (length x) <= raw + slen -> Z.of_nat (length x) + 1 < 2 ^ 31 -> (0 < avail w)%nat ->
  exists a w', runs (add_arg p tok (Z.of_nat (length x))) w (Z.of_nat (length l) + 1 <? MAX_ARGS) w' /\
    parsed w' raw slen (l ++ [(a, x)]) /\
    (forall q, raw <= q < raw + slen + 1 -> user_mem w' q = user_mem w q).
Proof.
  intros Hp Hl Hx Hlo Hhi Hsz Hav. set (n := Z.of_nat (length x)) in *. set (c := Z.of_nat (length l)).
  destruct (runs_vmalloc w (n + 1) (ps_heap _ _ _ _ Hp)) as (a & w1 & Hr & Ha & Hok1 & Hfr & Hb1 & Hav1 & Hm1); [lia|done|].
  pose proof (parsed_raw_block _ _ _ _ Hp) as Hraw. assert (a <> raw) as Hne by congruence.
  assert (blocks w1 !! a = Some (n + 1)) as Hab by (rewrite Hb1; by rewrite lookup_insert_eq).
  assert (blocks w1 !! raw = Some (slen + 1)) as Hraw1 by (rewrite Hb1, lookup_insert_ne by done; done).
  pose proof (blocks_apart w1 a _ raw _ Hok1 Hab Hraw1 Hne) as Hap.
  assert (forall q, a <= q < a + n + 1 -> ~ (p <= q < p + SIZEOF_CMD_PARSE)) as Hst.
  { intros q Hq. apply (block_off_struct w1 a (n + 1)); [done..|lia]. }
  assert (forall q, raw <= q < raw + slen + 1 -> ~ (p <= q < p + SIZEOF_CMD_PARSE)) as Hstr.
  { intros q Hq. apply (block_off_struct w1 raw (slen + 1)); [done..|lia]. }
  destruct (arg_memory_spec (user_mem w1) c a tok x) as (Hcs & Hmid & Hfa & Hfc & Hout).
  { subst c. lia. }
  { done. }
  { eapply cstr_ext; [|exact Hx]. intros q Hq. apply Hm1. fold n in Hq. lia. }
  { intros q Hq. apply Hst. fold n in Hq. lia. }
  { intros q Hq. fold n in Hq |- *. split; [lia|apply Hstr; lia]. }
  assert (field (user_mem w1) 4 (p + cp_cnt) = c) as Hc1.
  { unfold c. rewrite <- (ps_cnt _ _ _ _ Hp). apply field_ext. intros q Hq. apply Hm1. intros Hq'. apply (Hst q); struct_lia. }
  destruct (add_arg_run w w1 a c tok x) as (w' & Hrun & Hm' & Hb' & Ha' & Hok'); [done..|subst c; lia|by rewrite Hmid|done|].
  exists a, w'. split_and!; [done| |].
  - apply (parsed_snoc w); rewrite ?Hm', ?Hb', ?Ha'; [done|done|done|lia|done..|]. intros q H1 H2 H3. rewrite Hout, Hm1 by (done || (fold n in H1; lia)). done.
  - intros q Hq. pose proof (Hstr q Hq). rewrite Hm', Hout, Hm1; [done|..]; fold n; unfold c in *; struct_lia.
Qed.

(** The characters [l] at [q], as they are stored. *)
Definition chars (m : memory) (q : Z) (l : list Z) : Prop := forall j c, l !! j = Some c -> m (q + Z.of_nat j) = c.

Definition text_char (c : Z) : Prop := 0 < c < 256.

Lemma chars_cstr m q x : chars m q (x ++ [0]) -> Forall text_char x -> cstr m q x.
Proof.
  intros Hm Hx. apply cstr_intro.
  - intros i c Hi. split; [apply Hm; by apply lookup_app_l_Some|]. exact (Forall_lookup_1 _ _ _ _ Hx Hi).
  - apply Hm. by rewrite lookup_app_r, Nat.sub_diag by lia.
Qed.

(** The end of a word: the separator is overwritten and the word, if it has characters, becomes an argument; whether the
    loop goes on. *)
Lemma end_of_word w raw slen l cur i tok :
  parsed w raw slen l -> (length l < 16)%nat -> Forall text_char cur -> chars (user_mem w) tok cur ->
  raw <= tok -> tok + Z.of_nat (length cur) = raw + i -> i <= slen -> slen + 1 < 2 ^ 31 -> (length cur < fuel)%nat ->
  (length (flush cur) <= avail w)%nat ->
  exists l1 w', runs (end_word fuel p raw i tok) w (Z.of_nat (length (l ++ l1)) <? MAX_ARGS) w' /\ l1.*2 = flush cur /\
    parsed w' raw slen (l ++ l1) /\
    (forall q, raw + i < q < raw + slen + 1 -> user_mem w' q = user_mem w q).
Proof.
  intros Hp Hl Hc Hm Hlo Hi His Hsl Hf Hav.
  set (w1 := with_user_mem (upd (user_mem w) (raw + i) 0) w).
  assert (parsed w1 raw slen l) as Hp1.
  { apply parsed_store_raw; [done|]. intros q Hq. unfold upd. rewrite (proj2 (Z.eqb_neq _ _)); [done|lia]. }
  assert (cstr (user_mem w1) tok cur) as Hcs.
  { unfold w1. rewrite user_mem_with. apply chars_cstr; [|done]. intros j c Hj. unfold upd.
    apply lookup_app_Some in Hj as [Hj|[Hge Hj]].
    - pose proof (lookup_lt_Some _ _ _ Hj). rewrite (proj2 (Z.eqb_neq _ _)) by lia. by apply Hm.
    - destruct (j - length cur)%nat eqn:E; [|done]. simplify_eq/=.
      by rewrite (proj2 (Z.eqb_eq _ _)) by lia. }
  assert (forall q, raw + i < q < raw + slen + 1 -> user_mem w1 q = user_mem w q) as Hq1.
  { intros q Hq. unfold w1. rewrite user_mem_with. unfold upd. rewrite (proj2 (Z.eqb_neq _ _)); [done|lia]. }
  destruct cur as [|ch cur'] eqn:Ecur.
  - exists [], w1. rewrite app_nil_r. split_and!; [|done..].
    unfold end_word. do 2 run_step. eapply runs_bind; [by apply runs_lift, (user_strlen_cstr fuel _ tok []); [exact Hcs|]|].
    cbn [length]. rewrite (proj2 (Z.ltb_lt (Z.of_nat (length l)) MAX_ARGS)) by (unfold MAX_ARGS; lia). apply runs_ret.
  - rewrite <- Ecur in *. destruct (runs_add_arg w1 raw slen l tok cur) as (a & w' & Hr & Hp' & Hq'); [done|done|done|done|..].
    + lia.
    + lia.
    + unfold w1. rewrite avail_with. rewrite Ecur in Hav. simpl in Hav. lia.
    + exists [(a, cur)], w'. split_and!; [|by rewrite Ecur|done|].
      * unfold end_word. do 2 run_step. eapply runs_bind; [by apply runs_lift, (user_strlen_cstr fuel _ tok cur)|].
        rewrite (proj2 (Z.ltb_lt 0 _)) by (rewrite Ecur; simpl; lia). rewrite length_app.
        replace (Z.of_nat (length l + length [(a, cur)])) with (Z.of_nat (length l) + 1) by (simpl; lia). exact Hr.
      * intros q Hq. rewrite Hq', Hq1 by lia. done.
Qed.

Lemma runs_parse_loop raw slen rest : forall w l cur i tok,
  parsed w raw slen l -> (length l < 16)%nat ->
  Forall text_char (cur ++ rest) -> chars (user_mem w) tok (cur ++ rest ++ [0]) ->
  raw <= tok -> tok + Z.of_nat (length cur) = raw + i -> i + Z.of_nat (length rest) = slen -> slen + 1 < 2 ^ 31 ->
  (length (cur ++ rest) < fuel)%nat -> (length (take (16 - length l) (words_from cur rest)) <= avail w)%nat ->
  exists l1 w', runs (parse_loop fuel (S (length rest)) p raw i tok) w tt w' /\
    l1.*2 = take (16 - length l) (words_from cur rest) /\ parsed w' raw slen (l ++ l1).
Proof.
  induction rest as [|c rest IH]; intros w l cur i tok Hp Hl Hc Hm Hlo Hi His Hsl Hf Hav.
  - rewrite app_nil_r in *. destruct (end_of_word w raw slen l cur i tok) as (l1 & w' & Hr & Hl1 & Hp' & _); try done.
    { intros j c Hj. apply Hm. simpl. by apply lookup_app_l_Some. }
    { simpl in His. lia. }
    { cbn [words_from] in Hav. destruct cur; simpl in *; [lia|]. destruct (16 - length l)%nat eqn:E; simpl in Hav; lia. }
    exists l1, w'. split_and!; [|rewrite Hl1; cbn [words_from]; symmetry; apply take_ge|done].
    + cbn [parse_loop]. run_step. replace (user_mem w (raw + i)) with 0.
      2:{ rewrite <- Hi. symmetry. apply Hm. by rewrite lookup_app_r, Nat.sub_diag by lia. }
      cbn [Z.eqb orb]. eapply runs_bind; [exact Hr|]. cbv beta. by destruct (_ <? _).
    + destruct cur; simpl; lia.
  - assert (user_mem w (raw + i) = c) as Hch.
    { rewrite <- Hi. apply Hm. by rewrite lookup_app_r, Nat.sub_diag by lia. }
    pose proof (proj1 (Forall_app _ _ _) Hc) as [Hcc Hcr]. apply Forall_cons in Hcr as [Hc0 Hcr].
    change (S (length (c :: rest))) with (S (S (length rest))). cbn [words_from] in Hav |- *.
    rewrite length_app in Hf. cbn [length] in His, Hf.
    destruct (Z.eqb_spec c 32) as [->|Hne].
    + destruct (end_of_word w raw slen l cur i tok) as (l1 & w1 & Hr & Hl1 & Hp1 & Hq1); try done; try lia.
      { intros j c Hj. apply Hm. by apply lookup_app_l_Some. }
      { rewrite length_take, length_app in Hav. destruct cur; simpl in *; lia. }
      pose proof (f_equal length Hl1) as Hlen1. rewrite length_fmap in Hlen1.
      assert (length (flush cur) <= 1)%nat by (destruct cur; simpl; lia).
      destruct (Z.ltb_spec (Z.of_nat (length (l ++ l1))) MAX_ARGS) as [Hlt|Hge]; unfold MAX_ARGS in *; rewrite length_app in *.
      * destruct (IH w1 (l ++ l1) [] (i + 1) (raw + i + 1)) as (l2 & w2 & Hr2 & Hl2 & Hp2); try done.
        { rewrite length_app. lia. }
        { intros j d Hj. simpl in Hj. rewrite Hq1.
          - replace (raw + i + 1 + Z.of_nat j) with (tok + Z.of_nat (length cur + S j)) by lia. apply Hm.
            rewrite lookup_app_r by lia. by replace (length cur + S j - length cur)%nat with (S j) by lia.
          - apply lookup_lt_Some in Hj. rewrite length_app in Hj. simpl in Hj. lia. }
        { lia. }
        { simpl. lia. }
        { lia. }
        { simpl. lia. }
        { pose proof (ps_avail _ _ _ _ Hp). pose proof (ps_avail _ _ _ _ Hp1) as Hav1. rewrite length_app in Hav1.
          rewrite length_take, length_app in *. lia. }
        exists (l1 ++ l2), w2. split_and!.
        -- cbn [parse_loop]. run_step. rewrite Hch. change ((32 =? 32) || (32 =? 0)) with true. cbv iota.
           eapply runs_bind; [exact Hr|]. cbv beta.
           exact Hr2.
        -- rewrite fmap_app, Hl1, Hl2, take_app, length_app. f_equal.
           ++ symmetry. apply take_ge. lia.
           ++ f_equal. lia.
        -- by rewrite app_assoc.
      * exists l1, w1. split_and!; [| |done].
        -- cbn [parse_loop]. run_step. rewrite Hch. change ((32 =? 32) || (32 =? 0)) with true. cbv iota.
           eapply runs_bind; [exact Hr|]. cbv beta.
           apply runs_ret.
        -- rewrite Hl1, take_app, (take_ge (flush cur)) by lia.
           replace (16 - length l - length (flush cur))%nat with 0%nat by lia. by rewrite take_0, app_nil_r.
    + destruct (IH w l (cur ++ [c]) (i + 1) tok) as (l1 & w' & Hr & Hl1 & Hp'); try done.
      { by rewrite <- app_assoc. }
      { by rewrite <- app_assoc. }
      { rewrite length_app. simpl. lia. }
      { lia. }
      { rewrite !length_app. simpl. lia. }
      exists l1, w'. split_and!; [|done..]. cbn [parse_loop]. run_step. rewrite Hch.
      unfold text_char in Hc0. rewrite (proj2 (Z.eqb_neq c 32)), (proj2 (Z.eqb_neq c 0)) by lia. exact Hr.
Qed.

(** The state in front of the loop. *)
Lemma parsed_nil w raw slen :
  heap_ok w -> blocks w0 !! raw = None -> blocks w = <[raw := slen + 1]> (blocks w0) -> avail w0 = S (avail w) ->
  field (user_mem w) 8 (p + cp_raw) = raw -> field (user_mem w) 4 (p + cp_cnt) = 0 ->
  (forall q, ~ (p <= q < p + SIZEOF_CMD_PARSE) -> ~ (raw <= q < raw + (slen + 1)) -> user_mem w q = user_mem w0 q) ->
  parsed w raw slen [].
Proof.
  intros Hok Hfr Hb Hav Hraw Hcnt Hm.
  assert (blocks w !! raw = Some (slen + 1)) as Hrb by (rewrite Hb; by rewrite lookup_insert_eq).
  constructor; try done.
  - split; [apply NoDup_singleton|by constructor].
  - simpl. lia.
  - simpl. lia.
  - intros q Ho Hq. apply Hm; [done|]. eapply (owned_not_new w0 w raw); try done. rewrite Hb. by apply insert_subseteq.
Qed.

Lemma field_zero m n q : 0 <= n -> (forall x, q <= x < q + n -> m x = 0) -> field m n q = 0.
Proof.
  intros Hn Hm. unfold field. replace (m <$> seqZ q n) with (replicate (Z.to_nat n) 0).
  - generalize (Z.to_nat n). induction n0 as [|k IH]; [done|]. cbn [replicate little_endian_to_Z]. by rewrite IH.
  - apply replicate_as_elem_of. split; [by rewrite length_fmap, length_seqZ|].
    intros x Hx. apply list_elem_of_fmap in Hx as (y & -> & Hy). apply elem_of_seqZ in Hy. apply Hm. lia.
Qed.

(** The copy of the line. *)
Definition line_memory (m : memory) (raw s n : Z) : memory :=
  memcpy (memset (store_bytes m (p + cp_raw) (Z_to_little_endian 8 8 raw)) raw 0 (n + 1)) raw s n.

Lemma line_memory_spec m raw s line :
  let n := Z.of_nat (length line) in
  0 < raw < 2 ^ 64 -> cstr m s line ->
  (forall q, raw <= q < raw + (n + 1) -> ~ (p <= q < p + SIZEOF_CMD_PARSE)) ->
  (forall q, s <= q <= s + n -> ~ (raw <= q < raw + (n + 1)) /\ ~ (p <= q < p + SIZEOF_CMD_PARSE)) ->
  let m' := line_memory m raw s n in
  chars m' raw (line ++ [0]) /\ field m' 8 (p + cp_raw) = raw /\
  (forall q, ~ (raw <= q < raw + (n + 1)) -> ~ (p + cp_raw <= q < p + cp_raw + 8) -> m' q = m q).
Proof.
  intros n Hraw Hs Hst Hsrc m'. set (m3 := store_bytes m (p + cp_raw) (Z_to_little_endian 8 8 raw)).
  assert (forall q, ~ (p + cp_raw <= q < p + cp_raw + 8) -> m3 q = m q) as H3.
  { intros q Hq. apply store_bytes_outside. by rewrite length_Z_to_little_endian by lia. }
  assert (forall q, m' q = if decide (raw <= q < raw + n) then m (s + (q - raw))
                           else if decide (q = raw + n) then 0 else m3 q) as H5.
  { intros q. unfold m', line_memory. fold m3. rewrite memcpy_copied_user; [|lia|].
    2:{ destruct (decide (raw <= s)); [by left|right]. pose proof (Hsrc raw). lia. }
    rewrite !memset_spec by lia. case_decide.
    - destruct (Hsrc (s + (q - raw))) as [Hs1 Hs2]; [lia|]. rewrite decide_False by lia. apply H3. struct_lia.
    - destruct (decide (q = raw + n)); [by rewrite decide_True by lia|by rewrite decide_False by lia]. }
  split_and!.
  - intros j c Hj. rewrite H5. apply lookup_app_Some in Hj as [Hj|[Hge Hj]].
    + pose proof (lookup_lt_Some _ _ _ Hj). rewrite decide_True by lia.
      replace (s + (raw + Z.of_nat j - raw)) with (s + Z.of_nat j) by lia. by eapply cstr_lookup.
    + destruct (j - length line)%nat eqn:E; [|done]. simplify_eq/=. rewrite decide_False, decide_True by lia. done.
  - rewrite (field_ext m3); [apply field_store; lia|]. intros q Hq. rewrite H5. pose proof (Hst q).
    rewrite !decide_False by struct_lia. done.
  - intros q H1 H2. rewrite H5, !decide_False by lia. by apply H3.
Qed.

(** The statements in front of the loop. *)
Lemma parse_cmd_run w1 w2 s raw line :
  let n := Z.of_nat (length line) in
  runs (change_mem (fun m => memset m p 0 SIZEOF_CMD_PARSE)) w0 tt w1 ->
  cstr (user_mem w1) s line -> line <> [] -> (length line < fuel)%nat ->
  runs (sys_vmalloc 0 (n + 1)) w1 raw w2 -> 0 < raw < 2 ^ 64 -> heap_ok w2 ->
  exists w, user_mem w = line_memory (user_mem w2) raw s n /\ blocks w = blocks w2 /\ avail w = avail w2 /\ heap_ok w /\
    forall b w', runs (parse_loop fuel (S (length line)) p raw 0 raw) w b w' -> runs (parse_cmd fuel s p) w0 b w'.
Proof.
  intros n Hr1 Hs Hne Hf Hr Hraw Hok. eexists. split_and!.
  5:{ intros b w' Hloop. unfold parse_cmd. eapply runs_bind; [exact Hr1|]. cbv beta. run_step.
      eapply runs_bind; [by apply runs_lift, (user_strlen_cstr fuel _ s line)|].
      cbv beta. fold n. rewrite (proj2 (Z.eqb_neq n 0)) by (subst n; destruct line; simpl; [done|lia]).
      eapply runs_bind; [exact Hr|]. cbv beta. eapply runs_bind; [apply runs_store_field|]. cbv beta.
      eapply runs_bind; [apply runs_not_null; lia|]. cbv beta. do 2 run_step. rewrite !user_mem_with.
      replace (Z.to_nat n) with (length line) by (subst n; lia). exact Hloop. }
  - by rewrite user_mem_with.
  - by rewrite !blocks_with.
  - by rewrite !avail_with.
  - by repeat apply heap_ok_with.
Qed.

Lemma runs_parse_cmd s line :
  let n := Z.of_nat (length line) in
  heap_ok w0 -> cstr (user_mem w0) s line -> line <> [] -> (length line < fuel)%nat -> n + 1 < 2 ^ 31 ->
  (forall q, s <= q <= s + n -> image q /\ ~ (p <= q < p + SIZEOF_CMD_PARSE)) ->
  (length (take 16 (words line)) < avail w0)%nat ->
  exists raw l w, runs (parse_cmd fuel s p) w0 tt w /\ l.*2 = take 16 (words line) /\ parsed w raw n l.
Proof.
  intros n Hok Hs Hne Hf Hn Hsrc Hav.
  set (w1 := with_user_mem (memset (user_mem w0) p 0 SIZEOF_CMD_PARSE) w0).
  assert (forall q, user_mem w1 q = if decide (p <= q < p + SIZEOF_CMD_PARSE) then 0 else user_mem w0 q) as Hm1.
  { intros q. unfold w1. rewrite user_mem_with, memset_spec; [done|struct_lia]. }
  assert (cstr (user_mem w1) s line) as Hs1.
  { eapply cstr_ext; [|exact Hs]. intros q Hq. rewrite Hm1, decide_False; [done|]. by apply Hsrc. }
  destruct (runs_vmalloc w1 (n + 1)) as (raw & w2 & Hr2 & Hraw & Hok2 & Hfr & Hb2 & Hav2 & Hm2).
  { by apply heap_ok_with. }
  { lia. }
  { unfold w1. rewrite avail_with. lia. }
  unfold w1 in Hb2, Hav2, Hfr. rewrite blocks_with in Hb2, Hfr. rewrite avail_with in Hav2.
  assert (forall q, raw <= q < raw + (n + 1) -> ~ image q) as Hnim.
  { intros q Hq. apply (blocks_image w2 raw (n + 1)); [done| |done]. rewrite Hb2. by rewrite lookup_insert_eq. }
  assert (forall q, raw <= q < raw + (n + 1) -> ~ (p <= q < p + SIZEOF_CMD_PARSE)) as Hst.
  { intros q Hq Hin. by eapply Hnim, Himage. }
  destruct (line_memory_spec (user_mem w2) raw s line) as (Hch & Hfr' & Hout); [done| |done|..].
  { eapply cstr_ext; [|exact Hs1]. intros q Hq. apply Hm2. intros Hin. eapply Hnim, Hsrc; [exact Hin|done]. }
  { intros q Hq. destruct (Hsrc q Hq) as [Hi Hp]. split; [|done]. intros Hin. by eapply Hnim. }
  destruct (parse_cmd_run w1 w2 s raw line) as (w3 & Hm3 & Hb3 & Hav3 & Hok3 & Hrun); [done..|].
  assert (parsed w3 raw n []) as Hp3.
  { apply parsed_nil; rewrite ?Hm3, ?Hb3, ?Hav3; try done.
    - apply field_zero; [lia|]. intros q Hq. pose proof (Hst q). rewrite Hout, Hm2, Hm1, decide_True by struct_lia. done.
    - intros q H1 H2. rewrite Hout, Hm2, Hm1, decide_False by struct_lia. done. }
  destruct (runs_parse_loop raw n line w3 [] [] 0 raw) as (l & w & Hr & Hl & Hp); try done; cbn [length app]; try lia.
  { by eapply cstr_chars. }
  { by rewrite Hm3. }
  { rewrite Hav3. change (16 - 0)%nat with 16%nat. fold (words line). lia. }
  exists raw, l, w. split_and!; [by apply Hrun|done..].
Qed.

(** ** Releasing the line *)

Definition del_blocks (bs : gmap Z Z) (ks : list Z) : gmap Z Z := foldl (fun bs k => delete k bs) bs ks.

Lemma del_blocks_lookup ks : forall bs k, del_blocks bs ks !! k = if decide (k ∈ ks) then None else bs !! k.
Proof.
  unfold del_blocks. induction ks as [|a ks IH]; intros bs k; cbn [foldl]; [by rewrite decide_False by apply not_elem_of_nil|].
  rewrite IH. destruct (decide (k ∈ ks)); [by rewrite decide_True by (by right)|].
  destruct (decide (k = a)) as [->|]; [rewrite lookup_delete_eq, decide_True by left; done|].
  rewrite lookup_delete_ne, decide_False by (rewrite ?elem_of_cons; naive_solver). done.
Qed.

Lemma runs_free_args (l : list (Z * list Z)) : forall w i,
  heap_ok w -> NoDup l.*1 -> 0 <= i -> i + Z.of_nat (length l) <= 16 ->
  (forall j a x, l !! j = Some (a, x) -> blocks w !! a = Some (Z.of_nat (length x) + 1) /\
     field (user_mem w) 8 (p + cp_args + 8 * (i + Z.of_nat j)) = a) ->
  exists w', runs (free_args (length l) p i) w tt w' /\ heap_ok w' /\ blocks w' = del_blocks (blocks w) l.*1 /\
    avail w' = (avail w + length l)%nat /\
    (forall q, (forall a x, (a, x) ∈ l -> ~ (a <= q < a + (Z.of_nat (length x) + 1))) -> user_mem w' q = user_mem w q).
Proof.
  induction l as [|[a x] l IH]; intros w i Hok Hnd Hi Hl Hf.
  { exists w. split_and!; [done..|by rewrite Nat.add_0_r|done]. }
  apply NoDup_cons in Hnd as [Ha Hnd]. destruct (Hf 0%nat a x eq_refl) as [Hb Hfa].
  destruct (runs_vfree w a _ Hok Hb) as (w1 & Hr1 & Hok1 & Hb1 & Hav1 & Hm1). cbn [length] in Hl.
  destruct (IH w1 (i + 1)) as (w2 & Hr2 & Hok2 & Hb2 & Hav2 & Hm2); [done..|lia|lia| |].
  { intros j b y Hj. destruct (Hf (S j) b y Hj) as [Hbb Hfb]. pose proof (lookup_lt_Some _ _ _ Hj). split.
    - rewrite Hb1, lookup_delete_ne; [done|]. intros ->. apply Ha, list_elem_of_fmap. exists (b, y).
      split; [done|]. by eapply list_elem_of_lookup_2.
    - rewrite <- Hfb. replace (i + 1 + Z.of_nat j) with (i + Z.of_nat (S j)) by lia. apply field_ext. intros q Hq.
      apply Hm1. intros Hin. eapply (block_off_struct w a _ q Hok Hb Hin). struct_lia. }
  exists w2. split_and!; [|done| | |].
  - cbn [length free_args]. eapply runs_bind; [apply runs_load_field|]. cbv beta.
    replace (8 * i) with (8 * (i + Z.of_nat 0)) by lia. rewrite Hfa.
    eapply runs_bind; [exact Hr1|]. exact Hr2.
  - by rewrite Hb2, Hb1.
  - rewrite Hav2, Hav1. simpl. lia.
  - intros q Hq. rewrite Hm2, Hm1; [done|apply Hq; left|]. intros b y Hin. apply Hq. by right.
Qed.

(** [parse_free] gives back exactly the blocks of the line. *)
Lemma runs_parse_free w raw slen l :
  parsed w raw slen l ->
  exists w', runs (parse_free p) w tt w' /\ heap_ok w' /\ blocks w' = blocks w0 /\ avail w' = avail w0 /\
    (forall q, owned w0 q -> ~ (p <= q < p + SIZEOF_CMD_PARSE) -> user_mem w' q = user_mem w0 q).
Proof.
  intros Hp. destruct (ps_fresh _ _ _ _ Hp) as [Hnd Hfr]. pose proof (parsed_raw_block _ _ _ _ Hp) as Hrb.
  pose proof (ps_heap _ _ _ _ Hp) as Hok. apply NoDup_cons in Hnd as [Hraw Hnd]. apply Forall_cons in Hfr as [Hfr Hfl].
  destruct (runs_vfree w raw _ Hok Hrb) as (w1 & Hr1 & Hok1 & Hb1 & Hav1 & Hm1).
  assert (forall q, p <= q < p + SIZEOF_CMD_PARSE -> user_mem w1 q = user_mem w q) as Hst.
  { intros q Hq. apply Hm1. intros Hin. by eapply (block_off_struct w raw _ q Hok Hrb Hin). }
  destruct (runs_free_args l w1 0) as (w2 & Hr2 & Hok2 & Hb2 & Hav2 & Hm2); [done|done|lia| | |].
  { pose proof (ps_len _ _ _ _ Hp). lia. }
  { intros j a x Hj. destruct (parsed_arg_block _ _ _ _ _ _ _ Hp Hj) as [Hb Hne]. pose proof (ps_len _ _ _ _ Hp).
    pose proof (lookup_lt_Some _ _ _ Hj). split; [by rewrite Hb1, lookup_delete_ne|].
    rewrite <- (proj1 (ps_args _ _ _ _ Hp j a x Hj)), Z.add_0_l. apply field_ext. intros q Hq. apply Hst. struct_lia. }
  eexists. split.
  { unfold parse_free. eapply runs_bind; [apply runs_load_field|]. cbv beta. rewrite (ps_raw _ _ _ _ Hp).
    eapply runs_bind; [exact Hr1|]. cbv beta. eapply runs_bind.
    { apply (runs_cnt_field _ (Z.of_nat (length l))); [|pose proof (ps_len _ _ _ _ Hp); lia].
      rewrite <- (ps_cnt _ _ _ _ Hp). apply field_ext. intros q Hq. apply Hst. struct_lia. }
    cbv beta. rewrite Nat2Z.id. eapply runs_bind; [exact Hr2|]. cbv beta. run_step. }
  rewrite user_mem_with, blocks_with, avail_with. split_and!.
  - by apply heap_ok_with.
  - rewrite Hb2, Hb1, (ps_blocks _ _ _ _ Hp). apply map_eq. intros k. rewrite del_blocks_lookup. case_decide as Hk.
    + rewrite Forall_forall in Hfl. by rewrite Hfl.
    + destruct (decide (k = raw)) as [->|Hne]; [by rewrite lookup_delete_eq|].
      rewrite lookup_delete_ne, add_blocks_other, lookup_insert_ne by done. done.
  - rewrite Hav2, Hav1, (ps_avail _ _ _ _ Hp). lia.
  - intros q Ho Hq. rewrite memset_spec, decide_False; [|done|struct_lia].
    assert (forall a n, blocks w !! a = Some n -> blocks w0 !! a = None -> ~ (a <= q < a + n)) as Hn.
    { intros a n. apply owned_not_new; [done|by eapply parsed_sub|done]. }
    rewrite Hm2, Hm1; [by apply Hp|by apply Hn|]. intros a x Hin. apply list_elem_of_lookup_1 in Hin as [j Hj].
    destruct (parsed_arg_block _ _ _ _ _ _ _ Hp Hj) as [Hb _]. apply (Hn a); [done|].
    rewrite Forall_forall in Hfl. apply Hfl, list_elem_of_fmap. exists (a, x). split; [done|]. by eapply list_elem_of_lookup_2.
Qed.
End Parse.
