(* ===== verification/ShellRun.v ===== *)
(** * The shell: running commands

    What the shell prints, which program it finds, and that every command gives back the memory of its line, over the
    promises of [UserHeap] and [UserFiles]. *)

From Stdlib Require Import String Ascii.
From S2P Require Import Prelude KLib Kprint Libc LibcProofs UserLaws UserDemo Shell ShellProofs.

(** ** The command line *)

(** C13. The command line.  For any line of characters, [parse_cmd] fills the structure with the first sixteen words between
    blanks: each is a terminated copy in a block of its own, the count is theirs, and no other byte the program owns has
    changed.  [parse_free] then gives back exactly the blocks that were taken, and leaves every byte outside the
    structure as it was before the line was parsed. *)
Theorem command_line_parsed {W : Type} `{UserHeap W} fuel (w : W) p s line :
  (forall q, p <= q < p + SIZEOF_CMD_PARSE -> image q) -> heap_ok w ->
  cstr (user_mem w) s line -> line <> [] -> (length line < fuel)%nat -> Z.of_nat (length line) + 1 < 2 ^ 31 ->
  (forall q, s <= q <= s + Z.of_nat (length line) -> image q /\ ~ (p <= q < p + SIZEOF_CMD_PARSE)) ->
  (length (take 16 (words line)) < avail w)%nat ->
  exists raw l w1, runs (parse_cmd fuel s p) w tt w1 /\ l.*2 = take 16 (words line) /\
    parsed w p w1 raw (Z.of_nat (length line)) l /\
    exists w2, runs (parse_free p) w1 tt w2 /\ heap_ok w2 /\ blocks w2 = blocks w /\ avail w2 = avail w /\
      (forall q, owned w q -> ~ (p <= q < p + SIZEOF_CMD_PARSE) -> user_mem w2 q = user_mem w q).
Proof.
  intros Him Hok Hs Hne Hf Hn Hsrc Hav.
  destruct (runs_parse_cmd fuel w p Him s line Hok Hs Hne Hf Hn Hsrc Hav) as (raw & l & w1 & Hr & Hl & Hp).
  exists raw, l, w1. split_and!; [done..|]. by apply (runs_parse_free w p Him _ raw (Z.of_nat (length line)) l).
Qed.

(** The line ["echo  hi "] at 1000, the structure at 2000. *)
Definition demo_start : demo :=
  Demo (store_bytes (fun _ => 7) 1000 (lit "echo  hi " ++ [0])) ∅ [] {[0; 1; 2]} [lit "/usr/bin/ls"] [lit "/home"] (lit "/") [].

Lemma demo_start_ok : heap_ok demo_start.
Proof. split; [by intros a n Ha|repeat constructor; simpl; lia]. Qed.

Lemma command_line_parsed_witness :
  exists raw l w1, runs (parse_cmd 20 1000 2000) demo_start tt w1 /\ l.*2 = [lit "echo"; lit "hi"] /\
    parsed demo_start 2000 w1 raw 9 l /\ exists w2, runs (parse_free 2000) w1 tt w2 /\ blocks w2 = ∅.
Proof.
  destruct (command_line_parsed 20 demo_start 2000 1000 (lit "echo  hi ")) as (raw & l & w1 & Hr & Hl & Hp & w2 & Hr2 & _ & Hb & _).
  - intros q Hq. unfold SIZEOF_CMD_PARSE in Hq. simpl. lia.
  - apply demo_start_ok.
  - by vm_compute.
  - done.
  - simpl. lia.
  - simpl. lia.
  - intros q Hq. simpl in Hq. unfold SIZEOF_CMD_PARSE. simpl. lia.
  - vm_compute. lia.
  - exists raw, l, w1. split; [exact Hr|]. split; [exact Hl|]. split; [exact Hp|]. exists w2. split; [exact Hr2|exact Hb].
Defined.

(** A line of blanks has no words; its copy stays allocated, as [main] goes on without [parse_free]. *)
Lemma blank_line_kept {W : Type} `{UserHeap W} (w w1 : W) p raw slen l :
  parsed w p w1 raw slen l -> l = [] -> blocks w1 = <[raw := slen + 1]> (blocks w) /\ blocks w !! raw = None.
Proof.
  intros Hp ->. destruct (ps_fresh _ _ _ _ _ _ Hp) as [_ Hf]. apply Forall_cons in Hf as [Hf _].
  split; [apply (ps_blocks _ _ _ _ _ _ Hp)|done].
Qed.

(** ** Printing *)

Section Run.
Context {W : Type} `{UserFiles W} (fuel : nat) (img : shell_image).
Implicit Types w : W.

(** The blocks and the bytes of the program are kept. *)
Definition kept w w' : Prop := same_heap w w' /\ forall q, owned w q -> user_mem w' q = user_mem w q.

Lemma kept_owned w w' q : kept w w' -> owned w q -> owned w' q.
Proof. intros [[_ Hb _] _] Ho. unfold owned. by rewrite Hb. Qed.
Lemma shell_kept_trans w w1 w2 : kept w w1 -> kept w1 w2 -> kept w w2.
Proof.
  intros Hk1 [[Hok Hb Hav] Hm]. pose proof Hk1 as [[_ Hb1 Hav1] Hm1]. split; [split; [done|congruence|congruence]|].
  intros q Ho. rewrite Hm, Hm1; [done..|]. by eapply kept_owned.
Qed.

Lemma parsed_kept w0 w w' p raw slen l :
  (forall q, p <= q < p + SIZEOF_CMD_PARSE -> image q) -> parsed w0 p w raw slen l -> kept w w' -> parsed w0 p w' raw slen l.
Proof.
  intros Him Hp [[Hok Hb Hav] Hm].
  assert (forall q, p <= q < p + SIZEOF_CMD_PARSE -> user_mem w' q = user_mem w q) as Hst.
  { intros q Hq. apply Hm. left. by apply Him. }
  constructor; rewrite ?Hb, ?Hav; try apply Hp; [done|..].
  - rewrite <- (ps_raw _ _ _ _ _ _ Hp). apply field_ext. intros q Hq. apply Hst. struct_lia.
  - rewrite <- (ps_cnt _ _ _ _ _ _ Hp). apply field_ext. intros q Hq. apply Hst. struct_lia.
  - intros i a x Hi. destruct (ps_args _ _ _ _ _ _ Hp i a x Hi) as [Hf Hc]. pose proof (ps_len _ _ _ _ _ _ Hp).
    pose proof (lookup_lt_Some _ _ _ Hi). split.
    + rewrite <- Hf. apply field_ext. intros q Hq. apply Hst. struct_lia.
    + destruct (parsed_arg_block _ _ _ _ _ _ _ _ _ Hp Hi) as [Hab _]. eapply cstr_ext; [|exact Hc]. intros q Hq.
      apply Hm. right. exists a, (Z.of_nat (length x) + 1). split; [done|lia].
  - intros q Ho Hq. rewrite Hm; [by apply Hp|]. destruct Ho as [Hi|(a & n & Ha & Hin)]; [by left|]. right. exists a, n.
    split; [|done]. eapply lookup_weaken; [exact Ha|by eapply parsed_sub].
Qed.

(** A string the program owns, with some characters around it. *)
Lemma runs_print_str w fd pre post q str :
  heap_ok w -> (0 < avail w)%nat -> q <> 0 -> cstr (user_mem w) q str ->
  (forall x, q <= x <= q + Z.of_nat (length str) -> owned w x) -> (length str < fuel)%nat ->
  Forall (fun c => 0 < c < 256 /\ c <> chr_percent) (pre ++ post) ->
  Z.of_nat (length (pre ++ str ++ post)) < PRINT_BUF_SIZE ->
  exists n w', runs (vdprintf fuel fd (pre ++ [37; 115] ++ post) [q]) w n w' /\ kept w w' /\
    output w' = output w ++ [(fd, pre ++ str ++ post)] /\ handles w' = handles w /\
    (forall path, openable w' path = openable w path) /\ cwd_of w' = cwd_of w.
Proof.
  intros Hok Hav Hq Hc Ho Hf Hpp Hl.
  set (its := (Lit <$> pre) ++ [Str (Some str)] ++ (Lit <$> post)).
  assert (forall l, items_fmt (Lit <$> l) = l /\ items_text (Lit <$> l) = l) as Hlit.
  { clear. induction l as [|c l [IH1 IH2]]; [done|]. cbn. split; f_equal; done. }
  assert (items_fmt its = pre ++ [37; 115] ++ post) as Hfmt.
  { unfold its, items_fmt. rewrite !bind_app. fold (items_fmt (Lit <$> pre)) (items_fmt (Lit <$> post)).
    rewrite !(proj1 (Hlit _)). done. }
  assert (items_text its = pre ++ str ++ post) as Htext.
  { unfold its, items_text. rewrite !bind_app. fold (items_text (Lit <$> pre)) (items_text (Lit <$> post)).
    rewrite !(proj2 (Hlit _)). cbn. by rewrite app_nil_r. }
  assert (forall l ws its', items_passed w its' ws -> items_passed w ((Lit <$> l) ++ its') ws) as Hpass.
  { clear. induction l as [|c l IH]; intros ws its' Hp; [done|]. cbn [fmap list_fmap app items_passed].
    exists [], ws. split_and!; [done..|]. by apply IH. }
  destruct (runs_vdprintf fuel w fd its [q]) as (w' & Hr & Hh & Hm & Hrest); [done|done|..].
  - apply Forall_app in Hpp as [Hpre Hpost]. unfold its. rewrite !Forall_app, !Forall_fmap. split_and!.
    + eapply Forall_impl; [exact Hpre|]. intros c [Hc1 Hc2]. done.
    + by constructor.
    + eapply Forall_impl; [exact Hpost|]. intros c [Hc1 Hc2]. done.
  - intros str' Hin. unfold its in Hin. rewrite !elem_of_app, !list_elem_of_fmap, list_elem_of_singleton in Hin.
    destruct Hin as [(? & ? & _)|[[= ->]|(? & ? & _)]]; done.
  - apply Hpass. exists [q], []. split_and!; [done| |].
    + exists q. split_and!; try done.
    + rewrite <- (app_nil_r (Lit <$> post)). by apply Hpass.
  - by rewrite Htext.
  - rewrite Hfmt in Hr. rewrite Htext in Hrest. eexists _, w'. split; [exact Hr|]. split; [by split|done].
Qed.

(** The files are as they were, but for what has been written. *)
Definition printed w w' (o : list (Z * list Z)) : Prop :=
  kept w w' /\ output w' = output w ++ o /\ handles w' = handles w /\
  (forall path, openable w' path = openable w path) /\ cwd_of w' = cwd_of w.

Lemma printed_nil w : heap_ok w -> printed w w [].
Proof. intros Hok. split; [by split|]. by rewrite app_nil_r. Qed.
Lemma printed_trans w w1 w2 o1 o2 : printed w w1 o1 -> printed w1 w2 o2 -> printed w w2 (o1 ++ o2).
Proof.
  intros (Hk & Ho & Hh & Hp & Hc) (Hk' & Ho' & Hh' & Hp' & Hc'). split; [by eapply shell_kept_trans|].
  split_and!; [by rewrite Ho', Ho, app_assoc|congruence| |congruence]. intros path. by rewrite Hp'.
Qed.
Lemma printed_avail w w' o : printed w w' o -> avail w' = avail w /\ heap_ok w'.
Proof. by intros ([[Hok _ Hav] _] & _). Qed.

(** A text without conversions. *)
Lemma runs_print_text w fd l :
  heap_ok w -> (0 < avail w)%nat -> Forall (fun c => 0 < c < 256 /\ c <> chr_percent) l ->
  Z.of_nat (length l) < PRINT_BUF_SIZE ->
  exists n w', runs (vdprintf fuel fd l []) w n w' /\ printed w w' [(fd, l)].
Proof.
  intros Hok Hav Hl Hlen.
  assert (items_fmt (Lit <$> l) = l /\ items_text (Lit <$> l) = l /\ items_passed w (Lit <$> l) []) as (Hf & Ht & Hp).
  { clear. induction l as [|c l (IH1 & IH2 & IH3)]; [done|]. cbn. split_and!; [by f_equal..|]. exists [], []. done. }
  destruct (runs_vdprintf fuel w fd (Lit <$> l) []) as (w' & Hr & Hh & Hm & Hrest); [done|done| | |done|by rewrite Ht|].
  - apply Forall_fmap. eapply Forall_impl; [exact Hl|]. intros c [Hc1 Hc2]. done.
  - intros str Hin. apply list_elem_of_fmap in Hin as (? & ? & _). done.
  - rewrite Hf in Hr. rewrite Ht in Hrest. eexists _, w'. split; [exact Hr|]. split; [by split|done].
Qed.

(** An argument of the command line can be printed. *)
Lemma parsed_arg w0 w p raw slen l i a x :
  parsed w0 p w raw slen l -> l !! i = Some (a, x) ->
  a <> 0 /\ cstr (user_mem w) a x /\ (forall q, a <= q <= a + Z.of_nat (length x) -> owned w q) /\
  runs (arg p (Z.of_nat i)) w a w.
Proof.
  intros Hp Hi. destruct (ps_args _ _ _ _ _ _ Hp i a x Hi) as [Hf Hc].
  destruct (parsed_arg_block _ _ _ _ _ _ _ _ _ Hp Hi) as [Hb _]. split_and!.
  - pose proof (ps_pos _ _ _ _ _ _ Hp) as Hpos. rewrite Forall_forall in Hpos. apply Hpos, list_elem_of_fmap.
    exists (a, x). split; [done|]. by eapply list_elem_of_lookup_2.
  - done.
  - intros q Hq. right. exists a, (Z.of_nat (length x) + 1). split; [done|lia].
  - pose proof (runs_load_field 8 (p + cp_args + 8 * Z.of_nat i) w) as Hr. by rewrite Hf in Hr.
Qed.

Definition printable (x : list Z) : Prop := (length x < fuel)%nat /\ Z.of_nat (length x) + 1 < PRINT_BUF_SIZE.

Lemma runs_echo_args w0 p raw slen l2 :
  (forall q, p <= q < p + SIZEOF_CMD_PARSE -> image q) -> forall l1 w,
  parsed w0 p w raw slen (l1 ++ l2) -> (0 < avail w)%nat -> Forall printable l2.*2 ->
  exists w', runs (echo_args fuel (length l2) p (Z.of_nat (length l1))) w tt w' /\
    printed w w' ((fun x => (STDOUT, x ++ [32])) <$> l2.*2).
Proof.
  intros Him. induction l2 as [|[a x] l2 IH]; intros l1 w Hp Hav Hpr.
  { exists w. split; [apply runs_ret|]. apply printed_nil, Hp. }
  cbn [fmap list_fmap] in Hpr. apply Forall_cons in Hpr as [[Hx1 Hx2] Hpr].
  destruct (parsed_arg w0 w p raw slen (l1 ++ (a, x) :: l2) (length l1) a x Hp) as (Ha & Hc & Ho & Hr).
  { by rewrite lookup_app_r, Nat.sub_diag by lia. }
  destruct (runs_print_str w STDOUT [] [32] a x) as (n & w1 & Hr1 & Hk1 & Hrest1); try done.
  { apply Hp. }
  { repeat constructor; unfold chr_percent; lia. }
  { cbn [app]. rewrite length_app. simpl in *. lia. }
  assert (printed w w1 [(STDOUT, x ++ [32])]) as Hpr1 by done. destruct (printed_avail _ _ _ Hpr1) as [Hav1 _].
  destruct (IH (l1 ++ [(a, x)]) w1) as (w2 & Hr2 & Hp2); [|by rewrite Hav1|done|].
  { rewrite <- app_assoc. by eapply parsed_kept. }
  exists w2. split.
  - cbn [length echo_args]. eapply runs_bind; [exact Hr|]. cbv beta. eapply runs_bind; [exact Hr1|]. cbv beta.
    rewrite length_app, Nat2Z.inj_add in Hr2. exact Hr2.
  - cbn [fmap list_fmap]. exact (printed_trans _ _ _ _ _ Hpr1 Hp2).
Qed.

(** [echo] prints its arguments, each with a blank, and the end of the line, and keeps everything else. *)
Lemma runs_run_echo w0 w p raw slen l :
  (forall q, p <= q < p + SIZEOF_CMD_PARSE -> image q) ->
  parsed w0 p w raw slen l -> (0 < avail w)%nat -> Forall printable l.*2 -> l <> [] ->
  exists w', runs (run_echo fuel p) w tt w' /\
    printed w w' (((fun x => (STDOUT, x ++ [32])) <$> tail l.*2) ++ [(STDOUT, [10])]).
Proof.
  intros Him Hp Hav Hpr Hne. destruct l as [|[a x] l]; [done|]. cbn [fmap list_fmap] in Hpr. apply Forall_cons in Hpr as [_ Hpr].
  destruct (runs_echo_args w0 p raw slen l Him [(a, x)] w) as (w1 & Hr1 & Hp1); [done..|].
  destruct (printed_avail _ _ _ Hp1) as [Hav1 Hok1].
  destruct (runs_print_text w1 STDOUT [10]) as (n & w2 & Hr2 & Hp2); [done|by rewrite Hav1|..].
  { repeat constructor; unfold chr_percent; lia. }
  { unfold PRINT_BUF_SIZE. simpl. lia. }
  exists w2. split; [|cbn [fmap list_fmap tail]; by eapply printed_trans].
  unfold run_echo. eapply runs_bind; [by eapply runs_cnt|]. cbv beta.
  replace (Z.to_nat (Z.of_nat (length ((a, x) :: l)) - 1)) with (length l) by (simpl; lia).
  eapply runs_bind; [exact Hr1|]. cbv beta. eapply runs_bind; [exact Hr2|]. apply runs_ret.
Qed.
End Run.
