(* ===== verification/ShellPath.v ===== *)
(** * The shell: the search path

    [resolve_path] of [user/shell.c]: which file a command names. *)

From Stdlib Require Import String Ascii.
From S2P Require Import Prelude KLib Kprint Libc LibcProofs UserLaws UserDemo Shell ShellProofs ShellRun.

(** ** The directories of a path *)

Fixpoint path_dirs (cur rest : list Z) : list (list Z) :=
  match rest with
  | [] => flush cur
  | c :: rest => if c =? 58 then cur :: path_dirs [] rest else path_dirs (cur ++ [c]) rest
  end.
(** Between colons; an empty last one is none. *)
Definition dirs_of (path : list Z) : list (list Z) := path_dirs [] path.

Lemma path_dirs_find rest : forall cur,
  path_dirs cur rest =
  match list_find (58 =.) rest with
  | Some (i, _) => (cur ++ take i rest) :: dirs_of (drop (S i) rest)
  | None => flush (cur ++ rest)
  end.
Proof.
  induction rest as [|c rest IH]; intros cur; cbn [path_dirs list_find]; [by rewrite app_nil_r|].
  destruct (Z.eqb_spec c 58) as [->|Hne].
  - rewrite decide_True by done. cbn. by rewrite app_nil_r.
  - rewrite decide_False by done. rewrite IH. destruct (list_find (58 =.) rest) as [[i x]|]; cbn; by rewrite <- app_assoc.
Qed.

(** The file a directory gives for a command. *)
Definition candidate (d cmd : list Z) : list Z := d ++ 47 :: cmd.
Fixpoint first_dir (ok : list Z -> bool) (ds : list (list Z)) : option (list Z) :=
  match ds with
  | [] => None
  | d :: ds => if ok d then Some d else first_dir ok ds
  end.

Lemma first_dir_spec ok ds :
  match first_dir ok ds with
  | Some d => exists l1 l2, ds = l1 ++ d :: l2 /\ ok d = true /\ Forall (fun d => ok d = false) l1
  | None => Forall (fun d => ok d = false) ds
  end.
Proof.
  induction ds as [|d ds IH]; cbn [first_dir]; [constructor|]. destruct (ok d) eqn:E; [by exists [], ds|].
  destruct (first_dir ok ds) as [d'|]; [|by constructor]. destruct IH as (l1 & l2 & -> & Hok & Hf).
  exists (d :: l1), l2. split_and!; [done..|]. by constructor.
Qed.

Section Path.
Context {W : Type} `{UserFiles W} (fuel : nat) (img : shell_image).
Implicit Types w : W.
Context (out outsz : Z).

(** Everything is kept but the bytes of the buffer [out]. *)
Record searched w w' : Prop := {
  se_heap : same_heap w w';
  se_mem : forall q, owned w q -> ~ (out <= q < out + outsz) -> user_mem w' q = user_mem w q;
  se_files : same_files output handles openable cwd_of w w';
}.

Lemma searched_refl w : heap_ok w -> searched w w.
Proof. intros Hok. by repeat split. Qed.
Lemma searched_owned w w' q : searched w w' -> owned w q -> owned w' q.
Proof. intros [[_ Hb _] _ _] Ho. unfold owned. by rewrite Hb. Qed.
Lemma searched_trans w w1 w2 : searched w w1 -> searched w1 w2 -> searched w w2.
Proof.
  intros Hs [[Hok Hb Hav] Hm Hf]. pose proof Hs as [[_ Hb1 Hav1] Hm1 Hf1]. split.
  - split; [done|congruence|congruence].
  - intros q Ho Hq. rewrite Hm, Hm1; [done..| |done]. by eapply searched_owned.
  - by eapply same_files_trans.
Qed.

(** A string that is not in the buffer. *)
Definition apart_str w (p : Z) (s : list Z) : Prop :=
  cstr (user_mem w) p s /\
  (forall q, p <= q <= p + Z.of_nat (length s) -> owned w q /\ ~ (out <= q < out + outsz)).

Lemma apart_str_searched w w' p s : searched w w' -> apart_str w p s -> apart_str w' p s.
Proof.
  intros Hs [Hc Ho]. split.
  - eapply cstr_ext; [|exact Hc]. intros q Hq. destruct (Ho q Hq). by apply (se_mem w w').
  - intros q Hq. destruct (Ho q Hq). split; [|done]. by eapply searched_owned.
Qed.

Definition candidate_memory (m : memory) (p cmd : Z) (d str : list Z) : memory :=
  let n := Z.of_nat (length d) in
  memcpy (upd (memcpy m out p n) (out + n) 47) (out + n + 1) cmd (Z.of_nat (length str) + 1).

Lemma candidate_memory_spec m p cmd d str :
  Forall (fun c => 0 < c < 256) d -> (forall j c, d !! j = Some c -> m (p + Z.of_nat j) = c) -> cstr m cmd str ->
  (forall q, p <= q < p + Z.of_nat (length d) -> ~ (out <= q < out + outsz)) ->
  (forall q, cmd <= q <= cmd + Z.of_nat (length str) -> ~ (out <= q < out + outsz)) ->
  Z.of_nat (length d) + Z.of_nat (length str) + 2 <= outsz ->
  let m' := candidate_memory m p cmd d str in
  cstr m' out (candidate d str) /\ (forall q, ~ (out <= q < out + outsz) -> m' q = m q).
Proof.
  intros Hd Hp Hc Hpo Hco Hfit m'. set (n := Z.of_nat (length d)) in *. set (k := Z.of_nat (length str)) in *.
  assert (out <= p \/ p + n <= out) as Hdir.
  { destruct (decide (out <= p)); [by left|right]. pose proof (Hpo out). lia. }
  assert (out + n + 1 <= cmd \/ cmd + (k + 1) <= out + n + 1) as Hdir2.
  { destruct (decide (out + n + 1 <= cmd)); [by left|right]. pose proof (Hco (out + n)). pose proof (Hco (out + n + 1)).
    pose proof (Hco cmd). lia. }
  assert (forall q, memcpy m out p n q = if decide (out <= q < out + n) then m (p + (q - out)) else m q) as Hc1
    by (intros q; apply memcpy_copied_user; [lia|done]).
  assert (forall q, m' q = if decide (out + n + 1 <= q < out + n + 1 + (k + 1)) then m (cmd + (q - (out + n + 1)))
                           else if decide (q = out + n) then 47 else if decide (out <= q < out + n) then m (p + (q - out)) else m q) as Hc2.
  { intros q. unfold m', candidate_memory. fold n k. rewrite memcpy_copied_user by (lia || done). rewrite !upd_spec, !Hc1.
    case_decide; [|done]. pose proof (Hco (cmd + (q - (out + n + 1)))). rewrite !decide_False by lia. done. }
  split.
  - apply cstr_intro.
    + intros i c Hi. rewrite Hc2. unfold candidate in Hi. apply lookup_app_Some in Hi as [Hi|[Hge Hi]].
      * pose proof (lookup_lt_Some _ _ _ Hi). rewrite !decide_False, decide_True by lia.
        replace (p + (out + Z.of_nat i - out)) with (p + Z.of_nat i) by lia. split; [by apply Hp|].
        exact (Forall_lookup_1 _ _ _ _ Hd Hi).
      * destruct (i - length d)%nat as [|j] eqn:E; cbn in Hi.
        -- simplify_eq. rewrite decide_False, decide_True by lia. split; [done|lia].
        -- pose proof (lookup_lt_Some _ _ _ Hi). rewrite decide_True by lia.
           replace (cmd + (out + Z.of_nat i - (out + n + 1))) with (cmd + Z.of_nat j) by lia. by eapply cstr_lookup.
    + rewrite Hc2. unfold candidate. rewrite length_app. cbn [length]. rewrite decide_True by lia.
      rewrite <- (cstr_end m cmd str Hc). f_equal. lia.
  - intros q Hq. rewrite Hc2, !decide_False by lia. done.
Qed.

(** Whether a file can be opened: it is closed again. *)
Lemma runs_open_close w name :
  heap_ok w -> cstr (user_mem w) out name -> (size (handles w) < max_handles)%nat -> is_Some (openable w name) ->
  exists w', runs (fh ← open out O_READ; if fh =? 0 then mret false else _ ← close fh; mret true) w (default false (openable w name)) w' /\
    kept w w' /\ same_files output handles openable cwd_of w w'.
Proof.
  intros Hok Hc Hh Hans. destruct (open_law w out name Hok Hc Hh Hans) as (r & w1 & Hr & Hsh & Hm & Ho & Hp & Hcwd & Hres).
  destruct (default false (openable w name)) eqn:E.
  - destruct Hres as (Hrange & Hnew & Hhs).
    destruct (close_law w1 r) as (r2 & w2 & Hr2 & Hsh2 & Hm2 & Ho2 & Hp2 & Hcwd2 & Hhs2); [by apply Hsh|set_solver|].
    exists w2. split_and!.
    + eapply runs_bind.
      { unfold open, sys_open. eapply runs_bind; [eapply runs_bind; [exact Hr|apply runs_ret]|]. cbv beta.
        rewrite i32_small, (proj2 (Z.ltb_ge _ _)) by lia. apply runs_ret. }
      cbv beta. rewrite (proj2 (Z.eqb_neq r 0)) by lia. eapply runs_bind; [|apply runs_ret].
      unfold close, sys_close. rewrite i32_small by lia.
      eapply runs_bind; [eapply runs_bind; [exact Hr2|apply runs_ret]|]. apply runs_ret.
    + apply (shell_kept_trans _ w1); by split.
    + split; [congruence| |intros path; by rewrite Hp2|congruence]. rewrite Hhs2, Hhs. set_solver.
  - destruct Hres as (Hneg & Hhs). exists w1. split_and!; [|by split|by split].
    eapply (runs_bind _ _ w 0 w1); [|apply runs_ret]. unfold open, sys_open.
    eapply runs_bind; [eapply runs_bind; [exact Hr|apply runs_ret]|]. cbv beta.
    rewrite (proj2 (Z.ltb_lt _ _)) by lia. apply runs_ret.
Qed.

(** A directory is taken when there is room for the name and the file can be opened. *)
Definition dir_ok w (str d : list Z) : bool :=
  (Z.of_nat (length d) + Z.of_nat (length str) + 2 <=? outsz) && default false (openable w (candidate d str)).
(** The kernel says whether it can open the name, if there is room for it. *)
Definition answered w (str d : list Z) : Prop :=
  Z.of_nat (length d) + Z.of_nat (length str) + 2 <= outsz -> is_Some (openable w (candidate d str)).

Lemma runs_try_dir w cmd str p d :
  heap_ok w -> (size (handles w) < max_handles)%nat -> apart_str w cmd str -> (length str < fuel)%nat ->
  Forall (fun c => 0 < c < 256) d -> (forall j c, d !! j = Some c -> user_mem w (p + Z.of_nat j) = c) ->
  (forall q, p <= q < p + Z.of_nat (length d) -> ~ (out <= q < out + outsz)) ->
  (forall q, out <= q < out + outsz -> owned w q) -> answered w str d ->
  exists w', runs (try_dir fuel cmd out outsz p (Z.of_nat (length d))) w (dir_ok w str d) w' /\ searched w w' /\
    (dir_ok w str d = true -> cstr (user_mem w') out (candidate d str)).
Proof.
  intros Hok Hh [Hc Hco] Hf Hd Hp Hpo Hout Hans. unfold dir_ok.
  destruct (Z.leb_spec (Z.of_nat (length d) + Z.of_nat (length str) + 2) outsz) as [Hfit|Hbig]; cbn [andb].
  - destruct (candidate_memory_spec (user_mem w) p cmd d str) as [Hcand Hm]; try done.
    { intros q Hq. by apply Hco. }
    set (m' := candidate_memory (user_mem w) p cmd d str) in *. set (w1 := with_user_mem m' w).
    pose proof (files_with m' w) as Hf1. fold w1 in Hf1.
    destruct (runs_open_close w1 (candidate d str)) as (w2 & Hr & Hk & Hf2).
    { by apply heap_ok_with. }
    { unfold w1. by rewrite user_mem_with. }
    { by rewrite (sf_handles _ _ _ _ _ _ Hf1). }
    { rewrite (sf_openable _ _ _ _ _ _ Hf1). by apply Hans. }
    rewrite (sf_openable _ _ _ _ _ _ Hf1) in Hr.
    assert (forall q, owned w q -> owned w1 q) as Hown by (intros q; unfold owned, w1; by rewrite blocks_with).
    exists w2. split_and!.
    + unfold try_dir. run_step. eapply runs_bind; [by apply runs_lift, (user_strlen_cstr fuel _ cmd str)|]. cbv beta.
      rewrite (proj2 (Z.ltb_ge _ _)) by lia. cbv zeta.
      eapply runs_bind; [apply runs_lift, (user_strlen_cstr fuel _ cmd str); [|done]|].
      { eapply cstr_ext; [|exact Hc]. intros q Hq. destruct (Hco q Hq) as [_ Hno]. unfold upd.
        rewrite (proj2 (Z.eqb_neq _ _)) by lia. rewrite memcpy_copied_user, decide_False; [done|lia|lia|].
        destruct (decide (out <= p)); [by left|right]. pose proof (Hpo out). lia. }
      cbv beta. run_step. exact Hr.
    + destruct Hk as [[Hok2 Hb2 Hav2] Hm2]. unfold w1 in Hb2, Hav2. rewrite blocks_with in Hb2. rewrite avail_with in Hav2.
      split; [by split| |by eapply same_files_trans].
      intros q Ho Hq. rewrite Hm2 by auto. unfold w1. rewrite user_mem_with. by apply Hm.
    + intros _. eapply cstr_ext; [|exact Hcand]. intros q Hq. destruct Hk as [_ Hm2].
      unfold candidate in Hq. rewrite length_app in Hq. simpl in Hq. rewrite Hm2 by (apply Hown, Hout; lia).
      unfold w1. by rewrite user_mem_with.
  - exists w. split_and!; [|by apply searched_refl|done].
    unfold try_dir. run_step. eapply runs_bind; [by apply runs_lift, (user_strlen_cstr fuel _ cmd str)|]. cbv beta.
    rewrite (proj2 (Z.ltb_lt _ _)) by lia. apply runs_ret.
Qed.

Lemma first_dir_searched w w' str ds : searched w w' -> first_dir (dir_ok w' str) ds = first_dir (dir_ok w str) ds.
Proof.
  intros Hs. induction ds as [|d ds IH]; [done|]. cbn [first_dir]. rewrite IH. unfold dir_ok.
  by rewrite (sf_openable _ _ _ _ _ _ (se_files _ _ Hs)).
Qed.

(** What the search needs: the command and the path are not in the buffer, the buffer is the program's. *)
Record search_ok w (cmd : Z) (str : list Z) : Prop := {
  so_heap : heap_ok w;
  so_handles : (size (handles w) < max_handles)%nat;
  so_cmd : apart_str w cmd str;
  so_len : (length str < fuel)%nat;
  so_out : forall q, out <= q < out + outsz -> owned w q;
}.

Lemma search_ok_searched w w' cmd str : searched w w' -> search_ok w cmd str -> search_ok w' cmd str.
Proof.
  intros Hs [Hok Hh Hc Hf Ho]. split; [apply Hs| |by eapply apart_str_searched|done|].
  - by rewrite (sf_handles _ _ _ _ _ _ (se_files _ _ Hs)).
  - intros q Hq. eapply searched_owned; [done|by apply Ho].
Qed.

(** The first directory of a path and the rest, as the loop finds them. *)
Lemma path_step w p path :
  apart_str w p path -> path <> [] -> (length path < fuel)%nat -> 0 < p ->
  exists d rest p', dirs_of path = d :: dirs_of rest /\ (length rest < length path)%nat /\
    apart_str w p' rest /\ 0 < p' /\ (forall j c, d !! j = Some c -> user_mem w (p + Z.of_nat j) = c) /\
    Forall (fun c => 0 < c < 256) d /\ (forall q, p <= q < p + Z.of_nat (length d) -> ~ (out <= q < out + outsz)) /\
    forall n cmd w' b w2 (found : bool), searched w w' -> runs (try_dir fuel cmd out outsz p (Z.of_nat (length d))) w found w' ->
      (found = false -> runs (path_loop fuel n cmd out outsz p') w' b w2) ->
      runs (path_loop fuel (S n) cmd out outsz p) w (if found then true else b) (if found then w' else w2).
Proof.
  intros [Hc Ho] Hne Hf Hp.
  assert (exists ch path', path = ch :: path' /\ ch <> 0 /\ user_mem w p = ch) as (ch & path' & Heq & Hch & Hmp).
  { destruct path as [|ch path']; [done|]. destruct Hc as (Hm & Hr & _). exists ch, path'. split_and!; [done|lia|done]. }
  pose proof (strchr_spec path fuel (user_mem w) p 58 Hc Hf ltac:(lia)) as Hchr.
  pose proof (cstr_chars _ _ _ Hc) as Hchars.
  unfold dirs_of. rewrite path_dirs_find. cbn [app].
  destruct (list_find (58 =.) path) as [[i x]|] eqn:E.
  - apply list_find_Some in E as (Hi & <- & _). pose proof (lookup_lt_Some _ _ _ Hi).
    assert (length (take i path) = i) as Hli by (rewrite length_take; lia).
    exists (take i path), (drop (S i) path), (p + Z.of_nat i + 1). split_and!.
    + done.
    + rewrite length_drop. lia.
    + split.
      * pose proof (cstr_drop _ _ _ (S i) Hc ltac:(lia)) as Hd. by replace (p + Z.of_nat i + 1) with (p + Z.of_nat (S i)) by lia.
      * intros q Hq. rewrite length_drop in Hq. apply Ho. lia.
    + lia.
    + intros j c Hj. apply lookup_take_Some in Hj as [Hj _]. by eapply cstr_lookup.
    + by apply Forall_take.
    + rewrite Hli. intros q Hq. apply Ho. lia.
    + rewrite Hli. intros n cmd w' b w2 found Hs Htry Hloop. cbn [path_loop]. run_step.
      rewrite Hmp, (proj2 (Z.eqb_neq _ _) Hch). eapply runs_bind; [apply runs_lift; exact Hchr|]. cbv beta iota.
      rewrite (proj2 (Z.eqb_neq (p + Z.of_nat i) 0)) by lia. run_step.
      replace (p + Z.of_nat i - p) with (Z.of_nat i) by lia. eapply runs_bind; [exact Htry|]. cbv beta.
      destruct found; [apply runs_ret|]. run_step.
      assert (user_mem w' (p + Z.of_nat i) = 58) as ->; [|exact (Hloop eq_refl)].
      destruct (Ho (p + Z.of_nat i)); [lia|]. rewrite (se_mem _ _ Hs) by done. by eapply cstr_lookup.
  - assert (flush path = path :: dirs_of []) as -> by (by rewrite Heq).
    exists path, [], (p + Z.of_nat (length path)). split_and!.
    + done.
    + rewrite Heq. simpl. lia.
    + split; [exact (cstr_end _ _ _ Hc)|]. intros q Hq. simpl in Hq. apply Ho. lia.
    + lia.
    + intros j c Hj. by eapply cstr_lookup.
    + done.
    + intros q Hq. apply Ho. lia.
    + intros n cmd w' b w2 found Hs Htry Hloop. cbn [path_loop]. run_step.
      rewrite Hmp, (proj2 (Z.eqb_neq _ _) Hch). eapply runs_bind; [apply runs_lift; exact Hchr|]. cbv beta iota.
      change (0 =? 0) with true. cbv iota.
      eapply runs_bind; [eapply runs_bind; [by apply runs_lift, (user_strlen_cstr fuel _ p path)|apply runs_ret]|]. cbv beta.
      replace (p + Z.of_nat (length path) - p) with (Z.of_nat (length path)) by lia.
      eapply runs_bind; [exact Htry|]. cbv beta. destruct found; [apply runs_ret|]. run_step.
      assert (user_mem w' (p + Z.of_nat (length path)) = 0) as ->; [|exact (Hloop eq_refl)].
      destruct (Ho (p + Z.of_nat (length path))); [lia|]. rewrite (se_mem _ _ Hs) by done. by apply cstr_end.
Qed.

(** Every name is answered that is tried, up to the first that can be opened. *)
Fixpoint tried_answered w (str : list Z) (ds : list (list Z)) : Prop :=
  match ds with
  | [] => True
  | d :: ds => answered w str d /\ (dir_ok w str d = false -> tried_answered w str ds)
  end.
Lemma tried_answered_searched w w' str ds : searched w w' -> tried_answered w str ds -> tried_answered w' str ds.
Proof.
  intros Hs. induction ds as [|d ds IH]; [done|]. cbn [tried_answered]. unfold answered, dir_ok.
  rewrite (sf_openable _ _ _ _ _ _ (se_files _ _ Hs)). intros [Ha Hb]. split; [done|]. auto.
Qed.

Lemma runs_path_loop cmd str n : forall w p path,
  (length path < n)%nat -> search_ok w cmd str -> apart_str w p path -> (length path < fuel)%nat -> 0 < p ->
  tried_answered w str (dirs_of path) ->
  exists b w', runs (path_loop fuel n cmd out outsz p) w b w' /\ searched w w' /\
    match first_dir (dir_ok w str) (dirs_of path) with
    | Some d => b = true /\ cstr (user_mem w') out (candidate d str)
    | None => b = false
    end.
Proof.
  induction n as [|n IH]; intros w p path Hn Hso Hpath Hf Hp Hans; [lia|].
  destruct (decide (path = [])) as [->|Hne].
  { exists false, w. split_and!; [|by apply searched_refl, Hso|done].
    cbn [path_loop]. run_step. destruct Hpath as [Hc _]. simpl in Hc. rewrite Hc. apply runs_ret. }
  destruct (path_step w p path Hpath Hne Hf Hp) as (d & rest & p' & Eds & Hlen & Hrest & Hp' & Hd & Hdr & Hdo & Hstep).
  rewrite Eds in Hans |- *. destruct Hans as [Hans Hrec].
  destruct (runs_try_dir w cmd str p d) as (w1 & Htry & Hs1 & Hcand); try apply Hso; [done..|].
  destruct (dir_ok w str d) eqn:E0.
  { exists true, w1. split; [|cbn [first_dir]; rewrite E0; split; [done|]; split; [done|by apply Hcand]].
    by apply (Hstep n cmd w1 true w1 true Hs1 Htry). }
  destruct (IH w1 p' rest) as (b & w2 & Hloop & Hs2 & Hres);
    [lia|by eapply search_ok_searched|by eapply apart_str_searched|lia|done|by apply (tried_answered_searched w), Hrec|].
  exists b, w2. split; [by apply (Hstep n cmd w1 b w2 false Hs1 Htry)|]. cbn [first_dir]. rewrite E0.
  rewrite (first_dir_searched w w1) in Hres by done. split; [by eapply searched_trans|done].
Qed.

(** The path of a command, as the shell means it. *)
Definition resolved w (path str : list Z) : list Z :=
  if decide (47 ∈ str) then str
  else match first_dir (dir_ok w str) (dirs_of path) with
       | Some d => candidate d str
       | None => lit "/bin/" ++ str
       end.

(** The name in [/bin], which is tried without looking whether it is there. *)
Lemma bin_name m cmd str :
  out <> 0 -> 5 < outsz - 1 -> cmd <> 0 -> cstr m cmd str -> (length str < fuel)%nat ->
  (cmd + Z.of_nat (length str) < out \/ out + Z.of_nat (length str) + 5 <= cmd) ->
  snprintf fuel m out outsz (lit "/bin/%s") [cmd] =
  Some (store_bytes m out ((lit "/bin/" ++ str) ++ [0]), Z.of_nat (length (lit "/bin/" ++ str))).
Proof.
  intros Ho Hsz Hc Hs Hf Hd. set (its := (Lit <$> lit "/bin/") ++ [Str (Some str)]).
  assert (items_text (fitted (outsz - 1) its) = lit "/bin/" ++ str) as Ht.
  { cbn. repeat rewrite (proj2 (Z.leb_gt _ 0)) by lia. cbn. by rewrite app_nil_r. }
  pose proof (vsnprintf_text fuel m out outsz its [cmd] Ho ltac:(lia)) as Hv. rewrite Ht in Hv. apply Hv.
  - repeat constructor; try done; unfold chr_percent; lia.
  - intros str' Hin. unfold its in Hin. apply elem_of_app in Hin as [Hin|Hin].
    + by apply list_elem_of_fmap in Hin as (? & ? & _).
    + apply list_elem_of_singleton in Hin. by simplify_eq.
  - do 5 (exists [], [cmd]; split_and!; [done..|]). exists [cmd], []. split_and!; [done| |done]. exists cmd.
    split_and!; [done..|]. rewrite length_app. simpl. lia.
Qed.

Lemma slash_find (str : list Z) : 47 ∈ str <-> is_Some (list_find (47 =.) str).
Proof.
  split.
  - intros Hin. destruct (list_find_elem_of (47 =.) str 47 Hin eq_refl) as [x ?]. by exists x.
  - intros [[i x] (Hi & <- & _)%list_find_Some]. by eapply list_elem_of_lookup_2.
Qed.

Lemma resolve_run w cmd b w1 w' :
  strchr fuel (user_mem w) cmd 47 = Some 0 ->
  runs (path_loop fuel fuel cmd out outsz (path_env img)) w b w1 ->
  runs (if b then mret tt else
        m ← get_mem; '(m, _) ← lift (snprintf fuel m out outsz (lit "/bin/%s") [cmd]); set_mem m) w1 tt w' ->
  runs (resolve_path fuel img cmd out outsz) w tt w'.
Proof.
  intros Hchr Hr Hw'. unfold resolve_path. run_step. eapply runs_bind; [apply runs_lift; exact Hchr|]. cbv beta iota.
  eapply runs_bind; [exact Hr|]. exact Hw'.
Qed.

(** A command with a slash is taken as it is. *)
Lemma resolve_slash w cmd str :
  search_ok w cmd str -> 0 < cmd -> Z.of_nat (length str) + 1 <= outsz -> 47 ∈ str ->
  exists w', runs (resolve_path fuel img cmd out outsz) w tt w' /\ searched w w' /\ cstr (user_mem w') out str.
Proof.
  intros Hso Hcmd Hlen Hin. pose proof (so_cmd _ _ _ Hso) as [Hc Hco].
  pose proof (strchr_spec str fuel (user_mem w) cmd 47 Hc (so_len _ _ _ Hso) ltac:(lia)) as Hchr.
  apply slash_find in Hin as [[i x] E]. rewrite E in Hchr.
  set (m' := memcpy (user_mem w) out cmd (Z.of_nat (length str) + 1)). exists (with_user_mem m' w).
  assert (forall q, m' q = if decide (out <= q < out + (Z.of_nat (length str) + 1)) then user_mem w (cmd + (q - out)) else user_mem w q) as Hm.
  { intros q. apply memcpy_copied_user; [lia|]. destruct (decide (out <= cmd)); [by left|right].
    destruct (decide (cmd + Z.of_nat (length str) + 1 <= out)); [lia|]. destruct (Hco out) as [_ Hn]; [lia|]. lia. }
  split_and!.
  - unfold resolve_path. run_step. eapply runs_bind; [apply runs_lift; exact Hchr|]. cbv beta iota.
    rewrite (proj2 (Z.eqb_neq _ _)) by lia. cbn [negb].
    eapply runs_bind; [apply runs_lift, (user_strlen_cstr fuel _ cmd str); [done|apply Hso]|]. run_step.
  - split; [split; [by apply heap_ok_with, Hso|by rewrite blocks_with|by rewrite avail_with]| |apply files_with].
    intros q _ Hq. rewrite user_mem_with, Hm, decide_False by lia. done.
  - rewrite user_mem_with. apply cstr_intro.
    + intros j c Hj. pose proof (lookup_lt_Some _ _ _ Hj). rewrite Hm, decide_True by lia.
      replace (cmd + (out + Z.of_nat j - out)) with (cmd + Z.of_nat j) by lia. by eapply cstr_lookup.
    + rewrite Hm, decide_True by lia. rewrite <- (cstr_end _ _ _ Hc). f_equal. lia.
Qed.

(** Without one the path is searched, and then [/bin] is assumed. *)
Lemma resolve_search w path cmd str :
  search_ok w cmd str -> 0 < cmd -> Z.of_nat (length str) + 6 <= outsz -> 0 < out -> 7 < outsz -> 47 ∉ str ->
  apart_str w (path_env img) path -> (length path < fuel)%nat -> 0 < path_env img -> tried_answered w str (dirs_of path) ->
  exists w', runs (resolve_path fuel img cmd out outsz) w tt w' /\ searched w w' /\ cstr (user_mem w') out (resolved w path str).
Proof.
  intros Hso Hcmd Hlen Hout Hsz Hnin Hpath Hf Hpe Hans. pose proof (so_cmd _ _ _ Hso) as [Hc Hco].
  pose proof (strchr_spec str fuel (user_mem w) cmd 47 Hc (so_len _ _ _ Hso) ltac:(lia)) as Hchr.
  unfold resolved. rewrite decide_False by done.
  destruct (list_find (47 =.) str) as [[i x]|] eqn:E; [by destruct Hnin; apply slash_find; rewrite E|].
  destruct (runs_path_loop cmd str fuel w (path_env img) path) as (b & w1 & Hr & Hs & Hres); [done..|].
  destruct (first_dir _ _) as [d|].
  - destruct Hres as [-> Hcand]. exists w1. split_and!; [|done..]. eapply resolve_run; [done..|apply runs_ret].
  - subst b. pose proof (search_ok_searched _ _ _ _ Hs Hso) as Hso1. destruct (so_cmd _ _ _ Hso1) as [Hc1 Hco1].
    set (m' := store_bytes (user_mem w1) out ((lit "/bin/" ++ str) ++ [0])). exists (with_user_mem m' w1). split_and!.
    + eapply resolve_run; [done..|]. cbv iota. run_step. eapply runs_bind; [apply runs_lift, bin_name; try done; [lia|lia|lia|apply Hso|]|].
      { destruct (decide (cmd + Z.of_nat (length str) < out)); [by left|right].
        destruct (decide (out + Z.of_nat (length str) + 5 <= cmd)); [done|].
        destruct (Hco (Z.max out cmd)) as [_ Hn]; [lia|]. lia. }
      cbv beta iota. run_step.
    + eapply searched_trans; [exact Hs|].
      split; [split; [by apply heap_ok_with, Hso1|by rewrite blocks_with|by rewrite avail_with]| |apply files_with].
      intros q _ Hq. rewrite user_mem_with. apply store_bytes_outside. rewrite !length_app. simpl. lia.
    + rewrite user_mem_with. apply cstr_store, Forall_app. split; [repeat constructor; lia|by eapply cstr_chars].
Qed.

(** A name that is too long for the buffer is written over its end. *)
Lemma long_name_overruns w path cmd str :
  search_ok w cmd str -> 0 < cmd -> outsz <= Z.of_nat (length str) + 5 -> 0 < out -> 7 < outsz -> 47 ∉ str ->
  (cmd + Z.of_nat (length str) < out \/ out + Z.of_nat (length str) + 5 <= cmd) ->
  first_dir (dir_ok w str) (dirs_of path) = None ->
  apart_str w (path_env img) path -> (length path < fuel)%nat -> 0 < path_env img -> tried_answered w str (dirs_of path) ->
  exists w', runs (resolve_path fuel img cmd out outsz) w tt w' /\ user_mem w' (out + (Z.of_nat (length str) + 5)) = 0.
Proof.
  intros Hso Hcmd Hlen Hout Hsz Hnin Hap Hnone Hpath Hf Hpe Hans. pose proof (so_cmd _ _ _ Hso) as [Hc Hco].
  pose proof (strchr_spec str fuel (user_mem w) cmd 47 Hc (so_len _ _ _ Hso) ltac:(lia)) as Hchr.
  destruct (list_find (47 =.) str) as [[i x]|] eqn:E; [by destruct Hnin; apply slash_find; rewrite E|].
  destruct (runs_path_loop cmd str fuel w (path_env img) path) as (b & w1 & Hr & Hs & Hres); [done..|].
  rewrite Hnone in Hres. subst b. pose proof (search_ok_searched _ _ _ _ Hs Hso) as Hso1. destruct (so_cmd _ _ _ Hso1) as [Hc1 _].
  eexists. split.
  - eapply resolve_run; [done..|]. cbv iota. run_step. eapply runs_bind; [apply runs_lift, bin_name; try done; [lia|lia|lia|apply Hso]|].
    cbv beta iota. run_step.
  - rewrite user_mem_with, store_bytes_app, store_bytes_spec, length_app. simpl. rewrite decide_True by lia.
    by replace (Z.to_nat _) with 0%nat by lia.
Qed.
End Path.

(** C14. The search for a program, for a command that is at least six characters shorter than the buffer (a longer one is written over its end).  A command with a slash is copied to
    the buffer.  Any other is looked for in the directories of the path in their order: the buffer holds the first name, of those it has room for, that can be
    opened for reading, and the name in [/bin] when none can.  No handle stays open, and nothing outside the
    buffer changes.  The kernel is taken to answer each [open] of the search, that is, a missing file is reported and does not stop the machine. *)
Theorem resolve_path_correct {W : Type} `{UserFiles W} fuel img (w : W) out outsz cmd str path :
  search_ok fuel out outsz w cmd str -> 0 < cmd -> 0 < out -> Z.of_nat (length str) + 6 <= outsz -> 7 < outsz ->
  apart_str out outsz w (path_env img) path -> (length path < fuel)%nat -> 0 < path_env img ->
  (47 ∉ str -> tried_answered outsz w str (dirs_of path)) ->
  exists w', runs (resolve_path fuel img cmd out outsz) w tt w' /\ searched out outsz w w' /\
    cstr (user_mem w') out (resolved outsz w path str).
Proof.
  intros Hso Hcmd Hout Hlen Hsz Hpath Hf Hpe Hans. destruct (decide (47 ∈ str)) as [Hin|Hnin].
  - destruct (resolve_slash fuel img out outsz w cmd str) as (w' & Hr & Hs & Hc); [done..|lia|done|].
    exists w'. split_and!; [done..|]. unfold resolved. by rewrite decide_True.
  - specialize (Hans Hnin). by eapply resolve_search.
Qed.

(** The command ["ls"] at 1600 with the path ["/sbin::/usr/bin"] at 1500; the buffer is at 3000. *)
Definition demo_search : demo :=
  Demo (store_bytes (store_bytes (fun _ => 7) 1500 (lit "/sbin::/usr/bin" ++ [0])) 1600 (lit "ls" ++ [0]))
    ∅ [] {[0; 1; 2]} [lit "/usr/bin/ls"] [] (lit "/") [].
Definition demo_image : shell_image := ShellImage 1000 1256 1500 1700 [] 2000 3000 3256 4000.

Lemma resolve_path_correct_witness :
  exists w', runs (resolve_path 30 demo_image 1600 3000 256) demo_search tt w' /\
    cstr (user_mem w') 3000 (lit "/usr/bin/ls").
Proof.
  destruct (resolve_path_correct 30 demo_image demo_search 3000 256 1600 (lit "ls") (lit "/sbin::/usr/bin"))
    as (w' & Hr & _ & Hc).
  - split.
    + split; [by intros a n Ha|repeat constructor; simpl; lia].
    + vm_compute. lia.
    + split; [by vm_compute|]. intros q Hq. simpl in Hq. split; [left; simpl; lia|lia].
    + simpl. lia.
    + intros q Hq. left. simpl. lia.
  - lia.
  - lia.
  - simpl. lia.
  - lia.
  - split; [by vm_compute|]. intros q Hq. simpl in Hq. split; [left; simpl; lia|lia].
  - simpl. lia.
  - simpl. lia.
  - intros _. vm_compute. repeat split; try (intros; by eexists); intros ?; repeat split; by eexists.
  - exists w'. split; [exact Hr|]. exact Hc.
Defined.
