(* ===== verification/ShellTurn.v ===== *)
(** * The shell: a turn of its loop

    Prompt, input, command and clean-up of [main] in [user/shell.c], from the typed line to what is printed. *)

From Stdlib Require Import String Ascii.
From S2P Require Import Prelude KLib Kprint Libc LibcProofs UserLaws UserDemo Shell ShellProofs ShellRun.

(** Reading from the terminal hands out the typed lines, one for each call, without their end, cut to the length asked
    for. *)
Class UserInput (W : Type) `{UserFiles W} := {
  lines : W -> list (list Z);
  lines_with m w : lines (with_user_mem m w) = lines w;
  lines_other n args w r w' : n <> 4 -> runs (syscall n args) w r w' -> lines w' = lines w;
  read_law w len buf l ls :
    heap_ok w -> lines w = l :: ls -> 0 <= len <= 4096 -> (forall q, buf <= q < buf + len -> owned w q) ->
    exists r w', runs (syscall 4 [STDIN; len; buf]) w r w' /\ same_heap w w' /\ lines w' = ls /\
      (forall q, owned w q -> user_mem w' q = store_bytes (user_mem w) buf (take (Z.to_nat len) l) q) /\
      same_files output handles openable cwd_of w w';
}.

#[global] Program Instance demo_input : UserInput demo := {| lines := d_lines |}.
Next Obligation. done. Qed.
Next Obligation.
  intros n args w r w' Hn Hr. unfold runs, syscall, demo_kernel, demo_syscall in Hr.
  destruct args as [|a [|b [|c [|d args]]]]; repeat case_match; simplify_eq; try done; simpl in *; lia.
Qed.
Next Obligation.
  intros w len buf l ls Hok Hl Hlen Ho. unfold runs, syscall, demo_kernel, demo_syscall. simpl in *. rewrite Hl.
  eexists _, _. split; [reflexivity|]. by split_and!.
Qed.

Section Turn.
Context {W : Type} `{UserInput W} (fuel : nat) (img : shell_image).
Implicit Types w : W.

(** What a step may change: the bytes of [R], the output and the lines. *)
Record changed (R : Z -> Prop) (o : list (Z * list Z)) w w' : Prop := {
  ch_heap : same_heap w w';
  ch_mem : forall q, owned w q -> ~ R q -> user_mem w' q = user_mem w q;
  ch_output : output w' = output w ++ o;
  ch_handles : handles w' = handles w;
  ch_openable : forall path, openable w' path = openable w path;
  ch_cwd : cwd_of w' = cwd_of w;
}.

Lemma changed_owned R o w w' q : changed R o w w' -> owned w q -> owned w' q.
Proof. intros [[_ Hb _] _ _ _ _ _] Ho. unfold owned. by rewrite Hb. Qed.
Lemma changed_trans R o1 o2 w w1 w2 : changed R o1 w w1 -> changed R o2 w1 w2 -> changed R (o1 ++ o2) w w2.
Proof.
  intros Hc [[Hok Hb Hav] Hm Ho Hh Hp Hcwd]. pose proof Hc as [[_ Hb1 Hav1] Hm1 Ho1 Hh1 Hp1 Hcwd1]. split.
  - split; [done|congruence|congruence].
  - intros q Hq Hr. rewrite Hm, Hm1; [done..| |done]. by eapply changed_owned.
  - by rewrite Ho, Ho1, app_assoc.
  - congruence.
  - intros path. by rewrite Hp.
  - congruence.
Qed.
Lemma changed_weaken (R R' : Z -> Prop) o w w' : (forall q, R q -> R' q) -> changed R o w w' -> changed R' o w w'.
Proof. intros HR [Hh Hm Ho Hhs Hp Hc]. split; try done. intros q Hq Hr. apply Hm; [done|]. naive_solver. Qed.
Lemma printed_changed w w' o R : printed w w' o -> changed R o w w'.
Proof. intros ([Hh Hm] & Ho & Hhs & Hp & Hc). split; try done. intros q Hq _. by apply Hm. Qed.

Definition range (lo n : Z) (q : Z) : Prop := lo <= q < lo + n.

Lemma store_changed (R : Z -> Prop) m w :
  heap_ok w -> (forall q, ~ R q -> m q = user_mem w q) -> changed R [] w (with_user_mem m w).
Proof.
  intros Hok Hm. destruct (files_with m w) as [Ho Hh Hp Hc]. split; [split| |..]; rewrite ?blocks_with, ?avail_with, ?app_nil_r; try done.
  - by apply heap_ok_with.
  - intros q _ Hr. rewrite user_mem_with. by apply Hm.
Qed.

Lemma memset_run w dst size :
  heap_ok w -> 0 <= size ->
  exists w', runs (change_mem (fun m => memset m dst 0 size)) w tt w' /\ changed (range dst size) [] w w' /\
    (forall q, range dst size q -> user_mem w' q = 0) /\ lines w' = lines w.
Proof.
  intros Hok Hs. eexists. split; [apply runs_change_mem|]. split_and!.
  - apply store_changed; [done|]. intros q Hq. rewrite memset_spec, decide_False by done. done.
  - intros q Hq. rewrite user_mem_with, memset_spec, decide_True by done. done.
  - apply lines_with.
Qed.

(** ** The prompt *)

Lemma runs_get_cwd w :
  heap_ok w -> Z.of_nat (length (cwd_of w)) < BUF_SIZE -> Forall (fun c => 0 < c < 256) (cwd_of w) ->
  (forall q, range (cwd img) BUF_SIZE q -> image q) ->
  exists w', runs (get_cwd img) w (cwd img) w' /\ changed (range (cwd img) BUF_SIZE) [] w w' /\
    cstr (user_mem w') (cwd img) (cwd_of w) /\ lines w' = lines w.
Proof.
  intros Hok Hl Hc Him. unfold range in *.
  destruct (memset_run w (cwd img) BUF_SIZE Hok ltac:(unfold BUF_SIZE; lia)) as (w1 & Hr1 & Hc1 & _ & Hl1).
  destruct (getcwd_law w1 (cwd img) BUF_SIZE) as (r & w2 & Hr2 & Hh2 & Hm2 & Hf2).
  { apply Hc1. }
  { by rewrite (ch_cwd _ _ _ _ Hc1). }
  { by rewrite (ch_cwd _ _ _ _ Hc1). }
  { intros q Hq. left. by apply Him. }
  rewrite (ch_cwd _ _ _ _ Hc1) in Hm2. exists w2. split_and!.
  - unfold get_cwd. eapply runs_bind; [exact Hr1|]. cbv beta.
    eapply runs_bind; [eapply runs_bind; [exact Hr2|apply runs_ret]|]. apply runs_ret.
  - eapply (changed_trans _ [] []); [exact Hc1|]. destruct Hf2 as [Ho Hh Hp Hcw].
    split; rewrite ?app_nil_r; try done. intros q Hq Hr. rewrite Hm2 by done. apply store_bytes_outside.
    rewrite length_app. unfold range in Hr. simpl. lia.
  - eapply cstr_ext; [|apply (cstr_store (cwd_of w) (user_mem w1) (cwd img) Hc)]. intros q Hq.
    apply Hm2. left. apply Him. lia.
  - rewrite (lines_other 15 _ _ _ _ ltac:(lia) Hr2). done.
Qed.

(** ** What a function does not change

    An observation of the system that only some calls change is kept by every function that makes none of them, by
    the structure of the function. *)
Section Keeps.
Context {X : Type} (obs : W -> X) (calls : Z -> Prop).
Hypothesis obs_with : forall m w, obs (with_user_mem m w) = obs w.
Hypothesis obs_call : forall n args w r w', calls n -> runs (syscall n args) w r w' -> obs w' = obs w.
Hypothesis Hvmalloc : calls 8.
Hypothesis Hvfree : calls 9.

Definition keeps_obs {A} (c : U W A) : Prop := forall w a w', runs c w a w' -> obs w' = obs w.

Lemma keeps_ret {A} (a : A) : keeps_obs (mret a).
Proof. intros w b w' Hr. by injection Hr as <- <-. Qed.
Lemma keeps_lift {A} (o : option A) : keeps_obs (lift o).
Proof. intros w b w' Hr. unfold runs, lift in Hr. by destruct o; simplify_eq/=. Qed.
Lemma keeps_bind {A B} (c : U W A) (f : A -> U W B) : keeps_obs c -> (forall a, keeps_obs (f a)) -> keeps_obs (c ≫= f).
Proof.
  intros Hc Hf w b w' Hr. unfold runs, mbind, U_bind in Hr. destruct (c w) as [[a w1|w1]|] eqn:E; [|done..].
  rewrite <- (Hc _ _ _ E). by eapply Hf.
Qed.
Lemma keeps_get_mem : keeps_obs get_mem.
Proof. intros w b w' Hr. by injection Hr as _ <-. Qed.
Lemma keeps_set_mem m : keeps_obs (set_mem m).
Proof. intros w b w' Hr. injection Hr as _ <-. apply obs_with. Qed.
Lemma keeps_syscall n args : calls n -> keeps_obs (syscall n args).
Proof. intros Hn w a w'. by apply obs_call. Qed.
Lemma keeps_if {A} (b : bool) (c d : U W A) : keeps_obs c -> keeps_obs d -> keeps_obs (if b then c else d).
Proof. by destruct b. Qed.
Lemma keeps_pair {A B C} (x : A * B) (f : A -> B -> U W C) :
  (forall a b, keeps_obs (f a b)) -> keeps_obs (let '(a, b) := x in f a b).
Proof. by destruct x. Qed.

Ltac keeps := repeat first [ match goal with |- forall _, _ => intro end | apply keeps_bind | apply keeps_if
  | apply keeps_pair | apply keeps_ret | apply keeps_lift | apply keeps_get_mem | apply keeps_set_mem
  | apply keeps_syscall; assumption ].

Lemma keeps_vdprintf fd fmt args : calls 5 -> keeps_obs (vdprintf fuel fd fmt args).
Proof. intros H5. keeps. Qed.
Lemma keeps_echo_args n p : calls 5 -> forall i, keeps_obs (echo_args fuel n p i).
Proof. intros H5. induction n as [|n IH]; intros i; cbn [echo_args]; keeps. apply IH. Qed.
Lemma keeps_echo p : calls 5 -> keeps_obs (run_echo fuel p).
Proof. intros H5. unfold run_echo. keeps. by apply keeps_echo_args. Qed.
Lemma keeps_parse_loop n p raw : forall i tok, keeps_obs (parse_loop fuel n p raw i tok).
Proof. induction n as [|n IH]; intros i tok; cbn [parse_loop]; keeps; apply IH. Qed.
Lemma keeps_parse_cmd s p : keeps_obs (parse_cmd fuel s p).
Proof. unfold parse_cmd. keeps; apply keeps_parse_loop. Qed.
Lemma keeps_free_args n p : forall i, keeps_obs (free_args n p i).
Proof. induction n as [|n IH]; intros i; cbn [free_args]; keeps. apply IH. Qed.
Lemma keeps_parse_free p : keeps_obs (parse_free p).
Proof. unfold parse_free. keeps. apply keeps_free_args. Qed.
End Keeps.

(** The files as one observation. *)
Definition files_of w : list (Z * list Z) * gset Z * list Z := (output w, handles w, cwd_of w).
Lemma files_of_with m w : files_of (with_user_mem m w) = files_of w.
Proof. destruct (files_with m w) as [Ho Hh _ Hc]. unfold files_of. by rewrite Ho, Hh, Hc. Qed.
Lemma files_of_call n args w r w' : n = 8 \/ n = 9 -> runs (syscall n args) w r w' -> files_of w' = files_of w.
Proof. intros Hn Hr. destruct (alloc_files n args w r w' Hn Hr) as [Ho Hh _ Hc]. unfold files_of. by rewrite Ho, Hh, Hc. Qed.

(** ** The input line *)

(** The line in the local buffer. *)
Lemma runs_scan_line w rbuf line ls :
  heap_ok w -> lines w = line :: ls -> Forall (fun c => 0 < c < 256) line -> (forall q, range rbuf 4096 q -> image q) ->
  exists w', runs (scan_line rbuf 4095) w tt w' /\ changed (range rbuf 4096) [] w w' /\ lines w' = ls /\
    cstr (user_mem w') rbuf (take 4095 line).
Proof.
  intros Hok Hl Hc Him. destruct (memset_run w rbuf 4096 Hok ltac:(lia)) as (w1 & Hr1 & Hc1 & Hz1 & Hl1).
  destruct (read_law w1 4095 rbuf line ls) as (r & w2 & Hr2 & Hh2 & Hl2 & Hm2 & Hf2).
  { apply Hc1. }
  { by rewrite Hl1. }
  { lia. }
  { intros q Hq. left. apply Him. unfold range. lia. }
  change (Z.to_nat 4095) with 4095%nat in Hm2. exists w2. split_and!.
  - unfold scan_line. eapply runs_bind; [exact Hr1|]. cbv beta.
    eapply runs_bind; [eapply runs_bind; [exact Hr2|apply runs_ret]|]. apply runs_ret.
  - eapply (changed_trans _ [] []); [exact Hc1|]. destruct Hf2 as [Ho Hh Hp Hcw].
    split; rewrite ?app_nil_r; try done. intros q Hq Hr. rewrite Hm2 by done. apply store_bytes_outside.
    rewrite length_take. unfold range in Hr. lia.
  - done.
  - assert (forall q, rbuf <= q < rbuf + 4096 -> owned w1 q) as Ho by (intros q Hq; left; by apply Him).
    pose proof (length_take line 4095) as Hlt. apply cstr_intro.
    + intros i c Hi. pose proof (lookup_lt_Some _ _ _ Hi). rewrite Hm2 by (apply Ho; lia).
      rewrite store_bytes_spec, decide_True by lia. replace (Z.to_nat (rbuf + Z.of_nat i - rbuf)) with i by lia.
      rewrite list_lookup_total_alt, Hi. split; [done|]. apply lookup_take_Some in Hi as [Hi _].
      exact (Forall_lookup_1 _ _ _ _ Hc Hi).
    + rewrite Hm2 by (apply Ho; lia). rewrite store_bytes_spec, decide_False by lia. apply Hz1. unfold range. lia.
Qed.

(** The buffers of the shell, in its image and apart from each other. *)
Definition buffers : list (Z * Z) :=
  [(cwd img, BUF_SIZE); (input_buf img, BUF_SIZE); (a_parse img, SIZEOF_CMD_PARSE); (a_rbuf img, 4096)].
Definition in_buffers (q : Z) : Prop := Exists (fun b => range b.1 b.2 q) buffers.

Record layout : Prop := {
  ly_image : forall q, in_buffers q -> image q;
  ly_apart : forall i j b c q, buffers !! i = Some b -> buffers !! j = Some c -> range b.1 b.2 q -> range c.1 c.2 q -> i = j;
  ly_pos : Forall (fun b => 0 < b.1) buffers;
}.

Lemma read_line_run w w1 w2 indet str :
  let rb := a_rbuf img in
  let m3 := upd (user_mem w2) (rb + 4095) 0 in
  runs (change_mem (fun m => memset m (input_buf img) 0 BUF_SIZE)) w tt w1 ->
  runs (scan_line rb 4095) w1 tt w2 -> cstr m3 rb str -> (length str < fuel)%nat ->
  runs (read_line fuel img indet) w (input_buf img)
    (with_user_mem (memcpy m3 (input_buf img) rb (Z.min (Z.of_nat (length str)) 255)) (with_user_mem m3 w2)).
Proof.
  intros rb m3 Hr1 Hr2 Hc Hf. unfold read_line. eapply runs_bind; [exact Hr1|]. cbv beta.
  eapply runs_bind; [|apply runs_ret]. unfold scanf, vscanf. change (lit "%s") with [37; 115].
  eapply runs_bind; [|apply runs_ret]. cbn [length scan_loop]. change (37 =? chr_percent) with true. cbn [negb].
  change (parse_lflag [115]) with (0, 115, Some (@nil Z)). cbv iota. eapply runs_bind; [|apply runs_ret].
  unfold scan_convert. change (115 =? 100) with false. change (115 =? 117) with false. change (115 =? 115) with true. cbv iota.
  eapply runs_bind; [exact Hr2|]. cbv beta. do 2 run_step. rewrite user_mem_with. fold m3.
  eapply runs_bind; [apply runs_lift, (user_strlen_cstr fuel _ rb str); done|]. cbv beta.
  eapply runs_bind; [by apply runs_lift|]. cbv beta iota. eapply runs_bind; [apply runs_set_mem|]. apply runs_ret.
Qed.

Lemma runs_read_line w indet line ls :
  layout -> heap_ok w -> lines w = line :: ls -> Forall (fun c => 0 < c < 256) line -> (length line < fuel)%nat ->
  exists w', runs (read_line fuel img indet) w (input_buf img) w' /\ changed in_buffers [] w w' /\ lines w' = ls /\
    cstr (user_mem w') (input_buf img) (take 255 line).
Proof.
  intros Hly Hok Hl Hc Hf. set (ib := input_buf img). set (rb := a_rbuf img).
  assert (forall q, range ib BUF_SIZE q -> in_buffers q) as Hib by (intros; right; by left).
  assert (forall q, range rb 4096 q -> in_buffers q) as Hrb by (intros; do 3 right; by left).
  assert (forall q, range ib BUF_SIZE q -> ~ range rb 4096 q) as Hap.
  { intros q H3 H4. by discriminate (ly_apart Hly 1 3 _ _ q eq_refl eq_refl H3 H4). }
  destruct (memset_run w ib BUF_SIZE Hok ltac:(unfold BUF_SIZE; lia)) as (w1 & Hr1 & Hc1 & Hz1 & Hl1).
  destruct (runs_scan_line w1 rb line ls) as (w2 & Hr2 & Hc2 & Hl2 & Hs2); [apply Hc1|by rewrite Hl1|done| |].
  { intros q Hq. by apply (ly_image Hly), Hrb. }
  set (m3 := upd (user_mem w2) (rb + 4095) 0). set (w3 := with_user_mem m3 w2).
  pose proof (length_take line 4095) as Hlt.
  assert (cstr m3 rb (take 4095 line)) as Hs3.
  { eapply cstr_ext; [|exact Hs2]. intros q Hq. unfold m3, upd. destruct (Z.eqb_spec q (rb + 4095)) as [->|]; [|done].
    assert (length (take 4095 line) = 4095%nat) as Hfull by lia. symmetry. rewrite <- (cstr_end _ _ _ Hs2). f_equal. lia. }
  set (n := Z.min (Z.of_nat (length (take 4095 line))) 255).
  set (m4 := memcpy m3 ib rb n).
  assert (forall q, m4 q = if decide (ib <= q < ib + n) then m3 (rb + (q - ib)) else m3 q) as Hm4.
  { intros q. apply memcpy_copied_user; [lia|]. destruct (decide (ib <= rb)); [by left|right].
    destruct (decide (rb + n <= ib)); [done|]. destruct (Hap ib); unfold range, BUF_SIZE; lia. }
  exists (with_user_mem m4 w3).
  assert (heap_ok w2) as Hok2 by apply Hc2.
  split_and!.
  - apply (read_line_run w w1 w2 indet (take 4095 line)); [done..|]. lia.
  - eapply (changed_trans _ [] []); [eapply changed_weaken; [exact Hib|exact Hc1]|].
    eapply (changed_trans _ [] []); [eapply changed_weaken; [exact Hrb|exact Hc2]|].
    eapply (changed_trans _ [] []).
    + apply (store_changed _ m3); [done|]. intros q Hq. unfold m3, upd. rewrite (proj2 (Z.eqb_neq _ _)); [done|].
      intros ->. apply Hq, Hrb. unfold range. lia.
    + apply store_changed; [by apply heap_ok_with|]. intros q Hq. unfold w3. rewrite user_mem_with, Hm4, decide_False; [done|].
      intros Hin. apply Hq, Hib. unfold range, BUF_SIZE. lia.
  - rewrite lines_with. unfold w3. by rewrite lines_with.
  - rewrite user_mem_with. replace (take 255 line) with (take (Z.to_nat n) (take 4095 line)).
    2:{ rewrite take_take. destruct (decide (length line <= 255)%nat); [|f_equal; lia].
        rewrite (take_ge line 255) by lia. apply take_ge. lia. }
    apply cstr_intro.
    + intros i c Hi. pose proof (lookup_lt_Some _ _ _ Hi) as Hlt'. rewrite length_take in Hlt'.
      apply lookup_take_Some in Hi as [Hi _]. rewrite Hm4, decide_True by lia.
      replace (rb + (ib + Z.of_nat i - ib)) with (rb + Z.of_nat i) by lia. by eapply cstr_lookup.
    + rewrite length_take. rewrite Hm4, decide_False by lia.
      assert (range ib BUF_SIZE (ib + Z.of_nat (Z.to_nat n `min` length (take 4095 line)))) as Hin by (unfold range, BUF_SIZE; lia).
      unfold m3, upd. rewrite (proj2 (Z.eqb_neq _ _)).
      2:{ intros He. apply (Hap _ Hin). rewrite He. unfold range. lia. }
      rewrite (ch_mem _ _ _ _ Hc2), Hz1; [done..| |by apply Hap]. left. by apply (ly_image Hly), Hib.
Qed.

(** ** The commands *)

(** The names of the commands are literals of the image, outside the buffers. *)
Definition names_ok w : Prop :=
  Forall2 (fun a e => cstr (user_mem w) a (lit e.1) /\
             forall q, a <= q <= a + Z.of_nat (length (lit e.1)) -> image q /\ ~ in_buffers q)
          (builtin_names img) builtins.

Fixpoint builtin_of (fns : list (string * builtin_fn)) (str : list Z) : option builtin_fn :=
  match fns with
  | [] => None
  | (s, f) :: fns => if decide (lit s = str) then Some f else builtin_of fns str
  end.

Lemma find_name_spec m name str names fns :
  cstr m name str -> Forall2 (fun a e => cstr m a (lit e.1)) names fns ->
  Forall (fun e => (length (lit e.1) < fuel)%nat) fns ->
  find_name fuel m names fns name = Some (builtin_of fns str).
Proof.
  intros Hc Hn Hf. induction Hn as [|a [s f] names fns Ha Hn IH]; [done|]. apply Forall_cons in Hf as [Hs Hf].
  cbn [find_name builtin_of]. destruct (strcmp_zero (lit s) fuel m a name str Ha Hc Hs) as (r & -> & Hr).
  cbn [mbind option_bind]. destruct (decide (lit s = str)) as [He|Hne].
  - apply Hr in He as ->. done.
  - rewrite (proj2 (Z.eqb_neq r 0)) by (by intros ?%Hr). by apply IH.
Qed.

Lemma names_changed w w' o : names_ok w -> changed in_buffers o w w' -> names_ok w'.
Proof.
  intros Hn Hc. eapply Forall2_impl; [exact Hn|]. intros a e [Hs Hq]. split; [|done].
  eapply cstr_ext; [|exact Hs]. intros q Hin. destruct (Hq q Hin). apply (ch_mem _ _ _ _ Hc); [by left|done].
Qed.

Lemma runs_find_builtin w name str :
  names_ok w -> (4 < fuel)%nat -> cstr (user_mem w) name str ->
  runs (find_builtin fuel img name) w (builtin_of builtins str) w.
Proof.
  intros Hn Hf Hc. unfold find_builtin. run_step. apply runs_lift. apply find_name_spec; [done| |].
  - eapply Forall2_impl; [exact Hn|]. by intros a e [Hs _].
  - repeat constructor; simpl; lia.
Qed.

(** ** A turn *)

(** The buffers are the program's. *)
Lemma buffer_image i b q : layout -> buffers !! i = Some b -> range b.1 b.2 q -> image q /\ in_buffers q.
Proof.
  intros Hly Hb Hq. assert (in_buffers q) as Hin by (apply Exists_exists; exists b; split; [by eapply list_elem_of_lookup_2|done]).
  split; [by apply (ly_image Hly)|done].
Qed.

(** The prompt and the line: [run_line] goes on with the line in [input_buf]. *)
Lemma turn_front w indet line ls :
  layout -> heap_ok w -> (0 < avail w)%nat ->
  Z.of_nat (length (cwd_of w)) < BUF_SIZE -> Forall (fun c => 0 < c < 256) (cwd_of w) -> (BUF_SIZE <= Z.of_nat fuel) ->
  lines w = line :: ls -> Forall (fun c => 0 < c < 256) line -> (length line < fuel)%nat ->
  exists w1, changed in_buffers [(STDOUT, cwd_of w ++ lit "$: ")] w w1 /\ lines w1 = ls /\
    cstr (user_mem w1) (input_buf img) (take 255 line) /\
    forall b w2, runs (run_line fuel img (input_buf img) (a_parse img)) w1 b w2 -> runs (main_turn fuel img indet) w b w2.
Proof.
  intros Hly Hok Hav Hcl Hcc Hfu Hl Hlc Hlf. unfold BUF_SIZE in *.
  assert (forall q, range (cwd img) BUF_SIZE q -> image q /\ in_buffers q) as Hci.
  { intros q. by apply (buffer_image 0 (cwd img, BUF_SIZE)). }
  destruct (runs_get_cwd w Hok Hcl Hcc) as (wa & Hra & Hca & Hsa & Hla); [by intros; apply Hci|].
  destruct (runs_print_str fuel wa STDOUT [] (lit "$: ") (cwd img) (cwd_of w)) as (n & wb & Hrb & Hpb).
  { apply Hca. }
  { by rewrite (sh_avail _ _ (ch_heap _ _ _ _ Hca)). }
  { pose proof (ly_pos Hly) as Hpos. apply Forall_cons in Hpos as [Hpos _]. simpl in Hpos. lia. }
  { done. }
  { intros q Hq. left. apply Hci. unfold range, BUF_SIZE. lia. }
  { lia. }
  { cbn. repeat constructor; unfold chr_percent; lia. }
  { cbn [app]. rewrite length_app. unfold PRINT_BUF_SIZE. simpl. lia. }
  assert (changed in_buffers [(STDOUT, cwd_of w ++ lit "$: ")] wa wb) as Hcb by (by apply printed_changed).
  assert (lines wb = lines wa) as Hlb.
  { eapply (keeps_vdprintf lines (fun n => n <> 4)); [..|exact Hrb]; try lia; [apply lines_with|].
    intros k args x r x' Hk. by apply lines_other. }
  destruct (runs_read_line wb indet line ls) as (wc & Hrc & Hcc' & Hlc' & Hsc); [done|apply Hcb| |done|done|].
  { by rewrite Hlb, Hla. }
  exists wc. split_and!; [|done|done|].
  - eapply (changed_trans _ [] [(STDOUT, cwd_of w ++ lit "$: ")]).
    { eapply changed_weaken; [|exact Hca]. by intros q [_ Hq]%Hci. }
    rewrite <- (app_nil_r [_]). by eapply changed_trans.
  - intros b w2 Hgo. unfold main_turn. eapply runs_bind; [exact Hra|]. cbv beta. eapply runs_bind; [exact Hrb|]. cbv beta.
    eapply runs_bind; [exact Hrc|]. exact Hgo.
Qed.

(** [cs] are the characters of a line: those of its words are no longer. *)
Lemma words_from_length rest : forall cur x, x ∈ words_from cur rest -> (length x <= length cur + length rest)%nat.
Proof.
  induction rest as [|c rest IH]; intros cur x Hx; cbn [words_from] in Hx.
  - destruct cur; cbn in Hx; [by apply not_elem_of_nil in Hx|]. apply list_elem_of_singleton in Hx as ->. lia.
  - destruct (c =? 32).
    + apply elem_of_app in Hx as [Hx|Hx]; [|apply IH in Hx; simpl in *; lia].
      destruct cur; cbn in Hx; [by apply not_elem_of_nil in Hx|]. apply list_elem_of_singleton in Hx as ->. simpl. lia.
    + apply IH in Hx. rewrite length_app in Hx. simpl in *. lia.
Qed.

(** A line that calls [echo]. *)
Lemma run_line_echo w line args :
  layout -> names_ok w -> heap_ok w -> (17 < avail w)%nat -> BUF_SIZE <= Z.of_nat fuel ->
  cstr (user_mem w) (input_buf img) line -> Z.of_nat (length line) < BUF_SIZE -> words line = lit "echo" :: args ->
  exists w', runs (run_line fuel img (input_buf img) (a_parse img)) w tt w' /\ same_heap w w' /\ lines w' = lines w /\
    files_of w' = (output w ++ ((fun x => (STDOUT, x ++ [32])) <$> take 15 args) ++ [(STDOUT, [10])], handles w, cwd_of w) /\
    (forall q, owned w q -> ~ in_buffers q -> user_mem w' q = user_mem w q).
Proof.
  intros Hly Hn Hok Hav Hfu Hc Hlen Hw. set (p := a_parse img). unfold BUF_SIZE in *.
  assert (forall q, p <= q < p + SIZEOF_CMD_PARSE -> image q /\ in_buffers q) as Hpi.
  { intros q Hq. by apply (buffer_image 2 (p, SIZEOF_CMD_PARSE)). }
  assert (line <> []) as Hne by (intros ->; done).
  destruct (runs_parse_cmd fuel w p (fun q Hq => proj1 (Hpi q Hq)) (input_buf img) line) as (raw & l & w1 & Hr1 & Hl1 & Hp1);
    [done|done|done|lia|lia| |..].
  { intros q Hq. assert (range (input_buf img) BUF_SIZE q) as Hin by (unfold range, BUF_SIZE; lia).
    destruct (buffer_image 1 (input_buf img, BUF_SIZE) q Hly eq_refl Hin) as [Hi _]. split; [done|].
    intros Hq'. by discriminate (ly_apart Hly 1 2 _ _ q eq_refl eq_refl Hin Hq'). }
  { rewrite length_take. lia. }
  rewrite Hw in Hl1. cbn [take] in Hl1. destruct l as [|[a x] l]; [done|]. cbn [fmap list_fmap] in Hl1. injection Hl1 as Hx Hl1.
  simpl in Hx. subst x. pose proof (ps_avail _ _ _ _ _ _ Hp1) as Hav1. pose proof (ps_len _ _ _ _ _ _ Hp1) as Hlen1. cbn [length] in Hav1, Hlen1.
  destruct (parsed_arg w w1 p raw _ ((a, lit "echo") :: l) 0 a (lit "echo") Hp1 eq_refl) as (Ha & Hca & Hoa & Hra).
  assert (names_ok w1) as Hn1.
  { eapply Forall2_impl; [exact Hn|]. intros b e [Hs Hq]. split; [|done]. eapply cstr_ext; [|exact Hs]. intros q Hin.
    destruct (Hq q Hin) as [Hi Hb]. apply (ps_frame _ _ _ _ _ _ Hp1); [by left|]. intros Hin'. by apply Hb, Hpi. }
  destruct (runs_run_echo fuel w w1 p raw _ _ (fun q Hq => proj1 (Hpi q Hq)) Hp1) as (w2 & Hr2 & Hp2); [lia| |done|].
  { cbn [fmap list_fmap]. constructor; [unfold printable, PRINT_BUF_SIZE; simpl; lia|]. rewrite Hl1. apply Forall_take, Forall_forall.
    intros x Hx. assert (x ∈ words line) as Hin by (rewrite Hw; by right). apply words_from_length in Hin.
    unfold printable, PRINT_BUF_SIZE. simpl in Hin. lia. }
  pose proof (parsed_kept _ _ _ _ _ _ _ (fun q Hq => proj1 (Hpi q Hq)) Hp1 (proj1 Hp2)) as Hp2'.
  destruct (runs_parse_free w p (fun q Hq => proj1 (Hpi q Hq)) w2 raw _ _ Hp2') as (w3 & Hr3 & Hok3 & Hb3 & Hav3 & Hm3).
  assert (forall n args x r x', n <> 4 -> runs (syscall n args) x r x' -> lines x' = lines x) as Hlo by (intros; by eapply lines_other).
  exists w3. split_and!.
  - unfold run_line. run_step. eapply runs_bind; [apply runs_lift, (user_strlen_cstr fuel _ _ line); [done|lia]|]. cbv beta.
    rewrite (proj2 (Z.eqb_neq _ _)) by (destruct line; simpl; [done|lia]).
    eapply runs_bind; [exact Hr1|]. cbv beta. eapply runs_bind; [by eapply runs_cnt|]. cbv beta.
    rewrite (proj2 (Z.eqb_neq _ _)) by (simpl; lia). eapply runs_bind; [|exact Hr3]. unfold run_command.
    eapply runs_bind; [exact Hra|]. cbv beta. eapply runs_bind; [apply (runs_find_builtin w1 a (lit "echo")); [done|lia|done]|].
    exact Hr2.
  - by split.
  - rewrite (keeps_parse_free lines (fun n => n <> 4) lines_with Hlo ltac:(cbv beta; lia) _ _ _ _ Hr3).
    rewrite (keeps_echo lines (fun n => n <> 4) lines_with Hlo ltac:(cbv beta; lia) ltac:(cbv beta; lia) _ ltac:(cbv beta; lia) _ _ _ Hr2).
    exact (keeps_parse_cmd lines (fun n => n <> 4) lines_with Hlo ltac:(cbv beta; lia) _ _ _ _ _ Hr1).
  - rewrite (keeps_parse_free files_of _ files_of_with files_of_call ltac:(by right) _ _ _ _ Hr3).
    pose proof (keeps_parse_cmd files_of _ files_of_with files_of_call ltac:(by left) _ _ _ _ _ Hr1) as Hf1.
    unfold files_of in Hf1 |- *. injection Hf1 as Ho1 Hh1 Hc1. destruct Hp2 as (_ & Ho2 & Hh2 & _ & Hc2).
    rewrite Ho2, Hh2, Hc2, Ho1, Hh1, Hc1. cbn [fmap list_fmap tail]. by rewrite Hl1.
  - intros q Ho Hq. apply Hm3; [done|]. intros Hin. by apply Hq, Hpi.
Qed.
End Turn.

(** A line of blanks only: its copy is never released. *)
Lemma blank_line_leaks {W : Type} `{UserInput W} fuel img (w : W) line :
  layout img -> heap_ok w -> (1 < avail w)%nat -> BUF_SIZE <= Z.of_nat fuel ->
  cstr (user_mem w) (input_buf img) line -> 0 < Z.of_nat (length line) < BUF_SIZE -> words line = [] ->
  exists raw w', runs (run_line fuel img (input_buf img) (a_parse img)) w tt w' /\
    blocks w !! raw = None /\ blocks w' = <[raw := Z.of_nat (length line) + 1]> (blocks w).
Proof.
  intros Hly Hok Hav Hfu Hc Hlen Hw. set (p := a_parse img). unfold BUF_SIZE in *.
  assert (forall q, p <= q < p + SIZEOF_CMD_PARSE -> image q) as Hpi.
  { intros q Hq. by apply (buffer_image img 2 (p, SIZEOF_CMD_PARSE)). }
  assert (line <> []) as Hne by (intros ->; simpl in Hlen; lia).
  destruct (runs_parse_cmd fuel w p Hpi (input_buf img) line) as (raw & l & w1 & Hr1 & Hl1 & Hp1); [done|done|done|lia|lia| |..].
  { intros q Hq. assert (range (input_buf img) BUF_SIZE q) as Hin by (unfold range, BUF_SIZE; lia).
    destruct (buffer_image img 1 (input_buf img, BUF_SIZE) q Hly eq_refl Hin) as [Hi _]. split; [done|].
    intros Hq'. by discriminate (ly_apart img Hly 1 2 _ _ q eq_refl eq_refl Hin Hq'). }
  { rewrite Hw. simpl. lia. }
  rewrite Hw in Hl1. apply fmap_nil_inv in Hl1 as ->. destruct (blank_line_kept _ _ _ _ _ _ Hp1 eq_refl) as [Hb Hfr].
  exists raw, w1. split_and!; [|done..]. unfold run_line. run_step.
  eapply runs_bind; [apply runs_lift, (user_strlen_cstr fuel _ _ line); [done|lia]|]. cbv beta.
  rewrite (proj2 (Z.eqb_neq _ _)) by lia. eapply runs_bind; [exact Hr1|]. cbv beta.
  eapply runs_bind; [by eapply runs_cnt|]. apply runs_ret.
Qed.

(** C12. A turn of the shell, from the typed line to the screen.  When the words of the line (its first 255 characters)
    begin with [echo], the turn prints the current directory as the prompt, then up to fifteen further words, each with a
    blank, then the end of the line; it takes one line, gives back every block it took, closes what it opened, and
    changes no byte outside the shell's buffers, so that the next turn starts as this one did. *)
Theorem shell_echo_turn {W : Type} `{UserInput W} fuel img (w : W) indet line ls args :
  layout img -> names_ok img w -> heap_ok w -> (17 < avail w)%nat -> BUF_SIZE <= Z.of_nat fuel ->
  Z.of_nat (length (cwd_of w)) < BUF_SIZE -> Forall (fun c => 0 < c < 256) (cwd_of w) ->
  lines w = line :: ls -> Forall (fun c => 0 < c < 256) line -> (length line < fuel)%nat ->
  words (take 255 line) = lit "echo" :: args ->
  exists w', runs (main_turn fuel img indet) w tt w' /\ same_heap w w' /\ lines w' = ls /\ names_ok img w' /\
    files_of w' = (output w ++ (STDOUT, cwd_of w ++ lit "$: ") ::
                     ((fun x => (STDOUT, x ++ [32])) <$> take 15 args) ++ [(STDOUT, [10])], handles w, cwd_of w) /\
    (forall q, owned w q -> ~ in_buffers img q -> user_mem w' q = user_mem w q).
Proof.
  intros Hly Hn Hok Hav Hfu Hcl Hcc Hl Hlc Hlf Hw.
  destruct (turn_front fuel img w indet line ls) as (w1 & Hc1 & Hl1 & Hs1 & Hgo); [done|done|lia|done..|].
  pose proof Hc1 as [[Hok1 Hb1 Hav1] Hm1 Ho1 Hh1 _ Hcw1].
  destruct (run_line_echo fuel img w1 (take 255 line) args) as (w2 & Hr2 & Hsh2 & Hl2 & Hf2 & Hm2); [done| |done|lia|done|done| |done|].
  { by eapply names_changed. }
  { rewrite length_take. unfold BUF_SIZE. lia. }
  assert (forall q, owned w q -> ~ in_buffers img q -> user_mem w2 q = user_mem w q) as Hm.
  { intros q Ho Hq. rewrite Hm2, Hm1; [done..| |done]. by eapply changed_owned. }
  exists w2. split_and!.
  - by apply Hgo.
  - destruct Hsh2 as [Hok2 Hb2 Hav2]. split; [done|congruence|congruence].
  - congruence.
  - eapply Forall2_impl; [exact Hn|]. intros a e [Hs Hq]. split; [|done]. eapply cstr_ext; [|exact Hs]. intros q Hin.
    destruct (Hq q Hin). apply Hm; [by left|done].
  - rewrite Hf2, Ho1, Hh1, Hcw1, <- app_assoc. done.
  - done.
Qed.

(** The shell with ["echo  hi"] typed, in [/home]. *)
Definition demo_names : list Z := [5000; 5010; 5020; 5030; 5040; 5050].
Definition demo_shell : shell_image := ShellImage 1000 1256 1600 1700 demo_names 2000 2200 2500 10000.
Definition demo_turn : demo :=
  Demo (foldr (fun e m => store_bytes m e.1 (lit e.2.1 ++ [0])) (fun _ => 7) (zip demo_names builtins))
    ∅ [] {[0; 1; 2]} [] [] (lit "/home") [lit "echo  hi"; lit "ls"].

Lemma demo_layout : layout (W := demo) demo_shell.
Proof.
  split.
  - intros q Hq. unfold in_buffers, buffers in Hq. simpl. rewrite !Exists_cons, Exists_nil in Hq.
    unfold range, BUF_SIZE, SIZEOF_CMD_PARSE in Hq. simpl in Hq. lia.
  - intros i j b c q Hi Hj Hb Hc. unfold range in *.
    do 4 (destruct i as [|i]; [do 4 (destruct j as [|j]; [simpl in Hi, Hj; simplify_eq/=; try done;
      unfold BUF_SIZE, SIZEOF_CMD_PARSE in *; lia|]); discriminate Hj|]). discriminate Hi.
  - repeat constructor; simpl; lia.
Qed.

Lemma demo_names_ok : names_ok demo_shell demo_turn.
Proof.
  unfold names_ok. repeat (constructor; [split; [by vm_compute|]; intros q Hq; unfold lit in Hq; simpl in Hq|]); [..|constructor];
    (split; [simpl; lia|]); unfold in_buffers, buffers; rewrite !Exists_cons, Exists_nil;
    unfold range, BUF_SIZE, SIZEOF_CMD_PARSE; simpl; lia.
Qed.

Lemma shell_echo_turn_witness :
  exists w', runs (main_turn 300 demo_shell 0) demo_turn tt w' /\
    output w' = [(1, lit "/home$: "); (1, lit "hi "); (1, [10])] /\ lines w' = [lit "ls"] /\ blocks w' = ∅.
Proof.
  destruct (shell_echo_turn 300 demo_shell demo_turn 0 (lit "echo  hi") [lit "ls"] [lit "hi"])
    as (w' & Hr & [_ Hb _] & Hl & _ & Hf & _).
  - apply demo_layout.
  - apply demo_names_ok.
  - split; [by intros a n Ha|constructor].
  - vm_compute. lia.
  - unfold BUF_SIZE. lia.
  - vm_compute. reflexivity.
  - repeat constructor; lia.
  - reflexivity.
  - repeat constructor; lia.
  - simpl. lia.
  - reflexivity.
  - exists w'. split; [exact Hr|]. unfold files_of in Hf. injection Hf as Ho _ _. split; [exact Ho|]. split; [exact Hl|exact Hb].
Defined.
