(* ===== verification/UserAbi.v ===== *)
(** * The system calls as the user programs make them

    A program puts the number of a call and its arguments in registers and executes [syscall]; the entry of the kernel
    ([kernel/src/proc/syscall_support.S]) calls the function of the table with them.  The numbers of [libc/sysfunc.h] are
    those of the table.  With the addresses that [vmalloc] chooses given, the calls of [Syscall] keep the promises
    of [UserHeap], so that what is proved of the shell's memory holds on the kernel. *)

From S2P Require Import Prelude KLib Sched Task Vfs Elf Proc Syscall Kprint Libc LibcProofs UserLaws.

(** ** Registers *)

Definition openmode_of (z : Z) : option vfs_openmode_t :=
  if z =? 0 then Some VFS_MODE_READ else if z =? 1 then Some VFS_MODE_WRITE else if z =? 2 then Some VFS_MODE_READWRITE else None.
Definition openmode_number (m : vfs_openmode_t) : Z :=
  match m with VFS_MODE_READ => 0 | VFS_MODE_WRITE => 1 | VFS_MODE_READWRITE => 2 end.

(** The entry of the table for a number, with the registers it takes; there is no entry behind the table. *)
Definition decode (n : Z) (args : list Z) : option syscall_t :=
  match args with
  | [] => if n =? 0 then Some SYSCALL_DEBUGLOG else if n =? 11 then Some SYSCALL_FORK else None
  | [a] =>
    if n =? 1 then Some (SYSCALL_USEREXIT a) else if n =? 3 then Some (SYSCALL_CLOSE a)
    else if n =? 9 then Some (SYSCALL_VFREE a) else if n =? 12 then Some (SYSCALL_SLEEP a)
    else if n =? 14 then Some (SYSCALL_WAIT a) else if n =? 16 then Some (SYSCALL_CHDIR a) else None
  | [a; b] =>
    if n =? 2 then m ← openmode_of b; Some (SYSCALL_OPEN a m)
    else if n =? 7 then Some (SYSCALL_USER_PANIC a b) else if n =? 8 then Some (SYSCALL_VMALLOC a b)
    else if n =? 15 then Some (SYSCALL_GETCWD a b) else None
  | [a; b; c] =>
    if n =? 4 then Some (SYSCALL_READ a b c) else if n =? 5 then Some (SYSCALL_WRITE a b c)
    else if n =? 6 then Some (SYSCALL_LSEEK a b c) else if n =? 10 then Some (SYSCALL_READDIR a b c)
    else if n =? 13 then Some (SYSCALL_EXECVE a b c) else if n =? 17 then Some (SYSCALL_SPAWN a b c) else None
  | _ => None
  end.

Definition call_args (c : syscall_t) : list Z :=
  match c with
  | SYSCALL_DEBUGLOG | SYSCALL_FORK => []
  | SYSCALL_USEREXIT a | SYSCALL_CLOSE a | SYSCALL_VFREE a | SYSCALL_SLEEP a | SYSCALL_WAIT a | SYSCALL_CHDIR a => [a]
  | SYSCALL_OPEN a m => [a; openmode_number m]
  | SYSCALL_USER_PANIC a b | SYSCALL_VMALLOC a b | SYSCALL_GETCWD a b => [a; b]
  | SYSCALL_READ a b c | SYSCALL_WRITE a b c | SYSCALL_LSEEK a b c | SYSCALL_READDIR a b c
  | SYSCALL_EXECVE a b c | SYSCALL_SPAWN a b c => [a; b; c]
  end.

Lemma decode_call c : decode (syscall_number c) (call_args c) = Some c.
Proof. destruct c as [| |? m| | | | | | | | | | | | | | |]; try done. by destruct m. Qed.

Section Abi.
Context {F W P : Type} {ops : FsOps F W P}.
Context (sched_task_start sched_task_start_user : Z) (fuel : nat) (cpu : Z).
Notation proc := (proc_t (F := F) (W := W) (P := P)).

(** The kernel and the memory of the program; the sizes of its blocks, and the addresses that [vmalloc] will choose. *)
Record user_sys := UserSys {
  u_proc : proc; u_mem : memory; u_sizes : gmap Z Z; u_supply : list Z; u_env : sys_env }.

(** The lower half of the address space is the program's. *)
Definition user_half (q : Z) : bool := (0 <=? q) && (q <? 2 ^ 47).
Definition overlay (um km : memory) : memory := fun q => if user_half q then um q else km q.
Definition enter (w : user_sys) : proc := with_mem (overlay (u_mem w) (mem (u_proc w))) (u_proc w).

(** The ghost state of a call. *)
Definition after_call (c : syscall_t) (w : user_sys) : gmap Z Z * list Z :=
  match c, u_supply w with
  | SYSCALL_VMALLOC _ sz, va :: supply => (<[va := sz]> (u_sizes w), supply)
  | SYSCALL_VFREE a, supply => (delete a (u_sizes w), a :: supply)
  | _, supply => (u_sizes w, supply)
  end.

Definition call_env (w : user_sys) : sys_env :=
  let e := u_env w in SysEnv (e_fresh e) (e_block e) (fun _ _ => default 0 (head (u_supply w))) (e_tmp e) (e_ustack e).

(** A call that waits is not over: the task is switched away. *)
Definition kernel_call (n : Z) (args : list Z) : U user_sys Z := fun w =>
  c ← decode n args;
  '(s, r) ← syscall_funs sched_task_start sched_task_start_user fuel cpu (call_env w) c (enter w);
  let w' := UserSys s (overlay (mem s) (u_mem w)) (after_call c w).1 (after_call c w).2 (u_env w) in
  match r with
  | Ret v => Some (Done v w')
  | Void => Some (Done 0 w')
  | Ended => Some (Gone w')
  | Wait => None
  end.

#[export] Instance kernel_user : UserKernel user_sys :=
  {| user_mem := u_mem; with_user_mem m w := UserSys (u_proc w) m (u_sizes w) (u_supply w) (u_env w); syscall := kernel_call |}.

(** The running task and its areas; the blocks are among them, and blocks and future blocks are 2 GB apart, behind
    the image. *)
Definition place (a : Z) : Prop := exists k, 0 <= k < 2 ^ 15 /\ a = 2 ^ 32 + 2 ^ 31 * k.
Record sys_heap_ok (w : user_sys) : Prop := {
  hk_task : exists t i areas, sched_get_task cpu (sched (u_proc w)) = Some t /\ images (u_proc w) !! t = Some i /\
    spaces (u_proc w) !! Task.mm i = Some areas /\ dom (u_sizes w) ⊆ areas;
  hk_supply : NoDup (u_supply w) /\ Forall place (u_supply w) /\ Forall (fun a => u_sizes w !! a = None) (u_supply w);
  hk_sizes : map_Forall (fun a n => place a /\ n <= 2 ^ 31) (u_sizes w);
}.

Lemma place_apart a b : place a -> place b -> a <> b -> a + 2 ^ 31 <= b \/ b + 2 ^ 31 <= a.
Proof. intros (k & _ & ->) (j & _ & ->) Hne. assert (k <> j) by congruence. lia. Qed.

Lemma overlay_enter w q : overlay (mem (enter w)) (u_mem w) q = u_mem w q.
Proof. unfold overlay, enter. simpl. unfold overlay. by destruct (user_half q). Qed.

Lemma kernel_vmalloc w va supply ptr sz :
  sys_heap_ok w -> u_supply w = va :: supply -> 0 < sz < 2 ^ 31 ->
  exists w', runs (syscall 8 [ptr; sz]) w va w' /\ sys_heap_ok w' /\ u_sizes w' = <[va := sz]> (u_sizes w) /\
    u_supply w' = supply /\ (forall q, u_mem w' q = u_mem w q).
Proof.
  intros [(t & i & areas & Ht & Hi & Ha & Hdom) (Hnd & Hpl & Hfr) Hsz] Hsup Hrange. rewrite Hsup in *.
  apply NoDup_cons in Hnd as [Hva Hnd]. apply Forall_cons in Hpl as [Hp Hpl]. apply Forall_cons in Hfr as [Hf Hfr].
  assert (va <> 0) as Hnz by (destruct Hp as (k & ? & ->); lia).
  set (s := with_spaces (<[Task.mm i := {[va]} ∪ areas]> (spaces (u_proc w))) (enter w)).
  assert (Syscall.sys_vmalloc cpu (fun _ _ => va) ptr sz (enter w) = Some (s, va)) as Hcall.
  { unfold Syscall.sys_vmalloc. change (sched (enter w)) with (sched (u_proc w)). rewrite Ht. cbn [mbind option_bind].
    change (images (enter w)) with (images (u_proc w)). rewrite Hi. cbn [mbind option_bind].
    change (spaces (enter w)) with (spaces (u_proc w)). rewrite Ha. cbn [mbind option_bind].
    by rewrite (proj2 (Z.eqb_neq va 0)) by done. }
  exists (UserSys s (overlay (mem s) (u_mem w)) (<[va := sz]> (u_sizes w)) supply (u_env w)). split_and!; try done.
  - unfold runs, syscall, kernel_user, kernel_call. change (decode 8 [ptr; sz]) with (Some (SYSCALL_VMALLOC ptr sz)).
    cbn [mbind option_bind syscall_funs]. unfold after_call, call_env. rewrite Hsup. cbn [head default e_vmalloc].
    unfold returns. change (id va) with va. rewrite Hcall. done.
  - constructor; cbn [u_proc u_sizes u_supply].
    + exists t, i, ({[va]} ∪ areas). split_and!; [done..|unfold s; simpl; by rewrite lookup_insert_eq|]. rewrite dom_insert_L. set_solver.
    + split_and!; [done..|]. apply Forall_forall. intros a Ha'. rewrite lookup_insert_ne by (by intros ->).
      by eapply (proj1 (Forall_forall _ _) Hfr).
    + apply map_Forall_insert_2; [split; [done|lia]|done].
  - intros q. apply overlay_enter.
Qed.

Lemma kernel_vfree w a n :
  sys_heap_ok w -> u_sizes w !! a = Some n ->
  exists w', runs (syscall 9 [a]) w 0 w' /\ sys_heap_ok w' /\ u_sizes w' = delete a (u_sizes w) /\
    u_supply w' = a :: u_supply w /\ (forall q, u_mem w' q = u_mem w q).
Proof.
  intros [(t & i & areas & Ht & Hi & Ha & Hdom) (Hnd & Hpl & Hfr) Hsz] Hn.
  assert (a ∈ areas) as Hin by (apply Hdom, elem_of_dom; by exists n).
  set (s := with_spaces (<[Task.mm i := areas ∖ {[a]}]> (spaces (u_proc w))) (enter w)).
  assert (Syscall.sys_vfree cpu a (enter w) = Some s) as Hcall.
  { unfold Syscall.sys_vfree. change (sched (enter w)) with (sched (u_proc w)). rewrite Ht. cbn [mbind option_bind].
    change (images (enter w)) with (images (u_proc w)). rewrite Hi. cbn [mbind option_bind].
    unfold vfree_user. change (spaces (enter w)) with (spaces (u_proc w)). rewrite Ha. by rewrite bool_decide_eq_true_2. }
  exists (UserSys s (overlay (mem s) (u_mem w)) (delete a (u_sizes w)) (a :: u_supply w) (u_env w)). split_and!; try done.
  - unfold runs, syscall, kernel_user, kernel_call. change (decode 9 [a]) with (Some (SYSCALL_VFREE a)).
    cbn [mbind option_bind syscall_funs]. unfold ends. rewrite Hcall. done.
  - constructor; cbn [u_proc u_sizes u_supply].
    + exists t, i, (areas ∖ {[a]}). split_and!; [done..|unfold s; simpl; by rewrite lookup_insert_eq|]. rewrite dom_delete_L. set_solver.
    + split_and!.
      * constructor; [|done]. intros Hs. by rewrite (proj1 (Forall_forall _ _) Hfr a Hs) in Hn.
      * constructor; [|done]. by apply (Hsz a n).
      * constructor; [by rewrite lookup_delete_eq|]. eapply Forall_impl; [exact Hfr|]. intros b Hb.
        destruct (decide (b = a)) as [->|]; [by rewrite lookup_delete_eq|by rewrite lookup_delete_ne].
    + by apply map_Forall_delete.
  - intros q. apply overlay_enter.
Qed.

(** The promises of [UserHeap], kept by the kernel. *)
#[export] Program Instance kernel_user_heap : UserHeap user_sys :=
  {| blocks := u_sizes; avail w := length (u_supply w); image q := 0 <= q < 2 ^ 32; heap_ok := sys_heap_ok |}.
Next Obligation. done. Qed.
Next Obligation. done. Qed.
Next Obligation. done. Qed.
Next Obligation. intros m w [Ht Hs Hz]. by constructor. Qed.
Next Obligation.
  intros w a n b k [_ _ Hz] Ha Hb Hne. destruct (Hz a n Ha) as [Hpa Hna], (Hz b k Hb) as [Hpb Hkb].
  pose proof (place_apart a b Hpa Hpb Hne). lia.
Qed.
Next Obligation. intros w a n q [_ _ Hz] Ha Hq. destruct (Hz a n Ha) as [(k & Hk & ->) _]. lia. Qed.
Next Obligation.
  intros w sz Hok Hsz Hav. cbv beta in Hav. destruct (u_supply w) as [|va supply] eqn:E; [simpl in Hav; lia|].
  destruct (kernel_vmalloc w va supply 0 sz Hok E Hsz) as (w' & Hr & Hok' & Hs' & Hsup & Hm).
  destruct (hk_supply w Hok) as (_ & Hpl & Hfr). rewrite E in Hpl, Hfr. apply Forall_cons in Hpl as [(k & Hk & Hva) _].
  apply Forall_cons in Hfr as [Hfr _]. exists va, w'. split_and!; try done; [lia|lia|].
  cbn beta. by rewrite Hsup, E.
Qed.
Next Obligation.
  intros w a n Hok Ha. destruct (kernel_vfree w a n Hok Ha) as (w' & Hr & Hok' & Hs' & Hsup & Hm).
  exists 0, w'. split_and!; try done. by rewrite Hsup.
Qed.
End Abi.
